(* ===== verification/_CoqProject ===== *)
-Q . S2P
Prelude.v
Bytes.v
JsonValue.v
KvTree.v
Engines.v
Pdu.v
Database.v
Short.v
StateCompressor.v
RoomState.v
Accounts.v
StateCache.v
Timeline.v
PduJson.v
AccountData.v
Devices.v
UserKeys.v
AuthChain.v
Edus.v
RoomTables.v
Search.v
KeyBackups.v
Sending.v
SendingInv.v
StateAccess.v
MemberEvents.v
SolanaAuth.v
Registry.v
Uiaa.v
Appservice.v
TimelineService.v
MediaStore.v
MediaInv.v
MediaService.v
MediaFiles.v
ServerKeys.v
EventHandler.v
EventHandlerInv.v
EventFetch.v
LocalEvents.v
Membership.v
LocalAccounts.v
MembershipInv.v
Destinations.v
FederationRoutes.v
FederationSafe.v
Session.v
Spaces.v
RequestAuth.v
Migrations.v
MigrationsInv.v
KeyRoutes.v
Sync.v
SyncInv.v
SlidingSync.v
Rooms.v
History.v
AccountRoutes.v
SendRoutes.v
Directory.v
BackupRoutes.v
Push.v
Admin.v
