(* ===== verification/Prelude.v ===== *)
(** * Solana Chat: a verification development

    The repository is a Matrix homeserver whose users log in with a Solana
    wallet ([server/], a Conduit fork in Rust), an on-chain registry that maps
    a wallet to its homeserver ([programs/homeserver-registry], an Anchor
    program) and a web client.  This library models the registry and the
    homeserver's storage, rooms and authentication as executable functions and
    proves what makes them correct.  Paths below are relative to [server/src]
    unless they start with [programs/].

    ** How the program is put together

    Every handler of the client API ([api/client_server]) calls services
    ([service]), and a service keeps its state in the trees and caches of one
    [KeyValueDatabase] ([database/mod.rs], [database/key_value]) through the
    trait [KvTree] ([database/abstraction.rs]), which RocksDB and SQLite
    implement.  Keys are byte strings whose parts are joined by 0xff, which no
    UTF-8 text contains; most of the server's correctness is about what those
    keys and their scans mean.  Accordingly the files build on each other:

    - [Prelude]: errors ([utils/error.rs]), results with panics, the
      state-and-error monad [M], list lemmas, tactics.
    - [Bytes]: byte strings, 64-bit counters, UTF-8, 0xff-separated keys
      ([utils/mod.rs]).
    - [KvTree]: the contract of a tree, an ordered finite map.
    - [Engines]: the prefix watchers and both storage engines, over the
      documented behaviour of RocksDB and of the SQL statements; the class
      [KvEngine] states what an engine promises.
    - [Pdu]: events and timeline positions ([service/pdu.rs],
      [service/rooms/timeline]).
    - [Database]: the trees and caches as one record [Db], the calls on them, the
      global counter ([database/mod.rs], [database/key_value/globals.rs]), and
      the classes for third-party code: identifiers ([Ruma]), serialization
      ([Json]), bounded caches ([LruCache]), hash-set order ([HashOrder]).
    - [Short], [StateCompressor], [RoomState]: short ids, layered state diffs and
      room states ([database/key_value/rooms/short.rs], [state_compressor.rs],
      [state.rs], [state_accessor.rs], [service/rooms/state],
      [service/rooms/state_compressor]).
    - [StateCache]: memberships ([database/key_value/rooms/state_cache.rs]).
    - [Timeline]: event storage and pagination
      ([database/key_value/rooms/timeline.rs]).
    - [JsonValue], [PduJson]: JSON values, and the conversions of an event to
      client and federation JSON ([service/pdu.rs]).
    - [Accounts], [Devices], [UserKeys], [AccountData], [KeyBackups]: accounts,
      access tokens, device metadata, to-device messages, end-to-end keys,
      settings and key backups ([database/key_value/users.rs],
      [account_data.rs], [key_backups.rs], [service/users]).
    - [AuthChain], [Edus], [RoomTables], [Search]: auth chains with their caches
      ([service/rooms/auth_chain]), receipts, presence and typing
      ([edus/]), and the smaller tables of [database/key_value/rooms].
    - [Sending], [SendingInv]: the queue of outgoing requests and its handler
      ([service/sending], [database/key_value/sending.rs]).
    - [StateAccess], [MemberEvents]: what users and servers may see
      ([service/rooms/state_accessor]), the effect of membership events
      ([service/rooms/state_cache]).
    - [Appservice]: bridges and bots, and the record [Services] of the state the
      handlers share ([service/appservice]).
    - [TimelineService]: appending an event with all its effects, redactions,
      forced states ([service/rooms/timeline], [service/rooms/state]).
    - [MediaStore], [MediaInv], [MediaService], [MediaFiles]: the media trees
      with blocking, purging and retention ([database/key_value/media.rs]), the
      files behind them and the routes ([service/media],
      [api/client_server/media.rs]).
    - [ServerKeys]: the signing keys of servers ([globals.rs],
      [service/globals], [service/rooms/event_handler]).
    - [EventHandler], [EventHandlerInv], [EventFetch]: events from other servers
      ([service/rooms/event_handler]).
    - [LocalEvents]: making, checking and signing events, creating rooms,
      backfilling ([service/rooms/timeline]).
    - [LocalAccounts]: the class [KeepsAccounts], the promise of the timeline
      service that appending an event keeps the accounts of this server.
    - [Membership], [MembershipInv]: joins here and over federation, knocks,
      leaves, invites, kicks and bans ([service/rooms/helpers],
      [api/client_server/membership.rs]).
    - [Destinations]: the resolution of server names and signed requests
      ([api/server_server.rs], [service/globals]).
    - [FederationRoutes], [FederationSafe]: the endpoints for other servers
      ([api/server_server.rs]).
    - [SolanaAuth]: wallet challenges and their verification
      ([api/client_server/solana_auth.rs]).
    - [Uiaa]: user-interactive authentication ([service/uiaa]).
    - [Session]: the login and logout routes ([api/client_server/session.rs]).
    - [RequestAuth]: who a request is attributed to ([api/ruma_wrapper/axum.rs]).
    - [Migrations], [MigrationsInv]: the steps from any earlier version of the
      database to the current one ([database/mod.rs]).
    - [Sync], [SyncInv], [SlidingSync]: both sync routes
      ([api/client_server/sync.rs]).
    - [Spaces], [KeyRoutes], [Rooms]: hierarchies of spaces
      ([service/rooms/spaces]), the routes of end-to-end keys ([keys.rs]), the
      creation and upgrade of rooms ([room.rs]).
    - [History], [AccountRoutes], [SendRoutes], [Directory], [BackupRoutes],
      [Push]: the other client routes ([api/client_server]): reading a room's
      history, search and relations; accounts, devices, profiles and settings;
      sending events, receipts and to-device messages; public rooms and the user
      directory; key backups; push rules, and the notices to push gateways
      ([service/pusher]).
    - [Admin]: the commands of the admin room ([service/admin]).
    - [Registry]: the on-chain program ([programs/homeserver-registry]).

    ** How the code is modelled

    A function that reads or changes state is a computation in [M S]: it maps a
    state to a result ([Ok], [Err] or [Panic]) and the state it leaves, which a
    failure does not roll back.  Strings and keys are lists of bytes as
    integers; a [u64] is an integer with its wrap-around written out ([w64]) and
    bounds as hypotheses where the code relies on them ([is_u64]).  A [HashMap]
    or tree is a [gmap]; iteration in key order is [entries]; iteration order of
    a hash set is a parameter.  Loops are folds or structural recursion, so
    most functions cannot run out of fuel.  Those that recurse on a bound:
    state loading follows parent hashes, with fuel one more than the number of
    stored diffs, and the searches for auth chains and for the conflicted
    subgraph are bounded by the auth events that stored events name, both shown
    to be enough; the search for missing events takes its fuel as an argument,
    and how much is enough is proved ([missing_events_end]); whitespace trimming
    and splitting into chunks recurse on the length of their input.  The walk
    over a hierarchy of spaces takes its fuel as an argument, and [Spaces] shows
    how much is enough; relations are expanded by recursion on the depth asked
    for; at most five heroes of a room are looked for; random user names are
    drawn from a list that is given.  The two loops of the event handler that follow what
    another server answers have no bound in the code: their fuel is an argument,
    what is proved of the handler holds for every fuel, and [EventFetch] shows
    when it is enough and that it need not be.  The interleaving of concurrent
    requests is modelled at the granularity of operations: runs are sequences of
    whole calls.  Randomness, clocks, hashing, signatures, password hashing,
    regular expressions and JSON are parameters, with the documented behaviour
    they need as class laws or hypotheses, and concrete instances for the
    witnesses.

    ** What the theorems show

    - Wallet login: nonces are single-use and fresh, acceptance means a valid
      signature over this server's message, a holder of the key can always log
      in, wallets and localparts correspond ([SolanaAuth]); the login route
      accepts exactly then and hands out a token for the wallet's user
      ([Session]).
    - Registry: every reachable ledger is well formed, only the owner changes a
      delegation, registration and removal have their effect ([Registry]).
    - Storage: the engines agree with the contract and with each other, watchers
      neither miss nor invent writes ([Engines]).
    - Rooms: short ids are stable, injective and invertible ([Short]); diffs
      round-trip and saved states load as saved ([StateCompressor]); appending
      an event updates exactly its entry ([RoomState]); the membership trees
      refine a map, the counts and servers follow from it ([StateCache],
      [MemberEvents]); the iterators list exactly the events before or after a
      position ([Timeline]); auth chains are exact ([AuthChain]); an appended
      event is stored and queued whatever its effects do, a redaction reaches
      every copy ([TimelineService]); visibility follows the history setting
      ([StateAccess]).
    - Federation: requests are delivered at least once and the queue drains
      ([SendingInv]); only events that pass the authorisation rules enter the
      timeline, refused servers change nothing, fetching ends for finite answers
      ([EventHandlerInv], against the state of the run in which each is checked;
      [EventFetch]; the timeline service is used through the
      class [TimelineWriter], which [timeline_writer] implements); retired keys
      stop verifying ([ServerKeys]).  Server names resolve as the specification
      says and caches stay well formed ([Destinations]); EDUs only speak for
      users of their server, to-device messages are delivered once, the server
      signs only what it may, missing events are found in finite time and shown
      only to servers that may see them ([FederationSafe]).
    - Local events and joins: an event made here is authorised and spares the
      admin room ([LocalEvents], against the class [Appender], which [appender]
      implements); a join stores only verified events, and leaving needs no help
      of other servers ([MembershipInv]).
    - Media: the trees stay consistent, purging keeps shared files, blocking is
      by content, retention makes room ([MediaInv]); what the database lists is
      on disk and an upload can be downloaded ([MediaFiles]).
    - Users: tokens are revoked with their device ([Devices]); one-time keys are
      handed out once ([UserKeys]); account data is a map with an exact change
      feed ([AccountData]); the authentication session machine and its guard
      ([Uiaa]); registrations survive a restart ([Appservice]).
    - Requests: one attributed to a server is signed by a key of it that is on
      record or is published as valid, one attributed to a user carries a token of the user ([RequestAuth]); an account
      is registered only as configured, a new password revokes the other devices'
      tokens ([AccountRoutes]); a repeated transaction id sends nothing
      ([SendRoutes]).
    - Reading: a sync timeline is the newest events, its state the difference
      and the members the timeline needs, to-device messages are sent at least
      once, a request is answered by a task for the same device and position
      ([SyncInv]); a sliding-sync connection records exactly the rooms in its
      windows ([SlidingSync]); a page of history holds exactly the events that
      the policy of their state allows, search results are merged in order ([History]); pages of the
      directory list every room once, a user search shows only users the sender
      may know ([Directory]); hierarchies show only accessible rooms ([Spaces]).
    - Keys and backups: user-signing keys stay private ([KeyRoutes]); uploaded
      backup keys are read back ([BackupRoutes]).
    - Push and administration: a notice is sent exactly when the rules say so and
      tells an [event_id_only] pusher nothing but the id ([Push]); a mass
      deactivation spares admins and strangers whatever its options, and every queued message has a
      command line ([Admin]).
    - Migrations: every old state hash loads the state it had, and a migrated
      database is of the latest version ([MigrationsInv]).
    - Behaviour that differs from what the code says it does is stated as it is,
      for example: the authentication guard passes for unknown users, token
      logins of unknown users panic, cached visibility outlives a membership,
      previous events over the same state collapse into one, fresh keys of
      trusted servers are discarded, an origin can keep the server fetching, a
      server in one room is served the states of all rooms, a delegation is
      forgotten when its SRV record is refreshed, leaves beyond twenty are lost,
      a failed sync is answered again and again, subscriptions of sliding sync
      ignore the membership, a page boundary of a hierarchy loses a room, the
      newest of two key backups may be refused, expired keys of an unreachable
      server authenticate requests, a sliding-sync request sent again is not sent
      the rooms new to its window, a bracketed address without a port is cut, presence is never found.

    ** What is not modelled

    - The evaluation and editing of push rules, state resolution, authorisation
      rules, signatures and JSON: ruma's, parameters here.
    - The grammar of admin commands (clap), the commands that only print what a
      library or the process says, and the HTML of their help text.
    - Reading the configuration ([config/mod.rs]), routing, TLS and the start of
      the tasks ([main.rs]), the opening and tuning of the database files, locks,
      timers and channels: plumbing around the modelled functions.
    - The web client (TypeScript), which renders what the homeserver serves.

    ** This file

    Results, errors, the state-and-error monad and the shared lemmas. *)
From stdpp Require Export base tactics numbers list gmap sets strings sorting.
From Stdlib Require Export ZArith Lia.

#[global] Open Scope Z_scope.
#[export] Set Warnings "-clear-no-such-hyp".

(** ** Errors of the homeserver (utils/error.rs) *)

(** The protocol error kinds the modelled code returns. *)
Inductive ErrorKind :=
  | Forbidden
  | UnknownToken
  | MissingToken
  | Unauthorized
  | NotFound
  | Unrecognized
  | InvalidParam
  | MissingParam
  | InvalidUsername
  | UserInUse
  | NotJson
  | BadJson
  | Exclusive
  | UserDeactivated
  | LimitExceeded
  | TooLarge
  | WrongRoomKeysVersion
  | GuestAccessForbidden
  | ThreepidAuthFailed
  | ThreepidDenied
  | ConnectionTimeout
  | ConnectionFailed
  | BadStatus
  | BadState
  | RoomInUse
  | UnsupportedRoomVersion
  | IncompatibleRoomVersion
  | UnableToAuthorizeJoin
  | UnableToGrantJoin
  | UrlNotSet
  | Unknown.

(** Stages of the user-interactive authentication the server offers. *)
Inductive AuthType :=
  | AuthPassword
  | AuthRegistrationToken
  | AuthDummy
  | AuthOther (name : list Z).

(** The state of one user-interactive authentication ([UiaaInfo]): the flows,
    each a list of stages, the completed stages, the session and the last
    error. *)
Record UiaaInfo := mkUiaaInfo {
  ui_flows : list (list AuthType);
  ui_completed : list AuthType;
  ui_session : option (list Z);
  ui_auth_error : option (ErrorKind * string);
}.

(** The variants of [enum Error] the modelled code raises; the variants that
    wrap a third-party error keep only that they occurred. *)
Inductive Error :=
  | SqliteError
  | RocksDbError
  | ImageError
  | ReqwestError
  | FederationError (origin : list Z) (kind : option ErrorKind)
  | IoError
  | BadS3Response (msg : string)
  | CannotDeleteS3File (msg : list Z)
  | RedactionError (origin : list Z)
  | InconsistentRoomState (msg : string) (room_id : list Z)
  | RegexError
  | BadServerResponse (msg : string)
  | BadConfig (msg : string)
  | BadDatabase (msg : string)
  | Uiaa (info : UiaaInfo)
  | BadRequest (kind : ErrorKind) (msg : string)
  | Conflict (msg : string)
  | PathError
  | TypedHeaderError
  | AdminCommand (msg : string).

#[global] Instance ErrorKind_eq_dec : EqDecision ErrorKind.
Proof. solve_decision. Defined.

#[global] Instance AuthType_eq_dec : EqDecision AuthType.
Proof. solve_decision. Defined.

#[global] Instance UiaaInfo_eq_dec : EqDecision UiaaInfo.
Proof. solve_decision. Defined.

#[global] Instance Error_eq_dec : EqDecision Error.
Proof. solve_decision. Defined.

(** Outcome of a fallible call: [Ok], [Err], or a panic ([expect], [assert!],
    an out-of-range slice). *)
Inductive res (A : Type) : Type :=
  | Ok (a : A)
  | Err (e : Error)
  | Panic.
Arguments Ok {A} a.
Arguments Err {A} e.
Arguments Panic {A}.

#[global] Instance res_ret : MRet res := λ A a, Ok a.

#[global] Instance res_bind : MBind res := λ A B f r,
  match r with Ok a => f a | Err e => Err e | Panic => Panic end.

#[global] Instance res_fmap : FMap res := λ A B f r,
  match r with Ok a => Ok (f a) | Err e => Err e | Panic => Panic end.

(** [Option::ok_or]. *)
Definition ok_or {A} (o : option A) (e : Error) : res A :=
  match o with Some a => Ok a | None => Err e end.

(** [Option::expect] and [unwrap]: a missing value panics. *)
Definition expect {A} (o : option A) : res A :=
  match o with Some a => Ok a | None => Panic end.

(** [Result::ok]. *)
Definition ok {A} (r : res A) : option A :=
  match r with Ok a => Some a | _ => None end.

Definition is_ok {A} (r : res A) : bool :=
  match r with Ok _ => true | _ => false end.

(** [opt.map(f).transpose()] for a fallible [f]. *)
Definition map_transpose {A B} (f : A → res B) (o : option A) : res (option B) :=
  match o with Some a => Some <$> f a | None => Ok None end.

(** [iter.collect::<Result<Vec<_>>>()]: stops at the first failure. *)
Fixpoint collect {A} (l : list (res A)) : res (list A) :=
  match l with
  | [] => Ok []
  | Ok a :: l' => a' ← collect l'; Ok (a :: a')
  | Err e :: _ => Err e
  | Panic :: _ => Panic
  end.

(** [iter.filter_map(|r| r.ok())]. *)
Definition oks {A} (l : list (res A)) : list A := omap ok l.

Lemma collect_fmap_ok {A B} (f : A → res B) (g : A → B) (l : list A) :
  (∀ x, x ∈ l → f x = Ok (g x)) → collect (f <$> l) = Ok (g <$> l).
Proof.
  induction l as [|x l IH]; intros H; [done|]. rewrite fmap_cons. cbn [collect].
  rewrite (H x) by constructor. rewrite IH; [done|]. intros y Hy. apply H. by constructor.
Qed.

Lemma oks_fmap_ok {A B} (f : A → res B) (g : A → B) (l : list A) :
  (∀ x, x ∈ l → f x = Ok (g x)) → oks (f <$> l) = g <$> l.
Proof.
  unfold oks. induction l as [|x l IH]; intros H; simpl; [done|].
  rewrite (H x) by constructor. simpl. f_equal. apply IH. intros y Hy. apply H. by constructor.
Qed.

(** ** The state-and-error monad

    The code mutates shared state and returns [Result]s; a state change made
    before a failure stays (nothing rolls back). *)
Definition M (S A : Type) : Type := S → res A * S.

#[global] Instance M_ret S : MRet (M S) := λ A a s, (Ok a, s).

#[global] Instance M_bind S : MBind (M S) := λ A B f m s,
  match m s with
  | (Ok a, s') => f a s'
  | (Err e, s') => (Err e, s')
  | (Panic, s') => (Panic, s')
  end.

Section monad.
Context {S : Type}.

(** Lift a pure result. *)
Definition lift {A} (r : res A) : M S A := λ s, (r, s).

(** Read the state without changing it. *)
Definition gets {A} (f : S → res A) : M S A := λ s, (f s, s).

(** Change the state. *)
Definition modify (f : S → S) : M S unit := λ s, (Ok tt, f s).

(** [return Err(e)]. *)
Definition fail {A} (e : Error) : M S A := λ s, (Err e, s).

(** [assert!(b)]. *)
Definition assert (b : bool) : M S unit := λ s, (if b then Ok tt else Panic, s).

(** [for x in l { f(x)?; }]. *)
Fixpoint for_each {A} (l : list A) (f : A → M S unit) : M S unit :=
  match l with
  | [] => mret tt
  | x :: l' => f x ;; for_each l' f
  end.

(** [m.ok()]: an error becomes [None]; the state changes made before it stay. *)
Definition try_ok {A} (m : M S A) : M S (option A) := λ s,
  match m s with
  | (Ok a, s') => (Ok (Some a), s')
  | (Err _, s') => (Ok None, s')
  | (Panic, s') => (Panic, s')
  end.

(** An error becomes a value, a panic does not. *)
Definition attempt {A} (m : M S A) : M S (res A) := λ s,
  match m s with
  | (Panic, s') => (Panic, s')
  | (r, s') => (Ok r, s')
  end.

(** A loop with an accumulator, left at the first failure. *)
Fixpoint foldM {A B} (f : B → A → M S B) (b : B) (l : list A) : M S B :=
  match l with
  | [] => mret b
  | x :: l' => b' ← f b x; foldM f b' l'
  end.

Lemma bind_ok {A B} (m : M S A) (f : A → M S B) s a s' :
  m s = (Ok a, s') → (m ≫= f) s = f a s'.
Proof. intros H. unfold mbind, M_bind. by rewrite H. Qed.

Lemma bind_gets {A B} (g : S → A) (f : A → M S B) s :
  (gets (λ s, Ok (g s)) ≫= f) s = f (g s) s.
Proof. done. Qed.

Lemma bind_modify {B} (g : S → S) (f : unit → M S B) s : (modify g ≫= f) s = f tt (g s).
Proof. done. Qed.

Lemma bind_err {A B} (m : M S A) (f : A → M S B) s e s' :
  m s = (Err e, s') → (m ≫= f) s = (Err e, s').
Proof. intros H. unfold mbind, M_bind. by rewrite H. Qed.

Lemma bind_panic {A B} (m : M S A) (f : A → M S B) s s' :
  m s = (Panic, s') → (m ≫= f) s = (Panic, s').
Proof. intros H. unfold mbind, M_bind. by rewrite H. Qed.

Lemma bind_inv {A B} (m : M S A) (f : A → M S B) s b s'' :
  (m ≫= f) s = (Ok b, s'') → ∃ a s', m s = (Ok a, s') ∧ f a s' = (Ok b, s'').
Proof.
  unfold mbind, M_bind. destruct (m s) as [[a|e|] s'] eqn:E; naive_solver.
Qed.

Lemma bind_assoc {A B C} (m : M S A) (k : A → M S B) (f : B → M S C) s : ((m ≫= k) ≫= f) s = (m ≫= λ a, k a ≫= f) s.
Proof. unfold mbind, M_bind. by destruct (m s) as [[]]. Qed.

Lemma for_each_ok {A} (P : S → Prop) (l : list A) (f : A → M S unit) s :
  (∀ x s, x ∈ l → P s → ∃ s', f x s = (Ok tt, s') ∧ P s') → P s → ∃ s', for_each l f s = (Ok tt, s') ∧ P s'.
Proof.
  revert s. induction l as [|x l IH]; intros s Hf Hs; cbn [for_each]; [by exists s|].
  destruct (Hf x s ltac:(by left) Hs) as (s1 & E & Hs1). rewrite (bind_ok _ _ _ _ _ E). apply IH; [|done]. intros y s2 Hy. apply Hf. by right.
Qed.

Lemma for_each_app {A} (l1 l2 : list A) f s :
  for_each (l1 ++ l2) f s = (for_each l1 f ;; for_each l2 f) s.
Proof.
  revert s. induction l1 as [|x l1 IH]; intros s; simpl; [done|].
  unfold mbind, M_bind in *.
  destruct (f x s) as [[[]|e|] s']; [apply IH|done|done].
Qed.

(** A loop whose body always succeeds keeps a loop invariant that may speak of
    the elements handled so far. *)
Lemma foldM_inv {A B} (P : list A → B → S → Prop) (f : B → A → M S B) b l s :
  P [] b s →
  (∀ l1 x l2 b s, l = l1 ++ x :: l2 → P l1 b s → ∃ b' s', f b x s = (Ok b', s') ∧ P (l1 ++ [x]) b' s') →
  ∃ b' s', foldM f b l s = (Ok b', s') ∧ P l b' s'.
Proof.
  intros H0 Hstep.
  assert (∀ l2 l1 b s, l = l1 ++ l2 → P l1 b s → ∃ b' s', foldM f b l2 s = (Ok b', s') ∧ P l b' s') as H;
    [|by apply (H l [])].
  induction l2 as [|x l2 IH]; intros l1 b1 s1 El HP; cbn [foldM].
  - exists b1, s1. rewrite app_nil_r in El. by subst.
  - destruct (Hstep l1 x l2 b1 s1 El HP) as (b2 & s2 & E & HP2). rewrite (bind_ok _ _ _ _ _ E).
    apply (IH (l1 ++ [x])); [|done]. by rewrite <-app_assoc.
Qed.

(** A computation preserves [I] when every outcome leaves a state with [I]. *)
Definition preserves {A} (I : S → Prop) (m : M S A) : Prop := ∀ s, I s → I (m s).2.

Lemma preserves_ret {A} I (a : A) : preserves I (mret a).
Proof. by intros s. Qed.

Lemma preserves_lift {A} I (r : res A) : preserves I (lift r).
Proof. by intros s. Qed.

Lemma preserves_gets {A} I (f : S → res A) : preserves I (gets f).
Proof. by intros s. Qed.

Lemma preserves_fail {A} I e : preserves (A:=A) I (fail e).
Proof. by intros s. Qed.

Lemma preserves_assert I b : preserves I (assert b).
Proof. by intros s. Qed.

Lemma preserves_bind {A B} I (m : M S A) (f : A → M S B) :
  preserves I m → (∀ a, preserves I (f a)) → preserves I (m ≫= f).
Proof.
  intros Hm Hf s HI. unfold mbind, M_bind.
  specialize (Hm s HI). destruct (m s) as [[a|e|] s']; simpl in *; [by apply Hf|done|done].
Qed.

Lemma preserves_for_each {A} I (l : list A) f :
  (∀ a, preserves I (f a)) → preserves I (for_each l f).
Proof.
  intros Hf. induction l as [|x l IH]; simpl; [apply preserves_ret|].
  by apply preserves_bind.
Qed.

Lemma preserves_gets_bind {A B} I (g : S → res A) (f : A → M S B) :
  (∀ a s, I s → g s = Ok a → preserves I (f a)) → preserves I (gets g ≫= f).
Proof. intros H s Hs. unfold mbind, M_bind, gets. destruct (g s) as [a| |] eqn:E; [|done..]. by apply (H a s Hs E). Qed.

Lemma preserves_lift_bind {A B} I (r : res A) (f : A → M S B) :
  (∀ a, r = Ok a → preserves I (f a)) → preserves I (lift r ≫= f).
Proof. intros H s Hs. unfold mbind, M_bind, lift. destruct r; [|done..]. by apply H. Qed.

Lemma preserves_attempt {A} I (m : M S A) : preserves I m → preserves I (attempt m).
Proof. intros H s Hs. specialize (H s Hs). unfold attempt. by destruct (m s) as [[]]. Qed.

Lemma preserves_try_ok {A} I (m : M S A) : preserves I m → preserves I (try_ok m).
Proof. intros H s Hs. specialize (H s Hs). unfold try_ok. by destruct (m s) as [[]]. Qed.

Lemma preserves_foldM {A B} I (f : B → A → M S B) (l : list A) : (∀ x, x ∈ l → ∀ b, preserves I (f b x)) → ∀ b, preserves I (foldM f b l).
Proof.
  induction l as [|x l IH]; intros H b; cbn [foldM]; [apply preserves_ret|]. apply preserves_bind; [apply H; by left|].
  intros b'. apply IH. intros y Hy. apply H. by right.
Qed.

Lemma preserves_for_each_in {A} I (l : list A) f : (∀ x, x ∈ l → preserves I (f x)) → preserves I (for_each l f).
Proof.
  induction l as [|x l IH]; intros H; cbn [for_each]; [apply preserves_ret|]. apply preserves_bind; [apply H; by left|].
  intros _. apply IH. intros y Hy. apply H. by right.
Qed.
End monad.

(** Steps a monadic computation whose calls are known to succeed. *)
Create HintDb monad discriminated.
#[export] Hint Resolve preserves_ret preserves_lift preserves_gets preserves_fail
  preserves_assert preserves_for_each : monad.

(** Unfold the monad plumbing of a goal that runs a computation on a state. *)
Ltac run := cbv beta iota delta [mbind mret M_bind M_ret lift gets modify fail assert].
Tactic Notation "run" "in" hyp(H) :=
  cbv beta iota delta [mbind mret M_bind M_ret lift gets modify fail assert] in H.

(** Membership in an explicit list. *)
Ltac in_list := repeat constructor.

(** ** Lists *)

(** [Iterator::take_while]. *)
Fixpoint take_while {A} (p : A → bool) (l : list A) : list A :=
  match l with
  | [] => []
  | x :: l' => if p x then x :: take_while p l' else []
  end.

(** [Iterator::filter] on a boolean test (kept apart from stdpp's [filter] on
    decidable propositions). *)
Fixpoint bfilter {A} (p : A → bool) (l : list A) : list A :=
  match l with
  | [] => []
  | x :: l' => if p x then x :: bfilter p l' else bfilter p l'
  end.

(** [Iterator::find]. *)
Fixpoint find {A} (p : A → bool) (l : list A) : option A :=
  match l with
  | [] => None
  | x :: l' => if p x then Some x else find p l'
  end.

Section lists.
Context {A : Type}.
Implicit Types (p q : A → bool) (l : list A).

Lemma elem_of_bfilter p l x : x ∈ bfilter p l ↔ p x = true ∧ x ∈ l.
Proof.
  induction l as [|y l IH]; simpl; [rewrite elem_of_nil; naive_solver|].
  destruct (p y) eqn:E; rewrite ?elem_of_cons, IH; naive_solver congruence.
Qed.

Lemma bfilter_app p l1 l2 : bfilter p (l1 ++ l2) = bfilter p l1 ++ bfilter p l2.
Proof. induction l1 as [|x l1 IH]; simpl; [done|]. destruct (p x); by rewrite IH. Qed.

Lemma bfilter_reverse p l : bfilter p (reverse l) = reverse (bfilter p l).
Proof.
  induction l as [|x l IH]; [done|].
  rewrite reverse_cons, bfilter_app, IH. simpl.
  destruct (p x); by rewrite ?reverse_cons, ?app_nil_r.
Qed.

Lemma bfilter_ext p q l : (∀ x, x ∈ l → p x = q x) → bfilter p l = bfilter q l.
Proof.
  induction l as [|x l IH]; intros H; simpl; [done|].
  rewrite (H x) by constructor. rewrite IH; [done|]. intros y Hy. apply H. by constructor.
Qed.

Lemma bfilter_bfilter p q l : bfilter p (bfilter q l) = bfilter (λ x, q x && p x) l.
Proof. induction l as [|x l IH]; simpl; [done|]. destruct (q x); simpl; by rewrite IH. Qed.

Lemma bfilter_true p l : (∀ x, x ∈ l → p x = true) → bfilter p l = l.
Proof.
  induction l as [|x l IH]; intros H; simpl; [done|].
  rewrite (H x) by constructor. rewrite IH; [done|]. intros y Hy. apply H. by constructor.
Qed.

Lemma bfilter_false p l : (∀ x, x ∈ l → p x = false) → bfilter p l = [].
Proof.
  induction l as [|x l IH]; intros H; simpl; [done|].
  rewrite (H x) by constructor. rewrite IH; [done|]. intros y Hy. apply H. by constructor.
Qed.

Lemma bfilter_sublist p l : sublist (bfilter p l) l.
Proof. induction l as [|x l IH]; simpl; [done|]. destruct (p x); by constructor. Qed.

Lemma NoDup_bfilter p l : NoDup l → NoDup (bfilter p l).
Proof. intros H. by eapply sublist_NoDup, bfilter_sublist. Qed.

(** On a list whose elements satisfying [p] come first, [take_while] is
    [filter]. *)
Lemma take_while_bfilter p l :
  (∀ l1 x l2, l = l1 ++ x :: l2 → p x = false → ∀ y, y ∈ l2 → p y = false) →
  take_while p l = bfilter p l.
Proof.
  induction l as [|x l IH]; intros H; simpl; [done|].
  destruct (p x) eqn:E.
  - f_equal. apply IH. intros l1 y l2 -> Hy z Hz. by apply (H (x :: l1) y l2).
  - symmetry. apply bfilter_false. intros y Hy. by apply (H [] x l).
Qed.

Lemma take_while_true p l : (∀ x, x ∈ l → p x = true) → take_while p l = l.
Proof.
  induction l as [|x l IH]; intros H; simpl; [done|].
  rewrite (H x) by constructor. rewrite IH; [done|]. intros y Hy. apply H. by constructor.
Qed.

Lemma take_while_andb p q l : take_while (λ x, p x && q x) l = take_while q (take_while p l).
Proof. induction l as [|x l IH]; simpl; [done|]. destruct (p x), (q x) eqn:E; simpl; rewrite ?E, ?IH; done. Qed.

Lemma find_Some p l x : find p l = Some x → p x = true ∧ x ∈ l.
Proof.
  induction l as [|y l IH]; simpl; [done|].
  destruct (p y) eqn:E; rewrite elem_of_cons; naive_solver.
Qed.

Lemma find_None p l : find p l = None ↔ ∀ x, x ∈ l → p x = false.
Proof.
  induction l as [|y l IH]; simpl; [setoid_rewrite elem_of_nil; naive_solver|].
  destruct (p y) eqn:E; split.
  - done.
  - intros H. specialize (H y ltac:(constructor)). congruence.
  - intros Hl x [->|Hx]%elem_of_cons; [done|]. by apply IH.
  - intros Hl. apply IH. intros x Hx. apply Hl. by constructor.
Qed.

Lemma find_head_bfilter p l : find p l = head (bfilter p l).
Proof. induction l as [|x l IH]; simpl; [done|]. by destruct (p x). Qed.
End lists.

Lemma StronglySorted_bfilter {A} (R : relation A) p l :
  StronglySorted R l → StronglySorted R (bfilter p l).
Proof.
  induction 1 as [|x l Hl IH Hx]; simpl; [constructor|].
  destruct (p x); [|done]. constructor; [done|].
  rewrite Forall_forall in Hx |- *. intros y Hy.
  apply elem_of_bfilter in Hy as [_ Hy]. by apply Hx.
Qed.

Lemma StronglySorted_app_inv_lt {A} (R : relation A) l1 x l2 y :
  StronglySorted R (l1 ++ x :: l2) → y ∈ l2 → R x y.
Proof.
  induction l1 as [|z l1 IH]; simpl; intros H Hy.
  - apply StronglySorted_inv in H as [_ H]. rewrite Forall_forall in H. by apply H.
  - apply StronglySorted_inv in H as [H _]. by apply IH.
Qed.

(** Two strongly sorted lists for an asymmetric order with the same elements
    are equal. *)
Lemma StronglySorted_strict_eq {A} (R : relation A) `{!Irreflexive R, !Transitive R} l1 l2 :
  StronglySorted R l1 → StronglySorted R l2 → (∀ x, x ∈ l1 ↔ x ∈ l2) → l1 = l2.
Proof.
  intros H1. revert l2. induction H1 as [|x l1 Hl IH Hx]; intros l2 H2 He.
  - destruct l2 as [|y l2]; [done|]. exfalso. specialize (He y). set_solver.
  - destruct H2 as [|y l2 Hl2 Hy]; [exfalso; specialize (He x); set_solver|].
    rewrite Forall_forall in Hx, Hy.
    assert (x = y) as ->.
    { assert (x ∈ y :: l2) as [->|Hin]%elem_of_cons by (apply He; constructor); [done|].
      assert (y ∈ x :: l1) as [->|Hin']%elem_of_cons by (apply He; constructor); [done|].
      destruct (irreflexivity R x). transitivity y; [by apply Hx|by apply Hy]. }
    f_equal. apply IH; [done|]. intros z. split; intros Hz.
    + assert (z ∈ y :: l2) as [->|?]%elem_of_cons by (apply He; by constructor); [|done].
      destruct (irreflexivity R y). by apply Hx.
    + assert (z ∈ y :: l1) as [->|?]%elem_of_cons by (apply He; by constructor); [|done].
      destruct (irreflexivity R y). by apply Hy.
Qed.

(** A map filled by a loop, when the keys determine the values. *)
Lemma lookup_fold_map {K V} `{Countable K} (l : list (K * V)) k v :
  (∀ k x y, (k, x) ∈ l → (k, y) ∈ l → x = y) →
  (fold_left (λ m '(k, v), <[k := v]> m) l (∅ : gmap K V) !! k = Some v ↔ (k, v) ∈ l).
Proof.
  induction l as [|[k' v'] l IH] using rev_ind; intros Hf; simpl.
  { rewrite lookup_empty. set_solver. }
  rewrite fold_left_app. simpl. rewrite lookup_insert. case_decide as E; [subst k'|].
  - split; [intros [= <-]; set_solver|]. intros Hin. f_equal. apply (Hf k); set_solver.
  - rewrite IH; [|intros k0 x y Hx Hy; apply (Hf k0); set_solver]. set_solver.
Qed.

(** ** Runs with a log

    A run of calls keeps each call with its answer; counting arguments over the
    log follow from one step. *)
Section runs.
Context {Op Ans S : Type} (step : Op → S → Ans * S).

Fixpoint run_log (ops : list Op) (s : S) : list (Op * Ans) * S :=
  match ops with
  | [] => ([], s)
  | op :: ops' =>
      let '(a, s1) := step op s in
      let '(log, s2) := run_log ops' s1 in ((op, a) :: log, s2)
  end.

(** How many log entries satisfy [p]. *)
Definition count_log (p : Op * Ans → bool) (log : list (Op * Ans)) : nat := length (bfilter p log).

Lemma count_log_cons p e log : count_log p (e :: log) = ((if p e then 1 else 0) + count_log p log)%nat.
Proof. unfold count_log. simpl. by destruct (p e). Qed.

(** What a run uses up is covered by what it is given: if every step takes no
    more out of a budget than it puts in, so does the run. *)
Lemma run_log_budget (I : S → Prop) (ok : Op → Prop) (taken given : Op * Ans → bool) (stored : S → nat) :
  (∀ op s a s', I s → ok op → step op s = (a, s') →
    I s' ∧ ((if taken (op, a) then 1 else 0) + stored s' ≤ (if given (op, a) then 1 else 0) + stored s)%nat) →
  ∀ ops s log s', I s → Forall ok ops → run_log ops s = (log, s') →
    I s' ∧ (count_log taken log + stored s' ≤ count_log given log + stored s)%nat.
Proof.
  intros Hstep ops. induction ops as [|op ops IH]; intros s log s' HI Hok; cbn [run_log].
  { intros [= <- <-]. split; [done|]. unfold count_log. simpl. lia. }
  apply Forall_cons in Hok as [Hop Hok].
  destruct (step op s) as [a s1] eqn:E1. destruct (run_log ops s1) as [log2 s2] eqn:E2. intros [= <- <-].
  destruct (Hstep _ _ _ _ HI Hop E1) as [HI1 H1]. destruct (IH _ _ _ HI1 Hok E2) as [HI2 H2].
  split; [done|]. rewrite !count_log_cons. lia.
Qed.
End runs.
