(* ===== verification/Bytes.v ===== *)
(** * Bytes: byte strings, their order, integer encodings, separators, UTF-8

    The functions of [server/src/utils/mod.rs] the database layer is built on,
    and the parts of the Rust standard library they use: big-endian [u64]s,
    [<[u8] as Ord>::cmp], [split]/[splitn]/[rsplit] on the separator byte
    [0xff], [String::from_utf8] and decimal printing and parsing.  A byte is a
    [Z] in [0..255], a [u64] a [Z] in [0..2^64-1]; arithmetic wraps, as in the
    release profile. *)
From S2P Require Import Prelude.

(** A byte string ([Vec<u8>], [&[u8]], and [String] by its UTF-8 bytes). *)
Abbreviation bytes := (list Z).

(** The separator the database keys use. *)
Abbreviation ff := 255%Z.

Definition is_byte (b : Z) : Prop := 0 ≤ b < 256.

(** A byte string literal. *)
Definition lit (s : string) : bytes :=
  (λ a, Z.of_nat (Ascii.nat_of_ascii a)) <$> String.list_ascii_of_string s.

(** ** 64-bit integers *)

Definition u64_max : Z := 18446744073709551615.

Definition is_u64 (n : Z) : Prop := 0 ≤ n ≤ u64_max.

(** Wrap-around of the release profile. *)
Definition w64 (n : Z) : Z := n mod 18446744073709551616.

Lemma w64_small n : is_u64 n → w64 n = n.
Proof. intros [? ?]. unfold w64. apply Z.mod_small. unfold u64_max in *. lia. Qed.

Fixpoint be_split (n : nat) (w : Z) : bytes :=
  match n with
  | O => []
  | S n' => (w / 256 ^ Z.of_nat n') mod 256 :: be_split n' w
  end.

Fixpoint be_combine (acc : Z) (bs : bytes) : Z :=
  match bs with
  | [] => acc
  | b :: bs' => be_combine (acc * 256 + b) bs'
  end.

(** [u64::to_be_bytes]. *)
Definition to_be_bytes (n : Z) : bytes := be_split 8 n.

(** [utils::u64_from_bytes]: only an 8-byte slice converts. *)
Definition u64_from_bytes (bs : bytes) : option Z :=
  if decide (length bs = 8%nat) then Some (be_combine 0 bs) else None.

(** [utils::increment]. *)
Definition increment (old : option bytes) : bytes :=
  let number :=
    match u64_from_bytes <$> old with
    | Some (Some n) => w64 (n + 1)
    | _ => 1
    end in
  to_be_bytes number.

(** ** Order *)

(** [<[u8] as Ord>::cmp]: lexicographic. *)
Fixpoint bytes_cmp (a b : bytes) : comparison :=
  match a, b with
  | [], [] => Eq
  | [], _ :: _ => Lt
  | _ :: _, [] => Gt
  | x :: a', y :: b' =>
      match x ?= y with Eq => bytes_cmp a' b' | c => c end
  end.

Definition blt (a b : bytes) : Prop := bytes_cmp a b = Lt.

Definition bleb (a b : bytes) : bool :=
  match bytes_cmp a b with Gt => false | _ => true end.

(** [<[u8]>::starts_with]: the argument order is (needle, haystack). *)
Fixpoint starts_with (p k : bytes) : bool :=
  match p, k with
  | [], _ => true
  | _ :: _, [] => false
  | x :: p', y :: k' => (x =? y) && starts_with p' k'
  end.

(** ** Separators *)

Definition no_ff (bs : bytes) : Prop := Forall (λ b, b ≠ ff) bs.

(** [bytes.split(|&b| b == 0xff)]: never empty. *)
Fixpoint split_ff (bs : bytes) : list bytes :=
  match bs with
  | [] => [[]]
  | b :: bs' =>
      if b =? ff then [] :: split_ff bs'
      else match split_ff bs' with
           | s :: ss => (b :: s) :: ss
           | [] => [[b]]
           end
  end.

(** [bytes.splitn(2, |&b| b == 0xff)]: the first part and the rest, if there
    is a separator. *)
Fixpoint splitn2 (bs : bytes) : bytes * option bytes :=
  match bs with
  | [] => ([], None)
  | b :: bs' =>
      if b =? ff then ([], Some bs')
      else let '(x, o) := splitn2 bs' in (b :: x, o)
  end.

(** [bytes.rsplit(|&b| b == 0xff).next()]: the part after the last
    separator. *)
Fixpoint rsplit_first (bs : bytes) : bytes :=
  match bs with
  | [] => []
  | b :: bs' => if decide (ff ∈ bs) then rsplit_first bs' else bs
  end.

(** ** UTF-8 *)

Definition in_range (lo hi b : Z) : bool := (lo <=? b) && (b <=? hi).

(** The accepting table of [String::from_utf8]. *)
Fixpoint utf8_valid (bs : bytes) : bool :=
  match bs with
  | [] => true
  | b0 :: r0 =>
      if in_range 0 127 b0 then utf8_valid r0
      else match r0 with
      | b1 :: r1 =>
          if in_range 194 223 b0 then in_range 128 191 b1 && utf8_valid r1
          else match r1 with
          | b2 :: r2 =>
              if b0 =? 224 then in_range 160 191 b1 && in_range 128 191 b2 && utf8_valid r2
              else if b0 =? 237 then in_range 128 159 b1 && in_range 128 191 b2 && utf8_valid r2
              else if in_range 225 239 b0
                   then in_range 128 191 b1 && in_range 128 191 b2 && utf8_valid r2
              else match r2 with
              | b3 :: r3 =>
                  if b0 =? 240 then in_range 144 191 b1 && in_range 128 191 b2
                                    && in_range 128 191 b3 && utf8_valid r3
                  else if in_range 241 243 b0 then in_range 128 191 b1 && in_range 128 191 b2
                                    && in_range 128 191 b3 && utf8_valid r3
                  else if b0 =? 244 then in_range 128 143 b1 && in_range 128 191 b2
                                    && in_range 128 191 b3 && utf8_valid r3
                  else false
              | [] => false
              end
          | [] => false
          end
      | [] => false
      end
  end.

(** [utils::string_from_bytes]. *)
Definition string_from_bytes (bs : bytes) : option bytes :=
  if utf8_valid bs then Some bs else None.

(** ** Decimal numbers *)

(** [u64::to_string]. *)
Fixpoint to_string_go (fuel : nat) (n : Z) (acc : bytes) : bytes :=
  match fuel with
  | O => acc
  | S f => let acc' := (48 + n mod 10) :: acc in
           if n <? 10 then acc' else to_string_go f (n / 10) acc'
  end.
Definition to_string (n : Z) : bytes := to_string_go 20 n [].

Definition is_digit (b : Z) : bool := in_range 48 57 b.

Fixpoint parse_digits (acc : Z) (bs : bytes) : option Z :=
  match bs with
  | [] => Some acc
  | b :: bs' =>
      if is_digit b then
        let acc' := acc * 10 + (b - 48) in
        if acc' <=? u64_max then parse_digits acc' bs' else None
      else None
  end.

(** [str::parse::<u64>]: an optional leading [+], then at least one digit. *)
Definition parse_u64 (bs : bytes) : option Z :=
  match bs with
  | [] => None
  | [43] => None
  | 43 :: bs' => parse_digits 0 bs'
  | _ => parse_digits 0 bs
  end.

(** ** Hashing *)

(** [keys.join(&0xff)]. *)
Fixpoint join_ff (keys : list bytes) : bytes :=
  match keys with
  | [] => []
  | [k] => k
  | k :: ks => k ++ ff :: join_ff ks
  end.

(** [utils::calculate_hash], over the digest function of the crypto library. *)
Definition calculate_hash (sha256 : bytes → bytes) (keys : list bytes) : bytes :=
  sha256 (join_ff keys).

(** ** Intersection of sorted iterators *)

Section common_elements.
Context (check_order : bytes → bytes → comparison).

(** Advance one peekable iterator to the target: whether the target was met,
    and what is left of the iterator. *)
Fixpoint seek (target : bytes) (it : list bytes) : bool * list bytes :=
  match it with
  | [] => (false, [])
  | element :: it' =>
      match check_order element target with
      | Gt => (false, it)
      | Eq => (true, it)
      | Lt => seek target it'
      end
  end.

(** [other_iterators.iter_mut().all(..)]: stops at the first iterator that
    misses the target. *)
Fixpoint seek_all (target : bytes) (its : list (list bytes)) : bool * list (list bytes) :=
  match its with
  | [] => (true, [])
  | it :: its' =>
      let '(found, rest) := seek target it in
      if found then let '(b, rests) := seek_all target its' in (b, rest :: rests)
      else (false, rest :: its')
  end.

Fixpoint filter_common (first : list bytes) (others : list (list bytes)) : list bytes :=
  match first with
  | [] => []
  | target :: first' =>
      let '(b, others') := seek_all target others in
      if b then target :: filter_common first' others' else filter_common first' others'
  end.

(** [utils::common_elements]. *)
Definition common_elements (iterators : list (list bytes)) : option (list bytes) :=
  match iterators with
  | [] => None
  | first_iterator :: other_iterators => Some (filter_common first_iterator other_iterators)
  end.
End common_elements.

(** * Lemmas *)

(** ** Bytes and integers *)

Lemma length_be_split n w : length (be_split n w) = n.
Proof. induction n; simpl; by f_equal. Qed.

Lemma length_to_be_bytes n : length (to_be_bytes n) = 8%nat.
Proof. apply length_be_split. Qed.

Lemma be_split_bytes n w : Forall is_byte (be_split n w).
Proof.
  induction n; cbn [be_split]; constructor; [|done]. apply Z.mod_pos_bound. lia.
Qed.

Lemma to_be_bytes_bytes n : Forall is_byte (to_be_bytes n).
Proof. apply be_split_bytes. Qed.

Lemma be_combine_split n w acc :
  be_combine acc (be_split n w) = acc * 256 ^ Z.of_nat n + w mod 256 ^ Z.of_nat n.
Proof.
  revert acc. induction n as [|n IH]; intros acc; [change (256 ^ Z.of_nat 0) with 1; cbn [be_split be_combine]; rewrite Z.mod_1_r; lia|].
  cbn [be_split be_combine]. rewrite IH, Nat2Z.inj_succ, Z.pow_succ_r by lia.
  rewrite (Z.mul_comm 256), Z.rem_mul_r by lia. ring.
Qed.

Lemma be_combine_to_be_bytes n : is_u64 n → be_combine 0 (to_be_bytes n) = n.
Proof.
  unfold is_u64, u64_max, to_be_bytes. intros H. rewrite be_combine_split.
  change (256 ^ Z.of_nat 8) with 18446744073709551616. rewrite Z.mod_small; lia.
Qed.

Lemma u64_from_to_be_bytes n : is_u64 n → u64_from_bytes (to_be_bytes n) = Some n.
Proof.
  intros H. unfold u64_from_bytes. rewrite decide_True by apply length_to_be_bytes.
  by rewrite be_combine_to_be_bytes.
Qed.

Lemma to_be_bytes_inj m n : is_u64 m → is_u64 n → to_be_bytes m = to_be_bytes n → m = n.
Proof.
  intros Hm Hn H. apply (f_equal u64_from_bytes) in H.
  rewrite !u64_from_to_be_bytes in H by done. by injection H.
Qed.

Lemma be_combine_acc acc bs : be_combine acc bs = acc * 256 ^ Z.of_nat (length bs) + be_combine 0 bs.
Proof.
  revert acc. induction bs as [|b bs IH]; intros acc; [simpl; lia|].
  cbn [be_combine length]. rewrite IH, (IH (0 * 256 + b)), Nat2Z.inj_succ, Z.pow_succ_r by lia.
  ring.
Qed.

Lemma be_combine_bound bs : Forall is_byte bs → 0 ≤ be_combine 0 bs < 256 ^ Z.of_nat (length bs).
Proof.
  induction 1 as [|b bs Hb _ IH]; [simpl; lia|]. cbn [be_combine length].
  rewrite be_combine_acc, Nat2Z.inj_succ, Z.pow_succ_r by lia. unfold is_byte in Hb. nia.
Qed.

Lemma u64_from_bytes_u64 bs n : Forall is_byte bs → u64_from_bytes bs = Some n → is_u64 n.
Proof.
  unfold u64_from_bytes. intros Hb. case_decide as Hl; [|done]. intros [= <-].
  pose proof (be_combine_bound bs Hb) as Hr. rewrite Hl in Hr.
  change (256 ^ Z.of_nat 8) with 18446744073709551616 in Hr. unfold is_u64, u64_max. lia.
Qed.

Lemma be_split_combine bs : Forall is_byte bs → be_split (length bs) (be_combine 0 bs) = bs.
Proof.
  enough (∀ acc, Forall is_byte bs → be_split (length bs) (be_combine acc bs) = bs) as H by auto.
  induction bs as [|b bs IH]; intros acc Hb; [done|]. apply Forall_cons in Hb as [Hb Hbs].
  cbn [length be_split be_combine]. f_equal; [|by apply IH].
  rewrite be_combine_acc. pose proof (be_combine_bound bs Hbs).
  rewrite Z.div_add_l, (Z.div_small (be_combine 0 bs)) by lia.
  unfold is_byte in Hb. rewrite Z.add_0_r, Z.add_comm, Z.mod_add, Z.mod_small; lia.
Qed.

Lemma to_be_from_bytes bs n : Forall is_byte bs → u64_from_bytes bs = Some n → to_be_bytes n = bs.
Proof.
  unfold u64_from_bytes, to_be_bytes. intros Hb. case_decide as Hl; [|done].
  intros [= <-]. rewrite <-Hl. by apply be_split_combine.
Qed.

(** ** The lexicographic order *)

Lemma bytes_cmp_eq a b : bytes_cmp a b = Eq ↔ a = b.
Proof.
  revert b. induction a as [|x a IH]; intros [|y b]; simpl; try done.
  destruct (Z.compare_spec x y); subst; split; intros; simplify_eq; try done; try lia.
  - f_equal. by apply IH.
  - by apply IH.
Qed.

Lemma bytes_cmp_refl a : bytes_cmp a a = Eq.
Proof. by apply bytes_cmp_eq. Qed.

Lemma bytes_cmp_antisym a b : bytes_cmp b a = CompOpp (bytes_cmp a b).
Proof.
  revert b. induction a as [|x a IH]; intros [|y b]; simpl; try done.
  rewrite (Z.compare_antisym x y). destruct (x ?= y); simpl; auto.
Qed.

#[global] Instance blt_trans : Transitive blt.
Proof.
  unfold blt. intros a. induction a as [|x a IH]; intros [|y b] [|z c]; simpl; try done.
  destruct (Z.compare_spec x y), (Z.compare_spec y z), (Z.compare_spec x z);
    subst; try done; try lia; eauto.
Qed.

#[global] Instance blt_irrefl : Irreflexive blt.
Proof. intros a. unfold blt, complement. by rewrite bytes_cmp_refl. Qed.

#[global] Instance bleb_dec : RelDecision (λ a b, bleb a b = true).
Proof. intros a b. destruct (bleb a b); [by left|by right]. Defined.

Lemma bleb_refl a : bleb a a = true.
Proof. unfold bleb. by rewrite bytes_cmp_refl. Qed.

Lemma bleb_spec a b : bleb a b = true ↔ blt a b ∨ a = b.
Proof.
  unfold bleb, blt. rewrite <-bytes_cmp_eq. destruct (bytes_cmp a b); naive_solver.
Qed.

Lemma bleb_total a b : bleb a b = true ∨ bleb b a = true.
Proof. unfold bleb. rewrite (bytes_cmp_antisym a b). destruct (bytes_cmp a b); auto. Qed.

Lemma bleb_false a b : bleb a b = false ↔ blt b a.
Proof. unfold bleb, blt. rewrite (bytes_cmp_antisym a b). by destruct (bytes_cmp a b). Qed.

Lemma bleb_trans a b c : bleb a b = true → bleb b c = true → bleb a c = true.
Proof.
  rewrite !bleb_spec. intros [H1| ->] [H2| ->]; eauto. left. by trans b.
Qed.

Lemma bleb_antisym a b : bleb a b = true → bleb b a = true → a = b.
Proof.
  rewrite !bleb_spec. intros [H1| ->] [H2|?]; auto.
  exfalso. eapply (irreflexivity blt a). by trans b.
Qed.

Lemma bytes_cmp_app p a b : bytes_cmp (p ++ a) (p ++ b) = bytes_cmp a b.
Proof. induction p as [|x p IH]; simpl; [done|]. by rewrite Z.compare_refl. Qed.

Lemma bytes_cmp_same_length a b a' b' :
  length a = length b →
  bytes_cmp (a ++ a') (b ++ b') =
    match bytes_cmp a b with Eq => bytes_cmp a' b' | c => c end.
Proof.
  revert b. induction a as [|x a IH]; intros [|y b] H; simplify_eq/=; [done|].
  destruct (x ?= y); auto.
Qed.

(** Equal-length byte strings compare as the numbers they encode. *)
Lemma bytes_cmp_be_combine a b :
  Forall is_byte a → Forall is_byte b → length a = length b →
  bytes_cmp a b = (be_combine 0 a ?= be_combine 0 b).
Proof.
  intros Ha. revert b. induction Ha as [|x a Hx Ha IH]; intros b Hb Hl.
  - by destruct b.
  - destruct Hb as [|y b Hy Hb]; [done|]. injection Hl as Hl.
    cbn [bytes_cmp be_combine]. rewrite (be_combine_acc (0 * 256 + x)), (be_combine_acc (0 * 256 + y)).
    rewrite Hl. pose proof (be_combine_bound a Ha) as Ba. pose proof (be_combine_bound b Hb) as Bb.
    rewrite Hl in Ba. unfold is_byte in *. rewrite IH by done.
    destruct (Z.compare_spec x y) as [->|Hlt|Hlt]; [|symmetry; apply Z.compare_lt_iff; nia|symmetry; apply Z.compare_gt_iff; nia].
    destruct (Z.compare_spec (be_combine 0 a) (be_combine 0 b)); symmetry;
      [apply Z.compare_eq_iff|apply Z.compare_lt_iff|apply Z.compare_gt_iff]; lia.
Qed.

(** The order of the encodings of two [u64]s, whatever follows them. *)
Lemma bytes_cmp_to_be_bytes m n a b :
  is_u64 m → is_u64 n →
  bytes_cmp (to_be_bytes m ++ a) (to_be_bytes n ++ b) =
    match m ?= n with Eq => bytes_cmp a b | c => c end.
Proof.
  intros Hm Hn. rewrite bytes_cmp_same_length by by rewrite !length_to_be_bytes.
  rewrite bytes_cmp_be_combine; [|apply to_be_bytes_bytes..|by rewrite !length_to_be_bytes].
  by rewrite !be_combine_to_be_bytes.
Qed.

(** ** Prefixes *)

Lemma starts_with_spec p k : starts_with p k = true ↔ ∃ r, k = p ++ r.
Proof.
  revert k. induction p as [|x p IH]; intros k; simpl; [naive_solver|].
  destruct k as [|y k]; [naive_solver|].
  rewrite andb_true_iff, Z.eqb_eq, IH. naive_solver.
Qed.

Lemma starts_with_app p r : starts_with p (p ++ r) = true.
Proof. apply starts_with_spec. eauto. Qed.

Lemma starts_with_app_l p q r : starts_with p q = true → starts_with p (q ++ r) = true.
Proof. rewrite !starts_with_spec. intros [t ->]. exists (t ++ r). by rewrite app_assoc. Qed.

Lemma starts_with_same_length p q r s :
  length p = length q → starts_with (p ++ r) (q ++ s) = bool_decide (p = q) && starts_with r s.
Proof.
  revert q. induction p as [|x p IH]; intros [|y q] Hl; simplify_eq/=; [done|].
  destruct (Z.eqb_spec x y) as [->|Hne]; simpl.
  - rewrite IH by done. repeat case_bool_decide; naive_solver.
  - rewrite bool_decide_false; naive_solver.
Qed.

Lemma starts_with_le p k : starts_with p k = true → bleb p k = true.
Proof.
  rewrite starts_with_spec. intros [r ->]. unfold bleb.
  rewrite <-(app_nil_r p) at 1. rewrite bytes_cmp_app. by destruct r.
Qed.

(** The keys with a prefix form an interval that begins at the prefix. *)
Lemma starts_with_convex p k k' :
  bleb p k = true → bleb k k' = true → starts_with p k' = true → starts_with p k = true.
Proof.
  unfold bleb. revert k k'. induction p as [|x p IH]; intros [|y k] [|z k']; simpl; try done.
  destruct (Z.eqb_spec x z) as [->|]; simpl; [|done].
  destruct (Z.compare_spec z y), (Z.compare_spec y z); subst; try lia; try done.
  rewrite Z.eqb_refl. simpl. apply IH.
Qed.

(** ** Separators *)

Lemma split_ff_app a b : no_ff a → split_ff (a ++ ff :: b) = a :: split_ff b.
Proof.
  induction 1 as [|x a Hx Ha IH]; simpl; [done|].
  rewrite (proj2 (Z.eqb_neq x ff)) by done. by rewrite IH.
Qed.

Lemma split_ff_no_ff a : no_ff a → split_ff a = [a].
Proof.
  induction 1 as [|x a Hx Ha IH]; simpl; [done|].
  rewrite (proj2 (Z.eqb_neq x ff)) by done. by rewrite IH.
Qed.

Lemma splitn2_app a b : no_ff a → splitn2 (a ++ ff :: b) = (a, Some b).
Proof.
  induction 1 as [|x a Hx Ha IH]; simpl; [done|].
  rewrite (proj2 (Z.eqb_neq x ff)) by done. by rewrite IH.
Qed.

Lemma no_ff_not_elem a : no_ff a ↔ ff ∉ a.
Proof. unfold no_ff. rewrite Forall_forall. naive_solver. Qed.

Lemma rsplit_first_no_ff a : no_ff a → rsplit_first a = a.
Proof.
  intros H%no_ff_not_elem. destruct a as [|x a]; [done|].
  unfold rsplit_first; fold rsplit_first. by rewrite decide_False.
Qed.

Lemma rsplit_first_app a b : no_ff b → rsplit_first (a ++ ff :: b) = b.
Proof.
  intros Hb. induction a as [|x a IH]; cbn [app rsplit_first].
  - rewrite decide_True by constructor. by apply rsplit_first_no_ff.
  - rewrite decide_True; [done|]. set_solver.
Qed.

Lemma app_ff_inj a b c d : no_ff a → no_ff c → a ++ ff :: b = c ++ ff :: d → a = c ∧ b = d.
Proof.
  intros Ha Hc H. apply (f_equal splitn2) in H. rewrite !splitn2_app in H by done.
  by injection H.
Qed.

Lemma starts_with_ff a b c : no_ff a → no_ff b → starts_with (a ++ [ff]) (b ++ ff :: c) = true ↔ a = b.
Proof.
  intros Ha Hb. rewrite starts_with_spec. split.
  - intros [r Hr]. rewrite <-app_assoc in Hr. simpl in Hr.
    apply app_ff_inj in Hr as [-> _]; done.
  - intros ->. exists c. by rewrite <-app_assoc.
Qed.

(** Valid UTF-8 never contains the separator. *)
(** A prefix without separator only sees the part before the separator. *)
Lemma starts_with_before_ff p a b : no_ff p → starts_with p (a ++ ff :: b) = starts_with p a.
Proof.
  intros Hp. revert a. induction Hp as [|x p Hx Hp IH]; intros a; [done|].
  destruct a as [|y a]; simpl.
  - by rewrite (proj2 (Z.eqb_neq x ff)).
  - by rewrite IH.
Qed.

Lemma utf8_no_ff bs : utf8_valid bs = true → no_ff bs.
Proof.
  unfold no_ff. revert bs. fix IH 1. intros [|b0 [|b1 [|b2 [|b3 bs]]]]; simpl;
    [by constructor|..]; unfold in_range;
    repeat (case_match; rewrite ?andb_true_iff, ?Z.leb_le in *; try done);
    rewrite ?Z.eqb_eq in *; intros;
    destruct_and?; repeat (apply Forall_cons_2 || apply Forall_nil_2; try lia); eauto.
Qed.

Lemma string_from_bytes_valid bs : utf8_valid bs = true → string_from_bytes bs = Some bs.
Proof. unfold string_from_bytes. by intros ->. Qed.

Lemma string_from_bytes_Some bs s : string_from_bytes bs = Some s → s = bs ∧ utf8_valid bs = true.
Proof. unfold string_from_bytes. destruct (utf8_valid bs); naive_solver. Qed.

Lemma utf8_ascii bs : Forall (λ b, 0 ≤ b < 128) bs → utf8_valid bs = true.
Proof.
  induction 1 as [|b bs Hb _ IH]; [done|]. cbn [utf8_valid]. unfold in_range.
  rewrite (proj2 (Z.leb_le 0 b)), (proj2 (Z.leb_le b 127)) by lia. done.
Qed.

(** ** Decimal numbers *)

Lemma parse_to_string_go f n acc :
  0 ≤ n < 10 ^ Z.of_nat f → (0 < f)%nat → n ≤ u64_max →
  parse_digits 0 (to_string_go f n acc) = parse_digits n acc.
Proof.
  revert n acc. induction f as [|f IH]; intros n acc Hn Hf Hu; [lia|].
  cbn [to_string_go]. destruct (Z.ltb_spec n 10) as [Hlt|Hge].
  - cbn [parse_digits]. unfold is_digit, in_range. rewrite Z.mod_small by lia.
    rewrite (proj2 (Z.leb_le 48 _)), (proj2 (Z.leb_le _ 57)) by lia. cbn [andb].
    replace (0 * 10 + (48 + n - 48)) with n by lia. by rewrite (proj2 (Z.leb_le n _)) by lia.
  - rewrite Nat2Z.inj_succ, Z.pow_succ_r in Hn by lia.
    assert (0 < f)%nat by (destruct f; [simpl in Hn; lia|lia]).
    rewrite IH; [|split; [apply Z.div_pos; lia|apply Z.div_lt_upper_bound; lia]|done|].
    2:{ trans n; [|done]. apply Z.div_le_upper_bound; lia. }
    cbn [parse_digits]. unfold is_digit, in_range. pose proof (Z.mod_pos_bound n 10 ltac:(lia)).
    rewrite (proj2 (Z.leb_le 48 _)), (proj2 (Z.leb_le _ 57)) by lia. cbn [andb].
    replace (n / 10 * 10 + (48 + n mod 10 - 48)) with n by (pose proof (Z.div_mod n 10); lia).
    by rewrite (proj2 (Z.leb_le n _)) by lia.
Qed.

Lemma to_string_go_digits f n acc :
  0 ≤ n → Forall (λ b, is_digit b = true) acc →
  Forall (λ b, is_digit b = true) (to_string_go f n acc).
Proof.
  revert n acc. induction f as [|f IH]; intros n acc Hn Ha; cbn [to_string_go]; [done|].
  assert (Forall (λ b, is_digit b = true) ((48 + n mod 10) :: acc)) as H.
  { constructor; [|done]. unfold is_digit, in_range. pose proof (Z.mod_pos_bound n 10 ltac:(lia)).
    rewrite andb_true_iff, !Z.leb_le. lia. }
  destruct (n <? 10); [done|]. apply IH; [apply Z.div_pos; lia|done].
Qed.

Lemma to_string_go_nonempty f n acc : (0 < f)%nat → to_string_go f n acc ≠ [].
Proof.
  revert n acc. induction f as [|f IH]; intros n acc Hf; [lia|]. cbn [to_string_go].
  destruct (n <? 10); [done|]. destruct f; [done|]. apply IH. lia.
Qed.

Lemma to_string_digits n : 0 ≤ n → Forall (λ b, is_digit b = true) (to_string n).
Proof. intros. by apply to_string_go_digits. Qed.

Lemma to_string_nonempty n : to_string n ≠ [].
Proof. apply to_string_go_nonempty. lia. Qed.

Lemma parse_u64_digits bs :
  bs ≠ [] → Forall (λ b, is_digit b = true) bs → parse_u64 bs = parse_digits 0 bs.
Proof.
  intros Hne Hd. destruct Hd as [|b bs Hb _]; [done|]. unfold parse_u64.
  assert (b ≠ 43) by (intros ->; discriminate).
  destruct b as [|b|b]; try done. repeat (destruct b as [b|b|]; try done).
Qed.

Lemma parse_to_string n : is_u64 n → parse_u64 (to_string n) = Some n.
Proof.
  intros [Hn Hu]. rewrite parse_u64_digits; [|apply to_string_nonempty|by apply to_string_digits].
  unfold to_string. rewrite parse_to_string_go; [done| |lia|done].
  unfold u64_max in Hu. change (10 ^ Z.of_nat 20) with 100000000000000000000. lia.
Qed.

Lemma to_string_inj m n : is_u64 m → is_u64 n → to_string m = to_string n → m = n.
Proof.
  intros Hm Hn H. apply (f_equal parse_u64) in H. rewrite !parse_to_string in H by done.
  by injection H.
Qed.

Lemma to_string_utf8 n : 0 ≤ n → utf8_valid (to_string n) = true.
Proof.
  intros Hn. apply utf8_ascii. eapply Forall_impl; [by apply to_string_digits|].
  intros b. simpl. unfold is_digit, in_range. rewrite andb_true_iff, !Z.leb_le. lia.
Qed.

(** ** Intersection *)

Section common_elements_spec.
Context (cmp : bytes → bytes → comparison).
Context (cmp_eq : ∀ a b, cmp a b = Eq ↔ a = b).
Context (cmp_opp : ∀ a b, cmp b a = CompOpp (cmp a b)).
Context (cmp_trans : ∀ a b c, cmp a b = Lt → cmp b c = Lt → cmp a c = Lt).

Definition cmp_sorted (l : list bytes) : Prop := StronglySorted (λ a b, cmp a b = Lt) l.

Definition in_all (its : list (list bytes)) (t : bytes) : bool :=
  forallb (λ it, bool_decide (t ∈ it)) its.

Lemma seek_spec target it b rest :
  cmp_sorted it → seek cmp target it = (b, rest) →
  b = bool_decide (target ∈ it) ∧ cmp_sorted rest ∧
  ∀ t, cmp target t = Lt → (t ∈ it ↔ t ∈ rest).
Proof using cmp_eq cmp_opp cmp_trans.
  intros Hs. revert b rest. induction Hs as [|x it Hit IH Hx]; intros b rest; simpl.
  { intros [= <- <-]. split_and!; [by rewrite ?bool_decide_false by set_solver|constructor|done]. }
  rewrite Forall_forall in Hx.
  assert (cmp_sorted (x :: it)) as Hs by (constructor; [done|by rewrite Forall_forall]).
  destruct (cmp x target) eqn:E.
  - apply cmp_eq in E as ->. intros [= <- <-].
    split_and!; [by rewrite bool_decide_true by constructor|done|done].
  - intros [-> [Hr Ht]]%IH. split_and!; [|done|].
    + apply bool_decide_ext. rewrite elem_of_cons. split; [by right|]. intros [->|]; [|done].
      rewrite (proj2 (cmp_eq x x)) in E by done. done.
    + intros t Hlt. rewrite elem_of_cons, <-Ht by done. split; [|by right].
      intros [->|]; [|done]. rewrite cmp_opp, Hlt in E. done.
  - intros [= <- <-]. split_and!; [|done|done].
    rewrite bool_decide_false; [done|]. intros [->|Hin]%elem_of_cons.
    + rewrite (proj2 (cmp_eq x x)) in E by done. done.
    + apply Hx in Hin. rewrite E in Hin. done.
Qed.

Lemma seek_all_spec target its b rests :
  Forall cmp_sorted its → seek_all cmp target its = (b, rests) →
  b = in_all its target ∧ Forall cmp_sorted rests ∧
  ∀ t, cmp target t = Lt → in_all its t = in_all rests t.
Proof using cmp_eq cmp_opp cmp_trans.
  intros Hs. revert b rests. induction Hs as [|it its Hit Hits IH]; intros b rests; simpl.
  { intros [= <- <-]. by split_and!. }
  destruct (seek cmp target it) as [found rest] eqn:E.
  apply seek_spec in E as (-> & Hr & Ht); [|done].
  case_bool_decide as Hin; simpl.
  - destruct (seek_all cmp target its) as [b' rests'] eqn:E'.
    destruct (IH _ _ eq_refl) as (-> & Hrs & Hts). intros [= <- <-].
    split_and!; [done|by constructor|]. intros t Hlt. simpl. rewrite <-Hts by done. f_equal.
    by apply bool_decide_ext, Ht.
  - intros [= <- <-]. split_and!; [done|by constructor|]. intros t Hlt. simpl. f_equal.
    by apply bool_decide_ext, Ht.
Qed.

Lemma filter_common_spec first others :
  cmp_sorted first → Forall cmp_sorted others →
  filter_common cmp first others = bfilter (in_all others) first.
Proof using cmp_eq cmp_opp cmp_trans.
  intros Hf. revert others. induction Hf as [|x first Hf IH Hx]; intros others Ho; simpl; [done|].
  rewrite Forall_forall in Hx.
  destruct (seek_all cmp x others) as [b others'] eqn:E.
  apply seek_all_spec in E as (-> & Hs & Ht); [|done].
  rewrite IH by done.
  rewrite (bfilter_ext (in_all others') (in_all others)); [done|].
  intros t Hin. symmetry. by apply Ht, Hx.
Qed.
End common_elements_spec.
