(* ===== verification/JsonValue.v ===== *)
(** * JsonValue: JSON values as the code handles them

    [serde_json::Value] with the operations on objects the code uses; texts are
    parsed and printed by the codec of the component that needs it. *)
From S2P Require Import Prelude Bytes.

(** [serde_json::Value]; an object is its list of fields. *)
#[warnings="-register-all"]
Inductive Value :=
  | VNull
  | VBool (b : bool)
  | VNumber (n : Z)
  | VString (s : bytes)
  | VArray (l : list Value)
  | VObject (fields : list (bytes * Value)).

Definition field (k : bytes) (fields : list (bytes * Value)) : option Value :=
  snd <$> find (λ e, bool_decide (e.1 = k)) fields.

(** [Map::insert]: replaces the value of a present key. *)
Fixpoint set_json_field (k : bytes) (v : Value) (fields : list (bytes * Value)) : list (bytes * Value) :=
  match fields with
  | [] => [(k, v)]
  | (k', v') :: fields' => if bool_decide (k' = k) then (k, v) :: fields' else (k', v') :: set_json_field k v fields'
  end.

(** [Value::get_mut] with a string key: only objects have fields. *)
Definition value_get (k : bytes) (v : Value) : option Value :=
  match v with VObject fields => field k fields | _ => None end.

(** [Map::remove]. *)
Definition remove_json_field (k : bytes) (fields : list (bytes * Value)) : list (bytes * Value) :=
  bfilter (λ e, negb (bool_decide (e.1 = k))) fields.

Lemma field_Some k fields v : field k fields = Some v → (k, v) ∈ fields.
Proof.
  unfold field. destruct (find _ fields) as [[k' v']|] eqn:E; [|done]. intros [= <-]. apply find_Some in E as [Hk Hin].
  apply bool_decide_eq_true in Hk. cbn in Hk. by subst.
Qed.

Lemma field_None k fields : field k fields = None ↔ ∀ v, (k, v) ∉ fields.
Proof.
  unfold field. split.
  - intros H v Hin. destruct (find _ fields) eqn:E; [done|]. pose proof (proj1 (find_None _ _) E _ Hin) as Hf.
    by apply bool_decide_eq_false in Hf.
  - intros H. destruct (find _ fields) as [[k' v']|] eqn:E; [|done]. apply find_Some in E as [Hk Hin].
    apply bool_decide_eq_true in Hk. cbn in Hk. subst. by destruct (H v').
Qed.

Lemma field_set_eq k v fields : field k (set_json_field k v fields) = Some v.
Proof.
  induction fields as [|[k' v'] fields IH]; cbn [set_json_field].
  - unfold field. cbn. by rewrite bool_decide_eq_true_2.
  - case_bool_decide; unfold field in *; cbn [find fst].
    + by rewrite bool_decide_eq_true_2.
    + by rewrite bool_decide_eq_false_2.
Qed.

Lemma field_set_ne k k' v fields : k' ≠ k → field k' (set_json_field k v fields) = field k' fields.
Proof.
  intros Hne. induction fields as [|[k0 v0] fields IH]; cbn [set_json_field].
  - unfold field. cbn. by rewrite bool_decide_eq_false_2.
  - case_bool_decide as E; unfold field in *; cbn [find fst].
    + subst. by rewrite !bool_decide_eq_false_2.
    + by case_bool_decide.
Qed.

Lemma field_remove_eq k fields : field k (remove_json_field k fields) = None.
Proof.
  apply field_None. intros v [Hb _]%elem_of_bfilter. cbn in Hb. by rewrite bool_decide_eq_true_2 in Hb.
Qed.

Lemma field_remove_ne k k' fields : k' ≠ k → field k' (remove_json_field k fields) = field k' fields.
Proof.
  intros Hne. unfold remove_json_field, field. induction fields as [|[k0 v0] fields IH]; [done|]. cbn [bfilter find fst].
  case_bool_decide as E; cbn [negb].
  - subst. rewrite bool_decide_eq_false_2 by done. done.
  - cbn [find fst]. by case_bool_decide.
Qed.

(** ** Decidable equality and a codec *)

Fixpoint tree_of (v : Value) : gen_tree bytes :=
  match v with
  | VNull => GenNode 0 []
  | VBool b => GenLeaf [0; if b then 1 else 0]
  | VNumber n => GenLeaf [1; n]
  | VString s => GenLeaf (2 :: s)
  | VArray l => GenNode 1 (tree_of <$> l)
  | VObject fields => GenNode 2 ((λ e, GenNode 3 [GenLeaf e.1; tree_of e.2]) <$> fields)
  end.

Fixpoint of_tree (t : gen_tree bytes) : Value :=
  match t with
  | GenLeaf [0; b] => VBool (b =? 1)
  | GenLeaf [1; n] => VNumber n
  | GenLeaf (2 :: s) => VString s
  | GenNode 1 l => VArray (of_tree <$> l)
  | GenNode 2 l => VObject ((λ t, match t with GenNode 3 [GenLeaf k; t'] => (k, of_tree t') | _ => ([], VNull) end) <$> l)
  | _ => VNull
  end.

Lemma of_tree_of v : of_tree (tree_of v) = v.
Proof.
  revert v. fix IH 1. intros [|b|n|s|l|fields]; cbn [tree_of of_tree]; try done.
  - by destruct b.
  - f_equal. induction l as [|v l IHl]; [done|]. rewrite !fmap_cons. f_equal; [apply IH|done].
  - f_equal. induction fields as [|[k v] l IHl]; [done|]. rewrite !fmap_cons. f_equal; [|done]. cbn [fst snd]. f_equal. apply IH.
Qed.

#[global] Instance Value_eq_dec : EqDecision Value.
Proof. intros v w. destruct (decide (tree_of v = tree_of w)) as [E|E]; [left|right; congruence]. by rewrite <-(of_tree_of v), E, of_tree_of. Defined.

#[global] Instance Value_countable : Countable Value := inj_countable' tree_of of_tree of_tree_of.
