(* ===== verification/KvTree.v ===== *)
(** * KvTree: the contract of a key-value tree

    The trait [KvTree] of [server/src/database/abstraction.rs]: an ordered map
    from byte strings to byte strings.  The model is a finite map together
    with its listing in lexicographic key order; [Engines] shows that both
    storage engines implement it. *)
From S2P Require Import Prelude Bytes.

(** The abstract content of one tree. *)
Abbreviation Tree := (gmap (list Z) (list Z)).

(** An entry yielded by an iterator. *)
Abbreviation entry := (list Z * list Z)%type.

(** Entries in ascending key order. *)
Definition entries (t : Tree) : list entry :=
  omap (λ k, pair k <$> t !! k) (merge_sort (λ a b, bleb a b = true) (map_to_list t).*1).

(** ** The operations of the trait *)

Definition kv_get (t : Tree) (key : bytes) : option bytes := t !! key.

Definition kv_insert (t : Tree) (key value : bytes) : Tree := <[key := value]> t.

Fixpoint kv_insert_batch (t : Tree) (iter : list entry) : Tree :=
  match iter with
  | [] => t
  | (k, v) :: iter' => kv_insert_batch (kv_insert t k v) iter'
  end.

Definition kv_remove (t : Tree) (key : bytes) : Tree := delete key t.

Definition kv_iter (t : Tree) : list entry := entries t.

Definition kv_iter_from (t : Tree) (from : bytes) (backwards : bool) : list entry :=
  if backwards then reverse (bfilter (λ e, bleb e.1 from) (entries t))
  else bfilter (λ e, bleb from e.1) (entries t).

Definition kv_increment (t : Tree) (key : bytes) : bytes * Tree :=
  let new := increment (kv_get t key) in (new, kv_insert t key new).

Fixpoint kv_increment_batch (t : Tree) (iter : list bytes) : Tree :=
  match iter with
  | [] => t
  | k :: iter' => kv_increment_batch (kv_increment t k).2 iter'
  end.

Definition kv_scan_prefix (t : Tree) (prefix : bytes) : list entry :=
  take_while (λ e, starts_with prefix e.1) (kv_iter_from t prefix false).

(** The loop [for (key, _) in it { tree.remove(&key)?; }]. *)
Fixpoint kv_remove_all (t : Tree) (it : list entry) : Tree :=
  match it with
  | [] => t
  | e :: it' => kv_remove_all (kv_remove t e.1) it'
  end.

(** The trait's default [clear]. *)
Definition kv_clear (t : Tree) : Tree := kv_remove_all t (kv_iter t).

(** * Lemmas *)

Definition key_lt (e1 e2 : entry) : Prop := blt e1.1 e2.1.

#[global] Instance key_lt_trans : Transitive key_lt.
Proof. intros e1 e2 e3. unfold key_lt. by intros; trans e2.1. Qed.

#[global] Instance key_lt_irrefl : Irreflexive key_lt.
Proof. intros e H. by apply (irreflexivity blt e.1). Qed.

Lemma sorted_keys_strict (l : list bytes) :
  NoDup l → StronglySorted (λ a b, bleb a b = true) l → StronglySorted blt l.
Proof.
  intros Hnd Hs. induction Hs as [|x l Hl IH Hx]; [constructor|].
  apply NoDup_cons in Hnd as [Hni Hnd]. constructor; [by apply IH|].
  rewrite Forall_forall in Hx |- *. intros y Hy.
  destruct (proj1 (bleb_spec x y) (Hx y Hy)) as [?| ->]; [done|]. by destruct Hni.
Qed.

Lemma merge_sort_keys (l : list bytes) :
  NoDup l → StronglySorted blt (merge_sort (λ a b, bleb a b = true) l).
Proof.
  intros Hnd. apply sorted_keys_strict; [by rewrite merge_sort_Permutation|].
  apply Sorted_StronglySorted; [intros a b c; apply bleb_trans|].
  apply Sorted_merge_sort. intros a b. apply bleb_total.
Qed.

Lemma elem_of_entries t k v : (k, v) ∈ entries t ↔ t !! k = Some v.
Proof.
  unfold entries. rewrite list_elem_of_omap. setoid_rewrite merge_sort_Permutation.
  setoid_rewrite list_elem_of_fmap. split.
  - intros (k' & _ & Hk). destruct (t !! k') eqn:E; naive_solver.
  - intros H. exists k. rewrite H. split; [|done].
    exists (k, v). by rewrite elem_of_map_to_list.
Qed.

Lemma elem_of_entries' t e : e ∈ entries t ↔ t !! e.1 = Some e.2.
Proof. destruct e. apply elem_of_entries. Qed.

Lemma StronglySorted_omap_keys (t : Tree) (l : list bytes) :
  StronglySorted blt l → StronglySorted key_lt (omap (λ k, pair k <$> t !! k) l).
Proof.
  induction 1 as [|x l Hl IH Hx]; simpl; [constructor|].
  destruct (t !! x) as [v|]; simpl; [|done]. constructor; [done|].
  rewrite Forall_forall in Hx. rewrite Forall_forall. intros [k w] (k' & Hk & Hw)%list_elem_of_omap.
  unfold key_lt. simpl. destruct (t !! k'); simplify_eq/=. by apply Hx.
Qed.

Lemma entries_sorted t : StronglySorted key_lt (entries t).
Proof.
  apply StronglySorted_omap_keys, merge_sort_keys, NoDup_fst_map_to_list.
Qed.

(** The listing is the only sorted list with the tree's entries. *)
Lemma entries_unique t l :
  StronglySorted key_lt l → (∀ k v, (k, v) ∈ l ↔ t !! k = Some v) → l = entries t.
Proof.
  intros Hs Hl. apply (StronglySorted_strict_eq key_lt); [done|apply entries_sorted|].
  intros [k v]. by rewrite Hl, elem_of_entries.
Qed.

Lemma entries_NoDup t : NoDup (entries t).
Proof.
  pose proof (entries_sorted t) as H. induction H as [|x l Hl IH Hx]; constructor; [|done].
  intros Hin. rewrite Forall_forall in Hx. by apply (irreflexivity key_lt x), Hx.
Qed.

(** ** Prefix scans *)

Lemma take_while_prefix_fwd (l : list entry) p from :
  StronglySorted key_lt l → starts_with p from = true →
  take_while (λ e, starts_with p e.1) (bfilter (λ e, bleb from e.1) l) =
  bfilter (λ e, starts_with p e.1 && bleb from e.1) l.
Proof.
  intros Hs Hf. rewrite take_while_bfilter, bfilter_bfilter.
  { apply bfilter_ext. intros e _. apply andb_comm. }
  intros l1 x l2 Hl Hx y Hy.
  assert (key_lt x y) as Hlt.
  { eapply (StronglySorted_app_inv_lt key_lt l1 x l2); [|done]. rewrite <-Hl.
    by apply StronglySorted_bfilter. }
  assert (bleb from x.1 = true) as Hfx.
  { assert (x ∈ bfilter (λ e, bleb from e.1) l) as [? _]%elem_of_bfilter; [|done].
    rewrite Hl. set_solver. }
  apply not_true_iff_false. intros Hyt. apply not_true_iff_false in Hx. apply Hx.
  eapply (starts_with_convex p x.1 y.1); [|apply bleb_spec; by left|done].
  eapply bleb_trans; [|done]. by apply starts_with_le.
Qed.

(** A forward scan from a key under the prefix yields exactly the later keys
    under the prefix. *)
Lemma iter_from_prefix t p from :
  starts_with p from = true →
  take_while (λ e, starts_with p e.1) (kv_iter_from t from false) =
  bfilter (λ e, starts_with p e.1 && bleb from e.1) (entries t).
Proof. intros. by apply take_while_prefix_fwd; [apply entries_sorted|]. Qed.

Lemma scan_prefix_spec t p :
  kv_scan_prefix t p = bfilter (λ e, starts_with p e.1) (entries t).
Proof.
  unfold kv_scan_prefix. rewrite iter_from_prefix.
  - apply bfilter_ext. intros e _. destruct (starts_with p e.1) eqn:E; [|done].
    simpl. by apply starts_with_le.
  - rewrite <-(app_nil_r p) at 2. apply starts_with_app.
Qed.

Lemma elem_of_scan_prefix t p k v :
  (k, v) ∈ kv_scan_prefix t p ↔ starts_with p k = true ∧ t !! k = Some v.
Proof. by rewrite scan_prefix_spec, elem_of_bfilter, elem_of_entries. Qed.

Lemma starts_with_convex_le p k from :
  starts_with p from = true → starts_with p k = false → bleb k from = true →
  ∀ k', blt k' k → starts_with p k' = false.
Proof.
  intros Hf Hk Hle k' Hlt. apply not_true_iff_false. intros Hk'.
  apply not_true_iff_false in Hk. apply Hk.
  eapply starts_with_convex; [|exact Hle|done].
  eapply bleb_trans; [by apply starts_with_le|]. apply bleb_spec. by left.
Qed.

Lemma StronglySorted_reverse_gt (l : list entry) l1 x l2 y :
  StronglySorted key_lt l → reverse l = l1 ++ x :: l2 → y ∈ l2 → key_lt y x.
Proof.
  intros Hs Hr Hy. apply (f_equal reverse) in Hr.
  rewrite reverse_involutive, reverse_app, reverse_cons in Hr. subst.
  apply list_elem_of_split in Hy as (l3 & l4 & ->).
  rewrite reverse_app, reverse_cons in Hs. rewrite <-!app_assoc in Hs. simpl in Hs.
  eapply (StronglySorted_app_inv_lt key_lt (reverse l4) y); [done|]. set_solver.
Qed.

(** A backward scan from a key under the prefix yields exactly the earlier
    keys under the prefix, last first. *)
Lemma iter_from_prefix_rev t p from :
  starts_with p from = true →
  take_while (λ e, starts_with p e.1) (kv_iter_from t from true) =
  reverse (bfilter (λ e, starts_with p e.1 && bleb e.1 from) (entries t)).
Proof.
  intros Hf. unfold kv_iter_from. rewrite take_while_bfilter.
  { rewrite bfilter_reverse, bfilter_bfilter. f_equal. apply bfilter_ext.
    intros e _. apply andb_comm. }
  intros l1 x l2 Hl Hx y Hy.
  assert (x ∈ bfilter (λ e, bleb e.1 from) (entries t)) as [Hle _]%elem_of_bfilter.
  { apply elem_of_reverse. rewrite Hl. set_solver. }
  eapply starts_with_convex_le; [exact Hf|exact Hx|exact Hle|].
  eapply (StronglySorted_reverse_gt _ l1 x l2); [|done|done].
  apply StronglySorted_bfilter, entries_sorted.
Qed.

(** ** Removal loops and batches *)

Lemma lookup_remove_all t it k :
  kv_remove_all t it !! k = if decide (k ∈ it.*1) then None else t !! k.
Proof.
  revert t. induction it as [|[k' v'] it IH]; intros t; cbn [kv_remove_all].
  { by rewrite decide_False by set_solver. }
  rewrite IH, fmap_cons. unfold kv_remove. cbn [fst].
  destruct (decide (k = k')) as [->|].
  - rewrite lookup_delete_eq, (decide_True (P:=k' ∈ k' :: _)) by constructor.
    by case_decide.
  - rewrite lookup_delete_ne by done. repeat case_decide; set_solver.
Qed.

(** Deleting everything a prefix scan yields. *)
Lemma lookup_remove_prefix t p k :
  kv_remove_all t (kv_scan_prefix t p) !! k =
    if starts_with p k then None else t !! k.
Proof.
  rewrite lookup_remove_all. case_decide as Hin.
  - apply list_elem_of_fmap in Hin as ([k' v] & -> & Hin).
    apply elem_of_scan_prefix in Hin as [Hp _]. simpl. by rewrite Hp.
  - destruct (starts_with p k) eqn:E; [|done].
    destruct (t !! k) as [v|] eqn:Et; [|done]. destruct Hin.
    apply list_elem_of_fmap. exists (k, v). by rewrite elem_of_scan_prefix.
Qed.

Lemma kv_clear_empty t : kv_clear t = ∅.
Proof.
  apply map_eq. intros k. unfold kv_clear. rewrite lookup_remove_all, lookup_empty.
  case_decide as Hin; [done|]. destruct (t !! k) as [v|] eqn:E; [|done]. destruct Hin.
  apply list_elem_of_fmap. exists (k, v). by rewrite elem_of_entries.
Qed.

Lemma lookup_insert_batch_notin t it k :
  k ∉ it.*1 → kv_insert_batch t it !! k = t !! k.
Proof.
  revert t. induction it as [|[k' v'] it IH]; intros t Hk; simpl in *; [done|].
  rewrite IH by set_solver. unfold kv_insert. apply lookup_insert_ne. set_solver.
Qed.

Lemma lookup_insert_batch_in t it k v :
  (k, v) ∈ it → NoDup it.*1 → kv_insert_batch t it !! k = Some v.
Proof.
  revert t. induction it as [|[k' v'] it IH]; intros t Hin Hnd; simpl in *; [set_solver|].
  apply NoDup_cons in Hnd as [Hni Hnd]. apply elem_of_cons in Hin as [[= <- <-]|Hin].
  - rewrite lookup_insert_batch_notin by done. apply lookup_insert_eq.
  - by apply IH.
Qed.

(** ** Counters *)

(** The number a counter cell holds; a missing or malformed cell reads as 0,
    which [increment] turns into 1. *)
Definition counter_value (o : option bytes) : Z :=
  match u64_from_bytes <$> o with Some (Some n) => n | _ => 0 end.

Lemma increment_value o :
  (∀ bs, o = Some bs → Forall is_byte bs) → counter_value o < u64_max →
  increment o = to_be_bytes (counter_value o + 1) ∧
  u64_from_bytes (increment o) = Some (counter_value o + 1).
Proof.
  intros Hb Hlt. unfold increment, counter_value in *.
  destruct (u64_from_bytes <$> o) as [[n|]|] eqn:E; [|by split; vm_compute..].
  destruct o as [bs|]; [|done]. injection E as E.
  pose proof (u64_from_bytes_u64 bs n (Hb bs eq_refl) E) as [H0 _].
  unfold w64, u64_max in *. rewrite Z.mod_small by lia.
  split; [done|]. apply u64_from_to_be_bytes. unfold is_u64, u64_max. lia.
Qed.

(** Inserting the values of a list under keys that determine them. *)
Lemma lookup_fold_insert {A} (f g : A → bytes) (l : list A) (t : Tree) k :
  (∀ x y, x ∈ l → y ∈ l → f x = f y → g x = g y) →
  (∀ x, x ∈ l → k = f x → fold_left (λ tr x, kv_insert tr (f x) (g x)) l t !! k = Some (g x)) ∧
  (k ∉ f <$> l → fold_left (λ tr x, kv_insert tr (f x) (g x)) l t !! k = t !! k).
Proof.
  revert t. induction l as [|y l IH]; intros t Hfg; simpl.
  { split; [intros x Hx; by apply elem_of_nil in Hx|done]. }
  destruct (IH (kv_insert t (f y) (g y))) as [IH1 IH2].
  { intros x z Hx Hz. apply Hfg; by constructor. }
  split.
  - intros x Hx ->. destruct (decide (f x ∈ f <$> l)) as [Hin|Hni].
    + apply list_elem_of_fmap in Hin as (z & Ez & Hz). rewrite (IH1 z Hz Ez). f_equal.
      apply Hfg; [by constructor|done|done].
    + rewrite IH2 by done. apply elem_of_cons in Hx as [->|Hx]; [apply lookup_insert_eq|].
      destruct Hni. by apply list_elem_of_fmap_2.
  - intros Hk. apply not_elem_of_cons in Hk as [Hne Hk]. rewrite IH2 by done.
    unfold kv_insert. by rewrite lookup_insert_ne.
Qed.

(** ** Counted keys *)

(** The count that follows the prefix [p] in a key [p ++ count ++ ...]. *)
Definition count_at (p k : bytes) : Z := be_combine 0 (take 8 (drop (length p) k)).

Lemma count_at_key p c r : is_u64 c → count_at p (p ++ to_be_bytes c ++ r) = c.
Proof.
  intros Hc. unfold count_at. rewrite drop_app_length, (take_app_length' (to_be_bytes c) r 8) by (by rewrite length_to_be_bytes).
  by apply be_combine_to_be_bytes.
Qed.

Lemma bleb_counted p m c r : is_u64 m → is_u64 c → bleb (p ++ to_be_bytes m) (p ++ to_be_bytes c ++ r) = (m <=? c).
Proof.
  intros Hm Hc. unfold bleb. rewrite bytes_cmp_app, <-(app_nil_r (to_be_bytes m)), bytes_cmp_to_be_bytes by done.
  destruct (Z.compare_spec m c) as [->|H|H].
  - rewrite Z.leb_refl. by destruct r.
  - symmetry. apply Z.leb_le. lia.
  - symmetry. apply Z.leb_gt. lia.
Qed.

(** Seeking to the count after [since] skips exactly the entries up to it. *)
Lemma iter_from_count t p since :
  0 ≤ since < u64_max →
  (∀ k v, t !! k = Some v → starts_with p k = true → ∃ c r, is_u64 c ∧ k = p ++ to_be_bytes c ++ r) →
  take_while (λ e, starts_with p e.1) (kv_iter_from t (p ++ to_be_bytes (w64 (since + 1))) false) =
  bfilter (λ e, starts_with p e.1 && (since <? count_at p e.1)) (entries t).
Proof.
  intros Hs Ht. rewrite iter_from_prefix by apply starts_with_app. apply bfilter_ext. intros [k v] He%elem_of_entries.
  cbn [fst]. destruct (starts_with p k) eqn:Ep; [|done]. destruct (Ht k v He Ep) as (c & r & Hc & ->). cbn [andb].
  rewrite count_at_key by done. assert (w64 (since + 1) = since + 1) as -> by (unfold w64, u64_max in *; apply Z.mod_small; lia).
  rewrite bleb_counted by (unfold is_u64 in *; lia). apply eq_true_iff_eq. rewrite Z.leb_le, Z.ltb_lt. lia.
Qed.
