(* ===== verification/Engines.v ===== *)
(** * Engines: the RocksDB and SQLite trees, and their watchers

    [server/src/database/abstraction/{rocksdb,sqlite,watchers}.rs].  The
    storage libraries are type classes of primitives ([RocksStore],
    [SqlTable]) with their documented behaviour as laws; the engine code on
    top of them is modelled operation by operation and shown to refine the
    contract of [KvTree].  Engine I/O errors are not modelled. *)
From S2P Require Import Prelude Bytes KvTree.

(** ** Watchers (abstraction/watchers.rs) *)

Module Watchers.

(** The registered prefixes with the channel of each, the next unused channel,
    and the channels on which [send] has been called. *)
Record Watchers := mkWatchers {
  w_map : gmap bytes nat;
  w_next : nat;
  w_fired : gset nat;
}.

Definition empty : Watchers := mkWatchers ∅ 0 ∅.

(** [watch]: the channel the returned future waits on. *)
Definition watch (w : Watchers) (prefix : bytes) : nat * Watchers :=
  match w_map w !! prefix with
  | Some c => (c, w)
  | None => (w_next w,
             mkWatchers (<[prefix := w_next w]> (w_map w)) (S (w_next w)) (w_fired w))
  end.

(** [0..=key.len()] as slices of the key. *)
Definition prefixes (key : bytes) : list bytes :=
  (λ n, take n key) <$> seq 0 (S (length key)).

(** The second loop of [wake]: remove each triggered prefix and send on its
    channel. *)
Fixpoint fire (w : Watchers) (triggered : list bytes) : Watchers :=
  match triggered with
  | [] => w
  | prefix :: triggered' =>
      match w_map w !! prefix with
      | Some c =>
          fire (mkWatchers (delete prefix (w_map w)) (w_next w) ({[c]} ∪ w_fired w)) triggered'
      | None => fire w triggered'
      end
  end.

(** [wake]. *)
Definition wake (w : Watchers) (key : bytes) : Watchers :=
  let triggered := bfilter (λ p, bool_decide (is_Some (w_map w !! p))) (prefixes key) in
  fire w triggered.

(** What can happen to the watchers of a tree after a future was handed out. *)
Inductive event := Watched (prefix : bytes) | Woken (key : bytes).

Definition step (w : Watchers) (e : event) : Watchers :=
  match e with
  | Watched p => (watch w p).2
  | Woken key => wake w key
  end.

(** Channels are unique to a prefix, unused channels are unfired. *)
Record wf (w : Watchers) : Prop := mk_wf {
  wf_inj : ∀ p q c, w_map w !! p = Some c → w_map w !! q = Some c → p = q;
  wf_lt : ∀ p c, w_map w !! p = Some c → (c < w_next w)%nat;
  wf_live : ∀ p c, w_map w !! p = Some c → c ∉ w_fired w;
  wf_fired : ∀ c, c ∈ w_fired w → (c < w_next w)%nat;
}.

Lemma elem_of_prefixes p key : p ∈ prefixes key ↔ starts_with p key = true.
Proof.
  unfold prefixes. rewrite list_elem_of_fmap, starts_with_spec. split.
  - intros (n & -> & _). exists (drop n key). by rewrite take_drop.
  - intros [r ->]. exists (length p). rewrite take_app_length. split; [done|].
    apply elem_of_seq. rewrite length_app. lia.
Qed.

Lemma wf_empty : wf empty.
Proof. split; simpl; intros *; rewrite ?lookup_empty; set_solver. Qed.

Lemma watch_spec w p c w' :
  wf w → watch w p = (c, w') → wf w' ∧ w_map w' !! p = Some c ∧ w_fired w' = w_fired w ∧
  ∀ q d, w_map w !! q = Some d → w_map w' !! q = Some d.
Proof.
  intros [Hi Hl Hv Hf]. unfold watch. destruct (w_map w !! p) as [d|] eqn:E; intros [= <- <-].
  { by split_and!. }
  split_and!; simpl; [|apply lookup_insert_eq|done|].
  - split; simpl.
    + intros q1 q2 d. rewrite !lookup_insert. repeat case_decide; subst; try done.
      * intros [= <-] Hx%Hl. lia.
      * intros Hx%Hl [= <-]. lia.
      * apply Hi.
    + intros q d. rewrite lookup_insert. case_decide; [naive_solver lia|]. intros Hx%Hl. lia.
    + intros q d. rewrite lookup_insert. case_decide; [|apply Hv].
      intros [= <-] Hx%Hf. lia.
    + intros d Hx%Hf. lia.
  - intros q d Hq. rewrite lookup_insert_ne; [done|]. congruence.
Qed.

Lemma wf_remove w p c :
  wf w → w_map w !! p = Some c →
  wf (mkWatchers (delete p (w_map w)) (w_next w) ({[c]} ∪ w_fired w)).
Proof.
  intros [Hi Hl Hv Hf] E. split; simpl.
  - intros q1 q2 d [_ H1]%lookup_delete_Some [_ H2]%lookup_delete_Some. eauto.
  - intros q d [_ H1]%lookup_delete_Some. eauto.
  - intros q d [Hne H1]%lookup_delete_Some. rewrite elem_of_union, elem_of_singleton.
    intros [->|H]; [|by eapply Hv]. apply Hne. by eapply Hi.
  - intros d. rewrite elem_of_union, elem_of_singleton. intros [->|?]; eauto.
Qed.

Lemma fire_spec w ps p c :
  wf w → w_map w !! p = Some c →
  wf (fire w ps) ∧
  (p ∈ ps → c ∈ w_fired (fire w ps)) ∧
  (p ∉ ps → w_map (fire w ps) !! p = Some c).
Proof.
  enough (∀ w, wf w → wf (fire w ps) ∧ w_fired w ⊆ w_fired (fire w ps) ∧
    ∀ p c, w_map w !! p = Some c →
      (p ∈ ps → c ∈ w_fired (fire w ps)) ∧ (p ∉ ps → w_map (fire w ps) !! p = Some c))
    as H.
  { intros Hw Hp. destruct (H w Hw) as (? & _ & Hpc). by destruct (Hpc p c Hp). }
  clear. induction ps as [|q ps IH]; intros w Hw; cbn [fire].
  { split_and!; [done|done|]. intros p c Hp. set_solver. }
  destruct (w_map w !! q) as [d|] eqn:E.
  - destruct (IH _ (wf_remove _ _ _ Hw E)) as (Hw' & Hsub & Hpc). simpl in *.
    split_and!; [done|set_solver|]. intros p c Hp. destruct (decide (p = q)) as [->|Hne].
    + split; [|set_solver]. intros _. apply Hsub. set_solver.
    + destruct (Hpc p c) as [H1 H2]; [by rewrite lookup_delete_ne|]. set_solver.
  - destruct (IH _ Hw) as (Hw' & Hsub & Hpc). split_and!; [done|done|].
    intros p c Hp. destruct (Hpc p c Hp) as [H1 H2].
    assert (p ≠ q) by congruence. set_solver.
Qed.

Lemma wf_fire w ps : wf w → wf (fire w ps) ∧ w_fired w ⊆ w_fired (fire w ps).
Proof.
  revert w. induction ps as [|q ps IH]; intros w Hw; cbn [fire]; [done|].
  destruct (w_map w !! q) as [d|] eqn:E; [|by apply IH].
  destruct (IH _ (wf_remove _ _ _ Hw E)) as [? Hs]. split; [done|]. simpl in Hs. set_solver.
Qed.

Lemma wake_spec w key p c :
  wf w → w_map w !! p = Some c →
  if starts_with p key then c ∈ w_fired (wake w key) else w_map (wake w key) !! p = Some c.
Proof.
  intros Hw Hp. unfold wake.
  set (ps := bfilter _ _). assert (p ∈ ps ↔ starts_with p key = true) as Hin.
  { unfold ps. rewrite elem_of_bfilter, elem_of_prefixes, bool_decide_eq_true. naive_solver. }
  destruct (fire_spec w ps p c Hw Hp) as (_ & H1 & H2).
  destruct (starts_with p key); [apply H1, Hin; done|apply H2].
  rewrite Hin. done.
Qed.

Lemma wf_step w e : wf w → wf (step w e) ∧ w_fired w ⊆ w_fired (step w e).
Proof.
  intros Hw. destruct e as [p|key]; simpl; [|by apply wf_fire].
  destruct (watch w p) as [c w'] eqn:E. apply watch_spec in E as (? & _ & Hf & _); [|done].
  simpl. by rewrite Hf.
Qed.

Lemma step_live w e p c :
  wf w → w_map w !! p = Some c →
  match e with
  | Woken key => if starts_with p key then c ∈ w_fired (step w e) else w_map (step w e) !! p = Some c
  | Watched _ => w_map (step w e) !! p = Some c
  end.
Proof.
  intros Hw Hp. destruct e as [q|key]; simpl; [|by apply wake_spec].
  destruct (watch w q) as [d w'] eqn:E. apply watch_spec in E as (_ & _ & _ & H); simpl; auto.
Qed.

Lemma fired_stays w es c : wf w → c ∈ w_fired w → c ∈ w_fired (foldl step w es).
Proof.
  revert w. induction es as [|e es IH]; intros w Hw Hc; simpl; [done|].
  destruct (wf_step w e Hw). apply IH; set_solver.
Qed.

(** Whether an event wakes the watchers of a prefix. *)
Definition wakes (p : bytes) (e : event) : bool :=
  match e with Woken key => starts_with p key | Watched _ => false end.

Lemma live_until_woken w es p c :
  wf w → w_map w !! p = Some c →
  c ∈ w_fired (foldl step w es) ↔ existsb (wakes p) es = true.
Proof.
  revert w. induction es as [|e es IH]; intros w Hw Hp; simpl.
  { split; [|done]. intros H. by destruct (wf_live w Hw p c Hp). }
  pose proof (step_live w e p c Hw Hp) as Hlive. destruct (wf_step w e Hw) as [Hw' _].
  destruct e as [q|key]; simpl in *; [by apply IH|].
  destruct (starts_with p key); simpl; [|by apply IH].
  split; [done|]. intros _. by apply fired_stays.
Qed.

End Watchers.
Import Watchers.

(** ** Calls on a tree and their replies *)

Inductive kv_call :=
  | Get (key : bytes)
  | Insert (key value : bytes)
  | InsertBatch (iter : list entry)
  | Remove (key : bytes)
  | Iter
  | IterFrom (from : bytes) (backwards : bool)
  | Increment (key : bytes)
  | IncrementBatch (iter : list bytes)
  | ScanPrefix (prefix : bytes)
  | Clear.

Inductive kv_reply :=
  | RUnit
  | RValue (v : option bytes)
  | RBytes (v : bytes)
  | REntries (l : list entry).

(** The contract as one step function. *)
Definition kv_step (t : Tree) (c : kv_call) : kv_reply * Tree :=
  match c with
  | Get k => (RValue (kv_get t k), t)
  | Insert k v => (RUnit, kv_insert t k v)
  | InsertBatch l => (RUnit, kv_insert_batch t l)
  | Remove k => (RUnit, kv_remove t k)
  | Iter => (REntries (kv_iter t), t)
  | IterFrom k b => (REntries (kv_iter_from t k b), t)
  | Increment k => let '(new, t') := kv_increment t k in (RBytes new, t')
  | IncrementBatch l => (RUnit, kv_increment_batch t l)
  | ScanPrefix p => (REntries (kv_scan_prefix t p), t)
  | Clear => (RUnit, kv_clear t)
  end.

(** An implementation of the trait: a step function and the content it
    stands for. *)
Class KvEngine (T : Type) := {
  engine_step : T → kv_call → kv_reply * T;
  engine_content : T → Tree;
}.

(** What an engine promises: every call replies and changes the content as
    the contract says. *)
Class KvEngineOk (T : Type) `{!KvEngine T} : Prop :=
  engine_refines : ∀ (t : T) (c : kv_call),
    (engine_step t c).1 = (kv_step (engine_content t) c).1 ∧
    engine_content (engine_step t c).2 = (kv_step (engine_content t) c).2.

(** The replies to a sequence of calls. *)
Fixpoint run_engine {T} `{!KvEngine T} (t : T) (cs : list kv_call) : list kv_reply * T :=
  match cs with
  | [] => ([], t)
  | c :: cs' =>
      let '(r, t') := engine_step t c in
      let '(rs, t'') := run_engine t' cs' in (r :: rs, t'')
  end.

Lemma run_engine_content {T T'} `{!KvEngine T, !KvEngineOk T, !KvEngine T', !KvEngineOk T'}
    (t : T) (t' : T') cs :
  engine_content t = engine_content t' →
  (run_engine t cs).1 = (run_engine t' cs).1 ∧
  engine_content (run_engine t cs).2 = engine_content (run_engine t' cs).2.
Proof.
  revert t t'. induction cs as [|c cs IH]; intros t t' Ht; simpl; [done|].
  destruct (engine_refines t c) as [Hr Hs], (engine_refines t' c) as [Hr' Hs'].
  destruct (engine_step t c) as [r u], (engine_step t' c) as [r' u']. simpl in *.
  assert (r = r') as -> by congruence.
  assert (engine_content u = engine_content u') as Hu by congruence.
  destruct (IH u u' Hu) as [H1 H2].
  destruct (run_engine u cs), (run_engine u' cs). simpl in *. by subst.
Qed.

(** ** RocksDB (abstraction/rocksdb.rs) *)

Module RocksDb.

Inductive Direction := Forward | Reverse.
Inductive IteratorMode := Start | From (key : bytes) (d : Direction).

(** The column-family primitives of the rocksdb crate the engine calls. *)
Class RocksStore (R : Type) := {
  get_cf_opt : R → bytes → option bytes;
  put_cf_opt : R → bytes → bytes → R;
  delete_cf_opt : R → bytes → R;
  iterator_cf_opt : R → IteratorMode → list entry;
}.

(** Their documented behaviour: a map, iterated in key order, [From] starting
    at the given key in the given direction. *)
Class RocksStoreOk (R : Type) `{!RocksStore R} : Prop := {
  get_put : ∀ (r : R) k v k',
    get_cf_opt (put_cf_opt r k v) k' = if decide (k = k') then Some v else get_cf_opt r k';
  get_delete : ∀ (r : R) k k',
    get_cf_opt (delete_cf_opt r k) k' = if decide (k = k') then None else get_cf_opt r k';
  iter_start_sorted : ∀ r : R, StronglySorted key_lt (iterator_cf_opt r Start);
  iter_start_elem : ∀ (r : R) k v, (k, v) ∈ iterator_cf_opt r Start ↔ get_cf_opt r k = Some v;
  iter_forward : ∀ (r : R) k,
    iterator_cf_opt r (From k Forward) = bfilter (λ e, bleb k e.1) (iterator_cf_opt r Start);
  iter_reverse : ∀ (r : R) k,
    iterator_cf_opt r (From k Reverse) =
      reverse (bfilter (λ e, bleb e.1 k) (iterator_cf_opt r Start));
}.

Section engine.
Context {R : Type} `{!RocksStore R}.

(** [RocksDbEngineTree]: the column family and the watchers. *)
Record RocksDbEngineTree := mkTree { rocks : R; watchers : Watchers }.

Definition get (self : RocksDbEngineTree) (key : bytes) : option bytes :=
  get_cf_opt (rocks self) key.

Definition insert (self : RocksDbEngineTree) (key value : bytes) : RocksDbEngineTree :=
  mkTree (put_cf_opt (rocks self) key value) (wake (watchers self) key).

Fixpoint insert_batch (self : RocksDbEngineTree) (iter : list entry) : RocksDbEngineTree :=
  match iter with
  | [] => self
  | (key, value) :: iter' =>
      insert_batch (mkTree (put_cf_opt (rocks self) key value) (watchers self)) iter'
  end.

Definition remove (self : RocksDbEngineTree) (key : bytes) : RocksDbEngineTree :=
  mkTree (delete_cf_opt (rocks self) key) (watchers self).

Definition iter (self : RocksDbEngineTree) : list entry := iterator_cf_opt (rocks self) Start.

Definition iter_from (self : RocksDbEngineTree) (from : bytes) (backwards : bool) : list entry :=
  iterator_cf_opt (rocks self) (From from (if backwards then Reverse else Forward)).

Definition increment (self : RocksDbEngineTree) (key : bytes) : bytes * RocksDbEngineTree :=
  let old := get_cf_opt (rocks self) key in
  let new := Bytes.increment old in
  (new, mkTree (put_cf_opt (rocks self) key new) (watchers self)).

Fixpoint increment_batch (self : RocksDbEngineTree) (iter : list bytes) : RocksDbEngineTree :=
  match iter with
  | [] => self
  | key :: iter' =>
      let old := get_cf_opt (rocks self) key in
      let new := Bytes.increment old in
      increment_batch (mkTree (put_cf_opt (rocks self) key new) (watchers self)) iter'
  end.

Definition scan_prefix (self : RocksDbEngineTree) (prefix : bytes) : list entry :=
  take_while (λ e, starts_with prefix e.1) (iterator_cf_opt (rocks self) (From prefix Forward)).

Definition watch_prefix (self : RocksDbEngineTree) (prefix : bytes) : nat * RocksDbEngineTree :=
  let '(c, w) := watch (watchers self) prefix in (c, mkTree (rocks self) w).

(** RocksDB keeps the trait's default [clear]. *)
Fixpoint clear_go (self : RocksDbEngineTree) (it : list entry) : RocksDbEngineTree :=
  match it with
  | [] => self
  | e :: it' => clear_go (remove self e.1) it'
  end.
Definition clear (self : RocksDbEngineTree) : RocksDbEngineTree := clear_go self (iter self).

Definition step (self : RocksDbEngineTree) (c : kv_call) : kv_reply * RocksDbEngineTree :=
  match c with
  | Get k => (RValue (get self k), self)
  | Insert k v => (RUnit, insert self k v)
  | InsertBatch l => (RUnit, insert_batch self l)
  | Remove k => (RUnit, remove self k)
  | Iter => (REntries (iter self), self)
  | IterFrom k b => (REntries (iter_from self k b), self)
  | Increment k => let '(new, self') := increment self k in (RBytes new, self')
  | IncrementBatch l => (RUnit, increment_batch self l)
  | ScanPrefix p => (REntries (scan_prefix self p), self)
  | Clear => (RUnit, clear self)
  end.

Definition content (self : RocksDbEngineTree) : Tree := list_to_map (iter self).

#[global] Instance rocks_engine : KvEngine RocksDbEngineTree :=
  {| engine_step := step; engine_content := content |}.
End engine.
Arguments RocksDbEngineTree R : clear implicits.

Section refinement.
Context {R : Type} `{!RocksStore R, !RocksStoreOk R}.
Implicit Types self : RocksDbEngineTree R.

Lemma content_lookup self k : content self !! k = get_cf_opt (rocks self) k.
Proof.
  apply option_eq. intros v. unfold content.
  rewrite <-(iter_start_elem (rocks self) k v).
  symmetry. apply elem_of_list_to_map. unfold iter.
  pose proof (iter_start_sorted (rocks self)) as Hs.
  induction Hs as [|x l Hl IH Hx]; simpl; constructor; [|done].
  rewrite Forall_forall in Hx. intros (y & Hxy & Hy)%list_elem_of_fmap.
  specialize (Hx y Hy). unfold key_lt in Hx. rewrite Hxy in Hx.
  by apply (irreflexivity blt y.1).
Qed.

Lemma content_iter self : iter self = entries (content self).
Proof.
  apply entries_unique; [apply iter_start_sorted|].
  intros k v. by rewrite content_lookup, <-iter_start_elem.
Qed.

Lemma content_put (r : R) k v w w' :
  content (mkTree (put_cf_opt r k v) w) = kv_insert (content (mkTree r w')) k v.
Proof.
  apply map_eq. intros k'. unfold kv_insert. rewrite lookup_insert, !content_lookup.
  simpl. by rewrite get_put.
Qed.

Lemma content_watchers (r : R) w w' : content (mkTree r w) = content (mkTree r w').
Proof. apply map_eq. intros k. by rewrite !content_lookup. Qed.

Lemma content_remove self k : content (remove self k) = kv_remove (content self) k.
Proof.
  apply map_eq. intros k'. unfold kv_remove. rewrite lookup_delete, !content_lookup.
  simpl. by rewrite get_delete.
Qed.

Lemma content_insert_batch self l : content (insert_batch self l) = kv_insert_batch (content self) l.
Proof.
  revert self. induction l as [|[k v] l IH]; intros [r w]; simpl; [done|].
  by rewrite IH, (content_put r k v w w).
Qed.

Lemma content_increment self k :
  (increment self k).1 = (kv_increment (content self) k).1 ∧
  content (increment self k).2 = (kv_increment (content self) k).2.
Proof.
  destruct self as [r w]. simpl. unfold kv_get. rewrite content_lookup. simpl.
  by rewrite (content_put r k _ w w).
Qed.

Lemma content_increment_batch self l :
  content (increment_batch self l) = kv_increment_batch (content self) l.
Proof.
  revert self. induction l as [|k l IH]; intros [r w]; cbn [increment_batch kv_increment_batch]; [done|].
  rewrite IH. f_equal. apply (content_increment (mkTree r w) k).
Qed.

Lemma content_clear_go self it : content (clear_go self it) = kv_remove_all (content self) it.
Proof.
  revert self. induction it as [|e it IH]; intros self; simpl; [done|].
  by rewrite IH, content_remove.
Qed.

#[global] Instance rocks_engine_ok : KvEngineOk (RocksDbEngineTree R).
Proof.
  intros self c. pose proof (content_iter self) as Hi. unfold iter in Hi.
  destruct c as [k|k v|l|k| |k b|k|l|p|]; simpl.
  - unfold kv_get. by rewrite content_lookup.
  - destruct self. split; [done|]. apply content_put.
  - split; [done|]. apply content_insert_batch.
  - split; [done|]. apply content_remove.
  - unfold kv_iter. by rewrite <-content_iter.
  - split; [|done]. f_equal. unfold iter_from, kv_iter_from. destruct b.
    + by rewrite iter_reverse, Hi.
    + by rewrite iter_forward, Hi.
  - destruct (content_increment self k) as [H1 H2]. split; [|done]. f_equal. done.
  - split; [done|]. apply content_increment_batch.
  - split; [|done]. f_equal. unfold scan_prefix, kv_scan_prefix, kv_iter_from.
    by rewrite iter_forward, Hi.
  - split; [done|]. unfold clear, kv_clear, kv_iter.
    by rewrite content_clear_go, content_iter.
Qed.
End refinement.
End RocksDb.

(** ** SQLite (abstraction/sqlite.rs) *)

Module Sqlite.

(** The SQL statements the engine prepares on its table. *)
Class SqlTable (Q : Type) := {
  (** [SELECT value FROM t WHERE key = ?] *)
  select_eq : Q → bytes → option bytes;
  (** [INSERT OR REPLACE INTO t (key, value) VALUES (?, ?)] *)
  insert_or_replace : Q → bytes → bytes → Q;
  (** [DELETE FROM t WHERE key = ?] *)
  delete_eq : Q → bytes → Q;
  (** [DELETE FROM t] *)
  delete_all : Q → Q;
  (** [SELECT key, value FROM t ORDER BY key ASC] *)
  select_asc : Q → list entry;
  (** [SELECT key, value FROM t WHERE key >= ? ORDER BY key ASC] *)
  select_ge_asc : Q → bytes → list entry;
  (** [SELECT key, value FROM t WHERE key <= ? ORDER BY key DESC] *)
  select_le_desc : Q → bytes → list entry;
}.

(** Their documented behaviour; [key] is a BLOB primary key, ordered by
    [memcmp]. *)
Class SqlTableOk (Q : Type) `{!SqlTable Q} : Prop := {
  select_insert : ∀ (q : Q) k v k',
    select_eq (insert_or_replace q k v) k' = if decide (k = k') then Some v else select_eq q k';
  select_delete : ∀ (q : Q) k k',
    select_eq (delete_eq q k) k' = if decide (k = k') then None else select_eq q k';
  select_delete_all : ∀ (q : Q) k, select_eq (delete_all q) k = None;
  select_asc_sorted : ∀ q : Q, StronglySorted key_lt (select_asc q);
  select_asc_elem : ∀ (q : Q) k v, (k, v) ∈ select_asc q ↔ select_eq q k = Some v;
  select_ge_sorted : ∀ (q : Q) from, StronglySorted key_lt (select_ge_asc q from);
  select_ge_elem : ∀ (q : Q) from k v,
    (k, v) ∈ select_ge_asc q from ↔ bleb from k = true ∧ select_eq q k = Some v;
  select_le_sorted : ∀ (q : Q) from, StronglySorted key_lt (reverse (select_le_desc q from));
  select_le_elem : ∀ (q : Q) from k v,
    (k, v) ∈ select_le_desc q from ↔ bleb k from = true ∧ select_eq q k = Some v;
}.

Section engine.
Context {Q : Type} `{!SqlTable Q}.

(** [SqliteTable]: the table and its watchers. *)
Record SqliteTable := mkTable { table : Q; watchers : Watchers }.

Definition get_with_guard (self : SqliteTable) (key : bytes) : option bytes :=
  select_eq (table self) key.

Definition insert_with_guard (self : SqliteTable) (key value : bytes) : SqliteTable :=
  mkTable (insert_or_replace (table self) key value) (watchers self).

Definition iter_with_guard (self : SqliteTable) : list entry := select_asc (table self).

Definition get (self : SqliteTable) (key : bytes) : option bytes := get_with_guard self key.

Definition insert (self : SqliteTable) (key value : bytes) : SqliteTable :=
  let self' := insert_with_guard self key value in
  mkTable (table self') (wake (watchers self') key).

Fixpoint insert_batch (self : SqliteTable) (iter : list entry) : SqliteTable :=
  match iter with
  | [] => self
  | (key, value) :: iter' => insert_batch (insert_with_guard self key value) iter'
  end.

Fixpoint increment_batch (self : SqliteTable) (iter : list bytes) : SqliteTable :=
  match iter with
  | [] => self
  | key :: iter' =>
      let old := get_with_guard self key in
      let new := Bytes.increment old in
      increment_batch (insert_with_guard self key new) iter'
  end.

Definition remove (self : SqliteTable) (key : bytes) : SqliteTable :=
  mkTable (delete_eq (table self) key) (watchers self).

Definition iter (self : SqliteTable) : list entry := iter_with_guard self.

Definition iter_from (self : SqliteTable) (from : bytes) (backwards : bool) : list entry :=
  if backwards then select_le_desc (table self) from
  else select_ge_asc (table self) from.

Definition increment (self : SqliteTable) (key : bytes) : bytes * SqliteTable :=
  let old := get_with_guard self key in
  let new := Bytes.increment old in
  (new, insert_with_guard self key new).

Definition scan_prefix (self : SqliteTable) (prefix : bytes) : list entry :=
  take_while (λ e, starts_with prefix e.1) (iter_from self prefix false).

Definition watch_prefix (self : SqliteTable) (prefix : bytes) : nat * SqliteTable :=
  let '(c, w) := watch (watchers self) prefix in (c, mkTable (table self) w).

Definition clear (self : SqliteTable) : SqliteTable :=
  mkTable (delete_all (table self)) (watchers self).

Definition step (self : SqliteTable) (c : kv_call) : kv_reply * SqliteTable :=
  match c with
  | Get k => (RValue (get self k), self)
  | Insert k v => (RUnit, insert self k v)
  | InsertBatch l => (RUnit, insert_batch self l)
  | Remove k => (RUnit, remove self k)
  | Iter => (REntries (iter self), self)
  | IterFrom k b => (REntries (iter_from self k b), self)
  | Increment k => let '(new, self') := increment self k in (RBytes new, self')
  | IncrementBatch l => (RUnit, increment_batch self l)
  | ScanPrefix p => (REntries (scan_prefix self p), self)
  | Clear => (RUnit, clear self)
  end.

Definition content (self : SqliteTable) : Tree := list_to_map (iter self).

#[global] Instance sqlite_engine : KvEngine SqliteTable :=
  {| engine_step := step; engine_content := content |}.
End engine.
Arguments SqliteTable Q : clear implicits.

Section refinement.
Context {Q : Type} `{!SqlTable Q, !SqlTableOk Q}.
Implicit Types self : SqliteTable Q.

Lemma sql_content_lookup self k : content self !! k = select_eq (table self) k.
Proof.
  apply option_eq. intros v. unfold content, iter, iter_with_guard.
  rewrite <-(select_asc_elem (table self) k v).
  symmetry. apply elem_of_list_to_map.
  pose proof (select_asc_sorted (table self)) as Hs.
  induction Hs as [|x l Hl IH Hx]; simpl; constructor; [|done].
  rewrite Forall_forall in Hx. intros (y & Hxy & Hy)%list_elem_of_fmap.
  specialize (Hx y Hy). unfold key_lt in Hx. rewrite Hxy in Hx.
  by apply (irreflexivity blt y.1).
Qed.

Lemma sql_content_iter self : iter self = entries (content self).
Proof.
  apply entries_unique; [apply select_asc_sorted|].
  intros k v. by rewrite sql_content_lookup, <-select_asc_elem.
Qed.

Lemma sql_content_iter_from self from b : iter_from self from b = kv_iter_from (content self) from b.
Proof.
  unfold iter_from, kv_iter_from. destruct b.
  - rewrite <-(reverse_involutive (select_le_desc _ _)). f_equal.
    apply (StronglySorted_strict_eq key_lt);
      [apply select_le_sorted|apply StronglySorted_bfilter, entries_sorted|].
    intros [k v]. rewrite elem_of_reverse, select_le_elem, elem_of_bfilter, elem_of_entries.
    by rewrite sql_content_lookup.
  - apply (StronglySorted_strict_eq key_lt);
      [apply select_ge_sorted|apply StronglySorted_bfilter, entries_sorted|].
    intros [k v]. rewrite select_ge_elem, elem_of_bfilter, elem_of_entries.
    by rewrite sql_content_lookup.
Qed.

Lemma sql_content_insert_with_guard self k v :
  content (insert_with_guard self k v) = kv_insert (content self) k v.
Proof.
  apply map_eq. intros k'. unfold kv_insert. rewrite lookup_insert, !sql_content_lookup.
  simpl. by rewrite select_insert.
Qed.

Lemma sql_content_insert self k v : content (insert self k v) = kv_insert (content self) k v.
Proof.
  rewrite <-sql_content_insert_with_guard. apply map_eq. intros k'. by rewrite !sql_content_lookup.
Qed.

Lemma sql_content_insert_batch self l : content (insert_batch self l) = kv_insert_batch (content self) l.
Proof.
  revert self. induction l as [|[k v] l IH]; intros self; cbn [insert_batch kv_insert_batch]; [done|].
  by rewrite IH, sql_content_insert_with_guard.
Qed.

Lemma sql_content_increment self k :
  (increment self k).1 = (kv_increment (content self) k).1 ∧
  content (increment self k).2 = (kv_increment (content self) k).2.
Proof.
  unfold increment, kv_increment, get_with_guard, kv_get. rewrite sql_content_lookup. simpl.
  by rewrite sql_content_insert_with_guard.
Qed.

Lemma sql_content_increment_batch self l :
  content (increment_batch self l) = kv_increment_batch (content self) l.
Proof.
  revert self. induction l as [|k l IH]; intros self; cbn [increment_batch kv_increment_batch]; [done|].
  rewrite IH. f_equal. apply sql_content_increment.
Qed.

#[global] Instance sqlite_engine_ok : KvEngineOk (SqliteTable Q).
Proof.
  intros self c. destruct c as [k|k v|l|k| |k b|k|l|p|]; simpl.
  - unfold kv_get. by rewrite sql_content_lookup.
  - split; [done|]. apply sql_content_insert.
  - split; [done|]. apply sql_content_insert_batch.
  - split; [done|]. apply map_eq. intros k'. unfold kv_remove.
    rewrite lookup_delete, !sql_content_lookup. simpl. by rewrite select_delete.
  - unfold kv_iter. by rewrite <-sql_content_iter.
  - by rewrite sql_content_iter_from.
  - destruct (sql_content_increment self k) as [H1 H2]. split; [|done]. f_equal. done.
  - split; [done|]. apply sql_content_increment_batch.
  - split; [|done]. f_equal. unfold scan_prefix, kv_scan_prefix. by rewrite sql_content_iter_from.
  - split; [done|]. rewrite kv_clear_empty. apply map_eq. intros k.
    rewrite sql_content_lookup, lookup_empty. simpl. apply select_delete_all.
Qed.
End refinement.
End Sqlite.

(** ** Concrete stores, for evaluation *)

#[global] Instance tree_rocks : RocksDb.RocksStore Tree := {|
  RocksDb.get_cf_opt t k := t !! k;
  RocksDb.put_cf_opt t k v := <[k := v]> t;
  RocksDb.delete_cf_opt t k := delete k t;
  RocksDb.iterator_cf_opt t m :=
    match m with
    | RocksDb.Start => entries t
    | RocksDb.From k RocksDb.Forward => bfilter (λ e, bleb k e.1) (entries t)
    | RocksDb.From k RocksDb.Reverse => reverse (bfilter (λ e, bleb e.1 k) (entries t))
    end |}.

#[global] Instance tree_rocks_ok : RocksDb.RocksStoreOk Tree.
Proof.
  split; simpl; intros.
  - by rewrite lookup_insert.
  - by rewrite lookup_delete.
  - apply entries_sorted.
  - apply elem_of_entries.
  - done.
  - done.
Qed.

#[global] Instance tree_sql : Sqlite.SqlTable Tree := {|
  Sqlite.select_eq t k := t !! k;
  Sqlite.insert_or_replace t k v := <[k := v]> t;
  Sqlite.delete_eq t k := delete k t;
  Sqlite.delete_all t := ∅;
  Sqlite.select_asc t := entries t;
  Sqlite.select_ge_asc t from := bfilter (λ e, bleb from e.1) (entries t);
  Sqlite.select_le_desc t from := reverse (bfilter (λ e, bleb e.1 from) (entries t)) |}.

#[global] Instance tree_sql_ok : Sqlite.SqlTableOk Tree.
Proof.
  split; simpl; intros.
  - by rewrite lookup_insert.
  - by rewrite lookup_delete.
  - apply lookup_empty.
  - apply entries_sorted.
  - apply elem_of_entries.
  - apply StronglySorted_bfilter, entries_sorted.
  - by rewrite elem_of_bfilter, elem_of_entries.
  - rewrite reverse_involutive. apply StronglySorted_bfilter, entries_sorted.
  - by rewrite elem_of_reverse, elem_of_bfilter, elem_of_entries.
Qed.

(** * Properties *)

(** C20: The RocksDB tree and the SQLite table are interchangeable: started on
    equal contents, any sequence of trait calls gets the same replies from
    both and leaves equal contents. *)
Theorem engines_equivalent {R Q : Type} `{!RocksDb.RocksStore R, !RocksDb.RocksStoreOk R,
    !Sqlite.SqlTable Q, !Sqlite.SqlTableOk Q}
    (r : RocksDb.RocksDbEngineTree R) (q : Sqlite.SqliteTable Q) (cs : list kv_call) :
  RocksDb.content r = Sqlite.content q →
  (run_engine r cs).1 = (run_engine q cs).1 ∧
  RocksDb.content (run_engine r cs).2 = Sqlite.content (run_engine q cs).2.
Proof. intros Heq. exact (run_engine_content r q cs Heq). Qed.

Lemma engines_equivalent_witness :
  (run_engine (RocksDb.mkTree (∅ : Tree) empty)
     [Insert [1; 2] [7]; Increment [3]; ScanPrefix [1]; IterFrom [9] true]).1 =
  (run_engine (Sqlite.mkTable (∅ : Tree) empty)
     [Insert [1; 2] [7]; Increment [3]; ScanPrefix [1]; IterFrom [9] true]).1.
Proof.
  apply (engines_equivalent (RocksDb.mkTree (∅ : Tree) empty) (Sqlite.mkTable (∅ : Tree) empty)).
  vm_compute. reflexivity.
Defined.

(** No lost and no spurious wake-ups: the future handed out by [watch] for
    a prefix completes exactly when, afterwards, some key under that prefix
    is inserted (whatever else is watched or written in between). *)
Theorem watch_fires_iff_prefix_written (w w' : Watchers) (p : bytes) (c : nat) (es : list event) :
  wf w → watch w p = (c, w') →
  c ∈ w_fired (foldl step w' es) ↔ ∃ key, Woken key ∈ es ∧ starts_with p key = true.
Proof.
  intros Hw Hc. apply watch_spec in Hc as (Hw' & Hp & _ & _); [|done].
  rewrite (live_until_woken w' es p c) by done. rewrite existsb_exists.
  setoid_rewrite <-list_elem_of_In. split.
  - intros ([q|key] & Hin & Hk); [done|]. eauto.
  - intros (key & Hin & Hk). exists (Woken key). eauto.
Qed.

