(* ===== verification/Pdu.v ===== *)
(** * Pdu: events and their position in a room's timeline

    [PduEvent] of [server/src/service/pdu.rs] and [PduCount] of
    [server/src/service/rooms/timeline/mod.rs]: a timeline position is a
    normal (locally counted) or a backfilled (older history) count. *)
From S2P Require Import Prelude Bytes.

(** Raw JSON values are kept as their text. *)
Record PduEvent := mkPdu {
  pdu_event_id : bytes;
  pdu_room_id : option bytes;
  pdu_sender : bytes;
  pdu_origin_server_ts : Z;
  pdu_kind : bytes;
  pdu_content : bytes;
  pdu_state_key : option bytes;
  pdu_prev_events : list bytes;
  pdu_depth : Z;
  pdu_auth_events : list bytes;
  pdu_redacts : option bytes;
  pdu_unsigned : option bytes;
  pdu_hashes : bytes;
  pdu_signatures : option bytes;
}.

#[global] Instance PduEvent_eq_dec : EqDecision PduEvent.
Proof. solve_decision. Defined.

#[global] Program Instance PduEvent_countable : Countable PduEvent :=
  inj_countable' (λ p, (pdu_event_id p, pdu_room_id p, pdu_sender p, pdu_origin_server_ts p, pdu_kind p,
      pdu_content p, pdu_state_key p, pdu_prev_events p, pdu_depth p, pdu_auth_events p, pdu_redacts p,
      pdu_unsigned p, pdu_hashes p, pdu_signatures p))
    (λ '(a, b, c, d, e, f, g, h, i, j, k, l, m, n), mkPdu a b c d e f g h i j k l m n) _.
Next Obligation. by intros []. Qed.

(** ** Timeline positions *)

Inductive PduCount :=
  | Backfilled (x : Z)
  | Normal (x : Z).

#[global] Instance PduCount_eq_dec : EqDecision PduCount.
Proof. solve_decision. Defined.

#[global] Program Instance PduCount_countable : Countable PduCount :=
  inj_countable' (λ c, match c with Backfilled x => inl x | Normal x => inr x end)
                 (λ s, match s with inl x => Backfilled x | inr x => Normal x end) _.
Next Obligation. by intros []. Qed.

Definition PduCount_min : PduCount := Backfilled u64_max.

Definition PduCount_max : PduCount := Normal u64_max.

(** [token.strip_prefix('-')]. *)
Definition strip_minus (token : bytes) : option bytes :=
  match token with
  | b :: stripped => if b =? 45 then Some stripped else None
  | [] => None
  end.

(** [PduCount::try_from_string]. *)
Definition try_from_string (token : bytes) : res PduCount :=
  let parsed :=
    match strip_minus token with
    | Some stripped => Backfilled <$> parse_u64 stripped
    | None => Normal <$> parse_u64 token
    end in
  ok_or parsed (BadRequest InvalidParam "Invalid pagination token.").

(** [PduCount::stringify]. *)
Definition stringify (c : PduCount) : bytes :=
  match c with
  | Backfilled x => 45 :: to_string x
  | Normal x => to_string x
  end.

(** [Ord for PduCount]. *)
Definition PduCount_cmp (self other : PduCount) : comparison :=
  match self, other with
  | Normal s, Normal o => s ?= o
  | Backfilled s, Backfilled o => o ?= s
  | Normal _, Backfilled _ => Gt
  | Backfilled _, Normal _ => Lt
  end.

(** The counts the server hands out fit a [u64]. *)
Definition count_u64 (c : PduCount) : Prop :=
  match c with Backfilled x | Normal x => is_u64 x end.

(** ** The order *)

Lemma PduCount_cmp_eq a b : PduCount_cmp a b = Eq ↔ a = b.
Proof.
  destruct a, b; simpl; try done; rewrite Z.compare_eq_iff; naive_solver.
Qed.

Lemma PduCount_cmp_opp a b : PduCount_cmp b a = CompOpp (PduCount_cmp a b).
Proof. destruct a, b; simpl; try done; apply Z.compare_antisym. Qed.

Lemma PduCount_cmp_trans a b c : PduCount_cmp a b = Lt → PduCount_cmp b c = Lt → PduCount_cmp a c = Lt.
Proof. destruct a, b, c; simpl; try done; rewrite !Z.compare_lt_iff; lia. Qed.

Lemma to_string_head n : 0 ≤ n → ∃ d ds, to_string n = d :: ds ∧ d ≠ 45.
Proof.
  intros Hn. pose proof (to_string_nonempty n). pose proof (to_string_digits n Hn) as Hd.
  destruct (to_string n) as [|d ds]; [done|]. exists d, ds. split; [done|].
  apply Forall_cons in Hd as [Hd _]. by intros ->.
Qed.

(** * Properties *)

(** Pagination tokens round-trip: parsing the string form of a timeline
    position gives the position back, normal or backfilled. *)
Theorem pdu_count_token_roundtrip (c : PduCount) :
  count_u64 c → try_from_string (stringify c) = Ok c.
Proof.
  intros Hc. unfold try_from_string. destruct c as [x|x]; simpl in *.
  - by rewrite parse_to_string.
  - destruct (to_string_head x) as (d & ds & E & Hd); [by destruct Hc|].
    rewrite E. cbn [strip_minus]. rewrite (proj2 (Z.eqb_neq d 45)) by done. by rewrite <-E, parse_to_string.
Qed.

