(* ===== verification/Database.v ===== *)
(** * Database: the server's state and the global counter

    [KeyValueDatabase] of [server/src/database/mod.rs] (its trees and its
    in-memory caches), the calls on its trees, and
    [server/src/database/key_value/globals.rs].  The third-party vocabulary
    shared by the components is here as type classes: identifiers ([Ruma]),
    JSON ([Json]) and the bounded caches ([LruCache]). *)
From S2P Require Import Prelude Bytes KvTree Pdu.

(** ** Third-party vocabulary *)

(** Which strings ruma accepts as identifiers, and the parts of them the code
    asks for. *)
Class Ruma := {
  user_id_ok : bytes → bool;
  room_id_ok : bytes → bool;
  event_id_ok : bytes → bool;
  server_name_ok : bytes → bool;
  room_alias_id_ok : bytes → bool;
  (** [UserId::server_name] *)
  server_name_of : bytes → bytes;
  (** [RoomAliasId::alias]: the localpart of an alias *)
  alias_of : bytes → bytes;
  (** [EventId::localpart] and [RoomId::new_v2] *)
  event_localpart : bytes → bytes;
  room_id_new_v2 : bytes → option bytes;
  (** [UserId::parse_with_server_name] *)
  parse_with_server_name : bytes → bytes → option bytes;
}.

(** serde_json on one type: what was written can be read back. *)
Class Json (A : Type) := {
  to_vec : A → bytes;
  from_slice : bytes → option A;
  from_slice_to_vec : ∀ a, from_slice (to_vec a) = Some a;
}.

(** [lru_cache::LruCache]: an insertion may evict other entries. *)
Class LruCache := {
  lru_insert : ∀ {K V} `{Countable K}, K → V → gmap K V → gmap K V;
  lru_insert_sub : ∀ {K V} `{Countable K} (k : K) (v : V) m, lru_insert k v m ⊆ <[k := v]> m;
}.

(** Iteration order of a [HashSet] of byte strings: any permutation. *)
Class HashOrder := {
  hash_iter : gset bytes → list bytes;
  hash_iter_perm : ∀ s, hash_iter s ≡ₚ elements s;
}.

Definition elements_order : HashOrder := {| hash_iter := elements; hash_iter_perm := λ s, reflexivity _ |}.

Lemma hash_iter_NoDup `{HO : HashOrder} s : NoDup (hash_iter s).
Proof. rewrite hash_iter_perm. apply NoDup_elements. Qed.

Lemma hash_iter_set `{HO : HashOrder} s : list_to_set (hash_iter s) = s.
Proof. apply set_eq. intros x. rewrite elem_of_list_to_set, hash_iter_perm. apply elem_of_elements. Qed.

(** A concrete vocabulary, to evaluate the model: identifiers start with their
    sigil, the server name follows the first colon, caches never evict. *)
Fixpoint after_colon (bs : bytes) : bytes :=
  match bs with [] => [] | 58 :: bs' => bs' | _ :: bs' => after_colon bs' end.

Fixpoint before_colon (bs : bytes) : bytes :=
  match bs with [] => [] | 58 :: _ => [] | b :: bs' => b :: before_colon bs' end.

Definition sample_user_id_ok (bs : bytes) : bool :=
  starts_with (lit "@") bs && utf8_valid (after_colon bs) && bool_decide (after_colon bs ≠ []) && utf8_valid bs.

Definition sample_ruma : Ruma := {|
  user_id_ok := sample_user_id_ok;
  room_id_ok := λ bs, starts_with (lit "!") bs && utf8_valid bs;
  event_id_ok := starts_with (lit "$");
  server_name_ok := λ bs, bool_decide (bs ≠ []);
  room_alias_id_ok := starts_with (lit "#");
  server_name_of := after_colon;
  alias_of := λ bs, tail (before_colon bs);
  event_localpart := λ bs, tail (before_colon bs);
  room_id_new_v2 := λ bs, Some (lit "!" ++ bs);
  parse_with_server_name := λ id server,
    let u := if starts_with (lit "@") id then id else lit "@" ++ id ++ lit ":" ++ server in
    if sample_user_id_ok u then Some u else None;
|}.

(** A codec for the witnesses: one number per value. *)
Definition json_countable (A : Type) `{Countable A} : Json A := {|
  to_vec := λ a, [Z.pos (encode a)];
  from_slice := λ bs, match bs with [Z.pos p] => decode p | _ => None end;
  from_slice_to_vec := decode_encode;
|}.

Definition lru_unbounded : LruCache := {|
  lru_insert := λ K V _ _ k v m, <[k := v]> m;
  lru_insert_sub := λ K V _ _ k v m, reflexivity _;
|}.

(** [PduEvent::room_id]: a create event of the newest room versions carries no
    room id, it is built from the event id. *)
Definition room_id `{Ruma} (pdu : PduEvent) : res bytes :=
  match pdu_room_id pdu with
  | Some r => Ok r
  | None => expect (room_id_new_v2 (event_localpart (pdu_event_id pdu)))
  end.

(** The repeated pattern "decode UTF-8, then parse an identifier". *)
Definition parse_id (id_ok : bytes → bool) (unicode invalid : string) (bs : bytes) : res bytes :=
  s ← ok_or (string_from_bytes bs) (BadDatabase unicode);
  if id_ok s then Ok s else Err (BadDatabase invalid).

Definition bad_database {A} (msg : string) : res A := Err (BadDatabase msg).

(** ** The trees of [KeyValueDatabase] *)

Inductive Table :=
  | global
  | server_signingkeys
  | userid_password
  | userid_displayname
  | userid_avatarurl
  | userid_blurhash
  | userdeviceid_token
  | userdeviceid_metadata
  | userid_devicelistversion
  | token_userdeviceid
  | onetimekeyid_onetimekeys
  | userid_lastonetimekeyupdate
  | keychangeid_userid
  | keyid_key
  | userid_masterkeyid
  | userid_selfsigningkeyid
  | userid_usersigningkeyid
  | openidtoken_expiresatuserid
  | userfilterid_filter
  | todeviceid_events
  | userdevicesessionid_uiaainfo
  | readreceiptid_readreceipt
  | roomuserid_privateread
  | roomuserid_lastprivatereadupdate
  | presenceid_presence
  | userid_lastpresenceupdate
  | pduid_pdu
  | eventid_pduid
  | roomid_pduleaves
  | alias_roomid
  | aliasid_alias
  | publicroomids
  | threadid_userids
  | tokenids
  | roomserverids
  | serverroomids
  | userroomid_joined
  | roomuserid_joined
  | roomid_joinedcount
  | roomid_invitedcount
  | roomuseroncejoinedids
  | userroomid_invitestate
  | roomuserid_invitecount
  | userroomid_knockstate
  | roomuserid_knockcount
  | userroomid_leftstate
  | roomuserid_leftcount
  | alias_userid
  | disabledroomids
  | lazyloadedids
  | userroomid_notificationcount
  | userroomid_highlightcount
  | roomid_shortstatehash
  | roomsynctoken_shortstatehash
  | shorteventid_shortstatehash
  | statekey_shortstatekey
  | shortstatekey_statekey
  | roomid_shortroomid
  | shorteventid_eventid
  | eventid_shorteventid
  | statehash_shortstatehash
  | shortstatehash_statediff
  | shorteventid_authchain
  | eventid_outlierpdu
  | softfailedeventids
  | tofrom_relation
  | referencedevents
  | roomuserdataid_accountdata
  | roomusertype_roomuserdataid
  | servernamemediaid_metadata
  | filehash_servername_mediaid
  | filehash_metadata
  | blocked_servername_mediaid
  | servername_userlocalpart_mediaid
  | servernamemediaid_userlocalpart
  | thumbnailid_metadata
  | filehash_thumbnailid
  | backupid_algorithm
  | backupid_etag
  | backupkeyid_backup
  | userdevicetxnid_response
  | servername_educount
  | servernameevent_data
  | servercurrentevent_data
  | id_appserviceregistrations
  | senderkey_pusher.

#[global] Instance Table_eq_dec : EqDecision Table.
Proof. solve_decision. Defined.

(** The field [roomuserid_lastnotificationread] is opened on the tree named
    "userroomid_highlightcount": the two fields share one tree. *)
Definition roomuserid_lastnotificationread : Table := userroomid_highlightcount.

(** One layer of a loaded state: (sstatehash, full state, added, removed). *)
Record StateLayer := mkLayer {
  sstatehash : Z;
  full_state : gset bytes;
  layer_added : gset bytes;
  layer_removed : gset bytes;
}.

(** The whole state: the trees, the caches of [KeyValueDatabase] and the cache
    of the state compressor. *)
Record Db := mkDb {
  kv : Table → Tree;
  pdu_cache : gmap bytes PduEvent;
  shorteventid_cache : gmap Z bytes;
  auth_chain_cache : gmap (list Z) (gset Z);
  eventidshort_cache : gmap bytes Z;
  statekeyshort_cache : gmap (bytes * bytes) Z;
  shortstatekey_cache : gmap Z (bytes * bytes);
  our_real_users_cache : gmap bytes (gset bytes);
  appservice_in_room_cache : gmap bytes (gmap bytes bool);
  lasttimelinecount_cache : gmap bytes PduCount;
  userdevicesessionid_uiaarequest : gmap (bytes * bytes * bytes) bytes;
  stateinfo_cache : gmap Z (list StateLayer);
}.

(** A freshly created database. *)
Definition empty_db : Db := mkDb (λ _, ∅) ∅ ∅ ∅ ∅ ∅ ∅ ∅ ∅ ∅ ∅ ∅.

(** Field updates. *)
Definition set_kv (f : Table → Tree) (d : Db) : Db :=
  mkDb f (pdu_cache d) (shorteventid_cache d) (auth_chain_cache d) (eventidshort_cache d)
    (statekeyshort_cache d) (shortstatekey_cache d) (our_real_users_cache d)
    (appservice_in_room_cache d) (lasttimelinecount_cache d) (userdevicesessionid_uiaarequest d)
    (stateinfo_cache d).

Definition set_pdu_cache c (d : Db) : Db :=
  mkDb (kv d) c (shorteventid_cache d) (auth_chain_cache d) (eventidshort_cache d)
    (statekeyshort_cache d) (shortstatekey_cache d) (our_real_users_cache d)
    (appservice_in_room_cache d) (lasttimelinecount_cache d) (userdevicesessionid_uiaarequest d)
    (stateinfo_cache d).

Definition set_shorteventid_cache c (d : Db) : Db :=
  mkDb (kv d) (pdu_cache d) c (auth_chain_cache d) (eventidshort_cache d)
    (statekeyshort_cache d) (shortstatekey_cache d) (our_real_users_cache d)
    (appservice_in_room_cache d) (lasttimelinecount_cache d) (userdevicesessionid_uiaarequest d)
    (stateinfo_cache d).

Definition set_auth_chain_cache c (d : Db) : Db :=
  mkDb (kv d) (pdu_cache d) (shorteventid_cache d) c (eventidshort_cache d)
    (statekeyshort_cache d) (shortstatekey_cache d) (our_real_users_cache d)
    (appservice_in_room_cache d) (lasttimelinecount_cache d) (userdevicesessionid_uiaarequest d)
    (stateinfo_cache d).

Definition set_eventidshort_cache c (d : Db) : Db :=
  mkDb (kv d) (pdu_cache d) (shorteventid_cache d) (auth_chain_cache d) c
    (statekeyshort_cache d) (shortstatekey_cache d) (our_real_users_cache d)
    (appservice_in_room_cache d) (lasttimelinecount_cache d) (userdevicesessionid_uiaarequest d)
    (stateinfo_cache d).

Definition set_statekeyshort_cache c (d : Db) : Db :=
  mkDb (kv d) (pdu_cache d) (shorteventid_cache d) (auth_chain_cache d) (eventidshort_cache d)
    c (shortstatekey_cache d) (our_real_users_cache d)
    (appservice_in_room_cache d) (lasttimelinecount_cache d) (userdevicesessionid_uiaarequest d)
    (stateinfo_cache d).

Definition set_shortstatekey_cache c (d : Db) : Db :=
  mkDb (kv d) (pdu_cache d) (shorteventid_cache d) (auth_chain_cache d) (eventidshort_cache d)
    (statekeyshort_cache d) c (our_real_users_cache d)
    (appservice_in_room_cache d) (lasttimelinecount_cache d) (userdevicesessionid_uiaarequest d)
    (stateinfo_cache d).

Definition set_our_real_users_cache c (d : Db) : Db :=
  mkDb (kv d) (pdu_cache d) (shorteventid_cache d) (auth_chain_cache d) (eventidshort_cache d)
    (statekeyshort_cache d) (shortstatekey_cache d) c
    (appservice_in_room_cache d) (lasttimelinecount_cache d) (userdevicesessionid_uiaarequest d)
    (stateinfo_cache d).

Definition set_appservice_in_room_cache c (d : Db) : Db :=
  mkDb (kv d) (pdu_cache d) (shorteventid_cache d) (auth_chain_cache d) (eventidshort_cache d)
    (statekeyshort_cache d) (shortstatekey_cache d) (our_real_users_cache d)
    c (lasttimelinecount_cache d) (userdevicesessionid_uiaarequest d)
    (stateinfo_cache d).

Definition set_lasttimelinecount_cache c (d : Db) : Db :=
  mkDb (kv d) (pdu_cache d) (shorteventid_cache d) (auth_chain_cache d) (eventidshort_cache d)
    (statekeyshort_cache d) (shortstatekey_cache d) (our_real_users_cache d)
    (appservice_in_room_cache d) c (userdevicesessionid_uiaarequest d)
    (stateinfo_cache d).

Definition set_uiaarequest c (d : Db) : Db :=
  mkDb (kv d) (pdu_cache d) (shorteventid_cache d) (auth_chain_cache d) (eventidshort_cache d)
    (statekeyshort_cache d) (shortstatekey_cache d) (our_real_users_cache d)
    (appservice_in_room_cache d) (lasttimelinecount_cache d) c (stateinfo_cache d).

Definition set_stateinfo_cache c (d : Db) : Db :=
  mkDb (kv d) (pdu_cache d) (shorteventid_cache d) (auth_chain_cache d) (eventidshort_cache d)
    (statekeyshort_cache d) (shortstatekey_cache d) (our_real_users_cache d)
    (appservice_in_room_cache d) (lasttimelinecount_cache d) (userdevicesessionid_uiaarequest d) c.

(** Replace one tree. *)
Definition upd (t : Table) (f : Tree → Tree) (d : Db) : Db :=
  set_kv (λ t', if decide (t = t') then f (kv d t') else kv d t') d.

(** ** Calls on the trees *)

Definition get (t : Table) (key : bytes) : M Db (option bytes) :=
  gets (λ d, Ok (kv_get (kv d t) key)).

Definition insert (t : Table) (key value : bytes) : M Db unit :=
  modify (upd t (λ tr, kv_insert tr key value)).

Definition insert_batch (t : Table) (iter : list entry) : M Db unit :=
  modify (upd t (λ tr, kv_insert_batch tr iter)).

Definition remove (t : Table) (key : bytes) : M Db unit :=
  modify (upd t (λ tr, kv_remove tr key)).

Definition increment (t : Table) (key : bytes) : M Db bytes := λ d,
  let '(new, tr) := kv_increment (kv d t) key in (Ok new, upd t (λ _, tr) d).

Definition increment_batch (t : Table) (iter : list bytes) : M Db unit :=
  modify (upd t (λ tr, kv_increment_batch tr iter)).

(** [for (key, _) in tree.scan_prefix(prefix) { tree.remove(&key)?; }]: the
    iterator reads a snapshot. *)
Definition remove_prefix (t : Table) (prefix : bytes) : M Db unit :=
  modify (upd t (λ tr, kv_remove_all tr (kv_scan_prefix tr prefix))).

(** ** Globals (key_value/globals.rs) *)

Definition COUNTER : bytes := lit "c".

Definition LAST_CHECK_FOR_UPDATES_COUNT : bytes := lit "u".

Definition next_count : M Db Z :=
  bs ← increment global COUNTER;
  lift (ok_or (u64_from_bytes bs) (BadDatabase "Count has invalid bytes.")).

Definition current_count : M Db Z :=
  o ← get global COUNTER;
  lift match o with
       | None => Ok 0
       | Some bs => ok_or (u64_from_bytes bs) (BadDatabase "Count has invalid bytes.")
       end.

Definition last_check_for_updates_id : M Db Z :=
  o ← get global LAST_CHECK_FOR_UPDATES_COUNT;
  lift match o with
       | None => Ok 0
       | Some bs => ok_or (u64_from_bytes bs)
                      (BadDatabase "last check for updates count has invalid bytes.")
       end.

Definition update_check_for_updates_id (id : Z) : M Db unit :=
  insert global LAST_CHECK_FOR_UPDATES_COUNT (to_be_bytes id).

Definition clear_caches (amount : Z) : M Db unit :=
  modify (λ d,
    let d := if 0 <? amount then set_pdu_cache ∅ d else d in
    let d := if 1 <? amount then set_shorteventid_cache ∅ d else d in
    let d := if 2 <? amount then set_auth_chain_cache ∅ d else d in
    let d := if 3 <? amount then set_eventidshort_cache ∅ d else d in
    let d := if 4 <? amount then set_statekeyshort_cache ∅ d else d in
    let d := if 5 <? amount then set_our_real_users_cache ∅ d else d in
    let d := if 6 <? amount then set_appservice_in_room_cache ∅ d else d in
    if 7 <? amount then set_lasttimelinecount_cache ∅ d else d).

Definition remove_keypair : M Db unit := remove global (lit "keypair").

Definition database_version : M Db Z :=
  o ← get global (lit "version");
  lift match o with
       | None => Ok 0
       | Some version => ok_or (u64_from_bytes version) (BadDatabase "Database version id is invalid.")
       end.

Definition bump_database_version (new_version : Z) : M Db unit :=
  insert global (lit "version") (to_be_bytes new_version).

(** * Lemmas *)

Lemma kv_upd t t' f d : kv (upd t f d) t' = if decide (t = t') then f (kv d t') else kv d t'.
Proof. done. Qed.

Lemma kv_upd_eq t f d : kv (upd t f d) t = f (kv d t).
Proof. rewrite kv_upd. by rewrite decide_True. Qed.

Lemma kv_upd_ne t t' f d : t ≠ t' → kv (upd t f d) t' = kv d t'.
Proof. intros. rewrite kv_upd. by rewrite decide_False. Qed.

Create Rewrite HintDb kv.
#[export] Hint Rewrite kv_upd_eq : kv.
#[export] Hint Rewrite kv_upd_ne using discriminate : kv.

(** Simplify reads of updated trees. *)
Ltac kv_cbn := cbn [kv set_kv set_pdu_cache set_shorteventid_cache
  set_auth_chain_cache set_eventidshort_cache set_statekeyshort_cache set_shortstatekey_cache
  set_our_real_users_cache set_appservice_in_room_cache set_lasttimelinecount_cache
  set_uiaarequest set_stateinfo_cache].
Ltac kv_simpl := kv_cbn; autorewrite with kv; kv_cbn.

Tactic Notation "kv_simpl" "in" hyp(H) := autorewrite with kv in H; cbn [kv set_kv set_pdu_cache
  set_shorteventid_cache set_auth_chain_cache set_eventidshort_cache set_statekeyshort_cache
  set_shortstatekey_cache set_our_real_users_cache set_appservice_in_room_cache
  set_lasttimelinecount_cache set_uiaarequest set_stateinfo_cache] in H.

Lemma parse_id_ok id_ok u i bs :
  utf8_valid bs = true → id_ok bs = true → parse_id id_ok u i bs = Ok bs.
Proof.
  intros Hu Hi. unfold parse_id. rewrite string_from_bytes_valid by done. cbn. by rewrite Hi.
Qed.

Lemma parse_id_Ok id_ok u i bs s :
  parse_id id_ok u i bs = Ok s → s = bs ∧ utf8_valid bs = true ∧ id_ok bs = true.
Proof.
  unfold parse_id. destruct (string_from_bytes bs) as [s'|] eqn:E; [|done]. cbn.
  apply string_from_bytes_Some in E as [-> Hu]. destruct (id_ok bs) eqn:E; naive_solver.
Qed.

(** ** The counter *)

(** The counter cell holds [n]. *)
Definition count_is (d : Db) (n : Z) : Prop :=
  is_u64 n ∧
  (kv d global !! COUNTER = Some (to_be_bytes n) ∨ kv d global !! COUNTER = None ∧ n = 0).

Definition set_count (n : Z) (d : Db) : Db :=
  upd global (λ _, <[COUNTER := to_be_bytes n]> (kv d global)) d.

Lemma count_is_set_count n d : is_u64 n → count_is (set_count n d) n.
Proof.
  intros Hn. split; [done|]. left. unfold set_count. kv_simpl. apply lookup_insert_eq.
Qed.

Lemma count_is_fun d m n : count_is d m → count_is d n → m = n.
Proof.
  intros [Hm H1] [Hn H2]. destruct H1 as [H1|[H1 ->]], H2 as [H2|[H2 ->]]; try congruence.
  apply to_be_bytes_inj; [done..|]. congruence.
Qed.

Lemma next_count_spec d n :
  count_is d n → n < u64_max → next_count d = (Ok (n + 1), set_count (n + 1) d).
Proof.
  intros [[H0 Hm] Hc] Hlt. unfold next_count, increment, set_count, kv_increment, kv_get, kv_insert.
  assert (is_u64 (n + 1)) as Hn1 by (unfold is_u64; lia).
  assert (Bytes.increment (kv d global !! COUNTER) = to_be_bytes (n + 1)) as Hi.
  { destruct Hc as [->|[-> ->]]; [|done]. unfold Bytes.increment. cbn [fmap option_fmap option_map].
    rewrite u64_from_to_be_bytes by done. unfold w64. unfold u64_max in *.
    rewrite Z.mod_small by lia. done. }
  run. cbv zeta. rewrite Hi. run. by rewrite u64_from_to_be_bytes.
Qed.

Lemma current_count_spec d n : count_is d n → current_count d = (Ok n, d).
Proof.
  intros [Hn Hc]. unfold current_count, get, kv_get. run.
  destruct Hc as [->|[-> ->]]; [|done]. by rewrite u64_from_to_be_bytes.
Qed.

Lemma kv_set_count n d t : t ≠ global → kv (set_count n d) t = kv d t.
Proof. intros. unfold set_count. by rewrite kv_upd_ne. Qed.
#[export] Hint Rewrite kv_set_count using discriminate : kv.

(** What a count-consuming call depends on: a counter cell that can still be
    incremented. *)
Definition counting (d : Db) : Prop := ∃ n, count_is d n ∧ n < u64_max.

(** Lookups after the removal of a prefix. *)
Lemma lookup_remove_prefix_kv t p d k :
  kv (remove_prefix t p d).2 t !! k = if starts_with p k then None else kv d t !! k.
Proof. unfold remove_prefix, modify. cbn [snd]. kv_simpl. apply lookup_remove_prefix. Qed.

(** ** Loops over one tree *)

(** All caches. *)
Definition caches (d : Db) :=
  (pdu_cache d, shorteventid_cache d, auth_chain_cache d, eventidshort_cache d,
   statekeyshort_cache d, shortstatekey_cache d, our_real_users_cache d,
   appservice_in_room_cache d, lasttimelinecount_cache d, userdevicesessionid_uiaarequest d,
   stateinfo_cache d).

(** [d'] is [d] with tree [t] replaced by [tr]. *)
Definition only (t : Table) (tr : Tree) (d d' : Db) : Prop :=
  kv d' t = tr ∧ (∀ t', t' ≠ t → kv d' t' = kv d t') ∧ caches d' = caches d.

Lemma only_upd t f d : only t (f (kv d t)) d (upd t f d).
Proof. split_and!; [by kv_simpl|intros t' Ht'; by rewrite kv_upd_ne|done]. Qed.

Lemma only_trans t tr1 tr2 d1 d2 d3 : only t tr1 d1 d2 → only t tr2 d2 d3 → only t tr2 d1 d3.
Proof.
  intros (_ & H1 & C1) (E & H2 & C2). split_and!; [done| |congruence].
  intros t' Ht'. by rewrite H2, H1.
Qed.

Lemma for_each_upd {A} (t : Table) (F : A → Tree → Tree) (l : list A) (d : Db) :
  ∃ d', for_each l (λ x, modify (upd t (F x))) d = (Ok tt, d') ∧
    only t (fold_left (λ tr x, F x tr) l (kv d t)) d d'.
Proof.
  revert d. induction l as [|x l IH]; intros d; cbn [for_each].
  - exists d. by split_and!.
  - run. destruct (IH (upd t (F x) d)) as (d' & Hd' & Ho). exists d'. split; [done|].
    rewrite kv_upd_eq in Ho. eapply only_trans; [apply only_upd|done].
Qed.

(** ** Computations that leave a part of the database alone *)

Section keeps.
Context {B : Type} (f : Db → B).

Definition keeps_field {A} (m : M Db A) : Prop := ∀ d, f (m d).2 = f d.

Lemma keeps_ret {A} (a : A) : keeps_field (mret a).
Proof. by intros d. Qed.

Lemma keeps_lift {A} (r : res A) : keeps_field (lift r).
Proof. by intros d. Qed.

Lemma keeps_fail {A} e : keeps_field (A:=A) (fail e).
Proof. by intros d. Qed.

Lemma keeps_gets {A} (g : Db → res A) : keeps_field (gets g).
Proof. by intros d. Qed.

Lemma keeps_modify g : (∀ d, f (g d) = f d) → keeps_field (modify g).
Proof. intros H d. apply H. Qed.

Lemma keeps_bind {A C} (m : M Db A) (k : A → M Db C) : keeps_field m → (∀ a, keeps_field (k a)) → keeps_field (m ≫= k).
Proof.
  intros Hm Hk d. unfold mbind, M_bind. specialize (Hm d). destruct (m d) as [[a|e|] d']; cbn [snd] in *; [|done..].
  by rewrite Hk.
Qed.

Lemma keeps_try_ok {A} (m : M Db A) : keeps_field m → keeps_field (try_ok m).
Proof. intros Hm d. unfold try_ok. specialize (Hm d). by destruct (m d) as [[]]. Qed.

Lemma keeps_foldM {A C} (g : C → A → M Db C) l : (∀ c x, keeps_field (g c x)) → ∀ c, keeps_field (foldM g c l).
Proof. intros Hg. induction l as [|x l IH]; intros c; cbn [foldM]; [apply keeps_ret|]. by apply keeps_bind. Qed.

Lemma keeps_for_each {A} (l : list A) g : (∀ a, keeps_field (g a)) → keeps_field (for_each l g).
Proof. intros Hg. induction l as [|x l IH]; cbn [for_each]; [apply keeps_ret|]. by apply keeps_bind. Qed.

Lemma keeps_get t k : keeps_field (get t k).
Proof. by intros d. Qed.

Lemma keeps_increment t k : (∀ d tr, f (upd t (λ _, tr) d) = f d) → keeps_field (increment t k).
Proof. intros H d. unfold increment. destruct (kv_increment (kv d t) k). apply H. Qed.
End keeps.

(** A computation that only fills caches. *)
Abbreviation keeps_kv m := (keeps_field kv m).

Create HintDb keeps discriminated.
#[export] Hint Resolve keeps_ret keeps_lift keeps_fail keeps_gets keeps_get : keeps.
#[export] Hint Extern 1 (keeps_field _ (insert _ _ _)) => (apply keeps_modify; intros; reflexivity) : keeps.
#[export] Hint Extern 1 (keeps_field _ (insert_batch _ _)) => (apply keeps_modify; intros; reflexivity) : keeps.
#[export] Hint Extern 1 (keeps_field _ (remove _ _)) => (apply keeps_modify; intros; reflexivity) : keeps.
#[export] Hint Extern 1 (keeps_field _ (increment _ _)) => (apply keeps_increment; intros; reflexivity) : keeps.

(** Follow the structure of a computation. *)
Ltac keeps := repeat first
  [ progress (intros; cbv beta)
  | solve [eauto with keeps]
  | apply keeps_bind
  | apply keeps_try_ok
  | apply keeps_foldM
  | apply keeps_for_each
  | apply keeps_modify; intros; reflexivity
  | match goal with |- keeps_field _ (match ?x with _ => _ end) => destruct x end
  | match goal with |- keeps_field _ (let '_ := ?x in _) => destruct x end ].
