(* ===== verification/Short.v ===== *)
(** * Short: 64-bit short ids for events, state keys, state hashes and rooms

    [server/src/database/key_value/rooms/short.rs].  Every short id is drawn
    from the global counter; event ids and state keys are mapped both ways,
    with an LRU cache in front of each direction.  [StateEventType]s are their
    string form. *)
From S2P Require Import Prelude Bytes KvTree Pdu Database.

Section short.
Context {RU : Ruma} {LR : LruCache}.

(** [event_type 0xff state_key]. *)
Definition statekey_bytes (event_type state_key : bytes) : bytes :=
  event_type ++ ff :: state_key.

Definition get_or_create_shorteventid (event_id : bytes) : M Db Z :=
  cached ← gets (λ d, Ok (eventidshort_cache d !! event_id));
  match cached with
  | Some short => mret short
  | None =>
      o ← get eventid_shorteventid event_id;
      short ← match o with
        | Some shorteventid =>
            lift (ok_or (u64_from_bytes shorteventid) (BadDatabase "Invalid shorteventid in db."))
        | None =>
            shorteventid ← next_count;
            insert eventid_shorteventid event_id (to_be_bytes shorteventid);;
            insert shorteventid_eventid (to_be_bytes shorteventid) event_id;;
            mret shorteventid
        end;
      modify (λ d, set_eventidshort_cache (lru_insert event_id short (eventidshort_cache d)) d);;
      mret short
  end.

Definition get_shortstatekey (event_type state_key : bytes) : M Db (option Z) :=
  cached ← gets (λ d, Ok (statekeyshort_cache d !! (event_type, state_key)));
  match cached with
  | Some short => mret (Some short)
  | None =>
      let statekey := statekey_bytes event_type state_key in
      o ← get statekey_shortstatekey statekey;
      short ← lift (map_transpose (λ shortstatekey,
        ok_or (u64_from_bytes shortstatekey) (BadDatabase "Invalid shortstatekey in db.")) o);
      match short with
      | Some s =>
          modify (λ d, set_statekeyshort_cache
                         (lru_insert (event_type, state_key) s (statekeyshort_cache d)) d)
      | None => mret tt
      end;;
      mret short
  end.

Definition get_or_create_shortstatekey (event_type state_key : bytes) : M Db Z :=
  cached ← gets (λ d, Ok (statekeyshort_cache d !! (event_type, state_key)));
  match cached with
  | Some short => mret short
  | None =>
      let statekey := statekey_bytes event_type state_key in
      o ← get statekey_shortstatekey statekey;
      short ← match o with
        | Some shortstatekey =>
            lift (ok_or (u64_from_bytes shortstatekey) (BadDatabase "Invalid shortstatekey in db."))
        | None =>
            shortstatekey ← next_count;
            insert statekey_shortstatekey statekey (to_be_bytes shortstatekey);;
            insert shortstatekey_statekey (to_be_bytes shortstatekey) statekey;;
            mret shortstatekey
        end;
      modify (λ d, set_statekeyshort_cache
                     (lru_insert (event_type, state_key) short (statekeyshort_cache d)) d);;
      mret short
  end.

Definition get_eventid_from_short (shorteventid : Z) : M Db bytes :=
  cached ← gets (λ d, Ok (shorteventid_cache d !! shorteventid));
  match cached with
  | Some id => mret id
  | None =>
      o ← get shorteventid_eventid (to_be_bytes shorteventid);
      bs ← lift (ok_or o (BadDatabase "Shorteventid does not exist"));
      event_id ← lift (parse_id event_id_ok "EventID in shorteventid_eventid is invalid unicode."
                         "EventId in shorteventid_eventid is invalid." bs);
      modify (λ d, set_shorteventid_cache
                     (lru_insert shorteventid event_id (shorteventid_cache d)) d);;
      mret event_id
  end.

Definition get_statekey_from_short (shortstatekey : Z) : M Db (bytes * bytes) :=
  cached ← gets (λ d, Ok (shortstatekey_cache d !! shortstatekey));
  match cached with
  | Some id => mret id
  | None =>
      o ← get shortstatekey_statekey (to_be_bytes shortstatekey);
      bs ← lift (ok_or o (BadDatabase "Shortstatekey does not exist"));
      let '(eventtype_bytes, rest) := splitn2 bs in
      statekey_bytes ← lift (ok_or rest (BadDatabase "Invalid statekey in shortstatekey_statekey."));
      event_type ← lift (ok_or (string_from_bytes eventtype_bytes)
        (BadDatabase "Event type in shortstatekey_statekey is invalid unicode."));
      state_key ← lift (ok_or (string_from_bytes statekey_bytes)
        (BadDatabase "Statekey in shortstatekey_statekey is invalid unicode."));
      let result := (event_type, state_key) in
      modify (λ d, set_shortstatekey_cache
                     (lru_insert shortstatekey result (shortstatekey_cache d)) d);;
      mret result
  end.

(** Returns (shortstatehash, already_existed). *)
Definition get_or_create_shortstatehash (state_hash : bytes) : M Db (Z * bool) :=
  o ← get statehash_shortstatehash state_hash;
  match o with
  | Some shortstatehash =>
      s ← lift (ok_or (u64_from_bytes shortstatehash) (BadDatabase "Invalid shortstatehash in db."));
      mret (s, true)
  | None =>
      shortstatehash ← next_count;
      insert statehash_shortstatehash state_hash (to_be_bytes shortstatehash);;
      mret (shortstatehash, false)
  end.

Definition get_shortroomid (room_id : bytes) : M Db (option Z) :=
  o ← get roomid_shortroomid room_id;
  lift (map_transpose (λ bs,
    ok_or (u64_from_bytes bs) (BadDatabase "Invalid shortroomid in db.")) o).

Definition get_or_create_shortroomid (room_id : bytes) : M Db Z :=
  o ← get roomid_shortroomid room_id;
  match o with
  | Some short =>
      lift (ok_or (u64_from_bytes short) (BadDatabase "Invalid shortroomid in db."))
  | None =>
      short ← next_count;
      insert roomid_shortroomid room_id (to_be_bytes short);;
      mret short
  end.
End short.

(** ** The invariant *)

(** A tree whose values are short ids between 1 and [n]. *)
Definition short_codes (F : Tree) (n : Z) : Prop :=
  ∀ k b, F !! k = Some b → ∃ s, b = to_be_bytes s ∧ 1 ≤ s ≤ n.

(** Two trees that are inverse to each other. *)
Definition short_maps (F B : Tree) (n : Z) : Prop :=
  (∀ k b, F !! k = Some b → ∃ s, b = to_be_bytes s ∧ 1 ≤ s ≤ n ∧ B !! to_be_bytes s = Some k) ∧
  (∀ b k, B !! b = Some k → ∃ s, b = to_be_bytes s ∧ 1 ≤ s ≤ n ∧ F !! k = Some (to_be_bytes s)).

(** The tables and caches of short ids are consistent; [n] is the counter. *)
Record ShortInv (d : Db) (n : Z) : Prop := mk_ShortInv {
  si_count : count_is d n;
  si_events : short_maps (kv d eventid_shorteventid) (kv d shorteventid_eventid) n;
  si_statekeys : short_maps (kv d statekey_shortstatekey) (kv d shortstatekey_statekey) n;
  si_hashes : short_codes (kv d statehash_shortstatehash) n;
  si_rooms : short_codes (kv d roomid_shortroomid) n;
  si_eventidshort : ∀ e s, eventidshort_cache d !! e = Some s →
    kv d eventid_shorteventid !! e = Some (to_be_bytes s) ∧ 1 ≤ s ≤ n;
  si_shorteventid : ∀ s e, shorteventid_cache d !! s = Some e → is_u64 s →
    kv d shorteventid_eventid !! to_be_bytes s = Some e;
  si_statekeyshort : ∀ t k s, statekeyshort_cache d !! (t, k) = Some s →
    kv d statekey_shortstatekey !! statekey_bytes t k = Some (to_be_bytes s) ∧ 1 ≤ s ≤ n;
  si_shortstatekey : ∀ s t k, shortstatekey_cache d !! s = Some (t, k) → is_u64 s →
    kv d shortstatekey_statekey !! to_be_bytes s = Some (statekey_bytes t k) ∧ no_ff t;
}.

Lemma short_codes_mono F n n' : n ≤ n' → short_codes F n → short_codes F n'.
Proof. intros ? H k b Hk. destruct (H k b Hk) as (s & ? & ?). exists s. split; [done|lia]. Qed.

Lemma short_codes_insert F n k s :
  short_codes F n → 1 ≤ s ≤ n → short_codes (<[k := to_be_bytes s]> F) n.
Proof.
  intros H Hs k' b. rewrite lookup_insert. case_decide; [|apply H]. intros [= <-]. eauto.
Qed.

Lemma short_maps_mono F B n n' : n ≤ n' → short_maps F B n → short_maps F B n'.
Proof.
  intros ? [H1 H2]. split.
  - intros k b Hk. destruct (H1 k b Hk) as (s & ? & ? & ?). exists s. split_and!; try done; lia.
  - intros b k Hk. destruct (H2 b k Hk) as (s & ? & ? & ?). exists s. split_and!; try done; lia.
Qed.

Lemma short_maps_insert F B n k :
  short_maps F B n → F !! k = None → 0 ≤ n → is_u64 (n + 1) →
  short_maps (<[k := to_be_bytes (n + 1)]> F) (<[to_be_bytes (n + 1) := k]> B) (n + 1).
Proof.
  intros [H1 H2] Hk Hn Hu. split.
  - intros k' b. rewrite lookup_insert. case_decide as Hkk; subst.
    + intros [= <-]. exists (n + 1). split_and!; [done|lia|lia|apply lookup_insert_eq].
    + intros Hb. destruct (H1 k' b Hb) as (s & -> & Hs & HB). exists s.
      split_and!; [done|lia|lia|]. rewrite lookup_insert_ne; [done|].
      intros E%to_be_bytes_inj; unfold is_u64 in *; lia.
  - intros b k'. rewrite lookup_insert. case_decide as Hbb; subst.
    + intros [= <-]. exists (n + 1). split_and!; [done|lia|lia|apply lookup_insert_eq].
    + intros Hb. destruct (H2 b k' Hb) as (s & -> & Hs & HF). exists s.
      split_and!; [done|lia|lia|]. rewrite lookup_insert_ne; [done|congruence].
Qed.

Lemma short_maps_inj F B n k k' s s' :
  short_maps F B n → is_u64 n → F !! k = Some (to_be_bytes s) → F !! k' = Some (to_be_bytes s') →
  s = s' → k = k'.
Proof.
  intros [H1 _] Hn Hk Hk' <-.
  destruct (H1 _ _ Hk) as (s1 & E1 & ? & HB1), (H1 _ _ Hk') as (s2 & E2 & ? & HB2).
  rewrite <-E1 in HB1. rewrite <-E2 in HB2. congruence.
Qed.

Lemma empty_db_short : ShortInv empty_db 0.
Proof.
  split; simpl; try (by split; intros *; rewrite lookup_empty);
    try (by intros *; rewrite lookup_empty).
  - split; [unfold is_u64, u64_max; lia|]. right. split; [apply lookup_empty|done].
  - intros k b. by rewrite lookup_empty.
  - intros k b. by rewrite lookup_empty.
Qed.

Lemma lru_insert_lookup `{!LruCache} {K V} `{Countable K} (k k' : K) (v v' : V) m :
  lru_insert k v m !! k' = Some v' → k' = k ∧ v' = v ∨ m !! k' = Some v'.
Proof.
  intros Hl. pose proof (lookup_weaken _ _ _ _ Hl (lru_insert_sub k v m)) as Hl'.
  rewrite lookup_insert in Hl'. case_decide; naive_solver.
Qed.

(** Taking a count keeps the short ids consistent. *)
Lemma ShortInv_count d n m : ShortInv d n → n ≤ m → is_u64 m → ShortInv (set_count m d) m.
Proof.
  intros [Hc He Hs Hh Hr Hc1 Hc2 Hc3 Hc4] Hle Hm. split; kv_simpl.
  - by apply count_is_set_count.
  - by eapply short_maps_mono.
  - by eapply short_maps_mono.
  - by eapply short_codes_mono.
  - by eapply short_codes_mono.
  - intros e s Hes. destruct (Hc1 e s Hes). split; [done|lia].
  - done.
  - intros t k s Hes. destruct (Hc3 t k s Hes). split; [done|lia].
  - done.
Qed.

(** ** Each operation keeps the invariant *)

(** No short id is forgotten or changed. *)
Definition short_ext (d d' : Db) : Prop :=
  ∀ t, t ∈ [eventid_shorteventid; shorteventid_eventid; statekey_shortstatekey;
            shortstatekey_statekey; statehash_shortstatehash; roomid_shortroomid] →
  kv d t ⊆ kv d' t.

(** The caches of the other components. *)
Definition other_caches (d : Db) :=
  (pdu_cache d, auth_chain_cache d, our_real_users_cache d, appservice_in_room_cache d,
   lasttimelinecount_cache d, userdevicesessionid_uiaarequest d, stateinfo_cache d).

(** The trees outside the short-id tables and the counter are untouched, as are
    the caches of the other components. *)
Definition short_frame (d d' : Db) : Prop :=
  (∀ t, t ∉ [global; eventid_shorteventid; shorteventid_eventid; statekey_shortstatekey;
            shortstatekey_statekey; statehash_shortstatehash; roomid_shortroomid] →
   kv d' t = kv d t) ∧ other_caches d' = other_caches d.

Lemma short_ext_refl d : short_ext d d.
Proof. by intros t _. Qed.

Lemma short_ext_trans d1 d2 d3 : short_ext d1 d2 → short_ext d2 d3 → short_ext d1 d3.
Proof. intros H1 H2 t Ht. etrans; [by apply H1|by apply H2]. Qed.

Lemma short_frame_refl d : short_frame d d.
Proof. split; [by intros t _|done]. Qed.

Lemma short_frame_same d d' : kv d' = kv d → other_caches d' = other_caches d → short_frame d d'.
Proof. intros E1 E2. split; [|done]. intros t _. by rewrite E1. Qed.

Lemma short_frame_trans d1 d2 d3 : short_frame d1 d2 → short_frame d2 d3 → short_frame d1 d3.
Proof.
  intros [H1 C1] [H2 C2]. split; [|congruence]. intros t Ht. by rewrite H2, H1.
Qed.

(** Writing any other tree keeps the short ids consistent. *)
Lemma ShortInv_upd d n t f :
  t ∉ [global; eventid_shorteventid; shorteventid_eventid; statekey_shortstatekey;
       shortstatekey_statekey; statehash_shortstatehash; roomid_shortroomid] →
  ShortInv d n → ShortInv (upd t f d) n.
Proof.
  intros Ht [Hc He Hs Hh Hr Hc1 Hc2 Hc3 Hc4].
  split; unfold count_is; rewrite ?kv_upd_ne; try done; intros ->; apply Ht; in_list.
Qed.

Lemma ShortInv_stateinfo d n c : ShortInv d n → ShortInv (set_stateinfo_cache c d) n.
Proof. intros []. by split. Qed.

(** Close a goal about the trees of explicit updates. *)
Ltac table_cases :=
  let t := fresh "t" in let Ht := fresh "Ht" in
  intros t Ht;
  repeat (apply elem_of_cons in Ht as [->|Ht]); try (by apply elem_of_nil in Ht).

Ltac frame_tac :=
  let t := fresh "t" in let Ht := fresh "Ht" in
  split; [|done]; intros t Ht; unfold set_count;
  rewrite ?kv_upd_ne by (intros <-; apply Ht; repeat constructor);
  done.

Section ops.
Context {RU : Ruma} {LR : LruCache}.
Implicit Types d : Db.

Lemma ShortInv_cache_event d n e s :
  ShortInv d n → kv d eventid_shorteventid !! e = Some (to_be_bytes s) → 1 ≤ s ≤ n →
  ShortInv (set_eventidshort_cache (lru_insert e s (eventidshort_cache d)) d) n.
Proof.
  intros [Hc He Hs Hh Hr Hc1 Hc2 Hc3 Hc4] Hes Hsn. split; cbn; try done.
  intros e' s' [[-> ->]|Hx]%lru_insert_lookup; [done|by apply Hc1].
Qed.

Lemma ShortInv_cache_short d n e s :
  ShortInv d n → kv d shorteventid_eventid !! to_be_bytes s = Some e →
  ShortInv (set_shorteventid_cache (lru_insert s e (shorteventid_cache d)) d) n.
Proof.
  intros [Hc He Hs Hh Hr Hc1 Hc2 Hc3 Hc4] Hes. split; cbn; try done.
  intros s' e' [[-> ->]|Hx]%lru_insert_lookup; [done|by apply Hc2].
Qed.

Lemma ShortInv_cache_statekey d n t k s :
  ShortInv d n → kv d statekey_shortstatekey !! statekey_bytes t k = Some (to_be_bytes s) →
  1 ≤ s ≤ n →
  ShortInv (set_statekeyshort_cache (lru_insert (t, k) s (statekeyshort_cache d)) d) n.
Proof.
  intros [Hc He Hs Hh Hr Hc1 Hc2 Hc3 Hc4] Hes Hsn. split; cbn; try done.
  intros t' k' s' [[[= -> ->] ->]|Hx]%lru_insert_lookup; [done|by apply Hc3].
Qed.

Lemma ShortInv_cache_shortstatekey d n t k s :
  ShortInv d n → kv d shortstatekey_statekey !! to_be_bytes s = Some (statekey_bytes t k) →
  no_ff t → ShortInv (set_shortstatekey_cache (lru_insert s (t, k) (shortstatekey_cache d)) d) n.
Proof.
  intros [Hc He Hs Hh Hr Hc1 Hc2 Hc3 Hc4] Hes Hnf. split; cbn; try done.
  intros s' t' k' [[-> [= -> ->]]|Hx]%lru_insert_lookup; [done|by apply Hc4].
Qed.

(** The state after a fresh event id was stored. *)
Definition store_event (e : bytes) (s : Z) (d : Db) : Db :=
  upd shorteventid_eventid (λ tr, kv_insert tr (to_be_bytes s) e)
    (upd eventid_shorteventid (λ tr, kv_insert tr e (to_be_bytes s)) (set_count s d)).

Definition store_statekey (sk : bytes) (s : Z) (d : Db) : Db :=
  upd shortstatekey_statekey (λ tr, kv_insert tr (to_be_bytes s) sk)
    (upd statekey_shortstatekey (λ tr, kv_insert tr sk (to_be_bytes s)) (set_count s d)).

Lemma ShortInv_store_event d n e :
  ShortInv d n → kv d eventid_shorteventid !! e = None → n < u64_max →
  ShortInv (store_event e (n + 1) d) (n + 1) ∧
  short_ext d (store_event e (n + 1) d) ∧ short_frame d (store_event e (n + 1) d).
Proof.
  intros HI He Hn. assert (0 ≤ n) by (destruct HI as [[[] _]]; lia).
  assert (is_u64 (n + 1)) as Hu by (unfold is_u64; lia).
  assert (kv d shorteventid_eventid !! to_be_bytes (n + 1) = None) as Hb.
  { destruct (kv d shorteventid_eventid !! _) as [e'|] eqn:E; [|done].
    destruct (proj2 (si_events _ _ HI) _ _ E) as (s & Es & ? & ?).
    apply to_be_bytes_inj in Es; unfold is_u64 in *; lia. }
  pose proof (ShortInv_count d n (n + 1) HI ltac:(lia) Hu) as [Hc Hev Hs Hh Hr Hc1 Hc2 Hc3 Hc4].
  unfold store_event. split_and!; [split| |].
  - destruct Hc as [_ Hc]. split; [done|]. kv_simpl. done.
  - kv_simpl. apply short_maps_insert; [by destruct HI|done|lia|done].
  - kv_simpl. by kv_simpl.
  - kv_simpl. by kv_simpl.
  - kv_simpl. by kv_simpl.
  - intros e' s' Hes. destruct (Hc1 e' s' Hes) as [Hk ?]. split; [|done].
    kv_simpl. unfold kv_insert. rewrite lookup_insert_ne; [by kv_simpl|].
    intros ->. kv_simpl in Hk. congruence.
  - intros s' e' Hes Hs'. specialize (Hc2 s' e' Hes Hs').
    kv_simpl. unfold kv_insert. rewrite lookup_insert_ne; [by kv_simpl|].
    intros E. rewrite <-E in Hc2. kv_simpl in Hc2. congruence.
  - intros t k s' Hes. destruct (Hc3 t k s' Hes). split; [|done]. by kv_simpl.
  - intros s' t k Hes Hs'. destruct (Hc4 s' t k Hes Hs'). split; [|done]. by kv_simpl.
  - table_cases; kv_simpl; try done; by apply insert_subseteq.
  - frame_tac.
Qed.

Lemma ShortInv_store_statekey d n sk :
  ShortInv d n → kv d statekey_shortstatekey !! sk = None → n < u64_max →
  ShortInv (store_statekey sk (n + 1) d) (n + 1) ∧
  short_ext d (store_statekey sk (n + 1) d) ∧ short_frame d (store_statekey sk (n + 1) d).
Proof.
  intros HI He Hn. assert (0 ≤ n) by (destruct HI as [[[] _]]; lia).
  assert (is_u64 (n + 1)) as Hu by (unfold is_u64; lia).
  assert (kv d shortstatekey_statekey !! to_be_bytes (n + 1) = None) as Hb.
  { destruct (kv d shortstatekey_statekey !! _) as [e'|] eqn:E; [|done].
    destruct (proj2 (si_statekeys _ _ HI) _ _ E) as (s & Es & ? & ?).
    apply to_be_bytes_inj in Es; unfold is_u64 in *; lia. }
  pose proof (ShortInv_count d n (n + 1) HI ltac:(lia) Hu) as [Hc Hev Hs Hh Hr Hc1 Hc2 Hc3 Hc4].
  unfold store_statekey. split_and!; [split| |].
  - destruct Hc as [_ Hc]. split; [done|]. kv_simpl. done.
  - kv_simpl. by kv_simpl.
  - kv_simpl. apply short_maps_insert; [by destruct HI|done|lia|done].
  - kv_simpl. by kv_simpl.
  - kv_simpl. by kv_simpl.
  - intros e' s' Hes. destruct (Hc1 e' s' Hes). split; [|done]. by kv_simpl.
  - intros s' e' Hes Hs'. specialize (Hc2 s' e' Hes Hs'). by kv_simpl.
  - intros t' k' s' Hes. destruct (Hc3 t' k' s' Hes) as [Hk ?]. split; [|done].
    kv_simpl. unfold kv_insert. rewrite lookup_insert_ne; [by kv_simpl|].
    intros ->. kv_simpl in Hk. congruence.
  - intros s' t' k' Hes Hs'. destruct (Hc4 s' t' k' Hes Hs') as [Hc4' ?]. split; [|done].
    kv_simpl. unfold kv_insert. rewrite lookup_insert_ne; [by kv_simpl|].
    intros E. rewrite <-E in Hc4'. kv_simpl in Hc4'. congruence.
  - table_cases; kv_simpl; try done; by apply insert_subseteq.
  - frame_tac.
Qed.

(** The state after a fresh one-way short id was stored in tree [t]. *)
Definition store_code (t : Table) (k : bytes) (s : Z) (d : Db) : Db :=
  upd t (λ tr, kv_insert tr k (to_be_bytes s)) (set_count s d).

Lemma ShortInv_store_code d n t k :
  t = statehash_shortstatehash ∨ t = roomid_shortroomid →
  ShortInv d n → kv d t !! k = None → n < u64_max →
  ShortInv (store_code t k (n + 1) d) (n + 1) ∧
  short_ext d (store_code t k (n + 1) d) ∧ short_frame d (store_code t k (n + 1) d).
Proof.
  intros Ht HI He Hn. assert (0 ≤ n) by (destruct HI as [[[] _]]; lia).
  assert (is_u64 (n + 1)) as Hu by (unfold is_u64; lia).
  pose proof (ShortInv_count d n (n + 1) HI ltac:(lia) Hu) as [Hc Hev Hs Hh Hr Hc1 Hc2 Hc3 Hc4].
  unfold store_code.
  destruct Ht as [-> | ->]; (split_and!; [split| |]);
    try (kv_simpl; by kv_simpl);
    try (destruct Hc as [_ Hc]; split; [done|]; kv_simpl; done);
    try (kv_simpl; apply short_codes_insert; [done|lia]);
    try (intros e' s' Hes; destruct (Hc1 e' s' Hes); split; [|done]; by kv_simpl);
    try (intros s' e' Hes Hs'; specialize (Hc2 s' e' Hes Hs'); by kv_simpl);
    try (intros t' k' s' Hes; destruct (Hc3 t' k' s' Hes); split; [|done]; by kv_simpl);
    try (intros s' t' k' Hes Hs'; destruct (Hc4 s' t' k' Hes Hs'); split; [|done]; by kv_simpl);
    try (table_cases; kv_simpl; try done; by apply insert_subseteq);
    try frame_tac.
Qed.

(** What every operation does to the whole state. *)
Definition short_step (d : Db) (n : Z) (d' : Db) (n' : Z) : Prop :=
  ShortInv d' n' ∧ n ≤ n' ≤ n + 1 ∧ short_ext d d' ∧ short_frame d d'.

Lemma short_step_refl d n : ShortInv d n → short_step d n d n.
Proof. intros H. split_and!; [done|lia|lia|by intros t _|by apply short_frame_same]. Qed.

Lemma ShortInv_code d n t k b :
  ShortInv d n →
  t ∈ [eventid_shorteventid; statekey_shortstatekey; statehash_shortstatehash; roomid_shortroomid] →
  kv d t !! k = Some b → ∃ s, b = to_be_bytes s ∧ 1 ≤ s ≤ n ∧ u64_from_bytes b = Some s.
Proof.
  intros [[Hn _] [He _] [Hs _] Hh Hr _ _ _ _] Ht Hk.
  assert (∃ s, b = to_be_bytes s ∧ 1 ≤ s ≤ n) as (s & -> & ?).
  { repeat (apply elem_of_cons in Ht as [->|Ht]); [| | | |by apply elem_of_nil in Ht].
    - destruct (He _ _ Hk) as (s & ? & ? & ?). eauto.
    - destruct (Hs _ _ Hk) as (s & ? & ? & ?). eauto.
    - by apply (Hh k).
    - by apply (Hr k). }
  exists s. split_and!; [done|lia|lia|]. apply u64_from_to_be_bytes. unfold is_u64 in *. lia.
Qed.

Lemma get_or_create_shorteventid_spec d n e :
  ShortInv d n → n < u64_max → ∃ s d' n',
    get_or_create_shorteventid e d = (Ok s, d') ∧ 1 ≤ s ≤ n' ∧
    kv d' eventid_shorteventid !! e = Some (to_be_bytes s) ∧ short_step d n d' n'.
Proof.
  intros HI Hn. unfold get_or_create_shorteventid, get, kv_get. run.
  destruct (eventidshort_cache d !! e) as [s|] eqn:Ec.
  { destruct (si_eventidshort _ _ HI _ _ Ec). exists s, d, n.
    split_and!; try done; try lia. by apply short_step_refl. }
  destruct (kv d eventid_shorteventid !! e) as [b|] eqn:Ek.
  - destruct (ShortInv_code d n eventid_shorteventid e b HI ltac:(in_list) Ek)
      as (s & -> & ? & Hs).
    rewrite Hs. cbn. eexists s, _, n. split_and!; [done|lia|lia|done|].
    split_and!; [|lia|lia|by intros t _|by apply short_frame_same].
    by apply ShortInv_cache_event.
  - rewrite (next_count_spec d n) by (done || by destruct HI).
    eexists (n + 1), _, (n + 1). unfold insert. run.
    destruct (ShortInv_store_event d n e HI Ek Hn) as (HI' & Hx & Hf).
    assert (0 ≤ n) by (destruct HI as [[[] _]]; lia).
    fold (store_event e (n + 1) d).
    assert (kv (store_event e (n + 1) d) eventid_shorteventid !! e = Some (to_be_bytes (n + 1))).
    { unfold store_event. kv_simpl. apply lookup_insert_eq. }
    split_and!; [done|lia|lia|done|]. split_and!; [|lia|lia|done|done].
    apply ShortInv_cache_event; [done..|lia].
Qed.

Lemma get_or_create_shortstatekey_spec d n t k :
  ShortInv d n → n < u64_max → ∃ s d' n',
    get_or_create_shortstatekey t k d = (Ok s, d') ∧ 1 ≤ s ≤ n' ∧
    kv d' statekey_shortstatekey !! statekey_bytes t k = Some (to_be_bytes s) ∧
    short_step d n d' n'.
Proof.
  intros HI Hn. unfold get_or_create_shortstatekey, get, kv_get. run.
  destruct (statekeyshort_cache d !! (t, k)) as [s|] eqn:Ec.
  { destruct (si_statekeyshort _ _ HI _ _ _ Ec). exists s, d, n.
    split_and!; try done; try lia. by apply short_step_refl. }
  cbv zeta. destruct (kv d statekey_shortstatekey !! _) as [b|] eqn:Ek.
  - destruct (ShortInv_code d n statekey_shortstatekey _ b HI ltac:(in_list) Ek)
      as (s & -> & ? & Hs).
    rewrite Hs. cbn. eexists s, _, n. split_and!; [done|lia|lia|done|].
    split_and!; [|lia|lia|by intros t' _|by apply short_frame_same].
    by apply ShortInv_cache_statekey.
  - rewrite (next_count_spec d n) by (done || by destruct HI).
    eexists (n + 1), _, (n + 1). unfold insert. run.
    destruct (ShortInv_store_statekey d n _ HI Ek Hn) as (HI' & Hx & Hf).
    assert (0 ≤ n) by (destruct HI as [[[] _]]; lia).
    fold (store_statekey (statekey_bytes t k) (n + 1) d).
    assert (kv (store_statekey (statekey_bytes t k) (n + 1) d) statekey_shortstatekey
      !! statekey_bytes t k = Some (to_be_bytes (n + 1))).
    { unfold store_statekey. kv_simpl. apply lookup_insert_eq. }
    split_and!; [done|lia|lia|done|]. split_and!; [|lia|lia|done|done].
    apply ShortInv_cache_statekey; [done..|lia].
Qed.

Lemma get_shortstatekey_spec d n t k :
  ShortInv d n → ∃ o d',
    get_shortstatekey t k d = (Ok o, d') ∧
    kv d statekey_shortstatekey !! statekey_bytes t k = to_be_bytes <$> o ∧
    (∀ s, o = Some s → 1 ≤ s ≤ n) ∧ kv d' = kv d ∧ short_step d n d' n.
Proof.
  intros HI. unfold get_shortstatekey, get, kv_get. run.
  destruct (statekeyshort_cache d !! (t, k)) as [s|] eqn:Ec.
  { destruct (si_statekeyshort _ _ HI _ _ _ Ec). exists (Some s), d.
    split_and!; try done; [naive_solver|]. by apply short_step_refl. }
  cbv zeta. destruct (kv d statekey_shortstatekey !! _) as [b|] eqn:Ek.
  - destruct (ShortInv_code d n statekey_shortstatekey _ b HI ltac:(in_list) Ek)
      as (s & -> & ? & Hs).
    cbn [map_transpose]. rewrite Hs. cbn. eexists (Some s), _.
    split_and!; [done..|naive_solver|done|].
    split_and!; [|lia|lia|by intros t' _|by apply short_frame_same].
    by apply ShortInv_cache_statekey.
  - cbn. exists None, d. split_and!; [done..|]. by apply short_step_refl.
Qed.

Lemma get_eventid_from_short_spec d n s :
  ShortInv d n → is_u64 s → ∃ r d',
    get_eventid_from_short s d = (r, d') ∧ kv d' = kv d ∧ short_step d n d' n ∧
    (∀ e, kv d shorteventid_eventid !! to_be_bytes s = Some e → utf8_valid e = true →
      event_id_ok e = true → r = Ok e) ∧
    (∀ e, r = Ok e → kv d shorteventid_eventid !! to_be_bytes s = Some e).
Proof.
  intros HI Hu. unfold get_eventid_from_short, get, kv_get. run.
  destruct (shorteventid_cache d !! s) as [e|] eqn:Ec.
  { pose proof (si_shorteventid _ _ HI _ _ Ec Hu) as He. exists (Ok e), d.
    split_and!; [done|done|by apply short_step_refl| |]; naive_solver congruence. }
  destruct (kv d shorteventid_eventid !! to_be_bytes s) as [e|] eqn:Ek; cbn [ok_or].
  2:{ eexists _, d. split_and!; [done|done|by apply short_step_refl|done|done]. }
  destruct (parse_id event_id_ok _ _ e) as [e'|er|] eqn:Ep.
  - pose proof (parse_id_Ok _ _ _ _ _ Ep) as (-> & ? & ?).
    eexists (Ok e), _. split_and!; [done|done| |naive_solver|naive_solver].
    split_and!; [|lia|lia|by intros t' _|by apply short_frame_same]. by apply ShortInv_cache_short.
  - eexists _, d. split_and!; [done|done|by apply short_step_refl| |done].
    intros ? [= <-] Hu' Hi. by rewrite parse_id_ok in Ep.
  - eexists _, d. split_and!; [done|done|by apply short_step_refl| |done].
    intros ? [= <-] Hu' Hi. by rewrite parse_id_ok in Ep.
Qed.

Lemma splitn2_Some bs a b : splitn2 bs = (a, Some b) → bs = statekey_bytes a b ∧ no_ff a.
Proof.
  unfold statekey_bytes. revert a. induction bs as [|x bs IH]; intros a; simpl; [done|].
  destruct (Z.eqb_spec x ff) as [->|Hx].
  - intros [= <- <-]. split; [done|constructor].
  - destruct (splitn2 bs) as [a' o] eqn:E. intros [= <- ->].
    destruct (IH a' eq_refl) as [-> ?]. split; [done|by constructor].
Qed.

Lemma get_statekey_from_short_spec d n s :
  ShortInv d n → is_u64 s → ∃ r d',
    get_statekey_from_short s d = (r, d') ∧ kv d' = kv d ∧ short_step d n d' n ∧
    (∀ t k, kv d shortstatekey_statekey !! to_be_bytes s = Some (statekey_bytes t k) →
      utf8_valid t = true → utf8_valid k = true → r = Ok (t, k)).
Proof.
  intros HI Hu. unfold get_statekey_from_short, get, kv_get. run.
  pose proof (short_step_refl d n HI) as Hrefl.
  destruct (shortstatekey_cache d !! s) as [[t k]|] eqn:Ec.
  { destruct (si_shortstatekey _ _ HI _ _ _ Ec Hu) as [He Hnf]. eexists _, d.
    split_and!; [done..|]. intros t' k' Ht' Hut Huk. rewrite He in Ht'. injection Ht' as Ht'.
    by apply app_ff_inj in Ht' as [-> ->]; [|done|by apply utf8_no_ff]. }
  destruct (kv d shortstatekey_statekey !! to_be_bytes s) as [bs|] eqn:Ek; cbn [ok_or].
  2:{ eexists _, d. by split_and!. }
  destruct (splitn2 bs) as [a [b|]] eqn:Es; cbn [ok_or].
  2:{ eexists _, d. split_and!; [done..|]. intros t k [= ->] Ht _. exfalso. unfold statekey_bytes in Es.
      rewrite splitn2_app in Es by (by apply utf8_no_ff). done. }
  apply splitn2_Some in Es as [-> Hnf].
  destruct (string_from_bytes a) as [a'|] eqn:Ea; cbn [ok_or].
  2:{ eexists _, d. split_and!; [done..|]. intros t k [= E]%(inj Some) Ht _.
      apply app_ff_inj in E as [-> ->]; [|done|by apply utf8_no_ff].
      by rewrite string_from_bytes_valid in Ea. }
  apply string_from_bytes_Some in Ea as [-> Ha].
  destruct (string_from_bytes b) as [b'|] eqn:Eb; cbn [ok_or].
  2:{ eexists _, d. split_and!; [done..|]. intros t k [= E]%(inj Some) Ht Hk.
      apply app_ff_inj in E as [-> ->]; [|done|by apply utf8_no_ff].
      by rewrite string_from_bytes_valid in Eb. }
  apply string_from_bytes_Some in Eb as [-> Hb].
  eexists (Ok (a, b)), _. split_and!; [done|done| |].
  - split_and!; [|lia|lia|by intros t' _|by apply short_frame_same].
    by apply ShortInv_cache_shortstatekey.
  - intros t k [= E]%(inj Some) Ht Hk.
    by apply app_ff_inj in E as [-> ->]; [|done|by apply utf8_no_ff].
Qed.

Lemma get_or_create_shortstatehash_spec d n h :
  ShortInv d n → n < u64_max → ∃ s b d' n',
    get_or_create_shortstatehash h d = (Ok (s, b), d') ∧ 1 ≤ s ≤ n' ∧
    kv d' statehash_shortstatehash !! h = Some (to_be_bytes s) ∧
    b = bool_decide (is_Some (kv d statehash_shortstatehash !! h)) ∧
    (b = true → d' = d) ∧
    (b = false → s = n + 1 ∧ kv d' statehash_shortstatehash =
      <[h := to_be_bytes s]> (kv d statehash_shortstatehash)) ∧ short_step d n d' n'.
Proof.
  intros HI Hn. unfold get_or_create_shortstatehash, get, kv_get. run.
  destruct (kv d statehash_shortstatehash !! h) as [b|] eqn:Ek.
  - destruct (ShortInv_code d n statehash_shortstatehash _ b HI ltac:(in_list) Ek)
      as (s & -> & ? & Hs).
    rewrite Hs. cbn. eexists s, true, d, n. split_and!; try done; [lia..|]. by apply short_step_refl.
  - rewrite (next_count_spec d n) by (done || by destruct HI).
    unfold insert. run. fold (store_code statehash_shortstatehash h (n + 1) d).
    destruct (ShortInv_store_code d n statehash_shortstatehash h ltac:(auto) HI Ek Hn) as (HI' & Hx & Hf).
    assert (0 ≤ n) by (destruct HI as [[[] _]]; lia).
    eexists (n + 1), false, _, (n + 1). split_and!; try done; [lia..| |].
    + unfold store_code. kv_simpl. apply lookup_insert_eq.
    + split_and!; [done|lia|lia|done|done].
Qed.

Lemma get_or_create_shortroomid_spec d n r :
  ShortInv d n → n < u64_max → ∃ s d' n',
    get_or_create_shortroomid r d = (Ok s, d') ∧ 1 ≤ s ≤ n' ∧
    kv d' roomid_shortroomid !! r = Some (to_be_bytes s) ∧ short_step d n d' n'.
Proof.
  intros HI Hn. unfold get_or_create_shortroomid, get, kv_get. run.
  destruct (kv d roomid_shortroomid !! r) as [b|] eqn:Ek.
  - destruct (ShortInv_code d n roomid_shortroomid _ b HI ltac:(in_list) Ek) as (s & -> & ? & Hs).
    rewrite Hs. cbn. eexists s, d, n. split_and!; try done; [lia..|]. by apply short_step_refl.
  - rewrite (next_count_spec d n) by (done || by destruct HI).
    unfold insert. run. fold (store_code roomid_shortroomid r (n + 1) d).
    destruct (ShortInv_store_code d n roomid_shortroomid r ltac:(auto) HI Ek Hn) as (HI' & Hx & Hf).
    assert (0 ≤ n) by (destruct HI as [[[] _]]; lia).
    eexists (n + 1), _, (n + 1). split_and!; try done; [lia..| |].
    + unfold store_code. kv_simpl. apply lookup_insert_eq.
    + split_and!; [done|lia|lia|done|done].
Qed.

Lemma get_shortroomid_spec d n r :
  ShortInv d n → ∃ o, get_shortroomid r d = (Ok o, d) ∧
    kv d roomid_shortroomid !! r = to_be_bytes <$> o ∧ (∀ s, o = Some s → is_u64 s).
Proof.
  intros HI. unfold get_shortroomid, get, kv_get. run.
  destruct (kv d roomid_shortroomid !! r) as [b|] eqn:Ek.
  - destruct (ShortInv_code d n roomid_shortroomid _ b HI ltac:(in_list) Ek) as (s & -> & ? & Hs).
    cbn [map_transpose]. rewrite Hs. exists (Some s). split_and!; [done..|].
    intros ? [= <-]. destruct HI as [[[] _]]. unfold is_u64. lia.
  - by exists None.
Qed.

(** Event ids and state keys leave the state hashes alone. *)
Lemma get_or_create_shorteventid_hash e d :
  kv (get_or_create_shorteventid e d).2 statehash_shortstatehash = kv d statehash_shortstatehash.
Proof.
  unfold get_or_create_shorteventid, get, next_count, increment, insert. run.
  repeat case_match; simplify_eq; done.
Qed.

Lemma get_or_create_shortstatekey_hash t k d :
  kv (get_or_create_shortstatekey t k d).2 statehash_shortstatehash = kv d statehash_shortstatehash.
Proof.
  unfold get_or_create_shortstatekey, get, next_count, increment, insert. run.
  repeat case_match; simplify_eq; done.
Qed.

(** ** Runs of operations *)

(** Everything that touches short ids, in any order: the operations of this
    file, other components taking a count, and cache eviction. *)
Inductive ShortOp :=
  | OpEvent (e : bytes)
  | OpStatekey (t k : bytes)
  | OpGetStatekey (t k : bytes)
  | OpEventOf (s : Z)
  | OpStatekeyOf (s : Z)
  | OpHash (h : bytes)
  | OpRoom (r : bytes)
  | OpCount
  | OpClear (amount : Z).

Definition short_op_ok (o : ShortOp) : Prop :=
  match o with OpEventOf s | OpStatekeyOf s => is_u64 s | _ => True end.

Definition short_exec (o : ShortOp) (d : Db) : Db :=
  match o with
  | OpEvent e => (get_or_create_shorteventid e d).2
  | OpStatekey t k => (get_or_create_shortstatekey t k d).2
  | OpGetStatekey t k => (get_shortstatekey t k d).2
  | OpEventOf s => (get_eventid_from_short s d).2
  | OpStatekeyOf s => (get_statekey_from_short s d).2
  | OpHash h => (get_or_create_shortstatehash h d).2
  | OpRoom r => (get_or_create_shortroomid r d).2
  | OpCount => (next_count d).2
  | OpClear a => (clear_caches a d).2
  end.

Definition short_run (ops : list ShortOp) (d : Db) : Db :=
  fold_left (λ d o, short_exec o d) ops d.

Lemma ShortInv_clear d n a : ShortInv d n → ShortInv (clear_caches a d).2 n ∧ kv (clear_caches a d).2 = kv d.
Proof.
  intros [Hc He Hs Hh Hr Hc1 Hc2 Hc3 Hc4]. unfold clear_caches. run. cbn [snd].
  assert (∀ d' : Db, kv d' = kv d →
    (eventidshort_cache d' = eventidshort_cache d ∨ eventidshort_cache d' = ∅) →
    (shorteventid_cache d' = shorteventid_cache d ∨ shorteventid_cache d' = ∅) →
    (statekeyshort_cache d' = statekeyshort_cache d ∨ statekeyshort_cache d' = ∅) →
    shortstatekey_cache d' = shortstatekey_cache d → ShortInv d' n ∧ kv d' = kv d) as Hgen.
  { intros d' Hk E1 E2 E3 E4. split; [|done].
    split; unfold count_is; rewrite ?Hk, ?E4; try done.
    - destruct E1 as [->| ->]; [done|]. intros *. by rewrite lookup_empty.
    - destruct E2 as [->| ->]; [done|]. intros *. by rewrite lookup_empty.
    - destruct E3 as [->| ->]; [done|]. intros *. by rewrite lookup_empty. }
  cbv zeta. apply Hgen; repeat case_match; cbn; auto.
Qed.

Lemma short_exec_step o d n :
  ShortInv d n → n < u64_max → short_op_ok o →
  ∃ n', ShortInv (short_exec o d) n' ∧ n ≤ n' ≤ n + 1 ∧ short_ext d (short_exec o d).
Proof.
  intros HI Hn Ho. destruct o as [e|t k|t k|s|s|h|r| |a]; cbn [short_exec].
  - destruct (get_or_create_shorteventid_spec d n e HI Hn) as (? & ? & n' & -> & _ & _ & ? & ? & ? & _); eauto.
  - destruct (get_or_create_shortstatekey_spec d n t k HI Hn) as (? & ? & n' & -> & _ & _ & ? & ? & ? & _); eauto.
  - destruct (get_shortstatekey_spec d n t k HI) as (? & ? & -> & _ & _ & _ & ? & ? & ? & _); eauto.
  - destruct (get_eventid_from_short_spec d n s HI Ho) as (? & ? & -> & _ & (? & ? & ? & _) & _); eauto.
  - destruct (get_statekey_from_short_spec d n s HI Ho) as (? & ? & -> & _ & (? & ? & ? & _) & _); eauto.
  - destruct (get_or_create_shortstatehash_spec d n h HI Hn) as (? & ? & ? & n' & -> & _ & _ & _ & _ & _ & ? & ? & ? & _); eauto.
  - destruct (get_or_create_shortroomid_spec d n r HI Hn) as (? & ? & n' & -> & _ & _ & ? & ? & ? & _); eauto.
  - rewrite (next_count_spec d n) by (done || by destruct HI). exists (n + 1).
    assert (0 ≤ n) by (destruct HI as [[[] _]]; lia).
    split_and!; [|lia|lia|].
    + apply (ShortInv_count d n); [done|lia|unfold is_u64; lia].
    + table_cases; kv_simpl; done.
  - destruct (ShortInv_clear d n a HI) as [? Hk]. exists n. split_and!; [done|lia|lia|].
    intros t _. by rewrite Hk.
Qed.

Lemma short_run_step ops d n :
  ShortInv d n → n + Z.of_nat (length ops) ≤ u64_max → Forall short_op_ok ops →
  ∃ n', ShortInv (short_run ops d) n' ∧ n ≤ n' ≤ n + Z.of_nat (length ops) ∧ short_ext d (short_run ops d).
Proof.
  intros HI Hn Ho. revert d n HI Hn. induction Ho as [|o ops Ho Hos IH]; intros d n HI Hn; simpl in *.
  { exists n. split_and!; [done|lia|lia|by intros t _]. }
  destruct (short_exec_step o d n HI ltac:(lia) Ho) as (n1 & HI1 & Hn1 & Hx1).
  destruct (IH _ n1 HI1 ltac:(lia)) as (n2 & HI2 & Hn2 & Hx2).
  exists n2. split_and!; [done|lia|lia|by eapply short_ext_trans].
Qed.

(** An id already mapped is found again. *)
Lemma get_or_create_shorteventid_known d n e s :
  ShortInv d n → n < u64_max → is_u64 s →
  kv d eventid_shorteventid !! e = Some (to_be_bytes s) →
  (get_or_create_shorteventid e d).1 = Ok s.
Proof.
  intros HI Hn Hs Hk.
  destruct (get_or_create_shorteventid_spec d n e HI Hn) as (s' & d' & n' & -> & Hs' & Hk' & HI' & _ & Hx & _).
  simpl. f_equal. pose proof (lookup_weaken _ _ _ _ Hk (Hx eventid_shorteventid ltac:(in_list))) as Hk2.
  apply to_be_bytes_inj; [|done|congruence]. destruct HI' as [[[] _]]. unfold is_u64. lia.
Qed.

Lemma get_or_create_shortstatekey_known d n t k s :
  ShortInv d n → n < u64_max → is_u64 s →
  kv d statekey_shortstatekey !! statekey_bytes t k = Some (to_be_bytes s) →
  (get_or_create_shortstatekey t k d).1 = Ok s.
Proof.
  intros HI Hn Hs Hk.
  destruct (get_or_create_shortstatekey_spec d n t k HI Hn) as (s' & d' & n' & -> & Hs' & Hk' & HI' & _ & Hx & _).
  simpl. f_equal. pose proof (lookup_weaken _ _ _ _ Hk (Hx statekey_shortstatekey ltac:(in_list))) as Hk2.
  apply to_be_bytes_inj; [|done|congruence]. destruct HI' as [[[] _]]. unfold is_u64. lia.
Qed.

(** The common shape of the two claims below: a freshly mapped key and what a
    later run of operations keeps of it. *)
Lemma short_run_keeps d2 n2 ops t k s :
  ShortInv d2 n2 → n2 + Z.of_nat (length ops) ≤ u64_max → Forall short_op_ok ops →
  t ∈ [eventid_shorteventid; statekey_shortstatekey] →
  kv d2 t !! k = Some (to_be_bytes s) →
  ∃ n3, ShortInv (short_run ops d2) n3 ∧ n3 ≤ n2 + Z.of_nat (length ops) ∧
    kv (short_run ops d2) t !! k = Some (to_be_bytes s).
Proof.
  intros HI Hn Ho Ht Hk. destruct (short_run_step ops d2 n2 HI Hn Ho) as (n3 & HI3 & Hn3 & Hx).
  exists n3. split_and!; [done|lia|]. eapply lookup_weaken; [done|]. apply Hx. set_solver.
Qed.
End ops.

(** * Claims *)

(** Short event ids are stable, injective and invertible.  After any run of
    operations from an empty database, the short id handed out for an event id
    is handed out again after any further operations (cache evictions
    included); no other event id gets it; and it decodes back to the event
    id.  The bound only keeps the 64-bit counter from wrapping. *)
Theorem short_event_ids_stable `{RU : Ruma, LR : LruCache} ops1 e ops2 e' s s' d2 d3 :
  Z.of_nat (length ops1) + Z.of_nat (length ops2) + 3 ≤ u64_max →
  Forall short_op_ok ops1 → Forall short_op_ok ops2 →
  utf8_valid e = true → event_id_ok e = true →
  get_or_create_shorteventid e (short_run ops1 empty_db) = (Ok s, d2) →
  d3 = short_run ops2 d2 →
  (get_or_create_shorteventid e' d3).1 = Ok s' →
  (get_or_create_shorteventid e d3).1 = Ok s ∧ (s' = s ↔ e' = e) ∧
  (get_eventid_from_short s d3).1 = Ok e.
Proof.
  intros Hl Ho1 Ho2 Hu Hi Hg -> Hg'.
  destruct (short_run_step ops1 empty_db 0 empty_db_short ltac:(lia) Ho1) as (n1 & HI1 & Hn1 & _).
  destruct (get_or_create_shorteventid_spec _ n1 e HI1 ltac:(lia))
    as (s1 & d2' & n2 & Hg2 & Hs1 & Hk2 & HI2 & Hn2 & _).
  rewrite Hg in Hg2. injection Hg2 as <- <-.
  destruct (short_run_keeps d2 n2 ops2 eventid_shorteventid e s HI2 ltac:(lia) Ho2
    ltac:(in_list) Hk2) as (n3 & HI3 & Hn3 & Hk3).
  set (d3 := short_run ops2 d2) in *.
  assert (is_u64 s) as Hus by (destruct HI2 as [[[] _]]; unfold is_u64; lia).
  destruct (get_or_create_shorteventid_spec d3 n3 e' HI3 ltac:(lia))
    as (s2 & d4 & n4 & Hg4 & Hs4 & Hk4 & HI4 & Hn4 & Hx4 & _).
  rewrite Hg4 in Hg'. injection Hg' as ->.
  pose proof (lookup_weaken _ _ _ _ Hk3 (Hx4 eventid_shorteventid ltac:(in_list))) as Hk3'.
  assert (is_u64 n4) as Hu4 by (by destruct HI4 as [[]]).
  split_and!.
  - apply (get_or_create_shorteventid_known d3 n3); [done|lia|done|done].
  - split.
    + intros Es. by eapply (short_maps_inj _ _ n4); [apply si_events; exact HI4|done|exact Hk4|exact Hk3'|].
    + intros ->. rewrite Hk3' in Hk4. apply (inj Some) in Hk4.
      apply to_be_bytes_inj; [unfold is_u64 in *; lia|done|done].
  - destruct (get_eventid_from_short_spec d3 n3 s HI3 Hus) as (r & d5 & -> & _ & _ & Hr & _).
    simpl. apply Hr; [|done|done].
    destruct (proj1 (si_events _ _ HI3) _ _ Hk3) as (s0 & E0 & _ & ?). by rewrite E0.
Qed.

(** Short state keys are stable, injective and invertible in the same
    sense: the pair of event type and state key that was mapped is recovered
    from the short id, and no other pair shares it. *)
Theorem short_statekeys_stable `{RU : Ruma, LR : LruCache} ops1 t k ops2 t' k' s s' d2 d3 :
  Z.of_nat (length ops1) + Z.of_nat (length ops2) + 3 ≤ u64_max →
  Forall short_op_ok ops1 → Forall short_op_ok ops2 →
  utf8_valid t = true → utf8_valid k = true → utf8_valid t' = true →
  get_or_create_shortstatekey t k (short_run ops1 empty_db) = (Ok s, d2) →
  d3 = short_run ops2 d2 →
  (get_or_create_shortstatekey t' k' d3).1 = Ok s' →
  (get_or_create_shortstatekey t k d3).1 = Ok s ∧ (s' = s ↔ (t', k') = (t, k)) ∧
  (get_statekey_from_short s d3).1 = Ok (t, k).
Proof.
  intros Hl Ho1 Ho2 Ht Hk Ht' Hg -> Hg'.
  destruct (short_run_step ops1 empty_db 0 empty_db_short ltac:(lia) Ho1) as (n1 & HI1 & Hn1 & _).
  destruct (get_or_create_shortstatekey_spec _ n1 t k HI1 ltac:(lia))
    as (s1 & d2' & n2 & Hg2 & Hs1 & Hk2 & HI2 & Hn2 & _).
  rewrite Hg in Hg2. injection Hg2 as <- <-.
  destruct (short_run_keeps d2 n2 ops2 statekey_shortstatekey _ s HI2 ltac:(lia) Ho2
    ltac:(in_list) Hk2) as (n3 & HI3 & Hn3 & Hk3).
  set (d3 := short_run ops2 d2) in *.
  assert (is_u64 s) as Hus by (destruct HI2 as [[[] _]]; unfold is_u64; lia).
  destruct (get_or_create_shortstatekey_spec d3 n3 t' k' HI3 ltac:(lia))
    as (s2 & d4 & n4 & Hg4 & Hs4 & Hk4 & HI4 & Hn4 & Hx4 & _).
  rewrite Hg4 in Hg'. injection Hg' as ->.
  pose proof (lookup_weaken _ _ _ _ Hk3 (Hx4 statekey_shortstatekey ltac:(in_list))) as Hk3'.
  assert (is_u64 n4) as Hu4 by (by destruct HI4 as [[]]).
  split_and!.
  - apply (get_or_create_shortstatekey_known d3 n3); [done|lia|done|done].
  - split.
    + intros Es. assert (statekey_bytes t' k' = statekey_bytes t k) as E.
      { by eapply (short_maps_inj _ _ n4); [apply si_statekeys; exact HI4|done|exact Hk4|exact Hk3'|]. }
      by apply app_ff_inj in E as [-> ->]; [|by apply utf8_no_ff..].
    + intros [= -> ->]. rewrite Hk3' in Hk4. apply (inj Some) in Hk4.
      apply to_be_bytes_inj; [unfold is_u64 in *; lia|done|done].
  - destruct (get_statekey_from_short_spec d3 n3 s HI3 Hus) as (r & d5 & -> & _ & _ & Hr).
    simpl. apply Hr; [|done|done].
    destruct (proj1 (si_statekeys _ _ HI3) _ _ Hk3) as (s0 & E0 & _ & ?). by rewrite E0.
Qed.

#[local] Existing Instance sample_ruma.
#[local] Existing Instance lru_unbounded.

(** C4 at a concrete run: two events are mapped and the caches cleared. *)
Lemma short_event_ids_stable_witness :
  (get_or_create_shorteventid (lit "$a")
    (short_run [OpEvent (lit "$b"); OpClear 8]
      (get_or_create_shorteventid (lit "$a") (short_run [OpCount; OpRoom (lit "!r")] empty_db)).2)).1
  = Ok 3.
Proof.
  apply (short_event_ids_stable
    [OpCount; OpRoom (lit "!r")] (lit "$a") [OpEvent (lit "$b"); OpClear 8] (lit "$b") 3 4
    (get_or_create_shorteventid (lit "$a") (short_run [OpCount; OpRoom (lit "!r")] empty_db)).2
    (short_run [OpEvent (lit "$b"); OpClear 8]
      (get_or_create_shorteventid (lit "$a") (short_run [OpCount; OpRoom (lit "!r")] empty_db)).2)).
  - vm_compute. discriminate.
  - repeat constructor.
  - repeat constructor.
  - reflexivity.
  - reflexivity.
  - apply injective_projections; vm_compute; reflexivity.
  - reflexivity.
  - vm_compute. reflexivity.
Defined.

(** C5 at a concrete run. *)
