(* ===== verification/StateCompressor.v ===== *)
(** * StateCompressor: room states as layers of diffs

    [server/src/service/rooms/state_compressor/] and
    [server/src/database/key_value/rooms/state_compressor.rs].  A room state is
    a set of 16-byte entries (short state key, short event id); it is stored as
    a difference to another stored state, in at most four layers.

    [HashSet]s iterate in an unspecified order: [HashOrder] is that order, and
    every theorem holds for all of them.  [load_shortstatehash_info] recurses
    on the parent; its fuel is the number of stored states plus one, which only
    a cyclic chain of parents exhausts (the code then overflows its stack). *)
From S2P Require Import Prelude Bytes KvTree Pdu Database Short.

Record StateDiff := mkStateDiff {
  parent : option Z;
  added : gset bytes;
  removed : gset bytes;
}.

(** ** The stored form (database/key_value/rooms/state_compressor.rs) *)

(** The loop of [get_statediff]: 16-byte windows, a window that starts with
    eight zero bytes switches from added to removed entries.  The fuel bounds
    the windows. *)
Fixpoint parse_diff (fuel : nat) (add_mode : bool) (rest : bytes) (added removed : gset bytes)
    : gset bytes * gset bytes :=
  match fuel with
  | O => (added, removed)
  | S fuel =>
      if decide (16 ≤ length rest)%nat then
        let v := take 16 rest in
        if add_mode && starts_with (to_be_bytes 0) v
        then parse_diff fuel false (drop 8 rest) added removed
        else if add_mode
        then parse_diff fuel add_mode (drop 16 rest) ({[v]} ∪ added) removed
        else parse_diff fuel add_mode (drop 16 rest) added ({[v]} ∪ removed)
      else (added, removed)
  end.

Definition decode_statediff (value : bytes) : res StateDiff :=
  if decide (length value < 8)%nat then Panic else
  parent ← expect (u64_from_bytes (take 8 value));
  let parent := if parent =? 0 then None else Some parent in
  let '(added, removed) := parse_diff (length value) true (drop 8 value) ∅ ∅ in
  Ok (mkStateDiff parent added removed).

Definition get_statediff (shortstatehash : Z) : M Db StateDiff :=
  o ← get shortstatehash_statediff (to_be_bytes shortstatehash);
  value ← lift (ok_or o (BadDatabase "State hash does not exist"));
  lift (decode_statediff value).

(** The bytes written for the two iteration orders. *)
Definition encode_statediff (parent : option Z) (added removed : list bytes) : bytes :=
  to_be_bytes (default 0 parent) ++ concat added ++
  match removed with [] => [] | _ => to_be_bytes 0 ++ concat removed end.

Section compressor.
Context {RU : Ruma} {LR : LruCache} {HO : HashOrder}.

Definition save_statediff (shortstatehash : Z) (diff : StateDiff) : M Db unit :=
  insert shortstatehash_statediff (to_be_bytes shortstatehash)
    (encode_statediff (parent diff) (hash_iter (added diff)) (hash_iter (removed diff))).

(** ** The service (service/rooms/state_compressor/mod.rs) *)

(** Returns the layers of a state, the bottom one first. *)
Fixpoint load_info (fuel : nat) (shortstatehash : Z) : M Db (list StateLayer) :=
  match fuel with
  | O => lift Panic
  | S fuel =>
      cached ← gets (λ d, Ok (stateinfo_cache d !! shortstatehash));
      match cached with
      | Some r => mret r
      | None =>
          diff ← get_statediff shortstatehash;
          response ← match parent diff with
            | Some p =>
                response ← load_info fuel p;
                top ← lift (expect (last response));
                let state := (full_state top ∪ added diff) ∖ removed diff in
                mret (response ++ [mkLayer shortstatehash state (added diff) (removed diff)])
            | None =>
                mret [mkLayer shortstatehash (added diff) (added diff) (removed diff)]
            end;
          modify (λ d, set_stateinfo_cache
                         (lru_insert shortstatehash response (stateinfo_cache d)) d);;
          mret response
      end
  end.

Definition load_shortstatehash_info (shortstatehash : Z) : M Db (list StateLayer) := λ d,
  load_info (S (size (kv d shortstatehash_statediff))) shortstatehash d.

Definition compress_state_event (shortstatekey : Z) (event_id : bytes) : M Db bytes :=
  shorteventid ← get_or_create_shorteventid event_id;
  mret (to_be_bytes shortstatekey ++ to_be_bytes shorteventid).

(** Returns shortstatekey, event id. *)
Definition parse_compressed_state_event (compressed_event : bytes) : M Db (Z * bytes) :=
  shortstatekey ← lift (expect (u64_from_bytes (take 8 compressed_event)));
  short ← lift (expect (u64_from_bytes (drop 8 compressed_event)));
  event_id ← get_eventid_from_short short;
  mret (shortstatekey, event_id).

(** The two loops that fold a diff into the diff of its parent layer. *)
Definition merge_removed (pn pr : gset bytes) (statediffremoved : list bytes)
    : gset bytes * gset bytes :=
  fold_left (λ '(parent_new, parent_removed) removed,
    if bool_decide (removed ∈ parent_new) then (parent_new ∖ {[removed]}, parent_removed)
    else (parent_new, {[removed]} ∪ parent_removed)) statediffremoved (pn, pr).

Definition merge_new (pn pr : gset bytes) (statediffnew : list bytes)
    : gset bytes * gset bytes :=
  fold_left (λ '(parent_new, parent_removed) new,
    if bool_decide (new ∈ parent_removed) then (parent_new, parent_removed ∖ {[new]})
    else ({[new]} ∪ parent_new, parent_removed)) statediffnew (pn, pr).

Definition merge_diff (layer : StateLayer) (statediffnew statediffremoved : gset bytes)
    : gset bytes * gset bytes :=
  let '(pn, pr) := merge_removed (layer_added layer) (layer_removed layer)
                     (hash_iter statediffremoved) in
  merge_new pn pr (hash_iter statediffnew).

Definition usize (s : gset bytes) : Z := w64 (Z.of_nat (size s)).

(** [parent_states] with its last element, the one [pop] takes, first. *)
Fixpoint save_from_stack (shortstatehash : Z) (statediffnew statediffremoved : gset bytes)
    (diff_to_sibling : Z) (parent_states : list StateLayer) : M Db unit :=
  let diffsum := w64 (usize statediffnew + usize statediffremoved) in
  match parent_states with
  | [] => save_statediff shortstatehash (mkStateDiff None statediffnew statediffremoved)
  | parent :: parent_states' =>
      if bool_decide (3 < length parent_states)%nat then
        let '(parent_new, parent_removed) := merge_diff parent statediffnew statediffremoved in
        save_from_stack shortstatehash parent_new parent_removed diffsum parent_states'
      else
        let parent_diff := w64 (usize (layer_added parent) + usize (layer_removed parent)) in
        if w64 (2 * diff_to_sibling * parent_diff) <=? w64 (diffsum * diffsum) then
          let '(parent_new, parent_removed) := merge_diff parent statediffnew statediffremoved in
          save_from_stack shortstatehash parent_new parent_removed diffsum parent_states'
        else
          save_statediff shortstatehash
            (mkStateDiff (Some (sstatehash parent)) statediffnew statediffremoved)
  end.

Definition save_state_from_diff (shortstatehash : Z) (statediffnew statediffremoved : gset bytes)
    (diff_to_sibling : Z) (parent_states : list StateLayer) : M Db unit :=
  save_from_stack shortstatehash statediffnew statediffremoved diff_to_sibling
    (reverse parent_states).

(** [rooms.state.get_room_shortstatehash] (key_value/rooms/state.rs). *)
Definition get_room_shortstatehash (room_id : bytes) : M Db (option Z) :=
  o ← get roomid_shortstatehash room_id;
  lift (map_transpose (λ bs,
    ok_or (u64_from_bytes bs) (BadDatabase "Invalid shortstatehash in roomid_shortstatehash")) o).

Context (sha256 : bytes → bytes).

(** The layers of the previous state of a room, if it has one. *)
Definition states_parents (previous_shortstatehash : option Z) : M Db (list StateLayer) :=
  match previous_shortstatehash with
  | None => mret []
  | Some p => load_shortstatehash_info p
  end.

(** The difference of a new state to the top layer of its parents. *)
Definition diff_to_parents (layers : list StateLayer) (new_state : gset bytes)
    : gset bytes * gset bytes :=
  match last layers with
  | Some parent_stateinfo =>
      (new_state ∖ full_state parent_stateinfo, full_state parent_stateinfo ∖ new_state)
  | None => (new_state, ∅)
  end.

(** Returns the new shortstatehash, and the state diff from the previous room
    state. *)
Definition save_state (room_id : bytes) (new_state_ids_compressed : gset bytes)
    : M Db (Z * gset bytes * gset bytes) :=
  previous_shortstatehash ← get_room_shortstatehash room_id;
  let state_hash := calculate_hash sha256 (hash_iter new_state_ids_compressed) in
  '(new_shortstatehash, already_existed) ← get_or_create_shortstatehash state_hash;
  if bool_decide (Some new_shortstatehash = previous_shortstatehash)
  then mret (new_shortstatehash, ∅, ∅)
  else
    layers ← states_parents previous_shortstatehash;
    let '(statediffnew, statediffremoved) :=
      diff_to_parents layers new_state_ids_compressed in
    (if already_existed : bool then mret tt
     else save_state_from_diff new_shortstatehash statediffnew statediffremoved 2 layers);;
    mret (new_shortstatehash, statediffnew, statediffremoved).
End compressor.

(** * Lemmas *)

(** An entry of a state: 16 bytes, with a nonzero short state key. *)
Definition compressed (x : bytes) : Prop :=
  length x = 16%nat ∧ starts_with (to_be_bytes 0) x = false ∧ Forall is_byte x.

Definition good_state (s : gset bytes) : Prop := set_Forall compressed s.

Lemma compressed_entry k e : is_u64 k → k ≠ 0 → compressed (to_be_bytes k ++ to_be_bytes e).
Proof.
  intros Hk Hne. split_and!; [by rewrite length_app, !length_to_be_bytes| |].
  2:{ apply Forall_app. split; apply to_be_bytes_bytes. }
  apply not_true_iff_false. rewrite starts_with_spec. intros [r Hr].
  apply app_inj_1 in Hr as [Hr _]; [|by rewrite !length_to_be_bytes].
  apply to_be_bytes_inj in Hr; [done|done|unfold is_u64, u64_max; lia].
Qed.

(** ** Encoding and decoding *)

Lemma parse_diff_removed fuel lr a r :
  Forall (λ x, length x = 16%nat) lr → (length lr ≤ fuel)%nat →
  parse_diff fuel false (concat lr) a r = (a, list_to_set lr ∪ r).
Proof.
  intros Hl. revert fuel r. induction Hl as [|x lr Hx Hl IH]; intros fuel r Hf.
  - destruct fuel; simpl; [|]; f_equal; set_solver.
  - destruct fuel as [|fuel]; simpl in *; [lia|].
    rewrite decide_True by (rewrite length_app; lia).
    rewrite drop_app_length' by done.
    rewrite take_app_length' by done. rewrite IH by lia. f_equal. set_solver.
Qed.

Lemma parse_diff_added fuel la tl a r :
  Forall compressed la → (length la ≤ fuel)%nat →
  parse_diff fuel true (concat la ++ tl) a r =
  parse_diff (fuel - length la) true tl (list_to_set la ∪ a) r.
Proof.
  intros Hl. revert fuel a. induction Hl as [|x la (Hx & Hz & _) Hl IH]; intros fuel a Hf.
  - simpl. rewrite Nat.sub_0_r. f_equal. set_solver.
  - destruct fuel as [|fuel]; [simpl in *; lia|].
    cbn [concat parse_diff length Nat.sub]. rewrite decide_True by (rewrite !length_app; lia).
    rewrite <-app_assoc, (take_app_length' x) by done. rewrite Hz. cbn [andb].
    rewrite (drop_app_length' x) by done.
    rewrite IH by (simpl in *; lia). f_equal. simpl. set_solver.
Qed.

Lemma parse_diff_short fuel mode tl a r :
  (length tl < 16)%nat → parse_diff fuel mode tl a r = (a, r).
Proof. intros H. destruct fuel; simpl; [done|]. by rewrite decide_False by lia. Qed.

Lemma decode_encode_statediff p la lr :
  (∀ s, p = Some s → is_u64 s ∧ s ≠ 0) → Forall compressed la → Forall compressed lr →
  decode_statediff (encode_statediff p la lr) =
  Ok (mkStateDiff p (list_to_set la) (list_to_set lr)).
Proof.
  intros Hp Hla Hlr. unfold decode_statediff, encode_statediff.
  rewrite decide_False by (rewrite length_app, length_to_be_bytes; lia).
  assert (is_u64 (default 0 p)) as Hu.
  { destruct p as [s|]; simpl; [by apply Hp|]. unfold is_u64, u64_max. lia. }
  rewrite take_app_length', drop_app_length' by (by rewrite length_to_be_bytes).
  rewrite u64_from_to_be_bytes by done. cbn [expect mbind res_bind]. cbv zeta.
  replace (if default 0 p =? 0 then None else Some (default 0 p)) with p.
  2:{ destruct p as [s|]; [|done]. simpl. destruct (Hp s eq_refl) as [_ ?].
      by rewrite (proj2 (Z.eqb_neq s 0)). }
  assert (∀ l, Forall compressed l → (length l ≤ length (concat l))%nat) as Hlen.
  { induction 1 as [|x l [Hx _] _ IH]; simpl; [lia|]. rewrite length_app. lia. }
  rewrite parse_diff_added; [|done|]; last first.
  { rewrite !length_app, length_to_be_bytes. specialize (Hlen la Hla). lia. }
  destruct lr as [|x lr].
  { rewrite parse_diff_short by (simpl; lia). f_equal. f_equal. set_solver. }
  set (rem := x :: lr) in *.
  match goal with |- context [parse_diff ?f _ _ _ _] => set (fuel := f) end.
  assert ((length rem < fuel)%nat) as Hf.
  { unfold fuel. rewrite !length_app, !length_to_be_bytes. pose proof (Hlen la Hla).
    pose proof (Hlen rem Hlr). lia. }
  destruct fuel as [|fuel]; [lia|]. cbn [parse_diff].
  rewrite decide_True; last first.
  { unfold rem. cbn [concat]. apply Forall_cons in Hlr as [[Hx _] _].
    rewrite !length_app, length_to_be_bytes. lia. }
  replace (true && _) with true; last first.
  { symmetry. cbn [andb]. rewrite starts_with_spec. exists (take 8 (concat rem)).
    rewrite take_app_ge by (rewrite length_to_be_bytes; lia). by rewrite length_to_be_bytes. }
  rewrite drop_app_length' by (by rewrite length_to_be_bytes).
  rewrite parse_diff_removed; [|eapply Forall_impl; [exact Hlr|by intros ? []]|lia].
  f_equal. f_equal; set_solver.
Qed.

(** ** Chains of layers *)

Definition statediff_at (d : Db) (s : Z) (diff : StateDiff) : Prop :=
  ∃ v, kv d shortstatehash_statediff !! to_be_bytes s = Some v ∧ decode_statediff v = Ok diff.

(** A short state hash: a count the counter handed out. *)
Definition is_short (s : Z) : Prop := 1 ≤ s ≤ u64_max.

Lemma is_short_u64 s : is_short s → is_u64 s.
Proof. unfold is_short, is_u64. lia. Qed.

(** [Stack d s ls]: [ls] are the layers stored for state [s], bottom first.
    Every diff adds only missing entries and removes only present ones; there
    are at most four layers; parents are older. *)
Inductive Stack (d : Db) : Z → list StateLayer → Prop :=
  | Stack_base s a :
      is_short s → statediff_at d s (mkStateDiff None a ∅) → good_state a →
      Stack d s [mkLayer s a a ∅]
  | Stack_diff s p ls top a r :
      is_short s → statediff_at d s (mkStateDiff (Some p) a r) →
      Stack d p ls → last ls = Some top → p < s →
      good_state a → good_state r → a ## full_state top → r ⊆ full_state top →
      (length ls ≤ 3)%nat →
      Stack d s (ls ++ [mkLayer s ((full_state top ∪ a) ∖ r) a r]).

(** The state a short state hash stands for. *)
Definition state_of (d : Db) (s : Z) (st : gset bytes) : Prop :=
  ∃ ls top, Stack d s ls ∧ last ls = Some top ∧ full_state top = st.

Lemma statediff_at_fun d s x y : statediff_at d s x → statediff_at d s y → x = y.
Proof. intros (v & Hv & Hx) (w & Hw & Hy). congruence. Qed.

Lemma Stack_fun d s l1 l2 : Stack d s l1 → Stack d s l2 → l1 = l2.
Proof.
  intros H1. revert l2. induction H1 as [s a Hu Hd Hg|s p ls top a r Hu Hd Hs IH Ht Hp Hga Hgr Ha Hr Hl];
    intros l2 H2; destruct H2 as [s a' ? Hd' ?|s p' ls' top' a' r' ? Hd' Hs' Ht' ? ? ? ? ? ?];
    pose proof (statediff_at_fun _ _ _ _ Hd Hd') as E; simplify_eq.
  - done.
  - rewrite (IH _ Hs') in Ht |- *. by simplify_eq.
Qed.

Lemma Stack_top d s ls : Stack d s ls → ∃ top, last ls = Some top ∧ sstatehash top = s.
Proof. intros []; [by eexists|]. rewrite last_snoc. by eexists. Qed.

Lemma Stack_length d s ls : Stack d s ls → (1 ≤ length ls ≤ 4)%nat.
Proof. intros []; simpl; [lia|]. rewrite length_app. simpl. lia. Qed.

Lemma Stack_short d s ls : Stack d s ls → is_short s.
Proof. by intros []. Qed.

Lemma Stack_mono d d' s ls :
  kv d shortstatehash_statediff ⊆ kv d' shortstatehash_statediff → Stack d s ls → Stack d' s ls.
Proof.
  intros Hsub. assert (∀ s x, statediff_at d s x → statediff_at d' s x) as Hd.
  { intros s' x (v & Hv & Hx). exists v. split; [|done]. by eapply lookup_weaken. }
  induction 1; [apply Stack_base|eapply Stack_diff]; eauto.
Qed.

Lemma Stack_good d s ls top : Stack d s ls → last ls = Some top → good_state (full_state top).
Proof.
  intros H. revert top. induction H as [s a Hu Hd Hg|s p ls tp a r Hu Hd Hs IH Ht Hp Hga Hgr Ha Hr Hl].
  - by intros ? [= <-].
  - intros ? Hx. rewrite last_snoc in Hx. injection Hx as <-. simpl.
    specialize (IH _ Ht). intros x Hx. apply elem_of_difference in Hx as [Hx _].
    apply elem_of_union in Hx as [Hx|Hx]; [by apply IH|by apply Hga].
Qed.

Lemma state_of_fun d s st st' : state_of d s st → state_of d s st' → st = st'.
Proof.
  intros (ls & top & Hs & Ht & <-) (ls' & top' & Hs' & Ht' & <-).
  rewrite (Stack_fun _ _ _ _ Hs Hs') in Ht. by simplify_eq.
Qed.

Lemma state_of_mono d d' s st :
  kv d shortstatehash_statediff ⊆ kv d' shortstatehash_statediff → state_of d s st → state_of d' s st.
Proof. intros Hsub (ls & top & Hs & ?). exists ls, top. split; [by eapply Stack_mono|done]. Qed.

(** The layers of a stack are different stored states, so the tree is at least
    as large as the stack. *)
Lemma Stack_stored d s ls :
  Stack d s ls → Forall (λ l, is_short (sstatehash l) ∧ sstatehash l ≤ s ∧
    is_Some (kv d shortstatehash_statediff !! to_be_bytes (sstatehash l))) ls.
Proof.
  induction 1 as [s a Hu (v & Hv & _) Hg|s p ls tp a r Hu (v & Hv & _) Hs IH Ht Hp Hga Hgr Ha Hr Hl].
  - repeat constructor; simpl; [apply Hu..|lia|by eexists].
  - apply Forall_app. split.
    + eapply Forall_impl; [exact IH|]. intros l (? & ? & ?). split_and!; [done|lia|done].
    + repeat constructor; simpl; [apply Hu..|lia|by eexists].
Qed.

Lemma Stack_distinct d s ls : Stack d s ls → NoDup (to_be_bytes ∘ sstatehash <$> ls).
Proof.
  induction 1 as [s a Hu Hd Hg|s p ls tp a r Hu Hd Hs IH Ht Hp Hga Hgr Ha Hr Hl].
  - apply NoDup_singleton.
  - rewrite fmap_app. apply NoDup_app. split_and!; [done| |apply NoDup_singleton].
    intros x (l & -> & Hin)%list_elem_of_fmap Hx. apply list_elem_of_singleton in Hx.
    pose proof (Stack_stored _ _ _ Hs) as Hst. rewrite Forall_forall in Hst.
    destruct (Hst l Hin) as (? & ? & _). simpl in Hx. apply to_be_bytes_inj in Hx; [lia|by apply is_short_u64..].
Qed.

Lemma Stack_size d s ls : Stack d s ls → (length ls ≤ size (kv d shortstatehash_statediff))%nat.
Proof.
  intros H. pose proof (Stack_distinct _ _ _ H) as Hnd. pose proof (Stack_stored _ _ _ H) as Hst.
  rewrite <-size_dom, <-(length_fmap (to_be_bytes ∘ sstatehash)).
  rewrite <-(size_list_to_set (C := gset bytes)) by done. apply subseteq_size.
  intros x Hx. apply elem_of_list_to_set, list_elem_of_fmap in Hx as (l & -> & Hin).
  rewrite Forall_forall in Hst. apply elem_of_dom. by apply Hst.
Qed.

(** ** Loading *)

(** The cache holds only stored stacks. *)
Definition cache_ok (d : Db) : Prop :=
  ∀ s ls, stateinfo_cache d !! s = Some ls → Stack d s ls.

Lemma Stack_kv d d' s ls : kv d' = kv d → Stack d s ls → Stack d' s ls.
Proof. intros E. apply Stack_mono. by rewrite E. Qed.

Section load.
Context {LR : LruCache}.

Lemma cache_ok_insert d s ls :
  cache_ok d → Stack d s ls →
  cache_ok (set_stateinfo_cache (lru_insert s ls (stateinfo_cache d)) d).
Proof.
  intros Hc Hs s' ls' [[-> ->]|Hx]%lru_insert_lookup; apply (Stack_kv d); [done..|by apply Hc].
Qed.

Lemma load_info_spec fuel d s ls :
  cache_ok d → Stack d s ls → (length ls ≤ fuel)%nat →
  ∃ c, load_info fuel s d = (Ok ls, set_stateinfo_cache c d) ∧
    cache_ok (set_stateinfo_cache c d).
Proof.
  intros Hc Hs. revert fuel. induction Hs as [s a Hu Hd Hg|s p ls tp a r Hu Hd Hs IH Ht Hp Hga Hgr Ha Hr Hl];
    intros fuel Hf; (destruct fuel as [|fuel]; [rewrite ?length_app in Hf; simpl in Hf; lia|]);
    cbn [load_info]; unfold get_statediff, get, kv_get; run;
    pose proof Hd as (v & Hv & Hdec).
  - destruct (stateinfo_cache d !! s) as [ls'|] eqn:E.
    { exists (stateinfo_cache d). pose proof (Hc _ _ E) as Hs'.
      rewrite (Stack_fun _ _ _ _ Hs' (Stack_base d s a Hu Hd Hg)). by destruct d. }
    rewrite Hv. cbn [ok_or]. rewrite Hdec. cbn. eexists. split; [done|].
    apply cache_ok_insert; [done|by apply Stack_base].
  - destruct (stateinfo_cache d !! s) as [ls'|] eqn:E.
    { exists (stateinfo_cache d). pose proof (Hc _ _ E) as Hs'.
      rewrite (Stack_fun _ _ _ _ Hs' (Stack_diff d s p ls tp a r Hu Hd Hs Ht Hp Hga Hgr Ha Hr Hl)).
      by destruct d. }
    rewrite Hv. cbn [ok_or]. rewrite Hdec. cbn [parent added removed].
    destruct (IH fuel) as (c & -> & Hc'); [rewrite length_app in Hf; simpl in Hf; lia|].
    rewrite Ht. cbn. eexists. split; [done|].
    apply (cache_ok_insert (set_stateinfo_cache c d)); [done|].
    apply (Stack_kv d); [done|by eapply Stack_diff].
Qed.

Lemma load_shortstatehash_info_spec d s ls :
  cache_ok d → Stack d s ls →
  ∃ c, load_shortstatehash_info s d = (Ok ls, set_stateinfo_cache c d) ∧
    cache_ok (set_stateinfo_cache c d).
Proof.
  intros Hc Hs. apply load_info_spec; [done..|]. pose proof (Stack_size _ _ _ Hs). lia.
Qed.
End load.

(** ** Merging diffs *)

Lemma merge_removed_spec pn pr l :
  NoDup l → merge_removed pn pr l = (pn ∖ list_to_set l, pr ∪ (list_to_set l ∖ pn)).
Proof.
  intros Hnd. revert pn pr. induction Hnd as [|x l Hx Hl IH]; intros pn pr; unfold merge_removed; simpl.
  { f_equal; set_solver. }
  case_bool_decide as Hin; fold (merge_removed (pn ∖ {[x]}) pr l) (merge_removed pn ({[x]} ∪ pr) l);
    rewrite IH; f_equal; apply set_eq; intros y; set_unfold; destruct (decide (y = x)); naive_solver.
Qed.

Lemma merge_new_spec pn pr l :
  NoDup l → merge_new pn pr l = (pn ∪ (list_to_set l ∖ pr), pr ∖ list_to_set l).
Proof.
  intros Hnd. revert pn pr. induction Hnd as [|x l Hx Hl IH]; intros pn pr; unfold merge_new; simpl.
  { f_equal; set_solver. }
  case_bool_decide as Hin; fold (merge_new pn (pr ∖ {[x]}) l) (merge_new ({[x]} ∪ pn) pr l);
    rewrite IH; f_equal; apply set_eq; intros y; set_unfold; destruct (decide (y = x)); naive_solver.
Qed.

Lemma hash_iter_Forall `{HO : HashOrder} s : good_state s → Forall compressed (hash_iter s).
Proof.
  intros H. rewrite hash_iter_perm. apply Forall_forall. intros x Hx. by apply H, elem_of_elements.
Qed.

Lemma merge_diff_spec `{HO : HashOrder} l new rem :
  merge_diff l new rem =
    ((layer_added l ∖ rem) ∪ (new ∖ (layer_removed l ∪ (rem ∖ layer_added l))),
     (layer_removed l ∪ (rem ∖ layer_added l)) ∖ new).
Proof.
  unfold merge_diff. rewrite merge_removed_spec by apply hash_iter_NoDup.
  rewrite merge_new_spec by apply hash_iter_NoDup. by rewrite !hash_iter_set.
Qed.

(** Folding a diff into its parent's diff gives the same state on top of the
    grandparent, and again a minimal diff. *)
Lemma merge_diff_state (B a r new rem : gset bytes) :
  a ## B → r ⊆ B → new ## (B ∪ a) ∖ r → rem ⊆ (B ∪ a) ∖ r →
  let a' := (a ∖ rem) ∪ (new ∖ (r ∪ (rem ∖ a))) in
  let r' := (r ∪ (rem ∖ a)) ∖ new in
  (B ∪ a') ∖ r' = (((B ∪ a) ∖ r) ∪ new) ∖ rem ∧ a' ## B ∧ r' ⊆ B.
Proof.
  intros Ha Hr Hn Hm a' r'. subst a' r'.
  assert (∀ x, (x ∈ a → x ∉ B) ∧ (x ∈ r → x ∈ B) ∧
    (x ∈ new → ¬ ((x ∈ B ∨ x ∈ a) ∧ x ∉ r)) ∧ (x ∈ rem → (x ∈ B ∨ x ∈ a) ∧ x ∉ r)) as Hx.
  { intros x. set_solver. }
  split_and!.
  - apply set_eq. intros x. set_unfold. destruct (Hx x) as (? & ? & ? & ?).
    destruct (decide (x ∈ a)), (decide (x ∈ r)), (decide (x ∈ rem)), (decide (x ∈ new)),
      (decide (x ∈ B)); tauto.
  - intros x. set_unfold. destruct (Hx x) as (? & ? & ? & ?).
    destruct (decide (x ∈ a)), (decide (x ∈ r)), (decide (x ∈ rem)), (decide (x ∈ new)),
      (decide (x ∈ B)); tauto.
  - intros x. set_unfold. destruct (Hx x) as (? & ? & ? & ?).
    destruct (decide (x ∈ a)), (decide (x ∈ r)), (decide (x ∈ rem)), (decide (x ∈ new)),
      (decide (x ∈ B)); tauto.
Qed.

(** ** Saving *)

Section save.
Context {HO : HashOrder}.

(** What the diff handed to [save_state_from_diff] must satisfy: it is minimal
    with respect to the top of the stack. *)
Definition diff_ok (d : Db) (s : Z) (stack : list StateLayer) (new rem : gset bytes) : Prop :=
  good_state new ∧ good_state rem ∧
  match stack with
  | [] => rem = ∅
  | top :: _ => Stack d (sstatehash top) (reverse stack) ∧ sstatehash top < s ∧
      new ## full_state top ∧ rem ⊆ full_state top
  end.

Definition stack_state (stack : list StateLayer) : gset bytes :=
  match stack with [] => ∅ | top :: _ => full_state top end.

Lemma Stack_pop d s top stack :
  Stack d s (reverse (top :: stack)) →
  match stack with
  | [] => layer_removed top = ∅ ∧ full_state top = layer_added top
  | g :: _ => Stack d (sstatehash g) (reverse stack) ∧ sstatehash g < sstatehash top ∧
      full_state top = (full_state g ∪ layer_added top) ∖ layer_removed top ∧
      layer_added top ## full_state g ∧ layer_removed top ⊆ full_state g
  end ∧ good_state (layer_added top) ∧ good_state (layer_removed top).
Proof.
  rewrite reverse_cons. intros H. inversion H as [s' a Hu Hd Hg E1 E2|s' p ls tp a r Hu Hd Hs Ht Hp Hga Hgr Ha Hr Hl E1 E2].
  - symmetry in E2. apply (app_singleton (reverse stack) [top]) in E2 as [[Hn [= ->]]|[_ ?]]; [|done].
    destruct stack as [|g stack]; [|rewrite reverse_cons in Hn; by apply app_nil in Hn as [_ ?]].
    by split_and!.
  - apply app_inj_2 in E2 as [-> [= <-]]; [|done]. split; [|done].
    destruct stack as [|g stack]; [by simpl in *|].
    rewrite reverse_cons, last_snoc in Ht. injection Ht as ->. simpl.
    destruct (Stack_top _ _ _ Hs) as (g' & Hg' & <-). rewrite reverse_cons, last_snoc in Hg'.
    injection Hg' as ->. split_and!; done.
Qed.

Lemma merge_ok d s top stack new rem pn pr :
  diff_ok d s (top :: stack) new rem →
  merge_diff top new rem = (pn, pr) →
  diff_ok d s stack pn pr ∧
  (stack_state stack ∪ pn) ∖ pr = (full_state top ∪ new) ∖ rem.
Proof.
  intros (Hgn & Hgr & Hs & Hlt & Hn & Hr) Hm. rewrite merge_diff_spec in Hm. injection Hm as <- <-.
  destruct (Stack_pop _ _ _ _ Hs) as (Hpop & Hga & Hgrr).
  assert (∀ X Y : gset bytes, good_state X → good_state Y → good_state (X ∪ Y)) as Hun
    by (intros; by apply set_Forall_union).
  assert (∀ X Y : gset bytes, good_state X → good_state (X ∖ Y)) as Hdf
    by (intros X Y HX x Hx; apply HX; set_solver).
  destruct stack as [|g stack]; simpl.
  - destruct Hpop as [E1 E2]. rewrite E1 in *. rewrite E2 in *. split; [split_and!|].
    + apply Hun; auto.
    + auto.
    + apply set_eq. intros x. specialize (Hr x). set_solver.
    + apply set_eq. intros x. specialize (Hr x). specialize (Hn x). set_unfold.
      destruct (decide (x ∈ layer_added top)), (decide (x ∈ rem)), (decide (x ∈ new)); tauto.
  - destruct Hpop as (Hsg & Hlt' & E & Ha & Hrr). rewrite E in Hn, Hr.
    destruct (merge_diff_state (full_state g) (layer_added top) (layer_removed top) new rem)
      as (E' & ? & ?); [done..|].
    split; [split_and!|].
    + apply Hun; auto.
    + auto.
    + done.
    + lia.
    + done.
    + done.
    + by rewrite E', E.
Qed.

Lemma save_statediff_spec d s p new rem :
  good_state new → good_state rem → (∀ q, p = Some q → is_short q) →
  ∃ v, save_statediff s (mkStateDiff p new rem) d =
    (Ok tt, upd shortstatehash_statediff (<[to_be_bytes s := v]>) d) ∧
    decode_statediff v = Ok (mkStateDiff p new rem).
Proof.
  intros Hn Hr Hp. eexists. split; [done|]. cbn [parent added removed].
  rewrite decode_encode_statediff; [by rewrite !hash_iter_set| |by apply hash_iter_Forall..].
  intros q ->. specialize (Hp q eq_refl). split; [by apply is_short_u64|]. unfold is_short in Hp. lia.
Qed.

(** Whatever layers are merged, the saved chain stands for the state on top of
    the stack with the diff applied. *)
Lemma save_from_stack_spec d s stack new rem sib :
  is_short s → kv d shortstatehash_statediff !! to_be_bytes s = None →
  diff_ok d s stack new rem →
  ∃ v, let d' := upd shortstatehash_statediff (<[to_be_bytes s := v]>) d in
    save_from_stack s new rem sib stack d = (Ok tt, d') ∧
    state_of d' s ((stack_state stack ∪ new) ∖ rem).
Proof.
  intros Hs Hf. revert new rem sib.
  induction stack as [|top stack IH]; intros new rem sib Hd; cbn [save_from_stack].
  - destruct Hd as (Hn & Hr & ->).
    destruct (save_statediff_spec d s None new ∅ Hn Hr ltac:(done)) as (v & Hv & Hdec).
    exists v. split; [done|]. exists [mkLayer s new new ∅], (mkLayer s new new ∅).
    split_and!; [|done|simpl; set_solver].
    apply Stack_base; [done| |done]. exists v. split; [|done]. kv_simpl. apply lookup_insert_eq.
  - assert (∀ sib', ∃ v, let d' := upd shortstatehash_statediff (<[to_be_bytes s := v]>) d in
      (let '(pn, pr) := merge_diff top new rem in save_from_stack s pn pr sib' stack) d = (Ok tt, d') ∧
      state_of d' s ((full_state top ∪ new) ∖ rem)) as Hmerge.
    { intros sib'. destruct (merge_diff top new rem) as [pn pr] eqn:Em.
      destruct (merge_ok d s top stack new rem pn pr Hd Em) as [Hd' <-]. by apply IH. }
    cbv zeta. case_bool_decide as Hlen; [apply Hmerge|]. destruct (_ <=? _); [apply Hmerge|].
    destruct Hd as (Hn & Hr & Hst & Hlt & Hnd & Hrs).
    destruct (save_statediff_spec d s (Some (sstatehash top)) new rem Hn Hr) as (v & Hv & Hdec).
    { intros q [= <-]. by eapply Stack_short. }
    exists v. split; [done|]. set (l := mkLayer s ((full_state top ∪ new) ∖ rem) new rem).
    exists (reverse (top :: stack) ++ [l]), l. split_and!; [|by rewrite last_snoc|done].
    eapply (Stack_diff _ s (sstatehash top) (reverse (top :: stack)) top); try done.
    + exists v. split; [|done]. kv_simpl. apply lookup_insert_eq.
    + eapply Stack_mono; [|exact Hst]. kv_simpl. by apply insert_subseteq.
    + by rewrite reverse_cons, last_snoc.
    + rewrite length_reverse. lia.
Qed.
End save.

(** ** The whole component *)

Record CompPre (d : Db) (n : Z) : Prop := mk_CompPre {
  ci_short : ShortInv d n;
  ci_cache : cache_ok d;
  (** every stored diff belongs to a chain of stored states *)
  ci_diffs : ∀ k v, kv d shortstatehash_statediff !! k = Some v →
    ∃ s st, k = to_be_bytes s ∧ 1 ≤ s ≤ n ∧ state_of d s st;
  (** the current state of every room is stored *)
  ci_rooms : ∀ r b, kv d roomid_shortstatehash !! r = Some b →
    ∃ s st, b = to_be_bytes s ∧ 1 ≤ s ≤ n ∧ state_of d s st;
}.

(** The hash [h] is mapped to a stored state it is the hash of. *)
Definition hash_ok (sha256 : bytes → bytes) (d : Db) (n : Z) (h b : bytes) : Prop :=
  ∃ s st l, b = to_be_bytes s ∧ 1 ≤ s ≤ n ∧ state_of d s st ∧
    l ≡ₚ elements st ∧ h = calculate_hash sha256 l.

Definition CompInv (sha256 : bytes → bytes) (d : Db) (n : Z) : Prop :=
  CompPre d n ∧ ∀ h b, kv d statehash_shortstatehash !! h = Some b → hash_ok sha256 d n h b.

(** The state of a room: the stored state its short state hash names, the empty
    set for a room without one. *)
Definition room_state (d : Db) (room_id : bytes) (st : gset bytes) : Prop :=
  match kv d roomid_shortstatehash !! room_id with
  | None => st = ∅
  | Some b => ∃ s, b = to_be_bytes s ∧ state_of d s st
  end.

Lemma empty_db_comp sha256 : CompInv sha256 empty_db 0.
Proof.
  split; [split|]; try (intros *; simpl; by rewrite lookup_empty); [apply empty_db_short|].
  intros s ls. simpl. by rewrite lookup_empty.
Qed.

Lemma CompPre_u64 d n : CompPre d n → is_u64 n.
Proof. by intros [[[]]]. Qed.

Lemma hash_ok_mono sha256 d d' n n' h b :
  kv d shortstatehash_statediff ⊆ kv d' shortstatehash_statediff → n ≤ n' →
  hash_ok sha256 d n h b → hash_ok sha256 d' n' h b.
Proof.
  intros Hsub Hn (s & st & l & ? & ? & ? & ? & ?). exists s, st, l.
  split_and!; [done|lia|lia|by eapply state_of_mono|done|done].
Qed.

(** The component's own trees only grow and everything else it depends on is
    kept: its invariant carries over. *)
Lemma CompPre_ext d d' n n' :
  CompPre d n → ShortInv d' n' → n ≤ n' →
  kv d' shortstatehash_statediff = kv d shortstatehash_statediff →
  kv d' roomid_shortstatehash = kv d roomid_shortstatehash → cache_ok d' → CompPre d' n'.
Proof.
  intros [Hs Hc Hd Hr] Hs' Hn E1 E2 Hc'. split; [done|done|..].
  - intros k v Hk. rewrite E1 in Hk. destruct (Hd k v Hk) as (s & st & ? & ? & ?).
    exists s, st. split_and!; [done|lia|lia|]. eapply state_of_mono; [|done]. by rewrite E1.
  - intros k v Hk. rewrite E2 in Hk. destruct (Hr k v Hk) as (s & st & ? & ? & ?).
    exists s, st. split_and!; [done|lia|lia|]. eapply state_of_mono; [|done]. by rewrite E1.
Qed.

Lemma CompPre_stateinfo d n c :
  CompPre d n → cache_ok (set_stateinfo_cache c d) → CompPre (set_stateinfo_cache c d) n.
Proof.
  intros HI Hc. apply (CompPre_ext d _ n); [done|by apply ShortInv_stateinfo, HI|lia|done..].
Qed.

Lemma cache_ok_eq d d' :
  cache_ok d → kv d' shortstatehash_statediff = kv d shortstatehash_statediff →
  stateinfo_cache d' = stateinfo_cache d → cache_ok d'.
Proof.
  intros Hc E1 E2 s ls. rewrite E2. intros Hs. eapply Stack_mono; [|by apply Hc]. by rewrite E1.
Qed.

(** An operation on short ids keeps the invariant. *)
Lemma CompPre_short d n d' n' : CompPre d n → short_step d n d' n' → CompPre d' n'.
Proof.
  intros HI (Hs & Hn & _ & Hf & Hc). injection Hc as _ _ _ _ _ _ Hc.
  apply (CompPre_ext d _ n); [done|done|lia|apply Hf; set_solver..|].
  eapply cache_ok_eq; [apply HI|apply Hf; set_solver|done].
Qed.

(** A count taken from the counter is not yet a stored state. *)
Lemma CompPre_fresh d n s :
  CompPre d n → is_u64 s → n < s → kv d shortstatehash_statediff !! to_be_bytes s = None.
Proof.
  intros HI Hs Hlt. destruct (kv d shortstatehash_statediff !! to_be_bytes s) as [v|] eqn:E; [|done].
  destruct (ci_diffs _ _ HI _ _ E) as (s' & st & Es & Hs' & _).
  pose proof (CompPre_u64 _ _ HI). apply to_be_bytes_inj in Es; unfold is_u64 in *; lia.
Qed.

Lemma get_room_shortstatehash_spec d n r :
  CompPre d n → ∃ o, get_room_shortstatehash r d = (Ok o, d) ∧
    match o with
    | None => kv d roomid_shortstatehash !! r = None
    | Some s => kv d roomid_shortstatehash !! r = Some (to_be_bytes s) ∧ 1 ≤ s ≤ n ∧ ∃ st, state_of d s st
    end.
Proof.
  intros HI. unfold get_room_shortstatehash, get, kv_get. run.
  destruct (kv d roomid_shortstatehash !! r) as [b|] eqn:E; [|by exists None].
  destruct (ci_rooms _ _ HI _ _ E) as (s & st & -> & Hs & Hst). cbn [map_transpose].
  pose proof (CompPre_u64 _ _ HI). rewrite u64_from_to_be_bytes by (unfold is_u64 in *; lia).
  exists (Some s). split_and!; [done|done|lia|lia|eauto].
Qed.

(** Storing a fresh state keeps the invariant. *)
Lemma CompPre_save d n s v st :
  CompPre d n → 1 ≤ s ≤ n → kv d shortstatehash_statediff !! to_be_bytes s = None →
  let d' := upd shortstatehash_statediff (<[to_be_bytes s := v]>) d in
  state_of d' s st → CompPre d' n ∧ kv d shortstatehash_statediff ⊆ kv d' shortstatehash_statediff.
Proof.
  intros [Hs Hc Hd Hr] Hsn Hf d' Hst.
  assert (kv d shortstatehash_statediff ⊆ kv d' shortstatehash_statediff) as Hsub.
  { unfold d'. kv_simpl. by apply insert_subseteq. }
  split; [|done]. split.
  - apply ShortInv_upd; [|done]. set_solver.
  - intros s' ls Hls. eapply Stack_mono; [exact Hsub|]. by apply Hc.
  - intros k w. unfold d'. kv_simpl. rewrite lookup_insert. case_decide as Hk; subst; [eauto|].
    intros Hw. destruct (Hd k w Hw) as (s' & st' & ? & ? & ?). exists s', st'.
    split_and!; [done|lia|lia|by eapply state_of_mono].
  - intros k w. unfold d'. kv_simpl. intros Hw. destruct (Hr k w Hw) as (s' & st' & ? & ? & ?). exists s', st'.
    split_and!; [done|lia|lia|by eapply state_of_mono].
Qed.

(** The previous state of a room. *)
Definition prev_state (d : Db) (o : option Z) (P : gset bytes) : Prop :=
  match o with None => P = ∅ | Some p => state_of d p P end.

(** [layers] is what [states_parents] returns for [o]. *)
Definition parents_ok (d : Db) (o : option Z) (layers : list StateLayer) : Prop :=
  match reverse layers with
  | [] => o = None
  | top :: _ => o = Some (sstatehash top) ∧ Stack d (sstatehash top) layers
  end.

Lemma states_parents_spec `{LR : LruCache} d o P :
  cache_ok d → prev_state d o P → ∃ layers c,
    states_parents o d = (Ok layers, set_stateinfo_cache c d) ∧
    cache_ok (set_stateinfo_cache c d) ∧
    parents_ok (set_stateinfo_cache c d) o layers ∧ stack_state (reverse layers) = P.
Proof.
  intros Hc Hp. destruct o as [p|]; simpl in Hp.
  - destruct Hp as (ls & top & Hs & Ht & <-).
    destruct (load_shortstatehash_info_spec d p ls Hc Hs) as (c & Hl & Hc').
    exists ls, c. split_and!; [done|done|..]; unfold parents_ok;
      destruct (reverse ls) as [|top' stack] eqn:E; simpl.
    + apply (f_equal reverse) in E. rewrite reverse_involutive in E. by subst.
    + apply (f_equal reverse) in E. rewrite reverse_involutive, reverse_cons in E. subst.
      destruct (Stack_top _ _ _ Hs) as (tp & Ht' & <-). rewrite last_snoc in Ht'. injection Ht' as <-.
      split; [done|]. by apply (Stack_kv d).
    + apply (f_equal reverse) in E. rewrite reverse_involutive in E. by subst.
    + apply (f_equal reverse) in E. rewrite reverse_involutive, reverse_cons in E. subst.
      rewrite last_snoc in Ht. by injection Ht as <-.
  - subst. exists [], (stateinfo_cache d). split_and!; [by destruct d|by destruct d|done|done].
Qed.

Lemma diff_to_parents_spec layers new :
  diff_to_parents layers new =
    (new ∖ stack_state (reverse layers), stack_state (reverse layers) ∖ new).
Proof.
  unfold diff_to_parents. destruct layers as [|l layers _] using rev_ind.
  - simpl. f_equal; set_solver.
  - by rewrite last_snoc, reverse_snoc.
Qed.

Lemma save_state_from_diff_spec `{HO : HashOrder} d n s o P layers new rem sib :
  CompPre d n → 1 ≤ s ≤ n → kv d shortstatehash_statediff !! to_be_bytes s = None →
  parents_ok d o layers → stack_state (reverse layers) = P → (∀ p, o = Some p → p < s) →
  good_state new → new ## P → rem ⊆ P →
  ∃ v, let d' := upd shortstatehash_statediff (<[to_be_bytes s := v]>) d in
    save_state_from_diff s new rem sib layers d = (Ok tt, d') ∧
    CompPre d' n ∧ state_of d' s ((P ∪ new) ∖ rem) ∧
    kv d shortstatehash_statediff ⊆ kv d' shortstatehash_statediff.
Proof.
  intros HI Hs Hf Hp <- Hlt Hg Hn Hr. unfold save_state_from_diff, parents_ok in *.
  pose proof (CompPre_u64 _ _ HI) as Hu.
  assert (diff_ok d s (reverse layers) new rem) as Hd.
  { destruct (reverse layers) as [|top stack] eqn:E; simpl in *.
    - split_and!; [done| |set_solver]. replace rem with (∅ : gset bytes) by set_solver.
      apply set_Forall_empty.
    - destruct Hp as [-> Hst]. split_and!; [done| | |by apply Hlt|done|done].
      + assert (good_state (full_state top)) as Hgt.
        { eapply Stack_good; [exact Hst|]. apply (f_equal reverse) in E.
          rewrite reverse_involutive, reverse_cons in E. by rewrite E, last_snoc. }
        intros x Hx. apply Hgt. set_solver.
      + rewrite <-E. by rewrite reverse_involutive. }
  destruct (save_from_stack_spec d s (reverse layers) new rem sib) as (v & Hsv & Hst);
    [unfold is_short, is_u64 in *; lia|done|done|].
  exists v. destruct (CompPre_save d n s v _ HI Hs Hf Hst) as [HI' Hsub]. done.
Qed.

(** ** Saving a room's state *)

Section save_state.
Context {LR : LruCache} {HO : HashOrder} (sha256 : bytes → bytes).
Hypothesis sha256_inj : ∀ a b, sha256 a = sha256 b → a = b.

Lemma join_ff_inj l1 l2 :
  Forall compressed l1 → Forall compressed l2 → join_ff l1 = join_ff l2 → l1 = l2.
Proof.
  assert (∀ x l, compressed x → ∃ tl, join_ff (x :: l) = x ++ tl ∧
    tl = match l with [] => [] | _ => ff :: join_ff l end) as Hj.
  { intros x [|y l] _; eexists; split; try done. simpl. by rewrite app_nil_r. }
  intros H1. revert l2. induction H1 as [|x l1 Hx H1 IH]; intros l2 H2 E; destruct H2 as [|y l2 Hy H2].
  - done.
  - exfalso. destruct (Hj y l2 Hy) as (tl & Et & _). rewrite Et in E. destruct Hy as [Hy _].
    apply (f_equal length) in E. rewrite length_app in E. simpl in E. lia.
  - exfalso. destruct (Hj x l1 Hx) as (tl & Et & _). rewrite Et in E. destruct Hx as [Hx _].
    apply (f_equal length) in E. rewrite length_app in E. simpl in E. lia.
  - destruct (Hj x l1 Hx) as (t1 & E1 & Ht1), (Hj y l2 Hy) as (t2 & E2 & Ht2).
    rewrite E1, E2 in E. destruct Hx as [Hx _], Hy as [Hy _].
    apply app_inj_1 in E as [-> Et]; [|congruence]. f_equal. rewrite Ht1, Ht2 in Et.
    destruct l1 as [|a l1], l2 as [|b l2]; try done. apply IH; [done|]. by injection Et.
Qed.

Lemma hash_determines_state d n h b new :
  good_state new → hash_ok sha256 d n h b → h = calculate_hash sha256 (hash_iter new) →
  ∃ s, b = to_be_bytes s ∧ 1 ≤ s ≤ n ∧ state_of d s new.
Proof.
  intros Hg (s & st & l & -> & Hs & Hst & Hl & ->) E%sha256_inj.
  assert (good_state st) as Hgs.
  { destruct Hst as (ls & top & H1 & H2 & <-). by eapply Stack_good. }
  apply join_ff_inj in E; [| |by apply hash_iter_Forall].
  - exists s. split_and!; [done|lia|lia|]. replace new with st; [done|].
    rewrite <-(hash_iter_set new), <-E. apply set_eq. intros x.
    by rewrite elem_of_list_to_set, Hl, elem_of_elements.
  - rewrite Hl. apply Forall_forall. intros x Hx. by apply Hgs, elem_of_elements.
Qed.

(** The short state hash of a state: an existing one names this state, a fresh
    one is not stored yet. *)
Lemma shortstatehash_obtain d n new :
  CompInv sha256 d n → n < u64_max → good_state new →
  let h := calculate_hash sha256 (hash_iter new) in
  ∃ s b d1 n1, get_or_create_shortstatehash h d = (Ok (s, b), d1) ∧ n ≤ n1 ≤ n + 1 ∧ 1 ≤ s ≤ n1 ∧
    CompPre d1 n1 ∧ short_frame d d1 ∧
    kv d1 shortstatehash_statediff = kv d shortstatehash_statediff ∧
    if b : bool then CompInv sha256 d1 n1 ∧ state_of d1 s new
    else n < s ∧ kv d1 shortstatehash_statediff !! to_be_bytes s = None ∧
      (∀ d2, kv d1 shortstatehash_statediff ⊆ kv d2 shortstatehash_statediff →
        kv d2 statehash_shortstatehash = kv d1 statehash_shortstatehash →
        CompPre d2 n1 → state_of d2 s new → CompInv sha256 d2 n1).
Proof.
  intros [HI Hh] Hn Hg h.
  destruct (get_or_create_shortstatehash_spec d n h (ci_short _ _ HI) Hn)
    as (s & b & d1 & n1 & Hget & Hs & Hk & Hb & Ht & Hfalse & Hstep).
  pose proof (CompPre_short _ _ _ _ HI Hstep) as HI1. destruct Hstep as (HS1 & Hn1 & Hx & Hf).
  assert (kv d1 shortstatehash_statediff = kv d shortstatehash_statediff) as Ed
    by (apply Hf; set_solver).
  pose proof (CompPre_u64 _ _ HI1) as Hu1.
  exists s, b, d1, n1. split_and!; try done; try lia. destruct b.
  - rewrite (Ht eq_refl) in *. assert (n1 = n) as ->.
    { eapply count_is_fun; [apply (si_count _ _ HS1)|apply (si_count _ _ (ci_short _ _ HI))]. }
    split; [done|].
    destruct (hash_determines_state d n h (to_be_bytes s) new Hg (Hh _ _ Hk) eq_refl) as (s' & E & Hs' & ?).
    apply to_be_bytes_inj in E as ->; [done|unfold is_u64 in *; lia..].
  - destruct (Hfalse eq_refl) as [-> Hk1]. assert (n1 = n + 1) as -> by lia.
    split_and!; [lia| |].
    + rewrite Ed. apply (CompPre_fresh d n); [done|done|lia].
    + intros d2 Hsub E2 HI2 Hst. split; [done|]. intros h' b'. rewrite E2, Hk1, lookup_insert.
      case_decide as Hhh.
      * intros [= <-]. subst h'. exists (n + 1), new, (hash_iter new).
        split_and!; [done|lia|lia|done|apply hash_iter_perm|done].
      * intros Hb'. eapply hash_ok_mono; [|by apply Z.lt_le_incl, Z.lt_succ_diag_r|by apply Hh].
        by rewrite <-Ed.
Qed.

Lemma room_state_prev d n room P o :
  CompPre d n → room_state d room P → get_room_shortstatehash room d = (Ok o, d) →
  match o with
    | None => kv d roomid_shortstatehash !! room = None
    | Some s => kv d roomid_shortstatehash !! room = Some (to_be_bytes s) ∧ 1 ≤ s ≤ n ∧ ∃ st, state_of d s st
    end → prev_state d o P.
Proof.
  intros HI HP _ Ho. unfold room_state in HP. pose proof (CompPre_u64 _ _ HI) as Hu.
  destruct o as [p|]; simpl.
  - destruct Ho as (Hk & Hp & _). rewrite Hk in HP. destruct HP as (s & Es & Hst).
    assert (s = p) as ->; [|done].
    apply to_be_bytes_inj; [|unfold is_u64 in *; lia|done].
    destruct Hst as (ls & top & Hst & _). by eapply is_short_u64, Stack_short.
  - by rewrite Ho in HP.
Qed.

Lemma save_state_spec d n room new P :
  CompInv sha256 d n → n < u64_max → good_state new → room_state d room P →
  ∃ s d' n', save_state sha256 room new d = (Ok (s, new ∖ P, P ∖ new), d') ∧
    CompInv sha256 d' n' ∧ n ≤ n' ≤ n + 1 ∧ 1 ≤ s ≤ n' ∧ state_of d' s new ∧
    kv d shortstatehash_statediff ⊆ kv d' shortstatehash_statediff ∧
    kv d' roomid_shortstatehash = kv d roomid_shortstatehash.
Proof.
  intros HI Hn Hg HP. unfold save_state.
  destruct (get_room_shortstatehash_spec d n room (proj1 HI)) as (o & Hget & Ho).
  pose proof (room_state_prev _ _ _ _ _ (proj1 HI) HP Hget Ho) as Hprev.
  rewrite (bind_ok _ _ _ _ _ Hget). cbv zeta.
  destruct (shortstatehash_obtain d n new HI Hn Hg)
    as (s & b & d1 & n1 & Hobt & Hn1 & Hs & HI1 & Hf & Ed & Hb).
  rewrite (bind_ok _ _ _ _ _ Hobt).
  assert (kv d1 roomid_shortstatehash = kv d roomid_shortstatehash) as Er by (apply Hf; set_solver).
  assert (kv d shortstatehash_statediff ⊆ kv d1 shortstatehash_statediff) as Hsub1 by by rewrite Ed.
  assert (prev_state d1 o P) as Hprev1.
  { destruct o; [|done]. by eapply state_of_mono. }
  case_bool_decide as Heq.
  { subst o. simpl in Hprev1. assert (state_of d1 s new ∧ CompInv sha256 d1 n1) as [Hst HI1'].
    { destruct b; [naive_solver|]. exfalso. destruct Hb as (Hlt & _). simpl in Ho. lia. }
    pose proof (state_of_fun _ _ _ _ Hst Hprev1) as ->.
    eexists s, d1, n1. rewrite difference_diag_L. split_and!; try done; lia. }
  destruct (states_parents_spec d1 o P (ci_cache _ _ HI1) Hprev1) as (layers & c & Hpar & Hc & Hpok & HPl).
  rewrite (bind_ok _ _ _ _ _ Hpar), diff_to_parents_spec, HPl.
  pose proof (CompPre_stateinfo d1 n1 c HI1 Hc) as HI2.
  destruct b.
  - destruct Hb as [[_ Hh1] Hst1]. exists s, (set_stateinfo_cache c d1), n1.
    assert (kv d1 shortstatehash_statediff ⊆ kv (set_stateinfo_cache c d1) shortstatehash_statediff)
      as Hsub2 by done.
    split_and!; try done; try lia; [|by eapply state_of_mono].
    split; [done|]. intros h b Hhb. eapply hash_ok_mono; [exact Hsub2|done|by apply Hh1].
  - destruct Hb as (Hlt & Hfresh & Hclose).
    destruct (save_state_from_diff_spec (set_stateinfo_cache c d1) n1 s o P layers
      (new ∖ P) (P ∖ new) 2 HI2 Hs Hfresh Hpok HPl) as (v & Hsave & HI3 & Hst3 & Hsub3).
    + intros p ->. destruct Ho as (_ & ? & _). lia.
    + intros x Hx. apply Hg. set_solver.
    + set_solver.
    + set_solver.
    + rewrite (bind_ok _ _ _ _ _ Hsave). eexists s, _, n1.
      replace ((P ∪ new ∖ P) ∖ (P ∖ new)) with new in Hst3.
      2:{ apply set_eq. intros x. set_unfold. destruct (decide (x ∈ P)), (decide (x ∈ new)); tauto. }
      split_and!; [done| |lia|lia|lia|lia|done| |].
      * apply Hclose; [by etrans| |done|done]. by kv_simpl.
      * etrans; [exact Hsub1|done].
      * kv_simpl. done.
Qed.
End save_state.

(** Steps of other components keep the whole invariant. *)
Lemma CompInv_step sha256 d n d' n' :
  CompInv sha256 d n → short_step d n d' n' →
  kv d' statehash_shortstatehash = kv d statehash_shortstatehash → CompInv sha256 d' n'.
Proof.
  intros [HI Hh] Hstep E. split; [by eapply CompPre_short|]. destruct Hstep as (_ & Hn & _ & Hf & _).
  intros h b. rewrite E. intros Hhb. eapply hash_ok_mono; [|apply Hn|by apply Hh].
  rewrite Hf; [done|set_solver].
Qed.

(** Writing a tree of another component. *)
Lemma CompInv_upd sha256 d n t f :
  t ∉ [global; eventid_shorteventid; shorteventid_eventid; statekey_shortstatekey;
       shortstatekey_statekey; statehash_shortstatehash; roomid_shortroomid;
       shortstatehash_statediff; roomid_shortstatehash] →
  CompInv sha256 d n → CompInv sha256 (upd t f d) n.
Proof.
  intros Ht [HI Hh]. assert (∀ t', t' ∈ [statehash_shortstatehash; shortstatehash_statediff;
    roomid_shortstatehash] → kv (upd t f d) t' = kv d t') as E.
  { intros t' Ht'. apply kv_upd_ne. intros ->. apply Ht. set_solver. }
  split.
  - apply (CompPre_ext d _ n); [done|apply ShortInv_upd; [set_solver|apply HI]|lia|
      apply E; in_list..|]. eapply cache_ok_eq; [apply HI|apply E; in_list|done].
  - intros h b. rewrite E by in_list. intros Hhb. eapply hash_ok_mono; [|done|by apply Hh].
    rewrite E; [done|in_list].
Qed.

(** * Claims *)

(** What a load returns: at most four layers, the top one carrying the state. *)
Definition loads `{LR : LruCache} (d : Db) (s : Z) (st : gset bytes) : Prop :=
  ∃ layers top, (load_shortstatehash_info s d).1 = Ok layers ∧ last layers = Some top ∧
    sstatehash top = s ∧ full_state top = st ∧ (length layers ≤ 4)%nat.

Lemma state_of_loads `{LR : LruCache} d s st : cache_ok d → state_of d s st → loads d s st.
Proof.
  intros Hc (ls & top & Hs & Ht & <-).
  destruct (load_shortstatehash_info_spec d s ls Hc Hs) as (c & Hl & _).
  destruct (Stack_top _ _ _ Hs) as (top' & Ht' & Hh). simplify_eq.
  exists ls, top. rewrite Hl. split_and!; [done..|]. apply Stack_length in Hs. lia.
Qed.

(** A state diff that was written is read back: parent, added and removed
    entries, whatever order the two hash sets are iterated in, as long as the
    entries are 16 bytes with a nonzero short state key and the parent is a
    handed-out count. *)
Theorem statediff_roundtrip (HO : HashOrder) s diff d :
  good_state (added diff) → good_state (removed diff) →
  (∀ p, parent diff = Some p → is_short p) →
  let d' := (save_statediff s diff d).2 in
  get_statediff s d' = (Ok diff, d').
Proof.
  intros Ha Hr Hp. destruct diff as [p a r]. cbn [parent added removed] in *. cbv zeta.
  destruct (save_statediff_spec d s p a r Ha Hr Hp) as (v & -> & Hdec). cbn [snd].
  unfold get_statediff, get, kv_get. run. kv_simpl. rewrite lookup_insert_eq. cbn [ok_or].
  by rewrite Hdec.
Qed.

(** C5: [save_state] stores the new state of a room.  Whatever layers of diffs
    it merges, the short state hash it returns loads as exactly the new state,
    in at most four layers; the returned diffs are the differences to the
    room's previous state; every state stored before still loads as it did;
    and the invariant is kept.  [sha256] is assumed free of collisions. *)
Theorem save_state_correct (LR : LruCache) (HO : HashOrder) (sha256 : bytes → bytes) d n room new P :
  (∀ a b, sha256 a = sha256 b → a = b) →
  CompInv sha256 d n → n < u64_max → good_state new → room_state d room P →
  ∃ s d' n', save_state sha256 room new d = (Ok (s, new ∖ P, P ∖ new), d') ∧
    CompInv sha256 d' n' ∧ n ≤ n' ≤ n + 1 ∧ loads d' s new ∧
    ∀ s' st', state_of d s' st' → loads d' s' st'.
Proof.
  intros Hinj HI Hn Hg HP.
  destruct (save_state_spec sha256 Hinj d n room new P HI Hn Hg HP)
    as (s & d' & n' & Hsave & HI' & Hn' & Hs & Hst & Hsub & _).
  exists s, d', n'. pose proof (ci_cache _ _ (proj1 HI')) as Hc.
  split_and!; [done|done|lia|lia|by apply state_of_loads|].
  intros s' st' Hst'. apply state_of_loads; [done|by eapply state_of_mono].
Qed.

Lemma save_state_correct_witness :
  ∃ s d' n', save_state (LR := lru_unbounded) (HO := elements_order) (λ b, b) (lit "!r")
      {[to_be_bytes 1 ++ to_be_bytes 2]} empty_db =
      (Ok (s, {[to_be_bytes 1 ++ to_be_bytes 2]} ∖ ∅, ∅ ∖ {[to_be_bytes 1 ++ to_be_bytes 2]}), d') ∧
    CompInv (λ b, b) d' n' ∧ 0 ≤ n' ≤ 0 + 1 ∧
    loads (LR := lru_unbounded) d' s {[to_be_bytes 1 ++ to_be_bytes 2]} ∧
    ∀ s' st', state_of empty_db s' st' → loads (LR := lru_unbounded) d' s' st'.
Proof.
  apply (save_state_correct lru_unbounded elements_order (λ b, b) empty_db 0).
  - done.
  - apply empty_db_comp.
  - done.
  - intros x ->%elem_of_singleton. apply compressed_entry; [by split|done].
  - done.
Defined.
