(* ===== verification/RoomState.v ===== *)
(** * RoomState: the current state of a room

    [server/src/database/key_value/rooms/state.rs],
    [server/src/service/rooms/state/mod.rs] (attaching a state to an event,
    appending a state event) and the id-level lookups of
    [server/src/database/key_value/rooms/state_accessor.rs].  The room mutex
    guards these functions take are not modelled: each runs alone on its
    room. *)
From S2P Require Import Prelude Bytes KvTree Pdu Database Short StateCompressor.

Section room_state.
Context {RU : Ruma} {LR : LruCache} {HO : HashOrder} (sha256 : bytes → bytes).

(** ** The trees (key_value/rooms/state.rs) *)

Definition set_room_state (room_id : bytes) (new_shortstatehash : Z) : M Db unit :=
  insert roomid_shortstatehash room_id (to_be_bytes new_shortstatehash).

Definition db_set_event_state (shorteventid shortstatehash : Z) : M Db unit :=
  insert shorteventid_shortstatehash (to_be_bytes shorteventid) (to_be_bytes shortstatehash).

Definition get_forward_extremities (room_id : bytes) : M Db (gset bytes) :=
  gets (λ d, list_to_set <$> collect ((λ e, parse_id event_id_ok
    "EventID in roomid_pduleaves is invalid unicode." "EventId in roomid_pduleaves is invalid." e.2)
    <$> kv_scan_prefix (kv d roomid_pduleaves) (room_id ++ [ff]))).

Definition set_forward_extremities (room_id : bytes) (event_ids : list bytes) : M Db unit :=
  let prefix := room_id ++ [ff] in
  remove_prefix roomid_pduleaves prefix;;
  for_each event_ids (λ event_id, insert roomid_pduleaves (prefix ++ event_id) event_id).

(** ** The service (service/rooms/state/mod.rs) *)

(** Generates a new StateHash and associates it with the incoming event. *)
Definition set_event_state (event_id room_id : bytes) (state_ids_compressed : gset bytes) : M Db Z :=
  shorteventid ← get_or_create_shorteventid event_id;
  previous_shortstatehash ← get_room_shortstatehash room_id;
  let state_hash := calculate_hash sha256 (hash_iter state_ids_compressed) in
  '(shortstatehash, already_existed) ← get_or_create_shortstatehash state_hash;
  (if already_existed : bool then mret tt
   else
     layers ← states_parents previous_shortstatehash;
     let '(statediffnew, statediffremoved) := diff_to_parents layers state_ids_compressed in
     save_state_from_diff shortstatehash statediffnew statediffremoved 1000000 layers);;
  db_set_event_state shorteventid shortstatehash;;
  mret shortstatehash.

(** The entry of a state that starts with a short state key. *)
Definition find_statekey (shortstatekey : Z) (state : gset bytes) : option bytes :=
  find (starts_with (to_be_bytes shortstatekey)) (hash_iter state).

(** Associates the previous state with the incoming event and, for a state
    event, creates the state with the event in it. *)
Definition append_to_state (new_pdu : PduEvent) : M Db Z :=
  shorteventid ← get_or_create_shorteventid (pdu_event_id new_pdu);
  room ← lift (room_id new_pdu);
  previous_shortstatehash ← get_room_shortstatehash room;
  match previous_shortstatehash with
  | Some p => db_set_event_state shorteventid p
  | None => mret tt
  end;;
  match pdu_state_key new_pdu with
  | Some state_key =>
      layers ← states_parents previous_shortstatehash;
      shortstatekey ← get_or_create_shortstatekey (pdu_kind new_pdu) state_key;
      new ← compress_state_event shortstatekey (pdu_event_id new_pdu);
      let replaces := match last layers with
                      | Some info => find_statekey shortstatekey (full_state info)
                      | None => None
                      end in
      if bool_decide (Some new = replaces)
      then lift (expect previous_shortstatehash)
      else
        shortstatehash ← next_count;
        save_state_from_diff shortstatehash {[new]}
          (match replaces with Some r => {[r]} | None => ∅ end) 2 layers;;
        mret shortstatehash
  | None => lift (expect previous_shortstatehash)
  end.

(** ** Lookups (key_value/rooms/state_accessor.rs) *)

(** The full state of a short state hash: the last layer. *)
Definition load_full_state (shortstatehash : Z) : M Db (gset bytes) :=
  layers ← load_shortstatehash_info shortstatehash;
  info ← lift (expect (last layers));
  mret (full_state info).

Definition state_full_ids (shortstatehash : Z) : M Db (gmap Z bytes) :=
  full_state ← load_full_state shortstatehash;
  foldM (λ result compressed,
    '(k, id) ← parse_compressed_state_event compressed;
    mret (<[k := id]> result)) ∅ (hash_iter full_state).

(** Returns the event id of the state event with key ([event_type],
    [state_key]). *)
Definition state_get_id (shortstatehash : Z) (event_type state_key : bytes) : M Db (option bytes) :=
  o ← get_shortstatekey event_type state_key;
  match o with
  | None => mret None
  | Some shortstatekey =>
      full_state ← load_full_state shortstatehash;
      match find_statekey shortstatekey full_state with
      | None => mret None
      | Some compressed =>
          r ← try_ok (parse_compressed_state_event compressed);
          mret (snd <$> r)
      end
  end.

(** Returns the state hash for this pdu. *)
Definition pdu_shortstatehash (event_id : bytes) : M Db (option Z) :=
  o ← get eventid_shorteventid event_id;
  match o with
  | None => mret None
  | Some shorteventid =>
      o' ← get shorteventid_shortstatehash shorteventid;
      lift (map_transpose (λ bs, ok_or (u64_from_bytes bs)
        (BadDatabase "Invalid shortstatehash bytes in shorteventid_shortstatehash")) o')
  end.

Definition room_state_get_id (room_id event_type state_key : bytes) : M Db (option bytes) :=
  o ← get_room_shortstatehash room_id;
  match o with
  | Some current_shortstatehash => state_get_id current_shortstatehash event_type state_key
  | None => mret None
  end.
End room_state.

(** * Lemmas *)

(** ** Forward extremities *)

(** The leaves of a room after they were set. *)
Lemma set_forward_extremities_spec room ids d :
  let prefix := room ++ [ff] in
  ∃ d', set_forward_extremities room ids d = (Ok tt, d') ∧
    only roomid_pduleaves (kv d' roomid_pduleaves) d d' ∧
    (∀ id, id ∈ ids → kv d' roomid_pduleaves !! (prefix ++ id) = Some id) ∧
    (∀ k v, starts_with prefix k = true → kv d' roomid_pduleaves !! k = Some v → v ∈ ids ∧ k = prefix ++ v) ∧
    (∀ k, starts_with prefix k = false → kv d' roomid_pduleaves !! k = kv d roomid_pduleaves !! k).
Proof.
  intros prefix. unfold set_forward_extremities, insert. fold prefix. cbv zeta.
  set (d1 := upd roomid_pduleaves (λ tr, kv_remove_all tr (kv_scan_prefix tr prefix)) d).
  rewrite (bind_ok _ _ d tt d1) by done.
  destruct (for_each_upd roomid_pduleaves (λ id tr, kv_insert tr (prefix ++ id) id) ids d1)
    as (d' & -> & Ho).
  exists d'. split; [done|]. destruct (Ho) as (E & _ & _).
  pose proof (λ k, lookup_fold_insert (λ id, prefix ++ id) (λ id, id) ids (kv d1 roomid_pduleaves) k
    ltac:(intros x y _ _ Hxy; by apply app_inv_head in Hxy)) as Hl. cbn beta in Hl.
  assert (∀ k, kv d1 roomid_pduleaves !! k =
    if starts_with prefix k then None else kv d roomid_pduleaves !! k) as H1.
  { intros k. unfold d1. kv_simpl. apply lookup_remove_prefix. }
  split_and!.
  - eapply only_trans; [apply only_upd|]. by rewrite E.
  - intros id Hid. rewrite E. by apply Hl.
  - intros k v Hk Hv. rewrite E in Hv. destruct (decide (k ∈ (λ id, prefix ++ id) <$> ids)) as [Hin|Hni].
    + apply list_elem_of_fmap in Hin as (id & -> & Hid).
      rewrite (proj1 (Hl _) id Hid eq_refl) in Hv. by injection Hv as <-.
    + rewrite (proj2 (Hl _) Hni), H1, Hk in Hv. done.
  - intros k Hk. rewrite E, (proj2 (Hl k)); [by rewrite H1, Hk|].
    intros (id & -> & _)%list_elem_of_fmap. by rewrite starts_with_app in Hk.
Qed.

(** ** States with one entry per key *)

Definition keyed (st : gset bytes) : Prop :=
  ∀ x y, x ∈ st → y ∈ st → take 8 x = take 8 y → x = y.

Lemma starts_with_take p x : starts_with p x = true ↔ take (length p) x = p.
Proof.
  rewrite starts_with_spec. split.
  - intros [r ->]. by rewrite take_app_length.
  - intros E. exists (drop (length p) x). rewrite <-E at 1. by rewrite take_drop.
Qed.

Lemma find_statekey_None `{HO : HashOrder} k st :
  find_statekey k st = None ↔ ∀ x, x ∈ st → take 8 x ≠ to_be_bytes k.
Proof.
  unfold find_statekey. rewrite find_None. setoid_rewrite hash_iter_perm.
  setoid_rewrite elem_of_elements. setoid_rewrite <-not_true_iff_false.
  setoid_rewrite starts_with_take. by rewrite length_to_be_bytes.
Qed.

Lemma find_statekey_Some `{HO : HashOrder} k st x :
  find_statekey k st = Some x → x ∈ st ∧ take 8 x = to_be_bytes k.
Proof.
  intros [H1 H2]%find_Some. rewrite hash_iter_perm, elem_of_elements in H2.
  apply starts_with_take in H1. by rewrite length_to_be_bytes in H1.
Qed.

Lemma find_statekey_keyed `{HO : HashOrder} k st x :
  keyed st → x ∈ st → take 8 x = to_be_bytes k → find_statekey k st = Some x.
Proof.
  intros Hk Hx Ht. destruct (find_statekey k st) as [y|] eqn:E.
  - apply find_statekey_Some in E as [Hy Hty]. f_equal. apply Hk; congruence.
  - rewrite find_statekey_None in E. by destruct (E x).
Qed.

(** The state with the entry of one key replaced. *)
Definition put_entry (k : Z) (x : bytes) (st : gset bytes) : gset bytes :=
  {[x]} ∪ filter (λ y, take 8 y ≠ to_be_bytes k) st.

Lemma put_entry_keyed k x st : take 8 x = to_be_bytes k → keyed st → keyed (put_entry k x st).
Proof.
  intros Hx Hst y z. unfold put_entry. set_unfold. intros [->|[Hy1 Hy2]] [->|[Hz1 Hz2]] E; try done.
  - congruence.
  - congruence.
  - by apply Hst.
Qed.

Lemma put_entry_good k x st : compressed x → good_state st → good_state (put_entry k x st).
Proof. intros Hx Hst y. unfold put_entry. set_unfold. intros [->|[_ Hy]]; [done|by apply Hst]. Qed.

Lemma put_entry_diff `{HO : HashOrder} k x st :
  keyed st → take 8 x = to_be_bytes k → Some x ≠ find_statekey k st →
  let rem := match find_statekey k st with Some r => {[r]} | None => ∅ end in
  {[x]} ## st ∧ rem ⊆ st ∧ (st ∪ {[x]}) ∖ rem = put_entry k x st.
Proof.
  intros Hk Hx Hne rem. assert (x ∉ st) as Hni.
  { intros Hin. by rewrite (find_statekey_keyed k st x) in Hne. }
  unfold rem, put_entry. destruct (find_statekey k st) as [r|] eqn:E.
  - apply find_statekey_Some in E as [Hr Htr]. split_and!; [set_solver..|].
    apply set_eq. intros y. set_unfold. split.
    + intros [[Hy| ->] Hyr]; [|by left]. right. split; [|done]. intros Hty. apply Hyr, Hk; congruence.
    + intros [->|[Hty Hy]]; [split; [by right|congruence]|]. split; [by left|congruence].
  - rewrite find_statekey_None in E. split_and!; [set_solver..|].
    apply set_eq. intros y. set_unfold. naive_solver.
Qed.

Lemma put_entry_same k x st :
  keyed st → x ∈ st → take 8 x = to_be_bytes k → put_entry k x st = st.
Proof.
  intros Hk Hx Ht. unfold put_entry. apply set_eq. intros y. set_unfold. split; [naive_solver|].
  intros Hy. destruct (decide (take 8 y = to_be_bytes k)); [|by right]. left. apply Hk; congruence.
Qed.

(** ** Appending a state event *)

(** What every step of these functions keeps: mapped short ids, stored states
    and the rooms' current states. *)
Definition comp_ext (d d' : Db) : Prop :=
  short_ext d d' ∧ kv d shortstatehash_statediff ⊆ kv d' shortstatehash_statediff ∧
  kv d' roomid_shortstatehash = kv d roomid_shortstatehash.

Lemma comp_ext_trans d1 d2 d3 : comp_ext d1 d2 → comp_ext d2 d3 → comp_ext d1 d3.
Proof.
  intros (H1 & H2 & H3) (K1 & K2 & K3). split_and!; [by eapply short_ext_trans|by etrans|congruence].
Qed.

Lemma comp_ext_step d n d' n' : short_step d n d' n' → comp_ext d d'.
Proof.
  intros (_ & _ & Hx & Hf & _). split_and!; [done| |apply Hf; set_solver].
  rewrite Hf; [done|set_solver].
Qed.

Lemma comp_ext_upd d t f :
  t ∉ [global; eventid_shorteventid; shorteventid_eventid; statekey_shortstatekey;
       shortstatekey_statekey; statehash_shortstatehash; roomid_shortroomid;
       shortstatehash_statediff; roomid_shortstatehash] → comp_ext d (upd t f d).
Proof.
  intros Ht. split_and!.
  - intros t' Ht'. rewrite kv_upd_ne; [done|]. intros ->. apply Ht. set_solver.
  - rewrite kv_upd_ne; [done|]. intros ->. apply Ht. set_solver.
  - rewrite kv_upd_ne; [done|]. intros ->. apply Ht. set_solver.
Qed.

Lemma comp_ext_kv d d' : kv d' = kv d → comp_ext d d'.
Proof. intros E. split_and!; [intros t _|..]; by rewrite E. Qed.

Lemma prev_state_ext d d' o P : comp_ext d d' → prev_state d o P → prev_state d' o P.
Proof. intros (_ & Hs & _) HP. destruct o; [|done]. by eapply state_of_mono. Qed.

Lemma parents_ok_ext d d' o ls : comp_ext d d' → parents_ok d o ls → parents_ok d' o ls.
Proof.
  intros (_ & Hs & _). unfold parents_ok. destruct (reverse ls); [done|].
  intros [? ?]. split; [done|]. by eapply Stack_mono.
Qed.

Section append.
Context {RU : Ruma} {LR : LruCache} {HO : HashOrder} (sha256 : bytes → bytes).

Lemma event_step d n e :
  CompInv sha256 d n → n < u64_max → ∃ s d' n',
    get_or_create_shorteventid e d = (Ok s, d') ∧ 1 ≤ s ≤ n' ∧
    kv d' eventid_shorteventid !! e = Some (to_be_bytes s) ∧
    CompInv sha256 d' n' ∧ n ≤ n' ≤ n + 1 ∧ comp_ext d d'.
Proof.
  intros HI Hn. destruct (get_or_create_shorteventid_spec d n e (ci_short _ _ (proj1 HI)) Hn)
    as (s & d' & n' & Hg & Hs & Hk & Hstep).
  exists s, d', n'.
  split_and!; [done|apply Hs|apply Hs|done| |apply Hstep|apply Hstep|by eapply comp_ext_step].
  - eapply CompInv_step; [done..|]. pose proof (get_or_create_shorteventid_hash e d) as E.
    by rewrite Hg in E.
Qed.

Lemma statekey_step d n t k :
  CompInv sha256 d n → n < u64_max → ∃ s d' n',
    get_or_create_shortstatekey t k d = (Ok s, d') ∧ 1 ≤ s ≤ n' ∧
    kv d' statekey_shortstatekey !! statekey_bytes t k = Some (to_be_bytes s) ∧
    CompInv sha256 d' n' ∧ n ≤ n' ≤ n + 1 ∧ comp_ext d d'.
Proof.
  intros HI Hn. destruct (get_or_create_shortstatekey_spec d n t k (ci_short _ _ (proj1 HI)) Hn)
    as (s & d' & n' & Hg & Hs & Hk & Hstep).
  exists s, d', n'.
  split_and!; [done|apply Hs|apply Hs|done| |apply Hstep|apply Hstep|by eapply comp_ext_step].
  - eapply CompInv_step; [done..|]. pose proof (get_or_create_shortstatekey_hash t k d) as E.
    by rewrite Hg in E.
Qed.

Lemma parents_step d n o P :
  CompInv sha256 d n → prev_state d o P → ∃ layers d',
    states_parents o d = (Ok layers, d') ∧ CompInv sha256 d' n ∧ comp_ext d d' ∧
    parents_ok d' o layers ∧ stack_state (reverse layers) = P ∧ kv d' = kv d.
Proof.
  intros [HI Hh] HP. destruct (states_parents_spec d o P (ci_cache _ _ HI) HP)
    as (layers & c & Hp & Hc & Hpok & HPl).
  exists layers, (set_stateinfo_cache c d). split_and!; try done; [split|by apply comp_ext_kv..].
  - by apply CompPre_stateinfo.
  - intros h b Hhb. apply (hash_ok_mono sha256 d _ n); [done|done|by apply Hh].
Qed.

Lemma count_step d n :
  CompInv sha256 d n → n < u64_max → ∃ d',
    next_count d = (Ok (n + 1), d') ∧ CompInv sha256 d' (n + 1) ∧ comp_ext d d' ∧
    kv d' shortstatehash_statediff !! to_be_bytes (n + 1) = None.
Proof.
  intros HI Hn. pose proof (ci_short _ _ (proj1 HI)) as HS.
  exists (set_count (n + 1) d). rewrite (next_count_spec d n) by (done || apply HS).
  assert (is_u64 (n + 1)) by (destruct HS as [[[] _]]; unfold is_u64; lia).
  assert (short_step d n (set_count (n + 1) d) (n + 1)) as Hstep.
  { split_and!; [|lia|lia| |].
    - apply (ShortInv_count d n); [done|lia|done].
    - table_cases; by kv_simpl.
    - split; [|done]. intros t Ht. apply kv_set_count. intros ->. apply Ht. in_list. }
  split_and!; [done| |by eapply comp_ext_step|].
  - eapply CompInv_step; [done..|]. by kv_simpl.
  - kv_simpl. apply (CompPre_fresh d n); [apply HI|done|lia].
Qed.

Lemma save_diff_step d n s o P layers new rem sib :
  CompInv sha256 d n → 1 ≤ s ≤ n → kv d shortstatehash_statediff !! to_be_bytes s = None →
  parents_ok d o layers → stack_state (reverse layers) = P → (∀ p, o = Some p → p < s) →
  good_state new → new ## P → rem ⊆ P →
  ∃ d', save_state_from_diff s new rem sib layers d = (Ok tt, d') ∧
    CompInv sha256 d' n ∧ state_of d' s ((P ∪ new) ∖ rem) ∧ comp_ext d d' ∧
    kv d' eventid_shorteventid = kv d eventid_shorteventid ∧
    kv d' statekey_shortstatekey = kv d statekey_shortstatekey.
Proof.
  intros [HI Hh] Hs Hf Hp HP Hlt Hg Hn Hr.
  destruct (save_state_from_diff_spec d n s o P layers new rem sib HI Hs Hf Hp HP Hlt Hg Hn Hr)
    as (v & Hsave & HI' & Hst & Hsub).
  eexists. split_and!; [done| |done| |done..]; kv_simpl.
  - split; [done|]. intros h b. kv_simpl. intros Hhb. by apply (hash_ok_mono sha256 d _ n), Hh.
  - split_and!; [|done|by kv_simpl]. intros t Ht.
    rewrite kv_upd_ne; [done|]. intros <-. set_solver.
Qed.

(** The lookup of the replaced entry, through the loaded layers. *)
Lemma replaces_spec d o layers P k :
  parents_ok d o layers → stack_state (reverse layers) = P →
  match last layers with Some info => find_statekey k (full_state info) | None => None end =
  find_statekey k P.
Proof.
  intros _ <-. destruct layers as [|l layers _] using rev_ind; simpl.
  - symmetry. apply find_statekey_None. intros x Hx. by apply elem_of_empty in Hx.
  - by rewrite last_snoc, reverse_snoc.
Qed.

Lemma room_state_ext d d' room P :
  comp_ext d d' → room_state d room P → room_state d' room P.
Proof.
  intros (_ & Hs & Hr). unfold room_state. rewrite Hr. destruct (_ !! room); [|done].
  intros (s & ? & ?). exists s. split; [done|]. by eapply state_of_mono.
Qed.

(** The attachment of the previous state to the event. *)
Lemma attach_step d n o e :
  CompInv sha256 d n → ∃ d',
    match o with Some p => db_set_event_state e p | None => mret tt end d = (Ok tt, d') ∧
    CompInv sha256 d' n ∧ comp_ext d d' ∧
    match o with
    | Some p => kv d' shorteventid_shortstatehash !! to_be_bytes e = Some (to_be_bytes p)
    | None => True
    end.
Proof.
  intros HI. destruct o as [p|].
  - eexists. split_and!; [done|apply CompInv_upd; [set_solver|done]|apply comp_ext_upd; set_solver|].
    kv_simpl. apply lookup_insert_eq.
  - exists d. split_and!; [done|done|by apply comp_ext_kv|done].
Qed.

(** The state a state event leads to, and the entry it added. *)
Definition appended (d : Db) (pdu : PduEvent) (state_key : bytes) (P : gset bytes) (s : Z) : Prop :=
  ∃ k e, is_short k ∧ is_short e ∧
    kv d statekey_shortstatekey !! statekey_bytes (pdu_kind pdu) state_key = Some (to_be_bytes k) ∧
    kv d eventid_shorteventid !! pdu_event_id pdu = Some (to_be_bytes e) ∧
    state_of d s (put_entry k (to_be_bytes k ++ to_be_bytes e) P).

Lemma compress_step d n k e s :
  CompInv sha256 d n → n < u64_max → is_u64 s →
  kv d eventid_shorteventid !! e = Some (to_be_bytes s) → ∃ d' n',
    compress_state_event k e d = (Ok (to_be_bytes k ++ to_be_bytes s), d') ∧
    CompInv sha256 d' n' ∧ n ≤ n' ≤ n + 1 ∧ comp_ext d d'.
Proof.
  intros HI Hn Hs Hk. destruct (event_step d n e HI Hn) as (s' & d' & n' & Hg & _ & _ & HI' & Hn' & Hx).
  pose proof (get_or_create_shorteventid_known d n e s (ci_short _ _ (proj1 HI)) Hn Hs Hk) as E.
  rewrite Hg in E. injection E as ->. exists d', n'. unfold compress_state_event.
  by rewrite (bind_ok _ _ _ _ _ Hg).
Qed.

Lemma append_to_state_spec d n pdu room state_key P :
  CompInv sha256 d n → n + 4 ≤ u64_max → room_id pdu = Ok room →
  pdu_state_key pdu = Some state_key → room_state d room P → keyed P →
  ∃ s d' n', append_to_state pdu d = (Ok s, d') ∧ CompInv sha256 d' n' ∧ n ≤ n' ≤ n + 4 ∧
    1 ≤ s ≤ n' ∧ comp_ext d d' ∧ appended d' pdu state_key P s.
Proof.
  intros HI Hn Hroom Hsk HP Hkey. unfold append_to_state. rewrite Hroom, Hsk.
  destruct (event_step d n (pdu_event_id pdu) HI ltac:(lia))
    as (e & d1 & n1 & H1 & He & Hke & HI1 & Hn1 & Hx1).
  rewrite (bind_ok _ _ _ _ _ H1), (bind_ok _ _ _ room d1) by done.
  destruct (get_room_shortstatehash_spec d1 n1 room (proj1 HI1)) as (o & H2 & Ho).
  rewrite (bind_ok _ _ _ _ _ H2).
  pose proof (room_state_prev _ _ _ _ _ (proj1 HI1) (room_state_ext _ _ _ _ Hx1 HP) H2 Ho) as Hprev1.
  destruct (attach_step d1 n1 o e HI1) as (d2 & H3 & HI2 & Hx2 & _). rewrite (bind_ok _ _ _ _ _ H3).
  destruct (parents_step d2 n1 o P HI2 (prev_state_ext _ _ _ _ Hx2 Hprev1))
    as (layers & d3 & H4 & HI3 & Hx3 & Hpok3 & HPl & _). rewrite (bind_ok _ _ _ _ _ H4).
  destruct (statekey_step d3 n1 (pdu_kind pdu) state_key HI3 ltac:(lia))
    as (k & d4 & n4 & H5 & Hk & Hkk & HI4 & Hn4 & Hx4). rewrite (bind_ok _ _ _ _ _ H5).
  assert (comp_ext d1 d4) as Hx14 by eauto using comp_ext_trans.
  assert (is_u64 n4) as Hu4 by (by eapply CompPre_u64, HI4).
  destruct (compress_step d4 n4 k (pdu_event_id pdu) e HI4 ltac:(lia)) as (d5 & n5 & H6 & HI5 & Hn5 & Hx5).
  { unfold is_u64 in *. lia. }
  { eapply lookup_weaken; [exact Hke|]. apply Hx14. in_list. }
  rewrite (bind_ok _ _ _ _ _ H6), (replaces_spec d3 o layers P k Hpok3 HPl). cbv zeta.
  assert (comp_ext d1 d5) as Hx15 by eauto using comp_ext_trans.
  assert (parents_ok d5 o layers) as Hpok5 by eauto using parents_ok_ext.
  assert (is_u64 n5) as Hu5 by (by eapply CompPre_u64, HI5).
  set (new := to_be_bytes k ++ to_be_bytes e).
  assert (take 8 new = to_be_bytes k) as Htn.
  { unfold new. by rewrite take_app_length' by (by rewrite length_to_be_bytes). }
  assert (is_short k ∧ is_short e) as [Hsk' Hse] by (unfold is_short, is_u64 in *; lia).
  assert (∀ d' s, comp_ext d5 d' → state_of d' s (put_entry k new P) → appended d' pdu state_key P s) as Happ.
  { intros d' s Hx Hst. exists k, e. do 2 (split; [done|]). split; [|split; [|done]].
    - eapply lookup_weaken; [exact Hkk|]. assert (comp_ext d4 d') as (Hs & _) by eauto using comp_ext_trans.
      apply Hs. in_list.
    - eapply lookup_weaken; [exact Hke|]. assert (comp_ext d1 d') as (Hs & _) by eauto using comp_ext_trans.
      apply Hs. in_list. }
  case_bool_decide as Heq.
  - symmetry in Heq. apply find_statekey_Some in Heq as [Hin _].
    destruct o as [p|]; [|simpl in Hprev1; subst P; by apply elem_of_empty in Hin].
    exists p, d5, n5. destruct Ho as (_ & Hp & _).
    split_and!; [done|done|lia|lia|lia|lia|by eapply comp_ext_trans|].
    apply Happ; [by apply comp_ext_kv|]. rewrite put_entry_same by done.
    eapply (prev_state_ext _ _ (Some p)); [exact Hx15|done].
  - destruct (count_step d5 n5 HI5 ltac:(lia)) as (d6 & H7 & HI6 & Hx6 & Hfresh). rewrite (bind_ok _ _ _ _ _ H7).
    destruct (put_entry_diff k new P Hkey Htn Heq) as (Hd1 & Hd2 & Hd3).
    match type of Hd2 with ?rem ⊆ _ => set (replaced := rem) in * end.
    destruct (save_diff_step d6 (n5 + 1) (n5 + 1) o P layers {[new]} replaced 2 HI6 ltac:(unfold is_u64 in *; lia))
      as (d7 & H8 & HI7 & Hst & Hx7 & _);
      [exact Hfresh|by eapply parents_ok_ext|done| | |exact Hd1|exact Hd2|].
    + intros p ->. destruct Ho as (_ & ? & _). lia.
    + intros x ->%elem_of_singleton. by apply compressed_entry; unfold is_short, is_u64 in *; lia.
    + rewrite (bind_ok _ _ _ _ _ H8). exists (n5 + 1), d7, (n5 + 1). rewrite Hd3 in Hst.
      split_and!; try done; try lia; eauto 10 using comp_ext_trans.
Qed.
End append.

(** ** Lookups *)

(** State [s] has event [id] under the key ([t], [k]). *)
Definition has_entry (d : Db) (st : gset bytes) (t k id : bytes) : Prop :=
  ∃ sk se, is_short sk ∧ is_short se ∧
    kv d statekey_shortstatekey !! statekey_bytes t k = Some (to_be_bytes sk) ∧
    kv d eventid_shorteventid !! id = Some (to_be_bytes se) ∧
    to_be_bytes sk ++ to_be_bytes se ∈ st.

Section lookup.
Context {RU : Ruma} {LR : LruCache} {HO : HashOrder} (sha256 : bytes → bytes).

Lemma load_full_state_spec d n s st :
  CompInv sha256 d n → state_of d s st → ∃ d',
    load_full_state s d = (Ok st, d') ∧ CompInv sha256 d' n ∧ kv d' = kv d.
Proof.
  intros HI Hst. destruct (parents_step sha256 d n (Some s) st HI Hst)
    as (layers & d' & Hl & HI' & _ & Hpok & HP & Hkv).
  exists d'. unfold load_full_state. simpl in Hl. rewrite (bind_ok _ _ _ _ _ Hl).
  split_and!; [|done|done]. unfold parents_ok in Hpok.
  destruct layers as [|l layers _] using rev_ind; [done|]. rewrite last_snoc. run. simpl.
  by rewrite reverse_snoc in HP; simpl in HP; subst.
Qed.

Lemma parse_compressed_spec d n sk se id :
  CompInv sha256 d n → is_short sk → is_short se → utf8_valid id = true → event_id_ok id = true →
  kv d eventid_shorteventid !! id = Some (to_be_bytes se) → ∃ d',
    parse_compressed_state_event (to_be_bytes sk ++ to_be_bytes se) d = (Ok (sk, id), d') ∧
    CompInv sha256 d' n ∧ kv d' = kv d.
Proof.
  intros HI Hsk Hse Hu Hi Hk. unfold parse_compressed_state_event.
  rewrite take_app_length', drop_app_length' by (by rewrite length_to_be_bytes).
  rewrite !u64_from_to_be_bytes by (by apply is_short_u64).
  rewrite (bind_ok _ _ _ sk d), (bind_ok _ _ _ se d) by done.
  destruct (get_eventid_from_short_spec d n se (ci_short _ _ (proj1 HI)) (is_short_u64 _ Hse))
    as (r & d' & Hg & Hkv & Hstep & Hr & _).
  rewrite (Hr id) in Hg; [|destruct (proj1 (si_events _ _ (ci_short _ _ (proj1 HI))) _ _ Hk) as (s0 & E0 & _ & ?); by rewrite E0|done|done].
  exists d'. rewrite (bind_ok _ _ _ _ _ Hg). split_and!; [done| |done].
  eapply CompInv_step; [done..|]. by rewrite Hkv.
Qed.

Lemma state_get_id_spec d n s st t k id :
  CompInv sha256 d n → state_of d s st → keyed st → has_entry d st t k id →
  utf8_valid id = true → event_id_ok id = true →
  (state_get_id s t k d).1 = Ok (Some id).
Proof.
  intros HI Hst Hkey (sk & se & Hsk & Hse & Hk & He & Hin) Hu Hi. unfold state_get_id.
  destruct (get_shortstatekey_spec d n t k (ci_short _ _ (proj1 HI)))
    as (o & d1 & Hg & Ho & Hon & Hkv1 & Hstep).
  assert (o = Some sk) as ->.
  { rewrite Hk in Ho. destruct o as [sk'|]; [|done]. simpl in Ho. apply (inj Some) in Ho. f_equal.
    specialize (Hon _ eq_refl). pose proof (CompPre_u64 _ _ (proj1 HI)).
    apply to_be_bytes_inj; [unfold is_u64 in *; lia|by apply is_short_u64|done]. }
  rewrite (bind_ok _ _ _ _ _ Hg).
  assert (CompInv sha256 d1 n) as HI1 by (eapply CompInv_step; [done..|by rewrite Hkv1]).
  destruct (load_full_state_spec d1 n s st HI1) as (d2 & Hl & HI2 & Hkv2).
  { eapply state_of_mono; [|done]. by rewrite Hkv1. }
  rewrite (bind_ok _ _ _ _ _ Hl), (find_statekey_keyed sk st (to_be_bytes sk ++ to_be_bytes se));
    [|done|done|by rewrite take_app_length' by (by rewrite length_to_be_bytes)].
  destruct (parse_compressed_spec d2 n sk se id HI2 Hsk Hse Hu Hi) as (d3 & Hp & _); [by rewrite Hkv2, Hkv1|].
  unfold try_ok. run. by rewrite Hp.
Qed.

(** The events of a state that a new state event does not replace stay. *)
Lemma has_entry_appended d d' n' pdu sk P s t k id :
  CompInv sha256 d' n' → comp_ext d d' → appended d' pdu sk P s →
  no_ff (pdu_kind pdu) → no_ff t → (t, k) ≠ (pdu_kind pdu, sk) → has_entry d P t k id →
  ∃ st, state_of d' s st ∧ has_entry d' st t k id.
Proof.
  intros HI' Hx (k0 & e0 & Hk0 & He0 & Hkk & Hke & Hst) Hnf Hnf' Hne (k1 & e1 & Hk1 & He1 & Hkk1 & Hke1 & Hin).
  exists (put_entry k0 (to_be_bytes k0 ++ to_be_bytes e0) P). split; [done|].
  pose proof (lookup_weaken _ _ _ _ Hkk1 (proj1 Hx statekey_shortstatekey ltac:(in_list))) as Hkk1'.
  pose proof (lookup_weaken _ _ _ _ Hke1 (proj1 Hx eventid_shorteventid ltac:(in_list))) as Hke1'.
  exists k1, e1. do 4 (split; [done|]). unfold put_entry. apply elem_of_union. right.
  apply elem_of_filter. split; [|done].
  rewrite take_app_length' by (by rewrite length_to_be_bytes). intros E. apply Hne.
  assert (statekey_bytes t k = statekey_bytes (pdu_kind pdu) sk) as Es.
  { eapply (short_maps_inj _ _ n');
      [apply si_statekeys, (proj1 HI')|by eapply CompPre_u64, HI'|exact Hkk1'|exact Hkk|].
    apply to_be_bytes_inj; [by apply is_short_u64..|done]. }
  apply app_ff_inj in Es as [-> ->]; done.
Qed.

Lemma appended_entry d pdu sk P s :
  appended d pdu sk P s → keyed P → ∃ st, state_of d s st ∧ keyed st ∧
    has_entry d st (pdu_kind pdu) sk (pdu_event_id pdu).
Proof.
  intros (k0 & e0 & Hk0 & He0 & Hkk & Hke & Hst) HP. eexists. split; [exact Hst|]. split.
  - apply put_entry_keyed; [|done]. by rewrite take_app_length' by (by rewrite length_to_be_bytes).
  - exists k0, e0. do 4 (split; [done|]). unfold put_entry. set_solver.
Qed.

(** Making a stored state the current one of a room. *)
Lemma set_room_state_spec d n room s st :
  CompInv sha256 d n → 1 ≤ s ≤ n → state_of d s st → ∃ d',
    set_room_state room s d = (Ok tt, d') ∧ CompInv sha256 d' n ∧
    get_room_shortstatehash room d' = (Ok (Some s), d') ∧ state_of d' s st ∧
    (∀ t, t ≠ roomid_shortstatehash → kv d' t = kv d t).
Proof.
  intros [HI Hh] Hs Hst. pose proof (CompPre_u64 _ _ HI) as Hu. eexists. split; [done|].
  match goal with |- context [CompInv _ ?x _] => set (d' := x) end.
  assert (∀ t, t ≠ roomid_shortstatehash → kv d' t = kv d t) as Hf.
  { intros t Ht. unfold d'. by rewrite kv_upd_ne. }
  assert (kv d shortstatehash_statediff ⊆ kv d' shortstatehash_statediff) as Hsub by by rewrite Hf.
  split_and!; [split| | |done].
  - split.
    + apply ShortInv_upd; [set_solver|apply HI].
    + eapply cache_ok_eq; [apply HI|by rewrite Hf|done].
    + intros k v. rewrite Hf by done. intros Hk. destruct (ci_diffs _ _ HI k v Hk) as (s' & st' & ? & ? & ?).
      exists s', st'. split_and!; [done|lia|lia|by eapply state_of_mono].
    + intros r b. unfold d'. kv_simpl. unfold kv_insert. rewrite lookup_insert. case_decide.
      * intros [= <-]. exists s, st. split_and!; [done|lia|lia|by eapply state_of_mono].
      * intros Hk. destruct (ci_rooms _ _ HI r b Hk) as (s' & st' & ? & ? & ?).
        exists s', st'. split_and!; [done|lia|lia|by eapply state_of_mono].
  - intros h b. rewrite Hf by done. intros Hhb. by apply (hash_ok_mono sha256 d _ n), Hh.
  - unfold get_room_shortstatehash, get, kv_get. run. unfold d'. kv_simpl. unfold kv_insert.
    rewrite lookup_insert_eq. cbn [map_transpose]. rewrite u64_from_to_be_bytes; [done|].
    unfold is_u64 in *. lia.
  - by eapply state_of_mono.
Qed.
End lookup.

(** ** Attaching a state to an event *)

Section attach.
Context {RU : Ruma} {LR : LruCache} {HO : HashOrder} (sha256 : bytes → bytes).
Hypothesis sha256_inj : ∀ a b, sha256 a = sha256 b → a = b.

Lemma set_event_state_spec d n event_id room new P :
  CompInv sha256 d n → n + 2 ≤ u64_max → good_state new → room_state d room P →
  ∃ s d' n', set_event_state sha256 event_id room new d = (Ok s, d') ∧
    CompInv sha256 d' n' ∧ n ≤ n' ≤ n + 2 ∧ 1 ≤ s ≤ n' ∧ state_of d' s new ∧
    (pdu_shortstatehash event_id d') = (Ok (Some s), d').
Proof.
  intros HI Hn Hg HP. unfold set_event_state.
  destruct (event_step sha256 d n event_id HI ltac:(lia))
    as (e & d1 & n1 & H1 & He & Hke & HI1 & Hn1 & Hx1).
  rewrite (bind_ok _ _ _ _ _ H1).
  destruct (get_room_shortstatehash_spec d1 n1 room (proj1 HI1)) as (o & H2 & Ho).
  rewrite (bind_ok _ _ _ _ _ H2). cbv zeta.
  pose proof (room_state_prev _ _ _ _ _ (proj1 HI1) (room_state_ext _ _ _ _ Hx1 HP) H2 Ho) as Hprev1.
  destruct (shortstatehash_obtain sha256 sha256_inj d1 n1 new HI1 ltac:(lia) Hg)
    as (s & b & d2 & n2 & H3 & Hn2 & Hs & HI2 & Hf & Ed & Hb).
  rewrite (bind_ok _ _ _ _ _ H3).
  assert (∃ d3, (if b then mret tt else
      layers ← states_parents o;
      let '(statediffnew, statediffremoved) := diff_to_parents layers new in
      save_state_from_diff s statediffnew statediffremoved 1000000 layers) d2 = (Ok tt, d3) ∧
    CompInv sha256 d3 n2 ∧ state_of d3 s new ∧ kv d3 eventid_shorteventid = kv d1 eventid_shorteventid)
    as (d3 & H4 & HI3 & Hst3 & Ek3).
  { assert (kv d2 eventid_shorteventid = kv d1 eventid_shorteventid) as Ek2.
    { pose proof (f_equal snd H3) as E3. simpl in E3. rewrite <-E3.
      unfold get_or_create_shortstatehash, get, next_count, increment, insert. run.
      repeat case_match; simplify_eq; done. }
    destruct b; [exists d2; naive_solver|]. destruct Hb as (Hlt & Hfresh & Hclose).
    destruct (states_parents_spec d2 o P (ci_cache _ _ HI2)) as (layers & c & Hpar & Hc & Hpok & HPl).
    { destruct o; [|done]. eapply state_of_mono; [|done]. by rewrite Ed. }
    rewrite (bind_ok _ _ _ _ _ Hpar), diff_to_parents_spec, HPl.
    destruct (save_state_from_diff_spec (set_stateinfo_cache c d2) n2 s o P layers
      (new ∖ P) (P ∖ new) 1000000 (CompPre_stateinfo _ _ _ HI2 Hc) Hs Hfresh Hpok HPl)
      as (v & Hsave & HI3 & Hst3 & Hsub3); [|intros x Hx; apply Hg; set_solver|set_solver..|].
    { intros p ->. destruct Ho as (_ & ? & _). lia. }
    eexists. split; [exact Hsave|]. replace ((P ∪ new ∖ P) ∖ (P ∖ new)) with new in Hst3.
    2:{ apply set_eq. intros x. set_unfold. destruct (decide (x ∈ P)), (decide (x ∈ new)); tauto. }
    split_and!; [|done|by kv_simpl]. apply Hclose; [done| |done|done]. by kv_simpl. }
  rewrite (bind_ok _ _ _ _ _ H4).
  set (d4 := upd shorteventid_shortstatehash
    (λ tr, kv_insert tr (to_be_bytes e) (to_be_bytes s)) d3).
  exists s, d4, n2. split_and!; [done| |lia|lia|lia|lia| |].
  - apply CompInv_upd; [set_solver|done].
  - eapply state_of_mono; [|done]. unfold d4. by kv_simpl.
  - unfold pdu_shortstatehash, get, kv_get. run. unfold d4. kv_simpl. rewrite Ek3, Hke. kv_simpl.
    unfold kv_insert. rewrite lookup_insert_eq. cbn [map_transpose].
    rewrite u64_from_to_be_bytes; [done|]. pose proof (CompPre_u64 _ _ HI2). unfold is_u64 in *. lia.
Qed.
End attach.

(** * Claims *)

(** C6: Appending a state event makes it the room's event for its key.  After
    [append_to_state] and [set_room_state] the lookup of the event's (type,
    state key) returns its id, every other entry of the previous state is still
    found under its own key, and the invariant is kept. *)
Theorem append_to_state_correct (RU : Ruma) (LR : LruCache) (HO : HashOrder) sha256
    d n pdu room state_key P :
  CompInv sha256 d n → n + 4 ≤ u64_max → room_id pdu = Ok room →
  pdu_state_key pdu = Some state_key → room_state d room P → keyed P →
  utf8_valid (pdu_kind pdu) = true → utf8_valid (pdu_event_id pdu) = true →
  event_id_ok (pdu_event_id pdu) = true →
  ∃ s d1 d2 n',
    append_to_state pdu d = (Ok s, d1) ∧ set_room_state room s d1 = (Ok tt, d2) ∧
    CompInv sha256 d2 n' ∧ n ≤ n' ≤ n + 4 ∧
    (room_state_get_id room (pdu_kind pdu) state_key d2).1 = Ok (Some (pdu_event_id pdu)) ∧
    ∀ t k id, has_entry d P t k id → (t, k) ≠ (pdu_kind pdu, state_key) → utf8_valid t = true →
      utf8_valid id = true → event_id_ok id = true →
      (room_state_get_id room t k d2).1 = Ok (Some id).
Proof.
  intros HI Hn Hroom Hsk HP Hkey Hu Hue Hie.
  destruct (append_to_state_spec sha256 d n pdu room state_key P HI Hn Hroom Hsk HP Hkey)
    as (s & d1 & n' & Hap & HI1 & Hn' & Hs & Hx & Happ).
  destruct (appended_entry sha256 d1 pdu state_key P s Happ Hkey) as (st & Hst & Hkst & Hent).
  destruct (set_room_state_spec sha256 d1 n' room s st HI1 Hs Hst) as (d2 & Hset & HI2 & Hget & Hst2 & Hf).
  exists s, d1, d2, n'. split_and!; [done|done|done|lia|lia|..]; unfold room_state_get_id.
  - rewrite (bind_ok _ _ _ _ _ Hget). eapply (state_get_id_spec sha256 d2 n' s st); try done.
    destruct Hent as (sk & se & ? & ? & ? & ? & ?). exists sk, se. by rewrite !Hf.
  - intros t k id Hold Hne Hut Huid Hiid. rewrite (bind_ok _ _ _ _ _ Hget).
    destruct (has_entry_appended sha256 d d1 n' pdu state_key P s t k id HI1 Hx Happ) as (st' & Hst' & Hent');
      [by apply utf8_no_ff..|done|done|].
    pose proof (state_of_fun _ _ _ _ Hst Hst') as <-.
    eapply (state_get_id_spec sha256 d2 n' s st); try done.
    destruct Hent' as (sk & se & ? & ? & ? & ? & ?). exists sk, se. by rewrite !Hf.
Qed.

(** [set_event_state] attaches a state to an event: the short state hash
    recorded for the event is the returned one and stands for exactly the given
    state. *)
Theorem set_event_state_correct (RU : Ruma) (LR : LruCache) (HO : HashOrder) sha256
    d n event_id room new P :
  (∀ a b, sha256 a = sha256 b → a = b) →
  CompInv sha256 d n → n + 2 ≤ u64_max → good_state new → room_state d room P →
  ∃ s d' n', set_event_state sha256 event_id room new d = (Ok s, d') ∧
    CompInv sha256 d' n' ∧ pdu_shortstatehash event_id d' = (Ok (Some s), d') ∧ loads d' s new.
Proof.
  intros Hinj HI Hn Hg HP.
  destruct (set_event_state_spec sha256 Hinj d n event_id room new P HI Hn Hg HP)
    as (s & d' & n' & Hset & HI' & Hn' & Hs & Hst & Hp).
  exists s, d', n'. split_and!; [done..|]. apply state_of_loads; [apply HI'|done].
Qed.

(** The forward extremities of a room are exactly the ones last set; the
    leaves of every other room are untouched. *)
Theorem forward_extremities_roundtrip (RU : Ruma) room ids d :
  Forall (λ id, utf8_valid id = true ∧ event_id_ok id = true) ids →
  ∃ d', set_forward_extremities room ids d = (Ok tt, d') ∧
    get_forward_extremities room d' = (Ok (list_to_set ids), d') ∧
    ∀ room', no_ff room → no_ff room' → room' ≠ room →
      (get_forward_extremities room' d').1 = (get_forward_extremities room' d).1.
Proof.
  intros Hids. destruct (set_forward_extremities_spec room ids d) as (d' & Hset & _ & H1 & H2 & H3).
  exists d'. split; [done|]. rewrite Forall_forall in Hids. split.
  - unfold get_forward_extremities. run. f_equal.
    rewrite (collect_fmap_ok _ snd); last first.
    + intros [k v] [Hk Hv]%elem_of_scan_prefix. destruct (H2 k v Hk Hv) as [Hin _].
      destruct (Hids v Hin). by apply parse_id_ok.
    + cbn. f_equal. apply set_eq. intros x. rewrite !elem_of_list_to_set, list_elem_of_fmap. split.
      * intros ([k v] & -> & [Hk Hv]%elem_of_scan_prefix). by apply (H2 k v).
      * intros Hx. exists ((room ++ [ff]) ++ x, x). split; [done|]. apply elem_of_scan_prefix.
        split; [apply starts_with_app|by apply H1].
  - intros room' Hnf Hnf' Hne. unfold get_forward_extremities. run. cbn [fst]. do 3 f_equal.
    rewrite !scan_prefix_spec. apply (StronglySorted_strict_eq key_lt);
      [apply StronglySorted_bfilter, entries_sorted..|].
    intros [k v]. rewrite !elem_of_bfilter, !elem_of_entries. split; intros [Hk Hv]; (split; [done|]);
      cbn [fst] in Hk; (rewrite H3 in * || rewrite <-H3 in *); try done;
      apply not_true_iff_false; intros Hk'; apply starts_with_spec in Hk as [r ->];
      rewrite <-app_assoc in Hk'; by apply starts_with_ff in Hk'.
Qed.

(** An event for the witnesses. *)
Definition sample_pdu : PduEvent :=
  mkPdu (lit "$e1") (Some (lit "!r")) (lit "@a:b") 1 (lit "m.room.name") (lit "{}") (Some []) []
    1 [] None None [] None.

Lemma append_to_state_correct_witness :
  ∃ s d1 d2 n',
    append_to_state (RU := sample_ruma) (LR := lru_unbounded) (HO := elements_order) sample_pdu empty_db = (Ok s, d1) ∧
    set_room_state (lit "!r") s d1 = (Ok tt, d2) ∧
    CompInv (λ b, b) d2 n' ∧ 0 ≤ n' ≤ 0 + 4 ∧
    (room_state_get_id (RU := sample_ruma) (LR := lru_unbounded) (HO := elements_order)
      (lit "!r") (lit "m.room.name") [] d2).1 = Ok (Some (lit "$e1")) ∧
    ∀ t k id, has_entry empty_db ∅ t k id → (t, k) ≠ (lit "m.room.name", []) → utf8_valid t = true →
      utf8_valid id = true → event_id_ok (Ruma := sample_ruma) id = true →
      (room_state_get_id (RU := sample_ruma) (LR := lru_unbounded) (HO := elements_order)
        (lit "!r") t k d2).1 = Ok (Some id).
Proof.
  apply (append_to_state_correct sample_ruma lru_unbounded elements_order (λ b, b) empty_db 0
    sample_pdu (lit "!r") [] ∅); try reflexivity.
  - apply empty_db_comp.
  - vm_compute. discriminate.
  - intros x y Hx. by apply elem_of_empty in Hx.
Defined.

