(* ===== verification/Accounts.v ===== *)
(** * Accounts: passwords and profiles

    The account part of [server/src/database/key_value/users.rs].  An account
    is an entry of [userid_password]; an empty password marks a deactivated
    (or remote) account.  The Argon2 hash is a parameter. *)
From S2P Require Import Prelude Bytes KvTree Pdu Database.

Section accounts.
Context {RU : Ruma}.

(** Check if a user has an account on this homeserver. *)
Definition exists_ (user_id : bytes) : M Db bool :=
  o ← get userid_password user_id;
  mret (bool_decide (is_Some o)).

(** Check if account is deactivated. *)
Definition is_deactivated (user_id : bytes) : M Db bool :=
  o ← get userid_password user_id;
  pw ← lift (ok_or o (BadRequest InvalidParam "User does not exist."));
  mret (bool_decide (pw = [])).

(** The number of users registered on this server. *)
Definition count : M Db Z :=
  gets (λ d, Ok (Z.of_nat (length (kv_iter (kv d userid_password))))).

(** All users on this homeserver. *)
Definition iter (d : Db) : list (res bytes) :=
  (λ e, parse_id user_id_ok "User ID in userid_password is invalid unicode."
          "User ID in userid_password is invalid." e.1) <$> kv_iter (kv d userid_password).

Definition get_username_with_valid_password (username password : bytes) : option bytes :=
  if bool_decide (password = []) then None else string_from_bytes username.

(** Usernames of the accounts with a non-empty password. *)
Definition list_local_users (d : Db) : list bytes :=
  omap (λ e, get_username_with_valid_password e.1 e.2) (kv_iter (kv d userid_password)).

(** The lookups that decode a stored string. *)
Definition get_string (t : Table) (msg : string) (user_id : bytes) : M Db (option bytes) :=
  o ← get t user_id;
  lift (map_transpose (λ bs, ok_or (string_from_bytes bs) (BadDatabase msg)) o).

Definition password_hash : bytes → M Db (option bytes) :=
  get_string userid_password "Password hash in db is not valid string.".

(** Hash and set the user's password. *)
Definition set_password (calculate_password_hash : bytes → option bytes)
    (user_id : bytes) (password : option bytes) : M Db unit :=
  match password with
  | Some password =>
      match calculate_password_hash password with
      | Some hash => insert userid_password user_id hash
      | None => fail (BadRequest InvalidParam "Password does not meet the requirements.")
      end
  | None => insert userid_password user_id []
  end.

Definition displayname : bytes → M Db (option bytes) :=
  get_string userid_displayname "Displayname in db is invalid.".

Definition avatar_url : bytes → M Db (option bytes) :=
  get_string userid_avatarurl "Avatar URL in db is invalid.".

Definition blurhash : bytes → M Db (option bytes) :=
  get_string userid_blurhash "Avatar URL in db is invalid.".

(** Set a field, or remove it for [None]. *)
Definition set_field (t : Table) (user_id : bytes) (value : option bytes) : M Db unit :=
  match value with
  | Some v => insert t user_id v
  | None => remove t user_id
  end.

Definition set_displayname : bytes → option bytes → M Db unit := set_field userid_displayname.

Definition set_avatar_url : bytes → option bytes → M Db unit := set_field userid_avatarurl.

Definition set_blurhash : bytes → option bytes → M Db unit := set_field userid_blurhash.
End accounts.
