(* ===== verification/StateCache.v ===== *)
(** * StateCache: who is in which room

    [server/src/database/key_value/rooms/state_cache.rs].  Memberships are kept
    in pairs of trees, one keyed by (user, room) and one by (room, user), for
    joined, invited, knocked and left users; the joined and invited counts, the
    local users and the participating servers of a room are derived from
    them. *)
From S2P Require Import Prelude Bytes KvTree Pdu Database Accounts.

Section state_cache.
Context {RU : Ruma} {HO : HashOrder}.
(** [services().globals.server_name()] *)
Context (server_name : bytes).
(** The JSON of stripped state events. *)
Context {StateEvents : Type} `{JS : !Json StateEvents} (no_events : StateEvents).

(** Constructs roomuser_id and userroom_id (key_value/rooms/mod.rs). *)
Definition get_roomuser_id_bytes (room_id user_id : bytes) : bytes := room_id ++ ff :: user_id.

Definition get_userroom_id_bytes (user_id room_id : bytes) : bytes := user_id ++ ff :: room_id.

(** ** Membership changes *)

Definition mark_as_once_joined (user_id room_id : bytes) : M Db unit :=
  insert roomuseroncejoinedids (get_userroom_id_bytes user_id room_id) [].

Definition mark_as_joined (user_id room_id : bytes) : M Db unit :=
  let roomuser_id := get_roomuser_id_bytes room_id user_id in
  let userroom_id := get_userroom_id_bytes user_id room_id in
  insert userroomid_joined userroom_id [];;
  insert roomuserid_joined roomuser_id [];;
  remove userroomid_invitestate userroom_id;;
  remove roomuserid_invitecount roomuser_id;;
  remove userroomid_knockstate userroom_id;;
  remove roomuserid_knockcount roomuser_id;;
  remove userroomid_leftstate userroom_id;;
  remove roomuserid_leftcount roomuser_id.

Definition mark_as_invited (user_id room_id : bytes) (last_state : option StateEvents) : M Db unit :=
  let roomuser_id := get_roomuser_id_bytes room_id user_id in
  let userroom_id := get_userroom_id_bytes user_id room_id in
  insert userroomid_invitestate userroom_id (to_vec (default no_events last_state));;
  c ← next_count;
  insert roomuserid_invitecount roomuser_id (to_be_bytes c);;
  remove userroomid_joined userroom_id;;
  remove roomuserid_joined roomuser_id;;
  remove userroomid_knockstate userroom_id;;
  remove roomuserid_knockcount roomuser_id;;
  remove userroomid_leftstate userroom_id;;
  remove roomuserid_leftcount roomuser_id.

Definition mark_as_knocked (user_id room_id : bytes) (last_state : option StateEvents) : M Db unit :=
  let roomuser_id := get_roomuser_id_bytes room_id user_id in
  let userroom_id := get_userroom_id_bytes user_id room_id in
  insert userroomid_knockstate userroom_id (to_vec (default no_events last_state));;
  c ← next_count;
  insert roomuserid_knockcount roomuser_id (to_be_bytes c);;
  remove userroomid_joined userroom_id;;
  remove roomuserid_joined roomuser_id;;
  remove userroomid_invitestate userroom_id;;
  remove roomuserid_invitecount roomuser_id;;
  remove userroomid_leftstate userroom_id;;
  remove roomuserid_leftcount roomuser_id.

Definition mark_as_left (user_id room_id : bytes) : M Db unit :=
  let roomuser_id := get_roomuser_id_bytes room_id user_id in
  let userroom_id := get_userroom_id_bytes user_id room_id in
  insert userroomid_leftstate userroom_id (to_vec no_events);;
  c ← next_count;
  insert roomuserid_leftcount roomuser_id (to_be_bytes c);;
  remove userroomid_joined userroom_id;;
  remove roomuserid_joined roomuser_id;;
  remove userroomid_invitestate userroom_id;;
  remove roomuserid_invitecount roomuser_id;;
  remove userroomid_knockstate userroom_id;;
  remove roomuserid_knockcount roomuser_id.

(** Makes a user forget a room. *)
Definition forget (room_id user_id : bytes) : M Db unit :=
  remove userroomid_leftstate (get_userroom_id_bytes user_id room_id);;
  remove roomuserid_leftcount (get_roomuser_id_bytes room_id user_id).

(** ** Iterators: the last component of every key under a prefix *)

Definition scan_last (id_ok : bytes → bool) (unicode invalid : string) (t : Table)
    (prefix : bytes) (d : Db) : list (res bytes) :=
  (λ e, parse_id id_ok unicode invalid (rsplit_first e.1)) <$> kv_scan_prefix (kv d t) prefix.

(** All servers participating in this room. *)
Definition room_servers (room_id : bytes) : Db → list (res bytes) :=
  scan_last server_name_ok "Server name in roomserverids is invalid unicode."
    "Server name in roomserverids is invalid." roomserverids (room_id ++ [ff]).

Definition server_in_room (server room_id : bytes) : M Db bool :=
  o ← get serverroomids (server ++ ff :: room_id);
  mret (bool_decide (is_Some o)).

(** All rooms a server participates in (as far as we know). *)
Definition server_rooms (server : bytes) : Db → list (res bytes) :=
  scan_last room_id_ok "RoomId in serverroomids is invalid unicode."
    "RoomId in serverroomids is invalid." serverroomids (server ++ [ff]).

(** All joined members of a room. *)
Definition room_members (room_id : bytes) : Db → list (res bytes) :=
  scan_last user_id_ok "User ID in roomuserid_joined is invalid unicode."
    "User ID in roomuserid_joined is invalid." roomuserid_joined (room_id ++ [ff]).

(** All users who ever joined a room. *)
Definition room_useroncejoined (room_id : bytes) : Db → list (res bytes) :=
  scan_last user_id_ok "User ID in room_useroncejoined is invalid unicode."
    "User ID in room_useroncejoined is invalid." roomuseroncejoinedids (room_id ++ [ff]).

(** All invited members of a room. *)
Definition room_members_invited (room_id : bytes) : Db → list (res bytes) :=
  scan_last user_id_ok "User ID in roomuserid_invited is invalid unicode."
    "User ID in roomuserid_invited is invalid." roomuserid_invitecount (room_id ++ [ff]).

(** All rooms this user joined: the prefix is the bare user id. *)
Definition rooms_joined (user_id : bytes) : Db → list (res bytes) :=
  scan_last room_id_ok "Room ID in userroomid_joined is invalid unicode."
    "Room ID in userroomid_joined is invalid." userroomid_joined user_id.

(** Rooms and stored state events of a (user, room) state tree. *)
Definition scan_userroom_id_memberstate_tree (user_id : bytes) (t : Table) (d : Db)
    : list (res (bytes * StateEvents)) :=
  (λ e, room_id ← parse_id room_id_ok "Room ID in userroomid_<member>state is invalid unicode."
          "Room ID in userroomid_<member>state is invalid." (rsplit_first e.1);
        state ← ok_or (from_slice e.2) (BadDatabase "Invalid state in userroomid_<member>state.");
        Ok (room_id, state)) <$> kv_scan_prefix (kv d t) (user_id ++ [ff]).

Definition rooms_invited (user_id : bytes) := scan_userroom_id_memberstate_tree user_id userroomid_invitestate.

Definition rooms_knocked (user_id : bytes) := scan_userroom_id_memberstate_tree user_id userroomid_knockstate.

Definition rooms_left (user_id : bytes) := scan_userroom_id_memberstate_tree user_id userroomid_leftstate.

(** ** Lookups *)

Definition get_count (t : Table) (msg : string) (key : bytes) : M Db (option Z) :=
  o ← get t key;
  lift (map_transpose (λ bs, ok_or (u64_from_bytes bs) (BadDatabase msg)) o).

Definition room_joined_count : bytes → M Db (option Z) :=
  get_count roomid_joinedcount "Invalid joinedcount in db.".

Definition room_invited_count : bytes → M Db (option Z) :=
  get_count roomid_invitedcount "Invalid joinedcount in db.".

Definition get_invite_count (room_id user_id : bytes) : M Db (option Z) :=
  get_count roomuserid_invitecount "Invalid invitecount in db." (room_id ++ ff :: user_id).

Definition get_knock_count (room_id user_id : bytes) : M Db (option Z) :=
  get_count roomuserid_knockcount "Invalid knockcount in db." (room_id ++ ff :: user_id).

Definition get_left_count (room_id user_id : bytes) : M Db (option Z) :=
  get_count roomuserid_leftcount "Invalid leftcount in db." (room_id ++ ff :: user_id).

Definition member_state (t : Table) (msg : string) (user_id room_id : bytes)
    : M Db (option StateEvents) :=
  o ← get t (user_id ++ ff :: room_id);
  lift (map_transpose (λ bs, ok_or (from_slice bs) (BadDatabase msg)) o).

Definition invite_state : bytes → bytes → M Db (option StateEvents) :=
  member_state userroomid_invitestate "Invalid state in userroomid_invitestate.".

Definition knock_state : bytes → bytes → M Db (option StateEvents) :=
  member_state userroomid_knockstate "Invalid state in userroomid_knockstate.".

Definition left_state : bytes → bytes → M Db (option StateEvents) :=
  member_state userroomid_leftstate "Invalid state in userroomid_leftstate.".

Definition has_userroom (t : Table) (user_id room_id : bytes) : M Db bool :=
  o ← get t (get_userroom_id_bytes user_id room_id);
  mret (bool_decide (is_Some o)).

Definition once_joined : bytes → bytes → M Db bool := has_userroom roomuseroncejoinedids.

Definition is_joined : bytes → bytes → M Db bool := has_userroom userroomid_joined.

Definition is_invited : bytes → bytes → M Db bool := has_userroom userroomid_invitestate.

Definition is_knocked : bytes → bytes → M Db bool := has_userroom userroomid_knockstate.

Definition is_left : bytes → bytes → M Db bool := has_userroom userroomid_leftstate.

(** ** Derived data *)

(** A local user that is not deactivated. *)
Definition is_real_user (d : Db) (user : bytes) : bool :=
  bool_decide (server_name_of user = server_name) &&
  negb (match (is_deactivated user d).1 with Ok b => b | _ => true end).

(** Drop the old servers that left; what remains of [joined_servers] is new. *)
Definition drop_old_server (room_id : bytes) (joined_servers : gset bytes) (old_joined_server : bytes)
    : M Db (gset bytes) :=
  if bool_decide (old_joined_server ∈ joined_servers)
  then mret (joined_servers ∖ {[old_joined_server]})
  else
    remove roomserverids (room_id ++ ff :: old_joined_server);;
    remove serverroomids (old_joined_server ++ ff :: room_id);;
    mret joined_servers.

Definition add_server (room_id server : bytes) : M Db unit :=
  insert roomserverids (room_id ++ ff :: server) [];;
  insert serverroomids (server ++ ff :: room_id) [].

Definition update_joined_count (room_id : bytes) : M Db unit :=
  members ← gets (λ d, Ok (oks (room_members room_id d)));
  real_users ← gets (λ d, Ok (list_to_set (bfilter (is_real_user d) members) : gset bytes));
  let joined_servers : gset bytes := list_to_set (server_name_of <$> members) in
  let joinedcount := Z.of_nat (length members) in
  invited ← gets (λ d, Ok (oks (room_members_invited room_id d)));
  let invitedcount := Z.of_nat (length invited) in
  insert roomid_joinedcount room_id (to_be_bytes joinedcount);;
  insert roomid_invitedcount room_id (to_be_bytes invitedcount);;
  modify (λ d, set_our_real_users_cache (<[room_id := real_users]> (our_real_users_cache d)) d);;
  olds ← gets (λ d, Ok (oks (room_servers room_id d)));
  new_servers ← foldM (drop_old_server room_id) joined_servers olds;
  for_each (hash_iter new_servers) (add_server room_id);;
  modify (λ d, set_appservice_in_room_cache (delete room_id (appservice_in_room_cache d)) d).

Definition get_our_real_users (room_id : bytes) : M Db (gset bytes) :=
  maybe ← gets (λ d, Ok (our_real_users_cache d !! room_id));
  match maybe with
  | Some users => mret users
  | None =>
      update_joined_count room_id;;
      gets (λ d, expect (our_real_users_cache d !! room_id))
  end.

(** The parts of an appservice registration this file uses. *)
Record RegistrationInfo := mkRegistrationInfo {
  registration_id : bytes;
  sender_localpart : bytes;
  users_is_match : bytes → bool;
}.

Definition appservice_in_room (room_id : bytes) (appservice : RegistrationInfo) : M Db bool :=
  maybe ← gets (λ d, Ok (appservice_in_room_cache d !! room_id ≫= λ m, m !! registration_id appservice));
  match maybe with
  | Some b => mret b
  | None =>
      in_room ← gets (λ d,
        let bridge := match parse_with_server_name (sender_localpart appservice) server_name with
                      | Some id => match (is_joined id room_id d).1 with Ok b => b | _ => false end
                      | None => false
                      end in
        Ok (bridge || existsb (λ r, match r with Ok userid => users_is_match appservice userid | _ => false end)
                        (room_members room_id d)));
      modify (λ d, set_appservice_in_room_cache
        (<[room_id := <[registration_id appservice := in_room]>
            (default ∅ (appservice_in_room_cache d !! room_id))]> (appservice_in_room_cache d)) d);;
      mret in_room
  end.
End state_cache.

(** * The abstract membership map *)

Inductive Membership := Joined | Invited | Knocked | Left.

#[global] Instance Membership_eq_dec : EqDecision Membership.
Proof. solve_decision. Defined.

(** The (user, room) tree and the (room, user) tree of a membership. *)
Definition user_tree (K : Membership) : Table :=
  match K with
  | Joined => userroomid_joined
  | Invited => userroomid_invitestate
  | Knocked => userroomid_knockstate
  | Left => userroomid_leftstate
  end.

Definition room_tree (K : Membership) : Table :=
  match K with
  | Joined => roomuserid_joined
  | Invited => roomuserid_invitecount
  | Knocked => roomuserid_knockcount
  | Left => roomuserid_leftcount
  end.

(** Which tree holds which pairs: the keys of [t] are exactly the encodings
    [a 0xff b] of the pairs in [Q]. *)
Definition indexes (tr : Tree) (Q : bytes → bytes → Prop) : Prop :=
  ∀ k, is_Some (tr !! k) ↔ ∃ a b, k = a ++ ff :: b ∧ Q a b.

(** Ids without the separator, as every UTF-8 string is. *)
Definition separated (Q : bytes → bytes → Prop) : Prop := ∀ a b, Q a b → no_ff a ∧ no_ff b.

Lemma indexes_ext tr Q Q' : (∀ a b, Q a b ↔ Q' a b) → indexes tr Q → indexes tr Q'.
Proof. intros HQ H k. rewrite (H k). by setoid_rewrite HQ. Qed.

Lemma indexes_insert tr Q a b v :
  indexes tr Q → indexes (<[a ++ ff :: b := v]> tr) (λ a' b', Q a' b' ∨ (a' = a ∧ b' = b)).
Proof.
  intros H k. rewrite lookup_insert. case_decide as E.
  - subst. split; [|by eauto]. intros _. exists a, b. auto.
  - rewrite (H k). split; [naive_solver|]. intros (a' & b' & -> & [?|[-> ->]]); [eauto|done].
Qed.

Lemma indexes_delete tr Q a b :
  indexes tr Q → separated Q → no_ff a → no_ff b →
  indexes (delete (a ++ ff :: b) tr) (λ a' b', Q a' b' ∧ (a', b') ≠ (a, b)).
Proof.
  intros H HQ Ha Hb k. rewrite lookup_delete. case_decide as E.
  - subst. split; [by intros []|]. intros (a' & b' & E & Hq & Hne). destruct (HQ _ _ Hq).
    apply app_ff_inj in E as [-> ->]; done.
  - rewrite (H k). split; [|naive_solver]. intros (a' & b' & -> & Hq). exists a', b'.
    split_and!; [done|done|]. intros [= -> ->]. done.
Qed.

Lemma indexes_lookup tr Q a b :
  indexes tr Q → separated Q → no_ff a → is_Some (tr !! (a ++ ff :: b)) ↔ Q a b.
Proof.
  intros H HQ Ha. rewrite (H _). split; [|eauto].
  intros (a' & b' & E & Hq). destruct (HQ _ _ Hq). by apply app_ff_inj in E as [-> ->].
Qed.

Section scan.
Context (id_ok : bytes → bool) (unicode invalid : string) (t : Table) (d : Db) (Q : bytes → bytes → Prop).
Hypothesis (Hidx : indexes (kv d t) Q) (Hsep : separated Q).
Hypothesis Hok : ∀ a b, Q a b → utf8_valid b = true ∧ id_ok b = true.

Lemma scan_last_parse a e :
  no_ff a → e ∈ kv_scan_prefix (kv d t) (a ++ [ff]) →
  parse_id id_ok unicode invalid (rsplit_first e.1) = Ok (rsplit_first e.1) ∧
  e.1 = a ++ ff :: rsplit_first e.1 ∧ Q a (rsplit_first e.1).
Proof.
  intros Ha He. destruct e as [k v]. apply elem_of_scan_prefix in He as [Hp Hk].
  destruct (proj1 (Hidx k)) as (a' & b & -> & Hq); [by rewrite Hk|].
  destruct (Hsep _ _ Hq) as [Ha' Hb]. apply starts_with_ff in Hp; [|done..]. subst a'.
  simpl. rewrite rsplit_first_app by done. destruct (Hok _ _ Hq). by rewrite parse_id_ok.
Qed.

Lemma scan_last_oks a :
  no_ff a → oks (scan_last id_ok unicode invalid t (a ++ [ff]) d) =
    (λ e, rsplit_first e.1) <$> kv_scan_prefix (kv d t) (a ++ [ff]).
Proof. intros Ha. apply oks_fmap_ok. intros e He. by apply (scan_last_parse a). Qed.

(** A prefix scan returns exactly the second components, each once. *)
Lemma scan_last_spec a :
  no_ff a →
  (∀ b, b ∈ oks (scan_last id_ok unicode invalid t (a ++ [ff]) d) ↔ Q a b) ∧
  NoDup (oks (scan_last id_ok unicode invalid t (a ++ [ff]) d)) ∧
  Forall (λ r, is_ok r = true) (scan_last id_ok unicode invalid t (a ++ [ff]) d).
Proof.
  intros Ha. rewrite scan_last_oks by done. split_and!.
  - intros b. rewrite list_elem_of_fmap. split.
    + intros (e & -> & He). by apply (scan_last_parse a).
    + intros Hq. destruct (proj2 (Hidx (a ++ ff :: b))) as [v Hv]; [eauto|].
      destruct (Hsep _ _ Hq) as [_ Hb]. exists (a ++ ff :: b, v). simpl.
      rewrite rsplit_first_app by done. split; [done|]. apply elem_of_scan_prefix. split; [|done].
      by apply starts_with_ff.
  - apply NoDup_fmap_2_strong; [|rewrite scan_prefix_spec; apply NoDup_bfilter, entries_NoDup].
    intros [k1 v1] [k2 v2] H1 H2 E. pose proof (scan_last_parse a _ Ha H1) as (_ & E1 & _).
    pose proof (scan_last_parse a _ Ha H2) as (_ & E2 & _). cbn [fst] in *.
    assert (k1 = k2) as -> by congruence. f_equal.
    apply elem_of_scan_prefix in H1 as [_ H1]. apply elem_of_scan_prefix in H2 as [_ H2]. congruence.
  - apply Forall_fmap, Forall_forall. intros e He. simpl.
    by rewrite (proj1 (scan_last_parse a e Ha He)).
Qed.
End scan.

Section refinement.
Context {RU : Ruma} {HO : HashOrder} {StateEvents : Type} `{JS : !Json StateEvents} (no_events : StateEvents).

Definition valid_user (u : bytes) : Prop := utf8_valid u = true ∧ user_id_ok u = true.

Definition valid_room (r : bytes) : Prop := utf8_valid r = true ∧ room_id_ok r = true.

(** The trees hold exactly the abstract map. *)
Record MemberRel (d : Db) (m : gmap (bytes * bytes) Membership) : Prop := mk_MemberRel {
  mr_user : ∀ K, indexes (kv d (user_tree K)) (λ u r, m !! (u, r) = Some K);
  mr_room : ∀ K, indexes (kv d (room_tree K)) (λ r u, m !! (u, r) = Some K);
  mr_valid : ∀ u r K, m !! (u, r) = Some K → valid_user u ∧ valid_room r;
}.

Lemma MemberRel_separated d m K :
  MemberRel d m → separated (λ u r, m !! (u, r) = Some K) ∧ separated (λ r u, m !! (u, r) = Some K).
Proof.
  intros HR. split; intros a b H; destruct (mr_valid _ _ HR _ _ _ H) as [[] []];
    split; by apply utf8_no_ff.
Qed.

(** One change: the pair enters the trees of one membership and leaves those of
    the others. *)
Lemma MemberRel_set d d' m u r K v w :
  MemberRel d m → valid_user u → valid_room r →
  (∀ K', kv d' (user_tree K') = if decide (K' = K) then <[u ++ ff :: r := v]> (kv d (user_tree K'))
                                else delete (u ++ ff :: r) (kv d (user_tree K'))) →
  (∀ K', kv d' (room_tree K') = if decide (K' = K) then <[r ++ ff :: u := w]> (kv d (room_tree K'))
                                else delete (r ++ ff :: u) (kv d (room_tree K'))) →
  MemberRel d' (<[(u, r) := K]> m).
Proof.
  intros HR [Hu Hu'] [Hr Hr'] H1 H2. pose proof (utf8_no_ff _ Hu). pose proof (utf8_no_ff _ Hr).
  split.
  - intros K'. rewrite H1. case_decide as E; subst.
    + eapply indexes_ext; [|apply indexes_insert, HR]. intros a b. simpl. rewrite lookup_insert.
      case_decide as E; simplify_eq; naive_solver.
    + eapply indexes_ext; [|apply indexes_delete; [apply HR|by apply (MemberRel_separated d)|done..]].
      intros a b. simpl. rewrite lookup_insert. case_decide as E'; simplify_eq; naive_solver.
  - intros K'. rewrite H2. case_decide as E; subst.
    + eapply indexes_ext; [|apply indexes_insert, HR]. intros a b. simpl. rewrite lookup_insert.
      case_decide as E; simplify_eq; naive_solver.
    + eapply indexes_ext; [|apply indexes_delete; [apply HR|by apply (MemberRel_separated d)|done..]].
      intros a b. simpl. rewrite lookup_insert. case_decide as E'; simplify_eq; naive_solver.
  - intros u' r' K'. rewrite lookup_insert. case_decide; simplify_eq; [by split|by apply HR].
Qed.

(** ** Operations and their abstract counterparts *)

Inductive MemberOp :=
  | MJoin (u r : bytes)
  | MInvite (u r : bytes) (s : option StateEvents)
  | MKnock (u r : bytes) (s : option StateEvents)
  | MLeave (u r : bytes)
  | MForget (u r : bytes).

Definition member_exec (o : MemberOp) : M Db unit :=
  match o with
  | MJoin u r => mark_as_joined u r
  | MInvite u r s => mark_as_invited no_events u r s
  | MKnock u r s => mark_as_knocked no_events u r s
  | MLeave u r => mark_as_left no_events u r
  | MForget u r => forget r u
  end.

Definition member_abs (o : MemberOp) (m : gmap (bytes * bytes) Membership) :=
  match o with
  | MJoin u r => <[(u, r) := Joined]> m
  | MInvite u r _ => <[(u, r) := Invited]> m
  | MKnock u r _ => <[(u, r) := Knocked]> m
  | MLeave u r => <[(u, r) := Left]> m
  | MForget u r => if decide (m !! (u, r) = Some Left) then delete (u, r) m else m
  end.

Definition member_op_ok (o : MemberOp) : Prop :=
  match o with
  | MJoin u r | MInvite u r _ | MKnock u r _ | MLeave u r | MForget u r => valid_user u ∧ valid_room r
  end.

Lemma mark_as_joined_spec d n m u r :
  count_is d n → MemberRel d m → valid_user u → valid_room r →
  ∃ d', mark_as_joined u r d = (Ok tt, d') ∧ count_is d' n ∧ MemberRel d' (<[(u, r) := Joined]> m).
Proof.
  intros Hc HR Hu Hr. eexists. split_and!; [done| |].
  - destruct Hc as [Hn Hc]. split; [done|]. by kv_simpl.
  - eapply (MemberRel_set d _ m u r Joined [] []); [done..| |]; intros []; by kv_simpl.
Qed.

Lemma mark_as_invited_spec d n m u r s :
  count_is d n → n < u64_max → MemberRel d m → valid_user u → valid_room r →
  ∃ d', mark_as_invited no_events u r s d = (Ok tt, d') ∧ count_is d' (n + 1) ∧
    MemberRel d' (<[(u, r) := Invited]> m).
Proof.
  intros Hc Hn HR Hu Hr. unfold mark_as_invited. cbv zeta. unfold insert, remove. run.
  rewrite (next_count_spec _ n); [|destruct Hc as [? Hc]; split; [done|]; by kv_simpl|done].
  eexists. split_and!; [done| |].
  - assert (is_u64 (n + 1)) by (destruct Hc as [[] _]; unfold is_u64; lia).
    split; [done|]. kv_simpl. left. unfold set_count. kv_simpl. apply lookup_insert_eq.
  - eapply (MemberRel_set d _ m u r Invited); [done..| |]; intros []; by kv_simpl.
Qed.

Lemma mark_as_knocked_spec d n m u r s :
  count_is d n → n < u64_max → MemberRel d m → valid_user u → valid_room r →
  ∃ d', mark_as_knocked no_events u r s d = (Ok tt, d') ∧ count_is d' (n + 1) ∧
    MemberRel d' (<[(u, r) := Knocked]> m).
Proof.
  intros Hc Hn HR Hu Hr. unfold mark_as_knocked. cbv zeta. unfold insert, remove. run.
  rewrite (next_count_spec _ n); [|destruct Hc as [? Hc]; split; [done|]; by kv_simpl|done].
  eexists. split_and!; [done| |].
  - assert (is_u64 (n + 1)) by (destruct Hc as [[] _]; unfold is_u64; lia).
    split; [done|]. kv_simpl. left. unfold set_count. kv_simpl. apply lookup_insert_eq.
  - eapply (MemberRel_set d _ m u r Knocked); [done..| |]; intros []; by kv_simpl.
Qed.

Lemma mark_as_left_spec d n m u r :
  count_is d n → n < u64_max → MemberRel d m → valid_user u → valid_room r →
  ∃ d', mark_as_left no_events u r d = (Ok tt, d') ∧ count_is d' (n + 1) ∧
    MemberRel d' (<[(u, r) := Left]> m).
Proof.
  intros Hc Hn HR Hu Hr. unfold mark_as_left. cbv zeta. unfold insert, remove. run.
  rewrite (next_count_spec _ n); [|destruct Hc as [? Hc]; split; [done|]; by kv_simpl|done].
  eexists. split_and!; [done| |].
  - assert (is_u64 (n + 1)) by (destruct Hc as [[] _]; unfold is_u64; lia).
    split; [done|]. kv_simpl. left. unfold set_count. kv_simpl. apply lookup_insert_eq.
  - eapply (MemberRel_set d _ m u r Left); [done..| |]; intros []; by kv_simpl.
Qed.

Lemma forget_spec d n m u r :
  count_is d n → MemberRel d m → valid_user u → valid_room r →
  ∃ d', forget r u d = (Ok tt, d') ∧ count_is d' n ∧
    MemberRel d' (member_abs (MForget u r) m).
Proof.
  intros Hc HR [Hu ?] [Hr ?]. pose proof (utf8_no_ff _ Hu). pose proof (utf8_no_ff _ Hr).
  eexists. split_and!; [done|destruct Hc as [? Hc]; split; [done|by kv_simpl]|].
  assert (∀ K a b, member_abs (MForget u r) m !! (a, b) = Some K ↔
    m !! (a, b) = Some K ∧ (K = Left → (a, b) ≠ (u, r))) as Habs.
  { intros K a b. simpl. case_decide as E; [rewrite lookup_delete; case_decide|]; simplify_eq; split;
      naive_solver congruence. }
  split.
  - intros K. destruct (decide (K = Left)) as [->|HK].
    + eapply indexes_ext; [|apply indexes_delete; [apply (mr_user _ _ HR Left)|by apply (MemberRel_separated d)|done..]].
      intros a b. cbn beta. rewrite Habs. naive_solver.
    + eapply indexes_ext; [|destruct K; kv_simpl; try apply HR; done].
      intros a b. cbn beta. rewrite Habs. naive_solver.
  - intros K. destruct (decide (K = Left)) as [->|HK].
    + eapply indexes_ext; [|apply indexes_delete; [apply (mr_room _ _ HR Left)|by apply (MemberRel_separated d)|done..]].
      intros a b. cbn beta. rewrite Habs. naive_solver congruence.
    + eapply indexes_ext; [|destruct K; kv_simpl; try apply HR; done].
      intros a b. cbn beta. rewrite Habs. naive_solver.
  - intros a b K Hab. apply Habs in Hab as [Hab _]. by apply (mr_valid _ _ HR _ _ K).
Qed.

Lemma member_exec_spec d n m o :
  count_is d n → n < u64_max → MemberRel d m → member_op_ok o →
  ∃ d' n', member_exec o d = (Ok tt, d') ∧ count_is d' n' ∧ n ≤ n' ≤ n + 1 ∧
    MemberRel d' (member_abs o m).
Proof.
  intros Hc Hn HR Ho. destruct o as [u r|u r s|u r s|u r|u r]; destruct Ho as [Hu Hr]; cbn [member_exec].
  - destruct (mark_as_joined_spec d n m u r Hc HR Hu Hr) as (d' & ? & ? & ?). exists d', n. split_and!; done || lia.
  - destruct (mark_as_invited_spec d n m u r s Hc Hn HR Hu Hr) as (d' & ? & ? & ?). exists d', (n + 1). split_and!; done || lia.
  - destruct (mark_as_knocked_spec d n m u r s Hc Hn HR Hu Hr) as (d' & ? & ? & ?). exists d', (n + 1). split_and!; done || lia.
  - destruct (mark_as_left_spec d n m u r Hc Hn HR Hu Hr) as (d' & ? & ? & ?). exists d', (n + 1). split_and!; done || lia.
  - destruct (forget_spec d n m u r Hc HR Hu Hr) as (d' & ? & ? & ?). exists d', n. split_and!; done || lia.
Qed.

Definition member_run (ops : list MemberOp) (m : gmap (bytes * bytes) Membership) :=
  fold_left (λ m o, member_abs o m) ops m.

Lemma member_trace d n m ops :
  count_is d n → n + Z.of_nat (length ops) ≤ u64_max → MemberRel d m → Forall member_op_ok ops →
  ∃ d', for_each ops member_exec d = (Ok tt, d') ∧ MemberRel d' (member_run ops m).
Proof.
  intros Hc Hn HR Ho. revert d n m Hc Hn HR.
  induction Ho as [|o ops Ho Hos IH]; intros d n m Hc Hn HR; cbn [for_each length] in *; [by exists d|].
  destruct (member_exec_spec d n m o Hc ltac:(lia) HR Ho) as (d1 & n1 & H1 & Hc1 & Hn1 & HR1).
  destruct (IH d1 n1 _ Hc1 ltac:(lia) HR1) as (d2 & H2 & HR2).
  exists d2. by rewrite (bind_ok _ _ _ _ _ H1).
Qed.

Lemma empty_db_member : MemberRel empty_db ∅.
Proof.
  split.
  - intros K k. split; [simpl; rewrite lookup_empty; by intros []|intros (a & b & _ & E); by rewrite lookup_empty in E].
  - intros K k. split; [simpl; rewrite lookup_empty; by intros []|intros (a & b & _ & E); by rewrite lookup_empty in E].
  - intros u r K. by rewrite lookup_empty.
Qed.

Lemma empty_db_count : count_is empty_db 0.
Proof. split; [by split|]. right. split; [apply lookup_empty|done]. Qed.

(** What the queries see of an abstract map. *)
Lemma has_userroom_spec d m K u r :
  MemberRel d m → no_ff u →
  has_userroom (user_tree K) u r d = (Ok (bool_decide (m !! (u, r) = Some K)), d).
Proof.
  intros HR Hu. unfold has_userroom, get, kv_get, get_userroom_id_bytes. run. do 2 f_equal.
  apply bool_decide_ext. by apply (indexes_lookup _ (λ u r, m !! (u, r) = Some K)),
    Hu; [apply HR|apply (MemberRel_separated d)].
Qed.

Lemma room_members_spec d m r :
  MemberRel d m → no_ff r →
  (∀ u, u ∈ oks (room_members r d) ↔ m !! (u, r) = Some Joined) ∧ NoDup (oks (room_members r d)).
Proof.
  intros HR Hr. unfold room_members.
  destruct (scan_last_spec user_id_ok "User ID in roomuserid_joined is invalid unicode."
    "User ID in roomuserid_joined is invalid." roomuserid_joined d (λ r u, m !! (u, r) = Some Joined))
    with (a := r) as (H1 & H2 & _); try done.
  - apply (mr_room _ _ HR Joined).
  - by apply (MemberRel_separated d).
  - intros a b Hab. by destruct (mr_valid _ _ HR _ _ _ Hab) as [[] _].
Qed.

Lemma room_members_invited_spec d m r :
  MemberRel d m → no_ff r →
  (∀ u, u ∈ oks (room_members_invited r d) ↔ m !! (u, r) = Some Invited) ∧
  NoDup (oks (room_members_invited r d)).
Proof.
  intros HR Hr. unfold room_members_invited.
  destruct (scan_last_spec user_id_ok "User ID in roomuserid_invited is invalid unicode."
    "User ID in roomuserid_invited is invalid." roomuserid_invitecount d (λ r u, m !! (u, r) = Some Invited))
    with (a := r) as (H1 & H2 & _); try done.
  - apply (mr_room _ _ HR Invited).
  - by apply (MemberRel_separated d).
  - intros a b Hab. by destruct (mr_valid _ _ HR _ _ _ Hab) as [[] _].
Qed.
End refinement.

(** * Participating servers *)

Section servers.
Context {RU : Ruma} {HO : HashOrder}.

(** Both server trees hold exactly the pairs [Q] (room, server). *)
Record ServerRel (d : Db) (Q : bytes → bytes → Prop) : Prop := mk_ServerRel {
  sr_room : indexes (kv d roomserverids) Q;
  sr_server : indexes (kv d serverroomids) (λ s r, Q r s);
  sr_valid : ∀ r s, Q r s → utf8_valid r = true ∧ utf8_valid s = true ∧ server_name_ok s = true;
}.

Lemma ServerRel_ext d Q Q' : (∀ r s, Q r s ↔ Q' r s) → ServerRel d Q → ServerRel d Q'.
Proof.
  intros HQ [H1 H2 H3]. split; [by eapply indexes_ext|..].
  - eapply indexes_ext; [|exact H2]. intros. apply HQ.
  - intros r s Hrs. by apply H3, HQ.
Qed.

Lemma ServerRel_separated d Q : ServerRel d Q → separated Q ∧ separated (λ s r, Q r s).
Proof.
  intros HR. split; intros a b Hab; apply (sr_valid _ _ HR) in Hab as (? & ? & ?);
    split; by apply utf8_no_ff.
Qed.

(** Only the two server trees differ. *)
Definition servers_only (d d' : Db) : Prop :=
  (∀ t, t ≠ roomserverids → t ≠ serverroomids → kv d' t = kv d t) ∧ caches d' = caches d.

Lemma servers_only_trans d1 d2 d3 : servers_only d1 d2 → servers_only d2 d3 → servers_only d1 d3.
Proof. intros [H1 C1] [H2 C2]. split; [|congruence]. intros t ? ?. by rewrite H2, H1. Qed.

Lemma remove_server_spec d Q r s :
  ServerRel d Q → utf8_valid r = true → utf8_valid s = true →
  ∃ d', (remove roomserverids (r ++ ff :: s) ;; remove serverroomids (s ++ ff :: r)) d = (Ok tt, d') ∧
    servers_only d d' ∧ ServerRel d' (λ r' s', Q r' s' ∧ (r', s') ≠ (r, s)).
Proof.
  intros HR Hr Hs. pose proof (utf8_no_ff _ Hr). pose proof (utf8_no_ff _ Hs).
  destruct (ServerRel_separated _ _ HR) as [Hsep Hsep'].
  eexists. split; [done|]. split; [|split].
  - split; [|done]. intros t ? ?. by rewrite !kv_upd_ne by done.
  - kv_simpl. apply indexes_delete; [apply HR|done..].
  - kv_simpl. eapply indexes_ext; [|apply indexes_delete; [apply HR|done..]]. naive_solver congruence.
  - intros r' s' [Hrs _]. by apply (sr_valid _ _ HR).
Qed.

Lemma add_server_spec d Q r s :
  ServerRel d Q → utf8_valid r = true → utf8_valid s = true → server_name_ok s = true →
  ∃ d', add_server r s d = (Ok tt, d') ∧ servers_only d d' ∧
    ServerRel d' (λ r' s', Q r' s' ∨ (r' = r ∧ s' = s)).
Proof.
  intros HR Hr Hs Hok. eexists. split; [done|]. split; [|split].
  - split; [|done]. intros t ? ?. by rewrite !kv_upd_ne by done.
  - kv_simpl. apply indexes_insert, HR.
  - kv_simpl. eapply indexes_ext; [|apply indexes_insert, HR]. naive_solver.
  - intros r' s' [Hrs|[-> ->]]; [by apply (sr_valid _ _ HR)|done].
Qed.

Lemma drop_old_servers_spec d Q r js olds :
  ServerRel d Q → utf8_valid r = true → NoDup olds → Forall (λ s, utf8_valid s = true) olds →
  ∃ d', foldM (drop_old_server r) js olds d = (Ok (js ∖ list_to_set olds), d') ∧ servers_only d d' ∧
    ServerRel d' (λ r' s', Q r' s' ∧ ¬ (r' = r ∧ s' ∈ olds ∧ s' ∉ js)).
Proof.
  intros HR Hr Hnd. revert d Q js HR. induction Hnd as [|s olds Hs Hnd IH]; intros d Q js HR Hu.
  - exists d. split_and!; [cbn; by rewrite difference_empty_L|by split|].
    eapply ServerRel_ext; [|done]. set_solver.
  - apply Forall_cons in Hu as [Hus Hu]. cbn [foldM].
    destruct (decide (s ∈ js)) as [Hin|Hin].
    + rewrite (bind_ok _ _ _ (js ∖ {[s]}) d) by (unfold drop_old_server; by rewrite bool_decide_eq_true_2).
      destruct (IH d Q (js ∖ {[s]}) HR Hu) as (d' & -> & Ho & HR'). exists d'.
      split_and!; [f_equal; f_equal; apply set_eq; set_solver|done|]. eapply ServerRel_ext; [|exact HR'].
      intros r' s'. cbn beta. destruct (decide (s' = s)) as [->|]; set_solver.
    + destruct (remove_server_spec d Q r s HR Hr Hus) as (d1 & Hd1 & Ho1 & HR1).
      assert (drop_old_server r js s d = (Ok js, d1)) as Hd1'.
      { pose proof Hd1 as E. unfold drop_old_server. rewrite bool_decide_eq_false_2 by done.
        unfold remove in *. run. run in E. congruence. }
      rewrite (bind_ok _ _ _ _ _ Hd1').
      destruct (IH d1 _ js HR1 Hu) as (d' & -> & Ho & HR'). exists d'.
      split_and!; [f_equal; f_equal; apply set_eq; set_solver|by eapply servers_only_trans|].
      eapply ServerRel_ext; [|exact HR']. intros r' s'. cbn beta.
      destruct (decide ((r', s') = (r, s))) as [[= -> ->]|Hne]; [set_solver|]. 
      rewrite elem_of_cons. split; [|naive_solver]. intros [[Hq _] Hn]. split; [done|].
      intros (-> & [->|?] & ?); [done|]. apply Hn. done.
Qed.

Lemma add_servers_spec d Q r l :
  ServerRel d Q → utf8_valid r = true →
  Forall (λ s, utf8_valid s = true ∧ server_name_ok s = true) l →
  ∃ d', for_each l (add_server r) d = (Ok tt, d') ∧ servers_only d d' ∧
    ServerRel d' (λ r' s', Q r' s' ∨ (r' = r ∧ s' ∈ l)).
Proof.
  intros HR Hr Hl. revert d Q HR. induction Hl as [|s l [Hs Hok] Hl IH]; intros d Q HR; cbn [for_each].
  - exists d. split_and!; [done|by split|]. eapply ServerRel_ext; [|done]. set_solver.
  - destruct (add_server_spec d Q r s HR Hr Hs Hok) as (d1 & Hd1 & Ho1 & HR1).
    rewrite (bind_ok _ _ _ _ _ Hd1).
    destruct (IH d1 _ HR1) as (d' & -> & Ho & HR'). exists d'.
    split_and!; [done|by eapply servers_only_trans|]. eapply ServerRel_ext; [|exact HR'].
    set_solver.
Qed.

Lemma room_servers_spec d Q r :
  ServerRel d Q → no_ff r →
  (∀ s, s ∈ oks (room_servers r d) ↔ Q r s) ∧ NoDup (oks (room_servers r d)).
Proof.
  intros HR Hr. unfold room_servers.
  destruct (scan_last_spec server_name_ok "Server name in roomserverids is invalid unicode."
    "Server name in roomserverids is invalid." roomserverids d Q) with (a := r) as (H1 & H2 & _); try done.
  - apply HR.
  - apply (ServerRel_separated d Q HR).
  - intros a b Hab. by destruct (sr_valid _ _ HR _ _ Hab) as (_ & ? & ?).
Qed.

Lemma server_in_room_spec d Q s r :
  ServerRel d Q → no_ff s → ∃ b, server_in_room s r d = (Ok b, d) ∧ (b = true ↔ Q r s).
Proof.
  intros HR Hs. eexists. split; [done|]. rewrite bool_decide_eq_true. unfold kv_get.
  apply (indexes_lookup _ (λ s r, Q r s)); [apply HR|apply (ServerRel_separated d Q HR)|done].
Qed.

Lemma empty_db_servers : ServerRel empty_db (λ _ _, False).
Proof.
  split; [intros k; split; [simpl; rewrite lookup_empty; by intros []|naive_solver]..|done].
Qed.

(** ** The derived data of a room *)

Context (server_name : bytes).
(** The server name of a valid user id is a valid server name. *)
Hypothesis server_name_valid : ∀ u, valid_user u →
  utf8_valid (server_name_of u) = true ∧ server_name_ok (server_name_of u) = true.

Lemma MemberRel_kv d d' m :
  (∀ K, kv d' (user_tree K) = kv d (user_tree K) ∧ kv d' (room_tree K) = kv d (room_tree K)) →
  MemberRel d m → MemberRel d' m.
Proof.
  intros E [H1 H2 H3]. split; [| |done]; intros K; destruct (E K) as [E1 E2];
    [rewrite E1|rewrite E2]; [apply H1|apply H2].
Qed.

(** The servers of the joined members. *)
Definition member_server (m : gmap (bytes * bytes) Membership) (r s : bytes) : Prop :=
  ∃ u, m !! (u, r) = Some Joined ∧ server_name_of u = s.

Lemma update_joined_count_spec d m Q r :
  MemberRel d m → ServerRel d Q → valid_room r → ∃ d',
    update_joined_count server_name r d = (Ok tt, d') ∧ MemberRel d' m ∧
    kv d' roomid_joinedcount !! r = Some (to_be_bytes (Z.of_nat (length (oks (room_members r d))))) ∧
    kv d' roomid_invitedcount !! r =
      Some (to_be_bytes (Z.of_nat (length (oks (room_members_invited r d))))) ∧
    ServerRel d' (λ r' s, if decide (r' = r) then member_server m r s else Q r' s) ∧
    (∃ users, our_real_users_cache d' !! r = Some users ∧
      ∀ u, u ∈ users ↔ m !! (u, r) = Some Joined ∧ is_real_user server_name d u = true) ∧
    appservice_in_room_cache d' !! r = None.
Proof.
  intros HM HS [Hr Hrok]. pose proof (utf8_no_ff _ Hr) as Hnf. unfold update_joined_count, insert.
  destruct (room_members_spec d m r HM Hnf) as [Hmem Hmnd].
  set (members := oks (room_members r d)) in *.
  set (js := list_to_set (server_name_of <$> members) : gset bytes).
  assert (∀ s, s ∈ js ↔ member_server m r s) as Hjs.
  { intros s. unfold js, member_server. rewrite elem_of_list_to_set, list_elem_of_fmap.
    setoid_rewrite Hmem. naive_solver. }
  repeat first [rewrite bind_gets | rewrite bind_modify | progress cbv zeta]. fold members. fold js.
  match goal with |- context [(_ ≫= _) ?x] => set (d1 := x) end.
  assert (∀ t, t ≠ roomid_joinedcount → t ≠ roomid_invitedcount → kv d1 t = kv d t) as Hk1.
  { intros t ? ?. unfold d1. kv_simpl. by rewrite !kv_upd_ne by done. }
  assert (ServerRel d1 Q) as HS1.
  { destruct HS as [H1 H2 H3]. split; rewrite ?Hk1 by done; done. }
  assert (room_servers r d1 = room_servers r d) as Ers by (unfold room_servers, scan_last; by rewrite Hk1).
  destruct (room_servers_spec d1 Q r HS1 Hnf) as [Holds Hond].
  destruct (drop_old_servers_spec d1 Q r js (oks (room_servers r d1)) HS1 Hr Hond) as (d2 & H2 & Ho2 & HS2).
  { apply Forall_forall. intros s Hs. apply Holds in Hs. by apply (sr_valid _ _ HS1) in Hs as (_ & ? & _). }
  rewrite (bind_ok _ _ _ _ _ H2).
  destruct (add_servers_spec d2 _ r (hash_iter (js ∖ list_to_set (oks (room_servers r d1)))) HS2 Hr)
    as (d3 & H3 & Ho3 & HS3).
  { apply Forall_forall. intros s Hs. rewrite hash_iter_perm, elem_of_elements in Hs.
    apply elem_of_difference in Hs as [Hs _]. apply Hjs in Hs as (u & Hu & <-).
    by apply server_name_valid, (mr_valid _ _ HM u r Joined). }
  rewrite (bind_ok _ _ _ _ _ H3).
  assert (servers_only d1 d3) as [Hk3 Hc3] by by eapply servers_only_trans.
  eexists. split; [done|]. split_and!.
  - eapply MemberRel_kv; [|exact HM]. intros []; cbn; rewrite !Hk3, !Hk1 by done; done.
  - cbn [kv set_appservice_in_room_cache]. rewrite Hk3 by done. unfold d1. kv_simpl. unfold kv_insert. by rewrite lookup_insert_eq.
  - cbn [kv set_appservice_in_room_cache]. rewrite Hk3 by done. unfold d1. kv_simpl. unfold kv_insert. by rewrite lookup_insert_eq.
  - eapply ServerRel_ext; [|destruct HS3 as [A B C]; split; [exact A|exact B|exact C]].
    intros r' s. cbn beta. rewrite hash_iter_perm, elem_of_elements, elem_of_difference,
      elem_of_list_to_set, Holds, Hjs. case_decide as E; [subst r'|tauto].
    assert (r = r) by done.
    destruct (decide (s ∈ js)) as [Hin|Hin]; rewrite Hjs in Hin;
      destruct (decide (s ∈ oks (room_servers r d1))) as [Ho|Ho]; rewrite Holds in Ho; tauto.
  - injection Hc3 as _ _ _ _ _ _ Hru _ _ _ _. exists (list_to_set (bfilter (is_real_user server_name d) members)).
    split.
    + cbn [our_real_users_cache set_appservice_in_room_cache]. rewrite Hru. apply lookup_insert_eq.
    + intros u. rewrite elem_of_list_to_set, elem_of_bfilter, Hmem. tauto.
  - cbn. apply lookup_delete_eq.
Qed.
End servers.

(** * Claims *)

Section claims.
Context {RU : Ruma} {HO : HashOrder}.

(** The rooms a scan of the bare user id finds. *)
Lemma rooms_joined_spec d m u :
  MemberRel d m → no_ff u →
  ∀ r, r ∈ oks (rooms_joined u d) ↔ ∃ u', starts_with u u' = true ∧ m !! (u', r) = Some Joined.
Proof.
  intros HR Hu r. unfold rooms_joined, scan_last.
  assert (∀ e, e ∈ kv_scan_prefix (kv d userroomid_joined) u → ∃ u' r', e.1 = u' ++ ff :: r' ∧
    starts_with u u' = true ∧ m !! (u', r') = Some Joined ∧ rsplit_first e.1 = r' ∧ valid_room r') as Hkey.
  { intros [k v] [Hp Hk]%elem_of_scan_prefix.
    destruct (proj1 (mr_user _ _ HR Joined k)) as (u' & r' & -> & Hm); [by eexists|].
    destruct (mr_valid _ _ HR _ _ _ Hm) as [_ Hr']. exists u', r'. simpl.
    rewrite rsplit_first_app by (by apply utf8_no_ff, Hr').
    rewrite starts_with_before_ff in Hp by done. done. }
  rewrite (oks_fmap_ok _ (λ e, rsplit_first e.1)); last first.
  { intros e He. destruct (Hkey e He) as (u' & r' & _ & _ & _ & -> & [? ?]). by apply parse_id_ok. }
  rewrite list_elem_of_fmap. split.
  - intros (e & -> & He). destruct (Hkey e He) as (u' & r' & _ & ? & ? & -> & _). eauto.
  - intros (u' & Hp & Hm). destruct (proj2 (mr_user _ _ HR Joined (u' ++ ff :: r))) as [v Hv]; [eauto|].
    exists (u' ++ ff :: r, v). destruct (mr_valid _ _ HR _ _ _ Hm) as [_ [Hr _]]. simpl.
    rewrite rsplit_first_app by (by apply utf8_no_ff). split; [done|].
    apply elem_of_scan_prefix. split; [by rewrite starts_with_before_ff|done].
Qed.
End claims.

(** C19: The membership trees refine one map from (user, room) to a membership.
    After any run of membership changes on valid ids, every operation has
    succeeded, each user has at most the membership the last change gave, and
    both the per-user queries and the member list of a room show exactly the
    abstract map. *)
Theorem membership_refinement (RU : Ruma) (StateEvents : Type) (JS : Json StateEvents) no_events
    (ops : list (MemberOp (StateEvents := StateEvents))) :
  Forall member_op_ok ops → Z.of_nat (length ops) ≤ u64_max →
  ∃ d, for_each ops (member_exec no_events) empty_db = (Ok tt, d) ∧
    let m := member_run ops ∅ in
    ∀ u r, no_ff u → no_ff r →
      is_joined u r d = (Ok (bool_decide (m !! (u, r) = Some Joined)), d) ∧
      is_invited u r d = (Ok (bool_decide (m !! (u, r) = Some Invited)), d) ∧
      is_knocked u r d = (Ok (bool_decide (m !! (u, r) = Some Knocked)), d) ∧
      is_left u r d = (Ok (bool_decide (m !! (u, r) = Some Left)), d) ∧
      (u ∈ oks (room_members r d) ↔ m !! (u, r) = Some Joined) ∧
      (u ∈ oks (room_members_invited r d) ↔ m !! (u, r) = Some Invited) ∧
      NoDup (oks (room_members r d)).
Proof.
  intros Ho Hl.
  destruct (member_trace no_events empty_db 0 ∅ ops empty_db_count ltac:(lia) empty_db_member Ho) as (d & Hd & HR).
  exists d. split; [done|]. intros m u r Hu Hr.
  destruct (room_members_spec d m r HR Hr) as [? ?], (room_members_invited_spec d m r HR Hr) as [? ?].
  split_and!; [by apply (has_userroom_spec d m Joined)|by apply (has_userroom_spec d m Invited)|
    by apply (has_userroom_spec d m Knocked)|by apply (has_userroom_spec d m Left)|naive_solver..|done].
Qed.

(** The JSON of a state event list kept as its text, for the witnesses. *)
Definition json_text : Json bytes :=
  {| to_vec := λ b, b; from_slice := Some; from_slice_to_vec := λ _, eq_refl |}.

Lemma membership_refinement_witness :
  ∃ d, for_each [MInvite (lit "@a:x") (lit "!r:x") None; MJoin (lit "@a:x") (lit "!r:x");
                 MLeave (lit "@a:x") (lit "!r:x")]
      (member_exec (JS := json_text) (lit "[]")) empty_db = (Ok tt, d) ∧
    let m := member_run (StateEvents := bytes) [MInvite (lit "@a:x") (lit "!r:x") None; MJoin (lit "@a:x") (lit "!r:x");
                 MLeave (lit "@a:x") (lit "!r:x")] ∅ in
    ∀ u r, no_ff u → no_ff r →
      is_joined u r d = (Ok (bool_decide (m !! (u, r) = Some Joined)), d) ∧
      is_invited u r d = (Ok (bool_decide (m !! (u, r) = Some Invited)), d) ∧
      is_knocked u r d = (Ok (bool_decide (m !! (u, r) = Some Knocked)), d) ∧
      is_left u r d = (Ok (bool_decide (m !! (u, r) = Some Left)), d) ∧
      (u ∈ oks (room_members (RU := sample_ruma) r d) ↔ m !! (u, r) = Some Joined) ∧
      (u ∈ oks (room_members_invited (RU := sample_ruma) r d) ↔ m !! (u, r) = Some Invited) ∧
      NoDup (oks (room_members (RU := sample_ruma) r d)).
Proof.
  apply (membership_refinement sample_ruma bytes json_text (lit "[]")).
  - repeat constructor.
  - vm_compute. discriminate.
Defined.

(** [update_joined_count] derives the room data from the members: the
    stored counts are the numbers of joined and invited users, a server is in
    the room exactly when it is the server of a joined member (every other
    room's servers are untouched), and the cached local users are the joined
    local users with a non-empty password. *)
Theorem update_joined_count_correct (RU : Ruma) (HO : HashOrder) server_name d m Q r :
  (∀ u, valid_user u → utf8_valid (server_name_of u) = true ∧ server_name_ok (server_name_of u) = true) →
  MemberRel d m → ServerRel d Q → valid_room r →
  Z.of_nat (length (oks (room_members r d))) ≤ u64_max →
  Z.of_nat (length (oks (room_members_invited r d))) ≤ u64_max →
  ∃ d', update_joined_count server_name r d = (Ok tt, d') ∧ MemberRel d' m ∧
    room_joined_count r d' = (Ok (Some (Z.of_nat (length (oks (room_members r d))))), d') ∧
    room_invited_count r d' = (Ok (Some (Z.of_nat (length (oks (room_members_invited r d))))), d') ∧
    (∀ s r', no_ff s → ∃ b, server_in_room s r' d' = (Ok b, d') ∧
      (b = true ↔ if decide (r' = r) then member_server m r s else Q r' s)) ∧
    (∀ s, s ∈ oks (room_servers r d') ↔ member_server m r s) ∧
    ∃ users, get_our_real_users server_name r d' = (Ok users, d') ∧
      ∀ u, u ∈ users ↔ m !! (u, r) = Some Joined ∧ is_real_user server_name d u = true.
Proof.
  intros Hsn HM HS Hr Hl1 Hl2.
  destruct (update_joined_count_spec server_name Hsn d m Q r HM HS Hr)
    as (d' & Hd & HM' & Hj & Hi & HS' & (users & Hu & Husers) & _).
  exists d'. split; [done|]. split; [done|]. unfold room_joined_count, room_invited_count, get_count, get, kv_get.
  split; [|split; [|split; [|split]]].
  - run. rewrite Hj. cbn [map_transpose]. rewrite u64_from_to_be_bytes; [done|unfold is_u64; lia].
  - run. rewrite Hi. cbn [map_transpose]. rewrite u64_from_to_be_bytes; [done|unfold is_u64; lia].
  - intros s r' Hs. by apply (server_in_room_spec d' _ s r' HS').
  - intros s. destruct (room_servers_spec d' _ r HS') as [-> _]; [by apply utf8_no_ff, Hr|]. by rewrite decide_True.
  - exists users. split; [|done]. unfold get_our_real_users. rewrite bind_gets, Hu. done.
Qed.

(** [rooms_joined] lists the rooms of every user whose id extends the
    given one: the scan uses the bare user id as its prefix, without the
    separator. *)
Theorem rooms_joined_is_prefix_scan (RU : Ruma) d m u r :
  MemberRel d m → no_ff u →
  r ∈ oks (rooms_joined u d) ↔ ∃ u', starts_with u u' = true ∧ m !! (u', r) = Some Joined.
Proof. intros HR Hu. by apply rooms_joined_spec. Qed.

(** A room of [@a:x.org] is listed for [@a:x]. *)
(** A user marked as once joined is not found by the list of users who
    ever joined the room: the mark is stored under (user, room), the list scans
    for (room, user). *)
Theorem once_joined_not_listed (RU : Ruma) d u r :
  starts_with r u = false → no_ff r →
  let d' := (mark_as_once_joined u r d).2 in
  once_joined u r d' = (Ok true, d') ∧
  room_useroncejoined r d' = room_useroncejoined r d.
Proof.
  intros Hne Hr d'. split.
  - unfold once_joined, has_userroom, get, kv_get. run. unfold d', mark_as_once_joined, insert. run.
    cbn [snd]. kv_simpl. unfold kv_insert. by rewrite lookup_insert_eq.
  - unfold room_useroncejoined, scan_last. f_equal. unfold d', mark_as_once_joined, insert. run. cbn [snd].
    kv_simpl. unfold kv_insert, get_userroom_id_bytes. rewrite !scan_prefix_spec.
    apply (StronglySorted_strict_eq key_lt); [apply StronglySorted_bfilter, entries_sorted..|].
    intros [k v]. rewrite !elem_of_bfilter, !elem_of_entries. cbn [fst].
    assert (starts_with (r ++ [ff]) k = true → k ≠ u ++ ff :: r) as Hk.
    { intros [x ->]%starts_with_spec E. rewrite <-app_assoc in E.
      assert (starts_with r (u ++ ff :: r) = true) as Hs by (rewrite <-E; apply starts_with_app).
      rewrite starts_with_before_ff in Hs by done. congruence. }
    split; intros [H1 H2]; (split; [done|]); specialize (Hk H1).
    + by rewrite lookup_insert_ne in H2.
    + by rewrite lookup_insert_ne.
Qed.

