(* ===== verification/Timeline.v ===== *)
(** * Timeline: the events of a room in order

    [server/src/database/key_value/rooms/timeline.rs] and the parts of
    [server/src/service/pdu.rs] its iterators apply to each event.  An event is
    stored under (short room id, position); the encoding of positions makes the
    byte order of the keys the order of the timeline.  Canonical JSON objects
    and the two JSON types of events are parameters. *)
From S2P Require Import Prelude Bytes KvTree Pdu Database Short.

Section timeline.
Context {RU : Ruma} {LR : LruCache}.
(** [CanonicalJsonObject], [PduEvent] and [BTreeMap<String, RawValue>] as JSON *)
Context {Obj : Type} `{JO : !Json Obj} `{JP : !Json PduEvent} `{JM : !Json (gmap bytes bytes)}.

(** ** Event helpers (service/pdu.rs) *)

Definition set_unsigned (u : option bytes) (p : PduEvent) : PduEvent :=
  mkPdu (pdu_event_id p) (pdu_room_id p) (pdu_sender p) (pdu_origin_server_ts p) (pdu_kind p)
    (pdu_content p) (pdu_state_key p) (pdu_prev_events p) (pdu_depth p) (pdu_auth_events p)
    (pdu_redacts p) u (pdu_hashes p) (pdu_signatures p).

Definition remove_transaction_id (self : PduEvent) : res PduEvent :=
  match pdu_unsigned self with
  | Some unsigned =>
      unsigned ← ok_or (from_slice unsigned) (BadDatabase "Invalid unsigned in pdu event");
      Ok (set_unsigned (Some (to_vec (delete (lit "transaction_id") (unsigned : gmap bytes bytes)))) self)
  | None => Ok self
  end.

Definition add_age (self : PduEvent) : res PduEvent :=
  unsigned ← match pdu_unsigned self with
             | None => Ok ∅
             | Some u => ok_or (from_slice u) (BadDatabase "Invalid unsigned in pdu event")
             end;
  Ok (set_unsigned (Some (to_vec (<[lit "age" := lit "1"]> (unsigned : gmap bytes bytes)))) self).

(** ** Positions as key suffixes *)

(** Returns the [count] of this pdu's id; a slice out of range panics. *)
Definition pdu_count (pdu_id : bytes) : res PduCount :=
  let len := length pdu_id in
  if bool_decide (len < 8)%nat then Panic else
  last_u64 ← ok_or (u64_from_bytes (drop (len - 8) pdu_id)) (BadDatabase "PDU has invalid count bytes.");
  if bool_decide (len < 16)%nat then Panic else
  let second_last_u64 := u64_from_bytes (take 8 (drop (len - 16) pdu_id)) in
  if bool_decide (second_last_u64 = Some 0)
  then Ok (Backfilled (w64 (u64_max - last_u64)))
  else Ok (Normal last_u64).

Definition count_to_id (room_id : bytes) (count : PduCount) (offset : Z) (subtract : bool)
    : M Db (bytes * bytes) :=
  o ← get_shortroomid room_id;
  shortroomid ← lift (ok_or o (BadDatabase "Looked for bad shortroomid in timeline"));
  let prefix := to_be_bytes shortroomid in
  let '(mid, count_raw) :=
    match count with
    | Normal x => ([], if subtract then w64 (x - offset) else w64 (x + offset))
    | Backfilled x =>
        let num := w64 (u64_max - x) in
        (to_be_bytes 0,
         if subtract then (if 0 <? num then w64 (num - offset) else num) else w64 (num + offset))
    end in
  mret (prefix, prefix ++ mid ++ to_be_bytes count_raw).

(** ** Lookups *)

(** Returns the [count] of this pdu's id. *)
Definition get_pdu_count (event_id : bytes) : M Db (option PduCount) :=
  o ← get eventid_pduid event_id;
  lift (map_transpose pdu_count o).

(** Returns the pdu's id. *)
Definition get_pdu_id (event_id : bytes) : M Db (option bytes) := get eventid_pduid event_id.

(** Read and decode the event stored for an event id in the timeline. *)
Definition get_non_outlier {A} `{!Json A} (event_id : bytes) : M Db (option A) :=
  o ← get eventid_pduid event_id;
  match o with
  | None => mret None
  | Some pduid =>
      o' ← get pduid_pdu pduid;
      pdu ← lift (ok_or o' (BadDatabase "Invalid pduid in eventid_pduid."));
      lift (Some <$> ok_or (from_slice pdu) (BadDatabase "Invalid PDU in db."))
  end.

Definition get_non_outlier_pdu_json (event_id : bytes) : M Db (option Obj) := get_non_outlier event_id.

Definition get_non_outlier_pdu (event_id : bytes) : M Db (option PduEvent) := get_non_outlier event_id.

(** Decode the outlier stored for an event id. *)
Definition get_outlier {A} `{!Json A} (event_id : bytes) : M Db (option A) :=
  o ← get eventid_outlierpdu event_id;
  lift (map_transpose (λ pdu, ok_or (from_slice pdu) (BadDatabase "Invalid PDU in db.")) o).

(** Returns the json of a pdu. *)
Definition get_pdu_json (event_id : bytes) : M Db (option Obj) :=
  o ← get_non_outlier_pdu_json event_id;
  match o with
  | None => get_outlier event_id
  | Some x => mret (Some x)
  end.

(** Returns the pdu.  Checks the outliers if not found in the timeline. *)
Definition get_pdu (event_id : bytes) : M Db (option PduEvent) :=
  cached ← gets (λ d, Ok (pdu_cache d !! event_id));
  match cached with
  | Some p => mret (Some p)
  | None =>
      o ← get_non_outlier_pdu event_id;
      o' ← match o with
           | None => get_outlier event_id
           | Some x => mret (Some x)
           end;
      match o' with
      | Some pdu =>
          modify (λ d, set_pdu_cache (lru_insert event_id pdu (pdu_cache d)) d);;
          mret (Some pdu)
      | None => mret None
      end
  end.

Definition get_from_id {A} `{!Json A} (pdu_id : bytes) : M Db (option A) :=
  o ← get pduid_pdu pdu_id;
  lift (map_transpose (λ pdu, ok_or (from_slice pdu) (BadDatabase "Invalid PDU in db.")) o).

(** This does not check the outliers. *)
Definition get_pdu_from_id (pdu_id : bytes) : M Db (option PduEvent) := get_from_id pdu_id.

Definition get_pdu_json_from_id (pdu_id : bytes) : M Db (option Obj) := get_from_id pdu_id.

(** ** Changes *)

Definition append_pdu (pdu_id : bytes) (pdu : PduEvent) (json : Obj) (count : Z) : M Db unit :=
  insert pduid_pdu pdu_id (to_vec json);;
  room ← lift (room_id pdu);
  modify (λ d, set_lasttimelinecount_cache (<[room := Normal count]> (lasttimelinecount_cache d)) d);;
  insert eventid_pduid (pdu_event_id pdu) pdu_id;;
  remove eventid_outlierpdu (pdu_event_id pdu).

Definition prepend_backfill_pdu (pdu_id event_id : bytes) (json : Obj) : M Db unit :=
  insert pduid_pdu pdu_id (to_vec json);;
  insert eventid_pduid event_id pdu_id;;
  remove eventid_outlierpdu event_id.

(** Removes a pdu and creates a new one with the same id. *)
Definition replace_pdu (pdu_id : bytes) (pdu_json : Obj) (pdu : PduEvent) : M Db unit :=
  o ← get pduid_pdu pdu_id;
  match o with
  | Some _ => insert pduid_pdu pdu_id (to_vec pdu_json)
  | None => fail (BadRequest NotFound "PDU does not exist.")
  end;;
  modify (λ d, set_pdu_cache (delete (pdu_event_id pdu) (pdu_cache d)) d).

Definition increment_notification_counts (room_id : bytes) (notifies highlights : list bytes) : M Db unit :=
  increment_batch userroomid_notificationcount ((λ user, user ++ ff :: room_id) <$> notifies);;
  increment_batch userroomid_highlightcount ((λ user, user ++ ff :: room_id) <$> highlights).

(** ** Iterators *)

(** What both iterators do with an entry. *)
Definition timeline_entry (user_id : bytes) (e : entry) : res (PduCount * PduEvent) :=
  pdu ← ok_or (from_slice e.2) (BadDatabase "PDU in db is invalid.");
  pdu ← (if bool_decide (pdu_sender pdu ≠ user_id) then remove_transaction_id pdu else Ok pdu);
  pdu ← add_age pdu;
  count ← pdu_count e.1;
  Ok (count, pdu).

(** All events of a room before [until], newest first. *)
Definition pdus_until (user_id room_id : bytes) (until : PduCount)
    : M Db (list (res (PduCount * PduEvent))) :=
  '(prefix, current) ← count_to_id room_id until 1 true;
  gets (λ d, Ok (timeline_entry user_id <$>
    take_while (λ e, starts_with prefix e.1) (kv_iter_from (kv d pduid_pdu) current true))).

(** All events of a room after [from], oldest first. *)
Definition pdus_after (user_id room_id : bytes) (from : PduCount)
    : M Db (list (res (PduCount * PduEvent))) :=
  '(prefix, current) ← count_to_id room_id from 1 false;
  gets (λ d, Ok (timeline_entry user_id <$>
    take_while (λ e, starts_with prefix e.1) (kv_iter_from (kv d pduid_pdu) current false))).

Definition last_timeline_count (sender_user room_id : bytes) : M Db PduCount :=
  cached ← gets (λ d, Ok (lasttimelinecount_cache d !! room_id));
  match cached with
  | Some c => mret c
  | None =>
      it ← pdus_until sender_user room_id PduCount_max;
      match head (oks it) with
      | Some (c, _) =>
          modify (λ d, set_lasttimelinecount_cache (<[room_id := c]> (lasttimelinecount_cache d)) d);;
          mret c
      | None => mret (Normal 0)
      end
  end.
End timeline.

(** * Lemmas *)

(** The key of an event. *)
Definition pdu_id (s : Z) (c : PduCount) : bytes :=
  to_be_bytes s ++ match c with
                   | Normal x => to_be_bytes x
                   | Backfilled x => to_be_bytes 0 ++ to_be_bytes (u64_max - x)
                   end.

(** The positions of stored events: counts start at 1. *)
Definition position (c : PduCount) : Prop :=
  match c with Normal x => 1 ≤ x ≤ u64_max | Backfilled x => is_u64 x end.

Lemma is_u64_0 : is_u64 0.
Proof. by split. Qed.

(** The byte order of the keys of a room is the order of its timeline. *)
Lemma pdu_id_cmp s c1 c2 :
  position c1 → position c2 → bytes_cmp (pdu_id s c1) (pdu_id s c2) = PduCount_cmp c1 c2.
Proof.
  intros H1 H2. unfold pdu_id. rewrite bytes_cmp_app.
  destruct c1 as [x|x], c2 as [y|y]; simpl in H1, H2; cbn [PduCount_cmp].
  - rewrite bytes_cmp_app, <-(app_nil_r (to_be_bytes (u64_max - x))), <-(app_nil_r (to_be_bytes (u64_max - y))).
    rewrite bytes_cmp_to_be_bytes by (unfold is_u64 in *; lia).
    destruct (Z.compare_spec (u64_max - x) (u64_max - y)); symmetry;
      rewrite ?Z.compare_eq_iff, ?Z.compare_lt_iff, ?Z.compare_gt_iff; simpl; lia.
  - rewrite <-(app_nil_r (to_be_bytes y)). rewrite bytes_cmp_to_be_bytes by (unfold is_u64, u64_max in *; lia).
    by rewrite (proj2 (Z.compare_lt_iff 0 y)) by lia.
  - rewrite <-(app_nil_r (to_be_bytes x)) at 1. rewrite bytes_cmp_to_be_bytes by (unfold is_u64, u64_max in *; lia).
    by rewrite (proj2 (Z.compare_gt_iff x 0)) by lia.
  - rewrite <-(app_nil_r (to_be_bytes x)), <-(app_nil_r (to_be_bytes y)).
    rewrite bytes_cmp_to_be_bytes by (unfold is_u64 in *; lia). by destruct (x ?= y).
Qed.

Lemma pdu_id_length s c : length (pdu_id s c) = match c with Normal _ => 16%nat | Backfilled _ => 24%nat end.
Proof. unfold pdu_id. destruct c; by rewrite !length_app, !length_to_be_bytes. Qed.

(** The position is read back from the key. *)
Lemma pdu_count_id s c : is_u64 s → s ≠ 0 → position c → pdu_count (pdu_id s c) = Ok c.
Proof.
  intros Hs Hne Hc. unfold pdu_count. rewrite pdu_id_length.
  destruct c as [x|x]; simpl in Hc; cbv zeta; rewrite !bool_decide_eq_false_2 by lia.
  - unfold pdu_id. assert (is_u64 (u64_max - x)) as Hx by (unfold is_u64 in *; lia).
    change (24 - 8)%nat with 16%nat. change (24 - 16)%nat with 8%nat.
    rewrite (drop_app_length' (to_be_bytes s)) by (by rewrite length_to_be_bytes).
    rewrite (take_app_length' (to_be_bytes 0)) by (by rewrite length_to_be_bytes).
    rewrite app_assoc. rewrite (drop_app_length' (to_be_bytes s ++ to_be_bytes 0))
      by (by rewrite length_app, !length_to_be_bytes).
    rewrite !u64_from_to_be_bytes by (done || apply is_u64_0). cbn.
    rewrite w64_small by (unfold is_u64 in *; lia). do 2 f_equal. lia.
  - unfold pdu_id. change (16 - 8)%nat with 8%nat. change (16 - 16)%nat with 0%nat.
    rewrite drop_0, (take_app_length' (to_be_bytes s)) by (by rewrite length_to_be_bytes).
    rewrite (drop_app_length' (to_be_bytes s)) by (by rewrite length_to_be_bytes).
    rewrite !u64_from_to_be_bytes by (done || (unfold is_u64; lia)). cbn.
    rewrite bool_decide_eq_false_2 by congruence. done.
Qed.

(** Every stored event has a key of the form (short room id, position). *)
Definition TimelineInv (d : Db) : Prop :=
  ∀ k v, kv d pduid_pdu !! k = Some v → ∃ s c, k = pdu_id s c ∧ is_u64 s ∧ s ≠ 0 ∧ position c.

(** Reference definition: the entries of a room whose position satisfies [p],
    in timeline order. *)
Definition room_entries (d : Db) (s : Z) (p : PduCount → bool) : list entry :=
  bfilter (λ e, starts_with (to_be_bytes s) e.1 &&
                match pdu_count e.1 with Ok c => p c | _ => false end) (entries (kv d pduid_pdu)).

Definition before (until c : PduCount) : bool := match PduCount_cmp c until with Lt => true | _ => false end.

Definition after (from c : PduCount) : bool := match PduCount_cmp c from with Gt => true | _ => false end.

Lemma starts_with_pdu_id s s' c :
  is_u64 s → is_u64 s' → starts_with (to_be_bytes s) (pdu_id s' c) = true → s = s'.
Proof.
  intros Hs Hs' H. unfold pdu_id in H. rewrite <-(app_nil_r (to_be_bytes s)) in H.
  rewrite starts_with_same_length in H by (by rewrite !length_to_be_bytes).
  apply andb_true_iff in H as [H _]. apply bool_decide_eq_true in H.
  by apply to_be_bytes_inj in H.
Qed.

(** A prefix scan of the room, cut by a key comparison, is the reference. *)
Lemma room_entries_cut d s (cut : bytes → bool) p :
  TimelineInv d → is_u64 s → s ≠ 0 → (∀ c, position c → cut (pdu_id s c) = p c) →
  bfilter (λ e, starts_with (to_be_bytes s) e.1 && cut e.1) (entries (kv d pduid_pdu)) = room_entries d s p.
Proof.
  intros HI Hs Hne Hcut. apply bfilter_ext. intros [k v] Hk. cbn [fst].
  apply elem_of_entries in Hk. destruct (HI k v Hk) as (s' & c & -> & Hs' & Hne' & Hc).
  destruct (starts_with (to_be_bytes s) (pdu_id s' c)) eqn:E; [|done]. cbn [andb].
  apply starts_with_pdu_id in E as <-; [|done..]. rewrite pdu_count_id by done. by apply Hcut.
Qed.

Lemma bleb_pdu_id s c1 c2 :
  position c1 → position c2 →
  bleb (pdu_id s c1) (pdu_id s c2) = match PduCount_cmp c1 c2 with Gt => false | _ => true end.
Proof. intros H1 H2. unfold bleb. by rewrite pdu_id_cmp. Qed.

(** The positions next to a given one, as the iterators compute them. *)
Definition until_ok (c : PduCount) : Prop :=
  match c with Normal x => 2 ≤ x ≤ u64_max | Backfilled x => 0 ≤ x < u64_max end.

Definition from_ok (c : PduCount) : Prop :=
  match c with Normal x => 0 ≤ x < u64_max | Backfilled x => 1 ≤ x ≤ u64_max end.

Definition pred (c : PduCount) : PduCount :=
  match c with Normal x => Normal (x - 1) | Backfilled x => Backfilled (x + 1) end.

Definition succ (c : PduCount) : PduCount :=
  match c with Normal x => Normal (x + 1) | Backfilled x => Backfilled (x - 1) end.

Lemma count_to_id_spec d room s c (subtract : bool) :
  get_shortroomid room d = (Ok (Some s), d) → (if subtract then until_ok c else from_ok c) →
  count_to_id room c 1 subtract d =
    (Ok (to_be_bytes s, pdu_id s (if subtract then pred c else succ c)), d).
Proof.
  intros Hs Hc. unfold count_to_id, until_ok, from_ok in *. rewrite (bind_ok _ _ _ _ _ Hs).
  rewrite (bind_ok _ _ _ s d) by done. cbv zeta.
  destruct subtract, c as [x|x]; unfold pdu_id, pred, succ; cbn [app].
  - rewrite !(w64_small (u64_max - x)) by (unfold is_u64; lia).
    rewrite (proj2 (Z.ltb_lt 0 (u64_max - x))) by lia.
    rewrite w64_small by (unfold is_u64; lia).
    by replace (u64_max - x - 1) with (u64_max - (x + 1)) by lia.
  - rewrite w64_small by (unfold is_u64; lia). done.
  - rewrite !(w64_small (u64_max - x)) by (unfold is_u64; lia).
    rewrite w64_small by (unfold is_u64; lia).
    by replace (u64_max - x + 1) with (u64_max - (x - 1)) by lia.
  - rewrite w64_small by (unfold is_u64; lia). done.
Qed.

Lemma before_pred until c :
  until_ok until → position c →
  match PduCount_cmp c (pred until) with Gt => false | _ => true end = before until c.
Proof.
  unfold until_ok, position, before. intros Hu Hc. destruct until as [x|x], c as [y|y]; simpl in *; try done.
  - destruct (Z.compare_spec (x + 1) y), (Z.compare_spec x y); try done; lia.
  - destruct (Z.compare_spec y (x - 1)), (Z.compare_spec y x); try done; lia.
Qed.

Lemma after_succ from c :
  from_ok from → position c →
  match PduCount_cmp (succ from) c with Gt => false | _ => true end = after from c.
Proof.
  unfold from_ok, position, after. intros Hu Hc. destruct from as [x|x], c as [y|y]; simpl in *; try done.
  - destruct (Z.compare_spec y (x - 1)), (Z.compare_spec x y); try done; lia.
  - destruct (Z.compare_spec (x + 1) y), (Z.compare_spec y x); try done; lia.
Qed.

Lemma pred_position c : until_ok c → position (pred c).
Proof. unfold until_ok, position, is_u64. destruct c; simpl; lia. Qed.

Lemma succ_position c : from_ok c → position (succ c).
Proof. unfold from_ok, position, is_u64. destruct c; simpl; lia. Qed.

Lemma starts_with_own s c : starts_with (to_be_bytes s) (pdu_id s c) = true.
Proof. apply starts_with_app. Qed.

Section iterators.
Context {JP : Json PduEvent} {JM : Json (gmap bytes bytes)}.

Lemma pdus_until_spec d user room s until :
  TimelineInv d → get_shortroomid room d = (Ok (Some s), d) → is_u64 s → s ≠ 0 → until_ok until →
  pdus_until user room until d =
    (Ok (timeline_entry user <$> reverse (room_entries d s (before until))), d).
Proof.
  intros HI Hroom Hs Hne Hu. unfold pdus_until.
  rewrite (bind_ok _ _ _ _ _ (count_to_id_spec d room s until true Hroom Hu)). run. do 3 f_equal.
  rewrite iter_from_prefix_rev by apply starts_with_own. f_equal.
  apply (room_entries_cut d s (λ k, bleb k (pdu_id s (pred until)))); [done..|].
  intros c Hc. rewrite bleb_pdu_id by (done || by apply pred_position). by apply before_pred.
Qed.

Lemma pdus_after_spec d user room s from :
  TimelineInv d → get_shortroomid room d = (Ok (Some s), d) → is_u64 s → s ≠ 0 → from_ok from →
  pdus_after user room from d = (Ok (timeline_entry user <$> room_entries d s (after from)), d).
Proof.
  intros HI Hroom Hs Hne Hu. unfold pdus_after.
  rewrite (bind_ok _ _ _ _ _ (count_to_id_spec d room s from false Hroom Hu)). run. do 3 f_equal.
  rewrite iter_from_prefix by apply starts_with_own.
  apply (room_entries_cut d s (λ k, bleb (pdu_id s (succ from)) k)); [done..|].
  intros c Hc. rewrite bleb_pdu_id by (done || by apply succ_position). by apply after_succ.
Qed.
End iterators.

(** The reference is sorted by position. *)
Lemma room_entries_sorted d s p :
  TimelineInv d → is_u64 s → s ≠ 0 →
  StronglySorted (λ e1 e2, ∃ c1 c2, pdu_count e1.1 = Ok c1 ∧ pdu_count e2.1 = Ok c2 ∧ PduCount_cmp c1 c2 = Lt)
    (room_entries d s p).
Proof.
  intros HI Hs Hne. pose proof (StronglySorted_bfilter key_lt (λ e, starts_with (to_be_bytes s) e.1 &&
    match pdu_count e.1 with Ok c => p c | _ => false end) _ (entries_sorted (kv d pduid_pdu))) as Hsort.
  fold (room_entries d s p) in Hsort.
  assert (∀ e, e ∈ room_entries d s p → ∃ c, e.1 = pdu_id s c ∧ position c) as Hel.
  { intros [k v] [Hp Hk]%elem_of_bfilter. apply elem_of_entries in Hk. cbn [fst] in *.
    destruct (HI k v Hk) as (s' & c & -> & Hs' & Hne' & Hc). apply andb_true_iff in Hp as [Hp _].
    apply starts_with_pdu_id in Hp as <-; [|done..]. eauto. }
  induction Hsort as [|e l Hl IH He]; constructor.
  - apply IH. intros e' He'. apply Hel. by constructor.
  - rewrite Forall_forall in He |- *. intros e' He'. specialize (He e' He').
    destruct (Hel e) as (c1 & E1 & H1); [by constructor|]. destruct (Hel e') as (c2 & E2 & H2); [by constructor|].
    exists c1, c2. unfold key_lt, blt in He. rewrite E1, E2 in *. rewrite pdu_id_cmp in He by done.
    by rewrite !pdu_count_id.
Qed.

Lemma elem_of_room_entries d s p c v :
  is_u64 s → s ≠ 0 → position c →
  (pdu_id s c, v) ∈ room_entries d s p ↔ kv d pduid_pdu !! pdu_id s c = Some v ∧ p c = true.
Proof.
  intros Hs Hne Hc. unfold room_entries. rewrite elem_of_bfilter, elem_of_entries. cbn [fst].
  rewrite starts_with_own, pdu_count_id by done. cbn [andb]. tauto.
Qed.

(** Appending an entry after every other entry of the room. *)
Lemma room_entries_append d d' s c v p :
  TimelineInv d → is_u64 s → s ≠ 0 → position c →
  kv d' pduid_pdu = <[pdu_id s c := v]> (kv d pduid_pdu) →
  (∀ c', position c' → is_Some (kv d pduid_pdu !! pdu_id s c') → PduCount_cmp c' c = Lt) →
  room_entries d' s p = room_entries d s p ++ (if p c then [(pdu_id s c, v)] else []).
Proof.
  intros HI Hs Hne Hc E Hlast. apply (StronglySorted_strict_eq key_lt).
  - apply StronglySorted_bfilter, entries_sorted.
  - assert (∀ e, e ∈ room_entries d s p → key_lt e (pdu_id s c, v)) as Hlt.
    { intros [k w] [Hp Hk]%elem_of_bfilter. apply elem_of_entries in Hk. cbn [fst] in Hp.
      destruct (HI k w Hk) as (s' & c' & -> & Hs' & Hne' & Hc'). apply andb_true_iff in Hp as [Hp _].
      apply starts_with_pdu_id in Hp as <-; [|done..]. unfold key_lt, blt. cbn [fst].
      rewrite pdu_id_cmp by done. by apply Hlast. }
    assert (StronglySorted key_lt (room_entries d s p)) as Hsort
      by apply StronglySorted_bfilter, entries_sorted.
    revert Hlt. induction Hsort as [|e l Hl IH He]; intros Hlt; simpl.
    + destruct (p c); repeat constructor.
    + constructor; [apply IH; intros e' He'; apply Hlt; by constructor|].
      apply Forall_app. split; [done|]. destruct (p c); constructor; [|done]. apply Hlt. by constructor.
  - intros [k w]. unfold room_entries. rewrite elem_of_app, !elem_of_bfilter, !elem_of_entries, E, lookup_insert.
    cbn [fst]. case_decide as Ek; [subst k|].
    + rewrite starts_with_own, pdu_count_id by done. cbn [andb].
      assert (kv d pduid_pdu !! pdu_id s c = None) as Hn.
      { destruct (kv d pduid_pdu !! pdu_id s c) eqn:Ed; [|done]. exfalso.
        assert (PduCount_cmp c c = Lt) as Hcc by (apply Hlast; [done|by rewrite Ed]).
        by rewrite (proj2 (PduCount_cmp_eq c c)) in Hcc. }
      rewrite Hn. destruct (p c); set_solver.
    + destruct (p c); set_solver.
Qed.

Section append.
Context {RU : Ruma} {LR : LruCache}.
Context {Obj : Type} {JO : Json Obj} {JP : Json PduEvent} {JM : Json (gmap bytes bytes)}.

Lemma append_pdu_spec d id pdu (json : Obj) c room :
  room_id pdu = Ok room → ∃ d', append_pdu id pdu json c d = (Ok tt, d') ∧
    kv d' pduid_pdu = <[id := to_vec json]> (kv d pduid_pdu) ∧
    kv d' eventid_pduid = <[pdu_event_id pdu := id]> (kv d eventid_pduid) ∧
    kv d' eventid_outlierpdu = delete (pdu_event_id pdu) (kv d eventid_outlierpdu) ∧
    lasttimelinecount_cache d' = <[room := Normal c]> (lasttimelinecount_cache d).
Proof.
  intros Hr. unfold append_pdu, insert, remove. run. rewrite Hr. eexists. split; [done|].
  split_and!; by kv_simpl.
Qed.
End append.

(** * Claims *)

(** The timeline iterators return exactly the events before (newest first)
    or after (oldest first) a position: they agree with the reference that
    filters the whole room by position, and the reference is in timeline
    order.  Positions are those for which the neighbouring key does not wrap. *)
Theorem timeline_iterators_exact (JP : Json PduEvent) (JM : Json (gmap bytes bytes)) d user room s until from :
  TimelineInv d → get_shortroomid room d = (Ok (Some s), d) → is_u64 s → s ≠ 0 →
  until_ok until → from_ok from →
  pdus_until user room until d =
    (Ok (timeline_entry user <$> reverse (room_entries d s (before until))), d) ∧
  pdus_after user room from d = (Ok (timeline_entry user <$> room_entries d s (after from)), d) ∧
  StronglySorted (λ e1 e2, ∃ c1 c2,
    pdu_count e1.1 = Ok c1 ∧ pdu_count e2.1 = Ok c2 ∧ PduCount_cmp c1 c2 = Lt) (room_entries d s (λ _, true)).
Proof.
  intros HI Hr Hs Hne Hu Hf. split_and!.
  - by apply pdus_until_spec.
  - by apply pdus_after_spec.
  - by apply room_entries_sorted.
Qed.

(** An appended event becomes the newest of its room: it is found by its
    event id with its position and JSON, it is the room's last position, and
    the reference timeline is the old one followed by the new entry. *)
Theorem append_pdu_correct (RU : Ruma) (Obj : Type) (JO : Json Obj) (JP : Json PduEvent)
    (JM : Json (gmap bytes bytes)) d room s c pdu (json : Obj) user p :
  TimelineInv d → room_id pdu = Ok room → is_u64 s → s ≠ 0 → position (Normal c) →
  (∀ c', position c' → is_Some (kv d pduid_pdu !! pdu_id s c') → PduCount_cmp c' (Normal c) = Lt) →
  ∃ d', append_pdu (pdu_id s (Normal c)) pdu json c d = (Ok tt, d') ∧ TimelineInv d' ∧
    get_pdu_count (pdu_event_id pdu) d' = (Ok (Some (Normal c)), d') ∧
    get_pdu_json (pdu_event_id pdu) d' = (Ok (Some json), d') ∧
    last_timeline_count user room d' = (Ok (Normal c), d') ∧
    room_entries d' s p =
      room_entries d s p ++ (if p (Normal c) then [(pdu_id s (Normal c), to_vec json)] else []).
Proof.
  intros HI Hr Hs Hne Hc Hlast.
  destruct (append_pdu_spec d (pdu_id s (Normal c)) pdu json c room Hr) as (d' & Hd & E1 & E2 & E3 & E4).
  exists d'. split_and!; [done|..].
  - intros k v. rewrite E1, lookup_insert. case_decide; [subst; eauto 10|apply HI].
  - unfold get_pdu_count, get, kv_get. run. rewrite E2, lookup_insert_eq. cbn [map_transpose].
    by rewrite pdu_count_id.
  - unfold get_pdu_json, get_non_outlier_pdu_json, get_non_outlier, get, kv_get. run.
    rewrite E2, lookup_insert_eq, E1, lookup_insert_eq. cbn [ok_or]. by rewrite from_slice_to_vec.
  - unfold last_timeline_count. rewrite bind_gets, E4, lookup_insert_eq. done.
  - by apply room_entries_append.
Qed.

(** Asking for the events before position 0 wraps around (release
    arithmetic) and returns the whole timeline of the room instead of
    nothing. *)
Theorem pdus_until_zero_wraps (JP : Json PduEvent) (JM : Json (gmap bytes bytes)) d user room s :
  TimelineInv d → get_shortroomid room d = (Ok (Some s), d) → is_u64 s → s ≠ 0 →
  pdus_until user room (Normal 0) d = (Ok (timeline_entry user <$> reverse (room_entries d s (λ _, true))), d).
Proof.
  intros HI Hroom Hs Hne. unfold pdus_until, count_to_id.
  rewrite (bind_ok _ _ _ (to_be_bytes s, pdu_id s (Normal u64_max)) d).
  2:{ rewrite (bind_ok _ _ _ _ _ Hroom). done. }
  run. do 3 f_equal. rewrite iter_from_prefix_rev by apply starts_with_own. f_equal.
  apply (room_entries_cut d s (λ k, bleb k (pdu_id s (Normal u64_max)))); [done..|].
  intros c Hc. rewrite bleb_pdu_id by (done || (simpl; unfold u64_max; lia)).
  destruct c as [x|x]; simpl in *; [done|]. destruct (Z.compare_spec x u64_max); try done; lia.
Qed.

(** A database with one room, for the witnesses. *)
Definition one_room : Db := (get_or_create_shortroomid (lit "!r") empty_db).2.

Lemma one_room_timeline : TimelineInv one_room.
Proof. intros k v Hk. exfalso. vm_compute in Hk. discriminate. Qed.

#[local] Existing Instance sample_ruma.
#[local] Instance json_pdu : Json PduEvent := json_countable PduEvent.
#[local] Instance json_map : Json (gmap bytes bytes) := json_countable (gmap bytes bytes).

Definition timeline_sample_pdu : PduEvent :=
  mkPdu (lit "$e1") (Some (lit "!r")) (lit "@a:b") 1 (lit "m.room.message") (lit "{}") None []
    1 [] None None [] None.

Lemma timeline_iterators_exact_witness :
  pdus_until (lit "@a:b") (lit "!r") (Normal 5) one_room =
    (Ok (timeline_entry (lit "@a:b") <$> reverse (room_entries one_room 1 (before (Normal 5)))), one_room).
Proof.
  apply (timeline_iterators_exact json_pdu json_map one_room (lit "@a:b") (lit "!r") 1 (Normal 5) (Normal 5)).
  - apply one_room_timeline.
  - apply injective_projections; [vm_compute; reflexivity|reflexivity].
  - by split.
  - done.
  - by split.
  - by split.
Defined.

