(* ===== verification/PduJson.v ===== *)
(** * PduJson: events as clients and other servers see them

    The conversions of [server/src/service/pdu.rs].  An event's [content] and
    [unsigned] are JSON texts; a conversion assembles an object from the
    event's fields. *)
From S2P Require Import Prelude Bytes JsonValue KvTree Pdu Database Timeline.

Section conversions.
Context {RU : Ruma}.
Context `{JV : !Json Value}.

(** [RoomRedactionEventContent]: the event it redacts and its other fields. *)
Record RedactionContent := mkRedaction {
  rc_redacts : option bytes;
  rc_reason : option bytes;
}.

Context `{JR : !Json RedactionContent}.

(** Copies the [redacts] property of the event to the [content] dict and
    vice-versa. *)
Definition copy_redacts (self : PduEvent) : option bytes * bytes :=
  if bool_decide (pdu_kind self = lit "m.room.redaction") then
    match from_slice (pdu_content self) with
    | Some content =>
        match rc_redacts content with
        | Some redacts => (Some redacts, pdu_content self)
        | None =>
            match pdu_redacts self with
            | Some redacts => (pdu_redacts self, to_vec (mkRedaction (Some redacts) (rc_reason content)))
            | None => (pdu_redacts self, pdu_content self)
            end
        end
    | None => (pdu_redacts self, pdu_content self)
    end
  else (pdu_redacts self, pdu_content self).

(** A raw JSON text inside [json!]: its value. *)
Definition raw_json (text : bytes) : res Value := expect (from_slice text).

Definition opt_string (o : option bytes) : Value := match o with Some s => VString s | None => VNull end.

(** [if let Some(x) = ... { json[key] = json!(x) }]. *)
Definition put_string (key : bytes) (o : option bytes) (fields : list (bytes * Value)) : list (bytes * Value) :=
  match o with Some s => set_json_field key (VString s) fields | None => fields end.

Definition put_unsigned (self : PduEvent) (fields : list (bytes * Value)) : res (list (bytes * Value)) :=
  match pdu_unsigned self with
  | Some unsigned => v ← raw_json unsigned; Ok (set_json_field (lit "unsigned") v fields)
  | None => Ok fields
  end.

(** The fields the timeline conversions share. *)
Definition event_fields (self : PduEvent) (content : Value) : list (bytes * Value) :=
  [(lit "content", content);
   (lit "type", VString (pdu_kind self));
   (lit "event_id", VString (pdu_event_id self));
   (lit "sender", VString (pdu_sender self));
   (lit "origin_server_ts", VNumber (pdu_origin_server_ts self))].

(** The timeline conversions, without or with the room id. *)
Definition timeline_event (self : PduEvent) (room : option bytes) : res Value :=
  let '(redacts, content) := copy_redacts self in
  content ← raw_json content;
  fields ← put_unsigned self (event_fields self content ++
             match room with Some r => [(lit "room_id", VString r)] | None => [] end);
  Ok (VObject (put_string (lit "redacts") redacts (put_string (lit "state_key") (pdu_state_key self) fields))).

Definition to_sync_room_event (self : PduEvent) : res Value := timeline_event self None.

Definition to_sync_message_like_event (self : PduEvent) : res Value := timeline_event self None.

Definition to_room_event (self : PduEvent) : res Value :=
  r ← room_id self; timeline_event self (Some r).

Definition to_message_like_event (self : PduEvent) : res Value :=
  r ← room_id self; timeline_event self (Some r).

Definition to_state_event (self : PduEvent) : res Value :=
  r ← room_id self;
  content ← raw_json (pdu_content self);
  fields ← put_unsigned self (event_fields self content ++
             [(lit "room_id", VString r); (lit "state_key", opt_string (pdu_state_key self))]);
  Ok (VObject fields).

Definition to_sync_state_event (self : PduEvent) : res Value :=
  content ← raw_json (pdu_content self);
  fields ← put_unsigned self (event_fields self content ++ [(lit "state_key", opt_string (pdu_state_key self))]);
  Ok (VObject fields).

Definition to_stripped_state_event (self : PduEvent) : res Value :=
  content ← raw_json (pdu_content self);
  Ok (VObject [(lit "content", content); (lit "type", VString (pdu_kind self));
               (lit "sender", VString (pdu_sender self)); (lit "state_key", opt_string (pdu_state_key self))]).

Definition to_stripped_spacechild_state_event (self : PduEvent) : res Value :=
  content ← raw_json (pdu_content self);
  Ok (VObject [(lit "content", content); (lit "type", VString (pdu_kind self));
               (lit "sender", VString (pdu_sender self)); (lit "state_key", opt_string (pdu_state_key self));
               (lit "origin_server_ts", VNumber (pdu_origin_server_ts self))]).

Definition to_member_event (self : PduEvent) : res Value :=
  r ← room_id self;
  content ← raw_json (pdu_content self);
  fields ← put_unsigned self (event_fields self content ++
             [(lit "redacts", opt_string (pdu_redacts self)); (lit "room_id", VString r);
              (lit "state_key", opt_string (pdu_state_key self))]);
  Ok (VObject fields).

(** ** Federation

    [CanonicalJsonObject] as the list of its fields. *)
Definition convert_to_outgoing_federation_event (pdu_json : list (bytes * Value)) : list (bytes * Value) :=
  remove_json_field (lit "event_id")
    (match field (lit "unsigned") pdu_json with
     | Some (VObject unsigned) =>
         set_json_field (lit "unsigned") (VObject (remove_json_field (lit "transaction_id") unsigned)) pdu_json
     | _ => pdu_json
     end).

(** [from_value] of an object, as an event. *)
Definition from_id_val (of_value : Value → option PduEvent) (event_id : bytes) (json : list (bytes * Value)) :
    option PduEvent :=
  of_value (VObject (set_json_field (lit "event_id") (VString event_id) json)).

Definition gen_event_id_canonical_json (reference_hash : Value → option bytes) (pdu : bytes) :
    res (bytes * list (bytes * Value)) :=
  match (from_slice pdu : option Value) with
  | Some (VObject value) =>
      h ← ok_or (reference_hash (VObject value)) (BadRequest BadJson "Invalid PDU format");
      if event_id_ok (lit "$" ++ h) then Ok (lit "$" ++ h, value) else Panic
  | _ => Err (BadServerResponse "Invalid PDU in server response")
  end.
End conversions.

(** * Claims *)

(** Redactions name their target in both places.  When a redaction event
    names a redacted event, in its content or at its top level, clients are
    served an event that names it both at the top level and in the content;
    any other event keeps its [redacts] and content. *)
Theorem copy_redacts_mirrors (JR : Json RedactionContent) (pdu : PduEvent) (content : RedactionContent) r :
  pdu_kind pdu = lit "m.room.redaction" → from_slice (pdu_content pdu) = Some content →
  rc_redacts content = Some r ∨ (rc_redacts content = None ∧ pdu_redacts pdu = Some r) →
  ∃ text content', copy_redacts pdu = (Some r, text) ∧ from_slice text = Some content' ∧
    rc_redacts content' = Some r ∧ rc_reason content' = rc_reason content.
Proof.
  intros Hk Hc [Hr|[Hr Hp]]; unfold copy_redacts; rewrite bool_decide_eq_true_2, Hc, Hr by done.
  - by exists (pdu_content pdu), content.
  - rewrite Hp. eexists _, _. split_and!; [done|apply from_slice_to_vec|done|done].
Qed.

(** What leaves over federation.  The outgoing form of an event has no
    [event_id] and no [transaction_id] in its [unsigned]; every other field,
    and every other field of [unsigned], is the event's own. *)
Theorem outgoing_federation_event_exact (json : list (bytes * Value)) :
  let out := convert_to_outgoing_federation_event json in
  field (lit "event_id") out = None ∧
  (∀ u, field (lit "unsigned") out = Some (VObject u) → field (lit "transaction_id") u = None) ∧
  (∀ k, k ≠ lit "event_id" → k ≠ lit "unsigned" → field k out = field k json) ∧
  (∀ u k, field (lit "unsigned") json = Some (VObject u) → k ≠ lit "transaction_id" →
    ∃ u', field (lit "unsigned") out = Some (VObject u') ∧ field k u' = field k u).
Proof.
  cbv zeta. unfold convert_to_outgoing_federation_event. split_and!.
  - apply field_remove_eq.
  - intros u. rewrite field_remove_ne by done. destruct (field (lit "unsigned") json) as [v|] eqn:E; [|congruence].
    destruct v; try (rewrite E; done). rewrite field_set_eq. intros [= <-]. apply field_remove_eq.
  - intros k H1 H2. rewrite field_remove_ne by done. destruct (field (lit "unsigned") json) as [[]|]; try done.
    by rewrite field_set_ne.
  - intros u k E Hk. rewrite field_remove_ne, E by done. rewrite field_set_eq. eexists. split; [done|].
    by apply field_remove_ne.
Qed.

#[global] Instance RedactionContent_eq_dec : EqDecision RedactionContent.
Proof. solve_decision. Defined.

#[global] Program Instance RedactionContent_countable : Countable RedactionContent :=
  inj_countable' (λ c, (rc_redacts c, rc_reason c)) (λ '(r, s), mkRedaction r s) _.
Next Obligation. by intros []. Qed.

Definition redaction_sample : PduEvent :=
  mkPdu (lit "$e") (Some (lit "!r")) (lit "@a:b") 1 (lit "m.room.redaction")
    (to_vec (Json := json_countable RedactionContent) (mkRedaction None None)) None [] 1 [] (Some (lit "$x")) None [] None.

