(* ===== verification/AccountData.v ===== *)
(** * AccountData: per-user settings, global and per room

    [server/src/database/key_value/account_data.rs].  Each (room, user, type)
    has one current entry, stored under a key that carries the count of its
    last change, so that the changes after a position are a range scan. *)
From S2P Require Import Prelude Bytes KvTree Pdu Database.

Section account_data.
(** [serde_json::Value]: its JSON and the test for a field. *)
Context {Value : Type} `{JV : !Json Value} (has_field : bytes → Value → bool).

(** [room 0xff user 0xff]; global data has an empty room. *)
Definition data_prefix (room_id : option bytes) (user_id : bytes) : bytes :=
  default [] room_id ++ ff :: user_id ++ [ff].

(** Places one event in the account data of the user and removes the previous
    entry. *)
Definition update (room_id : option bytes) (user_id event_type : bytes) (data : Value) : M Db unit :=
  let prefix := data_prefix room_id user_id in
  c ← next_count;
  let roomuserdataid := prefix ++ to_be_bytes c ++ ff :: event_type in
  let key := prefix ++ event_type in
  (if negb (has_field (lit "type") data) || negb (has_field (lit "content") data)
   then fail (BadRequest InvalidParam "Account data doesn't have all required fields.")
   else mret tt);;
  insert roomuserdataid_accountdata roomuserdataid (to_vec data);;
  prev ← get roomusertype_roomuserdataid key;
  insert roomusertype_roomuserdataid key roomuserdataid;;
  match prev with
  | Some prev => remove roomuserdataid_accountdata prev
  | None => mret tt
  end.

(** Searches the account data for a specific kind. *)
Definition get_data (room_id : option bytes) (user_id kind : bytes) : M Db (option Value) :=
  o ← get roomusertype_roomuserdataid (data_prefix room_id user_id ++ kind);
  match o with
  | None => mret None
  | Some roomuserdataid =>
      o' ← get roomuserdataid_accountdata roomuserdataid;
      lift (map_transpose (λ data, ok_or (from_slice data) (BadDatabase "could not deserialize")) o')
  end.

(** One entry of the change feed. *)
Definition change_of (e : entry) : res (bytes * Value) :=
  kind ← ok_or (string_from_bytes (rsplit_first e.1)) (BadDatabase "RoomUserData ID in db is invalid.");
  data ← ok_or (from_slice e.2) (BadDatabase "Database contains invalid account data.");
  Ok (kind, data).

(** All changes to the account data after [since]; the entry exactly at [since]
    was sent last time. *)
Definition changes_since (prefix : bytes) (since : Z) : M Db (gmap bytes Value) :=
  gets (λ d,
    l ← collect (change_of <$> take_while (λ e, starts_with prefix e.1)
      (kv_iter_from (kv d roomuserdataid_accountdata) (prefix ++ to_be_bytes (w64 (since + 1))) false));
    Ok (fold_left (λ userdata '(kind, data), <[kind := data]> userdata) l ∅)).

Definition global_changes_since (user_id : bytes) (since : Z) : M Db (gmap bytes Value) :=
  changes_since (data_prefix None user_id) since.

Definition room_changes_since (room_id user_id : bytes) (since : Z) : M Db (gmap bytes Value) :=
  changes_since (data_prefix (Some room_id) user_id) since.
End account_data.

(** * The invariant *)

(** The key of an entry and of its pointer. *)
Definition data_id (p : bytes) (c : Z) (t : bytes) : bytes := p ++ to_be_bytes c ++ ff :: t.

Definition is_prefix (p : bytes) : Prop :=
  ∃ room user, no_ff room ∧ no_ff user ∧ p = room ++ ff :: user ++ [ff].

Lemma prefix_inj p p' x y : is_prefix p → is_prefix p' → p ++ x = p' ++ y → p = p' ∧ x = y.
Proof.
  intros (r & u & Hr & Hu & ->) (r' & u' & Hr' & Hu' & ->) E.
  rewrite <-!app_assoc in E. simpl in E. apply app_ff_inj in E as [-> E]; [|done..].
  rewrite <-!app_assoc in E. simpl in E. by apply app_ff_inj in E as [-> ->].
Qed.

Lemma data_id_inj p c t p' c' t' :
  is_prefix p → is_prefix p' → is_u64 c → is_u64 c' → data_id p c t = data_id p' c' t' →
  p = p' ∧ c = c' ∧ t = t'.
Proof.
  intros Hp Hp' Hc Hc' E. unfold data_id in E. apply prefix_inj in E as [-> E]; [|done..].
  apply app_inj_1 in E as [E1 E2]; [|by rewrite !length_to_be_bytes].
  apply to_be_bytes_inj in E1 as ->; [|done..]. by injection E2.
Qed.

(** Pointers and entries match one to one. *)
Record DataInv (d : Db) (n : Z) : Prop := mk_DataInv {
  di_pointer : ∀ k i, kv d roomusertype_roomuserdataid !! k = Some i →
    ∃ p c t, is_prefix p ∧ utf8_valid t = true ∧ k = p ++ t ∧ i = data_id p c t ∧ 1 ≤ c ≤ n ∧
      is_Some (kv d roomuserdataid_accountdata !! i);
  di_entry : ∀ i v, kv d roomuserdataid_accountdata !! i = Some v →
    ∃ p c t, is_prefix p ∧ utf8_valid t = true ∧ i = data_id p c t ∧ 1 ≤ c ≤ n ∧
      kv d roomusertype_roomuserdataid !! (p ++ t) = Some i;
}.

Lemma empty_db_data : DataInv empty_db 0.
Proof. split; intros k v; simpl; by rewrite lookup_empty. Qed.

Section spec.
Context {Value : Type} `{JV : !Json Value} (has_field : bytes → Value → bool).

(** What an update leaves in the two trees. *)
Definition updated (p t : bytes) (c : Z) (v : bytes) (d d' : Db) : Prop :=
  kv d' roomusertype_roomuserdataid = <[p ++ t := data_id p c t]> (kv d roomusertype_roomuserdataid) ∧
  (∀ i, kv d' roomuserdataid_accountdata !! i =
    if decide (i = data_id p c t) then Some v
    else if decide (kv d roomusertype_roomuserdataid !! (p ++ t) = Some i) then None
    else kv d roomuserdataid_accountdata !! i).

Lemma update_spec d n room user t data :
  count_is d n → n < u64_max → DataInv d n →
  no_ff (default [] room) → no_ff user →
  has_field (lit "type") data = true → has_field (lit "content") data = true →
  ∃ d', update has_field room user t data d = (Ok tt, d') ∧ count_is d' (n + 1) ∧
    updated (data_prefix room user) t (n + 1) (to_vec data) d d'.
Proof.
  intros Hc Hn HI Hr Hu Ht Hcn. unfold update. cbv zeta.
  rewrite (bind_ok _ _ _ _ _ (next_count_spec d n Hc Hn)). rewrite Ht, Hcn. cbn [negb orb].
  assert (is_u64 (n + 1)) as Hu1 by (destruct Hc as [[] _]; unfold is_u64; lia).
  assert (is_prefix (data_prefix room user)) as Hp by (by exists (default [] room), user).
  set (p := data_prefix room user) in *. fold (data_id p (n + 1) t).
  unfold insert, remove, get, kv_get. run. kv_simpl.
  destruct (kv d roomusertype_roomuserdataid !! (p ++ t)) as [i|] eqn:Ei.
  - eexists. split; [done|]. split.
    { split; [done|]. left. kv_simpl. unfold set_count. kv_simpl. apply lookup_insert_eq. }
    split; [by kv_simpl|]. intros j. kv_simpl. unfold kv_remove, kv_insert. rewrite lookup_delete.
    destruct (di_pointer _ _ HI _ _ Ei) as (p' & c' & t' & Hp' & _ & Ek & -> & Hc' & _).
    case_decide as Ej.
    + subst j. rewrite decide_False.
      * by rewrite decide_True by congruence.
      * intros E. apply data_id_inj in E as (_ & ? & _); [lia|done|done| |done].
        destruct Hc as [[] _]. unfold is_u64. lia.
    + rewrite lookup_insert. destruct (decide (j = data_id p (n + 1) t)) as [->|E1].
      * by rewrite decide_True.
      * rewrite !decide_False by congruence. done.
  - eexists. split; [done|]. split.
    { split; [done|]. left. kv_simpl. unfold set_count. kv_simpl. apply lookup_insert_eq. }
    split; [by kv_simpl|]. intros j. kv_simpl. unfold kv_insert. rewrite lookup_insert.
    destruct (decide (j = data_id p (n + 1) t)) as [->|E1].
    + by rewrite decide_True.
    + by rewrite !decide_False by congruence.
Qed.

Lemma updated_inv d d' n p t v :
  DataInv d n → 0 ≤ n → n + 1 ≤ u64_max → is_prefix p → utf8_valid t = true →
  updated p t (n + 1) v d d' → DataInv d' (n + 1).
Proof.
  intros HI Hn0 Hn Hp Ht (E1 & E2). split.
  - intros k i. rewrite E1, lookup_insert. case_decide as Ek.
    + intros [= <-]. subst k. exists p, (n + 1), t. split_and!; [done..|lia|lia|].
      rewrite E2, decide_True by done. by eexists.
    + intros Hk. destruct (di_pointer _ _ HI _ _ Hk) as (p' & c' & t' & Hp' & Ht' & -> & -> & Hc' & Hs).
      exists p', c', t'. split_and!; [done..|lia|lia|]. rewrite E2. case_decide as Ei; [by eexists|].
      rewrite decide_False; [done|]. intros Hpt.
      destruct (di_pointer _ _ HI _ _ Hpt) as (p2 & c2 & t2 & Hp2 & Ht2 & Ek2 & Ei2 & Hc2 & _).
      apply data_id_inj in Ei2 as (-> & -> & ->); [|done|done|unfold is_u64; lia..]. congruence.
  - intros i w. rewrite E2. case_decide as Ei.
    + intros [= <-]. subst i. exists p, (n + 1), t. split_and!; [done..|lia|lia|].
      rewrite E1. apply lookup_insert_eq.
    + case_decide as Ej; [done|]. intros Hi.
      destruct (di_entry _ _ HI _ _ Hi) as (p' & c' & t' & Hp' & Ht' & -> & Hc' & Hk').
      exists p', c', t'. split_and!; [done..|lia|lia|]. rewrite E1, lookup_insert_ne; [done|].
      intros E. apply Ej. by rewrite E.
Qed.

Lemma get_data_spec d n room user t c v x :
  DataInv d n → kv d roomusertype_roomuserdataid !! (data_prefix room user ++ t) =
    Some (data_id (data_prefix room user) c t) →
  kv d roomuserdataid_accountdata !! data_id (data_prefix room user) c t = Some v →
  from_slice v = Some x → get_data room user t d = (Ok (Some x), d).
Proof.
  intros HI Hk Hi Hx. unfold get_data, get, kv_get. run. rewrite Hk, Hi. cbn [map_transpose].
  by rewrite Hx.
Qed.

(** The entries of one prefix after a position. *)
Lemma changes_entry d n p since e :
  DataInv d n → is_prefix p → is_u64 n → 0 ≤ since < u64_max →
  e ∈ take_while (λ e, starts_with p e.1)
        (kv_iter_from (kv d roomuserdataid_accountdata) (p ++ to_be_bytes (w64 (since + 1))) false) ↔
  ∃ c t, since < c ∧ is_u64 c ∧ utf8_valid t = true ∧ e.1 = data_id p c t ∧
    kv d roomuserdataid_accountdata !! e.1 = Some e.2 ∧
    kv d roomusertype_roomuserdataid !! (p ++ t) = Some e.1.
Proof.
  intros HI Hp Hn Hs. assert (w64 (since + 1) = since + 1) as ->.
  { unfold w64. apply Z.mod_small. unfold u64_max in *. lia. }
  rewrite iter_from_prefix by apply starts_with_app. rewrite elem_of_bfilter, elem_of_entries'.
  assert (∀ c t, is_u64 c → bleb (p ++ to_be_bytes (since + 1)) (data_id p c t) = (since + 1 <=? c)) as Hcmp.
  { intros c t Hc. unfold bleb, data_id. rewrite bytes_cmp_app, <-(app_nil_r (to_be_bytes (since + 1))).
    rewrite bytes_cmp_to_be_bytes by (done || (unfold is_u64, u64_max in *; lia)).
    destruct (Z.compare_spec (since + 1) c), (Z.leb_spec (since + 1) c); try done; lia. }
  split.
  - intros [Hb He]. apply andb_true_iff in Hb as [Hsw Hle].
    destruct (di_entry _ _ HI _ _ He) as (p' & c & t & Hp' & Ht & Ei & Hc & Hk).
    rewrite Ei in Hsw. apply starts_with_spec in Hsw as [r Hr]. unfold data_id in Hr.
    apply prefix_inj in Hr as [-> _]; [|done..]. rewrite Ei, Hcmp in Hle by (unfold is_u64 in *; lia).
    exists c, t. split_and!; try done; unfold is_u64 in *; lia.
  - intros (c & t & Hlt & Hc & Ht & Ei & He & Hk). split; [|done]. rewrite Ei.
    apply andb_true_iff. split; [apply starts_with_app|]. rewrite Hcmp by done. apply Z.leb_le. lia.
Qed.

Lemma changes_since_spec d n p since :
  DataInv d n → is_prefix p → is_u64 n → 0 ≤ since < u64_max →
  (∀ i v, kv d roomuserdataid_accountdata !! i = Some v → is_Some (from_slice v : option Value)) →
  ∃ m, changes_since p since d = (Ok m, d) ∧
    ∀ t (x : Value), m !! t = Some x ↔ ∃ c v, since < c ∧ is_u64 c ∧ utf8_valid t = true ∧
      kv d roomusertype_roomuserdataid !! (p ++ t) = Some (data_id p c t) ∧
      kv d roomuserdataid_accountdata !! data_id p c t = Some v ∧ from_slice v = Some x.
Proof.
  intros HI Hp Hn Hs Hdec. unfold changes_since. run.
  set (l := take_while _ _).
  assert (∀ e, e ∈ l ↔ _) as Hl by (intros e; apply (changes_entry d n p since e); done).
  assert (∀ c t, utf8_valid t = true → rsplit_first (data_id p c t) = t) as Hrs.
  { intros c t Ht. unfold data_id. rewrite app_assoc. apply rsplit_first_app. by apply utf8_no_ff. }
  set (val := λ e : entry, from_slice e.2 : option Value).
  assert (∃ xs, collect (change_of <$> l) = Ok xs ∧
    ∀ t x, (t, x) ∈ xs ↔ ∃ e, e ∈ l ∧ rsplit_first e.1 = t ∧ val e = Some x) as (xs & Hxs & Hel).
  { assert (∀ e, e ∈ l → ∃ x, change_of e = Ok (rsplit_first e.1, x) ∧ val e = Some x) as Hc.
    { intros e He. apply Hl in He as (c & t & _ & _ & Ht & Ei & He & _).
      destruct (Hdec _ _ He) as [x Hx]. exists x. unfold change_of. rewrite Ei, Hrs by done.
      rewrite string_from_bytes_valid by done. cbn. unfold val. rewrite Hx. done. }
    clear Hl. induction l as [|e l IH]; [exists []; split; [done|set_solver]|].
    destruct IH as (xs & Hxs & Hel); [intros e' He'; apply Hc; by constructor|].
    destruct (Hc e) as (x & Hx & Hv); [by constructor|].
    exists ((rsplit_first e.1, x) :: xs). rewrite fmap_cons. cbn [collect]. rewrite Hx, Hxs. split; [done|].
    intros t y. rewrite elem_of_cons, Hel. split.
    - intros [[= -> ->]|(e' & ? & ? & ?)]; [exists e; split_and!; [by constructor|done|done]|].
      exists e'. split_and!; [by constructor|done|done].
    - intros (e' & [->|Hin]%elem_of_cons & <- & Hv'); [left; congruence|]. right. eauto. }
  rewrite Hxs. eexists. split; [done|]. intros t x.
  rewrite lookup_fold_map.
  - rewrite Hel. split.
    + intros (e & He & <- & Hv). apply Hl in He as (c & t & ? & ? & Ht & Ei & He & Hk).
      rewrite Ei, Hrs by done. rewrite Ei in Hk, He. exists c, e.2. done.
    + intros (c & v & ? & ? & Ht & Hk & Hi & Hv). exists (data_id p c t, v).
      rewrite Hl. cbn [fst snd]. rewrite Hrs by done. split; [|done]. exists c, t. done.
  - intros t' x1 x2 (e1 & He1 & E1 & Hv1)%Hel (e2 & He2 & E2 & Hv2)%Hel.
    apply Hl in He1 as (c1 & t1 & _ & _ & Ht1 & Ei1 & He1 & Hk1).
    apply Hl in He2 as (c2 & t2 & _ & _ & Ht2 & Ei2 & He2 & Hk2).
    rewrite Ei1, Hrs in E1 by done. rewrite Ei2, Hrs in E2 by done. subst.
    rewrite Hk1 in Hk2. injection Hk2 as E. unfold val in *. rewrite E in He1. congruence.
Qed.
End spec.

(** * Claims *)

(** Account data is a map with a change feed.  An update is read back,
    leaves every other (room, user, type) as it was, keeps the invariant, and
    takes a fresh count; an update without the required fields fails and
    changes no account data. *)
Theorem account_data_update_correct (Value : Type) (JV : Json Value) has_field d n room user t data :
  count_is d n → n < u64_max → DataInv d n → no_ff (default [] room) → no_ff user → utf8_valid t = true →
  if has_field (lit "type") data && has_field (lit "content") data then
    ∃ d', update has_field room user t data d = (Ok tt, d') ∧ count_is d' (n + 1) ∧ DataInv d' (n + 1) ∧
      get_data room user t d' = (Ok (Some data), d') ∧
      (∀ room' user' t', no_ff (default [] room') → no_ff user' →
        (default [] room', user', t') ≠ (default [] room, user, t) →
        (get_data room' user' t' d').1 = (get_data room' user' t' d).1)
  else
    ∃ d', update has_field room user t data d =
        (Err (BadRequest InvalidParam "Account data doesn't have all required fields."), d') ∧
      kv d' roomuserdataid_accountdata = kv d roomuserdataid_accountdata ∧
      kv d' roomusertype_roomuserdataid = kv d roomusertype_roomuserdataid.
Proof.
  intros Hc Hn HI Hr Hu Ht. destruct (has_field (lit "type") data && has_field (lit "content") data) eqn:Ef.
  - apply andb_true_iff in Ef as [H1 H2].
    destruct (update_spec has_field d n room user t data Hc Hn HI Hr Hu H1 H2) as (d' & Hd & Hc' & Hupd).
    assert (is_prefix (data_prefix room user)) as Hp by (by exists (default [] room), user).
    assert (0 ≤ n) by (destruct Hc as [[] _]; lia).
    pose proof (updated_inv d d' n _ t _ HI ltac:(lia) ltac:(lia) Hp Ht Hupd) as HI'.
    destruct Hupd as [E1 E2]. exists d'. split_and!; [done|done|done|..].
    + eapply (get_data_spec d' (n + 1)); [done| | |apply from_slice_to_vec].
      * rewrite E1. apply lookup_insert_eq.
      * by rewrite E2, decide_True.
    + intros room' user' t' Hr' Hu' Hne.
      assert (is_prefix (data_prefix room' user')) as Hp' by (by exists (default [] room'), user').
      unfold get_data, get, kv_get. run. rewrite E1, lookup_insert_ne; last first.
      { intros E. apply prefix_inj in E as [E ->]; [|done..]. unfold data_prefix in E.
        apply app_ff_inj in E as [Er E]; [|done..]. apply app_ff_inj in E as [Eu _]; [|done..].
        apply Hne. congruence. }
      destruct (kv d roomusertype_roomuserdataid !! (data_prefix room' user' ++ t')) as [i|] eqn:Ei; [|done].
      cbn [fst]. f_equal. rewrite E2.
      destruct (di_pointer _ _ HI _ _ Ei) as (p' & c' & s' & Hp2 & Hs' & Ek & -> & Hc2 & _).
      apply prefix_inj in Ek as [<- <-]; [|done..].
      rewrite !decide_False; [done| |].
      * intros Hj. destruct (di_pointer _ _ HI _ _ Hj) as (p2 & c2 & s2 & Hp3 & _ & Ek & E & Hc3 & _).
        apply data_id_inj in E as (<- & <- & <-); [|done|done|destruct Hc as [[] _]; unfold is_u64; lia..].
        apply prefix_inj in Ek as [E ->]; [|done..]. apply Hne. unfold data_prefix in E.
        apply app_ff_inj in E as [Er E]; [|done..]. apply app_ff_inj in E as [Eu _]; [|done..]. congruence.
      * intros E. apply data_id_inj in E as (_ & ? & _); [lia|done|done|destruct Hc as [[] _]; unfold is_u64; lia..].
  - unfold update. cbv zeta. rewrite (bind_ok _ _ _ _ _ (next_count_spec d n Hc Hn)).
    assert (negb (has_field (lit "type") data) || negb (has_field (lit "content") data) = true) as ->.
    { rewrite <-negb_andb, Ef. done. }
    eexists. run. split; [done|]. split; by kv_simpl.
Qed.

(** The change feed is exact: [changes_since] returns a type exactly when
    its last update has a count greater than [since], with the current data. *)
Theorem account_data_changes_exact (Value : Type) (JV : Json Value) d n room user since :
  DataInv d n → is_u64 n → no_ff room → no_ff user → 0 ≤ since < u64_max →
  (∀ i v, kv d roomuserdataid_accountdata !! i = Some v → is_Some (from_slice v : option Value)) →
  ∃ m, room_changes_since room user since d = (Ok m, d) ∧
    ∀ t (x : Value), m !! t = Some x ↔ ∃ c v, since < c ∧ is_u64 c ∧ utf8_valid t = true ∧
      kv d roomusertype_roomuserdataid !! (data_prefix (Some room) user ++ t) =
        Some (data_id (data_prefix (Some room) user) c t) ∧
      kv d roomuserdataid_accountdata !! data_id (data_prefix (Some room) user) c t = Some v ∧
      from_slice v = Some x.
Proof.
  intros HI Hn Hr Hu Hs Hdec. apply (changes_since_spec (λ _ _, true) d n); [done| |done..]. by exists room, user.
Qed.

