(* ===== verification/Devices.v ===== *)
(** * Devices: access tokens, device metadata, to-device messages

    The device part of [server/src/database/key_value/users.rs] and the account
    operations of [server/src/service/users/mod.rs] built on it.  Random
    strings, the clock and the JSON of a device are parameters. *)
From S2P Require Import Prelude Bytes KvTree Pdu Database Accounts.

Record Device := mkDevice {
  device_id : bytes;
  display_name : option bytes;
  last_seen_ip : option bytes;
  last_seen_ts : option Z;
}.

#[global] Instance Device_eq_dec : EqDecision Device.
Proof. solve_decision. Defined.

#[global] Program Instance Device_countable : Countable Device :=
  inj_countable' (λ v, (device_id v, display_name v, last_seen_ip v, last_seen_ts v))
    (λ '(a, b, c, d), mkDevice a b c d) _.
Next Obligation. by intros []. Qed.

Section devices.
Context {RU : Ruma} `{JD : !Json Device}.

(** [user 0xff device]. *)
Definition userdeviceid (user_id device_id : bytes) : bytes := user_id ++ ff :: device_id.

(** Find out which user an access token belongs to. *)
Definition find_from_token (token : bytes) : M Db (option (bytes * bytes)) :=
  o ← get token_userdeviceid token;
  match o with
  | None => mret None
  | Some bs =>
      lift (match split_ff bs with
            | user_bytes :: device_bytes :: _ =>
                user ← parse_id user_id_ok "User ID in token_userdeviceid is invalid unicode."
                         "User ID in token_userdeviceid is invalid." user_bytes;
                device ← ok_or (string_from_bytes device_bytes)
                           (BadDatabase "Device ID in token_userdeviceid is invalid.");
                Ok (Some (user, device))
            | _ => bad_database "Device ID in token_userdeviceid is invalid."
            end)
  end.

(** Replaces the access token of one device. *)
Definition set_token (user_id device_id token : bytes) : M Db unit :=
  let userdeviceid := userdeviceid user_id device_id in
  o ← get userdeviceid_metadata userdeviceid;
  assert (bool_decide (is_Some o));;
  old ← get userdeviceid_token userdeviceid;
  match old with
  | Some old_token => remove token_userdeviceid old_token
  | None => mret tt
  end;;
  insert userdeviceid_token userdeviceid token;;
  insert token_userdeviceid token userdeviceid.

(** Adds a new device to a user. *)
Definition create_device (now : Z) (user_id device_id token : bytes)
    (initial_device_display_name : option bytes) : M Db unit :=
  ex ← exists_ user_id;
  assert ex;;
  increment userid_devicelistversion user_id;;
  insert userdeviceid_metadata (userdeviceid user_id device_id)
    (to_vec (mkDevice device_id initial_device_display_name None (Some now)));;
  set_token user_id device_id token.

(** Removes a device from a user. *)
Definition remove_device (user_id device_id : bytes) : M Db unit :=
  let userdeviceid := userdeviceid user_id device_id in
  old ← get userdeviceid_token userdeviceid;
  match old with
  | Some old_token =>
      remove userdeviceid_token userdeviceid;;
      remove token_userdeviceid old_token
  | None => mret tt
  end;;
  remove_prefix todeviceid_events (userdeviceid ++ [ff]);;
  increment userid_devicelistversion user_id;;
  remove userdeviceid_metadata userdeviceid.

(** All device ids of this user. *)
Definition all_device_ids (user_id : bytes) (d : Db) : list (res bytes) :=
  (λ e, ok_or (string_from_bytes (rsplit_first e.1))
          (BadDatabase "Device ID in userdeviceid_metadata is invalid."))
    <$> kv_scan_prefix (kv d userdeviceid_metadata) (user_id ++ [ff]).

Definition update_device_metadata (user_id device_id : bytes) (device : Device) : M Db unit :=
  let userdeviceid := userdeviceid user_id device_id in
  o ← get userdeviceid_metadata userdeviceid;
  assert (bool_decide (is_Some o));;
  increment userid_devicelistversion user_id;;
  insert userdeviceid_metadata userdeviceid (to_vec device).

(** Get device metadata. *)
Definition get_device_metadata (user_id device_id : bytes) : M Db (option Device) :=
  o ← get userdeviceid_metadata (userdeviceid user_id device_id);
  lift (map_transpose (λ bs, ok_or (from_slice bs)
    (BadDatabase "Metadata in userdeviceid_metadata is invalid.")) o).

Definition get_devicelist_version (user_id : bytes) : M Db (option Z) :=
  o ← get userid_devicelistversion user_id;
  lift (map_transpose (λ bs, ok_or (u64_from_bytes bs)
    (BadDatabase "Invalid devicelistversion in db.")) o).

Definition all_user_devices_metadata (user_id : bytes) (d : Db) : list (res Device) :=
  (λ e, ok_or (from_slice e.2) (BadDatabase "Device in userdeviceid_metadata is invalid."))
    <$> kv_scan_prefix (kv d userdeviceid_metadata) (user_id ++ [ff]).

(** One step of the iterator; a device may have been removed since. *)
Definition set_device_last_seen (user device : bytes) (timestamp : Z) : M Db unit :=
  let key := userdeviceid user device in
  o ← get userdeviceid_metadata key;
  m ← lift (map_transpose (λ bs, ok_or (from_slice bs)
        (BadDatabase "Device in userdeviceid_metadata is invalid.")) o);
  match m with
  | Some v =>
      insert userdeviceid_metadata key
        (to_vec (mkDevice (Devices.device_id v) (display_name v) (last_seen_ip v) (Some timestamp)))
  | None => mret tt
  end.

(** [for error in db.set_devices_last_seen(..).filter_map(Result::err)]: every
    device is visited, failures are only logged. *)
Definition set_devices_last_seen (devices : list (bytes * bytes * Z)) : M Db unit :=
  for_each devices (λ '(user, device, timestamp),
    try_ok (set_device_last_seen user device timestamp);; mret tt).

(** ** To-device messages *)

Context {Content Event : Type} (event_json : bytes → bytes → Content → bytes) `{JE : !Json Event}.

Definition add_to_device_event (sender target_user_id target_device_id event_type : bytes)
    (content : Content) : M Db unit :=
  c ← next_count;
  insert todeviceid_events (userdeviceid target_user_id target_device_id ++ ff :: to_be_bytes c)
    (event_json event_type sender content).

Definition get_to_device_events (user_id device_id : bytes) : M Db (list Event) :=
  gets (λ d, collect ((λ e, ok_or (from_slice e.2) (BadDatabase "Event in todeviceid_events is invalid."))
    <$> kv_scan_prefix (kv d todeviceid_events) (userdeviceid user_id device_id ++ [ff]))).

(** The count at the end of a key; a shorter key panics. *)
Definition key_count (key : bytes) : res Z :=
  if bool_decide (length key < 8)%nat then Panic
  else ok_or (u64_from_bytes (drop (length key - 8) key)) (BadDatabase "ToDeviceId has invalid count bytes.").

(** The keys the loop removes: backwards from [last], while the count is at
    most [until]; keys whose count does not decode are skipped. *)
Fixpoint keys_until (until : Z) (it : list entry) : res (list entry) :=
  match it with
  | [] => Ok []
  | e :: it' =>
      match key_count e.1 with
      | Panic => Panic
      | Err _ => keys_until until it'
      | Ok count =>
          if count <=? until then rest ← keys_until until it'; Ok (e :: rest) else Ok []
      end
  end.

Definition remove_to_device_events (user_id device_id : bytes) (until : Z) : M Db unit :=
  let prefix := userdeviceid user_id device_id ++ [ff] in
  let last := prefix ++ to_be_bytes until in
  it ← gets (λ d, keys_until until
    (take_while (λ e, starts_with prefix e.1) (kv_iter_from (kv d todeviceid_events) last true)));
  modify (upd todeviceid_events (λ tr, kv_remove_all tr it)).

(** ** Accounts (service/users/mod.rs) *)

Context (calculate_password_hash : bytes → option bytes).

(** Create a new user account on this homeserver. *)
Definition create (user_id : bytes) (password : option bytes) : M Db unit :=
  set_password calculate_password_hash user_id password.

(** Deactivate account: remove all devices, then the password. *)
Definition deactivate_account (user_id : bytes) : M Db unit :=
  devices ← gets (λ d, Ok (all_device_ids user_id d));
  for_each devices (λ r, device_id ← lift r; remove_device user_id device_id);;
  set_password calculate_password_hash user_id None.
End devices.

(** * Access tokens *)

(** The two token trees are inverse, and only devices with metadata have a
    token. *)
Record TokenInv (d : Db) : Prop := mk_TokenInv {
  ti_fwd : ∀ ud tok, kv d userdeviceid_token !! ud = Some tok → kv d token_userdeviceid !! tok = Some ud;
  ti_bwd : ∀ tok ud, kv d token_userdeviceid !! tok = Some ud → kv d userdeviceid_token !! ud = Some tok;
  ti_meta : ∀ ud tok, kv d userdeviceid_token !! ud = Some tok → is_Some (kv d userdeviceid_metadata !! ud);
}.

Lemma empty_db_tokens : TokenInv empty_db.
Proof. split; intros a b; simpl; by rewrite lookup_empty. Qed.

Section tokens.
Context {RU : Ruma} {JD : Json Device}.

(** What assigning a token leaves. *)
Definition assigned (d d' : Db) (ud token : bytes) : Prop :=
  kv d' userdeviceid_token = <[ud := token]> (kv d userdeviceid_token) ∧
  (∀ tok, kv d' token_userdeviceid !! tok =
    if decide (tok = token) then Some ud
    else if decide (kv d userdeviceid_token !! ud = Some tok) then None
    else kv d token_userdeviceid !! tok).

Lemma set_token_spec d u dv token :
  TokenInv d → is_Some (kv d userdeviceid_metadata !! userdeviceid u dv) →
  kv d token_userdeviceid !! token = None → ∃ d',
    set_token u dv token d = (Ok tt, d') ∧ assigned d d' (userdeviceid u dv) token ∧
    (∀ t, t ≠ userdeviceid_token → t ≠ token_userdeviceid → kv d' t = kv d t).
Proof.
  intros HI Hm Hf. unfold set_token, get, insert, remove, kv_get. run. cbv zeta.
  rewrite bool_decide_eq_true_2 by done.
  destruct (kv d userdeviceid_token !! userdeviceid u dv) as [old|] eqn:Eo.
  - eexists. split; [done|]. split; [split; [by kv_simpl|]|].
    + intros tok. kv_simpl. unfold kv_insert, kv_remove. rewrite Eo, lookup_insert, lookup_delete.
      destruct (decide (tok = token)) as [->|Hne]; [by rewrite decide_True|].
      rewrite decide_False by congruence. destruct (decide (old = tok)) as [->|].
      * by rewrite decide_True.
      * by rewrite decide_False by congruence.
    + intros t ? ?. by rewrite !kv_upd_ne by done.
  - eexists. split; [done|]. split; [split; [by kv_simpl|]|].
    + intros tok. kv_simpl. unfold kv_insert. rewrite Eo, lookup_insert.
      destruct (decide (tok = token)) as [->|Hne]; [by rewrite decide_True|].
      by rewrite !decide_False by congruence.
    + intros t ? ?. by rewrite !kv_upd_ne by done.
Qed.

Lemma assigned_inv d d' ud token :
  TokenInv d → kv d token_userdeviceid !! token = None → assigned d d' ud token →
  is_Some (kv d' userdeviceid_metadata !! ud) →
  (∀ k, is_Some (kv d userdeviceid_metadata !! k) → is_Some (kv d' userdeviceid_metadata !! k)) →
  TokenInv d'.
Proof.
  intros HI Hf [E1 E2] Hm Hsub. split.
  - intros k tok. rewrite E1, lookup_insert. case_decide as Ek.
    + intros [= <-]. subst. by rewrite E2, decide_True.
    + intros Hk. rewrite E2. destruct (decide (tok = token)) as [->|].
      { apply HI in Hk. congruence. }
      rewrite decide_False; [by apply HI|]. intros Hk'. apply HI in Hk, Hk'. congruence.
  - intros tok k. rewrite E2, E1, lookup_insert. destruct (decide (tok = token)) as [->|].
    + intros [= <-]. by rewrite decide_True.
    + case_decide as Ed; [done|]. intros Hk. apply HI in Hk. rewrite decide_False; [done|]. congruence.
  - intros k tok. rewrite E1, lookup_insert. case_decide; [subst; done|].
    intros Hk. apply Hsub. by eapply HI.
Qed.

Lemma find_from_token_spec d tok u dv :
  utf8_valid u = true → user_id_ok u = true → utf8_valid dv = true →
  kv d token_userdeviceid !! tok = Some (userdeviceid u dv) →
  find_from_token tok d = (Ok (Some (u, dv)), d).
Proof.
  intros Hu Hi Hd Hk. unfold find_from_token, get, kv_get. run. rewrite Hk. unfold userdeviceid.
  rewrite split_ff_app by (by apply utf8_no_ff). rewrite split_ff_no_ff by (by apply utf8_no_ff).
  rewrite parse_id_ok by done. cbn. by rewrite string_from_bytes_valid.
Qed.

(** Creating a device: metadata, then the token. *)
Lemma create_device_spec now d u dv token name :
  TokenInv d → is_Some (kv d userid_password !! u) → kv d token_userdeviceid !! token = None → ∃ d',
    create_device now u dv token name d = (Ok tt, d') ∧ TokenInv d' ∧
    assigned d d' (userdeviceid u dv) token ∧
    kv d' userdeviceid_metadata = <[userdeviceid u dv := to_vec (mkDevice dv name None (Some now))]>
      (kv d userdeviceid_metadata) ∧
    (∀ t, t ∉ [userdeviceid_token; token_userdeviceid; userdeviceid_metadata; userid_devicelistversion] →
      kv d' t = kv d t).
Proof.
  intros HI He Hf. unfold create_device, exists_, get, insert, increment, kv_increment, kv_get. run.
  rewrite bool_decide_eq_true_2 by done. cbv zeta.
  match goal with |- context [set_token _ _ _ ?x] => set (d1 := x) end.
  assert (∀ t, t ≠ userdeviceid_metadata → t ≠ userid_devicelistversion → kv d1 t = kv d t) as Hk1.
  { intros t ? ?. unfold d1. by rewrite !kv_upd_ne by done. }
  assert (kv d1 userdeviceid_metadata = <[userdeviceid u dv := to_vec (mkDevice dv name None (Some now))]>
      (kv d userdeviceid_metadata)) as Em by (unfold d1; by kv_simpl).
  assert (TokenInv d1) as HI1.
  { destruct HI as [H1 H2 H3]. split; rewrite ?Hk1 by done; [done..|].
    intros k tok Hk. rewrite Em, lookup_insert. case_decide; [by eexists|by eapply H3]. }
  destruct (set_token_spec d1 u dv token HI1) as (d2 & Hs & Ha & Hk2).
  { rewrite Em, lookup_insert_eq. by eexists. }
  { by rewrite Hk1. }
  exists d2. split_and!; [done| | | |].
  - eapply assigned_inv; [exact HI1|by rewrite Hk1|exact Ha| |intros k; by rewrite Hk2].
    rewrite Hk2 by done. rewrite Em, lookup_insert_eq. by eexists.
  - destruct Ha as [E1 E2]. split; [by rewrite E1, Hk1|]. intros tok. by rewrite E2, !Hk1.
  - by rewrite Hk2.
  - intros t Ht. rewrite Hk2, Hk1; [done|..]; intros ->; apply Ht; set_solver.
Qed.

(** Removing a device: its token, metadata and queued messages go, nothing
    else does. *)
Lemma remove_device_spec d u dv :
  TokenInv d → ∃ d', remove_device u dv d = (Ok tt, d') ∧ TokenInv d' ∧
    kv d' userdeviceid_token = delete (userdeviceid u dv) (kv d userdeviceid_token) ∧
    kv d' userdeviceid_metadata = delete (userdeviceid u dv) (kv d userdeviceid_metadata) ∧
    (∀ tok, kv d' token_userdeviceid !! tok =
      if decide (kv d userdeviceid_token !! userdeviceid u dv = Some tok) then None
      else kv d token_userdeviceid !! tok) ∧
    (∀ k, kv d' todeviceid_events !! k =
      if starts_with (userdeviceid u dv ++ [ff]) k then None else kv d todeviceid_events !! k).
Proof.
  intros HI. unfold remove_device, get, remove, remove_prefix, increment, kv_increment, kv_get. run. cbv zeta.
  set (ud := userdeviceid u dv).
  assert (∀ d', kv d' userdeviceid_token = delete ud (kv d userdeviceid_token) →
    kv d' userdeviceid_metadata = delete ud (kv d userdeviceid_metadata) →
    (∀ tok, kv d' token_userdeviceid !! tok =
      if decide (kv d userdeviceid_token !! ud = Some tok) then None else kv d token_userdeviceid !! tok) →
    TokenInv d') as Hinv.
  { intros d' E1 E2 E3. split.
    - intros k tok. rewrite E1, lookup_delete. case_decide; [done|]. intros Hk. rewrite E3.
      rewrite decide_False; [by apply HI|]. intros Hk'. apply HI in Hk, Hk'. congruence.
    - intros tok k. rewrite E3, E1, lookup_delete. case_decide as Ed; [done|]. intros Hk. apply HI in Hk.
      rewrite decide_False; [done|]. congruence.
    - intros k tok. rewrite E1, E2, !lookup_delete. case_decide; [done|]. apply HI. }
  destruct (kv d userdeviceid_token !! ud) as [old|] eqn:Eo; eexists; (split; [done|]).
  - match goal with |- TokenInv ?x ∧ _ => set (d' := x) end.
    assert (∀ tok, kv d' token_userdeviceid !! tok =
      if decide (Some old = Some tok) then None else kv d token_userdeviceid !! tok) as E3.
    { intros tok. unfold d'. kv_simpl. unfold kv_remove. rewrite lookup_delete.
      destruct (decide (old = tok)) as [->|]; [by rewrite !decide_True|]. by rewrite !decide_False by congruence. }
    split_and!; [apply Hinv; [by unfold d'; kv_simpl..|intros tok; rewrite E3; by rewrite ?Eo]|by unfold d'; kv_simpl..|done|].
    intros k. unfold d'. kv_simpl. apply lookup_remove_prefix.
  - match goal with |- TokenInv ?x ∧ _ => set (d' := x) end.
    assert (kv d' userdeviceid_token = delete ud (kv d userdeviceid_token)) as E1.
    { unfold d'. kv_simpl. by rewrite delete_id. }
    assert (∀ tok, kv d' token_userdeviceid !! tok =
      if decide (None = Some tok) then None else kv d token_userdeviceid !! tok) as E3.
    { intros tok. unfold d'. kv_simpl. by rewrite decide_False. }
    split_and!; [apply Hinv; [done|by unfold d'; kv_simpl|intros tok; rewrite E3; by rewrite ?Eo]|done|by unfold d'; kv_simpl|done|].
    intros k. unfold d'. kv_simpl. apply lookup_remove_prefix.
Qed.
End tokens.

(** * To-device messages *)

Definition todevice_id (u dv : bytes) (c : Z) : bytes := userdeviceid u dv ++ ff :: to_be_bytes c.

Definition ToDeviceInv (d : Db) : Prop :=
  ∀ k v, kv d todeviceid_events !! k = Some v →
    ∃ u dv c, no_ff u ∧ no_ff dv ∧ is_u64 c ∧ k = todevice_id u dv c.

Lemma todevice_id_inj u dv c u' dv' c' :
  no_ff u → no_ff dv → no_ff u' → no_ff dv' → is_u64 c → is_u64 c' →
  todevice_id u dv c = todevice_id u' dv' c' → u = u' ∧ dv = dv' ∧ c = c'.
Proof.
  unfold todevice_id, userdeviceid. intros Hu Hd Hu' Hd' Hc Hc' E. rewrite <-!app_assoc in E. simpl in E.
  apply app_ff_inj in E as [-> E]; [|done..]. apply app_ff_inj in E as [-> E]; [|done..].
  by apply to_be_bytes_inj in E as ->.
Qed.

Lemma todevice_id_prefix u dv u' dv' c :
  no_ff u → no_ff dv → no_ff u' → no_ff dv' →
  starts_with (userdeviceid u dv ++ [ff]) (todevice_id u' dv' c) = true ↔ u = u' ∧ dv = dv'.
Proof.
  intros Hu Hd Hu' Hd'. rewrite starts_with_spec. unfold todevice_id, userdeviceid. split.
  - intros [r E]. rewrite <-!app_assoc in E. simpl in E. apply app_ff_inj in E as [-> E]; [|done..].
    apply app_ff_inj in E as [-> E]; done.
  - intros [-> ->]. exists (to_be_bytes c). by rewrite <-!app_assoc.
Qed.

Lemma key_count_spec p c : is_u64 c → key_count (p ++ to_be_bytes c) = Ok c.
Proof.
  intros Hc. unfold key_count. rewrite length_app, length_to_be_bytes.
  rewrite bool_decide_eq_false_2 by lia. rewrite drop_app_length' by lia. by rewrite u64_from_to_be_bytes.
Qed.

Lemma keys_until_all until it :
  (∀ e, e ∈ it → ∃ c, key_count e.1 = Ok c ∧ c ≤ until) → keys_until until it = Ok it.
Proof.
  induction it as [|e it IH]; intros H; [done|]. cbn [keys_until].
  destruct (H e) as (c & -> & Hc); [by constructor|]. rewrite (proj2 (Z.leb_le c until)) by done.
  rewrite IH; [done|]. intros e' He'. apply H. by constructor.
Qed.

Lemma remove_to_device_events_spec d u dv until :
  ToDeviceInv d → no_ff u → no_ff dv → is_u64 until → ∃ d',
    remove_to_device_events u dv until d = (Ok tt, d') ∧
    (∀ u' dv' c, no_ff u' → no_ff dv' → is_u64 c →
      kv d' todeviceid_events !! todevice_id u' dv' c =
        if decide (u' = u ∧ dv' = dv ∧ c ≤ until) then None
        else kv d todeviceid_events !! todevice_id u' dv' c) ∧
    (∀ t, t ≠ todeviceid_events → kv d' t = kv d t).
Proof.
  intros HI Hu Hd Hun. unfold remove_to_device_events. cbv zeta.
  set (prefix := userdeviceid u dv ++ [ff]).
  assert (∀ c, prefix ++ to_be_bytes c = todevice_id u dv c) as Hid.
  { intros c. unfold prefix, todevice_id. by rewrite <-app_assoc. }
  set (l := reverse (bfilter (λ e, starts_with prefix e.1 && bleb e.1 (prefix ++ to_be_bytes until))
    (entries (kv d todeviceid_events)))).
  assert (∀ k v, (k, v) ∈ l ↔ kv d todeviceid_events !! k = Some v ∧
    ∃ c, is_u64 c ∧ c ≤ until ∧ k = todevice_id u dv c) as Hl.
  { intros k v. unfold l. rewrite elem_of_reverse, elem_of_bfilter, elem_of_entries. cbn [fst].
    assert (∀ c, is_u64 c → bleb (todevice_id u dv c) (prefix ++ to_be_bytes until) = (c <=? until)) as Hcmp.
    { intros c Hc. rewrite <-Hid. unfold bleb. rewrite bytes_cmp_app,
        <-(app_nil_r (to_be_bytes c)), <-(app_nil_r (to_be_bytes until)), bytes_cmp_to_be_bytes by done.
      destruct (Z.compare_spec c until), (Z.leb_spec c until); try done; lia. }
    split.
    - intros [Hb Hk]. split; [done|]. apply andb_true_iff in Hb as [Hp Hle].
      destruct (HI k v Hk) as (u' & dv' & c & Hu' & Hd' & Hc & ->).
      apply todevice_id_prefix in Hp as [-> ->]; [|done..]. rewrite Hcmp in Hle by done.
      exists c. apply Z.leb_le in Hle. done.
    - intros [Hk (c & Hc & Hle & ->)]. split; [|done]. rewrite Hcmp by done. apply andb_true_iff. split.
      + by apply todevice_id_prefix.
      + by apply Z.leb_le. }
  assert (keys_until until (take_while (λ e, starts_with prefix e.1)
    (kv_iter_from (kv d todeviceid_events) (prefix ++ to_be_bytes until) true)) = Ok l) as Hkeys.
  { rewrite iter_from_prefix_rev by apply starts_with_app. apply keys_until_all. intros [k v] He.
    apply Hl in He as [_ (c & Hc & Hle & ->)]. exists c. split; [|done]. unfold todevice_id.
    change (ff :: to_be_bytes c) with ([ff] ++ to_be_bytes c). rewrite app_assoc. by apply key_count_spec. }
  eexists. run. rewrite Hkeys. split; [done|]. split.
  - intros u' dv' c Hu' Hd' Hc. kv_simpl. rewrite lookup_remove_all. case_decide as Hin.
    + apply list_elem_of_fmap in Hin as ([k v] & Ek & He). cbn [fst] in Ek. subst k.
      apply Hl in He as [_ (c' & Hc' & Hle & E)]. apply todevice_id_inj in E as (-> & -> & ->); [|done..].
      by rewrite decide_True.
    + case_decide as Hd2; [|done]. destruct Hd2 as (-> & -> & Hle).
      destruct (kv d todeviceid_events !! todevice_id u dv c) as [v|] eqn:Ev; [|done]. destruct Hin.
      apply list_elem_of_fmap. exists (todevice_id u dv c, v). split; [done|]. apply Hl. eauto.
  - intros t Ht. by rewrite kv_upd_ne.
Qed.

(** A database with one logged-in device that has a queued message. *)
Definition device_db : Db :=
  upd todeviceid_events (λ _, {[ todevice_id (lit "@a:b") (lit "D") 5 := lit "x" ]})
    (upd token_userdeviceid (λ _, {[ lit "tok" := userdeviceid (lit "@a:b") (lit "D") ]})
      (upd userdeviceid_token (λ _, {[ userdeviceid (lit "@a:b") (lit "D") := lit "tok" ]})
        (upd userdeviceid_metadata (λ _, {[ userdeviceid (lit "@a:b") (lit "D") := lit "m" ]}) empty_db))).

Lemma device_db_tokens : TokenInv device_db.
Proof.
  unfold device_db. split; intros a b; kv_simpl; intros [<- <-]%lookup_singleton_Some;
    rewrite lookup_singleton_eq; eauto.
Qed.

Lemma device_db_todevice : ToDeviceInv device_db.
Proof.
  intros k v. unfold device_db. kv_simpl. intros [<- <-]%lookup_singleton_Some.
  exists (lit "@a:b"), (lit "D"), 5. split_and!; [by apply utf8_no_ff..|by split|done].
Qed.

(** * Claims *)

(** An access token identifies its device and only the newest one works.
    After [set_token] with a token not in use, the token resolves to the user
    and device, the device's previous token resolves to nothing, every other
    token resolves as before, and the token trees stay inverse. *)
Theorem set_token_correct (RU : Ruma) (JD : Json Device) d u dv token :
  TokenInv d → is_Some (kv d userdeviceid_metadata !! userdeviceid u dv) →
  kv d token_userdeviceid !! token = None →
  utf8_valid u = true → user_id_ok u = true → utf8_valid dv = true →
  ∃ d', set_token u dv token d = (Ok tt, d') ∧ TokenInv d' ∧
    find_from_token token d' = (Ok (Some (u, dv)), d') ∧
    (∀ old, kv d userdeviceid_token !! userdeviceid u dv = Some old →
      find_from_token old d' = (Ok None, d')) ∧
    (∀ tok, tok ≠ token → kv d userdeviceid_token !! userdeviceid u dv ≠ Some tok →
      (find_from_token tok d').1 = (find_from_token tok d).1).
Proof.
  intros HI Hm Hf Hu Hi Hd. destruct (set_token_spec d u dv token HI Hm Hf) as (d' & Hs & Ha & Hk).
  exists d'. destruct (Ha) as [E1 E2]. split_and!; [done| | | |].
  - eapply assigned_inv; [done|done|done|by rewrite Hk|intros k; by rewrite Hk].
  - apply find_from_token_spec; try done. by rewrite E2, decide_True.
  - intros old Hold. unfold find_from_token, get, kv_get. run. rewrite E2.
    rewrite decide_False; [by rewrite decide_True|]. intros ->. apply HI in Hold. congruence.
  - intros tok Hne Hnold. unfold find_from_token, get, kv_get. run. rewrite E2.
    rewrite !decide_False by done. destruct (kv d token_userdeviceid !! tok); done.
Qed.

(** Logging out revokes.  After [remove_device] the device's token resolves
    to nothing, its metadata and queued to-device messages are gone, other
    tokens resolve as before, and the token trees stay inverse. *)
Theorem remove_device_revokes (RU : Ruma) d u dv :
  TokenInv d → ∃ d', remove_device u dv d = (Ok tt, d') ∧ TokenInv d' ∧
    (∀ tok, kv d userdeviceid_token !! userdeviceid u dv = Some tok →
      find_from_token tok d' = (Ok None, d')) ∧
    (∀ tok, kv d userdeviceid_token !! userdeviceid u dv ≠ Some tok →
      (find_from_token tok d').1 = (find_from_token tok d).1) ∧
    kv d' userdeviceid_metadata !! userdeviceid u dv = None ∧
    (∀ c, kv d' todeviceid_events !! todevice_id u dv c = None).
Proof.
  intros HI. destruct (remove_device_spec d u dv HI) as (d' & Hd & HI' & E1 & E2 & E3 & E4).
  exists d'. split_and!; [done|done|..].
  - intros tok Htok. unfold find_from_token, get, kv_get. run. by rewrite E3, decide_True.
  - intros tok Htok. unfold find_from_token, get, kv_get. run. rewrite E3, decide_False by done.
    destruct (kv d token_userdeviceid !! tok); done.
  - rewrite E2. apply lookup_delete_eq.
  - intros c. rewrite E4. unfold todevice_id.
    change (ff :: to_be_bytes c) with ([ff] ++ to_be_bytes c). by rewrite app_assoc, starts_with_app.
Qed.

Lemma remove_device_revokes_witness :
  ∃ d', remove_device (lit "@a:b") (lit "D") device_db = (Ok tt, d') ∧ TokenInv d' ∧
    (∀ tok, kv device_db userdeviceid_token !! userdeviceid (lit "@a:b") (lit "D") = Some tok →
      find_from_token (RU := sample_ruma) tok d' = (Ok None, d')) ∧
    (∀ tok, kv device_db userdeviceid_token !! userdeviceid (lit "@a:b") (lit "D") ≠ Some tok →
      (find_from_token (RU := sample_ruma) tok d').1 = (find_from_token (RU := sample_ruma) tok device_db).1) ∧
    kv d' userdeviceid_metadata !! userdeviceid (lit "@a:b") (lit "D") = None ∧
    (∀ c, kv d' todeviceid_events !! todevice_id (lit "@a:b") (lit "D") c = None).
Proof. apply (remove_device_revokes sample_ruma), device_db_tokens. Defined.

(** Acknowledging to-device messages removes exactly those of the device up
    to and including the position; later messages and other devices' messages
    stay. *)
Theorem remove_to_device_events_exact d u dv until :
  ToDeviceInv d → no_ff u → no_ff dv → is_u64 until → ∃ d',
    remove_to_device_events u dv until d = (Ok tt, d') ∧
    ∀ u' dv' c, no_ff u' → no_ff dv' → is_u64 c →
      kv d' todeviceid_events !! todevice_id u' dv' c =
        if decide (u' = u ∧ dv' = dv ∧ c ≤ until) then None
        else kv d todeviceid_events !! todevice_id u' dv' c.
Proof.
  intros HI Hu Hd Hn. destruct (remove_to_device_events_spec d u dv until HI Hu Hd Hn) as (d' & ? & ? & _).
  eauto.
Qed.

