(* ===== verification/UserKeys.v ===== *)
(** * UserKeys: end-to-end encryption keys, filters, OpenID tokens

    The key part of [server/src/database/key_value/users.rs] with
    [clean_signatures] of [server/src/service/users/mod.rs], and the state
    lookups of [server/src/database/key_value/rooms/state_accessor.rs] it uses.
    A raw JSON text ([Raw<T>]) is its bytes; parsing texts, random strings and
    the clock are parameters. *)
From S2P Require Import Prelude Bytes JsonValue KvTree Pdu Database Short StateCompressor RoomState StateCache Timeline Devices.

Section user_keys.
Context {RU : Ruma} {LR : LruCache} {HO : HashOrder}.
Context `{JP : !Json PduEvent, JV : !Json Value}.

(** ** State lookups *)

(** Returns the state event with key ([event_type], [state_key]). *)
Definition state_get (shortstatehash : Z) (event_type state_key : bytes) : M Db (option PduEvent) :=
  o ← state_get_id shortstatehash event_type state_key;
  match o with
  | None => mret None
  | Some event_id => get_pdu event_id
  end.

Definition room_state_get (room_id event_type state_key : bytes) : M Db (option PduEvent) :=
  o ← get_room_shortstatehash room_id;
  match o with
  | Some current_shortstatehash => state_get current_shortstatehash event_type state_key
  | None => mret None
  end.

(** ** One-time keys *)

(** [OwnedOneTimeKeyId]: its JSON string, and its algorithm. *)
Context (key_id_json : bytes → bytes) (key_id_from_json : bytes → option bytes) (algorithm_of : bytes → bytes).
(** Parsing a stored raw key. *)
Context (raw_ok : bytes → bool).

Definition onetimekeyid (user_id device_id one_time_key_key : bytes) : bytes :=
  userdeviceid user_id device_id ++ ff :: key_id_json one_time_key_key.

Definition add_one_time_key (user_id device_id one_time_key_key one_time_key_value : bytes) : M Db unit :=
  o ← get userdeviceid_metadata (userdeviceid user_id device_id);
  assert (bool_decide (is_Some o));;
  insert onetimekeyid_onetimekeys (onetimekeyid user_id device_id one_time_key_key) one_time_key_value;;
  c ← next_count;
  insert userid_lastonetimekeyupdate user_id (to_be_bytes c).

Definition last_one_time_keys_update (user_id : bytes) : M Db Z :=
  o ← get userid_lastonetimekeyupdate user_id;
  lift match o with
       | Some bs => ok_or (u64_from_bytes bs) (BadDatabase "Count in roomid_lastroomactiveupdate is invalid.")
       | None => Ok 0
       end.

(** The quoted key ids of an algorithm start with a quotation mark, its name and
    a colon. *)
Definition algorithm_prefix (key_algorithm : bytes) : bytes := 34 :: key_algorithm ++ [58].

Definition take_one_time_key (user_id device_id key_algorithm : bytes) : M Db (option (bytes * bytes)) :=
  let prefix := userdeviceid user_id device_id ++ ff :: algorithm_prefix key_algorithm in
  c ← next_count;
  insert userid_lastonetimekeyupdate user_id (to_be_bytes c);;
  next ← gets (λ d, Ok (head (kv_scan_prefix (kv d onetimekeyid_onetimekeys) prefix)));
  match next with
  | None => mret None
  | Some (key, value) =>
      remove onetimekeyid_onetimekeys key;;
      id ← lift (ok_or (key_id_from_json (rsplit_first key)) (BadDatabase "OneTimeKeyId in db is invalid."));
      if raw_ok value then mret (Some (id, value))
      else fail (BadDatabase "OneTimeKeys in db are invalid.")
  end.

(** The keys left per algorithm. *)
Definition count_one_time_keys (user_id device_id : bytes) : M Db (gmap bytes Z) :=
  gets (λ d,
    algorithms ← collect ((λ e, algorithm_of <$> ok_or (key_id_from_json (rsplit_first e.1))
        (BadDatabase "DeviceKeyId in db is invalid."))
      <$> kv_scan_prefix (kv d onetimekeyid_onetimekeys) (userdeviceid user_id device_id));
    Ok (fold_left (λ counts a, <[a := default 0 (counts !! a) + 1]> counts) algorithms ∅)).

(** ** Device-list updates *)

Definition keychangeid (user_or_room_id : bytes) (c : Z) : bytes := user_or_room_id ++ ff :: to_be_bytes c.

(** The rooms whose members are told: the encrypted ones the user is in. *)
Definition notify_room (user_id : bytes) (count : Z) (room_id : bytes) : M Db unit :=
  o ← room_state_get room_id (lit "m.room.encryption") [];
  match o with
  | None => mret tt
  | Some _ => insert keychangeid_userid (keychangeid room_id count) user_id
  end.

Definition mark_device_key_update (user_id : bytes) : M Db unit :=
  count ← next_count;
  rooms ← gets (λ d, Ok (oks (rooms_joined user_id d)));
  for_each rooms (notify_room user_id count);;
  insert keychangeid_userid (keychangeid user_id count) user_id.

(** The test of one entry of the feed. *)
Definition in_feed (prefix : bytes) (to : Z) (e : entry) : bool :=
  starts_with prefix e.1 &&
  match (splitn2 e.1).2 with
  | Some current =>
      match u64_from_bytes current with
      | Some c => c <=? to
      | None => false
      end
  | None => false
  end.

Definition keys_changed (user_or_room_id : bytes) (from : Z) (to : option Z) (d : Db) : list (res bytes) :=
  let prefix := user_or_room_id ++ [ff] in
  let start := prefix ++ to_be_bytes (w64 (from + 1)) in
  let to := default u64_max to in
  (λ e, parse_id user_id_ok "User ID in devicekeychangeid_userid is invalid unicode."
          "User ID in devicekeychangeid_userid is invalid." e.2)
    <$> take_while (in_feed prefix to) (kv_iter_from (kv d keychangeid_userid) start false).

(** ** Device and cross-signing keys *)

Definition add_device_keys (user_id device_id device_keys : bytes) : M Db unit :=
  insert keyid_key (userdeviceid user_id device_id) device_keys;;
  mark_device_key_update user_id.

Definition get_device_keys (user_id device_id : bytes) : M Db (option bytes) :=
  o ← get keyid_key (userdeviceid user_id device_id);
  lift (map_transpose (λ bs, if raw_ok bs then Ok bs else bad_database "DeviceKeys in db are invalid.") o).

(** [CrossSigningKey]: the values of its [keys] field, of a raw text that
    parses. *)
Context (cross_signing_keys : bytes → option (list bytes)).

(** The only key of a cross-signing key. *)
Definition single_key (invalid none more : string) (key : bytes) : M Db bytes :=
  ids ← lift (ok_or (cross_signing_keys key) (BadRequest InvalidParam invalid));
  match ids with
  | [] => fail (BadRequest InvalidParam none)
  | [id] => mret id
  | _ => fail (BadRequest InvalidParam more)
  end.

Definition parse_master_key (user_id master_key : bytes) : M Db bytes :=
  id ← single_key "Invalid master key" "Master key contained no key." "Master key contained more than one key."
         master_key;
  mret (user_id ++ ff :: id).

Definition add_cross_signing_keys (user_id master_key : bytes) (self_signing_key user_signing_key : option bytes)
    (notify : bool) : M Db unit :=
  master_key_key ← parse_master_key user_id master_key;
  insert keyid_key master_key_key master_key;;
  insert userid_masterkeyid user_id master_key_key;;
  match self_signing_key with
  | Some self_signing_key =>
      id ← single_key "Invalid self signing key" "Self signing key contained no key."
             "Self signing key contained more than one key." self_signing_key;
      insert keyid_key (user_id ++ ff :: id) self_signing_key;;
      insert userid_selfsigningkeyid user_id (user_id ++ ff :: id)
  | None => mret tt
  end;;
  match user_signing_key with
  | Some user_signing_key =>
      id ← single_key "Invalid user signing key" "User signing key contained no key."
             "User signing key contained more than one key." user_signing_key;
      insert keyid_key (user_id ++ ff :: id) user_signing_key;;
      insert userid_usersigningkeyid user_id (user_id ++ ff :: id)
  | None => mret tt
  end;;
  if notify then mark_device_key_update user_id else mret tt.

(** Put a signature of [sender] into a key. *)
Definition put_signature (sender_id : bytes) (signature : bytes * bytes) (key : Value) : res Value :=
  match key with
  | VObject fields =>
      match field (lit "signatures") fields with
      | None => bad_database "key in keyid_key has no signatures field."
      | Some (VObject signatures) =>
          match default (VObject []) (field sender_id signatures) with
          | VObject mine =>
              Ok (VObject (set_json_field (lit "signatures")
                (VObject (set_json_field sender_id
                  (VObject (set_json_field signature.1 (VString signature.2) mine)) signatures)) fields))
          | _ => bad_database "signatures in keyid_key for a user is invalid."
          end
      | Some _ => bad_database "key in keyid_key has invalid signatures field."
      end
  | _ => bad_database "key in keyid_key has no signatures field."
  end.

Definition sign_key (target_id key_id : bytes) (signature : bytes * bytes) (sender_id : bytes) : M Db unit :=
  let key := target_id ++ ff :: key_id in
  o ← get keyid_key key;
  bs ← lift (ok_or o (BadRequest InvalidParam "Tried to sign nonexistent key."));
  cross_signing_key ← lift (ok_or (from_slice bs) (BadDatabase "key in keyid_key is invalid."));
  signed ← lift (put_signature sender_id signature cross_signing_key);
  insert keyid_key key (to_vec signed);;
  mark_device_key_update target_id.

(** Ensure that a user only sees signatures from themselves and the target
    user. *)
Definition clean_signatures (cross_signing_key : Value) (sender_user : option bytes) (user_id : bytes)
    (allowed_signatures : bytes → bool) : res Value :=
  match cross_signing_key with
  | VObject fields =>
      match field (lit "signatures") fields with
      | Some (VObject signatures) =>
          kept ← collect ((λ '(user, signature),
              if user_id_ok user
              then Ok (if bool_decide (sender_user = Some user_id) || bool_decide (user = user_id) || allowed_signatures user
                       then Some (user, signature) else None)
              else bad_database "Invalid user ID in database.") <$> signatures);
          Ok (VObject (set_json_field (lit "signatures") (VObject (omap id kept)) fields))
      | _ => Ok cross_signing_key
      end
  | _ => Ok cross_signing_key
  end.

Definition get_key (key : bytes) (sender_user : option bytes) (user_id : bytes) (allowed_signatures : bytes → bool) :
    M Db (option Value) :=
  o ← get keyid_key key;
  lift (map_transpose (λ bs,
    cross_signing_key ← ok_or (from_slice bs) (BadDatabase "CrossSigningKey in db is invalid.");
    clean_signatures cross_signing_key sender_user user_id allowed_signatures) o).

Definition get_key_of (t : Table) (sender_user : option bytes) (user_id : bytes) (allowed_signatures : bytes → bool) :
    M Db (option Value) :=
  o ← get t user_id;
  match o with
  | None => mret None
  | Some key => get_key key sender_user user_id allowed_signatures
  end.

Definition get_master_key := get_key_of userid_masterkeyid.

Definition get_self_signing_key := get_key_of userid_selfsigningkeyid.

Definition get_user_signing_key (user_id : bytes) : M Db (option bytes) :=
  o ← get userid_usersigningkeyid user_id;
  match o with
  | None => mret None
  | Some key =>
      o' ← get keyid_key key;
      lift (map_transpose (λ bs, if raw_ok bs then Ok bs else bad_database "CrossSigningKey in db is invalid.") o')
  end.

(** ** Filters *)

Context {Filter : Type} `{JF : !Json Filter}.

Definition create_filter (filter_id user_id : bytes) (filter : Filter) : M Db bytes :=
  insert userfilterid_filter (user_id ++ ff :: filter_id) (to_vec filter);;
  mret filter_id.

Definition get_filter (user_id filter_id : bytes) : M Db (option Filter) :=
  o ← get userfilterid_filter (user_id ++ ff :: filter_id);
  lift (map_transpose (λ raw, ok_or (from_slice raw) (BadDatabase "Invalid filter event in db.")) o).

(** ** OpenID tokens *)

Context (openid_token_ttl : Z).

(** [now] in milliseconds; the multiplication wraps, the addition is checked. *)
Definition create_openid_token (token : bytes) (now : Z) (user_id : bytes) : M Db (bytes * Z) :=
  let expires_in := openid_token_ttl in
  let expires_at := now + w64 (expires_in * 1000) in
  assert (expires_at <=? u64_max);;
  insert openidtoken_expiresatuserid token (to_be_bytes expires_at ++ user_id);;
  mret (token, expires_in).

Definition find_from_openid_token (now : Z) (token : bytes) : M Db (option bytes) :=
  o ← get openidtoken_expiresatuserid token;
  match o with
  | None => mret None
  | Some value =>
      assert (bool_decide (8 ≤ length value)%nat);;
      expires_at ← lift (ok_or (u64_from_bytes (take 8 value))
        (BadDatabase "expires_at in openid_userid is invalid u64."));
      if expires_at <? now then
        remove openidtoken_expiresatuserid token;;
        mret None
      else
        u ← lift (parse_id user_id_ok "User ID in openid_userid is invalid unicode."
                    "User ID in openid_userid is invalid." (drop 8 value));
        mret (Some u)
  end.
End user_keys.

(** * One-time keys *)

Section one_time_keys.
Context (key_id_json : bytes → bytes) (key_id_from_json : bytes → option bytes) (raw_ok : bytes → bool).
Context (key_id_roundtrip : ∀ k, utf8_valid k = true → key_id_from_json (key_id_json k) = Some k).
Context (key_id_text : ∀ k, utf8_valid k = true → no_ff (key_id_json k)).

(** Uploading and claiming keys. *)
Inductive KeyOp :=
  | AddKey (user device key_id key : bytes)
  | TakeKey (user device algorithm : bytes).

Inductive KeyAnswer := Added (r : res unit) | Taken (r : res (option (bytes * bytes))).

Definition key_step (op : KeyOp) (d : Db) : KeyAnswer * Db :=
  match op with
  | AddKey u dv k v => let '(r, d') := add_one_time_key key_id_json u dv k v d in (Added r, d')
  | TakeKey u dv a => let '(r, d') := take_one_time_key key_id_from_json raw_ok u dv a d in (Taken r, d')
  end.

Definition key_op_ok (op : KeyOp) : Prop :=
  match op with
  | AddKey u dv k _ => no_ff u ∧ no_ff dv ∧ utf8_valid k = true
  | TakeKey u dv _ => no_ff u ∧ no_ff dv
  end.

(** The log entries that upload, or hand out, one key of a device. *)
Definition uploads (u dv k : bytes) (e : KeyOp * KeyAnswer) : bool :=
  match e with
  | (AddKey u' dv' k' _, _) => bool_decide ((u', dv', k') = (u, dv, k))
  | _ => false
  end.

Definition claims (u dv k : bytes) (e : KeyOp * KeyAnswer) : bool :=
  match e with
  | (TakeKey u' dv' _, Taken (Ok (Some (k', _)))) => bool_decide ((u', dv', k') = (u, dv, k))
  | _ => false
  end.

Definition OtkInv (d : Db) : Prop :=
  (∃ n, count_is d n) ∧
  ∀ k v, kv d onetimekeyid_onetimekeys !! k = Some v →
    ∃ u dv kid, no_ff u ∧ no_ff dv ∧ utf8_valid kid = true ∧ k = onetimekeyid key_id_json u dv kid.

Definition key_stored (k : bytes) (d : Db) : nat :=
  match kv d onetimekeyid_onetimekeys !! k with Some _ => 1%nat | None => 0%nat end.

Lemma key_stored_eq k d d' :
  kv d' onetimekeyid_onetimekeys !! k = kv d onetimekeyid_onetimekeys !! k → key_stored k d' = key_stored k d.
Proof. unfold key_stored. by intros ->. Qed.

Lemma key_stored_le1 k d : (key_stored k d ≤ 1)%nat.
Proof. unfold key_stored. destruct (_ !! _); lia. Qed.

Lemma onetimekeyid_inj u dv k u' dv' k' :
  no_ff u → no_ff dv → no_ff u' → no_ff dv' → utf8_valid k = true → utf8_valid k' = true →
  onetimekeyid key_id_json u dv k = onetimekeyid key_id_json u' dv' k' → u = u' ∧ dv = dv' ∧ k = k'.
Proof.
  unfold onetimekeyid, userdeviceid. intros Hu Hd Hu' Hd' Hk Hk' E. rewrite <-!app_assoc in E. simpl in E.
  apply app_ff_inj in E as [-> E]; [|done..]. apply app_ff_inj in E as [-> E]; [|done..].
  split_and!; try done. apply (f_equal key_id_from_json) in E. rewrite !key_id_roundtrip in E by done. by injection E.
Qed.

(** The counter never fails, even when it wraps. *)
Lemma next_count_total d n :
  count_is d n → ∃ c m d', next_count d = (Ok c, d') ∧ count_is d' m ∧ (∀ t, t ≠ global → kv d' t = kv d t).
Proof.
  intros [Hn Hc]. unfold next_count, increment, kv_increment, kv_get, kv_insert. run.
  set (bs := Bytes.increment (kv d global !! COUNTER)).
  assert (∃ m, is_u64 m ∧ bs = to_be_bytes m) as (m & Hm & Ebs).
  { unfold bs, Bytes.increment. destruct Hc as [->|[-> ->]]; cbn [fmap option_fmap option_map].
    - rewrite u64_from_to_be_bytes by done. eexists. split; [|done]. unfold is_u64, w64, u64_max.
      pose proof (Z.mod_pos_bound (n + 1) 18446744073709551616). lia.
    - exists 1. done. }
  rewrite Ebs. cbv zeta. rewrite u64_from_to_be_bytes by done. do 3 eexists. split; [done|]. split.
  - split; [exact Hm|]. left. kv_simpl. apply lookup_insert_eq.
  - intros t Ht. by rewrite kv_upd_ne.
Qed.

Lemma count_is_ext d d' n : kv d' global = kv d global → count_is d n → count_is d' n.
Proof. unfold count_is. by intros ->. Qed.

(** What uploading a key does to the tree. *)
Lemma add_key_spec u dv k v d r d' :
  OtkInv d → no_ff u → no_ff dv → utf8_valid k = true → add_one_time_key key_id_json u dv k v d = (r, d') →
  OtkInv d' ∧ (kv d' onetimekeyid_onetimekeys = kv d onetimekeyid_onetimekeys ∨
    kv d' onetimekeyid_onetimekeys = <[onetimekeyid key_id_json u dv k := v]> (kv d onetimekeyid_onetimekeys)).
Proof.
  intros [[n Hn] HI] Hu Hd Hkid. unfold add_one_time_key, get.
  rewrite (bind_gets (λ d, kv_get (kv d userdeviceid_metadata) (userdeviceid u dv))).
  destruct (bool_decide _); [|intros [= <- <-]; split; [split; eauto|by left]].
  rewrite (bind_ok _ _ d tt d) by done. unfold insert. rewrite bind_modify.
  set (d1 := upd onetimekeyid_onetimekeys _ d).
  destruct (next_count_total d1 n) as (c & m & d2 & E & Hm & Hk); [by eapply count_is_ext|].
  rewrite (bind_ok _ _ _ _ _ E). unfold modify. intros [= <- <-]. split; [split|].
  - exists m. eapply count_is_ext; [|done]. by kv_simpl.
  - intros k' v'. kv_simpl. rewrite Hk by done. unfold d1. kv_simpl. unfold kv_insert. rewrite lookup_insert.
    case_decide; [|apply HI]. intros _. subst k'. eauto 10.
  - right. kv_simpl. rewrite Hk by done. unfold d1. by kv_simpl.
Qed.

(** What claiming a key does: it hands out the first key of the algorithm and
    deletes it. *)
Lemma take_key_spec u dv a d r d' :
  OtkInv d → no_ff u → no_ff dv → take_one_time_key key_id_from_json raw_ok u dv a d = (r, d') →
  let prefix := userdeviceid u dv ++ ff :: algorithm_prefix a in
  OtkInv d' ∧
  match head (kv_scan_prefix (kv d onetimekeyid_onetimekeys) prefix) with
  | None => r = Ok None ∧ kv d' onetimekeyid_onetimekeys = kv d onetimekeyid_onetimekeys
  | Some (key, value) => ∃ kid, key = onetimekeyid key_id_json u dv kid ∧ utf8_valid kid = true ∧
      kv d onetimekeyid_onetimekeys !! key = Some value ∧
      kv d' onetimekeyid_onetimekeys = delete key (kv d onetimekeyid_onetimekeys) ∧
      r = if raw_ok value then Ok (Some (kid, value)) else Err (BadDatabase "OneTimeKeys in db are invalid.")
  end.
Proof.
  intros [[n Hn] HI] Hu Hd. unfold take_one_time_key. cbv zeta.
  destruct (next_count_total d n Hn) as (c & m & d2 & E & Hm & Hk). rewrite (bind_ok _ _ _ _ _ E).
  unfold insert. rewrite bind_modify, (bind_gets (λ d, head (kv_scan_prefix (kv d onetimekeyid_onetimekeys)
    (userdeviceid u dv ++ ff :: algorithm_prefix a)))).
  kv_simpl. rewrite Hk by done.
  set (p := userdeviceid u dv ++ ff :: algorithm_prefix a).
  destruct (head (kv_scan_prefix (kv d onetimekeyid_onetimekeys) p)) as [[key value]|] eqn:Eh.
  - assert ((key, value) ∈ kv_scan_prefix (kv d onetimekeyid_onetimekeys) p) as Hin.
    { destruct (kv_scan_prefix _ _); [done|]. injection Eh as ->. by constructor. }
    apply elem_of_scan_prefix in Hin as [Hp Hkey].
    destruct (HI _ _ Hkey) as (u' & dv' & kid & Hu' & Hd' & Hkid & ->).
    assert (u' = u ∧ dv' = dv) as [-> ->].
    { unfold p in Hp. apply starts_with_spec in Hp as [x Ex]. unfold onetimekeyid, userdeviceid in Ex.
      rewrite <-!app_assoc in Ex. simpl in Ex. apply app_ff_inj in Ex as [-> Ex]; [|done..].
      apply app_ff_inj in Ex as [-> Ex]; [|done..]. done. }
    unfold remove. rewrite bind_modify.
    assert (rsplit_first (onetimekeyid key_id_json u dv kid) = key_id_json kid) as -> by (by apply rsplit_first_app, key_id_text).
    rewrite key_id_roundtrip by done. cbn [ok_or]. rewrite (bind_ok (lift (Ok kid)) _ _ kid _) by done.
    set (d3 := upd onetimekeyid_onetimekeys _ _).
    assert (kv d3 onetimekeyid_onetimekeys = delete (onetimekeyid key_id_json u dv kid) (kv d onetimekeyid_onetimekeys)) as E3.
    { unfold d3. kv_simpl. by rewrite Hk. }
    assert (OtkInv d3) as HI3.
    { split; [exists m; eapply count_is_ext; [|done]; unfold d3; by kv_simpl|].
      intros k' v'. rewrite E3, lookup_delete. case_decide; [done|]. apply HI. }
    destruct (raw_ok value); intros [= <- <-]; (split; [done|]; exists kid; by split_and!).
  - intros [= <- <-]. split; [split|split; [done|]].
    + exists m. eapply count_is_ext; [|done]. by kv_simpl.
    + intros k' v'. kv_simpl. rewrite Hk by done. apply HI.
    + kv_simpl. by rewrite Hk.
Qed.

Lemma key_step_budget u dv k op d a d' :
  no_ff u → no_ff dv → utf8_valid k = true → OtkInv d → key_op_ok op → key_step op d = (a, d') →
  OtkInv d' ∧ ((if claims u dv k (op, a) then 1 else 0) + key_stored (onetimekeyid key_id_json u dv k) d' ≤
    (if uploads u dv k (op, a) then 1 else 0) + key_stored (onetimekeyid key_id_json u dv k) d)%nat.
Proof.
  intros Hu Hd Hk HI Hop. destruct op as [u' dv' k' v|u' dv' alg]; cbn [key_step key_op_ok] in *.
  - destruct Hop as (Hu' & Hd' & Hk'). destruct (add_one_time_key key_id_json u' dv' k' v d) as [r d1] eqn:E. intros [= <- <-].
    apply add_key_spec in E as [HI' Ht]; [|done..]. split; [done|]. cbn [claims uploads].
    case_bool_decide as Ek; [pose proof (key_stored_le1 (onetimekeyid key_id_json u dv k) d1); lia|].
    rewrite (key_stored_eq _ d d1); [lia|]. destruct Ht as [->| ->]; [done|]. apply lookup_insert_ne.
    intros E. apply onetimekeyid_inj in E as (-> & -> & ->); done.
  - destruct Hop as [Hu' Hd']. destruct (take_one_time_key _ _ u' dv' alg d) as [r d1] eqn:E. intros [= <- <-].
    apply take_key_spec in E as [HI' Ht]; [|done..]. split; [done|]. cbn [uploads].
    destruct (head _) as [[key value]|].
    + destruct Ht as (kid & -> & Hkid & Hkey & Etree & ->). unfold key_stored. rewrite Etree, lookup_delete.
      destruct (decide (onetimekeyid key_id_json u' dv' kid = onetimekeyid key_id_json u dv k)) as [Ek|Ek].
      * rewrite <-Ek, Hkey. destruct (raw_ok value); cbn [claims]; [|lia]. case_bool_decide; lia.
      * destruct (raw_ok value); cbn [claims]; [|lia].
        rewrite bool_decide_eq_false_2; [lia|]. intros [= -> -> ->]. done.
    + destruct Ht as [-> Etree]. cbn [claims]. by rewrite (key_stored_eq _ d d1) by (by rewrite Etree).
Qed.
End one_time_keys.

(** * The device-list feed *)

Section feed.
Context {RU : Ruma} {LR : LruCache} {HO : HashOrder} {JP : Json PduEvent}.

Lemma keeps_get_shortstatekey t k : keeps_kv (get_shortstatekey t k).
Proof. unfold get_shortstatekey. keeps. Qed.

Lemma keeps_get_eventid_from_short n : keeps_kv (get_eventid_from_short n).
Proof. unfold get_eventid_from_short. keeps. Qed.

Lemma keeps_load_info fuel s : keeps_kv (load_info fuel s).
Proof.
  revert s. induction fuel as [|fuel IH]; intros s; cbn [load_info]; [apply keeps_lift|].
  unfold get_statediff. keeps.
Qed.

Lemma keeps_load_shortstatehash_info s : keeps_kv (load_shortstatehash_info s).
Proof. intros d. unfold load_shortstatehash_info. apply keeps_load_info. Qed.
#[local] Hint Resolve keeps_get_shortstatekey keeps_get_eventid_from_short keeps_load_shortstatehash_info : keeps.

Lemma keeps_get_pdu id : keeps_kv (get_pdu id).
Proof. unfold get_pdu, get_non_outlier_pdu, get_non_outlier, get_outlier. keeps. Qed.
#[local] Hint Resolve keeps_get_pdu : keeps.

Lemma keeps_room_state_get r t k : keeps_kv (room_state_get r t k).
Proof.
  unfold room_state_get, get_room_shortstatehash, state_get, state_get_id, parse_compressed_state_event. keeps.
Qed.

(** Keys of the feed: an id without separator and a count. *)
Definition KeyChangeInv (d : Db) : Prop :=
  ∀ k v, kv d keychangeid_userid !! k = Some v → ∃ i c, no_ff i ∧ is_u64 c ∧ k = keychangeid i c.

Lemma keychangeid_inj i c i' c' :
  no_ff i → no_ff i' → is_u64 c → is_u64 c' → keychangeid i c = keychangeid i' c' → i = i' ∧ c = c'.
Proof.
  unfold keychangeid. intros ? ? ? ? E. apply app_ff_inj in E as [-> E]; [|done..]. by apply to_be_bytes_inj in E as ->.
Qed.

(** The loop over the rooms writes only entries of its own count. *)
Lemma notify_rooms_spec u c rooms d d' :
  Forall no_ff rooms → is_u64 c → KeyChangeInv d → for_each rooms (notify_room u c) d = (Ok tt, d') →
  KeyChangeInv d' ∧ kv d' global = kv d global ∧
  (∀ i c', no_ff i → is_u64 c' → c' ≠ c →
    kv d' keychangeid_userid !! keychangeid i c' = kv d keychangeid_userid !! keychangeid i c').
Proof.
  intros Hrooms Hc. revert d. induction Hrooms as [|r rooms Hr _ IH]; intros d HI; cbn [for_each].
  { intros [= <-]. done. }
  intros H. apply bind_inv in H as ([] & d1 & H1 & H2). unfold notify_room in H1.
  apply bind_inv in H1 as (o & d0 & H0 & H1).
  assert (kv d0 = kv d) as Ek by (pose proof (keeps_room_state_get r (lit "m.room.encryption") [] d) as K; by rewrite H0 in K).
  assert (KeyChangeInv d1 ∧ kv d1 global = kv d global ∧ (∀ i c', no_ff i → is_u64 c' → c' ≠ c →
    kv d1 keychangeid_userid !! keychangeid i c' = kv d keychangeid_userid !! keychangeid i c')) as (HI1 & Hg1 & Hk1).
  { destruct o as [pdu|].
    - unfold insert, modify in H1. injection H1 as <-. split_and!.
      + intros k v. kv_simpl. unfold kv_insert. rewrite lookup_insert. case_decide; [subst; eauto|]. rewrite Ek. apply HI.
      + kv_simpl. by rewrite Ek.
      + intros i c' Hi Hc' Hne. kv_simpl. unfold kv_insert. rewrite lookup_insert_ne; [by rewrite Ek|].
        intros E. apply keychangeid_inj in E as [_ E]; done.
    - injection H1 as <-. unfold KeyChangeInv. by rewrite Ek. }
  destruct (IH _ HI1 H2) as (HI2 & Hg2 & Hk2). split_and!; [done|congruence|].
  intros i c' Hi Hc' Hne. rewrite Hk2 by done. by apply Hk1.
Qed.

(** The feed is the range of counts. *)
Lemma keys_changed_spec d i from to r :
  KeyChangeInv d → no_ff i → 0 ≤ from < u64_max →
  r ∈ keys_changed i from to d ↔
  ∃ c v, from < c ≤ default u64_max to ∧ is_u64 c ∧ kv d keychangeid_userid !! keychangeid i c = Some v ∧
    r = parse_id user_id_ok "User ID in devicekeychangeid_userid is invalid unicode."
          "User ID in devicekeychangeid_userid is invalid." v.
Proof.
  intros HI Hi Hfrom. unfold keys_changed. set (prefix := i ++ [ff]). set (tov := default u64_max to).
  assert (w64 (from + 1) = from + 1) as -> by (unfold w64, u64_max in *; apply Z.mod_small; lia).
  assert (is_u64 (from + 1)) as Hf1 by (unfold is_u64; lia).
  set (start := prefix ++ to_be_bytes (from + 1)). unfold in_feed.
  rewrite (take_while_andb (λ e : entry, starts_with prefix e.1)).
  rewrite iter_from_prefix by apply starts_with_app.
  set (q := λ e : entry, match (splitn2 e.1).2 with
    | Some current => match u64_from_bytes current with Some c => c <=? tov | None => false end | None => false end).
  assert (∀ c, keychangeid i c = prefix ++ to_be_bytes c) as Hid.
  { intros c. unfold prefix, keychangeid. by rewrite <-app_assoc. }
  assert (∀ c v, is_u64 c → q (keychangeid i c, v) = (c <=? tov)) as Hq.
  { intros c v Hc. unfold q, keychangeid. cbn [fst]. rewrite splitn2_app by done. cbn [snd].
    by rewrite u64_from_to_be_bytes. }
  assert (∀ c c', is_u64 c → is_u64 c' → bytes_cmp (keychangeid i c) (keychangeid i c') = (c ?= c')) as Hcmp.
  { intros c c' Hc Hc'. rewrite !Hid, bytes_cmp_app, <-(app_nil_r (to_be_bytes c)), <-(app_nil_r (to_be_bytes c')),
      bytes_cmp_to_be_bytes by done. by destruct (c ?= c'). }
  set (l := bfilter _ (entries (kv d keychangeid_userid))).
  assert (∀ e, e ∈ l ↔ ∃ c v, is_u64 c ∧ from < c ∧ e = (keychangeid i c, v) ∧
    kv d keychangeid_userid !! keychangeid i c = Some v) as Hl.
  { intros [k v]. unfold l. rewrite elem_of_bfilter, elem_of_entries. cbn [fst]. split.
    - intros [Hb Hk]. apply andb_true_iff in Hb as [Hp Hge]. destruct (HI _ _ Hk) as (i' & c & Hi' & Hc & ->).
      apply starts_with_ff in Hp as ->; [|done..]. fold prefix in start. unfold start in Hge. rewrite <-Hid in Hge.
      unfold bleb in Hge. rewrite Hcmp in Hge by done. exists c, v. split_and!; try done.
      destruct (Z.compare_spec (from + 1) c); [lia|lia|done].
    - intros (c & v' & Hc & Hlt & [= -> ->] & Hk). split; [|done]. apply andb_true_iff. split.
      + by apply starts_with_ff.
      + unfold start. rewrite <-Hid. unfold bleb. rewrite Hcmp by done.
        destruct (Z.compare_spec (from + 1) c); [done|done|lia]. }
  assert (StronglySorted key_lt l) as Hs by apply StronglySorted_bfilter, entries_sorted.
  rewrite take_while_bfilter; last first.
  { intros l1 x l2 El Hx y Hy.
    assert (x ∈ l) as (c & v & Hc & _ & -> & _)%Hl by (rewrite El; apply elem_of_app; right; by constructor).
    assert (y ∈ l) as (c' & v' & Hc' & _ & -> & _)%Hl by (rewrite El; apply elem_of_app; right; by constructor).
    rewrite El in Hs. apply (StronglySorted_app_inv_lt _ _ _ _ _ Hs) in Hy. unfold key_lt, blt in Hy. cbn [fst] in Hy.
    rewrite Hcmp in Hy by done. rewrite Hq in Hx |- * by done. apply Z.leb_gt in Hx. apply Z.leb_gt.
    apply Z.compare_lt_iff in Hy. by apply Z.lt_trans with c. }
  rewrite list_elem_of_fmap. split.
  - intros (e & -> & He). apply elem_of_bfilter in He as [Hqe He]. apply Hl in He as (c & v & Hc & Hlt & -> & Hk).
    rewrite Hq in Hqe by done. apply Z.leb_le in Hqe. by exists c, v.
  - intros (c & v & [Hlt Hle] & Hc & Hk & ->). exists (keychangeid i c, v). split; [done|].
    apply elem_of_bfilter. split; [rewrite Hq by done; by apply Z.leb_le|]. apply Hl. by exists c, v.
Qed.
End feed.

(** * Claims *)

(** A one-time key is handed out once.  In every sequence of uploads and
    claims, by any users for any devices, a key of a device is handed out at
    most as often as it was uploaded. *)
Theorem one_time_keys_single_use key_id_json key_id_from_json raw_ok ops u dv k d n :
  (∀ k, utf8_valid k = true → key_id_from_json (key_id_json k) = Some k) →
  (∀ k, utf8_valid k = true → no_ff (key_id_json k)) →
  count_is d n → kv d onetimekeyid_onetimekeys = ∅ →
  Forall key_op_ok ops → no_ff u → no_ff dv → utf8_valid k = true →
  let log := (run_log (key_step key_id_json key_id_from_json raw_ok) ops d).1 in
  (count_log (claims u dv k) log ≤ count_log (uploads u dv k) log)%nat.
Proof.
  intros Hrt Htx Hn He Hops Hu Hd Hk. cbv zeta. destruct (run_log _ ops d) as [log d'] eqn:E. cbn [fst].
  apply (run_log_budget _ (OtkInv key_id_json) key_op_ok (claims u dv k) (uploads u dv k)
    (key_stored (onetimekeyid key_id_json u dv k))) in E as [_ E]; [|..|done].
  - unfold key_stored in E. rewrite He, lookup_empty in E. destruct (_ !! _) in E; lia.
  - intros op d0 a d1 HI Hop Hs. eapply key_step_budget; eauto.
  - split; [eauto|]. intros k' v. by rewrite He, lookup_empty.
Qed.

Lemma one_time_keys_single_use_witness :
  let ops := [AddKey (lit "@a:b") (lit "D") (lit "x:1") (lit "K"); TakeKey (lit "@a:b") (lit "D") (lit "x");
              TakeKey (lit "@a:b") (lit "D") (lit "x")] in
  let log := (run_log (key_step (λ k, 34 :: k) (λ j, Some (tail j)) (λ _, true)) ops device_db).1 in
  (count_log (claims (lit "@a:b") (lit "D") (lit "x:1")) log ≤
   count_log (uploads (lit "@a:b") (lit "D") (lit "x:1")) log)%nat.
Proof.
  cbv zeta. apply (one_time_keys_single_use _ _ _ _ _ _ _ device_db 0).
  - done.
  - intros k Hk. constructor; [done|by apply utf8_no_ff].
  - split; [by split|]. by right.
  - done.
  - repeat apply Forall_cons_2; try apply Forall_nil_2; (split_and!; try done; by apply utf8_no_ff).
  - by apply utf8_no_ff.
  - by apply utf8_no_ff.
  - done.
Defined.

(** Device-list changes are announced exactly.  After
    [mark_device_key_update] at count [n], the feed of any user or room id in
    any range of positions lists exactly the changes recorded in that range;
    the user's own feed after [n] lists the user; and changes of other counts
    are untouched. *)
Theorem device_list_feed_exact (RU : Ruma) (LR : LruCache) (HO : HashOrder) (JP : Json PduEvent) u d d' n :
  KeyChangeInv d → count_is d n → n < u64_max → no_ff u → utf8_valid u = true → user_id_ok u = true →
  (∀ r, room_id_ok r = true → no_ff r) →
  mark_device_key_update u d = (Ok tt, d') →
  KeyChangeInv d' ∧ Ok u ∈ keys_changed u n None d' ∧
  (∀ i from to x, no_ff i → 0 ≤ from < u64_max →
    x ∈ keys_changed i from to d' ↔ ∃ c v, from < c ≤ default u64_max to ∧ is_u64 c ∧
      kv d' keychangeid_userid !! keychangeid i c = Some v ∧
      x = parse_id user_id_ok "User ID in devicekeychangeid_userid is invalid unicode."
            "User ID in devicekeychangeid_userid is invalid." v) ∧
  (∀ i c, no_ff i → is_u64 c → c ≠ n + 1 →
    kv d' keychangeid_userid !! keychangeid i c = kv d keychangeid_userid !! keychangeid i c).
Proof.
  intros HI Hc Hn Hu Hutf Hok Hrooms H. unfold mark_device_key_update in H.
  rewrite (bind_ok _ _ _ _ _ (next_count_spec d n Hc Hn)), bind_gets in H.
  apply bind_inv in H as ([] & d1 & Hloop & H). unfold insert, modify in H. injection H as <-.
  assert (is_u64 (n + 1)) as Hn1 by (destruct Hc as [[] _]; unfold is_u64; lia).
  apply notify_rooms_spec in Hloop as (HI1 & _ & Hk1); [|..|done|].
  2: { apply Forall_forall. intros r Hr. unfold rooms_joined, scan_last, oks in Hr.
       apply list_elem_of_omap in Hr as (x & Hx & Ex). apply list_elem_of_fmap in Hx as (e & -> & _).
       destruct (parse_id _ _ _ _) eqn:Ep in Ex; [|done..]. injection Ex as ->.
       apply parse_id_Ok in Ep as (-> & _ & ?). auto. }
  2: { intros k v. kv_simpl. apply HI. }
  set (d' := upd keychangeid_userid _ d1).
  assert (KeyChangeInv d') as HI'.
  { intros k v. unfold d'. kv_simpl. unfold kv_insert. rewrite lookup_insert. case_decide; [subst; eauto|]. apply HI1. }
  split_and!; [done| | |].
  - apply keys_changed_spec; [done|done|destruct Hc as [[] _]; lia|]. exists (n + 1), u. split_and!; try done.
    + lia.
    + simpl. unfold is_u64 in Hn1. lia.
    + unfold d'. kv_simpl. apply lookup_insert_eq.
    + by rewrite parse_id_ok.
  - intros i from to x Hi Hfrom. by apply keys_changed_spec.
  - intros i c Hi Hcu Hne. unfold d'. kv_simpl. unfold kv_insert. rewrite lookup_insert_ne.
    + rewrite Hk1 by done. by kv_simpl.
    + intros E. apply keychangeid_inj in E as [_ E]; done.
Qed.

