(* ===== verification/AuthChain.v ===== *)
(** * AuthChain: the events an event's authorization depends on

    [server/src/service/rooms/auth_chain/mod.rs] and
    [server/src/database/key_value/rooms/auth_chain.rs]: a depth-first search
    over the auth events of stored events, with its results cached per event
    (in memory and on disk) and per chunk of starting events (in memory). *)
From S2P Require Import Prelude Bytes KvTree Pdu Database Short Timeline.

Section auth_chain.
Context {RU : Ruma} {LR : LruCache} {HO : HashOrder} {JP : Json PduEvent}.

(** ** The caches *)

(** [chunks_exact(8)]. *)
Fixpoint chunks8 (bs : bytes) : list bytes :=
  match bs with
  | a :: b :: c :: d :: e :: f :: g :: h :: bs' => [a; b; c; d; e; f; g; h] :: chunks8 bs'
  | _ => []
  end.

Definition decode_chain (chain : bytes) : gset Z := list_to_set (be_combine 0 <$> chunks8 chain).

(** The numbers of a set, in the iteration order of the hash set. *)
Definition z_iter (s : gset Z) : list Z := be_combine 0 <$> hash_iter (set_map to_be_bytes s).

Definition encode_chain (chain : gset Z) : bytes := mjoin (to_be_bytes <$> z_iter chain).

Definition get_cached_eventid_authchain (key : list Z) : M Db (option (gset Z)) :=
  cached ← gets (λ d, Ok (auth_chain_cache d !! key));
  match cached with
  | Some result => mret (Some result)
  | None =>
      match key with
      | [k] =>
          o ← get shorteventid_authchain (to_be_bytes k);
          match o with
          | Some chain =>
              let chain := decode_chain chain in
              modify (λ d, set_auth_chain_cache (lru_insert [k] chain (auth_chain_cache d)) d);;
              mret (Some chain)
          | None => mret None
          end
      | _ => mret None
      end
  end.

(** Only chains of single events are stored on disk. *)
Definition cache_auth_chain (key : list Z) (auth_chain : gset Z) : M Db unit :=
  match key with
  | [k] => insert shorteventid_authchain (to_be_bytes k) (encode_chain auth_chain)
  | _ => mret tt
  end;;
  modify (λ d, set_auth_chain_cache (lru_insert key auth_chain (auth_chain_cache d)) d).

(** ** The search *)

(** The events some stored event names as an auth event: what bounds the
    search. *)
Definition mentioned (d : Db) : gset bytes :=
  list_to_set (mjoin ((λ e, match (from_slice e.2 : option PduEvent) with
                            | Some pdu => pdu_auth_events pdu
                            | None => []
                            end) <$> (entries (kv d pduid_pdu) ++ entries (kv d eventid_outlierpdu)))).

(** The loop over the auth events of one event; the end of [todo] comes
    first. *)
Definition visit (acc : gset Z * list bytes) (auth_event : bytes) : M Db (gset Z * list bytes) :=
  let '(found, todo) := acc in
  sauthevent ← get_or_create_shorteventid auth_event;
  mret (if bool_decide (sauthevent ∈ found) then (found, todo)
        else ({[sauthevent]} ∪ found, auth_event :: todo)).

Fixpoint search (fuel : nat) (room : bytes) (todo : list bytes) (found : gset Z) : M Db (gset Z) :=
  match fuel with
  | O => lift Panic
  | S fuel =>
      match todo with
      | [] => mret found
      | event_id :: todo =>
          o ← try_ok (get_pdu event_id);
          match o with
          | Some (Some pdu) =>
              r ← lift (room_id pdu);
              if bool_decide (r ≠ room) then fail (BadRequest Forbidden "Evil event in db")
              else
                '(found, todo) ← foldM visit (found, todo) (pdu_auth_events pdu);
                search fuel room todo found
          | _ => search fuel room todo found
          end
      end
  end.

(** Every event enters [todo] at most once more than it is first found, so two
    more steps than there are mentioned events are enough. *)
Definition get_auth_chain_inner (room event_id : bytes) : M Db (gset Z) := λ d,
  search (S (S (size (mentioned d)))) room [event_id] ∅ d.

(** ** The chain of several events *)

Definition NUM_BUCKETS : nat := 50.

(** [BTreeSet::insert] of a pair. *)
Fixpoint bucket_insert (x : Z * bytes) (l : list (Z * bytes)) : list (Z * bytes) :=
  match l with
  | [] => [x]
  | y :: l' =>
      match (x.1 ?= y.1) with
      | Lt => x :: l
      | Gt => y :: bucket_insert x l'
      | Eq => match bytes_cmp x.2 y.2 with
              | Lt => x :: l
              | Gt => y :: bucket_insert x l'
              | Eq => l
              end
      end
  end.

(** Sort one starting event into its bucket. *)
Definition add_start (buckets : list (list (Z * bytes))) (id : bytes) : M Db (list (list (Z * bytes))) :=
  short ← get_or_create_shorteventid id;
  mret (alter (bucket_insert (short, id)) (Z.to_nat (short mod Z.of_nat NUM_BUCKETS)) buckets).

(** The chain of one event of a chunk, from the cache or by a search. *)
Definition chain_of_event (room : bytes) (chunk_cache : gset Z) (e : Z * bytes) : M Db (gset Z) :=
  let '(sevent_id, event_id) := e in
  cached ← get_cached_eventid_authchain [sevent_id];
  match cached with
  | Some cached => mret (chunk_cache ∪ cached)
  | None =>
      auth_chain ← get_auth_chain_inner room event_id;
      cache_auth_chain [sevent_id] auth_chain;;
      mret (chunk_cache ∪ auth_chain)
  end.

Definition chain_of_chunk (room : bytes) (full_auth_chain : gset Z) (chunk : list (Z * bytes)) : M Db (gset Z) :=
  if bool_decide (chunk = []) then mret full_auth_chain
  else
    let chunk_key := chunk.*1 in
    cached ← get_cached_eventid_authchain chunk_key;
    match cached with
    | Some cached => mret (full_auth_chain ∪ cached)
    | None =>
        chunk_cache ← foldM (chain_of_event room) ∅ chunk;
        cache_auth_chain chunk_key chunk_cache;;
        mret (full_auth_chain ∪ chunk_cache)
    end.

(** The event ids of a chain; an id that cannot be read is skipped. *)
Definition event_ids (ids : list bytes) (sid : Z) : M Db (list bytes) :=
  o ← try_ok (get_eventid_from_short sid);
  mret (match o with Some id => ids ++ [id] | None => ids end).

Definition get_auth_chain (room : bytes) (starting_events : list bytes) : M Db (list bytes) :=
  buckets ← foldM add_start (replicate NUM_BUCKETS []) starting_events;
  full_auth_chain ← foldM (chain_of_chunk room) ∅ buckets;
  foldM event_ids [] (z_iter full_auth_chain).
End auth_chain.

(** * Stored events *)

Section events.
Context {RU : Ruma} {LR : LruCache} {HO : HashOrder} {JP : Json PduEvent}.

(** What the trees hold for an event id. *)
Definition stored (d : Db) (e : bytes) : res (option PduEvent) := (get_pdu e (set_pdu_cache ∅ d)).1.

Definition PduCacheInv (d : Db) : Prop := ∀ e p, pdu_cache d !! e = Some p → stored d e = Ok (Some p).

Definition same_events (d d' : Db) : Prop :=
  ∀ t, t ∈ [eventid_pduid; pduid_pdu; eventid_outlierpdu] → kv d' t = kv d t.

(** [y] is an auth event of the stored event [x]. *)
Definition edge (d : Db) (x y : bytes) : Prop := ∃ p, stored d x = Ok (Some p) ∧ y ∈ pdu_auth_events p.

Lemma stored_eq d e :
  stored d e =
    match kv d eventid_pduid !! e with
    | Some pduid =>
        match kv d pduid_pdu !! pduid with
        | Some pdu => Some <$> ok_or (from_slice pdu) (BadDatabase "Invalid PDU in db.")
        | None => Err (BadDatabase "Invalid pduid in eventid_pduid.")
        end
    | None =>
        match kv d eventid_outlierpdu !! e with
        | Some pdu => Some <$> ok_or (from_slice pdu) (BadDatabase "Invalid PDU in db.")
        | None => Ok None
        end
    end.
Proof.
  unfold stored, get_pdu, get_non_outlier_pdu, get_non_outlier, get_outlier, get, kv_get. run. kv_cbn.
  cbn [pdu_cache set_pdu_cache]. rewrite lookup_empty. change (kv (set_pdu_cache ∅ d)) with (kv d).
  destruct (kv d eventid_pduid !! e) as [i|]; change (kv (set_pdu_cache ∅ d)) with (kv d).
  - destruct (kv d pduid_pdu !! i) as [b|]; cbn; [|done]. by destruct (from_slice b).
  - destruct (kv d eventid_outlierpdu !! e) as [b|]; cbn; [|done]. by destruct (from_slice b).
Qed.

Lemma stored_same d d' e : same_events d d' → stored d' e = stored d e.
Proof.
  intros H. rewrite !stored_eq.
  by rewrite (H eventid_pduid), (H pduid_pdu), (H eventid_outlierpdu) by in_list.
Qed.

Lemma stored_no_panic d e : stored d e ≠ Panic.
Proof.
  rewrite stored_eq. destruct (kv d eventid_pduid !! e) as [i|].
  - destruct (kv d pduid_pdu !! i) as [b|]; [|done]. by destruct (from_slice b).
  - destruct (kv d eventid_outlierpdu !! e) as [b|]; [|done]. by destruct (from_slice b).
Qed.

Lemma stored_mentioned d x y : edge d x y → y ∈ mentioned d.
Proof.
  intros (p & Hp & Hy). rewrite stored_eq in Hp. unfold mentioned. rewrite elem_of_list_to_set, list_elem_of_join.
  exists (pdu_auth_events p). split; [done|]. apply list_elem_of_fmap.
  assert (∃ e, e ∈ entries (kv d pduid_pdu) ++ entries (kv d eventid_outlierpdu) ∧ (from_slice e.2 : option PduEvent) = Some p)
    as (e & He & Hd); [|exists e; by rewrite Hd].
  destruct (kv d eventid_pduid !! x) as [i|].
  - destruct (kv d pduid_pdu !! i) as [b|] eqn:Eb; [|done]. exists (i, b). cbn in *.
    split; [apply elem_of_app; left; by apply elem_of_entries|]. destruct (from_slice b); [|done]. cbn in Hp. congruence.
  - destruct (kv d eventid_outlierpdu !! x) as [b|] eqn:Eb; [|done]. exists (x, b). cbn in *.
    split; [apply elem_of_app; right; by apply elem_of_entries|]. destruct (from_slice b); [|done]. cbn in Hp. congruence.
Qed.

Lemma mentioned_same d d' : same_events d d' → mentioned d' = mentioned d.
Proof. intros H. unfold mentioned. by rewrite (H pduid_pdu), (H eventid_outlierpdu) by in_list. Qed.

Lemma get_pdu_spec d e :
  PduCacheInv d → ∃ c, get_pdu e d = (stored d e, set_pdu_cache c d) ∧ PduCacheInv (set_pdu_cache c d).
Proof.
  intros HI. destruct (pdu_cache d !! e) as [p|] eqn:Ec.
  { exists (pdu_cache d). rewrite (HI _ _ Ec). unfold get_pdu. run. rewrite Ec. destruct d. done. }
  assert (get_pdu e d = (stored d e, match stored d e with
    | Ok (Some p) => set_pdu_cache (lru_insert e p (pdu_cache d)) d | _ => d end)) as Hg.
  { rewrite stored_eq. unfold get_pdu, get_non_outlier_pdu, get_non_outlier, get_outlier, get, kv_get. run. rewrite Ec.
    destruct (kv d eventid_pduid !! e) as [i|].
    - destruct (kv d pduid_pdu !! i) as [b|]; cbn; [|done]. by destruct (from_slice b).
    - destruct (kv d eventid_outlierpdu !! e) as [b|]; cbn; [|done]. by destruct (from_slice b). }
  rewrite Hg. destruct (stored d e) as [[p|]| |] eqn:Es.
  - eexists. split; [done|]. intros e' p' He'. rewrite (stored_same d) by (by intros t _). cbn in He'.
    apply lru_insert_lookup in He' as [[-> ->]|He']; [done|by apply HI].
  - exists (pdu_cache d). by destruct d.
  - exists (pdu_cache d). by destruct d.
  - by apply stored_no_panic in Es.
Qed.

(** * Short ids of events *)

Definition short_is (d : Db) (x : bytes) (s : Z) : Prop :=
  kv d eventid_shorteventid !! x = Some (to_be_bytes s) ∧ is_u64 s.

Lemma short_is_inj d n x y s : ShortInv d n → short_is d x s → short_is d y s → x = y.
Proof.
  intros HI [Hx _] [Hy _]. eapply (short_maps_inj _ _ n); [apply HI| |done|done|done].
  by destruct (si_count _ _ HI).
Qed.

Lemma short_is_fun d x s t : short_is d x s → short_is d x t → s = t.
Proof. intros [Hx Hs] [Hy Ht]. apply to_be_bytes_inj; [done..|]. congruence. Qed.

Lemma short_is_ext d d' x s : short_ext d d' → short_is d x s → short_is d' x s.
Proof. intros He [Hx Hs]. split; [|done]. eapply lookup_weaken; [done|]. apply He. in_list. Qed.

(** Events of [V] without a short id: what the counter may still be asked for. *)
Definition lacking (V : gset bytes) (d : Db) : Z :=
  Z.of_nat (size (filter (λ x, kv d eventid_shorteventid !! x = None) V)).

Lemma lacking_pos V d : 0 ≤ lacking V d.
Proof. unfold lacking. lia. Qed.

Lemma lacking_ext V d d' : short_ext d d' → lacking V d' ≤ lacking V d.
Proof.
  intros He. unfold lacking. apply inj_le. apply subseteq_size. intros x. rewrite !elem_of_filter. intros [Hx ?]. split; [|done].
  destruct (kv d eventid_shorteventid !! x) as [b|] eqn:E; [|done].
  eapply lookup_weaken in E; [|apply (He eventid_shorteventid); in_list]. congruence.
Qed.

(** What the code may do to the state between two steps of the search. *)
Definition quiet (d d' : Db) : Prop :=
  short_ext d d' ∧ auth_chain_cache d' = auth_chain_cache d ∧
  (∀ t, t ∉ [global; eventid_shorteventid; shorteventid_eventid; statekey_shortstatekey;
            shortstatekey_statekey; statehash_shortstatehash; roomid_shortroomid] → kv d' t = kv d t).

Lemma quiet_refl d : quiet d d.
Proof. split_and!; [by intros t _|done|done]. Qed.

Lemma quiet_trans d1 d2 d3 : quiet d1 d2 → quiet d2 d3 → quiet d1 d3.
Proof.
  intros (H1 & C1 & K1) (H2 & C2 & K2). split_and!; [by eapply short_ext_trans|congruence|].
  intros t Ht. by rewrite K2, K1.
Qed.

Lemma quiet_events d d' : quiet d d' → same_events d d'.
Proof. intros (_ & _ & K) t Ht. apply K. set_solver. Qed.

(** The state of a search: consistent short ids with enough counts left for the
    events of [V], and a truthful event cache. *)
Record Ready (V : gset bytes) (d : Db) (n : Z) : Prop := mk_Ready {
  rd_short : ShortInv d n;
  rd_budget : n + lacking V d < u64_max;
  rd_cache : PduCacheInv d;
}.

(** A known event takes no count. *)
Lemma known_kv d x b : kv d eventid_shorteventid !! x = Some b → kv (get_or_create_shorteventid x d).2 = kv d.
Proof.
  intros E. unfold get_or_create_shorteventid, get, kv_get. run.
  destruct (eventidshort_cache d !! x); [done|]. rewrite E. by destruct (u64_from_bytes b).
Qed.

Lemma ShortInv_pdu_cache d n c : ShortInv d n → ShortInv (set_pdu_cache c d) n.
Proof. intros []. by split. Qed.

Lemma get_short_spec V d n x :
  Ready V d n → x ∈ V → ∃ s d' n',
    get_or_create_shorteventid x d = (Ok s, d') ∧ short_is d' x s ∧ Ready V d' n' ∧ quiet d d'.
Proof.
  intros [HI Hb Hc] Hx. pose proof (lacking_pos V d).
  destruct (get_or_create_shorteventid_spec d n x HI ltac:(lia)) as (s & d' & n' & E & Hs & Hk & HI' & Hn' & He & Hf).
  assert (short_is d' x s) as Hsx.
  { split; [done|]. destruct (si_count _ _ HI') as [Hu _]. unfold is_u64 in *. lia. }
  assert (quiet d d') as Hq.
  { destruct Hf as [Hf Hoc]. split_and!; [done|by injection Hoc|done]. }
  assert (PduCacheInv d') as Hc'.
  { intros e p. rewrite (stored_same d) by (by apply quiet_events). destruct Hf as [_ Hoc].
    injection Hoc as -> _. apply Hc. }
  assert (∃ m, ShortInv d' m ∧ m + lacking V d' < u64_max) as (m & Hm & Hbm).
  { destruct (kv d eventid_shorteventid !! x) as [b|] eqn:Eb.
    - exists n. pose proof (known_kv _ _ _ Eb) as Ekv. rewrite E in Ekv. cbn [snd] in Ekv.
      assert (n' = n) as ->.
      { eapply (count_is_fun d'); [apply HI'|]. destruct (si_count _ _ HI). split; [done|]. by rewrite Ekv. }
      split; [done|]. pose proof (lacking_ext V d d' He). lia.
    - exists n'. split; [done|]. assert (lacking V d' < lacking V d); [|lia]. unfold lacking. apply inj_lt.
      apply subset_size. split.
      + intros y. rewrite !elem_of_filter. intros [Hy ?]. split; [|done].
        destruct (kv d eventid_shorteventid !! y) as [b|] eqn:E1; [|done].
        eapply lookup_weaken in E1; [|apply (He eventid_shorteventid); in_list]. congruence.
      + intros Hsub. specialize (Hsub x). rewrite !elem_of_filter in Hsub. destruct Hsub as [? _]; [done|]. congruence. }
  exists s, d', m. by split_and!.
Qed.
End events.

(** * The search *)

Section searching.
Context {RU : Ruma} {LR : LruCache} {HO : HashOrder} {JP : Json PduEvent}.

(** [chain] holds exactly the short ids of the events of [P]. *)
Definition chain_for (d : Db) (P : bytes → Prop) (chain : gset Z) : Prop :=
  (∀ x, P x → ∃ s, short_is d x s ∧ s ∈ chain) ∧ (∀ s, s ∈ chain → ∃ x, P x ∧ short_is d x s).

Lemma chain_for_iff d P Q c : (∀ x, P x ↔ Q x) → chain_for d P c → chain_for d Q c.
Proof.
  intros H [H1 H2]. split; [intros x Hx%H; by apply H1|].
  intros s (x & Hx%H & ?)%H2. by exists x.
Qed.

Lemma chain_for_ext d d' P c : short_ext d d' → chain_for d P c → chain_for d' P c.
Proof.
  intros He [H1 H2]. split.
  - intros x Hx. destruct (H1 x Hx) as (s & ? & ?). exists s. split; [by eapply short_is_ext|done].
  - intros s Hs. destruct (H2 s Hs) as (x & ? & ?). exists x. split; [done|by eapply short_is_ext].
Qed.

Lemma chain_for_union d P Q c1 c2 :
  chain_for d P c1 → chain_for d Q c2 → chain_for d (λ x, P x ∨ Q x) (c1 ∪ c2).
Proof.
  intros [A1 A2] [B1 B2]. split.
  - intros x [Hx|Hx]; [destruct (A1 x Hx) as (s & ? & ?)|destruct (B1 x Hx) as (s & ? & ?)]; exists s; set_solver.
  - intros s [Hs|Hs]%elem_of_union; [destruct (A2 s Hs) as (x & ? & ?)|destruct (B2 s Hs) as (x & ? & ?)];
      exists x; tauto.
Qed.

Lemma chain_for_empty d (P : bytes → Prop) : (∀ x, ~ P x) → chain_for d P ∅.
Proof. intros H. split; [intros x Hx; by destruct (H x)|set_solver]. Qed.

(** [found] holds exactly the short ids of the events of [F]. *)
Definition tracks (d : Db) (found : gset Z) (F : gset bytes) : Prop := chain_for d (λ x, x ∈ F) found.

Lemma visit_spec V d n found F todo x :
  Ready V d n → x ∈ V → tracks d found F → ∃ found' d' n',
    visit (found, todo) x d = (Ok (found', if bool_decide (x ∈ F) then todo else x :: todo), d') ∧
    tracks d' found' ({[x]} ∪ F) ∧ Ready V d' n' ∧ quiet d d'.
Proof.
  intros HR Hx Ht. destruct (get_short_spec V d n x HR Hx) as (s & d' & n' & E & Hs & HR' & Hq).
  pose proof (chain_for_ext _ _ _ _ (proj1 Hq) Ht) as [H1 H2]. unfold visit. rewrite (bind_ok _ _ _ _ _ E).
  assert (s ∈ found ↔ x ∈ F) as Hiff.
  { split.
    - intros Hin. destruct (H2 s Hin) as (y & Hy & Hsy). by rewrite (short_is_inj d' n' x y s (rd_short _ _ _ HR')).
    - intros Hin. destruct (H1 x Hin) as (t & Hst & Hin'). by rewrite (short_is_fun _ _ _ _ Hs Hst). }
  rewrite (bool_decide_ext _ _ Hiff). case_bool_decide as Hin.
  - exists found, d', n'. split_and!; [done| |done|done].
    replace ({[x]} ∪ F) with F by set_solver. done.
  - exists ({[s]} ∪ found), d', n'. split_and!; [done| |done|done]. split.
    + intros y [->%elem_of_singleton|Hy]%elem_of_union; [exists s; set_solver|].
      destruct (H1 y Hy) as (t & ? & ?). exists t. set_solver.
    + intros t [->%elem_of_singleton|Ht']%elem_of_union; [exists x; set_solver|].
      destruct (H2 t Ht') as (y & ? & ?). exists y. set_solver.
Qed.

Lemma size_diff_insert (U F : gset bytes) x :
  x ∈ U → x ∉ F → (S (size (U ∖ ({[x]} ∪ F))) ≤ size (U ∖ F))%nat.
Proof.
  intros Hx HF. assert (U ∖ F = {[x]} ∪ (U ∖ ({[x]} ∪ F))) as ->.
  { apply set_eq. intros y. destruct (decide (y = x)); set_solver. }
  pose proof (size_union {[x]} (U ∖ ({[x]} ∪ F)) ltac:(set_solver)) as ->. rewrite size_singleton. lia.
Qed.

(** The loop over the auth events of one event. *)
Lemma visit_all_spec V U l d n found F todo :
  Ready V d n → (∀ x, x ∈ l → x ∈ V ∧ x ∈ U) → tracks d found F → ∃ found' todo' d' n',
    foldM visit (found, todo) l d = (Ok (found', todo'), d') ∧
    tracks d' found' (F ∪ list_to_set l) ∧ Ready V d' n' ∧ quiet d d' ∧
    (∀ x, x ∈ todo → x ∈ todo') ∧ (∀ x, x ∈ todo' → x ∈ todo ∨ x ∈ l) ∧
    (∀ x, x ∈ l → x ∈ F ∨ x ∈ todo') ∧
    (length todo' + size (U ∖ (F ∪ list_to_set l)) ≤ length todo + size (U ∖ F))%nat.
Proof.
  intros HR Hl Ht. revert d n found F todo HR Ht. induction l as [|x l IH]; intros d n found F todo HR Ht; cbn [foldM].
  - exists found, todo, d, n. cbn [list_to_set]. rewrite union_empty_r_L.
    split_and!; [done|done|done|apply quiet_refl|done|by left|intros x Hx; by apply elem_of_nil in Hx|lia].
  - destruct (Hl x ltac:(by constructor)) as [HxV HxU].
    destruct (visit_spec V d n found F todo x HR HxV Ht) as (found1 & d1 & n1 & E1 & Ht1 & HR1 & Hq1).
    rewrite (bind_ok _ _ _ _ _ E1). set (todo1 := if bool_decide (x ∈ F) then todo else x :: todo) in *.
    destruct (IH (λ y Hy, Hl y ltac:(by constructor)) d1 n1 found1 ({[x]} ∪ F) todo1 HR1 Ht1)
      as (found2 & todo2 & d2 & n2 & E2 & Ht2 & HR2 & Hq2 & Hsub & Hnew & Hall & Hsz).
    exists found2, todo2, d2, n2.
    assert ({[x]} ∪ F ∪ list_to_set l = F ∪ list_to_set (x :: l)) as Eset by (cbn [list_to_set]; set_solver).
    rewrite Eset in Ht2, Hsz. split_and!; [done|done|done|by eapply quiet_trans|..].
    + intros y Hy. apply Hsub. unfold todo1. case_bool_decide; [done|by constructor].
    + intros y Hy. apply Hnew in Hy as [Hy|Hy]; [|right; by constructor].
      unfold todo1 in Hy. case_bool_decide; [by left|]. apply elem_of_cons in Hy as [->|Hy]; [right; by constructor|by left].
    + intros y [->|Hy]%elem_of_cons.
      * destruct (decide (x ∈ F)); [by left|]. right. apply Hsub. unfold todo1.
        rewrite bool_decide_eq_false_2 by done. by constructor.
      * destruct (Hall y Hy) as [[->%elem_of_singleton|?]%elem_of_union|?]; [|by left|by right].
        destruct (decide (x ∈ F)); [by left|]. right. apply Hsub. unfold todo1.
        rewrite bool_decide_eq_false_2 by done. by constructor.
    + etransitivity; [exact Hsz|]. unfold todo1. case_bool_decide as Hin.
      * replace ({[x]} ∪ F) with F by set_solver. lia.
      * pose proof (size_diff_insert U F x HxU Hin). cbn [length]. lia.
Qed.

(** The events of a room's auth graph are of that room. *)
Definition in_room (d : Db) (room x : bytes) : Prop := ∀ p, stored d x = Ok (Some p) → room_id p = Ok room.

Lemma edge_same d d' x y : same_events d d' → edge d' x y ↔ edge d x y.
Proof. intros H. unfold edge. by rewrite (stored_same d d'). Qed.

(** A set that is closed from [x] on holds everything reachable from [x]. *)
Lemma tc_closed {A} (R : A → A → Prop) (P : A → Prop) x z :
  (∀ y z, y = x ∨ P y → R y z → P z) → tc R x z → P z.
Proof.
  intros Hc Ht. assert (∀ y z, y = x ∨ P y → tc R y z → P z) as H; [|by apply (H x); [left|]].
  clear z Ht. intros y z Hy Ht. induction Ht as [y z Hyz|y w z Hyw _ IH]; [by apply (Hc y)|].
  apply IH. right. by apply (Hc y).
Qed.

(** The depth-first search: started with [todo] and [F], where everything found
    is reachable from [e0] and only the events of [todo] may have unexplored
    auth events, it ends with exactly the reachable events. *)
Lemma search_spec V d0 room e0 fuel : ∀ d n todo found F,
  mentioned d0 ⊆ V → (∀ x, rtc (edge d0) e0 x → in_room d0 room x) →
  Ready V d n → quiet d0 d → tracks d found F →
  (∀ x, x ∈ F → tc (edge d0) e0 x) → (∀ x, x ∈ todo → x = e0 ∨ x ∈ F) →
  (∀ x, x = e0 ∨ x ∈ F → x ∈ todo ∨ ∀ y, edge d0 x y → y ∈ F) →
  (length todo + size (mentioned d0 ∖ F) < fuel)%nat → ∃ found' F' d' n',
    search fuel room todo found d = (Ok found', d') ∧ tracks d' found' F' ∧
    (∀ x, x ∈ F' ↔ tc (edge d0) e0 x) ∧ Ready V d' n' ∧ quiet d0 d'.
Proof.
  induction fuel as [|fuel IH]; intros d n todo found F HV Hroom HR Hq Ht HF Htodo Hclosed Hfuel; [lia|].
  destruct todo as [|x todo]; cbn [search].
  { exists found, F, d, n. split_and!; [done|done| |done|done]. intros x. split; [apply HF|].
    assert (∀ y z, y = e0 ∨ y ∈ F → edge d0 y z → z ∈ F) as Hc.
    { intros y z Hy Hyz. destruct (Hclosed y Hy) as [Hn|Hn]; [by apply elem_of_nil in Hn|by apply Hn]. }
    by apply (tc_closed (edge d0) (λ z, z ∈ F) e0 x). }
  destruct (get_pdu_spec d x (rd_cache _ _ _ HR)) as (c & Eg & Hc').
  set (d1 := set_pdu_cache c d) in *.
  assert (quiet d0 d1) as Hq1 by (destruct Hq as (A & B & C); by split_and!).
  assert (Ready V d1 n) as HR1 by (destruct HR as [A B _]; split; [by apply ShortInv_pdu_cache|done|done]).
  assert (tracks d1 found F) as Ht1 by done.
  assert (stored d x = stored d0 x) as Es by (apply stored_same, quiet_events, Hq).
  assert (try_ok (get_pdu x) d = (Ok (ok (stored d0 x)), d1)) as Etry.
  { unfold try_ok. rewrite Eg, Es. pose proof (stored_no_panic d0 x). by destruct (stored d0 x). }
  rewrite (bind_ok _ _ _ _ _ Etry).
  assert (x = e0 ∨ x ∈ F) as Hx by (apply Htodo; by constructor).
  assert (rtc (edge d0) e0 x) as Hrx by (destruct Hx as [->|Hx]; [done|by apply tc_rtc, HF]).
  destruct (stored d0 x) as [[pdu|]|e|] eqn:Est; cbn [ok].
  - rewrite (Hroom x Hrx pdu Est). rewrite (bind_ok _ _ d1 room d1) by done.
    rewrite bool_decide_eq_false_2 by (by intros []).
    assert (∀ y, y ∈ pdu_auth_events pdu → edge d0 x y) as Hedge by (intros y Hy; by exists pdu).
    destruct (visit_all_spec V (mentioned d0) (pdu_auth_events pdu) d1 n found F todo HR1)
      as (found2 & todo2 & d2 & n2 & E2 & Ht2 & HR2 & Hq2 & Hsub & Hnew & Hall & Hsz); [|done|].
    { intros y Hy. assert (y ∈ mentioned d0) by (eapply stored_mentioned; eauto). set_solver. }
    rewrite (bind_ok _ _ _ _ _ E2).
    apply (IH d2 n2 todo2 found2 (F ∪ list_to_set (pdu_auth_events pdu))); try done.
    + by eapply quiet_trans.
    + intros y [Hy|Hy%elem_of_list_to_set]%elem_of_union; [by apply HF|].
      eapply tc_rtc_l; [done|]. by apply tc_once, Hedge.
    + intros y Hy. apply Hnew in Hy as [Hy|Hy]; [|set_solver].
      destruct (Htodo y ltac:(by constructor)); [by left|set_solver].
    + intros y Hy. destruct (decide (y ∈ F ∨ y = e0)) as [HyF|HyF].
      * destruct (Hclosed y ltac:(tauto)) as [[->|Hin]%elem_of_cons|Hcl]; [right|left; by apply Hsub|right].
        -- intros z (p & Hp & Hz). rewrite Est in Hp. injection Hp as <-. set_solver.
        -- intros z Hz. apply elem_of_union_l. by apply Hcl.
      * left. destruct Hy as [->|[Hy|Hy%elem_of_list_to_set]%elem_of_union]; [tauto|tauto|].
        destruct (Hall y Hy); tauto.
    + cbn [length] in Hfuel. lia.
  - apply (IH d1 n todo found F); try done.
    + intros y Hy. apply Htodo. by constructor.
    + intros y Hy. destruct (Hclosed y Hy) as [[->|Hin]%elem_of_cons|Hcl]; [right|by left|by right].
      intros z (p & Hp & Hz). congruence.
    + cbn [length] in Hfuel. lia.
  - apply (IH d1 n todo found F); try done.
    + intros y Hy. apply Htodo. by constructor.
    + intros y Hy. destruct (Hclosed y Hy) as [[->|Hin]%elem_of_cons|Hcl]; [right|by left|by right].
      intros z (p & Hp & Hz). congruence.
    + cbn [length] in Hfuel. lia.
  - by apply stored_no_panic in Est.
Qed.

(** The chain of one event: the short ids of the events reachable by auth
    events. *)
Lemma get_auth_chain_inner_spec V d n room e :
  mentioned d ⊆ V → (∀ x, rtc (edge d) e x → in_room d room x) → Ready V d n → ∃ chain d' n',
    get_auth_chain_inner room e d = (Ok chain, d') ∧ chain_for d' (tc (edge d) e) chain ∧
    Ready V d' n' ∧ quiet d d'.
Proof.
  intros HV Hroom HR. unfold get_auth_chain_inner.
  destruct (search_spec V d room e (S (S (size (mentioned d)))) d n [e] ∅ ∅) as (chain & F & d' & n' & E & Ht & HF & HR' & Hq);
    try done.
  - apply quiet_refl.
  - intros x Hx. by apply list_elem_of_singleton in Hx as ->; left.
  - intros x [->|Hx]; [left; by constructor|set_solver].
  - cbn [length]. rewrite difference_empty_L. lia.
  - exists chain, d', n'. split_and!; [done| |done|done]. by apply (chain_for_iff _ (λ x, x ∈ F)).
Qed.
End searching.

(** * The caches *)

Section caching.
Context {RU : Ruma} {LR : LruCache} {HO : HashOrder} {JP : Json PduEvent}.

(** The events reachable from the events a cache key names. *)
Definition from_key (d : Db) (key : list Z) (x : bytes) : Prop :=
  ∃ k e, k ∈ key ∧ short_is d e k ∧ tc (edge d) e x.

Definition named (d : Db) (key : list Z) : Prop := ∀ k, k ∈ key → ∃ e, short_is d e k.

(** Every cached chain, in memory or on disk, is the chain of its key. *)
Record AuthInv (d : Db) : Prop := mk_AuthInv {
  ai_cache : ∀ key c, auth_chain_cache d !! key = Some c → named d key ∧ chain_for d (from_key d key) c;
  ai_disk : ∀ k b, is_u64 k → kv d shorteventid_authchain !! to_be_bytes k = Some b →
    named d [k] ∧ chain_for d (from_key d [k]) (decode_chain b);
}.

(** Short ids are only added, events do not change. *)
Definition grows (d d' : Db) : Prop := short_ext d d' ∧ same_events d d'.

Lemma grows_refl d : grows d d.
Proof. split; [apply short_ext_refl|by intros t _]. Qed.

Lemma grows_trans d1 d2 d3 : grows d1 d2 → grows d2 d3 → grows d1 d3.
Proof.
  intros [A1 B1] [A2 B2]. split; [by eapply short_ext_trans|]. intros t Ht. by rewrite B2, B1.
Qed.

Lemma quiet_grows d d' : quiet d d' → grows d d'.
Proof. intros H. split; [apply H|by apply quiet_events]. Qed.

Lemma tc_edge_same d d' x y : same_events d d' → tc (edge d') x y ↔ tc (edge d) x y.
Proof. intros H. split; apply (tc_congruence id); intros a b Hab; by apply (edge_same d d' a b H). Qed.

Lemma named_grows d d' key : grows d d' → named d key → named d' key.
Proof. intros [He _] H k Hk. destruct (H k Hk) as [e ?]. exists e. by eapply short_is_ext. Qed.

Lemma from_key_grows d d' n' key x :
  ShortInv d' n' → grows d d' → named d key → from_key d' key x ↔ from_key d key x.
Proof.
  intros HI [He Hs] Hn. split; intros (k & e & Hk & Hke & Htc).
  - destruct (Hn k Hk) as [e' He']. exists k, e. rewrite <-(tc_edge_same d d') by done. split_and!; [done| |done].
    by rewrite (short_is_inj d' n' e e' k HI Hke (short_is_ext _ _ _ _ He He')).
  - exists k, e. rewrite (tc_edge_same d d') by done. split_and!; [done|by eapply short_is_ext|done].
Qed.

Lemma chain_grows d d' n' key c :
  ShortInv d' n' → grows d d' → named d key → chain_for d (from_key d key) c → chain_for d' (from_key d' key) c.
Proof.
  intros HI Hg Hn Hc. apply (chain_for_iff _ (from_key d key)).
  - intros x. by rewrite (from_key_grows d d' n').
  - by apply (chain_for_ext d); [apply Hg|].
Qed.

Lemma AuthInv_grows d d' n' :
  ShortInv d' n' → grows d d' → auth_chain_cache d' = auth_chain_cache d →
  kv d' shorteventid_authchain = kv d shorteventid_authchain → AuthInv d → AuthInv d'.
Proof.
  intros HI Hg Ec Ek [H1 H2]. split.
  - intros key c. rewrite Ec. intros [? ?]%H1. split; [by eapply named_grows|by eapply chain_grows].
  - intros k b Hk. rewrite Ek. intros [? ?]%H2; [|done]. split; [by eapply named_grows|by eapply chain_grows].
Qed.

(** ** The codec of a chain on disk *)

Lemma chunks8_app b bs : length b = 8%nat → chunks8 (b ++ bs) = b :: chunks8 bs.
Proof. intros H. do 8 (destruct b as [|? b]; [done|]). by destruct b. Qed.

Lemma chunks8_join l : Forall (λ b : bytes, length b = 8%nat) l → chunks8 (mjoin l) = l.
Proof.
  induction 1 as [|b l Hb Hl IH]; [done|]. cbn [mjoin list_join]. rewrite chunks8_app by done. by f_equal.
Qed.

Lemma elem_of_z_iter s k : (∀ k, k ∈ s → is_u64 k) → k ∈ z_iter s ↔ k ∈ s.
Proof.
  intros Hu. unfold z_iter. rewrite list_elem_of_fmap. setoid_rewrite hash_iter_perm.
  setoid_rewrite elem_of_elements. setoid_rewrite elem_of_map. split.
  - intros (b & -> & j & -> & Hj). rewrite be_combine_to_be_bytes; auto.
  - intros Hk. exists (to_be_bytes k). rewrite be_combine_to_be_bytes by auto. eauto.
Qed.

Lemma NoDup_z_iter s : (∀ k, k ∈ s → is_u64 k) → NoDup (z_iter s).
Proof.
  intros Hu. unfold z_iter. apply NoDup_fmap_2_strong; [|apply hash_iter_NoDup].
  intros x y. rewrite !hash_iter_perm, !elem_of_elements, !elem_of_map.
  intros (j & -> & Hj) (k & -> & Hk). rewrite !be_combine_to_be_bytes by auto. by intros ->.
Qed.

Lemma decode_encode_chain s : (∀ k, k ∈ s → is_u64 k) → decode_chain (encode_chain s) = s.
Proof.
  intros Hu. unfold decode_chain, encode_chain. rewrite chunks8_join.
  2:{ apply Forall_fmap, Forall_forall. intros k _. apply length_to_be_bytes. }
  apply set_eq. intros k. rewrite elem_of_list_to_set, <-list_fmap_compose, list_elem_of_fmap. unfold compose. split.
  - intros (j & -> & Hj%elem_of_z_iter); [|done]. rewrite be_combine_to_be_bytes; auto.
  - intros Hk. exists k. rewrite be_combine_to_be_bytes by auto. split; [done|]. by apply elem_of_z_iter.
Qed.

Lemma chain_u64 d P c k : chain_for d P c → k ∈ c → is_u64 k.
Proof. intros [_ H] (x & _ & Hx)%H. apply Hx. Qed.

(** ** Reading and writing the caches *)

(** A state in which chains can be looked up and searched for. *)
Definition Good (V : gset bytes) (d : Db) : Prop := AuthInv d ∧ ∃ n, Ready V d n.

Lemma Good_quiet V d d' n' : AuthInv d → Ready V d' n' → quiet d d' → Good V d'.
Proof.
  intros HA HR Hq. split; [|by exists n']. destruct Hq as (A & B & C).
  apply (AuthInv_grows d d' n'); [apply HR|by apply quiet_grows|done|apply C|done].
  intros H. repeat (apply elem_of_cons in H as [?|H]; [done|]). by apply elem_of_nil in H.
Qed.

(** Reading the event id of a short id. *)
Lemma read_id V d s x :
  Good V d → short_is d x s → utf8_valid x = true → event_id_ok x = true → ∃ d',
    get_eventid_from_short s d = (Ok x, d') ∧ Good V d' ∧ kv d' = kv d.
Proof.
  intros [HA [n HR]] [Hx Hs] Hu Hok.
  destruct (get_eventid_from_short_spec d n s (rd_short _ _ _ HR) Hs) as (r & d' & E & Hk & (HI & _ & _ & Hf) & Hr & _).
  assert (kv d shorteventid_eventid !! to_be_bytes s = Some x) as Hb.
  { destruct (si_events _ _ (rd_short _ _ _ HR)) as [H1 _]. destruct (H1 _ _ Hx) as (t & -> & _ & H). done. }
  exists d'. rewrite E, (Hr x Hb Hu Hok). split_and!; [done| |done]. destruct Hf as [_ Hoc].
  assert (quiet d d') as Hq by (split_and!; [intros t _; by rewrite Hk|by injection Hoc|intros t _; by rewrite Hk]).
  apply (Good_quiet V d d' n); [done| |done]. destruct HR as [_ H2 H3]. split; [done|unfold lacking; by rewrite Hk|].
  intros e p. rewrite (stored_same d) by (by apply quiet_events). injection Hoc as -> _. apply H3.
Qed.

(** Changing the chain caches only. *)
Definition recached (d d' : Db) : Prop :=
  (∀ t, t ≠ shorteventid_authchain → kv d' t = kv d t) ∧ ∀ n, ShortInv d n → ShortInv d' n.

Lemma recached_grows d d' : recached d d' → grows d d'.
Proof.
  intros [H _]. split; intros t Ht; rewrite H; try done; intros ->; repeat (apply elem_of_cons in Ht as [?|Ht]; [done|]);
    by apply elem_of_nil in Ht.
Qed.

Lemma recached_Ready V d d' n : pdu_cache d' = pdu_cache d → recached d d' → Ready V d n → Ready V d' n.
Proof.
  intros Ep Hr [H1 H2 H3]. pose proof (recached_grows _ _ Hr) as [_ Hs]. destruct Hr as [Hk HI]. split.
  - by apply HI.
  - unfold lacking. by rewrite Hk by done.
  - intros e p. rewrite Ep, (stored_same d) by done. apply H3.
Qed.

Lemma Good_cache V d key c :
  Good V d → named d key → chain_for d (from_key d key) c →
  Good V (set_auth_chain_cache (lru_insert key c (auth_chain_cache d)) d).
Proof.
  intros [HA [n HR]] Hn Hc. set (d' := set_auth_chain_cache _ d).
  assert (recached d d') as Hr by (split; [done|intros m []; by split]).
  pose proof (recached_Ready V d d' n eq_refl Hr HR) as HR'. pose proof (recached_grows _ _ Hr) as Hg.
  split; [|by exists n]. split.
  - intros key' c' [[-> ->]|H]%lru_insert_lookup.
    + split; [by eapply named_grows|by eapply chain_grows; [apply HR'|..]].
    + destruct (ai_cache _ HA _ _ H). split; [by eapply named_grows|by eapply chain_grows; [apply HR'|..]].
  - intros k b Hk Hb. destruct (ai_disk _ HA _ _ Hk Hb).
    split; [by eapply named_grows|by eapply chain_grows; [apply HR'|..]].
Qed.

Lemma recached_disk d f : recached d (upd shorteventid_authchain f d).
Proof.
  split; [intros t Ht; by apply kv_upd_ne|]. intros m. apply ShortInv_upd.
  intros H. repeat (apply elem_of_cons in H as [?|H]; [done|]). by apply elem_of_nil in H.
Qed.

Lemma Good_disk V d k c :
  Good V d → named d [k] → chain_for d (from_key d [k]) c →
  Good V (upd shorteventid_authchain <[to_be_bytes k := encode_chain c]> d).
Proof.
  intros [HA [n HR]] Hn Hc. set (d' := upd _ _ d).
  assert (recached d d') as Hr by apply recached_disk.
  pose proof (recached_Ready V d d' n eq_refl Hr HR) as HR'. pose proof (recached_grows _ _ Hr) as Hg.
  split; [|by exists n]. split.
  - intros key' c' H. destruct (ai_cache _ HA _ _ H).
    split; [by eapply named_grows|by eapply chain_grows; [apply HR'|..]].
  - intros j b Hj. unfold d' at 1. rewrite kv_upd_eq. destruct (Hn k ltac:(by constructor)) as [e [_ Hk]].
    destruct (decide (j = k)) as [->|Hne].
    + rewrite lookup_insert_eq. intros [= <-]. rewrite decode_encode_chain by (intros; by eapply chain_u64).
      split; [by eapply named_grows|by eapply chain_grows; [apply HR'|..]].
    + rewrite lookup_insert_ne by (by intros ?%to_be_bytes_inj). intros Hb. destruct (ai_disk _ HA _ _ Hj Hb).
      split; [by eapply named_grows|by eapply chain_grows; [apply HR'|..]].
Qed.

Lemma get_cached_spec V d key :
  Good V d → named d key → ∃ o d',
    get_cached_eventid_authchain key d = (Ok o, d') ∧ Good V d' ∧ grows d d' ∧
    (∀ c, o = Some c → chain_for d' (from_key d key) c).
Proof.
  intros HG Hn. unfold get_cached_eventid_authchain, get, kv_get. run.
  destruct (auth_chain_cache d !! key) as [c|] eqn:Ec.
  { exists (Some c), d. destruct HG as [HA HR]. destruct (ai_cache _ HA _ _ Ec).
    split_and!; [done|done|apply grows_refl|naive_solver]. }
  destruct key as [|k [|k' key]]; try (exists None, d; split_and!; [done|done|apply grows_refl|done]).
  destruct (kv d shorteventid_authchain !! to_be_bytes k) as [b|] eqn:Eb.
  - destruct (Hn k ltac:(by constructor)) as [e [_ Hk]].
    destruct HG as [HA HR]. destruct (ai_disk _ HA _ _ Hk Eb) as [_ Hc].
    eexists (Some _), _. split_and!; [done| |by split; [intros t _|intros t _]|naive_solver].
    by apply Good_cache.
  - exists None, d. split_and!; [done|done|apply grows_refl|done].
Qed.

Lemma cache_auth_chain_spec V d key c :
  Good V d → named d key → chain_for d (from_key d key) c → ∃ d',
    cache_auth_chain key c d = (Ok tt, d') ∧ Good V d' ∧ grows d d'.
Proof.
  intros HG Hn Hc. unfold cache_auth_chain, insert, kv_insert. run.
  destruct key as [|k [|k' key]].
  - eexists. split_and!; [done|by apply Good_cache|by split; [intros t _|intros t _]].
  - pose proof (Good_disk V d k c HG Hn Hc) as HG1. set (d1 := upd _ _ d) in *.
    assert (grows d d1) as Hg by apply recached_grows, recached_disk.
    assert (∃ n, ShortInv d1 n) as [n HI] by (destruct HG1 as [_ [n []]]; by exists n).
    eexists. split_and!; [done|apply Good_cache; [done|by eapply named_grows|by eapply chain_grows]|].
    eapply grows_trans; [done|]. by split; [intros t _|intros t _].
  - eexists. split_and!; [done|by apply Good_cache|by split; [intros t _|intros t _]].
Qed.
End caching.

(** * The chain of several events *)

Section chains.
Context {RU : Ruma} {LR : LruCache} {HO : HashOrder} {JP : Json PduEvent}.
Context (V : gset bytes) (d0 : Db) (room : bytes) (starts : list bytes).
Hypothesis (HV : mentioned d0 ⊆ V) (HS : ∀ e, e ∈ starts → e ∈ V).
Hypothesis Hroom : ∀ e x, e ∈ starts → rtc (edge d0) e x → in_room d0 room x.

(** A search in a later state. *)
Lemma search_later d e :
  Good V d → grows d0 d → e ∈ starts → ∃ chain d',
    get_auth_chain_inner room e d = (Ok chain, d') ∧ Good V d' ∧ grows d d' ∧
    chain_for d' (tc (edge d0) e) chain.
Proof.
  intros [HA [n HR]] [_ Hs] He.
  destruct (get_auth_chain_inner_spec V d n room e) as (chain & d' & n' & E & Hc & HR' & Hq).
  - by rewrite (mentioned_same d0 d).
  - intros x Hx p. rewrite (stored_same d0 d) by done. apply (Hroom e x He).
    revert Hx. apply (rtc_congruence id). intros a b Hab. by apply (edge_same d0 d a b Hs).
  - done.
  - exists chain, d'. split_and!; [done| |by apply quiet_grows|].
    + by eapply Good_quiet.
    + apply (chain_for_iff _ (tc (edge d) e)); [|done]. intros x. by apply tc_edge_same.
Qed.

(** Pairs of an event and its short id. *)
Definition labelled (d : Db) (chunk : list (Z * bytes)) : Prop :=
  ∀ p, p ∈ chunk → short_is d p.2 p.1 ∧ p.2 ∈ starts.

Lemma labelled_grows d d' chunk : grows d d' → labelled d chunk → labelled d' chunk.
Proof. intros [He _] H p [? ?]%H. split; [by eapply short_is_ext|done]. Qed.

Lemma labelled_named d chunk : labelled d chunk → named d chunk.*1.
Proof. intros H k (p & -> & [? _]%H)%list_elem_of_fmap. by exists p.2. Qed.

Definition from_chunk (chunk : list (Z * bytes)) (x : bytes) : Prop := ∃ p, p ∈ chunk ∧ tc (edge d0) p.2 x.

Lemma from_key_chunk d chunk x :
  Good V d → grows d0 d → labelled d chunk → from_key d chunk.*1 x ↔ from_chunk chunk x.
Proof.
  intros [_ [n HR]] [_ Hs] Hl. split.
  - intros (k & e & (p & -> & Hp)%list_elem_of_fmap & Hke & Htc). exists p. split; [done|].
    destruct (Hl p Hp) as [Hp' _]. rewrite (short_is_inj d n p.2 e p.1 (rd_short _ _ _ HR) Hp' Hke).
    by apply (tc_edge_same d0 d).
  - intros (p & Hp & Htc). exists p.1, p.2. split_and!; [apply list_elem_of_fmap; by exists p|by apply Hl|].
    by apply (tc_edge_same d0 d).
Qed.

(** One event of a chunk. *)
Lemma chain_of_event_spec P acc p d :
  Good V d → grows d0 d → labelled d [p] → chain_for d P acc → ∃ acc' d',
    chain_of_event room acc p d = (Ok acc', d') ∧ Good V d' ∧ grows d d' ∧
    chain_for d' (λ x, P x ∨ tc (edge d0) p.2 x) acc'.
Proof.
  intros HG Hg Hl Hacc. destruct p as [s e]. destruct (Hl (s, e) ltac:(by constructor)) as [Hs He]. cbn in Hs, He.
  assert (∀ d, Good V d → grows d0 d → labelled d [(s, e)] → ∀ x, from_key d [s] x ↔ tc (edge d0) e x) as Hkey.
  { intros d1 HG1 Hg1 Hl1 x. rewrite (from_key_chunk d1 [(s, e)]) by done. unfold from_chunk.
    split; [by intros (p & ->%list_elem_of_singleton & ?)|]. intros ?. exists (s, e). split; [by constructor|done]. }
  unfold chain_of_event. pose proof (labelled_named _ _ Hl) as Hn.
  destruct (get_cached_spec V d [s] HG Hn) as (o & d1 & E1 & HG1 & Hg1 & Ho). rewrite (bind_ok _ _ _ _ _ E1).
  destruct o as [c|].
  - exists (acc ∪ c), d1. split_and!; [done|done|done|]. apply chain_for_union; [by eapply chain_for_ext; [apply Hg1|]|].
    apply (chain_for_iff _ (from_key d [s])); [by apply Hkey|by apply Ho].
  - pose proof (grows_trans _ _ _ Hg Hg1) as Hg01.
    destruct (search_later d1 e HG1 Hg01 He) as (c & d2 & E2 & HG2 & Hg2 & Hc). rewrite (bind_ok _ _ _ _ _ E2).
    pose proof (grows_trans _ _ _ Hg1 Hg2) as Hg12. pose proof (grows_trans _ _ _ Hg01 Hg2) as Hg02.
    destruct (cache_auth_chain_spec V d2 [s] c HG2) as (d3 & E3 & HG3 & Hg3).
    + by apply (named_grows d d2 [s]).
    + apply (chain_for_iff _ (tc (edge d0) e)); [|done]. intros x. symmetry. apply Hkey; [done|done|by apply (labelled_grows d d2)].
    + rewrite (bind_ok _ _ _ _ _ E3). exists (acc ∪ c), d3. split_and!; [done|done|by eapply grows_trans|].
      apply chain_for_union; [eapply chain_for_ext; [|done]; by eapply grows_trans|].
      eapply chain_for_ext; [apply Hg3|done].
Qed.

(** One chunk. *)
Lemma chain_of_chunk_spec P acc chunk d :
  Good V d → grows d0 d → labelled d chunk → chain_for d P acc → ∃ acc' d',
    chain_of_chunk room acc chunk d = (Ok acc', d') ∧ Good V d' ∧ grows d d' ∧
    chain_for d' (λ x, P x ∨ from_chunk chunk x) acc'.
Proof.
  intros HG Hg Hl Hacc. unfold chain_of_chunk. case_bool_decide as Hnil.
  { exists acc, d. split_and!; [done|done|apply grows_refl|]. apply (chain_for_iff _ P); [|done].
    intros x. subst chunk. unfold from_chunk. split; [by left|]. by intros [?|(p & []%elem_of_nil & _)]. }
  pose proof (labelled_named _ _ Hl) as Hn.
  destruct (get_cached_spec V d chunk.*1 HG Hn) as (o & d1 & E1 & HG1 & Hg1 & Ho). rewrite (bind_ok _ _ _ _ _ E1).
  destruct o as [c|].
  { exists (acc ∪ c), d1. split_and!; [done|done|done|]. apply chain_for_union; [by eapply chain_for_ext; [apply Hg1|]|].
    apply (chain_for_iff _ (from_key d chunk.*1)); [|by apply Ho]. intros x. by apply from_key_chunk. }
  destruct (foldM_inv (λ l c d2, Good V d2 ∧ grows d1 d2 ∧ chain_for d2 (from_chunk l) c)
    (chain_of_event room) ∅ chunk d1) as (c & d2 & E2 & HG2 & Hg2 & Hc).
  { split_and!; [done|apply grows_refl|]. apply chain_for_empty. by intros x (p & []%elem_of_nil & _). }
  { intros l1 p l2 c d2 -> (HG2 & Hg2 & Hc). pose proof (grows_trans _ _ _ Hg1 Hg2) as Hg12.
    destruct (chain_of_event_spec (from_chunk l1) c p d2) as (c' & d3 & E3 & HG3 & Hg3 & Hc'); [done|by eapply grows_trans| |done|].
    { eapply labelled_grows; [done|]. intros q ->%list_elem_of_singleton. apply Hl. apply elem_of_app. right. by constructor. }
    exists c', d3. split_and!; [done|done|by eapply grows_trans|]. apply (chain_for_iff _ (λ x, from_chunk l1 x ∨ tc (edge d0) p.2 x)); [|done].
    intros x. unfold from_chunk. set_solver. }
  rewrite (bind_ok _ _ _ _ _ E2). pose proof (grows_trans _ _ _ Hg1 Hg2) as Hg12.
  destruct (cache_auth_chain_spec V d2 chunk.*1 c HG2) as (d3 & E3 & HG3 & Hg3).
  { by eapply named_grows. }
  { apply (chain_for_iff _ (from_chunk chunk)); [|done]. intros x. symmetry.
    apply from_key_chunk; [done|by eapply grows_trans|by eapply labelled_grows]. }
  rewrite (bind_ok _ _ _ _ _ E3). exists (acc ∪ c), d3. split_and!; [done|done|by eapply grows_trans|].
  apply chain_for_union; [eapply chain_for_ext; [|done]; by eapply grows_trans|].
  eapply chain_for_ext; [apply Hg3|done].
Qed.
(** ** The buckets *)

Lemma elem_of_bucket_insert p x l : p ∈ bucket_insert x l ↔ p = x ∨ p ∈ l.
Proof.
  induction l as [|y l IH]; cbn [bucket_insert]; [set_solver|].
  destruct (Z.compare_spec x.1 y.1) as [E1|E1|E1]; [|set_solver|set_solver].
  destruct (bytes_cmp x.2 y.2) eqn:E2; [|set_solver|set_solver].
  apply bytes_cmp_eq in E2. assert (x = y) as -> by (by apply injective_projections). set_solver.
Qed.

(** The events sorted into [buckets] are those of [l], with their short ids. *)
Definition sorted_in (d : Db) (l : list bytes) (buckets : list (list (Z * bytes))) : Prop :=
  length buckets = NUM_BUCKETS ∧
  (∀ b p, b ∈ buckets → p ∈ b → short_is d p.2 p.1 ∧ p.2 ∈ l) ∧
  (∀ e, e ∈ l → ∃ b s, b ∈ buckets ∧ (s, e) ∈ b).

Lemma sorted_in_insert d d' l buckets e s :
  short_ext d d' → sorted_in d l buckets → short_is d' e s →
  sorted_in d' (l ++ [e]) (alter (bucket_insert (s, e)) (Z.to_nat (s mod Z.of_nat NUM_BUCKETS)) buckets).
Proof.
  intros He (Hlen & H1 & H2) Hs. set (i := Z.to_nat _).
  assert (i < length buckets)%nat as Hi.
  { rewrite Hlen. unfold i, NUM_BUCKETS. pose proof (Z.mod_pos_bound s 50 ltac:(lia)). lia. }
  destruct (lookup_lt_is_Some_2 buckets i Hi) as [bi Hbi]. split_and!.
  - by rewrite length_alter.
  - intros b p [j Hj]%list_elem_of_lookup Hp. destruct (decide (i = j)) as [<-|Hne].
    + rewrite list_lookup_alter_eq, Hbi in Hj. injection Hj as <-. apply elem_of_bucket_insert in Hp as [->|Hp].
      * split; [done|]. set_solver.
      * destruct (H1 bi p) as [? ?]; [by eapply list_elem_of_lookup_2|done|]. split; [by eapply short_is_ext|set_solver].
    + rewrite list_lookup_alter_ne in Hj by done.
      destruct (H1 b p) as [? ?]; [by eapply list_elem_of_lookup_2|done|]. split; [by eapply short_is_ext|set_solver].
  - assert (bucket_insert (s, e) bi ∈ alter (bucket_insert (s, e)) i buckets) as Hin.
    { apply (list_elem_of_lookup_2 _ i). by rewrite list_lookup_alter_eq, Hbi. }
    intros e' [He'| ->%list_elem_of_singleton]%elem_of_app.
    + destruct (H2 e' He') as (b & t & [j Hj]%list_elem_of_lookup & Hp). destruct (decide (i = j)) as [<-|Hne].
      * rewrite Hbi in Hj. injection Hj as <-. exists (bucket_insert (s, e) bi), t. split; [done|]. apply elem_of_bucket_insert. by right.
      * exists b, t. split; [|done]. apply (list_elem_of_lookup_2 _ j). by rewrite list_lookup_alter_ne.
    + exists (bucket_insert (s, e) bi), s. split; [done|]. apply elem_of_bucket_insert. by left.
Qed.

(** A short id for one more event. *)
Lemma short_later d e :
  Good V d → e ∈ V → ∃ s d', get_or_create_shorteventid e d = (Ok s, d') ∧ short_is d' e s ∧ Good V d' ∧ grows d d'.
Proof.
  intros [HA [n HR]] He. destruct (get_short_spec V d n e HR He) as (s & d' & n' & E & Hs & HR' & Hq).
  exists s, d'. split_and!; [done|done|by eapply Good_quiet|by apply quiet_grows].
Qed.

Lemma buckets_spec d :
  d = d0 → Good V d → ∃ buckets d', foldM add_start (replicate NUM_BUCKETS []) starts d = (Ok buckets, d') ∧
    Good V d' ∧ grows d d' ∧ sorted_in d' starts buckets.
Proof.
  intros -> HG.
  apply (foldM_inv (λ l buckets d', Good V d' ∧ grows d0 d' ∧ sorted_in d' l buckets)).
  - unfold sorted_in. split_and!; [done|apply grows_refl|by rewrite length_replicate| |].
    + intros b p [-> _]%elem_of_replicate []%elem_of_nil.
    + intros e []%elem_of_nil.
  - intros l1 e l2 buckets d E (HG1 & Hg1 & Hb). unfold add_start.
    destruct (short_later d e HG1) as (s & d' & E1 & Hs & HG' & Hg'); [apply HS; rewrite E; set_solver|].
    rewrite (bind_ok _ _ _ _ _ E1). eexists _, d'. split_and!; [done|done|by eapply grows_trans|].
    eapply sorted_in_insert; [apply Hg'|done|done].
Qed.

(** ** The ids of a chain *)

Lemma event_ids_spec d P chain :
  Good V d → chain_for d P chain → (∀ x, P x → utf8_valid x = true ∧ event_id_ok x = true) → ∃ ids d',
    foldM event_ids [] (z_iter chain) d = (Ok ids, d') ∧ Good V d' ∧ kv d' = kv d ∧
    NoDup ids ∧ ∀ x, x ∈ ids ↔ P x.
Proof.
  intros HG Hc Hok. pose proof (λ k, chain_u64 d P chain k Hc) as Hu.
  destruct (foldM_inv (λ l ids d', Good V d' ∧ kv d' = kv d ∧ NoDup ids ∧
      ∀ x, x ∈ ids ↔ ∃ s, s ∈ l ∧ short_is d x s) event_ids [] (z_iter chain) d) as (ids & d' & E & HG' & Hk & Hnd & Hids).
  - split_and!; [done|done|constructor|]. set_solver.
  - intros l1 s l2 ids d1 E (HG1 & Hk1 & Hnd & Hids).
    assert (s ∈ chain) as Hs by (apply elem_of_z_iter; [done|]; rewrite E; set_solver).
    destruct Hc as [_ Hc2]. destruct (Hc2 s Hs) as (x & [Hx1 Hx2]%Hok & Hx).
    destruct (read_id V d1 s x HG1) as (d2 & E2 & HG2 & Hk2); [|done|done|].
    { unfold short_is. by rewrite Hk1. }
    unfold event_ids. rewrite (bind_ok _ _ d1 (Some x) d2) by (unfold try_ok; by rewrite E2).
    exists (ids ++ [x]), d2. split_and!; [done|done|congruence| |].
    + apply NoDup_app. split_and!; [done| |apply NoDup_singleton].
      intros y (t & Ht & Hyt)%Hids ->%list_elem_of_singleton. rewrite (short_is_fun _ _ _ _ Hyt Hx) in Ht.
      pose proof (NoDup_z_iter chain Hu) as Hn. rewrite E in Hn.
      apply NoDup_app in Hn as (_ & Hn & _). apply (Hn s Ht). by constructor.
    + intros y. rewrite elem_of_app, list_elem_of_singleton, Hids. setoid_rewrite elem_of_app.
      setoid_rewrite list_elem_of_singleton. split; [naive_solver|].
      intros (t & [Ht| ->] & Hyt); [naive_solver|]. right. destruct HG as [_ [n HR]].
      by apply (short_is_inj d n y x s (rd_short _ _ _ HR)).
  - exists ids, d'. split_and!; [done..|]. intros x. rewrite Hids. destruct Hc as [H1 H2]. split.
    + intros (s & Hs%elem_of_z_iter & Hx); [|done]. destruct (H2 s Hs) as (y & Hy & Hys).
      destruct HG as [_ [n HR]]. by rewrite (short_is_inj d n x y s (rd_short _ _ _ HR)).
    + intros Hx. destruct (H1 x Hx) as (s & Hs & Hin). exists s. split; [by apply elem_of_z_iter|done].
Qed.

Lemma get_auth_chain_spec :
  Good V d0 → (∀ e x, e ∈ starts → tc (edge d0) e x → utf8_valid x = true ∧ event_id_ok x = true) → ∃ ids d',
    get_auth_chain room starts d0 = (Ok ids, d') ∧ Good V d' ∧ grows d0 d' ∧ NoDup ids ∧
    ∀ x, x ∈ ids ↔ ∃ e, e ∈ starts ∧ tc (edge d0) e x.
Proof.
  intros HG Hok. unfold get_auth_chain. destruct (buckets_spec d0 eq_refl HG) as (buckets & d1 & E1 & HG1 & Hg1 & Hb).
  rewrite (bind_ok _ _ _ _ _ E1). destruct Hb as (_ & Hb1 & Hb2).
  destruct (foldM_inv (λ l c d2, Good V d2 ∧ grows d1 d2 ∧ chain_for d2 (λ x, ∃ b, b ∈ l ∧ from_chunk b x) c)
    (chain_of_chunk room) ∅ buckets d1) as (c & d2 & E2 & HG2 & Hg2 & Hc).
  { split_and!; [done|apply grows_refl|]. apply chain_for_empty. by intros x (p & []%elem_of_nil & _). }
  { intros l1 b l2 c d2 El (HG2 & Hg2 & Hc). pose proof (grows_trans _ _ _ Hg1 Hg2) as Hg12.
    destruct (chain_of_chunk_spec (λ x, ∃ b, b ∈ l1 ∧ from_chunk b x) c b d2) as (c' & d3 & E3 & HG3 & Hg3 & Hc'); [done|done| |done|].
    { apply (labelled_grows d1 d2); [done|]. intros q Hq. apply (Hb1 b); [rewrite El; set_solver|done]. }
    exists c', d3. split_and!; [done|done|by eapply grows_trans|]. eapply chain_for_iff; [|exact Hc'].
    intros x. setoid_rewrite elem_of_app. setoid_rewrite list_elem_of_singleton. naive_solver. }
  rewrite (bind_ok _ _ _ _ _ E2). pose proof (grows_trans _ _ _ Hg1 Hg2) as Hg12.
  apply (chain_for_iff _ _ (λ x, ∃ e, e ∈ starts ∧ tc (edge d0) e x)) in Hc.
  2:{ intros x. split.
      - intros (b & Hb & p & Hp & Htc). exists p.2. split; [|done]. by apply (Hb1 b).
      - intros (e & He & Htc). destruct (Hb2 e He) as (b & s & ? & ?). exists b. split; [done|]. by exists (s, e). }
  destruct (event_ids_spec d2 _ c HG2 Hc) as (ids & d3 & E3 & HG3 & Hk3 & Hnd & Hids).
  { intros x (e & He & Htc). by apply (Hok e). }
  exists ids, d3. split_and!; [done|done| |done|done]. eapply grows_trans; [done|]. split; intros t _; by rewrite Hk3.
Qed.
End chains.

(** * What the service promises *)

(** C23: For starting events of one room, [get_auth_chain] terminates without an
    error and returns, without duplicates, exactly the events reachable from
    the starting events by one or more auth-event steps through the stored
    events, whatever truthful part of the answer is already cached in memory
    or on disk; the caches stay truthful and no event is changed. *)
Theorem auth_chain_exact (RU : Ruma) (LR : LruCache) (HO : HashOrder) (JP : Json PduEvent) d n room starts :
  ShortInv d n → n + lacking (mentioned d ∪ list_to_set starts) d < u64_max → PduCacheInv d → AuthInv d →
  (∀ e x, e ∈ starts → rtc (edge d) e x → in_room d room x) →
  (∀ e x, e ∈ starts → tc (edge d) e x → utf8_valid x = true ∧ event_id_ok x = true) →
  ∃ ids d', get_auth_chain room starts d = (Ok ids, d') ∧ NoDup ids ∧
    (∀ x, x ∈ ids ↔ ∃ e, e ∈ starts ∧ tc (edge d) e x) ∧
    AuthInv d' ∧ PduCacheInv d' ∧ (∃ n', ShortInv d' n') ∧ same_events d d'.
Proof.
  intros HI Hn Hc HA Hroom Hok.
  destruct (get_auth_chain_spec (mentioned d ∪ list_to_set starts) d room starts)
    as (ids & d' & E & [HA' [n' [HI' _ Hc']]] & [_ Hs] & Hnd & Hids); [set_solver|set_solver|done| |done|].
  - split; [done|]. by exists n.
  - exists ids, d'. split_and!; [done..|by exists n'|done].
Qed.

(** A room of three events, for the witness. *)
#[local] Existing Instance sample_ruma.
#[local] Existing Instance lru_unbounded.
#[local] Existing Instance elements_order.
#[local] Instance auth_json : Json PduEvent := json_countable PduEvent.

Definition auth_pdu (id : bytes) (auth : list bytes) : PduEvent :=
  mkPdu id (Some (lit "!r")) (lit "@a:b") 1 (lit "m.room.member") (lit "{}") None [] 1 auth None None [] None.

Definition auth_sample : Db :=
  upd eventid_outlierpdu (λ _, <[lit "$a" := to_vec (auth_pdu (lit "$a") [])]>
    (<[lit "$b" := to_vec (auth_pdu (lit "$b") [lit "$a"])]>
      (<[lit "$c" := to_vec (auth_pdu (lit "$c") [lit "$a"; lit "$b"])]> ∅))) empty_db.

Lemma auth_sample_room x : in_room auth_sample (lit "!r") x.
Proof.
  intros p. rewrite stored_eq. unfold auth_sample. rewrite kv_upd_eq, kv_upd_ne by done.
  cbn [kv empty_db]. rewrite lookup_empty, !lookup_insert.
  repeat case_decide; rewrite ?from_slice_to_vec; [by intros [= <-]..|]. by rewrite lookup_empty.
Qed.

Lemma auth_sample_ids e x : tc (edge auth_sample) e x → utf8_valid x = true ∧ event_id_ok x = true.
Proof.
  assert (set_Forall (λ x, utf8_valid x = true ∧ event_id_ok x = true) (mentioned auth_sample)) as H
    by (apply (bool_decide_unpack _); vm_compute; exact I).
  apply (tc_closed _ (λ x, utf8_valid x = true ∧ event_id_ok x = true)).
  intros y z _ Hyz. apply H. by eapply stored_mentioned.
Qed.

Lemma auth_chain_exact_witness :
  ∃ ids d', get_auth_chain (lit "!r") [lit "$c"] auth_sample = (Ok ids, d') ∧ NoDup ids ∧
    (∀ x, x ∈ ids ↔ ∃ e, e ∈ [lit "$c"] ∧ tc (edge auth_sample) e x) ∧
    AuthInv d' ∧ PduCacheInv d' ∧ (∃ n', ShortInv d' n') ∧ same_events auth_sample d'.
Proof.
  apply (auth_chain_exact sample_ruma lru_unbounded elements_order auth_json auth_sample 0 (lit "!r") [lit "$c"]).
  - apply ShortInv_upd; [|apply empty_db_short].
    intros H. repeat (apply elem_of_cons in H as [?|H]; [done|]). by apply elem_of_nil in H.
  - vm_compute. reflexivity.
  - intros e p H. assert (pdu_cache auth_sample = ∅) as E by done. by rewrite E, lookup_empty in H.
  - assert (auth_chain_cache auth_sample = ∅) as E by done.
    split; [intros key c H; by rewrite E, lookup_empty in H|]. intros k b _ H.
    unfold auth_sample in H. rewrite kv_upd_ne in H by done. cbn [kv empty_db] in H. by rewrite lookup_empty in H.
  - intros e x _ _. apply auth_sample_room.
  - intros e x _. apply auth_sample_ids.
Defined.

(** The search agrees with the expected answer on the sample. *)
Lemma auth_chain_sample : (get_auth_chain (lit "!r") [lit "$c"] auth_sample).1 = Ok [lit "$a"; lit "$b"] ∨
  (get_auth_chain (lit "!r") [lit "$c"] auth_sample).1 = Ok [lit "$b"; lit "$a"].
Proof. vm_compute. first [left; reflexivity|right; reflexivity]. Qed.
