(* ===== verification/Edus.v ===== *)
(** * Edus: read receipts, presence and typing notifications

    [server/src/database/key_value/rooms/edus/read_receipt.rs], [presence.rs] and
    [server/src/service/rooms/edus/typing/mod.rs].  A room has one public read
    receipt per user, under a key that carries the count of its last change;
    typing users are kept in memory with the time they stop typing. *)
From S2P Require Import Prelude Bytes KvTree Pdu Database.

(** * Read receipts *)

#[local] Set Default Proof Using "Type".

Section receipts.
Context {RU : Ruma}.
(** [ReceiptEvent] and [CanonicalJsonObject] as JSON *)
Context {Receipt : Type} `{JR : !Json Receipt} {Obj : Type} `{JO : !Json Obj} (remove_key : bytes → Obj → Obj).

Definition readreceipt_update (user_id room_id : bytes) (event : Receipt) : M Db unit :=
  let prefix := room_id ++ [ff] in
  let last_possible_key := prefix ++ to_be_bytes u64_max in
  (* Remove old entry *)
  old ← gets (λ d, Ok (find (λ e, bool_decide (rsplit_first e.1 = user_id))
          (take_while (λ e, starts_with prefix e.1)
            (kv_iter_from (kv d readreceiptid_readreceipt) last_possible_key true))));
  match old with
  | Some (old, _) => remove readreceiptid_readreceipt old
  | None => mret tt
  end;;
  c ← next_count;
  insert readreceiptid_readreceipt (prefix ++ to_be_bytes c ++ ff :: user_id) (to_vec event).

(** One entry of the feed; a slice out of range panics. *)
Definition receipt_entry (prefix : bytes) (e : entry) : res (bytes * Z * bytes) :=
  let '(k, v) := e in
  let len := length prefix in
  if bool_decide (length k < len + 8)%nat then Panic else
  count ← ok_or (u64_from_bytes (take 8 (drop len k))) (BadDatabase "Invalid readreceiptid count in db.");
  if bool_decide (length k < len + 9)%nat then Panic else
  user_id ← parse_id user_id_ok "Invalid readreceiptid userid bytes in db." "Invalid readreceiptid userid in db."
              (drop (len + 9) k);
  json ← ok_or (from_slice v : option Obj) (BadDatabase "Read receipt in roomlatestid_roomlatest is invalid json.");
  Ok (user_id, count, to_vec (remove_key (lit "room_id") json)).

Definition readreceipts_since (room_id : bytes) (since : Z) (d : Db) : list (res (bytes * Z * bytes)) :=
  let prefix := room_id ++ [ff] in
  receipt_entry prefix <$> take_while (λ e, starts_with prefix e.1)
    (kv_iter_from (kv d readreceiptid_readreceipt) (prefix ++ to_be_bytes (w64 (since + 1))) false).

(** ** Private read markers *)

Definition private_read_set (room_id user_id : bytes) (count : Z) : M Db unit :=
  let key := room_id ++ ff :: user_id in
  insert roomuserid_privateread key (to_be_bytes count);;
  c ← next_count;
  insert roomuserid_lastprivatereadupdate key (to_be_bytes c).

Definition private_read_get (room_id user_id : bytes) : M Db (option Z) :=
  o ← get roomuserid_privateread (room_id ++ ff :: user_id);
  lift (map_transpose (λ v, ok_or (u64_from_bytes v) (BadDatabase "Invalid private read marker bytes")) o).

Definition last_privateread_update (user_id room_id : bytes) : M Db Z :=
  o ← get roomuserid_lastprivatereadupdate (room_id ++ ff :: user_id);
  o ← lift (map_transpose (λ bytes, ok_or (u64_from_bytes bytes)
        (BadDatabase "Count in roomuserid_lastprivatereadupdate is invalid.")) o);
  mret (default 0 o).

(** * The abstract receipts: the last receipt of a user in a room, with the
    count of its change *)

#[local] Abbreviation Receipts := (gmap (bytes * bytes) (Z * Receipt)).

Definition receipt_id (room : bytes) (c : Z) (user : bytes) : bytes := (room ++ [ff]) ++ to_be_bytes c ++ ff :: user.

Record ReceiptRep (A : Receipts) (d : Db) (n : Z) : Prop := mk_ReceiptRep {
  rr_tree : ∀ k v, kv d readreceiptid_readreceipt !! k = Some v ↔
    ∃ r u c e, A !! (r, u) = Some (c, e) ∧ k = receipt_id r c u ∧ v = to_vec e;
  rr_keys : ∀ r u c e, A !! (r, u) = Some (c, e) →
    no_ff r ∧ utf8_valid u = true ∧ user_id_ok u = true ∧ 1 ≤ c ≤ n;
  rr_count : count_is d n;
}.

Lemma receipt_id_inj r c u r' c' u' :
  no_ff r → no_ff r' → is_u64 c → is_u64 c' → receipt_id r c u = receipt_id r' c' u' → r = r' ∧ c = c' ∧ u = u'.
Proof.
  unfold receipt_id. intros Hr Hr' Hc Hc' E. rewrite <-!app_assoc in E. cbn [app] in E.
  apply app_ff_inj in E as [-> E]; [|done..]. apply app_inj_1 in E as [E1 E2]; [|by rewrite !length_to_be_bytes].
  apply to_be_bytes_inj in E1 as ->; [|done..]. by injection E2.
Qed.

Lemma receipt_id_prefix r r' c u :
  no_ff r → no_ff r' → starts_with (r ++ [ff]) (receipt_id r' c u) = true ↔ r = r'.
Proof. intros Hr Hr'. unfold receipt_id. rewrite <-app_assoc. cbn [app]. by apply starts_with_ff. Qed.

Lemma receipt_id_user r c u : no_ff u → rsplit_first (receipt_id r c u) = u.
Proof. intros Hu. unfold receipt_id. rewrite app_assoc. by apply rsplit_first_app. Qed.

Lemma receipt_counts A d n r u c e : ReceiptRep A d n → A !! (r, u) = Some (c, e) → is_u64 c ∧ no_ff r ∧ no_ff u.
Proof.
  intros HI HA. destruct (rr_keys _ _ _ HI _ _ _ _ HA) as (? & ? & _ & ?). destruct (rr_count _ _ _ HI) as [[] _].
  split_and!; [unfold is_u64; lia|done|by apply utf8_no_ff].
Qed.

(** The entry the update removes is the one of the room and user. *)
Lemma old_receipt A d n room user :
  ReceiptRep A d n → n < u64_max → no_ff room → no_ff user →
  fst <$> find (λ e, bool_decide (rsplit_first e.1 = user))
    (take_while (λ e, starts_with (room ++ [ff]) e.1)
      (kv_iter_from (kv d readreceiptid_readreceipt) ((room ++ [ff]) ++ to_be_bytes u64_max) true)) =
  (λ ce, receipt_id room ce.1 user) <$> A !! (room, user).
Proof.
  intros HI Hn Hr Hu. rewrite iter_from_prefix_rev by apply starts_with_app. set (l := reverse _).
  assert (∀ k v, (k, v) ∈ l ↔ ∃ u c e, A !! (room, u) = Some (c, e) ∧ k = receipt_id room c u ∧ v = to_vec e) as Hl.
  { intros k v. unfold l. rewrite elem_of_reverse, elem_of_bfilter, elem_of_entries, (rr_tree _ _ _ HI). cbn [fst]. split.
    - intros [Hp (r & u & c & e & HA & -> & ->)]. apply andb_true_iff in Hp as [Hp _].
      destruct (receipt_counts _ _ _ _ _ _ _ HI HA) as (_ & Hr' & _). apply receipt_id_prefix in Hp as <-; [eauto 10|done..].
    - intros (u & c & e & HA & -> & ->). split; [|eauto 10]. destruct (receipt_counts _ _ _ _ _ _ _ HI HA) as (Hc & _ & _).
      apply andb_true_iff. split; [by apply receipt_id_prefix|]. unfold bleb, receipt_id.
      rewrite bytes_cmp_app, <-(app_nil_r (to_be_bytes u64_max)), bytes_cmp_to_be_bytes by (done || by unfold is_u64, u64_max).
      destruct (rr_keys _ _ _ HI _ _ _ _ HA) as (_ & _ & _ & Hcn). destruct (Z.compare_spec c u64_max); [lia|done|lia]. }
  destruct (find _ l) as [[k v]|] eqn:Ef; cbn [fmap option_fmap option_map fst].
  - apply find_Some in Ef as [Hu' Hin]. apply bool_decide_eq_true in Hu'. apply Hl in Hin as (u & c & e & HA & -> & ->).
    destruct (receipt_counts _ _ _ _ _ _ _ HI HA) as (_ & _ & Hu2). cbn [fst] in Hu'. rewrite receipt_id_user in Hu' by done.
    subst u. by rewrite HA.
  - destruct (A !! (room, user)) as [[c e]|] eqn:HA; [|done]. exfalso.
    assert ((receipt_id room c user, to_vec e) ∈ l) as Hin by (apply Hl; eauto 10).
    pose proof (proj1 (find_None _ _) Ef _ Hin) as Hf. apply bool_decide_eq_false in Hf. apply Hf. cbn [fst].
    by apply receipt_id_user.
Qed.

(** An update replaces the receipt of its room and user. *)
Lemma readreceipt_update_spec A d n user room event :
  ReceiptRep A d n → n < u64_max → no_ff room → utf8_valid user = true → user_id_ok user = true →
  ∃ d', readreceipt_update user room event d = (Ok tt, d') ∧
    ReceiptRep (<[(room, user) := (n + 1, event)]> A) d' (n + 1).
Proof.
  intros HI Hn Hr Hu Hok. pose proof (utf8_no_ff _ Hu) as Huf. unfold readreceipt_update. cbv zeta.
  pose proof (old_receipt A d n room user HI Hn Hr Huf) as Hold. rewrite bind_gets. set (old := find _ _) in *.
  set (tr := match A !! (room, user) with
    | Some ce => delete (receipt_id room ce.1 user) (kv d readreceiptid_readreceipt) | None => kv d readreceiptid_readreceipt end).
  assert (∃ d1, match old with Some (old, _) => remove readreceiptid_readreceipt old | None => mret tt end d = (Ok tt, d1) ∧
    kv d1 readreceiptid_readreceipt = tr ∧ count_is d1 n) as (d1 & E1 & Etr & Hc1).
  { unfold tr. pose proof (rr_count _ _ _ HI) as Hc. destruct old as [[k v]|], (A !! (room, user)) as [ce|]; try done.
    - injection Hold as ->. eexists. split; [done|]. unfold count_is. by kv_simpl.
    - by exists d. }
  rewrite (bind_ok _ _ _ _ _ E1), (bind_ok _ _ _ _ _ (next_count_spec d1 n Hc1 Hn)). eexists. split; [done|].
  assert (is_u64 (n + 1)) as Hn1 by (destruct Hc1 as [[] _]; unfold is_u64; lia). split.
  - intros k v. kv_simpl. unfold kv_insert. rewrite Etr. fold (receipt_id room (n + 1) user). rewrite lookup_insert_Some.
    assert (∀ k v, tr !! k = Some v ↔ ∃ r u c e, (r, u) ≠ (room, user) ∧ A !! (r, u) = Some (c, e) ∧ k = receipt_id r c u ∧ v = to_vec e) as Htr.
    { intros k' v'. unfold tr. destruct (A !! (room, user)) as [[c0 e0]|] eqn:E0.
      - rewrite lookup_delete_Some, (rr_tree _ _ _ HI). split.
        + intros [Hne (r & u & c & e & HA & -> & ->)]. exists r, u, c, e. split; [|done]. intros [= -> ->]. cbn in Hne. congruence.
        + intros (r & u & c & e & Hne & HA & -> & ->). split; [|eauto 10].
          destruct (receipt_counts _ _ _ _ _ _ _ HI HA) as (? & ? & ?), (receipt_counts _ _ _ _ _ _ _ HI E0) as (? & ? & ?).
          cbn [fst]. intros E. apply receipt_id_inj in E as (-> & _ & ->); done.
      - rewrite (rr_tree _ _ _ HI). split.
        + intros (r & u & c & e & HA & -> & ->). exists r, u, c, e. split; [congruence|done].
        + intros (r & u & c & e & _ & H). by exists r, u, c, e. }
    rewrite Htr. split.
    + intros [[<- <-]|[Hne (r & u & c & e & Hne' & HA & -> & ->)]].
      * exists room, user, (n + 1), event. by rewrite lookup_insert_eq.
      * exists r, u, c, e. by rewrite lookup_insert_ne.
    + intros (r & u & c & e & HA & -> & ->). rewrite lookup_insert in HA. case_decide as Hd.
      * injection Hd as <- <-. injection HA as <- <-. by left.
      * right. destruct (receipt_counts _ _ _ _ _ _ _ HI HA) as (? & ? & ?). split; [|exists r, u, c, e; split_and!; [congruence|done..]].
        intros E. apply receipt_id_inj in E as (-> & _ & ->); done.
  - intros r u c e. rewrite lookup_insert. case_decide as Hd.
    + injection Hd as <- <-. intros [= <- <-]. destruct Hc1 as [[] _]. split_and!; [done..|lia|lia].
    + intros HA. destruct (rr_keys _ _ _ HI _ _ _ _ HA) as (? & ? & ? & ?). split_and!; [done..|lia|lia].
  - split; [done|]. left. kv_simpl. unfold set_count. kv_simpl. apply lookup_insert_eq.
Qed.

(** The feed: the receipts after a position, by count. *)
Lemma readreceipts_since_spec A d n room since :
  ReceiptRep A d n → no_ff room → 0 ≤ since < u64_max → (∀ e : Receipt, is_Some (from_slice (to_vec e) : option Obj)) →
  ∃ l, readreceipts_since room since d = Ok <$> l ∧ StronglySorted (λ x y : bytes * Z * bytes, x.1.2 ≤ y.1.2) l ∧
    ∀ u c j, (u, c, j) ∈ l ↔ ∃ e o, A !! (room, u) = Some (c, e) ∧ since < c ∧
      from_slice (to_vec e) = Some o ∧ j = to_vec (remove_key (lit "room_id") o).
Proof.
  intros HI Hr Hs Hobj. unfold readreceipts_since. cbv zeta.
  assert (∀ k v, kv d readreceiptid_readreceipt !! k = Some v → starts_with (room ++ [ff]) k = true →
    ∃ u c e, A !! (room, u) = Some (c, e) ∧ k = receipt_id room c u ∧ v = to_vec e) as Hin.
  { intros k v Hk Hp. apply (rr_tree _ _ _ HI) in Hk as (r & u & c & e & HA & -> & ->).
    destruct (receipt_counts _ _ _ _ _ _ _ HI HA) as (_ & Hr' & _). apply receipt_id_prefix in Hp as <-; [eauto 10|done..]. }
  rewrite iter_from_count; [|done|].
  2:{ intros k v Hk Hp. destruct (Hin k v Hk Hp) as (u & c & e & HA & -> & ->).
      exists c, (ff :: u). split; [|done]. by destruct (receipt_counts _ _ _ _ _ _ _ HI HA). }
  set (l := bfilter _ _).
  assert (∀ x, x ∈ l ↔ ∃ u c e, A !! (room, u) = Some (c, e) ∧ since < c ∧ x = (receipt_id room c u, to_vec e)) as Hl.
  { intros [k v]. unfold l. rewrite elem_of_bfilter, elem_of_entries. cbn [fst]. split.
    - intros [Hp Hk]. apply andb_true_iff in Hp as [Hp Hlt]. destruct (Hin k v Hk Hp) as (u & c & e & HA & -> & ->).
      destruct (receipt_counts _ _ _ _ _ _ _ HI HA) as (Hc & _ & _). unfold receipt_id in Hlt. rewrite count_at_key in Hlt by done.
      apply Z.ltb_lt in Hlt. eauto 10.
    - intros (u & c & e & HA & Hlt & [= -> ->]). destruct (receipt_counts _ _ _ _ _ _ _ HI HA) as (Hc & _ & _). split.
      + apply andb_true_iff. split; [by apply receipt_id_prefix|]. unfold receipt_id. rewrite count_at_key by done. by apply Z.ltb_lt.
      + apply (rr_tree _ _ _ HI). eauto 10. }
  set (item := λ x : entry, match receipt_entry (room ++ [ff]) x with Ok y => y | _ => ([], 0, []) end).
  assert (∀ u c e, A !! (room, u) = Some (c, e) → ∃ o, from_slice (to_vec e) = Some o ∧
    receipt_entry (room ++ [ff]) (receipt_id room c u, to_vec e) = Ok (u, c, to_vec (remove_key (lit "room_id") o))) as Hitem.
  { intros u c e HA. destruct (Hobj e) as [o Ho]. exists o. split; [done|]. destruct (rr_keys _ _ _ HI _ _ _ _ HA) as (_ & Hu & Hok & _).
    destruct (receipt_counts _ _ _ _ _ _ _ HI HA) as (Hc & _ & _). unfold receipt_entry. cbv zeta.
    assert (length (receipt_id room c u) = length (room ++ [ff]) + 9 + length u)%nat as Hlen.
    { unfold receipt_id. rewrite !length_app, length_to_be_bytes. cbn [length]. lia. }
    assert (drop (length (room ++ [ff])) (receipt_id room c u) = to_be_bytes c ++ ff :: u) as Ed by apply drop_app_length.
    rewrite bool_decide_eq_false_2 by lia. rewrite Ed.
    rewrite (take_app_length' (to_be_bytes c) (ff :: u) 8) by (by rewrite length_to_be_bytes).
    rewrite u64_from_to_be_bytes by done. cbn [ok_or mbind res_bind]. rewrite bool_decide_eq_false_2 by lia.
    assert (drop (length (room ++ [ff]) + 9) (receipt_id room c u) = u) as ->.
    { rewrite <-drop_drop, Ed. replace 9%nat with (length (to_be_bytes c ++ [ff]))
        by (by rewrite length_app, length_to_be_bytes). change (to_be_bytes c ++ ff :: u) with (to_be_bytes c ++ [ff] ++ u).
      by rewrite app_assoc, drop_app_length. }
    rewrite parse_id_ok by done. cbn. by rewrite Ho. }
  exists (item <$> l). split_and!.
  - rewrite <-list_fmap_compose. apply list_fmap_ext. intros i x Hx%list_elem_of_lookup_2.
    apply Hl in Hx as (u & c & e & HA & _ & ->). destruct (Hitem u c e HA) as (o & _ & E). unfold item, compose. by rewrite E.
  - assert (StronglySorted key_lt l) as Hsort by apply StronglySorted_bfilter, entries_sorted.
    assert (∀ x y, x ∈ l → y ∈ l → key_lt x y → (item x).1.2 ≤ (item y).1.2) as Hmono.
    { intros x y (u & c & e & HA & _ & ->)%Hl (u' & c' & e' & HA' & _ & ->)%Hl. unfold key_lt, blt, item, receipt_id. cbn [fst].
      destruct (Hitem u c e HA) as (o & _ & E), (Hitem u' c' e' HA') as (o' & _ & E'). unfold receipt_id in E, E'. rewrite E, E'.
      destruct (receipt_counts _ _ _ _ _ _ _ HI HA) as (Hc & _ & _), (receipt_counts _ _ _ _ _ _ _ HI HA') as (Hc' & _ & _).
      rewrite bytes_cmp_app, bytes_cmp_to_be_bytes by done. cbn. destruct (Z.compare_spec c c'); [lia|lia|done]. }
    clear Hl. induction Hsort as [|x l Hsort IH Hall]; [constructor|]. rewrite fmap_cons. constructor.
    + apply IH. intros y z Hy Hz. apply Hmono; by constructor.
    + apply Forall_fmap, Forall_forall. intros y Hy. cbn. rewrite Forall_forall in Hall.
      apply Hmono; [by constructor|by constructor|by apply Hall].
  - intros u c j. rewrite list_elem_of_fmap. split.
    + intros (x & Ex & (u' & c' & e & HA & Hlt & ->)%Hl). destruct (Hitem u' c' e HA) as (o & Ho & E). unfold item in Ex. rewrite E in Ex.
      injection Ex as -> -> ->. eauto 10.
    + intros (e & o & HA & Hlt & Ho & ->). exists (receipt_id room c u, to_vec e). destruct (Hitem u c e HA) as (o' & Ho' & E).
      unfold item. rewrite E. split; [congruence|]. apply Hl. eauto 10.
Qed.
End receipts.

(** * Presence

    The operations of the database part; the service in front of them is
    switched off (its methods return at once). *)

Section presence.
Context {RU : Ruma}.

Inductive PresenceState := Offline | Online | Unavailable | CustomPresence (s : bytes).

Record PresenceEvent := mkPresence {
  pr_sender : bytes;
  pr_presence : PresenceState;
  pr_last_active_ago : option Z;
  pr_rest : bytes;
}.

(** [serde_json] for presence events and the subtraction of [js_int::UInt]. *)
Context `{JP : !Json PresenceEvent} (uint_sub : Z → Z → res Z).

Definition parse_presence_event (now : Z) (bs : bytes) : res PresenceEvent :=
  presence ← ok_or (from_slice bs) (BadDatabase "Invalid presence event in db.");
  match pr_presence presence with
  | Online => Ok (mkPresence (pr_sender presence) (pr_presence presence) None (pr_rest presence))
  | _ =>
      ago ← map_transpose (λ timestamp, uint_sub now timestamp) (pr_last_active_ago presence);
      Ok (mkPresence (pr_sender presence) (pr_presence presence) ago (pr_rest presence))
  end.

Definition update_presence (now : Z) (user_id room_id : bytes) (presence : PresenceEvent) : M Db unit :=
  count ← next_count;
  insert presenceid_presence (room_id ++ ff :: to_be_bytes count ++ ff :: pr_sender presence) (to_vec presence);;
  insert userid_lastpresenceupdate user_id (to_be_bytes now).

Definition ping_presence (now : Z) (user_id : bytes) : M Db unit :=
  insert userid_lastpresenceupdate user_id (to_be_bytes now).

Definition last_presence_update (user_id : bytes) : M Db (option Z) :=
  o ← get userid_lastpresenceupdate user_id;
  lift (map_transpose (λ bs, ok_or (u64_from_bytes bs)
    (BadDatabase "Invalid timestamp in userid_lastpresenceupdate.")) o).

Definition get_presence_event (now : Z) (room_id user_id : bytes) (count : Z) : M Db (option PresenceEvent) :=
  o ← get presenceid_presence (room_id ++ ff :: to_be_bytes count ++ ff :: user_id);
  lift (map_transpose (parse_presence_event now) o).

(** One entry of the feed. *)
Definition presence_entry (now : Z) (e : entry) : res (bytes * PresenceEvent) :=
  user_id ← parse_id user_id_ok "Invalid UserId bytes in presenceid_presence." "Invalid UserId in presenceid_presence."
              (rsplit_first e.1);
  presence ← parse_presence_event now e.2;
  Ok (user_id, presence).

Definition presence_since (now : Z) (room_id : bytes) (since : Z) : M Db (gmap bytes PresenceEvent) :=
  let prefix := room_id ++ [ff] in
  gets (λ d,
    l ← collect (presence_entry now <$> take_while (λ e, starts_with prefix e.1)
          (kv_iter_from (kv d presenceid_presence) (prefix ++ to_be_bytes (w64 (since + 1))) false));
    Ok (fold_left (λ hashmap '(user_id, presence), <[user_id := presence]> hashmap) l ∅)).
End presence.

(** * Typing notifications *)

Record TypingState := mkTyping {
  (** unix timestamp of the timeout of each typing user of each room *)
  typing : gmap bytes (gmap bytes Z);
  (** count of the last change to the typing users of a room *)
  last_update : gmap bytes Z;
  (** the rooms sent to [typing_update_sender], last first *)
  typing_sent : list bytes;
  typing_db : Db;
}.

Definition typing_room (s : TypingState) (room_id : bytes) : gmap bytes Z := default ∅ (typing s !! room_id).

(** Replace the users of a room, take a count for it and announce the room. *)
Definition set_typing (room_id : bytes) (room : gmap bytes Z) : M TypingState unit := λ s,
  let typing' := <[room_id := room]> (typing s) in
  match next_count (typing_db s) with
  | (Ok c, d) => (Ok tt, mkTyping typing' (<[room_id := c]> (last_update s)) (room_id :: typing_sent s) d)
  | (Err e, d) => (Err e, mkTyping typing' (last_update s) (typing_sent s) d)
  | (Panic, d) => (Panic, mkTyping typing' (last_update s) (typing_sent s) d)
  end.

Definition typing_add (user_id room_id : bytes) (timeout : Z) : M TypingState unit := λ s,
  set_typing room_id (<[user_id := timeout]> (typing_room s room_id)) s.

Definition typing_remove (user_id room_id : bytes) : M TypingState unit := λ s,
  set_typing room_id (delete user_id (typing_room s room_id)) s.

(** Drop the users whose timeout has passed. *)
Definition typings_maintain (now : Z) (room_id : bytes) : M TypingState unit := λ s,
  match typing s !! room_id with
  | None => (Ok tt, s)
  | Some room =>
      let removable := filter (λ e : bytes * Z, e.2 < now) (map_to_list room) in
      if bool_decide (removable = []) then (Ok tt, s)
      else set_typing room_id (fold_left (λ m e, delete e.1 m) removable room) s
  end.

Definition last_typing_update (now : Z) (room_id : bytes) : M TypingState Z :=
  typings_maintain now room_id;;
  gets (λ s, Ok (default 0 (last_update s !! room_id))).

(** The typing users, in the order of the map. *)
Definition typings_all (room_id : bytes) (s : TypingState) : list bytes :=
  merge_sort (λ a b, bleb a b = true) (map_to_list (typing_room s room_id)).*1.

(** ** What the typing users are *)

Inductive TypingOp :=
  | TypingAdd (user room : bytes) (timeout : Z)
  | TypingRemove (user room : bytes)
  | TypingSync (now : Z) (room : bytes).

Definition typing_step (op : TypingOp) : M TypingState unit :=
  match op with
  | TypingAdd u r t => typing_add u r t
  | TypingRemove u r => typing_remove u r
  | TypingSync now r => last_typing_update now r;; mret tt
  end.

(** The timeout a user has after a sequence of operations: that of its last
    [typing_add] not followed by a [typing_remove] or a sync after it. *)
Definition typing_after (user room : bytes) (ops : list TypingOp) (o : option Z) : option Z :=
  fold_left (λ o op,
    match op with
    | TypingAdd u r t => if bool_decide ((u, r) = (user, room)) then Some t else o
    | TypingRemove u r => if bool_decide ((u, r) = (user, room)) then None else o
    | TypingSync now r =>
        match o with Some t => if bool_decide (r = room ∧ t < now) then None else o | None => None end
    end) ops o.

Lemma lookup_delete_list {V} (l : list (bytes * V)) (m : gmap bytes V) k :
  fold_left (λ m e, delete e.1 m) l m !! k = if decide (k ∈ l.*1) then None else m !! k.
Proof.
  revert m. induction l as [|[k' v] l IH]; intros m; [by rewrite decide_False by set_solver|].
  cbn [fold_left fmap list_fmap fst]. rewrite IH. destruct (decide (k ∈ l.*1)).
  - by rewrite decide_True by (by constructor).
  - destruct (decide (k = k')) as [->|]; [rewrite lookup_delete_eq; by rewrite decide_True by (by constructor)|].
    rewrite lookup_delete_ne by done. by rewrite decide_False by (by rewrite not_elem_of_cons).
Qed.

Lemma set_typing_spec r m s n :
  count_is (typing_db s) n → n < u64_max → ∃ s', set_typing r m s = (Ok tt, s') ∧ count_is (typing_db s') (n + 1) ∧
    typing s' = <[r := m]> (typing s) ∧ last_update s' = <[r := n + 1]> (last_update s).
Proof.
  intros Hc Hn. unfold set_typing. rewrite (next_count_spec _ n) by done. eexists. split_and!; [done| |done|done].
  apply count_is_set_count. destruct Hc as [[] _]. unfold is_u64. lia.
Qed.

Lemma typing_room_insert s s' r r' m :
  typing s' = <[r := m]> (typing s) → typing_room s' r' = if decide (r = r') then m else typing_room s r'.
Proof. intros E. unfold typing_room. rewrite E, lookup_insert. by case_decide. Qed.

Lemma typing_step_spec op s n :
  count_is (typing_db s) n → n < u64_max → ∃ s' n', typing_step op s = (Ok tt, s') ∧
    count_is (typing_db s') n' ∧ n ≤ n' ≤ n + 1 ∧
    ∀ u r, typing_room s' r !! u = typing_after u r [op] (typing_room s r !! u).
Proof.
  intros Hc Hn. destruct op as [u r t|u r|now r]; cbn [typing_step typing_after fold_left].
  - destruct (set_typing_spec r (<[u := t]> (typing_room s r)) s n Hc Hn) as (s' & E & Hc' & Et & _).
    exists s', (n + 1). split_and!; [done|done|lia|lia|]. intros u' r'. rewrite (typing_room_insert s s' r r' _ Et).
    case_decide as Hr.
    + subst r'. rewrite lookup_insert. case_decide as Hu; case_bool_decide; congruence.
    + rewrite bool_decide_eq_false_2 by congruence. done.
  - destruct (set_typing_spec r (delete u (typing_room s r)) s n Hc Hn) as (s' & E & Hc' & Et & _).
    exists s', (n + 1). split_and!; [done|done|lia|lia|]. intros u' r'. rewrite (typing_room_insert s s' r r' _ Et).
    case_decide as Hr.
    + subst r'. rewrite lookup_delete. case_decide as Hu; case_bool_decide; congruence.
    + rewrite bool_decide_eq_false_2 by congruence. done.
  - unfold last_typing_update, typings_maintain. destruct (typing s !! r) as [room|] eqn:Er.
    2:{ exists s, n. run. rewrite Er. split_and!; [done|done|lia|lia|]. intros u' r'. destruct (typing_room s r' !! u') as [t|] eqn:E; [|done].
        rewrite bool_decide_eq_false_2; [done|]. intros [-> _]. unfold typing_room in E. rewrite Er in E. cbn in E. by rewrite lookup_empty in E. }
    assert (typing_room s r = room) as Eroom by (unfold typing_room; by rewrite Er).
    set (removable := filter (λ e : bytes * Z, e.2 < now) (map_to_list room)).
    assert (∀ u t, room !! u = Some t → u ∈ removable.*1 ↔ t < now) as Hrem.
    { intros u t Ht. unfold removable. rewrite list_elem_of_fmap. split.
      - intros ([u' t'] & -> & [Hlt Hin]%list_elem_of_filter). apply elem_of_map_to_list in Hin. cbn in *. congruence.
      - intros Hlt. exists (u, t). split; [done|]. apply list_elem_of_filter. split; [done|]. by apply elem_of_map_to_list. }
    assert (∀ u r', (if decide (r = r') then if decide (u ∈ removable.*1) then None else room !! u else typing_room s r' !! u) =
      match typing_room s r' !! u with Some t => if bool_decide (r = r' ∧ t < now) then None else Some t | None => None end) as Hgoal.
    { intros u r'. case_decide as Hr.
      - subst r'. rewrite Eroom. destruct (room !! u) as [t|] eqn:Eu; [|by case_decide].
        specialize (Hrem u t Eu). case_decide; case_bool_decide; naive_solver.
      - destruct (typing_room s r' !! u); [|done]. by rewrite bool_decide_eq_false_2 by (by intros []). }
    run. rewrite Er. fold removable. case_bool_decide as Hnil.
    + exists s, n. split_and!; [done|done|lia|lia|]. intros u r'. pose proof (Hgoal u r') as Hg. rewrite Hnil in Hg. cbn in Hg.
      destruct (typing_room s r' !! u) as [t|] eqn:Eu.
      * rewrite <-Hg. case_decide; [|done]. subst r'. rewrite decide_False by set_solver. by rewrite <-Eroom, Eu.
      * done.
    + destruct (set_typing_spec r (fold_left (λ m e, delete e.1 m) removable room) s n Hc Hn) as (s' & E & Hc' & Et & _).
      exists s', (n + 1). rewrite E. split_and!; [done|done|lia|lia|]. intros u r'. rewrite (typing_room_insert s s' r r' _ Et).
      etrans; [|etrans; [apply (Hgoal u r')|by destruct (typing_room s r' !! u)]].
      case_decide; [apply lookup_delete_list|done].
Qed.

(** * Claims *)

(** The last receipt of each user in each room after a sequence of updates that
    starts at count [n]. *)
Definition receipts_after {Receipt} (ops : list (bytes * bytes * Receipt)) (n : Z)
    (A : gmap (bytes * bytes) (Z * Receipt)) : Z * gmap (bytes * bytes) (Z * Receipt) :=
  fold_left (λ '(n, A) '(user, room, event), (n + 1, <[(room, user) := (n + 1, event)]> A)) ops (n, A).

Lemma readreceipt_updates {RU : Ruma} {Receipt : Type} `{JR : !Json Receipt} (ops : list (bytes * bytes * Receipt)) :
  ∀ A d n, ReceiptRep A d n → n + Z.of_nat (length ops) ≤ u64_max →
  Forall (λ '(user, room, _), no_ff room ∧ utf8_valid user = true ∧ user_id_ok user = true) ops →
  ∃ d', for_each ops (λ '(user, room, event), readreceipt_update user room event) d = (Ok tt, d') ∧
    ReceiptRep (receipts_after ops n A).2 d' (receipts_after ops n A).1.
Proof.
  induction ops as [|[[user room] event] ops IH]; intros A d n HI Hn Hops.
  - by exists d.
  - apply Forall_cons in Hops as [(Hr & Hu & Hok) Hops]. cbn [length] in Hn.
    destruct (readreceipt_update_spec A d n user room event HI ltac:(lia) Hr Hu Hok) as (d1 & E1 & HI1).
    destruct (IH _ d1 (n + 1) HI1 ltac:(lia) Hops) as (d2 & E2 & HI2). exists d2. split; [|done].
    cbn [for_each]. by rewrite (bind_ok _ _ _ _ _ E1).
Qed.

(** Read receipts refine a map from (room, user) to the last receipt.
    After any sequence of updates, the receipts of a room after a position are
    exactly the last receipts of its users that changed after it, one per user,
    ordered by their counts, with the room id removed from the event. *)
Theorem readreceipts_refinement (RU : Ruma) (Receipt : Type) (JR : Json Receipt) (Obj : Type) (JO : Json Obj)
    remove_key (ops : list (bytes * bytes * Receipt)) room since :
  Z.of_nat (length ops) ≤ u64_max →
  Forall (λ '(user, room, _), no_ff room ∧ utf8_valid user = true ∧ user_id_ok user = true) ops →
  (∀ e : Receipt, is_Some (from_slice (to_vec e) : option Obj)) → no_ff room → 0 ≤ since < u64_max →
  ∃ d l, for_each ops (λ '(user, room, event), readreceipt_update user room event) empty_db = (Ok tt, d) ∧
    readreceipts_since remove_key room since d = Ok <$> l ∧
    StronglySorted (λ x y : bytes * Z * bytes, x.1.2 ≤ y.1.2) l ∧
    ∀ u c j, (u, c, j) ∈ l ↔ ∃ e o, (receipts_after ops 0 ∅).2 !! (room, u) = Some (c, e) ∧ since < c ∧
      from_slice (to_vec e) = Some o ∧ j = to_vec (remove_key (lit "room_id") o).
Proof.
  intros Hn Hops Hobj Hr Hs.
  assert (ReceiptRep (∅ : gmap (bytes * bytes) (Z * Receipt)) empty_db 0) as HI.
  { split; [|intros ????; by rewrite lookup_empty|split; [by split|by right]].
    intros k v. cbn [kv empty_db]. rewrite lookup_empty. setoid_rewrite lookup_empty. naive_solver. }
  destruct (readreceipt_updates ops ∅ empty_db 0 HI ltac:(lia) Hops) as (d & E & HI').
  destruct (readreceipts_since_spec remove_key _ d _ room since HI' Hr Hs Hobj) as (l & E' & Hsort & Hl). eauto 10.
Qed.

(** Typing notifications.  After any sequence of additions, removals and
    syncs, a user is listed as typing in a room exactly when its last addition
    was neither removed nor followed by a sync of the room after its timeout;
    the listing is sorted and without duplicates. *)
Theorem typing_users_exact (ops : list TypingOp) d n room :
  count_is d n → n + Z.of_nat (length ops) ≤ u64_max →
  ∃ s, for_each ops typing_step (mkTyping ∅ ∅ [] d) = (Ok tt, s) ∧
    StronglySorted blt (typings_all room s) ∧
    ∀ user, user ∈ typings_all room s ↔ is_Some (typing_after user room ops None).
Proof.
  intros Hc Hn.
  assert (∀ s n, count_is (typing_db s) n → n + Z.of_nat (length ops) ≤ u64_max → ∃ s',
    for_each ops typing_step s = (Ok tt, s') ∧
    ∀ u r, typing_room s' r !! u = typing_after u r ops (typing_room s r !! u)) as H.
  { clear. induction ops as [|op ops IH]; intros s n Hc Hn; [by exists s|]. cbn [length] in Hn.
    destruct (typing_step_spec op s n Hc ltac:(lia)) as (s1 & n1 & E1 & Hc1 & Hn1 & H1).
    destruct (IH s1 n1 Hc1 ltac:(lia)) as (s2 & E2 & H2). exists s2. cbn [for_each]. rewrite (bind_ok _ _ _ _ _ E1).
    split; [done|]. intros u r. by rewrite H2, H1. }
  destruct (H (mkTyping ∅ ∅ [] d) n Hc Hn) as (s & E & Hs). exists s. split; [done|]. unfold typings_all. split.
  - apply merge_sort_keys. apply NoDup_fst_map_to_list.
  - intros user. rewrite merge_sort_Permutation, list_elem_of_fmap. specialize (Hs user room).
    unfold typing_room at 2 in Hs. cbn [typing] in Hs. rewrite lookup_empty in Hs. cbn [default] in Hs. change (from_option id ∅ None) with (∅ : gmap bytes Z) in Hs.
    rewrite lookup_empty in Hs. rewrite <-Hs. split.
    + intros ([u t] & -> & Hin%elem_of_map_to_list). cbn. rewrite Hin. eauto.
    + intros [t Ht]. exists (user, t). split; [done|]. by apply elem_of_map_to_list.
Qed.

Lemma typing_users_exact_witness :
  ∃ s, for_each [TypingAdd (lit "@a:b") (lit "!r") 50; TypingAdd (lit "@c:d") (lit "!r") 10; TypingSync 20 (lit "!r")]
      typing_step (mkTyping ∅ ∅ [] empty_db) = (Ok tt, s) ∧
    StronglySorted blt (typings_all (lit "!r") s) ∧
    ∀ user, user ∈ typings_all (lit "!r") s ↔ is_Some (typing_after user (lit "!r")
      [TypingAdd (lit "@a:b") (lit "!r") 50; TypingAdd (lit "@c:d") (lit "!r") 10; TypingSync 20 (lit "!r")] None).
Proof. apply (typing_users_exact _ empty_db 0); [split; [by split|by right]|done]. Defined.
