(* ===== verification/RoomTables.v ===== *)
(** * RoomTables: the small tables of rooms and users

    [server/src/database/key_value/rooms/]: [alias.rs] (with the guards of
    [service/rooms/alias/mod.rs]), [directory.rs], [metadata.rs], [outlier.rs],
    [lazy_load.rs] (with [service/rooms/lazy_loading/mod.rs]), [threads.rs],
    [pdu_metadata.rs], [user.rs], and [key_value/pusher.rs] and
    [transaction_ids.rs]. *)
From S2P Require Import Prelude Bytes KvTree Pdu Database Short Timeline StateCache.

(** * Aliases *)

Section aliases.
Context {RU : Ruma}.

Definition db_set_alias (alias room_id user_id : bytes) : M Db unit :=
  (* Comes first as we don't want a stuck alias *)
  insert alias_userid (alias_of alias) user_id;;
  insert alias_roomid (alias_of alias) room_id;;
  c ← next_count;
  insert aliasid_alias (room_id ++ ff :: to_be_bytes c) alias.

Definition db_remove_alias (alias : bytes) : M Db unit :=
  o ← get alias_roomid (alias_of alias);
  match o with
  | Some room_id =>
      remove_prefix aliasid_alias (room_id ++ [ff]);;
      remove alias_roomid (alias_of alias);;
      remove alias_userid (alias_of alias)
  | None => fail (BadRequest NotFound "Alias does not exist.")
  end.

Definition resolve_local_alias (alias : bytes) : M Db (option bytes) :=
  o ← get alias_roomid (alias_of alias);
  lift (map_transpose (parse_id room_id_ok "Room ID in alias_roomid is invalid unicode."
    "Room ID in alias_roomid is invalid.") o).

Definition local_aliases_for_room (room_id : bytes) (d : Db) : list (res bytes) :=
  (λ e : entry, parse_id room_alias_id_ok "Invalid alias bytes in aliasid_alias." "Invalid alias in aliasid_alias." e.2)
    <$> kv_scan_prefix (kv d aliasid_alias) (room_id ++ [ff]).

Definition who_created_alias (alias : bytes) : M Db (option bytes) :=
  o ← get alias_userid (alias_of alias);
  lift (map_transpose (parse_id user_id_ok "User ID in alias_userid is invalid unicode."
    "User ID in alias_roomid is invalid.") o).

(** The guards of the service. *)
Context (admin_alias server_user : bytes) (user_is_admin : bytes → Db → res bool).
(** [power_levels(room)] and the test whether a user may set the canonical
    alias. *)
Context (can_send_canonical_alias : bytes → bytes → Db → res bool).

Definition set_alias (alias room_id user_id : bytes) : M Db unit :=
  if bool_decide (alias = admin_alias) && bool_decide (user_id ≠ server_user)
  then fail (BadRequest Forbidden "Only the server user can set this alias")
  else db_set_alias alias room_id user_id.

Definition user_can_remove_alias (alias user_id : bytes) : M Db bool :=
  o ← resolve_local_alias alias;
  match o with
  | None => fail (BadRequest NotFound "Alias not found.")
  | Some room_id =>
      creator ← who_created_alias alias;
      if bool_decide (creator = Some user_id) then mret true else
      admin ← gets (user_is_admin user_id);
      if (admin : bool) then mret true else
      if bool_decide (server_user = user_id) then mret true else
      gets (can_send_canonical_alias room_id user_id)
  end.

Definition remove_alias (alias user_id : bytes) : M Db unit :=
  can ← user_can_remove_alias alias user_id;
  if (can : bool) then db_remove_alias alias
  else fail (BadRequest Forbidden "User is not permitted to remove this alias.").
End aliases.

(** * Public rooms and room metadata *)

Section directory.
Context {RU : Ruma}.

Definition set_public (room_id : bytes) : M Db unit := insert publicroomids room_id [].

Definition set_not_public (room_id : bytes) : M Db unit := remove publicroomids room_id.

Definition is_public_room (room_id : bytes) : M Db bool :=
  o ← get publicroomids room_id;
  mret (bool_decide (is_Some o)).

Definition public_rooms (d : Db) : list (res bytes) :=
  (λ e : entry, parse_id room_id_ok "Room ID in publicroomids is invalid unicode." "Room ID in publicroomids is invalid." e.1)
    <$> kv_iter (kv d publicroomids).

Definition room_exists (room_id : bytes) : M Db bool :=
  o ← get_shortroomid room_id;
  match o with
  | None => mret false
  | Some b =>
      let prefix := to_be_bytes b in
      gets (λ d, Ok (match head (kv_iter_from (kv d pduid_pdu) prefix false) with
                     | Some e => starts_with prefix e.1
                     | None => false
                     end))
  end.

Definition room_ids (d : Db) : list (res bytes) :=
  (λ e : entry, parse_id room_id_ok "Room ID in publicroomids is invalid unicode." "Room ID in roomid_shortroomid is invalid." e.1)
    <$> kv_iter (kv d roomid_shortroomid).

Definition is_disabled (room_id : bytes) : M Db bool :=
  o ← get disabledroomids room_id;
  mret (bool_decide (is_Some o)).

Definition disable_room (room_id : bytes) (disabled : bool) : M Db unit :=
  if disabled then insert disabledroomids room_id [] else remove disabledroomids room_id.

(** ** Outliers *)

Context {Obj : Type} `{JO : !Json Obj} `{JP : !Json PduEvent} `{JM : !Json (gmap bytes bytes)}.

Definition get_outlier_pdu_json (event_id : bytes) : M Db (option Obj) := get_outlier event_id.

Definition get_outlier_pdu (event_id : bytes) : M Db (option PduEvent) := get_outlier event_id.

Definition add_pdu_outlier (event_id : bytes) (pdu : Obj) : M Db unit :=
  insert eventid_outlierpdu event_id (to_vec pdu).

(** ** Threads *)

(** One thread root of the feed. *)
Definition thread_entry (user_id : bytes) (e : entry) : M Db (Z * PduEvent) :=
  let pduid := e.1 in
  assert (bool_decide (8 ≤ length pduid)%nat);;
  count ← lift (ok_or (u64_from_bytes (drop 8 pduid)) (BadDatabase "Invalid pduid in threadid_userids."));
  o ← get_pdu_from_id pduid;
  pdu ← lift (ok_or o (BadDatabase "Invalid pduid reference in threadid_userids"));
  pdu ← lift (if bool_decide (pdu_sender pdu ≠ user_id) then remove_transaction_id pdu else Ok pdu);
  mret (count, pdu).

Definition threads_until (user_id room_id : bytes) (until : Z) : M Db (list (res (Z * PduEvent))) :=
  o ← get_shortroomid room_id;
  b ← lift (expect o);
  let prefix := to_be_bytes b in
  gets (λ d, Ok ((λ e, (thread_entry user_id e d).1) <$>
    take_while (λ e, starts_with prefix e.1)
      (kv_iter_from (kv d threadid_userids) (prefix ++ to_be_bytes (w64 (until - 1))) true))).

Definition update_participants (root_id : bytes) (participants : list bytes) : M Db unit :=
  insert threadid_userids root_id (join_ff participants).

Definition get_participants (root_id : bytes) : M Db (option (list bytes)) :=
  o ← get threadid_userids root_id;
  mret ((λ users, oks (parse_id user_id_ok "Invalid UserId bytes in threadid_userids."
                         "Invalid UserId in threadid_userids." <$> split_ff users)) <$> o).

(** ** Relations and references *)

Definition add_relation (from to : Z) : M Db unit :=
  insert tofrom_relation (to_be_bytes to ++ to_be_bytes from) [].

Definition relation_entry (user_id : bytes) (shortroomid : Z) (e : entry) : M Db (PduCount * PduEvent) :=
  let tofrom := e.1 in
  assert (bool_decide (8 ≤ length tofrom)%nat);;
  from ← lift (ok_or (u64_from_bytes (drop 8 tofrom)) (BadDatabase "Invalid count in tofrom_relation."));
  o ← get_pdu_from_id (to_be_bytes shortroomid ++ to_be_bytes from);
  pdu ← lift (ok_or o (BadDatabase "Pdu in tofrom_relation is invalid."));
  pdu ← lift (if bool_decide (pdu_sender pdu ≠ user_id) then remove_transaction_id pdu else Ok pdu);
  mret (Normal from, pdu).

Definition relations_until (user_id : bytes) (shortroomid target : Z) (until : PduCount) :
    M Db (list (res (PduCount * PduEvent))) :=
  let prefix := to_be_bytes target in
  let current := match until with
    | Normal x => prefix ++ to_be_bytes (w64 (x - 1))
    | Backfilled x => prefix ++ to_be_bytes 0 ++ to_be_bytes (w64 (u64_max - x - 1))
    end in
  gets (λ d, Ok ((λ e, (relation_entry user_id shortroomid e d).1) <$>
    take_while (λ e, starts_with prefix e.1) (kv_iter_from (kv d tofrom_relation) current true))).

Definition mark_as_referenced (room_id : bytes) (event_ids : list bytes) : M Db unit :=
  for_each event_ids (λ prev, insert referencedevents (room_id ++ prev) []).

Definition is_event_referenced (room_id event_id : bytes) : M Db bool :=
  o ← get referencedevents (room_id ++ event_id);
  mret (bool_decide (is_Some o)).

Definition mark_event_soft_failed (event_id : bytes) : M Db unit := insert softfailedeventids event_id [].

Definition is_event_soft_failed (event_id : bytes) : M Db bool :=
  o ← get softfailedeventids event_id;
  mret (bool_decide (is_Some o)).

(** ** Per-user room data *)

Definition reset_notification_counts (user_id room_id : bytes) : M Db unit :=
  let roomuser_id := get_roomuser_id_bytes room_id user_id in
  let userroom_id := get_userroom_id_bytes user_id room_id in
  insert userroomid_notificationcount userroom_id (to_be_bytes 0);;
  insert userroomid_highlightcount userroom_id (to_be_bytes 0);;
  c ← next_count;
  insert roomuserid_lastnotificationread roomuser_id (to_be_bytes c).

Definition notification_count (user_id room_id : bytes) : M Db Z :=
  o ← get userroomid_notificationcount (get_userroom_id_bytes user_id room_id);
  lift match o with
       | Some bytes => ok_or (u64_from_bytes bytes) (BadDatabase "Invalid notification count in db.")
       | None => Ok 0
       end.

Definition highlight_count (user_id room_id : bytes) : M Db Z :=
  o ← get userroomid_highlightcount (get_userroom_id_bytes user_id room_id);
  lift match o with
       | Some bytes => ok_or (u64_from_bytes bytes) (BadDatabase "Invalid highlight count in db.")
       | None => Ok 0
       end.

Definition last_notification_read (user_id room_id : bytes) : M Db Z :=
  o ← get roomuserid_lastnotificationread (room_id ++ ff :: user_id);
  o ← lift (map_transpose (λ bytes, ok_or (u64_from_bytes bytes)
        (BadDatabase "Count in roomuserid_lastprivatereadupdate is invalid.")) o);
  mret (default 0 o).

Definition associate_token_shortstatehash (room_id : bytes) (token shortstatehash : Z) : M Db unit :=
  o ← get_shortroomid room_id;
  shortroomid ← lift (expect o);
  insert roomsynctoken_shortstatehash (to_be_bytes shortroomid ++ to_be_bytes token) (to_be_bytes shortstatehash).

Definition get_token_shortstatehash (room_id : bytes) (token : Z) : M Db (option Z) :=
  o ← get_shortroomid room_id;
  shortroomid ← lift (expect o);
  o ← get roomsynctoken_shortstatehash (to_be_bytes shortroomid ++ to_be_bytes token);
  lift (map_transpose (λ bytes, ok_or (u64_from_bytes bytes)
    (BadDatabase "Invalid shortstatehash in roomsynctoken_shortstatehash")) o).

(** The room ids of a user, as the iterator of [get_shared_rooms] gives them. *)
Definition joined_room_bytes (user_id : bytes) (d : Db) : list bytes :=
  omap (λ e : entry, (splitn2 e.1).2) (kv_scan_prefix (kv d userroomid_joined) (user_id ++ [ff])).

Definition get_shared_rooms (users : list bytes) (d : Db) : res (list (res bytes)) :=
  match common_elements bytes_cmp (map (λ user_id, joined_room_bytes user_id d) users) with
  | Some common =>
      Ok (map (parse_id room_id_ok "Invalid RoomId bytes in userroomid_joined" "Invalid RoomId in userroomid_joined.") common)
  | None => Panic (* users is not empty *)
  end.
End directory.

(** * Lazily loaded members *)

Section lazy.

Definition lazy_prefix (user_id device_id room_id : bytes) : bytes :=
  user_id ++ ff :: device_id ++ ff :: room_id ++ [ff].

Definition lazy_load_was_sent_before (user_id device_id room_id ll_user : bytes) : M Db bool :=
  o ← get lazyloadedids (lazy_prefix user_id device_id room_id ++ ll_user);
  mret (bool_decide (is_Some o)).

Definition db_lazy_load_confirm_delivery (user_id device_id room_id : bytes) (confirmed_user_ids : list bytes) : M Db unit :=
  for_each confirmed_user_ids (λ ll_id, insert lazyloadedids (lazy_prefix user_id device_id room_id ++ ll_id) []).

Definition lazy_load_reset (user_id device_id room_id : bytes) : M Db unit :=
  remove_prefix lazyloadedids (lazy_prefix user_id device_id room_id).

Context {HO : HashOrder}.

(** [lazy_load_waiting]: the members sent with a response, until the client
    proves by its next request that it got them. *)
Definition LazyWaiting := gmap (bytes * bytes * bytes * (bool * Z)) (gset bytes).

Definition count_key (c : PduCount) : bool * Z := match c with Normal x => (true, x) | Backfilled x => (false, x) end.

Definition lazy_load_mark_sent (user_id device_id room_id : bytes) (lazy_load : gset bytes) (count : PduCount) :
    M (LazyWaiting * Db) unit :=
  modify (λ '(w, d), (<[(user_id, device_id, room_id, count_key count) := lazy_load]> (w : gmap _ _), d)).

Definition lazy_load_confirm_delivery (user_id device_id room_id : bytes) (since : PduCount) :
    M (LazyWaiting * Db) unit := λ '(w, d),
  let key := (user_id, device_id, room_id, count_key since) in
  match (w : gmap _ _) !! key with
  | Some user_ids =>
      let '(r, d') := db_lazy_load_confirm_delivery user_id device_id room_id (hash_iter user_ids) d in
      (r, (delete key (w : gmap _ _), d'))
  | None => (Ok tt, (w, d))
  end.
End lazy.

(** * Pushers and transaction ids *)

Section pushers.
(** [Pusher]: its push key and its JSON; [post_json] is the JSON of a
    [PusherAction::Post], a pusher with the flag [append]. *)
Context {Pusher : Type} `{JPu : !Json Pusher} (pushkey_of : Pusher → bytes) (post_json : Pusher → bool → bytes).

Inductive PusherAction := PusherPost (pusher : Pusher) (append : bool) | PusherDelete (pushkey : bytes).

Definition set_pusher (sender : bytes) (pusher : PusherAction) : M Db unit :=
  match pusher with
  | PusherPost data append => insert senderkey_pusher (sender ++ ff :: pushkey_of data) (post_json data append)
  | PusherDelete pushkey => remove senderkey_pusher (sender ++ ff :: pushkey)
  end.

Definition get_pusher (sender pushkey : bytes) : M Db (option Pusher) :=
  o ← get senderkey_pusher (sender ++ ff :: pushkey);
  lift (map_transpose (λ push, ok_or (from_slice push) (BadDatabase "Invalid Pusher in db.")) o).

Definition get_pushers (sender : bytes) : M Db (list Pusher) :=
  gets (λ d, collect ((λ e : entry, ok_or (from_slice e.2) (BadDatabase "Invalid Pusher in db."))
    <$> kv_scan_prefix (kv d senderkey_pusher) (sender ++ [ff]))).

Definition get_pushkeys (sender : bytes) (d : Db) : list (res bytes) :=
  (λ e : entry,
    push_key ← ok_or (splitn2 e.1).2 (BadDatabase "Invalid senderkey_pusher in db");
    ok_or (string_from_bytes push_key) (BadDatabase "Invalid pusher bytes in senderkey_pusher"))
  <$> kv_scan_prefix (kv d senderkey_pusher) (sender ++ [ff]).

Definition txn_key (user_id : bytes) (device_id : option bytes) (txn_id : bytes) : bytes :=
  user_id ++ ff :: default [] device_id ++ ff :: txn_id.

Definition add_txnid (user_id : bytes) (device_id : option bytes) (txn_id data : bytes) : M Db unit :=
  insert userdevicetxnid_response (txn_key user_id device_id txn_id) data.

Definition existing_txnid (user_id : bytes) (device_id : option bytes) (txn_id : bytes) : M Db (option bytes) :=
  get userdevicetxnid_response (txn_key user_id device_id txn_id).
End pushers.

(** * Shared rooms *)

Section shared.
Context {RU : Ruma}.

Lemma joined_room_bytes_spec d m u :
  MemberRel d m → no_ff u →
  StronglySorted blt (joined_room_bytes u d) ∧ ∀ r, r ∈ joined_room_bytes u d ↔ m !! (u, r) = Some Joined.
Proof.
  intros HR Hu. unfold joined_room_bytes. destruct (MemberRel_separated d m Joined HR) as [Hsep _].
  pose proof (mr_user _ _ HR Joined) as Hidx. cbn [user_tree] in Hidx.
  set (l := kv_scan_prefix _ _).
  assert (∀ e, e ∈ l → ∃ r, e.1 = u ++ ff :: r ∧ m !! (u, r) = Some Joined) as Hl.
  { intros [k v] [Hp Hk]%elem_of_scan_prefix. destruct (proj1 (Hidx k)) as (a & b & -> & Hq); [by eauto|].
    destruct (Hsep _ _ Hq) as [Ha _]. apply starts_with_ff in Hp as <-; [|done..]. by exists b. }
  split.
  - assert (StronglySorted key_lt l) as Hs by (unfold l; rewrite scan_prefix_spec; apply StronglySorted_bfilter, entries_sorted).
    clearbody l. induction Hs as [|e l Hs IH Hall]; [constructor|].
    destruct (Hl e ltac:(by constructor)) as (r & Er & _). cbn [omap list_omap]. rewrite Er, splitn2_app by done. cbn [snd].
    constructor; [apply IH; intros e' He'; apply Hl; by constructor|]. apply Forall_forall. intros r' Hr'.
    apply list_elem_of_omap in Hr' as (e' & He' & Es). destruct (Hl e' ltac:(by constructor)) as (r2 & Er2 & _).
    rewrite Er2, splitn2_app in Es by done. injection Es as ->. rewrite Forall_forall in Hall. specialize (Hall e' He').
    unfold key_lt, blt in Hall. rewrite Er, Er2, bytes_cmp_app in Hall. exact Hall.
  - intros r. rewrite list_elem_of_omap. split.
    + intros (e & He & Es). destruct (Hl e He) as (r' & Er & Hm). rewrite Er, splitn2_app in Es by done. by injection Es as <-.
    + intros Hm. destruct (proj2 (Hidx (u ++ ff :: r))) as [v Hv]; [by exists u, r|].
      exists (u ++ ff :: r, v). split.
      * apply elem_of_scan_prefix. split; [by apply starts_with_ff|done].
      * cbn [fst]. by rewrite splitn2_app.
Qed.
End shared.

(** Shared rooms.  For a non-empty list of users, [get_shared_rooms] lists
    exactly the rooms all of them have joined, each once and in order: the
    merge of the sorted listings is their intersection. *)
Theorem shared_rooms_exact (RU : Ruma) d m users :
  MemberRel d m → users ≠ [] → Forall no_ff users →
  ∃ l, get_shared_rooms users d = Ok (map Ok l) ∧ StronglySorted blt l ∧
    ∀ r, r ∈ l ↔ ∀ u, u ∈ users → m !! (u, r) = Some Joined.
Proof.
  intros HR Hne Hff. destruct users as [|u users]; [done|]. apply Forall_cons in Hff as [Hu Hff].
  destruct (joined_room_bytes_spec d m u HR Hu) as [Hs Hu']. unfold get_shared_rooms. cbn [map common_elements].
  rewrite (filter_common_spec bytes_cmp); [|apply bytes_cmp_eq|apply bytes_cmp_antisym|intros a b c; apply (blt_trans a b c)|done|].
  2:{ apply Forall_fmap. eapply Forall_impl; [done|]. intros u' Hu1. by apply (joined_room_bytes_spec d m). }
  set (l := bfilter _ _).
  assert (∀ r, r ∈ l ↔ ∀ u', u' ∈ u :: users → m !! (u', r) = Some Joined) as Hl.
  { intros r. unfold l, in_all. rewrite elem_of_bfilter, Hu', forallb_forall. split.
    - intros [Hall Hr] u' [->|Hin]%elem_of_cons; [done|]. rewrite Forall_forall in Hff.
      apply (joined_room_bytes_spec d m u' HR (Hff u' Hin)). apply (bool_decide_unpack _), Is_true_true, Hall.
      apply in_map_iff. exists u'. split; [done|]. by apply list_elem_of_In.
    - intros Hall. split; [|apply Hall; by constructor]. intros it (u' & <- & Hin%list_elem_of_In)%in_map_iff.
      apply bool_decide_eq_true. rewrite Forall_forall in Hff. apply (joined_room_bytes_spec d m u' HR (Hff u' Hin)).
      apply Hall. by constructor. }
  exists l. split_and!; [|by apply StronglySorted_bfilter|done]. f_equal. apply map_ext_in. intros r Hr%list_elem_of_In.
  pose proof (proj1 (Hl r) Hr u ltac:(by constructor)) as Hr'. destruct (mr_valid _ _ HR _ _ _ Hr') as [_ []].
  by rewrite parse_id_ok.
Qed.

(** * Aliases *)

Section alias_lemmas.
Context {RU : Ruma}.

Lemma db_set_alias_spec d n alias room user :
  count_is d n → n < u64_max → ∃ d', db_set_alias alias room user d = (Ok tt, d') ∧ count_is d' (n + 1) ∧
    kv d' alias_roomid = <[alias_of alias := room]> (kv d alias_roomid) ∧
    kv d' alias_userid = <[alias_of alias := user]> (kv d alias_userid) ∧
    kv d' aliasid_alias = <[room ++ ff :: to_be_bytes (n + 1) := alias]> (kv d aliasid_alias).
Proof.
  intros Hc Hn. unfold db_set_alias, insert. run. rewrite (next_count_spec _ n); [|destruct Hc as [? Hc]; split; [done|]; by kv_simpl|done].
  eexists. split; [done|]. split_and!; [|by kv_simpl..]. split; [destruct Hc as [[] _]; unfold is_u64; lia|].
  left. kv_simpl. unfold set_count. kv_simpl. apply lookup_insert_eq.
Qed.

Lemma resolve_local_alias_spec d alias :
  (∀ r, kv d alias_roomid !! alias_of alias = Some r → utf8_valid r = true ∧ room_id_ok r = true) →
  resolve_local_alias alias d = (Ok (kv d alias_roomid !! alias_of alias), d).
Proof.
  intros H. unfold resolve_local_alias, get, kv_get. run. destruct (kv d alias_roomid !! alias_of alias) as [r|] eqn:E; [|done].
  destruct (H r eq_refl). cbn. by rewrite parse_id_ok.
Qed.
End alias_lemmas.

(** Aliases.  Setting an alias makes it resolve to its room, records its
    creator, lists it under the room and leaves every alias with another
    localpart as it was; removing it makes it resolve to nothing. *)
Theorem alias_lifecycle (RU : Ruma) d n alias room user :
  count_is d n → n < u64_max → utf8_valid room = true → room_id_ok room = true →
  utf8_valid user = true → user_id_ok user = true → utf8_valid alias = true → room_alias_id_ok alias = true →
  ∃ d' d'', db_set_alias alias room user d = (Ok tt, d') ∧
    resolve_local_alias alias d' = (Ok (Some room), d') ∧ who_created_alias alias d' = (Ok (Some user), d') ∧
    Ok alias ∈ local_aliases_for_room room d' ∧
    (∀ other, alias_of other ≠ alias_of alias →
      (resolve_local_alias other d').1 = (resolve_local_alias other d).1 ∧
      (who_created_alias other d').1 = (who_created_alias other d).1) ∧
    db_remove_alias alias d' = (Ok tt, d'') ∧ resolve_local_alias alias d'' = (Ok None, d'').
Proof.
  intros Hc Hn Hr Hrok Hu Huok Ha Haok. destruct (db_set_alias_spec d n alias room user Hc Hn) as (d' & E & Hc' & E1 & E2 & E3).
  exists d'. eexists. split; [done|]. split_and!.
  - rewrite resolve_local_alias_spec; rewrite E1, lookup_insert_eq; [done|]. by intros ? [= <-].
  - unfold who_created_alias, get, kv_get. run. rewrite E2, lookup_insert_eq. cbn. by rewrite parse_id_ok.
  - unfold local_aliases_for_room. apply list_elem_of_fmap. exists (room ++ ff :: to_be_bytes (n + 1), alias).
    cbn [snd]. rewrite parse_id_ok by done. split; [done|]. apply elem_of_scan_prefix. split.
    + by apply starts_with_ff; [apply utf8_no_ff..|].
    + rewrite E3. apply lookup_insert_eq.
  - intros other Hne. unfold resolve_local_alias, who_created_alias, get, kv_get. run.
    by rewrite E1, E2, !lookup_insert_ne.
  - unfold db_remove_alias, get, kv_get, remove_prefix, remove. run. rewrite E1, lookup_insert_eq. done.
  - unfold resolve_local_alias, get, kv_get. run. kv_simpl. unfold kv_remove. by rewrite lookup_delete_eq.
Qed.

(** Removing one alias of a room removes all aliases of the room from the
    room's listing, although the others still resolve to it. *)
Theorem remove_alias_forgets_siblings (RU : Ruma) d n a b room ua ub :
  count_is d n → n < u64_max - 1 → alias_of a ≠ alias_of b → utf8_valid room = true → room_id_ok room = true →
  ∃ d1 d2 d3, db_set_alias a room ua d = (Ok tt, d1) ∧ db_set_alias b room ub d1 = (Ok tt, d2) ∧
    db_remove_alias a d2 = (Ok tt, d3) ∧
    resolve_local_alias b d3 = (Ok (Some room), d3) ∧ local_aliases_for_room room d3 = [].
Proof.
  intros Hc Hn Hne Hr Hrok. destruct (db_set_alias_spec d n a room ua Hc ltac:(lia)) as (d1 & E1 & Hc1 & R1 & _ & _).
  destruct (db_set_alias_spec d1 (n + 1) b room ub Hc1 ltac:(lia)) as (d2 & E2 & _ & R2 & _ & _).
  exists d1, d2. eexists. split_and!; [done|done| | |].
  - unfold db_remove_alias, get, kv_get, remove_prefix, remove. run. rewrite R2, lookup_insert_ne, R1, lookup_insert_eq by done. done.
  - rewrite resolve_local_alias_spec; kv_simpl; unfold kv_remove; rewrite lookup_delete_ne, R2, lookup_insert_eq by done; [done|].
    by intros ? [= <-].
  - unfold local_aliases_for_room. kv_simpl. destruct (kv_scan_prefix _ _) as [|[k v] l] eqn:El; [done|].
    assert ((k, v) ∈ (k, v) :: l) as Hin by constructor. rewrite <-El in Hin.
    apply elem_of_scan_prefix in Hin as [Hp Hk]. rewrite lookup_remove_prefix, Hp in Hk. done.
Qed.

