(* ===== verification/Search.v ===== *)
(** * Search: the inverted index of message bodies

    [server/src/database/key_value/rooms/search.rs].  The index holds a key
    (short room id, word, event position) for every word of every message; a
    search intersects the position lists of its words.  The Unicode tables
    (which characters are alphanumeric, lower-casing) are parameters. *)
From S2P Require Import Prelude Bytes KvTree Pdu Database Short.

(** The keys of a tree after a batch. *)
Lemma lookup_insert_batch_Some (t : Tree) (it : list entry) k :
  is_Some (kv_insert_batch t it !! k) ↔ is_Some (t !! k) ∨ k ∈ it.*1.
Proof.
  revert t. induction it as [|[k' v] it IH]; intros t; cbn [kv_insert_batch fmap list_fmap fst]; [set_solver|].
  rewrite IH. unfold kv_insert. rewrite lookup_insert, elem_of_cons. case_decide; naive_solver.
Qed.

Section search.
Context (is_alphanumeric : bytes → bool) (to_lowercase : bytes → bytes).

(** The characters of a UTF-8 string, each as its bytes. *)
Fixpoint utf8_chars (bs : bytes) : list bytes :=
  match bs with
  | [] => []
  | b0 :: r0 =>
      if b0 <? 128 then [b0] :: utf8_chars r0
      else match r0 with
      | b1 :: r1 =>
          if b0 <? 224 then [b0; b1] :: utf8_chars r1
          else match r1 with
          | b2 :: r2 =>
              if b0 <? 240 then [b0; b1; b2] :: utf8_chars r2
              else match r2 with
              | b3 :: r3 => [b0; b1; b2; b3] :: utf8_chars r3
              | [] => [[b0; b1; b2]]
              end
          | [] => [[b0; b1]]
          end
      | [] => [[b0]]
      end
  end.

(** [split_terminator] at the characters that are not alphanumeric. *)
Fixpoint split_words (chars : list bytes) (word : bytes) : list bytes :=
  match chars with
  | [] => [word]
  | c :: chars' => if is_alphanumeric c then split_words chars' (word ++ c) else word :: split_words chars' []
  end.

Definition tokenize (body : bytes) : list bytes :=
  to_lowercase <$> filter (λ w : bytes, w ≠ [] ∧ (length w ≤ 50)%nat) (split_words (utf8_chars body) []).

Definition token_key (shortroomid : Z) (word pdu_id : bytes) : bytes := to_be_bytes shortroomid ++ word ++ ff :: pdu_id.

Definition index_pdu (shortroomid : Z) (pdu_id message_body : bytes) : M Db unit :=
  insert_batch tokenids ((λ word, (token_key shortroomid word pdu_id, [])) <$> tokenize message_body).

Definition deindex_pdu (shortroomid : Z) (pdu_id message_body : bytes) : M Db unit :=
  for_each ((λ word, token_key shortroomid word pdu_id) <$> tokenize message_body) (remove tokenids).

(** The events of a word, newest first. *)
Definition word_events (prefix : bytes) (d : Db) (word : bytes) : list bytes :=
  let prefix2 := prefix ++ word ++ [ff] in
  (λ e : entry, drop (length prefix2) e.1) <$>
    take_while (λ e, starts_with prefix2 e.1) (kv_iter_from (kv d tokenids) (prefix2 ++ to_be_bytes u64_max) true).

Definition search_pdus (room_id search_string : bytes) : M Db (option (list bytes * list bytes)) :=
  o ← get_shortroomid room_id;
  s ← lift (expect o);
  let words := tokenize search_string in
  gets (λ d, Ok ((λ common, (common, words)) <$>
    common_elements (λ a b, bytes_cmp b a) (map (word_events (to_be_bytes s) d) words))).

(** * The abstract index *)

Inductive IndexOp :=
  | IndexPdu (shortroomid : Z) (pdu_id body : bytes)
  | DeindexPdu (shortroomid : Z) (pdu_id body : bytes).

Definition index_exec (op : IndexOp) : M Db unit :=
  match op with
  | IndexPdu s p b => index_pdu s p b
  | DeindexPdu s p b => deindex_pdu s p b
  end.

(** Which words of which events are indexed. *)
Definition Index := Z → bytes → bytes → Prop.

Definition index_abs (I : Index) (op : IndexOp) : Index :=
  match op with
  | IndexPdu s p b => λ s' w p', I s' w p' ∨ (s' = s ∧ p' = p ∧ w ∈ tokenize b)
  | DeindexPdu s p b => λ s' w p', I s' w p' ∧ ~ (s' = s ∧ p' = p ∧ w ∈ tokenize b)
  end.

Definition index_after (ops : list IndexOp) : Index := fold_left index_abs ops (λ _ _ _, False).

(** An event position carries the short id of its room. *)
Definition position_ok (s : Z) (p : bytes) : Prop := 0 ≤ s < u64_max ∧ ∃ r, p = to_be_bytes s ++ r.

Definition index_op_ok (op : IndexOp) : Prop :=
  match op with IndexPdu s p _ | DeindexPdu s p _ => position_ok s p end.

Record IndexRep (I : Index) (d : Db) : Prop := mk_IndexRep {
  ix_tree : ∀ k, is_Some (kv d tokenids !! k) ↔ ∃ s w p, I s w p ∧ k = token_key s w p;
  ix_ok : ∀ s w p, I s w p → position_ok s p ∧ no_ff w;
}.

Hypothesis lowercase_utf8 : ∀ w, no_ff (to_lowercase w).

Lemma tokenize_no_ff body w : w ∈ tokenize body → no_ff w.
Proof using lowercase_utf8. intros (x & -> & _)%list_elem_of_fmap. apply lowercase_utf8. Qed.

Lemma position_u64 s p : position_ok s p → is_u64 s.
Proof. intros [H _]. unfold is_u64. lia. Qed.

Lemma token_key_inj s w p s' w' p' :
  is_u64 s → is_u64 s' → no_ff w → no_ff w' → token_key s w p = token_key s' w' p' → s = s' ∧ w = w' ∧ p = p'.
Proof.
  unfold token_key. intros Hs Hs' Hw Hw' E. apply app_inj_1 in E as [E1 E2]; [|by rewrite !length_to_be_bytes].
  apply to_be_bytes_inj in E1 as ->; [|done..]. by apply app_ff_inj in E2 as [-> ->].
Qed.

Lemma remove_keys_spec (keys : list bytes) d :
  ∃ d', for_each keys (remove tokenids) d = (Ok tt, d') ∧
    (∀ t, t ≠ tokenids → kv d' t = kv d t) ∧
    ∀ k, is_Some (kv d' tokenids !! k) ↔ is_Some (kv d tokenids !! k) ∧ k ∉ keys.
Proof.
  revert d. induction keys as [|k0 keys IH]; intros d; cbn [for_each].
  { exists d. set_solver. }
  unfold remove at 1. run. destruct (IH (upd tokenids (λ tr, kv_remove tr k0) d)) as (d' & E & Hf & Hk).
  exists d'. split_and!; [done|intros t Ht; rewrite Hf by done; by rewrite kv_upd_ne|].
  intros k. rewrite Hk. kv_simpl. unfold kv_remove. rewrite lookup_delete, not_elem_of_cons. case_decide; naive_solver.
Qed.

Lemma index_exec_spec I d op :
  IndexRep I d → index_op_ok op → ∃ d', index_exec op d = (Ok tt, d') ∧ IndexRep (index_abs I op) d' ∧
    ∀ t, t ≠ tokenids → kv d' t = kv d t.
Proof using lowercase_utf8.
  intros [H1 H2] Hop. destruct op as [s p b|s p b]; cbn [index_exec index_op_ok index_abs] in *.
  - eexists. split; [done|]. split; [|intros t Ht; by rewrite kv_upd_ne]. split.
    + intros k. kv_simpl. rewrite lookup_insert_batch_Some, H1, <-list_fmap_compose, list_elem_of_fmap. unfold compose. cbn. split.
      * intros [(s' & w & p' & HI & ->)|(w & -> & Hw)]; [exists s', w, p'; tauto|exists s, w, p; tauto].
      * intros (s' & w & p' & [HI|(-> & -> & Hw)] & ->); [left; eauto|right; eauto].
    + intros s' w p' [HI|(-> & -> & Hw)]; [by apply H2|]. split; [done|by eapply tokenize_no_ff].
  - unfold deindex_pdu. destruct (remove_keys_spec ((λ word, token_key s word p) <$> tokenize b) d) as (d' & E & Hf & Hk).
    exists d'. split_and!; [done| |done]. split.
    + intros k. rewrite Hk, H1, list_elem_of_fmap. split.
      * intros [(s' & w & p' & HI & ->) Hn]. exists s', w, p'. split; [|done]. split; [done|]. intros (-> & -> & Hw). apply Hn. eauto.
      * intros (s' & w & p' & [HI Hn] & ->). split; [eauto|]. intros (w' & Ek & Hw'). destruct (H2 _ _ _ HI) as [Hp Hw].
        apply token_key_inj in Ek as (-> & -> & ->); [by apply Hn|by eapply position_u64..|done|by eapply tokenize_no_ff].
    + intros s' w p' [HI _]. by apply H2.
Qed.

Lemma word_events_spec I d s w :
  IndexRep I d → 0 ≤ s < u64_max → no_ff w →
  StronglySorted (λ a b, bytes_cmp b a = Lt) (word_events (to_be_bytes s) d w) ∧
  ∀ p, p ∈ word_events (to_be_bytes s) d w ↔ I s w p.
Proof.
  intros [H1 H2] Hs Hw. unfold word_events. cbv zeta. set (pre := to_be_bytes s ++ w ++ [ff]).
  assert (is_u64 s) as Hsu by (unfold is_u64; lia).
  assert (∀ p, token_key s w p = pre ++ p) as Hkey by (intros p; unfold token_key, pre; by rewrite <-!app_assoc).
  rewrite iter_from_prefix_rev by apply starts_with_app. set (l := bfilter _ _).
  assert (∀ k v, (k, v) ∈ l → ∃ p, k = pre ++ p ∧ I s w p) as Hl.
  { intros k v [Hp Hk]%elem_of_bfilter. cbn [fst] in Hp. apply andb_true_iff in Hp as [Hp _]. apply elem_of_entries in Hk.
    destruct (proj1 (H1 k)) as (s' & w' & p & HI & ->); [by eauto|]. destruct (H2 _ _ _ HI) as [Hpos Hw'].
    apply starts_with_spec in Hp as [r Hr]. rewrite <-Hkey in Hr.
    apply token_key_inj in Hr as (-> & -> & ->); [|by eapply position_u64|done..]. exists r. by rewrite Hkey. }
  assert (∀ p, I s w p → ∃ v, (pre ++ p, v) ∈ l) as Hl'.
  { intros p HI. destruct (proj2 (H1 (token_key s w p))) as [v Hv]; [eauto|]. exists v. rewrite Hkey in Hv.
    apply elem_of_bfilter. split; [|by apply elem_of_entries]. cbn [fst]. apply andb_true_iff. split; [apply starts_with_app|].
    unfold bleb. rewrite bytes_cmp_app. destruct (H2 _ _ _ HI) as [[_ [r ->]] _].
    rewrite <-(app_nil_r (to_be_bytes u64_max)), bytes_cmp_to_be_bytes by (done || by unfold is_u64, u64_max).
    destruct (Z.compare_spec s u64_max); [lia|done|lia]. }
  assert (StronglySorted key_lt l) as Hsort by apply StronglySorted_bfilter, entries_sorted. split.
  - rewrite fmap_reverse. clear Hl'. clearbody l. induction Hsort as [|[k v] l Hsort IH Hall]; [constructor|].
    rewrite fmap_cons, reverse_cons. destruct (Hl k v ltac:(by constructor)) as (p & -> & _). cbn [fst]. rewrite drop_app_length.
    apply StronglySorted_app_2; [|apply IH; intros k0 v0 H0; apply (Hl k0 v0); by constructor|repeat constructor].
    intros x y Hx ->%list_elem_of_singleton. apply elem_of_reverse, list_elem_of_fmap in Hx as ([k' v'] & -> & He).
    destruct (Hl k' v' ltac:(by constructor)) as (p' & -> & _). cbn [fst]. rewrite drop_app_length.
    rewrite Forall_forall in Hall. specialize (Hall _ He). unfold key_lt, blt in Hall. cbn [fst] in Hall.
    by rewrite bytes_cmp_app in Hall.
  - intros p. rewrite fmap_reverse, elem_of_reverse, list_elem_of_fmap. split.
    + intros ([k v] & -> & He). destruct (Hl k v He) as (p & -> & HI). cbn [fst]. by rewrite drop_app_length.
    + intros HI. destruct (Hl' p HI) as [v Hv]. exists (pre ++ p, v). cbn [fst]. rewrite drop_app_length.
      by split.
Qed.

(** ** Searching *)

Lemma search_pdus_spec I d room s query :
  IndexRep I d → get_shortroomid room d = (Ok (Some s), d) → 0 ≤ s < u64_max →
  (tokenize query = [] ∧ search_pdus room query d = (Ok None, d)) ∨
  ∃ l, search_pdus room query d = (Ok (Some (l, tokenize query)), d) ∧
    StronglySorted (λ a b, bytes_cmp b a = Lt) l ∧ ∀ p, p ∈ l ↔ ∀ w, w ∈ tokenize query → I s w p.
Proof using lowercase_utf8.
  intros HI Hroom Hs. unfold search_pdus. rewrite (bind_ok _ _ _ _ _ Hroom), (bind_ok _ _ d s d) by done. cbv zeta.
  pose proof (tokenize_no_ff query) as Hff. destruct (tokenize query) as [|w words]; [by left|]. right. run.
  cbn [map common_elements fmap option_fmap option_map].
  destruct (word_events_spec I d s w HI Hs (Hff w ltac:(by constructor))) as [Hsort Hw].
  rewrite (filter_common_spec (λ a b, bytes_cmp b a)).
  - eexists. split; [done|]. split; [by apply StronglySorted_bfilter|]. intros p.
    unfold in_all. rewrite elem_of_bfilter, Hw, forallb_forall. split.
    + intros [Hall Hp] w' [->|Hin]%elem_of_cons; [done|].
      apply (word_events_spec I d s w' HI Hs (Hff w' ltac:(by constructor))). apply (bool_decide_unpack _), Is_true_true, Hall.
      apply in_map_iff. exists w'. split; [done|]. by apply list_elem_of_In.
    + intros Hall. split; [|apply Hall; by constructor]. intros it (w' & <- & Hin%list_elem_of_In)%in_map_iff.
      apply bool_decide_eq_true. apply (word_events_spec I d s w' HI Hs (Hff w' ltac:(by constructor))). apply Hall. by constructor.
  - intros a b. rewrite bytes_cmp_eq. naive_solver.
  - intros a b. apply bytes_cmp_antisym.
  - intros a b c Hab Hbc. by apply (blt_trans c b a).
  - done.
  - apply Forall_fmap, Forall_forall. intros w' Hw'. apply (word_events_spec I d s w' HI Hs). apply Hff. by constructor.
Qed.
End search.

(** Search is exact.  After any sequence of indexing and de-indexing
    messages, a search of a room returns exactly the events of the room all of
    whose query words are indexed and not removed since, newest first and
    each once; a query without words returns nothing. *)
Theorem search_exact is_alphanumeric to_lowercase (ops : list IndexOp) d room s query :
  (∀ w, no_ff (to_lowercase w)) → kv d tokenids = ∅ → Forall index_op_ok ops →
  kv d roomid_shortroomid !! room = Some (to_be_bytes s) → 0 ≤ s < u64_max →
  ∃ d', for_each ops (index_exec is_alphanumeric to_lowercase) d = (Ok tt, d') ∧
    let words := tokenize is_alphanumeric to_lowercase query in
    (words = [] ∧ search_pdus is_alphanumeric to_lowercase room query d' = (Ok None, d') ∨
     ∃ l, search_pdus is_alphanumeric to_lowercase room query d' = (Ok (Some (l, words)), d') ∧
       StronglySorted (λ a b, bytes_cmp b a = Lt) l ∧
       ∀ p, p ∈ l ↔ ∀ w, w ∈ words → index_after is_alphanumeric to_lowercase ops s w p).
Proof.
  intros Hlow Hempty Hops Hroom Hs.
  assert (∀ I d, IndexRep I d → ∃ d', for_each ops (index_exec is_alphanumeric to_lowercase) d = (Ok tt, d') ∧
    IndexRep (fold_left (index_abs is_alphanumeric to_lowercase) ops I) d' ∧ ∀ t, t ≠ tokenids → kv d' t = kv d t) as H.
  { clear Hempty Hroom. induction Hops as [|op ops Hop _ IH]; intros I d1 HI; [by exists d1|].
    destruct (index_exec_spec is_alphanumeric to_lowercase Hlow I d1 op HI Hop) as (d2 & E2 & HI2 & Hf2).
    destruct (IH _ d2 HI2) as (d3 & E3 & HI3 & Hf3). exists d3. cbn [for_each]. rewrite (bind_ok _ _ _ _ _ E2).
    split_and!; [done|done|]. intros t Ht. by rewrite Hf3, Hf2. }
  destruct (H (λ _ _ _, False) d) as (d' & E & HI & Hf).
  { split; [|done]. intros k. rewrite Hempty, lookup_empty. split; [by intros []|naive_solver]. }
  exists d'. split; [done|]. cbv zeta. apply (search_pdus_spec is_alphanumeric to_lowercase Hlow); [done| |done].
  unfold get_shortroomid, get, kv_get. run. rewrite Hf, Hroom by done. cbn [map_transpose].
  rewrite u64_from_to_be_bytes by (unfold is_u64; lia). done.
Qed.

(** Sample instance: ASCII letters. *)
Definition ascii_letter (c : bytes) : bool := match c with [b] => in_range 97 122 b | _ => false end.

Definition search_sample : Db := upd roomid_shortroomid (λ _, {[lit "!r" := to_be_bytes 3]}) empty_db.

Lemma search_exact_witness :
  let ops := [IndexPdu 3 (to_be_bytes 3 ++ to_be_bytes 7) (lit "hello big world");
              IndexPdu 3 (to_be_bytes 3 ++ to_be_bytes 8) (lit "hello")] in
  let low := λ w : bytes, bfilter (λ b, negb (b =? ff)) w in
  ∃ d', for_each ops (index_exec ascii_letter low) search_sample = (Ok tt, d') ∧
    let words := tokenize ascii_letter low (lit "world hello") in
    (words = [] ∧ search_pdus ascii_letter low (lit "!r") (lit "world hello") d' = (Ok None, d') ∨
     ∃ l, search_pdus ascii_letter low (lit "!r") (lit "world hello") d' = (Ok (Some (l, words)), d') ∧
       StronglySorted (λ a b, bytes_cmp b a = Lt) l ∧
       ∀ p, p ∈ l ↔ ∀ w, w ∈ words → index_after ascii_letter low ops 3 w p).
Proof.
  cbv zeta. apply (search_exact ascii_letter).
  - intros w. apply Forall_forall. intros b [Hb _]%elem_of_bfilter. by apply negb_true_iff, Z.eqb_neq in Hb.
  - done.
  - repeat apply Forall_cons_2; try apply Forall_nil_2; (split; [done|by eexists]).
  - unfold search_sample. kv_simpl. apply lookup_singleton_eq.
  - done.
Defined.
