(* ===== verification/KeyBackups.v ===== *)
(** * KeyBackups: encrypted room keys stored for a user

    [server/src/database/key_value/key_backups.rs].  A backup version of a user
    has an algorithm, an etag and, per room and session, an encrypted key; all
    are stored under keys made of ids separated by 0xff. *)
From S2P Require Import Prelude Bytes KvTree Pdu Database.

Section key_backups.
Context {RU : Ruma}.
(** [Raw<BackupAlgorithm>] and [Raw<KeyBackupData>]: texts that parse. *)
Context {Algorithm KeyData : Type} `{JA : !Json Algorithm} `{JK : !Json KeyData}.

Definition backup_id (user_id version : bytes) : bytes := user_id ++ ff :: version.

Definition create_backup (user_id : bytes) (backup_metadata : Algorithm) : M Db bytes :=
  c ← next_count;
  let version := to_string c in
  let key := backup_id user_id version in
  insert backupid_algorithm key (to_vec backup_metadata);;
  etag ← next_count;
  insert backupid_etag key (to_be_bytes etag);;
  mret version.

Definition delete_backup (user_id version : bytes) : M Db unit :=
  let key := backup_id user_id version in
  remove backupid_algorithm key;;
  remove backupid_etag key;;
  remove_prefix backupkeyid_backup (key ++ [ff]).

Definition update_backup (user_id version : bytes) (backup_metadata : Algorithm) : M Db bytes :=
  let key := backup_id user_id version in
  o ← get backupid_algorithm key;
  if bool_decide (o = None) then fail (BadRequest NotFound "Tried to update nonexistent backup.") else
  insert backupid_algorithm key (to_vec backup_metadata);;
  etag ← next_count;
  insert backupid_etag key (to_be_bytes etag);;
  mret version.

(** The last entry of a user in the order of the keys. *)
Definition latest_entry (user_id : bytes) (d : Db) : option entry :=
  let prefix := user_id ++ [ff] in
  head (take_while (λ e, starts_with prefix e.1)
    (kv_iter_from (kv d backupid_algorithm) (prefix ++ to_be_bytes u64_max) true)).

Definition get_latest_backup_version (user_id : bytes) : M Db (option bytes) :=
  gets (λ d, map_transpose (λ e : entry,
    ok_or (string_from_bytes (rsplit_first e.1)) (BadDatabase "backupid_algorithm key is invalid.")) (latest_entry user_id d)).

Definition get_latest_backup (user_id : bytes) : M Db (option (bytes * Algorithm)) :=
  gets (λ d, map_transpose (λ e : entry,
    version ← ok_or (string_from_bytes (rsplit_first e.1)) (BadDatabase "backupid_algorithm key is invalid.");
    algorithm ← ok_or (from_slice e.2) (BadDatabase "Algorithm in backupid_algorithm is invalid.");
    Ok (version, algorithm)) (latest_entry user_id d)).

Definition get_backup (user_id version : bytes) : M Db (option Algorithm) :=
  o ← get backupid_algorithm (backup_id user_id version);
  lift (map_transpose (λ bytes, ok_or (from_slice bytes) (BadDatabase "Algorithm in backupid_algorithm is invalid.")) o).

Definition session_key (user_id version room_id session_id : bytes) : bytes :=
  backup_id user_id version ++ ff :: room_id ++ ff :: session_id.

Definition add_key (user_id version room_id session_id : bytes) (key_data : KeyData) : M Db unit :=
  let key := backup_id user_id version in
  o ← get backupid_algorithm key;
  if bool_decide (o = None) then fail (BadRequest NotFound "Tried to update nonexistent backup.") else
  etag ← next_count;
  insert backupid_etag key (to_be_bytes etag);;
  insert backupkeyid_backup (session_key user_id version room_id session_id) (to_vec key_data).

Definition count_keys (user_id version : bytes) : M Db Z :=
  gets (λ d, Ok (Z.of_nat (length (kv_scan_prefix (kv d backupkeyid_backup) (backup_id user_id version))))).

Definition get_etag (user_id version : bytes) : M Db bytes :=
  o ← get backupid_etag (backup_id user_id version);
  bytes ← lift (ok_or o (BadDatabase "Backup has no etag."));
  n ← lift (ok_or (u64_from_bytes bytes) (BadDatabase "etag in backupid_etag invalid."));
  mret (to_string n).

(** [key.rsplit(0xff)]: the last part of a key and what is before it. *)
Fixpoint rsplit_rest (bs : bytes) : option bytes :=
  match bs with
  | [] => None
  | b :: bs' =>
      match rsplit_rest bs' with
      | Some r => Some (b :: r)
      | None => if b =? ff then Some [] else None
      end
  end.

(** One entry of the listing of a version. *)
Definition all_entry (e : entry) : res (bytes * bytes * KeyData) :=
  session_id ← ok_or (string_from_bytes (rsplit_first e.1)) (BadDatabase "backupkeyid_backup session_id is invalid.");
  rest ← ok_or (rsplit_rest e.1) (BadDatabase "backupkeyid_backup key is invalid.");
  room_id ← parse_id room_id_ok "backupkeyid_backup room_id is invalid." "backupkeyid_backup room_id is invalid room id."
              (rsplit_first rest);
  key_data ← ok_or (from_slice e.2) (BadDatabase "KeyBackupData in backupkeyid_backup is invalid.");
  Ok (room_id, session_id, key_data).

(** [BTreeMap] of the rooms with the map of their sessions. *)
Definition get_all (user_id version : bytes) : M Db (gmap bytes (gmap bytes KeyData)) :=
  gets (λ d,
    l ← collect (all_entry <$> kv_scan_prefix (kv d backupkeyid_backup) (backup_id user_id version ++ [ff]));
    Ok (fold_left (λ rooms '(room_id, session_id, key_data),
          <[room_id := <[session_id := key_data]> (default ∅ (rooms !! room_id))]> rooms) l ∅)).

Definition room_entry (e : entry) : res (bytes * KeyData) :=
  session_id ← ok_or (string_from_bytes (rsplit_first e.1)) (BadDatabase "backupkeyid_backup session_id is invalid.");
  key_data ← ok_or (from_slice e.2) (BadDatabase "KeyBackupData in backupkeyid_backup is invalid.");
  Ok (session_id, key_data).

Definition get_room (user_id version room_id : bytes) : M Db (gmap bytes KeyData) :=
  gets (λ d, Ok (fold_left (λ m '(session_id, key_data), <[session_id := key_data]> m)
    (oks (room_entry <$> kv_scan_prefix (kv d backupkeyid_backup) (backup_id user_id version ++ ff :: room_id ++ [ff]))) ∅)).

Definition get_session (user_id version room_id session_id : bytes) : M Db (option KeyData) :=
  o ← get backupkeyid_backup (session_key user_id version room_id session_id);
  lift (map_transpose (λ value, ok_or (from_slice value) (BadDatabase "KeyBackupData in backupkeyid_backup is invalid.")) o).

Definition delete_all_keys (user_id version : bytes) : M Db unit :=
  remove_prefix backupkeyid_backup (backup_id user_id version ++ [ff]).

Definition delete_room_keys (user_id version room_id : bytes) : M Db unit :=
  remove_prefix backupkeyid_backup (backup_id user_id version ++ ff :: room_id ++ [ff]).

Definition delete_room_key (user_id version room_id session_id : bytes) : M Db unit :=
  remove_prefix backupkeyid_backup (session_key user_id version room_id session_id).

(** * Lemmas *)

Definition id_parts (u v r s : bytes) : Prop :=
  no_ff u ∧ no_ff v ∧ (utf8_valid r = true ∧ room_id_ok r = true) ∧ utf8_valid s = true.

Lemma session_key_inj u v r s u' v' r' s' :
  no_ff u → no_ff v → no_ff r → no_ff u' → no_ff v' → no_ff r' →
  session_key u v r s = session_key u' v' r' s' → u = u' ∧ v = v' ∧ r = r' ∧ s = s'.
Proof.
  unfold session_key, backup_id. intros ? ? ? ? ? ? E. rewrite <-!app_assoc in E. cbn [app] in E.
  apply app_ff_inj in E as [-> E]; [|done..]. apply app_ff_inj in E as [-> E]; [|done..].
  by apply app_ff_inj in E as [-> ->].
Qed.

Lemma rsplit_rest_no_ff b : no_ff b → rsplit_rest b = None.
Proof.
  induction 1 as [|x b Hx _ IH]; [done|]. cbn [rsplit_rest]. rewrite IH. by destruct (Z.eqb_spec x ff).
Qed.

Lemma rsplit_rest_app a b : no_ff b → rsplit_rest (a ++ ff :: b) = Some a.
Proof.
  intros Hb. induction a as [|x a IH]; cbn [app rsplit_rest]; [by rewrite rsplit_rest_no_ff|by rewrite IH].
Qed.

(** The keys stored for a version: every key of the tree names its parts. *)
Definition BackupInv (d : Db) : Prop :=
  ∀ k w, kv d backupkeyid_backup !! k = Some w →
    ∃ u v r s, id_parts u v r s ∧ k = session_key u v r s ∧ is_Some (from_slice w : option KeyData).

Lemma all_entry_spec u v r s w :
  id_parts u v r s → all_entry (session_key u v r s, w) =
    (x ← ok_or (from_slice w) (BadDatabase "KeyBackupData in backupkeyid_backup is invalid."); Ok (r, s, x)).
Proof.
  intros (Hu & Hv & [Hr Hrok] & Hs). pose proof (utf8_no_ff _ Hr). pose proof (utf8_no_ff _ Hs). unfold all_entry. cbn [fst snd].
  assert (session_key u v r s = (backup_id u v ++ ff :: r) ++ ff :: s) as -> by (unfold session_key; by rewrite <-app_assoc).
  rewrite rsplit_first_app, rsplit_rest_app by done. rewrite string_from_bytes_valid by done. cbn [ok_or mbind res_bind].
  rewrite rsplit_first_app by done. by rewrite parse_id_ok.
Qed.

Lemma version_prefix u v u' v' r s :
  no_ff u → no_ff v → no_ff u' → no_ff v' →
  starts_with (backup_id u v ++ [ff]) (session_key u' v' r s) = true ↔ u = u' ∧ v = v'.
Proof.
  intros ? ? ? ?. unfold session_key, backup_id. rewrite <-!app_assoc. cbn [app]. rewrite starts_with_spec. split.
  - intros [x E]. rewrite <-!app_assoc in E. cbn [app] in E. rewrite <-!app_assoc in E. cbn [app] in E.
    apply app_ff_inj in E as [-> E]; [|done..]. by apply app_ff_inj in E as [-> _].
  - intros [-> ->]. exists (r ++ ff :: s). rewrite <-!app_assoc. cbn [app]. by rewrite <-!app_assoc.
Qed.

Lemma room_prefix u v r u' v' r' s :
  no_ff u → no_ff v → no_ff r → no_ff u' → no_ff v' → no_ff r' →
  starts_with (backup_id u v ++ ff :: r ++ [ff]) (session_key u' v' r' s) = true ↔ u = u' ∧ v = v' ∧ r = r'.
Proof.
  intros ? ? ? ? ? ?. rewrite starts_with_spec. split.
  - intros [x E]. rewrite <-!app_assoc in E. cbn [app] in E. rewrite <-!app_assoc in E. cbn [app] in E.
    apply (session_key_inj u' v' r' s u v r x) in E as (-> & -> & -> & _); done.
  - intros (-> & -> & ->). exists s. unfold session_key. rewrite <-!app_assoc. cbn [app]. by rewrite <-!app_assoc.
Qed.

(** The key of a session, as stored. *)
Definition stored_key (d : Db) (u v r s : bytes) : option KeyData :=
  w ← kv d backupkeyid_backup !! session_key u v r s; from_slice w.

Lemma get_session_spec d u v r s :
  BackupInv d → get_session u v r s d = (Ok (stored_key d u v r s), d).
Proof.
  intros HI. unfold get_session, stored_key, get, kv_get. run.
  destruct (kv d backupkeyid_backup !! session_key u v r s) as [w|] eqn:E; [|done]. cbn.
  destruct (HI _ _ E) as (? & ? & ? & ? & _ & _ & [x Hx]). by rewrite Hx.
Qed.

(** The listing of a version agrees with the lookups. *)
Lemma get_all_spec d u v :
  BackupInv d → no_ff u → no_ff v → ∃ m, get_all u v d = (Ok m, d) ∧
    ∀ r s x, utf8_valid r = true → (m !! r ≫= λ ss, ss !! s) = Some x ↔ room_id_ok r = true ∧ utf8_valid s = true ∧ stored_key d u v r s = Some x.
Proof.
  intros HI Hu Hv. unfold get_all. run. set (l := kv_scan_prefix _ _).
  assert (∀ e, e ∈ l ↔ ∃ r s x, id_parts u v r s ∧ e.1 = session_key u v r s ∧
    kv d backupkeyid_backup !! e.1 = Some e.2 ∧ from_slice e.2 = Some x) as Hl.
  { intros [k w]. unfold l. rewrite elem_of_scan_prefix. cbn [fst snd]. split.
    - intros [Hp Hk]. destruct (HI _ _ Hk) as (u' & v' & r & s & Hid & -> & [x Hx]). destruct (Hid) as (Hu' & Hv' & _ & _).
      apply version_prefix in Hp as [-> ->]; [|done..]. by exists r, s, x.
    - intros (r & s & x & Hid & -> & Hk & Hx). split; [|done]. by apply version_prefix. }
  set (put := λ (rooms : gmap bytes (gmap bytes KeyData)) '(r, s, x), <[r := <[s := x]> (default ∅ (rooms !! r))]> rooms).
  assert (∃ xs, collect (all_entry <$> l) = Ok xs ∧ ∀ r s x, (r, s, x) ∈ xs ↔ ∃ e, e ∈ l ∧ all_entry e = Ok (r, s, x)) as (xs & Exs & Hxs).
  { assert (∀ e, e ∈ l → ∃ y, all_entry e = Ok y) as Hok.
    { intros [k w] (r & s & x & Hid & Ek & _ & Hx)%Hl. cbn [fst snd] in *. subst k. rewrite all_entry_spec, Hx by done. by eexists. }
    clearbody l. clear Hl. induction l as [|e l IH]; [exists []; split; [done|set_solver]|].
    destruct IH as (xs & Exs & Hxs); [intros e' He'; apply Hok; by constructor|].
    destruct (Hok e ltac:(by constructor)) as [y Ey]. exists (y :: xs). rewrite fmap_cons. cbn [collect]. rewrite Ey, Exs.
    split; [done|]. intros r s x. rewrite elem_of_cons, Hxs. split.
    - intros [<-|(e' & ? & ?)]; [exists e; split; [by constructor|done]|exists e'; split; [by constructor|done]].
    - intros (e' & [->|He']%elem_of_cons & E'); [left; congruence|right; eauto]. }
  rewrite Exs. eexists. split; [done|]. fold put.
  assert (∀ r s x, (r, s, x) ∈ xs ↔ (utf8_valid r = true ∧ room_id_ok r = true ∧ utf8_valid s = true) ∧ stored_key d u v r s = Some x) as Hstored.
  { intros r s x. rewrite Hxs. unfold stored_key. split.
    - intros ([k w] & (r' & s' & x' & Hid & Ek & Hk & Hx)%Hl & E). cbn [fst snd] in *. subst k. rewrite all_entry_spec, Hx in E by done.
      injection E as -> -> ->. rewrite Hk. destruct Hid as (_ & _ & [] & ?). by split_and!.
    - intros [(Hr & Hrok & Hs) E]. destruct (kv d backupkeyid_backup !! session_key u v r s) as [w|] eqn:Ek; [|done]. cbn in E.
      assert (id_parts u v r s) as Hid by by split_and!.
      exists (session_key u v r s, w). rewrite all_entry_spec, E by done. split; [|done]. apply Hl. by exists r, s, x. }
  assert (∀ l m, (∀ r s x y, (r, s, x) ∈ l → (r, s, y) ∈ l → x = y) → ∀ r s x,
    (fold_left put l m !! r ≫= λ ss, ss !! s) = Some x ↔ (r, s, x) ∈ l ∨ ((∀ y, (r, s, y) ∉ l) ∧ (m !! r ≫= λ ss, ss !! s) = Some x)) as Hfold.
  { clear. induction l as [|[[r0 s0] x0] l IH]; intros m Hfun r s x; cbn [fold_left]; [set_solver|].
    rewrite IH by (intros; eapply Hfun; by constructor).
    assert ((put m (r0, s0, x0) !! r ≫= λ ss, ss !! s) = if decide ((r, s) = (r0, s0)) then Some x0 else m !! r ≫= λ ss, ss !! s) as ->.
    { unfold put. rewrite lookup_insert. case_decide as Er; cbn.
      - subst r0. rewrite lookup_insert. case_decide as Es.
        + subst. by rewrite decide_True.
        + rewrite decide_False by congruence. destruct (m !! r); [done|]. cbn. by rewrite lookup_empty.
      - by rewrite decide_False by congruence. }
    case_decide as E.
    - injection E as -> ->. split.
      + intros [Hin|[Hn [= <-]]]; [left; by constructor|left; constructor].
      + intros [[[= <-]|Hin]%elem_of_cons|[Hn _]]; [|by left|exfalso; apply (Hn x0); constructor].
        destruct (decide ((r0, s0) ∈ l.*1)) as [Hin|Hn].
        * apply list_elem_of_fmap in Hin as ([[r1 s1] y] & [= -> ->] & Hin). left.
          assert (y = x) as -> by (eapply Hfun; [by constructor|constructor]). done.
        * right. split; [|done]. intros y Hy. apply Hn. apply list_elem_of_fmap. by exists (r0, s0, y).
    - rewrite elem_of_cons. setoid_rewrite not_elem_of_cons. split.
      + intros [Hin|[Hn E']]; [by left; right|]. right. split; [|done]. intros y. split; [congruence|apply Hn].
      + intros [[E'|Hin]|[Hn E']]; [congruence|by left|]. right. split; [|done]. intros y. apply Hn. }
  intros r s x Hr. rewrite Hfold.
  - rewrite Hstored, lookup_empty. split; [intros [[(_ & ? & ?) ?]|[_ [=]]]; done|]. intros (? & ? & ?). by left.
  - intros r' s' x' y' [_ E1]%Hstored [_ E2]%Hstored. congruence.
Qed.
End key_backups.

(** * Claims *)

Section claims.
Context {RU : Ruma} {Algorithm KeyData : Type} `{JA : !Json Algorithm} `{JK : !Json KeyData}.

(** Deleting a prefix that covers exactly the keys of [P]. *)
Lemma delete_keys_spec d p (P : bytes → bytes → bytes → bytes → Prop) `{HD : ∀ u v r s, Decision (P u v r s)} :
  BackupInv (KeyData := KeyData) d →
  (∀ u v r s, id_parts u v r s → starts_with p (session_key u v r s) = true ↔ P u v r s) →
  ∃ d', remove_prefix backupkeyid_backup p d = (Ok tt, d') ∧ BackupInv (KeyData := KeyData) d' ∧
    ∀ u v r s, id_parts u v r s →
      stored_key (KeyData := KeyData) d' u v r s = if decide (P u v r s) then None else stored_key d u v r s.
Proof.
  intros HI HP. eexists. split; [done|].
  assert (∀ k, kv (remove_prefix backupkeyid_backup p d).2 backupkeyid_backup !! k =
    if starts_with p k then None else kv d backupkeyid_backup !! k) as Hk by (intros k; apply lookup_remove_prefix_kv).
  split.
  - intros k w. specialize (Hk k). unfold remove_prefix, modify in Hk. cbn [snd] in Hk. rewrite Hk.
    destruct (starts_with p k); [done|]. apply HI.
  - intros u v r s Hid. unfold stored_key. specialize (Hk (session_key u v r s)). unfold remove_prefix, modify in Hk. cbn [snd] in Hk.
    rewrite Hk. specialize (HP u v r s Hid). destruct (starts_with p (session_key u v r s)), (decide (P u v r s)); naive_solver.
Qed.
End claims.

(** The keys of a backup.  In a consistent store, adding a key to an
    existing version makes it the key of its session and changes no other key,
    adding to a missing version fails and changes nothing; deleting a room,
    all keys or the whole version deletes exactly those keys; and the listing
    of a version always agrees with the lookups of single sessions. *)
Theorem key_backup_correct (RU : Ruma) (Algorithm KeyData : Type) (JA : Json Algorithm) (JK : Json KeyData)
    d n u v r s (x : KeyData) :
  BackupInv (KeyData := KeyData) d → count_is d n → n < u64_max → id_parts u v r s →
  (if decide (is_Some (kv d backupid_algorithm !! backup_id u v)) then
     ∃ d', add_key u v r s x d = (Ok tt, d') ∧ BackupInv (KeyData := KeyData) d' ∧
       get_session u v r s d' = (Ok (Some x), d') ∧
       ∀ u' v' r' s', id_parts u' v' r' s' → (u', v', r', s') ≠ (u, v, r, s) →
         stored_key (KeyData := KeyData) d' u' v' r' s' = stored_key d u' v' r' s'
   else add_key u v r s x d = (Err (BadRequest NotFound "Tried to update nonexistent backup."), d)) ∧
  (∃ d', delete_room_keys u v r d = (Ok tt, d') ∧ BackupInv (KeyData := KeyData) d' ∧
     ∀ u' v' r' s', id_parts u' v' r' s' → stored_key (KeyData := KeyData) d' u' v' r' s' =
       if decide ((u', v', r') = (u, v, r)) then None else stored_key d u' v' r' s') ∧
  (∃ d', delete_backup u v d = (Ok tt, d') ∧ BackupInv (KeyData := KeyData) d' ∧
     kv d' backupid_algorithm !! backup_id u v = None ∧
     ∀ u' v' r' s', id_parts u' v' r' s' → stored_key (KeyData := KeyData) d' u' v' r' s' =
       if decide ((u', v') = (u, v)) then None else stored_key d u' v' r' s') ∧
  (∃ m, get_all u v d = (Ok m, d) ∧
     ∀ r' s' x', utf8_valid r' = true → (m !! r' ≫= λ ss, ss !! s') = Some x' ↔
       room_id_ok r' = true ∧ utf8_valid s' = true ∧ stored_key d u v r' s' = Some x').
Proof.
  intros HI Hc Hn Hid. pose proof Hid as (Hu & Hv & [Hr Hrok] & Hs). pose proof (utf8_no_ff _ Hr) as Hrf. split_and!.
  - case_decide as Hex.
    + destruct Hex as [a Ha]. unfold add_key, get, kv_get. cbv zeta.
      rewrite (bind_gets (λ d, kv d backupid_algorithm !! backup_id u v)), Ha. rewrite bool_decide_eq_false_2 by done.
      rewrite (bind_ok _ _ _ _ _ (next_count_spec d n Hc Hn)). unfold insert. run. eexists. split; [done|].
      assert (∀ d1 : Db, kv d1 backupkeyid_backup = <[session_key u v r s := to_vec x]> (kv d backupkeyid_backup) →
        BackupInv (KeyData := KeyData) d1 ∧ get_session u v r s d1 = (Ok (Some x), d1) ∧
        ∀ u' v' r' s', id_parts u' v' r' s' → (u', v', r', s') ≠ (u, v, r, s) →
          stored_key (KeyData := KeyData) d1 u' v' r' s' = stored_key d u' v' r' s') as Hgoal; [|apply Hgoal; by kv_simpl].
      intros d1 E. assert (BackupInv (KeyData := KeyData) d1) as HI1.
      { intros k w. rewrite E, lookup_insert. case_decide as Ek; [|apply HI]. intros [= <-]. subst k.
        exists u, v, r, s. rewrite from_slice_to_vec. by split_and!. }
      split_and!; [done| |].
      * rewrite get_session_spec by done. unfold stored_key. rewrite E, lookup_insert_eq. cbn. by rewrite from_slice_to_vec.
      * intros u' v' r' s' (Hu' & Hv' & [Hr' _] & _) Hne. unfold stored_key. rewrite E, lookup_insert_ne; [done|].
        intros Ek. apply session_key_inj in Ek as (-> & -> & -> & ->); [done..|by apply utf8_no_ff].
    + unfold add_key, get, kv_get. cbv zeta. rewrite (bind_gets (λ d, kv d backupid_algorithm !! backup_id u v)).
      destruct (kv d backupid_algorithm !! backup_id u v); [by destruct Hex|]. by rewrite bool_decide_eq_true_2.
  - apply (delete_keys_spec d _ (λ u' v' r' _, (u', v', r') = (u, v, r))); [done|].
    intros u' v' r' s' (Hu' & Hv' & [Hr' _] & _). rewrite room_prefix by (done || by apply utf8_no_ff). naive_solver.
  - unfold delete_backup, remove. cbv zeta. rewrite !bind_modify. set (d1 := upd backupid_etag _ _).
    assert (kv d1 backupkeyid_backup = kv d backupkeyid_backup) as E1 by (unfold d1; by kv_simpl).
    assert (BackupInv (KeyData := KeyData) d1) as HI1 by (intros k w; rewrite E1; apply HI).
    destruct (delete_keys_spec d1 (backup_id u v ++ [ff]) (λ u' v' _ _, (u', v') = (u, v)) (HD := λ u' v' _ _, decide ((u', v') = (u, v))) HI1) as (d2 & E2 & HI2 & Hk2).
    { intros u' v' r' s' (Hu' & Hv' & _ & _). rewrite version_prefix by done. naive_solver. }
    exists d2. split_and!; [done|done| |].
    + injection E2 as <-. kv_simpl. unfold d1. kv_simpl. unfold kv_remove. apply lookup_delete_eq.
    + intros u' v' r' s' Hid'. rewrite Hk2 by done. unfold stored_key at 1. by rewrite E1.
  - by apply get_all_spec.
Qed.

(** A store with one version, for the witness. *)
Definition backup_sample : Db := upd backupid_algorithm (λ _, {[backup_id (lit "@a:b") (lit "1") := [1]]}) empty_db.

#[local] Existing Instance sample_ruma.
#[local] Instance backup_json : Json bytes := json_countable bytes.

(** The latest backup is the last one in the order of the digits, not of
    the versions: a user whose backups get the versions 9 and 11 keeps being
    told that 9 is the latest. *)
Theorem latest_backup_is_lexicographic (Algorithm : Type) (JA : Json Algorithm) d u (a1 a2 : Algorithm) :
  count_is d 8 → no_ff u → (∀ k, is_Some (kv d backupid_algorithm !! k) → starts_with (u ++ [ff]) k = false) →
  ∃ d1 d2, create_backup u a1 d = (Ok (lit "9"), d1) ∧ create_backup u a2 d1 = (Ok (lit "11"), d2) ∧
    get_latest_backup_version u d2 = (Ok (Some (lit "9")), d2).
Proof.
  intros Hc Hu Hnone.
  assert (∀ d n (a : Algorithm), count_is d n → n < u64_max - 1 → ∃ d', create_backup u a d = (Ok (to_string (n + 1)), d') ∧
    count_is d' (n + 2) ∧ kv d' backupid_algorithm = <[backup_id u (to_string (n + 1)) := to_vec a]> (kv d backupid_algorithm)) as Hcreate.
  { clear. intros d n a Hc Hn. unfold create_backup. rewrite (bind_ok _ _ _ _ _ (next_count_spec d n Hc ltac:(lia))).
    unfold insert. rewrite bind_modify. assert (is_u64 (n + 1)) as H1 by (destruct Hc as [[] _]; unfold is_u64; lia).
    set (d1 := upd backupid_algorithm _ _).
    assert (count_is d1 (n + 1)) as Hc1.
    { split; [done|]. left. unfold d1. kv_simpl. unfold set_count. kv_simpl. apply lookup_insert_eq. }
    rewrite (bind_ok _ _ _ _ _ (next_count_spec d1 (n + 1) Hc1 ltac:(lia))).
    eexists. split; [done|]. split; [|unfold d1; by kv_simpl]. replace (n + 2) with (n + 1 + 1) by lia.
    split; [unfold is_u64 in *; lia|]. left. kv_simpl. unfold set_count. kv_simpl. apply lookup_insert_eq. }
  destruct (Hcreate d 8 a1 Hc ltac:(done)) as (d1 & E1 & Hc1 & T1). destruct (Hcreate d1 10 a2 Hc1 ltac:(done)) as (d2 & E2 & _ & T2).
  exists d1, d2. split_and!; [done|done|]. unfold get_latest_backup_version, latest_entry. run. cbv zeta.
  rewrite iter_from_prefix_rev by apply starts_with_app. change (to_string (8 + 1)) with (lit "9") in *. change (to_string (10 + 1)) with (lit "11") in *.
  set (t := kv d2 backupid_algorithm) in *. set (k9 := backup_id u (lit "9")). set (k11 := backup_id u (lit "11")).
  assert (bfilter (λ e : entry, starts_with (u ++ [ff]) e.1 && bleb e.1 ((u ++ [ff]) ++ to_be_bytes u64_max)) (entries t) =
    [(k11, to_vec a2); (k9, to_vec a1)]) as ->.
  { apply (StronglySorted_strict_eq key_lt).
    - apply StronglySorted_bfilter, entries_sorted.
    - constructor; [repeat constructor|]. constructor; [|constructor]. unfold key_lt, blt, k9, k11, backup_id. cbn [fst].
      rewrite bytes_cmp_app. done.
    - intros [k w]. rewrite elem_of_bfilter, elem_of_entries. cbn [fst]. rewrite T2, T1, !lookup_insert_Some, !elem_of_cons. split.
      + intros [Hp [[<- <-]|[_ [[<- <-]|[_ Hk]]]]]; [by left|by right; left|]. rewrite Hnone in Hp by eauto. done.
      + assert (∀ x, bleb ((u ++ ff :: x)) ((u ++ [ff]) ++ to_be_bytes u64_max) = bleb (ff :: x) (ff :: to_be_bytes u64_max)) as Hb.
        { intros x. unfold bleb. rewrite <-app_assoc, bytes_cmp_app. done. }
        intros [[= -> ->]|[[= -> ->]|[]%elem_of_nil]]; (split; [apply andb_true_iff; split; [apply starts_with_ff; done|]; unfold k9, k11, backup_id; by rewrite Hb|]).
        * by left.
        * right. split; [|by left]. unfold k9, k11, backup_id. intros E. apply app_inv_head in E. done. }
  cbn. unfold k9, backup_id. rewrite rsplit_first_app by by apply utf8_no_ff. done.
Qed.

(** Deleting one session's key also deletes the keys of every session of
    the room whose id extends it. *)
Theorem delete_room_key_deletes_extensions (KeyData : Type) (JK : Json KeyData) d u v r s x :
  ∃ d', delete_room_key u v r s d = (Ok tt, d') ∧ stored_key (KeyData := KeyData) d' u v r (s ++ x) = None.
Proof.
  eexists. split; [done|]. unfold stored_key.
  pose proof (lookup_remove_prefix_kv backupkeyid_backup (session_key u v r s) d (session_key u v r (s ++ x))) as H.
  unfold remove_prefix, modify in H. cbn [snd] in H. rewrite H.
  assert (session_key u v r (s ++ x) = session_key u v r s ++ x) as ->.
  { unfold session_key. rewrite <-!app_assoc. cbn [app]. by rewrite <-!app_assoc. }
  by rewrite starts_with_app.
Qed.
