(* ===== verification/Sending.v ===== *)
(** * Sending: the queue of outgoing transactions

    [server/src/service/sending/mod.rs] and
    [server/src/database/key_value/sending.rs].  Events for another server, an
    appservice or a push gateway are written to a queue tree and announced to
    one handler task; the handler moves them to the tree of active requests,
    sends one transaction per destination at a time, and backs off after
    failures.  The network, base64, SHA-256 and the JSON of federation types
    are parameters. *)
From S2P Require Import Prelude Bytes JsonValue KvTree Pdu Database Short StateCompressor RoomState.
From S2P Require Import StateCache Timeline PduJson AccountData Devices UserKeys Edus RoomTables.

(** * Destinations and events *)

Inductive OutgoingKind :=
  | Appservice (id : bytes)
  | Push (user pushkey : bytes)
  | Normal (server : bytes).

Inductive SendingEventType :=
  | SPdu (pdu_id : bytes)
  | SEdu (json : bytes).

#[global] Instance OutgoingKind_eq_dec : EqDecision OutgoingKind.
Proof. solve_decision. Defined.

#[global] Instance SendingEventType_eq_dec : EqDecision SendingEventType.
Proof. solve_decision. Defined.

#[global] Program Instance OutgoingKind_countable : Countable OutgoingKind :=
  inj_countable' (λ k, match k with Appservice i => inl i | Push u p => inr (inl (u, p)) | Normal s => inr (inr s) end)
    (λ x, match x with inl i => Appservice i | inr (inl (u, p)) => Push u p | inr (inr s) => Normal s end) _.
Next Obligation. by intros []. Qed.

Definition get_prefix (self : OutgoingKind) : bytes :=
  match self with
  | Appservice server => 43 :: server
  | Push user pushkey => 36 :: user ++ ff :: pushkey
  | Normal server => server
  end ++ [ff].

(** The value stored for an event, and the event of an entry. *)
Definition value_of (e : SendingEventType) : bytes := match e with SEdu value => value | SPdu _ => [] end.

Definition event_of (event value : bytes) : SendingEventType :=
  if bool_decide (value = []) then SPdu event else SEdu value.

Section sending.
Context {RU : Ruma} {LR : LruCache} {HO : HashOrder}.

Definition parse_servercurrentevent (key value : bytes) : res (OutgoingKind * SendingEventType) :=
  if starts_with (lit "+") key then
    let '(server, rest) := splitn2 (tail key) in
    event ← ok_or rest (BadDatabase "Invalid bytes in servercurrentpdus.");
    server ← ok_or (string_from_bytes server) (BadDatabase "Invalid server bytes in server_currenttransaction");
    Ok (Appservice server, event_of event value)
  else if starts_with (lit "$") key then
    let '(user, rest) := splitn2 (tail key) in
    user_id ← parse_id user_id_ok "Invalid user string in servercurrentevent" "Invalid user id in servercurrentevent" user;
    rest ← ok_or rest (BadDatabase "Invalid bytes in servercurrentpdus.");
    let '(pushkey, rest) := splitn2 rest in
    pushkey_string ← ok_or (string_from_bytes pushkey) (BadDatabase "Invalid pushkey in servercurrentevent");
    event ← ok_or rest (BadDatabase "Invalid bytes in servercurrentpdus.");
    Ok (Push user_id pushkey_string, event_of event value)
  else
    let '(server, rest) := splitn2 key in
    event ← ok_or rest (BadDatabase "Invalid bytes in servercurrentpdus.");
    server ← parse_id server_name_ok "Invalid server bytes in server_currenttransaction"
               "Invalid server string in server_currenttransaction" server;
    Ok (Normal server, event_of event value).

(** * The trees *)

Definition active_requests (d : Db) : list (res (bytes * OutgoingKind * SendingEventType)) :=
  (λ e : entry, '(k, ev) ← parse_servercurrentevent e.1 e.2; Ok (e.1, k, ev)) <$> kv_iter (kv d servercurrentevent_data).

Definition active_requests_for (outgoing_kind : OutgoingKind) (d : Db) : list (res (bytes * SendingEventType)) :=
  (λ e : entry, '(_, ev) ← parse_servercurrentevent e.1 e.2; Ok (e.1, ev))
    <$> kv_scan_prefix (kv d servercurrentevent_data) (get_prefix outgoing_kind).

Definition delete_active_request (key : bytes) : M Db unit := remove servercurrentevent_data key.

Definition delete_all_active_requests_for (outgoing_kind : OutgoingKind) : M Db unit :=
  remove_prefix servercurrentevent_data (get_prefix outgoing_kind).

Definition delete_all_requests_for (outgoing_kind : OutgoingKind) : M Db unit :=
  remove_prefix servercurrentevent_data (get_prefix outgoing_kind);;
  remove_prefix servernameevent_data (get_prefix outgoing_kind).

(** One request: its key, with a fresh count for anything but a pdu. *)
Definition request_key (acc : list entry) (request : OutgoingKind * SendingEventType) : M Db (list entry) :=
  let '(outgoing_kind, event) := request in
  key ← match event with
        | SPdu value => mret (get_prefix outgoing_kind ++ value)
        | SEdu _ => c ← next_count; mret (get_prefix outgoing_kind ++ to_be_bytes c)
        end;
  mret (acc ++ [(key, value_of event)]).

Definition queue_requests (requests : list (OutgoingKind * SendingEventType)) : M Db (list bytes) :=
  batch ← foldM request_key [] requests;
  insert_batch servernameevent_data batch;;
  mret batch.*1.

Definition queued_requests (outgoing_kind : OutgoingKind) (d : Db) : list (res (SendingEventType * bytes)) :=
  (λ e : entry, '(_, ev) ← parse_servercurrentevent e.1 e.2; Ok (ev, e.1))
    <$> kv_scan_prefix (kv d servernameevent_data) (get_prefix outgoing_kind).

Definition mark_as_active (events : list (SendingEventType * bytes)) : M Db unit :=
  for_each events (λ '(e, key),
    insert servercurrentevent_data key (value_of e);;
    remove servernameevent_data key).

Definition set_latest_educount (server_name : bytes) (last_count : Z) : M Db unit :=
  insert servername_educount server_name (to_be_bytes last_count).

Definition get_latest_educount (server_name : bytes) : M Db Z :=
  o ← get servername_educount server_name;
  lift match o with
       | None => Ok 0
       | Some bytes => ok_or (u64_from_bytes bytes) (BadDatabase "Invalid u64 in servername_educount.")
       end.

(** * Ephemeral events for a server *)

(** [Receipt], the JSON of receipts as stored, and [Edu] as sent. *)
Context {ReceiptData : Type}.

Inductive Ephemeral :=
  | EphReceipt (content : list (bytes * gmap bytes (gmap bytes ReceiptData)))
  | EphOther.

Inductive Edu :=
  | EduReceipt (room user : bytes) (data : ReceiptData) (event_ids : list bytes)
  | EduDeviceListUpdate (user : bytes).

Context (parse_ephemeral : bytes → option Ephemeral) (edu_json : Edu → bytes).
Context {Obj : Type} `{JO : !Json Obj} (remove_key : bytes → Obj → Obj).
Context (server_name : bytes).

(** The receipts of one room; [true] when twenty events are collected. *)
Fixpoint room_receipts (room_id : bytes) (receipts : list (res (bytes * Z * bytes))) (events : list bytes)
    (max_edu_count : Z) : res (list bytes * Z * bool) :=
  match receipts with
  | [] => Ok (events, max_edu_count, false)
  | r :: receipts =>
      '(user_id, count, read_receipt) ← r;
      let max_edu_count := if max_edu_count <? count then count else max_edu_count in
      if bool_decide (server_name_of user_id ≠ server_name) then room_receipts room_id receipts events max_edu_count else
      event ← ok_or (parse_ephemeral read_receipt) (BadDatabase "Invalid edu event in read_receipts.");
      match event with
      | EphReceipt content =>
          '(event_id, receipt) ← expect (head content);
          of_type ← expect (receipt !! lit "m.read");
          data ← expect (of_type !! user_id);
          let events := events ++ [edu_json (EduReceipt room_id user_id data [event_id])] in
          if bool_decide (20 ≤ length events)%nat then Ok (events, max_edu_count, true)
          else room_receipts room_id receipts events max_edu_count
      | EphOther => room_receipts room_id receipts events max_edu_count
      end
  end.

(** The rooms shared with the server, until twenty events are collected. *)
Fixpoint rooms_edus (d : Db) (since : Z) (rooms : list (res bytes)) (events : list bytes) (max_edu_count : Z)
    (device_list_changes : gset bytes) : res (list bytes * Z * gset bytes) :=
  match rooms with
  | [] => Ok (events, max_edu_count, device_list_changes)
  | r :: rooms =>
      room_id ← r;
      let device_list_changes := device_list_changes ∪
        list_to_set (bfilter (λ user_id, bool_decide (server_name_of user_id = server_name))
          (oks (keys_changed room_id since None d))) in
      '(events, max_edu_count, full) ←
        room_receipts room_id (readreceipts_since remove_key room_id since d) events max_edu_count;
      if (full : bool) then Ok (events, max_edu_count, device_list_changes)
      else rooms_edus d since rooms events max_edu_count device_list_changes
  end.

Definition select_edus (server : bytes) : M Db (list bytes * Z) :=
  since ← get_latest_educount server;
  '(events, max_edu_count, device_list_changes) ← gets (λ d, rooms_edus d since (server_rooms server d) [] since ∅);
  mret (events ++ ((λ user_id, edu_json (EduDeviceListUpdate user_id)) <$> hash_iter device_list_changes), max_edu_count).

(** * Building the request of a transaction *)

Context `{JP : !Json PduEvent} `{JV : !Json Value} `{JR : !Json RedactionContent} `{JF : !Json (list (bytes * Value))}
  `{JM : !Json (gmap bytes bytes)}.
Context {Registration Pusher Ruleset : Type} `{JPu : !Json Pusher}.
Context (registration_of : bytes → option Registration).
(** The rules of a [PushRulesEvent], and the default rules of a user. *)
Context (rules_of_event : Value → option Ruleset) (server_default : bytes → Ruleset).
Context (sha256 url_safe_no_pad : bytes → bytes).

Inductive Request :=
  | AppserviceTxn (registration : Registration) (events : list Value) (txn_id : bytes)
  | PushNotice (user : bytes) (unread : Z) (pusher : Pusher) (rules : Ruleset) (pdu : PduEvent)
  | FederationTxn (server : bytes) (pdus : list (list (bytes * Value))) (edus : list Value) (txn_id : bytes).

(** What the other side answers. *)
Context (net : Request → res unit).

Definition payload_of (e : SendingEventType) : bytes := match e with SEdu b | SPdu b => b end.

Definition transaction_id (events : list SendingEventType) : bytes :=
  url_safe_no_pad (calculate_hash sha256 (payload_of <$> events)).

(** The events an appservice gets; it gets no EDUs. *)
Definition appservice_event (acc : list Value) (event : SendingEventType) : M Db (list Value) :=
  match event with
  | SPdu pdu_id =>
      o ← get_pdu_from_id pdu_id;
      pdu ← lift (ok_or o (BadDatabase "[Appservice] Event in servernameevent_data not found in db."));
      json ← lift (to_room_event pdu);
      mret (acc ++ [json])
  | SEdu _ => mret acc
  end.

(** The events a push gateway is told of. *)
Definition push_pdu (acc : list PduEvent) (event : SendingEventType) : M Db (list PduEvent) :=
  match event with
  | SPdu pdu_id =>
      o ← get_pdu_from_id pdu_id;
      pdu ← lift (ok_or o (BadDatabase "[Push] Event in servernamevent_data not found in db."));
      mret (acc ++ [pdu])
  | SEdu _ => mret acc
  end.

(** Redacted events are not notification targets. *)
Definition is_redacted (pdu : PduEvent) : bool :=
  match pdu_unsigned pdu with
  | Some unsigned =>
      match (from_slice unsigned : option Value) with
      | Some v => bool_decide (is_Some (value_get (lit "redacted_because") v))
      | None => false
      end
  | None => false
  end.

(** [js_int::UInt::MAX]. *)
Definition UINT_MAX : Z := 9007199254740991.

(** A push notice for one event; its failure is ignored. *)
Definition push_event (userid pushkey : bytes) (pdu : PduEvent) : M Db unit :=
  if is_redacted pdu then mret tt else
  o ← get_pusher userid pushkey;
  match o with
  | None => mret tt
  | Some pusher =>
      rules ← try_ok (get_data None userid (lit "m.push_rules"));
      let rules_for_user := default (server_default userid) (default None rules ≫= rules_of_event) in
      room ← lift (room_id pdu);
      n ← notification_count userid room;
      assert (n <=? UINT_MAX);;
      match net (PushNotice userid n pusher rules_for_user pdu) with Panic => lift Panic | _ => mret tt end
  end.

Definition federation_event (acc : list (list (bytes * Value)) * list Value) (event : SendingEventType) :
    M Db (list (list (bytes * Value)) * list Value) :=
  let '(pdu_jsons, edu_jsons) := acc in
  match event with
  | SPdu pdu_id =>
      o ← get_pdu_json_from_id pdu_id;
      json ← lift (ok_or o (BadDatabase "[Normal] Event in servernamevent_data not found in db."));
      mret (pdu_jsons ++ [convert_to_outgoing_federation_event json], edu_jsons)
  | SEdu edu =>
      mret (pdu_jsons, match (from_slice edu : option Value) with Some raw => edu_jsons ++ [raw] | None => edu_jsons end)
  end.

Definition handle_events (kind : OutgoingKind) (events : list SendingEventType) : M Db unit :=
  match kind with
  | Appservice id =>
      pdu_jsons ← foldM appservice_event [] events;
      registration ← lift (ok_or (registration_of id) (BadDatabase "[Appservice] Could not load registration from db."));
      lift (net (AppserviceTxn registration pdu_jsons (transaction_id events)))
  | Push userid pushkey =>
      pdus ← foldM push_pdu [] events;
      for_each pdus (push_event userid pushkey)
  | Normal server =>
      '(pdu_jsons, edu_jsons) ← foldM federation_event ([], []) events;
      lift (net (FederationTxn server pdu_jsons edu_jsons (transaction_id events)))
  end.

(** * The handler *)

(** [Failed] has the number of failures and the time of the last one (in
    nanoseconds). *)
Inductive TransactionStatus :=
  | Running
  | Failed (tries time : Z)
  | Retrying (tries : Z).

(** The running system: the database, the handler's map of statuses, the
    transactions in flight, the channel to the handler, and whether the
    handler's task is alive. *)
Record Sender := mkSender {
  s_db : Db;
  s_status : gmap OutgoingKind TransactionStatus;
  s_futures : list (OutgoingKind * list SendingEventType);
  s_channel : list (OutgoingKind * SendingEventType * bytes);
  s_alive : bool;
}.

Definition with_db {A} (m : M Db A) : M Sender A := λ s,
  let '(r, d) := m (s_db s) in (r, mkSender d (s_status s) (s_futures s) (s_channel s) (s_alive s)).

Definition set_status (m : gmap OutgoingKind TransactionStatus) (s : Sender) : Sender :=
  mkSender (s_db s) m (s_futures s) (s_channel s) (s_alive s).

Definition set_futures (f : list (OutgoingKind * list SendingEventType)) (s : Sender) : Sender :=
  mkSender (s_db s) (s_status s) f (s_channel s) (s_alive s).

Definition set_channel (c : list (OutgoingKind * SendingEventType * bytes)) (s : Sender) : Sender :=
  mkSender (s_db s) (s_status s) (s_futures s) c (s_alive s).

(** A panic ends the handler's task, and with it the transactions in flight. *)
Definition die (s : Sender) : Sender := mkSender (s_db s) ∅ [] (s_channel s) false.

(** [futures.push(Self::handle_events(kind, events))]. *)
Definition push_future (kind : OutgoingKind) (events : list SendingEventType) : M Sender unit :=
  modify (λ s, set_futures (s_futures s ++ [(kind, events)]) s).

(** The exponential backoff in nanoseconds: thirty seconds times the square of
    the failures, at most a day; [Duration] panics when it overflows. *)
Definition min_elapsed_duration (tries : Z) : res Z :=
  if u64_max <? 30 * tries * tries then Panic
  else Ok (Z.min (30 * tries * tries) 86400 * 1000000000).

(** What the entry of a destination says of a new event: whether a transaction
    may start, whether it is a retry, and the new status. *)
Definition check_status (now : Z) (status : option TransactionStatus) : res (bool * bool * TransactionStatus) :=
  match status with
  | None => Ok (true, false, Running)
  | Some Running => Ok (false, false, Running)
  | Some (Retrying n) => Ok (false, false, Retrying n)
  | Some (Failed tries time) =>
      min_elapsed ← min_elapsed_duration tries;
      if Z.max 0 (now - time) <? min_elapsed then Ok (false, false, Failed tries time)
      else Ok (true, true, Retrying tries)
  end.

Definition select_events (now : Z) (outgoing_kind : OutgoingKind) (new_events : list (SendingEventType * bytes)) :
    M Sender (option (list SendingEventType)) :=
  '(allow, retry, status) ← gets (λ s, check_status now (s_status s !! outgoing_kind));
  modify (λ s, set_status (<[outgoing_kind := status]> (s_status s)) s);;
  if negb (allow : bool) then mret None
  else if (retry : bool) then
    (* We retry the previous transaction *)
    gets (λ s, Ok (Some (oks (active_requests_for outgoing_kind (s_db s))).*2))
  else
    with_db (mark_as_active new_events);;
    let events := new_events.*1 in
    match outgoing_kind with
    | Normal server =>
        edus ← try_ok (with_db (select_edus server));
        match edus with
        | Some (select_edus, last_count) =>
            with_db (set_latest_educount server last_count);;
            mret (Some (events ++ (SEdu <$> select_edus)))
        | None => mret (Some events)
        end
    | _ => mret (Some events)
    end.

(** The branch for a finished transaction: [r] is its result. *)
Definition on_response (now : Z) (outgoing_kind : OutgoingKind) (r : res unit) : M Sender unit :=
  match r with
  | Ok _ =>
      with_db (delete_all_active_requests_for outgoing_kind);;
      (* Find events that have been added since starting the last request *)
      new_events ← gets (λ s, Ok (take 30 (oks (queued_requests outgoing_kind (s_db s)))));
      if bool_decide (new_events = []) then
        modify (λ s, set_status (delete outgoing_kind (s_status s)) s)
      else
        with_db (mark_as_active new_events);;
        push_future outgoing_kind new_events.*1
  | Err _ =>
      modify (λ s, set_status (alter (λ e,
        match e with
        | Running => Failed 1 now
        | Retrying n => Failed ((n + 1) mod 4294967296) now
        | Failed tries time => Failed tries time
        end) outgoing_kind (s_status s)) s)
  | Panic => lift Panic
  end.

(** The branch for a message of the channel. *)
Definition on_message (now : Z) (message : OutgoingKind * SendingEventType * bytes) : M Sender unit :=
  let '(outgoing_kind, event, key) := message in
  selected ← try_ok (select_events now outgoing_kind [(event, key)]);
  match selected with
  | Some (Some events) => push_future outgoing_kind events
  | _ => mret tt
  end.

(** Requests that could not be finished before a restart. *)
Definition initial_request (acc : gmap OutgoingKind (list SendingEventType))
    (request : bytes * OutgoingKind * SendingEventType) : M Db (gmap OutgoingKind (list SendingEventType)) :=
  let '(key, outgoing_kind, event) := request in
  let entry := default [] (acc !! outgoing_kind) in
  if bool_decide (30 < length entry)%nat then
    delete_active_request key;;
    mret (<[outgoing_kind := entry]> acc)
  else mret (<[outgoing_kind := entry ++ [event]]> acc).

(** [build] and the start of [handler]: everything in memory is new. *)
Definition start (d : Db) : res unit * Sender :=
  match foldM initial_request ∅ (oks (active_requests d)) d with
  | (Ok initial_transactions, d') =>
      (Ok tt, mkSender d' ((λ _, Running) <$> initial_transactions) (map_to_list initial_transactions) [] true)
  | (Err e, d') => (Err e, mkSender d' ∅ [] [] false)
  | (Panic, d') => (Panic, mkSender d' ∅ [] [] false)
  end.

(** * The calls of the other services *)

(** Queue the requests and tell the handler. *)
Definition send_requests (requests : list (OutgoingKind * SendingEventType)) : M Sender unit :=
  keys ← with_db (queue_requests requests);
  modify (λ s, set_channel (s_channel s ++ zip_with (λ '(k, e) key, (k, e, key)) requests keys) s).

Definition send_push_pdu (pdu_id user pushkey : bytes) : M Sender unit := send_requests [(Push user pushkey, SPdu pdu_id)].

Definition send_pdu (servers : list bytes) (pdu_id : bytes) : M Sender unit :=
  send_requests ((λ server, (Normal server, SPdu pdu_id)) <$> servers).

Definition send_reliable_edu (server serialized : bytes) : M Sender unit := send_requests [(Normal server, SEdu serialized)].

Definition send_pdu_appservice (appservice_id pdu_id : bytes) : M Sender unit := send_requests [(Appservice appservice_id, SPdu pdu_id)].

Definition cleanup_events (appservice_id : bytes) : M Sender unit := with_db (delete_all_requests_for (Appservice appservice_id)).
End sending.
