(* ===== verification/SendingInv.v ===== *)
(** * SendingInv: the outgoing queue delivers at least once

    Every way the parts of Sending can interleave: services queue events, the
    handler receives messages and responses, transactions succeed or fail, the
    handler dies and the server restarts. *)
From S2P Require Import Prelude Bytes JsonValue KvTree Pdu Database Short StateCache Timeline.
From S2P Require Import PduJson AccountData Devices UserKeys Edus RoomTables Sending.

(** The two trees of the queue. *)
Abbreviation queue d := (kv d servernameevent_data).
Abbreviation active d := (kv d servercurrentevent_data).

(** * Keys *)

Section keys.
Context {RU : Ruma}.

(** Destinations as their ids are in practice: text, and server names that do
    not look like appservices or pushers. *)
Definition kind_ok (k : OutgoingKind) : Prop :=
  match k with
  | Appservice id => utf8_valid id = true
  | Push user pushkey => utf8_valid user = true ∧ user_id_ok user = true ∧ utf8_valid pushkey = true
  | Normal server => utf8_valid server = true ∧ server_name_ok server = true ∧
      starts_with (lit "+") (server ++ [ff]) = false ∧ starts_with (lit "$") (server ++ [ff]) = false
  end.

Lemma starts_with_first b s p : starts_with [b] (s ++ ff :: p) = starts_with [b] (s ++ [ff]).
Proof. destruct s; cbn; by rewrite andb_true_r. Qed.

(** Reading a key back. *)
Lemma parse_key k p w : kind_ok k → parse_servercurrentevent (get_prefix k ++ p) w = Ok (k, event_of p w).
Proof.
  unfold parse_servercurrentevent. destruct k as [id|user pushkey|server]; cbn [kind_ok get_prefix app]; rewrite <-app_assoc; cbn [app].
  - intros Hid. cbn [lit]. change (starts_with (lit "+") (43 :: id ++ ff :: p)) with true. cbn [tail].
    rewrite splitn2_app by (by apply utf8_no_ff). cbn. by rewrite string_from_bytes_valid.
  - intros (Hu & Huok & Hp). rewrite <-app_assoc. cbn [app].
    change (starts_with (lit "+") (36 :: user ++ ff :: pushkey ++ ff :: p)) with false.
    change (starts_with (lit "$") (36 :: user ++ ff :: pushkey ++ ff :: p)) with true. cbn [tail].
    rewrite splitn2_app by (by apply utf8_no_ff). rewrite parse_id_ok by done. cbn.
    rewrite splitn2_app by (by apply utf8_no_ff). by rewrite string_from_bytes_valid.
  - intros (Hs & Hsok & H1 & H2). change (lit "+") with [43] in *. change (lit "$") with [36] in *.
    rewrite (starts_with_first 43), (starts_with_first 36), H1, H2. rewrite splitn2_app by (by apply utf8_no_ff). cbn. by rewrite parse_id_ok.
Qed.

Lemma event_of_inj p p' w : event_of p w = event_of p' w → w = [] → p = p'.
Proof. intros H ->. unfold event_of in H. by injection H. Qed.

Lemma get_prefix_inj k k' p p' : kind_ok k → kind_ok k' → get_prefix k ++ p = get_prefix k' ++ p' → k = k' ∧ p = p'.
Proof.
  intros Hk Hk' E. pose proof (parse_key k p [] Hk) as H1. rewrite E, parse_key in H1 by done. injection H1 as -> ->. done.
Qed.

Lemma starts_with_prefix k k' p : kind_ok k → kind_ok k' → starts_with (get_prefix k) (get_prefix k' ++ p) = bool_decide (k = k').
Proof.
  intros Hk Hk'. apply eq_true_iff_eq. rewrite starts_with_spec, bool_decide_eq_true. split.
  - intros [r E]. symmetry. by apply (get_prefix_inj k' k p r).
  - intros ->. by exists p.
Qed.

Lemma value_of_event_of p w : value_of (event_of p w) = w.
Proof. unfold event_of. by case_bool_decide. Qed.
End keys.

(** ** Scans *)

Lemma scan_prefix_ext t t' p :
  (∀ key, starts_with p key = true → t !! key = t' !! key) → kv_scan_prefix t p = kv_scan_prefix t' p.
Proof.
  intros H. apply (StronglySorted_strict_eq key_lt).
  - rewrite scan_prefix_spec. apply StronglySorted_bfilter, entries_sorted.
  - rewrite scan_prefix_spec. apply StronglySorted_bfilter, entries_sorted.
  - intros [k v]. rewrite !elem_of_scan_prefix. split; intros [Hp Hk]; (split; [done|]); [by rewrite <-H|by rewrite H].
Qed.

Lemma scan_prefix_length t p (keys : list bytes) :
  (∀ key v, starts_with p key = true → t !! key = Some v → key ∈ keys) → (length (kv_scan_prefix t p) ≤ length keys)%nat.
Proof.
  intros H. rewrite <-(length_fmap fst (kv_scan_prefix t p)). apply submseteq_length, NoDup_submseteq.
  - rewrite scan_prefix_spec. apply NoDup_fmap_2_strong; [|apply NoDup_bfilter, entries_NoDup].
    intros [k1 v1] [k2 v2] [_ H1]%elem_of_bfilter [_ H2]%elem_of_bfilter E. cbn in E. subst.
    apply elem_of_entries in H1, H2. congruence.
  - intros key ([k v] & -> & [Hp Hk]%elem_of_scan_prefix)%list_elem_of_fmap. by eapply H.
Qed.

(** ** Computations that only read *)

Definition reads {S A} (m : M S A) : Prop := ∀ s, (m s).2 = s.

Section reads.
Context {S : Type}.

Lemma reads_ret {A} (a : A) : reads (S := S) (mret a).
Proof. by intros s. Qed.

Lemma reads_lift {A} (r : res A) : reads (S := S) (lift r).
Proof. by intros s. Qed.

Lemma reads_gets {A} (f : S → res A) : reads (gets f).
Proof. by intros s. Qed.

Lemma reads_assert b : reads (S := S) (assert b).
Proof. by intros s. Qed.

Lemma reads_bind {A B} (m : M S A) (f : A → M S B) : reads m → (∀ a, reads (f a)) → reads (m ≫= f).
Proof.
  intros Hm Hf s. unfold mbind, M_bind. specialize (Hm s). destruct (m s) as [[a|e|] s']; cbn [snd] in *; subst; [apply Hf|done..].
Qed.

Lemma reads_try_ok {A} (m : M S A) : reads m → reads (try_ok m).
Proof. intros Hm s. unfold try_ok. specialize (Hm s). by destruct (m s) as [[]]. Qed.

Lemma reads_foldM {A B} (f : B → A → M S B) l : (∀ b x, reads (f b x)) → ∀ b, reads (foldM f b l).
Proof. intros Hf. induction l as [|x l IH]; intros b; cbn [foldM]; [apply reads_ret|]. by apply reads_bind. Qed.

Lemma reads_for_each {A} (f : A → M S unit) l : (∀ x, reads (f x)) → reads (for_each l f).
Proof. intros Hf. induction l as [|x l IH]; cbn [for_each]; [apply reads_ret|]. by apply reads_bind. Qed.
End reads.

Create HintDb reads discriminated.
#[export] Hint Resolve reads_ret reads_lift reads_gets reads_assert : reads.

(** Follow the structure of a computation. *)
Ltac reads := repeat first
  [ progress (intros; cbv beta)
  | apply reads_bind
  | apply reads_try_ok
  | apply reads_foldM
  | apply reads_for_each
  | solve [eauto with reads]
  | match goal with |- reads (match ?x with _ => _ end) => destruct x end
  | match goal with |- reads (if ?x then _ else _) => destruct x end
  | match goal with |- reads (let '_ := ?x in _) => destruct x end ].

(** * Traces *)

Section trace.
Context {RU : Ruma} {HO : HashOrder}.
Context {ReceiptData : Type} (parse_ephemeral : bytes → option (Ephemeral (ReceiptData := ReceiptData))) (edu_json : Edu (ReceiptData := ReceiptData) → bytes).
Context {Obj : Type} `{JO : !Json Obj} (remove_key : bytes → Obj → Obj) (server_name : bytes).
Context `{JP : !Json PduEvent} `{JV : !Json Value} `{JR : !Json RedactionContent} `{JF : !Json (list (bytes * Value))}.
Context {Registration Pusher Ruleset : Type} `{JPu : !Json Pusher} (registration_of : bytes → option Registration).
Context (rules_of_event : Value → option Ruleset) (server_default : bytes → Ruleset) (sha256 url_safe_no_pad : bytes → bytes).

Inductive SendOp :=
  | SendPdu (servers : list bytes) (pdu_id : bytes)
  | SendPush (pdu_id user pushkey : bytes)
  | SendReliableEdu (server serialized : bytes)
  | SendAppservice (id pdu_id : bytes)
  | Receive (now : Z)
  | Respond (i : nat) (net : Request (Registration := Registration) (Pusher := Pusher) (Ruleset := Ruleset) → res unit) (now : Z)
  | Restart.

(** What a step did: queued requests with their keys, or ended a transaction
    with success or not. *)
Inductive SendAnswer :=
  | Nothing
  | Queued (l : list (OutgoingKind * SendingEventType * bytes))
  | Finished (kind : OutgoingKind) (events : list SendingEventType) (ok : bool).

Definition requests_of (op : SendOp) : list (OutgoingKind * SendingEventType) :=
  match op with
  | SendPdu servers pdu_id => (λ server, (Normal server, SPdu pdu_id)) <$> servers
  | SendPush pdu_id user pushkey => [(Push user pushkey, SPdu pdu_id)]
  | SendReliableEdu server serialized => [(Normal server, SEdu serialized)]
  | SendAppservice id pdu_id => [(Appservice id, SPdu pdu_id)]
  | _ => []
  end.

(** A service's call. *)
Definition send_op (op : SendOp) : M Sender unit :=
  match op with
  | SendPdu servers pdu_id => send_pdu servers pdu_id
  | SendPush pdu_id user pushkey => send_push_pdu pdu_id user pushkey
  | SendReliableEdu server serialized => send_reliable_edu server serialized
  | SendAppservice id pdu_id => send_pdu_appservice id pdu_id
  | _ => mret tt
  end.

(** A branch of the handler's loop; a panic or an error ends the task. *)
Definition run_branch (m : M Sender unit) (s : Sender) : Sender :=
  match m s with
  | (Ok _, s') => s'
  | (_, s') => die s'
  end.

Definition send_step (op : SendOp) (s : Sender) : SendAnswer * Sender :=
  match op with
  | Receive now =>
      match s_alive s, s_channel s with
      | true, message :: rest =>
          (Nothing, run_branch (on_message parse_ephemeral edu_json remove_key server_name now message) (set_channel rest s))
      | _, _ => (Nothing, s)
      end
  | Respond i net now =>
      match s_alive s, s_futures s !! i with
      | true, Some (kind, events) =>
          let s := set_futures (delete i (s_futures s)) s in
          let '(r, s) := with_db (handle_events registration_of rules_of_event server_default sha256 url_safe_no_pad net kind events) s in
          (Finished kind events (is_ok r), run_branch (on_response now kind r) s)
      | _, _ => (Nothing, s)
      end
  | Restart => (Nothing, (start (s_db s)).2)
  | _ =>
      let '(r, s') := send_op op s in
      (Queued (drop (length (s_channel s)) (s_channel s')), s')
  end.

(** * The invariant *)

(** The payload of a key and its value: a pdu id with no value, or the count of
    an EDU with its JSON. *)
Definition entry_ok (n : Z) (p w : bytes) : Prop :=
  (w = [] ∧ (16 ≤ length p)%nat) ∨ (w ≠ [] ∧ ∃ c, 1 ≤ c ≤ n ∧ p = to_be_bytes c).

(** Every key of [G] names its destination. *)
Definition graph_ok (n : Z) (G : gmap bytes bytes) : Prop :=
  ∀ key w, G !! key = Some w → ∃ k p, kind_ok k ∧ key = get_prefix k ++ p ∧ entry_ok n p w.

Definition in_flight (o : option TransactionStatus) : Prop :=
  match o with Some Running | Some (Retrying _) => True | _ => False end.

(** One destination: a transaction in flight carries everything that is active,
    and what is active has a transaction or has failed. *)
Record KindInv (s : Sender) (k : OutgoingKind) : Prop := mk_KindInv {
  k_flight : ∀ evs, (k, evs) ∈ s_futures s → in_flight (s_status s !! k) ∧
    ∀ p w, active (s_db s) !! (get_prefix k ++ p) = Some w → event_of p w ∈ evs;
  k_running : s_alive s = true → in_flight (s_status s !! k) → k ∈ (s_futures s).*1;
  k_idle : s_alive s = true → s_status s !! k = None → ∀ p, active (s_db s) !! (get_prefix k ++ p) = None;
  k_size : (length (kv_scan_prefix (active (s_db s)) (get_prefix k)) ≤ 30)%nat;
}.

Definition message_ok (G : gmap bytes bytes) (m : OutgoingKind * SendingEventType * bytes) : Prop :=
  let '(k, ev, key) := m in kind_ok k ∧ ∃ p w, key = get_prefix k ++ p ∧ G !! key = Some w ∧ ev = event_of p w.

(** [G] has the value of every key ever queued; [n] is the counter. *)
Record SendInv (G : gmap bytes bytes) (n : Z) (s : Sender) : Prop := mk_SendInv {
  v_count : count_is (s_db s) n;
  v_wf : graph_ok n G;
  v_queue : queue (s_db s) ⊆ G;
  v_active : active (s_db s) ⊆ G;
  v_channel : ∀ m, m ∈ s_channel s → message_ok G m;
  v_futures : NoDup (s_futures s).*1;
  v_kinds : ∀ k, k ∈ (s_futures s).*1 → kind_ok k;
  v_kind : ∀ k, kind_ok k → KindInv s k;
  v_dead : s_alive s = false → s_futures s = [];
}.

Definition stored (s : Sender) (key w : bytes) : Prop :=
  queue (s_db s) !! key = Some w ∨ active (s_db s) !! key = Some w.

Definition request_ok (r : OutgoingKind * SendingEventType) : Prop :=
  kind_ok r.1 ∧ match r.2 with SPdu p => (16 ≤ length p)%nat | SEdu w => w ≠ [] end.

Definition send_op_ok (op : SendOp) : Prop :=
  match op with
  | Receive _ | Respond _ _ _ | Restart => True
  | _ => Forall request_ok (requests_of op)
  end.

(** ** The trees after an operation *)

(** Everything but the two trees is as before. *)
Definition send_frame (d d' : Db) : Prop :=
  ∀ t, t ∉ [servernameevent_data; servercurrentevent_data; servername_educount] → kv d' t = kv d t.

Lemma count_is_frame d d' n : send_frame d d' → count_is d n → count_is d' n.
Proof.
  intros H. unfold count_is. rewrite (H global); [done|].
  intros Hin. repeat (apply elem_of_cons in Hin as [?|Hin]; [done|]). by apply elem_of_nil in Hin.
Qed.

Lemma mark_as_active_spec (G : gmap bytes bytes) evs d :
  (∀ ev key, (ev, key) ∈ evs → G !! key = Some (value_of ev)) → ∃ d', mark_as_active evs d = (Ok tt, d') ∧ send_frame d d' ∧
    (∀ key, active d' !! key = if decide (key ∈ evs.*2) then G !! key else active d !! key) ∧
    (∀ key, queue d' !! key = if decide (key ∈ evs.*2) then None else queue d !! key).
Proof.
  revert d. induction evs as [|[ev key0] evs IH]; intros d HG.
  { exists d. split_and!; [done|by intros t _|intros key; by rewrite decide_False by set_solver..]. }
  unfold mark_as_active in *. cbn [for_each]. unfold insert, remove. rewrite (bind_ok _ _ d tt
    (upd servernameevent_data (λ tr, kv_remove tr key0) (upd servercurrentevent_data (λ tr, kv_insert tr key0 (value_of ev)) d))) by done.
  set (d1 := upd servernameevent_data _ _).
  destruct (IH d1) as (d' & E & Hf & Ha & Hq); [intros ev' key' Hin; apply HG; by constructor|].
  exists d'. split; [done|]. specialize (HG ev key0 ltac:(by constructor)). split_and!.
  - intros t Ht. rewrite Hf by done. unfold d1. rewrite !kv_upd_ne; [done|intros <-..]; apply Ht; in_list.
  - intros key. rewrite Ha. unfold d1. kv_simpl. unfold kv_insert. cbn [fmap list_fmap snd]. rewrite lookup_insert.
    destruct (decide (key ∈ evs.*2)); [by rewrite decide_True by (by constructor)|].
    case_decide as Hk; [subst; by rewrite decide_True by (by constructor)|]. by rewrite decide_False by (rewrite elem_of_cons; naive_solver).
  - intros key. rewrite Hq. unfold d1. kv_simpl. unfold kv_remove. cbn [fmap list_fmap snd]. rewrite lookup_delete.
    destruct (decide (key ∈ evs.*2)); [by rewrite decide_True by (by constructor)|].
    case_decide as Hk; [subst; by rewrite decide_True by (by constructor)|]. by rewrite decide_False by (rewrite elem_of_cons; naive_solver).
Qed.

(** ** Building a transaction changes nothing *)

Lemma handle_events_reads net kind events :
  reads (handle_events registration_of rules_of_event server_default sha256 url_safe_no_pad net kind events).
Proof using Type.
  unfold handle_events, appservice_event, push_pdu, push_event, federation_event, get_pdu_from_id, get_pdu_json_from_id,
    get_from_id, get_pusher, get_data, notification_count, get, Database.get. reads.
Qed.

Lemma select_edus_reads server : reads (select_edus parse_ephemeral edu_json remove_key server_name server).
Proof using Type. unfold select_edus, get_latest_educount, Database.get. reads. Qed.

(** ** Queueing *)

Lemma lookup_insert_batch_graph (G : gmap bytes bytes) (t : Tree) (it : list entry) key :
  (∀ k w, (k, w) ∈ it → G !! k = Some w) →
  kv_insert_batch t it !! key = if decide (key ∈ it.*1) then G !! key else t !! key.
Proof.
  revert t. induction it as [|[k0 w0] it IH]; intros t HG; cbn [kv_insert_batch]; [by rewrite decide_False by set_solver|].
  rewrite IH by (intros k w Hin; apply HG; by constructor). cbn [fmap list_fmap fst]. unfold kv_insert. rewrite lookup_insert.
  specialize (HG k0 w0 ltac:(by constructor)).
  destruct (decide (key ∈ it.*1)); [by rewrite decide_True by (by constructor)|].
  case_decide as Hk; [subst; by rewrite decide_True by (by constructor)|]. by rewrite decide_False by (rewrite elem_of_cons; naive_solver).
Qed.

Lemma graph_ok_mono n n' G : n ≤ n' → graph_ok n G → graph_ok n' G.
Proof.
  intros Hn H key w Hk. destruct (H key w Hk) as (k & p & Hok & E & [Hp|[Hw (c & Hc & Ep)]]); exists k, p; split_and!; try done.
  - by left.
  - right. split; [done|]. exists c. split; [lia|done].
Qed.

Lemma graph_insert n G k p w :
  graph_ok n G → kind_ok k → entry_ok n p w → graph_ok n (<[get_prefix k ++ p := w]> G).
Proof. intros H Hk Hp key w'. rewrite lookup_insert. case_decide as E; [|apply H]. intros [= <-]. subst. eauto. Qed.

(** A pdu's key has no value, an EDU's key is new. *)
Lemma graph_pdu n G k p w : graph_ok n G → kind_ok k → (16 ≤ length p)%nat → G !! (get_prefix k ++ p) = Some w → w = [].
Proof.
  intros H Hk Hp HG. destruct (H _ _ HG) as (k' & p' & Hk' & E & [[? _]|[_ (c & _ & Ep)]]); [done|].
  apply get_prefix_inj in E as [_ ->]; [|done..]. rewrite Ep, length_to_be_bytes in Hp. lia.
Qed.

Lemma graph_edu n G k : graph_ok n G → kind_ok k → 0 ≤ n < u64_max → G !! (get_prefix k ++ to_be_bytes (n + 1)) = None.
Proof.
  intros H Hk Hn. destruct (G !! _) as [w|] eqn:HG; [|done]. exfalso.
  destruct (H _ _ HG) as (k' & p' & Hk' & E & [[_ Hl]|[_ (c & Hc & Ep)]]); apply get_prefix_inj in E as [_ <-]; try done.
  - rewrite length_to_be_bytes in Hl. lia.
  - apply to_be_bytes_inj in Ep; [lia|unfold is_u64; lia..].
Qed.

(** A request and the entry it becomes. *)
Definition entry_for (G : gmap bytes bytes) (r : OutgoingKind * SendingEventType) (e : entry) : Prop :=
  kind_ok r.1 ∧ G !! e.1 = Some e.2 ∧ ∃ p, e.1 = get_prefix r.1 ++ p ∧ r.2 = event_of p e.2.

Lemma entry_for_mono (G G' : gmap bytes bytes) r e : G ⊆ G' → entry_for G r e → entry_for G' r e.
Proof. intros HG (H1 & H2 & H3). split_and!; [done|by eapply lookup_weaken|done]. Qed.

Lemma request_key_spec n G acc r d :
  count_is d n → n < u64_max → graph_ok n G → request_ok r → ∃ e d' n' (G' : gmap bytes bytes),
    request_key acc r d = (Ok (acc ++ [e]), d') ∧ count_is d' n' ∧ n ≤ n' ≤ n + 1 ∧ G ⊆ G' ∧ graph_ok n' G' ∧
    entry_for G' r e ∧ queue d' = queue d ∧ active d' = active d.
Proof.
  intros Hc Hn HG [Hk Hr]. destruct r as [k [p|w]]; cbn [fst snd] in *; unfold request_key.
  - rewrite (bind_ok _ _ d (get_prefix k ++ p) d) by done.
    exists (get_prefix k ++ p, []), d, n, (<[get_prefix k ++ p := []]> G). split_and!; [done|done|lia|lia| | | |done|done].
    + apply map_subseteq_spec. intros key w Hkey. rewrite lookup_insert. case_decide as E; [|done]. subst.
      f_equal. symmetry. by apply (graph_pdu n G k p w).
    + apply graph_insert; [done..|]. by left.
    + split_and!; [done|apply lookup_insert_eq|]. by exists p.
  - assert (0 ≤ n) by (destruct Hc as [[] _]; lia).
    rewrite (bind_ok _ _ d (get_prefix k ++ to_be_bytes (n + 1)) (set_count (n + 1) d))
      by (rewrite (bind_ok _ _ _ _ _ (next_count_spec d n Hc Hn)); done).
    exists (get_prefix k ++ to_be_bytes (n + 1), w), (set_count (n + 1) d), (n + 1), (<[get_prefix k ++ to_be_bytes (n + 1) := w]> G).
    split_and!; [done|apply count_is_set_count; unfold is_u64; lia|lia|lia| | | |by kv_simpl|by kv_simpl].
    + apply insert_subseteq, (graph_edu n); [done|done|lia].
    + apply graph_insert; [apply (graph_ok_mono n); [lia|done]|done|]. right. split; [done|]. exists (n + 1). split; [lia|done].
    + split_and!; [done|apply lookup_insert_eq|]. exists (to_be_bytes (n + 1)). split; [done|]. unfold event_of.
      by rewrite bool_decide_eq_false_2.
Qed.

Lemma queue_requests_spec n G requests d :
  count_is d n → n + Z.of_nat (length requests) ≤ u64_max → graph_ok n G → queue d ⊆ G → Forall request_ok requests →
  ∃ batch d' n' (G' : gmap bytes bytes), queue_requests requests d = (Ok batch.*1, d') ∧ Forall2 (entry_for G') requests batch ∧
    count_is d' n' ∧ n ≤ n' ≤ n + Z.of_nat (length requests) ∧ G ⊆ G' ∧ graph_ok n' G' ∧
    queue d ⊆ queue d' ∧ queue d' ⊆ G' ∧ active d' = active d ∧ (∀ e, e ∈ batch → queue d' !! e.1 = Some e.2).
Proof.
  intros Hc Hn HG Hq Hreq. unfold queue_requests.
  destruct (foldM_inv (λ l acc d1, ∃ n1 (G1 : gmap bytes bytes), count_is d1 n1 ∧ n ≤ n1 ≤ n + Z.of_nat (length l) ∧ G ⊆ G1 ∧
      graph_ok n1 G1 ∧ Forall2 (entry_for G1) l acc ∧ queue d1 = queue d ∧ active d1 = active d)
    request_key [] requests d) as (batch & d1 & E & n1 & G1 & Hc1 & Hn1 & HG1 & Hok1 & Hall & Hq1 & Ha1).
  { exists n, G. split_and!; [done|lia|cbn; lia|done|done|constructor|done|done]. }
  { intros l1 r l2 acc d1 El (n1 & G1 & Hc1 & Hn1 & HG1 & Hok1 & Hall & Hq1 & Ha1). rewrite El in Hreq, Hn.
    apply Forall_app in Hreq as [_ [Hr _]%Forall_cons]. rewrite length_app in Hn. cbn [length] in Hn.
    destruct (request_key_spec n1 G1 acc r d1 Hc1 ltac:(lia) Hok1 Hr) as (e & d2 & n2 & G2 & E & Hc2 & Hn2 & HG2 & Hok2 & He & Hq2 & Ha2).
    exists (acc ++ [e]), d2. split; [done|]. exists n2, G2. rewrite length_app. cbn [length].
    split_and!; [done|lia|lia|by etrans|done| |congruence|congruence].
    apply Forall2_app; [|constructor; [done|constructor]]. eapply Forall2_impl; [done|]. intros r' e'. by apply entry_for_mono. }
  rewrite (bind_ok _ _ _ _ _ E). unfold insert_batch, modify. rewrite (bind_ok _ _ d1 tt (upd servernameevent_data (λ tr, kv_insert_batch tr batch) d1)) by done.
  assert (∀ k w, (k, w) ∈ batch → G1 !! k = Some w) as Hb.
  { intros k w Hin. apply list_elem_of_lookup in Hin as [i Hi]. destruct (Forall2_lookup_r _ _ _ _ _ Hall Hi) as (r & _ & _ & H & _). done. }
  exists batch. eexists _, n1, G1. split; [done|]. split_and!; [done| |lia|lia|done|done| | | |].
  - eapply count_is_frame; [|done]. intros t Ht. rewrite kv_upd_ne; [done|]. intros <-. apply Ht. in_list.
  - apply map_subseteq_spec. intros key w Hk. kv_simpl. rewrite (lookup_insert_batch_graph G1), Hq1 by done.
    case_decide; [|done]. eapply lookup_weaken; [|done]. eapply lookup_weaken; [done|done].
  - apply map_subseteq_spec. intros key w. kv_simpl. rewrite (lookup_insert_batch_graph G1), Hq1 by done.
    case_decide; [done|]. intros Hk. eapply lookup_weaken; [|done]. eapply lookup_weaken; [done|done].
  - kv_simpl. done.
  - intros [k w] He. kv_simpl. rewrite (lookup_insert_batch_graph G1) by done. rewrite decide_True; [by apply Hb|].
    apply list_elem_of_fmap. by exists (k, w).
Qed.

(** ** One destination changes *)

(** Everything [KindInv] looks at, for another destination. *)
Lemma KindInv_other s s' k :
  s_status s' !! k = s_status s !! k → s_alive s' = s_alive s →
  (∀ evs, (k, evs) ∈ s_futures s' ↔ (k, evs) ∈ s_futures s) →
  (∀ p, active (s_db s') !! (get_prefix k ++ p) = active (s_db s) !! (get_prefix k ++ p)) →
  KindInv s k → KindInv s' k.
Proof.
  intros Hst Hal Hf Ha [H1 H2 H3 H4]. constructor.
  - intros evs [Hin Hp]%Hf%H1. rewrite Hst. split; [done|]. intros p w. rewrite Ha. apply Hp.
  - rewrite Hst, Hal. intros Hal' ([k' evs] & -> & Hin)%H2%list_elem_of_fmap; [|done].
    apply list_elem_of_fmap. exists (k', evs). by rewrite Hf.
  - rewrite Hst, Hal. intros Hal' Hn p. rewrite Ha. by apply H3.
  - rewrite (scan_prefix_ext _ (active (s_db s))); [done|]. intros key [p ->]%starts_with_spec. apply Ha.
Qed.

Lemma SendInv_update G n s s' k :
  SendInv G n s → kind_ok k → count_is (s_db s') n → queue (s_db s') ⊆ G → active (s_db s') ⊆ G →
  (∀ m, m ∈ s_channel s' → m ∈ s_channel s) → NoDup (s_futures s').*1 →
  (∀ k' evs, k' ≠ k → (k', evs) ∈ s_futures s' ↔ (k', evs) ∈ s_futures s) →
  (∀ k', k' ≠ k → s_status s' !! k' = s_status s !! k') → s_alive s' = s_alive s → s_alive s = true →
  (∀ key, starts_with (get_prefix k) key = false → active (s_db s') !! key = active (s_db s) !! key) →
  KindInv s' k → SendInv G n s'.
Proof.
  intros H Hk Hc Hq Ha Hch Hnd Hf Hst Hal Ht Hact Hkind. constructor; try done.
  - apply H.
  - intros m Hm. apply H. by apply Hch.
  - intros k' ([k'' evs] & -> & Hin)%list_elem_of_fmap. cbn. destruct (decide (k'' = k)) as [->|Hne]; [done|].
    apply H. apply list_elem_of_fmap. exists (k'', evs). by rewrite <-Hf.
  - intros k' Hk'. destruct (decide (k' = k)) as [->|Hne]; [done|]. eapply KindInv_other; [by apply Hst|done| | |by apply H].
    + intros evs. by apply Hf.
    + intros p. apply Hact. rewrite starts_with_prefix by done. by apply bool_decide_eq_false_2.
  - congruence.
Qed.

Lemma SendInv_die G n s : SendInv G n s → SendInv G n (die s).
Proof.
  intros H. constructor; cbn; [apply H..|constructor|by intros k Hk%elem_of_nil| |done].
  intros k Hk. constructor; cbn; [by intros evs Hin%elem_of_nil|done..|]. by apply H.
Qed.

(** Taking a message off the channel. *)
Lemma SendInv_channel G n s c :
  SendInv G n s → (∀ m, m ∈ c → m ∈ s_channel s) → SendInv G n (set_channel c s).
Proof.
  intros H Hc. constructor; cbn; [apply H..| |apply H|apply H| |apply H].
  - intros m Hm. apply H. by apply Hc.
  - intros k Hk. by destruct (v_kind _ _ _ H k Hk).
Qed.

(** ** The scans of a destination *)

Definition payload (k : OutgoingKind) (key : bytes) : bytes := drop (length (get_prefix k)) key.

Lemma payload_app k p : payload k (get_prefix k ++ p) = p.
Proof. apply drop_app_length. Qed.

Lemma scan_parse {A : Type} (t : Tree) k (f : OutgoingKind → SendingEventType → bytes → A) :
  kind_ok k →
  oks ((λ e : entry, '(k', ev) ← parse_servercurrentevent e.1 e.2; Ok (f k' ev e.1)) <$> kv_scan_prefix t (get_prefix k)) =
  (λ e : entry, f k (event_of (payload k e.1) e.2) e.1) <$> kv_scan_prefix t (get_prefix k).
Proof.
  intros Hk. apply oks_fmap_ok. intros [key w] [[p ->]%starts_with_spec _]%elem_of_scan_prefix. cbn [fst snd].
  rewrite parse_key, payload_app by done. done.
Qed.

Lemma active_requests_for_spec k d :
  kind_ok k → (oks (active_requests_for k d)).*2 = (λ e : entry, event_of (payload k e.1) e.2) <$> kv_scan_prefix (active d) (get_prefix k).
Proof.
  intros Hk. unfold active_requests_for. rewrite (scan_parse _ k (λ _ ev key, (key, ev))) by done. by rewrite <-list_fmap_compose.
Qed.

Lemma queued_requests_spec k d :
  kind_ok k → oks (queued_requests k d) = (λ e : entry, (event_of (payload k e.1) e.2, e.1)) <$> kv_scan_prefix (queue d) (get_prefix k).
Proof. intros Hk. unfold queued_requests. by rewrite (scan_parse _ k (λ _ ev key, (ev, key))). Qed.

(** ** What a step keeps *)

Definition preserved (a : SendAnswer) (s s' : Sender) : Prop :=
  ∀ k p w, kind_ok k → stored s (get_prefix k ++ p) w →
    stored s' (get_prefix k ++ p) w ∨ ∃ evs, (a = Finished k evs true) ∧ event_of p w ∈ evs.

Definition queued_ok (op : SendOp) (a : SendAnswer) (s' : Sender) : Prop :=
  match a with
  | Queued l => l.*1 = requests_of op ∧
      ∀ k ev key, (k, ev, key) ∈ l → kind_ok k ∧ ∃ p w, key = get_prefix k ++ p ∧ ev = event_of p w ∧ stored s' key w
  | _ => True
  end.

Lemma stored_graph G n s key w : SendInv G n s → stored s key w → G !! key = Some w.
Proof. intros H [Hs|Hs]; (eapply lookup_weaken; [done|]); apply H. Qed.

(** Moving queued entries of [G] to the active tree keeps what is stored. *)
Lemma mark_as_active_stored (G : gmap bytes bytes) (evs : list (SendingEventType * bytes)) d d' key w :
  (∀ key, active d' !! key = if decide (key ∈ evs.*2) then G !! key else active d !! key) →
  (∀ key, queue d' !! key = if decide (key ∈ evs.*2) then None else queue d !! key) →
  G !! key = Some w → queue d !! key = Some w ∨ active d !! key = Some w →
  queue d' !! key = Some w ∨ active d' !! key = Some w.
Proof. intros Ha Hq HG. rewrite Ha, Hq. case_decide; naive_solver. Qed.

(** ** Starting a transaction *)

(** The other transactions. *)
Definition others (k : OutgoingKind) (fs fs' : list (OutgoingKind * list SendingEventType)) : Prop :=
  NoDup fs'.*1 ∧ (k ∉ fs'.*1) ∧ (∀ k' evs, k' ≠ k → ((k', evs) ∈ fs') ↔ ((k', evs) ∈ fs)).

Lemma others_idle G n s k : SendInv G n s → kind_ok k → ¬ in_flight (s_status s !! k) → others k (s_futures s) (s_futures s).
Proof.
  intros H Hk Hs. split_and!; [apply H| |done]. intros ([k' evs] & -> & Hin)%list_elem_of_fmap.
  by apply Hs, (k_flight _ _ (v_kind _ _ _ H k' Hk) evs).
Qed.

Lemma others_delete G n s i k evs :
  SendInv G n s → s_futures s !! i = Some (k, evs) → others k (s_futures s) (delete i (s_futures s)).
Proof.
  intros H Hi. pose proof (v_futures _ _ _ H) as Hnd. apply list_elem_of_split_length in Hi as (l1 & l2 & El & ->).
  unfold others. rewrite El in Hnd |- *. rewrite delete_middle, !fmap_app, fmap_cons in *.
  apply NoDup_app in Hnd as (H1 & H2 & [H3 H4]%NoDup_cons). cbn [fst] in *. split_and!.
  - apply NoDup_app. split_and!; [done| |done]. intros k' Hk' Hin. apply (H2 k' Hk'). by constructor.
  - intros [Hin|Hin]%elem_of_app; [|done]. apply (H2 k Hin). constructor.
  - intros k' evs' Hne. rewrite !elem_of_app, elem_of_cons. naive_solver.
Qed.

Lemma SendInv_push G n s d' m fs k evs :
  SendInv G n s → kind_ok k → s_alive s = true → others k (s_futures s) fs → in_flight (m !! k) →
  (∀ k', k' ≠ k → m !! k' = s_status s !! k') → count_is d' n → queue d' ⊆ G → active d' ⊆ G →
  (∀ key, starts_with (get_prefix k) key = false → active d' !! key = active (s_db s) !! key) →
  (∀ p w, active d' !! (get_prefix k ++ p) = Some w → event_of p w ∈ evs) →
  (length (kv_scan_prefix (active d') (get_prefix k)) ≤ 30)%nat →
  SendInv G n (mkSender d' m (fs ++ [(k, evs)]) (s_channel s) true).
Proof.
  intros H Hk Hal (Hnd & Hnk & Hf) Hfl Hm Hc Hq Ha Hout Hin Hsz.
  apply (SendInv_update G n s _ k); cbn [s_db s_status s_futures s_channel s_alive]; try done.
  - rewrite fmap_app. apply NoDup_app. split_and!; [done| |apply NoDup_singleton]. by intros k' Hk' ->%list_elem_of_singleton.
  - intros k' evs' Hne. rewrite elem_of_app, list_elem_of_singleton, Hf by done. naive_solver.
  - constructor; cbn [s_db s_status s_futures s_channel s_alive].
    + intros evs' [Hin'|[= ->]%list_elem_of_singleton]%elem_of_app; [|done]. destruct Hnk. apply list_elem_of_fmap. by exists (k, evs').
    + intros _ _. rewrite fmap_app, elem_of_app. right. by constructor.
    + intros _ Hn. by rewrite Hn in Hfl.
    + done.
Qed.

(** ** Receiving a message *)

(** A step that leaves the two trees alone. *)
Lemma preserved_same a s s' : queue (s_db s') = queue (s_db s) → active (s_db s') = active (s_db s) → preserved a s s'.
Proof. intros Hq Ha k p w _ Hs. left. unfold stored. by rewrite Hq, Ha. Qed.

Lemma try_ok_reads {S A} (m : M S A) s : reads m →
  (∃ o, try_ok m s = (Ok o, s)) ∨ try_ok m s = (Panic, s).
Proof. intros Hm. unfold try_ok. specialize (Hm s). destruct (m s) as [[a|e|] s']; cbn in Hm; subst; eauto. Qed.

Lemma with_db_reads {A} (m : M Db A) : reads m → reads (with_db m).
Proof. intros Hm s. unfold with_db. specialize (Hm (s_db s)). destruct (m (s_db s)) as [r d]. cbn in *. subst. by destruct s. Qed.

(** A new event: the destination was idle. *)
Lemma select_new_spec G n s now k ev key :
  SendInv G n s → s_alive s = true → message_ok G (k, ev, key) → s_status s !! k = None →
  let s' := run_branch (on_message parse_ephemeral edu_json remove_key server_name now (k, ev, key)) s in
  SendInv G n s' ∧ preserved Nothing s s'.
Proof.
  intros H Hal (Hk & p & w & -> & HG & ->) Hst s'.
  destruct (mark_as_active_spec G [(event_of p w, get_prefix k ++ p)] (s_db s)) as (d' & E & Hf & Ha & Hq).
  { intros ev key [= -> ->]%list_elem_of_singleton. by rewrite value_of_event_of. }
  cbn [fmap list_fmap snd] in Ha, Hq.
  set (t d evs := mkSender d (<[k := Running]> (s_status s)) (s_futures s ++ [(k, evs)]) (s_channel s) true).
  assert (∀ d evs, kv d servernameevent_data = queue d' → kv d servercurrentevent_data = active d' → count_is d n →
    event_of p w ∈ evs → SendInv G n (t d evs)) as Hinv.
  { intros d evs Eq Ea Hc Hin. apply SendInv_push; try done.
    - apply (others_idle G n); [done|done|]. rewrite Hst. tauto.
    - by rewrite lookup_insert_eq.
    - intros k' Hne. by rewrite lookup_insert_ne.
    - rewrite Eq. apply map_subseteq_spec. intros key w'. rewrite Hq. case_decide; [done|]. apply map_subseteq_spec, H.
    - rewrite Ea. apply map_subseteq_spec. intros key w'. rewrite Ha. case_decide; [done|]. apply map_subseteq_spec, H.
    - intros key Hkey. rewrite Ea, Ha, decide_False; [done|]. intros ->%list_elem_of_singleton.
      by rewrite starts_with_app in Hkey.
    - intros p' w'. rewrite Ea, Ha. case_decide as Hp.
      + apply list_elem_of_singleton in Hp. apply (inj _) in Hp as ->. rewrite HG. by intros [= ->].
      + by rewrite (k_idle _ _ (v_kind _ _ _ H k Hk)).
    - rewrite Ea. etrans; [apply (scan_prefix_length _ _ [get_prefix k ++ p])|cbn; lia].
      intros key v [p' ->]%starts_with_spec. rewrite Ha. case_decide; [done|]. by rewrite (k_idle _ _ (v_kind _ _ _ H k Hk)). }
  assert (∀ d evs, kv d servernameevent_data = queue d' → kv d servercurrentevent_data = active d' → preserved Nothing s (t d evs)) as Hpres.
  { intros d evs Eq Ea k' p' w' Hk' Hs. left. unfold stored. cbn. rewrite Eq, Ea.
    eapply (mark_as_active_stored G [(event_of p w, get_prefix k ++ p)]); [done|done|by eapply stored_graph|done]. }
  assert (count_is d' n) as Hc by (eapply count_is_frame; [done|apply H]).
  set (s1 := mkSender d' (<[k := Running]> (s_status s)) (s_futures s) (s_channel s) (s_alive s)).
  assert ((∃ d evs, s' = t d evs ∧ kv d servernameevent_data = queue d' ∧ kv d servercurrentevent_data = active d' ∧
    count_is d n ∧ event_of p w ∈ evs) ∨ s' = die (t d' [event_of p w])) as Hcase.
  { remember s' as x eqn:Hx. revert Hx. subst s'. unfold run_branch, on_message, select_events. run. unfold try_ok. rewrite Hst. cbn [check_status negb].
    unfold with_db at 1. cbn [s_db set_status]. rewrite E. cbn [s_status s_futures s_channel s_alive fmap list_fmap fst].
    fold s1. destruct k as [id|user pk|server].
    - intros ->. left. exists d', [event_of p w]. unfold push_future, modify. cbn. rewrite Hal. split_and!; [done..|by constructor].
    - intros ->. left. exists d', [event_of p w]. unfold push_future, modify. cbn. rewrite Hal. split_and!; [done..|by constructor].
    - cbn [set_status s_status s_futures s_channel s_alive]. fold s1.
      pose proof (with_db_reads _ (select_edus_reads server) s1) as Hr.
      destruct (with_db _ s1) as [[[es last]|e|] s2]; cbn [snd] in Hr; subst s2; intros ->.
      + left. exists (upd servername_educount (λ tr, kv_insert tr server (to_be_bytes last)) d'), ([event_of p w] ++ (SEdu <$> es)).
        unfold push_future, modify, t. cbn [app]. cbn. rewrite Hal. split_and!; [done|by kv_simpl|by kv_simpl| |by constructor].
        eapply count_is_frame; [|done]. intros tb Ht. rewrite kv_upd_ne; [done|]. intros <-. apply Ht. in_list.
      + left. exists d', [event_of p w]. unfold s1, push_future, modify. cbn. rewrite Hal. split_and!; [done..|by constructor].
      + right. done. }
  destruct Hcase as [(d & evs & -> & Eq & Ea & Hc' & Hin)| ->].
  - split; [by apply Hinv|by apply Hpres].
  - split; [apply SendInv_die, Hinv; [done..|by constructor]|]. by apply (Hpres d' [event_of p w]).
Qed.

(** A destination that failed long enough ago: its last transaction again. *)
Lemma select_retry_spec G n s now k ev key tries time :
  SendInv G n s → s_alive s = true → kind_ok k → s_status s !! k = Some (Failed tries time) →
  let s' := run_branch (on_message parse_ephemeral edu_json remove_key server_name now (k, ev, key)) s in
  SendInv G n s' ∧ preserved Nothing s s'.
Proof.
  intros H Hal Hk Hst s'. subst s'. unfold run_branch, on_message, select_events. run. unfold try_ok. rewrite Hst. cbn [check_status].
  destruct (min_elapsed_duration tries) as [m|e|] eqn:E.
  - cbn [mbind res_bind]. destruct (_ <? m); cbn [negb].
    + cbn. rewrite insert_id by done. destruct s. split; [done|by apply preserved_same].
    + unfold push_future, modify, set_futures, set_status. cbn [s_db s_status s_futures s_channel s_alive]. split; [|by apply preserved_same]. rewrite Hal. apply SendInv_push; try done.
      * apply (others_idle G n); [done|done|]. rewrite Hst. tauto.
      * by rewrite lookup_insert_eq.
      * intros k' Hne. by rewrite lookup_insert_ne.
      * apply H.
      * apply H.
      * apply H.
      * intros p w Hp. rewrite active_requests_for_spec by done. apply list_elem_of_fmap. exists (get_prefix k ++ p, w).
        cbn. rewrite payload_app. split; [done|]. apply elem_of_scan_prefix. split; [apply starts_with_app|done].
      * by apply H.
  - by unfold min_elapsed_duration in E; case_match.
  - cbn. split; [by apply SendInv_die|by apply preserved_same].
Qed.

Lemma receive_spec G n s now :
  SendInv G n s → SendInv G n (send_step (Receive now) s).2 ∧ preserved Nothing s (send_step (Receive now) s).2 ∧ (send_step (Receive now) s).1 = Nothing.
Proof.
  intros H. cbn [send_step]. destruct (s_alive s) eqn:Hal; [|split_and!; [done|by apply preserved_same|done]].
  destruct (s_channel s) as [|[[k ev] key] rest] eqn:Hch; [split_and!; [done|by apply preserved_same|done]|]. cbn [fst snd].
  apply and_assoc. split; [|done].
  assert (message_ok G (k, ev, key)) as Hm by (apply H; rewrite Hch; by constructor).
  assert (SendInv G n (set_channel rest s)) as H' by (apply SendInv_channel; [done|rewrite Hch; by constructor]).
  destruct (s_status s !! k) as [[|tries time|tries]|] eqn:Hst.
  - unfold run_branch, on_message, select_events. run. unfold try_ok. cbn [s_status set_channel]. rewrite Hst. cbn.
    rewrite insert_id by done. split; [done|by apply preserved_same].
  - apply (select_retry_spec G n (set_channel rest s) now k ev key tries time); [done|done|apply Hm|done].
  - unfold run_branch, on_message, select_events. run. unfold try_ok. cbn [s_status set_channel]. rewrite Hst. cbn.
    rewrite insert_id by done. split; [done|by apply preserved_same].
  - by apply (select_new_spec G n (set_channel rest s) now k ev key).
Qed.

(** ** A transaction ends *)

Lemma delete_active_spec k d : ∃ d1, delete_all_active_requests_for k d = (Ok tt, d1) ∧ send_frame d d1 ∧ queue d1 = queue d ∧
  (∀ key, active d1 !! key = if starts_with (get_prefix k) key then None else active d !! key).
Proof.
  eexists. split; [done|]. split_and!; [|by kv_simpl|intros key; apply (lookup_remove_prefix_kv servercurrentevent_data)].
  intros tb Ht. rewrite kv_upd_ne; [done|]. intros <-. apply Ht. in_list.
Qed.

(** The events of the next transaction. *)
Definition next_events (k : OutgoingKind) (d : Db) : list (SendingEventType * bytes) := take 30 (oks (queued_requests k d)).

Lemma elem_of_next_events k d ev key :
  kind_ok k → (ev, key) ∈ next_events k d → ∃ p w, key = get_prefix k ++ p ∧ ev = event_of p w ∧ queue d !! key = Some w.
Proof.
  unfold next_events. intros Hk Hx. rewrite queued_requests_spec in Hx by done. apply elem_of_take in Hx as (j & Hx & _).
  apply list_elem_of_lookup_2, list_elem_of_fmap in Hx as ([key' w] & [= -> ->] & [Hp Hx]%elem_of_scan_prefix).
  apply starts_with_spec in Hp as [p ->]. exists p, w. cbn. by rewrite payload_app.
Qed.

(** After a success, with [d1] the database without the finished events and
    [d2] the database with the next ones active. *)
Lemma on_response_ok now k s d1 d2 :
  delete_all_active_requests_for k (s_db s) = (Ok tt, d1) → mark_as_active (next_events k d1) d1 = (Ok tt, d2) →
  run_branch (on_response now k (Ok tt)) s =
    if bool_decide (next_events k d1 = []) then mkSender d1 (delete k (s_status s)) (s_futures s) (s_channel s) (s_alive s)
    else mkSender d2 (s_status s) (s_futures s ++ [(k, (next_events k d1).*1)]) (s_channel s) (s_alive s).
Proof.
  intros E1 E2. unfold run_branch, on_response. run. unfold with_db at 1. rewrite E1. cbn [s_db]. fold (next_events k d1).
  case_bool_decide; [done|]. unfold with_db. cbn [s_db]. by rewrite E2.
Qed.

(** The queued events of an idle destination are all there is. *)
Lemma SendInv_idle G n s k fs d1 :
  SendInv G n s → s_alive s = true → kind_ok k → others k (s_futures s) fs → send_frame (s_db s) d1 → queue d1 = queue (s_db s) →
  (∀ key, active d1 !! key = if starts_with (get_prefix k) key then None else active (s_db s) !! key) →
  SendInv G n (mkSender d1 (delete k (s_status s)) fs (s_channel s) true).
Proof.
  intros H Hal Hk (Hnd & Hnk & Hf) Hfr Hq Ha.
  apply (SendInv_update G n s _ k); cbn [s_db s_status s_futures s_channel s_alive]; try done.
  - eapply count_is_frame; [done|apply H].
  - rewrite Hq. apply H.
  - apply map_subseteq_spec. intros key w. rewrite Ha. destruct (starts_with _ key); [done|]. apply map_subseteq_spec, H.
  - intros k' Hne. by rewrite lookup_delete_ne.
  - intros key Hkey. by rewrite Ha, Hkey.
  - constructor; cbn [s_db s_status s_futures s_channel s_alive]; rewrite ?lookup_delete_eq.
    + intros evs Hin. destruct Hnk. apply list_elem_of_fmap. by exists (k, evs).
    + done.
    + intros _ _ p. by rewrite Ha, starts_with_app.
    + etrans; [apply (scan_prefix_length _ _ [])|cbn; lia]. intros key v Hkey. by rewrite Ha, Hkey.
Qed.

Lemma SendInv_next G n s k fs d1 d2 :
  SendInv G n s → s_alive s = true → kind_ok k → others k (s_futures s) fs → in_flight (s_status s !! k) →
  send_frame (s_db s) d1 → queue d1 = queue (s_db s) →
  (∀ key, active d1 !! key = if starts_with (get_prefix k) key then None else active (s_db s) !! key) →
  send_frame d1 d2 →
  (∀ key, active d2 !! key = if decide (key ∈ (next_events k d1).*2) then G !! key else active d1 !! key) →
  (∀ key, queue d2 !! key = if decide (key ∈ (next_events k d1).*2) then None else queue d1 !! key) →
  SendInv G n (mkSender d2 (s_status s) (fs ++ [(k, (next_events k d1).*1)]) (s_channel s) true).
Proof.
  intros H Hal Hk Ho Hfl Hf1 Hq1 Ha1 Hf2 Ha2 Hq2.
  assert (∀ key, key ∈ (next_events k d1).*2 → ∃ p w, key = get_prefix k ++ p ∧ event_of p w ∈ (next_events k d1).*1 ∧ queue d1 !! key = Some w) as Hnew.
  { intros key ([ev key'] & -> & Hin)%list_elem_of_fmap. destruct (elem_of_next_events k d1 ev key' Hk Hin) as (p & w & -> & -> & Hw).
    exists p, w. split_and!; [done| |done]. apply list_elem_of_fmap. by exists (event_of p w, get_prefix k ++ p). }
  apply SendInv_push; try done.
  - eapply count_is_frame; [done|]. eapply count_is_frame; [done|apply H].
  - apply map_subseteq_spec. intros key w. rewrite Hq2, Hq1. case_decide; [done|]. apply map_subseteq_spec, H.
  - apply map_subseteq_spec. intros key w. rewrite Ha2, Ha1. case_decide; [done|]. destruct (starts_with _ key); [done|]. apply map_subseteq_spec, H.
  - intros key Hkey. rewrite Ha2, Ha1, Hkey. rewrite decide_False; [done|]. intros (p & w & -> & _)%Hnew. by rewrite starts_with_app in Hkey.
  - intros p w. rewrite Ha2, Ha1, starts_with_app. case_decide as Hd; [|done]. destruct (Hnew _ Hd) as (p' & w' & E & Hin & Hw).
    apply (inj _) in E as <-. intros HG. rewrite Hq1 in Hw. eapply lookup_weaken in Hw; [|apply H]. by simplify_eq.
  - etrans; [apply (scan_prefix_length _ _ (next_events k d1).*2)|rewrite length_fmap; unfold next_events; rewrite length_take; lia].
    intros key v Hkey. rewrite Ha2, Ha1, Hkey. by case_decide.
Qed.

Lemma respond_ok_spec G n s i now k evs :
  SendInv G n s → s_alive s = true → s_futures s !! i = Some (k, evs) →
  let s' := run_branch (on_response now k (Ok tt)) (set_futures (delete i (s_futures s)) s) in
  SendInv G n s' ∧ preserved (Finished k evs true) s s'.
Proof.
  intros H Hal Hi s'. pose proof (list_elem_of_lookup_2 _ _ _ Hi) as Hin.
  assert (kind_ok k) as Hk by (apply H, list_elem_of_fmap; by exists (k, evs)).
  destruct (k_flight _ _ (v_kind _ _ _ H k Hk) evs Hin) as [Hfl Hevs]. pose proof (others_delete G n s i k evs H Hi) as Ho.
  destruct (delete_active_spec k (s_db s)) as (d1 & E1 & Hf1 & Hq1 & Ha1).
  destruct (mark_as_active_spec G (next_events k d1) d1) as (d2 & E2 & Hf2 & Ha2 & Hq2).
  { intros ev key (p & w & -> & -> & Hw)%elem_of_next_events; [|done]. rewrite value_of_event_of. rewrite Hq1 in Hw.
    eapply lookup_weaken; [done|apply H]. }
  assert (∀ k' p' w', kind_ok k' → stored s (get_prefix k' ++ p') w' → (queue d1 !! (get_prefix k' ++ p') = Some w' ∨ active d1 !! (get_prefix k' ++ p') = Some w') ∨
    ∃ evs', Finished k evs true = Finished k' evs' true ∧ event_of p' w' ∈ evs') as Hpres.
  { intros k' p' w' Hk' [Hs|Hs]; [left; left; by rewrite Hq1|].
    destruct (decide (k' = k)) as [->|Hne]; [right; exists evs; split; [done|by apply Hevs]|].
    left. right. rewrite Ha1, starts_with_prefix by done. by rewrite bool_decide_eq_false_2. }
  subst s'. rewrite (on_response_ok now k _ d1 d2) by done. cbn [set_futures s_db s_status s_futures s_channel s_alive]. rewrite Hal.
  case_bool_decide as Hempty; split.
  - by apply SendInv_idle.
  - intros k' p' w' Hk' Hs. by apply Hpres.
  - by apply SendInv_next.
  - intros k' p' w' Hk' Hs. destruct (Hpres k' p' w' Hk' Hs) as [Hs'|Hs']; [left|by right].
    apply (mark_as_active_stored G (next_events k d1) d1); [done|done|by eapply stored_graph|done].
Qed.

Lemma respond_err_spec G n s i now k evs e :
  SendInv G n s → s_alive s = true → s_futures s !! i = Some (k, evs) →
  let s' := run_branch (on_response now k (Err e)) (set_futures (delete i (s_futures s)) s) in
  SendInv G n s' ∧ preserved (Finished k evs false) s s'.
Proof.
  intros H Hal Hi s'. pose proof (list_elem_of_lookup_2 _ _ _ Hi) as Hin.
  assert (kind_ok k) as Hk by (apply H, list_elem_of_fmap; by exists (k, evs)).
  destruct (k_flight _ _ (v_kind _ _ _ H k Hk) evs Hin) as [Hfl _]. destruct (others_delete G n s i k evs H Hi) as (Hnd & Hnk & Hf).
  subst s'. unfold run_branch, on_response, modify, set_status, set_futures. cbn [s_db s_status s_futures s_channel s_alive].
  split; [|by apply preserved_same]. apply (SendInv_update G n s _ k); cbn [s_db s_status s_futures s_channel s_alive]; try done; try apply H.
  - intros k' Hne. by rewrite lookup_alter_ne.
  - constructor; cbn [s_db s_status s_futures s_channel s_alive]; rewrite ?lookup_alter_eq.
    + intros evs' Hin'. destruct Hnk. apply list_elem_of_fmap. by exists (k, evs').
    + intros _. by destruct (s_status s !! k) as [[| |]|].
    + intros _. by destruct (s_status s !! k) as [[| |]|].
    + by apply H.
Qed.

Lemma respond_spec G n s i net now :
  SendInv G n s → let '(a, s') := send_step (Respond i net now) s in
  SendInv G n s' ∧ preserved a s s' ∧ (a = Nothing ∨ ∃ k evs b, a = Finished k evs b).
Proof.
  intros H. cbn [send_step]. destruct (s_alive s) eqn:Hal; [|split_and!; [done|by apply preserved_same|by left]].
  destruct (s_futures s !! i) as [[k evs]|] eqn:Hi; [|split_and!; [done|by apply preserved_same|by left]]. cbv zeta.
  pose proof (with_db_reads _ (handle_events_reads net k evs) (set_futures (delete i (s_futures s)) s)) as Hr.
  destruct (with_db _ _) as [r s1]. cbn [snd] in Hr. subst s1. apply and_assoc. split; [|right; eauto].
  destruct r as [[]|e|]; cbn [is_ok].
  - by apply respond_ok_spec.
  - by apply respond_err_spec.
  - split; [|by apply preserved_same]. apply (SendInv_die G n s H).
Qed.

(** ** A restart *)

(** Every key of the active tree names its destination. *)
Lemma active_parse G n s e : SendInv G n s → e ∈ kv_iter (active (s_db s)) →
  ∃ k p, kind_ok k ∧ e.1 = get_prefix k ++ p ∧ parse_servercurrentevent e.1 e.2 = Ok (k, event_of p e.2).
Proof.
  intros H He. destruct e as [key w]. assert (G !! key = Some w) as HG.
  { apply (lookup_weaken (active (s_db s))); [by apply elem_of_entries|apply H]. }
  destruct (v_wf _ _ _ H key w HG) as (k & p & Hk & -> & _). exists k, p. split_and!; [done..|]. by apply parse_key.
Qed.

(** The requests a restart finds, for one destination. *)
Definition initial_for (k : OutgoingKind) (l : list (bytes * OutgoingKind * SendingEventType)) : list SendingEventType :=
  (bfilter (λ r, bool_decide (r.1.2 = k)) l).*2.

Lemma initial_for_app k l1 l2 : initial_for k (l1 ++ l2) = initial_for k l1 ++ initial_for k l2.
Proof. unfold initial_for. by rewrite bfilter_app, fmap_app. Qed.

Lemma initial_for_one k key k0 ev : initial_for k [(key, k0, ev)] = if decide (k0 = k) then [ev] else [].
Proof. unfold initial_for. cbn. case_decide; [by rewrite bool_decide_eq_true_2|by rewrite bool_decide_eq_false_2]. Qed.

Lemma initial_for_cons k key k0 ev l : initial_for k ((key, k0, ev) :: l) = (if decide (k0 = k) then [ev] else []) ++ initial_for k l.
Proof. rewrite <-(initial_for_one k key k0 ev). apply (initial_for_app k [(key, k0, ev)] l). Qed.

Lemma initial_requests_spec l d :
  (∀ k, length (initial_for k l) ≤ 30)%nat → ∃ m, foldM initial_request ∅ l d = (Ok m, d) ∧
    (∀ k, m !! k = if bool_decide (initial_for k l = []) then None else Some (initial_for k l)).
Proof.
  intros Hl. destruct (foldM_inv (λ l1 (m : gmap OutgoingKind (list SendingEventType)) d1, d1 = d ∧
      ∀ k, m !! k = if bool_decide (initial_for k l1 = []) then None else Some (initial_for k l1))
    initial_request ∅ l d) as (m & d' & E & -> & Hm); [|  |by exists m].
  - split; [done|]. intros k. by rewrite lookup_empty.
  - intros l1 [[key k0] ev] l2 m d1 El [-> Hm]. unfold initial_request.
    assert (default [] (m !! k0) = initial_for k0 l1) as -> by (rewrite Hm; case_bool_decide as Hb; [by rewrite Hb|done]).
    assert (length (initial_for k0 l1) < 30)%nat as Hlt.
    { specialize (Hl k0). rewrite El, initial_for_app, initial_for_cons, decide_True, !length_app in Hl by done. cbn in Hl. lia. }
    rewrite bool_decide_eq_false_2 by lia. eexists _, _. split; [done|]. split; [done|]. intros k. rewrite initial_for_app, lookup_insert.
    rewrite initial_for_one. case_decide as Hk; [|rewrite app_nil_r; apply Hm].
    subst. rewrite bool_decide_eq_false_2; [done|]. by destruct (initial_for k l1).
Qed.

(** The active entries of one destination. *)
Lemma initial_for_active G n s k :
  SendInv G n s → kind_ok k →
  initial_for k (oks (active_requests (s_db s))) =
    (λ e : entry, event_of (payload k e.1) e.2) <$> kv_scan_prefix (active (s_db s)) (get_prefix k).
Proof.
  intros H Hk. unfold active_requests, kv_iter. rewrite scan_prefix_spec.
  assert (∀ e, e ∈ entries (active (s_db s)) → ∃ k p, kind_ok k ∧ e.1 = get_prefix k ++ p ∧
    parse_servercurrentevent e.1 e.2 = Ok (k, event_of p e.2)) as Hall by (intros e; by apply (active_parse G n s)).
  induction (entries _) as [|[key w] l IH]; [done|]. specialize (IH (λ e He, Hall e (list_elem_of_further _ _ _ He))).
  destruct (Hall (key, w)) as (k0 & p & Hk0 & Ek & Ep); [by constructor|]. cbn [fst snd] in *.
  unfold oks in *. cbn [fmap list_fmap fst snd omap list_omap]. rewrite Ep. cbn [mbind res_bind ok].
  rewrite initial_for_cons, IH. cbn [bfilter fst]. rewrite Ek, starts_with_prefix by done.
  destruct (decide (k0 = k)) as [->|Hne]; [|by rewrite bool_decide_eq_false_2].
  rewrite bool_decide_eq_true_2 by done. cbn [fmap list_fmap fst snd app]. by rewrite payload_app.
Qed.

(** No entry of another destination. *)
Lemma initial_for_other G n s k :
  SendInv G n s → initial_for k (oks (active_requests (s_db s))) ≠ [] → kind_ok k.
Proof.
  intros H Hne. destruct (initial_for k _) as [|ev l] eqn:E; [done|].
  assert (ev ∈ initial_for k (oks (active_requests (s_db s)))) as Hin by (rewrite E; by constructor).
  apply list_elem_of_fmap in Hin as ([[key k'] ev'] & _ & [Hk Hin]%elem_of_bfilter). apply bool_decide_eq_true in Hk. cbn in Hk. subst.
  apply list_elem_of_omap in Hin as (r & Hr & Ho). apply list_elem_of_fmap in Hr as (e & -> & He).
  destruct (active_parse G n s e H He) as (k0 & p & Hk0 & _ & Ep). rewrite Ep in Ho. cbn in Ho. by simplify_eq.
Qed.

Lemma restart_spec G n s : SendInv G n s → SendInv G n (start (s_db s)).2 ∧ preserved Nothing s (start (s_db s)).2.
Proof.
  intros H. assert (∀ k, length (initial_for k (oks (active_requests (s_db s)))) ≤ 30)%nat as Hl.
  { intros k. destruct (decide (initial_for k (oks (active_requests (s_db s))) = [])) as [->|Hne]; [cbn; lia|].
    apply (initial_for_other G n) in Hne as Hk; [|done]. rewrite (initial_for_active G n) by done. rewrite length_fmap. by apply H. }
  destruct (initial_requests_spec _ (s_db s) Hl) as (m & E & Hm). unfold start. rewrite E. cbn [snd].
  split; [|by apply preserved_same].
  assert (∀ k, k ∈ (map_to_list m).*1 ↔ is_Some (m !! k)) as Hdom.
  { intros k. rewrite list_elem_of_fmap. split.
    - intros ([k' evs] & -> & Hin%elem_of_map_to_list). by eexists.
    - intros [evs Hk]. exists (k, evs). by rewrite elem_of_map_to_list. }
  constructor; cbn [s_db s_status s_futures s_channel s_alive]; try apply H; try done.
  - by intros r Hr%elem_of_nil.
  - apply NoDup_fst_map_to_list.
  - intros k [evs Hk]%Hdom. rewrite Hm in Hk. case_bool_decide; [done|]. by apply (initial_for_other G n s).
  - intros k Hk. constructor; cbn [s_db s_status s_futures s_channel s_alive]; rewrite ?lookup_fmap.
    + intros evs Hin%elem_of_map_to_list. rewrite Hin. split; [done|]. intros p w Hp. rewrite Hm in Hin. case_bool_decide; [done|]. simplify_eq.
      rewrite (initial_for_active G n) by done. apply list_elem_of_fmap. exists (get_prefix k ++ p, w). cbn. rewrite payload_app.
      split; [done|]. apply elem_of_scan_prefix. split; [apply starts_with_app|done].
    + intros _ Hfl. apply Hdom. by destruct (m !! k).
    + intros _ Hn p. apply fmap_None in Hn. rewrite Hm in Hn. case_bool_decide as Hnil; [|done].
      rewrite (initial_for_active G n) in Hnil by done. apply fmap_nil_inv in Hnil.
      destruct (active (s_db s) !! _) as [w|] eqn:Hp; [|done]. exfalso.
      assert ((get_prefix k ++ p, w) ∈ kv_scan_prefix (active (s_db s)) (get_prefix k)) as Hin by (apply elem_of_scan_prefix; split; [apply starts_with_app|done]).
      rewrite Hnil in Hin. by apply elem_of_nil in Hin.
    + by apply H.
Qed.

(** ** Queueing *)

Lemma message_ok_mono (G G' : gmap bytes bytes) m : G ⊆ G' → message_ok G m → message_ok G' m.
Proof. destruct m as [[k ev] key]. intros HG (Hk & p & w & E & Hw & Hev). split; [done|]. exists p, w. split_and!; [done| |done]. by eapply lookup_weaken. Qed.

Lemma entry_for_messages G requests (batch : list entry) :
  Forall2 (entry_for G) requests batch →
  let l := zip_with (λ '(k, e) key, (k, e, key)) requests batch.*1 in
  l.*1 = requests ∧ ∀ k ev key, (k, ev, key) ∈ l → message_ok G (k, ev, key) ∧ ∃ w, (key, w) ∈ batch.
Proof.
  induction 1 as [|[k0 ev0] [key0 w0] requests batch (Hk & HG & p & Ep & Ev) Hall IH]; cbn [fmap list_fmap zip_with fst].
  { split; [done|]. by intros k ev key Hin%elem_of_nil. }
  destruct IH as [IH1 IH2]. cbn in *. split; [by rewrite IH1|]. intros k ev key [[= -> -> ->]|Hin]%elem_of_cons.
  - split; [|exists w0; by constructor]. split; [done|]. by exists p, w0.
  - destruct (IH2 k ev key Hin) as [Hm [w Hw]]. split; [done|]. exists w. by constructor.
Qed.

Lemma send_requests_spec G n s requests :
  SendInv G n s → n + Z.of_nat (length requests) ≤ u64_max → Forall request_ok requests →
  ∃ l s' (G' : gmap bytes bytes) n', send_requests requests s = (Ok tt, s') ∧ s_channel s' = s_channel s ++ l ∧ l.*1 = requests ∧
    G ⊆ G' ∧ n ≤ n' ≤ n + Z.of_nat (length requests) ∧ SendInv G' n' s' ∧ preserved Nothing s s' ∧
    (∀ k ev key, (k, ev, key) ∈ l → kind_ok k ∧ ∃ p w, key = get_prefix k ++ p ∧ ev = event_of p w ∧ stored s' key w).
Proof.
  intros H Hn Hreq.
  destruct (queue_requests_spec n G requests (s_db s)) as (batch & d' & n' & G' & E & Hall & Hc & Hn' & HG & Hok & Hqq & Hq & Ha & Hb);
    [apply H|done|apply H|apply H|done|].
  apply entry_for_messages in Hall as [Hl1 Hl2]. set (l := zip_with _ _ _) in *.
  exists l. eexists (mkSender d' (s_status s) (s_futures s) (s_channel s ++ l) (s_alive s)), G', n'.
  split; [unfold send_requests; run; unfold with_db; by rewrite E|]. split_and!; [done|done|done|lia|lia| | |].
  - constructor; cbn [s_db s_status s_futures s_channel s_alive]; try done; try apply H.
    + rewrite Ha. by etrans; [apply H|].
    + intros [[k ev] key] [Hm|Hm]%elem_of_app; [|by apply Hl2]. apply (message_ok_mono G); [done|]. by apply H.
    + intros k Hk. apply (KindInv_other s); try done; [|by apply H]. intros p. cbn [s_db]. by rewrite Ha.
  - intros k p w Hk [Hs|Hs]; left; [left|right; cbn; by rewrite Ha]. cbn. by eapply lookup_weaken.
  - intros k ev key Hin. destruct (Hl2 k ev key Hin) as ((Hk & p & w & Ek & HGk & Ev) & w' & Hw). split; [done|].
    exists p, w. split_and!; [done|done|]. left. cbn. apply Hb in Hw as Hw'. cbn in Hw'. rewrite Hw'.
    eapply lookup_weaken in Hw'; [|exact Hq]. congruence.
Qed.

(** ** Any step *)

Lemma send_op_requests op s : match op with Receive _ | Respond _ _ _ | Restart => True | _ => send_op op s = send_requests (requests_of op) s end.
Proof. by destruct op. Qed.

Lemma preserved_queued l s s' : preserved Nothing s s' → preserved (Queued l) s s'.
Proof. intros H k p w Hk Hs. destruct (H k p w Hk Hs) as [?|(? & ? & ?)]; [by left|done]. Qed.

Lemma send_step_spec G n s op a s' :
  SendInv G n s → send_op_ok op → n + Z.of_nat (length (requests_of op)) ≤ u64_max → send_step op s = (a, s') →
  ∃ (G' : gmap bytes bytes) n', G ⊆ G' ∧ n ≤ n' ≤ n + Z.of_nat (length (requests_of op)) ∧ SendInv G' n' s' ∧
    preserved a s s' ∧ queued_ok op a s'.
Proof.
  intros H Hok Hn E.
  assert (match op with Receive _ | Respond _ _ _ | Restart => False | _ => True end ∨
          match op with Receive _ | Respond _ _ _ | Restart => True | _ => False end) as [Hop|Hop] by (destruct op; tauto).
  - assert (send_step op s = (let '(r, s') := send_requests (requests_of op) s in (Queued (drop (length (s_channel s)) (s_channel s')), s'))) as E'
      by (by destruct op).
    destruct (send_requests_spec G n s (requests_of op)) as (l & s1 & G' & n' & E1 & Hch & Hl & HG & Hn' & Hinv & Hp & Hs);
      [done|done|by destruct op|].
    rewrite E', E1 in E. simplify_eq. exists G', n'. rewrite Hch, drop_app_length. split_and!; [done|lia|lia|done|by apply preserved_queued|done].
  - exists G, n. split; [done|]. split; [destruct op; try done; cbn; lia|]. destruct op as [| | | |now|i net now|]; try done.
    + destruct (receive_spec G n s now H) as (H1 & H2 & H3). rewrite E in *. cbn in *. by subst.
    + pose proof (respond_spec G n s i net now H) as Hr. rewrite E in Hr. destruct Hr as (H1 & H2 & [->|(k & evs & b & ->)]); done.
    + cbn in E. simplify_eq. destruct (restart_spec G n s H). done.
Qed.

(** ** Any trace *)

Fixpoint send_run (ops : list SendOp) (s : Sender) : list SendAnswer * Sender :=
  match ops with
  | [] => ([], s)
  | op :: ops => let '(a, s) := send_step op s in let '(log, s) := send_run ops s in (a :: log, s)
  end.

Definition requests_total (ops : list SendOp) : Z := Z.of_nat (length (concat (requests_of <$> ops))).

Lemma requests_total_cons op ops : requests_total (op :: ops) = Z.of_nat (length (requests_of op)) + requests_total ops.
Proof. unfold requests_total. rewrite fmap_cons. cbn [concat]. rewrite length_app. lia. Qed.

Lemma send_run_spec G n s ops log s' :
  SendInv G n s → Forall send_op_ok ops → n + requests_total ops ≤ u64_max → send_run ops s = (log, s') →
  ∃ (G' : gmap bytes bytes) n', SendInv G' n' s' ∧ n ≤ n' ≤ n + requests_total ops ∧
    ∀ k p w, kind_ok k → stored s (get_prefix k ++ p) w →
      stored s' (get_prefix k ++ p) w ∨ ∃ evs, (Finished k evs true ∈ log) ∧ (event_of p w ∈ evs).
Proof.
  revert G n s log. induction ops as [|op ops IH]; intros G n s log H Hok Hn E.
  { cbn in E. simplify_eq. exists G, n. split_and!; [done|lia|unfold requests_total; cbn; lia|]. intros k p w _ Hs. by left. }
  cbn [send_run] in E. destruct (send_step op s) as [a s1] eqn:Es. destruct (send_run ops s1) as [log1 s2] eqn:Er. simplify_eq.
  apply Forall_cons in Hok as [Hop Hok]. rewrite requests_total_cons in *. assert (0 ≤ requests_total ops) by (unfold requests_total; lia).
  destruct (send_step_spec G n s op a s1 H Hop ltac:(lia) Es) as (G1 & n1 & HG & Hn1 & H1 & Hp & _).
  destruct (IH G1 n1 s1 log1 H1 Hok ltac:(lia) Er) as (G2 & n2 & H2 & Hn2 & Hk2). exists G2, n2. split_and!; [done|lia|lia|].
  intros k p w Hk Hs. destruct (Hp k p w Hk Hs) as [Hs1|(evs & -> & Hin)].
  - destruct (Hk2 k p w Hk Hs1) as [?|(evs & Hf & Hin)]; [by left|]. right. exists evs. split; [by constructor|done].
  - right. exists evs. split; [by constructor|done].
Qed.

(** The first start, with nothing queued. *)
Lemma SendInv_start n d : count_is d n → queue d = ∅ → active d = ∅ → SendInv ∅ n (start d).2.
Proof.
  intros Hc Hq Ha. apply (restart_spec ∅ n (mkSender d ∅ [] [] false)). constructor; cbn [s_db s_status s_futures s_channel s_alive]; try done.
  - by rewrite Hq.
  - by rewrite Ha.
  - by intros m Hm%elem_of_nil.
  - constructor.
  - by intros k Hk%elem_of_nil.
  - intros k Hk. constructor; cbn [s_db s_status s_futures s_channel s_alive]; try done; [by intros evs Hin%elem_of_nil|].
    rewrite Ha. etrans; [apply (scan_prefix_length _ _ [])|cbn; lia]. done.
Qed.

Lemma requests_total_app ops1 ops2 : requests_total (ops1 ++ ops2) = requests_total ops1 + requests_total ops2.
Proof. unfold requests_total. rewrite fmap_app, concat_app, length_app. lia. Qed.

(** C16: no event is lost.  Take any trace from an empty queue: services queue
    events, the handler receives messages, transactions succeed, fail or
    panic, the server restarts, in any order.  Whatever a service queued is,
    at every later moment, still stored in the queue or the active tree, or it
    was part of a later transaction to its destination that succeeded; and no
    destination ever has two transactions in flight. *)
Theorem sending_at_least_once n d ops1 op ops2 log1 s1 a s2 log2 s3 :
  count_is d n → queue d = ∅ → active d = ∅ →
  Forall send_op_ok (ops1 ++ op :: ops2) → n + requests_total (ops1 ++ op :: ops2) ≤ u64_max →
  send_run ops1 (start d).2 = (log1, s1) → send_step op s1 = (a, s2) → send_run ops2 s2 = (log2, s3) →
  NoDup (s_futures s3).*1 ∧
  (requests_of op ≠ [] → ∃ l, a = Queued l ∧ l.*1 = requests_of op ∧
    ∀ k ev key, (k, ev, key) ∈ l →
      stored s3 key (value_of ev) ∨ ∃ evs, (Finished k evs true ∈ log2) ∧ (ev ∈ evs)).
Proof.
  intros Hc Hq Ha [Hok1 [Hop Hok2]%Forall_cons]%Forall_app Hn E1 E E2. rewrite requests_total_app, requests_total_cons in Hn.
  assert (0 ≤ requests_total ops2) by (unfold requests_total; lia).
  destruct (send_run_spec ∅ n _ ops1 log1 s1 (SendInv_start n d Hc Hq Ha) Hok1 ltac:(lia) E1) as (G1 & n1 & H1 & Hn1 & _).
  destruct (send_step_spec G1 n1 s1 op a s2 H1 Hop ltac:(lia) E) as (G2 & n2 & _ & Hn2 & H2 & _ & Hqueued).
  destruct (send_run_spec G2 n2 s2 ops2 log2 s3 H2 Hok2 ltac:(lia) E2) as (G3 & n3 & H3 & _ & Hkeep).
  split; [apply H3|]. intros Hne.
  assert (∃ l, a = Queued l) as [l ->].
  { destruct op; try done; cbn [send_step] in E; destruct (send_op _ _) as [r s']; simplify_eq; by eexists. }
  exists l. destruct Hqueued as [Hl Hin]. split_and!; [done|done|]. intros k ev key Hm.
  destruct (Hin k ev key Hm) as (Hk & p & w & -> & -> & Hs). rewrite value_of_event_of. by apply Hkeep.
Qed.

(** ** Draining *)

Lemma next_events_shrinks k d1 d2 :
  kind_ok k → next_events k d1 ≠ [] →
  (∀ key, queue d2 !! key = if decide (key ∈ (next_events k d1).*2) then None else queue d1 !! key) →
  (length (kv_scan_prefix (queue d2) (get_prefix k)) < length (kv_scan_prefix (queue d1) (get_prefix k)))%nat.
Proof.
  intros Hk Hne Hq. unfold next_events in *. rewrite queued_requests_spec in * by done. set (l := kv_scan_prefix (queue d1) _) in *.
  assert (∀ key, key ∈ l.*1 → key ∈ (take 30 ((λ e : entry, (event_of (payload k e.1) e.2, e.1)) <$> l)).*2 ∨ key ∈ (drop 30 l).*1) as Hsplit.
  { intros key. rewrite <-(take_drop 30 l) at 1. rewrite fmap_app, elem_of_app, <-fmap_take, <-list_fmap_compose. done. }
  apply (Nat.le_lt_trans _ (length (drop 30 l).*1)); [apply scan_prefix_length|].
  - intros key v Hkey. rewrite Hq. case_decide as Hd; [done|]. intros Hv. destruct (Hsplit key) as [?|?]; [|done..].
    apply list_elem_of_fmap. exists (key, v). split; [done|]. by apply elem_of_scan_prefix.
  - rewrite length_fmap, length_drop. destruct l as [|e l]; [done|]. cbn [length]. lia.
Qed.

Lemma next_events_nil k d p w : kind_ok k → next_events k d = [] → queue d !! (get_prefix k ++ p) = Some w → False.
Proof.
  intros Hk Hn Hp. unfold next_events in Hn. rewrite queued_requests_spec in Hn by done.
  assert ((get_prefix k ++ p, w) ∈ kv_scan_prefix (queue d) (get_prefix k)) as Hin by (apply elem_of_scan_prefix; split; [apply starts_with_app|done]).
  destruct (kv_scan_prefix (queue d) (get_prefix k)); [by apply elem_of_nil in Hin|done].
Qed.

(** The transactions that can follow [evs] to [k] succeed: their events are
    found, and the other side accepts them. *)
Definition accepts (net : Request (Registration := Registration) (Pusher := Pusher) (Ruleset := Ruleset) → res unit)
    (k : OutgoingKind) (evs : list SendingEventType) (s : Sender) : Prop :=
  ∀ d', send_frame (s_db s) d' → ∀ evs', evs' = evs ∨ (∀ ev, ev ∈ evs' → ∃ p w, stored s (get_prefix k ++ p) w ∧ ev = event_of p w) →
    (handle_events registration_of rules_of_event server_default sha256 url_safe_no_pad net k evs' d').1 = Ok tt.

Lemma respond_step net k evs s i now :
  s_alive s = true → s_futures s !! i = Some (k, evs) → accepts net k evs s →
  send_step (Respond i net now) s = (Finished k evs true, run_branch (on_response now k (Ok tt)) (set_futures (delete i (s_futures s)) s)).
Proof.
  intros Hal Hi Hacc. cbn [send_step]. rewrite Hal, Hi.
  pose proof (with_db_reads _ (handle_events_reads net k evs) (set_futures (delete i (s_futures s)) s)) as Hr.
  assert ((with_db (handle_events registration_of rules_of_event server_default sha256 url_safe_no_pad net k evs)
    (set_futures (delete i (s_futures s)) s)).1 = Ok tt) as Hok.
  { unfold with_db. cbn [s_db set_futures]. specialize (Hacc (s_db s) ltac:(by intros t _) evs ltac:(by left)). by destruct (handle_events _ _ _ _ _ _ _ _ _). }
  destruct (with_db _ _) as [r s1]. cbn [fst snd] in Hr, Hok. by subst.
Qed.

Lemma send_frame_trans d1 d2 d3 : send_frame d1 d2 → send_frame d2 d3 → send_frame d1 d3.
Proof. intros H1 H2 t Ht. by rewrite H2, H1. Qed.

(** The transaction after a success is accepted too. *)
Lemma accepts_next G net k evs s d1 d2 m fs c :
  kind_ok k → queue (s_db s) ⊆ G → accepts net k evs s → send_frame (s_db s) d1 → queue d1 = queue (s_db s) →
  (∀ key, active d1 !! key = if starts_with (get_prefix k) key then None else active (s_db s) !! key) → send_frame d1 d2 →
  (∀ key, active d2 !! key = if decide (key ∈ (next_events k d1).*2) then G !! key else active d1 !! key) →
  (∀ key, queue d2 !! key = if decide (key ∈ (next_events k d1).*2) then None else queue d1 !! key) →
  accepts net k (next_events k d1).*1 (mkSender d2 m fs c true).
Proof.
  intros Hk HqG Hacc Hf1 Hq1 Ha1 Hf2 Ha2 Hq2 d' Hd' evs' Hevs.
  assert (∀ ev key, (ev, key) ∈ next_events k d1 → ∃ p w, key = get_prefix k ++ p ∧ ev = event_of p w ∧ queue (s_db s) !! key = Some w) as Hnew
    by (intros ev key Hx; rewrite <-Hq1; by apply elem_of_next_events).
  apply Hacc; [by eapply send_frame_trans; [|eapply send_frame_trans]|]. right. intros ev Hev. destruct Hevs as [->|Hevs].
  - apply list_elem_of_fmap in Hev as ([ev' key] & -> & Hx). destruct (Hnew ev' key Hx) as (p & w & -> & -> & Hw). exists p, w. by split; [left|].
  - destruct (Hevs ev Hev) as (p & w & Hs & ->). exists p, w. split; [|done]. left. unfold stored in Hs. cbn [s_db] in Hs.
    rewrite Hq2, Ha2, Ha1, starts_with_app, Hq1 in Hs. case_decide as Hd; [|naive_solver]. destruct Hs as [|HG]; [done|].
    apply list_elem_of_fmap in Hd as ([ev' key] & Ek & Hx). destruct (Hnew ev' key Hx) as (p' & w' & Ek' & _ & Hw). cbn in Ek. subst key.
    eapply (lookup_weaken _ G) in Hw as HG'; [|done]. congruence.
Qed.

Lemma drain_spec net now k : kind_ok k → ∀ N G n s evs,
  (length (kv_scan_prefix (queue (s_db s)) (get_prefix k)) < N)%nat →
  SendInv G n s → s_alive s = true → (k, evs) ∈ s_futures s → accepts net k evs s →
  ∃ steps log s', send_run ((λ i, Respond i net now) <$> steps) s = (log, s') ∧ (length log ≤ N)%nat ∧
    (∀ a, a ∈ log → ∃ evs, a = Finished k evs true) ∧ s_status s' !! k = None ∧ (∀ p w, ¬ stored s' (get_prefix k ++ p) w).
Proof.
  intros Hk. induction N as [|N IH]; intros G n s evs HN H Hal Hin Hacc; [lia|].
  apply list_elem_of_lookup in Hin as [i Hi]. pose proof (respond_step net k evs s i now Hal Hi Hacc) as Es.
  destruct (respond_ok_spec G n s i now k evs H Hal Hi) as [H' _].
  destruct (delete_active_spec k (s_db s)) as (d1 & E1 & Hf1 & Hq1 & Ha1).
  assert (∀ ev key, (ev, key) ∈ next_events k d1 → ∃ p w, key = get_prefix k ++ p ∧ ev = event_of p w ∧ queue (s_db s) !! key = Some w) as Hnew
    by (intros ev key Hx; rewrite <-Hq1; by apply elem_of_next_events).
  destruct (mark_as_active_spec G (next_events k d1) d1) as (d2 & E2 & Hf2 & Ha2 & Hq2).
  { intros ev key (p & w & -> & -> & Hw)%Hnew. rewrite value_of_event_of. eapply lookup_weaken; [done|apply H]. }
  rewrite (on_response_ok now k _ d1 d2) in Es, H' by done. cbn [set_futures s_db s_status s_futures s_channel s_alive] in Es, H'. rewrite Hal in Es, H'.
  case_bool_decide as Hempty.
  - eexists [i], _, _. cbn [fmap list_fmap send_run]. rewrite Es. split_and!; [done|cbn; lia|by intros a ->%list_elem_of_singleton; eexists|by apply lookup_delete_eq|].
    intros p w [Hs|Hs]; [by apply (next_events_nil k d1 p w)|]. cbn in Hs. by rewrite Ha1, starts_with_app in Hs.
  - destruct (IH G n (mkSender d2 (s_status s) (delete i (s_futures s) ++ [(k, (next_events k d1).*1)]) (s_channel s) true) (next_events k d1).*1)
      as (steps & log & s' & Er & Hlen & Hlog & Hst & Hs'); cbn [s_db s_status s_futures s_channel s_alive];
      [|done|done|rewrite elem_of_app; right; by constructor| |].
    + pose proof (next_events_shrinks k d1 d2 Hk Hempty Hq2) as Hlt. rewrite Hq1 in Hlt. lia.
    + apply (accepts_next G net k evs s d1 d2); try done. apply H.
    + exists (i :: steps). eexists _, s'. rewrite fmap_cons. cbn [send_run]. rewrite Es, Er. split_and!; [done|cbn; lia| |done|done].
      intros a [->|Ha]%elem_of_cons; [by eexists|by apply Hlog].
Qed.

(** A destination that accepts its transactions catches up.  In any state
    the trace of a running handler reaches with a transaction to [k] in
    flight, as long as the transactions to [k] succeed, finitely many answers
    (at most one more than there are queued events) leave nothing stored for
    [k], and the destination idle. *)
Theorem sending_drains n d ops log s net now k evs :
  count_is d n → queue d = ∅ → active d = ∅ → Forall send_op_ok ops → n + requests_total ops ≤ u64_max →
  send_run ops (start d).2 = (log, s) → s_alive s = true → (k, evs) ∈ s_futures s → accepts net k evs s →
  ∃ steps log' s', send_run ((λ i, Respond i net now) <$> steps) s = (log', s') ∧
    (length log' ≤ 1 + length (kv_scan_prefix (queue (s_db s)) (get_prefix k)))%nat ∧
    (∀ a, a ∈ log' → ∃ evs, a = Finished k evs true) ∧ s_status s' !! k = None ∧ (∀ p w, ¬ stored s' (get_prefix k ++ p) w).
Proof.
  intros Hc Hq Ha Hok Hn E Hal Hin Hacc.
  destruct (send_run_spec ∅ n _ ops log s (SendInv_start n d Hc Hq Ha) Hok Hn E) as (G1 & n1 & H1 & Hn1 & _).
  apply (drain_spec net now k) with (G := G1) (n := n1) (evs := evs); try done; [|lia]. apply H1, list_elem_of_fmap. by exists (k, evs).
Qed.
End trace.

(** * A concrete trace *)

(** The parameters of a small server. *)
Definition sample_run (ops : list (SendOp (Registration := unit) (Pusher := unit) (Ruleset := unit))) (s : Sender) : list SendAnswer * Sender :=
  send_run (RU := sample_ruma) (HO := elements_order) (ReceiptData := unit) (λ _, None) (λ _, []) (Obj := bytes) (JO := json_countable bytes) (λ _ o, o)
    (lit "a.org") (JP := json_countable PduEvent) (JV := json_countable Value) (JR := json_countable RedactionContent)
    (JF := json_countable (list (bytes * Value))) (JPu := json_countable unit) (λ _, None) (λ _, None) (λ _, ()) (λ b, b) (λ b, b) ops s.

Definition sample_pdu_id : bytes := replicate 16 1.

Definition sample_before : list (SendOp (Registration := unit) (Pusher := unit) (Ruleset := unit)) :=
  [SendReliableEdu (lit "b.org") (lit "{}"); Receive 0].

Definition sample_later : list (SendOp (Registration := unit) (Pusher := unit) (Ruleset := unit)) :=
  [Receive 1; Respond 0 (λ _, Err (BadServerResponse "down")) 2; Restart; Respond 0 (λ _, Ok tt) 3].

Lemma sample_ops_ok : Forall (send_op_ok (RU := sample_ruma)) (sample_before ++ SendPdu [lit "b.org"] sample_pdu_id :: sample_later).
Proof.
  unfold sample_before, sample_later. cbn [app].
  repeat (apply Forall_cons; split); try apply Forall_nil; try done; (split; [by split_and!|]); cbn; first [done|lia].
Qed.

Lemma sending_at_least_once_witness :
  let s1 := (sample_run sample_before (start (RU := sample_ruma) empty_db).2).2 in
  let s2 := (sample_run [SendPdu [lit "b.org"] sample_pdu_id] s1).2 in
  let key := get_prefix (Normal (lit "b.org")) ++ sample_pdu_id in
  stored (sample_run sample_later s2).2 key [] ∨
  ∃ evs, (Finished (Normal (lit "b.org")) evs true ∈ (sample_run sample_later s2).1) ∧ (SPdu sample_pdu_id ∈ evs).
Proof.
  intros s1 s2 key. set (r := sample_run sample_later s2).
  destruct (sending_at_least_once (RU := sample_ruma) (HO := elements_order) (ReceiptData := unit) (λ _, None) (λ _, []) (Obj := bytes) (JO := json_countable bytes) (λ _ o, o)
    (lit "a.org") (JP := json_countable PduEvent) (JV := json_countable Value) (JR := json_countable RedactionContent)
    (JF := json_countable (list (bytes * Value))) (JPu := json_countable unit) (λ _, None) (λ _, None) (λ _, ()) (λ b, b) (λ b, b)
    0 empty_db sample_before (SendPdu [lit "b.org"] sample_pdu_id) sample_later
    (sample_run sample_before (start (RU := sample_ruma) empty_db).2).1 s1
    (Queued [(Normal (lit "b.org"), SPdu sample_pdu_id, key)]) s2 r.1 r.2) as [_ H].
  - apply empty_db_count.
  - done.
  - done.
  - apply sample_ops_ok.
  - done.
  - apply surjective_pairing.
  - apply injective_projections; [by vm_compute|done].
  - apply surjective_pairing.
  - destruct (H ltac:(done)) as (l & [= <-] & _ & Hl). apply (Hl (Normal (lit "b.org")) (SPdu sample_pdu_id) key). by constructor.
Defined.

(** Every transaction of EDUs is accepted by a network that accepts. *)
Lemma federation_edus {RU : Ruma} `{JV : !Json Value, JF : !Json (list (bytes * Value))} evs acc d :
  (∀ ev, ev ∈ evs → ∃ w, ev = SEdu w) → ∃ acc', foldM federation_event acc evs d = (Ok acc', d).
Proof.
  revert acc. induction evs as [|ev evs IH]; intros [pdus edus] H; [by eexists|]. destruct (H ev) as [w ->]; [by constructor|].
  cbn [foldM]. erewrite bind_ok by done. apply IH. intros ev Hev. apply H. by constructor.
Qed.

Lemma sending_drains_witness :
  let s := (sample_run sample_before (start (RU := sample_ruma) empty_db).2).2 in
  ∃ steps log' s', sample_run ((λ i, Respond i (λ _, Ok tt) 1) <$> steps) s = (log', s') ∧ (length log' ≤ 1)%nat ∧
    (∀ a, a ∈ log' → ∃ evs, a = Finished (Normal (lit "b.org")) evs true) ∧ s_status s' !! Normal (lit "b.org") = None ∧
    (∀ p w, ¬ stored s' (get_prefix (Normal (lit "b.org")) ++ p) w).
Proof.
  cbv zeta. set (s := (sample_run sample_before (start (RU := sample_ruma) empty_db).2).2).
  apply (sending_drains (RU := sample_ruma) (HO := elements_order) (ReceiptData := unit) (λ _, None) (λ _, []) (Obj := bytes) (JO := json_countable bytes) (λ _ o, o)
    (lit "a.org") (JP := json_countable PduEvent) (JV := json_countable Value) (JR := json_countable RedactionContent)
    (JF := json_countable (list (bytes * Value))) (JPu := json_countable unit) (λ _, None) (λ _, None) (λ _, ()) (λ b, b) (λ b, b)
    0 empty_db sample_before (sample_run sample_before (start (RU := sample_ruma) empty_db).2).1 s (λ _, Ok tt) 1 (Normal (lit "b.org")) [SEdu (lit "{}")]).
  - apply empty_db_count.
  - done.
  - done.
  - apply (proj1 (Forall_app _ _ _) sample_ops_ok).
  - done.
  - apply surjective_pairing.
  - by vm_compute.
  - assert (s_futures s = [(Normal (lit "b.org"), [SEdu (lit "{}")])]) as -> by (by vm_compute). by constructor.
  - intros d' _ evs' Hevs.
    assert (∀ ev, ev ∈ evs' → ∃ w, ev = SEdu w) as Hedu.
    { destruct Hevs as [->|Hevs]; [intros ev ->%list_elem_of_singleton; by eexists|]. intros ev Hev. destruct (Hevs ev Hev) as (p & w & Hs & ->).
      unfold stored in Hs. assert (queue (s_db s) = ∅) as Eq by (by vm_compute).
      assert (active (s_db s) = {[ get_prefix (Normal (lit "b.org")) ++ to_be_bytes 1 := lit "{}" ]}) as Ea by (by vm_compute).
      rewrite Eq, Ea, lookup_empty in Hs. destruct Hs as [|[_ <-]%lookup_singleton_Some]; [done|]. by eexists. }
    unfold handle_events. destruct (federation_edus (RU := sample_ruma) (JV := json_countable Value) (JF := json_countable (list (bytes * Value))) evs' ([], []) d' Hedu) as [[pdus edus] E].
    by rewrite (bind_ok _ _ _ _ _ E).
Defined.
