(* ===== verification/StateAccess.v ===== *)
(** * StateAccess: what the services read from the room state

    [server/src/service/rooms/state_accessor/mod.rs] and the readers of
    [server/src/service/rooms/state/mod.rs]: memberships and history visibility
    at an event's state, power levels, join rules, stripped state and the auth
    events of a new event.  The contents of state events are ruma's types; what
    parsing a content text gives is a parameter. *)
From S2P Require Import Prelude Bytes JsonValue KvTree Pdu Database Short StateCompressor RoomState StateCache.
From S2P Require Import Timeline PduJson Devices UserKeys AuthChain.

(** * Contents of state events *)

Inductive MembershipState :=
  | Ban
  | Invite
  | Join
  | Knock
  | Leave
  | CustomMembership (s : bytes).

Inductive HistoryVisibility :=
  | HInvited
  | HJoined
  | HShared
  | HWorldReadable
  | HCustom (s : bytes).

Inductive AllowRule :=
  | AllowRoomMembership (room_id : bytes)
  | AllowOther.

Inductive JoinRule :=
  | JInvite
  | JKnock
  | JPrivate
  | JPublic
  | JRestricted (allow : list AllowRule)
  | JKnockRestricted (allow : list AllowRule)
  | JCustom (s : bytes).

#[global] Instance MembershipState_eq_dec : EqDecision MembershipState.
Proof. solve_decision. Defined.

#[global] Instance HistoryVisibility_eq_dec : EqDecision HistoryVisibility.
Proof. solve_decision. Defined.

(** [RoomCreateEventContent]: the version and the predecessor room. *)
Record CreateContent := mkCreate {
  cc_room_version : bytes;
  cc_predecessor : option bytes;
}.

(** What [serde_json::from_str] makes of a content. *)
Class Contents := {
  membership_of : bytes → option MembershipState;
  history_visibility_of : bytes → option HistoryVisibility;
  join_rule_of : bytes → option JoinRule;
  guest_can_join_of : bytes → option bool;
  room_name_of : bytes → option bytes;
  create_of : bytes → option CreateContent;
}.

(** Room versions and power levels (ruma): the rules of a version, and the
    levels of a room from its content, its rules and its creators. *)
Class RoomVersions := {
  AuthRules : Type;
  RedactRules : Type;
  authorization_rules : bytes → option AuthRules;
  redaction_rules : bytes → option RedactRules;
  content_field_redacts : RedactRules → bool;
  room_create_event_id_as_room_id : AuthRules → bool;
  LevelsContent : Type;
  Creators : Type;
  PowerLevels : Type;
  levels_of : bytes → option LevelsContent;
  create_room_version : PduEvent → option bytes;
  create_creators : PduEvent → AuthRules → option Creators;
  power_levels_new : option LevelsContent → AuthRules → Creators → PowerLevels;
  user_can_redact_event_of_other : PowerLevels → bytes → bool;
  user_can_redact_own_event : PowerLevels → bytes → bool;
}.

Section state_access.
Context {RU : Ruma} {LR : LruCache} {HO : HashOrder} {CT : Contents} {RV : RoomVersions}.
Context `{JP : !Json PduEvent}.

(** * Lookups with a content *)

(** [map_or(Ok(missing), parse the content)]. *)
Definition content_or {A} (missing : A) (parse : bytes → option A) (msg : string) (o : option PduEvent) : res A :=
  match o with
  | None => Ok missing
  | Some s => ok_or (parse (pdu_content s)) (BadDatabase msg)
  end.

(** Get membership for given user in state. *)
Definition user_membership (shortstatehash : Z) (user_id : bytes) : M Db MembershipState :=
  o ← state_get shortstatehash (lit "m.room.member") user_id;
  lift (content_or Leave membership_of "Invalid room membership event in database." o).

(** The user was a joined member at this state. *)
Definition user_was_joined (shortstatehash : Z) (user_id : bytes) : M Db bool :=
  r ← try_ok (user_membership shortstatehash user_id);
  mret (bool_decide (r = Some Join)).

(** The user was an invited or joined room member at this state. *)
Definition user_was_invited (shortstatehash : Z) (user_id : bytes) : M Db bool :=
  r ← try_ok (user_membership shortstatehash user_id);
  mret (bool_decide (r = Some Join ∨ r = Some Invite)).

Definition history_visibility (o : option PduEvent) : res HistoryVisibility :=
  content_or HShared history_visibility_of "Invalid history visibility event in database." o.

(** ** Visibility, with its two caches *)

Record Access := mkAccess {
  a_db : Db;
  server_visibility_cache : gmap (bytes * Z) bool;
  user_visibility_cache : gmap (bytes * Z) bool;
}.

Definition acc {A} (m : M Db A) : M Access A := λ a,
  let '(r, d) := m (a_db a) in (r, mkAccess d (server_visibility_cache a) (user_visibility_cache a)).

(** [Iterator::any]: stops at the first success. *)
Fixpoint any_member (check : bytes → M Db bool) (members : list bytes) : M Db bool :=
  match members with
  | [] => mret false
  | member :: members =>
      b ← check member;
      if (b : bool) then mret true else any_member check members
  end.

(** Whether a server is allowed to see an event through federation. *)
Definition server_can_see_event (origin room_id event_id : bytes) : M Access bool :=
  o ← acc (pdu_shortstatehash event_id);
  match o with
  | None => mret true
  | Some shortstatehash =>
      cached ← gets (λ a, Ok (server_visibility_cache a !! (origin, shortstatehash)));
      match cached with
      | Some visibility => mret visibility
      | None =>
          ev ← acc (state_get shortstatehash (lit "m.room.history_visibility") []);
          history_visibility ← lift (history_visibility ev);
          current_server_members ← gets (λ a,
            Ok (bfilter (λ member, bool_decide (server_name_of member = origin)) (oks (room_members room_id (a_db a)))));
          visibility ← match history_visibility with
            | HWorldReadable | HShared => mret true
            | HInvited => acc (any_member (user_was_invited shortstatehash) current_server_members)
            | HJoined => acc (any_member (user_was_joined shortstatehash) current_server_members)
            | HCustom _ => mret false
            end;
          modify (λ a, mkAccess (a_db a) (lru_insert (origin, shortstatehash) visibility (server_visibility_cache a))
                         (user_visibility_cache a));;
          mret visibility
      end
  end.

(** Whether a user is allowed to see an event, based on the room's
    history_visibility at that event's state. *)
Definition user_can_see_event (user_id room_id event_id : bytes) : M Access bool :=
  o ← acc (pdu_shortstatehash event_id);
  match o with
  | None => mret true
  | Some shortstatehash =>
      cached ← gets (λ a, Ok (user_visibility_cache a !! (user_id, shortstatehash)));
      match cached with
      | Some visibility => mret visibility
      | None =>
          currently_member ← acc (is_joined user_id room_id);
          ev ← acc (state_get shortstatehash (lit "m.room.history_visibility") []);
          history_visibility ← lift (history_visibility ev);
          visibility ← match history_visibility with
            | HWorldReadable => mret true
            | HShared => mret currently_member
            | HInvited => acc (user_was_invited shortstatehash user_id)
            | HJoined => acc (user_was_joined shortstatehash user_id)
            | HCustom _ => mret false
            end;
          modify (λ a, mkAccess (a_db a) (server_visibility_cache a)
                         (lru_insert (user_id, shortstatehash) visibility (user_visibility_cache a)));;
          mret visibility
      end
  end.

Definition user_can_see_state_events (user_id room_id : bytes) : M Db bool :=
  currently_member ← is_joined user_id room_id;
  ev ← room_state_get room_id (lit "m.room.history_visibility") [];
  history_visibility ← lift (history_visibility ev);
  mret (currently_member || bool_decide (history_visibility = HWorldReadable)).

(** ** Single settings of a room *)

Definition get_name (room_id : bytes) : M Db (option bytes) :=
  o ← room_state_get room_id (lit "m.room.name") [];
  lift (content_or None (λ c, Some <$> room_name_of c) "Invalid room name event in database." o).

(** Checks if guests are able to join a given room. *)
Definition guest_can_join (room_id : bytes) : M Db bool :=
  o ← room_state_get room_id (lit "m.room.guest_access") [];
  lift (content_or false guest_can_join_of "Invalid room guest access event in database." o).

(** Checks if guests are able to view room content without joining. *)
Definition world_readable (room_id : bytes) : M Db bool :=
  o ← room_state_get room_id (lit "m.room.history_visibility") [];
  lift (content_or false (λ c, (λ h, bool_decide (h = HWorldReadable)) <$> history_visibility_of c)
    "Invalid room history visibility event in database." o).

(** Returns an empty vec if not a restricted room. *)
Definition allowed_room_ids (join_rule : JoinRule) : list bytes :=
  match join_rule with
  | JRestricted allow | JKnockRestricted allow =>
      omap (λ rule, match rule with AllowRoomMembership membership => Some membership | AllowOther => None end) allow
  | _ => []
  end.

(** Returns the join rules of a room, if there are any. *)
Definition get_join_rules (room_id : bytes) : M Db (option JoinRule) :=
  o ← room_state_get room_id (lit "m.room.join_rules") [];
  lift (content_or None (λ c, Some <$> join_rule_of c) "Invalid join rules event in db." o).

(** Returns the space-room join rule for a given room (its summary is the rule
    itself here). *)
Definition get_space_room_join_rule (current_room : bytes) : M Db (JoinRule * list bytes) :=
  o ← room_state_get current_room (lit "m.room.join_rules") [];
  lift (content_or (JInvite, []) (λ c, (λ r, (r, allowed_room_ids r)) <$> join_rule_of c)
    "Invalid room join rule event in database." o).

(** Returns the room's version. *)
Definition get_room_version (room_id : bytes) : M Db bytes :=
  create_event ← room_state_get room_id (lit "m.room.create") [];
  content ← lift (map_transpose (λ e, ok_or (create_of (pdu_content e)) (BadDatabase "Invalid create event in db.")) create_event);
  lift (cc_room_version <$> ok_or content (BadRequest InvalidParam "No create event found")).

(** ** Power levels *)

(** The effective power levels of a room. *)
Definition power_levels (room_id : bytes) : M Db PowerLevels :=
  ev ← room_state_get room_id (lit "m.room.power_levels") [];
  levels ← lift (map_transpose (λ e, ok_or (levels_of (pdu_content e)) (BadDatabase "invalid m.room.power_levels event.")) ev);
  create ← room_state_get room_id (lit "m.room.create") [];
  room_create ← lift (ok_or create (BadDatabase "Found room without m.room.create event."));
  room_version ← lift (ok_or (create_room_version room_create) (BadDatabase "Room Create content had invalid room version"));
  rules ← lift (expect (authorization_rules room_version));
  creators ← lift (ok_or (create_creators room_create rules) (BadDatabase "RoomCreateEvent has invalid creators"));
  mret (power_levels_new levels rules creators).

(** Checks if a given user can redact a given event. *)
Definition user_can_redact (redacts sender room_id : bytes) (federation : bool) : M Db bool :=
  levels ← power_levels room_id;
  if user_can_redact_event_of_other levels sender then mret true
  else if user_can_redact_own_event levels sender then
    r ← try_ok (get_pdu redacts);
    match r with
    | Some (Some pdu) =>
        mret (if federation then bool_decide (server_name_of (pdu_sender pdu) = server_name_of sender)
              else bool_decide (pdu_sender pdu = sender))
    | _ => mret false
    end
  else mret false.

(** ** Stripped state *)

Context `{JV : !Json Value} `{JR : !Json RedactionContent} `{JF : !Json (list (bytes * Value))}.
(** ruma's [RECOMMENDED_STRIPPED_STATE_EVENT_TYPES]. *)
Context (stripped_types : list bytes).

Definition stripped_state_client (room_id : bytes) : M Db (list Value) :=
  foldM (λ state state_event_type,
    o ← room_state_get room_id state_event_type [];
    match o with
    | None => mret state
    | Some e => v ← lift (to_stripped_state_event e); mret (state ++ [v])
    end) [] stripped_types.

Definition stripped_state_federation (room_id : bytes) : M Db (list (list (bytes * Value))) :=
  foldM (λ state state_event_type,
    o ← room_state_get_id room_id state_event_type [];
    match o with
    | None => mret state
    | Some e =>
        json ← get_pdu_json e;
        pdu ← lift (expect json);
        mret (state ++ [convert_to_outgoing_federation_event pdu])
    end) [] stripped_types.

(** ** Auth events *)

(** ruma's [auth_types_for_event]; [None] when the content is no object. *)
Context (auth_types_for_event : bytes → bytes → option bytes → bytes → AuthRules → option (list (bytes * bytes))).

(** The short state keys of the auth types, each with its type. *)
Definition short_auth_types (types : list (bytes * bytes)) : M Db (gmap Z (bytes * bytes)) :=
  foldM (λ sauthevents '(event_type, state_key),
    o ← try_ok (get_shortstatekey event_type state_key);
    mret (match o with Some (Some s) => <[s := (event_type, state_key)]> sauthevents | _ => sauthevents end)) ∅ types.

(** One entry of the state: an auth event, if its key is still wanted. *)
Definition take_auth_event (st : gmap Z (bytes * bytes) * gmap (bytes * bytes) PduEvent) (compressed : bytes)
    : M Db (gmap Z (bytes * bytes) * gmap (bytes * bytes) PduEvent) :=
  let '(sauthevents, found) := st in
  r ← try_ok (parse_compressed_state_event compressed);
  match r with
  | None => mret st
  | Some (shortstatekey, event_id) =>
      match sauthevents !! shortstatekey with
      | None => mret st
      | Some k =>
          let sauthevents := delete shortstatekey sauthevents in
          o ← try_ok (get_pdu event_id);
          mret (match o with Some (Some pdu) => (sauthevents, <[k := pdu]> found) | _ => (sauthevents, found) end)
      end
  end.

(** This fetches auth events from the current state. *)
Definition get_auth_events (room_id kind sender : bytes) (state_key : option bytes) (content : bytes) (auth_rules : AuthRules)
    : M Db (gmap (bytes * bytes) PduEvent) :=
  o ← get_room_shortstatehash room_id;
  match o with
  | None => mret ∅
  | Some shortstatehash =>
      auth_events ← lift (expect (auth_types_for_event kind sender state_key content auth_rules));
      let auth_events := if room_create_event_id_as_room_id auth_rules then auth_events ++ [(lit "m.room.create", [])] else auth_events in
      sauthevents ← short_auth_types auth_events;
      full_state ← load_full_state shortstatehash;
      '(_, found) ← foldM take_auth_event (sauthevents, ∅) (hash_iter full_state);
      mret found
  end.
End state_access.

(** * Lemmas *)

(** The event of a state under a key, if any. *)
Definition no_entry (d : Db) (st : gset bytes) (t k : bytes) : Prop :=
  ∀ sk x, kv d statekey_shortstatekey !! statekey_bytes t k = Some (to_be_bytes sk) → x ∈ st → take 8 x ≠ to_be_bytes sk.

Definition state_id `{Ruma} (d : Db) (st : gset bytes) (t k : bytes) (o : option bytes) : Prop :=
  match o with
  | Some id => has_entry d st t k id ∧ utf8_valid id = true ∧ event_id_ok id = true
  | None => no_entry d st t k
  end.

Section lookups.
Context {RU : Ruma} {LR : LruCache} {HO : HashOrder} {JP : Json PduEvent} (sha256 : bytes → bytes).

Definition state_event (d : Db) (st : gset bytes) (t k : bytes) (o : option PduEvent) : Prop :=
  match o with
  | Some p => ∃ id, state_id d st t k (Some id) ∧ stored d id = Ok (Some p)
  | None => no_entry d st t k
  end.

(** The lookups work: states are consistent and the cache of events is true. *)
Definition View (d : Db) (n : Z) : Prop := CompInv sha256 d n ∧ PduCacheInv d.

Lemma state_id_kv d d' st t k o : kv d' = kv d → state_id d st t k o → state_id d' st t k o.
Proof. unfold state_id, has_entry, no_entry. by intros ->. Qed.

Lemma stored_kv d d' id : kv d' = kv d → stored d' id = stored d id.
Proof. intros E. apply stored_same. intros t _. by rewrite E. Qed.

Lemma state_event_kv d d' st t k o : kv d' = kv d → state_event d st t k o → state_event d' st t k o.
Proof.
  intros E. destruct o as [p|]; [|by apply (state_id_kv d d' st t k None)]. intros (id & Hid & Hs).
  exists id. split; [by eapply state_id_kv|]. by rewrite (stored_kv d).
Qed.

Lemma PduCacheInv_kv d d' : kv d' = kv d → pdu_cache d' = pdu_cache d → PduCacheInv d → PduCacheInv d'.
Proof. intros E Ec H e p. rewrite Ec. intros Hp. rewrite (stored_kv d) by done. by apply H. Qed.

Lemma CompInv_pdu_cache d n c : CompInv sha256 d n → CompInv sha256 (set_pdu_cache c d) n.
Proof.
  assert (kv d shortstatehash_statediff ⊆ kv (set_pdu_cache c d) shortstatehash_statediff) as Hsub by done.
  intros [[H1 H2 H3 H4] H5]. split; [split|].
  - by apply ShortInv_pdu_cache.
  - by eapply cache_ok_eq.
  - intros k v Hk. destruct (H3 k v Hk) as (s & st & ? & ? & ?). exists s, st. split_and!; [done|lia|lia|by eapply state_of_mono].
  - intros r b Hr. destruct (H4 r b Hr) as (s & st & ? & ? & ?). exists s, st. split_and!; [done|lia|lia|by eapply state_of_mono].
  - intros h b Hh. eapply hash_ok_mono; [done|done|by apply H5].
Qed.

Lemma get_pdu_view d n e : View d n → ∃ d', get_pdu e d = (stored d e, d') ∧ View d' n ∧ kv d' = kv d.
Proof.
  intros [H1 H2]. destruct (get_pdu_spec d e H2) as (c & E & H2'). exists (set_pdu_cache c d).
  split_and!; [done|split; [by apply CompInv_pdu_cache|done]|done].
Qed.

Lemma state_get_id_run d n s st t k o :
  CompInv sha256 d n → state_of d s st → keyed st → state_id d st t k o →
  ∃ d', state_get_id s t k d = (Ok o, d') ∧ CompInv sha256 d' n ∧ kv d' = kv d.
Proof.
  intros HI Hst Hkey Ho. unfold state_get_id. pose proof (CompPre_u64 _ _ (proj1 HI)) as Hu.
  destruct (get_shortstatekey_spec d n t k (ci_short _ _ (proj1 HI))) as (os & d1 & Hg & Hos & Hon & Hkv1 & Hstep).
  assert (CompInv sha256 d1 n) as HI1 by (eapply CompInv_step; [done..|by rewrite Hkv1]).
  rewrite (bind_ok _ _ _ _ _ Hg). destruct os as [sk'|]; cbn in Hos.
  2: { exists d1. destruct o as [id|]; [|done]. destruct Ho as ((sk & se & _ & _ & Hk & _) & _). congruence. }
  destruct (load_full_state_spec sha256 d1 n s st HI1) as (d2 & Hl & HI2 & Hkv2); [eapply state_of_mono; [|done]; by rewrite Hkv1|].
  rewrite (bind_ok _ _ _ _ _ Hl). destruct o as [id|].
  - destruct Ho as ((sk & se & Hsk & Hse & Hk & He & Hin) & Hutf & Hid).
    assert (sk' = sk) as ->.
    { rewrite Hk in Hos. apply (inj Some) in Hos. symmetry. specialize (Hon _ eq_refl).
      apply to_be_bytes_inj; [by apply is_short_u64|unfold is_u64 in *; lia|done]. }
    rewrite (find_statekey_keyed sk st (to_be_bytes sk ++ to_be_bytes se)); [|done|done|by rewrite take_app_length' by (by rewrite length_to_be_bytes)].
    destruct (parse_compressed_spec sha256 d2 n sk se id HI2 Hsk Hse Hutf Hid) as (d3 & Hp & HI3 & Hkv3); [by rewrite Hkv2, Hkv1|].
    exists d3. unfold try_ok. run. rewrite Hp. split_and!; [done|done|congruence].
  - rewrite (proj2 (find_statekey_None sk' st)) by (intros x Hx; by apply Ho). exists d2. split_and!; [done|done|congruence].
Qed.

Lemma keeps_load_info_pdus s : keeps_field pdu_cache (load_shortstatehash_info s).
Proof.
  assert (∀ fuel s, keeps_field pdu_cache (load_info fuel s)) as Hl; [|intros d; apply Hl].
  intros fuel. induction fuel as [|fuel IH]; intros s'; cbn [load_info]; [apply keeps_lift|]. unfold get_statediff. keeps.
Qed.
#[local] Hint Resolve keeps_load_info_pdus : keeps.

Lemma keeps_load_full_state s : keeps_field pdu_cache (load_full_state s).
Proof. unfold load_full_state. keeps. Qed.

Lemma keeps_state_get_id s t k : keeps_field pdu_cache (state_get_id s t k).
Proof. unfold state_get_id, get_shortstatekey, load_full_state, parse_compressed_state_event, get_eventid_from_short. keeps. Qed.

Lemma state_get_view d n s st t k o :
  View d n → state_of d s st → keyed st → state_event d st t k o →
  ∃ d', state_get s t k d = (Ok o, d') ∧ View d' n ∧ kv d' = kv d.
Proof.
  intros [HI HP] Hst Hkey Ho. 
  assert (∃ oi, state_id d st t k oi ∧ match oi with Some id => stored d id = Ok o | None => o = None end) as (oi & Hid & Hs).
  { destruct o as [p|]; [|by exists None]. destruct Ho as (id & Hid & Hs). by exists (Some id). }
  destruct (state_get_id_run d n s st t k oi HI Hst Hkey Hid) as (d1 & E & HI1 & Hkv1).
  pose proof (keeps_state_get_id s t k d) as Hc. rewrite E in Hc. cbn [snd] in Hc.
  assert (View d1 n) as HV1 by (split; [done|by eapply PduCacheInv_kv]).
  unfold state_get. rewrite (bind_ok _ _ _ _ _ E). destruct oi as [id|]; [|subst; by exists d1].
  destruct (get_pdu_view d1 n id HV1) as (d2 & E2 & HV2 & Hkv2). exists d2. rewrite E2, (stored_kv d) by done. rewrite Hs.
  split_and!; [done|done|congruence].
Qed.
End lookups.

(** * Auth events *)

(** An entry of a state and its event. *)
Definition entry_event `{Ruma, LruCache, Json PduEvent} (d : Db) (x : bytes) (sk : Z) (p : PduEvent) : Prop :=
  ∃ se id, is_short sk ∧ is_short se ∧ x = to_be_bytes sk ++ to_be_bytes se ∧
    kv d eventid_shorteventid !! id = Some (to_be_bytes se) ∧ utf8_valid id = true ∧ event_id_ok id = true ∧ stored d id = Ok (Some p).

Section auth_events.
Context {RU : Ruma} {LR : LruCache} {HO : HashOrder} {JP : Json PduEvent} (sha256 : bytes → bytes).

Lemma entry_event_kv d d' x sk p : kv d' = kv d → entry_event d x sk p → entry_event d' x sk p.
Proof. intros E (se & id & ? & ? & ? & ? & ? & ? & ?). exists se, id. rewrite (stored_kv d), E by done. done. Qed.

Lemma entry_event_key d x sk p : entry_event d x sk p → take 8 x = to_be_bytes sk.
Proof. intros (se & id & _ & _ & -> & _). by rewrite take_app_length' by (by rewrite length_to_be_bytes). Qed.

Lemma short_event_inj d n e e' s :
  CompInv sha256 d n → is_short s → kv d eventid_shorteventid !! e = Some (to_be_bytes s) →
  kv d eventid_shorteventid !! e' = Some (to_be_bytes s) → e = e'.
Proof.
  intros HI Hs H1 H2. eapply (short_maps_inj _ _ n); [apply si_events, (proj1 HI)|by eapply CompPre_u64, HI|exact H1|exact H2|done].
Qed.

Lemma entry_event_fun d n x sk p sk' p' :
  CompInv sha256 d n → entry_event d x sk p → entry_event d x sk' p' → sk = sk' ∧ p = p'.
Proof.
  intros HI (se & id & Hsk & Hse & -> & He & _ & _ & Hp) (se' & id' & Hsk' & Hse' & E & He' & _ & _ & Hp').
  apply app_inj_1 in E as [E1 E2]; [|by rewrite !length_to_be_bytes].
  apply to_be_bytes_inj in E1 as ->, E2 as ->; [|by apply is_short_u64..]. split; [done|].
  assert (id = id') as -> by (by eapply short_event_inj). congruence.
Qed.

(** The wanted keys: the short key of each auth type that has one. *)
Definition wanted (d : Db) (types : list (bytes * bytes)) (W : gmap Z (bytes * bytes)) : Prop :=
  ∀ s t k, W !! s = Some (t, k) ↔ (t, k) ∈ types ∧ is_u64 s ∧ kv d statekey_shortstatekey !! statekey_bytes t k = Some (to_be_bytes s).

Lemma short_auth_types_spec d n types :
  View sha256 d n → Forall (λ tk, no_ff tk.1) types →
  ∃ W d', short_auth_types types d = (Ok W, d') ∧ wanted d types W ∧ View sha256 d' n ∧ kv d' = kv d.
Proof.
  intros HV Hnf. destruct (foldM_inv (λ l W d1, wanted d l W ∧ View sha256 d1 n ∧ kv d1 = kv d)
    (λ sauthevents '(event_type, state_key),
      o ← try_ok (get_shortstatekey event_type state_key);
      mret (match o with Some (Some s) => <[s := (event_type, state_key)]> sauthevents | _ => sauthevents end))
    (∅ : gmap Z (bytes * bytes)) types d) as (W & d' & E & HW & HV' & Hkv); [| |by exists W, d'].
  { split_and!; [|done|done]. intros s t k. rewrite lookup_empty, elem_of_nil. naive_solver. }
  intros l1 [t k] l2 W d1 El (HW & [HI1 HP1] & Hkv1). rewrite El in Hnf. apply Forall_app in Hnf as [Hnf1 [Hnf _]%Forall_cons].
  destruct (get_shortstatekey_spec d1 n t k (ci_short _ _ (proj1 HI1))) as (os & d2 & Hg & Hos & Hon & Hkv2 & Hstep).
  assert (CompInv sha256 d2 n) as HI2 by (eapply CompInv_step; [done..|by rewrite Hkv2]).
  assert (pdu_cache d2 = pdu_cache d1) as Hc.
  { assert (keeps_field pdu_cache (get_shortstatekey t k)) as H by (unfold get_shortstatekey; keeps). specialize (H d1). by rewrite Hg in H. }
  eexists _, d2. split; [unfold try_ok; run; by rewrite Hg|]. split_and!; [|split; [done|by eapply PduCacheInv_kv]|congruence].
  pose proof (CompPre_u64 _ _ (proj1 HI1)) as Hu. rewrite Hkv1 in Hos. intros s t' k'. rewrite elem_of_app, list_elem_of_singleton.
  destruct os as [s0|]; cbn in Hos; [|rewrite (HW s t' k'); split; [naive_solver|]; intros ([Hin|[= -> ->]] & Hs & Hk); [done|congruence]].
  specialize (Hon _ eq_refl). rewrite lookup_insert. case_decide as Hd.
  - subst s0. split; [intros [= <- <-]; split_and!; [by right|unfold is_u64 in *; lia|done]|].
    intros (Hin & _ & Hk). f_equal. assert (no_ff t') as Hnf'
      by (destruct Hin as [Hin|[= -> ->]]; [exact (proj1 (Forall_forall _ _) Hnf1 _ Hin)|done]). assert (statekey_bytes t k = statekey_bytes t' k') as Es.
    { rewrite <-Hkv1 in Hos, Hk. eapply (short_maps_inj _ _ n); [apply si_statekeys, (proj1 HI1)|done|exact Hos|exact Hk|done]. }
    by apply app_ff_inj in Es as [-> ->].
  - rewrite (HW s t' k'). split; [naive_solver|]. intros ([Hin|[= -> ->]] & Hs & Hk); [done|]. destruct Hd. rewrite Hos in Hk.
    apply (inj Some) in Hk. apply to_be_bytes_inj in Hk; [done|unfold is_u64 in *; lia|done].
Qed.

(** One entry. *)
Lemma take_auth_event_spec d n x sk p W F :
  View sha256 d n → entry_event d x sk p → ∃ d',
    take_auth_event (W, F) x d =
      (Ok (match W !! sk with None => (W, F) | Some key => (delete sk W, <[key := p]> F) end), d') ∧ View sha256 d' n ∧ kv d' = kv d.
Proof.
  intros [HI HP] (se & id & Hsk & Hse & -> & He & Hutf & Hid & Hp). unfold take_auth_event.
  destruct (parse_compressed_spec sha256 d n sk se id HI Hsk Hse Hutf Hid He) as (d1 & E1 & HI1 & Hkv1).
  assert (pdu_cache d1 = pdu_cache d) as Hc.
  { assert (keeps_field pdu_cache (parse_compressed_state_event (to_be_bytes sk ++ to_be_bytes se))) as H
      by (unfold parse_compressed_state_event, get_eventid_from_short; keeps). specialize (H d). by rewrite E1 in H. }
  assert (View sha256 d1 n) as HV1 by (split; [done|by eapply PduCacheInv_kv]).
  rewrite (bind_ok _ _ d (Some (sk, id)) d1) by (unfold try_ok; by rewrite E1). cbv iota beta.
  destruct (W !! sk) as [key|]; [|by exists d1].
  destruct (get_pdu_view sha256 d1 n id HV1) as (d2 & E2 & HV2 & Hkv2). rewrite (stored_kv d), Hp in E2 by done.
  exists d2. rewrite (bind_ok _ _ d1 (Some (Some p)) d2) by (unfold try_ok; by rewrite E2). split_and!; [done|done|congruence].
Qed.

(** After the entries [l]: what is still wanted, and what was found. *)
Definition taken (d : Db) (W0 : gmap Z (bytes * bytes)) (l : list bytes)
    (acc : gmap Z (bytes * bytes) * gmap (bytes * bytes) PduEvent) : Prop :=
  (∀ sk key, acc.1 !! sk = Some key ↔ W0 !! sk = Some key ∧ ∀ x, x ∈ l → take 8 x ≠ to_be_bytes sk) ∧
  (∀ key p, acc.2 !! key = Some p ↔ ∃ x sk, x ∈ l ∧ entry_event d x sk p ∧ W0 !! sk = Some key).

Lemma taken_step d n types W0 l x sk p W F :
  CompInv sha256 d n → wanted d types W0 → taken d W0 l (W, F) → entry_event d x sk p → (∀ y, y ∈ l → take 8 y ≠ take 8 x) →
  taken d W0 (l ++ [x]) (match W !! sk with None => (W, F) | Some key => (delete sk W, <[key := p]> F) end).
Proof.
  intros HI HW [H1 H2] Hx Hnew. cbn [fst snd] in *. pose proof (entry_event_key _ _ _ _ Hx) as Hkx.
  assert (is_u64 sk) as Hsk by (destruct Hx as (? & ? & ? & _); by apply is_short_u64).
  assert (∀ sk' key', W0 !! sk' = Some key' → take 8 x = to_be_bytes sk' → sk' = sk) as Hsame.
  { intros sk' [t k] Hk' E. apply HW in Hk' as (_ & Hu & _). rewrite Hkx in E. by apply to_be_bytes_inj in E. }
  assert (∀ y sk' p', y ∈ l → entry_event d y sk' p' → sk' ≠ sk) as Hother.
  { intros y sk' p' Hy Hy' ->. apply (Hnew y Hy). by rewrite (entry_event_key _ _ _ _ Hy'). }
  assert (W !! sk = W0 !! sk) as ->.
  { apply option_eq. intros key. rewrite H1. split; [by intros [? _]|]. intros Hk. split; [done|]. rewrite <-Hkx. apply Hnew. }
  destruct (W0 !! sk) as [key|] eqn:Ek; split; cbn [fst snd].
  - intros sk' key'. rewrite lookup_delete. setoid_rewrite elem_of_app. setoid_rewrite list_elem_of_singleton. case_decide as Hd.
    + subst. split; [done|]. intros [_ Hall]. by destruct (Hall x); [right|].
    + rewrite H1. split; [|naive_solver]. intros [Hk Hall]. split; [done|]. intros y [Hy| ->]; [by apply Hall|]. intros E. by destruct Hd; symmetry; eapply Hsame.
  - intros key' p'. rewrite lookup_insert. setoid_rewrite elem_of_app. setoid_rewrite list_elem_of_singleton. case_decide as Hd.
    + subst key'. split; [intros [= <-]; exists x, sk; by split_and!; [right|..]|]. intros (y & sk' & Hy & Hye & Hk').
      assert (sk' = sk) as -> by (destruct key as [t k]; apply HW in Ek as (_ & ? & E1), Hk' as (_ & ? & E2); rewrite E1 in E2; apply (inj Some) in E2; by apply to_be_bytes_inj in E2).
      destruct Hy as [Hy| ->]; [by destruct (Hother y sk p')|]. f_equal. by eapply entry_event_fun.
    + rewrite H2. split; [naive_solver|]. intros (y & sk' & [Hy| ->] & Hye & Hk'); [by exists y, sk'|].
      destruct (entry_event_fun d n x sk p sk' p' HI Hx Hye) as [<- _]. congruence.
  - intros sk' key'. rewrite H1. setoid_rewrite elem_of_app. setoid_rewrite list_elem_of_singleton. split; [|naive_solver].
    intros [Hk Hall]. split; [done|]. intros y [Hy| ->]; [by apply Hall|]. intros E. apply (Hsame sk' key' Hk) in E. congruence.
  - intros key' p'. rewrite H2. setoid_rewrite elem_of_app. setoid_rewrite list_elem_of_singleton. split; [naive_solver|].
    intros (y & sk' & [Hy| ->] & Hye & Hk'); [by exists y, sk'|]. destruct (entry_event_fun d n x sk p sk' p' HI Hx Hye) as [<- _]. congruence.
Qed.

(** All entries of a state, in any order. *)
Lemma take_auth_events_spec d0 d n types W0 st :
  CompInv sha256 d0 n → View sha256 d n → kv d = kv d0 → keyed st → wanted d0 types W0 → (∀ x, x ∈ st → ∃ sk p, entry_event d0 x sk p) → ∃ acc d',
    foldM take_auth_event (W0, ∅) (hash_iter st) d = (Ok acc, d') ∧ taken d0 W0 (hash_iter st) acc ∧ View sha256 d' n ∧ kv d' = kv d0.
Proof.
  intros HI0 HV Hkv Hkey HW Hall.
  destruct (foldM_inv (λ l acc d1, taken d0 W0 l acc ∧ View sha256 d1 n ∧ kv d1 = kv d0) take_auth_event (W0, ∅) (hash_iter st) d)
    as (acc & d' & E & H & HV' & Hkv'); [| |by exists acc, d'].
  { split_and!; [|done|done]. split; cbn.
    - intros sk key. split; [intros ?; split; [done|by intros x Hx%elem_of_nil]|by intros []].
    - intros key p. rewrite lookup_empty. setoid_rewrite elem_of_nil. naive_solver. }
  intros l1 x l2 [W F] d1 El (Ht & HV1 & Hkv1).
  pose proof (NoDup_elements st) as Hnd. rewrite <-hash_iter_perm, El in Hnd. apply NoDup_app in Hnd as (_ & Hdis & _).
  assert (∀ y, y ∈ l1 ++ x :: l2 → y ∈ st) as Hst by (intros y; by rewrite <-El, hash_iter_perm, elem_of_elements).
  destruct (Hall x) as (sk & p & Hx); [apply Hst, elem_of_app; right; by constructor|].
  destruct (take_auth_event_spec d1 n x sk p W F HV1) as (d2 & E2 & HV2 & Hkv2); [by eapply entry_event_kv|].
  eexists _, d2. split; [exact E2|]. split_and!; [|done|congruence].
  apply (taken_step d0 n types); [done..|].
  intros y Hy E. apply (Hdis y Hy). assert (y = x) as ->; [|by constructor].
  apply Hkey; [apply Hst, elem_of_app; by left|apply Hst, elem_of_app; right; by constructor|done].
Qed.

Lemma entry_of_state d st t k p : state_event d st t k (Some p) ↔
  ∃ x sk, x ∈ st ∧ entry_event d x sk p ∧ is_u64 sk ∧ kv d statekey_shortstatekey !! statekey_bytes t k = Some (to_be_bytes sk).
Proof.
  split.
  - intros (id & ((sk & se & Hsk & Hse & Hk & He & Hin) & Hutf & Hid) & Hp). exists (to_be_bytes sk ++ to_be_bytes se), sk.
    split_and!; [done| |by apply is_short_u64|done]. by exists se, id.
  - intros (x & sk & Hin & (se & id & Hsk & Hse & -> & He & Hutf & Hid & Hp) & _ & Hk). exists id. split_and!; [|done..]. split_and!; [|done..].
    by exists sk, se.
Qed.
End auth_events.

(** The auth events of a new event.  For a room whose current state has one
    entry per key and whose events are stored, [get_auth_events] returns, for
    each type the authorization rules name (and the create event where the
    version needs it), exactly the current state event under that key. *)
Theorem auth_events_exact (RU : Ruma) (LR : LruCache) (HO : HashOrder) (RV : RoomVersions) (JP : Json PduEvent) sha256
    (auth_types_for_event : bytes → bytes → option bytes → bytes → AuthRules → option (list (bytes * bytes)))
    d n room kind sender state_key content rules types s st :
  View sha256 d n → get_room_shortstatehash room d = (Ok (Some s), d) → state_of d s st → keyed st →
  (∀ x, x ∈ st → ∃ sk p, entry_event d x sk p) →
  auth_types_for_event kind sender state_key content rules = Some types → Forall (λ tk, no_ff tk.1) types →
  ∃ found d', get_auth_events auth_types_for_event room kind sender state_key content rules d = (Ok found, d') ∧ kv d' = kv d ∧
    ∀ t k p, found !! (t, k) = Some p ↔
      ((t, k) ∈ types ∨ room_create_event_id_as_room_id rules = true ∧ t = lit "m.room.create" ∧ k = []) ∧ state_event d st t k (Some p).
Proof.
  intros HV Hs Hst Hkey Hall Htypes Hnf. unfold get_auth_events. rewrite (bind_ok _ _ _ _ _ Hs), Htypes.
  rewrite (bind_ok _ _ d types d) by done. cbv zeta.
  set (types' := if room_create_event_id_as_room_id rules then _ else _).
  assert (Forall (λ tk, no_ff tk.1) types') as Hnf'.
  { subst types'. destruct (room_create_event_id_as_room_id rules); [|done]. apply Forall_app. split; [done|]. constructor; [by apply utf8_no_ff|constructor]. }
  destruct (short_auth_types_spec sha256 d n types' HV Hnf') as (W & d1 & E1 & HW & HV1 & Hkv1). rewrite (bind_ok _ _ _ _ _ E1).
  destruct (load_full_state_spec sha256 d1 n s st (proj1 HV1)) as (d2 & E2 & HI2 & Hkv2); [eapply state_of_mono; [|done]; by rewrite Hkv1|].
  assert (pdu_cache d2 = pdu_cache d1) as Hc.
  { assert (keeps_field pdu_cache (load_full_state s)) as H by apply keeps_load_full_state. specialize (H d1). by rewrite E2 in H. }
  rewrite (bind_ok _ _ _ _ _ E2).
  destruct (take_auth_events_spec sha256 d d2 n types' W st) as ([W' F] & d3 & E3 & [_ HF] & HV3 & Hkv3);
    [apply HV|split; [done|eapply PduCacheInv_kv; [done|done|apply HV1]]|congruence|done|done|done|].
  rewrite (bind_ok _ _ _ _ _ E3). exists F, d3. split_and!; [done|done|]. intros t k p. cbn [snd] in HF. rewrite HF, entry_of_state.
  setoid_rewrite hash_iter_perm. setoid_rewrite elem_of_elements. setoid_rewrite (HW _ t k).
  assert ((t, k) ∈ types' ↔ (t, k) ∈ types ∨ room_create_event_id_as_room_id rules = true ∧ t = lit "m.room.create" ∧ k = []) as Ht.
  { subst types'. destruct (room_create_event_id_as_room_id rules); [|naive_solver]. rewrite elem_of_app, list_elem_of_singleton. naive_solver. }
  split; [intros (x & sk & Hx & Hxe & (Hin%Ht & Hu & Hk)); split; [done|by exists x, sk]|].
  intros [Hin%Ht (x & sk & Hx & Hxe & Hu & Hk)]. by exists x, sk.
Qed.

(** * History visibility *)

(** The policy: [at_event] is the user's membership at the event's state. *)
Definition visible (h : HistoryVisibility) (at_event : MembershipState) (joined_now : bool) : bool :=
  match h with
  | HWorldReadable => true
  | HShared => joined_now
  | HInvited => bool_decide (at_event = Join ∨ at_event = Invite)
  | HJoined => bool_decide (at_event = Join)
  | HCustom _ => false
  end.

Section visibility.
Context {RU : Ruma} {LR : LruCache} {HO : HashOrder} {CT : Contents} {JP : Json PduEvent} (sha256 : bytes → bytes).

Lemma acc_ok {A B} (m : M Db A) (f : A → M Access B) a x d' :
  m (a_db a) = (Ok x, d') → (acc m ≫= f) a = f x (mkAccess d' (server_visibility_cache a) (user_visibility_cache a)).
Proof. intros E. apply bind_ok. unfold acc. by rewrite E. Qed.

Lemma pdu_shortstatehash_same d d' e r :
  kv d' eventid_shorteventid = kv d eventid_shorteventid → kv d' shorteventid_shortstatehash = kv d shorteventid_shortstatehash →
  pdu_shortstatehash e d = (r, d) → pdu_shortstatehash e d' = (r, d').
Proof.
  unfold pdu_shortstatehash, get, kv_get. run. intros E1 E2. rewrite E1. destruct (kv d eventid_shorteventid !! e) as [x|]; [|by intros [= <-]].
  rewrite E2. by intros [= <-].
Qed.

Lemma was_joined_eq m : bool_decide (Some m = Some Join) = bool_decide (m = Join).
Proof. apply bool_decide_ext. naive_solver. Qed.

Lemma was_invited_eq m : bool_decide (Some m = Some Join ∨ Some m = Some Invite) = bool_decide (m = Join ∨ m = Invite).
Proof. apply bool_decide_ext. naive_solver. Qed.

Lemma user_membership_view d n s st u o m :
  View sha256 d n → state_of d s st → keyed st → state_event d st (lit "m.room.member") u o →
  content_or Leave membership_of "Invalid room membership event in database." o = Ok m →
  ∃ d', user_membership s u d = (Ok m, d') ∧ View sha256 d' n ∧ kv d' = kv d.
Proof.
  intros HV Hst Hkey Ho Hm. destruct (state_get_view sha256 d n s st _ u o HV Hst Hkey Ho) as (d' & E & HV' & Hkv).
  exists d'. unfold user_membership. rewrite (bind_ok _ _ _ _ _ E). split_and!; [by rewrite Hm|done|done].
Qed.

(** The answer about an event when nothing is cached. *)
Lemma can_see_fresh a n u r e s st oh om h m :
  View sha256 (a_db a) n → pdu_shortstatehash e (a_db a) = (Ok (Some s), a_db a) → state_of (a_db a) s st → keyed st →
  state_event (a_db a) st (lit "m.room.history_visibility") [] oh →
  content_or HShared history_visibility_of "Invalid history visibility event in database." oh = Ok h →
  state_event (a_db a) st (lit "m.room.member") u om →
  content_or Leave membership_of "Invalid room membership event in database." om = Ok m →
  user_visibility_cache a !! (u, s) = None →
  ∃ joined a', is_joined u r (a_db a) = (Ok joined, a_db a) ∧
    user_can_see_event u r e a = (Ok (visible h m joined), a') ∧ View sha256 (a_db a') n ∧ kv (a_db a') = kv (a_db a) ∧
    user_visibility_cache a' = lru_insert (u, s) (visible h m joined) (user_visibility_cache a).
Proof.
  intros HV Hs Hst Hkey Hh Eh Hm Em Hc.
  set (joined := bool_decide (is_Some (kv (a_db a) userroomid_joined !! get_userroom_id_bytes u r))).
  assert (is_joined u r (a_db a) = (Ok joined, a_db a)) as Hj by done.
  destruct (state_get_view sha256 _ n s st _ [] oh HV Hst Hkey Hh) as (d1 & E1 & HV1 & Hkv1).
  assert (state_of d1 s st) as Hst1 by (eapply state_of_mono; [|done]; by rewrite Hkv1).
  destruct (user_membership_view d1 n s st u om m HV1 Hst1 Hkey) as (d2 & E2 & HV2 & Hkv2); [by eapply state_event_kv|done|].
  exists joined. unfold user_can_see_event. erewrite acc_ok by done. destruct a as [d sc uc]. cbn [a_db server_visibility_cache user_visibility_cache] in *.
  rewrite bind_gets. cbn [user_visibility_cache]. rewrite Hc. erewrite acc_ok by done. erewrite acc_ok by done. cbn [server_visibility_cache user_visibility_cache].
  unfold history_visibility. rewrite Eh. unfold user_was_invited, user_was_joined, try_ok, acc. destruct h; run; cbn [a_db server_visibility_cache user_visibility_cache]; rewrite ?E2; cbn;
    rewrite ?was_joined_eq, ?was_invited_eq; eexists; split_and!; try done; cbn; congruence.
Qed.
End visibility.

(** C18: History visibility.  For an event with a stored state, when nothing is
    cached for the user and that state, the answer is the policy applied to
    the history visibility in the event's state (shared, if there is none),
    the user's membership in the event's state (left, if there is none) and,
    for shared history, whether the user is joined now; the answer is kept in
    the cache and the trees are unchanged. *)
Theorem history_visibility_enforced (RU : Ruma) (LR : LruCache) (HO : HashOrder) (CT : Contents) (JP : Json PduEvent) sha256
    a n u r e s st oh om h m :
  View sha256 (a_db a) n → pdu_shortstatehash e (a_db a) = (Ok (Some s), a_db a) → state_of (a_db a) s st → keyed st →
  state_event (a_db a) st (lit "m.room.history_visibility") [] oh →
  content_or HShared history_visibility_of "Invalid history visibility event in database." oh = Ok h →
  state_event (a_db a) st (lit "m.room.member") u om →
  content_or Leave membership_of "Invalid room membership event in database." om = Ok m →
  user_visibility_cache a !! (u, s) = None →
  ∃ joined a', is_joined u r (a_db a) = (Ok joined, a_db a) ∧
    user_can_see_event u r e a = (Ok (visible h m joined), a') ∧ View sha256 (a_db a') n ∧ kv (a_db a') = kv (a_db a) ∧
    user_visibility_cache a' = lru_insert (u, s) (visible h m joined) (user_visibility_cache a).
Proof. apply can_see_fresh. Qed.

(** The visibility of shared history is cached under the state of the
    event and never invalidated.  A user who asks for an event of a shared
    history before joining is refused, and is refused the same event again
    after joining, as long as the answer stays in the cache. *)
Theorem visibility_outlives_membership (RU : Ruma) (LR : LruCache) (HO : HashOrder) (CT : Contents) (JP : Json PduEvent) sha256
    a n u r e s st oh :
  View sha256 (a_db a) n → pdu_shortstatehash e (a_db a) = (Ok (Some s), a_db a) → state_of (a_db a) s st → keyed st →
  state_event (a_db a) st (lit "m.room.history_visibility") [] oh →
  content_or HShared history_visibility_of "Invalid history visibility event in database." oh = Ok HShared →
  kv (a_db a) userroomid_joined !! get_userroom_id_bytes u r = None →
  user_visibility_cache a !! (u, s) = None →
  lru_insert (u, s) false (user_visibility_cache a) !! (u, s) = Some false →
  ∃ a1 a2, user_can_see_event u r e a = (Ok false, a1) ∧ acc (mark_as_joined u r) a1 = (Ok tt, a2) ∧
    is_joined u r (a_db a2) = (Ok true, a_db a2) ∧ user_can_see_event u r e a2 = (Ok false, a2).
Proof.
  intros HV Hs Hst Hkey Hh Eh Hj Hc Hlru.
  destruct (state_get_view sha256 _ n s st _ [] oh HV Hst Hkey Hh) as (d1 & E1 & HV1 & Hkv1).
  assert (is_joined u r (a_db a) = (Ok false, a_db a)) as Ej by (unfold is_joined, has_userroom, get, kv_get; run; by rewrite Hj).
  destruct a as [d sc uc]. cbn [a_db server_visibility_cache user_visibility_cache] in *.
  assert (user_can_see_event u r e (mkAccess d sc uc) = (Ok false, mkAccess d1 sc (lru_insert (u, s) false uc))) as Ea.
  { unfold user_can_see_event. rewrite (acc_ok _ _ (mkAccess d sc uc) _ _ Hs), bind_gets. cbn [server_visibility_cache user_visibility_cache]. rewrite Hc.
    rewrite (acc_ok _ _ (mkAccess d sc uc) _ _ Ej), (acc_ok _ _ (mkAccess d sc uc) _ _ E1). unfold history_visibility. by rewrite Eh. }
  set (d2 := (mark_as_joined u r d1).2). exists (mkAccess d1 sc (lru_insert (u, s) false uc)), (mkAccess d2 sc (lru_insert (u, s) false uc)).
  split_and!; [done|done| |].
  - unfold is_joined, has_userroom, get, kv_get. run. cbn [a_db]. subst d2. unfold mark_as_joined, insert, remove. run. cbn [snd]. kv_simpl.
    unfold kv_insert. by rewrite lookup_insert_eq.
  - assert (pdu_shortstatehash e d2 = (Ok (Some s), d2)) as Hs2.
    { apply (pdu_shortstatehash_same d); [| |done]; subst d2; unfold mark_as_joined, insert, remove; run; cbn [snd]; kv_simpl; by rewrite Hkv1. }
    unfold user_can_see_event. rewrite (acc_ok _ _ (mkAccess d2 sc _) _ _ Hs2), bind_gets. cbn [user_visibility_cache]. by rewrite Hlru.
Qed.

(** * A sample room *)

#[local] Existing Instance sample_ruma.
#[local] Existing Instance lru_unbounded.
#[local] Existing Instance elements_order.
#[local] Instance sample_pdu_json : Json PduEvent := json_countable PduEvent.

(** Its state is one history visibility event; a second event was sent in it. *)
Definition visibility_pdu : PduEvent :=
  mkPdu (lit "$h") (Some (lit "!r")) (lit "@a:b") 1 (lit "m.room.history_visibility") (lit "shared") (Some []) [] 1 [] None None [] None.

Definition sample_contents : Contents := {|
  membership_of := λ b, if bool_decide (b = lit "join") then Some Join else None;
  history_visibility_of := λ b, if bool_decide (b = lit "shared") then Some HShared else None;
  join_rule_of := λ _, None;
  guest_can_join_of := λ _, None;
  room_name_of := λ _, None;
  create_of := λ _, None;
|}.

Definition sample_room : M Db unit :=
  s ← append_to_state visibility_pdu;
  set_room_state (lit "!r") s;;
  append_to_state sample_pdu;;
  insert eventid_outlierpdu (lit "$h") (to_vec visibility_pdu).

Definition sample_room_db : Db := (sample_room empty_db).2.

Lemma sample_room_view : ∃ n st,
  n ≤ 8 ∧ View (λ b, b) sample_room_db n ∧ state_of sample_room_db 3 st ∧ keyed st ∧
  state_event sample_room_db st (lit "m.room.history_visibility") [] (Some visibility_pdu) ∧
  state_event sample_room_db st (lit "m.room.member") (lit "@a:b") None ∧
  (∀ x, x ∈ st → ∃ sk p, entry_event sample_room_db x sk p).
Proof.
  destruct (append_to_state_spec (λ b, b) empty_db 0 visibility_pdu (lit "!r") [] ∅)
    as (s & d1 & n1 & E1 & HI1 & Hn1 & Hs & Hx1 & Happ);
    [apply empty_db_comp|vm_compute; discriminate|done|done|done|intros x y Hx; by apply elem_of_empty in Hx|].
  destruct Happ as (k & e & Hk & He & Hkk & Hke & Hst). set (x := to_be_bytes k ++ to_be_bytes e) in *. set (st := put_entry k x ∅) in *.
  assert (x ∈ st) as Hx by (unfold st, put_entry; apply elem_of_union; left; by apply elem_of_singleton).
  assert (∀ y, y ∈ st → y = x) as Honly.
  { intros y Hy. unfold st, put_entry in Hy. apply elem_of_union in Hy as [Hy|[_ Hy]%elem_of_filter]; [by apply elem_of_singleton in Hy|by apply elem_of_empty in Hy]. }
  assert (keyed st) as Hkst.
  { apply put_entry_keyed; [unfold x; by rewrite take_app_length' by (by rewrite length_to_be_bytes)|]. intros y z Hy. by apply elem_of_empty in Hy. }
  destruct (set_room_state_spec (λ b, b) d1 n1 (lit "!r") s st HI1 Hs Hst) as (d2 & E2 & HI2 & Hget & Hst2 & Hf).
  destruct (append_to_state_spec (λ b, b) d2 n1 sample_pdu (lit "!r") [] st) as (s' & d3 & n3 & E3 & HI3 & Hn3 & _ & Hx3 & _);
    [done|unfold u64_max; lia|done|done| |done|].
  { unfold room_state. unfold set_room_state, insert, modify in E2. injection E2 as <-. kv_simpl. unfold kv_insert. rewrite lookup_insert_eq. by exists s. }
  assert (sample_room empty_db = (Ok tt, upd eventid_outlierpdu (λ tr, kv_insert tr (lit "$h") (to_vec visibility_pdu)) d3)) as E.
  { unfold sample_room. rewrite (bind_ok _ _ _ _ _ E1), (bind_ok _ _ _ _ _ E2), (bind_ok _ _ _ _ _ E3). done. }
  assert ((append_to_state visibility_pdu empty_db).1 = Ok 3) as E1' by (by vm_compute). rewrite E1 in E1'. cbn in E1'. injection E1' as ->.
  assert (sample_room_db = upd eventid_outlierpdu (λ tr, kv_insert tr (lit "$h") (to_vec visibility_pdu)) d3) as Ed by (unfold sample_room_db; by rewrite E).
  assert (stored sample_room_db (lit "$h") = Ok (Some visibility_pdu)) as Hstored by (vm_compute; reflexivity).
  assert (kv sample_room_db statekey_shortstatekey !! statekey_bytes (lit "m.room.history_visibility") [] = Some (to_be_bytes k)) as Hkk'.
  { rewrite Ed. kv_simpl. eapply lookup_weaken; [|apply (proj1 Hx3); in_list]. by rewrite Hf. }
  assert (kv sample_room_db eventid_shorteventid !! lit "$h" = Some (to_be_bytes e)) as Hke'.
  { rewrite Ed. kv_simpl. eapply lookup_weaken; [|apply (proj1 Hx3); in_list]. by rewrite Hf. }
  exists n3, st. split_and!; [lia| | | exact Hkst | | |].
  - split; [rewrite Ed; apply CompInv_upd; [clear; set_solver|exact HI3]|]. intros e0 p Hp.
    assert (pdu_cache sample_room_db = ∅) as Ec by (vm_compute; reflexivity). rewrite Ec, lookup_empty in Hp. discriminate Hp.
  - rewrite Ed. eapply state_of_mono; [|exact Hst2]. kv_simpl. apply Hx3.
  - exists (lit "$h"). split; [|exact Hstored]. split; [exists k, e; exact (conj Hk (conj He (conj Hkk' (conj Hke' Hx)))) |split; reflexivity].
  - intros sk y Hsk. assert (kv sample_room_db statekey_shortstatekey !! statekey_bytes (lit "m.room.member") (lit "@a:b") = None) as En
      by (vm_compute; reflexivity). rewrite En in Hsk. discriminate Hsk.
  - intros y Hy. rewrite (Honly y Hy). exists k, visibility_pdu. exists e, (lit "$h").
    exact (conj Hk (conj He (conj eq_refl (conj Hke' (conj eq_refl (conj eq_refl Hstored)))))).
Qed.

Definition sample_access : Access := mkAccess sample_room_db ∅ ∅.

Lemma sample_shortstatehash : pdu_shortstatehash (lit "$e1") sample_room_db = (Ok (Some 3), sample_room_db).
Proof. apply injective_projections; [by vm_compute|done]. Qed.

Lemma history_visibility_enforced_witness :
  ∃ joined a', is_joined (lit "@a:b") (lit "!r") sample_room_db = (Ok joined, sample_room_db) ∧
    user_can_see_event (CT := sample_contents) (lit "@a:b") (lit "!r") (lit "$e1") sample_access = (Ok (visible HShared Leave joined), a') ∧
    kv (a_db a') = kv sample_room_db.
Proof.
  destruct sample_room_view as (n & st & _ & HV & Hst & Hkey & Hh & Hm & _).
  destruct (history_visibility_enforced sample_ruma lru_unbounded elements_order sample_contents sample_pdu_json (λ b, b) sample_access n
    (lit "@a:b") (lit "!r") (lit "$e1") 3 st (Some visibility_pdu) None HShared Leave) as (joined & a' & H1 & H2 & _ & H3 & _);
    [exact HV|exact sample_shortstatehash|exact Hst|exact Hkey|exact Hh|reflexivity|exact Hm|reflexivity|reflexivity|].
  exists joined, a'. exact (conj H1 (conj H2 H3)).
Defined.

Lemma visibility_outlives_membership_witness :
  ∃ a1 a2, user_can_see_event (CT := sample_contents) (lit "@a:b") (lit "!r") (lit "$e1") sample_access = (Ok false, a1) ∧
    acc (mark_as_joined (lit "@a:b") (lit "!r")) a1 = (Ok tt, a2) ∧ is_joined (lit "@a:b") (lit "!r") (a_db a2) = (Ok true, a_db a2) ∧
    user_can_see_event (CT := sample_contents) (lit "@a:b") (lit "!r") (lit "$e1") a2 = (Ok false, a2).
Proof.
  destruct sample_room_view as (n & st & _ & HV & Hst & Hkey & Hh & _ & _).
  apply (visibility_outlives_membership sample_ruma lru_unbounded elements_order sample_contents sample_pdu_json (λ b, b) sample_access n
    (lit "@a:b") (lit "!r") (lit "$e1") 3 st (Some visibility_pdu));
    [exact HV|exact sample_shortstatehash|exact Hst|exact Hkey|exact Hh|reflexivity| |reflexivity|reflexivity].
  vm_compute. reflexivity.
Defined.

(** Rules that name the history visibility event for every event. *)
Definition sample_versions : RoomVersions := {|
  AuthRules := unit; RedactRules := unit;
  authorization_rules := λ _, Some tt; redaction_rules := λ _, Some tt;
  content_field_redacts := λ _, true; room_create_event_id_as_room_id := λ _, true;
  LevelsContent := unit; Creators := unit; PowerLevels := unit;
  levels_of := λ _, Some tt; create_room_version := λ _, Some (lit "11"); create_creators := λ _ _, Some tt;
  power_levels_new := λ _ _ _, tt; user_can_redact_event_of_other := λ _ _, false; user_can_redact_own_event := λ _ _, true;
|}.

Lemma auth_events_exact_witness :
  ∃ found d', get_auth_events (RV := sample_versions) (λ _ _ _ _ _, Some [(lit "m.room.history_visibility", [])])
      (lit "!r") (lit "m.room.message") (lit "@a:b") None (lit "{}") tt sample_room_db = (Ok found, d') ∧
    found !! (lit "m.room.history_visibility", []) = Some visibility_pdu.
Proof.
  destruct sample_room_view as (n & st & _ & HV & Hst & Hkey & Hh & _ & Hall).
  destruct (auth_events_exact sample_ruma lru_unbounded elements_order sample_versions sample_pdu_json (λ b, b)
    (λ _ _ _ _ _, Some [(lit "m.room.history_visibility", [])]) sample_room_db n (lit "!r") (lit "m.room.message") (lit "@a:b") None (lit "{}") tt
    [(lit "m.room.history_visibility", [])] 3 st) as (found & d' & E & _ & H);
    [exact HV|apply injective_projections; [vm_compute; reflexivity|reflexivity]|exact Hst|exact Hkey|exact Hall|reflexivity| |].
  - apply Forall_cons. split; [apply utf8_no_ff; reflexivity|apply Forall_nil; exact I].
  - exists found, d'. split; [exact E|]. apply H. split; [left; constructor|exact Hh].
Defined.
