(* ===== verification/MemberEvents.v ===== *)
(** * MemberEvents: applying a membership event

    [update_membership] of [server/src/service/rooms/state_cache/mod.rs]: what
    the server records when a member event takes effect.  Remote users become
    known, a first join copies the settings of the predecessor room, an invite
    by an ignored user is dropped.  The JSON of the two account data events it
    reads is a parameter. *)
From S2P Require Import Prelude Bytes JsonValue KvTree Pdu Database Short StateCompressor RoomState Accounts StateCache.
From S2P Require Import Timeline PduJson AccountData Devices UserKeys AuthChain StateAccess.

(** [serde_json::Value::get] finds a field. *)
Definition value_has_field (k : bytes) (v : Value) : bool := bool_decide (is_Some (value_get k v)).

Section update_membership.
Context {RU : Ruma} {LR : LruCache} {HO : HashOrder} {CT : Contents}.
Context `{JP : !Json PduEvent} `{JV : !Json Value} `{JL : !Json (list Value)}.
Context (server_name : bytes) (calculate_password_hash : bytes → option bytes).
(** [DirectEvent]: the rooms of each user; [IgnoredUserListEvent]: the users. *)
Context (direct_of : Value → option (list (bytes * list bytes))) (direct_value : list (bytes * list bytes) → Value).
Context (ignored_of : Value → option (list bytes)).

(** Add the room wherever its predecessor is listed. *)
Definition extend_direct (predecessor room_id : bytes) (direct : list (bytes * list bytes)) : list (bytes * list bytes) :=
  (λ e, (e.1, if bool_decide (predecessor ∈ e.2) then e.2 ++ [room_id] else e.2)) <$> direct.

(** Copy user settings from the predecessor to the room: tags and the direct
    chat flag. *)
Definition copy_settings (room_id user_id predecessor : bytes) : M Db unit :=
  tag_event ← get_data (Some predecessor) user_id (lit "m.tag");
  match tag_event with
  | Some event => try_ok (update value_has_field (Some room_id) user_id (lit "m.tag") event);; mret tt
  | None => mret tt
  end;;
  direct_event ← get_data None user_id (lit "m.direct");
  match direct_event with
  | None => mret tt
  | Some event =>
      direct ← lift (ok_or (direct_of event) (BadDatabase "Invalid account data event in db."));
      if existsb (λ e, bool_decide (predecessor ∈ e.2)) direct
      then update value_has_field None user_id (lit "m.direct") (direct_value (extend_direct predecessor room_id direct))
      else mret tt
  end.

(** The predecessor named by a create event; a bad content names none. *)
Definition predecessor_of (create : option PduEvent) : option bytes :=
  match create with
  | Some create => match create_of (pdu_content create) with Some content => cc_predecessor content | None => None end
  | None => None
  end.

(** The user never joined this room before. *)
Definition first_join (room_id user_id : bytes) : M Db unit :=
  mark_as_once_joined user_id room_id;;
  create ← room_state_get room_id (lit "m.room.create") [];
  match predecessor_of create with
  | Some predecessor => copy_settings room_id user_id predecessor
  | None => mret tt
  end.

(** Whether the sender is ignored by the receiver. *)
Definition is_ignored (user_id sender : bytes) : M Db bool :=
  o ← get_data None user_id (lit "m.ignored_user_list");
  ignored ← lift (map_transpose (λ event, ok_or (ignored_of event) (BadDatabase "Invalid account data event in db.")) o);
  mret (match ignored with Some users => bool_decide (sender ∈ users) | None => false end).

(** Update current membership data. *)
Definition update_membership (room_id user_id : bytes) (membership : MembershipState) (sender : bytes)
    (last_state : option (list Value)) (update_count : bool) : M Db unit :=
  (* Keep track what remote users exist by adding them as "deactivated" users *)
  (if bool_decide (server_name_of user_id ≠ server_name) then create calculate_password_hash user_id None else mret tt);;
  let last_state := if bool_decide (server_name_of user_id = server_name) then last_state else None in
  proceed ← match membership with
    | Join =>
        once ← once_joined user_id room_id;
        (if (once : bool) then mret tt else first_join room_id user_id);;
        mark_as_joined user_id room_id;;
        mret true
    | Invite =>
        ignored ← is_ignored user_id sender;
        if (ignored : bool) then mret false
        else mark_as_invited [] user_id room_id last_state;; mret true
    | Knock => mark_as_knocked [] user_id room_id last_state;; mret true
    | Leave | Ban => mark_as_left [] user_id room_id;; mret true
    | CustomMembership _ => mret true
    end;
  if (proceed : bool) && update_count then update_joined_count server_name room_id else mret tt.
End update_membership.

(** * The effect *)

(** What a member event does to the abstract membership map. *)
Definition member_effect (ignored : bool) (ms : MembershipState) (u r : bytes) (m : gmap (bytes * bytes) Membership)
    : gmap (bytes * bytes) Membership :=
  match ms with
  | Join => <[(u, r) := Joined]> m
  | Invite => if ignored then m else <[(u, r) := Invited]> m
  | Knock => <[(u, r) := Knocked]> m
  | Leave | Ban => <[(u, r) := Left]> m
  | CustomMembership _ => m
  end.

(** The trees the lookups and the membership map live in. *)
Definition member_trees : list Table :=
  [global; eventid_shorteventid; shorteventid_eventid; statekey_shortstatekey; shortstatekey_statekey; statehash_shortstatehash;
   roomid_shortroomid; shortstatehash_statediff; roomid_shortstatehash; eventid_pduid; pduid_pdu; eventid_outlierpdu;
   userroomid_joined; userroomid_invitestate; userroomid_knockstate; userroomid_leftstate;
   roomuserid_joined; roomuserid_invitecount; roomuserid_knockcount; roomuserid_leftcount].

Section effect.
Context {RU : Ruma} {LR : LruCache} {HO : HashOrder} {JP : Json PduEvent} (sha256 : bytes → bytes).

(** A room with a stored state. *)
Definition room_at (d : Db) (room : bytes) (st : gset bytes) : Prop :=
  keyed st ∧ ∃ s, get_room_shortstatehash room d = (Ok (Some s), d) ∧ state_of d s st.

(** All that a member event reads and changes, except account data. *)
Record MemberView (d : Db) (n : Z) (m : gmap (bytes * bytes) Membership) (room : bytes) (st : gset bytes) : Prop := mk_MemberView {
  mv_view : View sha256 d n;
  mv_count : count_is d n;
  mv_rel : MemberRel d m;
  mv_room : room_at d room st;
}.

Lemma get_room_shortstatehash_same d d' room r :
  kv d' roomid_shortstatehash = kv d roomid_shortstatehash → get_room_shortstatehash room d = (r, d) → get_room_shortstatehash room d' = (r, d').
Proof. unfold get_room_shortstatehash, get, kv_get. run. intros ->. by intros [= <-]. Qed.

(** Writing to any other tree. *)
Lemma MemberView_upd d n m room st t f :
  t ∉ member_trees → MemberView d n m room st → MemberView (upd t f d) n m room st.
Proof.
  intros Ht [[HI HP] Hc HM (Hk & s & Hs & Hst)].
  assert (∀ t', t' ∈ member_trees → kv (upd t f d) t' = kv d t') as Hf by (intros t' Ht'; apply kv_upd_ne; by intros ->).
  split.
  - split.
    + apply CompInv_upd; [|done]. intros Hin. apply Ht. unfold member_trees. clear -Hin. set_solver.
    + intros e p Hp. rewrite (stored_same d); [by apply HP|]. intros t' Ht'. apply Hf. clear -Ht'. unfold member_trees. set_solver.
  - destruct Hc as [Hn Hc]. split; [done|]. rewrite Hf; [done|]. in_list.
  - apply (MemberRel_kv d); [|done]. intros K. split; apply Hf; destruct K; in_list.
  - split; [done|]. exists s. split.
    + apply (get_room_shortstatehash_same d); [apply Hf; in_list|done].
    + eapply state_of_mono; [|done]. rewrite Hf; [done|in_list].
Qed.

Lemma MemberView_kv d d' n m room st :
  View sha256 d' n → kv d' = kv d → MemberView d n m room st → MemberView d' n m room st.
Proof.
  intros HV Hkv [_ [Hn Hc] HM (Hk & s & Hs & Hst)]. split; [done|split; [done|by rewrite Hkv]| |].
  - apply (MemberRel_kv d); [by rewrite Hkv|done].
  - split; [done|]. exists s. split; [apply (get_room_shortstatehash_same d); [by rewrite Hkv|done]|]. eapply state_of_mono; [|done]. by rewrite Hkv.
Qed.

(** The trees a state event is found in. *)
Lemma state_event_same d d' st t k o :
  (∀ tb, tb ∈ [statekey_shortstatekey; eventid_shorteventid; eventid_pduid; pduid_pdu; eventid_outlierpdu] → kv d' tb = kv d tb) →
  state_event d st t k o → state_event d' st t k o.
Proof.
  intros Hf. destruct o as [p|]; cbn [state_event].
  - intros (id & Hid & Hs). exists id. unfold state_id, has_entry in *. rewrite !Hf by in_list. split; [done|].
    rewrite (stored_same d); [done|]. intros tb Htb. apply Hf. clear -Htb. set_solver.
  - unfold no_entry. by rewrite Hf by in_list.
Qed.

(** A state event of the room. *)
Lemma room_state_get_view d n m room st t k o :
  MemberView d n m room st → state_event d st t k o → ∃ d',
    room_state_get room t k d = (Ok o, d') ∧ MemberView d' n m room st ∧ kv d' = kv d.
Proof.
  intros HM Ho. destruct (mv_room _ _ _ _ _ HM) as (Hk & s & Hs & Hst).
  destruct (state_get_view sha256 d n s st t k o (mv_view _ _ _ _ _ HM) Hst Hk Ho) as (d' & E & HV & Hkv).
  exists d'. unfold room_state_get. rewrite (bind_ok _ _ _ _ _ Hs). split_and!; [done|by eapply MemberView_kv|done].
Qed.
End effect.

(** Reading account data. *)
Lemma get_data_same `{JV : !Json Value} d d' room u kind r :
  kv d' roomusertype_roomuserdataid = kv d roomusertype_roomuserdataid → kv d' roomuserdataid_accountdata = kv d roomuserdataid_accountdata →
  get_data room u kind d = (r, d) → get_data room u kind d' = (r, d').
Proof.
  unfold get_data, get, kv_get. run. intros E1 E2. rewrite E1. destruct (kv d roomusertype_roomuserdataid !! _); [|by intros [= <-]].
  rewrite E2. by intros [= <-].
Qed.

Lemma bind_bind_ok {S A B C} (m : M S A) (f : A → M S B) (g : B → M S C) s a s' :
  m s = (Ok a, s') → ((m ≫= f) ≫= g) s = (f a ≫= g) s'.
Proof. intros E. unfold mbind, M_bind. by rewrite E. Qed.

Section apply.
Context {RU : Ruma} {LR : LruCache} {HO : HashOrder} {CT : Contents}.
Context {JP : Json PduEvent} {JV : Json Value} {JL : Json (list Value)} (sha256 : bytes → bytes).
Context (server_names : ∀ u, valid_user u → utf8_valid (server_name_of u) = true ∧ server_name_ok (server_name_of u) = true).

Definition server_trees (d : Db) : Tree * Tree := (kv d roomserverids, kv d serverroomids).

Lemma ServerRel_trees d d' Q : server_trees d' = server_trees d → ServerRel d Q → ServerRel d' Q.
Proof. intros [= E1 E2] [H1 H2 H3]. split; [by rewrite E1|by rewrite E2|done]. Qed.

Lemma member_exec_servers (o : MemberOp (StateEvents := list Value)) : keeps_field server_trees (member_exec [] o).
Proof.
  destruct o; cbn [member_exec]; unfold mark_as_joined, mark_as_invited, mark_as_knocked, mark_as_left, forget, next_count, increment, insert, remove; keeps.
Qed.

(** The change of the membership map and the recount. *)
Lemma apply_op d n m Q room op (update_count : bool) server_name :
  count_is d n → n < u64_max → MemberRel d m → ServerRel d Q → member_op_ok op → valid_room room →
  ∃ d1 d', member_exec (StateEvents := list Value) [] op d = (Ok tt, d1) ∧
    (if update_count then update_joined_count server_name room else mret tt) d1 = (Ok tt, d') ∧ MemberRel d' (member_abs op m) ∧
    ServerRel d' (λ r s, if decide (update_count = true ∧ r = room) then member_server (member_abs op m) room s else Q r s).
Proof.
  intros Hc Hn HM HS Hop Hr. destruct (member_exec_spec (JS := JL) [] d n m op Hc Hn HM Hop) as (d1 & n1 & E1 & _ & _ & HM1). exists d1.
  assert (ServerRel d1 Q) as HS1 by (eapply ServerRel_trees; [|done]; pose proof (member_exec_servers op d) as H; by rewrite E1 in H).
  destruct update_count.
  - destruct (update_joined_count_spec server_name server_names d1 _ Q room HM1 HS1 Hr) as (d2 & E2 & HM2 & _ & _ & HS2 & _).
    exists d2. split_and!; [done|done|done|]. eapply ServerRel_ext; [|done]. intros r s. cbn beta. repeat case_decide; naive_solver.
  - exists d1. split_and!; [done|done|done|]. eapply ServerRel_ext; [|done]. intros r s. cbn beta. rewrite decide_False by naive_solver. done.
Qed.

Context (server_name : bytes) (calculate_password_hash : bytes → option bytes).

(** Making a remote user known. *)
Lemma remote_user_step d n m room st Q u :
  MemberView sha256 d n m room st → ServerRel d Q → ∃ d',
    (if bool_decide (server_name_of u ≠ server_name) then create calculate_password_hash u None else mret tt) d = (Ok tt, d') ∧
    MemberView sha256 d' n m room st ∧ ServerRel d' Q ∧ (∀ t, t ≠ userid_password → kv d' t = kv d t).
Proof.
  intros HM HS. case_bool_decide; [|by exists d]. eexists. split; [done|]. split_and!.
  - apply MemberView_upd; [|done]. unfold member_trees. clear. set_solver.
  - eapply ServerRel_trees; [|done]. unfold server_trees. by kv_simpl.
  - intros t Ht. by rewrite kv_upd_ne.
Qed.

(** A first join of a room without a predecessor. *)
Lemma first_join_step d n m room st Q u direct_of direct_value o :
  MemberView sha256 d n m room st → ServerRel d Q → state_event d st (lit "m.room.create") [] o → predecessor_of o = None → ∃ d',
    first_join direct_of direct_value room u d = (Ok tt, d') ∧ MemberView sha256 d' n m room st ∧ ServerRel d' Q.
Proof.
  intros HM HS Ho Hp. unfold first_join. set (d1 := upd roomuseroncejoinedids (λ tr, kv_insert tr (get_userroom_id_bytes u room) []) d).
  rewrite (bind_ok _ _ d tt d1) by done.
  assert (MemberView sha256 d1 n m room st) as HM1 by (apply MemberView_upd; [unfold member_trees; clear; set_solver|done]).
  destruct (room_state_get_view sha256 d1 n m room st (lit "m.room.create") [] o HM1) as (d2 & E2 & HM2 & Hkv2).
  { apply (state_event_same d); [|done]. intros t Ht. unfold d1. apply kv_upd_ne. intros <-. clear -Ht. set_solver. }
  rewrite (bind_ok _ _ _ _ _ E2), Hp. exists d2. split_and!; [done|done|]. eapply ServerRel_trees; [|done]. unfold server_trees. rewrite Hkv2. unfold d1. by kv_simpl.
Qed.
End apply.

(** Applying a membership event.  In a consistent database, an event that
    gives a user a membership in a room changes the recorded memberships
    exactly as it says, for local and remote users: a join makes the user
    joined, an invite invited (unless the user ignores its sender, then
    nothing changes), a knock knocked, a leave or ban left, and an unknown
    membership changes nothing.  When the recount is asked for, the servers of
    the room become exactly those of its joined members. *)
Theorem membership_event_applied (RU : Ruma) (LR : LruCache) (HO : HashOrder) (CT : Contents)
    (JP : Json PduEvent) (JV : Json Value) (JL : Json (list Value)) sha256 server_name calculate_password_hash
    direct_of direct_value ignored_of d n m room st Q u ms sender last update_count create oi ignored :
  (∀ u, valid_user u → utf8_valid (server_name_of u) = true ∧ server_name_ok (server_name_of u) = true) →
  MemberView sha256 d n m room st → n < u64_max → ServerRel d Q → valid_user u → valid_room room →
  (ms = Join → state_event d st (lit "m.room.create") [] create ∧ predecessor_of create = None) →
  (ms = Invite → get_data None u (lit "m.ignored_user_list") d = (Ok oi, d) ∧
    map_transpose (λ event, ok_or (ignored_of event) (BadDatabase "Invalid account data event in db.")) oi = Ok ignored) →
  let is_ignored := match ignored with Some users => bool_decide (sender ∈ users) | None => false end in
  let m' := member_effect is_ignored ms u room m in
  ∃ d', update_membership server_name calculate_password_hash direct_of direct_value ignored_of room u ms sender last update_count d = (Ok tt, d') ∧
    MemberRel d' m' ∧
    ServerRel d' (λ r s, if decide (update_count = true ∧ ¬ (ms = Invite ∧ is_ignored = true) ∧ r = room)
                         then member_server m' room s else Q r s).
Proof.
  intros Hnames HM Hn HS Hu Hr Hjoin Hinv is_ign m'. unfold update_membership.
  destruct (remote_user_step sha256 server_name calculate_password_hash d n m room st Q u HM HS) as (d1 & E1 & HM1 & HS1 & Hf1).
  rewrite (bind_ok _ _ _ _ _ E1). cbv zeta. set (last' := if bool_decide _ then last else None).
  assert (∀ op d2, MemberView sha256 d2 n m room st → ServerRel d2 Q → member_op_ok op → ¬ (ms = Invite ∧ is_ign = true) → member_abs op m = m' →
    ∃ d', ((member_exec (StateEvents := list Value) [] op;; mret true) ≫= λ proceed : bool,
        if proceed && update_count then update_joined_count server_name room else mret tt) d2 = (Ok tt, d') ∧ MemberRel d' m' ∧
      ServerRel d' (λ r s, if decide (update_count = true ∧ ¬ (ms = Invite ∧ is_ign = true) ∧ r = room) then member_server m' room s else Q r s)) as Happly.
  { intros op d2 HM2 HS2 Hop Hig <-. destruct (apply_op sha256 Hnames d2 n m Q room op update_count server_name) as (d3 & d' & E3 & E' & HM' & HS');
      [apply HM2|done|apply HM2|done|done|done|]. exists d'. rewrite (bind_ok _ _ d2 true d3) by (by rewrite (bind_ok _ _ _ _ _ E3)). cbn [andb].
    split_and!; [done|done|]. eapply ServerRel_ext; [|done]. intros r s. cbn beta. repeat case_decide; naive_solver. }
  destruct ms; cbn [member_effect] in m'.
  - by apply (Happly (MLeave u room) d1); [done..|naive_solver|].
  - destruct (Hinv eq_refl) as [Ei Eig].
    assert (is_ignored ignored_of u sender d1 = (Ok is_ign, d1)) as Ed.
    { unfold is_ignored. rewrite (bind_ok _ _ d1 oi d1); [|apply (get_data_same d); [apply Hf1; done|apply Hf1; done|done]]. by rewrite Eig. }
    destruct is_ign eqn:Eis.
    + exists d1. rewrite (bind_ok _ _ d1 false d1) by (by rewrite (bind_ok _ _ _ _ _ Ed)). split_and!; [done|apply HM1|].
      eapply ServerRel_ext; [|done]. intros r s. cbn beta. rewrite decide_False by naive_solver. done.
    + rewrite (bind_bind_ok _ _ _ _ _ _ Ed). by apply (Happly (MInvite u room last') d1); [done..|naive_solver|].
  - destruct (Hjoin eq_refl) as [Hc Hp].
    set (once := bool_decide (is_Some (kv d1 roomuseroncejoinedids !! get_userroom_id_bytes u room))).
    assert (∃ d2, (if once then mret tt else first_join direct_of direct_value room u) d1 = (Ok tt, d2) ∧ MemberView sha256 d2 n m room st ∧ ServerRel d2 Q)
      as (d2 & E2 & HM2 & HS2).
    { destruct once; [by exists d1|]. apply (first_join_step sha256 d1 n m room st Q u direct_of direct_value create); try done.
      apply (state_event_same d); [|done]. intros t Ht. apply Hf1. intros ->. clear -Ht. set_solver. }
    rewrite (bind_bind_ok _ _ _ _ once d1), (bind_bind_ok _ _ _ _ tt d2) by done. by apply (Happly (MJoin u room) d2); [done..|naive_solver|].
  - by apply (Happly (MKnock u room last') d1); [done..|naive_solver|].
  - by apply (Happly (MLeave u room) d1); [done..|naive_solver|].
  - rewrite (bind_ok _ _ d1 true d1) by done. destruct update_count; cbn [andb].
    + destruct (update_joined_count_spec server_name Hnames d1 m Q room (mv_rel _ _ _ _ _ _ HM1) HS1 Hr) as (d2 & E2 & HM2 & _ & _ & HS2 & _).
      exists d2. split_and!; [done|done|]. eapply ServerRel_ext; [|done]. intros r s'. cbn beta. repeat case_decide; naive_solver.
    + exists d1. split_and!; [done|apply HM1|]. eapply ServerRel_ext; [|done]. intros r s'. cbn beta. rewrite decide_False by naive_solver. done.
Qed.

(** * A sample *)

#[local] Existing Instance sample_ruma.
#[local] Existing Instance lru_unbounded.
#[local] Existing Instance elements_order.
#[local] Existing Instance sample_contents.
#[local] Existing Instance sample_pdu_json.
#[local] Instance member_value_json : Json Value := json_countable Value.
#[local] Instance member_list_json : Json (list Value) := json_countable (list Value).

Lemma sample_member_view : ∃ n st, n ≤ 8 ∧ MemberView (λ b, b) sample_room_db n ∅ (lit "!r") st ∧
  state_event sample_room_db st (lit "m.room.create") [] None.
Proof.
  destruct sample_room_view as (n & st & Hn & HV & Hst & Hkey & _). exists n, st. split; [exact Hn|]. split.
  - split; [exact HV| | |].
    + exact (si_count _ _ (ci_short _ _ (proj1 (proj1 HV)))).
    + apply (MemberRel_kv empty_db); [|apply empty_db_member]. intros K. split; destruct K; vm_compute; reflexivity.
    + split; [exact Hkey|]. exists 3. split; [|exact Hst]. apply injective_projections; [vm_compute; reflexivity|reflexivity].
  - intros sk x Hsk. assert (kv sample_room_db statekey_shortstatekey !! statekey_bytes (lit "m.room.create") [] = None) as En
      by (vm_compute; reflexivity). rewrite En in Hsk. discriminate Hsk.
Qed.

Lemma membership_event_applied_witness :
  ∃ d', update_membership (lit "b") (λ _, None) (λ _, None) (λ _, VNull) (λ _, None) (lit "!r") (lit "@a:b") Join (lit "@a:b") None true sample_room_db = (Ok tt, d') ∧
    MemberRel d' {[ (lit "@a:b", lit "!r") := Joined ]}.
Proof.
  destruct sample_member_view as (n & st & Hn & HM & Hc).
  destruct (membership_event_applied sample_ruma lru_unbounded elements_order sample_contents sample_pdu_json member_value_json member_list_json
    (λ b, b) (lit "b") (λ _, None) (λ _, None) (λ _, VNull) (λ _, None) sample_room_db n ∅ (lit "!r") st (λ _ _, False) (lit "@a:b") Join (lit "@a:b") None true
    None None None) as (d' & E & H & _).
  - intros u [_ Hu]. cbn in Hu |- *. unfold sample_user_id_ok in Hu. repeat (apply andb_true_iff in Hu as [Hu ?]). split; done.
  - exact HM.
  - unfold u64_max. lia.
  - apply (ServerRel_trees empty_db); [vm_compute; reflexivity|apply empty_db_servers].
  - split; vm_compute; reflexivity.
  - split; vm_compute; reflexivity.
  - intros _. split; [exact Hc|reflexivity].
  - intros [=].
  - exists d'. split; [exact E|exact H].
Defined.
