(* ===== verification/SolanaAuth.v ===== *)
(** * SolanaAuth: wallet login challenges

    [server/src/api/client_server/solana_auth.rs] and the nonce endpoint of
    [server/src/main.rs].  The nonce store is an in-memory map from nonce to
    the instant it was issued; instants and durations are nanoseconds.  Base58,
    hex and ed25519 are third-party code, and randomness and the clock are
    arguments of the operations. *)
From S2P Require Import Prelude Bytes.

(** [Instant] and [Duration] in nanoseconds. *)
Definition from_secs (s : Z) : Z := s * 1000000000.

(** [Instant::duration_since]: zero when the other instant is later. *)
Definition duration_since (now earlier : Z) : Z := Z.max 0 (now - earlier).

Definition NONCE_TTL : Z := from_secs 300.

Definition MAX_NONCES : nat := Z.to_nat 10000.

(** The store [NONCES]. *)
Abbreviation Nonces := (gmap bytes Z).

Record NonceRequest := mkNonceRequest { nr_address : bytes }.

Record NonceResponse := mkNonceResponse {
  nonce : bytes;
  message : bytes;
  expires_in_seconds : Z;
}.

Record SolanaLoginRequest := mkSolanaLoginRequest {
  slr_address : bytes;
  slr_signature : bytes;
  slr_nonce : bytes;
}.

(** A lowercase hexadecimal digit. *)
Definition hex_digit (n : Z) : Z := if n <? 10 then 48 + n else 87 + n.

(** The third-party codecs: base58, hex (two lowercase digits per byte), and
    ed25519 (which keys are points of the curve, and verification). *)
Class WalletCrypto := {
  bs58_decode : bytes → option bytes;
  hex_encode : bytes → bytes;
  verifying_key_ok : bytes → bool;
  ed25519_verify : bytes → bytes → bytes → bool;
  hex_encode_spec : ∀ bs, hex_encode bs = mjoin ((λ b, [hex_digit (b / 16); hex_digit (b mod 16)]) <$> bs);
}.

Section solana_auth.
Context {WC : WalletCrypto} (server_name : bytes).

(** Format the challenge message that the wallet must sign. *)
Definition format_sign_message (server_name nonce : bytes) : bytes :=
  lit "Sign in to " ++ server_name ++ [10; 10] ++ lit "Nonce: " ++ nonce ++ [10; 10] ++
  lit "This signature will not trigger a blockchain transaction or cost any fees.".

(** A random nonce string, from the 32 random bytes. *)
Definition generate_random_nonce (random : bytes) : bytes := hex_encode random.

(** Generate a nonce challenge for a Solana address.  The clock is read when
    the store is pruned and when the nonce is inserted. *)
Definition generate_nonce (random : bytes) (now_prune now_insert : Z) (address : bytes) :
    M Nonces NonceResponse :=
  pubkey_bytes ← lift (ok_or (bs58_decode address) (BadRequest InvalidParam "Invalid base58 address."));
  (if bool_decide (length pubkey_bytes ≠ 32%nat)
   then fail (BadRequest InvalidParam "Solana address must decode to exactly 32 bytes.")
   else mret tt);;
  let nonce := generate_random_nonce random in
  let message := format_sign_message server_name nonce in
  modify (λ nonces,
    if bool_decide (MAX_NONCES < size nonces)%nat
    then filter (λ e, duration_since now_prune e.2 < NONCE_TTL) nonces else nonces);;
  modify <[nonce := now_insert]>;;
  mret (mkNonceResponse nonce message (NONCE_TTL / from_secs 1)).

(** The localpart of a wallet's account. *)
Definition hex_localpart (pubkey : bytes) : bytes := lit "solana_" ++ hex_encode pubkey.

Definition forbid {A} (msg : string) : M Nonces A := fail (BadRequest Forbidden msg).

(** Verify a Solana wallet signature; the nonce is consumed before the expiry
    and the signature are checked. *)
Definition verify_solana_login (now : Z) (request : SolanaLoginRequest) : M Nonces (bytes * bytes) :=
  pubkey_bytes ← lift (ok_or (bs58_decode (slr_address request)) (BadRequest Forbidden "Invalid base58 address."));
  (if bool_decide (length pubkey_bytes ≠ 32%nat)
   then forbid "Solana address must decode to exactly 32 bytes." else mret tt);;
  (if verifying_key_ok pubkey_bytes then mret tt else forbid "Invalid ed25519 public key.");;
  sig_bytes ← lift (ok_or (bs58_decode (slr_signature request)) (BadRequest Forbidden "Invalid base58 signature."));
  (if bool_decide (length sig_bytes ≠ 64%nat)
   then forbid "Signature must be exactly 64 bytes." else mret tt);;
  let message := format_sign_message server_name (slr_nonce request) in
  removed ← gets (λ nonces, Ok (nonces !! slr_nonce request));
  modify (delete (slr_nonce request));;
  created ← lift (ok_or removed (BadRequest Forbidden "Nonce not found or already used."));
  (if NONCE_TTL <? duration_since now created then forbid "Nonce has expired." else mret tt);;
  (if ed25519_verify pubkey_bytes message sig_bytes then mret tt
   else forbid "Signature verification failed.");;
  mret (hex_localpart pubkey_bytes, slr_address request).

(** The statuses of the nonce endpoint. *)
Inductive StatusCode := NOT_FOUND | BAD_REQUEST.

Definition solana_nonce_handler (allow_solana_auth : bool) (random : bytes) (now_prune now_insert : Z)
    (body : NonceRequest) (s : Nonces) : res (StatusCode + NonceResponse) * Nonces :=
  if negb allow_solana_auth then (Ok (inl NOT_FOUND), s)
  else match generate_nonce random now_prune now_insert (nr_address body) s with
       | (Ok r, s') => (Ok (inr r), s')
       | (Err _, s') => (Ok (inl BAD_REQUEST), s')
       | (Panic, s') => (Panic, s')
       end.

(** ** Runs *)

(** A call of one of the two operations, with what the environment supplies. *)
Inductive Op :=
  | Challenge (address random : bytes) (now_prune now_insert : Z)
  | Attempt (request : SolanaLoginRequest) (now : Z).

Inductive Answer :=
  | Challenged (r : res NonceResponse)
  | Attempted (r : res (bytes * bytes)).

Definition step (op : Op) (s : Nonces) : Answer * Nonces :=
  match op with
  | Challenge address random tp ti =>
      let '(r, s') := generate_nonce random tp ti address s in (Challenged r, s')
  | Attempt request now => let '(r, s') := verify_solana_login now request s in (Attempted r, s')
  end.

Definition run_ops : list Op → Nonces → list (Op * Answer) * Nonces := run_log step.

(** A log entry that issued [n], and one that accepted a login with [n]. *)
Definition issued (n : bytes) (e : Op * Answer) : bool :=
  match e with
  | (Challenge _ _ _ _, Challenged (Ok r)) => bool_decide (nonce r = n)
  | _ => false
  end.

Definition accepted (n : bytes) (e : Op * Answer) : bool :=
  match e with
  | (Attempt request _, Attempted (Ok _)) => bool_decide (slr_nonce request = n)
  | _ => false
  end.

(** * Lemmas *)

(** The requests that pass the format checks. *)
Definition well_formed (request : SolanaLoginRequest) (pk sig : bytes) : Prop :=
  bs58_decode (slr_address request) = Some pk ∧ length pk = 32%nat ∧ verifying_key_ok pk = true ∧
  bs58_decode (slr_signature request) = Some sig ∧ length sig = 64%nat.

Lemma verify_well_formed now request pk sig s :
  well_formed request pk sig →
  verify_solana_login now request s =
    (match s !! slr_nonce request with
     | None => Err (BadRequest Forbidden "Nonce not found or already used.")
     | Some created =>
         if NONCE_TTL <? duration_since now created then Err (BadRequest Forbidden "Nonce has expired.")
         else if ed25519_verify pk (format_sign_message server_name (slr_nonce request)) sig
              then Ok (hex_localpart pk, slr_address request)
              else Err (BadRequest Forbidden "Signature verification failed.")
     end, delete (slr_nonce request) s).
Proof.
  intros (H1 & H2 & H3 & H4 & H5). unfold verify_solana_login, forbid. run.
  rewrite H1. cbn [ok_or]. rewrite bool_decide_eq_false_2 by auto. rewrite H3, H4. cbn [ok_or].
  rewrite bool_decide_eq_false_2 by auto.
  destruct (s !! slr_nonce request) as [created|]; [|done]. cbn [ok_or].
  destruct (NONCE_TTL <? _); [done|]. by destruct (ed25519_verify _ _ _).
Qed.

Lemma verify_malformed now request s :
  (∀ pk sig, ~ well_formed request pk sig) →
  ∃ msg, verify_solana_login now request s = (Err (BadRequest Forbidden msg), s).
Proof.
  intros H. unfold verify_solana_login, forbid. run.
  destruct (bs58_decode (slr_address request)) as [pk|] eqn:H1; cbn [ok_or]; [|by eexists].
  case_bool_decide as H2; [by eexists|]. destruct (verifying_key_ok pk) eqn:H3; [|by eexists].
  destruct (bs58_decode (slr_signature request)) as [sig|] eqn:H4; cbn [ok_or]; [|by eexists].
  case_bool_decide as H5; [by eexists|]. destruct (H pk sig). by split_and!.
Qed.

Lemma well_formed_dec request : (∃ pk sig, well_formed request pk sig) ∨ ∀ pk sig, ~ well_formed request pk sig.
Proof.
  unfold well_formed. destruct (bs58_decode (slr_address request)) as [pk|]; [|right; naive_solver].
  destruct (bs58_decode (slr_signature request)) as [sig|]; [|right; naive_solver].
  destruct (decide (length pk = 32%nat ∧ verifying_key_ok pk = true ∧ length sig = 64%nat)); [left|right]; naive_solver.
Qed.

(** A success, spelled out. *)
Lemma verify_success now request s lp addr s' :
  verify_solana_login now request s = (Ok (lp, addr), s') ↔
  ∃ pk sig created, well_formed request pk sig ∧ s !! slr_nonce request = Some created ∧
    duration_since now created ≤ NONCE_TTL ∧
    ed25519_verify pk (format_sign_message server_name (slr_nonce request)) sig = true ∧
    lp = hex_localpart pk ∧ addr = slr_address request ∧ s' = delete (slr_nonce request) s.
Proof.
  split.
  - destruct (well_formed_dec request) as [(pk & sig & Hwf)|Hwf]; last first.
    { destruct (verify_malformed now request s Hwf) as [msg ->]. done. }
    rewrite (verify_well_formed _ _ pk sig) by done.
    destruct (s !! slr_nonce request) as [created|] eqn:E; [|done].
    destruct (Z.ltb_spec NONCE_TTL (duration_since now created)); [done|].
    destruct (ed25519_verify _ _ _) eqn:Hv; [|done]. intros [= <- <- <-]. by exists pk, sig, created.
  - intros (pk & sig & created & Hwf & E & Hd & Hv & -> & -> & ->).
    rewrite (verify_well_formed _ _ pk sig), E by done.
    destruct (Z.ltb_spec NONCE_TTL (duration_since now created)); [lia|]. by rewrite Hv.
Qed.

Lemma verify_store now request s :
  (verify_solana_login now request s).2 = s ∨
  (verify_solana_login now request s).2 = delete (slr_nonce request) s.
Proof.
  destruct (well_formed_dec request) as [(pk & sig & Hwf)|Hwf].
  - right. by rewrite (verify_well_formed _ _ pk sig).
  - left. by destruct (verify_malformed now request s Hwf) as [msg ->].
Qed.

(** The store after the pruning step. *)
Definition pruned (now : Z) (s : Nonces) : Nonces :=
  if bool_decide (MAX_NONCES < size s)%nat then filter (λ e, duration_since now e.2 < NONCE_TTL) s else s.

Lemma pruned_sub now s n t : pruned now s !! n = Some t → s !! n = Some t.
Proof. unfold pruned. case_bool_decide; [|done]. by intros [? _]%map_lookup_filter_Some. Qed.

Lemma pruned_keeps now s n t :
  s !! n = Some t → duration_since now t < NONCE_TTL → pruned now s !! n = Some t.
Proof. intros H Ht. unfold pruned. case_bool_decide; [|done]. by apply map_lookup_filter_Some. Qed.

Lemma generate_spec random tp ti address s :
  (∃ pk, bs58_decode address = Some pk ∧ length pk = 32%nat ∧
    generate_nonce random tp ti address s =
      (Ok (mkNonceResponse (hex_encode random) (format_sign_message server_name (hex_encode random)) 300),
       <[hex_encode random := ti]> (pruned tp s))) ∨
  (∃ msg, generate_nonce random tp ti address s = (Err (BadRequest InvalidParam msg), s)).
Proof.
  unfold generate_nonce, pruned, generate_random_nonce. run.
  destruct (bs58_decode address) as [pk|]; cbn [ok_or]; [|right; by eexists].
  case_bool_decide as H; [right; by eexists|]. left. by exists pk.
Qed.

(** Every stored nonce was issued, at the stored instant. *)
Definition from_log (s0 : Nonces) (log : list (Op * Answer)) (s : Nonces) : Prop :=
  ∀ n t, s !! n = Some t → s0 !! n = Some t ∨
    ∃ address random tp r, (Challenge address random tp t, Challenged (Ok r)) ∈ log ∧ nonce r = n ∧
      message r = format_sign_message server_name n.

Lemma step_from_log op s a s' : step op s = (a, s') → from_log s [(op, a)] s'.
Proof.
  destruct op as [address random tp ti|request now]; cbn [step].
  - destruct (generate_spec random tp ti address s) as [(pk & _ & _ & ->)|[msg ->]]; intros [= <- <-] n t Hn; [|by left].
    apply lookup_insert_Some in Hn as [[<- <-]|[_ Hn]]; [|left; by eapply pruned_sub].
    right. exists address, random, tp. eexists. split; [by constructor|done].
  - destruct (verify_solana_login now request s) as [r s1] eqn:E. intros [= <- <-] n t Hn. left.
    pose proof (verify_store now request s) as Hs. rewrite E in Hs. cbn [snd] in Hs.
    destruct Hs as [->| ->]; [done|]. by apply lookup_delete_Some in Hn as [_ ?].
Qed.

Lemma run_from_log ops s log s' : run_ops ops s = (log, s') → from_log s log s'.
Proof.
  revert s log. induction ops as [|op ops IH]; intros s log; unfold run_ops in *; cbn [run_log]; [intros [= <- <-] n t Hn; by left|].
  destruct (step op s) as [a s1] eqn:E1. destruct (run_log step ops s1) as [log2 s2] eqn:E2. intros [= <- <-] n t Hn.
  destruct (IH _ _ E2 n t Hn) as [Hn1|(ad & rd & tp & r & Hin & Hr)].
  - destruct (step_from_log _ _ _ _ E1 n t Hn1) as [?|(ad & rd & tp & r & Hin & Hr)]; [by left|].
    right. exists ad, rd, tp, r. split; [|done]. apply list_elem_of_singleton in Hin. rewrite Hin. by constructor.
  - right. exists ad, rd, tp, r. split; [by constructor|done].
Qed.

(** A stored nonce counts for one login. *)
Definition stored (n : bytes) (s : Nonces) : nat :=
  match s !! n with Some _ => 1%nat | None => 0%nat end.

Lemma stored_le n s s' : (∀ t, s' !! n = Some t → is_Some (s !! n)) → (stored n s' ≤ stored n s)%nat.
Proof.
  intros H. unfold stored. destruct (s' !! n) as [t|] eqn:E; [|destruct (s !! n); lia].
  destruct (H t eq_refl) as [t' ->]. lia.
Qed.

Lemma step_budget n op s a s' :
  step op s = (a, s') →
  ((if accepted n (op, a) then 1 else 0) + stored n s' ≤ (if issued n (op, a) then 1 else 0) + stored n s)%nat.
Proof.
  destruct op as [address random tp ti|request now]; cbn [step].
  - destruct (generate_spec random tp ti address s) as [(pk & _ & _ & ->)|[msg ->]]; intros [= <- <-];
      cbn [accepted issued nonce]; [|lia].
    case_bool_decide as E.
    + unfold stored. destruct (_ !! _); destruct (s !! n); lia.
    + apply stored_le. intros t. rewrite lookup_insert_ne by done. intros Ht%pruned_sub. eauto.
  - destruct (verify_solana_login now request s) as [r s1] eqn:E. intros [= <- <-].
    assert (stored n s1 ≤ stored n s)%nat as Hle.
    { apply stored_le. pose proof (verify_store now request s) as Hs. rewrite E in Hs. cbn [snd] in Hs.
      intros t Ht. destruct Hs as [->| ->]; [eauto|]. apply lookup_delete_Some in Ht as [_ ?]. eauto. }
    destruct r as [[lp addr]|e|]; cbn [accepted issued]; [|lia|lia].
    apply verify_success in E as (pk & sig & cr & _ & Hn & _ & _ & _ & _ & ->).
    case_bool_decide as En; [|lia]. subst n. unfold stored. rewrite lookup_delete_eq, Hn. lia.
Qed.

Lemma run_budget n ops s log s' :
  run_ops ops s = (log, s') → (count_log (accepted n) log + stored n s' ≤ count_log (issued n) log + stored n s)%nat.
Proof.
  intros E. eapply (run_log_budget step (λ _, True) (λ _, True) (accepted n) (issued n) (stored n)) in E;
    [apply E|..]; [|done|by apply Forall_true].
  intros op s0 a s1 _ _ H. split; [done|]. by apply step_budget.
Qed.

(** An operation between instants [t0] and [t] that does not use nonce [n]. *)
Definition spares (n : bytes) (t0 t : Z) (op : Op) : Prop :=
  match op with
  | Challenge _ _ tp ti => t0 ≤ ti ∧ tp ≤ t ∧ ti ≤ t
  | Attempt request _ => slr_nonce request ≠ n
  end.

Lemma run_spares n t0 t ops s log s' :
  run_ops ops s = (log, s') → Forall (spares n t0 t) ops → t - t0 < NONCE_TTL →
  (∃ t1, s !! n = Some t1 ∧ t0 ≤ t1) → ∃ t1, s' !! n = Some t1 ∧ t0 ≤ t1.
Proof.
  intros Hrun Hall Ht. revert s log Hrun. induction Hall as [|op ops Hop _ IH]; intros s log; unfold run_ops in *; cbn [run_log].
  { by intros [= <- <-]. }
  destruct (step op s) as [a s1] eqn:E1. destruct (run_log step ops s1) as [log2 s2] eqn:E2. intros [= <- <-] [t1 [Hn Hle]].
  apply (IH _ _ E2). destruct op as [address random tp ti|request now]; cbn [step spares] in *.
  - destruct (generate_spec random tp ti address s) as [(pk & _ & _ & Eg)|[msg Eg]]; rewrite Eg in E1; injection E1 as <- <-; [|eauto].
    destruct Hop as (? & ? & ?). rewrite lookup_insert. case_decide; [eauto|]. exists t1. split; [|done].
    apply pruned_keeps; [done|]. unfold duration_since, NONCE_TTL, from_secs in *. lia.
  - destruct (verify_solana_login now request s) as [r s1'] eqn:E. injection E1 as <- <-.
    pose proof (verify_store now request s) as Hs. rewrite E in Hs. cbn [snd] in Hs. exists t1.
    destruct Hs as [->| ->]; [done|]. by rewrite lookup_delete_ne.
Qed.

Lemma hex_digit_inj m n : 0 ≤ m < 16 → 0 ≤ n < 16 → hex_digit m = hex_digit n → m = n.
Proof. unfold hex_digit. intros. destruct (Z.ltb_spec m 10), (Z.ltb_spec n 10); lia. Qed.

Lemma hex_encode_cons b bs :
  hex_encode (b :: bs) = hex_digit (b / 16) :: hex_digit (b mod 16) :: hex_encode bs.
Proof. by rewrite !hex_encode_spec. Qed.

Lemma hex_encode_nil : hex_encode [] = [].
Proof. by rewrite hex_encode_spec. Qed.

Lemma hex_encode_inj a b : Forall is_byte a → Forall is_byte b → hex_encode a = hex_encode b → a = b.
Proof.
  intros Ha. revert b. induction Ha as [|x a Hx _ IH]; intros b Hb E.
  - destruct Hb as [|y b]; [done|]. by rewrite hex_encode_nil, hex_encode_cons in E.
  - destruct Hb as [|y b Hy Hb]; [by rewrite hex_encode_nil, hex_encode_cons in E|].
    rewrite !hex_encode_cons in E. injection E as E1 E2 E3. unfold is_byte in *.
    apply hex_digit_inj in E1; [|split; [apply Z.div_pos; lia|apply Z.div_lt_upper_bound; lia]..].
    apply hex_digit_inj in E2; [|apply Z.mod_pos_bound; lia..].
    f_equal; [|by apply IH]. rewrite (Z.div_mod x 16), (Z.div_mod y 16) by lia. lia.
Qed.

Lemma length_hex_encode bs : length (hex_encode bs) = (2 * length bs)%nat.
Proof. induction bs as [|b bs IH]; [by rewrite hex_encode_nil|]. rewrite hex_encode_cons. simpl. lia. Qed.

(** The characters of a localpart. *)
Definition localpart_char (c : Z) : bool := in_range 97 122 c || in_range 48 57 c || (c =? 95).

Lemma hex_digit_char n : 0 ≤ n < 16 → localpart_char (hex_digit n) = true.
Proof.
  intros H. unfold localpart_char, in_range, hex_digit. destruct (Z.ltb_spec n 10).
  - rewrite (proj2 (Z.leb_le 48 (48 + n))), (proj2 (Z.leb_le (48 + n) 57)) by lia. by rewrite orb_true_r.
  - by rewrite (proj2 (Z.leb_le 97 (87 + n))), (proj2 (Z.leb_le (87 + n) 122)) by lia.
Qed.

Lemma hex_encode_chars bs : Forall is_byte bs → Forall (λ c, localpart_char c = true) (hex_encode bs).
Proof.
  induction 1 as [|b bs Hb _ IH]; [rewrite hex_encode_nil; constructor|]. rewrite hex_encode_cons. unfold is_byte in Hb.
  repeat apply Forall_cons_2; [..|done].
  - apply hex_digit_char. split; [apply Z.div_pos; lia|apply Z.div_lt_upper_bound; lia].
  - apply hex_digit_char. apply Z.mod_pos_bound. lia.
Qed.

Lemma app_sep_inj (c : Z) a b x y : c ∉ a → c ∉ b → a ++ c :: x = b ++ c :: y → a = b ∧ x = y.
Proof.
  revert b. induction a as [|u a IH]; intros [|v b]; simpl; intros Ha Hb E.
  - by injection E.
  - injection E as -> _. destruct Hb. constructor.
  - injection E as <- _. destruct Ha. constructor.
  - injection E as -> E. apply IH in E as [-> ->]; [done|..]; intros ?; [apply Ha|apply Hb]; by constructor.
Qed.
End solana_auth.

(** A concrete wallet for the witnesses: strings are their own base58, and a
    signature is valid when it repeats the key. *)
Definition sample_crypto : WalletCrypto := {|
  bs58_decode := Some;
  hex_encode := λ bs, mjoin ((λ b, [hex_digit (b / 16); hex_digit (b mod 16)]) <$> bs);
  verifying_key_ok := λ _, true;
  ed25519_verify := λ pk _ sig, bool_decide (sig = pk ++ pk);
  hex_encode_spec := λ _, eq_refl;
|}.

Definition sample_key : bytes := replicate 32 7.

Definition sample_login : SolanaLoginRequest :=
  mkSolanaLoginRequest sample_key (sample_key ++ sample_key) (hex_encode (WalletCrypto := sample_crypto) [1; 2]).

(** * Claims *)

(** C2: A nonce can be used once.  In every sequence of challenges and login
    attempts from the empty store, with any clock readings and any random
    bytes, the accepted logins with a nonce are at most as many as the
    challenges that issued it. *)
Theorem solana_nonce_single_use (WC : WalletCrypto) server_name ops n :
  let log := (run_ops server_name ops ∅).1 in
  (count_log (accepted n) log ≤ count_log (issued n) log)%nat.
Proof.
  cbv zeta. destruct (run_ops server_name ops ∅) as [log s] eqn:E. cbn [fst].
  apply (run_budget server_name n) in E. unfold stored in E. rewrite lookup_empty in E.
  destruct (s !! n); lia.
Qed.

(** C3: An accepted login is authentic and fresh.  The returned localpart
    belongs to the key the address decodes to, that key verifies the signature
    over this server's challenge message for the nonce, the nonce was issued
    earlier in the run at most five minutes ago, and it is consumed. *)
Theorem solana_login_sound (WC : WalletCrypto) server_name ops log s now request lp addr s' :
  run_ops server_name ops ∅ = (log, s) →
  verify_solana_login server_name now request s = (Ok (lp, addr), s') →
  ∃ pk sig address random tp issued_at r,
    well_formed request pk sig ∧
    ed25519_verify pk (format_sign_message server_name (slr_nonce request)) sig = true ∧
    lp = lit "solana_" ++ hex_encode pk ∧ addr = slr_address request ∧
    (Challenge address random tp issued_at, Challenged (Ok r)) ∈ log ∧
    nonce r = slr_nonce request ∧ message r = format_sign_message server_name (slr_nonce request) ∧
    now - issued_at ≤ from_secs 300 ∧ s' !! slr_nonce request = None.
Proof.
  intros Hrun Hv. apply verify_success in Hv as (pk & sig & t & Hwf & Hn & Ht & Hsig & -> & -> & ->).
  destruct (run_from_log _ _ _ _ _ Hrun _ _ Hn) as [H|(ad & rd & tp & r & Hin & Hr & Hm)]; [by rewrite lookup_empty in H|].
  exists pk, sig, ad, rd, tp, t, r. split_and!; try done.
  - unfold duration_since, NONCE_TTL in Ht. lia.
  - apply lookup_delete_eq.
Qed.

Lemma solana_login_sound_witness :
  ∃ pk sig address random tp issued_at r,
    well_formed (WC := sample_crypto) sample_login pk sig ∧
    ed25519_verify (WalletCrypto := sample_crypto) pk (format_sign_message (lit "b") (slr_nonce sample_login)) sig = true ∧
    lit "solana_" ++ hex_encode (WalletCrypto := sample_crypto) sample_key =
      lit "solana_" ++ hex_encode (WalletCrypto := sample_crypto) pk ∧
    sample_key = slr_address sample_login ∧
    (Challenge address random tp issued_at, Challenged (Ok r)) ∈
      (run_ops (WC := sample_crypto) (lit "b") [Challenge sample_key [1; 2] 4 5] ∅).1 ∧
    nonce r = slr_nonce sample_login ∧ message r = format_sign_message (lit "b") (slr_nonce sample_login) ∧
    7 - issued_at ≤ from_secs 300 ∧
    (verify_solana_login (WC := sample_crypto) (lit "b") 7 sample_login
      (run_ops (WC := sample_crypto) (lit "b") [Challenge sample_key [1; 2] 4 5] ∅).2).2 !! slr_nonce sample_login = None.
Proof.
  apply (solana_login_sound sample_crypto (lit "b") [Challenge sample_key [1; 2] 4 5] _
    (run_ops (WC := sample_crypto) (lit "b") [Challenge sample_key [1; 2] 4 5] ∅).2 7 sample_login
    (lit "solana_" ++ hex_encode (WalletCrypto := sample_crypto) sample_key) sample_key).
  - apply surjective_pairing.
  - by vm_compute.
Defined.

(** C4: A holder of the key can log in.  After a challenge, whatever other
    challenges and attempts with other nonces come in between (pruning
    included), a well-formed request with a valid signature made less than five
    minutes after the challenge is accepted. *)
Theorem solana_login_complete (WC : WalletCrypto) server_name s address random tp t0 r s1 ops log s2 now request pk sig :
  generate_nonce server_name random tp t0 address s = (Ok r, s1) →
  run_ops server_name ops s1 = (log, s2) →
  Forall (spares (nonce r) t0 now) ops → now - t0 < from_secs 300 →
  slr_nonce request = nonce r → well_formed request pk sig →
  ed25519_verify pk (message r) sig = true →
  verify_solana_login server_name now request s2 =
    (Ok (lit "solana_" ++ hex_encode pk, slr_address request), delete (nonce r) s2).
Proof.
  intros Hg Hrun Hall Ht En Hwf Hsig.
  destruct (generate_spec server_name random tp t0 address s) as [(pk' & _ & _ & E)|[msg E]]; rewrite E in Hg; [|done].
  injection Hg as <- <-. cbn [nonce message] in *.
  destruct (run_spares server_name _ _ _ _ _ _ _ Hrun Hall) as (t1 & Hn & Hle); [by unfold NONCE_TTL| |].
  { exists t0. by rewrite lookup_insert_eq. }
  rewrite <-En in *. apply verify_success. exists pk, sig, t1. split_and!; try done.
  unfold duration_since, NONCE_TTL, from_secs in *. lia.
Qed.

Lemma solana_login_complete_witness :
  verify_solana_login (WC := sample_crypto) (lit "b") 9 sample_login
    (run_ops (WC := sample_crypto) (lit "b") [Challenge sample_key [3] 6 7]
      (run_ops (WC := sample_crypto) (lit "b") [Challenge sample_key [1; 2] 4 5] ∅).2).2 =
    (Ok (lit "solana_" ++ hex_encode (WalletCrypto := sample_crypto) sample_key, sample_key),
     delete (slr_nonce sample_login)
       (run_ops (WC := sample_crypto) (lit "b") [Challenge sample_key [3] 6 7]
         (run_ops (WC := sample_crypto) (lit "b") [Challenge sample_key [1; 2] 4 5] ∅).2).2).
Proof.
  eapply (solana_login_complete sample_crypto (lit "b") ∅ sample_key [1; 2] 4 5
    (mkNonceResponse (slr_nonce sample_login) (format_sign_message (lit "b") (slr_nonce sample_login)) 300)
    _ [Challenge sample_key [3] 6 7] _ _ 9 sample_login sample_key (sample_key ++ sample_key)).
  - by vm_compute.
  - apply surjective_pairing.
  - repeat constructor; lia.
  - by vm_compute.
  - done.
  - by split_and!.
  - by vm_compute.
Defined.

(** Wallets and accounts correspond.  The localpart of a 32-byte key has 71
    characters, all of them allowed in a localpart, and different keys have
    different localparts. *)
Theorem solana_localpart_faithful (WC : WalletCrypto) pk pk' :
  Forall is_byte pk → Forall is_byte pk' → length pk = 32%nat →
  length (hex_localpart pk) = 71%nat ∧ Forall (λ c, localpart_char c = true) (hex_localpart pk) ∧
  (hex_localpart pk = hex_localpart pk' → pk = pk').
Proof.
  intros Hb Hb' Hl. unfold hex_localpart. split_and!.
  - rewrite length_app, length_hex_encode, Hl. done.
  - apply Forall_app. split; [by repeat constructor|by apply hex_encode_chars].
  - intros E%(app_inv_head _). by apply hex_encode_inj.
Qed.

(** A signed challenge is good for one server and one nonce: challenge
    messages determine the server name (a name has no line break) and the
    nonce. *)
Theorem sign_message_injective server server' n n' :
  10 ∉ server → 10 ∉ server' →
  format_sign_message server n = format_sign_message server' n' → server = server' ∧ n = n'.
Proof.
  intros Hs Hs' E. unfold format_sign_message in E. apply app_inv_head in E.
  apply app_sep_inj in E as [-> E]; [|done..]. split; [done|].
  injection E as E. by apply app_inv_tail in E.
Qed.

