(* ===== verification/Registry.v ===== *)
(** * Registry: the on-chain homeserver registry

    The Anchor program [programs/homeserver-registry]: one delegation account
    per wallet, at an address derived from the wallet's key.  The ledger, the
    address derivation and the clock are the runtime's; what the account
    constraints make the runtime check and do is written out. *)
From S2P Require Import Prelude Bytes.

(** ** Data *)

Inductive RegistryError := EmptyHomeserver | HomeserverTooLong | InvalidHomeserver.

(** The failures of an instruction: the program's own, and those of the account
    constraints. *)
Inductive ProgramError :=
  | Registry (e : RegistryError)
  | ConstraintSeeds
  | ConstraintHasOne
  | AccountNotInitialized
  | AccountDiscriminatorMismatch
  | InsufficientFunds
  | ClockUnavailable.

#[global] Instance RegistryError_eq_dec : EqDecision RegistryError.
Proof. solve_decision. Defined.

#[global] Instance ProgramError_eq_dec : EqDecision ProgramError.
Proof. solve_decision. Defined.

Record Delegation := mkDelegation {
  owner : bytes;
  homeserver : bytes;
  updated_at : Z;
  bump : Z;
}.

#[global] Instance Delegation_eq_dec : EqDecision Delegation.
Proof. solve_decision. Defined.

(** What an address holds, among the accounts the program owns: nothing, a
    delegation, or an account with another discriminator. *)
Inductive AccountContent := DelegationAccount (d : Delegation) | OtherAccount.

(** Ledger state: the program's accounts, and the lamports at each address. *)
Record Ledger := mkLedger {
  accounts : gmap bytes AccountContent;
  lamports : gmap bytes Z;
}.

(** The runtime: derived addresses (with their canonical bump) and the rent of
    a delegation account.  An address is a hash of the concatenated seeds: it
    depends on their concatenation only, and different concatenations derive
    different addresses (the hash has no collisions); re-deriving with the
    canonical bump gives the canonical address. *)
Class Runtime := {
  find_program_address : list bytes → bytes * Z;
  create_program_address : list bytes → Z → option bytes;
  rent_exempt : Z → Z;
  pda_concat : ∀ s1 s2, mjoin s1 = mjoin s2 → find_program_address s1 = find_program_address s2;
  pda_collision_free : ∀ s1 s2, (find_program_address s1).1 = (find_program_address s2).1 → mjoin s1 = mjoin s2;
  pda_canonical : ∀ s, create_program_address s (find_program_address s).2 = Some (find_program_address s).1;
}.

(** Anchor's discriminator, and [InitSpace] of the fields: a key, a string of at
    most 253 bytes with its length prefix, an [i64] and a [u8]. *)
Definition DISCRIMINATOR_LEN : Z := 8.

Definition INIT_SPACE : Z := 32 + (4 + 253) + 8 + 1.

(** Bytes a delegation takes when serialized. *)
Definition serialized_len (d : Delegation) : Z := 32 + (4 + Z.of_nat (length (homeserver d))) + 8 + 1.

Definition balance (l : Ledger) (a : bytes) : Z := default 0 (lamports l !! a).

Section registry.
Context {RT : Runtime}.

(** ** Hostname validation *)

Definition is_ascii_alphanumeric (c : Z) : bool := in_range 48 57 c || in_range 65 90 c || in_range 97 122 c.

(** [str::contains] of a character, and of a pattern. *)
Definition contains_char (c : Z) (s : bytes) : bool := existsb (Z.eqb c) s.

Fixpoint contains (p s : bytes) : bool :=
  starts_with p s || match s with [] => false | _ :: s' => contains p s' end.

(** Every character allowed: alphanumeric, '.', '-' or ':'.  A character
    outside ASCII has only bytes above 127, so the test on bytes is the test on
    characters. *)
Definition hostname_char (c : Z) : bool := is_ascii_alphanumeric c || (c =? 46) || (c =? 45) || (c =? 58).

Definition is_valid_hostname (hostname : bytes) : bool :=
  if negb (contains_char 46 hostname) then false
  else if contains_char 32 hostname || contains (lit "://") hostname then false
  else forallb hostname_char hostname.

(** ** Instructions *)

Abbreviation Result A := (ProgramError + A)%type.

Definition delegation_seeds (owner : bytes) : list bytes := [lit "delegation"; owner].

(** The address of a wallet's delegation. *)
Definition delegation_address (owner : bytes) : bytes := (find_program_address (delegation_seeds owner)).1.

(** [RegisterAccountConstraints]: the account passed must be the derived one;
    when the address is empty the account is created zeroed, the owner paying
    what is missing to the rent of its space, and otherwise it must hold a
    delegation. *)
Definition register_constraints (owner delegation : bytes) (l : Ledger) : Result (Delegation * Z * Ledger) :=
  let '(pda, b) := find_program_address (delegation_seeds owner) in
  if negb (bool_decide (delegation = pda)) then inl ConstraintSeeds
  else match accounts l !! delegation with
       | None =>
           let rent := rent_exempt (DISCRIMINATOR_LEN + INIT_SPACE) in
           let missing := Z.max 0 (rent - balance l delegation) in
           if balance l owner <? missing then inl InsufficientFunds
           else inr (mkDelegation (replicate 32 0) [] 0 0, b,
             mkLedger (accounts l)
               (<[delegation := balance l delegation + missing]>
                 (<[owner := balance l owner - missing]> (lamports l))))
       | Some (DelegationAccount d) => inr (d, b, l)
       | Some OtherAccount => inl AccountDiscriminatorMismatch
       end.

(** Register or update a homeserver delegation.  [clock] is [Clock::get()]. *)
Definition handle_register (clock : option Z) (owner : bytes) (bump : Z) (homeserver : bytes)
    (delegation : Delegation) : Result Delegation :=
  if bool_decide (homeserver = []) then inl (Registry EmptyHomeserver)
  else if negb (Z.of_nat (length homeserver) <=? 253) then inl (Registry HomeserverTooLong)
  else if negb (is_valid_hostname homeserver) then inl (Registry InvalidHomeserver)
  else match clock with
       | None => inl ClockUnavailable
       | Some unix_timestamp => inr (mkDelegation owner homeserver unix_timestamp bump)
       end.

(** A failed instruction leaves the ledger as it was. *)
Definition register (clock : option Z) (owner delegation : bytes) (homeserver : bytes) (l : Ledger) :
    Result unit * Ledger :=
  match register_constraints owner delegation l with
  | inl e => (inl e, l)
  | inr (d, b, l') =>
      match handle_register clock owner b homeserver d with
      | inl e => (inl e, l)
      | inr d' => (inr tt, mkLedger (<[delegation := DelegationAccount d']> (accounts l')) (lamports l'))
      end
  end.

(** [UnregisterAccountConstraints]: the address re-derived with the stored bump,
    and the stored owner must be the signer. *)
Definition unregister_constraints (owner delegation : bytes) (l : Ledger) : Result Delegation :=
  match accounts l !! delegation with
  | None => inl AccountNotInitialized
  | Some OtherAccount => inl AccountDiscriminatorMismatch
  | Some (DelegationAccount d) =>
      if negb (bool_decide (create_program_address (delegation_seeds owner) (bump d) = Some delegation))
      then inl ConstraintSeeds
      else if negb (bool_decide (Registry.owner d = owner)) then inl ConstraintHasOne
      else inr d
  end.

(** Remove a delegation; the handler itself does nothing, [close = owner] moves
    the account's lamports to the owner. *)
Definition unregister (owner delegation : bytes) (l : Ledger) : Result unit * Ledger :=
  match unregister_constraints owner delegation l with
  | inl e => (inl e, l)
  | inr _ =>
      (inr tt, mkLedger (delete delegation (accounts l))
                 (<[delegation := 0]> (<[owner := balance l owner + balance l delegation]> (lamports l))))
  end.

(** ** Runs *)

Inductive Instruction :=
  | Register (clock : option Z) (signer delegation homeserver : bytes)
  | Unregister (signer delegation : bytes).

Definition execute (i : Instruction) (l : Ledger) : Result unit * Ledger :=
  match i with
  | Register clock signer delegation homeserver => register clock signer delegation homeserver l
  | Unregister signer delegation => unregister signer delegation l
  end.

Inductive reachable : Ledger → Prop :=
  | reachable_init lam : reachable (mkLedger ∅ lam)
  | reachable_step l i : reachable l → reachable (execute i l).2.

Definition signer_of (i : Instruction) : bytes :=
  match i with Register _ s _ _ => s | Unregister s _ => s end.

(** What anyone reads: the homeserver of a wallet. *)
Definition lookup_homeserver (l : Ledger) (wallet : bytes) : option bytes :=
  match accounts l !! delegation_address wallet with
  | Some (DelegationAccount d) => Some (homeserver d)
  | _ => None
  end.

(** * Invariant *)

(** A stored delegation is at its owner's address, with the canonical bump, a
    valid hostname, and fits the space it was given. *)
Definition good (a : bytes) (d : Delegation) : Prop :=
  a = delegation_address (owner d) ∧ bump d = (find_program_address (delegation_seeds (owner d))).2 ∧
  homeserver d ≠ [] ∧ Z.of_nat (length (homeserver d)) ≤ 253 ∧ is_valid_hostname (homeserver d) = true ∧
  serialized_len d ≤ INIT_SPACE.

Definition RegistryInv (l : Ledger) : Prop :=
  ∀ a x, accounts l !! a = Some x → ∃ d, x = DelegationAccount d ∧ good a d.

Lemma delegation_address_inj o o' : delegation_address o = delegation_address o' → o = o'.
Proof.
  intros E%pda_collision_free. cbn [delegation_seeds mjoin list_join] in E. rewrite !app_nil_r in E. by apply app_inv_head in E.
Qed.

Lemma handle_register_spec clock o b h d r :
  handle_register clock o b h d = inr r ↔
  ∃ t, clock = Some t ∧ h ≠ [] ∧ Z.of_nat (length h) ≤ 253 ∧ is_valid_hostname h = true ∧ r = mkDelegation o h t b.
Proof.
  unfold handle_register. case_bool_decide as Hne; [naive_solver|].
  destruct (Z.leb_spec (Z.of_nat (length h)) 253); simpl; [|split; [done|intros (? & ? & ? & ? & _); lia]].
  destruct (is_valid_hostname h); simpl; [|naive_solver]. destruct clock; naive_solver.
Qed.

Lemma register_inv clock o a h l l' :
  register clock o a h l = (inr tt, l') →
  ∃ t, clock = Some t ∧ a = delegation_address o ∧ h ≠ [] ∧ Z.of_nat (length h) ≤ 253 ∧
    is_valid_hostname h = true ∧
    accounts l' = <[a := DelegationAccount (mkDelegation o h t (find_program_address (delegation_seeds o)).2)]> (accounts l).
Proof.
  unfold register, register_constraints, delegation_address.
  destruct (find_program_address (delegation_seeds o)) as [pda b] eqn:Ep. case_bool_decide as Ea; simpl; [|done].
  destruct (accounts l !! a) as [[d|]|]; [|done|destruct (balance l o <? _); [done|]];
    (destruct (handle_register clock o b h _) as [e|r] eqn:Er; [done|]; intros [= <-];
     apply handle_register_spec in Er as (t & -> & ? & ? & ? & ->); by exists t).
Qed.

Lemma register_failed clock o a h l e l' : register clock o a h l = (inl e, l') → l' = l.
Proof.
  unfold register. destruct (register_constraints o a l) as [?|[[??]?]]; [naive_solver|].
  destruct (handle_register _ _ _ _ _); naive_solver.
Qed.

Lemma unregister_spec o a l :
  RegistryInv l →
  (unregister o a l).1 = inr tt ↔ a = delegation_address o ∧ is_Some (accounts l !! a).
Proof.
  intros HI. unfold unregister, unregister_constraints.
  destruct (accounts l !! a) as [x|] eqn:Ex; [|split; [done|intros [_ []]; done]].
  destruct (HI _ _ Ex) as (d & -> & Ha & Hb & _). split.
  - case_bool_decide as E1; simpl; [|done]. case_bool_decide as E2; simpl; [|done]. subst o. eauto.
  - intros [E _]. assert (owner d = o) as <- by (apply delegation_address_inj; congruence).
    rewrite Hb, pda_canonical. rewrite !bool_decide_eq_true_2; [done|done|]. by rewrite Ha.
Qed.

Lemma unregister_effect o a l l' :
  unregister o a l = (inr tt, l') → accounts l' = delete a (accounts l).
Proof. unfold unregister. destruct (unregister_constraints o a l); [done|]. by intros [= <-]. Qed.

Lemma unregister_failed o a l e l' : unregister o a l = (inl e, l') → l' = l.
Proof. unfold unregister. destruct (unregister_constraints o a l); naive_solver. Qed.

Lemma execute_inv i l : RegistryInv l → RegistryInv (execute i l).2.
Proof.
  intros HI. destruct i as [clock o a h|o a]; cbn [execute].
  - destruct (register clock o a h l) as [[e|[]] l'] eqn:E; cbn [snd]; [by apply register_failed in E as ->|].
    apply register_inv in E as (t & _ & Ea & Hne & Hl & Hv & Eacc). intros a' x. rewrite Eacc, lookup_insert.
    case_decide; [|by apply HI]. intros [= <-]. subst a'. eexists. split; [done|].
    unfold good, serialized_len, INIT_SPACE. cbn. split_and!; try done. lia.
  - destruct (unregister o a l) as [[e|[]] l'] eqn:E; cbn [snd]; [by apply unregister_failed in E as ->|].
    apply unregister_effect in E. intros a' x. rewrite E, lookup_delete. case_decide; [done|]. apply HI.
Qed.

Lemma reachable_inv l : reachable l → RegistryInv l.
Proof.
  induction 1 as [lam|l i _ IH]; [|by apply execute_inv]. intros a x. cbn. by rewrite lookup_empty.
Qed.

Lemma execute_frame i l wallet :
  RegistryInv l → signer_of i ≠ wallet →
  accounts (execute i l).2 !! delegation_address wallet = accounts l !! delegation_address wallet.
Proof.
  intros HI Hne. destruct i as [clock o a h|o a]; cbn [execute signer_of] in *.
  - destruct (register clock o a h l) as [[e|[]] l'] eqn:E; cbn [snd]; [by apply register_failed in E as ->|].
    apply register_inv in E as (t & _ & -> & _ & _ & _ & ->). apply lookup_insert_ne.
    intros ?%delegation_address_inj. done.
  - destruct (unregister o a l) as [[e|[]] l'] eqn:E; cbn [snd]; [by apply unregister_failed in E as ->|].
    assert (a = delegation_address o) as -> by (apply (unregister_spec o a l HI); by rewrite E).
    apply unregister_effect in E as ->. apply lookup_delete_ne. intros ?%delegation_address_inj. done.
Qed.

(** Hostname characters. *)
Lemma contains_sub p s : contains p s = true ↔ ∃ a b, s = a ++ p ++ b.
Proof.
  induction s as [|c s IH]; cbn [contains]; rewrite orb_true_iff, starts_with_spec.
  - split.
    + intros [[r E]|?]; [|done]. by exists [], r.
    + intros (a & b & E). destruct a; [|done]. left. by exists b.
  - rewrite IH. split.
    + intros [[r E]|(a & b & ->)]; [by exists [], r|by exists (c :: a), b].
    + intros ([|c' a] & b & E); [left; by exists b|]. right. injection E as -> ->. by exists a, b.
Qed.

Lemma contains_char_elem c s : contains_char c s = true ↔ c ∈ s.
Proof.
  unfold contains_char. rewrite existsb_exists. setoid_rewrite Z.eqb_eq. setoid_rewrite <-list_elem_of_In. naive_solver.
Qed.

Lemma hostname_char_spec c : hostname_char c = true ↔ is_ascii_alphanumeric c = true ∨ c ∈ lit ".-:".
Proof.
  unfold hostname_char. rewrite !orb_true_iff, !Z.eqb_eq.
  change (lit ".-:") with [46; 45; 58]. rewrite !elem_of_cons, elem_of_nil. tauto.
Qed.

Lemma is_valid_hostname_spec h :
  is_valid_hostname h = true ↔
  46 ∈ h ∧ ∀ c, c ∈ h → is_ascii_alphanumeric c = true ∨ c ∈ lit ".-:".
Proof.
  unfold is_valid_hostname. destruct (contains_char 46 h) eqn:Ed; simpl; last first.
  { split; [done|]. intros [Hd _]. apply contains_char_elem in Hd. congruence. }
  apply contains_char_elem in Ed.
  assert (forallb hostname_char h = true ↔ ∀ c, c ∈ h → is_ascii_alphanumeric c = true ∨ c ∈ lit ".-:") as Hall.
  { rewrite forallb_forall. setoid_rewrite <-list_elem_of_In. setoid_rewrite hostname_char_spec. done. }
  destruct (contains_char 32 h || contains (lit "://") h) eqn:E; [|rewrite Hall; tauto].
  split; [done|]. intros [_ Hc]. exfalso. apply orb_true_iff in E as [E|E].
  - apply contains_char_elem in E. apply Hc in E. apply hostname_char_spec in E. done.
  - apply contains_sub in E as (x & y & ->).
    assert (hostname_char 47 = true) as ?; [|done]. apply hostname_char_spec, Hc.
    apply elem_of_app. right. apply elem_of_app. left. change (lit "://") with [58; 47; 47]. set_solver.
Qed.
End registry.

(** A runtime for the witnesses: an address is the concatenation of its seeds. *)
Definition sample_runtime : Runtime.
Proof.
  refine {|
    find_program_address := λ s, (mjoin s, 255);
    create_program_address := λ s b, if b =? 255 then Some (mjoin s) else None;
    rent_exempt := λ n, n + 128;
  |}; [by intros s1 s2 ->|done|done].
Defined.

(** * Claims *)

(** C22: The registry is always well formed.  In every ledger reached by any
    sequence of instructions, by any signers, every account the program holds
    is a delegation at the address derived from its owner, with the canonical
    bump, a non-empty hostname of at most 253 bytes that passes validation, and
    it fits the space reserved for it. *)
Theorem registry_well_formed (RT : Runtime) l a x :
  reachable l → accounts l !! a = Some x →
  ∃ d, x = DelegationAccount d ∧ a = delegation_address (owner d) ∧
    bump d = (find_program_address (delegation_seeds (owner d))).2 ∧
    homeserver d ≠ [] ∧ Z.of_nat (length (homeserver d)) ≤ 253 ∧
    is_valid_hostname (homeserver d) = true ∧ serialized_len d ≤ INIT_SPACE.
Proof. intros Hr Hx. destruct (reachable_inv l Hr a x Hx) as (d & -> & Hg). by exists d. Qed.

(** A ledger with one registered wallet. *)
Definition sample_ledger : Ledger :=
  (execute (RT := sample_runtime)
    (Register (Some 3) (lit "w") (delegation_address (RT := sample_runtime) (lit "w")) (lit "chat.example.com"))
    (mkLedger ∅ {[ lit "w" := 1000 ]})).2.

Lemma sample_ledger_reachable : reachable (RT := sample_runtime) sample_ledger.
Proof. apply reachable_step, reachable_init. Qed.

Lemma registry_well_formed_witness :
  ∃ d, DelegationAccount (mkDelegation (lit "w") (lit "chat.example.com") 3 255) = DelegationAccount d ∧
    delegation_address (RT := sample_runtime) (lit "w") = delegation_address (RT := sample_runtime) (owner d) ∧
    bump d = (find_program_address (Runtime := sample_runtime) (delegation_seeds (owner d))).2 ∧
    homeserver d ≠ [] ∧ Z.of_nat (length (homeserver d)) ≤ 253 ∧
    is_valid_hostname (homeserver d) = true ∧ serialized_len d ≤ INIT_SPACE.
Proof.
  apply (registry_well_formed sample_runtime sample_ledger); [apply sample_ledger_reachable|by vm_compute].
Defined.

(** C21: Only the owner controls a delegation.  An instruction signed by another
    wallet, with any accounts and arguments, leaves a wallet's delegation
    account as it was; in particular its homeserver. *)
Theorem registry_owner_control (RT : Runtime) l i wallet :
  reachable l → signer_of i ≠ wallet →
  accounts (execute i l).2 !! delegation_address wallet = accounts l !! delegation_address wallet ∧
  lookup_homeserver (execute i l).2 wallet = lookup_homeserver l wallet.
Proof.
  intros Hr Hne. pose proof (execute_frame i l wallet (reachable_inv l Hr) Hne) as E.
  unfold lookup_homeserver. by rewrite E.
Qed.

Lemma registry_owner_control_witness :
  accounts (execute (RT := sample_runtime)
      (Unregister (lit "x") (delegation_address (RT := sample_runtime) (lit "w"))) sample_ledger).2
    !! delegation_address (RT := sample_runtime) (lit "w") =
  accounts sample_ledger !! delegation_address (RT := sample_runtime) (lit "w") ∧
  lookup_homeserver (RT := sample_runtime) (execute (RT := sample_runtime)
      (Unregister (lit "x") (delegation_address (RT := sample_runtime) (lit "w"))) sample_ledger).2 (lit "w") =
  lookup_homeserver (RT := sample_runtime) sample_ledger (lit "w").
Proof. apply (registry_owner_control sample_runtime); [apply sample_ledger_reachable|done]. Defined.

(** Registration takes effect and can be undone.  A successful [register]
    makes the wallet's homeserver the one given, at the time of the clock,
    overwriting an earlier one; the owner can then always [unregister], which
    removes the delegation and pays its whole balance back, after which the
    wallet has no homeserver. *)
Theorem registry_lifecycle (RT : Runtime) l clock wallet a h l' :
  reachable l → wallet ≠ delegation_address wallet →
  register clock wallet a h l = (inr tt, l') →
  a = delegation_address wallet ∧ lookup_homeserver l' wallet = Some h ∧
  ∃ l'', unregister wallet a l' = (inr tt, l'') ∧ lookup_homeserver l'' wallet = None ∧
    balance l'' wallet = balance l' wallet + balance l' a.
Proof.
  intros Hr Hw Hreg. pose proof (execute_inv (Register clock wallet a h) l (reachable_inv l Hr)) as HI.
  cbn [execute] in HI. rewrite Hreg in HI. cbn [snd] in HI.
  apply register_inv in Hreg as (t & -> & -> & _ & _ & _ & Eacc). split; [done|]. split.
  { unfold lookup_homeserver. by rewrite Eacc, lookup_insert_eq. }
  assert ((unregister wallet (delegation_address wallet) l').1 = inr tt) as Hu.
  { apply unregister_spec; [done|]. split; [done|]. rewrite Eacc, lookup_insert_eq. eauto. }
  destruct (unregister wallet (delegation_address wallet) l') as [r l''] eqn:E. cbn [fst] in Hu. subst r.
  exists l''. split; [done|]. unfold lookup_homeserver. rewrite (unregister_effect _ _ _ _ E), lookup_delete_eq.
  split; [done|]. unfold unregister in E. destruct (unregister_constraints _ _ _); [done|].
  injection E as <-. unfold balance. cbn [lamports]. by rewrite lookup_insert_ne, lookup_insert_eq by done.
Qed.

(** What [register] accepts: it succeeds exactly on the signer's own
    address, with a readable clock and rent covered, for a hostname of 1 to 253
    bytes made of letters, digits, '.', '-' and ':' that contains a dot. *)
Theorem register_accepts (RT : Runtime) l t wallet a h :
  RegistryInv l → rent_exempt (DISCRIMINATOR_LEN + INIT_SPACE) ≤ balance l wallet → 0 ≤ balance l a →
  0 ≤ balance l wallet →
  (register (Some t) wallet a h l).1 = inr tt ↔
  a = delegation_address wallet ∧ 0 < Z.of_nat (length h) ≤ 253 ∧ 46 ∈ h ∧
    ∀ c, c ∈ h → is_ascii_alphanumeric c = true ∨ c ∈ lit ".-:".
Proof.
  intros HI Hrent Ha Hw. split.
  - destruct (register (Some t) wallet a h l) as [[e|[]] l'] eqn:E; cbn [fst]; [done|intros _].
    apply register_inv in E as (t' & _ & -> & Hne & Hl & Hv & _). apply is_valid_hostname_spec in Hv as [Hd Hc].
    split_and!; try done. destruct h; [done|]. simpl. lia.
  - intros (-> & Hl & Hd & Hc).
    assert (is_valid_hostname h = true) as Hv by (by apply is_valid_hostname_spec).
    assert (∀ b d, handle_register (Some t) wallet b h d = inr (mkDelegation wallet h t b)) as Hh.
    { intros b d. apply handle_register_spec. exists t. split_and!; try done; [|lia]. intros ->. simpl in Hl. lia. }
    unfold register, register_constraints, delegation_address.
    destruct (find_program_address (delegation_seeds wallet)) as [pda b] eqn:Ep.
    rewrite bool_decide_eq_true_2 by done. cbn [negb fst].
    destruct (accounts l !! pda) as [x|] eqn:Ex.
    + destruct (HI _ _ Ex) as (d & -> & _). by rewrite Hh.
    + destruct (Z.ltb_spec (balance l wallet) (Z.max 0 (rent_exempt (DISCRIMINATOR_LEN + INIT_SPACE) - balance l pda)));
        [|by rewrite Hh]. unfold delegation_address in Ha. rewrite Ep in Ha. cbn [fst] in Ha. lia.
Qed.

