(* ===== verification/Uiaa.v ===== *)
(** * Uiaa: user-interactive authentication

    [server/src/service/uiaa/mod.rs] and [server/src/database/key_value/uiaa.rs]:
    the sessions a client goes through to prove itself again before a sensitive
    request.  Argon2 and the random session ids are parameters. *)
From S2P Require Import Prelude Bytes KvTree Pdu Database Accounts.

(** ** Data *)

Inductive UserIdentifier :=
  | UserIdOrLocalpart (s : bytes)
  | OtherIdentifier.

(** What the client sends for a stage, with the session it continues. *)
Inductive AuthData :=
  | DataPassword (identifier : UserIdentifier) (password : bytes) (session : option bytes)
  | DataRegistrationToken (token : bytes) (session : option bytes)
  | DataDummy (session : option bytes)
  | DataOther (session : option bytes).

Definition auth_session (auth : AuthData) : option bytes :=
  match auth with
  | DataPassword _ _ s | DataRegistrationToken _ s | DataDummy s | DataOther s => s
  end.

(** ** [str::trim] *)

(** The UTF-8 encodings of the characters with the White_Space property. *)
Definition white_space : list bytes :=
  [[9]; [10]; [11]; [12]; [13]; [32]; [194; 133]; [194; 160]; [225; 154; 128];
   [226; 128; 128]; [226; 128; 129]; [226; 128; 130]; [226; 128; 131]; [226; 128; 132]; [226; 128; 133];
   [226; 128; 134]; [226; 128; 135]; [226; 128; 136]; [226; 128; 137]; [226; 128; 138];
   [226; 128; 168]; [226; 128; 169]; [226; 128; 175]; [226; 129; 159]; [227; 128; 128]].

(** Drop leading characters of [ws]; the fuel is the length. *)
Fixpoint strip (fuel : nat) (ws : list bytes) (s : bytes) : bytes :=
  match fuel with
  | O => s
  | S f =>
      match find (λ w, starts_with w s) ws with
      | Some w => strip f ws (drop (length w) s)
      | None => s
      end
  end.

Definition str_trim (s : bytes) : bytes :=
  let s := strip (length s) white_space s in
  reverse (strip (length s) (reverse <$> white_space) (reverse s)).

Section uiaa.
Context {RU : Ruma} `{JU : !Json UiaaInfo}.
Context (server_name : bytes) (registration_token : option bytes).
Context (argon2_verify : bytes → bytes → bool).

(** ** The session store *)

Definition set_uiaa_request (user_id device_id session request : bytes) : M Db unit :=
  modify (λ d, set_uiaarequest (<[(user_id, device_id, session) := request]> (userdevicesessionid_uiaarequest d)) d).

Definition get_uiaa_request (user_id device_id session : bytes) (d : Db) : option bytes :=
  userdevicesessionid_uiaarequest d !! (user_id, device_id, session).

Definition userdevicesessionid (user_id device_id session : bytes) : bytes :=
  user_id ++ ff :: device_id ++ ff :: session.

Definition update_uiaa_session (user_id device_id session : bytes) (uiaainfo : option UiaaInfo) : M Db unit :=
  match uiaainfo with
  | Some uiaainfo =>
      insert userdevicesessionid_uiaainfo (userdevicesessionid user_id device_id session) (to_vec uiaainfo)
  | None => remove userdevicesessionid_uiaainfo (userdevicesessionid user_id device_id session)
  end.

Definition get_uiaa_session (user_id device_id session : bytes) : M Db UiaaInfo :=
  o ← get userdevicesessionid_uiaainfo (userdevicesessionid user_id device_id session);
  bs ← lift (ok_or o (BadRequest Forbidden "UIAA session does not exist."));
  lift (ok_or (from_slice bs) (BadDatabase "UiaaInfo in userdeviceid_uiaainfo is invalid.")).

(** ** The service *)

(** Creates a new Uiaa session. *)
Definition create_uiaa (user_id device_id : bytes) (uiaainfo : UiaaInfo) (json_body : bytes) : M Db unit :=
  session ← lift (expect (ui_session uiaainfo));
  set_uiaa_request user_id device_id session json_body;;
  update_uiaa_session user_id device_id session (Some uiaainfo).

Definition with_session (s : bytes) (i : UiaaInfo) : UiaaInfo :=
  mkUiaaInfo (ui_flows i) (ui_completed i) (Some s) (ui_auth_error i).

Definition push_completed (t : AuthType) (i : UiaaInfo) : UiaaInfo :=
  mkUiaaInfo (ui_flows i) (ui_completed i ++ [t]) (ui_session i) (ui_auth_error i).

Definition with_error (k : ErrorKind) (msg : string) (i : UiaaInfo) : UiaaInfo :=
  mkUiaaInfo (ui_flows i) (ui_completed i) (ui_session i) (Some (k, msg)).

(** What the [match auth] of [try_auth] does: [inl] is an early return of
    [(false, info)], [inr] goes on with the updated info. *)
Definition check_stage (auth : AuthData) (info : UiaaInfo) : M Db (UiaaInfo + UiaaInfo) :=
  match auth with
  | DataPassword identifier password _ =>
      match identifier with
      | UserIdOrLocalpart username =>
          user_id ← lift (ok_or (parse_with_server_name username server_name)
            (BadRequest InvalidParam "User ID is invalid."));
          hash ← password_hash user_id;
          mret match hash with
               | Some hash =>
                   if negb (argon2_verify hash password)
                   then inl (with_error Forbidden "Invalid username or password." info)
                   else inr (push_completed AuthPassword info)
               | None => inr (push_completed AuthPassword info)
               end
      | OtherIdentifier => fail (BadRequest Unrecognized "Identifier type not recognized.")
      end
  | DataRegistrationToken token _ =>
      mret (if bool_decide (Some (str_trim token) = registration_token)
            then inr (push_completed AuthRegistrationToken info)
            else inl (with_error Forbidden "Invalid registration token." info))
  | DataDummy _ => mret (inr (push_completed AuthDummy info))
  | DataOther _ => mret (inr info)
  end.

(** Check if a flow now succeeds: every stage of it is completed. *)
Definition flow_completed (info : UiaaInfo) : bool :=
  existsb (λ stages, forallb (λ stage, bool_decide (stage ∈ ui_completed info)) stages) (ui_flows info).

Definition try_auth (random_session user_id device_id : bytes) (auth : AuthData) (uiaainfo : UiaaInfo) :
    M Db (bool * UiaaInfo) :=
  info ← match auth_session auth with
         | Some session => get_uiaa_session user_id device_id session
         | None => mret uiaainfo
         end;
  let info := match ui_session info with None => with_session random_session info | Some _ => info end in
  checked ← check_stage auth info;
  match checked with
  | inl info => mret (false, info)
  | inr info =>
      session ← lift (expect (ui_session info));
      if negb (flow_completed info) then
        update_uiaa_session user_id device_id session (Some info);;
        mret (false, info)
      else
        update_uiaa_session user_id device_id session None;;
        mret (true, info)
  end.

(** The guard the sensitive routes share: continue the authentication the
    client sends, start one for a JSON body, refuse anything else. *)
Definition uiaa_guard (random_session sender_user sender_device : bytes) (flows : list (list AuthType))
    (auth : option AuthData) (json_body : option bytes) : M Db unit :=
  let uiaainfo := mkUiaaInfo flows [] None None in
  match auth with
  | Some auth =>
      r ← try_auth random_session sender_user sender_device auth uiaainfo;
      if negb r.1 then fail (Uiaa r.2) else mret tt
  | None =>
      match json_body with
      | Some json =>
          let uiaainfo := with_session random_session uiaainfo in
          create_uiaa sender_user sender_device uiaainfo json;;
          fail (Uiaa uiaainfo)
      | None => fail (BadRequest NotJson "Not json.")
      end
  end.

(** * Lemmas *)

Lemma userdevicesessionid_inj u dv s u' dv' s' :
  no_ff u → no_ff dv → no_ff u' → no_ff dv' →
  userdevicesessionid u dv s = userdevicesessionid u' dv' s' → u = u' ∧ dv = dv' ∧ s = s'.
Proof.
  unfold userdevicesessionid. intros ? ? ? ? E. apply app_ff_inj in E as [-> E]; [|done..].
  by apply app_ff_inj in E as [-> ->].
Qed.

Lemma check_stage_pure auth info d r d' : check_stage auth info d = (r, d') → d' = d.
Proof.
  unfold check_stage, password_hash, get_string, get. destruct auth as [[name|] pw s|tok s|s|s]; run; try naive_solver.
  destruct (parse_with_server_name name server_name); simpl; [|naive_solver].
  destruct (kv_get (kv d userid_password) _); simpl; [|naive_solver].
  destruct (string_from_bytes _); naive_solver.
Qed.

(** What a stage can change: it completes stages, or records an error. *)
Lemma check_stage_result auth info d c d' :
  check_stage auth info d = (Ok c, d') →
  (∃ stages, c = inr (mkUiaaInfo (ui_flows info) (ui_completed info ++ stages) (ui_session info) (ui_auth_error info))) ∨
  (∃ e, c = inl (mkUiaaInfo (ui_flows info) (ui_completed info) (ui_session info) (Some e))).
Proof.
  unfold check_stage, password_hash, get_string, get. run. destruct auth as [[name|] pw s|tok s|s|s]; [|done|..].
  - destruct (parse_with_server_name _ _); simpl; [|done].
    destruct (kv_get _ _); simpl; [destruct (string_from_bytes _); simpl; [|done]|].
    + destruct (argon2_verify _ _); simpl; intros [= <- <-]; [left; by exists [AuthPassword]|right; by eexists].
    + intros [= <- <-]. left. by exists [AuthPassword].
  - case_bool_decide; intros [= <- <-]; [left; by exists [AuthRegistrationToken]|right; by eexists].
  - intros [= <- <-]. left. by exists [AuthDummy].
  - intros [= <- <-]. left. exists []. rewrite app_nil_r. by destruct info.
Qed.

Lemma get_uiaa_session_stored d u dv s i :
  kv d userdevicesessionid_uiaainfo !! userdevicesessionid u dv s = Some (to_vec i) →
  get_uiaa_session u dv s d = (Ok i, d).
Proof.
  intros E. unfold get_uiaa_session, get, kv_get. run. rewrite E. cbn [ok_or]. by rewrite from_slice_to_vec.
Qed.

Lemma get_uiaa_session_missing d u dv s :
  kv d userdevicesessionid_uiaainfo !! userdevicesessionid u dv s = None →
  get_uiaa_session u dv s d = (Err (BadRequest Forbidden "UIAA session does not exist."), d).
Proof. intros E. unfold get_uiaa_session, get, kv_get. run. by rewrite E. Qed.

(** The stage check on a password. *)
Definition password_accepted (d : Db) (username password : bytes) : Prop :=
  ∃ uid, parse_with_server_name username server_name = Some uid ∧
    (kv d userid_password !! uid = None ∨
     ∃ hash, kv d userid_password !! uid = Some hash ∧ utf8_valid hash = true ∧ argon2_verify hash password = true).

Lemma check_password d username password s info i d' :
  check_stage (DataPassword (UserIdOrLocalpart username) password s) info d = (Ok (inr i), d') ↔
  password_accepted d username password ∧ i = push_completed AuthPassword info ∧ d' = d.
Proof.
  unfold check_stage, password_hash, get_string, get, password_accepted, kv_get. run. split.
  - destruct (parse_with_server_name username server_name) as [uid|]; cbn [ok_or]; [|done].
    destruct (kv d userid_password !! uid) as [h|] eqn:Eh; cbn [map_transpose]; [|naive_solver].
    destruct (string_from_bytes h) as [h'|] eqn:Es; cbn; [|done]. apply string_from_bytes_Some in Es as [-> Hu].
    destruct (argon2_verify h password) eqn:Ev; cbn [negb]; naive_solver.
  - intros [(uid & -> & Hh) [-> ->]]. cbn [ok_or].
    destruct Hh as [->|(h & -> & Hu & Hv)]; cbn [map_transpose]; [done|].
    rewrite string_from_bytes_valid by done. cbn. by rewrite Hv.
Qed.

Lemma uiaa_guard_passes rs u dv username password json d :
  password_accepted d username password →
  uiaa_guard rs u dv [[AuthPassword]] (Some (DataPassword (UserIdOrLocalpart username) password None)) json d =
    (Ok tt, upd userdevicesessionid_uiaainfo (λ tr, kv_remove tr (userdevicesessionid u dv rs)) d).
Proof.
  intros Hp. unfold uiaa_guard, try_auth. cbn [auth_session].
  rewrite (bind_ok _ _ d (true, mkUiaaInfo [[AuthPassword]] [AuthPassword] (Some rs) None)
    (upd userdevicesessionid_uiaainfo (λ tr, kv_remove tr (userdevicesessionid u dv rs)) d)); [done|].
  rewrite (bind_ok _ _ d (mkUiaaInfo [[AuthPassword]] [] None None) d) by done. cbn [ui_session].
  rewrite (bind_ok _ _ d (inr (mkUiaaInfo [[AuthPassword]] [AuthPassword] (Some rs) None)) d); [done|].
  by apply check_password.
Qed.

(** ** What passing the guard means *)

(** What the client sends proves a stage: the password of the account it names
    (an account without one accepts any), the configured token, or nothing for
    the dummy stage; any other data proves none. *)
Definition Proves (d : Db) (auth : AuthData) (stage : option AuthType) : Prop :=
  match auth with
  | DataPassword (UserIdOrLocalpart username) password _ => password_accepted d username password ∧ stage = Some AuthPassword
  | DataPassword OtherIdentifier _ _ => False
  | DataRegistrationToken token _ => registration_token = Some (str_trim token) ∧ stage = Some AuthRegistrationToken
  | DataDummy _ => stage = Some AuthDummy
  | DataOther _ => stage = None
  end.

(** A session that is stored. *)
Definition StoredSession (d : Db) (user device session : bytes) (info : UiaaInfo) : Prop :=
  ∃ bs, kv d userdevicesessionid_uiaainfo !! userdevicesessionid user device session = Some bs ∧ from_slice bs = Some info.

(** The client is authenticated: every stage of a flow is proved now or was
    proved before in the session it continues.  The flows are the ones asked for,
    or, in a session, the ones it was started with. *)
Definition Authenticated (d : Db) (user device : bytes) (flows : list (list AuthType)) (auth : AuthData) : Prop :=
  ∃ stage offered completed flow, Proves d auth stage ∧ flow ∈ offered ∧ (∀ x, x ∈ flow → x ∈ completed ∨ stage = Some x) ∧
    match auth_session auth with
    | None => offered = flows ∧ completed = []
    | Some session => ∃ info, StoredSession d user device session info ∧ offered = ui_flows info ∧ completed = ui_completed info
    end.

Lemma completed_stage l (t : AuthType) x : x ∈ l ++ [t] → x ∈ l ∨ Some t = Some x.
Proof. intros [?|E%list_elem_of_singleton]%elem_of_app; [by left|right; by rewrite E]. Qed.

Lemma check_stage_proves auth info d i d' :
  check_stage auth info d = (Ok (inr i), d') →
  ∃ stage, Proves d auth stage ∧ ui_flows i = ui_flows info ∧ ui_session i = ui_session info ∧ ∀ x, x ∈ ui_completed i → x ∈ ui_completed info ∨ stage = Some x.
Proof.
  destruct auth as [[name|] pw s|tok s|s|s].
  - intros (Hp & -> & _)%check_password. exists (Some AuthPassword). split_and!; [done..|]. apply completed_stage.
  - done.
  - cbn [check_stage]. case_bool_decide as E; [|done]. intros [= <- _]. exists (Some AuthRegistrationToken). split_and!; [done..|]. apply completed_stage.
  - intros [= <- _]. exists (Some AuthDummy). split_and!; [done..|]. apply completed_stage.
  - intros [= <- _]. exists None. split_and!; [done..|]. by left.
Qed.

Lemma get_uiaa_session_inv d u dv s i d' : get_uiaa_session u dv s d = (Ok i, d') → d' = d ∧ StoredSession d u dv s i.
Proof.
  unfold get_uiaa_session, get, kv_get, StoredSession. run. destruct (kv d userdevicesessionid_uiaainfo !! _) as [bs|]; cbn [ok_or]; [|done].
  destruct (from_slice bs) as [i'|] eqn:E; cbn [ok_or]; [|done]. intros [= -> <-]. eauto.
Qed.

Lemma uiaa_guard_authenticates rs u dv flows auth json d d' :
  uiaa_guard rs u dv flows auth json d = (Ok tt, d') → ∃ a, auth = Some a ∧ Authenticated d u dv flows a.
Proof.
  unfold uiaa_guard. intros H. destruct auth as [a|]; [|destruct json; [by apply bind_inv in H as (? & ? & _ & ?)|done]]. exists a. split; [done|].
  apply bind_inv in H as ([b info] & d1 & H1 & H). destruct b; [|done]. clear H. unfold try_auth in H1. apply bind_inv in H1 as (i0 & d0 & H0 & H).
  assert (d0 = d ∧ match auth_session a with
    | None => ui_flows i0 = flows ∧ ui_completed i0 = []
    | Some session => StoredSession d u dv session i0 end) as [-> Hi0].
  { destruct (auth_session a); [by apply get_uiaa_session_inv in H0|]. by injection H0 as <- <-. }
  set (i1 := match ui_session i0 with None => with_session rs i0 | Some _ => i0 end) in H.
  assert (ui_flows i1 = ui_flows i0 ∧ ui_completed i1 = ui_completed i0) as [Ef Ec] by (unfold i1; by destruct (ui_session i0)).
  apply bind_inv in H as (c & d2 & Hc & H). pose proof (check_stage_pure _ _ _ _ _ Hc) as ->. destruct c as [j|j]; [done|].
  apply check_stage_proves in Hc as (stage & Hp & Hf & _ & Hx). apply bind_inv in H as (s & d3 & _ & H).
  destruct (flow_completed j) eqn:E; cbn [negb] in H; [|by apply bind_inv in H as (? & ? & _ & ?)].
  apply existsb_exists in E as (flow & Hin%list_elem_of_In & Hall). rewrite forallb_forall in Hall. rewrite Hf, Ef in Hin.
  exists stage, (ui_flows i0), (ui_completed i0), flow. split; [done|split; [done|split]].
  - intros x Hxf. rewrite <-Ec. apply Hx. by eapply bool_decide_eq_true, Hall, list_elem_of_In.
  - destruct (auth_session a); [by exists i0|done].
Qed.

(** The sessions of a device are about the password, which is not proved yet. *)
Definition PasswordSessions (u dv : bytes) (d : Db) : Prop :=
  ∀ session info, StoredSession d u dv session info → ui_flows info = [[AuthPassword]] ∧ AuthPassword ∉ ui_completed info.

(** Then passing the guard takes a password. *)
Lemma authenticated_password d u dv a :
  PasswordSessions u dv d → Authenticated d u dv [[AuthPassword]] a →
  ∃ username password s, a = DataPassword (UserIdOrLocalpart username) password s ∧ password_accepted d username password.
Proof.
  intros HP (stage & offered & completed & flow & Hp & Hin & Hall & Hs).
  assert (flow = [AuthPassword] ∧ AuthPassword ∉ completed) as [-> Hn].
  { destruct (auth_session a) as [session|].
    - destruct Hs as (info & Hst & -> & ->). destruct (HP session info Hst) as [E Hn]. rewrite E in Hin. by apply list_elem_of_singleton in Hin as ->.
    - destruct Hs as [-> ->]. apply list_elem_of_singleton in Hin as ->. split; [done|]. apply not_elem_of_nil. }
  destruct (Hall AuthPassword (list_elem_of_here _ _)) as [?| ->]; [done|].
  destruct a as [[name|] pw s|tok s|s|s]; cbn [Proves] in Hp; [|done|by destruct Hp|done|done]. destruct Hp. by eexists _, _, _.
Qed.

Lemma update_password_sessions u dv s o d :
  PasswordSessions u dv d → (∀ i, o = Some i → ui_flows i = [[AuthPassword]] ∧ AuthPassword ∉ ui_completed i) →
  PasswordSessions u dv (update_uiaa_session u dv s o d).2.
Proof.
  intros HP Ho session info (bs & Hbs & Hi). revert Hbs. unfold update_uiaa_session. destruct o as [i|]; unfold insert, remove; run; cbn [snd]; kv_simpl.
  - unfold kv_insert. rewrite lookup_insert. case_decide; [|intros; apply (HP session); by exists bs]. intros [= <-]. rewrite from_slice_to_vec in Hi. injection Hi as <-. by apply Ho.
  - unfold kv_remove. rewrite lookup_delete_Some. intros [_ Hbs]. apply (HP session). by exists bs.
Qed.

(** The guard of the routes that ask for the password keeps the sessions so. *)
Lemma uiaa_guard_sessions rs u dv auth json : preserves (PasswordSessions u dv) (uiaa_guard rs u dv [[AuthPassword]] auth json).
Proof.
  unfold uiaa_guard. destruct auth as [a|].
  - apply preserves_bind; [|intros [[|] i]; [apply preserves_ret|apply preserves_fail]]. intros d HP. unfold try_auth.
    assert (∃ r, (match auth_session a with Some session => get_uiaa_session u dv session | None => mret (mkUiaaInfo [[AuthPassword]] [] None None) end) d = (r, d) ∧
      ∀ i, r = Ok i → ui_flows i = [[AuthPassword]] ∧ AuthPassword ∉ ui_completed i) as (r & E & Hr).
    { destruct (auth_session a) as [session|]; [|eexists; split; [done|]; intros i [= <-]; split; [done|apply not_elem_of_nil]].
      exists (get_uiaa_session u dv session d).1. assert (get_uiaa_session u dv session d = ((get_uiaa_session u dv session d).1, d)) as E.
      { unfold get_uiaa_session, get. run. destruct (kv_get _ _) as [bs|]; cbn [ok_or]; [|done]. by destruct (from_slice bs). }
      split; [exact E|]. intros i Hi. rewrite Hi in E. apply get_uiaa_session_inv in E as [_ Hst]. by apply (HP session). }
    destruct r as [i0|e|]; [rewrite (bind_ok _ _ _ _ _ E)|by rewrite (bind_err _ _ _ _ _ E)|by rewrite (bind_panic _ _ _ _ E)].
    specialize (Hr i0 eq_refl). set (i1 := match ui_session i0 with None => with_session rs i0 | Some _ => i0 end).
    assert (ui_flows i1 = ui_flows i0) as Ef by (unfold i1; by destruct (ui_session i0)).
    destruct (check_stage a i1 d) as [c d1] eqn:Ec. pose proof (check_stage_pure _ _ _ _ _ Ec) as ->.
    destruct c as [[j|j]|e|]; [by rewrite (bind_ok _ _ _ _ _ Ec)|rewrite (bind_ok _ _ _ _ _ Ec)|by rewrite (bind_err _ _ _ _ _ Ec)|by rewrite (bind_panic _ _ _ _ Ec)].
    apply check_stage_proves in Ec as (stage & _ & Hf & _ & _). apply preserves_lift_bind; [|done]. intros s _ d' HP'.
    destruct (flow_completed j) eqn:Eflow; cbn [negb].
    + apply preserves_bind; [|intros; apply preserves_ret|done]. intros d2 H2. by apply update_password_sessions.
    + apply preserves_bind; [|intros; apply preserves_ret|done]. intros d2 H2. apply update_password_sessions; [done|]. intros i [= <-].
      assert (ui_flows j = [[AuthPassword]]) as Efl by (rewrite Hf, Ef; apply Hr). split; [done|]. intros Hin. unfold flow_completed in Eflow. rewrite Efl in Eflow. cbn in Eflow.
      by rewrite bool_decide_eq_true_2 in Eflow.
  - destruct json as [json|]; [|apply preserves_fail]. apply preserves_bind; [|intros; apply preserves_fail]. intros d HP. unfold create_uiaa. cbn [with_session ui_session].
    apply update_password_sessions; [exact HP|]. intros i [= <-]. split; [done|apply not_elem_of_nil].
Qed.

End uiaa.

#[global] Program Instance AuthType_countable : Countable AuthType :=
  inj_countable' (λ t, match t with
    | AuthPassword => inl (inl tt) | AuthRegistrationToken => inl (inr tt)
    | AuthDummy => inr (inl tt) | AuthOther n => inr (inr n) end)
    (λ x, match x with
    | inl (inl _) => AuthPassword | inl (inr _) => AuthRegistrationToken
    | inr (inl _) => AuthDummy | inr (inr n) => AuthOther n end) _.
Next Obligation. by intros []. Qed.

Definition error_kinds : list ErrorKind :=
  [Forbidden; UnknownToken; MissingToken; Unauthorized; NotFound; Unrecognized; InvalidParam; MissingParam;
   InvalidUsername; UserInUse; NotJson; BadJson; Exclusive; UserDeactivated; LimitExceeded; TooLarge;
   WrongRoomKeysVersion; GuestAccessForbidden; ThreepidAuthFailed; ThreepidDenied; ConnectionTimeout;
   ConnectionFailed; BadStatus; BadState; RoomInUse; UnsupportedRoomVersion; IncompatibleRoomVersion;
   UnableToAuthorizeJoin; UnableToGrantJoin; UrlNotSet; Unknown].

#[global] Program Instance ErrorKind_countable : Countable ErrorKind :=
  inj_countable (λ k, default 0%nat (fst <$> list_find (k =.) error_kinds)) (λ n, error_kinds !! n) _.
Next Obligation. by intros []. Qed.

#[global] Program Instance UiaaInfo_countable : Countable UiaaInfo :=
  inj_countable' (λ i, (ui_flows i, ui_completed i, ui_session i, ui_auth_error i))
    (λ '(f, c, s, e), mkUiaaInfo f c s e) _.
Next Obligation. by intros []. Qed.

(** An account with a password, for the witnesses: a hash is the password. *)
Definition uiaa_db : Db := upd userid_password (λ _, {[ lit "@a:b" := lit "pw" ]}) empty_db.

Definition same_bytes (a b : bytes) : bool := bool_decide (a = b).

(** The first stage of a two-stage flow. *)
Definition uiaa_step : res (bool * UiaaInfo) * Db :=
  try_auth (RU := sample_ruma) (JU := json_countable UiaaInfo) (lit "b") None same_bytes (lit "s") (lit "@a:b") (lit "D")
    (DataDummy None) (mkUiaaInfo [[AuthDummy; AuthPassword]] [] None None) uiaa_db.

(** * Claims *)

(** The session state machine.  Whatever [try_auth] answers, exactly one of
    three things happened to the session it worked on: a flow is complete, the
    answer is yes and the session is gone (it cannot be replayed); no flow is
    complete, the answer is no and the session holds the progress; or the stage
    failed with an error and nothing was stored.  The completed stages only
    grow, and no other session and no other tree changes. *)
Theorem uiaa_session_machine (RU : Ruma) (JU : Json UiaaInfo) server_name token argon2 rs u dv auth info d b i d' :
  try_auth server_name token argon2 rs u dv auth info d = (Ok (b, i), d') →
  ∃ s i0 stages, ui_session i = Some s ∧ ui_completed i = ui_completed i0 ++ stages ∧
    match auth_session auth with
    | Some session => get_uiaa_session u dv session d = (Ok i0, d)
    | None => i0 = info
    end ∧
    ((b = true ∧ flow_completed i = true ∧
       get_uiaa_session u dv s d' = (Err (BadRequest Forbidden "UIAA session does not exist."), d')) ∨
     (b = false ∧ flow_completed i = false ∧ get_uiaa_session u dv s d' = (Ok i, d')) ∨
     (b = false ∧ is_Some (ui_auth_error i) ∧ d' = d)) ∧
    (∀ k, k ≠ userdevicesessionid u dv s →
      kv d' userdevicesessionid_uiaainfo !! k = kv d userdevicesessionid_uiaainfo !! k) ∧
    (∀ t, t ≠ userdevicesessionid_uiaainfo → kv d' t = kv d t).
Proof.
  unfold try_auth. intros H. apply bind_inv in H as (i0 & d0 & H0 & H).
  assert (d0 = d) as ->.
  { destruct (auth_session auth); [|by injection H0].
    unfold get_uiaa_session, get in H0. run in H0. destruct (kv_get _ _); simpl in H0; [|done].
    by destruct (from_slice _); injection H0. }
  set (i1 := match ui_session i0 with None => with_session rs i0 | Some _ => i0 end) in H.
  apply bind_inv in H as (c & d1 & Hc & H). pose proof (check_stage_pure _ _ _ _ _ _ _ _ Hc) as ->.
  assert (∃ s, ui_session i1 = Some s) as [s Hs] by (unfold i1; destruct (ui_session i0) eqn:E; eauto).
  assert (ui_completed i1 = ui_completed i0) as Hcomp by (unfold i1; by destruct (ui_session i0)).
  assert (∃ stages j, ui_session j = Some s ∧ ui_completed j = ui_completed i0 ++ stages ∧
    (c = inr j ∨ c = inl j ∧ is_Some (ui_auth_error j))) as (st & j & Hj1 & Hj2 & Hj).
  { destruct (check_stage_result _ _ _ _ _ _ _ _ Hc) as [[st ->]|[e ->]].
    - exists st. eexists. split_and!; [| |by left]; [done|by simpl; rewrite Hcomp].
    - exists []. eexists. split_and!; [| |right; split; [done|]]; [done|by simpl; rewrite Hcomp, app_nil_r|by eexists]. }
  exists s, i0, st. destruct Hj as [->|[-> He]].
  - rewrite Hj1 in H. unfold update_uiaa_session, insert, remove in H. run in H. cbn [expect] in H.
    destruct (flow_completed j) eqn:Ef; simpl in H; injection H as <- <- <-.
    + split_and!; [done|done|by destruct (auth_session auth); [|injection H0]| |..].
      * left. split_and!; [done..|]. apply get_uiaa_session_missing. kv_simpl. apply lookup_delete_eq.
      * intros k Hk. kv_simpl. by apply lookup_delete_ne.
      * intros t Ht. by rewrite kv_upd_ne.
    + split_and!; [done|done|by destruct (auth_session auth); [|injection H0]| |..].
      * right. left. split_and!; [done..|]. apply get_uiaa_session_stored. kv_simpl. apply lookup_insert_eq.
      * intros k Hk. kv_simpl. by apply lookup_insert_ne.
      * intros t Ht. by rewrite kv_upd_ne.
  - injection H as <- <- <-. split_and!; [done|done|by destruct (auth_session auth); [|injection H0]| |done..].
    right. right. done.
Qed.

Lemma uiaa_session_machine_witness :
  ∃ s i0 stages, Some (lit "s") = Some s ∧ [AuthDummy] = ui_completed i0 ++ stages ∧
    i0 = mkUiaaInfo [[AuthDummy; AuthPassword]] [] None None ∧
    ((false = true ∧ flow_completed (mkUiaaInfo [[AuthDummy; AuthPassword]] [AuthDummy] (Some (lit "s")) None) = true ∧
       get_uiaa_session (JU := json_countable UiaaInfo) (lit "@a:b") (lit "D") s
         uiaa_step.2 =
         (Err (BadRequest Forbidden "UIAA session does not exist."),
          uiaa_step.2)) ∨
     (false = false ∧ flow_completed (mkUiaaInfo [[AuthDummy; AuthPassword]] [AuthDummy] (Some (lit "s")) None) = false ∧
       get_uiaa_session (JU := json_countable UiaaInfo) (lit "@a:b") (lit "D") s
         uiaa_step.2 =
         (Ok (mkUiaaInfo [[AuthDummy; AuthPassword]] [AuthDummy] (Some (lit "s")) None),
          uiaa_step.2)) ∨
     (false = false ∧ is_Some (None : option (ErrorKind * string)) ∧
       uiaa_step.2 = uiaa_db)) ∧
    (∀ k, k ≠ userdevicesessionid (lit "@a:b") (lit "D") s →
      kv uiaa_step.2 userdevicesessionid_uiaainfo !! k
      = kv uiaa_db userdevicesessionid_uiaainfo !! k) ∧
    (∀ t, t ≠ userdevicesessionid_uiaainfo →
      kv uiaa_step.2 t = kv uiaa_db t).
Proof.
  apply (uiaa_session_machine sample_ruma (json_countable UiaaInfo) (lit "b") None same_bytes (lit "s") (lit "@a:b") (lit "D")
    (DataDummy None) (mkUiaaInfo [[AuthDummy; AuthPassword]] [] None None) uiaa_db false
    (mkUiaaInfo [[AuthDummy; AuthPassword]] [AuthDummy] (Some (lit "s")) None)).
  reflexivity.
Defined.

(** The password guard lets a request through exactly when the client sent a
    password stage whose identifier parses and whose account either verifies
    the password or has no password entry. *)
Theorem uiaa_password_guard (RU : Ruma) (JU : Json UiaaInfo) server_name token argon2 rs u dv auth json d :
  auth_session auth = None →
  (∃ d', uiaa_guard server_name token argon2 rs u dv [[AuthPassword]] (Some auth) json d = (Ok tt, d')) ↔
  ∃ username password, auth = DataPassword (UserIdOrLocalpart username) password None ∧
    password_accepted server_name argon2 d username password.
Proof.
  intros Hs. split.
  - unfold uiaa_guard, try_auth. rewrite Hs. intros [d' H]. apply bind_inv in H as ([b i] & d1 & H & Hb). cbn [fst] in Hb. destruct b; [|done].
    apply bind_inv in H as (i0 & d0 & [= <- <-] & H). cbn [ui_session] in H.
    apply bind_inv in H as (c & d2 & Hc & H). pose proof (check_stage_pure _ _ _ _ _ _ _ _ Hc) as ->.
    destruct c as [j|j]; [done|].
    destruct auth as [[name|] pw s|tok s|s|s]; cbn [auth_session] in Hs; subst.
    + apply check_password in Hc as (Hp & _ & _). eauto.
    + done.
    + exfalso. cbn [check_stage] in Hc. case_bool_decide; [|done]. by injection Hc as <-.
    + exfalso. by injection Hc as <-.
    + exfalso. by injection Hc as <-.
  - intros (name & pw & -> & Hp). eexists. by apply uiaa_guard_passes.
Qed.

Lemma uiaa_password_guard_witness :
  (∃ d', uiaa_guard (RU := sample_ruma) (JU := json_countable UiaaInfo) (lit "b") None same_bytes (lit "s") (lit "@a:b") (lit "D")
    [[AuthPassword]] (Some (DataPassword (UserIdOrLocalpart (lit "a")) (lit "pw") None)) None uiaa_db = (Ok tt, d')) ↔
  ∃ username password, DataPassword (UserIdOrLocalpart (lit "a")) (lit "pw") None =
      DataPassword (UserIdOrLocalpart username) password None ∧
    password_accepted (RU := sample_ruma) (lit "b") same_bytes uiaa_db username password.
Proof. by apply (uiaa_password_guard sample_ruma (json_countable UiaaInfo)). Defined.

(** C34: The guard authenticates nobody in particular: a password stage that
    names a user without an account passes for every sender, whatever the
    password, though the sender's own account has another one. *)
Theorem uiaa_unknown_user_passes (RU : Ruma) (JU : Json UiaaInfo) server_name token argon2 rs sender dv
    username uid password json d :
  parse_with_server_name username server_name = Some uid → kv d userid_password !! uid = None →
  ∃ d', uiaa_guard server_name token argon2 rs sender dv [[AuthPassword]]
    (Some (DataPassword (UserIdOrLocalpart username) password None)) json d = (Ok tt, d').
Proof.
  intros Hp Hn. eexists. apply uiaa_guard_passes. exists uid. eauto.
Qed.

Lemma uiaa_unknown_user_passes_witness :
  ∃ d', uiaa_guard (RU := sample_ruma) (JU := json_countable UiaaInfo) (lit "b") None same_bytes (lit "s") (lit "@a:b") (lit "D")
    [[AuthPassword]] (Some (DataPassword (UserIdOrLocalpart (lit "nobody")) (lit "anything") None)) None uiaa_db = (Ok tt, d').
Proof.
  apply (uiaa_unknown_user_passes sample_ruma (json_countable UiaaInfo) (lit "b") None same_bytes (lit "s") (lit "@a:b") (lit "D")
    (lit "nobody") (lit "@nobody:b")); by vm_compute.
Defined.
