(* ===== verification/Appservice.v ===== *)
(** * Appservice: registered bridges and bots, and the services' shared state

    [server/src/service/appservice/mod.rs] and
    [server/src/database/key_value/appservice.rs].  The compiled registrations
    are an in-memory map beside the database, so the state of the services the
    client API uses is introduced here: the database, that map, the nonce store
    and the queue of messages to the admin room. *)
From S2P Require Import Prelude Bytes KvTree Pdu Database SolanaAuth.

(** ** Registrations (ruma's types) *)

Record Namespace := mkNamespace { ns_exclusive : bool; ns_regex : bytes }.

Record Registration := mkRegistration {
  reg_id : bytes;
  url : option bytes;
  as_token : bytes;
  hs_token : bytes;
  sender_localpart : bytes;
  ns_users : list Namespace;
  ns_aliases : list Namespace;
  ns_rooms : list Namespace;
}.

#[global] Instance Namespace_eq_dec : EqDecision Namespace.
Proof. solve_decision. Defined.

#[global] Program Instance Namespace_countable : Countable Namespace :=
  inj_countable' (λ n, (ns_exclusive n, ns_regex n)) (λ '(e, r), mkNamespace e r) _.
Next Obligation. by intros []. Qed.

#[global] Instance Registration_eq_dec : EqDecision Registration.
Proof. solve_decision. Defined.

#[global] Program Instance Registration_countable : Countable Registration :=
  inj_countable'
    (λ r, (reg_id r, url r, as_token r, hs_token r, sender_localpart r, ns_users r, ns_aliases r, ns_rooms r))
    (λ '(a, b, c, d, e, f, g, h), mkRegistration a b c d e f g h) _.
Next Obligation. by intros []. Qed.

(** The regex crate: which patterns compile, and whether a compiled set
    matches. *)
Class Regex := {
  RegexSet : Type;
  regex_set_new : list bytes → option RegexSet;
  regex_is_match : RegexSet → bytes → bool;
}.

(** [UserId::localpart]. *)
Class Localpart := { localpart : bytes → bytes }.

Section registrations.
Context {RX : Regex} {LP : Localpart}.

Record NamespaceRegex := mkNamespaceRegex {
  exclusive : option RegexSet;
  non_exclusive : option RegexSet;
}.

(** Checks if this namespace has exclusive rights to a namespace. *)
Definition is_exclusive_match (n : NamespaceRegex) (heystack : bytes) : bool :=
  match exclusive n with
  | Some e => regex_is_match e heystack
  | None => false
  end.

(** Checks if this namespace has rights to a namespace. *)
Definition is_match (n : NamespaceRegex) (heystack : bytes) : bool :=
  if is_exclusive_match n heystack then true
  else match non_exclusive n with
       | Some ne => if regex_is_match ne heystack then true else false
       | None => false
       end.

Definition compile_set (patterns : list bytes) : res (option RegexSet) :=
  if bool_decide (patterns = []) then Ok None
  else Some <$> ok_or (regex_set_new patterns) RegexError.

(** [TryFrom<Vec<Namespace>> for NamespaceRegex]. *)
Definition namespace_regex (value : list Namespace) : res NamespaceRegex :=
  let exclusive := ns_regex <$> bfilter ns_exclusive value in
  let non_exclusive := ns_regex <$> bfilter (λ n, negb (ns_exclusive n)) value in
  e ← compile_set exclusive;
  ne ← compile_set non_exclusive;
  Ok (mkNamespaceRegex e ne).

(** Registration combined with its compiled regular expressions. *)
Record RegistrationInfo := mkRegistrationInfo {
  registration : Registration;
  users : NamespaceRegex;
  aliases : NamespaceRegex;
  rooms : NamespaceRegex;
}.

Definition is_user_match (info : RegistrationInfo) (user_id : bytes) : bool :=
  is_match (users info) user_id || bool_decide (sender_localpart (registration info) = localpart user_id).

Definition is_exclusive_user_match (info : RegistrationInfo) (user_id : bytes) : bool :=
  is_exclusive_match (users info) user_id || bool_decide (sender_localpart (registration info) = localpart user_id).

(** [TryFrom<Registration> for RegistrationInfo]. *)
Definition registration_info_of (value : Registration) : res RegistrationInfo :=
  users ← namespace_regex (ns_users value);
  aliases ← namespace_regex (ns_aliases value);
  rooms ← namespace_regex (ns_rooms value);
  Ok (mkRegistrationInfo value users aliases rooms).

(** ** The services' state *)

Record Services := mkServices {
  db : Db;
  registration_info : gmap bytes RegistrationInfo;
  nonces : Nonces;
  admin_queue : list bytes;
}.

(** Run a computation on the database, or on the nonce store. *)
Definition on_db {A} (m : M Db A) : M Services A := λ s,
  let '(r, d) := m (db s) in (r, mkServices d (registration_info s) (nonces s) (admin_queue s)).

Definition on_nonces {A} (m : M Nonces A) : M Services A := λ s,
  let '(r, n) := m (nonces s) in (r, mkServices (db s) (registration_info s) n (admin_queue s)).

Definition set_registrations (f : gmap bytes RegistrationInfo → gmap bytes RegistrationInfo) : M Services unit :=
  modify (λ s, mkServices (db s) (f (registration_info s)) (nonces s) (admin_queue s)).

(** [services().admin.send_message]: into the queue of the admin room. *)
Definition send_admin_message (m : bytes) : M Services unit :=
  modify (λ s, mkServices (db s) (registration_info s) (nonces s) (admin_queue s ++ [m])).

(** The values of a [BTreeMap], by ascending key. *)
Definition btree_values {A} (m : gmap bytes A) : list A :=
  omap (m !!.) (merge_sort (λ a b, bleb a b = true) (map_to_list m).*1).

Definition btree_keys {A} (m : gmap bytes A) : list bytes :=
  merge_sort (λ a b, bleb a b = true) (map_to_list m).*1.

(** ** Database *)

Context `{JR : !Json Registration}.

Definition db_register_appservice (yaml : Registration) : M Db bytes :=
  insert id_appserviceregistrations (reg_id yaml) (to_vec yaml);;
  mret (reg_id yaml).

Definition db_unregister_appservice (service_name : bytes) : M Db unit :=
  remove id_appserviceregistrations service_name.

Definition db_get_registration (id : bytes) : M Db (option Registration) :=
  o ← get id_appserviceregistrations id;
  lift (map_transpose (λ bs, ok_or (from_slice bs)
    (BadDatabase "Invalid registration bytes in id_appserviceregistrations.")) o).

Definition db_iter_ids (d : Db) : list (res bytes) :=
  (λ e, ok_or (string_from_bytes e.1) (BadDatabase "Invalid id bytes in id_appserviceregistrations."))
    <$> kv_iter (kv d id_appserviceregistrations).

(** Every registration; a missing one panics. *)
Definition db_all (d : Db) : res (list (bytes * Registration)) :=
  collect ((λ id, o ← (db_get_registration id d).1; r ← expect o; Ok (id, r)) <$> oks (db_iter_ids d)).

(** ** The service *)

(** [Service::build]: compile the stored registrations. *)
Definition build (d : Db) : res (gmap bytes RegistrationInfo) :=
  l ← db_all d;
  infos ← collect ((λ '(id, r), match registration_info_of r with
                                | Ok i => Ok (id, i)
                                | _ => Panic
                                end) <$> l);
  Ok (fold_left (λ m '(id, i), <[id := i]> m) infos ∅).

Definition register_appservice (yaml : Registration) : M Services bytes :=
  info ← lift (registration_info_of yaml);
  set_registrations <[reg_id yaml := info]>;;
  on_db (db_register_appservice yaml).

Definition unregister_appservice (service_name : bytes) : M Services unit :=
  o ← gets (λ s, Ok (registration_info s !! service_name));
  set_registrations (delete service_name);;
  lift (ok_or o (AdminCommand "Appservice not found"));;
  on_db (db_unregister_appservice service_name).

Definition get_registration (id : bytes) (s : Services) : option Registration :=
  registration <$> registration_info s !! id.

Definition iter_ids (s : Services) : list bytes := btree_keys (registration_info s).

Definition find_from_as_token (token : bytes) (s : Services) : option RegistrationInfo :=
  find (λ info, bool_decide (as_token (registration info) = token)) (btree_values (registration_info s)).

(** Checks if a given user id matches any exclusive appservice regex. *)
Definition is_exclusive_user_id (user_id : bytes) (s : Services) : bool :=
  existsb (λ info, is_exclusive_user_match info user_id) (btree_values (registration_info s)).

Definition is_exclusive_alias (alias : bytes) (s : Services) : bool :=
  existsb (λ info, is_exclusive_match (aliases info) alias) (btree_values (registration_info s)).

Definition is_exclusive_room_id (room_id : bytes) (s : Services) : bool :=
  existsb (λ info, is_exclusive_match (rooms info) room_id) (btree_values (registration_info s)).

(** * Lemmas *)

Lemma elem_of_btree_values {A} (m : gmap bytes A) x : x ∈ btree_values m ↔ ∃ k, m !! k = Some x.
Proof.
  unfold btree_values. rewrite list_elem_of_omap. setoid_rewrite merge_sort_Permutation. split.
  - intros (k & _ & Hk). eauto.
  - intros [k Hk]. exists k. split; [|done]. apply list_elem_of_fmap. exists (k, x). split; [done|].
    by apply elem_of_map_to_list.
Qed.

(** The in-memory map is the compiled form of the tree: the stored
    registrations are those of the map, under the same ids. *)
Definition AppserviceInv (s : Services) : Prop :=
  (∀ id i, registration_info s !! id = Some i →
    reg_id (registration i) = id ∧ utf8_valid id = true ∧ registration_info_of (registration i) = Ok i ∧
    kv (db s) id_appserviceregistrations !! id = Some (to_vec (registration i))) ∧
  (∀ id v, kv (db s) id_appserviceregistrations !! id = Some v → is_Some (registration_info s !! id)).

Lemma registration_info_of_reg r i : registration_info_of r = Ok i → registration i = r.
Proof.
  unfold registration_info_of. destruct (namespace_regex (ns_users r)); cbn; [|done..].
  destruct (namespace_regex (ns_aliases r)); cbn; [|done..]. destruct (namespace_regex (ns_rooms r)); cbn; [|done..].
  by intros [= <-].
Qed.

Lemma register_appservice_inv yaml s id s' :
  AppserviceInv s → utf8_valid (reg_id yaml) = true → register_appservice yaml s = (Ok id, s') →
  AppserviceInv s' ∧ id = reg_id yaml ∧ get_registration id s' = Some yaml.
Proof.
  intros [H1 H2] Hu. unfold register_appservice, db_register_appservice, on_db, insert, set_registrations. run.
  destruct (registration_info_of yaml) as [i| |] eqn:Ei; [|done..]. intros [= <- <-].
  pose proof (registration_info_of_reg _ _ Ei) as Er. split; [split|split].
  - intros id' i'. cbn [registration_info db]. rewrite lookup_insert. kv_simpl. unfold kv_insert. rewrite lookup_insert.
    case_decide as E; [|apply H1]. intros [= <-]. rewrite Er. subst id'. by split_and!.
  - intros id' v. cbn [registration_info db]. kv_simpl. unfold kv_insert. rewrite !lookup_insert.
    case_decide; [eauto|]. apply H2.
  - done.
  - unfold get_registration. cbn. rewrite lookup_insert_eq. cbn. by rewrite Er.
Qed.

Lemma unregister_appservice_inv name s s' :
  AppserviceInv s → unregister_appservice name s = (Ok tt, s') →
  AppserviceInv s' ∧ get_registration name s' = None.
Proof.
  intros [H1 H2]. unfold unregister_appservice, db_unregister_appservice, on_db, remove, set_registrations. run.
  destruct (registration_info s !! name) as [i|]; [|done]. intros [= <-]. split; [split|].
  - intros id' i'. cbn [registration_info db]. kv_simpl. unfold kv_remove. rewrite !lookup_delete. case_decide; [done|]. apply H1.
  - intros id' v. cbn [registration_info db]. kv_simpl. unfold kv_remove. rewrite !lookup_delete. case_decide; [done|]. apply H2.
  - unfold get_registration. cbn. by rewrite lookup_delete_eq.
Qed.

(** The calls that change registrations. *)
Inductive AsOp := RegisterAs (yaml : Registration) | UnregisterAs (service_name : bytes).

Definition as_step (op : AsOp) (s : Services) : Services :=
  match op with
  | RegisterAs yaml => (register_appservice yaml s).2
  | UnregisterAs name => (unregister_appservice name s).2
  end.

Definition as_op_ok (op : AsOp) : Prop :=
  match op with RegisterAs yaml => utf8_valid (reg_id yaml) = true | UnregisterAs _ => True end.

Lemma as_step_inv op s : AppserviceInv s → as_op_ok op → AppserviceInv (as_step op s).
Proof.
  intros HI Ho. destruct op as [yaml|name]; cbn [as_step].
  - destruct (register_appservice yaml s) as [r s'] eqn:E. destruct r as [id|e|].
    + by eapply register_appservice_inv.
    + unfold register_appservice in E. run in E.
      destruct (registration_info_of yaml); [done|by injection E as _ <-|done].
    + unfold register_appservice in E. run in E.
      destruct (registration_info_of yaml); [done|done|by injection E as <-].
  - destruct (registration_info s !! name) as [i|] eqn:Ei.
    + destruct (unregister_appservice name s) as [r s'] eqn:E.
      assert (r = Ok tt) as ->.
      { unfold unregister_appservice, db_unregister_appservice, on_db, remove, set_registrations in E. run in E.
        rewrite Ei in E. by injection E. }
      by eapply unregister_appservice_inv.
    + unfold unregister_appservice, set_registrations. run. rewrite Ei. cbn [ok_or snd].
      rewrite delete_id by done. by destruct s.
Qed.

Definition no_registration : Registration := mkRegistration [] None [] [] [] [] [] [].

Definition reg_at (s : Services) (id : bytes) : Registration := default no_registration (get_registration id s).

Lemma db_all_spec s :
  AppserviceInv s →
  db_all (db s) = Ok ((λ e, (e.1, reg_at s e.1)) <$> entries (kv (db s) id_appserviceregistrations)).
Proof.
  intros [H1 H2]. unfold db_all, db_iter_ids, kv_iter.
  assert (∀ e, e ∈ entries (kv (db s) id_appserviceregistrations) →
    ∃ i, registration_info s !! e.1 = Some i ∧ e.2 = to_vec (registration i)) as He.
  { intros [k v] Hk%elem_of_entries. cbn. destruct (H2 _ _ Hk) as [i Hi]. exists i. split; [done|].
    destruct (H1 _ _ Hi) as (_ & _ & _ & Hk'). congruence. }
  rewrite (oks_fmap_ok _ fst); last first.
  { intros e Hin. destruct (He e Hin) as (i & Hi & _). destruct (H1 _ _ Hi) as (_ & Hu & _).
    by rewrite string_from_bytes_valid. }
  rewrite <-list_fmap_compose. apply collect_fmap_ok. intros e Hin. destruct (He e Hin) as (i & Hi & Ev). cbn.
  unfold db_get_registration, get, kv_get. run. rewrite elem_of_entries' in Hin. rewrite Hin, Ev. cbn [map_transpose].
  rewrite from_slice_to_vec. cbn. unfold reg_at, get_registration. by rewrite Hi.
Qed.

Lemma build_spec s : AppserviceInv s → build (db s) = Ok (registration_info s).
Proof.
  intros HI. pose proof HI as [H1 H2]. unfold build. rewrite db_all_spec by done. cbn.
  set (l := entries (kv (db s) id_appserviceregistrations)).
  assert (∀ k i, registration_info s !! k = Some i ↔ ∃ v, (k, v) ∈ l ∧ registration_info_of (reg_at s k) = Ok i) as Hl.
  { intros k i. unfold reg_at, get_registration. split.
    - intros Hi. destruct (H1 _ _ Hi) as (_ & _ & Hc & Hk). rewrite Hi. eexists. split; [by apply elem_of_entries|done].
    - intros (v & Hk%elem_of_entries & Hc). destruct (H2 _ _ Hk) as [i' Hi']. rewrite Hi' in Hc. cbn in Hc.
      destruct (H1 _ _ Hi') as (_ & _ & Hc' & _). congruence. }
  rewrite <-list_fmap_compose. rewrite (collect_fmap_ok _
    (λ e, (e.1, default (mkRegistrationInfo no_registration (mkNamespaceRegex None None)
      (mkNamespaceRegex None None) (mkNamespaceRegex None None)) (registration_info s !! e.1)))); last first.
  { intros [k v] Hin. cbn. apply elem_of_entries in Hin as Hk. destruct (H2 _ _ Hk) as [i Hi].
    pose proof (proj1 (Hl k i) Hi) as (_ & _ & ->). by rewrite Hi. }
  cbn. f_equal. apply map_eq. intros k. apply option_eq. intros i.
  rewrite lookup_fold_map; last first.
  { intros k' x y ((k1 & v1) & [= -> ->] & _)%list_elem_of_fmap ((k2 & v2) & [= -> ->] & _)%list_elem_of_fmap. done. }
  rewrite list_elem_of_fmap, Hl. split.
  - intros ((k' & v) & [= -> ->] & Hin). cbn in *. apply elem_of_entries in Hin as Hk. destruct (H2 _ _ Hk) as [i Hi].
    rewrite Hi. cbn. exists v. split; [done|]. by apply (proj1 (Hl _ i)) in Hi as (_ & _ & ?).
  - intros (v & Hin & Hc). exists (k, v). split; [|done]. cbn.
    rewrite (proj2 (Hl k i)) by eauto. done.
Qed.
End registrations.

(** * Claims *)

(** Registrations survive a restart.  After any sequence of registrations and
    removals, failed ones included, from an empty server, rebuilding the
    service from the database gives back exactly the compiled registrations in
    memory. *)
Theorem appservice_restart (RX : Regex) (JR : Json Registration) ops nonces queue :
  Forall as_op_ok ops →
  let s := fold_left (λ s op, as_step op s) ops (mkServices empty_db ∅ nonces queue) in
  build (db s) = Ok (registration_info s).
Proof.
  intros Hops. cbv zeta. apply build_spec.
  assert (AppserviceInv (mkServices empty_db ∅ nonces queue)) as HI.
  { split; intros id x; cbn; by rewrite lookup_empty. }
  revert HI. generalize (mkServices empty_db ∅ nonces queue). induction Hops as [|op ops Hop _ IH]; intros s HI; [done|].
  cbn [fold_left]. by apply IH, as_step_inv.
Qed.

(** A regex crate for the witnesses: a pattern is a literal prefix. *)
Definition sample_regex : Regex := {|
  RegexSet := list bytes;
  regex_set_new := Some;
  regex_is_match := λ ps s, existsb (λ p, starts_with p s) ps;
|}.

Definition sample_registration : Registration :=
  mkRegistration (lit "irc") None (lit "t") (lit "h") (lit "ircbot") [mkNamespace true (lit "@irc_")] [] [].

Lemma appservice_restart_witness :
  build (RX := sample_regex) (JR := json_countable Registration)
    (db (fold_left (λ s op, as_step (RX := sample_regex) (JR := json_countable Registration) op s)
      [RegisterAs sample_registration] (mkServices empty_db ∅ ∅ []))) =
  Ok (registration_info (fold_left (λ s op, as_step (RX := sample_regex) (JR := json_countable Registration) op s)
      [RegisterAs sample_registration] (mkServices empty_db ∅ ∅ []))).
Proof. apply (appservice_restart sample_regex (json_countable Registration)). by repeat constructor. Defined.
