(* ===== verification/TimelineService.v ===== *)
(** * TimelineService: adding an event to a room

    [append_pdu], [append_incoming_pdu] and [redact_pdu] of
    [server/src/service/rooms/timeline/mod.rs], [add_to_thread] of
    [server/src/service/rooms/threads/mod.rs] and [force_state] of
    [server/src/service/rooms/state/mod.rs].  Appending an event goes through
    nearly every other component: it is stored in the timeline, then push
    rules are evaluated, redactions, memberships, the search index and
    relations follow, and pushers and appservices are queued for sending.
    Mutex guards are not modelled: each call runs alone on its room.  The JSON
    of contents and ruma's push rule evaluation are parameters. *)
From S2P Require Import Prelude Bytes JsonValue KvTree Pdu Database Short StateCompressor RoomState Accounts StateCache.
From S2P Require Import Timeline PduJson AccountData Devices UserKeys AuthChain Edus RoomTables Search Sending.
From S2P Require Import StateAccess MemberEvents Appservice.

(** [CanonicalJsonObject]. *)
Abbreviation CanonicalJsonObject := (list (bytes * Value)).

(** The services an event touches: the database with the sending queue, the
    rooms whose space hierarchy is cached, and the messages for the admin room. *)
Record Server := mkServer {
  sv_sender : Sender;
  sv_spaces : gset bytes;
  sv_admin : list bytes;
}.

Definition sv_db (s : Server) : Db := s_db (sv_sender s).

Definition on_sender {A} (m : M Sender A) : M Server A := λ s,
  let '(r, x) := m (sv_sender s) in (r, mkServer x (sv_spaces s) (sv_admin s)).

Definition db_ {A} (m : M Db A) : M Server A := on_sender (with_db m).

(** [Result::unwrap]. *)
Definition unwrap {S A} (m : M S A) : M S A := λ s,
  match m s with
  | (Err _, s') => (Panic, s')
  | rs => rs
  end.

(** The actions of push rules the server acts on. *)
Inductive Action := ActNotify | ActHighlight (b : bool) | ActOther.

Inductive Relation := RelReply (event_id : bytes) | RelThread (event_id : bytes) | RelOther.

(** What the contents of events parse to. *)
Class EventBodies := {
  (** [ExtractMembership] *)
  extract_membership : bytes → option MembershipState;
  (** [ExtractBody] with an optional body *)
  body_of : bytes → option (option bytes);
  (** [ExtractRelatesToEventId] and [ExtractRelatesTo] *)
  related_event_of : bytes → option bytes;
  relation_of : bytes → option Relation;
  (** [RoomCanonicalAliasEventContent]: alias and alternatives *)
  canonical_alias_of : bytes → option (option bytes * list bytes);
  (** [BundledThread]: count and participation of the current user *)
  thread_of : Value → option (Z * bool);
  thread_value : Value → Z → bool → Value;
  (** the JSON of an event: [to_value] and [to_canonical_object] *)
  pdu_value : PduEvent → Value;
  pdu_object : PduEvent → CanonicalJsonObject;
}.

Section service.
Context {RU : Ruma} {LR : LruCache} {HO : HashOrder} {CT : Contents} {RV : RoomVersions} {EB : EventBodies} {RX : Regex} {LP : Localpart}.
Context `{JP : !Json PduEvent} `{JV : !Json Value} `{JL : !Json (list Value)} `{JR : !Json RedactionContent} `{JF : !Json CanonicalJsonObject}.
Context (sha256 : bytes → bytes) (is_alphanumeric : bytes → bool) (to_lowercase : bytes → bytes).
Context (server_name server_user admin_alias : bytes) (emergency_password : bool) (calculate_password_hash : bytes → option bytes).
Context (direct_of : Value → option (list (bytes * list bytes))) (direct_value : list (bytes * list bytes) → Value) (ignored_of : Value → option (list bytes)).
Context (stripped_types : list bytes).
Context (redact_content_in_place : RedactRules → bytes → Value → option Value).
Context {Ruleset : Type} (rules_of_event : Value → option Ruleset) (server_default : bytes → Ruleset).
(** [Ruleset::get_actions] on an event, in a room, for a user with a display
    name, under the power levels. *)
Context (ruleset_get_actions : Ruleset → Value → bytes → bytes → bytes → PowerLevels → list Action).
(** The registered appservices, by id. *)
Context (appservices : list RegistrationInfo).

(** * Redaction *)

(** [PduEvent::redact]: the content loses what the rules do not keep, and
    [unsigned] names the reason. *)
Definition redact (redaction_rules : RedactRules) (reason self : PduEvent) : res PduEvent :=
  content ← ok_or (from_slice (pdu_content self)) (BadDatabase "PDU in db has invalid content.");
  content ← ok_or (redact_content_in_place redaction_rules (pdu_kind self) content) (BadDatabase "RedactionError");
  Ok (mkPdu (pdu_event_id self) (pdu_room_id self) (pdu_sender self) (pdu_origin_server_ts self) (pdu_kind self)
        (to_vec (content : Value)) (pdu_state_key self) (pdu_prev_events self) (pdu_depth self) (pdu_auth_events self)
        (pdu_redacts self) (Some (to_vec (VObject [(lit "redacted_because", pdu_value reason)]))) (pdu_hashes self) (pdu_signatures self)).

(** Replace a PDU with the redacted form. *)
Definition redact_pdu (event_id : bytes) (reason : PduEvent) (shortroomid : Z) : M Db unit :=
  o ← get_pdu_id event_id;
  match o with
  | None => mret tt
  | Some pdu_id =>
      o' ← get_pdu_from_id pdu_id;
      pdu ← lift (ok_or o' (BadDatabase "PDU ID points to invalid PDU."));
      match body_of (pdu_content pdu) with
      | Some (Some body) => deindex_pdu is_alphanumeric to_lowercase shortroomid pdu_id body
      | _ => mret tt
      end;;
      room ← lift (room_id pdu);
      room_version_id ← get_room_version room;
      rules ← lift (expect (redaction_rules room_version_id));
      pdu ← lift (redact rules reason pdu);
      replace_pdu pdu_id (pdu_object pdu) pdu
  end.

(** * Threads *)

Definition add_to_thread (root_event_id : bytes) (pdu : PduEvent) : M Db unit :=
  o ← get_pdu_id root_event_id;
  root_id ← lift (ok_or o (BadRequest InvalidParam "Invalid event id in thread message"));
  o ← get_pdu_from_id root_id;
  root_pdu ← lift (ok_or o (BadRequest InvalidParam "Thread root pdu not found"));
  o ← get_pdu_json_from_id root_id;
  root_pdu_json ← lift (ok_or (o : option CanonicalJsonObject) (BadRequest InvalidParam "Thread root pdu not found"));
  match default (VObject []) (field (lit "unsigned") root_pdu_json) with
  | VObject unsigned =>
      latest ← lift (to_sync_message_like_event pdu);
      let old := match field (lit "m.relations") unsigned with
                 | Some r => match value_get (lit "m.thread") r with Some t => thread_of t | None => None end
                 | None => None
                 end in
      let content := match old with
                     | Some (count, participated) => thread_value latest (count + 1) participated
                     | None => thread_value latest 1 true
                     end in
      let unsigned := set_json_field (lit "m.relations") (VObject [(lit "m.thread", content)]) unsigned in
      replace_pdu root_id (set_json_field (lit "unsigned") (VObject unsigned) root_pdu_json) root_pdu
  | _ => mret tt
  end;;
  userids ← get_participants root_id;
  update_participants root_id
    (match userids with
     | Some userids => userids ++ [pdu_sender pdu]
     | None => [pdu_sender root_pdu; pdu_sender pdu]
     end).

(** * Storing the event *)

(** State events carry the previous content in [unsigned]. *)
Definition fix_unsigned (pdu : PduEvent) (pdu_json : CanonicalJsonObject) : M Db CanonicalJsonObject :=
  match pdu_state_key pdu with
  | None => mret pdu_json
  | Some state_key =>
      match default (VObject []) (field (lit "unsigned") pdu_json) with
      | VObject unsigned =>
          let with_unsigned u := set_json_field (lit "unsigned") (VObject u) pdu_json in
          o ← unwrap (pdu_shortstatehash (pdu_event_id pdu));
          match o with
          | None => mret (with_unsigned unsigned)
          | Some shortstatehash =>
              prev_state ← unwrap (state_get shortstatehash (pdu_kind pdu) state_key);
              match prev_state with
              | None => mret (with_unsigned unsigned)
              | Some prev_state =>
                  content ← lift (raw_json (pdu_content prev_state));
                  match content with
                  | VObject c => mret (with_unsigned (set_json_field (lit "prev_content") (VObject c) unsigned))
                  | _ => lift Panic
                  end
              end
          end
      | _ => mret pdu_json
      end
  end.

(** The first part of [append_pdu], up to the insertion: the short room id, the
    id and the position of the event. *)
Definition store_event (pdu : PduEvent) (pdu_json : CanonicalJsonObject) (leaves : list bytes) : M Db (Z * bytes * Z) :=
  room ← lift (room_id pdu);
  o ← get_shortroomid room;
  shortroomid ← lift (expect o);
  pdu_json ← fix_unsigned pdu pdu_json;
  mark_as_referenced room (pdu_prev_events pdu);;
  set_forward_extremities room leaves;;
  count1 ← next_count;
  private_read_set room (pdu_sender pdu) count1;;
  reset_notification_counts (pdu_sender pdu) room;;
  count2 ← next_count;
  let pdu_id := to_be_bytes shortroomid ++ to_be_bytes count2 in
  append_pdu pdu_id pdu pdu_json count2;;
  mret (shortroomid, pdu_id, count2).

(** * Push notifications *)

Definition get_actions (user : bytes) (ruleset : Ruleset) (levels : PowerLevels) (sync_pdu : Value) (room : bytes) : M Db (list Action) :=
  name ← displayname user;
  mret (ruleset_get_actions ruleset sync_pdu room user (default (localpart user) name) levels).

(** One target: its notification and highlight, and its pushers. *)
Definition push_user (pdu : PduEvent) (pdu_id room : bytes) (levels : PowerLevels) (sync_pdu : Value)
    (acc : list bytes * list bytes) (user : bytes) : M Server (list bytes * list bytes) :=
  let '(notifies, highlights) := acc in
  (* Don't notify the user of their own events *)
  if bool_decide (user = pdu_sender pdu) then mret acc else
  o ← db_ (get_data None user (lit "m.push_rules"));
  rules ← lift (map_transpose (λ event, ok_or (rules_of_event event) (BadDatabase "Invalid push rules event in db.")) o);
  let rules_for_user := default (server_default user) rules in
  actions ← db_ (get_actions user rules_for_user levels sync_pdu room);
  let notify := existsb (λ a, match a with ActNotify => true | _ => false end) actions in
  let highlight := existsb (λ a, match a with ActHighlight b => b | _ => false end) actions in
  push_keys ← gets (λ s, Ok (get_pushkeys user (sv_db s)));
  for_each push_keys (λ push_key, push_key ← lift push_key; on_sender (send_push_pdu pdu_id user push_key));;
  mret (if notify then notifies ++ [user] else notifies, if highlight then highlights ++ [user] else highlights).

(** See if the event matches any known pushers; the create event notifies no
    one. *)
Definition push_notifications (pdu : PduEvent) (pdu_id room : bytes) : M Server unit :=
  if bool_decide (pdu_kind pdu = lit "m.room.create") && bool_decide (pdu_state_key pdu = Some []) then mret tt else
  levels ← try_ok (db_ (power_levels room));
  match levels with
  | None => mret tt
  | Some levels =>
      sync_pdu ← lift (to_sync_room_event pdu);
      push_target ← db_ (get_our_real_users server_name room);
      push_target ← lift (match pdu_state_key pdu with
        | Some state_key =>
            if bool_decide (pdu_kind pdu = lit "m.room.member")
            then if user_id_ok state_key then Ok ({[state_key]} ∪ push_target) else Panic
            else Ok push_target
        | None => Ok push_target
        end);
      '(notifies, highlights) ← foldM (push_user pdu pdu_id room levels sync_pdu) ([], []) (hash_iter push_target);
      db_ (increment_notification_counts room notifies highlights)
  end.

(** * What the kinds of events do *)

(** A redaction whose sender may redact. *)
Definition redact_if_allowed (redact_id : bytes) (pdu : PduEvent) (room : bytes) (shortroomid : Z) : M Db unit :=
  can ← user_can_redact redact_id (pdu_sender pdu) room false;
  if (can : bool) then redact_pdu redact_id pdu shortroomid else mret tt.

Definition redaction_effect (pdu : PduEvent) (room : bytes) (shortroomid : Z) : M Db unit :=
  room_version_id ← get_room_version room;
  rules ← lift (expect (redaction_rules room_version_id));
  if content_field_redacts rules then
    content ← lift (ok_or (from_slice (pdu_content pdu) : option RedactionContent) (BadDatabase "Invalid content in redaction pdu."));
    match rc_redacts content with
    | Some redact_id => redact_if_allowed redact_id pdu room shortroomid
    | None => mret tt
    end
  else
    match pdu_redacts pdu with
    | Some redact_id => redact_if_allowed redact_id pdu room shortroomid
    | None => mret tt
    end.

Definition member_event_effect (pdu : PduEvent) (room : bytes) : M Db unit :=
  match pdu_state_key pdu with
  | None => mret tt
  | Some state_key =>
      target_user_id ← lift (if user_id_ok state_key then Ok state_key else Panic);
      membership ← lift (ok_or (extract_membership (pdu_content pdu)) (BadDatabase "Invalid content in pdu."));
      stripped_state ← match membership with
        | Invite | Knock =>
            state ← stripped_state_client stripped_types room;
            own ← lift (to_stripped_state_event pdu);
            mret (Some (state ++ [own]))
        | _ => mret None
        end;
      update_membership server_name calculate_password_hash direct_of direct_value ignored_of
        room target_user_id membership (pdu_sender pdu) stripped_state true
  end.

Definition to_conduit (body : bytes) : bool :=
  starts_with (server_user ++ lit ": ") body || starts_with (server_user ++ lit " ") body ||
  bool_decide (body = server_user ++ lit ":") || bool_decide (body = server_user).

Definition message_effect (pdu : PduEvent) (room pdu_id : bytes) (shortroomid : Z) : M Server unit :=
  body ← lift (ok_or (body_of (pdu_content pdu)) (BadDatabase "Invalid content in pdu."));
  match body with
  | None => mret tt
  | Some body =>
      db_ (index_pdu is_alphanumeric to_lowercase shortroomid pdu_id body);;
      let from_conduit := bool_decide (pdu_sender pdu = server_user) && negb emergency_password in
      admin_room ← db_ (resolve_local_alias admin_alias);
      match admin_room with
      | None => mret tt
      | Some admin_room =>
          if to_conduit body && negb from_conduit && bool_decide (admin_room = room) then
            joined ← db_ (is_joined server_user admin_room);
            if (joined : bool) then modify (λ s, mkServer (sv_sender s) (sv_spaces s) (sv_admin s ++ [body])) else mret tt
          else mret tt
      end
  end.

Definition kind_effect (pdu : PduEvent) (room pdu_id : bytes) (shortroomid : Z) : M Server unit :=
  if bool_decide (pdu_kind pdu = lit "m.room.redaction") then db_ (redaction_effect pdu room shortroomid)
  else if bool_decide (pdu_kind pdu = lit "m.space.child") then
    match pdu_state_key pdu with
    | Some _ => modify (λ s, mkServer (sv_sender s) (sv_spaces s ∖ {[room]}) (sv_admin s))
    | None => mret tt
    end
  else if bool_decide (pdu_kind pdu = lit "m.room.member") then db_ (member_event_effect pdu room)
  else if bool_decide (pdu_kind pdu = lit "m.room.message") then message_effect pdu room pdu_id shortroomid
  else mret tt.

(** * Relations *)

(** [pdu_metadata.add_relation]: only between positions of the live timeline. *)
Definition relate (from to : PduCount) : M Db unit :=
  match from, to with
  | Pdu.Normal f, Pdu.Normal t => add_relation f t
  | _, _ => mret tt
  end.

Definition relate_to (count2 : Z) (event_id : bytes) : M Db unit :=
  o ← get_pdu_count event_id;
  match o with
  | Some related_pducount => relate (Pdu.Normal count2) related_pducount
  | None => mret tt
  end.

Definition update_relationships (pdu : PduEvent) (count2 : Z) : M Db unit :=
  match related_event_of (pdu_content pdu) with
  | Some event_id => relate_to count2 event_id
  | None => mret tt
  end;;
  match relation_of (pdu_content pdu) with
  | Some (RelReply event_id) => relate_to count2 event_id
  | Some (RelThread event_id) => add_to_thread event_id pdu
  | _ => mret tt
  end.

(** * Appservices *)

Definition cache_info (a : RegistrationInfo) : StateCache.RegistrationInfo :=
  StateCache.mkRegistrationInfo (reg_id (registration a)) (sender_localpart (registration a)) (is_match (users a)).

Definition matching_users (pdu : PduEvent) (a : RegistrationInfo) : bool :=
  (bool_decide (server_name = server_name_of (pdu_sender pdu)) && is_user_match a (pdu_sender pdu)) ||
  (bool_decide (pdu_kind pdu = lit "m.room.member") &&
   match pdu_state_key pdu with
   | Some state_key => user_id_ok state_key && bool_decide (server_name = server_name_of state_key) && is_user_match a state_key
   | None => false
   end).

Definition matching_aliases (room : bytes) (a : RegistrationInfo) : M Db bool :=
  local ← gets (λ d, Ok (existsb (is_match (aliases a)) (oks (local_aliases_for_room room d))));
  if (local : bool) then mret true else
  o ← try_ok (room_state_get room (lit "m.room.canonical_alias") []);
  mret (match o with
        | Some (Some ev) =>
            match canonical_alias_of (pdu_content ev) with
            | Some (alias, alt_aliases) =>
                match alias with Some alias => is_match (aliases a) alias | None => false end || existsb (is_match (aliases a)) alt_aliases
            | None => false
            end
        | _ => false
        end).

Definition send_to_appservice (pdu : PduEvent) (room pdu_id : bytes) (a : RegistrationInfo) : M Server unit :=
  let send := on_sender (send_pdu_appservice (reg_id (registration a)) pdu_id) in
  in_room ← db_ (appservice_in_room server_name room (cache_info a));
  if (in_room : bool) then send
  else if bool_decide (pdu_kind pdu = lit "m.room.member") &&
          match pdu_state_key pdu with
          | Some state_key_uid => user_id_ok state_key_uid && bool_decide (state_key_uid = sender_localpart (registration a))
          | None => false
          end then send
  else
    by_alias ← db_ (matching_aliases room a);
    if (by_alias : bool) || is_match (rooms a) room || matching_users pdu a then send else mret tt.

(** * Appending *)

(** What follows once the event is stored. *)
Definition after_store (pdu : PduEvent) (room : bytes) (stored : Z * bytes * Z) : M Server bytes :=
  let '(shortroomid, pdu_id, count2) := stored in
  push_notifications pdu pdu_id room;;
  kind_effect pdu room pdu_id shortroomid;;
  db_ (update_relationships pdu count2);;
  for_each appservices (send_to_appservice pdu room pdu_id);;
  mret pdu_id.

(** Creates a new persisted data unit and adds it to a room; returns its id. *)
Definition service_append_pdu (pdu : PduEvent) (pdu_json : CanonicalJsonObject) (leaves : list bytes) : M Server bytes :=
  stored ← db_ (store_event pdu pdu_json leaves);
  room ← lift (room_id pdu);
  after_store pdu room stored.

(** Append the incoming event setting the state snapshot to the state from the
    server that sent the event. *)
Definition append_incoming_pdu (pdu : PduEvent) (pdu_json : CanonicalJsonObject) (new_room_leaves : list bytes)
    (state_ids_compressed : gset bytes) (soft_fail : bool) : M Server (option bytes) :=
  room ← lift (room_id pdu);
  db_ (set_event_state sha256 (pdu_event_id pdu) room state_ids_compressed);;
  if soft_fail then
    db_ (mark_as_referenced room (pdu_prev_events pdu));;
    db_ (set_forward_extremities room new_room_leaves);;
    mret None
  else
    pdu_id ← service_append_pdu pdu pdu_json new_room_leaves;
    mret (Some pdu_id).

(** * Forcing a state *)

(** One new entry of the state: memberships are applied, space hierarchies
    forgotten. *)
Definition force_entry (room_id : bytes) (new : bytes) : M Server unit :=
  r ← try_ok (db_ (parse_compressed_state_event new));
  match r with
  | None => mret tt
  | Some (_, event_id) =>
      o ← db_ (get_pdu_json event_id);
      match o with
      | None => mret tt
      | Some json =>
          match (from_slice (to_vec (json : CanonicalJsonObject)) : option PduEvent) with
          | None => mret tt
          | Some pdu =>
              if bool_decide (pdu_kind pdu = lit "m.room.member") then
                match extract_membership (pdu_content pdu), pdu_state_key pdu with
                | Some membership, Some state_key =>
                    if user_id_ok state_key
                    then db_ (update_membership server_name calculate_password_hash direct_of direct_value ignored_of
                                room_id state_key membership (pdu_sender pdu) None false)
                    else mret tt
                | _, _ => mret tt
                end
              else if bool_decide (pdu_kind pdu = lit "m.space.child") then
                room ← lift (Database.room_id pdu);
                modify (λ s, mkServer (sv_sender s) (sv_spaces s ∖ {[room]}) (sv_admin s))
              else mret tt
          end
      end
  end.

(** Set the room to the given statehash and update caches. *)
Definition force_state (room_id : bytes) (shortstatehash : Z) (statediffnew : gset bytes) : M Server unit :=
  for_each (hash_iter statediffnew) (force_entry room_id);;
  db_ (update_joined_count server_name room_id);;
  db_ (set_room_state room_id shortstatehash).
End service.

(** * What later steps cannot undo *)

(** Computations whose every outcome is related to the state they started in. *)
Section along.
Context {S : Type} (R : S → S → Prop) `{!PreOrder R}.

Definition along {A} (m : M S A) : Prop := ∀ s, R s (m s).2.

Lemma along_ret {A} (a : A) : along (mret a).
Proof using All. intros s. reflexivity. Qed.

Lemma along_lift {A} (r : res A) : along (lift r).
Proof using All. intros s. reflexivity. Qed.

Lemma along_gets {A} (g : S → res A) : along (gets g).
Proof using All. intros s. reflexivity. Qed.

Lemma along_bind {A B} (m : M S A) (k : A → M S B) : along m → (∀ a, along (k a)) → along (m ≫= k).
Proof using All.
  intros Hm Hk s. unfold mbind, M_bind. specialize (Hm s). destruct (m s) as [[a|e|] s']; cbn [snd] in *; [|done..].
  etrans; [done|apply Hk].
Qed.

Lemma along_lift_bind {A B} (r : res A) (k : A → M S B) : (∀ a, r = Ok a → along (k a)) → along (lift r ≫= k).
Proof using All. intros Hk s. unfold mbind, M_bind, lift. destruct r; [by apply Hk|cbn; reflexivity..]. Qed.

Lemma along_try_ok {A} (m : M S A) : along m → along (try_ok m).
Proof. intros Hm s. unfold try_ok. specialize (Hm s). by destruct (m s) as [[]]. Qed.

Lemma along_for_each {A} (l : list A) f : (∀ a, along (f a)) → along (for_each l f).
Proof using All. intros Hf. induction l as [|x l IH]; cbn [for_each]; [apply along_ret|]. by apply along_bind. Qed.
End along.

(** The trees that later steps leave alone altogether. *)
Definition fixed (d : Db) :=
  (kv d eventid_pduid, kv d eventid_outlierpdu, kv d roomid_pduleaves,
   kv d userroomid_notificationcount, kv d userroomid_highlightcount, kv d servernameevent_data, kv d pduid_pdu).

(** The bytes stored at a position are the same, unless one of the given events
    is indexed there. *)
Definition Unrewritten (targets : list bytes) (d d' : Db) : Prop :=
  ∀ k, (∀ id, id ∈ targets → kv d eventid_pduid !! id ≠ Some k) → kv d' pduid_pdu !! k = kv d pduid_pdu !! k.

(** Stored events and queued requests stay, and so do the index, the leaves and
    one user's counts in a room; only the target events may be rewritten. *)
Record Kept (who : bytes) (targets : list bytes) (d d' : Db) : Prop := mk_Kept {
  kept_index : kv d' eventid_pduid = kv d eventid_pduid;
  kept_outliers : kv d' eventid_outlierpdu = kv d eventid_outlierpdu;
  kept_leaves : kv d' roomid_pduleaves = kv d roomid_pduleaves;
  kept_events : ∀ k, is_Some (kv d pduid_pdu !! k) → is_Some (kv d' pduid_pdu !! k);
  kept_bytes : Unrewritten targets d d';
  kept_queue : ∀ k, is_Some (kv d servernameevent_data !! k) → is_Some (kv d' servernameevent_data !! k);
  kept_notifications : kv d' userroomid_notificationcount !! who = kv d userroomid_notificationcount !! who;
  kept_highlights : kv d' userroomid_highlightcount !! who = kv d userroomid_highlightcount !! who;
}.

#[global] Instance Kept_preorder who targets : PreOrder (Kept who targets).
Proof.
  split; [intros d; by split; auto|]. intros d1 d2 d3 [I1 ? ? ? B1 ? ? ?] [I2 ? ? ? B2 ? ? ?]. split; try congruence; auto.
  intros k Hk. rewrite <-(B1 k Hk). apply B2. by rewrite I1.
Qed.

Lemma fixed_kept who targets {A} (m : M Db A) : keeps_field fixed m → along (Kept who targets) m.
Proof.
  intros H d. specialize (H d). injection H as E1 E2 E3 E4 E5 E6 E7.
  split; unfold Unrewritten; rewrite ?E1, ?E2, ?E3, ?E4, ?E5, ?E6, ?E7; auto.
Qed.

Lemma kv_fixed {A} (m : M Db A) : keeps_kv m → keeps_field fixed m.
Proof. intros H d. unfold fixed. by rewrite H. Qed.

Lemma keeps_unwrap {B} (f : Db → B) {A} (m : M Db A) : keeps_field f m → keeps_field f (unwrap m).
Proof. intros Hm d. unfold unwrap. specialize (Hm d). by destruct (m d) as [[]]. Qed.

#[local] Hint Extern 2 (keeps_field _ (unwrap _)) => (apply keeps_unwrap) : keeps.

Lemma keeps_next_count : keeps_field fixed next_count.
Proof. unfold next_count. keeps. Qed.
#[local] Hint Resolve keeps_next_count : keeps.

Section kept.
Context {RU : Ruma} {LR : LruCache} {HO : HashOrder} {CT : Contents} {RV : RoomVersions} {EB : EventBodies} {RX : Regex} {LP : Localpart}.
Context {JP : Json PduEvent} {JV : Json Value} {JL : Json (list Value)} {JR : Json RedactionContent} {JF : Json CanonicalJsonObject}.

Lemma keeps_room_state room t k : keeps_field fixed (room_state_get room t k).
Proof. apply kv_fixed, keeps_room_state_get. Qed.
#[local] Hint Resolve keeps_room_state : keeps.

Lemma keeps_get_pdu_fixed id : keeps_field fixed (get_pdu id).
Proof. apply kv_fixed, keeps_get_pdu. Qed.
#[local] Hint Resolve keeps_get_pdu_fixed : keeps.

Lemma keeps_room_version room : keeps_field fixed (get_room_version room).
Proof. unfold get_room_version. keeps. Qed.

Lemma keeps_power_levels room : keeps_field fixed (power_levels room).
Proof. unfold power_levels. keeps. Qed.
#[local] Hint Resolve keeps_room_version keeps_power_levels : keeps.

Lemma keeps_user_can_redact id sender room b : keeps_field fixed (user_can_redact id sender room b).
Proof. unfold user_can_redact. keeps. Qed.

Lemma keeps_update_joined_count server_name room : keeps_field fixed (update_joined_count server_name room).
Proof. unfold update_joined_count, drop_old_server, add_server. keeps. Qed.
#[local] Hint Resolve keeps_update_joined_count keeps_user_can_redact : keeps.

Lemma keeps_update_membership server_name hash direct_of direct_value ignored_of room user ms sender last b :
  keeps_field fixed (update_membership server_name hash direct_of direct_value ignored_of room user ms sender last b).
Proof.
  unfold update_membership, create, set_password, once_joined, has_userroom, first_join, mark_as_once_joined, copy_settings, get_data, update,
    mark_as_joined, mark_as_invited, mark_as_knocked, mark_as_left, is_ignored. keeps.
Qed.
#[local] Hint Resolve keeps_update_membership : keeps.

Lemma keeps_stripped types room : keeps_field fixed (stripped_state_client types room).
Proof. unfold stripped_state_client. keeps. Qed.
#[local] Hint Resolve keeps_stripped : keeps.

Lemma keeps_member_event server_name hash direct_of direct_value ignored_of types pdu room :
  keeps_field fixed (member_event_effect server_name hash direct_of direct_value ignored_of types pdu room).
Proof. unfold member_event_effect. keeps. Qed.

Lemma keeps_deindex alnum lower s p b : keeps_field fixed (deindex_pdu alnum lower s p b).
Proof. unfold deindex_pdu. keeps. Qed.

Lemma keeps_index alnum lower s p b : keeps_field fixed (index_pdu alnum lower s p b).
Proof. unfold index_pdu. keeps. Qed.

Lemma keeps_our_real_users server_name room : keeps_field fixed (get_our_real_users server_name room).
Proof. unfold get_our_real_users. keeps. Qed.

Lemma keeps_appservice_in_room server_name room a : keeps_field fixed (appservice_in_room server_name room a).
Proof. unfold appservice_in_room. keeps. Qed.

Lemma keeps_matching_aliases room a : keeps_field fixed (matching_aliases room a).
Proof. unfold matching_aliases. keeps. Qed.

(** ** Steps that change stored events or the queue *)

Create HintDb along discriminated.
#[local] Hint Extern 1 (along _ (mret _)) => (apply along_ret; apply _) : along.
#[local] Hint Extern 1 (along _ (lift _)) => (apply along_lift; apply _) : along.
#[local] Hint Extern 1 (along _ (gets _)) => (apply along_gets; apply _) : along.
#[local] Hint Extern 5 (along (Kept _ _) _) => (apply fixed_kept; solve [eauto with keeps]) : along.
#[local] Hint Resolve keeps_member_event keeps_deindex keeps_index keeps_our_real_users keeps_appservice_in_room keeps_matching_aliases : keeps.

Ltac alongs := repeat first
  [ progress (intros; cbv beta)
  | solve [eauto with along]
  | apply along_bind; [apply _| |]
  | apply along_try_ok
  | apply along_for_each; [apply _|]
  | match goal with |- along _ (match ?x with _ => _ end) => destruct x end
  | match goal with |- along _ (let '_ := ?x in _) => destruct x end ].

(** Rewriting the event that is indexed under a target. *)
Lemma replace_pdu_kept who targets id pid json pdu d :
  id ∈ targets → kv d eventid_pduid !! id = Some pid → Kept who targets d (replace_pdu (JO := JF) pid json pdu d).2.
Proof.
  intros Hid Hpid. unfold replace_pdu, get, kv_get. run. destruct (_ !! pid) eqn:E; cbn; [|done].
  split; [done..| | |done|done|done].
  - intros k Hk. kv_simpl. unfold kv_insert. rewrite lookup_insert. case_decide; [by eexists|done].
  - intros k Hk. kv_simpl. unfold kv_insert. rewrite lookup_insert_ne; [done|]. intros ->. by apply (Hk id).
Qed.

Lemma keeps_get_from_id {A} (J : Json A) id : keeps_field fixed (get_from_id (A := A) id).
Proof. unfold get_from_id. keeps. Qed.
#[local] Hint Resolve keeps_get_from_id : keeps.

(** From a state where the target is indexed at [pid]. *)
Definition KeptAt (who : bytes) (targets : list bytes) (id pid : bytes) (d d' : Db) : Prop :=
  id ∈ targets → kv d eventid_pduid !! id = Some pid → Kept who targets d d'.

#[local] Instance KeptAt_preorder who targets id pid : PreOrder (KeptAt who targets id pid).
Proof.
  split; [by intros d _ _|]. intros d1 d2 d3 H1 H2 Hin Hi. specialize (H1 Hin Hi). etrans; [exact H1|].
  apply H2; [done|]. by rewrite (kept_index _ _ _ _ H1).
Qed.

Lemma kept_at who targets id pid {A} (m : M Db A) : along (Kept who targets) m → along (KeptAt who targets id pid) m.
Proof. intros H d _ _. apply H. Qed.

Lemma replace_pdu_kept_at who targets id pid json pdu : along (KeptAt who targets id pid) (replace_pdu (JO := JF) pid json pdu).
Proof. intros d Hid Hi. by eapply replace_pdu_kept. Qed.
#[local] Hint Resolve replace_pdu_kept_at : along.
#[local] Hint Extern 3 (along (KeptAt _ _ _ _) _) => (apply kept_at; solve [eauto with along]) : along.

(** Looking up a target, then working on the position it is indexed at. *)
Lemma get_pdu_id_kept who targets id {A} (k : option bytes → M Db A) :
  id ∈ targets → along (Kept who targets) (k None) → (∀ pid, along (KeptAt who targets id pid) (k (Some pid))) →
  along (Kept who targets) (get_pdu_id id ≫= k).
Proof.
  intros Hid Hn Hs d. unfold get_pdu_id, get, kv_get. run.
  destruct (kv d eventid_pduid !! id) as [pid|] eqn:E; [by apply Hs|apply Hn].
Qed.

Lemma redact_pdu_kept who targets alnum lower inplace event_id reason s :
  event_id ∈ targets → along (Kept who targets) (redact_pdu alnum lower inplace event_id reason s).
Proof. intros Hid. unfold redact_pdu, get_pdu_from_id. apply get_pdu_id_kept; [done|alongs..]. Qed.
#[local] Hint Resolve redact_pdu_kept : along.

Lemma add_to_thread_kept who targets root pdu : root ∈ targets → along (Kept who targets) (add_to_thread root pdu).
Proof.
  intros Hid. unfold add_to_thread, get_pdu_from_id, get_pdu_json_from_id, get_participants, update_participants.
  apply get_pdu_id_kept; [done|intros d; reflexivity|intros pid].
  apply along_lift_bind; [apply _|]. intros ? [= <-]. alongs.
Qed.
#[local] Hint Resolve add_to_thread_kept : along.

(** The events an appended event rewrites: the one a redaction names, in the
    event or in its content, and the root of its thread. *)
Definition rewrites (pdu : PduEvent) : list bytes :=
  (if bool_decide (pdu_kind pdu = lit "m.room.redaction") then
     option_list (pdu_redacts pdu) ++
     option_list ((from_slice (pdu_content pdu) : option RedactionContent) ≫= rc_redacts)
   else []) ++
  match relation_of (pdu_content pdu) with Some (RelThread event_id) => [event_id] | _ => [] end.

Lemma redact_if_allowed_kept who targets alnum lower inplace id pdu room s :
  id ∈ targets → along (Kept who targets) (redact_if_allowed alnum lower inplace id pdu room s).
Proof.
  intros Hid. unfold redact_if_allowed. apply along_bind; [apply _|alongs|]. intros []; [by apply redact_pdu_kept|alongs].
Qed.

Lemma redaction_effect_kept who alnum lower inplace pdu room s :
  pdu_kind pdu = lit "m.room.redaction" → along (Kept who (rewrites pdu)) (redaction_effect alnum lower inplace pdu room s).
Proof.
  intros Hk. unfold redaction_effect, rewrites. rewrite bool_decide_eq_true_2 by done.
  apply along_bind; [apply _|alongs|intros v]. apply along_bind; [apply _|alongs|intros rules]. destruct (content_field_redacts rules).
  - apply along_lift_bind; [apply _|]. intros c Hc. destruct (from_slice (pdu_content pdu)) as [c'|]; [injection Hc as ->|discriminate].
    cbn [mbind option_bind]. destruct (rc_redacts c) as [id|]; [|alongs]. cbn [option_list].
    apply redact_if_allowed_kept. set_solver.
  - destruct (pdu_redacts pdu) as [id|]; [|alongs]. cbn [option_list]. apply redact_if_allowed_kept. set_solver.
Qed.

Lemma update_relationships_kept who pdu c : along (Kept who (rewrites pdu)) (update_relationships pdu c).
Proof.
  unfold update_relationships, relate_to, relate, get_pdu_count, add_relation, rewrites.
  apply along_bind; [apply _|alongs|intros _].
  destruct (relation_of (pdu_content pdu)) as [[]|]; [alongs|apply add_to_thread_kept; set_solver|alongs..].
Qed.

Lemma request_key_fixed acc r : keeps_field fixed (request_key acc r).
Proof. unfold request_key. keeps. Qed.

Lemma insert_batch_kept who targets l : along (Kept who targets) (insert_batch servernameevent_data l).
Proof.
  intros d. split; [done..| |done|done]. intros k Hk. cbn [insert_batch modify snd]. kv_simpl.
  rewrite lookup_insert_batch_Some. by left.
Qed.

Lemma queue_requests_kept who targets l : along (Kept who targets) (queue_requests l).
Proof.
  unfold queue_requests. alongs; [|apply insert_batch_kept]. apply fixed_kept, keeps_foldM. apply request_key_fixed.
Qed.

(** ** The services *)

Definition KeptS (who : bytes) (targets : list bytes) (s s' : Server) : Prop := Kept who targets (sv_db s) (sv_db s').

#[local] Instance KeptS_preorder who targets : PreOrder (KeptS who targets).
Proof. split; [intros s; unfold KeptS; reflexivity|]. intros s1 s2 s3 H1 H2. unfold KeptS in *. by etrans. Qed.

Lemma sv_db_db {A} (m : M Db A) s : sv_db (db_ m s).2 = (m (sv_db s)).2.
Proof. unfold db_, on_sender, with_db, sv_db. by destruct (m (s_db (sv_sender s))). Qed.

Lemma db_result {A} (m : M Db A) s : (db_ m s).1 = (m (sv_db s)).1.
Proof. unfold db_, on_sender, with_db, sv_db. by destruct (m (s_db (sv_sender s))). Qed.

Lemma db_kept who targets {A} (m : M Db A) : along (Kept who targets) m → along (KeptS who targets) (db_ m).
Proof. intros H s. unfold KeptS. rewrite sv_db_db. apply H. Qed.

Lemma send_kept who targets l : along (KeptS who targets) (on_sender (send_requests l)).
Proof.
  intros s. pose proof (queue_requests_kept who targets l (sv_db s)) as H. unfold KeptS, on_sender, send_requests, with_db, sv_db in *. run.
  destruct (queue_requests l (s_db (sv_sender s))) as [[ks|e|] d]; exact H.
Qed.

#[local] Hint Resolve send_kept : along.
#[local] Hint Extern 2 (along (KeptS _ _) (db_ _)) => (apply db_kept; solve [eauto with along]) : along.
#[local] Hint Extern 1 (along (KeptS _ _) (modify _)) => (intros ?; unfold KeptS; reflexivity) : along.
#[local] Hint Resolve update_relationships_kept : along.

Lemma keeps_get_data room user kind : keeps_field fixed (get_data (JV := JV) room user kind).
Proof. unfold get_data. keeps. Qed.

Lemma keeps_displayname user : keeps_field fixed (displayname user).
Proof. unfold displayname, get_string. keeps. Qed.

Lemma keeps_is_joined user room : keeps_field fixed (is_joined user room).
Proof. unfold is_joined, has_userroom. keeps. Qed.

Lemma keeps_resolve_local_alias alias : keeps_field fixed (resolve_local_alias alias).
Proof. unfold resolve_local_alias. keeps. Qed.
#[local] Hint Resolve keeps_get_data keeps_displayname keeps_is_joined keeps_resolve_local_alias : keeps.

Lemma get_actions_kept {Ruleset} (actions : Ruleset → Value → bytes → bytes → bytes → PowerLevels → list Action) who targets u rs pl v r :
  along (Kept who targets) (get_actions actions u rs pl v r).
Proof. unfold get_actions. alongs. Qed.
#[local] Hint Resolve get_actions_kept : along.

Lemma kind_effect_kept who alnum lower server_name server_user admin_alias emergency hash direct_of direct_value ignored_of types inplace pdu room pid s :
  along (KeptS who (rewrites pdu)) (kind_effect alnum lower server_name server_user admin_alias emergency hash direct_of direct_value ignored_of types inplace pdu room pid s).
Proof.
  unfold kind_effect, message_effect. case_bool_decide; [|alongs]. by apply db_kept, redaction_effect_kept.
Qed.

Lemma send_to_appservice_kept who targets server_name pdu room pid a : along (KeptS who targets) (send_to_appservice server_name pdu room pid a).
Proof. unfold send_to_appservice, send_pdu_appservice. alongs. Qed.

(** ** Push notifications *)

(** One target: what it does not change, and that the sender is never notified. *)
Lemma push_user_kept {Ruleset} who targets rules_of default_ actions pdu pid room pl v acc user :
  along (KeptS who targets) (push_user (Ruleset := Ruleset) rules_of default_ actions pdu pid room pl v acc user).
Proof. unfold push_user, send_push_pdu. alongs. Qed.

Lemma push_user_targets {Ruleset} rules_of default_ actions pdu pid room pl v acc user s acc' s' :
  push_user (Ruleset := Ruleset) rules_of default_ actions pdu pid room pl v acc user s = (Ok acc', s') →
  pdu_sender pdu ∉ acc.1 ++ acc.2 → pdu_sender pdu ∉ acc'.1 ++ acc'.2.
Proof.
  unfold push_user. destruct acc as [ns hs]. case_bool_decide as Hu; [by intros [= <- _]|].
  intros (o & s1 & _ & E)%bind_inv Hin. apply bind_inv in E as (rs & s2 & _ & E). cbv zeta in E.
  apply bind_inv in E as (acts & s3 & _ & E). apply bind_inv in E as (ks & s4 & _ & E). apply bind_inv in E as (? & s5 & _ & E).
  injection E as <- _. cbn [fst snd] in *. repeat case_match; set_solver.
Qed.

Lemma increment_batch_other (l : list bytes) (t : Tree) k : k ∉ l → kv_increment_batch t l !! k = t !! k.
Proof.
  revert t. induction l as [|x l IH]; intros t Hk; cbn [kv_increment_batch]; [done|].
  apply not_elem_of_cons in Hk as [Hne Hk]. rewrite IH by done. cbn. unfold kv_insert. by rewrite lookup_insert_ne.
Qed.

Lemma increment_notifications_kept targets room sender ns hs :
  sender ∉ ns ++ hs → along (Kept (get_userroom_id_bytes sender room) targets) (increment_notification_counts room ns hs).
Proof.
  intros Hn d. unfold increment_notification_counts, increment_batch. run. cbn [snd].
  assert (∀ l : list bytes, sender ∉ l → get_userroom_id_bytes sender room ∉ ((λ user, user ++ ff :: room) <$> l)) as H.
  { intros l Hl (u & E & Hu)%list_elem_of_fmap. apply app_inv_tail in E as <-. done. }
  split; [done|done|done|by intros k|by intros k|by intros k| |]; kv_simpl; apply increment_batch_other, H; set_solver.
Qed.

Lemma push_targets_kept {Ruleset} targets rules_of default_ actions pdu pid room pl v l :
  along (KeptS (get_userroom_id_bytes (pdu_sender pdu) room) targets)
    ('(notifies, highlights) ← foldM (push_user (Ruleset := Ruleset) rules_of default_ actions pdu pid room pl v) ([], []) l;
     db_ (increment_notification_counts room notifies highlights)).
Proof.
  set (f := push_user _ _ _ _ _ _ _ _). set (who := get_userroom_id_bytes _ _).
  enough (∀ acc s, pdu_sender pdu ∉ acc.1 ++ acc.2 →
    KeptS who targets s (('(ns, hs) ← foldM f acc l; db_ (increment_notification_counts room ns hs)) s).2) as H
    by (intros s; by apply H, not_elem_of_nil).
  induction l as [|u l IH]; intros acc s Hacc; cbn [foldM].
  - rewrite (bind_ok _ _ _ acc s) by done. destruct acc as [ns hs]. by apply db_kept, increment_notifications_kept.
  - pose proof (push_user_kept who targets rules_of default_ actions pdu pid room pl v acc u s) as Hk. fold f in Hk.
    unfold mbind, M_bind. destruct (f acc u s) as [[acc'|e|] s'] eqn:E; [|done..].
    etrans; [exact Hk|]. apply (IH acc' s'). by eapply push_user_targets.
Qed.
#[local] Hint Resolve push_targets_kept : along.

Lemma push_notifications_kept {Ruleset} targets rules_of default_ actions server_name pdu pid room :
  along (KeptS (get_userroom_id_bytes (pdu_sender pdu) room) targets)
    (push_notifications (Ruleset := Ruleset) server_name rules_of default_ actions pdu pid room).
Proof. unfold push_notifications. alongs. Qed.

(** ** Everything after the insertion *)

Lemma after_store_kept {Ruleset} alnum lower server_name server_user admin_alias emergency hash direct_of direct_value ignored_of types inplace
    rules_of default_ actions appservices pdu room s pid c :
  along (KeptS (get_userroom_id_bytes (pdu_sender pdu) room) (rewrites pdu))
    (after_store alnum lower server_name server_user admin_alias emergency hash direct_of direct_value ignored_of types inplace
       (Ruleset := Ruleset) rules_of default_ actions appservices pdu room (s, pid, c)).
Proof.
  pose proof (kind_effect_kept (get_userroom_id_bytes (pdu_sender pdu) room)) as Hkind.
  pose proof (send_to_appservice_kept (get_userroom_id_bytes (pdu_sender pdu) room) (rewrites pdu)) as Hsend.
  pose proof (push_notifications_kept (Ruleset := Ruleset) (rewrites pdu)) as Hpush.
  unfold after_store. alongs.
Qed.

Lemma send_queues s k pid s' : on_sender (send_requests [(k, SPdu pid)]) s = (Ok tt, s') →
  is_Some (kv (sv_db s') servernameevent_data !! (get_prefix k ++ pid)).
Proof.
  unfold on_sender, send_requests, with_db, queue_requests, insert_batch, sv_db. cbn [foldM request_key]. run. intros [= <-]. cbn [sv_sender s_db set_channel].
  kv_simpl. cbn [app kv_insert_batch]. unfold kv_insert. rewrite lookup_insert_eq. by eexists.
Qed.

(** *** Interested appservices *)

(** Whether an appservice counts as in a room: what the cache says, else
    whether its bot is joined or a member is in its user namespace. *)
Definition counted_in_room (server_name : bytes) (d : Db) (room : bytes) (a : RegistrationInfo) : Prop :=
  match appservice_in_room_cache d !! room ≫= λ m, m !! reg_id (registration a) with
  | Some b => b = true
  | None =>
      (∃ bot, parse_with_server_name (sender_localpart (registration a)) server_name = Some bot ∧ (is_joined bot room d).1 = Ok true) ∨
      (∃ member, Ok member ∈ room_members room d ∧ is_match (users a) member = true)
  end.

(** The aliases of a room: the ones of the directory, and the ones its
    canonical alias event names. *)
Definition alias_of_room (d : Db) (room alias : bytes) : Prop :=
  Ok alias ∈ local_aliases_for_room room d ∨
  ∃ ev main alt, (room_state_get room (lit "m.room.canonical_alias") [] d).1 = Ok (Some ev) ∧
    canonical_alias_of (pdu_content ev) = Some (main, alt) ∧ (main = Some alias ∨ alias ∈ alt).

(** Why an appservice is sent an event of a room. *)
Inductive Interested (server_name : bytes) (d : Db) (pdu : PduEvent) (room : bytes) (a : RegistrationInfo) : Prop :=
  | in_room : counted_in_room server_name d room a → Interested server_name d pdu room a
  | member_event_of_bot : pdu_kind pdu = lit "m.room.member" → pdu_state_key pdu = Some (sender_localpart (registration a)) →
      user_id_ok (sender_localpart (registration a)) = true → Interested server_name d pdu room a
  | alias_namespace alias : alias_of_room d room alias → is_match (aliases a) alias = true → Interested server_name d pdu room a
  | room_namespace : is_match (rooms a) room = true → Interested server_name d pdu room a
  | user_namespace user :
      (user = pdu_sender pdu ∨ pdu_kind pdu = lit "m.room.member" ∧ pdu_state_key pdu = Some user ∧ user_id_ok user = true) →
      server_name_of user = server_name → is_user_match a user = true → Interested server_name d pdu room a.

(** Computations that neither read nor write the cache of appservices. *)
Definition blind {A} (m : M Db A) : Prop :=
  ∀ c d, m (set_appservice_in_room_cache c d) = ((m d).1, set_appservice_in_room_cache c (m d).2).

Lemma blind_bind {A B} (m : M Db A) (k : A → M Db B) : blind m → (∀ a, blind (k a)) → blind (m ≫= k).
Proof.
  intros Hm Hk c d. unfold mbind, M_bind. rewrite Hm. destruct (m d) as [[a|e|] d']; cbn [fst snd]; [apply Hk|done..].
Qed.

Lemma blind_try_ok {A} (m : M Db A) : blind m → blind (try_ok m).
Proof. intros Hm c d. unfold try_ok. rewrite Hm. by destruct (m d) as [[]]. Qed.

Ltac blinds := repeat first
  [ progress (intros; cbv beta)
  | assumption
  | match goal with |- blind (mret _) => intros ? ?; reflexivity end
  | match goal with |- blind (lift _) => intros ? ?; reflexivity end
  | match goal with |- blind (gets _) => intros ? ?; reflexivity end
  | match goal with |- blind (modify _) => intros ? ?; reflexivity end
  | match goal with |- blind (get _ _) => intros ? ?; reflexivity end
  | apply blind_try_ok
  | match goal with |- blind (match ?x with _ => _ end) => destruct x end
  | apply blind_bind ].

Lemma blind_load_info fuel h : blind (load_info fuel h).
Proof. revert h. induction fuel as [|fuel IH]; intros h; cbn [load_info]; blinds; apply IH. Qed.

Lemma blind_room_state_get room t k : blind (room_state_get room t k).
Proof.
  assert (∀ h, blind (load_shortstatehash_info h)) as H by (intros h c d; apply blind_load_info).
  unfold room_state_get, get_room_shortstatehash, state_get, state_get_id, get_shortstatekey, load_full_state, parse_compressed_state_event,
    get_eventid_from_short, get_pdu, get_non_outlier_pdu, get_non_outlier, get_outlier. blinds; apply H.
Qed.

(** Asking whether an appservice is in a room changes the cache only. *)
Lemma in_room_answer server_name room a d : ∃ b c,
  appservice_in_room server_name room (cache_info a) d = (Ok b, set_appservice_in_room_cache c d) ∧
  (counted_in_room server_name d room a → b = true).
Proof.
  unfold counted_in_room. set (o := appservice_in_room_cache d !! room ≫= λ m, m !! reg_id (registration a)). unfold appservice_in_room.
  rewrite (bind_ok _ _ _ o d) by done. destruct o as [b|].
  - exists b, (appservice_in_room_cache d). split; [|done]. by destruct d.
  - eexists _, _. split; [reflexivity|]. cbn. intros [(bot & -> & ->)|(u & Hu & Hm)]; [done|].
    apply orb_true_iff. right. apply existsb_exists. exists (Ok u). split; [by apply list_elem_of_In|done].
Qed.

Lemma existsb_oks (f : bytes → bool) l x : Ok x ∈ l → f x = true → existsb f (oks l) = true.
Proof.
  intros Hx Hf. apply existsb_exists. exists x. split; [|done]. apply list_elem_of_In, list_elem_of_omap. by exists (Ok x).
Qed.

(** A matching alias is found. *)
Lemma alias_found room a d alias : alias_of_room d room alias → is_match (aliases a) alias = true →
  (matching_aliases room a d).1 = Ok true.
Proof.
  intros Ha Hm. unfold matching_aliases. run. destruct (existsb _ (oks _)) eqn:El; [done|].
  destruct Ha as [Hl|(ev & main & alt & Hev & Hc & Hmain)]; [by rewrite (existsb_oks _ _ alias) in El|].
  unfold mbind, M_bind, try_ok. destruct (room_state_get _ _ _ d) as [r d']. cbn [fst] in Hev. subst r. cbn. rewrite Hc. f_equal.
  apply orb_true_iff. destruct Hmain as [->|Halt]; [by left|right]. apply existsb_exists. exists alias. split; [by apply list_elem_of_In|done].
Qed.

Lemma alias_of_room_blind c d room alias : alias_of_room d room alias → alias_of_room (set_appservice_in_room_cache c d) room alias.
Proof.
  intros [Hl|(ev & main & alt & Hev & Hc)]; [by left|right]. exists ev, main, alt. by rewrite blind_room_state_get.
Qed.

(** An interested appservice gets the event queued. *)
Lemma send_to_appservice_queues server_name pdu room pid a s s' :
  send_to_appservice server_name pdu room pid a s = (Ok tt, s') → Interested server_name (sv_db s) pdu room a →
  is_Some (kv (sv_db s') servernameevent_data !! (get_prefix (Appservice (reg_id (registration a))) ++ pid)).
Proof.
  unfold send_to_appservice, send_pdu_appservice. intros (b & s1 & E1 & E)%bind_inv Hi.
  destruct (in_room_answer server_name room a (sv_db s)) as (b' & c & Hin & Hb).
  pose proof (db_result (appservice_in_room server_name room (cache_info a)) s) as H1.
  pose proof (sv_db_db (appservice_in_room server_name room (cache_info a)) s) as H2.
  rewrite E1, Hin in H1, H2. cbn [fst snd] in H1, H2. injection H1 as ->.
  destruct b'; [by eapply send_queues|].
  destruct (bool_decide _ && _) eqn:Ebot; [by eapply send_queues|].
  apply bind_inv in E as (b & s2 & E2 & E).
  assert (b || is_match (rooms a) room || matching_users server_name pdu a = true) as Hm; [|rewrite Hm in E; by eapply send_queues].
  destruct Hi as [Hc|Hk Hs Hid|alias Ha Hm|Hm|user Hu Hsn Hm].
  - by specialize (Hb Hc).
  - rewrite Hk, Hs, Hid, bool_decide_eq_true_2, bool_decide_eq_true_2 in Ebot by done. done.
  - pose proof (db_result (matching_aliases room a) s1) as H3.
    rewrite E2, H2, (alias_found room a _ alias) in H3 by (try apply alias_of_room_blind; done). cbn in H3. by injection H3 as ->.
  - by rewrite Hm, orb_true_r.
  - apply orb_true_iff. right. unfold matching_users. apply orb_true_iff. destruct Hu as [->|(Hk & Hs & Hid)].
    + left. by rewrite bool_decide_eq_true_2, Hm.
    + right. by rewrite bool_decide_eq_true_2, Hs, Hid, bool_decide_eq_true_2, Hm.
Qed.

Lemma appservices_queued server_name pdu room pid l1 a l2 s s' :
  for_each (l1 ++ a :: l2) (send_to_appservice server_name pdu room pid) s = (Ok tt, s') →
  Interested server_name (sv_db (for_each l1 (send_to_appservice server_name pdu room pid) s).2) pdu room a →
  is_Some (kv (sv_db s') servernameevent_data !! (get_prefix (Appservice (reg_id (registration a))) ++ pid)).
Proof.
  revert s. induction l1 as [|x l1 IH]; intros s; cbn [for_each app].
  - intros ([] & s1 & E1 & E)%bind_inv Hi. cbn in Hi.
    pose proof (along_for_each _ l2 _ (send_to_appservice_kept [] [] server_name pdu room pid) s1) as Hq.
    rewrite E in Hq. apply (kept_queue _ _ _ _ Hq). by eapply send_to_appservice_queues.
  - intros ([] & s1 & E1 & E)%bind_inv. rewrite (bind_ok _ _ _ _ _ E1). by apply IH.
Qed.

(** ** The insertion *)

Lemma fix_unsigned_kv pdu json : keeps_kv (fix_unsigned pdu json).
Proof.
  assert (∀ h t k, keeps_kv (state_get h t k)) as Hs.
  { intros h t k. unfold state_get, state_get_id, parse_compressed_state_event. keeps; eauto using keeps_get_shortstatekey,
      keeps_load_shortstatehash_info, keeps_get_eventid_from_short, keeps_get_pdu. }
  unfold fix_unsigned, pdu_shortstatehash. keeps; apply keeps_unwrap; keeps.
Qed.

(** What holds of the event once it is stored. *)
Record Stored (d : Db) (room : bytes) (pdu : PduEvent) (json : CanonicalJsonObject) (leaves : list bytes) (pid : bytes) : Prop := mk_Stored {
  st_index : get_pdu_id (pdu_event_id pdu) d = (Ok (Some pid), d);
  st_event : is_Some (kv d pduid_pdu !! pid);
  st_bytes : pdu_event_id pdu ∉ rewrites pdu → kv d pduid_pdu !! pid = Some (to_vec json);
  st_position : ∀ id, kv d eventid_pduid !! id = Some pid → id = pdu_event_id pdu;
  st_outlier : kv d eventid_outlierpdu !! pdu_event_id pdu = None;
  st_leaves : get_forward_extremities room d = (Ok (list_to_set leaves), d);
  st_notifications : notification_count (pdu_sender pdu) room d = (Ok 0, d);
  st_highlights : highlight_count (pdu_sender pdu) room d = (Ok 0, d);
}.

Lemma Stored_kept d d' room pdu json leaves pid :
  Kept (get_userroom_id_bytes (pdu_sender pdu) room) (rewrites pdu) d d' → Stored d room pdu json leaves pid → Stored d' room pdu json leaves pid.
Proof.
  intros [K1 K2 K3 K4 K5 _ K6 K7] [S1 S2 S2b S2p S3 S4 S5 S6]. split.
  - revert S1. unfold get_pdu_id, get, kv_get. run. rewrite K1. by intros [= ->].
  - by apply K4.
  - intros Hn. rewrite K5; [by apply S2b|]. intros id Hid Hi. by rewrite (S2p id Hi) in Hid.
  - by rewrite K1.
  - by rewrite K2.
  - revert S4. unfold get_forward_extremities. run. rewrite K3. by intros [= ->].
  - revert S5. unfold notification_count, get, kv_get. run. rewrite K6. by intros [= ->].
  - revert S6. unfold highlight_count, get, kv_get. run. rewrite K7. by intros [= ->].
Qed.

Definition marker_key (room user : bytes) : bytes := room ++ ff :: user.

(** The database after the read marker and the counters, and after the insertion. *)
Definition after_marker (room sender : bytes) (n : Z) (d : Db) : Db :=
  let d := set_count (n + 1) d in
  let d := upd roomuserid_privateread (λ t, kv_insert t (marker_key room sender) (to_be_bytes (n + 1))) d in
  let d := set_count (n + 2) d in
  upd roomuserid_lastprivatereadupdate (λ t, kv_insert t (marker_key room sender) (to_be_bytes (n + 2))) d.

Definition after_reset (room sender : bytes) (n : Z) (d : Db) : Db :=
  let d := upd userroomid_notificationcount (λ t, kv_insert t (get_userroom_id_bytes sender room) (to_be_bytes 0)) d in
  let d := upd userroomid_highlightcount (λ t, kv_insert t (get_userroom_id_bytes sender room) (to_be_bytes 0)) d in
  let d := set_count (n + 3) d in
  upd roomuserid_lastnotificationread (λ t, kv_insert t (marker_key room sender) (to_be_bytes (n + 3))) d.

Lemma count_is_upd d n t f : t ≠ global → count_is d n → count_is (upd t f d) n.
Proof. intros Ht [Hn Hc]. split; [done|]. by rewrite kv_upd_ne. Qed.

Lemma marker_reset_run room sender n d {A} (k : M Db A) :
  count_is d n → n + 3 ≤ u64_max →
  (count1 ← next_count; private_read_set room sender count1;; reset_notification_counts sender room;; k) d =
  k (after_reset room sender n (after_marker room sender n d)) ∧
  count_is (after_reset room sender n (after_marker room sender n d)) (n + 3).
Proof.
  intros Hc Hn. pose proof (proj1 Hc) as [H0 _]. unfold after_marker, after_reset. cbv zeta. split.
  - rewrite (bind_ok _ _ _ _ _ (next_count_spec d n Hc ltac:(lia))). unfold private_read_set, insert. run.
    rewrite (next_count_spec _ (n + 1)); [|apply count_is_upd; [done|]; apply count_is_set_count; unfold is_u64; lia|lia].
    replace (n + 1 + 1) with (n + 2) by lia. unfold reset_notification_counts, insert. run.
    rewrite (next_count_spec _ (n + 2)); [|do 3 (apply count_is_upd; [done|]); apply count_is_set_count; unfold is_u64; lia|lia].
    by replace (n + 2 + 1) with (n + 3) by lia.
  - apply count_is_upd; [done|]. apply count_is_set_count. unfold is_u64. lia.
Qed.

(** Storing an event succeeds, gives it the next position, and makes it known. *)
Lemma store_event_spec d n room pdu json json' d0 leaves s :
  room_id pdu = Ok room → get_shortroomid room d = (Ok (Some s), d) → fix_unsigned pdu json d = (Ok json', d0) →
  count_is d n → n + 4 ≤ u64_max → Forall (λ id, utf8_valid id = true ∧ event_id_ok id = true) leaves →
  no_ff room → no_ff (pdu_sender pdu) → pdu_sender pdu ≠ room →
  (∀ id, kv d eventid_pduid !! id ≠ Some (pdu_id s (Pdu.Normal (n + 4)))) → ∃ d',
    store_event pdu json leaves d = (Ok (s, pdu_id s (Pdu.Normal (n + 4)), n + 4), d') ∧
    Stored d' room pdu json' leaves (pdu_id s (Pdu.Normal (n + 4))) ∧ kv d' eventid_pduid = <[pdu_event_id pdu := pdu_id s (Pdu.Normal (n + 4))]> (kv d eventid_pduid) ∧
    kv d' pduid_pdu = <[pdu_id s (Pdu.Normal (n + 4)) := to_vec json']> (kv d pduid_pdu) ∧
    kv d' servernameevent_data = kv d servernameevent_data ∧ count_is d' (n + 4).
Proof.
  intros Hroom Hs Hu Hc Hn Hl Hr Hsd Hne Hfresh. pose proof (proj1 Hc) as [H0 _]. unfold store_event. rewrite Hroom.
  rewrite (bind_ok _ _ _ room d) by done. rewrite (bind_ok _ _ _ _ _ Hs). rewrite (bind_ok _ _ _ s d) by done. rewrite (bind_ok _ _ _ _ _ Hu).
  assert (kv d0 = kv d) as Hkv by (pose proof (fix_unsigned_kv pdu json d) as H; by rewrite Hu in H).
  destruct (for_each_upd referencedevents (λ prev t, kv_insert t (room ++ prev) []) (pdu_prev_events pdu) d0) as (d1 & E1 & _ & F1 & _).
  unfold mark_as_referenced, insert at 1. rewrite (bind_ok _ _ _ _ _ E1).
  destruct (set_forward_extremities_spec room leaves d1) as (d2 & E2 & (_ & F2 & _) & _).
  destruct (forward_extremities_roundtrip RU room leaves d1 Hl) as (d2' & E2' & Hget & _).
  assert (d2' = d2) as -> by congruence. rewrite (bind_ok _ _ _ _ _ E2).
  assert (∀ t, t ≠ referencedevents → t ≠ roomid_pduleaves → kv d2 t = kv d t) as F by (intros t ? ?; by rewrite F2, F1, Hkv).
  assert (count_is d2 n) as Hc2 by (destruct Hc; split; [done|]; by rewrite F).
  destruct (marker_reset_run room (pdu_sender pdu) n d2 (count2 ← next_count;
    append_pdu (to_be_bytes s ++ to_be_bytes count2) pdu json' count2;; mret (s, to_be_bytes s ++ to_be_bytes count2, count2)) Hc2 ltac:(lia)) as [-> Hc3].
  rewrite (bind_ok _ _ _ _ _ (next_count_spec _ _ Hc3 ltac:(lia))). replace (n + 3 + 1) with (n + 4) by lia.
  unfold append_pdu, insert, remove. rewrite Hroom. run. eexists. split; [reflexivity|].
  set (pid := pdu_id s (Pdu.Normal (n + 4))). change (to_be_bytes s ++ to_be_bytes (n + 4)) with pid.
  assert (marker_key room (pdu_sender pdu) ≠ get_userroom_id_bytes (pdu_sender pdu) room) as Hkey
    by (intros [E _]%app_ff_inj; [congruence|done..]).
  unfold after_reset, after_marker, roomuserid_lastnotificationread, kv_insert, kv_remove. split_and!.
  - split.
    + unfold get_pdu_id, get, kv_get. run. do 2 kv_simpl. by rewrite lookup_insert_eq.
    + do 2 kv_simpl. rewrite lookup_insert_eq. by eexists.
    + intros _. do 2 kv_simpl. by rewrite lookup_insert_eq.
    + intros id. do 2 kv_simpl. rewrite F by done. intros [[<- _]|[_ Hi]]%lookup_insert_Some; [done|]. by apply Hfresh in Hi.
    + do 2 kv_simpl. apply lookup_delete_eq.
    + unfold get_forward_extremities in *. run in Hget. run. do 2 kv_simpl. congruence.
    + unfold notification_count, get, kv_get. run. do 2 kv_simpl. rewrite lookup_insert_eq. by rewrite u64_from_to_be_bytes by apply is_u64_0.
    + unfold highlight_count, get, kv_get. run. do 2 kv_simpl. rewrite lookup_insert_ne, lookup_insert_eq by done. by rewrite u64_from_to_be_bytes by apply is_u64_0.
  - do 2 kv_simpl. by rewrite F.
  - do 2 kv_simpl. by rewrite F.
  - do 2 kv_simpl. by rewrite F.
  - do 3 (apply count_is_upd; [done|]). apply count_is_set_count. unfold is_u64. lia.
Qed.

(** An event that can be appended: its room is known, [unsigned] can be filled
    in, there are counts left, its ids are well formed, and no event is indexed
    at the next position. *)
Record Appendable (d : Db) (n : Z) (room : bytes) (pdu : PduEvent) (json json' : CanonicalJsonObject) (leaves : list bytes) (s : Z) : Prop := mk_Appendable {
  ap_room : room_id pdu = Ok room;
  ap_short : get_shortroomid room d = (Ok (Some s), d);
  ap_short_ok : is_u64 s ∧ s ≠ 0;
  ap_unsigned : ∃ d0, fix_unsigned pdu json d = (Ok json', d0);
  ap_count : count_is d n;
  ap_counts_left : n + 4 ≤ u64_max;
  ap_leaves : Forall (λ id, utf8_valid id = true ∧ event_id_ok id = true) leaves;
  ap_ids : no_ff room ∧ no_ff (pdu_sender pdu) ∧ pdu_sender pdu ≠ room;
  ap_fresh : ∀ id, kv d eventid_pduid !! id ≠ Some (pdu_id s (Pdu.Normal (n + 4)));
}.

(** The state in which everything after the insertion runs. *)
Lemma service_append_run {Ruleset} alnum lower server_name server_user admin_alias emergency hash direct_of direct_value ignored_of types inplace
    rules_of default_ actions srv n room pdu json json' leaves s :
  let pid := pdu_id s (Pdu.Normal (n + 4)) in
  Appendable (sv_db srv) n room pdu json json' leaves s → ∃ srv1,
    (∀ appservices, service_append_pdu alnum lower server_name server_user admin_alias emergency hash direct_of direct_value ignored_of types inplace
      (Ruleset := Ruleset) rules_of default_ actions appservices pdu json leaves srv =
    after_store alnum lower server_name server_user admin_alias emergency hash direct_of direct_value ignored_of types inplace
      rules_of default_ actions appservices pdu room (s, pid, n + 4) srv1) ∧
    Stored (sv_db srv1) room pdu json' leaves pid ∧
    kv (sv_db srv1) eventid_pduid = <[pdu_event_id pdu := pid]> (kv (sv_db srv) eventid_pduid) ∧ kv (sv_db srv1) pduid_pdu = <[pid := to_vec json']> (kv (sv_db srv) pduid_pdu) ∧
    kv (sv_db srv1) servernameevent_data = kv (sv_db srv) servernameevent_data.
Proof.
  intros pid [H1 H2 _ [d0 H3] H4 H5 H6 (H7 & H8 & H9) H10].
  destruct (store_event_spec (sv_db srv) n room pdu json json' d0 leaves s) as (d' & E & HS & HI & HP & HQ & _); [done..|].
  pose proof (sv_db_db (store_event pdu json leaves) srv) as Hd. pose proof (db_result (store_event pdu json leaves) srv) as Hr.
  rewrite E in Hd, Hr. unfold service_append_pdu. destruct (db_ (store_event pdu json leaves) srv) as [r srv1] eqn:E1. cbn [fst snd] in *. subst r.
  exists srv1. rewrite Hd. split; [|done]. intros appservices. by rewrite (bind_ok _ _ _ _ _ E1), (bind_ok _ _ _ room srv1) by (rewrite H1; done).
Qed.

(** Filling in [unsigned] leaves every other field of the event as it was. *)
Lemma fix_unsigned_fields pdu json d json' d' :
  fix_unsigned pdu json d = (Ok json', d') → ∀ f, f ≠ lit "unsigned" → field f json' = field f json.
Proof.
  intros E f Hf. revert E. unfold fix_unsigned. destruct (pdu_state_key pdu); [|by intros [= <- _]].
  destruct (default _ _) as [| | | | |unsigned]; try by intros [= <- _].
  intros (o & d1 & _ & E)%bind_inv. destruct o; [|injection E as <- _; by apply field_set_ne].
  apply bind_inv in E as (prev & d2 & _ & E). destruct prev; [|injection E as <- _; by apply field_set_ne].
  apply bind_inv in E as (c & d3 & _ & E). destruct c; try discriminate. injection E as <- _. by apply field_set_ne.
Qed.
End kept.

(** C15: An appended event is durable.  Whatever [append_pdu] answers, an error
    or a panic of any later step included, the event is indexed under the next
    position of its room, which no other event has; what is stored there is
    its JSON, of which only [unsigned] may have been filled in (an event that
    redacts itself or is the root of its own thread is rewritten at once); it
    is no longer an outlier, the forward extremities are the given leaves and
    the sender has no unread notifications or highlights in the room.  Every
    event stored before is still stored, with the same bytes unless the new
    event redacts it or is in its thread, and every request queued before is
    still queued.  When [append_pdu] answers with an id, that is the id of the
    event, and every appservice that, when its turn comes, counts as in the
    room, is the subject of the membership event, or has an alias of the room,
    the room, the local sender or the local target of a membership in its
    namespaces, has the event queued. *)
Theorem appended_event_durable (RU : Ruma) (LR : LruCache) (HO : HashOrder) (CT : Contents) (RV : RoomVersions) (EB : EventBodies)
    (RX : Regex) (LP : Localpart) (JP : Json PduEvent) (JV : Json Value) (JL : Json (list Value)) (JR : Json RedactionContent)
    (JF : Json CanonicalJsonObject) (Ruleset : Type) alnum lower server_name server_user admin_alias emergency hash direct_of direct_value ignored_of
    types inplace rules_of default_ actions appservices srv n room pdu json json' leaves s :
  Appendable (sv_db srv) n room pdu json json' leaves s →
  let append services := service_append_pdu alnum lower server_name server_user admin_alias emergency hash direct_of direct_value ignored_of
    types inplace (Ruleset := Ruleset) rules_of default_ actions services pdu json leaves srv in
  ∃ r srv', append appservices = (r, srv') ∧
    let pid := pdu_id s (Pdu.Normal (n + 4)) in
    pdu_count pid = Ok (Pdu.Normal (n + 4)) ∧ Stored (sv_db srv') room pdu json' leaves pid ∧
    (∀ f, f ≠ lit "unsigned" → field f json' = field f json) ∧
    (∀ k, is_Some (kv (sv_db srv) pduid_pdu !! k) → is_Some (kv (sv_db srv') pduid_pdu !! k)) ∧
    (∀ k, k ≠ pid → (∀ id, id ∈ rewrites pdu → kv (sv_db srv) eventid_pduid !! id ≠ Some k) →
      kv (sv_db srv') pduid_pdu !! k = kv (sv_db srv) pduid_pdu !! k) ∧
    (∀ k, is_Some (kv (sv_db srv) servernameevent_data !! k) → is_Some (kv (sv_db srv') servernameevent_data !! k)) ∧
    ∀ x, r = Ok x → x = pid ∧ ∀ before a after, appservices = before ++ a :: after →
      Interested server_name (sv_db (append before).2) pdu room a →
      is_Some (kv (sv_db srv') servernameevent_data !! (get_prefix (Appservice (reg_id (registration a))) ++ pid)).
Proof.
  intros HA append. destruct (service_append_run (Ruleset := Ruleset) alnum lower server_name server_user admin_alias emergency hash direct_of direct_value
    ignored_of types inplace rules_of default_ actions srv n room pdu json json' leaves s HA) as (srv1 & Hrun & HS & HI & HP & HQ).
  pose proof (after_store_kept (Ruleset := Ruleset) alnum lower server_name server_user admin_alias emergency hash direct_of direct_value ignored_of
    types inplace rules_of default_ actions appservices pdu room s (pdu_id s (Pdu.Normal (n + 4))) (n + 4) srv1) as HK.
  unfold KeptS in HK. rewrite <-Hrun in HK. fold (append appservices) in HK. destruct (append appservices) as [r srv'] eqn:E.
  exists r, srv'. split; [done|]. cbv zeta. cbn [snd] in HK.
  destruct HA as [_ _ [Hs Hne] [d0 Hu] [[H0 _] _] Hn _ _ _]. split_and!.
  - apply pdu_count_id; [done|done|]. cbn. lia.
  - by eapply Stored_kept.
  - by eapply fix_unsigned_fields.
  - intros k Hk. apply (kept_events _ _ _ _ HK). rewrite HP, lookup_insert. by case_decide.
  - intros k Hk Hid. rewrite (kept_bytes _ _ _ _ HK); [by rewrite HP, lookup_insert_ne|].
    intros id Hin. rewrite HI. intros [[_ ?]|[_ Hi]]%lookup_insert_Some; [done|]. by apply (Hid id Hin).
  - intros k Hk. apply (kept_queue _ _ _ _ HK). by rewrite HQ.
  - intros x ->. unfold append in E. rewrite Hrun in E. unfold after_store in E. apply bind_inv in E as (? & s2 & E2 & E).
    apply bind_inv in E as (? & s3 & E3 & E). apply bind_inv in E as (? & s4 & E4 & E). apply bind_inv in E as ([] & s5 & Ea & E).
    injection E as <- <-. split; [done|]. intros before a after -> Hi. eapply appservices_queued; [exact Ea|].
    unfold append in Hi. rewrite Hrun in Hi. unfold after_store in Hi.
    rewrite (bind_ok _ _ _ _ _ E2), (bind_ok _ _ _ _ _ E3), (bind_ok _ _ _ _ _ E4) in Hi. revert Hi. unfold mbind, M_bind.
    by destruct (for_each before _ s4) as [[]].
Qed.

(** An event is stored even when appending it fails.  A message whose body
    is not text is never appended successfully, yet it is stored, indexed and
    a leaf of its room, although [append_incoming_pdu] relies on appending
    not failing. *)
Theorem bad_body_stored_but_refused (RU : Ruma) (LR : LruCache) (HO : HashOrder) (CT : Contents) (RV : RoomVersions) (EB : EventBodies)
    (RX : Regex) (LP : Localpart) (JP : Json PduEvent) (JV : Json Value) (JL : Json (list Value)) (JR : Json RedactionContent)
    (JF : Json CanonicalJsonObject) (Ruleset : Type) alnum lower server_name server_user admin_alias emergency hash direct_of direct_value ignored_of
    types inplace rules_of default_ actions appservices srv n room pdu json json' leaves s :
  Appendable (sv_db srv) n room pdu json json' leaves s → pdu_kind pdu = lit "m.room.message" → body_of (pdu_content pdu) = None → ∃ r srv',
    service_append_pdu alnum lower server_name server_user admin_alias emergency hash direct_of direct_value ignored_of types inplace
      (Ruleset := Ruleset) rules_of default_ actions appservices pdu json leaves srv = (r, srv') ∧
    (∀ x, r ≠ Ok x) ∧ Stored (sv_db srv') room pdu json' leaves (pdu_id s (Pdu.Normal (n + 4))).
Proof.
  intros HA Hkind Hbody. destruct (service_append_run (Ruleset := Ruleset) alnum lower server_name server_user admin_alias emergency hash direct_of direct_value
    ignored_of types inplace rules_of default_ actions srv n room pdu json json' leaves s HA) as (srv1 & E & HS & _).
  rewrite E. pose proof (after_store_kept (Ruleset := Ruleset) alnum lower server_name server_user admin_alias emergency hash direct_of direct_value ignored_of
    types inplace rules_of default_ actions appservices pdu room s (pdu_id s (Pdu.Normal (n + 4))) (n + 4) srv1) as HK. clear E.
  destruct (after_store _ _ _ _ _ _ _ _ _ _ _ _ _ _ _ _ _ _ _ srv1) as [r srv'] eqn:E. exists r, srv'. split_and!; [done| |by eapply Stored_kept].
  intros x ->. unfold after_store in E. apply bind_inv in E as (? & s2 & _ & E). apply bind_inv in E as (? & s3 & Ek & _).
  revert Ek. unfold kind_effect, message_effect. rewrite Hkind, Hbody. discriminate.
Qed.

(** ** Redaction *)

Section redaction.
Context {RU : Ruma} {LR : LruCache} {HO : HashOrder} {CT : Contents} {RV : RoomVersions} {EB : EventBodies}.
Context {JP : Json PduEvent} {JV : Json Value} {JF : Json CanonicalJsonObject} (sha256 : bytes → bytes).

Lemma View_upd d n t f : t ∉ member_trees → View sha256 d n → View sha256 (upd t f d) n.
Proof.
  intros Ht [HI HP]. split.
  - apply CompInv_upd; [|done]. intros Hin. apply Ht. unfold member_trees. clear -Hin. set_solver.
  - intros e p Hp. rewrite (stored_same d); [by apply HP|]. intros t' Ht'. apply kv_upd_ne. intros <-. apply Ht. unfold member_trees. clear -Ht'. set_solver.
Qed.

Lemma deindex_view alnum lower s p b n : preserves (λ d, View sha256 d n) (deindex_pdu alnum lower s p b).
Proof.
  apply preserves_for_each. intros k d Hd. apply View_upd; [|done]. unfold member_trees. clear. set_solver.
Qed.

(** The version of a room with a create event. *)
Lemma get_room_version_view d n room st create content :
  View sha256 d n → room_at d room st → state_event d st (lit "m.room.create") [] (Some create) → create_of (pdu_content create) = Some content → ∃ d',
    get_room_version room d = (Ok (cc_room_version content), d') ∧ View sha256 d' n ∧ kv d' = kv d.
Proof.
  intros HV (Hk & h & Hh & Hst) Hc Hcc. destruct (state_get_view sha256 d n h st _ [] _ HV Hst Hk Hc) as (d' & E & HV' & Hkv).
  exists d'. unfold get_room_version, room_state_get. rewrite (bind_bind_ok _ _ _ _ _ _ Hh). rewrite (bind_ok _ _ _ _ _ E). cbn [map_transpose].
  rewrite Hcc. by split_and!.
Qed.
End redaction.

(** Redaction takes effect.  Redacting a stored message of a room whose
    version is known replaces the event everywhere it is read: looking it up
    gives the redacted event, whatever was cached; no search with a word of
    its old body finds it; no other stored event changes. *)
Theorem redaction_takes_effect (RU : Ruma) (LR : LruCache) (HO : HashOrder) (CT : Contents) (RV : RoomVersions) (EB : EventBodies)
    (JP : Json PduEvent) (JV : Json Value) (JF : Json CanonicalJsonObject) sha256 alnum lower inplace d n I room st create content rules s
    event_id pid text pdu body reason redacted :
  (∀ w, no_ff (lower w)) → View sha256 d n → room_at d room st →
  state_event d st (lit "m.room.create") [] (Some create) → create_of (pdu_content create) = Some content →
  redaction_rules (cc_room_version content) = Some rules → get_shortroomid room d = (Ok (Some s), d) → IndexRep I d →
  kv d eventid_pduid !! event_id = Some pid → position_ok s pid → kv d pduid_pdu !! pid = Some text → from_slice text = Some pdu →
  pdu_event_id pdu = event_id → room_id pdu = Ok room → body_of (pdu_content pdu) = Some (Some body) →
  redact inplace rules reason pdu = Ok redacted → from_slice (to_vec (pdu_object redacted)) = Some redacted →
  ∃ d', redact_pdu alnum lower inplace event_id reason s d = (Ok tt, d') ∧ (get_pdu event_id d').1 = Ok (Some redacted) ∧
    (∀ k, k ≠ pid → kv d' pduid_pdu !! k = kv d pduid_pdu !! k) ∧
    ∀ query found words d'', search_pdus alnum lower room query d' = (Ok (Some (found, words)), d'') →
      (∃ w, w ∈ tokenize alnum lower query ∧ w ∈ tokenize alnum lower body) → pid ∉ found.
Proof.
  intros Hlow HV Hroom Hst Hcc Hrules Hshort HI Hpid Hpos Htext Hpdu Hid Hr Hbody Hred Hjson.
  destruct (index_exec_spec alnum lower Hlow I d (DeindexPdu s pid body) HI Hpos) as (d1 & E1 & HI1 & Hf1). cbn [index_exec] in E1.
  assert (View sha256 d1 n) as HV1 by (pose proof (deindex_view sha256 alnum lower s pid body n d HV) as H; by rewrite E1 in H).
  destruct (get_room_version_view sha256 d1 n room st create content HV1) as (d2 & E2 & HV2 & Hkv2); [| |done|].
  { destruct Hroom as (Hk & h & Hh & Hs). split; [done|]. exists h. split; [apply (get_room_shortstatehash_same d); [by apply Hf1|done]|].
    eapply state_of_mono; [|done]. by rewrite Hf1. }
  { apply (state_event_same d); [|done]. intros t Ht. apply Hf1. intros ->. clear -Ht. set_solver. }
  set (d3 := set_pdu_cache (delete event_id (pdu_cache d2)) (upd pduid_pdu (λ t, kv_insert t pid (to_vec (pdu_object redacted))) d2)).
  assert (pdu_event_id redacted = event_id) as Hid'.
  { revert Hred. unfold redact. destruct (ok_or _ _) as [c0| |]; [|done..]. cbn. destruct (ok_or _ _) as [c1| |]; [|done..]. cbn. intros [= <-]. done. }
  exists d3. split_and!.
  - unfold redact_pdu, get_pdu_id, get_pdu_from_id, get_from_id, get, kv_get. run. rewrite Hpid, Htext. cbn [map_transpose]. rewrite Hpdu. cbn.
    rewrite Hbody, E1, Hr, E2, Hrules. cbn [expect]. rewrite Hred. unfold replace_pdu, get, kv_get. run. rewrite Hkv2, Hf1, Htext by done. by rewrite Hid'.
  - assert (pdu_cache d3 !! event_id = None) as Hc by apply lookup_delete_eq.
    assert (kv d3 eventid_pduid !! event_id = Some pid) as Hp3 by (unfold d3; kv_simpl; by rewrite Hkv2, Hf1).
    assert (kv d3 pduid_pdu !! pid = Some (to_vec (pdu_object redacted))) as Ht3 by (unfold d3; kv_simpl; apply lookup_insert_eq).
    unfold get_pdu, get_non_outlier_pdu, get_non_outlier, get, kv_get. run. rewrite Hc, Hp3, Ht3. cbn [ok_or]. by rewrite Hjson.
  - intros k Hk. unfold d3. kv_simpl. unfold kv_insert. by rewrite lookup_insert_ne, Hkv2, Hf1.
  - intros query found words d'' Hq (w & Hw & Hwb) Hin.
    assert (IndexRep (index_abs alnum lower I (DeindexPdu s pid body)) d3) as HI3.
    { destruct HI1 as [A B]. split; [|done]. intros k. unfold d3. kv_simpl. by rewrite Hkv2. }
    assert (get_shortroomid room d3 = (Ok (Some s), d3)) as Hs3.
    { revert Hshort. unfold get_shortroomid, get, kv_get. run. unfold d3 at 1. kv_simpl. rewrite Hkv2, Hf1 by done. by intros [= ->]. }
    destruct (search_pdus_spec alnum lower Hlow _ d3 room s query HI3 Hs3 (proj1 Hpos)) as [[_ E]|(l & E & _ & Hl)]; rewrite E in Hq; [done|].
    injection Hq as <- <- _. destruct (proj1 (Hl pid) Hin w Hw) as [_ Hn]. by apply Hn.
Qed.

(** * Samples *)

#[local] Existing Instance sample_ruma.
#[local] Existing Instance lru_unbounded.
#[local] Existing Instance elements_order.
#[local] Existing Instance sample_versions.
#[local] Existing Instance sample_regex.
#[local] Instance sample_value_json : Json Value := json_countable Value.
#[local] Instance sample_object_json : Json CanonicalJsonObject := json_countable CanonicalJsonObject.

(** An event is stored as an object with one number. *)
Definition sample_pdu_object (p : PduEvent) : CanonicalJsonObject := [([], VNumber (Z.pos (encode p)))].

Definition sample_pdu_of (o : CanonicalJsonObject) : option PduEvent :=
  match o with [(_, VNumber (Z.pos p))] => decode p | _ => None end.

Lemma sample_pdu_roundtrip p : (from_slice (to_vec (sample_pdu_object p)) ≫= sample_pdu_of) = Some p.
Proof. rewrite from_slice_to_vec. apply decode_encode. Qed.

#[local] Instance sample_event_json : Json PduEvent := {|
  to_vec := λ p, to_vec (sample_pdu_object p);
  from_slice := λ bs, from_slice bs ≫= sample_pdu_of;
  from_slice_to_vec := sample_pdu_roundtrip;
|}.

(** The body of a message is its content; "5" is not a text. *)
#[local] Instance sample_bodies : EventBodies := {|
  extract_membership := λ _, None;
  body_of := λ c, if bool_decide (c = lit "5") then None else Some (Some c);
  related_event_of := λ _, None;
  relation_of := λ _, None;
  canonical_alias_of := λ _, None;
  thread_of := λ _, None;
  thread_value := λ _ _ _, VNull;
  pdu_value := λ _, VNull;
  pdu_object := sample_pdu_object;
|}.

#[local] Instance sample_create_contents : Contents := {|
  membership_of := λ _, None;
  history_visibility_of := λ _, None;
  join_rule_of := λ _, None;
  guest_can_join_of := λ _, None;
  room_name_of := λ _, None;
  create_of := λ _, Some (mkCreate (lit "11") None);
|}.

Definition message_pdu (content : bytes) : PduEvent :=
  mkPdu (lit "$m") (Some (lit "!r")) (lit "@a:b") 1 (lit "m.room.message") content None [] 1 [] None None [] None.

Lemma message_appendable content : Appendable search_sample 0 (lit "!r") (message_pdu content) [] [] [lit "$m"] 3.
Proof.
  split; [done|apply injective_projections; [vm_compute; reflexivity|reflexivity]|by split|by exists search_sample|split; [done|by right]|done| | |done].
  - repeat constructor.
  - split_and!; [by repeat constructor|by repeat constructor|discriminate].
Qed.

Definition sample_server : Server := mkServer (mkSender search_sample ∅ [] [] true) ∅ [].

Definition sample_appservice : RegistrationInfo :=
  mkRegistrationInfo sample_registration (mkNamespaceRegex None None) (mkNamespaceRegex None None) (mkNamespaceRegex (Some [lit "!r"]) None).

Lemma appended_event_durable_witness : ∃ srv',
  let pid := pdu_id 3 (Pdu.Normal 4) in
  service_append_pdu (RU := sample_ruma) (JR := json_countable RedactionContent) (JL := json_countable (list Value)) (LP := {| localpart := λ u, u |})
    ascii_letter (λ w, w) (lit "b") (lit "@conduit:b") (lit "#admins:b") false (λ _, None) (λ _, None) (λ _, VNull) (λ _, None) [] (λ _ _ v, Some v)
    (Ruleset := unit) (λ _, None) (λ _, tt) (λ _ _ _ _ _ _, []) [sample_appservice] (message_pdu (lit "hi")) [] [lit "$m"] sample_server = (Ok pid, srv') ∧
  kv (sv_db srv') pduid_pdu !! pid = Some (to_vec ([] : CanonicalJsonObject)) ∧
  is_Some (kv (sv_db srv') servernameevent_data !! (get_prefix (Appservice (reg_id (registration sample_appservice))) ++ pid)).
Proof.
  destruct (appended_event_durable sample_ruma lru_unbounded elements_order sample_create_contents sample_versions sample_bodies sample_regex
    {| localpart := λ u, u |} sample_event_json sample_value_json (json_countable (list Value)) (json_countable RedactionContent) sample_object_json unit
    ascii_letter (λ w, w) (lit "b") (lit "@conduit:b") (lit "#admins:b") false (λ _, None) (λ _, None) (λ _, VNull) (λ _, None) [] (λ _ _ v, Some v)
    (λ _, None) (λ _, tt) (λ _ _ _ _ _ _, []) [sample_appservice] sample_server 0 (lit "!r") (message_pdu (lit "hi")) [] [] [lit "$m"] 3
    (message_appendable (lit "hi"))) as (r & srv' & E & _ & HS & _ & _ & _ & _ & Ha).
  assert (r = Ok (pdu_id 3 (Pdu.Normal 4))) as -> by (apply (f_equal fst) in E; cbn [fst] in E; rewrite <-E; vm_compute; reflexivity).
  exists srv'. split; [exact E|]. destruct (Ha _ eq_refl) as [_ Hq]. split; [apply (st_bytes _ _ _ _ _ _ HS); by apply not_elem_of_nil|].
  by apply (Hq [] sample_appservice []), room_namespace.
Defined.

(** A room with a create event and one indexed message. *)
Definition create_pdu : PduEvent :=
  mkPdu (lit "$c") (Some (lit "!r")) (lit "@a:b") 1 (lit "m.room.create") (lit "{}") (Some []) [] 1 [] None None [] None.

Definition hello : PduEvent := message_pdu (to_vec (VString (lit "hello"))).

Definition no_ff_lower (w : bytes) : bytes := bfilter (λ b, negb (b =? ff)) w.

Lemma no_ff_lower_ok w : no_ff (no_ff_lower w).
Proof. apply Forall_forall. intros b [Hb _]%elem_of_bfilter. by apply negb_true_iff, Z.eqb_neq in Hb. Qed.

Definition hello_id (s : Z) : bytes := to_be_bytes s ++ to_be_bytes 9.

Definition redaction_room : M Db unit :=
  s ← get_or_create_shortroomid (lit "!r");
  h ← append_to_state create_pdu;
  set_room_state (lit "!r") h;;
  insert eventid_outlierpdu (lit "$c") (to_vec create_pdu);;
  insert eventid_pduid (lit "$m") (hello_id s);;
  insert pduid_pdu (hello_id s) (to_vec hello);;
  index_pdu ascii_letter no_ff_lower s (hello_id s) (pdu_content hello).

Lemma redaction_room_view : ∃ d n st s,
  redaction_room empty_db = (Ok tt, d) ∧ View (λ b, b) d n ∧ room_at d (lit "!r") st ∧ state_event d st (lit "m.room.create") [] (Some create_pdu) ∧
  get_shortroomid (lit "!r") d = (Ok (Some s), d) ∧ position_ok s (hello_id s) ∧
  IndexRep (index_abs ascii_letter no_ff_lower (λ _ _ _, False) (IndexPdu s (hello_id s) (pdu_content hello))) d ∧
  kv d eventid_pduid !! lit "$m" = Some (hello_id s) ∧ kv d pduid_pdu !! hello_id s = Some (to_vec hello).
Proof.
  pose proof (empty_db_comp (λ b, b)) as H0.
  destruct (get_or_create_shortroomid_spec empty_db 0 (lit "!r") (ci_short _ _ (proj1 H0)) ltac:(done)) as (s & d1 & n1 & E1 & Hs & Hk1 & Hstep).
  assert (d1 = one_room) as Ed1 by (by rewrite <-(f_equal snd E1 : _ = d1)).
  assert (CompInv (λ b, b) d1 n1) as H1 by (eapply CompInv_step; [done..|]; rewrite Ed1; vm_compute; reflexivity).
  destruct (append_to_state_spec (λ b, b) d1 n1 create_pdu (lit "!r") [] ∅) as (h & d2 & n2 & E2 & H2 & Hn2 & Hh & Hx2 & Happ);
    [done|destruct Hstep as (_ & Hn & _); unfold u64_max; lia|done|done| |intros x y Hx; by apply elem_of_empty in Hx|].
  { unfold room_state. rewrite Ed1. vm_compute. reflexivity. }
  destruct Happ as (k & e & Hk & He & Hkk & Hke & Hst). set (x := to_be_bytes k ++ to_be_bytes e) in *. set (st := put_entry k x ∅) in *.
  destruct (set_room_state_spec (λ b, b) d2 n2 (lit "!r") h st H2 Hh Hst) as (d3 & E3 & H3 & Hget & Hst3 & Hf).
  set (d4 := upd pduid_pdu (λ t, kv_insert t (hello_id s) (to_vec hello))
    (upd eventid_pduid (λ t, kv_insert t (lit "$m") (hello_id s)) (upd eventid_outlierpdu (λ t, kv_insert t (lit "$c") (to_vec create_pdu)) d3))).
  assert (position_ok s (hello_id s)) as Hpos by (split; [destruct Hstep as (_ & Hn & _); unfold u64_max; lia|by eexists]).
  assert (d2 = (append_to_state create_pdu one_room).2) as Ed2 by (by rewrite <-Ed1, E2).
  assert (kv d4 tokenids = ∅ ∧ pdu_cache d4 = ∅ ∧ kv d2 eventid_pduid = ∅) as (Htok & Hpc & Hno).
  { injection E3 as <-. unfold d4. kv_simpl. rewrite Ed2. split_and!; vm_compute; reflexivity. }
  assert (IndexRep (λ _ _ _, False) d4) as HI4.
  { split; [|done]. intros k0. rewrite Htok, lookup_empty. split; [by intros []|naive_solver]. }
  destruct (index_exec_spec ascii_letter no_ff_lower no_ff_lower_ok _ d4 (IndexPdu s (hello_id s) (pdu_content hello)) HI4 Hpos) as (d5 & E5 & HI5 & Hf5).
  assert (pdu_cache d5 = ∅) as Hpc5 by (injection E5 as <-; exact Hpc).
  assert (∀ t, t ∉ [tokenids; pduid_pdu; eventid_pduid; eventid_outlierpdu; roomid_shortstatehash] → kv d5 t = kv d2 t) as Hf25.
  { intros t Ht. rewrite Hf5 by (intros ->; apply Ht; in_list). unfold d4. rewrite !kv_upd_ne by (intros <-; apply Ht; in_list). apply Hf. intros ->. apply Ht. in_list. }
  assert (View (λ b, b) d5 n2) as HV.
  { split; [|intros e0 p0 Hp; rewrite Hpc5, lookup_empty in Hp; discriminate Hp]. injection E5 as <-. unfold d4.
    do 4 (apply CompInv_upd; [clear; set_solver|]). exact H3. }
  assert (kv d5 roomid_shortroomid !! lit "!r" = Some (to_be_bytes s)) as Hroom.
  { rewrite Hf25 by (clear; set_solver). eapply lookup_weaken; [exact Hk1|apply (proj1 Hx2); in_list]. }
  exists d5, n2, st, s. split_and!; [|exact HV| | | |exact Hpos|exact HI5| |].
  - unfold redaction_room. rewrite (bind_ok _ _ _ _ _ E1), (bind_ok _ _ _ _ _ E2), (bind_ok _ _ _ _ _ E3). exact E5.
  - split; [apply put_entry_keyed; [unfold x; by rewrite take_app_length' by (by rewrite length_to_be_bytes)|intros y z Hy; by apply elem_of_empty in Hy]|].
    exists h. split; [apply (get_room_shortstatehash_same d3); [rewrite Hf5 by done; unfold d4; by kv_simpl|exact Hget]|].
    eapply state_of_mono; [|exact Hst]. by rewrite Hf25 by (clear; set_solver).
  - exists (lit "$c"). split.
    + split; [|split; reflexivity]. exists k, e. rewrite !Hf25 by (clear; set_solver). split_and!; [done..|].
      unfold st, put_entry. apply elem_of_union. left. by apply elem_of_singleton.
    + rewrite stored_eq, !Hf5 by done. unfold d4. kv_simpl. unfold kv_insert. rewrite lookup_insert_ne, Hf, Hno, lookup_empty by done.
      rewrite lookup_insert_eq, from_slice_to_vec. reflexivity.
  - unfold get_shortroomid, get, kv_get. run. rewrite Hroom. cbn [map_transpose]. rewrite u64_from_to_be_bytes by (unfold is_u64; destruct Hpos as [? _]; lia). done.
  - rewrite Hf5 by done. unfold d4. kv_simpl. apply lookup_insert_eq.
  - rewrite Hf5 by done. unfold d4. kv_simpl. apply lookup_insert_eq.
Qed.

Lemma sample_object_roundtrip p : from_slice (to_vec (pdu_object p)) = Some p.
Proof. exact (sample_pdu_roundtrip p). Qed.

Lemma redaction_takes_effect_witness : ∃ d s d',
  redaction_room empty_db = (Ok tt, d) ∧
  redact_pdu ascii_letter no_ff_lower (λ _ _ _, Some (VObject [])) (lit "$m") create_pdu s d = (Ok tt, d') ∧
  match (get_pdu (lit "$m") d').1 with Ok (Some p) => pdu_content p = to_vec (VObject []) | _ => False end.
Proof.
  destruct redaction_room_view as (d & n & st & s & E & HV & Hr & Hst & Hs & Hpos & HI & Hm & Hp).
  destruct (redaction_takes_effect sample_ruma lru_unbounded elements_order sample_create_contents sample_versions sample_bodies
    sample_event_json sample_value_json sample_object_json (λ b, b) ascii_letter no_ff_lower (λ _ _ _, Some (VObject [])) d n _ (lit "!r") st
    create_pdu (mkCreate (lit "11") None) tt s (lit "$m") (hello_id s) (to_vec hello) hello (pdu_content hello) create_pdu
    (mkPdu (lit "$m") (Some (lit "!r")) (lit "@a:b") 1 (lit "m.room.message") (to_vec (VObject [])) None [] 1 [] None
       (Some (to_vec (VObject [(lit "redacted_because", VNull)]))) [] None)
    no_ff_lower_ok HV Hr Hst eq_refl eq_refl Hs HI Hm Hpos Hp) as (d' & E' & Hg & _).
  - apply from_slice_to_vec.
  - reflexivity.
  - reflexivity.
  - reflexivity.
  - unfold redact, hello, message_pdu. cbn [pdu_content]. rewrite from_slice_to_vec. reflexivity.
  - exact (sample_object_roundtrip _).
  - exists d, s, d'. split; [exact E|]. split; [exact E'|]. rewrite Hg. reflexivity.
Defined.
