(* ===== verification/MediaStore.v ===== *)
(** * MediaStore: metadata of uploaded and cached files

    [server/src/database/key_value/media.rs].  A file is stored once per
    content hash; media ids (server, id) and thumbnails point to it, and two
    reverse trees list what points to a hash.  Media can be blocked, purged
    singly, by user or by server, and deleted by retention policies.  The
    clock, hex encoding and the policy durations are arguments. *)
From S2P Require Import Prelude Bytes KvTree Pdu Database.

(** [u32::to_be_bytes]. *)
Definition u32_be (n : Z) : bytes := be_split 4 n.

Lemma res_bind_Ok {A B} (r : res A) (f : A → res B) b : r ≫= f = Ok b → ∃ a, r = Ok a ∧ f a = Ok b.
Proof. destruct r; [eauto|discriminate..]. Qed.

(** * Values *)

Record DbFileMeta := mkDbFileMeta {
  sha256_digest : bytes;
  filename : option bytes;
  content_type : option bytes;
  unauthenticated_access_permitted : bool;
}.

Record FileInfo := mkFileInfo {
  fi_creation : Z;
  fi_last_access : Z;
  fi_size : Z;
}.

Record MediaQueryFileInfo := mkMediaQueryFileInfo {
  qf_uploader_localpart : option bytes;
  qf_sha256_hex : bytes;
  qf_filename : option bytes;
  qf_content_type : option bytes;
  qf_unauthenticated_access_permitted : bool;
  qf_is_blocked_via_filehash : bool;
  qf_file_info : option FileInfo;
}.

Record MediaQueryThumbInfo := mkMediaQueryThumbInfo {
  qt_width : Z;
  qt_height : Z;
  qt_sha256_hex : bytes;
  qt_filename : option bytes;
  qt_content_type : option bytes;
  qt_unauthenticated_access_permitted : bool;
  qt_is_blocked_via_filehash : bool;
  qt_file_info : option FileInfo;
}.

Record MediaQuery := mkMediaQuery {
  mq_is_blocked : bool;
  mq_source_file : option MediaQueryFileInfo;
  mq_thumbnails : list MediaQueryThumbInfo;
}.

Record MediaListItem := mkMediaListItem {
  ml_server_name : bytes;
  ml_media_id : bytes;
  ml_uploader_localpart : option bytes;
  ml_content_type : option bytes;
  ml_filename : option bytes;
  ml_dimensions : option (Z * Z);
  ml_size : Z;
  ml_creation : Z;
}.

Record BlockedMediaInfo := mkBlockedMediaInfo {
  bm_server_name : bytes;
  bm_media_id : bytes;
  bm_unix_secs : Z;
  bm_reason : option bytes;
  bm_sha256_hex : option bytes;
}.

Inductive ServerNameOrUserId := ByServer (server_name : bytes) | ByUser (user_id : bytes).

Inductive MediaType := LocalMedia (thumbnail : bool) | RemoteMedia (thumbnail : bool).

Definition is_thumb (t : MediaType) : bool := match t with LocalMedia b | RemoteMedia b => b end.

(** [MediaRetentionConfig]: durations in seconds, space in bytes. *)
Inductive MediaRetentionScope := ScopeRemote | ScopeLocal | ScopeThumbnail.

Record ScopedMediaRetentionConfig := mkScoped {
  accessed : option Z;
  created : option Z;
  space : option Z;
}.

Record MediaRetentionConfig := mkRetention {
  scoped : MediaRetentionScope → option ScopedMediaRetentionConfig;
  global_space : option Z;
}.

(** ** The value of a content hash: size, creation and last access *)

Definition new_with_times (size creation last_access : Z) : bytes :=
  to_be_bytes size ++ to_be_bytes creation ++ to_be_bytes last_access.

Definition filehash_metadata_new (now size : Z) : bytes := new_with_times size now now.

Definition update_last_access (now : Z) (value : bytes) : bytes := take 16 value ++ to_be_bytes now.

(** The eight bytes at an offset; the slice is missing when the value is too
    short. *)
Definition get_u64_val (value : bytes) (start : nat) (invalid_error : string) : res Z :=
  if bool_decide (length value < start + 8)%nat then Err (BadDatabase "Invalid format of metadata in filehash_metadata")
  else ok_or (u64_from_bytes (take 8 (drop start value))) (BadDatabase invalid_error).

Definition fh_size (value : bytes) : res Z := get_u64_val value 0 "Invalid file size in filehash_metadata".

Definition fh_creation (value : bytes) : res Z := get_u64_val value 8 "Invalid creation time in filehash_metadata".

Definition fh_last_access (value : bytes) : res Z := get_u64_val value 16 "Invalid last access time in filehash_metadata".

(** ** Keys and their parts *)

Definition media_key (servername media_id : bytes) : bytes := servername ++ ff :: media_id.

Definition thumbnail_id (servername media_id : bytes) (width height : Z) : bytes :=
  media_key servername media_id ++ ff :: u32_be width ++ u32_be height.

Definition uploader_key (servername localpart media_id : bytes) : bytes := servername ++ ff :: localpart ++ ff :: media_id.

(** The digest, the name and the type; an absent part is empty. *)
Definition metadata_value (digest : bytes) (filename content_type : option bytes) : bytes :=
  digest ++ default [] filename ++ ff :: default [] content_type.

(** A string part; an empty one is absent. *)
Definition string_part (msg : string) (o : option bytes) : res (option bytes) :=
  o ← map_transpose (λ bs, ok_or (string_from_bytes bs) (BadDatabase msg)) o;
  Ok (match o with Some [] => None | _ => o end).

Definition parse_metadata (value : bytes) : res DbFileMeta :=
  if bool_decide (length value < 32)%nat then Err (BadDatabase "Invalid format for media metadata") else
  let parts := split_ff (drop 32 value) in
  filename ← string_part "filename in media metadata is invalid unicode" (parts !! 0%nat);
  content_type ← string_part "content type in media metadata is invalid unicode" (parts !! 1%nat);
  Ok (mkDbFileMeta (take 32 value) filename content_type (bool_decide (parts !! 2%nat = Some []))).

(** Width and height at the end of a thumbnail id. *)
Definition dimensions_from_thumbnailid (thumbnail_id : bytes) : res (Z * Z) :=
  let len := length thumbnail_id in
  if bool_decide (len < 8)%nat then Err (BadDatabase "Invalid format of dimensions from thumbnailid")
  else let dims := drop (len - 8) thumbnail_id in Ok (be_combine 0 (take 4 dims), be_combine 0 (drop 4 dims)).

(** [key.get(32..)], and without the last nine bytes of a thumbnail id. *)
Definition after_digest (k : bytes) : option bytes := if bool_decide (length k < 32)%nat then None else Some (drop 32 k).

Definition thumb_media_key (k : bytes) : option bytes :=
  let len := length k in
  if bool_decide (len < 9)%nat then None
  else if bool_decide (len - 9 < 32)%nat then None
  else Some (take (len - 9 - 32) (drop 32 k)).

Section media.
Context {RU : Ruma} (localpart : bytes → bytes) (server_name : bytes) (hex_encode : bytes → bytes).

(** * Storing *)

Definition create_file_metadata (now : Z) (digest : bytes) (file_size : Z) (servername media_id : bytes)
    (filename content_type user_id : option bytes) (is_blocked_filehash : bool) : M Db unit :=
  (if is_blocked_filehash then mret tt else insert filehash_metadata digest (filehash_metadata_new now file_size));;
  insert filehash_servername_mediaid (digest ++ media_key servername media_id) [];;
  insert servernamemediaid_metadata (media_key servername media_id) (metadata_value digest filename content_type);;
  match user_id with
  | Some user_id =>
      insert servername_userlocalpart_mediaid (uploader_key servername (localpart user_id) media_id) [];;
      insert servernamemediaid_userlocalpart (media_key servername media_id) (localpart user_id)
  | None => mret tt
  end.

(** A file is only available if there is metadata about the filehash itself. *)
Definition available (meta : DbFileMeta) : M Db DbFileMeta :=
  o ← get filehash_metadata (sha256_digest meta);
  match o with
  | Some _ => mret meta
  | None => fail (BadRequest NotFound "Media not found.")
  end.

Definition search_file_metadata (servername media_id : bytes) : M Db DbFileMeta :=
  o ← get servernamemediaid_metadata (media_key servername media_id);
  value ← lift (ok_or o (BadRequest NotFound "Media not found."));
  meta ← lift (parse_metadata value);
  available meta.

Definition create_thumbnail_metadata (now : Z) (digest : bytes) (file_size : Z) (servername media_id : bytes) (width height : Z)
    (filename content_type : option bytes) : M Db unit :=
  insert filehash_metadata digest (filehash_metadata_new now file_size);;
  insert filehash_thumbnailid (digest ++ thumbnail_id servername media_id width height) [];;
  insert thumbnailid_metadata (thumbnail_id servername media_id width height) (metadata_value digest filename content_type).

Definition search_thumbnail_metadata (servername media_id : bytes) (width height : Z) : M Db DbFileMeta :=
  o ← get thumbnailid_metadata (thumbnail_id servername media_id width height);
  value ← lift (ok_or o (BadRequest NotFound "Media not found."));
  meta ← lift (parse_metadata value);
  available meta.

(** * Blocking *)

(** Only checks whether the media id itself is blocked. *)
Definition is_directly_blocked (server_name media_id : bytes) : M Db bool :=
  o ← get blocked_servername_mediaid (media_key server_name media_id);
  mret (bool_decide (is_Some o)).

(** Whether one of the keys names a blocked media id; [key_of] cuts it out. *)
Fixpoint any_blocked (key_of : bytes → option bytes) (msg : string) (keys : list bytes) (d : Db) : res bool :=
  match keys with
  | [] => Ok false
  | k :: keys =>
      servername_mediaid ← ok_or (key_of k) (BadDatabase msg);
      if bool_decide (is_Some (kv d blocked_servername_mediaid !! servername_mediaid)) then Ok true
      else any_blocked key_of msg keys d
  end.

Definition is_blocked_filehash (digest : bytes) : M Db bool := gets (λ d,
  b ← any_blocked after_digest "Invalid format of key in filehash_servername_mediaid"
        (kv_scan_prefix (kv d filehash_servername_mediaid) digest).*1 d;
  if (b : bool) then Ok true else
  any_blocked thumb_media_key "Invalid format of value in filehash_thumbnailid" (kv_scan_prefix (kv d filehash_thumbnailid) digest).*1 d).

Definition blocked_via_hash (server_name media_id : bytes) : M Db bool :=
  o ← get servernamemediaid_metadata (media_key server_name media_id);
  match o with
  | None => mret false
  | Some metadata =>
      meta ← lift (parse_metadata metadata);
      is_blocked_filehash (sha256_digest meta)
  end.

Definition is_blocked (server_name media_id : bytes) : M Db bool :=
  direct ← is_directly_blocked server_name media_id;
  if (direct : bool) then mret true else blocked_via_hash server_name media_id.

Definition block (media : list (bytes * bytes)) (unix_secs : Z) (reason : option bytes) : M Db (list Error) :=
  for_each media (λ '(server_name, media_id),
    insert blocked_servername_mediaid (media_key server_name media_id) (to_be_bytes unix_secs ++ default [] reason));;
  mret [].

(** One upload of a user. *)
Definition block_upload (user_server value : bytes) (after : option Z) (k : bytes) : M Db unit :=
  let key := media_key user_server (rsplit_first k) in
  o ← get servernamemediaid_metadata key;
  meta ← lift (ok_or o (BadDatabase "Invalid format of metadata in servernamemediaid_metadata"));
  o ← get filehash_metadata (take 32 meta);
  match o with
  | None => mret tt
  | Some metadata =>
      newer ← lift (map_transpose (λ after, creation ← fh_creation metadata; Ok (after <? creation)) after);
      if default true newer then insert blocked_servername_mediaid key value else mret tt
  end.

(** Collect the errors of a loop that does not stop at them. *)
Definition errors_of {A} (f : A → M Db unit) (l : list A) : M Db (list Error) :=
  foldM (λ errors x, r ← attempt (f x); mret (match r with Err e => errors ++ [e] | _ => errors end)) [] l.

Definition block_from_user (user_id : bytes) (now : Z) (reason : bytes) (after : option Z) : M Db (list Error) :=
  let user_server := server_name_of user_id in
  keys ← gets (λ d, Ok (kv_scan_prefix (kv d servername_userlocalpart_mediaid)
                          (uploader_key user_server (localpart user_id) [])).*1);
  errors_of (block_upload user_server (to_be_bytes now ++ reason) after) keys.

(** * Purging *)

(** Forget a media id; the hashes whose files are to be deleted.  With
    [only_filehash_metadata] only the files go. *)
Definition purge_source (server_name media_id : bytes) (only_filehash_metadata : bool) : M Db (list bytes) :=
  let key := media_key server_name media_id in
  o ← get servernamemediaid_metadata key;
  match o with
  | None => mret []
  | Some value =>
      let digest := take 32 value in
      (if only_filehash_metadata then mret tt else
        o ← get servernamemediaid_userlocalpart key;
        match o with
        | Some localpart =>
            remove servernamemediaid_userlocalpart key;;
            remove servername_userlocalpart_mediaid (uploader_key server_name localpart media_id)
        | None => mret tt
        end;;
        remove servernamemediaid_metadata key;;
        remove filehash_servername_mediaid (digest ++ key));;
      unused ← gets (λ d, Ok (
        (length (kv_scan_prefix (kv d filehash_servername_mediaid) digest) <=? (if only_filehash_metadata then 1 else 0))%nat &&
        bool_decide (kv_scan_prefix (kv d filehash_thumbnailid) digest = [])));
      if (unused : bool) then remove filehash_metadata digest;; mret [hex_encode digest] else mret []
  end.

(** One thumbnail; the counts of the thumbnails seen per hash. *)
Definition purge_thumbnail (only_filehash_metadata : bool) (acc : gmap bytes nat * list bytes) (e : entry)
    : M Db (gmap bytes nat * list bytes) :=
  let '(thumbnails, files) := acc in
  let digest := take 32 e.2 in
  let entry := S (default 0%nat (thumbnails !! digest)) in
  let thumbnails := <[digest := entry]> thumbnails in
  (if only_filehash_metadata then mret tt else
    remove filehash_thumbnailid digest;;
    remove thumbnailid_metadata e.1);;
  unused ← gets (λ d, Ok (
    (length (kv_scan_prefix (kv d filehash_servername_mediaid) digest) <=? (if only_filehash_metadata then 1 else 0))%nat &&
    (length (kv_scan_prefix (kv d filehash_thumbnailid) digest) <=? (if only_filehash_metadata then entry else 0))%nat));
  if (unused : bool) then remove filehash_metadata digest;; mret (thumbnails, files ++ [hex_encode digest])
  else mret (thumbnails, files).

Definition purge_mediaid (server_name media_id : bytes) (only_filehash_metadata : bool) : M Db (list bytes) :=
  files ← purge_source server_name media_id only_filehash_metadata;
  thumbs ← gets (λ d, Ok (kv_scan_prefix (kv d thumbnailid_metadata) (media_key server_name media_id ++ [ff])));
  '(_, files) ← foldM (purge_thumbnail only_filehash_metadata) (∅, files) thumbs;
  mret files.

(** One media id of a hash. *)
Definition purge_hash_mediaid (k : bytes) : M Db unit :=
  servername_mediaid ← lift (ok_or (after_digest k) (BadDatabase "Invalid format of key in filehash_servername_mediaid"));
  remove servernamemediaid_metadata servername_mediaid;;
  remove filehash_servername_mediaid k;;
  o ← get servernamemediaid_userlocalpart servername_mediaid;
  match o with
  | None => mret tt
  | Some localpart =>
      remove servernamemediaid_userlocalpart servername_mediaid;;
      let parts := split_ff servername_mediaid in
      server ← lift (ok_or (parts !! 0%nat) (BadDatabase "Invalid format of key in filehash_servername_mediaid"));
      media ← lift (ok_or (parts !! 1%nat) (BadDatabase "Invalid format of key in filehash_servername_mediaid"));
      remove servername_userlocalpart_mediaid (uploader_key server localpart media)
  end.

(** Forget a hash, and with it everything that points to it. *)
Definition purge_filehash (digest : bytes) (only_filehash_metadata : bool) : M Db unit :=
  (if only_filehash_metadata then mret tt else
    thumbs ← gets (λ d, Ok (kv_scan_prefix (kv d filehash_thumbnailid) digest).*1);
    for_each thumbs (λ key,
      remove filehash_thumbnailid key;;
      (* split_at panics out of range *)
      tid ← lift (expect (after_digest key));
      remove thumbnailid_metadata tid);;
    medias ← gets (λ d, Ok (kv_scan_prefix (kv d filehash_servername_mediaid) digest).*1);
    for_each medias purge_hash_mediaid);;
  remove filehash_metadata digest.

(** A blocked file keeps its metadata. *)
Definition purge_one (digest : bytes) : M Db bytes :=
  is_blocked ← is_blocked_filehash digest;
  purge_filehash digest is_blocked;;
  mret (hex_encode digest).

(** Add the outcome of a purge to the list. *)
Definition pushing {A} (files : list (res A)) (m : M Db A) : M Db (list (res A)) :=
  r ← attempt m; mret (files ++ [r]).

Definition purge (hashes : list bytes) : M Db (list (res bytes)) := foldM (λ files digest, pushing files (purge_one digest)) [] hashes.

(** Purge a media id and its thumbnails unless their files are used. *)
Definition purge_mediaid_checked (server_name media_id : bytes) (files : list (res bytes)) : M Db (list (res bytes)) :=
  r ← attempt (b ← is_blocked server_name media_id; purge_mediaid server_name media_id b);
  mret (match r with Ok f => files ++ (Ok <$> f) | Err e => files ++ [Err e] | Panic => files end).

Definition purge_and_get_hashes (media : list (bytes * bytes)) (force_filehash : bool) : M Db (list (res bytes)) :=
  foldM (λ files '(server_name, media_id),
    let key := media_key server_name media_id in
    if force_filehash then
      o ← get servernamemediaid_metadata key;
      files ← match o with Some value => pushing files (purge_one (take 32 value)) | None => mret files end;
      thumbs ← gets (λ d, Ok (kv_scan_prefix (kv d thumbnailid_metadata) (key ++ [ff])));
      foldM (λ files (e : entry), pushing files (purge_one (take 32 e.2))) files thumbs
    else purge_mediaid_checked server_name media_id files) [] media.

(** The metadata of an upload of a user, and its media id. *)
Definition upload_metadata (user_server k : bytes) : M Db (bytes * bytes) :=
  media_id ← lift (ok_or (string_from_bytes (rsplit_first k)) (BadDatabase "Invalid media_id string in servername_userlocalpart_mediaid"));
  o ← get servernamemediaid_metadata (media_key user_server media_id);
  metadata ← lift (ok_or o (BadDatabase "Missing metadata for media id and server_name"));
  mret (metadata, media_id).

(** Whether the file was created at or after a time; a deleted file was not. *)
Definition created_since (digest : bytes) (after : option Z) : M Db bool :=
  match after with
  | None => mret true
  | Some after =>
      o ← get filehash_metadata digest;
      match o with
      | None => mret false
      | Some metadata => creation ← lift (fh_creation metadata); mret (negb (creation <? after))
      end
  end.

Definition purge_upload (user_server : bytes) (force_filehash : bool) (after : option Z) (files : list (res bytes)) (k : bytes)
    : M Db (list (res bytes)) :=
  r ← attempt (upload_metadata user_server k);
  match r with
  | Ok (metadata, media_id) =>
      let digest := take 32 metadata in
      r ← attempt (created_since digest after);
      match r with
      | Ok true =>
          if force_filehash then
            files ← pushing files (purge_one digest);
            thumbs ← gets (λ d, Ok (kv_scan_prefix (kv d thumbnailid_metadata) (media_key user_server media_id ++ [ff])));
            foldM (λ files (e : entry), pushing files (purge_one (take 32 e.2))) files thumbs
          else purge_mediaid_checked user_server media_id files
      | Ok false => mret files
      | Err e => mret (files ++ [Err e])
      | Panic => lift Panic
      end
  | Err e => mret (files ++ [Err e])
  | Panic => lift Panic
  end.

Definition purge_and_get_hashes_from_user (user_id : bytes) (force_filehash : bool) (after : option Z) : M Db (list (res bytes)) :=
  let user_server := server_name_of user_id in
  keys ← gets (λ d, Ok (kv_scan_prefix (kv d servername_userlocalpart_mediaid)
                          (uploader_key user_server (localpart user_id) [])).*1);
  foldM (purge_upload user_server force_filehash after) [] keys.

(** The server and media id of a metadata key. *)
Definition key_parts (key : bytes) : res (bytes * bytes) :=
  let parts := split_ff key in
  server ← ok_or (parts !! 0%nat) (BadDatabase "Invalid format of metadata key");
  server_name ← parse_id server_name_ok "Invalid ServerName String in metadata key" "Invalid ServerName String in metadata key" server;
  media ← ok_or (parts !! 1%nat) (BadDatabase "Invalid format of metadata key");
  media_id ← ok_or (string_from_bytes media) (BadDatabase "Invalid Media ID String in metadata key");
  Ok (server_name, media_id).

Definition purge_server_entry (force_filehash : bool) (after : option Z) (files : list (res bytes)) (e : entry) : M Db (list (res bytes)) :=
  r ← attempt (if force_filehash then
      let digest := take 32 e.2 in
      since ← created_since digest after;
      if (since : bool) then hash ← purge_one digest; mret [hash] else mret []
    else
      '(server_name, media_id) ← lift (key_parts e.1);
      is_blocked ← is_blocked server_name media_id;
      purge_mediaid server_name media_id is_blocked);
  mret (match r with Ok f => files ++ (Ok <$> f) | Err e => files ++ [Err e] | Panic => files end).

Definition purge_and_get_hashes_from_server (server_name : bytes) (force_filehash : bool) (after : option Z) : M Db (list (res bytes)) :=
  let prefix := server_name ++ [ff] in
  keys ← gets (λ d, Ok (kv_scan_prefix (kv d servernamemediaid_metadata) prefix ++ kv_scan_prefix (kv d thumbnailid_metadata) prefix));
  foldM (purge_server_entry force_filehash after) [] keys.

(** * Unblocking *)

(** Unblock everything with the content hash; the metadata of a file that is no
    longer stored goes, too.  A thumbnail always reports an error. *)
Definition unblock_hash (digest : bytes) (errors : list Error) : M Db (list Error) :=
  medias ← gets (λ d, Ok (kv_scan_prefix (kv d filehash_servername_mediaid) digest).*1);
  errors ← foldM (λ errors k,
    match after_digest k with
    | Some servername_mediaid => remove blocked_servername_mediaid servername_mediaid;; mret errors
    | None => mret (errors ++ [BadDatabase "Invalid format of key in filehash_servername_mediaid"])
    end) errors medias;
  thumbs ← gets (λ d, Ok (kv_scan_prefix (kv d filehash_thumbnailid) digest).*1);
  let thumbnail_id_error := BadDatabase "Invalid format of value in filehash_thumbnailid" in
  errors ← foldM (λ errors k,
    if bool_decide (length k < 9)%nat then mret errors else
    match thumb_media_key k with
    | Some servername_mediaid => remove blocked_servername_mediaid servername_mediaid;; mret (errors ++ [thumbnail_id_error])
    | None => mret (errors ++ [thumbnail_id_error; thumbnail_id_error])
    end) errors thumbs;
  o ← get filehash_metadata digest;
  match o with
  | None =>
      r ← attempt (purge_filehash digest false);
      mret (match r with Err e => errors ++ [e] | _ => errors end)
  | Some _ => mret errors
  end.

Definition unblock_one (errors : list Error) (media : bytes * bytes) : M Db (list Error) :=
  let key := media_key media.1 media.2 in
  o ← get servernamemediaid_metadata key;
  let thumbnails errors :=
    thumbs ← gets (λ d, Ok (kv_scan_prefix (kv d thumbnailid_metadata) (key ++ [ff])));
    foldM (λ errors (e : entry),
      match parse_metadata e.2 with
      | Ok metadata => unblock_hash (sha256_digest metadata) errors
      | Err e => mret (errors ++ [e])
      | Panic => lift Panic
      end) errors thumbs in
  match parse_metadata <$> o with
  | None => thumbnails errors
  | Some (Ok metadata) => errors ← unblock_hash (sha256_digest metadata) errors; thumbnails errors
  | Some (Err e) => mret (errors ++ [e])
  | Some Panic => lift Panic
  end.

Definition unblock (media : list (bytes * bytes)) : M Db (list Error) := foldM unblock_one [] media.

(** * Queries *)

(** Size and times of a stored file. *)
Definition file_info (digest : bytes) : M Db (option FileInfo) :=
  o ← get filehash_metadata digest;
  lift (map_transpose (λ meta,
    creation ← fh_creation meta;
    last_access ← fh_last_access meta;
    size ← fh_size meta;
    Ok (mkFileInfo creation last_access size)) o).

Definition query_source (key : bytes) : M Db (option MediaQueryFileInfo) :=
  o ← get servernamemediaid_metadata key;
  o ← lift (map_transpose parse_metadata o);
  match o with
  | None => mret None
  | Some meta =>
      o ← get servernamemediaid_userlocalpart key;
      uploader_localpart ← lift (map_transpose (λ bs, ok_or (string_from_bytes bs)
        (BadDatabase "Invalid UTF-8 in value of servernamemediaid_userlocalpart")) o);
      blocked ← is_blocked_filehash (sha256_digest meta);
      time_info ← file_info (sha256_digest meta);
      mret (Some (mkMediaQueryFileInfo uploader_localpart (hex_encode (sha256_digest meta)) (filename meta) (content_type meta)
                    (unauthenticated_access_permitted meta) blocked time_info))
  end.

Definition query_thumbnail (acc : list MediaQueryThumbInfo) (e : entry) : M Db (list MediaQueryThumbInfo) :=
  '(width, height) ← lift (dimensions_from_thumbnailid e.1);
  meta ← lift (parse_metadata e.2);
  blocked ← is_blocked_filehash (sha256_digest meta);
  time_info ← file_info (sha256_digest meta);
  mret (acc ++ [mkMediaQueryThumbInfo width height (hex_encode (sha256_digest meta)) (filename meta) (content_type meta)
                  (unauthenticated_access_permitted meta) blocked time_info]).

Definition query (server_name media_id : bytes) : M Db MediaQuery :=
  let key := media_key server_name media_id in
  is_blocked ← is_directly_blocked server_name media_id;
  source_file ← query_source key;
  thumbs ← gets (λ d, Ok (kv_scan_prefix (kv d thumbnailid_metadata) (key ++ [ff])));
  thumbnails ← foldM query_thumbnail [] thumbs;
  mret (mkMediaQuery is_blocked source_file thumbnails).

(** ** Listing *)

Definition filter_medialistitem (content_type_filter : option bytes) (before after : option Z) (item : MediaListItem) : option MediaListItem :=
  let type_ok := match content_type_filter with
    | None => true
    | Some ct_filter =>
        match ml_content_type item with
        | Some item_ct =>
            if bool_decide (47 ∈ ct_filter) then bool_decide (item_ct = ct_filter) else starts_with (ct_filter ++ lit "/") item_ct
        | None => false
        end
    end in
  let before_ok := match before with None => true | Some before => ml_creation item <? before end in
  let after_ok := match after with None => true | Some after => after <? ml_creation item end in
  if type_ok && before_ok && after_ok then Some item else None.

(** A listed item, if its file is stored and it passes the filter. *)
Definition list_item (keep : MediaListItem → option MediaListItem) (server media_id : bytes) (uploader : option bytes)
    (meta : DbFileMeta) (dimensions : option (Z * Z)) : M Db (option MediaListItem) :=
  o ← get filehash_metadata (sha256_digest meta);
  o ← lift (map_transpose (λ m,
    size ← fh_size m;
    creation ← fh_creation m;
    Ok (keep (mkMediaListItem server media_id uploader (content_type meta) (filename meta) dimensions size creation))) o);
  mret (default None o).

Definition list_media_id (part : option bytes) : res bytes :=
  media_id_bytes ← ok_or part (BadDatabase "Invalid format of key in servernamemediaid_metadata");
  ok_or (string_from_bytes media_id_bytes) (BadDatabase "Invalid Media ID String in servernamemediaid_metadata").

Definition parse_servernamemediaid_metadata_iter (keep : MediaListItem → option MediaListItem) (v : bytes) (next_part : option bytes)
    (server : bytes) : M Db (option MediaListItem) :=
  media_id ← lift (list_media_id next_part);
  o ← get servernamemediaid_userlocalpart (media_key server media_id);
  uploader_localpart ← lift (map_transpose (λ bs, ok_or (string_from_bytes bs)
    (BadDatabase "Invalid uploader localpart in servernamemediaid_userlocalpart")) o);
  meta ← lift (parse_metadata v);
  list_item keep server media_id uploader_localpart meta None.

Definition parse_thumbnailid_metadata_iter (keep : MediaListItem → option MediaListItem) (k v : bytes) (media_id_part : option bytes)
    (server : bytes) : M Db (option MediaListItem) :=
  media_id ← lift (list_media_id media_id_part);
  dimensions ← lift (dimensions_from_thumbnailid k);
  meta ← lift (parse_metadata v);
  list_item keep server media_id None meta (Some dimensions).

(** [map(f).filter_map(Result::transpose).collect()]. *)
Definition collect_items {A} (f : A → M Db (option MediaListItem)) (l : list A) : M Db (list MediaListItem) :=
  foldM (λ acc x, o ← f x; mret (match o with Some item => acc ++ [item] | None => acc end)) [] l.

(** One upload of a user, with its thumbnails. *)
Definition list_upload (keep : MediaListItem → option MediaListItem) (include_thumbnails : bool) (user_id : bytes)
    (acc : list MediaListItem) (k : bytes) : M Db (list MediaListItem) :=
  let server := server_name_of user_id in
  let media_id_bytes := rsplit_first k in
  media_id ← lift (ok_or (string_from_bytes media_id_bytes) (BadDatabase "Invalid Media ID String in servername_userlocalpart_mediaid"));
  let key := media_key server media_id_bytes in
  o ← get servernamemediaid_metadata key;
  o ← lift (map_transpose parse_metadata o);
  meta ← lift (ok_or o (BadDatabase "Missing metadata for media, despite storing it's uploader"));
  item ← list_item keep server media_id (Some (localpart user_id)) meta None;
  let media := match item with Some item => [item] | None => [] end in
  if include_thumbnails then
    thumbs ← gets (λ d, Ok (kv_scan_prefix (kv d thumbnailid_metadata) (key ++ [ff])));
    items ← collect_items (λ e : entry,
      meta ← lift (parse_metadata e.2);
      dimensions ← lift (dimensions_from_thumbnailid e.1);
      list_item keep server media_id (Some (localpart user_id)) meta (Some dimensions)) thumbs;
    mret (acc ++ media ++ items)
  else mret (acc ++ media).

Definition get_servername (parts : list bytes) : res bytes :=
  server ← ok_or (parts !! 0%nat) (BadDatabase "Invalid format of key in servernamemediaid_metadata");
  parse_id server_name_ok "Invalid ServerName String in servernamemediaid_metadata"
    "Invalid ServerName String in servernamemediaid_metadata" server.

Definition list_media (server_name_or_user_id : option ServerNameOrUserId) (include_thumbnails : bool) (content_type_filter : option bytes)
    (before after : option Z) : M Db (list MediaListItem) :=
  let keep := filter_medialistitem content_type_filter before after in
  match server_name_or_user_id with
  | Some (ByServer server) =>
      let prefix := server ++ [ff] in
      files ← gets (λ d, Ok (kv_scan_prefix (kv d servernamemediaid_metadata) prefix));
      media ← collect_items (λ e : entry, parse_servernamemediaid_metadata_iter keep e.2 (Some (rsplit_first e.1)) server) files;
      if include_thumbnails then
        thumbs ← gets (λ d, Ok (kv_scan_prefix (kv d thumbnailid_metadata) prefix));
        items ← collect_items (λ e : entry, parse_thumbnailid_metadata_iter keep e.1 e.2 (split_ff e.1 !! 1%nat) server) thumbs;
        mret (media ++ items)
      else mret media
  | Some (ByUser user_id) =>
      keys ← gets (λ d, Ok (kv_scan_prefix (kv d servername_userlocalpart_mediaid)
                              (uploader_key (server_name_of user_id) (localpart user_id) [])).*1);
      foldM (list_upload keep include_thumbnails user_id) [] keys
  | None =>
      files ← gets (λ d, Ok (kv_iter (kv d servernamemediaid_metadata)));
      media ← collect_items (λ e : entry,
        server ← lift (get_servername (split_ff e.1));
        parse_servernamemediaid_metadata_iter keep e.2 (split_ff e.1 !! 1%nat) server) files;
      if include_thumbnails then
        thumbs ← gets (λ d, Ok (kv_iter (kv d thumbnailid_metadata)));
        items ← collect_items (λ e : entry,
          server ← lift (get_servername (split_ff e.1));
          parse_thumbnailid_metadata_iter keep e.1 e.2 (split_ff e.1 !! 1%nat) server) thumbs;
        mret (media ++ items)
      else mret media
  end.

(** One blocked media id. *)
Definition blocked_entry (d : Db) (e : entry) : res BlockedMediaInfo :=
  let parts := split_ff e.1 in
  server ← ok_or (parts !! 0%nat) (BadDatabase "Invalid format of metadata of blocked media");
  server_name ← parse_id server_name_ok "Invalid server_name String of blocked data" "Invalid ServerName in blocked_servername_mediaid" server;
  media ← ok_or (parts !! 1%nat) (BadDatabase "Invalid format of metadata of blocked media");
  media_id ← ok_or (string_from_bytes media) (BadDatabase "Invalid string in blocked media metadata");
  if bool_decide (length e.2 < 8)%nat then Err (BadDatabase "Invalid format of value in blocked_servername_mediaid") else
  unix_secs ← ok_or (u64_from_bytes (take 8 e.2)) (BadDatabase "Invalid block time in blocked_servername_mediaid ");
  reason ← (if bool_decide (drop 8 e.2 = []) then Ok None
            else Some <$> ok_or (string_from_bytes (drop 8 e.2)) (BadDatabase "Invalid string in blocked media metadata"));
  Ok (mkBlockedMediaInfo server_name media_id unix_secs reason
        ((λ meta, hex_encode (take 32 meta)) <$> (kv d servernamemediaid_metadata !! e.1))).

Definition list_blocked (d : Db) : list (res BlockedMediaInfo) := blocked_entry d <$> kv_iter (kv d blocked_servername_mediaid).

(** * Retention *)

(** A file is local when a media id of this server has its hash. *)
Fixpoint any_local (keys : list bytes) : res bool :=
  match keys with
  | [] => Ok false
  | k :: keys =>
      servername_mediaid ← ok_or (after_digest k) (BadDatabase "Invalid format of key in filehash_servername_mediaid");
      server ← ok_or (split_ff servername_mediaid !! 0%nat) (BadDatabase "Invalid format of key in filehash_servername_mediaid");
      name ← ok_or (string_from_bytes server) (BadDatabase "Invalid UTF-8 servername in filehash_servername_mediaid");
      if bool_decide (name = server_name) then Ok true else any_local keys
  end.

Definition file_is_local (k : bytes) (d : Db) : res bool := any_local (kv_scan_prefix (kv d filehash_servername_mediaid) k).*1.

Definition file_is_thumb (k : bytes) (d : Db) : bool :=
  bool_decide (kv_scan_prefix (kv d filehash_thumbnailid) k ≠ []) && bool_decide (kv_scan_prefix (kv d filehash_servername_mediaid) k = []).

(** [sort_by_key]: a stable sort. *)
Fixpoint insert_by {A} (key : A → Z) (x : A) (l : list A) : list A :=
  match l with
  | [] => [x]
  | y :: l' => if key x <=? key y then x :: l else y :: insert_by key x l'
  end.

Definition sort_by_key {A} (key : A → Z) (l : list A) : list A := foldr (insert_by key) [] l.

(** How many files to take until [required] bytes are reached. *)
Fixpoint take_until (required size_sum : Z) (sizes : list Z) : nat :=
  match sizes with
  | [] => 0
  | file_size :: sizes =>
      let size_sum := w64 (size_sum + file_size) in
      if required <=? size_sum then 1 else S (take_until required size_sum sizes)
  end.

(** The files of a scope: hash, last access and size, with the errors. *)
Definition parse_candidates (files : list entry) : list (res (bytes * Z * Z)) :=
  (λ e : entry, last_access ← fh_last_access e.2; size ← fh_size e.2; Ok (e.1, last_access, size)) <$> files.

Definition errs {A B} (l : list (res A)) : list (res B) := omap (λ r, match r with Err e => Some (Err e) | _ => None end) l.

Definition candidate_files (files : list entry) : list (bytes * Z * Z) := oks (parse_candidates files).

Definition total_size (files : list (bytes * Z * Z)) : Z := fold_left (λ total f, w64 (total + f.2)) files 0.

(** The files to delete: the ones accessed last first, until enough space is
    free. *)
Definition files_over (space new_size : Z) (candidates : list (bytes * Z * Z)) : option (list bytes) :=
  let needed := w64 (total_size candidates + new_size) in
  if needed <? space then None else
  let sorted := reverse (sort_by_key (λ f, f.1.2) candidates) in
  let n := take_until (needed - space) 0 (snd <$> sorted) in
  Some ((λ f, f.1.1) <$> take n sorted).

Definition purge_if_necessary (space : option Z) (keep : bytes → Db → bool) (new_size : Z) : M Db (option (list (res bytes))) :=
  match space with
  | None => mret None
  | Some space =>
      files ← gets (λ d, Ok (bfilter (λ e : entry, keep e.1 d) (kv_iter (kv d filehash_metadata))));
      match files_over space new_size (candidate_files files) with
      | None => mret None
      | Some hashes => purged ← purge hashes; mret (Some (errs (parse_candidates files) ++ purged))
      end
  end.

Definition scoped_space (retention : MediaRetentionConfig) (scope : MediaRetentionScope) : option Z := scoped retention scope ≫= space.

Definition is_local_or (default_ : bool) (k : bytes) (d : Db) : bool := match file_is_local k d with Ok b => b | _ => default_ end.

Definition files_to_delete (digest : bytes) (retention : MediaRetentionConfig) (media_type : MediaType) (new_size : Z)
    : M Db (list (res bytes)) :=
  o ← get filehash_metadata digest;
  match o with
  (* If the file already exists, no space needs to be cleared *)
  | Some _ => mret []
  | None =>
      thumbs ← (if is_thumb media_type then purge_if_necessary (scoped_space retention ScopeThumbnail) file_is_thumb new_size else mret None);
      scope ← match media_type with
        | LocalMedia _ => purge_if_necessary (scoped_space retention ScopeLocal) (is_local_or true) new_size
        | RemoteMedia _ => purge_if_necessary (scoped_space retention ScopeRemote) (λ k d, negb (is_local_or true k d)) new_size
        end;
      all ← purge_if_necessary (global_space retention) (λ _ _, true) new_size;
      mret (default [] thumbs ++ default [] scope ++ default [] all)
  end.

(** The time policies of a scope. *)
Definition check_policy (retention : MediaRetentionConfig) (now : Z) (metadata : bytes) (scope : MediaRetentionScope) : res bool :=
  match scoped retention scope with
  | None => Ok false
  | Some policy =>
      too_old ← match created policy with
        | Some max => creation ← fh_creation metadata; Ok (max <? w64 (now - creation))
        | None => Ok false
        end;
      if (too_old : bool) then Ok true else
      match accessed policy with
      | Some max => last_access ← fh_last_access metadata; Ok (max <? w64 (now - last_access))
      | None => Ok false
      end
  end.

Definition should_be_deleted (retention : MediaRetentionConfig) (now : Z) (d : Db) (e : entry) : res bool :=
  thumb ← (if file_is_thumb e.1 d then check_policy retention now e.2 ScopeThumbnail else Ok false);
  if (thumb : bool) then Ok true else
  local ← file_is_local e.1 d;
  check_policy retention now e.2 (if (local : bool) then ScopeLocal else ScopeRemote).

Definition cleanup_time_retention (retention : MediaRetentionConfig) (now : Z) : M Db (list (res bytes)) :=
  checked ← gets (λ d, Ok ((λ e : entry, b ← should_be_deleted retention now d e; Ok (e.1, b : bool)) <$> kv_iter (kv d filehash_metadata)));
  purged ← purge (fst <$> bfilter snd (oks checked));
  mret (errs checked ++ purged).

Definition update_last_accessed_filehash (now : Z) (digest : bytes) : M Db unit :=
  o ← get filehash_metadata digest;
  match o with
  | Some metadata => insert filehash_metadata digest (update_last_access now metadata)
  (* File was probably deleted just as we were fetching it *)
  | None => mret tt
  end.

Definition update_last_accessed (now : Z) (server media_id : bytes) : M Db unit :=
  o ← get servernamemediaid_metadata (media_key server media_id);
  match o with
  | Some meta => update_last_accessed_filehash now (take 32 meta)
  | None => mret tt
  end.
End media.
