(* ===== verification/MediaInv.v ===== *)
(** * MediaInv: what the media store guarantees

    Proofs about [MediaStore]: purging never drops a file in use, the trees
    stay consistent over every sequence of operations, blocking is by content,
    retention frees the space it must. *)
From S2P Require Import Prelude Bytes KvTree Pdu Database MediaStore.

(** * Purging a media id *)

(** Every media id and thumbnail is listed under its content hash. *)
Record MediaSafe (d : Db) : Prop := mk_MediaSafe {
  ms_meta : ∀ k v, kv d servernamemediaid_metadata !! k = Some v →
    (32 ≤ length v)%nat ∧ is_Some (kv d filehash_servername_mediaid !! (take 32 v ++ k));
  ms_thumb : ∀ k v, kv d thumbnailid_metadata !! k = Some v →
    (32 ≤ length v)%nat ∧ k ≠ [] ∧ is_Some (kv d filehash_thumbnailid !! (take 32 v ++ k));
  ms_hash : ∀ g, is_Some (kv d filehash_metadata !! g) → length g = 32%nat;
}.

(** Nothing points to a hash. *)
Definition unreferenced (d : Db) (g : bytes) : Prop :=
  (∀ k v, kv d servernamemediaid_metadata !! k = Some v → take 32 v ≠ g) ∧
  (∀ k v, kv d thumbnailid_metadata !! k = Some v → take 32 v ≠ g).

(** What purging may have done since [d0]: entries went, and only files that
    nothing points to. *)
Record Purged (hex_encode : bytes → bytes) (d0 d : Db) (files : list bytes) : Prop := mk_Purged {
  pu_safe : MediaSafe d;
  pu_meta : kv d servernamemediaid_metadata ⊆ kv d0 servernamemediaid_metadata;
  pu_thumb : kv d thumbnailid_metadata ⊆ kv d0 thumbnailid_metadata;
  pu_hash : ∀ g, kv d filehash_metadata !! g = kv d0 filehash_metadata !! g ∨ kv d filehash_metadata !! g = None ∧ unreferenced d g;
  pu_files : ∀ f, f ∈ files → ∃ g, f = hex_encode g ∧ unreferenced d g ∧ kv d filehash_metadata !! g = None;
}.

Lemma unreferenced_mono d d' g :
  kv d' servernamemediaid_metadata ⊆ kv d servernamemediaid_metadata → kv d' thumbnailid_metadata ⊆ kv d thumbnailid_metadata →
  unreferenced d g → unreferenced d' g.
Proof. intros H1 H2 [U1 U2]. split; intros k v Hk; [eapply U1|eapply U2]; by eapply lookup_weaken. Qed.

(** Nothing is listed under a hash: nothing points to it. *)
Lemma unused_unreferenced d g :
  MediaSafe d → kv_scan_prefix (kv d filehash_servername_mediaid) g = [] → kv_scan_prefix (kv d filehash_thumbnailid) g = [] → unreferenced d g.
Proof.
  intros [H1 H2 _] E1 E2. split; intros k v Hk <-.
  - destruct (H1 k v Hk) as (_ & x & Hx). assert ((take 32 v ++ k, x) ∈ kv_scan_prefix (kv d filehash_servername_mediaid) (take 32 v)) as Hin
      by (apply elem_of_scan_prefix; split; [apply starts_with_app|done]). rewrite E1 in Hin. by apply not_elem_of_nil in Hin.
  - destruct (H2 k v Hk) as (_ & _ & x & Hx). assert ((take 32 v ++ k, x) ∈ kv_scan_prefix (kv d filehash_thumbnailid) (take 32 v)) as Hin
      by (apply elem_of_scan_prefix; split; [apply starts_with_app|done]). rewrite E2 in Hin. by apply not_elem_of_nil in Hin.
Qed.

Lemma take_app_inj (v v' k k' : bytes) :
  (32 ≤ length v)%nat → (32 ≤ length v')%nat → take 32 v ++ k = take 32 v' ++ k' → take 32 v = take 32 v' ∧ k = k'.
Proof. intros H1 H2 E. apply app_inj_1 in E; [done|]. rewrite !length_take. lia. Qed.

Lemma scan_keys_NoDup t p : NoDup (kv_scan_prefix t p).*1.
Proof.
  apply NoDup_fmap_fst.
  - intros k v1 v2 [_ H1]%elem_of_scan_prefix [_ H2]%elem_of_scan_prefix. congruence.
  - rewrite scan_prefix_spec. apply NoDup_bfilter, entries_NoDup.
Qed.

Section purging.
Context (hex_encode : bytes → bytes).

(** Dropping the file of a hash that nothing points to. *)
Lemma Purged_drop d0 d files g :
  Purged hex_encode d0 d files → unreferenced d g →
  Purged hex_encode d0 (upd filehash_metadata (λ t, kv_remove t g) d) (files ++ [hex_encode g]).
Proof.
  intros [[S1 S2 S3] P1 P2 P3 P4] HU. set (d' := upd _ _ d).
  assert (∀ x, unreferenced d x → unreferenced d' x) as HU' by (intros x Hx; exact Hx). split.
  - split; [done|done|]. intros x. unfold d'. kv_simpl. unfold kv_remove. intros [v [_ Hv]%lookup_delete_Some]. apply S3. by eexists.
  - done.
  - done.
  - intros x. unfold d'. kv_simpl. unfold kv_remove. rewrite lookup_delete. case_decide as E; [subst x; right; auto|]. destruct (P3 x) as [|[? ?]]; auto.
  - intros f [Hf| ->%list_elem_of_singleton]%elem_of_app.
    + destruct (P4 f Hf) as (x & -> & Hx & Hn). exists x. split_and!; [done|by apply HU'|]. unfold d'. kv_simpl. unfold kv_remove. rewrite lookup_delete. by case_decide.
    + exists g. split_and!; [done|by apply HU'|]. unfold d'. kv_simpl. apply lookup_delete_eq.
Qed.

(** Changes that only remove entries of the two forward trees. *)
Lemma Purged_shrink d0 d d' files :
  Purged hex_encode d0 d files → MediaSafe d' → kv d' servernamemediaid_metadata ⊆ kv d servernamemediaid_metadata →
  kv d' thumbnailid_metadata ⊆ kv d thumbnailid_metadata → kv d' filehash_metadata = kv d filehash_metadata → Purged hex_encode d0 d' files.
Proof.
  intros [_ P1 P2 P3 P4] HS H1 H2 H3. split; [done|by etrans|by etrans| |].
  - intros g. rewrite H3. destruct (P3 g) as [|[? ?]]; [auto|]. right. eauto using unreferenced_mono.
  - intros f Hf. destruct (P4 f Hf) as (g & -> & Hu & Hn). exists g. rewrite H3. eauto using unreferenced_mono.
Qed.

Lemma Purged_refl d : MediaSafe d → Purged hex_encode d d [].
Proof. intros HS. split; [done|done|done|auto|]. intros f Hf. by apply not_elem_of_nil in Hf. Qed.

(** Removing a media id and its reverse entry. *)
Lemma MediaSafe_remove d d' k v :
  MediaSafe d → kv d servernamemediaid_metadata !! k = Some v →
  kv d' servernamemediaid_metadata = delete k (kv d servernamemediaid_metadata) →
  kv d' filehash_servername_mediaid = delete (take 32 v ++ k) (kv d filehash_servername_mediaid) →
  kv d' thumbnailid_metadata = kv d thumbnailid_metadata → kv d' filehash_thumbnailid = kv d filehash_thumbnailid →
  kv d' filehash_metadata = kv d filehash_metadata → MediaSafe d'.
Proof.
  intros [H1 H2 H3] Hk E1 E2 E3 E4 E5. split; [| |by rewrite E5].
  - intros k' v'. rewrite E1, E2, lookup_delete_Some. intros [Hne Hk']. destruct (H1 k' v' Hk') as [Hl Hs]. split; [done|].
    rewrite lookup_delete_ne; [done|]. intros E. apply take_app_inj in E as [_ E]; [congruence| |done]. by destruct (H1 k v Hk).
  - intros k' v'. rewrite E3, E4. apply H2.
Qed.

Lemma purge_source_spec d sn mid :
  MediaSafe d → ∃ files d1, purge_source hex_encode sn mid false d = (Ok files, d1) ∧ Purged hex_encode d d1 files ∧
    kv d1 servernamemediaid_metadata = delete (media_key sn mid) (kv d servernamemediaid_metadata) ∧
    kv d1 thumbnailid_metadata = kv d thumbnailid_metadata.
Proof.
  intros HS. unfold purge_source. set (key := media_key sn mid).
  destruct (kv d servernamemediaid_metadata !! key) as [v|] eqn:Ek.
  2: { exists [], d. unfold get, kv_get. run. rewrite Ek. split_and!; [done|by apply Purged_refl|by rewrite delete_id|done]. }
  unfold get, kv_get. run. rewrite Ek. set (g := take 32 v).
  set (d1 := (match kv d servernamemediaid_userlocalpart !! key with
    | Some lp => upd servername_userlocalpart_mediaid (λ t, kv_remove t (uploader_key sn lp mid)) (upd servernamemediaid_userlocalpart (λ t, kv_remove t key) d)
    | None => d end)).
  set (d2 := upd filehash_servername_mediaid (λ t, kv_remove t (g ++ key)) (upd servernamemediaid_metadata (λ t, kv_remove t key) d1)).
  assert (∀ t, t ∉ [servername_userlocalpart_mediaid; servernamemediaid_userlocalpart] → kv d1 t = kv d t) as F1.
  { intros t Ht. unfold d1. destruct (kv d servernamemediaid_userlocalpart !! key); [|done]. rewrite !kv_upd_ne by (intros <-; apply Ht; in_list). done. }
  assert (kv d2 servernamemediaid_metadata = delete key (kv d servernamemediaid_metadata)) as E1
    by (unfold d2; kv_simpl; rewrite F1 by (clear; set_solver); done).
  assert (kv d2 thumbnailid_metadata = kv d thumbnailid_metadata) as E2 by (unfold d2; kv_simpl; rewrite F1 by (clear; set_solver); done).
  assert (kv d2 filehash_metadata = kv d filehash_metadata) as E3 by (unfold d2; kv_simpl; rewrite F1 by (clear; set_solver); done).
  assert (MediaSafe d2) as HS2.
  { apply (MediaSafe_remove d d2 key v); try done; unfold d2; kv_simpl; rewrite F1 by (clear; set_solver); done. }
  assert (Purged hex_encode d d2 []) as HP.
  { apply (Purged_shrink d d); [by apply Purged_refl|done|rewrite E1; apply delete_subseteq|by rewrite E2|done]. }
  set (unused := ((length (kv_scan_prefix (kv d2 filehash_servername_mediaid) g) <=? 0)%nat && bool_decide (kv_scan_prefix (kv d2 filehash_thumbnailid) g = []))).
  exists (if unused then [hex_encode g] else []), (if unused then upd filehash_metadata (λ t, kv_remove t g) d2 else d2). split_and!.
  - unfold remove, unused, d2, d1. run. by destruct (kv d servernamemediaid_userlocalpart !! key); destruct (_ && _).
  - destruct unused eqn:Eu; [|done]. apply (Purged_drop d d2 []); [done|]. apply andb_true_iff in Eu as [Eu1 Eu2].
    apply unused_unreferenced; [done| |by apply bool_decide_eq_true in Eu2]. apply Nat.leb_le in Eu1. apply nil_length_inv. lia.
  - destruct unused; kv_simpl; done.
  - destruct unused; kv_simpl; done.
Qed.

(** One thumbnail. *)
Lemma purge_thumbnail_spec d0 d counts files t v :
  Purged hex_encode d0 d files → kv d thumbnailid_metadata !! t = Some v → ∃ acc d',
    purge_thumbnail hex_encode false (counts, files) (t, v) d = (Ok acc, d') ∧ Purged hex_encode d0 d' acc.2 ∧
    kv d' servernamemediaid_metadata = kv d servernamemediaid_metadata ∧ kv d' thumbnailid_metadata = delete t (kv d thumbnailid_metadata).
Proof.
  intros HP Ht. destruct (ms_thumb _ (pu_safe _ _ _ _ HP) t v Ht) as (Hl & _ & _). set (g := take 32 v).
  set (d1 := upd thumbnailid_metadata (λ tr, kv_remove tr t) (upd filehash_thumbnailid (λ tr, kv_remove tr g) d)).
  assert (MediaSafe d1) as HS1.
  { destruct (pu_safe _ _ _ _ HP) as [H1 H2 H3]. split; unfold d1; kv_simpl; [exact H1| |exact H3]. intros k v'. unfold kv_remove.
    rewrite lookup_delete_Some. intros [Hne Hk]. destruct (H2 k v' Hk) as (Hl' & Hk' & Hs). split_and!; [done|done|].
    rewrite lookup_delete_ne; [done|]. intros E. apply Hk', nil_length_inv. apply (f_equal length) in E. unfold g in E.
    rewrite length_app, !length_take in E. lia. }
  assert (Purged hex_encode d0 d1 files) as HP1.
  { apply (Purged_shrink d0 d); [done|done|unfold d1; by kv_simpl| |unfold d1; by kv_simpl]. unfold d1. kv_simpl. apply delete_subseteq. }
  set (entry := S (default 0%nat (counts !! g))).
  set (unused := ((length (kv_scan_prefix (kv d1 filehash_servername_mediaid) g) <=? 0)%nat && (length (kv_scan_prefix (kv d1 filehash_thumbnailid) g) <=? 0)%nat)).
  exists (if unused then (<[g := entry]> counts, files ++ [hex_encode g]) else (<[g := entry]> counts, files)),
    (if unused then upd filehash_metadata (λ tr, kv_remove tr g) d1 else d1). split_and!.
  - unfold purge_thumbnail, remove. run. unfold unused, d1, g. cbn [fst snd]. by destruct (_ && _).
  - destruct unused eqn:Eu; [|done]. apply Purged_drop; [done|]. apply andb_true_iff in Eu as [E1%Nat.leb_le E2%Nat.leb_le].
    apply unused_unreferenced; [done| |]; apply nil_length_inv; lia.
  - destruct unused; unfold d1; by kv_simpl.
  - destruct unused; unfold d1; by kv_simpl.
Qed.

Lemma purge_mediaid_spec d sn mid :
  MediaSafe d → ∃ files d', purge_mediaid hex_encode sn mid false d = (Ok files, d') ∧ Purged hex_encode d d' files ∧
    kv d' servernamemediaid_metadata = delete (media_key sn mid) (kv d servernamemediaid_metadata) ∧
    ∀ k, kv d' thumbnailid_metadata !! k = if starts_with (media_key sn mid ++ [ff]) k then None else kv d thumbnailid_metadata !! k.
Proof.
  intros HS. destruct (purge_source_spec d sn mid HS) as (files & d1 & E1 & HP1 & Em & Et). unfold purge_mediaid.
  rewrite (bind_ok _ _ _ _ _ E1), bind_gets. set (pre := media_key sn mid ++ [ff]). set (l := kv_scan_prefix (kv d1 thumbnailid_metadata) pre).
  assert (∀ k v, (k, v) ∈ l ↔ starts_with pre k = true ∧ kv d1 thumbnailid_metadata !! k = Some v) as Hl by (intros; apply elem_of_scan_prefix).
  assert (NoDup l.*1) as Hnd by apply scan_keys_NoDup.
  destruct (foldM_inv (λ l1 acc d2, Purged hex_encode d d2 acc.2 ∧ kv d2 servernamemediaid_metadata = kv d1 servernamemediaid_metadata ∧
    ∀ k, kv d2 thumbnailid_metadata !! k = if decide (k ∈ l1.*1) then None else kv d1 thumbnailid_metadata !! k)
    (purge_thumbnail hex_encode false) (∅, files) l d1) as ([counts files'] & d2 & E2 & HP2 & Em2 & Et2).
  - split_and!; [done|done|]. intros k. rewrite decide_False; [done|apply not_elem_of_nil].
  - intros l1 [t v] l2 [counts fs] d2 El (HP2 & Em2 & Et2).
    assert (t ∉ l1.*1) as Hnt. { rewrite El, fmap_app, fmap_cons in Hnd. apply NoDup_app in Hnd as (_ & Hd & _). intros Hin. apply (Hd t Hin). by left. }
    assert (kv d2 thumbnailid_metadata !! t = Some v) as Ht.
    { rewrite Et2, decide_False by done. apply (Hl t v). rewrite El. apply elem_of_app. right. by left. }
    destruct (purge_thumbnail_spec d d2 counts fs t v HP2 Ht) as (acc & d3 & E3 & HP3 & Em3 & Et3). exists acc, d3.
    split_and!; [done|done|congruence|]. intros k. rewrite Et3, lookup_delete, Et2, fmap_app. cbn. repeat case_decide; set_solver.
  - rewrite (bind_ok _ _ _ _ _ E2). exists files', d2. split_and!; [done|done|by rewrite Em2|]. intros k. rewrite Et2, Et.
    case_decide as Hk.
    + apply list_elem_of_fmap in Hk as ([k' v] & -> & Hin). apply Hl in Hin as [Hs _]. cbn [fst]. by rewrite Hs.
    + destruct (starts_with pre k) eqn:Es; [|done]. destruct (kv d thumbnailid_metadata !! k) as [v|] eqn:Ek; [|done]. exfalso. apply Hk.
      apply list_elem_of_fmap. exists (k, v). split; [done|]. apply Hl. by rewrite Et.
Qed.
End purging.

(** Looking up metadata under a key of a tree. *)
Definition lookup_file (t : Table) (key : bytes) (d : Db) : res DbFileMeta :=
  value ← ok_or (kv d t !! key) (BadRequest NotFound "Media not found.");
  meta ← parse_metadata value;
  match kv d filehash_metadata !! sha256_digest meta with
  | Some _ => Ok meta
  | None => Err (BadRequest NotFound "Media not found.")
  end.

Lemma search_lookup t key d :
  (o ← get t key; value ← lift (ok_or o (BadRequest NotFound "Media not found.")); meta ← lift (parse_metadata value); available meta) d =
  (lookup_file t key d, d).
Proof.
  unfold get, kv_get, lookup_file, available. run. destruct (kv d t !! key) as [v|]; [|done]. cbn. destruct (parse_metadata v) as [m| |]; [|done..].
  unfold get, kv_get. run. cbn. by destruct (kv d filehash_metadata !! sha256_digest m).
Qed.

Lemma parse_metadata_digest v m : parse_metadata v = Ok m → sha256_digest m = take 32 v.
Proof.
  unfold parse_metadata. case_bool_decide; [done|]. cbv zeta. intros (f & _ & E)%res_bind_Ok. apply res_bind_Ok in E as (c & _ & E). by injection E as <-.
Qed.

(** An entry that survives a purge keeps its file. *)
Lemma lookup_file_purged hex d d' files t key :
  Purged hex d d' files → t = servernamemediaid_metadata ∨ t = thumbnailid_metadata → kv d' t !! key = kv d t !! key →
  lookup_file t key d' = lookup_file t key d.
Proof.
  intros [_ _ _ H _] Ht E. unfold lookup_file. rewrite E. destruct (kv d t !! key) as [v|] eqn:Ev; [|done]. cbn.
  destruct (parse_metadata v) as [m| |] eqn:Em; [|done..]. cbn. apply parse_metadata_digest in Em. rewrite Em.
  destruct (H (take 32 v)) as [->|[_ [U1 U2]]]; [done|]. exfalso. destruct Ht as [->| ->]; [by apply (U1 key v)|by apply (U2 key v)].
Qed.

(** Purging never deletes a file in use.  Purging a media id always
    succeeds; the media id and its thumbnails are not found any more; every
    other media id and thumbnail is found as before, even when it shares the
    content; and a file is handed to the media backend for deletion only when
    no remaining media id or thumbnail has its hash and its own entry is
    gone. *)
Theorem purge_keeps_shared_files hex_encode d sn mid :
  MediaSafe d → ∃ files d', purge_mediaid hex_encode sn mid false d = (Ok files, d') ∧ MediaSafe d' ∧
    (search_file_metadata sn mid d').1 = Err (BadRequest NotFound "Media not found.") ∧
    (∀ sn' mid', media_key sn' mid' ≠ media_key sn mid → (search_file_metadata sn' mid' d').1 = (search_file_metadata sn' mid' d).1) ∧
    (∀ sn' mid' w h, (search_thumbnail_metadata sn' mid' w h d').1 =
      if starts_with (media_key sn mid ++ [ff]) (thumbnail_id sn' mid' w h) then Err (BadRequest NotFound "Media not found.")
      else (search_thumbnail_metadata sn' mid' w h d).1) ∧
    ∀ f, f ∈ files → ∃ g, f = hex_encode g ∧ unreferenced d' g ∧ kv d' filehash_metadata !! g = None.
Proof.
  intros HS. destruct (purge_mediaid_spec hex_encode d sn mid HS) as (files & d' & E & HP & Em & Et). exists files, d'.
  unfold search_file_metadata, search_thumbnail_metadata. split_and!.
  - done.
  - apply HP.
  - rewrite search_lookup. cbn [fst]. unfold lookup_file. by rewrite Em, lookup_delete_eq.
  - intros sn' mid' Hne. rewrite !search_lookup. cbn [fst]. eapply lookup_file_purged; [done|by left|]. by rewrite Em, lookup_delete_ne.
  - intros sn' mid' w h. rewrite !search_lookup. cbn [fst]. pose proof (Et (thumbnail_id sn' mid' w h)) as Hk.
    destruct (starts_with _ _); [unfold lookup_file; by rewrite Hk|]. eapply lookup_file_purged; [done|by right|done].
  - apply HP.
Qed.

(** * The invariant across all operations *)

Definition media_trees : list Table :=
  [servernamemediaid_metadata; filehash_servername_mediaid; thumbnailid_metadata; filehash_thumbnailid; filehash_metadata].

(** Changes of single trees. *)
Lemma safe_other t f : t ∉ media_trees → preserves MediaSafe (modify (upd t f)).
Proof.
  intros Ht d [H1 H2 H3]. cbn [snd modify].
  assert (∀ t', t' ∈ media_trees → kv (upd t f d) t' = kv d t') as E by (intros t' Ht'; apply kv_upd_ne; by intros ->).
  split; rewrite !E by in_list; done.
Qed.

Lemma safe_insert_hash g v : length g = 32%nat → preserves MediaSafe (insert filehash_metadata g v).
Proof.
  intros Hg d [H1 H2 H3]. unfold insert, modify. cbn [snd]. split; kv_simpl; [done|done|]. intros x. unfold kv_insert. rewrite lookup_insert.
  case_decide as E; [by subst|]. apply H3.
Qed.

Lemma safe_remove_hash g : preserves MediaSafe (remove filehash_metadata g).
Proof.
  intros d [H1 H2 H3]. unfold remove, modify. cbn [snd]. split; kv_simpl; [done|done|]. intros x. unfold kv_remove. rewrite lookup_delete.
  case_decide; [by intros []|apply H3].
Qed.

(** A media id with its reverse entry. *)
Lemma safe_add_media g k r : length g = 32%nat →
  preserves MediaSafe (insert filehash_servername_mediaid (g ++ k) [];; insert servernamemediaid_metadata k (g ++ r)).
Proof.
  intros Hg d [H1 H2 H3]. unfold insert. run. cbn [snd]. split; kv_simpl; [|done|done]. intros k' v'. unfold kv_insert. rewrite !lookup_insert.
  case_decide as E; [subst k'; intros [= <-]|intros Hk'].
  - rewrite length_app, Hg, take_app_length' by done. split; [lia|]. rewrite decide_True by done. by eexists.
  - destruct (H1 k' v' Hk') as [Hl Hs]. split; [done|]. case_decide; [by eexists|done].
Qed.

Lemma safe_add_thumb g k r : length g = 32%nat → k ≠ [] →
  preserves MediaSafe (insert filehash_thumbnailid (g ++ k) [];; insert thumbnailid_metadata k (g ++ r)).
Proof.
  intros Hg Hk d [H1 H2 H3]. unfold insert. run. cbn [snd]. split; kv_simpl; [done| |done]. intros k' v'. unfold kv_insert. rewrite !lookup_insert.
  case_decide as E; [subst k'; intros [= <-]|intros Hk'].
  - rewrite length_app, Hg, take_app_length' by done. split_and!; [lia|done|]. rewrite decide_True by done. by eexists.
  - destruct (H2 k' v' Hk') as (Hl & Hn & Hs). split_and!; [done|done|]. case_decide; [by eexists|done].
Qed.

(** Removing an entry of a reverse tree together with what it lists. *)
Lemma take_app_drop (v k key : bytes) : (32 ≤ length v)%nat → take 32 v ++ k = key → k = drop 32 key.
Proof. intros Hv <-. rewrite drop_app_length'; [done|]. rewrite length_take. lia. Qed.

Lemma safe_drop_thumb key : (32 ≤ length key)%nat →
  preserves MediaSafe (remove filehash_thumbnailid key;; tid ← lift (expect (after_digest key)); remove thumbnailid_metadata tid).
Proof.
  intros Hkey d [H1 H2 H3]. unfold remove, after_digest. rewrite bool_decide_eq_false_2 by lia. run. cbn [expect snd]. split; kv_simpl; [done| |done].
  intros k v. unfold kv_remove. intros [Hne Hk]%lookup_delete_Some. destruct (H2 k v Hk) as (Hl & Hn & Hs). split_and!; [done|done|].
  rewrite lookup_delete_ne; [done|]. intros E. apply Hne. symmetry. by apply (take_app_drop v).
Qed.

Lemma safe_drop_media k : preserves MediaSafe (purge_hash_mediaid k).
Proof.
  unfold purge_hash_mediaid, after_digest, remove. case_bool_decide; [by intros d HS|]. cbn [ok_or].
  intros d HS. rewrite (bind_ok _ _ d (drop 32 k) d) by done. rewrite bind_modify. rewrite bind_modify.
  set (d1 := upd _ _ (upd _ _ d)). assert (MediaSafe d1) as HS1.
  { destruct HS as [H1 H2 H3]. unfold d1. split; kv_simpl; [|done|done]. intros k' v. unfold kv_remove. intros [Hne Hk]%lookup_delete_Some.
    destruct (H1 k' v Hk) as [Hl Hs]. split; [done|]. rewrite lookup_delete_ne; [done|]. intros E. apply Hne. symmetry. by apply (take_app_drop v). }
  clearbody d1. revert d1 HS1. apply preserves_bind; [apply preserves_gets|]. intros [lp|]; [|apply preserves_ret].
  repeat (apply preserves_bind; [first [apply preserves_lift|apply safe_other; unfold media_trees; clear; set_solver]|intros]).
  apply safe_other. unfold media_trees. clear. set_solver.
Qed.

Create HintDb media discriminated.
#[local] Hint Resolve preserves_ret preserves_lift preserves_gets preserves_fail safe_insert_hash safe_remove_hash safe_drop_media : media.
#[local] Hint Extern 1 (preserves MediaSafe (get _ _)) => (apply preserves_gets) : media.
#[local] Hint Extern 1 (preserves MediaSafe (insert _ _ _)) => (apply safe_other; unfold media_trees; clear; set_solver) : media.
#[local] Hint Extern 1 (preserves MediaSafe (remove _ _)) => (apply safe_other; unfold media_trees; clear; set_solver) : media.

Ltac safe := repeat first
  [ progress (intros; cbv beta)
  | solve [eauto with media]
  | apply preserves_bind
  | apply preserves_attempt
  | apply preserves_foldM
  | apply preserves_for_each_in
  | match goal with |- preserves _ (match ?x with _ => _ end) => destruct x end
  | match goal with |- preserves _ (let '_ := ?x in _) => destruct x end ].

Lemma scanned_key_length t p k : length p = 32%nat → k ∈ (kv_scan_prefix t p).*1 → (32 ≤ length k)%nat.
Proof.
  intros Hp ([k' v] & -> & [Hs _]%elem_of_scan_prefix)%list_elem_of_fmap. apply starts_with_spec in Hs as [r ->]. cbn [fst].
  rewrite length_app. lia.
Qed.

(** What the retention picks are files of the scope. *)
Lemma insert_by_perm {A} (key : A → Z) x l : insert_by key x l ≡ₚ x :: l.
Proof. induction l as [|y l IH]; cbn; [done|]. destruct (_ <=? _); [done|]. rewrite IH. constructor. Qed.

Lemma sort_by_key_perm {A} (key : A → Z) l : sort_by_key key l ≡ₚ l.
Proof. induction l as [|x l IH]; cbn; [done|]. by rewrite insert_by_perm, IH. Qed.

Lemma elem_of_candidates files f : f ∈ candidate_files files → ∃ v, (f.1.1, v) ∈ files.
Proof.
  unfold candidate_files, oks, parse_candidates. intros (r & Hr & E)%list_elem_of_omap. apply list_elem_of_fmap in Hr as ([k v] & -> & Hin).
  exists v. cbn [fst snd] in *. destruct (fh_last_access v) as [la| |]; [|done..]. destruct (fh_size v) as [sz| |]; [|done..]. cbn in E. by injection E as <-.
Qed.

Lemma files_over_keys space new_size files hs g :
  files_over space new_size (candidate_files files) = Some hs → g ∈ hs → ∃ v, (g, v) ∈ files.
Proof.
  unfold files_over. cbv zeta. destruct (_ <? _); [done|]. intros [= <-] (f & -> & Hf)%list_elem_of_fmap.
  apply elem_of_take in Hf as (i & Hf%list_elem_of_lookup_2 & _). rewrite reverse_Permutation, sort_by_key_perm in Hf. by apply elem_of_candidates.
Qed.

Section preserved.
Context {RU : Ruma} (localpart : bytes → bytes) (server_name : bytes) (hex_encode : bytes → bytes).

Lemma safe_purge_filehash g b : length g = 32%nat → preserves MediaSafe (purge_filehash g b).
Proof.
  intros Hg. unfold purge_filehash. apply preserves_bind; [|safe]. destruct b; [safe|].
  apply preserves_gets_bind. intros l d _ [= <-]. apply preserves_bind; [|safe]. apply preserves_for_each_in. intros key Hkey.
  apply safe_drop_thumb. by eapply scanned_key_length.
Qed.

#[local] Hint Resolve safe_purge_filehash : media.

Lemma safe_purge_one g : length g = 32%nat → preserves MediaSafe (purge_one hex_encode g).
Proof. intros Hg. unfold purge_one, is_blocked_filehash. safe. Qed.

Lemma safe_pushing {A} files (m : M Db A) : preserves MediaSafe m → preserves MediaSafe (pushing files m).
Proof. intros H. unfold pushing. safe. Qed.

Lemma safe_purge l : (∀ g, g ∈ l → length g = 32%nat) → preserves MediaSafe (purge hex_encode l).
Proof. intros Hl. unfold purge. apply preserves_foldM. intros g Hg files. apply safe_pushing, safe_purge_one. by apply Hl. Qed.

Lemma safe_purge_mediaid sn mid b : preserves MediaSafe (purge_mediaid hex_encode sn mid b).
Proof.
  destruct b; [|intros d HS; destruct (purge_mediaid_spec hex_encode d sn mid HS) as (f & d' & -> & HP & _); apply HP].
  unfold purge_mediaid, purge_source, purge_thumbnail. safe.
Qed.
#[local] Hint Resolve safe_purge_mediaid : media.

Lemma safe_purge_checked sn mid files : preserves MediaSafe (purge_mediaid_checked hex_encode sn mid files).
Proof. unfold purge_mediaid_checked, is_blocked, is_directly_blocked, blocked_via_hash, is_blocked_filehash. safe. Qed.

(** Values of the metadata trees carry a whole hash. *)
Lemma meta_digest d k v : MediaSafe d → kv d servernamemediaid_metadata !! k = Some v → length (take 32 v) = 32%nat.
Proof. intros HS Hk. destruct (ms_meta _ HS k v Hk) as [? _]. rewrite length_take. lia. Qed.

Lemma thumb_digest d p e : MediaSafe d → e ∈ kv_scan_prefix (kv d thumbnailid_metadata) p → length (take 32 e.2) = 32%nat.
Proof. intros HS He. destruct e as [k v]. apply elem_of_scan_prefix in He as [_ He]. destruct (ms_thumb _ HS k v He) as [? _]. cbn. rewrite length_take. lia. Qed.

(** The thumbnails of a media id, purged by their hashes. *)
Lemma safe_purge_thumbs (p : bytes) files :
  preserves MediaSafe (thumbs ← gets (λ d, Ok (kv_scan_prefix (kv d thumbnailid_metadata) p));
    foldM (λ files (e : entry), pushing files (purge_one hex_encode (take 32 e.2))) files thumbs).
Proof.
  apply preserves_gets_bind. intros l d HS [= <-]. apply preserves_foldM. intros e He fs. apply safe_pushing, safe_purge_one. by eapply thumb_digest.
Qed.
#[local] Hint Resolve safe_purge_thumbs safe_purge_checked : media.

Lemma safe_purge_and_get_hashes media force : preserves MediaSafe (purge_and_get_hashes hex_encode media force).
Proof.
  unfold purge_and_get_hashes. apply preserves_foldM. intros [sn mid] _ files. destruct force; [|apply safe_purge_checked].
  apply preserves_gets_bind. intros o d HS [= <-]. apply preserves_bind; [|safe]. destruct (kv_get _ _) as [v|] eqn:Ev; [|safe].
  apply safe_pushing, safe_purge_one. by eapply meta_digest.
Qed.

Lemma safe_purge_upload us force after files k : preserves MediaSafe (purge_upload hex_encode us force after files k).
Proof.
  intros d HS. unfold purge_upload. unfold mbind at 1, M_bind at 1, attempt at 1.
  assert (∀ md mid, (upload_metadata us k d).1 = Ok (md, mid) → length (take 32 md) = 32%nat) as Hmd.
  { intros md mid. unfold upload_metadata, get, kv_get. run. destruct (string_from_bytes _) as [mid'|]; [|done]. cbn.
    destruct (kv d servernamemediaid_metadata !! _) as [v|] eqn:Ev; [|done]. cbn. intros [= <- _]. by eapply meta_digest. }
  assert (preserves MediaSafe (upload_metadata us k)) as HP by (unfold upload_metadata; safe).
  specialize (HP d HS). destruct (upload_metadata us k d) as [[[md mid]| |] d1]; cbn [fst snd] in *; [|done..]. specialize (Hmd md mid eq_refl).
  revert d1 HP. apply preserves_bind; [apply preserves_attempt; unfold created_since; safe|]. intros [[]| |]; [|safe..].
  destruct force; [|safe]. apply preserves_bind; [by apply safe_pushing, safe_purge_one|]. safe.
Qed.

Lemma safe_from_user user force after : preserves MediaSafe (purge_and_get_hashes_from_user localpart hex_encode user force after).
Proof. pose proof safe_purge_upload as H. unfold purge_and_get_hashes_from_user. safe. Qed.

Lemma safe_from_server sn force after : preserves MediaSafe (purge_and_get_hashes_from_server hex_encode sn force after).
Proof.
  unfold purge_and_get_hashes_from_server. apply preserves_gets_bind. intros l d HS [= <-]. apply preserves_foldM. intros e He files.
  assert (length (take 32 e.2) = 32%nat) as Hd.
  { destruct e as [k v]. apply elem_of_app in He as [[_ He]%elem_of_scan_prefix|He]; [by eapply meta_digest|by eapply (thumb_digest d)]. }
  pose proof (safe_purge_one _ Hd) as Ho. unfold purge_server_entry, created_since, is_blocked, is_directly_blocked, blocked_via_hash, is_blocked_filehash. safe.
Qed.

Lemma safe_block media secs reason : preserves MediaSafe (block media secs reason).
Proof. unfold block. safe. Qed.

Lemma safe_block_from_user user now reason after : preserves MediaSafe (block_from_user localpart user now reason after).
Proof. unfold block_from_user, errors_of, block_upload. safe. Qed.

Lemma safe_unblock_hash g errors : length g = 32%nat → preserves MediaSafe (unblock_hash g errors).
Proof. intros Hg. unfold unblock_hash. safe. Qed.

Lemma parse_metadata_length v m : parse_metadata v = Ok m → length (sha256_digest m) = 32%nat.
Proof.
  intros E. rewrite (parse_metadata_digest v m E). revert E. unfold parse_metadata. case_bool_decide; [done|]. intros _. rewrite length_take. lia.
Qed.

Lemma safe_unblock media : preserves MediaSafe (unblock media).
Proof.
  unfold unblock. apply preserves_foldM. intros m _ errors. unfold unblock_one. apply preserves_bind; [safe|]. intros o. cbv zeta.
  assert (∀ errors, preserves MediaSafe (thumbs ← gets (λ d, Ok (kv_scan_prefix (kv d thumbnailid_metadata) (media_key m.1 m.2 ++ [ff])));
    foldM (λ errors (e : entry), match parse_metadata e.2 with
      | Ok metadata => unblock_hash (sha256_digest metadata) errors | Err e => mret (errors ++ [e]) | Panic => lift Panic end) errors thumbs)) as Ht.
  { intros es. apply preserves_bind; [safe|]. intros l. apply preserves_foldM. intros e _ es'.
    destruct (parse_metadata e.2) as [md| |] eqn:E; [|safe..]. apply safe_unblock_hash. by eapply parse_metadata_length. }
  destruct o as [v|]; cbn [fmap option_fmap option_map]; [|apply Ht]. destruct (parse_metadata v) as [md| |] eqn:E; [|safe..].
  apply preserves_bind; [|intros; apply Ht]. apply safe_unblock_hash. by eapply parse_metadata_length.
Qed.

(** The files of a hash tree. *)
Lemma safe_purge_if_necessary space keep new_size : preserves MediaSafe (purge_if_necessary hex_encode space keep new_size).
Proof.
  unfold purge_if_necessary. destruct space as [space|]; [|safe]. apply preserves_gets_bind. intros l d HS [= <-].
  destruct (files_over _ _ _) as [hs|] eqn:E; [|safe]. apply preserves_bind; [|safe]. apply safe_purge. intros g Hg.
  apply (ms_hash _ HS). eapply files_over_keys in Hg as (v & Hin); [|done]. apply elem_of_bfilter in Hin as [_ Hin].
  apply elem_of_entries in Hin. by eexists.
Qed.
#[local] Hint Resolve safe_purge_if_necessary : media.

Lemma safe_files_to_delete g retention type size : preserves MediaSafe (files_to_delete server_name hex_encode g retention type size).
Proof. unfold files_to_delete. safe. Qed.

Lemma safe_cleanup retention now : preserves MediaSafe (cleanup_time_retention server_name hex_encode retention now).
Proof.
  unfold cleanup_time_retention. apply preserves_gets_bind. intros l d HS [= <-]. apply preserves_bind; [|safe]. apply safe_purge.
  intros g ([g' b] & -> & [_ Hg]%elem_of_bfilter)%list_elem_of_fmap. apply list_elem_of_omap in Hg as (r & Hr & E).
  apply list_elem_of_fmap in Hr as ([k v] & -> & Hin%elem_of_entries). destruct (should_be_deleted _ _ _ _ _) as [b'| |]; [|done..].
  cbn in E. injection E as <- _. apply (ms_hash _ HS). by eexists.
Qed.

Lemma safe_update_filehash now g : preserves MediaSafe (update_last_accessed_filehash now g).
Proof.
  unfold update_last_accessed_filehash. apply preserves_gets_bind. intros o d HS [= <-]. destruct (kv_get _ _) as [v|] eqn:E; [|safe].
  apply safe_insert_hash, (ms_hash _ HS). by eexists.
Qed.

Lemma safe_create_file now g size sn mid fn ct user b : length g = 32%nat →
  preserves MediaSafe (create_file_metadata localpart now g size sn mid fn ct user b).
Proof.
  intros Hg. unfold create_file_metadata. apply preserves_bind; [destruct b; safe|]. intros _ d HS.
  rewrite <-(bind_assoc _ _ _ d). revert d HS. apply preserves_bind; [by apply safe_add_media|]. intros _. safe.
Qed.

Lemma safe_create_thumb now g size sn mid w h fn ct : length g = 32%nat →
  preserves MediaSafe (create_thumbnail_metadata now g size sn mid w h fn ct).
Proof.
  intros Hg. unfold create_thumbnail_metadata. apply preserves_bind; [by apply safe_insert_hash|]. intros _. apply safe_add_thumb; [done|].
  unfold thumbnail_id, media_key. by destruct sn.
Qed.
End preserved.

(** Every operation of the store that changes it. *)
Inductive MediaOp :=
  | CreateFile (now : Z) (digest : bytes) (size : Z) (sn mid : bytes) (fn ct user : option bytes) (blocked : bool)
  | CreateThumbnail (now : Z) (digest : bytes) (size : Z) (sn mid : bytes) (w h : Z) (fn ct : option bytes)
  | PurgeMedia (media : list (bytes * bytes)) (force : bool)
  | PurgeUser (user : bytes) (force : bool) (after : option Z)
  | PurgeServer (sn : bytes) (force : bool) (after : option Z)
  | Block (media : list (bytes * bytes)) (secs : Z) (reason : option bytes)
  | BlockUser (user : bytes) (now : Z) (reason : bytes) (after : option Z)
  | Unblock (media : list (bytes * bytes))
  | FilesToDelete (digest : bytes) (retention : MediaRetentionConfig) (type : MediaType) (size : Z)
  | CleanupTime (retention : MediaRetentionConfig) (now : Z)
  | Access (now : Z) (sn mid : bytes)
  | AccessHash (now : Z) (digest : bytes).

Definition media_exec `{Ruma} (localpart : bytes → bytes) (server_name : bytes) (hex : bytes → bytes) (op : MediaOp) : M Db unit :=
  match op with
  | CreateFile now g size sn mid fn ct user b => create_file_metadata localpart now g size sn mid fn ct user b
  | CreateThumbnail now g size sn mid w h fn ct => create_thumbnail_metadata now g size sn mid w h fn ct
  | PurgeMedia media force => purge_and_get_hashes hex media force;; mret tt
  | PurgeUser user force after => purge_and_get_hashes_from_user localpart hex user force after;; mret tt
  | PurgeServer sn force after => purge_and_get_hashes_from_server hex sn force after;; mret tt
  | Block media secs reason => block media secs reason;; mret tt
  | BlockUser user now reason after => block_from_user localpart user now reason after;; mret tt
  | Unblock media => unblock media;; mret tt
  | FilesToDelete g retention type size => files_to_delete server_name hex g retention type size;; mret tt
  | CleanupTime retention now => cleanup_time_retention server_name hex retention now;; mret tt
  | Access now sn mid => update_last_accessed now sn mid
  | AccessHash now g => update_last_accessed_filehash now g
  end.

(** SHA-256 digests have 32 bytes. *)
Definition media_op_ok (op : MediaOp) : Prop :=
  match op with CreateFile _ g _ _ _ _ _ _ _ | CreateThumbnail _ g _ _ _ _ _ _ _ => length g = 32%nat | _ => True end.

Lemma media_exec_safe `{Ruma} localpart server_name hex op : media_op_ok op → preserves MediaSafe (media_exec localpart server_name hex op).
Proof.
  destruct op; cbn [media_op_ok media_exec]; intros Hop; try (apply preserves_bind; [|intros; apply preserves_ret]).
  - by apply safe_create_file.
  - by apply safe_create_thumb.
  - apply safe_purge_and_get_hashes.
  - apply safe_from_user.
  - apply safe_from_server.
  - apply safe_block.
  - apply safe_block_from_user.
  - apply safe_unblock.
  - apply safe_files_to_delete.
  - apply safe_cleanup.
  - unfold update_last_accessed. apply preserves_bind; [apply preserves_gets|]. intros []; [apply safe_update_filehash|apply preserves_ret].
  - apply safe_update_filehash.
Qed.

(** ** The keys of the reverse trees *)

Record MediaKeys (d : Db) : Prop := mk_MediaKeys {
  mk_media : ∀ k, is_Some (kv d filehash_servername_mediaid !! k) → ∃ g sn mid, length g = 32%nat ∧ k = g ++ media_key sn mid;
  mk_thumb : ∀ k, is_Some (kv d filehash_thumbnailid !! k) → ∃ g sn mid w h, length g = 32%nat ∧ k = g ++ thumbnail_id sn mid w h;
}.

Lemma keys_other t f : t ≠ filehash_servername_mediaid → t ≠ filehash_thumbnailid → preserves MediaKeys (modify (upd t f)).
Proof. intros H1 H2 d [K1 K2]. cbn [snd modify]. split; by rewrite kv_upd_ne. Qed.

Lemma keys_remove t k : preserves MediaKeys (remove t k).
Proof.
  intros d [K1 K2]. unfold remove, modify. cbn [snd]. split; intros x; rewrite kv_upd; (case_decide as E; [|auto]); unfold kv_remove;
    rewrite lookup_delete; (case_decide; [by intros []|auto]).
Qed.

#[local] Hint Resolve keys_remove : media.
#[local] Hint Extern 1 (preserves MediaKeys (get _ _)) => (apply preserves_gets) : media.
#[local] Hint Extern 1 (preserves MediaKeys (insert _ _ _)) => (apply keys_other; discriminate) : media.

Lemma keys_purge_filehash g b : preserves MediaKeys (purge_filehash g b).
Proof. unfold purge_filehash, purge_hash_mediaid. safe. Qed.
#[local] Hint Resolve keys_purge_filehash : media.

Lemma keys_purge_one hex g : preserves MediaKeys (purge_one hex g).
Proof. unfold purge_one, is_blocked_filehash. safe. Qed.
#[local] Hint Resolve keys_purge_one : media.

Lemma keys_pushing {A} files (m : M Db A) : preserves MediaKeys m → preserves MediaKeys (pushing files m).
Proof. intros H. unfold pushing. safe. Qed.
#[local] Hint Resolve keys_pushing : media.

Lemma keys_purge hex l : preserves MediaKeys (purge hex l).
Proof. unfold purge. safe. Qed.

Lemma keys_purge_mediaid hex sn mid b : preserves MediaKeys (purge_mediaid hex sn mid b).
Proof. unfold purge_mediaid, purge_source, purge_thumbnail. safe. Qed.
#[local] Hint Resolve keys_purge keys_purge_mediaid : media.

Lemma keys_purge_checked hex sn mid files : preserves MediaKeys (purge_mediaid_checked hex sn mid files).
Proof. unfold purge_mediaid_checked, is_blocked, is_directly_blocked, blocked_via_hash, is_blocked_filehash. safe. Qed.

Lemma keys_if_necessary hex space keep n : preserves MediaKeys (purge_if_necessary hex space keep n).
Proof. unfold purge_if_necessary. safe. Qed.
#[local] Hint Resolve keys_purge_checked keys_if_necessary : media.

Lemma keys_insert_media g sn mid v : length g = 32%nat → preserves MediaKeys (insert filehash_servername_mediaid (g ++ media_key sn mid) v).
Proof.
  intros Hg d [K1 K2]. unfold insert, modify. cbn [snd]. split; [|by kv_simpl]. intros k. kv_simpl. unfold kv_insert. rewrite lookup_insert.
  case_decide; [subst; eauto 6|auto].
Qed.

Lemma keys_insert_thumb g sn mid w h v : length g = 32%nat → preserves MediaKeys (insert filehash_thumbnailid (g ++ thumbnail_id sn mid w h) v).
Proof.
  intros Hg d [K1 K2]. unfold insert, modify. cbn [snd]. split; [by kv_simpl|]. intros k. kv_simpl. unfold kv_insert. rewrite lookup_insert.
  case_decide; [subst; eauto 8|auto].
Qed.
#[local] Hint Resolve keys_insert_media keys_insert_thumb : media.

Lemma media_exec_keys `{Ruma} localpart server_name hex op : media_op_ok op → preserves MediaKeys (media_exec localpart server_name hex op).
Proof.
  destruct op; cbn [media_op_ok media_exec]; intros Hop; try (apply preserves_bind; [|intros; apply preserves_ret]);
    unfold create_file_metadata, create_thumbnail_metadata, purge_and_get_hashes, purge_and_get_hashes_from_user, purge_upload, upload_metadata,
      created_since, purge_and_get_hashes_from_server, purge_server_entry, is_blocked, is_directly_blocked, blocked_via_hash, is_blocked_filehash,
      block, block_from_user, errors_of, block_upload, unblock, unblock_one, unblock_hash, files_to_delete, cleanup_time_retention,
      update_last_accessed, update_last_accessed_filehash; try unfold created_since; safe.
Qed.

(** The store's invariant. *)
Definition MediaInv (d : Db) : Prop := MediaSafe d ∧ MediaKeys d.

(** A store without media. *)
Lemma empty_media d : (∀ t, t ∈ media_trees → kv d t = ∅) → MediaInv d.
Proof.
  intros H. split; split; rewrite H by in_list; intros *; rewrite lookup_empty; first [done|by intros []].
Qed.

Definition media_run `{Ruma} (localpart : bytes → bytes) (server_name : bytes) (hex : bytes → bytes) (ops : list MediaOp) (d : Db) : Db :=
  fold_left (λ d op, (media_exec localpart server_name hex op d).2) ops d.

Lemma media_run_inv `{Ruma} localpart server_name hex ops d :
  Forall media_op_ok ops → MediaInv d → MediaInv (media_run localpart server_name hex ops d).
Proof.
  intros Hops. revert d. induction Hops as [|op ops Hop _ IH]; intros d [H1 H2]; [done|]. cbn [media_run fold_left]. apply IH.
  split; [by apply media_exec_safe|by apply media_exec_keys].
Qed.

(** * Hashes: blocking and forgetting *)

Lemma after_digest_app g k : length g = 32%nat → after_digest (g ++ k) = Some k.
Proof.
  intros Hg. unfold after_digest. rewrite bool_decide_eq_false_2 by (rewrite length_app; lia). by rewrite drop_app_length' by done.
Qed.

Lemma thumb_media_key_app g sn mid w h : length g = 32%nat → thumb_media_key (g ++ thumbnail_id sn mid w h) = Some (media_key sn mid).
Proof.
  intros Hg. unfold thumb_media_key, thumbnail_id. set (m := media_key sn mid).
  assert (length (g ++ m ++ ff :: u32_be w ++ u32_be h) = 32 + length m + 9)%nat as El.
  { rewrite !length_app. cbn [length]. unfold u32_be. rewrite length_app, !length_be_split. lia. }
  rewrite El, !bool_decide_eq_false_2 by lia. rewrite drop_app_length' by done. f_equal.
  replace (32 + length m + 9 - 9 - 32)%nat with (length m) by lia. by rewrite take_app_length.
Qed.

Lemma elem_of_scan_keys t p k : k ∈ (kv_scan_prefix t p).*1 ↔ starts_with p k = true ∧ is_Some (t !! k).
Proof.
  rewrite list_elem_of_fmap. split.
  - intros ([k' v] & -> & [H1 H2]%elem_of_scan_prefix). eauto.
  - intros [H1 [v H2]]. exists (k, v). split; [done|]. by apply elem_of_scan_prefix.
Qed.

Lemma any_blocked_spec key_of msg keys d :
  (∀ k, k ∈ keys → is_Some (key_of k)) → ∃ b, any_blocked key_of msg keys d = Ok b ∧
    (b = true ↔ ∃ k x, k ∈ keys ∧ key_of k = Some x ∧ is_Some (kv d blocked_servername_mediaid !! x)).
Proof.
  induction keys as [|k keys IH]; intros Hk; cbn [any_blocked].
  - exists false. split; [done|]. split; [done|]. intros (k & x & Hin & _). by apply not_elem_of_nil in Hin.
  - destruct (Hk k ltac:(by left)) as [x Hx]. rewrite Hx. cbn [ok_or]. cbn [mbind res_bind]. case_bool_decide as Hb.
    + exists true. split; [done|]. split; [|done]. intros _. exists k, x. split; [by left|done].
    + destruct IH as (b & -> & Hbs); [intros; apply Hk; by right|]. exists b. split; [done|]. rewrite Hbs. split.
      * intros (k' & x' & Hin & ?). exists k', x'. split; [by right|done].
      * intros (k' & x' & [->|Hin]%elem_of_cons & E & Hs); [congruence|eauto].
Qed.

(** Whether a media id with this content is blocked. *)
Definition hash_blocked (d : Db) (g : bytes) : Prop :=
  (∃ x, is_Some (kv d filehash_servername_mediaid !! (g ++ x)) ∧ is_Some (kv d blocked_servername_mediaid !! x)) ∨
  (∃ sn mid w h, is_Some (kv d filehash_thumbnailid !! (g ++ thumbnail_id sn mid w h)) ∧ is_Some (kv d blocked_servername_mediaid !! media_key sn mid)).

(** A key listed under a hash. *)
Lemma listed_media d g k : MediaKeys d → length g = 32%nat → starts_with g k = true → is_Some (kv d filehash_servername_mediaid !! k) →
  ∃ sn mid, k = g ++ media_key sn mid.
Proof.
  intros HK Hg Hs Hk. destruct (mk_media _ HK k Hk) as (g' & sn & mid & Hg' & ->). apply starts_with_spec in Hs as [r E].
  apply app_inj_1 in E as [-> _]; [eauto|lia].
Qed.

Lemma listed_thumb d g k : MediaKeys d → length g = 32%nat → starts_with g k = true → is_Some (kv d filehash_thumbnailid !! k) →
  ∃ sn mid w h, k = g ++ thumbnail_id sn mid w h.
Proof.
  intros HK Hg Hs Hk. destruct (mk_thumb _ HK k Hk) as (g' & sn & mid & w & h & Hg' & ->). apply starts_with_spec in Hs as [r E].
  apply app_inj_1 in E as [-> _]; [eauto|lia].
Qed.

Lemma is_blocked_filehash_spec d g : MediaKeys d → length g = 32%nat →
  ∃ b, is_blocked_filehash g d = (Ok b, d) ∧ (b = true ↔ hash_blocked d g).
Proof.
  intros HK Hg. unfold is_blocked_filehash. run.
  destruct (any_blocked_spec after_digest "Invalid format of key in filehash_servername_mediaid"
    (kv_scan_prefix (kv d filehash_servername_mediaid) g).*1 d) as (b1 & -> & H1).
  { intros k [Hs Hk]%elem_of_scan_keys. destruct (listed_media d g k HK Hg Hs Hk) as (sn & mid & ->). rewrite after_digest_app by done. by eexists. }
  destruct (any_blocked_spec thumb_media_key "Invalid format of value in filehash_thumbnailid"
    (kv_scan_prefix (kv d filehash_thumbnailid) g).*1 d) as (b2 & E2 & H2).
  { intros k [Hs Hk]%elem_of_scan_keys. destruct (listed_thumb d g k HK Hg Hs Hk) as (sn & mid & w & h & ->). rewrite thumb_media_key_app by done. by eexists. }
  exists (b1 || b2). split; [cbn [mbind res_bind]; destruct b1; by rewrite ?E2|]. rewrite orb_true_iff, H1, H2. unfold hash_blocked. f_equiv; split.
  - intros (k & x & [Hs Hk]%elem_of_scan_keys & Ex & Hb). destruct (listed_media d g k HK Hg Hs Hk) as (sn & mid & ->).
    rewrite after_digest_app in Ex by done. injection Ex as <-. eauto.
  - intros (x & Hk & Hb). exists (g ++ x), x. split_and!; [apply elem_of_scan_keys; split; [apply starts_with_app|done]|by apply after_digest_app|done].
  - intros (k & x & [Hs Hk]%elem_of_scan_keys & Ex & Hb). destruct (listed_thumb d g k HK Hg Hs Hk) as (sn & mid & w & h & ->).
    rewrite thumb_media_key_app in Ex by done. injection Ex as <-. eauto 6.
  - intros (sn & mid & w & h & Hk & Hb). exists (g ++ thumbnail_id sn mid w h), (media_key sn mid).
    split_and!; [apply elem_of_scan_keys; split; [apply starts_with_app|done]|by apply thumb_media_key_app|done].
Qed.

(** ** Operations that only remove *)

Definition shrinks (d d' : Db) : Prop := ∀ t, kv d' t ⊆ kv d t.

Lemma shrinks_remove d0 t k : preserves (shrinks d0) (remove t k).
Proof.
  intros d Hd t'. unfold remove, modify. cbn [snd]. rewrite kv_upd. case_decide; [subst|apply Hd]. unfold kv_remove. etrans; [apply delete_subseteq|apply Hd].
Qed.

#[local] Hint Resolve shrinks_remove : media.
#[local] Hint Extern 1 (preserves (shrinks _) (get _ _)) => (apply preserves_gets) : media.

Lemma shrinks_purge_filehash d0 g b : preserves (shrinks d0) (purge_filehash g b).
Proof. unfold purge_filehash, purge_hash_mediaid. safe. Qed.
#[local] Hint Resolve shrinks_purge_filehash : media.

Lemma shrinks_unblock_hash d0 g errors : preserves (shrinks d0) (unblock_hash g errors).
Proof. unfold unblock_hash. safe. Qed.
#[local] Hint Resolve shrinks_unblock_hash : media.

Lemma shrinks_files_to_delete server_name hex d0 g retention type n : preserves (shrinks d0) (files_to_delete server_name hex g retention type n).
Proof. unfold files_to_delete, purge_if_necessary, purge, pushing, purge_one, is_blocked_filehash. safe. Qed.

Lemma shrinks_keys d d' : shrinks d d' → MediaKeys d → MediaKeys d'.
Proof. intros Hd [K1 K2]. split; intros k [v Hv]; [apply K1|apply K2]; exists v; by eapply lookup_weaken. Qed.

(** Without the block nothing is blocked, and removing cannot bring it back. *)
Lemma shrinks_hash_blocked d d' g : shrinks d d' → hash_blocked d' g → hash_blocked d g.
Proof.
  intros Hd. assert (∀ t k, is_Some (kv d' t !! k) → is_Some (kv d t !! k)) as H by (intros t k [v Hv]; exists v; by eapply lookup_weaken).
  intros [(x & H1 & H2)|(sn & mid & w & h & H1 & H2)]; [left|right]; eauto 8.
Qed.

Lemma split_ff_two a b : ∃ x y l, split_ff (a ++ ff :: b) = x :: y :: l.
Proof.
  assert (∀ b, ∃ y l, split_ff b = y :: l) as H1.
  { intros c. induction c as [|z c IH]; cbn; [eauto|]. destruct (z =? ff); [eauto|]. destruct IH as (y & l & ->). eauto. }
  induction a as [|z a IH]; cbn.
  - destruct (H1 b) as (y & l & ->). eauto.
  - destruct IH as (x & y & l & E). rewrite E. destruct (z =? ff); eauto.
Qed.

Lemma purge_hash_mediaid_ok g sn mid d : length g = 32%nat → ∃ d', purge_hash_mediaid (g ++ media_key sn mid) d = (Ok tt, d').
Proof.
  intros Hg. unfold purge_hash_mediaid. rewrite after_digest_app by done. unfold remove, get. run. cbn [ok_or]. destruct (kv_get _ _) as [lp|]; [|eauto].
  unfold media_key. destruct (split_ff_two sn mid) as (x & y & l & ->). cbn. eauto.
Qed.

Lemma purge_filehash_ok g d : MediaKeys d → length g = 32%nat → ∃ d', purge_filehash g false d = (Ok tt, d').
Proof.
  intros HK Hg. unfold purge_filehash, remove. rewrite bind_assoc, bind_gets.
  destruct (for_each_ok MediaKeys (kv_scan_prefix (kv d filehash_thumbnailid) g).*1 (λ key,
    modify (upd filehash_thumbnailid (λ t, kv_remove t key));; tid ← lift (expect (after_digest key));
    modify (upd thumbnailid_metadata (λ t, kv_remove t tid))) d) as (d1 & E1 & HK1); [|done|].
  { intros k s [Hs Hk]%elem_of_scan_keys HKs. destruct (listed_thumb d g k HK Hg Hs Hk) as (sn & mid & w & h & ->).
    rewrite after_digest_app by done. run. cbn [expect]. eexists. split; [done|]. eapply shrinks_keys, HKs.
    apply (shrinks_remove s thumbnailid_metadata _ _). apply (shrinks_remove s filehash_thumbnailid). by intros ?. }
  rewrite bind_assoc, (bind_ok _ _ _ _ _ E1), bind_assoc, bind_gets.
  destruct (for_each_ok (λ _, True) (kv_scan_prefix (kv d1 filehash_servername_mediaid) g).*1 purge_hash_mediaid d1) as (d2 & E2 & _); [|done|].
  { intros k s [Hs Hk]%elem_of_scan_keys _. destruct (listed_media d1 g k HK1 Hg Hs Hk) as (sn & mid & ->).
    destruct (purge_hash_mediaid_ok g sn mid s Hg) as [s' ->]. eauto. }
  rewrite (bind_ok _ _ _ _ _ E2). by eexists.
Qed.

(** ** Unblocking *)

(** A loop that lifts the block of every media id its keys name. *)
Lemma lift_blocks (key_of : bytes → option bytes) (f : list Error → bytes → M Db (list Error)) keys errors d :
  (∀ k x errors s, k ∈ keys → key_of k = Some x → ∃ errors', f errors k s = (Ok errors', (remove blocked_servername_mediaid x s).2)) →
  (∀ k, k ∈ keys → is_Some (key_of k)) →
  ∃ errors' d', foldM f errors keys d = (Ok errors', d') ∧ (∀ t, t ≠ blocked_servername_mediaid → kv d' t = kv d t) ∧ shrinks d d' ∧
    ∀ k x, k ∈ keys → key_of k = Some x → kv d' blocked_servername_mediaid !! x = None.
Proof.
  intros Hf Hkey.
  apply (foldM_inv (λ l1 _ d', (∀ t, t ≠ blocked_servername_mediaid → kv d' t = kv d t) ∧ shrinks d d' ∧
    ∀ k x, k ∈ l1 → key_of k = Some x → kv d' blocked_servername_mediaid !! x = None)).
  { split_and!; [done|by intros ?|]. intros k x Hk. by apply not_elem_of_nil in Hk. }
  intros l1 k l2 es s -> (F & HS & Hn). destruct (Hkey k ltac:(set_solver)) as [x Hx].
  destruct (Hf k x es s ltac:(set_solver) Hx) as [es' E]. exists es', (remove blocked_servername_mediaid x s).2. split_and!; [done| | |].
  - intros t Ht. unfold remove, modify. cbn [snd]. rewrite kv_upd_ne by done. by apply F.
  - by apply shrinks_remove.
  - intros k' x' Hk' Hx'. unfold remove, modify. cbn [snd]. kv_simpl. unfold kv_remove. rewrite lookup_delete.
    apply elem_of_app in Hk' as [Hk'| ->%list_elem_of_singleton]; [case_decide; [done|by eapply Hn]|].
    rewrite decide_True by congruence. done.
Qed.

Lemma unblock_hash_spec d g errors : MediaKeys d → length g = 32%nat →
  ∃ errors' d', unblock_hash g errors d = (Ok errors', d') ∧ shrinks d d' ∧ ¬ hash_blocked d' g ∧
    ∀ x, is_Some (kv d filehash_servername_mediaid !! (g ++ x)) → kv d' blocked_servername_mediaid !! x = None.
Proof.
  intros HK Hg. unfold unblock_hash. rewrite bind_gets.
  destruct (lift_blocks after_digest (λ errors k,
    match after_digest k with
    | Some servername_mediaid => remove blocked_servername_mediaid servername_mediaid;; mret errors
    | None => mret (errors ++ [BadDatabase "Invalid format of key in filehash_servername_mediaid"])
    end) (kv_scan_prefix (kv d filehash_servername_mediaid) g).*1 errors d) as (es1 & d1 & E1 & F1 & S1 & N1).
  { intros k x es s Hk ->. unfold remove. run. by eexists. }
  { intros k [Hs Hk]%elem_of_scan_keys. destruct (listed_media d g k HK Hg Hs Hk) as (sn & mid & ->). rewrite after_digest_app by done. by eexists. }
  rewrite (bind_ok _ _ _ _ _ E1), bind_gets. cbv zeta.
  destruct (lift_blocks thumb_media_key (λ errors k,
    if bool_decide (length k < 9)%nat then mret errors else
    match thumb_media_key k with
    | Some servername_mediaid =>
        remove blocked_servername_mediaid servername_mediaid;; mret (errors ++ [BadDatabase "Invalid format of value in filehash_thumbnailid"])
    | None => mret (errors ++ [BadDatabase "Invalid format of value in filehash_thumbnailid"; BadDatabase "Invalid format of value in filehash_thumbnailid"])
    end) (kv_scan_prefix (kv d1 filehash_thumbnailid) g).*1 es1 d1) as (es2 & d2 & E2 & F2 & S2 & N2).
  { intros k x es s Hk Ex. rewrite Ex, bool_decide_eq_false_2; [unfold remove; run; by eexists|]. intros Hl. unfold thumb_media_key in Ex.
    by rewrite bool_decide_eq_true_2 in Ex by done. }
  { rewrite F1 by done. intros k [Hs Hk]%elem_of_scan_keys. destruct (listed_thumb d g k HK Hg Hs Hk) as (sn & mid & w & h & ->).
    rewrite thumb_media_key_app by done. by eexists. }
  rewrite (bind_ok _ _ _ _ _ E2). assert (shrinks d d2) as S12 by (intros t; etrans; [apply S2|apply S1]).
  assert (∀ x, is_Some (kv d filehash_servername_mediaid !! (g ++ x)) → kv d2 blocked_servername_mediaid !! x = None) as Hx2.
  { intros x Hx. eapply lookup_weaken_None; [|apply S2]. apply (N1 (g ++ x)); [|by apply after_digest_app].
    apply elem_of_scan_keys. split; [apply starts_with_app|done]. }
  assert (¬ hash_blocked d2 g) as Hnb.
  { intros [(x & Hx & Hb)|(sn & mid & w & h & [v Hx] & Hb)]; apply eq_None_not_Some in Hb; try done.
    - apply Hx2. by rewrite F2, F1 in Hx by done.
    - rewrite F2 in Hx by done. apply (N2 (g ++ thumbnail_id sn mid w h)); [|by apply thumb_media_key_app].
      apply elem_of_scan_keys. split; [apply starts_with_app|by eexists]. }
  unfold get. rewrite bind_gets. destruct (kv_get _ _); [by exists es2, d2|].
  destruct (purge_filehash_ok g d2) as [d3 E3]; [by eapply shrinks_keys|done|].
  pose proof (shrinks_purge_filehash d2 g false d2 ltac:(by intros ?)) as S3. rewrite E3 in S3. cbn [snd] in S3.
  exists es2, d3. split_and!; [|intros t; etrans; [apply S3|apply S12]|intros Hb; by eapply Hnb, shrinks_hash_blocked|
    intros x Hx; eapply lookup_weaken_None; [by apply Hx2|apply S3]].
  unfold mbind, M_bind, attempt. by rewrite E3.
Qed.

Lemma parse_metadata_no_panic v : parse_metadata v ≠ Panic.
Proof.
  unfold parse_metadata, string_part. case_bool_decide; [done|]. cbv zeta.
  destruct (split_ff (drop 32 v) !! 0%nat) as [a|], (split_ff (drop 32 v) !! 1%nat) as [b|]; cbn;
    repeat (destruct (string_from_bytes _); cbn); done.
Qed.

(** The content hash of a media id. *)
Definition content_of (d : Db) (sn mid : bytes) : option bytes :=
  match parse_metadata <$> kv d servernamemediaid_metadata !! media_key sn mid with
  | Some (Ok meta) => Some (sha256_digest meta)
  | _ => None
  end.

Lemma content_of_Some d sn mid g : content_of d sn mid = Some g → ∃ v m, kv d servernamemediaid_metadata !! media_key sn mid = Some v ∧
  parse_metadata v = Ok m ∧ sha256_digest m = g ∧ g = take 32 v ∧ length g = 32%nat.
Proof.
  unfold content_of. destruct (kv d servernamemediaid_metadata !! _) as [v|]; [|done]. cbn. destruct (parse_metadata v) as [m| |] eqn:E; [|done..].
  intros [= <-]. exists v, m. split_and!; [done|done|done|by apply parse_metadata_digest|by eapply parse_metadata_length].
Qed.

Lemma is_blocked_spec d sn mid g : MediaInv d → content_of d sn mid = Some g →
  ∃ b, is_blocked sn mid d = (Ok b, d) ∧ (b = true ↔ hash_blocked d g).
Proof.
  intros [HS HK] (v & m & Hv & Em & <- & Eg & Hl)%content_of_Some. unfold is_blocked, is_directly_blocked, get, kv_get. run. case_bool_decide as Hd.
  - exists true. split; [done|]. split; [|done]. intros _. left. exists (media_key sn mid). split; [|done]. rewrite Eg. by apply (ms_meta _ HS).
  - unfold blocked_via_hash, get, kv_get. run. rewrite Hv, Em.
    destruct (is_blocked_filehash_spec d (sha256_digest m) HK Hl) as (b & E & Hb). exists b. by rewrite E.
Qed.

(** Without metadata only the media id itself counts. *)
Lemma is_blocked_None d sn mid : kv d servernamemediaid_metadata !! media_key sn mid = None →
  is_blocked sn mid d = (Ok (bool_decide (is_Some (kv d blocked_servername_mediaid !! media_key sn mid))), d).
Proof.
  intros Hv. unfold is_blocked, is_directly_blocked, blocked_via_hash, get, kv_get. run. case_bool_decide; [done|]. run. by rewrite Hv.
Qed.

Lemma unblock_one_spec d sn mid g errors : MediaKeys d → content_of d sn mid = Some g →
  ∃ errors' d', unblock_one errors (sn, mid) d = (Ok errors', d') ∧ shrinks d d' ∧ ¬ hash_blocked d' g ∧
    ∀ x, is_Some (kv d filehash_servername_mediaid !! (g ++ x)) → kv d' blocked_servername_mediaid !! x = None.
Proof.
  intros HK (v & m & Hv & Em & <- & _ & Hl)%content_of_Some. unfold unblock_one, get, kv_get. cbn [fst snd]. rewrite bind_gets. cbv beta. rewrite Hv.
  cbn [fmap option_fmap option_map]. rewrite Em.
  destruct (unblock_hash_spec d (sha256_digest m) errors HK Hl) as (es1 & d1 & E1 & S1 & N1 & X1). rewrite (bind_ok _ _ _ _ _ E1), bind_gets.
  apply (foldM_inv (λ _ _ d', shrinks d d' ∧ ¬ hash_blocked d' (sha256_digest m) ∧
    ∀ x, is_Some (kv d filehash_servername_mediaid !! (sha256_digest m ++ x)) → kv d' blocked_servername_mediaid !! x = None)); [done|].
  intros l1 e l2 es s _ (Ss & Ns & Xs). pose proof (parse_metadata_no_panic e.2) as Hp.
  destruct (parse_metadata e.2) as [md|er|] eqn:Emd; [|by exists (es ++ [er]), s|done].
  destruct (unblock_hash_spec s (sha256_digest md) es) as (es' & s' & E' & S' & _ & _); [by eapply shrinks_keys|by eapply parse_metadata_length|].
  exists es', s'. split_and!; [done|intros t; etrans; [apply S'|apply Ss]|intros Hb; by eapply Ns, shrinks_hash_blocked|].
  intros x Hx. eapply lookup_weaken_None; [by apply Xs|apply S'].
Qed.

(** Blocking is by content.  In a consistent store a media id is blocked
    exactly when a media id with the same content, or one with that content
    as a thumbnail, is on the block list; so blocking any copy blocks the
    media id, and unblocking any copy unblocks it, whatever else was blocked
    before. *)
Theorem blocking_is_by_content d sn mid g :
  MediaInv d → content_of d sn mid = Some g →
  (∃ b, is_blocked sn mid d = (Ok b, d) ∧ (b = true ↔ hash_blocked d g)) ∧
  ∀ sn' mid', content_of d sn' mid' = Some g →
    (∀ secs reason, ∃ d', block [(sn', mid')] secs reason d = (Ok [], d') ∧ (is_blocked sn mid d').1 = Ok true) ∧
    (∃ errors d', unblock [(sn', mid')] d = (Ok errors, d') ∧ (is_blocked sn mid d').1 = Ok false).
Proof.
  intros [HS HK] Hc. split; [by apply is_blocked_spec|]. intros sn' mid' Hc'. split.
  - intros secs reason. eexists. split; [done|]. cbn [snd]. unfold block, insert. run. set (d' := upd _ _ d).
    assert (MediaInv d') as HI' by (unfold d'; split; [destruct HS|destruct HK]; split; by kv_simpl).
    assert (∀ t, t ≠ blocked_servername_mediaid → kv d' t = kv d t) as F by (intros t Ht; unfold d'; by rewrite kv_upd_ne).
    destruct (is_blocked_spec d' sn mid g HI') as (b & -> & Hb); [unfold content_of; by rewrite F|]. cbn [fst]. f_equal. apply Hb. left.
    exists (media_key sn' mid'). apply content_of_Some in Hc' as (v & m & Hv & _ & _ & -> & _). split.
    + rewrite F by done. by apply (ms_meta _ HS).
    + unfold d'. kv_simpl. unfold kv_insert. rewrite lookup_insert_eq. by eexists.
  - destruct (unblock_one_spec d sn' mid' g [] HK Hc') as (es & d' & E & Sd & Hn & Hx). exists es, d'. unfold unblock. cbn [foldM].
    rewrite (bind_ok _ _ _ _ _ E). split; [done|].
    assert (MediaInv d') as HI'. { split; [|by eapply shrinks_keys]. pose proof (safe_unblock [(sn', mid')] d HS) as H. unfold unblock in H. cbn [foldM] in H.
      by rewrite (bind_ok _ _ _ _ _ E) in H. }
    destruct (content_of d' sn mid) as [g'|] eqn:Ec.
    + assert (g' = g) as ->. { apply content_of_Some in Hc as (v & m & Hv & _ & _ & -> & _), Ec as (v' & m' & Hv' & _ & _ & -> & _).
        eapply lookup_weaken in Hv'; [|apply Sd]. congruence. }
      destruct (is_blocked_spec d' sn mid g HI' Ec) as (b & -> & Hb). cbn [fst]. f_equal. destruct b; [|done]. by destruct Hn; apply Hb.
    + apply content_of_Some in Hc as (v & m & Hv & Em & _ & -> & _). rewrite is_blocked_None; cbn [fst].
      * rewrite bool_decide_eq_false_2; [done|]. intros Hb. apply eq_None_not_Some in Hb; [done|]. apply Hx. by apply (ms_meta _ HS).
      * destruct (kv d' servernamemediaid_metadata !! _) as [v'|] eqn:Ev; [|done]. exfalso. unfold content_of in Ec. rewrite Ev in Ec.
        eapply lookup_weaken in Ev; [|apply Sd]. assert (v' = v) as -> by congruence. cbn in Ec. by rewrite Em in Ec.
Qed.

(** * Retention *)

Definition sum_sizes (files : list (bytes * Z * Z)) : Z := foldr (λ f total, f.2 + total) 0 files.

Lemma sum_sizes_app l1 l2 : sum_sizes (l1 ++ l2) = sum_sizes l1 + sum_sizes l2.
Proof. induction l1 as [|f l1 IH]; cbn [sum_sizes foldr app]; [done|]. fold (sum_sizes (l1 ++ l2)) (sum_sizes l1). lia. Qed.

Lemma sum_sizes_perm l1 l2 : l1 ≡ₚ l2 → sum_sizes l1 = sum_sizes l2.
Proof. induction 1; cbn [sum_sizes foldr] in *; unfold sum_sizes in *; lia. Qed.

Lemma sum_sizes_nonneg l : Forall (λ f, 0 ≤ f.2) l → 0 ≤ sum_sizes l.
Proof. induction 1; cbn [sum_sizes foldr]; [lia|]. unfold sum_sizes in *. lia. Qed.

Lemma total_size_spec l : Forall (λ f, 0 ≤ f.2) l → sum_sizes l < 2 ^ 64 → total_size l = sum_sizes l.
Proof.
  unfold total_size. assert (∀ acc, 0 ≤ acc → Forall (λ f, 0 ≤ f.2) l → acc + sum_sizes l < 2 ^ 64 →
    fold_left (λ total f, w64 (total + f.2)) l acc = acc + sum_sizes l) as H; [|intros; by apply H].
  induction l as [|f l IH]; intros acc Ha Hl Hs; cbn [fold_left sum_sizes foldr] in *; [lia|]. fold (sum_sizes l) in *.
  inversion Hl as [|?? Hf Hl']; subst. pose proof (sum_sizes_nonneg l Hl'). rewrite w64_small by (unfold is_u64, u64_max; lia). rewrite IH; [lia|lia|done|lia].
Qed.

(** Enough is taken, and not more than needed. *)
Lemma take_until_spec required acc l :
  0 ≤ acc → Forall (λ f, 0 ≤ f.2) l → acc + sum_sizes l < 2 ^ 64 →
  let n := take_until required acc (snd <$> l) in
  (required ≤ acc + sum_sizes (take n l) ∨ drop n l = []) ∧ ∀ m, (0 < m < n)%nat → acc + sum_sizes (take m l) < required.
Proof.
  revert acc. induction l as [|f l IH]; intros acc Ha Hl Hs; [split; [by right|cbn; lia]|].
  change (snd <$> f :: l) with (f.2 :: (snd <$> l)). cbn [take_until]. cbv zeta.
  inversion Hl as [|?? Hf Hl']; subst. cbn [sum_sizes foldr] in Hs. fold (sum_sizes l) in Hs. pose proof (sum_sizes_nonneg l Hl').
  rewrite w64_small by (unfold is_u64, u64_max; lia). destruct (Z.leb_spec required (acc + f.2)) as [Hr|Hr].
  - split; [left; rewrite firstn_cons, take_0; unfold sum_sizes; cbn; lia|lia].
  - destruct (IH (acc + f.2) ltac:(lia) Hl' ltac:(lia)) as [H1 H2]. cbv zeta in H1, H2. split.
    + destruct H1 as [H1|H1]; [left|by right]. cbn [take sum_sizes foldr]. fold (sum_sizes (take (take_until required (acc + f.2) (snd <$> l)) l)). lia.
    + intros [|[|m]] Hm; [lia|rewrite firstn_cons, take_0; unfold sum_sizes; cbn; lia|]. cbn [take sum_sizes foldr]. specialize (H2 (S m) ltac:(lia)). unfold sum_sizes in H2. lia.
Qed.

Lemma insert_by_sorted {A} (key : A → Z) x l : StronglySorted (λ a b, key a ≤ key b) l → StronglySorted (λ a b, key a ≤ key b) (insert_by key x l).
Proof.
  induction 1 as [|y l Hl IH Hy]; cbn; [repeat constructor|]. destruct (Z.leb_spec (key x) (key y)) as [H|H].
  - constructor; [by constructor|]. constructor; [done|]. eapply Forall_impl; [exact Hy|]. cbn. lia.
  - constructor; [done|]. rewrite insert_by_perm. constructor; [lia|done].
Qed.

Lemma sort_by_key_sorted {A} (key : A → Z) l : StronglySorted (λ a b, key a ≤ key b) (sort_by_key key l).
Proof. induction l; cbn; [constructor|by apply insert_by_sorted]. Qed.

(** What retention picks among the files of a scope. *)
Record Evicted (space new_size : Z) (files del kept : list (bytes * Z * Z)) : Prop := mk_Evicted {
  ev_perm : files ≡ₚ del ++ kept;
  ev_room : kept = [] ∨ sum_sizes kept + new_size ≤ space;
  ev_order : ∀ x y, x ∈ del → y ∈ kept → y.1.2 ≤ x.1.2;
  ev_needed : ∀ m, (0 < m < length del)%nat → space < sum_sizes (drop m del ++ kept) + new_size;
}.

Lemma files_over_spec space new_size files :
  0 ≤ space → Forall (λ f, 0 ≤ f.2) files → 0 ≤ new_size → sum_sizes files + new_size < 2 ^ 64 →
  match files_over space new_size files with
  | None => sum_sizes files + new_size < space
  | Some hashes => space ≤ sum_sizes files + new_size ∧ ∃ del kept, hashes = (λ f, f.1.1) <$> del ∧ Evicted space new_size files del kept
  end.
Proof.
  intros Hsp Hf Hn Hs. pose proof (sum_sizes_nonneg _ Hf). unfold files_over. rewrite total_size_spec by (done || lia). rewrite w64_small by (unfold is_u64, u64_max; lia). cbv zeta.
  destruct (Z.ltb_spec (sum_sizes files + new_size) space) as [Hlt|Hge]; [done|]. split; [done|].
  set (sorted := reverse (sort_by_key (λ f, f.1.2) files)).
  assert (sorted ≡ₚ files) as Hp by (unfold sorted; by rewrite reverse_Permutation, sort_by_key_perm).
  assert (Forall (λ f, 0 ≤ f.2) sorted) as Hfs by (by rewrite Hp). pose proof (sum_sizes_perm _ _ Hp) as Hsum.
  destruct (take_until_spec (sum_sizes files + new_size - space) 0 sorted ltac:(lia) Hfs ltac:(lia)) as [H1 H2]. cbv zeta in H1, H2.
  set (n := take_until _ _ _) in *. exists (take n sorted), (drop n sorted). split; [done|].
  pose proof (take_drop n sorted) as Etd. assert (sum_sizes sorted = sum_sizes (take n sorted) + sum_sizes (drop n sorted)) as Esum.
  { by rewrite <-sum_sizes_app, Etd. }
  split.
  - by rewrite Etd.
  - destruct H1 as [H1|H1]; [right; lia|by left].
  - intros x y Hx Hy. pose proof (sort_by_key_sorted (λ f : bytes * Z * Z, f.1.2) files) as Hso.
    assert (sort_by_key (λ f : bytes * Z * Z, f.1.2) files = reverse (drop n sorted) ++ reverse (take n sorted)) as Es.
    { by rewrite <-reverse_app, Etd; unfold sorted; rewrite reverse_involutive. }
    rewrite Es in Hso. eapply (StronglySorted_app_1_elem_of _ _ _ y x Hso); by apply elem_of_reverse.
  - intros m Hm. rewrite length_take in Hm. specialize (H2 m ltac:(lia)).
    assert (take n sorted = take m sorted ++ drop m (take n sorted)) as Et.
    { rewrite <-(take_drop m (take n sorted)) at 1. by rewrite take_take, Nat.min_l by lia. }
    rewrite sum_sizes_app. apply (f_equal sum_sizes) in Et. rewrite sum_sizes_app in Et. lia.
Qed.

(** ** Purging hashes *)

Lemma hash_kept_purge d0 g (b : bool) :
  preserves (λ d, kv d filehash_metadata = d0) (if b then mret tt else
    thumbs ← gets (λ d, Ok (kv_scan_prefix (kv d filehash_thumbnailid) g).*1);
    for_each thumbs (λ key, remove filehash_thumbnailid key;; tid ← lift (expect (after_digest key)); remove thumbnailid_metadata tid);;
    medias ← gets (λ d, Ok (kv_scan_prefix (kv d filehash_servername_mediaid) g).*1);
    for_each medias purge_hash_mediaid).
Proof.
  assert (∀ t k, t ≠ filehash_metadata → preserves (λ d, kv d filehash_metadata = d0) (remove t k)) as Hr
    by (intros t k Ht d <-; unfold remove, modify; cbn [snd]; by rewrite kv_upd_ne).
  assert (∀ t k, preserves (λ d, kv d filehash_metadata = d0) (get t k)) as Hg by (intros; apply preserves_gets).
  unfold purge_hash_mediaid. safe; by apply Hr.
Qed.

Lemma purge_one_spec hex d g : MediaKeys d → length g = 32%nat →
  ∃ d', purge_one hex g d = (Ok (hex g), d') ∧ MediaKeys d' ∧ kv d' filehash_metadata = delete g (kv d filehash_metadata).
Proof.
  intros HK Hg. unfold purge_one. destruct (is_blocked_filehash_spec d g HK Hg) as (b & E & _). rewrite (bind_ok _ _ _ _ _ E).
  assert (∃ d', purge_filehash g b d = (Ok tt, d')) as [d' E'] by (destruct b; [by eexists|by apply purge_filehash_ok]).
  rewrite (bind_ok _ _ _ _ _ E'). exists d'. split_and!; [done| |].
  - pose proof (keys_purge_filehash g b d HK) as H. by rewrite E' in H.
  - pose proof (hash_kept_purge (kv d filehash_metadata) g b d eq_refl) as H. cbv beta in H. revert E'. unfold purge_filehash.
    intros (u & d1 & E1 & E2)%bind_inv. rewrite E1 in H. cbn [snd] in H. revert E2. unfold remove. run. intros [= <-]. kv_simpl. by rewrite H.
Qed.

Lemma purge_spec hex d hashes : MediaKeys d → Forall (λ g, length g = 32%nat) hashes →
  ∃ d', purge hex hashes d = (Ok ((λ g, Ok (hex g)) <$> hashes), d') ∧ MediaKeys d' ∧
    ∀ g, kv d' filehash_metadata !! g = if decide (g ∈ hashes) then None else kv d filehash_metadata !! g.
Proof.
  intros HK Hl. unfold purge.
  destruct (foldM_inv (λ l1 files d', files = (λ g, Ok (hex g)) <$> l1 ∧ MediaKeys d' ∧
    ∀ g, kv d' filehash_metadata !! g = if decide (g ∈ l1) then None else kv d filehash_metadata !! g)
    (λ files digest, pushing files (purge_one hex digest)) [] hashes d) as (files & d' & E & -> & H); [| |by exists d'].
  - split_and!; [done|done|]. intros g. rewrite decide_False; [done|apply not_elem_of_nil].
  - intros l1 g l2 files s -> (-> & HKs & Hs). apply Forall_app in Hl as [_ [Hg _]%Forall_cons].
    destruct (purge_one_spec hex s g HKs Hg) as (s' & E & HKs' & Es'). exists (((λ g, Ok (hex g)) <$> l1) ++ [Ok (hex g)]), s'.
    split_and!; [unfold pushing, attempt; run; by rewrite E|by rewrite fmap_app|done|].
    intros x. rewrite Es', lookup_delete, Hs. repeat case_decide; set_solver.
Qed.

(** The files of a scope, with their access times and sizes. *)
Definition scope_files (keep : bytes → Db → bool) (d : Db) : list (bytes * Z * Z) :=
  candidate_files (bfilter (λ e : entry, keep e.1 d) (kv_iter (kv d filehash_metadata))).

(** Retention makes room.  With a space limit, a file about to be stored
    either fits below the limit and nothing happens, or files of the scope are
    deleted, the most recently accessed first, until the remaining files and
    the new one fit (or none is left), and no longer than needed.  Exactly the
    hashes of those files are reported and forgotten; the files outside the
    scope stay. *)
Theorem retention_makes_room hex_encode d keep space new_size :
  MediaInv d → 0 ≤ space → 0 ≤ new_size →
  Forall (λ f, 0 ≤ f.2) (scope_files keep d) → sum_sizes (scope_files keep d) + new_size < 2 ^ 64 →
  ∃ r d', purge_if_necessary hex_encode (Some space) keep new_size d = (Ok r, d') ∧
  match r with
  | None => sum_sizes (scope_files keep d) + new_size < space ∧ d' = d
  | Some reported => space ≤ sum_sizes (scope_files keep d) + new_size ∧
      ∃ del kept, Evicted space new_size (scope_files keep d) del kept ∧
        oks reported = (λ f, hex_encode f.1.1) <$> del ∧
        (∀ g, kv d' filehash_metadata !! g = if decide (g ∈ (λ f, f.1.1) <$> del) then None else kv d filehash_metadata !! g) ∧
        (∀ f, f ∈ del → keep f.1.1 d = true)
  end.
Proof.
  intros [HS HK] Hsp Hn Hf Hs. unfold purge_if_necessary. rewrite bind_gets. pose proof (files_over_spec space new_size _ Hsp Hf Hn Hs) as H.
  unfold scope_files in *. set (files := bfilter _ _) in *.
  assert (∀ f, f ∈ candidate_files files → keep f.1.1 d = true ∧ length f.1.1 = 32%nat) as Hin.
  { intros f (v & [Hk Hv%elem_of_entries]%elem_of_bfilter)%elem_of_candidates. split; [done|]. apply (ms_hash _ HS). by eexists. }
  destruct (files_over _ _ _) as [hashes|]; [|by exists None, d]. destruct H as (Hge & del & kept & -> & Hev).
  assert (∀ f, f ∈ del → f ∈ candidate_files files) as Hd by (intros f Hd; rewrite (ev_perm _ _ _ _ _ Hev); apply elem_of_app; by left).
  destruct (purge_spec hex_encode d ((λ f, f.1.1) <$> del) HK) as (d' & E & _ & Hh).
  { apply Forall_fmap, Forall_forall. intros f Hfd. by apply Hin, Hd. }
  rewrite (bind_ok _ _ _ _ _ E). eexists _, d'. split; [done|]. split; [done|]. exists del, kept. split_and!; [done| |done|].
  - unfold oks. rewrite omap_app. transitivity ([] ++ ((λ f : bytes * Z * Z, hex_encode f.1.1) <$> del)); [|done]. f_equal.
    + induction (parse_candidates files) as [|[] l IH]; cbn; by rewrite ?IH.
    + clear. induction del as [|f del IH]; cbn; [done|]. by rewrite <-IH.
  - intros f Hfd. by apply Hin, Hd.
Qed.

(** * Thumbnails of a purged media id *)

(** A hash listed for a thumbnail, and its file. *)
Definition listed (g k : bytes) (o : option bytes) (d : Db) : Prop :=
  is_Some (kv d filehash_thumbnailid !! (g ++ k)) ∧ kv d filehash_metadata !! g = o.

Lemma listed_scan g k o d : listed g k o d → kv_scan_prefix (kv d filehash_thumbnailid) g ≠ [].
Proof.
  intros [[v Hv] _] E. assert ((g ++ k, v) ∈ kv_scan_prefix (kv d filehash_thumbnailid) g) as Hin
    by (apply elem_of_scan_prefix; split; [apply starts_with_app|done]). rewrite E in Hin. by apply not_elem_of_nil in Hin.
Qed.

Lemma listed_other g k o t x : t ≠ filehash_thumbnailid → t ≠ filehash_metadata → preserves (listed g k o) (remove t x).
Proof. intros H1 H2 d [L1 L2]. unfold remove, modify, listed. cbn [snd]. by rewrite !kv_upd_ne. Qed.

(** Dropping the file of a hash that is not listed. *)
Lemma listed_drop {A} g k o x (b : Db → bool) (r1 r2 : A) : (∀ d, listed g k o d → b d = true → x ≠ g) →
  preserves (listed g k o) (unused ← gets (λ d, Ok (b d)); if (unused : bool) then remove filehash_metadata x;; mret r1 else mret r2).
Proof.
  intros Hb d HL. rewrite bind_gets. destruct (b d) eqn:E; [|done]. specialize (Hb d HL E). unfold remove. run. cbn [snd]. destruct HL as [L1 L2].
  split; kv_simpl; [done|]. unfold kv_remove. by rewrite lookup_delete_ne.
Qed.

Lemma listed_purge hex sn mid g k o : length g = 32%nat → k ≠ [] → preserves (listed g k o) (purge_mediaid hex sn mid false).
Proof.
  intros Hg Hk. assert (∀ t x, preserves (listed g k o) (get t x)) as Hget by (intros; apply preserves_gets).
  unfold purge_mediaid. apply preserves_bind.
  - unfold purge_source. apply preserves_bind; [done|]. intros [v|]; [|apply preserves_ret]. apply preserves_bind.
    + safe; by apply listed_other.
    + intros _. apply listed_drop. intros d HL E Eg. rewrite Eg in E. apply andb_true_iff in E as [_ E%bool_decide_eq_true]. by apply listed_scan in HL.
  - intros files. apply preserves_bind; [apply preserves_gets|]. intros l. apply preserves_bind; [|intros []; apply preserves_ret].
    apply preserves_foldM. intros e _ [counts fs]. unfold purge_thumbnail. apply preserves_bind.
    + apply preserves_bind; [|intros; by apply listed_other]. intros d [L1 L2]. unfold remove, modify. cbn [snd]. split; kv_simpl; [|done].
      unfold kv_remove. rewrite lookup_delete_ne; [done|]. intros E. apply Hk, nil_length_inv. apply (f_equal length) in E.
      rewrite length_app, length_take in E. lia.
    + intros _. apply listed_drop. intros d HL E Eg. rewrite Eg in E. apply andb_true_iff in E as [_ E%Nat.leb_le]. apply listed_scan in HL. apply HL, nil_length_inv. lia.
Qed.

(** Purging a media id leaks its thumbnails' files.  The reverse entry of
    a thumbnail is removed under the bare hash, under which nothing is ever
    stored; so the hash still counts as used, and although the thumbnail is
    not found any more, the entry of its file stays and the file is never
    handed out for deletion. *)
Theorem purge_leaks_thumbnails hex_encode d sn mid w h v :
  MediaSafe d → kv d thumbnailid_metadata !! thumbnail_id sn mid w h = Some v → ∃ files d',
    purge_mediaid hex_encode sn mid false d = (Ok files, d') ∧
    (search_thumbnail_metadata sn mid w h d').1 = Err (BadRequest NotFound "Media not found.") ∧
    is_Some (kv d' filehash_thumbnailid !! (take 32 v ++ thumbnail_id sn mid w h)) ∧
    kv d' filehash_metadata !! take 32 v = kv d filehash_metadata !! take 32 v ∧
    (is_Some (kv d filehash_metadata !! take 32 v) → (∀ g, hex_encode g = hex_encode (take 32 v) → g = take 32 v) → hex_encode (take 32 v) ∉ files).
Proof.
  intros HS Hv. destruct (purge_mediaid_spec hex_encode d sn mid HS) as (files & d' & E & HP & _ & Et). exists files, d'.
  destruct (ms_thumb _ HS _ _ Hv) as (Hl & Hne & Hs).
  pose proof (listed_purge hex_encode sn mid (take 32 v) _ (kv d filehash_metadata !! take 32 v) ltac:(rewrite length_take; lia) Hne d) as HL.
  rewrite E in HL. cbn [snd] in HL. destruct HL as [L1 L2]; [by split|]. split_and!; [done| |done|done|].
  - unfold search_thumbnail_metadata. rewrite search_lookup. unfold lookup_file. cbn [fst]. rewrite Et.
    replace (starts_with _ _) with true; [done|]. symmetry. apply starts_with_spec. exists (u32_be w ++ u32_be h). unfold thumbnail_id. by rewrite <-app_assoc.
  - intros Hin Hinj (g & Eg & _ & Hn)%(pu_files _ _ _ _ HP). assert (g = take 32 v) as -> by by apply Hinj. rewrite <-L2, Hn in Hin. by destruct Hin.
Qed.

(** The trees stay consistent.  From a store without media, after any
    sequence of uploads, thumbnails, purges, blocks, unblocks, retention runs
    and accesses, every media id and every thumbnail has metadata with a whole
    content hash and is listed under it, the keys of the two reverse trees are
    a hash followed by a media key or a thumbnail id, and every stored file
    has a 32-byte hash. *)
Theorem media_store_invariant `{Ruma} localpart server_name hex_encode ops d :
  Forall media_op_ok ops → (∀ t, t ∈ media_trees → kv d t = ∅) → MediaInv (media_run localpart server_name hex_encode ops d).
Proof. intros Hops Hd. by apply media_run_inv, empty_media. Qed.

(** * What is reported for deletion *)

Definition absent (g : bytes) (d : Db) : Prop := kv d filehash_metadata !! g = None.

Section absent.
Context {RU : Ruma} (localpart : bytes → bytes) (server_name : bytes) (hex_encode : bytes → bytes) (g : bytes).

Lemma absent_remove t k : preserves (absent g) (remove t k).
Proof.
  intros d Hd. unfold remove, modify, absent in *. cbn [snd]. rewrite kv_upd. case_decide; [|done]. subst. unfold kv_remove. rewrite lookup_delete.
  by case_decide.
Qed.

Lemma absent_insert t k v : t ≠ filehash_metadata → preserves (absent g) (insert t k v).
Proof. intros Ht d Hd. unfold insert, modify, absent in *. cbn [snd]. by rewrite kv_upd_ne. Qed.

#[local] Hint Resolve absent_remove : media.
#[local] Hint Extern 1 (preserves (absent _) (get _ _)) => (apply preserves_gets) : media.
#[local] Hint Extern 1 (preserves (absent _) (insert _ _ _)) => (apply absent_insert; discriminate) : media.

Lemma absent_purge_one x : preserves (absent g) (purge_one hex_encode x).
Proof. unfold purge_one, purge_filehash, purge_hash_mediaid, is_blocked_filehash. safe. Qed.
#[local] Hint Resolve absent_purge_one : media.

Lemma absent_pushing {A} files (m : M Db A) : preserves (absent g) m → preserves (absent g) (pushing files m).
Proof. intros H. unfold pushing. safe. Qed.
#[local] Hint Resolve absent_pushing : media.

Lemma absent_purge_mediaid sn mid b : preserves (absent g) (purge_mediaid hex_encode sn mid b).
Proof. unfold purge_mediaid, purge_source, purge_thumbnail. safe. Qed.
#[local] Hint Resolve absent_purge_mediaid : media.

Lemma absent_purge_thumbnail b acc e : preserves (absent g) (purge_thumbnail hex_encode b acc e).
Proof. unfold purge_thumbnail. safe. Qed.

Lemma absent_purge hashes : preserves (absent g) (purge hex_encode hashes).
Proof. unfold purge. safe. Qed.
#[local] Hint Resolve absent_purge : media.

Lemma absent_if_necessary space keep n : preserves (absent g) (purge_if_necessary hex_encode space keep n).
Proof. unfold purge_if_necessary. safe. Qed.
#[local] Hint Resolve absent_if_necessary : media.

Lemma absent_access now x : preserves (absent g) (update_last_accessed_filehash now x).
Proof.
  unfold update_last_accessed_filehash, get, kv_get, insert. intros d Hd. run. destruct (kv d filehash_metadata !! x) as [v|] eqn:E; [|done].
  cbn [snd]. unfold absent in *. kv_simpl. unfold kv_insert. rewrite lookup_insert_ne; [done|]. congruence.
Qed.
#[local] Hint Resolve absent_access : media.

Definition creates (op : MediaOp) : bool := match op with CreateFile _ _ _ _ _ _ _ _ _ | CreateThumbnail _ _ _ _ _ _ _ _ _ => true | _ => false end.

(** Only uploads add files. *)
Lemma absent_exec op : creates op = false → preserves (absent g) (media_exec localpart server_name hex_encode op).
Proof.
  destruct op; cbn [creates media_exec]; intros Hop; try done; try (apply preserves_bind; [|intros; apply preserves_ret]);
    unfold purge_and_get_hashes, purge_and_get_hashes_from_user, purge_upload, upload_metadata, purge_mediaid_checked,
      created_since, purge_and_get_hashes_from_server, purge_server_entry, is_blocked, is_directly_blocked, blocked_via_hash, is_blocked_filehash,
      block, block_from_user, errors_of, block_upload, unblock, unblock_one, unblock_hash, purge_filehash, purge_hash_mediaid, files_to_delete,
      cleanup_time_retention, update_last_accessed; try unfold created_since; safe.
Qed.
End absent.

(** Every reported file is gone from the database. *)
Definition gone (hex_encode : bytes → bytes) (files : list bytes) (d : Db) : Prop := ∀ f, f ∈ files → ∃ g, f = hex_encode g ∧ absent g d.

Section gone.
Context {RU : Ruma} (localpart : bytes → bytes) (server_name : bytes) (hex_encode : bytes → bytes).
Notation gone := (gone hex_encode).

Lemma gone_keeps {A} files (m : M Db A) : (∀ g, preserves (absent g) m) → preserves (gone files) m.
Proof. intros H d Hd f Hf. destruct (Hd f Hf) as (g & -> & Hg). exists g. split; [done|by apply H]. Qed.

Lemma gone_app l1 l2 d : gone l1 d → gone l2 d → gone (l1 ++ l2) d.
Proof. intros H1 H2 f [Hf|Hf]%elem_of_app; auto. Qed.

Lemma gone_one g d : absent g d → gone [hex_encode g] d.
Proof. intros H f ->%list_elem_of_singleton. eauto. Qed.

Lemma oks_app {A} (l1 l2 : list (res A)) : oks (l1 ++ l2) = oks l1 ++ oks l2.
Proof. apply omap_app. Qed.

Lemma oks_Ok {A} (l : list A) : oks (Ok <$> l) = l.
Proof. induction l as [|x l IH]; cbn; [done|]. unfold oks in IH. by rewrite IH. Qed.

(** A step of a loop that collects reports. *)
Definition collects {A} (out : A → list bytes) (m : M Db A) (before : list bytes) : Prop :=
  ∀ d a d', gone before d → m d = (Ok a, d') → gone (out a) d'.

Lemma collects_foldM {A B} (out : B → list bytes) (f : B → A → M Db B) l b :
  (∀ x b, x ∈ l → collects out (f b x) (out b)) → collects out (foldM f b l) (out b).
Proof.
  revert b. induction l as [|x l IH]; intros b Hf d a d' Hd; cbn [foldM]; [by intros [= <- <-]|].
  intros (b1 & d1 & E1 & E2)%bind_inv. eapply (IH b1); [intros; apply Hf; by right| |exact E2]. eapply Hf; [by left|exact Hd|exact E1].
Qed.

Lemma collects_bind {A B} (out : B → list bytes) (m : M Db A) (f : A → M Db B) before :
  (∀ g, preserves (absent g) m) → (∀ a, collects out (f a) before) → collects out (m ≫= f) before.
Proof.
  intros Hm Hf d b d' Hd (a & d1 & E1 & E2)%bind_inv. eapply Hf; [|exact E2]. pose proof (gone_keeps before m Hm d Hd) as H. by rewrite E1 in H.
Qed.

Lemma collects_seq {A B} (out1 : A → list bytes) (out : B → list bytes) (m : M Db A) (f : A → M Db B) before :
  collects out1 m before → (∀ a, collects out (f a) (out1 a)) → collects out (m ≫= f) before.
Proof. intros Hm Hf d b d' Hd (a & d1 & E1 & E2)%bind_inv. eapply Hf; [|exact E2]. by eapply Hm. Qed.

Lemma collects_ret {A} (out : A → list bytes) a before : (∀ f, f ∈ out a → f ∈ before) → collects out (mret a) before.
Proof. intros H d a' d' Hd [= <- <-] f Hf. by apply Hd, H. Qed.

Lemma collects_pushing files g : collects oks (pushing files (purge_one hex_encode g)) (oks files).
Proof.
  intros d r d' Hd. unfold pushing. intros (r0 & d1 & E1 & [= <- <-])%bind_inv. pose proof (gone_keeps _ _ (λ x, absent_purge_one hex_encode x g) d Hd) as H.
  unfold attempt in E1. destruct (purge_one hex_encode g d) as [r1 d2] eqn:E. rewrite oks_app. cbn [snd] in H.
  destruct r1 as [f|e|]; [|injection E1 as <- <-; cbn; by rewrite app_nil_r|done]. injection E1 as <- <-. apply gone_app; [done|].
  unfold purge_one in E. apply bind_inv in E as (b & d3 & _ & E). apply bind_inv in E as ([] & d4 & E4 & [= <- <-]). apply gone_one.
  unfold purge_filehash in E4. apply bind_inv in E4 as ([] & d5 & _ & [= <-]). unfold absent. kv_simpl. apply lookup_delete_eq.
Qed.

Lemma collects_purge hashes : collects oks (purge hex_encode hashes) [].
Proof. unfold purge. apply (collects_foldM oks _ _ []). intros. apply collects_pushing. Qed.

(** The end of a media id's purge: drop the file when unused. *)
Lemma collects_drop {A} (out : A → list bytes) (b : Db → bool) x (r1 r2 : A) before :
  out r1 = before ++ [hex_encode x] → out r2 = before →
  collects out (unused ← gets (λ d, Ok (b d)); if (unused : bool) then remove filehash_metadata x;; mret r1 else mret r2) before.
Proof.
  intros E1 E2 d a d' Hd. rewrite bind_gets. destruct (b d); [|intros [= <- <-]; by rewrite E2]. unfold remove. run. intros [= <- <-]. rewrite E1.
  apply gone_app.
  - pose proof (gone_keeps before (remove filehash_metadata x) (λ g, absent_remove g _ _) d Hd) as H. exact H.
  - apply gone_one. unfold absent. kv_simpl. apply lookup_delete_eq.
Qed.

Lemma collects_purge_mediaid sn mid b : collects id (purge_mediaid hex_encode sn mid b) [].
Proof.
  unfold purge_mediaid. apply (collects_seq id).
  - unfold purge_source. apply collects_bind; [intros; apply preserves_gets|]. intros [v|]; [|by apply collects_ret].
    apply collects_bind; [|intros _; by apply (collects_drop id)]. intros g. destruct b; [apply preserves_ret|].
    repeat (apply preserves_bind; [|intros]); try apply preserves_gets; try apply absent_remove.
    match goal with |- preserves _ (match ?o with _ => _ end) => destruct o end; [|apply preserves_ret].
    apply preserves_bind; [|intros]; apply absent_remove.
  - intros files. apply collects_bind; [intros; apply preserves_gets|]. intros l.
    apply (collects_seq snd); [|intros [? fs]; by apply collects_ret]. apply (collects_foldM snd _ l (∅, files)).
    intros e [counts fs] _. unfold purge_thumbnail. apply collects_bind.
    + intros g. destruct b; [apply preserves_ret|]. apply preserves_bind; [|intros]; apply absent_remove.
    + intros _. by apply (collects_drop snd).
Qed.

(** Reports of a call that may fail, appended. *)
Lemma collects_attempt (m : M Db (list bytes)) files :
  (∀ g, preserves (absent g) m) → collects id m [] →
  collects oks (r ← attempt m; mret (match r with Ok f => files ++ (Ok <$> f) | Err e => files ++ [Err e] | Panic => files end)) (oks files).
Proof.
  intros Hm Hc d a d' Hd (r & d1 & E & [= <- <-])%bind_inv. pose proof (gone_keeps _ m Hm d Hd) as H. unfold attempt in E.
  destruct (m d) as [r1 d2] eqn:Em. cbn [snd] in H. destruct r1 as [fs|e|]; [| |done]; injection E as <- <-; rewrite oks_app.
  - rewrite oks_Ok. apply gone_app; [done|]. eapply (Hc d); [|exact Em]. intros f Hf. by apply not_elem_of_nil in Hf.
  - cbn. by rewrite app_nil_r.
Qed.

Lemma absent_is_blocked g sn mid : preserves (absent g) (is_blocked sn mid).
Proof. unfold is_blocked, is_directly_blocked, blocked_via_hash, is_blocked_filehash. safe; apply preserves_gets. Qed.

#[local] Hint Resolve absent_is_blocked absent_purge_one absent_purge_mediaid : media.
#[local] Hint Extern 1 (preserves (absent _) (get _ _)) => (apply preserves_gets) : media.

Lemma collects_checked sn mid files : collects oks (purge_mediaid_checked hex_encode sn mid files) (oks files).
Proof.
  unfold purge_mediaid_checked. apply collects_attempt.
  - intros g. apply preserves_bind; [apply absent_is_blocked|]. intros. apply absent_purge_mediaid.
  - apply collects_bind; [intros; apply absent_is_blocked|]. intros b. apply collects_purge_mediaid.
Qed.

Lemma collects_thumbs p files :
  collects oks (thumbs ← gets (λ d, Ok (kv_scan_prefix (kv d thumbnailid_metadata) p));
    foldM (λ files (e : entry), pushing files (purge_one hex_encode (take 32 e.2))) files thumbs) (oks files).
Proof.
  apply collects_bind; [intros; apply preserves_gets|]. intros l. apply (collects_foldM oks). intros. apply collects_pushing.
Qed.

Lemma collects_hashes media force : collects oks (purge_and_get_hashes hex_encode media force) [].
Proof.
  unfold purge_and_get_hashes. apply (collects_foldM oks _ _ []). intros [sn mid] files _. destruct force; [|apply collects_checked].
  apply collects_bind; [intros; apply preserves_gets|]. intros o. apply (collects_seq oks); [|intros; apply collects_thumbs].
  destruct o; [apply collects_pushing|by apply collects_ret].
Qed.

Lemma collects_err {A} (l : list (res A)) e : oks (l ++ [Err e]) = oks l.
Proof. rewrite oks_app. cbn. by rewrite app_nil_r. Qed.

Lemma collects_panic {A} (out : A → list bytes) before : collects out (lift Panic) before.
Proof. by intros d a d' _ [=]. Qed.

Lemma collects_from_user user force after : collects oks (purge_and_get_hashes_from_user localpart hex_encode user force after) [].
Proof.
  unfold purge_and_get_hashes_from_user. apply collects_bind; [intros; apply preserves_gets|]. intros l. apply (collects_foldM oks _ _ []).
  intros k files _. unfold purge_upload. apply collects_bind; [intros g; unfold upload_metadata; safe|].
  intros [[md mid]|e|]; [|apply collects_ret; by rewrite collects_err|apply collects_panic].
  apply collects_bind; [intros g; unfold created_since; safe|].
  intros [[]|e|]; [|by apply collects_ret|apply collects_ret; by rewrite collects_err|apply collects_panic].
  destruct force; [|apply collects_checked]. apply (collects_seq oks); [apply collects_pushing|intros; apply collects_thumbs].
Qed.

Lemma purge_one_gone g d f d' : purge_one hex_encode g d = (Ok f, d') → f = hex_encode g ∧ absent g d'.
Proof.
  unfold purge_one. intros (b & d3 & _ & E)%bind_inv. apply bind_inv in E as ([] & d4 & E4 & [= <- <-]). split; [done|].
  unfold purge_filehash in E4. apply bind_inv in E4 as ([] & d5 & _ & [= <-]). unfold absent. kv_simpl. apply lookup_delete_eq.
Qed.

Lemma collects_from_server sn force after : collects oks (purge_and_get_hashes_from_server hex_encode sn force after) [].
Proof.
  unfold purge_and_get_hashes_from_server. apply collects_bind; [intros; apply preserves_gets|]. intros l. apply (collects_foldM oks _ _ []).
  intros e files _. unfold purge_server_entry. apply collects_attempt; destruct force.
  - intros g. unfold created_since. safe.
  - intros g. safe.
  - apply collects_bind; [intros g; unfold created_since; safe|]. intros []; [|by apply collects_ret].
    intros d a d' _ (f & d1 & [-> Hg]%purge_one_gone & [= <- <-])%bind_inv. by apply gone_one.
  - apply collects_bind; [intros; apply preserves_lift|]. intros [s m]. apply collects_bind; [intros; apply absent_is_blocked|].
    intros b. apply collects_purge_mediaid.
Qed.

Lemma oks_errs {A B} (l : list (res A)) : oks (errs (B:=B) l) = [].
Proof. induction l as [|[] l IH]; cbn; by rewrite ?IH. Qed.

(** The reports of a retention run, with those before. *)
Lemma collects_if_necessary space keep n before :
  collects (λ r, before ++ oks (default [] r)) (purge_if_necessary hex_encode space keep n) before.
Proof.
  intros d a d' Hd E. pose proof (gone_keeps before _ (λ g, absent_if_necessary hex_encode g space keep n) d Hd) as H. rewrite E in H. cbn [snd] in H.
  apply gone_app; [done|]. unfold purge_if_necessary in E. destruct space as [sp|]; [|injection E as <- <-; intros f Hf; by apply not_elem_of_nil in Hf].
  rewrite bind_gets in E. destruct (files_over _ _ _) as [hs|]; [|injection E as <- <-; intros f Hf; by apply not_elem_of_nil in Hf].
  apply bind_inv in E as (purged & d1 & E & [= <- <-]). cbn [from_option id]. rewrite oks_app, oks_errs. eapply (collects_purge hs d); [|exact E].
  intros f Hf. by apply not_elem_of_nil in Hf.
Qed.

Lemma collects_files_to_delete g retention type n : collects oks (files_to_delete server_name hex_encode g retention type n) [].
Proof.
  unfold files_to_delete. apply collects_bind; [intros; apply preserves_gets|]. intros [v|]; [by apply collects_ret|].
  apply (collects_seq (λ r, [] ++ oks (default [] r))).
  { destruct (is_thumb type); [apply collects_if_necessary|by apply collects_ret]. }
  intros r1. apply (collects_seq (λ r, ([] ++ oks (default [] r1)) ++ oks (default [] r))).
  { destruct type; apply collects_if_necessary. }
  intros r2. apply (collects_seq (λ r, (([] ++ oks (default [] r1)) ++ oks (default [] r2)) ++ oks (default [] r))); [apply collects_if_necessary|].
  intros r3. apply collects_ret. intros f. by rewrite !oks_app, <-app_assoc.
Qed.

Lemma collects_cleanup retention now : collects oks (cleanup_time_retention server_name hex_encode retention now) [].
Proof.
  unfold cleanup_time_retention. apply collects_bind; [intros; apply preserves_gets|]. intros l. apply (collects_seq oks); [apply collects_purge|].
  intros purged. apply collects_ret. intros f. by rewrite oks_app, oks_errs.
Qed.
End gone.

(** ** A sample store: two copies of a picture, a thumbnail of the first *)

Definition digest_of (b : Z) : bytes := repeat b 32.

Definition sample_ops : list MediaOp :=
  [CreateFile 10 (digest_of 1) 100 (lit "a") (lit "one") (Some (lit "x.png")) (Some (lit "image/png")) (Some (lit "@u:a")) false;
   CreateFile 20 (digest_of 1) 100 (lit "b") (lit "two") None None None false;
   CreateFile 30 (digest_of 3) 70 (lit "b") (lit "three") None None None false;
   CreateThumbnail 40 (digest_of 2) 9 (lit "a") (lit "one") 32 32 None (Some (lit "image/png"))].

#[local] Existing Instance sample_ruma.

Definition media_sample : Db := media_run (λ u, u) (lit "a") (λ g, g) sample_ops empty_db.

Lemma media_sample_inv : MediaInv media_sample.
Proof. apply media_run_inv; [repeat constructor|apply empty_media; intros; reflexivity]. Qed.

Lemma purge_keeps_shared_files_witness : ∃ files d',
  purge_mediaid (λ g, g) (lit "a") (lit "one") false media_sample = (Ok files, d') ∧
  (search_file_metadata (lit "a") (lit "one") d').1 = Err (BadRequest NotFound "Media not found.") ∧
  (search_file_metadata (lit "b") (lit "two") d').1 = (search_file_metadata (lit "b") (lit "two") media_sample).1.
Proof.
  destruct (purge_keeps_shared_files (λ g, g) media_sample (lit "a") (lit "one") (proj1 media_sample_inv)) as (files & d' & E & _ & H1 & H2 & _).
  exists files, d'. split_and!; [exact E|exact H1|apply H2; discriminate].
Defined.

Lemma blocking_is_by_content_witness : content_of media_sample (lit "b") (lit "two") = Some (digest_of 1) ∧
  ∃ d', block [(lit "a", lit "one")] 5 None media_sample = (Ok [], d') ∧ (is_blocked (lit "b") (lit "two") d').1 = Ok true.
Proof.
  split; [vm_compute; reflexivity|].
  apply (blocking_is_by_content media_sample (lit "b") (lit "two") (digest_of 1) media_sample_inv); vm_compute; reflexivity.
Defined.

Lemma media_store_invariant_witness : MediaInv (media_run (λ u, u) (lit "a") (λ g, g) sample_ops empty_db).
Proof. apply media_store_invariant; [repeat constructor|intros; reflexivity]. Defined.

Lemma retention_makes_room_witness : ∃ r d', purge_if_necessary (λ g, g) (Some 150) (λ _ _, true) 40 media_sample = (Ok (Some r), d') ∧
  oks r = [digest_of 2; digest_of 3].
Proof.
  destruct (retention_makes_room (λ g, g) media_sample (λ _ _, true) 150 40 media_sample_inv) as (r & d' & E & H).
  - lia.
  - lia.
  - apply Forall_forall. intros f Hf. vm_compute in Hf. set_solver by lia.
  - vm_compute. reflexivity.
  - destruct r as [r|]; [|exfalso; destruct H as [H _]; vm_compute in H; discriminate]. exists r, d'. split; [exact E|].
    apply (f_equal fst) in E. cbn [fst] in E.
    assert ((purge_if_necessary (λ g, g) (Some 150) (λ _ _, true) 40 media_sample).1 = Ok (Some [Ok (digest_of 2); Ok (digest_of 3)])) as E'
      by (vm_compute; reflexivity).
    rewrite E' in E. injection E as <-. reflexivity.
Defined.

Lemma purge_leaks_thumbnails_witness : ∃ files d',
  purge_mediaid (λ g, g) (lit "a") (lit "one") false media_sample = (Ok files, d') ∧ kv d' filehash_metadata !! digest_of 2 ≠ None.
Proof.
  destruct (purge_leaks_thumbnails (λ g, g) media_sample (lit "a") (lit "one") 32 32 (metadata_value (digest_of 2) None (Some (lit "image/png")))
    (proj1 media_sample_inv)) as (files & d' & E & _ & _ & H & _).
  - vm_compute. reflexivity.
  - exists files, d'. split; [exact E|]. change (digest_of 2) with (take 32 (metadata_value (digest_of 2) None (Some (lit "image/png")))).
    rewrite H. vm_compute. discriminate.
Defined.
