(* ===== verification/MediaService.v ===== *)
(** * MediaService: uploads, downloads and thumbnails

    [server/src/service/media/mod.rs] over [MediaStore] and the media routes
    of [server/src/api/client_server/media.rs], with the path scheme of
    [service/globals/mod.rs].  The file system, the S3 bucket, the image
    library, SHA-256, hex and the other servers are parameters. *)
From S2P Require Import Prelude Bytes KvTree Pdu Database MediaStore MediaInv.

(** * The media backend *)

Inductive IoKind := IoNotFound | IoDirectoryNotEmpty | IoOther.

(** The file system and the bucket.  An S3 answer is a status with a body;
    there is none when the request could not be made. *)
Class Storage (D : Type) := {
  fs_read : list bytes → D → IoKind + bytes;
  fs_create_dir_all : list bytes → D → (IoKind + unit) * D;
  fs_write : list bytes → bytes → D → (IoKind + unit) * D;
  fs_remove_file : list bytes → D → (IoKind + unit) * D;
  fs_remove_dir : list bytes → D → (IoKind + unit) * D;
  s3_get_object : bytes → D → option (Z * bytes);
  s3_put_object : bytes → bytes → D → option Z * D;
  (* the errors of the answer, if it parses *)
  s3_delete_objects : list bytes → D → option (Z * option (list bytes)) * D;
}.

(** [DirectoryStructure] and [MediaBackendConfig]. *)
Inductive DirectoryStructure := Flat | Deep (length depth : nat).

Inductive MediaBackendConfig :=
  | FileSystem (path : bytes) (directory_structure : DirectoryStructure)
  | S3 (path : option bytes) (directory_structure : DirectoryStructure).

(** [TryFrom<ShadowDirectoryStructure>]: a deep structure must leave a name; the
    product is computed in eight bits. *)
Definition SHA256_HEX_LENGTH : Z := 64.

Definition directory_structure_of (value : DirectoryStructure) : res DirectoryStructure :=
  match value with
  | Flat => Ok Flat
  | Deep length depth =>
      let product := Z.of_nat length * Z.of_nat depth in
      if (product <=? 255) && (product <? SHA256_HEX_LENGTH) then Ok (Deep length depth)
      else Err (BadConfig "The media directory structure depth multiplied by the depth is equal to or greater than a sha256 hex hash, please reduce at least one of the two so that their product is less than 64")
  end.

(** The directories of a file name; [split_at] panics out of range. *)
Fixpoint split_name (length : nat) (depth : nat) (filename : bytes) : res (list bytes) :=
  match depth with
  | O => Ok [filename]
  | S depth =>
      if bool_decide (Datatypes.length filename < length)%nat then Panic else
      rest ← split_name length depth (drop length filename);
      Ok (take length filename :: rest)
  end.

Definition split_media_path (media_directory : option bytes) (directory_structure : DirectoryStructure) (sha256_hex : bytes)
    : res (list bytes) :=
  let dir := match media_directory with Some path => [path] | None => [] end in
  match directory_structure with
  | Flat => Ok (dir ++ [sha256_hex])
  | Deep length depth => names ← split_name length depth sha256_hex; Ok (dir ++ names)
  end.

(** [.join("/")]. *)
Fixpoint join_slash (l : list bytes) : bytes :=
  match l with
  | [] => []
  | [x] => x
  | x :: l => x ++ lit "/" ++ join_slash l
  end.

(** [PathBuf::pop]. *)
Definition pop_path (path : list bytes) : list bytes := take (length path - 1) path.

(** [slice.chunks(n)]. *)
Fixpoint chunks_fuel {A} (fuel n : nat) (l : list A) : list (list A) :=
  match fuel, l with
  | _, [] => []
  | O, _ => []
  | S fuel, _ => take n l :: chunks_fuel fuel n (drop n l)
  end.

Definition chunks {A} (n : nat) (l : list A) : list (list A) := chunks_fuel (length l) n l.

Definition S3_CHUNK_SIZE : nat := 1000.

(** ** State *)

Record MediaState (D : Type) := mkMediaState { ms_db : Db; ms_disk : D }.
Arguments mkMediaState {D} _ _.
Arguments ms_db {D} _.
Arguments ms_disk {D} _.

Definition on_store {D A} (m : M Db A) : M (MediaState D) A := λ s,
  let '(r, d) := m (ms_db s) in (r, mkMediaState d (ms_disk s)).

Definition io {D} (f : D → (IoKind + unit) * D) : M (MediaState D) (IoKind + unit) := λ s,
  let '(r, d) := f (ms_disk s) in (Ok r, mkMediaState (ms_db s) d).

Definition disk {D A} (f : D → A) : M (MediaState D) A := gets (λ s, Ok (f (ms_disk s))).

(** [?] on an I/O result. *)
Definition io_ok {S A} (r : IoKind + A) : M S A := lift (match r with inl _ => Err IoError | inr a => Ok a end).

Inductive ContentDispositionType := Inline | Attachment.

Record ContentDisposition := mkContentDisposition {
  disposition_type : ContentDispositionType;
  cd_filename : option bytes;
}.

Record FileMeta := mkFileMeta {
  content_disposition : ContentDisposition;
  fm_content_type : option bytes;
  file : bytes;
}.

(** The configuration and the libraries. *)
Class MediaEnv := {
  own_server_name : bytes;
  media_backend : MediaBackendConfig;
  retention_config : MediaRetentionConfig;
  sha256 : bytes → bytes;
  hex : bytes → bytes;
  user_localpart : bytes → bytes;
  is_safe_inline_content_type : bytes → bool;
  (* the image library *)
  Image : Type;
  load_from_memory : bytes → option Image;
  img_width : Image → Z;
  img_height : Image → Z;
  resize_to_fill : Image → Z → Z → Image;
  thumbnail_exact : Image → Z → Z → Image;
  write_png : Image → option bytes;
}.

Section service.
Context {RU : Ruma} {D : Type} {ST : Storage D} {ME : MediaEnv}.

Notation MM := (M (MediaState D)).

Definition new_media_type (server_name : bytes) (thumbnail : bool) : MediaType :=
  if bool_decide (server_name = own_server_name) then LocalMedia thumbnail else RemoteMedia thumbnail.

Definition generate_digests (file : bytes) : bytes * bytes := (sha256 file, hex (sha256 file)).

Definition size (file : bytes) : res Z :=
  if Z.of_nat (length file) <=? u64_max then Ok (Z.of_nat (length file)) else Err (BadRequest TooLarge "File is too large").

Definition new_content_disposition (filename content_type : option bytes) : ContentDisposition :=
  mkContentDisposition (if from_option is_safe_inline_content_type false content_type then Inline else Attachment) filename.

(** * Files *)

Definition get_media_path (path : bytes) (structure : DirectoryStructure) (sha256_hex : bytes) : res (list bytes) :=
  split_media_path (Some path) structure sha256_hex.

Definition s3_key (path : option bytes) (structure : DirectoryStructure) (sha256_hex : bytes) : res bytes :=
  names ← split_media_path path structure sha256_hex; Ok (join_slash names).

Definition create_file (sha256_hex file : bytes) : MM unit :=
  match media_backend with
  | FileSystem path structure =>
      path ← lift (get_media_path path structure sha256_hex);
      (* Create all directories leading up to file *)
      match structure with
      | Deep _ _ => r ← io (fs_create_dir_all (pop_path path)); io_ok r
      | Flat => mret tt
      end;;
      r ← io (fs_write path file); io_ok r
  | S3 path structure =>
      key ← lift (s3_key path structure sha256_hex);
      o ← (λ s, let '(o, d) := s3_put_object key file (ms_disk s) in (Ok o, mkMediaState (ms_db s) d));
      status ← lift (ok_or o ReqwestError);
      if (200 <=? status) && (status <? 300) then mret tt else fail (BadS3Response "Failed to upload media file to S3 bucket")
  end.

(** Fetch a file and update its last access. *)
Definition get_file (now : Z) (digest : bytes) (original_file_id : option (bytes * bytes)) : MM bytes :=
  file ← match media_backend with
    | FileSystem path structure =>
        path ← lift (get_media_path path structure (hex digest));
        r ← disk (fs_read path); io_ok r
    | S3 path structure =>
        key ← lift (s3_key path structure (hex digest));
        o ← disk (s3_get_object key);
        '(status, body) ← lift (ok_or o ReqwestError);
        if bool_decide (status = 404) then fail (BadRequest NotFound "File does not exist")
        else if (200 <=? status) && (status <? 300) then mret body
        else fail (BadS3Response "Failed to get media file from S3 bucket")
    end;
  match original_file_id with
  | Some (server_name, media_id) => on_store (update_last_accessed now server_name media_id)
  | None => mret tt
  end;;
  on_store (update_last_accessed_filehash now digest);;
  mret file.

(** Remove the directories a file leaves empty. *)
Fixpoint remove_dirs (depth : nat) (path : list bytes) : MM unit :=
  match depth with
  | O => mret tt
  | S depth =>
      let path := pop_path path in
      r ← io (fs_remove_dir path);
      match r with
      | inr _ => remove_dirs depth path
      | inl IoDirectoryNotEmpty => mret tt
      | inl _ => fail IoError
      end
  end.

Definition delete_file_fs (path : bytes) (structure : DirectoryStructure) (sha256_hex : bytes) : MM unit :=
  path ← lift (get_media_path path structure sha256_hex);
  r ← io (fs_remove_file path);
  match r with
  (* Multiple files with the same filehash might be requested to be deleted *)
  | inr _ | inl IoNotFound => mret tt
  | inl _ => fail IoError
  end;;
  match structure with
  | Deep _ depth => remove_dirs depth path
  | Flat => mret tt
  end.

Definition delete_files_s3 (path : option bytes) (structure : DirectoryStructure) (files : list bytes) : MM (list Error) :=
  keys ← foldM (λ keys v, key ← lift (s3_key path structure v); mret (keys ++ [key])) [] files;
  o ← (λ s, let '(o, d) := s3_delete_objects keys (ms_disk s) in (Ok o, mkMediaState (ms_db s) d));
  '(status, parsed) ← lift (ok_or o ReqwestError);
  if (200 <=? status) && (status <? 300) then
    errors ← lift (ok_or parsed (BadS3Response "Cannot parse S3 response"));
    mret (CannotDeleteS3File <$> errors)
  else fail (BadS3Response "Failed to delete media files from S3 bucket").

(** Delete files of the backend; the errors, those of the store first. *)
Definition purge_files (hashes : list (res bytes)) : MM (list Error) :=
  let result := omap (λ r : res bytes, match r with Err e => Some e | _ => None end) hashes in
  let to_delete := oks hashes in
  match media_backend with
  | FileSystem path structure =>
      foldM (λ result v,
        r ← attempt (delete_file_fs path structure v);
        mret (match r with Err e => result ++ [e] | _ => result end)) result to_delete
  | S3 path structure =>
      foldM (λ result chunk,
        r ← attempt (delete_files_s3 path structure chunk);
        mret (match r with Ok errors => result ++ errors | Err e => result ++ [e] | Panic => result end)) result
        (chunks S3_CHUNK_SIZE to_delete)
  end.

(** * Uploads *)

Definition clear_required_space (digest : bytes) (media_type : MediaType) (new_size : Z) : MM (list Error) :=
  files ← on_store (files_to_delete own_server_name hex digest retention_config media_type new_size);
  purge_files files.

Definition create (now : Z) (servername media_id : bytes) (filename content_type : option bytes) (file : bytes) (user_id : option bytes)
    : MM unit :=
  let '(digest, sha256_hex) := generate_digests file in
  file_size ← lift (size file);
  clear_required_space digest (new_media_type servername false) file_size;;
  blocked ← on_store (is_blocked_filehash digest);
  on_store (create_file_metadata user_localpart now digest file_size servername media_id filename content_type user_id blocked);;
  blocked ← on_store (is_blocked_filehash digest);
  if negb blocked then create_file sha256_hex file
  else match user_id with
    | None => fail (BadRequest NotFound "Media not found.")
    | Some _ => mret tt
    end.

Definition upload_thumbnail (now : Z) (servername media_id : bytes) (filename content_type : option bytes) (width height : Z) (file : bytes)
    : MM unit :=
  let '(digest, sha256_hex) := generate_digests file in
  file_size ← lift (size file);
  clear_required_space digest (new_media_type servername true) file_size;;
  on_store (create_thumbnail_metadata now digest file_size servername media_id width height filename content_type);;
  create_file sha256_hex file.

(** * Downloads *)

Definition get_media (now : Z) (servername media_id : bytes) (authenticated : bool) : MM (option FileMeta) :=
  meta ← on_store (search_file_metadata servername media_id);
  if negb (authenticated || unauthenticated_access_permitted meta) then mret None else
  file ← get_file now (sha256_digest meta) None;
  mret (Some (mkFileMeta (new_content_disposition (filename meta) (content_type meta)) (content_type meta) file)).

(** Width, height and whether to crop; [None] for the original file. *)
Definition thumbnail_properties (width height : Z) : option (Z * Z * bool) :=
  if (width <=? 32) && (height <=? 32) then Some (32, 32, true)
  else if (width <=? 96) && (height <=? 96) then Some (96, 96, true)
  else if (width <=? 320) && (height <=? 240) then Some (320, 240, false)
  else if (width <=? 640) && (height <=? 480) then Some (640, 480, false)
  else if (width <=? 800) && (height <=? 600) then Some (800, 600, false)
  else None.

Definition u32_max : Z := 4294967295.
Definition w32 (n : Z) : Z := n mod 4294967296.

(** The dimensions that keep the aspect ratio; a division by zero panics. *)
Definition resize_dimensions (original_width original_height width height : Z) : res (Z * Z) :=
  let ratio := w64 (original_width * height) in
  let nratio := w64 (width * original_height) in
  let use_width := nratio <=? ratio in
  let divisor := if use_width then original_width else original_height in
  if divisor =? 0 then Panic else
  let intermediate := if use_width then w64 (original_height * width) / original_width else w64 (original_width * height) / original_height in
  Ok (if use_width then
        if intermediate <=? u32_max then (width, w32 intermediate) else (w32 (w64 (width * u32_max) / intermediate), u32_max)
      else if intermediate <=? u32_max then (w32 intermediate, height)
      else (u32_max, w32 (w64 (height * u32_max) / intermediate))).

(** Make a thumbnail of the stored file. *)
Definition generate_thumbnail (now : Z) (servername media_id : bytes) (width height : Z) (crop : bool) (meta : DbFileMeta)
    : MM (option FileMeta) :=
  let disposition := new_content_disposition (filename meta) (content_type meta) in
  file ← get_file now (sha256_digest meta) None;
  match load_from_memory file with
  | None => fail (BadRequest Unknown "Unable to generate thumbnail for the requested content (likely is not an image)")
  | Some image =>
      if (img_width image <? width) || (img_height image <? height) then mret (Some (mkFileMeta disposition (content_type meta) file)) else
      thumbnail ← (if crop then mret (resize_to_fill image width height) else
        '(exact_width, exact_height) ← lift (resize_dimensions (img_width image) (img_height image) width height);
        mret (thumbnail_exact image exact_width exact_height));
      thumbnail_bytes ← lift (ok_or (write_png thumbnail) ImageError);
      (* Save thumbnail in database so we don't have to generate it again next time *)
      upload_thumbnail now servername media_id (filename meta) (content_type meta) width height thumbnail_bytes;;
      mret (Some (mkFileMeta disposition (content_type meta) thumbnail_bytes))
  end.

Definition get_thumbnail (now : Z) (servername media_id : bytes) (width height : Z) (authenticated : bool) : MM (option FileMeta) :=
  match thumbnail_properties width height with
  | Some (width, height, crop) =>
      r ← attempt (on_store (search_thumbnail_metadata servername media_id width height));
      match r with
      | Ok meta =>
          if negb (authenticated || unauthenticated_access_permitted meta) then mret None else
          (* Using saved thumbnail *)
          file ← get_file now (sha256_digest meta) (Some (servername, media_id));
          mret (Some (mkFileMeta (new_content_disposition (filename meta) (content_type meta)) (content_type meta) file))
      | _ =>
          if negb authenticated then mret None else
          r ← attempt (on_store (search_file_metadata servername media_id));
          match r with
          | Ok meta => generate_thumbnail now servername media_id width height crop meta
          | _ => mret None
          end
      end
  | None =>
      (* Using full-sized file *)
      r ← attempt (on_store (search_file_metadata servername media_id));
      match r with
      | Ok meta =>
          if negb (authenticated || unauthenticated_access_permitted meta) then mret None else
          file ← get_file now (sha256_digest meta) None;
          mret (Some (mkFileMeta (new_content_disposition (filename meta) (content_type meta)) (content_type meta) file))
      | _ => mret None
      end
  end.

(** * Purging and blocking *)

Definition service_purge (media : list (bytes * bytes)) (force_filehash : bool) : MM (list Error) :=
  hashes ← on_store (purge_and_get_hashes hex media force_filehash);
  purge_files hashes.

Definition purge_from_user (user_id : bytes) (force_filehash : bool) (after : option Z) : MM (list Error) :=
  hashes ← on_store (purge_and_get_hashes_from_user user_localpart hex user_id force_filehash after);
  purge_files hashes.

Definition purge_from_server (server_name : bytes) (force_filehash : bool) (after : option Z) : MM (list Error) :=
  hashes ← on_store (purge_and_get_hashes_from_server hex server_name force_filehash after);
  purge_files hashes.

Definition try_purge_time_retention (now : Z) : MM unit :=
  files ← on_store (cleanup_time_retention own_server_name hex retention_config now);
  purge_files files;;
  mret tt.

Definition check_blocked (server_name media_id : bytes) : MM unit :=
  b ← on_store (is_blocked server_name media_id);
  if (b : bool) then fail (BadRequest NotFound "Media not found.") else mret tt.

(** * Routes *)

Definition MXC_LENGTH : nat := 32.

(** A downloaded file, as the routes return it. *)
Record Content := mkContent {
  c_file : bytes;
  c_content_type : option bytes;
  c_content_disposition : option ContentDisposition;
}.

Inductive FileOrLocation := IsFile (content : Content) | IsLocation (url : bytes).

(** An answer of a location: the two headers and the body. *)
Record LocationResponse := mkLocationResponse {
  lr_content_type : option bytes;
  lr_content_disposition : option bytes;
  lr_body : option bytes;
}.

(** The other servers. *)
Class MediaRemote := {
  fed_get_content : bytes → bytes → res FileOrLocation;
  legacy_get_content : bytes → bytes → res Content;
  fed_get_thumbnail : bytes → bytes → Z → Z → res FileOrLocation;
  legacy_get_thumbnail : bytes → bytes → Z → Z → res Content;
  http_get : bytes → option LocationResponse;
  header_to_str : bytes → option bytes;
  parse_content_disposition : bytes → option ContentDisposition;
}.

Context {MR : MediaRemote}.

Definition create_content_route (now : Z) (media_id : bytes) (filename content_type : option bytes) (file : bytes) (sender_user : option bytes)
    : MM bytes :=
  create now own_server_name media_id filename content_type file sender_user;;
  mret (lit "mxc://" ++ own_server_name ++ lit "/" ++ media_id).

Definition get_location_content (url : bytes) : res Content :=
  response ← ok_or (http_get url) ReqwestError;
  let content_type := lr_content_type response ≫= header_to_str in
  let content_disposition := lr_content_disposition response ≫= parse_content_disposition in
  file ← ok_or (lr_body response) ReqwestError;
  Ok (mkContent file content_type content_disposition).

(** The answer of the other server, or of its old endpoint. *)
Definition remote_answer (answer : res FileOrLocation) (legacy : res Content) : res Content :=
  match answer with
  | Ok (IsFile content) => Ok content
  | Ok (IsLocation url) => get_location_content url
  | Err (BadRequest Unrecognized _) => legacy
  | Err e => Err e
  | Panic => Panic
  end.

Definition get_remote_content (now : Z) (server_name media_id : bytes) : MM Content :=
  content_response ← lift (remote_answer (fed_get_content server_name media_id) (legacy_get_content server_name media_id));
  create now server_name media_id (c_content_disposition content_response ≫= cd_filename) (c_content_type content_response)
    (c_file content_response) None;;
  mret content_response.

Definition get_content (now : Z) (server_name media_id : bytes) (allow_remote authenticated : bool) : MM Content :=
  check_blocked server_name media_id;;
  r ← attempt (get_media now server_name media_id authenticated);
  match r with
  | Ok (Some meta) => mret (mkContent (file meta) (fm_content_type meta) (Some (content_disposition meta)))
  | _ =>
      if negb (bool_decide (server_name = own_server_name)) && allow_remote && authenticated
      then get_remote_content now server_name media_id
      else fail (BadRequest NotFound "Media not found.")
  end.

Definition get_content_as_filename (now : Z) (server_name media_id filename : bytes) (allow_remote authenticated : bool) : MM Content :=
  let disposition := mkContentDisposition Inline (Some filename) in
  check_blocked server_name media_id;;
  r ← attempt (get_media now server_name media_id authenticated);
  match r with
  | Ok (Some meta) => mret (mkContent (file meta) (fm_content_type meta) (Some disposition))
  | _ =>
      if negb (bool_decide (server_name = own_server_name)) && allow_remote && authenticated then
        content ← get_remote_content now server_name media_id;
        mret (mkContent (c_file content) (c_content_type content) (Some disposition))
      else fail (BadRequest NotFound "Media not found.")
  end.

(** [UInt] to [u32]. *)
Definition to_u32 (n : Z) : option Z := if n <=? u32_max then Some n else None.

Definition get_content_thumbnail (now : Z) (server_name media_id : bytes) (height width : Z) (allow_remote authenticated : bool) : MM Content :=
  check_blocked server_name media_id;;
  w ← lift (ok_or (to_u32 width) (BadRequest InvalidParam "Width is invalid."));
  h ← lift (ok_or (to_u32 height) (BadRequest InvalidParam "Height is invalid."));
  o ← get_thumbnail now server_name media_id w h authenticated;
  match o with
  | Some meta => mret (mkContent (file meta) (fm_content_type meta) (Some (content_disposition meta)))
  | None =>
      if negb (bool_decide (server_name = own_server_name)) && allow_remote && authenticated then
        thumbnail ← lift (remote_answer (fed_get_thumbnail server_name media_id height width)
                                        (legacy_get_thumbnail server_name media_id height width));
        upload_thumbnail now server_name media_id (c_content_disposition thumbnail ≫= cd_filename) (c_content_type thumbnail) w h
          (c_file thumbnail);;
        mret thumbnail
      else fail (BadRequest NotFound "Media not found.")
  end.

(** The routes: the old ones are unauthenticated, the new ones are not. *)
Definition get_content_route (now : Z) (server_name media_id : bytes) (allow_remote : bool) : MM Content :=
  get_content now server_name media_id allow_remote false.

Definition get_content_auth_route (now : Z) (server_name media_id : bytes) : MM Content := get_content now server_name media_id true true.

Definition get_content_as_filename_route (now : Z) (server_name media_id filename : bytes) (allow_remote : bool) : MM Content :=
  get_content_as_filename now server_name media_id filename allow_remote false.

Definition get_content_as_filename_auth_route (now : Z) (server_name media_id filename : bytes) : MM Content :=
  get_content_as_filename now server_name media_id filename true true.

Definition get_content_thumbnail_route (now : Z) (server_name media_id : bytes) (height width : Z) (allow_remote : bool) : MM Content :=
  get_content_thumbnail now server_name media_id height width allow_remote false.

Definition get_content_thumbnail_auth_route (now : Z) (server_name media_id : bytes) (height width : Z) : MM Content :=
  get_content_thumbnail now server_name media_id height width true true.

(** The routes for other servers: only media of this server. *)
Definition federation_content_route (now : Z) (media_id : bytes) : MM Content :=
  check_blocked own_server_name media_id;;
  o ← get_media now own_server_name media_id true;
  match o with
  | Some meta => mret (mkContent (file meta) (fm_content_type meta) (Some (content_disposition meta)))
  | None => fail (BadRequest NotFound "Media not found.")
  end.

(** The thumbnail is stored again under the size that was asked for. *)
Definition federation_thumbnail_route (now : Z) (media_id : bytes) (width height : Z) : MM Content :=
  check_blocked own_server_name media_id;;
  w ← lift (ok_or (to_u32 width) (BadRequest InvalidParam "Width is invalid."));
  h ← lift (ok_or (to_u32 height) (BadRequest InvalidParam "Width is invalid."));
  o ← get_thumbnail now own_server_name media_id w h true;
  match o with
  | None => fail (BadRequest NotFound "Media not found.")
  | Some meta =>
      upload_thumbnail now own_server_name media_id (cd_filename (content_disposition meta)) (fm_content_type meta) w h (file meta);;
      mret (mkContent (file meta) (fm_content_type meta) (Some (content_disposition meta)))
  end.
End service.
