(* ===== verification/MediaFiles.v ===== *)
(** * MediaFiles: the database and the media backend agree

    Proofs about [MediaService]: what is on disk is what the database says, an
    upload can be downloaded, blocked content is not served. *)
From S2P Require Import Prelude Bytes KvTree Pdu Database MediaStore MediaInv MediaService.

(** * The storage *)

(** What a file system and a bucket do: a successful write is read back, and
    no call changes another file. *)
Class StorageLaws (D : Type) {ST : Storage D} := {
  write_read : ∀ p f d d', fs_write p f d = (inr tt, d') → fs_read p d' = inr f;
  write_other : ∀ p q f d, p ≠ q → fs_read q (fs_write p f d).2 = fs_read q d;
  create_dir_read : ∀ p q d, fs_read q (fs_create_dir_all p d).2 = fs_read q d;
  remove_dir_read : ∀ p q d, fs_read q (fs_remove_dir p d).2 = fs_read q d;
  remove_other : ∀ p q d, p ≠ q → fs_read q (fs_remove_file p d).2 = fs_read q d;
  put_get : ∀ k f d st d', s3_put_object k f d = (Some st, d') → 200 ≤ st < 300 → s3_get_object k d' = Some (200, f);
  put_other : ∀ k q f d, k ≠ q → s3_get_object q (s3_put_object k f d).2 = s3_get_object q d;
  delete_other : ∀ ks q d, q ∉ ks → s3_get_object q (s3_delete_objects ks d).2 = s3_get_object q d;
}.

(** ** Paths *)

Lemma split_name_inj length depth a b names :
  split_name length depth a = Ok names → split_name length depth b = Ok names → a = b.
Proof.
  revert a b names. induction depth as [|depth IH]; intros a b names; cbn [split_name]; [congruence|].
  case_bool_decide; [done|]. case_bool_decide; [done|]. intros (r & Er & [= <-])%res_bind_Ok (r' & Er' & [= E ->])%res_bind_Ok.
  rewrite <-(take_drop length a), <-(take_drop length b), E. f_equal. by eapply IH.
Qed.

Lemma split_media_path_inj dir st a b names :
  split_media_path dir st a = Ok names → split_media_path dir st b = Ok names → a = b.
Proof.
  unfold split_media_path. destruct st as [|length depth].
  - intros [= <-] [= E]. apply app_inj_tail in E as [_ E]. done.
  - intros (r & Er & [= <-])%res_bind_Ok (r' & Er' & [= E])%res_bind_Ok. apply app_inv_head in E as ->. by eapply split_name_inj.
Qed.

Lemma join_slash_cons x l : l ≠ [] → join_slash (x :: l) = x ++ lit "/" ++ join_slash l.
Proof. by destruct l. Qed.

Lemma split_name_nonempty length depth a names : split_name length depth a = Ok names → names ≠ [].
Proof.
  destruct depth; cbn [split_name]; [by intros [= <-]|]. case_bool_decide; [done|]. by intros (r & _ & [= <-])%res_bind_Ok.
Qed.

Lemma join_names_inj length depth a b na nb :
  split_name length depth a = Ok na → split_name length depth b = Ok nb → join_slash na = join_slash nb → a = b.
Proof.
  revert a b na nb. induction depth as [|depth IH]; intros a b na nb; cbn [split_name]; [by intros [= <-] [= <-]|].
  case_bool_decide as Ha; [done|]. case_bool_decide as Hb; [done|].
  intros (r & Er & [= <-])%res_bind_Ok (r' & Er' & [= <-])%res_bind_Ok. rewrite !join_slash_cons by (by eapply split_name_nonempty). intros E.
  apply app_inj_1 in E as [E1 E2]; [|rewrite !length_take; lia]. injection E2 as E2.
  rewrite <-(take_drop length a), <-(take_drop length b), E1. f_equal. by eapply IH.
Qed.

Lemma s3_key_inj dir st a b k : s3_key dir st a = Ok k → s3_key dir st b = Ok k → a = b.
Proof.
  unfold s3_key, split_media_path. destruct st as [|length depth]; destruct dir as [p|]; cbn [app].
  - intros [= <-] [= E]. apply app_inv_head in E. by injection E as ->.
  - by intros [= <-] [= ->].
  - intros (na & (r & Er & [= <-])%res_bind_Ok & [= <-])%res_bind_Ok (nb & (r' & Er' & [= <-])%res_bind_Ok & [= E])%res_bind_Ok.
    change (join_slash (p :: r') = join_slash (p :: r)) in E. rewrite !join_slash_cons in E by (by eapply split_name_nonempty). apply app_inv_head in E. injection E as E.
    symmetry. by eapply join_names_inj.
  - intros (na & (r & Er & [= <-])%res_bind_Ok & [= <-])%res_bind_Ok (nb & (r' & Er' & [= <-])%res_bind_Ok & [= E])%res_bind_Ok.
    by eapply join_names_inj.
Qed.

(** A valid structure has room for every hash in hex. *)
Definition structure_ok (st : DirectoryStructure) : Prop := directory_structure_of st = Ok st.

Lemma split_name_ok length depth a : (length * depth ≤ Datatypes.length a)%nat → ∃ names, split_name length depth a = Ok names.
Proof.
  revert a. induction depth as [|depth IH]; intros a Ha; cbn [split_name]; [eauto|]. rewrite bool_decide_eq_false_2 by lia.
  destruct (IH (drop length a)) as [names ->]; [rewrite length_drop; lia|]. eauto.
Qed.

Lemma split_media_path_ok dir st a : structure_ok st → length a = 64%nat → ∃ names, split_media_path dir st a = Ok names.
Proof.
  unfold structure_ok, directory_structure_of, split_media_path. destruct st as [|length depth]; [eauto|]. cbv zeta.
  destruct (_ && _) eqn:E; [|done]. intros _ Ha. apply andb_true_iff in E as [_ E%Z.ltb_lt]. unfold SHA256_HEX_LENGTH in E.
  destruct (split_name_ok length depth a) as [names ->]; [nia|]. eauto.
Qed.

(** * Single files *)

Section files.
Context {RU : Ruma} {D : Type} {ST : Storage D} {SL : StorageLaws D} {ME : MediaEnv}.

Definition backend_structure : DirectoryStructure := match media_backend with FileSystem _ st | S3 _ st => st end.

(** The libraries and the configuration, as documented. *)
Class MediaEnvOk : Prop := {
  sha256_length : ∀ f, length (sha256 f) = 32%nat;
  hex_inj : ∀ a b, hex a = hex b → a = b;
  hex_length : ∀ a, length (hex a) = (2 * length a)%nat;
  structure_valid : structure_ok backend_structure;
}.

(** The file of a hash. *)
Definition stored_fs (path : bytes) (st : DirectoryStructure) (d : D) (g : bytes) : option bytes :=
  match get_media_path path st (hex g) with
  | Ok p => match fs_read p d with inr f => Some f | inl _ => None end
  | _ => None
  end.

Definition stored_s3 (path : option bytes) (st : DirectoryStructure) (d : D) (g : bytes) : option bytes :=
  match s3_key path st (hex g) with
  | Ok k => match s3_get_object k d with
      | Some (status, f) => if (200 <=? status) && (status <? 300) then Some f else None
      | None => None
      end
  | _ => None
  end.

Definition stored (d : D) (g : bytes) : option bytes :=
  match media_backend with FileSystem path st => stored_fs path st d g | S3 path st => stored_s3 path st d g end.

Context {MO : MediaEnvOk}.

(** The database and one file stay. *)
Definition frame (d0 : Db) (g : bytes) (o : option bytes) (s : MediaState D) : Prop := ms_db s = d0 ∧ stored (ms_disk s) g = o.

Lemma preserves_io (I : MediaState D → Prop) f : (∀ s, I s → I (mkMediaState (ms_db s) (f (ms_disk s)).2)) → preserves I (io f).
Proof. intros H s Hs. specialize (H s Hs). unfold io. by destruct (f (ms_disk s)). Qed.

Lemma frame_io d0 g o f path st : media_backend = FileSystem path st →
  (∀ p d, get_media_path path st (hex g) = Ok p → fs_read p (f d).2 = fs_read p d) → preserves (frame d0 g o) (io f).
Proof.
  intros Eb Hf. apply preserves_io. intros s [<- <-]. split; [done|]. unfold stored, stored_fs. rewrite Eb. cbn [ms_disk].
  destruct (get_media_path path st (hex g)) as [p| |]; [|done..]. by rewrite Hf.
Qed.

Lemma frame_s3 {A} d0 g o (f : D → A * D) path st : media_backend = S3 path st →
  (∀ k d, s3_key path st (hex g) = Ok k → s3_get_object k (f d).2 = s3_get_object k d) →
  preserves (frame d0 g o) (λ s, let '(a, d) := f (ms_disk s) in (Ok a, mkMediaState (ms_db s) d)).
Proof.
  intros Eb Hf s [<- <-]. cbv beta. pose proof (λ k, Hf k (ms_disk s)) as H. destruct (f (ms_disk s)) as [a d]. cbn [snd] in *.
  split; [done|]. unfold stored, stored_s3. rewrite Eb. cbn [ms_disk]. destruct (s3_key path st (hex g)) as [k| |]; [|done..]. by rewrite H.
Qed.

Lemma path_ne path st g h p q : hex g ≠ h → get_media_path path st h = Ok p → get_media_path path st (hex g) = Ok q → p ≠ q.
Proof. intros Hne E1 E2 ->. apply Hne. symmetry. by eapply split_media_path_inj. Qed.

Ltac steps := repeat first
  [ apply preserves_ret | apply preserves_lift | apply preserves_fail | apply preserves_gets
  | apply preserves_lift_bind; intros | apply preserves_bind; [|intros]
  | match goal with |- preserves _ (match ?x with _ => _ end) => destruct x eqn:? end ].

Lemma frame_create_file d0 g o h f : hex g ≠ h → preserves (frame d0 g o) (create_file h f).
Proof.
  intros Hne. unfold create_file. destruct media_backend as [path st|path st] eqn:Eb.
  - apply preserves_lift_bind. intros p Ep. steps; (eapply frame_io; [done|]).
    + intros. apply create_dir_read.
    + intros q d Eq. apply write_other. by eapply path_ne.
  - apply preserves_lift_bind. intros k Ek. steps. eapply frame_s3; [done|]. intros q d Eq. apply put_other. intros ->. apply Hne.
    symmetry. by eapply s3_key_inj.
Qed.

Lemma frame_delete_fs d0 g o path st h : media_backend = FileSystem path st → hex g ≠ h → preserves (frame d0 g o) (delete_file_fs path st h).
Proof.
  intros Eb Hne. unfold delete_file_fs. apply preserves_lift_bind. intros p Ep.
  assert (∀ depth q, preserves (frame d0 g o) (remove_dirs depth q)) as Hd.
  { intros depth. induction depth as [|depth IH]; intros q; cbn [remove_dirs]; [apply preserves_ret|]. steps; [|apply IH].
    eapply frame_io; [done|]. intros. apply remove_dir_read. }
  steps; [|apply Hd]. eapply frame_io; [done|]. intros q d Eq. apply remove_other. by eapply path_ne.
Qed.

Lemma chunks_elem {A} n (l : list A) c x : c ∈ chunks n l → x ∈ c → x ∈ l.
Proof.
  unfold chunks. generalize (length l). intros fuel. revert l. induction fuel as [|fuel IH]; intros l; destruct l as [|y l]; cbn [chunks_fuel];
    try (by intros ?%not_elem_of_nil).
  rewrite <-(take_drop n (y :: l)) at 3. intros [->|Hc]%elem_of_cons Hx; apply elem_of_app; [by left|right; by eapply IH].
Qed.

Lemma frame_delete_s3 d0 g o path st files : media_backend = S3 path st → hex g ∉ files → preserves (frame d0 g o) (delete_files_s3 path st files).
Proof.
  intros Eb Hne. unfold delete_files_s3.
  assert (∀ (b0 l : list bytes) (s : MediaState D), (∀ x, x ∈ l → x ≠ hex g) → (∀ k, k ∈ b0 → s3_key path st (hex g) ≠ Ok k) →
    match foldM (λ keys v, key ← lift (s3_key path st v); mret (keys ++ [key])) b0 l s with
    | (Ok keys, s') => s' = s ∧ ∀ k, k ∈ keys → s3_key path st (hex g) ≠ Ok k
    | (_, s') => s' = s
    end) as H.
  { intros b0 l. revert b0. induction l as [|v l IH]; intros b0 s Hl Hb; cbn [foldM]; [done|].
    unfold mbind at 1, M_bind at 1. unfold lift at 1. run. destruct (s3_key path st v) as [k| |] eqn:Ek; [|done..]. apply IH.
    - intros x Hx. apply Hl. by right.
    - intros k' [Hk'| ->%list_elem_of_singleton]%elem_of_app; [by apply Hb|]. intros E. apply (Hl v); [by left|]. by eapply s3_key_inj. }
  intros s HF. specialize (H [] files s ltac:(set_solver) ltac:(set_solver)). unfold mbind at 1, M_bind at 1.
  destruct (foldM _ [] files s) as [[keys| |] s']; [|by subst..]. destruct H as [-> Hk]. revert s HF. steps.
  eapply frame_s3; [done|]. intros k d Ek. apply delete_other. intros Hin. by apply (Hk k).
Qed.

Lemma frame_purge_files d0 g o hashes : hex g ∉ oks hashes → preserves (frame d0 g o) (purge_files hashes).
Proof.
  intros Hne. unfold purge_files. destruct media_backend as [path st|path st] eqn:Eb; apply preserves_foldM.
  - intros v Hv result. steps. apply preserves_attempt, frame_delete_fs; [done|]. intros <-. done.
  - intros c Hc result. steps. apply preserves_attempt, frame_delete_s3; [done|]. intros Hg. apply Hne. by eapply chunks_elem.
Qed.

(** A reliable backend accepts every write. *)
Class Reliable : Prop := {
  mkdir_ok : ∀ p d, (fs_create_dir_all p d).1 = inr tt;
  fs_write_ok : ∀ p f d, (fs_write p f d).1 = inr tt;
  put_ok : ∀ k f d, (s3_put_object k f d).1 = Some 200;
}.

(** A successful write is read back. *)
Lemma create_file_stored g f s s' : create_file (hex g) f s = (Ok tt, s') → stored (ms_disk s') g = Some f ∧ ms_db s' = ms_db s.
Proof.
  unfold create_file, stored, stored_fs, stored_s3. destruct media_backend as [path st|path st].
  - intros (p & s0 & E & Hb)%bind_inv. unfold lift in E. injection E as E <-. rewrite E.
    apply bind_inv in Hb as ([] & s1 & E1 & Hb). apply bind_inv in Hb as (r & s2 & E2 & Hb).
    assert (ms_db s1 = ms_db s) as Edb.
    { destruct st; [by injection E1 as <-|]. apply bind_inv in E1 as (r1 & s3 & E3 & E4). unfold io in E3.
      destruct (fs_create_dir_all _ _). injection E3 as _ <-. unfold io_ok, lift in E4. by injection E4 as _ <-. }
    unfold io in E2. destruct (fs_write p f (ms_disk s1)) as [r2 d2] eqn:Ew. injection E2 as <- <-. unfold io_ok, lift in Hb.
    destruct r2 as [|[]]; [done|]. injection Hb as <-. cbn [ms_disk ms_db]. by rewrite (write_read _ _ _ _ Ew).
  - intros (k & s0 & E & Hb)%bind_inv. unfold lift in E. injection E as E <-. rewrite E.
    apply bind_inv in Hb as (o & s1 & E1 & Hb). destruct (s3_put_object k f (ms_disk s)) as [o' d1] eqn:Ep. injection E1 as <- <-.
    apply bind_inv in Hb as (status & s2 & E2 & Hb). destruct o' as [st'|]; [|done]. cbn in E2. injection E2 as <- <-.
    destruct (_ && _) eqn:Es; [|done]. injection Hb as <-. cbn [ms_disk ms_db]. apply andb_true_iff in Es as [?%Z.leb_le ?%Z.ltb_lt].
    by rewrite (put_get _ _ _ _ _ Ep).
Qed.

Lemma create_file_ok `{HR : !Reliable} g f s : length g = 32%nat → ∃ s', create_file (hex g) f s = (Ok tt, s').
Proof.
  intros Hg. pose proof structure_valid as Hst. unfold backend_structure in Hst. unfold create_file.
  assert (length (hex g) = 64%nat) as Hh by (rewrite hex_length; lia). destruct media_backend as [path st|path st].
  - destruct (split_media_path_ok (Some path) st (hex g) Hst Hh) as [p Ep]. unfold get_media_path. rewrite Ep.
    destruct st as [|l dp]; unfold io, io_ok; run.
    + pose proof (fs_write_ok p f (ms_disk s)) as H. destruct (fs_write _ _ _) as [r d]. cbn in H. subst r. eauto.
    + pose proof (mkdir_ok (pop_path p) (ms_disk s)) as H1. destruct (fs_create_dir_all _ _) as [r d]. cbn in H1. subst r. cbn [ms_disk].
      pose proof (fs_write_ok p f d) as H. destruct (fs_write _ _ _) as [r d']. cbn in H. subst r. eauto.
  - destruct (split_media_path_ok path st (hex g) Hst Hh) as [p Ep]. unfold s3_key. rewrite Ep. run.
    pose proof (put_ok (join_slash p) f (ms_disk s)) as H. cbn [mbind res_bind]. destruct (s3_put_object _ _ _) as [o d]. cbn in H. subst o. cbn. eauto.
Qed.

(** * The invariant *)

(** Every file the database has is stored, with the content of its hash. *)
Record FilesInv (s : MediaState D) : Prop := mk_FilesInv {
  fi_inv : MediaInv (ms_db s);
  fi_stored : ∀ g, is_Some (kv (ms_db s) filehash_metadata !! g) → ∃ f, stored (ms_disk s) g = Some f ∧ sha256 f = g;
}.

(** A computation on the database that adds no file. *)
Definition tame {A} (m : M Db A) : Prop := preserves MediaInv m ∧ ∀ g, preserves (absent g) m.

Lemma tame_inv {A} (m : M Db A) s : tame m → FilesInv s → FilesInv (mkMediaState (m (ms_db s)).2 (ms_disk s)).
Proof.
  intros [Hm Ha] [HI HF]. split; [by apply Hm|]. cbn [ms_db ms_disk]. intros g Hg. apply HF.
  destruct (kv (ms_db s) filehash_metadata !! g) eqn:E; [by eexists|]. destruct Hg as [v Hg]. unfold absent in Ha. by rewrite (Ha g (ms_db s) E) in Hg.
Qed.

Lemma tame_store {A} (m : M Db A) : tame m → preserves FilesInv (on_store m).
Proof. intros Hm s Hs. pose proof (tame_inv m s Hm Hs) as H. unfold on_store. by destruct (m (ms_db s)). Qed.

Lemma tame_read {A} (m : M Db A) : (∀ d, (m d).2 = d) → tame m.
Proof. intros H. split; [intros d Hd|intros g d Hd]; by rewrite H. Qed.

(** A step of the store, without its result. *)
Lemma preserves_unit {S A} (I : S → Prop) (m : M S A) : preserves I (m;; mret tt) → preserves I m.
Proof. intros H s Hs. specialize (H s Hs). unfold mbind, M_bind in H. by destruct (m s) as [[]]. Qed.

Lemma exec_inv op : media_op_ok op → preserves MediaInv (media_exec user_localpart own_server_name hex op).
Proof. intros Hop d [H1 H2]. split; [by apply media_exec_safe|by apply media_exec_keys]. Qed.

Lemma tame_exec op : media_op_ok op → creates op = false → tame (media_exec user_localpart own_server_name hex op).
Proof. intros Hop Hc. split; [by apply exec_inv|intros g; by apply absent_exec]. Qed.

Lemma tame_unit {A} (m : M Db A) : tame (m;; mret tt) → tame m.
Proof. intros [H1 H2]. split; [by apply preserves_unit|intros g; by apply preserves_unit]. Qed.

(** Deleting files leaves the database alone. *)
Lemma db_io d0 (f : D → (IoKind + unit) * D) : preserves (λ s, ms_db s = d0) (io f).
Proof. apply preserves_io. by intros s <-. Qed.

Lemma db_purge_files d0 hashes : preserves (λ s : MediaState D, ms_db s = d0) (purge_files hashes).
Proof.
  assert (∀ depth q, preserves (λ s : MediaState D, ms_db s = d0) (remove_dirs depth q)) as Hd.
  { intros depth. induction depth as [|depth IH]; intros q; cbn [remove_dirs]; [apply preserves_ret|]. steps; [apply db_io|apply IH]. }
  unfold purge_files. destruct media_backend as [path st|path st]; apply preserves_foldM; intros x _ result; steps; apply preserves_attempt.
  - unfold delete_file_fs. steps; [apply db_io|apply Hd].
  - unfold delete_files_s3. steps; [apply preserves_foldM; intros; steps|]. intros s <-. by destruct (s3_delete_objects _ _).
Qed.

(** Deleting what a purge reports. *)
Lemma purge_files_inv hashes s : FilesInv s → gone hex (oks hashes) (ms_db s) → FilesInv (purge_files hashes s).2.
Proof.
  intros [HI HF] Hg. pose proof (db_purge_files (ms_db s) hashes s eq_refl) as Edb. cbv beta in Edb. split; rewrite Edb; [done|].
  intros g Hgs. destruct (HF g Hgs) as (f & Ef & Hf). exists f. split; [|done].
  apply (frame_purge_files (ms_db s) g (Some f) hashes); [|done]. intros (g' & E%hex_inj & Ha)%Hg. subst g'. unfold absent in Ha. rewrite Ha in Hgs. by destruct Hgs.
Qed.

Lemma purging (m : M Db (list (res bytes))) : tame m → collects hex oks m [] →
  preserves FilesInv (hashes ← on_store m; purge_files hashes).
Proof.
  intros Hm Hc s Hs. pose proof (tame_inv m s Hm Hs) as H1. unfold mbind, M_bind, on_store.
  destruct (m (ms_db s)) as [r d1] eqn:Em. cbn [snd] in H1. destruct r as [hashes| |]; [|done..]. apply purge_files_inv; [done|].
  eapply Hc; [|exact Em]. intros f Hf. by apply not_elem_of_nil in Hf.
Qed.

(** Writing the one file that is missing. *)
Lemma write_missing `{HR : !Reliable} g f s :
  MediaInv (ms_db s) → sha256 f = g → (∀ g', g' ≠ g → is_Some (kv (ms_db s) filehash_metadata !! g') → ∃ f, stored (ms_disk s) g' = Some f ∧ sha256 f = g') →
  FilesInv (create_file (hex g) f s).2.
Proof.
  intros HI Eg HF. destruct (create_file_ok g f s) as [s' E]; [rewrite <-Eg; apply sha256_length|]. destruct (create_file_stored g f s s' E) as [Es Edb].
  rewrite E. cbn [snd]. split; rewrite Edb; [done|]. intros g' Hg'. destruct (decide (g' = g)) as [->|Hne]; [eauto|].
  destruct (HF g' Hne Hg') as (f' & Ef' & Hf'). exists f'. split; [|done].
  assert (hex g' ≠ hex g) as Hh by (by intros ?%hex_inj). pose proof (frame_create_file (ms_db s) g' (Some f') (hex g) f Hh s) as H.
  rewrite E in H. cbn [snd] in H. by apply H.
Qed.

Lemma clear_space_inv g type n : preserves FilesInv (clear_required_space g type n).
Proof.
  unfold clear_required_space. apply purging; [|apply collects_files_to_delete]. apply tame_unit. by apply (tame_exec (FilesToDelete g _ type n)).
Qed.

Lemma upload_thumbnail_inv `{HR : !Reliable} now sn mid fn ct w h f : preserves FilesInv (upload_thumbnail now sn mid fn ct w h f).
Proof.
  unfold upload_thumbnail, generate_digests. apply preserves_lift_bind. intros n _. apply preserves_bind; [apply clear_space_inv|]. intros _.
  intros s [HI HF]. unfold on_store. set (m := create_thumbnail_metadata _ _ _ _ _ _ _ _ _).
  assert (∃ d, m (ms_db s) = (Ok tt, d)) as [d Ed] by by eexists. unfold mbind, M_bind. rewrite Ed. pose proof (sha256_length f) as Hl.
  apply write_missing; [|done|]; cbn [ms_db ms_disk].
  - pose proof (exec_inv (CreateThumbnail now (sha256 f) n sn mid w h fn ct) Hl _ HI) as H. cbn [media_exec] in H. fold m in H. by rewrite Ed in H.
  - intros g' Hne. unfold m, create_thumbnail_metadata, insert in Ed. revert Ed. run. intros [= <-]. kv_simpl. unfold kv_insert.
    rewrite lookup_insert_ne by done. apply HF.
Qed.

(** ** Uploads *)

(** A media id that is not on the block list. *)
Definition unlisted (k : bytes) (d : Db) : Prop := kv d blocked_servername_mediaid !! k = None.

Definition not_listed (k : bytes) (s : MediaState D) : Prop := unlisted k (ms_db s).

Lemma not_listed_db {A} k (m : M Db A) : preserves (unlisted k) m → preserves (not_listed k) (on_store m).
Proof. intros H s Hs. specialize (H (ms_db s) Hs). unfold on_store. by destruct (m (ms_db s)). Qed.

Lemma unlisted_remove k t x : preserves (unlisted k) (remove t x).
Proof.
  intros d Hd. unfold remove, modify, unlisted in *. cbn [snd]. rewrite kv_upd. case_decide; [|done]. subst. unfold kv_remove. rewrite lookup_delete.
  by case_decide.
Qed.

Lemma unlisted_insert k t x v : t ≠ blocked_servername_mediaid → preserves (unlisted k) (insert t x v).
Proof. intros Ht d Hd. unfold insert, modify, unlisted in *. cbn [snd]. by rewrite kv_upd_ne. Qed.

#[local] Hint Resolve preserves_ret preserves_lift preserves_gets preserves_fail unlisted_remove : media.
#[local] Hint Extern 1 (preserves (unlisted _) (get _ _)) => (apply preserves_gets) : media.
#[local] Hint Extern 1 (preserves (unlisted _) (insert _ _ _)) => (apply unlisted_insert; discriminate) : media.

Lemma unlisted_if_necessary k space keep n : preserves (unlisted k) (purge_if_necessary hex space keep n).
Proof.
  unfold purge_if_necessary, purge, pushing, purge_one, purge_filehash, purge_hash_mediaid, is_blocked_filehash. safe.
Qed.
#[local] Hint Resolve unlisted_if_necessary : media.

Lemma not_listed_clear k g type n : preserves (not_listed k) (clear_required_space g type n).
Proof.
  unfold clear_required_space. apply preserves_bind; [apply not_listed_db; unfold files_to_delete; safe|].
  intros files s Hs. unfold not_listed. by rewrite (db_purge_files (ms_db s) files s eq_refl).
Qed.

(** Media keys of a hash after an upload. *)
Lemma create_blocked d d' g k now n fn ct user b sn mid :
  k = media_key sn mid → length g = 32%nat → create_file_metadata user_localpart now g n sn mid fn ct user b d = (Ok tt, d') →
  unlisted k d → hash_blocked d' g → hash_blocked d g.
Proof.
  unfold unlisted. intros -> Hg E Hk.
  assert (kv d' blocked_servername_mediaid = kv d blocked_servername_mediaid ∧ kv d' filehash_thumbnailid = kv d filehash_thumbnailid ∧
    kv d' filehash_servername_mediaid = <[g ++ media_key sn mid := []]> (kv d filehash_servername_mediaid)) as (E1 & E2 & E3).
  { revert E. unfold create_file_metadata, insert. run. destruct b, user; intros [= <-]; by kv_simpl. }
  intros [(x & Hx & Hb)|(sn' & mid' & w & h & Hx & Hb)]; rewrite E1, ?E2, ?E3 in *; [left; exists x|right; eauto 6]. split; [|done].
  rewrite lookup_insert_ne in Hx; [done|]. intros Ex%app_inv_head. subst x. rewrite Hk in Hb. by destruct Hb.
Qed.

Lemma create_inv `{HR : !Reliable} now sn mid fn ct f user :
  ∀ s, FilesInv s → not_listed (media_key sn mid) s → FilesInv (create now sn mid fn ct f user s).2.
Proof.
  intros s Hs Hk. unfold create, generate_digests, size. destruct (_ <=? _); [|done]. unfold mbind at 1, M_bind at 1, lift at 1.
  pose proof (conj (clear_space_inv (sha256 f) (new_media_type sn false) (Z.of_nat (length f)) s Hs)
    (not_listed_clear _ (sha256 f) (new_media_type sn false) (Z.of_nat (length f)) s Hk)) as Hcl. unfold mbind at 1, M_bind at 1. destruct (clear_required_space _ _ _ s) as [[es| |] s1]; cbn [snd] in Hcl; [|by destruct Hcl..].
  destruct Hcl as [[HI HF] Hk1]. pose proof (sha256_length f) as Hl. set (g := sha256 f) in *.
  destruct (is_blocked_filehash_spec (ms_db s1) g (proj2 HI) Hl) as (b1 & Eb1 & Hb1).
  rewrite (bind_ok _ _ s1 b1 s1) by (unfold on_store; rewrite Eb1; by destruct s1).
  set (m := create_file_metadata _ _ _ _ _ _ _ _ _ _). assert (∃ d, m (ms_db s1) = (Ok tt, d)) as [d Ed]
    by (unfold m, create_file_metadata, insert; run; destruct b1, user; by eexists).
  rewrite (bind_ok _ _ s1 tt (mkMediaState d (ms_disk s1))) by (unfold on_store; by rewrite Ed).
  assert (MediaInv d) as HId.
  { pose proof (exec_inv (CreateFile now g (Z.of_nat (length f)) sn mid fn ct user b1) Hl _ HI) as H. cbn [media_exec] in H. fold m in H. by rewrite Ed in H. }
  destruct (is_blocked_filehash_spec d g (proj2 HId) Hl) as (b2 & Eb2 & Hb2).
  rewrite (bind_ok _ _ (mkMediaState d (ms_disk s1)) b2 (mkMediaState d (ms_disk s1))) by (unfold on_store; cbn [ms_db]; by rewrite Eb2).
  assert (∀ g', g' ≠ g ∨ b1 = true → is_Some (kv d filehash_metadata !! g') → ∃ f, stored (ms_disk s1) g' = Some f ∧ sha256 f = g') as Hst.
  { intros g' Hg' Hs'. apply HF. revert Ed Hs'. unfold m, create_file_metadata, insert. run.
    destruct b1, user; intros [= <-]; kv_simpl; try done; unfold kv_insert; rewrite lookup_insert_ne by naive_solver; done. }
  destruct b2; cbn [negb].
  - assert (b1 = true) as -> by (apply Hb1; eapply create_blocked; [done|done|exact Ed|done|by apply Hb2]).
    assert (FilesInv (mkMediaState d (ms_disk s1))) by (split; [done|]; intros; apply Hst; auto). by destruct user.
  - apply write_missing; [done|done|]. intros g' Hne. apply Hst. auto.
Qed.

(** ** Downloads *)

Lemma tame_access now sn mid : tame (update_last_accessed now sn mid).
Proof. by apply (tame_exec (Access now sn mid)). Qed.

Lemma tame_access_hash now g : tame (update_last_accessed_filehash now g).
Proof. by apply (tame_exec (AccessHash now g)). Qed.

(** An invariant of a state that reading and access times respect. *)
Lemma get_file_keeps (I : MediaState D → Prop) now g o :
  (∀ sn mid, preserves I (on_store (update_last_accessed now sn mid))) → (∀ g, preserves I (on_store (update_last_accessed_filehash now g))) →
  preserves I (get_file now g o).
Proof.
  intros H1 H2. unfold get_file, disk. steps; try (match goal with |- preserves _ (let '_ := ?x in _) => destruct x end); steps; auto.
Qed.

Lemma get_file_inv now g o : preserves FilesInv (get_file now g o).
Proof. apply get_file_keeps; intros; apply tame_store; [apply tame_access|apply tame_access_hash]. Qed.

Lemma get_file_listed k now g o : preserves (not_listed k) (get_file now g o).
Proof.
  apply get_file_keeps; intros; apply not_listed_db; unfold update_last_accessed, update_last_accessed_filehash; safe.
Qed.

Lemma search_read t key d :
  ((o ← Database.get t key; value ← lift (ok_or o (BadRequest NotFound "Media not found.")); meta ← lift (parse_metadata value); available meta) d).2 = d.
Proof. by rewrite search_lookup. Qed.

Lemma read_store {A} (I : MediaState D → Prop) (m : M Db A) : (∀ d, (m d).2 = d) → preserves I (on_store m).
Proof. intros H s Hs. specialize (H (ms_db s)). unfold on_store. destruct (m (ms_db s)) as [r d]. cbn [snd] in *. subst. by destruct s. Qed.

Lemma search_file_inv (I : MediaState D → Prop) sn mid : preserves I (on_store (search_file_metadata sn mid)).
Proof. apply read_store. intros. apply search_read. Qed.

Lemma search_thumbnail_inv (I : MediaState D → Prop) sn mid w h : preserves I (on_store (search_thumbnail_metadata sn mid w h)).
Proof. apply read_store. intros. apply search_read. Qed.

#[local] Opaque get_file upload_thumbnail search_file_metadata search_thumbnail_metadata.

Lemma get_media_keeps (I : MediaState D → Prop) now sn mid auth : (∀ g, preserves I (get_file now g None)) → preserves I (get_media now sn mid auth).
Proof. intros H. unfold get_media. steps; [apply search_file_inv|apply H]. Qed.

Lemma get_thumbnail_inv `{HR : !Reliable} now sn mid w h auth : preserves FilesInv (get_thumbnail now sn mid w h auth).
Proof.
  unfold get_thumbnail, generate_thumbnail.
  steps; try (match goal with |- preserves _ (let '_ := ?x in _) => destruct x end); steps;
    first [apply preserves_attempt; first [apply search_thumbnail_inv|apply search_file_inv]|apply get_file_inv|apply upload_thumbnail_inv].
Qed.

#[local] Transparent get_file upload_thumbnail search_file_metadata search_thumbnail_metadata.

Lemma is_blocked_read sn mid d : (is_blocked sn mid d).2 = d.
Proof.
  assert (preserves (λ d', d' = d) (is_blocked sn mid)) as H by
    (unfold is_blocked, is_directly_blocked, blocked_via_hash, is_blocked_filehash; safe; apply preserves_gets).
  by apply H.
Qed.

Lemma check_blocked_read sn mid (s : MediaState D) : (check_blocked sn mid s).2 = s.
Proof.
  unfold check_blocked. pose proof (is_blocked_read sn mid (ms_db s)) as E. unfold mbind, M_bind, on_store. destruct (is_blocked sn mid (ms_db s)) as [r d].
  cbn [snd] in E. subst d. destruct s. destruct r as [[]| |]; done.
Qed.

(** What passes the check is not on the block list. *)
Lemma check_blocked_listed sn mid (s : MediaState D) : (check_blocked sn mid s).1 = Ok tt → not_listed (media_key sn mid) s.
Proof.
  unfold check_blocked, mbind, M_bind, on_store, is_blocked, is_directly_blocked, Database.get, kv_get. run. case_bool_decide as Hb; [done|]. intros _.
  by apply eq_None_not_Some.
Qed.

Context {MR : MediaRemote} {HR : Reliable}.

Lemma remote_content_inv now sn mid s : FilesInv s → not_listed (media_key sn mid) s → FilesInv (get_remote_content now sn mid s).2.
Proof.
  intros Hs Hk. unfold get_remote_content, mbind at 1, M_bind at 1, lift at 1. destruct (remote_answer _ _) as [c| |]; [|done..].
  pose proof (create_inv now sn mid (c_content_disposition c ≫= cd_filename) (c_content_type c) (c_file c) None s Hs Hk) as H.
  unfold mbind, M_bind. by destruct (create _ _ _ _ _ _ _ s) as [[]].
Qed.

(** A download: the check, the stored file, or the other server's. *)
Lemma download_inv {A} now sn mid auth (k : res (option FileMeta) → M (MediaState D) A) :
  (∀ r s, FilesInv s → not_listed (media_key sn mid) s → FilesInv (k r s).2) →
  preserves FilesInv (check_blocked sn mid;; r ← attempt (get_media now sn mid auth); k r).
Proof.
  intros Hk s Hs. unfold mbind at 1, M_bind at 1. pose proof (check_blocked_read sn mid s) as E. pose proof (check_blocked_listed sn mid s) as Hl.
  destruct (check_blocked sn mid s) as [r s1]. cbn [fst snd] in *. subst s1. destruct r as [[]| |]; [|done..]. specialize (Hl eq_refl).
  unfold mbind, M_bind, attempt. pose proof (get_media_keeps FilesInv now sn mid auth (λ g, get_file_inv now g None) s Hs) as H1.
  pose proof (get_media_keeps (not_listed (media_key sn mid)) now sn mid auth (λ g, get_file_listed _ now g None) s Hl) as H2.
  destruct (get_media now sn mid auth s) as [[]]; cbn [snd] in *; try done; by apply Hk.
Qed.

Lemma get_content_inv now sn mid remote auth : preserves FilesInv (get_content now sn mid remote auth).
Proof. apply download_inv. intros [[m|]| |] s Hs Hk; try done; destruct (_ && _); try done; by apply remote_content_inv. Qed.

Lemma get_content_as_filename_inv now sn mid fn remote auth : preserves FilesInv (get_content_as_filename now sn mid fn remote auth).
Proof.
  apply download_inv. intros [[m|]| |] s Hs Hk; try done; destruct (_ && _); try done; pose proof (remote_content_inv now sn mid s Hs Hk) as H;
    unfold mbind, M_bind; by destruct (get_remote_content now sn mid s) as [[]].
Qed.

#[local] Opaque get_thumbnail upload_thumbnail check_blocked.
Lemma get_content_thumbnail_inv now sn mid h w remote auth : preserves FilesInv (get_content_thumbnail now sn mid h w remote auth).
Proof.
  unfold get_content_thumbnail. steps; try apply get_thumbnail_inv; try apply upload_thumbnail_inv. intros s Hs. by rewrite check_blocked_read.
Qed.
#[local] Transparent get_thumbnail upload_thumbnail check_blocked.

(** What happens to a server's media: requests of clients, admin commands, the
    retention timer.  The media id of an upload is fresh. *)
Inductive media_step (s : MediaState D) : MediaState D → Prop :=
  | step_upload now mid fn ct f user : not_listed (media_key own_server_name mid) s →
      media_step s (create_content_route now mid fn ct f user s).2
  | step_download now sn mid remote auth : media_step s (get_content now sn mid remote auth s).2
  | step_download_as now sn mid fn remote auth : media_step s (get_content_as_filename now sn mid fn remote auth s).2
  | step_thumbnail now sn mid h w remote auth : media_step s (get_content_thumbnail now sn mid h w remote auth s).2
  | step_purge media force : media_step s (service_purge media force s).2
  | step_purge_user user force after : media_step s (purge_from_user user force after s).2
  | step_purge_server sn force after : media_step s (purge_from_server sn force after s).2
  | step_retention now : media_step s (try_purge_time_retention now s).2
  | step_block media secs reason : media_step s (on_store (block media secs reason) s).2
  | step_block_user user now reason after : media_step s (on_store (block_from_user user_localpart user now reason after) s).2
  | step_unblock media : media_step s (on_store (unblock media) s).2.

Lemma media_step_inv s s' : media_step s s' → FilesInv s → FilesInv s'.
Proof.
  destruct 1; intros Hs.
  - unfold create_content_route. pose proof (create_inv now own_server_name mid fn ct f user s Hs ltac:(done)) as H'.
    unfold mbind, M_bind. by destruct (create _ _ _ _ _ _ _ s) as [[]].
  - by apply get_content_inv.
  - by apply get_content_as_filename_inv.
  - by apply get_content_thumbnail_inv.
  - revert s Hs. apply purging; [|apply collects_hashes]. apply tame_unit. by apply (tame_exec (PurgeMedia media force)).
  - revert s Hs. apply purging; [|apply collects_from_user]. apply tame_unit. by apply (tame_exec (PurgeUser user force after)).
  - revert s Hs. apply purging; [|apply collects_from_server]. apply tame_unit. by apply (tame_exec (PurgeServer sn force after)).
  - revert s Hs. unfold try_purge_time_retention. intros s Hs.
    assert (FilesInv ((files ← on_store (cleanup_time_retention own_server_name hex retention_config now); purge_files files) s).2) as H.
    { revert s Hs. apply purging; [|apply collects_cleanup]. apply tame_unit. by apply (tame_exec (CleanupTime retention_config now)). }
    unfold mbind, M_bind in *. destruct (on_store _ s) as [[files| |] s1]; [|done..]. by destruct (purge_files files s1) as [[]].
  - revert s Hs. apply tame_store, tame_unit. by apply (tame_exec (Block media secs reason)).
  - revert s Hs. apply tame_store, tame_unit. by apply (tame_exec (BlockUser user now reason after)).
  - revert s Hs. apply tame_store, tame_unit. by apply (tame_exec (Unblock media)).
Qed.

Lemma media_steps_inv s s' : rtc media_step s s' → FilesInv s → FilesInv s'.
Proof. induction 1; eauto using media_step_inv. Qed.

(** ** Success *)

(** The file of a hash is fetched. *)
Lemma get_file_stored now g f s : stored (ms_disk s) g = Some f →
  get_file now g None s = (Ok f, mkMediaState (update_last_accessed_filehash now g (ms_db s)).2 (ms_disk s)).
Proof.
  assert (∀ d, (update_last_accessed_filehash now g d).1 = Ok tt) as Hu.
  { intros d. unfold update_last_accessed_filehash, Database.get, insert. run. by destruct (kv_get _ _). }
  unfold stored, stored_fs, stored_s3, get_file, disk. destruct media_backend as [path st|path st].
  - destruct (get_media_path path st (hex g)) as [p| |] eqn:Ep; [|done..]. destruct (fs_read p (ms_disk s)) as [|f'] eqn:Er; [done|]. intros [= ->].
    unfold io_ok, on_store. run. rewrite Er. specialize (Hu (ms_db s)). destruct (update_last_accessed_filehash now g (ms_db s)) as [r d]. cbn in Hu. by subst.
  - destruct (s3_key path st (hex g)) as [k| |] eqn:Ek; [|done..]. destruct (s3_get_object k (ms_disk s)) as [[status f']|] eqn:Er; [|done].
    destruct (_ && _) eqn:Es; [|done]. intros [= ->]. unfold on_store. run. rewrite Er. cbn [ok_or]. rewrite bool_decide_eq_false_2.
    + rewrite Es. specialize (Hu (ms_db s)). destruct (update_last_accessed_filehash now g (ms_db s)) as [r d]. cbn in Hu. by subst.
    + intros ->. by vm_compute in Es.
Qed.

Lemma if_necessary_ok space keep n d : MediaInv d → ∃ r d', purge_if_necessary hex space keep n d = (Ok r, d') ∧ MediaInv d' ∧
  ∀ f, f ∈ oks (default [] r) → length f = 64%nat.
Proof.
  intros HI. assert (∃ r d', purge_if_necessary hex space keep n d = (Ok r, d') ∧ ∀ f, f ∈ oks (default [] r) → length f = 64%nat) as (r & d' & E & Hr).
  { unfold purge_if_necessary. destruct space as [sp|]; [|by exists None, d; split; [done|intros f Hf; apply not_elem_of_nil in Hf]].
    rewrite bind_gets. set (files := bfilter _ _). destruct (files_over _ _ _) as [hs|] eqn:Eo;
      [|by exists None, d; split; [done|intros f Hf; apply not_elem_of_nil in Hf]].
    assert (∀ g, g ∈ hs → length g = 32%nat) as Hhs.
    { intros g Hg. eapply files_over_keys in Hg as (v & Hin); [|done]. apply elem_of_bfilter in Hin as [_ Hin%elem_of_entries].
      apply (ms_hash _ (proj1 HI)). by eexists. }
    destruct (purge_spec hex d hs (proj2 HI)) as (d' & E & _); [by apply Forall_forall|]. rewrite (bind_ok _ _ _ _ _ E). eexists _, d'. split; [done|].
    cbn [from_option id]. rewrite oks_app, oks_errs. intros f Hf. assert (∃ g, f = hex g ∧ g ∈ hs) as (g & -> & Hg).
    { clear -Hf. induction hs as [|g hs IH]; [by apply not_elem_of_nil in Hf|]. cbn in Hf. apply elem_of_cons in Hf as [->|Hf]; [exists g; set_solver|].
      destruct (IH Hf) as (g' & -> & Hg'). exists g'. set_solver. }
    rewrite hex_length, (Hhs g Hg). lia. }
  exists r, d'. split_and!; [done| |done]. pose proof (safe_purge_if_necessary hex space keep n d (proj1 HI)) as H1.
  pose proof (keys_if_necessary hex space keep n d (proj2 HI)) as H2. rewrite E in H1, H2. by split.
Qed.

Lemma files_to_delete_ok g type n d : MediaInv d → ∃ fs d', files_to_delete own_server_name hex g retention_config type n d = (Ok fs, d') ∧
  ∀ f, f ∈ oks fs → length f = 64%nat.
Proof.
  intros HI. unfold files_to_delete, Database.get. rewrite bind_gets. destruct (kv_get _ _); [by exists [], d; split; [done|intros f Hf; apply not_elem_of_nil in Hf]|].
  assert (∃ r1 d1, (if is_thumb type then purge_if_necessary hex (scoped_space retention_config ScopeThumbnail) file_is_thumb n else mret None) d = (Ok r1, d1) ∧
    MediaInv d1 ∧ ∀ f, f ∈ oks (default [] r1) → length f = 64%nat) as (r1 & d1 & E1 & HI1 & H1).
  { destruct (is_thumb type); [by apply if_necessary_ok|]. exists None, d. split_and!; [done|done|]. intros f Hf. by apply not_elem_of_nil in Hf. }
  rewrite (bind_ok _ _ _ _ _ E1).
  assert (∃ r2 d2, (match type with
      | LocalMedia _ => purge_if_necessary hex (scoped_space retention_config ScopeLocal) (is_local_or own_server_name true) n
      | RemoteMedia _ => purge_if_necessary hex (scoped_space retention_config ScopeRemote) (λ k d, negb (is_local_or own_server_name true k d)) n
      end) d1 = (Ok r2, d2) ∧ MediaInv d2 ∧ ∀ f, f ∈ oks (default [] r2) → length f = 64%nat) as (r2 & d2 & E2 & HI2 & H2)
    by (destruct type; by apply if_necessary_ok).
  rewrite (bind_ok _ _ _ _ _ E2). destruct (if_necessary_ok (global_space retention_config) (λ _ _, true) n d2 HI2) as (r3 & d3 & E3 & _ & H3).
  rewrite (bind_ok _ _ _ _ _ E3). eexists _, d3. split; [done|]. intros f. rewrite !oks_app, !elem_of_app. naive_solver.
Qed.

(** Deleting never panics on hashes in hex. *)
Definition no_panic {S A} (m : M S A) : Prop := ∀ s, (m s).1 ≠ Panic.

Lemma no_panic_bind {S A B} (m : M S A) (f : A → M S B) : no_panic m → (∀ a, no_panic (f a)) → no_panic (m ≫= f).
Proof. intros Hm Hf s. specialize (Hm s). unfold mbind, M_bind. destruct (m s) as [[a| |] s']; [apply Hf|done|done]. Qed.

Lemma no_panic_attempt {S A} (m : M S A) s : no_panic m → ∃ r s', attempt m s = (Ok r, s').
Proof. intros Hm. specialize (Hm s). unfold attempt. destruct (m s) as [[]]; [by eexists _, _..|done]. Qed.

Lemma foldM_total {S A B} (f : B → A → M S B) l b s : (∀ x b s, x ∈ l → ∃ b' s', f b x s = (Ok b', s')) → ∃ b' s', foldM f b l s = (Ok b', s').
Proof.
  revert b s. induction l as [|x l IH]; intros b s Hf; cbn [foldM]; [by eexists _, _|].
  destruct (Hf x b s ltac:(by left)) as (b1 & s1 & E). rewrite (bind_ok _ _ _ _ _ E). apply IH. intros. apply Hf. by right.
Qed.

Lemma io_no_panic (f : D → (IoKind + unit) * D) : no_panic (io f).
Proof. intros s. unfold io. by destruct (f _). Qed.

Lemma purge_files_ok hashes s : (∀ f, f ∈ oks hashes → length f = 64%nat) → ∃ es s', purge_files hashes s = (Ok es, s').
Proof.
  intros Hh. pose proof structure_valid as Hst. unfold backend_structure in Hst. unfold purge_files.
  destruct media_backend as [path st|path st]; apply foldM_total.
  - intros f es s1 Hf. destruct (no_panic_attempt (delete_file_fs path st f) s1) as (r & s2 & E); [|rewrite (bind_ok _ _ _ _ _ E); by eexists _, _].
    unfold delete_file_fs. apply no_panic_bind.
    { destruct (split_media_path_ok (Some path) st f Hst (Hh f Hf)) as [p Ep]. unfold get_media_path. by rewrite Ep. }
    intros p. apply no_panic_bind; [apply io_no_panic|]. intros r. apply no_panic_bind; [by destruct r as [[]|]|]. intros _.
    assert (∀ depth q, no_panic (remove_dirs depth q)) as Hd; [|by destruct st].
    intros depth. induction depth as [|depth IH]; intros q; cbn [remove_dirs]; [done|]. apply no_panic_bind; [apply io_no_panic|].
    by intros [[]|].
  - intros c es s1 Hc. destruct (no_panic_attempt (delete_files_s3 path st c) s1) as (r & s2 & E); [|rewrite (bind_ok _ _ _ _ _ E); by eexists _, _].
    unfold delete_files_s3. apply no_panic_bind.
    { intros s3. destruct (foldM_total (λ keys v, key ← lift (s3_key path st v); mret (keys ++ [key])) c [] s3) as (b & s4 & ->); [|done].
      intros f b s4 Hf. destruct (split_media_path_ok path st f Hst) as [p Ep]; [eapply Hh, chunks_elem; eauto|].
      unfold s3_key. rewrite Ep. by eexists _, _. }
    intros keys. apply no_panic_bind; [intros s4; by destruct (s3_delete_objects _ _)|]. intros o. apply no_panic_bind; [by destruct o|].
    intros [status parsed]. destruct (_ && _); [|done]. apply no_panic_bind; [by destruct parsed|done].
Qed.

Lemma clear_space_ok g type n s : FilesInv s → ∃ es s', clear_required_space g type n s = (Ok es, s') ∧ shrinks (ms_db s) (ms_db s').
Proof.
  intros [HI _]. unfold clear_required_space. destruct (files_to_delete_ok g type n (ms_db s) HI) as (fs & d & E & Hf).
  rewrite (bind_ok _ _ s fs (mkMediaState d (ms_disk s))) by (unfold on_store; by rewrite E).
  destruct (purge_files_ok fs (mkMediaState d (ms_disk s)) Hf) as (es & s' & E'). exists es, s'. split; [done|].
  pose proof (db_purge_files d fs (mkMediaState d (ms_disk s)) eq_refl) as Ed. cbv beta in Ed. rewrite E' in Ed. cbn [snd] in Ed. rewrite Ed.
  pose proof (shrinks_files_to_delete own_server_name hex (ms_db s) g retention_config type n (ms_db s) ltac:(by intros ?)) as H. by rewrite E in H.
Qed.

(** An upload of content that is not blocked. *)
Lemma create_ok now sn mid fn ct f user s :
  FilesInv s → not_listed (media_key sn mid) s → ¬ hash_blocked (ms_db s) (sha256 f) → Z.of_nat (length f) ≤ u64_max →
  ∃ s', create now sn mid fn ct f user s = (Ok tt, s') ∧ MediaInv (ms_db s') ∧ stored (ms_disk s') (sha256 f) = Some f ∧
    ¬ hash_blocked (ms_db s') (sha256 f) ∧ is_Some (kv (ms_db s') filehash_metadata !! sha256 f) ∧
    kv (ms_db s') servernamemediaid_metadata !! media_key sn mid = Some (metadata_value (sha256 f) fn ct).
Proof.
  intros Hs Hk Hnb Hn. pose proof (sha256_length f) as Hl. unfold create, generate_digests, size. rewrite (proj2 (Z.leb_le _ _)) by done.
  rewrite (bind_ok _ _ s (Z.of_nat (length f)) s) by done. set (n := Z.of_nat (length f)).
  destruct (clear_space_ok (sha256 f) (new_media_type sn false) n s Hs) as (es & s1 & E1 & Hsh).
  pose proof (clear_space_inv (sha256 f) (new_media_type sn false) n s Hs) as Hs1. pose proof (not_listed_clear _ (sha256 f) (new_media_type sn false) n s Hk) as Hk1.
  rewrite E1 in Hs1, Hk1. cbn [snd] in Hs1, Hk1. rewrite (bind_ok _ _ _ _ _ E1).
  assert (¬ hash_blocked (ms_db s1) (sha256 f)) as Hnb1 by (intros H; by eapply Hnb, shrinks_hash_blocked).
  destruct (is_blocked_filehash_spec (ms_db s1) (sha256 f) (proj2 (fi_inv _ Hs1)) Hl) as (b1 & Eb1 & Hb1).
  assert (b1 = false) as -> by (destruct b1; [by destruct Hnb1; apply Hb1|done]).
  rewrite (bind_ok _ _ s1 false s1) by (unfold on_store; rewrite Eb1; by destruct s1).
  set (m := create_file_metadata _ _ _ _ _ _ _ _ _ _).
  assert (∃ d, m (ms_db s1) = (Ok tt, d) ∧ is_Some (kv d filehash_metadata !! sha256 f) ∧
    kv d servernamemediaid_metadata !! media_key sn mid = Some (metadata_value (sha256 f) fn ct)) as (d & Ed & Hfm & Hmd).
  { unfold m, create_file_metadata, insert. run. destruct user; eexists; (split; [done|]); kv_simpl; unfold kv_insert; rewrite !lookup_insert_eq; eauto. }
  rewrite (bind_ok _ _ s1 tt (mkMediaState d (ms_disk s1))) by (unfold on_store; by rewrite Ed).
  assert (MediaInv d) as HId.
  { pose proof (exec_inv (CreateFile now (sha256 f) n sn mid fn ct user false) Hl _ (fi_inv _ Hs1)) as H. cbn [media_exec] in H. fold m in H. by rewrite Ed in H. }
  assert (¬ hash_blocked d (sha256 f)) as Hnbd by (intros H; apply Hnb1; by eapply create_blocked).
  destruct (is_blocked_filehash_spec d (sha256 f) (proj2 HId) Hl) as (b2 & Eb2 & Hb2).
  assert (b2 = false) as -> by (destruct b2; [by destruct Hnbd; apply Hb2|done]).
  rewrite (bind_ok _ _ (mkMediaState d (ms_disk s1)) false (mkMediaState d (ms_disk s1))) by (unfold on_store; cbn [ms_db]; by rewrite Eb2).
  cbn [negb]. destruct (create_file_ok (sha256 f) f (mkMediaState d (ms_disk s1)) Hl) as [s' E']. exists s'.
  destruct (create_file_stored _ _ _ _ E') as [Hst Edb]. cbn [ms_db] in Edb. rewrite Edb. by split_and!.
Qed.

(** An empty string is stored like an absent one. *)
Definition non_empty (o : option bytes) : option bytes := match o with Some [] => None | _ => o end.

Lemma parse_metadata_value g fn ct : length g = 32%nat → utf8_valid (default [] fn) = true → utf8_valid (default [] ct) = true →
  parse_metadata (metadata_value g fn ct) = Ok (mkDbFileMeta g (non_empty fn) (non_empty ct) false).
Proof.
  intros Hg Hf Hc. unfold parse_metadata, metadata_value. rewrite bool_decide_eq_false_2 by (rewrite length_app; lia).
  rewrite drop_app_length', take_app_length' by done. rewrite split_ff_app, split_ff_no_ff by (by apply utf8_no_ff). cbn [lookup list_lookup].
  unfold string_part. cbn [map_transpose]. rewrite !string_from_bytes_valid by done. cbn. destruct fn as [[]|], ct as [[]|]; done.
Qed.
End files.

(** What the database lists is on disk.  From a store without media, on a
    backend that accepts writes, after any sequence of uploads, downloads
    (with remote media fetched and thumbnails generated on the way), purges,
    blocks, unblocks and retention runs: a media id the database finds is
    served to an authenticated request, with a file whose SHA-256 is the
    recorded hash. *)
Theorem found_media_is_served (RU : Ruma) D (ST : Storage D) (SL : StorageLaws D) (ME : MediaEnv) (MO : MediaEnvOk) (MR : MediaRemote) (HR : Reliable)
    (s0 s : MediaState D) now sn mid meta :
  (∀ t, t ∈ media_trees → kv (ms_db s0) t = ∅) → rtc media_step s0 s → (search_file_metadata sn mid (ms_db s)).1 = Ok meta →
  ∃ f s', get_media now sn mid true s = (Ok (Some (mkFileMeta (new_content_disposition (filename meta) (content_type meta)) (content_type meta) f)), s') ∧
    sha256 f = sha256_digest meta.
Proof.
  intros H0 Hsteps Hm. assert (FilesInv s) as [HI HF].
  { eapply media_steps_inv; [exact Hsteps|]. split; [by apply empty_media|]. intros g. rewrite H0 by in_list. rewrite lookup_empty. by intros []. }
  unfold search_file_metadata in Hm. pose proof Hm as Hm'. rewrite search_lookup in Hm. cbn [fst] in Hm. unfold lookup_file in Hm.
  apply res_bind_Ok in Hm as (v & Hv & Hm). apply res_bind_Ok in Hm as (meta' & Hp & Hm).
  destruct (kv (ms_db s) filehash_metadata !! sha256_digest meta') as [fm|] eqn:Efm; [|done]. injection Hm as ->.
  destruct (HF (sha256_digest meta)) as (f & Ef & Hf); [by eexists|]. exists f. eexists. split; [|done].
  unfold get_media. rewrite (bind_ok _ _ s meta s).
  - cbn [orb negb]. rewrite (bind_ok _ _ _ _ _ (get_file_stored now (sha256_digest meta) f s Ef)). done.
  - unfold on_store, search_file_metadata. rewrite search_lookup in *. cbn [fst] in Hm'. rewrite Hm'. by destruct s.
Qed.

(** C17: An upload can be downloaded.  In a state the service can be in, the
    upload of content that is not blocked succeeds, and the media id it
    returns is then served to an authenticated request with exactly the
    uploaded bytes, content type and file name; a request over the
    unauthenticated endpoint is refused. *)
Theorem upload_download_roundtrip (RU : Ruma) D (ST : Storage D) (SL : StorageLaws D) (ME : MediaEnv) (MO : MediaEnvOk) (MR : MediaRemote) (HR : Reliable)
    (s : MediaState D) now now' mid fn ct f user :
  FilesInv s → not_listed (media_key own_server_name mid) s → (is_blocked_filehash (sha256 f) (ms_db s)).1 = Ok false →
  Z.of_nat (length f) ≤ u64_max → utf8_valid (default [] fn) = true → utf8_valid (default [] ct) = true →
  ∃ s', create_content_route now mid fn ct f user s = (Ok (lit "mxc://" ++ own_server_name ++ lit "/" ++ mid), s') ∧
    (get_content_auth_route now' own_server_name mid s').1 =
      Ok (mkContent f (non_empty ct) (Some (new_content_disposition (non_empty fn) (non_empty ct)))) ∧
    (get_content_route now' own_server_name mid true s').1 = Err (BadRequest NotFound "Media not found.").
Proof.
  intros Hs Hk Hnb Hn Hfn Hct. pose proof (sha256_length f) as Hl.
  assert (¬ hash_blocked (ms_db s) (sha256 f)) as Hb.
  { destruct (is_blocked_filehash_spec (ms_db s) (sha256 f) (proj2 (fi_inv _ Hs)) Hl) as (b & E & H). rewrite E in Hnb. cbn in Hnb. injection Hnb as ->.
    intros H'. by apply H in H'. }
  destruct (create_ok now own_server_name mid fn ct f user s Hs Hk Hb Hn) as (s' & E & HI & Hst & Hnb' & Hfm & Hmd).
  exists s'. unfold create_content_route. rewrite (bind_ok _ _ _ _ _ E). split; [done|].
  pose proof (parse_metadata_value (sha256 f) fn ct Hl Hfn Hct) as Hp. set (meta := mkDbFileMeta _ _ _ _) in Hp.
  assert (check_blocked own_server_name mid s' = (Ok tt, s')) as Ec.
  { assert (content_of (ms_db s') own_server_name mid = Some (sha256 f)) as Hc by (unfold content_of; rewrite Hmd; cbn; by rewrite Hp).
    destruct (is_blocked_spec _ _ _ _ HI Hc) as (b & Eb & Hbb). assert (b = false) as -> by (destruct b; [by destruct Hnb'; apply Hbb|done]).
    unfold check_blocked, on_store. run. rewrite Eb. by destruct s'. }
  assert (on_store (search_file_metadata own_server_name mid) s' = (Ok meta, s')) as Em.
  { unfold on_store, search_file_metadata. rewrite search_lookup. unfold lookup_file. rewrite Hmd. cbn [ok_or]. cbn [mbind res_bind]. rewrite Hp. cbn [mbind res_bind].
    destruct Hfm as [v Hv]. change (sha256_digest meta) with (sha256 f). rewrite Hv. by destruct s'. }
  unfold get_content_auth_route, get_content_route, get_content, get_media. rewrite !(bind_ok _ _ _ _ _ Ec).
  unfold mbind at 1, M_bind at 1, attempt at 1. rewrite (bind_ok _ _ _ _ _ Em). cbn [orb negb].
  rewrite (bind_ok _ _ _ _ _ (get_file_stored now' (sha256 f) f s' Hst)). split; [done|].
  unfold mbind at 1, M_bind at 1, attempt at 1. rewrite (bind_ok _ _ _ _ _ Em). cbn [orb negb meta unauthenticated_access_permitted]. cbn.
  by rewrite bool_decide_eq_true_2.
Qed.

(** ** A sample: files in memory *)

Record MemDisk := mkMemDisk { mem_files : gmap (list bytes) bytes; mem_objects : gmap bytes bytes }.

Definition mem_storage : Storage MemDisk := {|
  fs_read p d := match mem_files d !! p with Some f => inr f | None => inl IoNotFound end;
  fs_create_dir_all _ d := (inr tt, d);
  fs_write p f d := (inr tt, mkMemDisk (<[p := f]> (mem_files d)) (mem_objects d));
  fs_remove_file p d := (match mem_files d !! p with Some _ => inr tt | None => inl IoNotFound end, mkMemDisk (delete p (mem_files d)) (mem_objects d));
  fs_remove_dir _ d := (inl IoDirectoryNotEmpty, d);
  s3_get_object k d := match mem_objects d !! k with Some f => Some (200, f) | None => Some (404, []) end;
  s3_put_object k f d := (Some 200, mkMemDisk (mem_files d) (<[k := f]> (mem_objects d)));
  s3_delete_objects ks d := (Some (200, Some []), mkMemDisk (mem_files d) (foldr delete (mem_objects d) ks));
|}.

Lemma mem_laws : @StorageLaws MemDisk mem_storage.
Proof.
  split; cbn.
  - intros p f d d' [= <-]. cbn. by rewrite lookup_insert_eq.
  - intros p q f d Hne. by rewrite lookup_insert_ne.
  - done.
  - done.
  - intros p q d Hne. by rewrite lookup_delete_ne.
  - intros k f d st d' [= <- <-] _. cbn. by rewrite lookup_insert_eq.
  - intros k q f d Hne. by rewrite lookup_insert_ne.
  - intros ks q d Hq. f_equal. induction ks as [|k ks IH]; cbn; [done|]. rewrite lookup_delete_ne by set_solver. apply IH. set_solver.
Qed.

Lemma mem_reliable : @Reliable MemDisk mem_storage.
Proof. by split. Qed.

(** Two digits per byte. *)
Definition hex_digits (g : bytes) : bytes := flat_map (λ b, [b / 16; b mod 16]) g.

Definition mem_env : MediaEnv := {|
  own_server_name := lit "a";
  media_backend := FileSystem (lit "/media") (Deep 2 2);
  retention_config := mkRetention (λ _, None) None;
  sha256 f := take 32 (f ++ repeat 0 32);
  hex := hex_digits;
  user_localpart u := u;
  is_safe_inline_content_type t := bool_decide (t = lit "image/png");
  Image := unit;
  load_from_memory _ := None;
  img_width _ := 0;
  img_height _ := 0;
  resize_to_fill i _ _ := i;
  thumbnail_exact i _ _ := i;
  write_png _ := None;
|}.

Lemma mem_env_ok : @MediaEnvOk mem_env.
Proof.
  split.
  - intros f. change (length (take 32 (f ++ repeat 0 32)) = 32%nat). rewrite length_take, length_app, repeat_length. lia.
  - intros a b. cbn. revert b. induction a as [|x a IH]; intros [|y b]; cbn [hex_digits flat_map app]; try done.
    intros [= E1 E2 E3]. f_equal; [|by apply IH]. rewrite (Z.div_mod x 16), (Z.div_mod y 16) by lia. congruence.
  - intros a. cbn. induction a as [|x a IH]; cbn [hex_digits flat_map app length]; [done|]. unfold hex_digits in IH. lia.
  - reflexivity.
Qed.

Definition no_remote : MediaRemote := {|
  fed_get_content _ _ := Err ReqwestError;
  legacy_get_content _ _ := Err ReqwestError;
  fed_get_thumbnail _ _ _ _ := Err ReqwestError;
  legacy_get_thumbnail _ _ _ _ := Err ReqwestError;
  http_get _ := None;
  header_to_str _ := None;
  parse_content_disposition _ := None;
|}.

#[local] Existing Instances sample_ruma mem_storage mem_laws mem_env mem_env_ok no_remote mem_reliable.

Definition mem_empty : MediaState MemDisk := mkMediaState empty_db (mkMemDisk ∅ ∅).

Definition mem_uploaded : MediaState MemDisk :=
  (create_content_route 7 (lit "id") (Some (lit "x.png")) (Some (lit "image/png")) (lit "data") (Some (lit "@u:a")) mem_empty).2.

Lemma mem_empty_inv : FilesInv mem_empty.
Proof. split; [apply empty_media; intros; reflexivity|]. intros g [v Hg]. cbn in Hg. by rewrite lookup_empty in Hg. Qed.

Lemma found_media_is_served_witness : ∃ f s',
  get_media 9 (lit "a") (lit "id") true mem_uploaded = (Ok (Some (mkFileMeta (new_content_disposition (Some (lit "x.png")) (Some (lit "image/png"))) (Some (lit "image/png")) f)), s') ∧
  sha256 f = sha256 (lit "data").
Proof.
  apply (found_media_is_served _ _ _ _ _ _ _ _ mem_empty mem_uploaded 9 (lit "a") (lit "id")
    (mkDbFileMeta (sha256 (lit "data")) (Some (lit "x.png")) (Some (lit "image/png")) false)).
  - intros; reflexivity.
  - apply rtc_once. apply step_upload. reflexivity.
  - vm_compute. reflexivity.
Defined.

Lemma upload_download_roundtrip_witness : ∃ s',
  create_content_route 7 (lit "id") (Some (lit "x.png")) (Some (lit "image/png")) (lit "data") (Some (lit "@u:a")) mem_empty = (Ok (lit "mxc://a/id"), s') ∧
  (get_content_auth_route 9 (lit "a") (lit "id") s').1 =
    Ok (mkContent (lit "data") (Some (lit "image/png")) (Some (new_content_disposition (Some (lit "x.png")) (Some (lit "image/png"))))) ∧
  (get_content_route 9 (lit "a") (lit "id") true s').1 = Err (BadRequest NotFound "Media not found.").
Proof.
  destruct (upload_download_roundtrip _ _ _ _ _ _ _ _ mem_empty 7 9 (lit "id") (Some (lit "x.png")) (Some (lit "image/png")) (lit "data") (Some (lit "@u:a")))
    as (s' & E & E1 & E2); [| | | | | |exists s'; split_and!; [exact E|exact E1|exact E2]].
  - apply mem_empty_inv.
  - reflexivity.
  - vm_compute. reflexivity.
  - vm_compute. discriminate.
  - reflexivity.
  - reflexivity.
Defined.
