(* ===== verification/ServerKeys.v ===== *)
(** * ServerKeys: signing keys of other servers

    The key cache of [server/src/database/key_value/globals.rs], the filters of
    [server/src/service/globals/mod.rs] and the fetching of keys in
    [server/src/service/rooms/event_handler/mod.rs].  Answers of other servers
    are parameters; the semaphore that serialises requests to one server is
    not modelled. *)
From S2P Require Import Prelude Bytes JsonValue KvTree Pdu Database.

(** * Keys *)

Record OldVerifyKey := mkOldVerifyKey { expired_ts : Z; old_key : bytes }.

Record SigningKeys := mkSigningKeys {
  verify_keys : gmap bytes bytes;
  old_verify_keys : gmap bytes OldVerifyKey;
  valid_until_ts : Z;
}.

(** [ServerSigningKeys]: what a server publishes. *)
Record ServerSigningKeys := mkServerSigningKeys {
  ssk_server_name : bytes;
  ssk_verify_keys : gmap bytes bytes;
  ssk_old_verify_keys : gmap bytes OldVerifyKey;
  ssk_signatures : Value;
  ssk_valid_until_ts : Z;
}.

(** [From<ServerSigningKeys>]. *)
Definition signing_keys_from (value : ServerSigningKeys) : SigningKeys :=
  mkSigningKeys (ssk_verify_keys value) (ssk_old_verify_keys value) (ssk_valid_until_ts value).

(** [BTreeMap::extend]: the new entries win. *)
Definition extend {V} (m new : gmap bytes V) : gmap bytes V := new ∪ m.

(** The stored form: both views of a stored document agree. *)
Class KeyJson := {
  key_json :: Json ServerSigningKeys;
  signing_keys_slice : bytes → option SigningKeys;
  signing_keys_slice_vec : ∀ k, signing_keys_slice (to_vec k) = Some (signing_keys_from k);
}.

(** Milliseconds. *)
Definition ms_30_minutes : Z := 30 * 60 * 1000.
Definition ms_7_days : Z := 7 * 86400 * 1000.

(** [SigningKeys::load_own_keys]. *)
Definition load_own_keys (now : Z) (version public_key : bytes) : SigningKeys :=
  mkSigningKeys {[lit "ed25519:" ++ version := public_key]} ∅ (now + ms_7_days).

(** * The cache of the database *)

Section cache.
Context {KJ : KeyJson}.

Definition stored_keys (origin : bytes) : M Db (option ServerSigningKeys) :=
  o ← get server_signingkeys origin;
  mret (o ≫= from_slice).

(** Only extends the cached keys. *)
Definition add_signing_key_from_trusted_server (origin : bytes) (new_keys : ServerSigningKeys) : M Db SigningKeys :=
  prev_keys ← stored_keys origin;
  let keys := match prev_keys with
    | Some prev_keys =>
        mkServerSigningKeys (ssk_server_name prev_keys)
          (extend (ssk_verify_keys prev_keys) (ssk_verify_keys new_keys))
          (extend (ssk_old_verify_keys prev_keys) (ssk_old_verify_keys new_keys))
          (ssk_signatures prev_keys)
          (if ssk_valid_until_ts prev_keys <? ssk_valid_until_ts new_keys then ssk_valid_until_ts new_keys else ssk_valid_until_ts prev_keys)
    | None => new_keys
    end in
  insert server_signingkeys origin (to_vec keys);;
  mret (signing_keys_from keys).

(** Keys that are no longer listed become old keys. *)
Definition retire_keys (prev_keys : ServerSigningKeys) (verify_keys : gmap bytes bytes) : gmap bytes OldVerifyKey :=
  map_fold (λ key_id key old,
    if bool_decide (is_Some (verify_keys !! key_id)) then old
    else <[key_id := mkOldVerifyKey (ssk_valid_until_ts prev_keys) key]> old)
    (ssk_old_verify_keys prev_keys) (ssk_verify_keys prev_keys).

Definition add_signing_key_from_origin (origin : bytes) (new_keys : ServerSigningKeys) : M Db SigningKeys :=
  prev_keys ← stored_keys origin;
  let keys := match prev_keys with
    | Some prev_keys =>
        mkServerSigningKeys (ssk_server_name prev_keys) (ssk_verify_keys new_keys)
          (extend (retire_keys prev_keys (ssk_verify_keys new_keys)) (ssk_old_verify_keys new_keys))
          (ssk_signatures prev_keys) (ssk_valid_until_ts new_keys)
    | None => new_keys
    end in
  insert server_signingkeys origin (to_vec keys);;
  mret (signing_keys_from keys).

Definition db_signing_keys_for (origin : bytes) : M Db (option SigningKeys) :=
  o ← get server_signingkeys origin;
  mret (o ≫= signing_keys_slice).

(** With the server's own keys. *)
Definition signing_keys_for (own_name : bytes) (own_keys : SigningKeys) (origin : bytes) : M Db (option SigningKeys) :=
  o ← db_signing_keys_for origin;
  mret (match o with Some k => Some k | None => if bool_decide (origin = own_name) then Some own_keys else None end).

(** [load_keypair]: the version and the key, created on first use. *)
Definition load_keypair {KeyPair} (generate_keypair : bytes) (from_der : bytes → bytes → option KeyPair) : M Db KeyPair :=
  o ← get global (lit "keypair");
  keypair_bytes ← match o with
    | None => insert global (lit "keypair") generate_keypair;; mret generate_keypair
    | Some s => mret s
    end;
  let '(version, rest) := splitn2 keypair_bytes in
  version ← lift (ok_or (string_from_bytes version) (BadDatabase "Invalid version bytes in keypair."));
  key ← lift (ok_or rest (BadDatabase "Invalid keypair format in database."));
  lift (ok_or (from_der key version) (BadDatabase "Private or public keys are invalid.")).
End cache.

(** * Filters *)

(** The active keys when the keys are valid at the time, or the room version
    does not ask; the old keys that had not expired; ignored keys never. *)
Definition filter_keys_single_server (ignored_keys : list bytes) (keys : SigningKeys) (timestamp : Z) (enforce_key_validity : bool)
    : option (gmap bytes bytes) :=
  if (timestamp <? valid_until_ts keys) || negb enforce_key_validity then
    let active := filter (λ e, e.2 ∉ ignored_keys) (verify_keys keys) in
    let old := filter (λ e, e.2 ∉ ignored_keys)
      (omap (λ key, if timestamp <? expired_ts key then Some (old_key key) else None) (old_verify_keys keys)) in
    Some (extend active old)
  else None.

Definition filter_keys_server_map (ignored_keys : list bytes) (keys : gmap bytes SigningKeys) (timestamp : Z) (enforce_key_validity : bool)
    : gmap bytes (gmap bytes bytes) :=
  omap (λ keys, filter_keys_single_server ignored_keys keys timestamp enforce_key_validity) keys.

(** * Fetching *)

(** The state: the database, the back-offs (last failure in milliseconds and
    number of tries), and the keys collected for a request. *)
Record Keyring := mkKeyring {
  k_db : Db;
  bad_event_ratelimiter : gmap bytes (Z * Z);
  bad_signature_ratelimiter : gmap (list bytes) (Z * Z);
  pub_key_map : gmap bytes SigningKeys;
}.

Definition kdb {A} (m : M Db A) : M Keyring A := λ k,
  let '(r, d) := m (k_db k) in (r, mkKeyring d (bad_event_ratelimiter k) (bad_signature_ratelimiter k) (pub_key_map k)).

Definition set_bad_event (f : gmap bytes (Z * Z) → gmap bytes (Z * Z)) : M Keyring unit :=
  modify (λ k, mkKeyring (k_db k) (f (bad_event_ratelimiter k)) (bad_signature_ratelimiter k) (pub_key_map k)).

Definition set_bad_signature (f : gmap (list bytes) (Z * Z) → gmap (list bytes) (Z * Z)) : M Keyring unit :=
  modify (λ k, mkKeyring (k_db k) (bad_event_ratelimiter k) (f (bad_signature_ratelimiter k)) (pub_key_map k)).

Definition set_pub_keys (f : gmap bytes SigningKeys → gmap bytes SigningKeys) : M Keyring unit :=
  modify (λ k, mkKeyring (k_db k) (bad_event_ratelimiter k) (bad_signature_ratelimiter k) (f (pub_key_map k))).

(** One more failure. *)
Definition back_off {K} `{Countable K} (now : Z) (id : K) (m : gmap K (Z * Z)) : gmap K (Z * Z) :=
  <[id := (now, match m !! id with Some (_, tries) => tries + 1 | None => 1 end)]> m.

(** Exponential backoff: whether an id must still wait; [secs] times the square
    of the tries, at most a day.  [Duration] panics when it overflows. *)
Definition backing_off {K} `{Countable K} (secs now : Z) (id : K) (m : gmap K (Z * Z)) : res bool :=
  match m !! id with
  | None => Ok false
  | Some (time, tries) =>
      if u64_max <? secs * tries * tries then Panic
      else Ok (Z.max 0 (now - time) <? Z.min (secs * tries * tries) 86400 * 1000)
  end.

(** The other servers' key endpoints; an answer that cannot be had or parsed is
    absent. *)
Class KeyServers := {
  trusted_servers : list bytes;
  get_server_keys : bytes → option ServerSigningKeys;
  get_remote_server_keys : bytes → bytes → option (list ServerSigningKeys);
  (* the batch answer: the keys that parse *)
  get_remote_server_keys_batch : bytes → list bytes → option (list ServerSigningKeys);
}.

Section fetch.
Context {RU : Ruma} {KJ : KeyJson} {KS : KeyServers} (own_name : bytes) (own_version own_public_key : bytes).

Definition own_keys (now : Z) : SigningKeys := load_own_keys now own_version own_public_key.

Definition contains_all_ids (signature_ids : list bytes) (keys : SigningKeys) : bool :=
  forallb (λ id, bool_decide (is_Some (verify_keys keys !! id)) || bool_decide (is_Some (old_verify_keys keys !! id))) signature_ids.

(** Add the keys of an answer, lowering the validity. *)
Definition merge_keys (keys : SigningKeys) (k : ServerSigningKeys) : SigningKeys :=
  mkSigningKeys (extend (verify_keys keys) (ssk_verify_keys k)) (extend (old_verify_keys keys) (ssk_old_verify_keys k))
    (Z.min (valid_until_ts keys) (ssk_valid_until_ts k)).

(** Keys should only be valid for a maximum of seven days. *)
Definition cap_validity (now : Z) (k : ServerSigningKeys) : ServerSigningKeys :=
  mkServerSigningKeys (ssk_server_name k) (ssk_verify_keys k) (ssk_old_verify_keys k) (ssk_signatures k)
    (Z.min (ssk_valid_until_ts k) (now + ms_7_days)).

(** The keys of one answer of a trusted server: what was found so far, or all
    ids.  Keys that are valid for half an hour or more are passed over. *)
Fixpoint use_trusted_keys (now : Z) (origin : bytes) (signature_ids : list bytes) (keys : SigningKeys) (answer : list ServerSigningKeys)
    : M Db (SigningKeys * bool) :=
  match answer with
  | [] => mret (keys, false)
  | k :: answer =>
      keys ← (if ssk_valid_until_ts k <? now + ms_30_minutes then
          let k := cap_validity now k in
          add_signing_key_from_trusted_server origin k;;
          mret (merge_keys keys k)
        else mret keys);
      if contains_all_ids signature_ids keys then mret (keys, true) else use_trusted_keys now origin signature_ids keys answer
  end.

Fixpoint ask_trusted (now : Z) (origin : bytes) (signature_ids : list bytes) (keys : SigningKeys) (servers : list bytes)
    : M Db (SigningKeys * bool) :=
  match servers with
  | [] => mret (keys, false)
  | server :: servers =>
      match get_remote_server_keys server origin with
      | None => ask_trusted now origin signature_ids keys servers
      | Some answer =>
          '(keys, done_) ← use_trusted_keys now origin signature_ids keys answer;
          if (done_ : bool) then mret (keys, true) else ask_trusted now origin signature_ids keys servers
      end
  end.

(** What the origin itself says. *)
Definition ask_origin (now : Z) (origin : bytes) (keys : SigningKeys) : M Db (SigningKeys * bool) :=
  match get_server_keys origin with
  | None => mret (keys, false)
  | Some server_key =>
      let server_key := cap_validity now server_key in
      add_signing_key_from_origin origin server_key;;
      mret (merge_keys keys server_key, true)
  end.

Definition fetch_signing_keys (now : Z) (origin : bytes) (signature_ids : list bytes) (query_via_trusted_servers : bool)
    : M Keyring SigningKeys :=
  wait ← gets (λ k, backing_off 30 now signature_ids (bad_signature_ratelimiter k));
  if (wait : bool) then fail (BadServerResponse "bad signature, still backing off") else
  result ← kdb (signing_keys_for own_name (own_keys now) origin);
  let has_all := match result with Some r => contains_all_ids signature_ids r | None => false end in
  (* We want to ensure that the keys remain valid by the time the other functions that handle signatures reach them *)
  let fresh := match result with
    | Some r => if has_all && (now + ms_30_minutes <? valid_until_ts r) then Some r else None
    | None => None
    end in
  match fresh with
  | Some r => mret r
  | None =>
      let expires_soon_or_has_expired := has_all in
      (* We want to set this to the max, and then lower it whenever we see older keys *)
      let keys := match result with
        | Some r => mkSigningKeys (verify_keys r) (old_verify_keys r) (now + ms_7_days)
        | None => mkSigningKeys ∅ ∅ (now + ms_7_days)
        end in
      '(keys, asked) ← kdb (ask_origin now origin keys);
      if (asked : bool) && contains_all_ids signature_ids keys then mret keys else
      '(keys, found) ← (if query_via_trusted_servers then kdb (ask_trusted now origin signature_ids keys trusted_servers) else mret (keys, false));
      if (found : bool) then mret keys
      (* We should return these keys if fresher keys were not found *)
      else if expires_soon_or_has_expired then mret keys
      else
        set_bad_signature (back_off now signature_ids);;
        fail (BadServerResponse "Failed to find public key for server")
  end.

(** ** The keys of an event's signatures *)

(** [as_object]. *)
Definition as_object (v : Value) : option (list (bytes * Value)) := match v with VObject fields => Some fields | _ => None end.

Definition event_signatures (event : list (bytes * Value)) : res (list (bytes * Value)) :=
  v ← ok_or (field (lit "signatures") event) (BadServerResponse "No signatures in server response pdu.");
  ok_or (as_object v) (BadServerResponse "Invalid signatures object in server response pdu.").

Definition fetch_required_signing_keys (now : Z) (event : list (bytes * Value)) : M Keyring unit :=
  signatures ← lift (event_signatures event);
  for_each signatures (λ '(signature_server, signature),
    signature_object ← lift (ok_or (as_object signature) (BadServerResponse "Invalid signatures content object in server response pdu."));
    server ← lift (if server_name_ok signature_server then Ok signature_server
                   else Err (BadServerResponse "Invalid servername in signatures of server response pdu."));
    o ← try_ok (fetch_signing_keys now server signature_object.*1 true);
    match o with
    | Some keys => set_pub_keys (λ m, <[signature_server := keys]> m)
    | None => mret tt
    end).

(** [origin_server_ts] of an event. *)
Definition event_origin_server_ts (event : list (bytes * Value)) : res Z :=
  v ← ok_or (field (lit "origin_server_ts") event) (BadRequest MissingParam "Invalid PDU, no origin_server_ts field");
  ts ← match v with VNumber n => Ok n | _ => Err (BadRequest InvalidParam "origin_server_ts must be an integer") end;
  if ts <? 0 then Err (BadRequest InvalidParam "Time must be after the unix epoch") else Ok ts.

(** The collected keys that could be valid for an event. *)
Definition filter_required_signing_keys (ignored_keys : list bytes) (event : list (bytes * Value)) (enforce_key_validity : bool)
    : M Keyring (gmap bytes (gmap bytes bytes)) :=
  origin_server_ts ← lift (event_origin_server_ts event);
  gets (λ k, Ok (filter_keys_server_map ignored_keys (pub_key_map k) origin_server_ts enforce_key_validity)).

(** ** The keys of a join *)

(** Whether the keys cover the ids at a time. *)
Definition contains_ids_at (ts : Z) (signature_ids : list bytes) (keys : SigningKeys) : bool :=
  forallb (λ id,
    ((ts <? valid_until_ts keys) && bool_decide (is_Some (verify_keys keys !! id))) ||
    match old_verify_keys keys !! id with Some key => ts <? expired_ts key | None => false end) signature_ids.

(** The servers still to ask, next to the rest. *)
Definition kr {A} (m : M Keyring A) : M (Keyring * gset bytes) A := λ s, let '(r, k) := m s.1 in (r, (k, s.2)).

Definition add_server (origin : bytes) : M (Keyring * gset bytes) unit := modify (λ s, (s.1, {[origin]} ∪ s.2)).

(** Cache the keys of an event's signers, or add them to the servers to ask.
    [parse] reads the event and [reference_hash] gives its id. *)
Definition get_server_keys_from_cache {Raw} (parse : Raw → option (list (bytes * Value))) (reference_hash : list (bytes * Value) → option bytes)
    (now : Z) (pdu : Raw) : M (Keyring * gset bytes) unit :=
  value ← lift (ok_or (parse pdu) (BadServerResponse "Invalid PDU in server response"));
  hash ← lift (ok_or (reference_hash value) (BadRequest BadJson "Invalid PDU format"));
  let event_id := lit "$" ++ hash in
  wait ← kr (gets (λ k, backing_off 30 now event_id (bad_event_ratelimiter k)));
  if (wait : bool) then fail (BadServerResponse "bad event, still backing off") else
  origin_server_ts ← lift (event_origin_server_ts value);
  signatures ← lift (event_signatures value);
  for_each signatures (λ '(signature_server, signature),
    signature_object ← lift (ok_or (as_object signature) (BadServerResponse "Invalid signatures content object in server response pdu."));
    origin ← lift (if server_name_ok signature_server then Ok signature_server
                   else Err (BadServerResponse "Invalid servername in signatures of server response pdu."));
    known ← gets (λ s : Keyring * gset bytes, Ok (bool_decide (origin ∈ s.2) || bool_decide (is_Some (pub_key_map s.1 !! origin))));
    if (known : bool) then mret tt else
    o ← kr (kdb (signing_keys_for own_name (own_keys now) origin));
    match o with
    | Some result =>
        (if contains_ids_at origin_server_ts signature_object.*1 result then mret tt else add_server origin);;
        kr (set_pub_keys (λ m, <[origin := result]> m))
    | None => add_server origin
    end).

(** A loop over events; failure is okay. *)
Definition cache_keys {Raw} (parse : Raw → option (list (bytes * Value))) (reference_hash : list (bytes * Value) → option bytes)
    (now : Z) (pdus : list Raw) : M (Keyring * gset bytes) unit :=
  for_each pdus (λ pdu, try_ok (get_server_keys_from_cache parse reference_hash now pdu);; mret tt).

(** The answer of one trusted server to the batch request. *)
Definition use_batch (servers : gset bytes) (keys : list ServerSigningKeys) : M Keyring (gset bytes) :=
  foldM (λ servers k,
    result ← kdb (add_signing_key_from_trusted_server (ssk_server_name k) k);
    set_pub_keys (λ m, <[ssk_server_name k := result]> m);;
    mret (servers ∖ {[ssk_server_name k]})) servers keys.

Fixpoint ask_trusted_batch (servers : gset bytes) (trusted : list bytes) : M Keyring (gset bytes) :=
  match trusted with
  | [] => mret servers
  | server :: trusted =>
      servers ← match get_remote_server_keys_batch server (elements servers) with
        | Some keys => use_batch servers keys
        | None => mret servers
        end;
      if bool_decide (servers = ∅) then mret servers else ask_trusted_batch servers trusted
  end.

Definition fetch_join_signing_keys {Raw} (parse : Raw → option (list (bytes * Value))) (reference_hash : list (bytes * Value) → option bytes)
    (now : Z) (state auth_chain : list Raw) : M Keyring unit :=
  servers ← (λ k, let '(r, (k, servers)) := (cache_keys parse reference_hash now state;; cache_keys parse reference_hash now auth_chain) (k, ∅) in
              ((r ≫= λ _, Ok servers), k));
  if bool_decide (servers = ∅) then mret tt else
  servers ← ask_trusted_batch servers trusted_servers;
  if bool_decide (servers = ∅) then mret tt else
  for_each (elements servers) (λ origin,
    match get_server_keys origin with
    | Some key =>
        result ← kdb (add_signing_key_from_origin origin key);
        set_pub_keys (λ m, <[origin := result]> m)
    | None => mret tt
    end).
End fetch.

(** * What the cache guarantees *)

Lemma retire_keys_lookup prev vk k :
  retire_keys prev vk !! k =
    match ssk_verify_keys prev !! k with
    | Some key => if bool_decide (is_Some (vk !! k)) then ssk_old_verify_keys prev !! k else Some (mkOldVerifyKey (ssk_valid_until_ts prev) key)
    | None => ssk_old_verify_keys prev !! k
    end.
Proof.
  unfold retire_keys. generalize (ssk_verify_keys prev). apply (map_fold_weak_ind (λ r m, r !! k = match m !! k with
    | Some key => if bool_decide (is_Some (vk !! k)) then ssk_old_verify_keys prev !! k else Some (mkOldVerifyKey (ssk_valid_until_ts prev) key)
    | None => ssk_old_verify_keys prev !! k end)); [by rewrite lookup_empty|].
  intros i x m r Hi IH. destruct (decide (i = k)) as [->|Hne].
  - rewrite Hi in IH. rewrite lookup_insert_eq.
    destruct (bool_decide (is_Some (vk !! k))); [done|]. by rewrite lookup_insert_eq.
  - rewrite (lookup_insert_ne m) by done. destruct (bool_decide (is_Some (vk !! i))); [done|]. by rewrite lookup_insert_ne.
Qed.

Section guarantees.
Context {KJ : KeyJson}.

Lemma stored_keys_get origin d keys : stored_keys origin d = (Ok keys, d) ↔ (kv d server_signingkeys !! origin ≫= from_slice) = keys.
Proof. unfold stored_keys, get, kv_get. run. naive_solver. Qed.

(** What the cache holds after an answer of the server itself. *)
Lemma add_from_origin_stored origin new d prev :
  (kv d server_signingkeys !! origin ≫= from_slice) = Some prev →
  let keys := mkSigningKeys (ssk_verify_keys new) (extend (retire_keys prev (ssk_verify_keys new)) (ssk_old_verify_keys new)) (ssk_valid_until_ts new) in
  ∃ d', add_signing_key_from_origin origin new d = (Ok keys, d') ∧ db_signing_keys_for origin d' = (Ok (Some keys), d').
Proof.
  intros Hp. cbv zeta. unfold add_signing_key_from_origin. rewrite (bind_ok _ _ _ _ _ (proj2 (stored_keys_get _ _ _) Hp)). unfold insert. run.
  eexists. split; [done|]. unfold db_signing_keys_for, get, kv_get. run. kv_simpl. unfold kv_insert. rewrite lookup_insert_eq. cbn [mbind option_bind].
  by rewrite signing_keys_slice_vec.
Qed.

(** A key its server no longer lists is retired.  When a server's answer
    misses a key that was active before, the cache keeps the key as an old one
    that expired when the earlier answer did: no event dated at or after that
    time is verified with it, in any room version, while earlier events still
    are as long as the new keys are valid. *)
Theorem delisted_key_is_retired origin new d prev k key ignored :
  (kv d server_signingkeys !! origin ≫= from_slice) = Some prev →
  ssk_verify_keys prev !! k = Some key → ssk_verify_keys new !! k = None → ssk_old_verify_keys new !! k = None →
  ∃ keys d', add_signing_key_from_origin origin new d = (Ok keys, d') ∧ db_signing_keys_for origin d' = (Ok (Some keys), d') ∧
    (∀ ts enforce usable, filter_keys_single_server ignored keys ts enforce = Some usable → is_Some (usable !! k) → ts < ssk_valid_until_ts prev) ∧
    (∀ ts enforce, ts < ssk_valid_until_ts prev → ts < ssk_valid_until_ts new → key ∉ ignored →
      ∃ usable, filter_keys_single_server ignored keys ts enforce = Some usable ∧ usable !! k = Some key).
Proof.
  intros Hp Hk Hn Ho. destruct (add_from_origin_stored origin new d prev Hp) as (d' & E & E'). eexists _, d'. split; [exact E|]. split; [exact E'|].
  assert (extend (retire_keys prev (ssk_verify_keys new)) (ssk_old_verify_keys new) !! k = Some (mkOldVerifyKey (ssk_valid_until_ts prev) key)) as Hold.
  { unfold extend. rewrite lookup_union_r by done. rewrite retire_keys_lookup, Hk, bool_decide_eq_false_2; [done|]. rewrite Hn. by intros []. }
  assert (∀ ts, extend (filter (λ e, e.2 ∉ ignored) (ssk_verify_keys new)) (filter (λ e, e.2 ∉ ignored)
      (omap (λ key, if ts <? expired_ts key then Some (old_key key) else None) (extend (retire_keys prev (ssk_verify_keys new)) (ssk_old_verify_keys new)))) !! k =
    if (ts <? ssk_valid_until_ts prev) && negb (bool_decide (key ∈ ignored)) then Some key else None) as Hl.
  { intros ts. unfold extend at 1. rewrite lookup_union, !map_lookup_filter, lookup_omap, Hold, Hn. cbn. destruct (ts <? _); cbn; [|done].
    case_bool_decide; case_guard; try done. }
  unfold filter_keys_single_server. cbn [valid_until_ts verify_keys old_verify_keys]. split.
  - intros ts enforce usable. destruct (_ || _); [|done]. intros [= <-]. rewrite Hl. destruct (Z.ltb_spec ts (ssk_valid_until_ts prev)); [done|]. by intros [].
  - intros ts enforce H1 H2 Hi. rewrite (proj2 (Z.ltb_lt ts (ssk_valid_until_ts new))) by done. cbn [orb]. eexists. split; [done|].
    rewrite Hl, (proj2 (Z.ltb_lt _ _)) by done. by rewrite bool_decide_eq_false_2.
Qed.
End guarantees.

Section fetching.
Context {RU : Ruma} {KJ : KeyJson} {KS : KeyServers} (own_name own_version own_public_key : bytes).
Notation fetch_signing_keys := (fetch_signing_keys own_name own_version own_public_key).

Lemma contains_mono ids keys keys' :
  (∀ k, is_Some (verify_keys keys !! k) → is_Some (verify_keys keys' !! k)) →
  (∀ k, is_Some (old_verify_keys keys !! k) → is_Some (old_verify_keys keys' !! k)) →
  contains_all_ids ids keys = true → contains_all_ids ids keys' = true.
Proof.
  intros H1 H2. unfold contains_all_ids. rewrite !forallb_forall. intros H id Hid. specialize (H id Hid).
  apply orb_true_iff in H as [H%bool_decide_eq_true|H%bool_decide_eq_true]; apply orb_true_iff; [left|right]; apply bool_decide_eq_true; auto.
Qed.

Lemma merge_contains ids keys k : contains_all_ids ids keys = true → contains_all_ids ids (merge_keys keys k) = true.
Proof.
  apply contains_mono; intros x Hx; cbn [merge_keys verify_keys old_verify_keys]; unfold extend; apply lookup_union_is_Some; by right.
Qed.

Lemma use_trusted_contains now origin ids answer keys d keys' b d' :
  use_trusted_keys now origin ids keys answer d = (Ok (keys', b), d') →
  (contains_all_ids ids keys = true → contains_all_ids ids keys' = true) ∧ (b = true → contains_all_ids ids keys' = true).
Proof.
  revert keys d. induction answer as [|k answer IH]; intros keys d; cbn [use_trusted_keys].
  { intros [= <- <- _]. done. }
  intros (keys1 & d1 & E1 & E2)%bind_inv. assert (contains_all_ids ids keys = true → contains_all_ids ids keys1 = true) as H1.
  { destruct (_ <? _); [|by injection E1 as <- _]. apply bind_inv in E1 as (? & ? & _ & [= <- _]). apply merge_contains. }
  destruct (contains_all_ids ids keys1) eqn:Ec; [injection E2 as <- <- _; auto|]. destruct (IH keys1 d1 E2) as [H2 H3]. split; [|done]. intros H. specialize (H1 H). congruence.
Qed.

Lemma ask_trusted_contains now origin ids servers keys d keys' b d' :
  ask_trusted now origin ids keys servers d = (Ok (keys', b), d') →
  (contains_all_ids ids keys = true → contains_all_ids ids keys' = true) ∧ (b = true → contains_all_ids ids keys' = true).
Proof.
  revert keys d. induction servers as [|server servers IH]; intros keys d; cbn [ask_trusted]; [by intros [= <- <- _]|].
  destruct (get_remote_server_keys server origin) as [answer|]; [|apply IH].
  intros ([keys1 b1] & d1 & [H1 H2]%use_trusted_contains & E2)%bind_inv. destruct b1; [injection E2 as <- <- _; auto|].
  destruct (IH keys1 d1 E2) as [H3 H4]. auto.
Qed.

Lemma kdb_inv {A} (m : M Db A) k a k' : kdb m k = (Ok a, k') → m (k_db k) = (Ok a, k_db k').
Proof. unfold kdb. destruct (m (k_db k)) as [r d]. by intros [= -> <-]. Qed.

(** Fetched keys cover the signatures.  Whatever the cache, the origin and
    the trusted servers say, keys are only returned when they contain every
    key id that was asked for. *)
Theorem fetched_keys_cover_ids now origin ids query k keys k' :
  fetch_signing_keys now origin ids query k = (Ok keys, k') → contains_all_ids ids keys = true.
Proof.
  unfold ServerKeys.fetch_signing_keys. intros (wait & k1 & _ & E)%bind_inv. destruct wait; [done|].
  apply bind_inv in E as (result & k2 & _ & E). cbv zeta in E. set (has_all := match result with Some r => _ | None => false end) in E.
  destruct (match result with Some r => if _ && _ then Some r else None | None => None end) as [r|] eqn:Ef.
  { injection E as <- _. destruct result as [r'|]; [|done]. destruct (has_all && _) eqn:Eh; [|done]. injection Ef as ->.
    by apply andb_true_iff in Eh as [Eh _]. }
  apply bind_inv in E as ([keys1 asked] & k3 & E3%kdb_inv & E). set (start := match result with Some r => _ | None => _ end) in E3.
  assert (has_all = true → contains_all_ids ids keys1 = true) as H1.
  { intros Hh. assert (contains_all_ids ids start = true) as Hs by (unfold start, has_all in *; by destruct result).
    unfold ask_origin in E3. destruct (get_server_keys origin); [|by injection E3 as <- _]. apply bind_inv in E3 as (? & ? & _ & [= <- _ _]).
    by apply merge_contains. }
  destruct (asked && contains_all_ids ids keys1) eqn:Ea; [injection E as <- _; by apply andb_true_iff in Ea as [_ Ea]|].
  apply bind_inv in E as ([keys2 found] & k4 & E4 & E).
  assert ((contains_all_ids ids keys1 = true → contains_all_ids ids keys2 = true) ∧ (found = true → contains_all_ids ids keys2 = true)) as [H2 H3].
  { destruct query; [by eapply ask_trusted_contains, kdb_inv|]. by injection E4 as <- <- _. }
  destruct found; [injection E as <- _; auto|]. destruct has_all; [injection E as <- _; auto|]. by apply bind_inv in E as (? & ? & _ & ?).
Qed.

Lemma use_trusted_fresh now origin ids answer keys d :
  Forall (λ k, now + ms_30_minutes ≤ ssk_valid_until_ts k) answer → contains_all_ids ids keys = false →
  use_trusted_keys now origin ids keys answer d = (Ok (keys, false), d).
Proof.
  intros Ha Hc. induction Ha as [|k answer Hk _ IH]; cbn [use_trusted_keys]; [done|]. rewrite (proj2 (Z.ltb_ge _ _)) by done. run. by rewrite Hc.
Qed.

(** Fresh keys of trusted servers are thrown away.  The test for keys that
    are too old is the wrong way round: when a server cannot be reached and
    its keys are not cached, and every trusted server answers with keys valid
    for half an hour or more, the request fails, whatever keys the answers
    hold, and nothing is cached. *)
Theorem fresh_trusted_keys_discarded now origin id ids k :
  bad_signature_ratelimiter k !! (id :: ids) = None → kv (k_db k) server_signingkeys !! origin = None → origin ≠ own_name →
  get_server_keys origin = None →
  (∀ server answer, server ∈ trusted_servers → get_remote_server_keys server origin = Some answer →
    Forall (λ keys, now + ms_30_minutes ≤ ssk_valid_until_ts keys) answer) →
  ∃ k', fetch_signing_keys now origin (id :: ids) true k = (Err (BadServerResponse "Failed to find public key for server"), k') ∧ k_db k' = k_db k.
Proof.
  intros Hb Hdb Hne Hg Ht. unfold ServerKeys.fetch_signing_keys, backing_off. rewrite (bind_ok _ _ k false k) by (run; by rewrite Hb).
  rewrite (bind_ok _ _ k None k).
  2: { unfold kdb, signing_keys_for, db_signing_keys_for, get, kv_get. run. rewrite Hdb. cbn. rewrite bool_decide_eq_false_2 by done. by destruct k. }
  cbv zeta. set (keys := mkSigningKeys ∅ ∅ _).
  assert (contains_all_ids (id :: ids) keys = false) as Hc.
  { unfold contains_all_ids. cbn. rewrite !lookup_empty. by rewrite bool_decide_eq_false_2 by (by intros []). }
  rewrite (bind_ok _ _ k (keys, false) k) by (unfold kdb, ask_origin; rewrite Hg; by destruct k). cbn [andb].
  assert (∀ servers d, (∀ s, s ∈ servers → s ∈ trusted_servers) → ask_trusted now origin (id :: ids) keys servers d = (Ok (keys, false), d)) as Ha.
  { intros servers d. induction servers as [|s servers IH]; intros Hs; cbn [ask_trusted]; [done|].
    destruct (get_remote_server_keys s origin) as [answer|] eqn:Er; [|apply IH; set_solver].
    rewrite (bind_ok _ _ d (keys, false) d); [apply IH; set_solver|]. apply use_trusted_fresh; [|done]. eapply Ht; [|done]. apply Hs. by left. }
  rewrite (bind_ok _ _ k (keys, false) k) by (unfold kdb; rewrite Ha by done; by destruct k). by eexists.
Qed.
End fetching.

(** ** Samples *)

#[global] Instance OldVerifyKey_eq_dec : EqDecision OldVerifyKey.
Proof. solve_decision. Defined.

#[global] Instance OldVerifyKey_countable : Countable OldVerifyKey :=
  inj_countable' (λ k, (expired_ts k, old_key k)) (λ x, mkOldVerifyKey x.1 x.2) ltac:(by intros []).

#[global] Instance ServerSigningKeys_eq_dec : EqDecision ServerSigningKeys.
Proof. solve_decision. Defined.

#[global] Instance ServerSigningKeys_countable : Countable ServerSigningKeys :=
  inj_countable' (λ k, (ssk_server_name k, ssk_verify_keys k, ssk_old_verify_keys k, ssk_signatures k, ssk_valid_until_ts k))
    (λ '(a, b, c, d, e), mkServerSigningKeys a b c d e) ltac:(by intros []).

Definition sample_key_json : KeyJson := {|
  key_json := json_countable ServerSigningKeys;
  signing_keys_slice bs := option_map signing_keys_from (@from_slice _ (json_countable ServerSigningKeys) bs);
  signing_keys_slice_vec k := f_equal (option_map signing_keys_from) (@from_slice_to_vec _ (json_countable ServerSigningKeys) k);
|}.
#[local] Existing Instance sample_key_json.

Definition published (keys : gmap bytes bytes) (until : Z) : ServerSigningKeys := mkServerSigningKeys (lit "b") keys ∅ VNull until.

Definition keys_db : Db := (add_signing_key_from_origin (lit "b") (published {[lit "ed25519:1" := lit "K1"]} 1000) empty_db).2.

Lemma delisted_key_is_retired_witness : ∃ keys d',
  add_signing_key_from_origin (lit "b") (published {[lit "ed25519:2" := lit "K2"]} 2000) keys_db = (Ok keys, d') ∧
  (∀ usable, filter_keys_single_server [] keys 1500 true = Some usable → usable !! lit "ed25519:1" = None) ∧
  (∃ usable, filter_keys_single_server [] keys 500 true = Some usable ∧ usable !! lit "ed25519:1" = Some (lit "K1")).
Proof.
  destruct (delisted_key_is_retired (lit "b") (published {[lit "ed25519:2" := lit "K2"]} 2000) keys_db (published {[lit "ed25519:1" := lit "K1"]} 1000)
    (lit "ed25519:1") (lit "K1") []) as (keys & d' & E & _ & H1 & H2); [reflexivity..|].
  exists keys, d'. split; [exact E|]. split.
  - intros usable Hu. destruct (usable !! lit "ed25519:1") as [x|] eqn:Ex; [|reflexivity]. exfalso.
    specialize (H1 1500 true usable Hu (ex_intro _ _ Ex)). cbn in H1. lia.
  - apply H2; cbn; [lia|lia|set_solver].
Defined.

Definition sample_key_servers : KeyServers := {|
  trusted_servers := [lit "t"];
  get_server_keys _ := None;
  get_remote_server_keys _ _ := Some [published {[lit "ed25519:1" := lit "K1"]} 100000000];
  get_remote_server_keys_batch _ _ := None;
|}.

Lemma fresh_trusted_keys_discarded_witness : ∃ k',
  fetch_signing_keys (KS := sample_key_servers) (lit "a") (lit "v") (lit "P") 5 (lit "b") [lit "ed25519:1"] true (mkKeyring empty_db ∅ ∅ ∅) =
    (Err (BadServerResponse "Failed to find public key for server"), k') ∧ k_db k' = empty_db.
Proof.
  apply (fresh_trusted_keys_discarded (KS := sample_key_servers) (lit "a") (lit "v") (lit "P") 5 (lit "b") (lit "ed25519:1") [] (mkKeyring empty_db ∅ ∅ ∅)).
  - reflexivity.
  - reflexivity.
  - discriminate.
  - reflexivity.
  - intros server answer _ E. injection E as <-. repeat constructor. cbn. unfold ms_30_minutes. lia.
Defined.
