(* ===== verification/EventHandler.v ===== *)
(** * EventHandler: events from other servers

    [server/src/service/rooms/event_handler/mod.rs]: an incoming event is
    checked and stored as an outlier, its missing auth and previous events are
    fetched, the state before it is found, and it is authorised against that
    state and the current one before it enters the timeline.  The other
    servers, ruma's signature checks, authorisation rules, state resolution
    and sorting are parameters; room locks are not modelled. *)
From S2P Require Import Prelude Bytes JsonValue KvTree Pdu Database Short StateCompressor RoomState StateCache.
From S2P Require Import Timeline PduJson UserKeys AuthChain RoomTables Sending StateAccess Appservice TimelineService ServerKeys.

(** * State *)

(** The services, the back-offs and key collection, and the event each room is
    busy with. *)
Record Handler := mkHandler {
  h_server : Server;
  h_bad_event : gmap bytes (Z * Z);
  h_bad_signature : gmap (list bytes) (Z * Z);
  h_pub_keys : gmap bytes SigningKeys;
  roomid_federationhandletime : gmap bytes (bytes * Z);
}.

Definition hs {A} (m : M Server A) : M Handler A := λ h,
  let '(r, s) := m (h_server h) in (r, mkHandler s (h_bad_event h) (h_bad_signature h) (h_pub_keys h) (roomid_federationhandletime h)).

Definition hdb {A} (m : M Db A) : M Handler A := hs (db_ m).

(** The key functions, on their part of the state. *)
Definition hk {A} (m : M Keyring A) : M Handler A := λ h,
  let '(r, k) := m (mkKeyring (sv_db (h_server h)) (h_bad_event h) (h_bad_signature h) (h_pub_keys h)) in
  (r, mkHandler (db_ (λ _, (Ok tt, k_db k)) (h_server h)).2 (bad_event_ratelimiter k) (bad_signature_ratelimiter k) (pub_key_map k)
        (roomid_federationhandletime h)).

Definition set_handling (f : gmap bytes (bytes * Z) → gmap bytes (bytes * Z)) : M Handler unit :=
  modify (λ h, mkHandler (h_server h) (h_bad_event h) (h_bad_signature h) (h_pub_keys h) (f (roomid_federationhandletime h))).

(** The failure of an event, and whether it must still wait. *)
Definition back_off_event (now : Z) (id : bytes) : M Handler unit := hk (set_bad_event (back_off now id)).

Definition must_wait (now : Z) (id : bytes) : M Handler bool := gets (λ h, backing_off (5 * 60) now id (h_bad_event h)).

(** * The libraries and the other servers *)

Inductive Verified := VerifiedAll | VerifiedSignatures.

(** ruma; a check that calls back into the services runs on their state. *)
Class EventChecks {RV : RoomVersions} := {
  (** [serde_json::from_str] of an event, and the reference hash *)
  Raw : Type;
  parse_event : Raw → option CanonicalJsonObject;
  reference_hash : bytes → CanonicalJsonObject → option bytes;
  check_pdu_format : bytes → CanonicalJsonObject → bool;
  enforce_key_validity : bytes → bool;
  verify_event : gmap bytes (gmap bytes bytes) → CanonicalJsonObject → bytes → option Verified;
  redact_object : RedactRules → CanonicalJsonObject → option CanonicalJsonObject;
  pdu_of_object : CanonicalJsonObject → option PduEvent;
  (** the event id of a create event that names the room *)
  create_event_id_of : bytes → option bytes;
  check_state_independent_auth_rules : ∀ {S}, AuthRules → PduEvent → (bytes → M S (option PduEvent)) → M S bool;
  check_state_dependent_auth_rules : ∀ {S}, AuthRules → PduEvent → (bytes → bytes → M S (option PduEvent)) → M S bool;
  (** [state_res::resolve]: forks, their auth chains, events, and the conflicted
      subgraph of a conflicted state *)
  resolve : ∀ {S}, AuthRules → list (gmap (bytes * bytes) bytes) → list (list bytes) → (bytes → M S (option PduEvent)) →
    (gmap (bytes * bytes) (list bytes) → M S (option (gset bytes))) → M S (option (gmap (bytes * bytes) bytes));
  reverse_topological_power_sort : gmap bytes (gset bytes) → (bytes → Z) → option (list bytes);
  (** [RoomServerAclEventContent] *)
  acl_of : bytes → option (bytes → bool);
  (** the checks touch the services only through their callbacks *)
  independent_calls : ∀ S (I : S → Prop) rules pdu f, (∀ id, preserves I (f id)) → preserves I (check_state_independent_auth_rules rules pdu f);
  dependent_calls : ∀ S (I : S → Prop) rules pdu f, (∀ k s, preserves I (f k s)) → preserves I (check_state_dependent_auth_rules rules pdu f);
  resolve_calls : ∀ S (I : S → Prop) rules forks chains f g, (∀ id, preserves I (f id)) → (∀ css, preserves I (g css)) →
    preserves I (resolve rules forks chains f g);
}.

Class Federation {RV : RoomVersions} {EC : EventChecks} := {
  get_event : bytes → bytes → option Raw;
  get_room_state_ids : bytes → bytes → bytes → res (list bytes);
  max_fetch_prev_events : Z;
  ignored_keys : list bytes;
}.

(** Iteration of a [HashMap]: any order. *)
Class MapOrder := {
  map_iter : ∀ {K V} `{Countable K}, gmap K V → list (K * V);
  map_iter_perm : ∀ {K V} `{Countable K} (m : gmap K V), map_iter m ≡ₚ map_to_list m;
}.

(** The index of the timeline. *)
Definition timeline_index (s : Server) : Tree := kv (sv_db s) eventid_pduid.

(** ** What the handler asks of the timeline service *)
Class TimelineWriter := {
  append_incoming : PduEvent → CanonicalJsonObject → list bytes → gset bytes → bool → M Server (option bytes);
  force_room_state : bytes → Z → gset bytes → M Server unit;
  (** appending indexes the event and no other; a soft-failed one is not *)
  append_index : ∀ pdu json leaves state soft_fail s e,
    e ≠ pdu_event_id pdu ∨ soft_fail = true → timeline_index (append_incoming pdu json leaves state soft_fail s).2 !! e = timeline_index s !! e;
  force_index : ∀ room hash new s, timeline_index (force_room_state room hash new s).2 = timeline_index s;
}.

Section handler.
Context {RU : Ruma} {LR : LruCache} {HO : HashOrder} {MO : MapOrder} {CT : Contents} {RV : RoomVersions} {EC : EventChecks} {FE : Federation}.
Context {KJ : KeyJson} {KS : KeyServers} {TW : TimelineWriter}.
Context `{JP : !Json PduEvent} `{JM : !Json Tree} `{JF : !Json CanonicalJsonObject} `{JR : !Json RedactionContent}.
Context (sha256 : bytes → bytes) (own_name own_version own_public_key : bytes).
Context (auth_types_for_event : bytes → bytes → option bytes → bytes → AuthRules → option (list (bytes * bytes))).

(** * Helpers *)

Definition check_room_id (room_id : bytes) (pdu : PduEvent) : M Handler unit :=
  r ← lift (Database.room_id pdu);
  if bool_decide (r ≠ room_id) then fail (BadRequest InvalidParam "Event has wrong room id") else mret tt.

(** Returns [Ok] if the acl allows the server. *)
Definition acl_check (server_name room_id : bytes) : M Handler unit :=
  o ← hdb (room_state_get room_id (lit "m.room.server_acl") []);
  match o with
  | None => mret tt
  | Some acl_event =>
      match acl_of (pdu_content acl_event) with
      | None => mret tt
      | Some is_allowed =>
          if is_allowed server_name then mret tt else fail (BadRequest Forbidden "Server was denied by room ACL")
      end
  end.

Definition first_pdu_in_room (room_id : bytes) : M Db (option PduEvent) :=
  it ← pdus_after (lit "@doesntmatter:conduit.rs") room_id PduCount_min;
  match it with
  | [] => mret None
  | o :: _ => '(_, p) ← lift o; mret (Some p)
  end.

(** The room version of a create event; its rules must be known. *)
Definition version_of (create_event : PduEvent) : res bytes :=
  content ← ok_or (create_of (pdu_content create_event)) (BadDatabase "Invalid create event in db");
  Ok (cc_room_version content).

Definition rules_of (room_version : bytes) : res AuthRules := expect (authorization_rules room_version).

(** * Outliers *)

(** Build the map of auth events: by id, and by type and state key. *)
Definition insert_auth_event (acc : gmap (bytes * bytes) PduEvent * gmap bytes PduEvent) (id : bytes)
    : M Handler (gmap (bytes * bytes) PduEvent * gmap bytes PduEvent) :=
  let '(auth_events, by_id) := acc in
  o ← hdb (get_pdu id);
  match o with
  | None => mret acc
  | Some auth_event =>
      state_key ← lift (expect (pdu_state_key auth_event));
      mret (<[(pdu_kind auth_event, state_key) := auth_event]> auth_events, <[pdu_event_id auth_event := auth_event]> by_id)
  end.

Definition collect_auth_events (rules : AuthRules) (incoming_pdu : PduEvent)
    : M Handler (gmap (bytes * bytes) PduEvent * gmap bytes PduEvent) :=
  acc ← foldM insert_auth_event (∅, ∅) (pdu_auth_events incoming_pdu);
  (* Create event is always needed to authorize any event (besides the create events itself) *)
  if room_create_event_id_as_room_id rules then
    match pdu_room_id incoming_pdu with
    | Some room_id =>
        event_id ← lift (ok_or (create_event_id_of room_id)
          (BadRequest InvalidParam "Room ID cannot be converted to event ID, despite room version rules requiring so."));
        insert_auth_event acc event_id
    | None => mret acc
    end
  else mret acc.

(** Steps 1.1 to 4: the event with its id, redacted when the hash is wrong. *)
Definition verify_incoming (now : Z) (room_version event_id : bytes) (value : CanonicalJsonObject) : M Handler CanonicalJsonObject :=
  let value := remove_json_field (lit "unsigned") value in
  lift (rules_of room_version);;
  (if check_pdu_format room_version value then mret tt else fail (BadRequest InvalidParam "Received Invalid PDU"));;
  hk (fetch_required_signing_keys own_name own_version own_public_key now value);;
  filtered_keys ← hk (filter_required_signing_keys ignored_keys value (enforce_key_validity room_version));
  val ← match verify_event filtered_keys value room_version with
    | None => fail (BadRequest InvalidParam "Signature verification failed")
    | Some VerifiedSignatures =>
        redaction ← lift (expect (redaction_rules room_version));
        obj ← lift (ok_or (redact_object redaction value) (BadRequest InvalidParam "Redaction failed"));
        (* Skip the PDU if it is redacted and we already have it as an outlier event *)
        o ← hdb (get_pdu_json event_id : M Db (option CanonicalJsonObject));
        match o with
        | Some _ => fail (BadRequest InvalidParam "Event was redacted and we already knew about it")
        | None => mret obj
        end
    | Some VerifiedAll => mret value
    end;
  mret (set_json_field (lit "event_id") (VString event_id) val).

(** Step 7: the event passes the rules under its auth events. *)
Definition check_auth_events (rules : AuthRules) (incoming_pdu : PduEvent) : M Handler unit :=
  '(auth_events, by_id) ← collect_auth_events rules incoming_pdu;
  independent ← check_state_independent_auth_rules rules incoming_pdu (λ id, mret (by_id !! id));
  dependent ← (if (independent : bool) then check_state_dependent_auth_rules rules incoming_pdu (λ k s, mret (auth_events !! (k, s))) else mret false);
  if (dependent : bool) then mret tt else fail (BadRequest InvalidParam "Auth check failed").

(** [handle_outlier_pdu]; [fetch_auth_events] is step 5, for an event whose auth
    events are not known. *)
Definition handle_outlier (fetch_auth_events : list bytes → M Handler unit) (now : Z) (create_event : PduEvent) (event_id room_id : bytes)
    (value : CanonicalJsonObject) : M Handler (PduEvent * CanonicalJsonObject) :=
  room_version ← lift (version_of create_event);
  val ← verify_incoming now room_version event_id value;
  incoming_pdu ← lift (ok_or (pdu_of_object val) (BadDatabase "Event is not a valid PDU."));
  check_room_id room_id incoming_pdu;;
  fetch_auth_events (pdu_auth_events incoming_pdu);;
  rules ← lift (rules_of room_version);
  check_auth_events rules incoming_pdu;;
  (* 8. Persist the event as an outlier. *)
  hdb (add_pdu_outlier (pdu_event_id incoming_pdu) val);;
  mret (incoming_pdu, val).

(** * Fetching outliers *)

(** [gen_event_id_canonical_json]. *)
Definition gen_event_id_canonical_json (room_version : bytes) (pdu : Raw) : res (bytes * CanonicalJsonObject) :=
  value ← ok_or (parse_event pdu) (BadServerResponse "Invalid PDU in server response");
  hash ← ok_or (reference_hash room_version value) (BadRequest BadJson "Invalid PDU format");
  Ok (lit "$" ++ hash, value).

(** The ids an event names as auth events, those that are ids. *)
Definition named_auth_events (value : CanonicalJsonObject) : list bytes :=
  match field (lit "auth_events") value with
  | Some (VArray l) => omap (λ v, match v with VString s => if event_id_ok s then Some s else None | _ => None end) l
  | _ => []
  end.

(** The rounds of the loop that fetches an event and its auth chain: the events
    still to do (the last first), those fetched, and their ids. *)
Record Fetching := mkFetching {
  todo_auth_events : list bytes;
  events_in_reverse_order : list (bytes * CanonicalJsonObject);
  events_all : gset bytes;
}.

Definition fetch_round (now : Z) (origin room_version next_id : bytes) (f : Fetching) : M Handler Fetching :=
  wait ← must_wait now next_id;
  if (wait : bool) then mret f else
  if bool_decide (next_id ∈ events_all f) then mret f else
  o ← try_ok (hdb (get_pdu next_id));
  match o with
  | Some (Some _) => mret f
  | _ =>
      match get_event origin next_id with
      | Some pdu =>
          match gen_event_id_canonical_json room_version pdu with
          | Ok (_, value) =>
              mret (mkFetching (rev (named_auth_events value) ++ todo_auth_events f) (events_in_reverse_order f ++ [(next_id, value)])
                      ({[next_id]} ∪ events_all f))
          | _ => back_off_event now next_id;; mret f
          end
      | None => back_off_event now next_id;; mret f
      end
  end.

Fixpoint fetch_rounds (fuel : nat) (now : Z) (origin room_version : bytes) (f : Fetching) : M Handler Fetching :=
  match fuel with
  | O => mret f
  | S fuel =>
      match todo_auth_events f with
      | [] => mret f
      | next_id :: todo =>
          f ← fetch_round now origin room_version next_id (mkFetching todo (events_in_reverse_order f) (events_all f));
          fetch_rounds fuel now origin room_version f
      end
  end.

(** Authenticate the fetched events, the oldest first; the one asked for is
    returned. *)
Definition handle_fetched (now : Z) (create_event : PduEvent) (room_id id : bytes)
    (pdus : list (PduEvent * option CanonicalJsonObject)) (e : bytes * CanonicalJsonObject) : M Handler (list (PduEvent * option CanonicalJsonObject)) :=
  let '(next_id, value) := e in
  wait ← must_wait now next_id;
  if (wait : bool) then mret pdus else
  r ← try_ok (handle_outlier (λ _, mret tt) now create_event next_id room_id value);
  match r with
  | Some (pdu, json) => mret (if bool_decide (next_id = id) then pdus ++ [(pdu, Some json)] else pdus)
  | None => back_off_event now next_id;; mret pdus
  end.

(** Find the event and auth it: in the database, or over federation with its
    auth chain. *)
Definition fetch_and_handle_outlier (fuel : nat) (now : Z) (origin room_version : bytes) (create_event : PduEvent) (room_id : bytes)
    (pdus : list (PduEvent * option CanonicalJsonObject)) (id : bytes) : M Handler (list (PduEvent * option CanonicalJsonObject)) :=
  o ← try_ok (hdb (get_pdu id));
  match o with
  | Some (Some local_pdu) => mret (pdus ++ [(local_pdu, None)])
  | _ =>
      f ← fetch_rounds fuel now origin room_version (mkFetching [id] [] ∅);
      foldM (handle_fetched now create_event room_id id) pdus (rev (events_in_reverse_order f))
  end.

Definition fetch_and_handle_outliers (fuel : nat) (now : Z) (origin room_version : bytes) (create_event : PduEvent) (room_id : bytes)
    (events : list bytes) : M Handler (list (PduEvent * option CanonicalJsonObject)) :=
  foldM (fetch_and_handle_outlier fuel now origin room_version create_event room_id) [] events.

(** The whole of [handle_outlier_pdu]. *)
Definition handle_outlier_pdu (fuel : nat) (now : Z) (origin : bytes) (create_event : PduEvent) (event_id room_id : bytes)
    (value : CanonicalJsonObject) (auth_events_known : bool) : M Handler (PduEvent * CanonicalJsonObject) :=
  room_version ← lift (version_of create_event);
  handle_outlier (λ auth_events,
    if auth_events_known then mret tt
    else fetch_and_handle_outliers fuel now origin room_version create_event room_id auth_events;; mret tt) now create_event event_id room_id value.

(** * Missing previous events *)

Abbreviation Known := (gmap bytes (PduEvent * CanonicalJsonObject)).

(** The loop over previous events: those to visit (the last first), the graph,
    what is known of them, and how many were followed. *)
Record PrevSearch := mkPrevSearch {
  todo_outlier_stack : list bytes;
  prev_graph : gmap bytes (gset bytes);
  eventid_info : Known;
  amount : Z;
}.

Definition leaf (id : bytes) (p : PrevSearch) : PrevSearch :=
  mkPrevSearch (todo_outlier_stack p) (<[id := ∅]> (prev_graph p)) (eventid_info p) (amount p).

Definition visit_prev (fuel : nat) (now : Z) (origin room_version : bytes) (create_event : PduEvent) (room_id : bytes) (first_ts : Z)
    (prev_event_id : bytes) (p : PrevSearch) : M Handler PrevSearch :=
  pdus ← fetch_and_handle_outliers fuel now origin room_version create_event room_id [prev_event_id];
  match last pdus with
  (* Fetch and handle failed *)
  | None => mret (leaf prev_event_id p)
  | Some (pdu, json_opt) =>
      check_room_id room_id pdu;;
      (* Max limit reached *)
      if max_fetch_prev_events <? amount p then mret (leaf prev_event_id p) else
      o ← match json_opt with
        | Some json => mret (Some json)
        | None => o ← try_ok (hdb (get_outlier_pdu_json prev_event_id : M Db (option CanonicalJsonObject))); mret (default None o)
        end;
      match o with
      (* Get json failed, so this was not fetched over federation *)
      | None => mret (leaf prev_event_id p)
      | Some json =>
          let p := if first_ts <? pdu_origin_server_ts pdu then
              let new := bfilter (λ prev_prev, negb (bool_decide (is_Some (prev_graph p !! prev_prev)))) (pdu_prev_events pdu) in
              mkPrevSearch (rev new ++ todo_outlier_stack p) (<[prev_event_id := list_to_set (pdu_prev_events pdu)]> (prev_graph p))
                (eventid_info p) (amount p + 1)
            (* Time based check failed *)
            else leaf prev_event_id p in
          mret (mkPrevSearch (todo_outlier_stack p) (prev_graph p) (<[prev_event_id := (pdu, json)]> (eventid_info p)) (amount p))
      end
  end.

Fixpoint search_prev (rounds fuel : nat) (now : Z) (origin room_version : bytes) (create_event : PduEvent) (room_id : bytes) (first_ts : Z)
    (p : PrevSearch) : M Handler PrevSearch :=
  match rounds with
  | O => mret p
  | S rounds =>
      match todo_outlier_stack p with
      | [] => mret p
      | prev_event_id :: todo =>
          p ← visit_prev fuel now origin room_version create_event room_id first_ts prev_event_id
                (mkPrevSearch todo (prev_graph p) (eventid_info p) (amount p));
          search_prev rounds fuel now origin room_version create_event room_id first_ts p
      end
  end.

Definition fetch_unknown_prev_events (rounds fuel : nat) (now : Z) (origin room_version : bytes) (create_event : PduEvent) (room_id : bytes)
    (initial_set : list bytes) : M Handler (list bytes * Known) :=
  o ← hdb (first_pdu_in_room room_id);
  first_pdu ← lift (ok_or o (BadDatabase "Failed to find first pdu in db."));
  p ← search_prev rounds fuel now origin room_version create_event room_id (pdu_origin_server_ts first_pdu)
        (mkPrevSearch (rev initial_set) ∅ ∅ 0);
  sorted ← lift (ok_or (reverse_topological_power_sort (prev_graph p)
    (λ id, match eventid_info p !! id with Some info => pdu_origin_server_ts info.1 | None => 0 end)) (BadDatabase "Error sorting prev events"));
  mret (sorted, eventid_info p).

(** * The state before an event *)

(** The entry of an event in a state. *)
Definition add_own_entry (pdu : PduEvent) (event_id : bytes) (state : gmap Z bytes) : M Handler (gmap Z bytes) :=
  match pdu_state_key pdu with
  | Some state_key =>
      shortstatekey ← hdb (get_or_create_shortstatekey (pdu_kind pdu) state_key);
      mret (<[shortstatekey := event_id]> state)
  | None => mret state
  end.

(** One previous event: the state after it, if the state before it is known. *)
Definition state_after_prev (prev_event : bytes) : M Handler (option (gmap Z bytes)) :=
  o ← hdb (pdu_shortstatehash prev_event);
  state ← match o with Some shortstatehash => try_ok (hdb (state_full_ids shortstatehash)) | None => mret None end;
  match state with
  | None => mret None
  | Some state =>
      o ← try_ok (hdb (get_pdu prev_event));
      prev_pdu ← lift (ok_or (default None o) (BadDatabase "Could not find prev event, but we know the state."));
      state ← add_own_entry prev_pdu prev_event state;
      mret (Some state)
  end.

(** Several previous events: the events by the state before them; nothing if
    one of them or its state is missing. *)
Fixpoint extremity_states (prev_events : list bytes) (acc : gmap Z PduEvent) : M Handler (option (gmap Z PduEvent)) :=
  match prev_events with
  | [] => mret (Some acc)
  | prev_eventid :: prev_events =>
      o ← try_ok (hdb (get_pdu prev_eventid));
      match default None o with
      | None => mret None
      | Some prev_event =>
          o ← try_ok (hdb (pdu_shortstatehash prev_eventid));
          match default None o with
          | None => mret None
          | Some sstatehash => extremity_states prev_events (<[sstatehash := prev_event]> acc)
          end
      end
  end.

(** A state by type and key; keys that are not known are left out. *)
Definition statekeys (state : gmap Z bytes) : M Handler (gmap (bytes * bytes) bytes) :=
  foldM (λ acc '(k, id), o ← try_ok (hdb (get_statekey_from_short k)); mret (match o with Some tk => <[tk := id]> acc | None => acc end))
    ∅ (map_iter state).

(** One fork: the state after the event, with the auth chain of its events. *)
Definition fork_of (room_id : bytes) (sstatehash : Z) (prev_event : PduEvent) : M Handler (gmap (bytes * bytes) bytes * list bytes) :=
  leaf_state ← hdb (state_full_ids sstatehash);
  leaf_state ← add_own_entry prev_event (pdu_event_id prev_event) leaf_state;
  state ← statekeys leaf_state;
  chain ← hdb (get_auth_chain room_id (map_iter leaf_state).*2);
  mret (state, chain).

(** The callbacks of state resolution. *)
Definition fetch_event (id : bytes) : M Handler (option PduEvent) := o ← try_ok (hdb (get_pdu id)); mret (default None o).

(** ** The conflicted state subgraph *)

(** [Vec::pop]. *)
Definition vec_pop {A} (l : list A) : option (A * list A) :=
  match rev l with [] => None | x :: r => Some (x, rev r) end.

(** The top of the stack comes first; the path is extended at its head. *)
Fixpoint next_event (stack : list (list bytes)) (path : list bytes) : option (bytes * list (list bytes) * list bytes) :=
  match stack with
  | [] => None
  | s :: stack' =>
      match vec_pop s with
      | Some (x, s') => Some (x, s' :: stack', path)
      | None => next_event stack' (tail path)
      end
  end.

Fixpoint subgraph_search (fuel : nat) (room_id : bytes) (conflicted : gset bytes) (stack : list (list bytes)) (path : list bytes)
    (subgraph seen : gset bytes) : M Db (gset bytes) :=
  match fuel with
  | O => lift Panic
  | S fuel =>
      match next_event stack path with
      | None => mret subgraph
      | Some (event_id, stack, path') =>
          let path := event_id :: path' in
          let on_path := bool_decide (1 < length path)%nat in
          if bool_decide (event_id ∈ subgraph) then
            subgraph_search fuel room_id conflicted stack path' (if on_path then list_to_set path ∪ subgraph else subgraph) seen
          else
            let subgraph := if bool_decide (event_id ∈ conflicted) && on_path then list_to_set path ∪ subgraph else subgraph in
            if bool_decide (event_id ∈ seen) then subgraph_search fuel room_id conflicted stack path' subgraph seen else
            o ← get_pdu event_id;
            match o with
            | None => fail (BadDatabase "Missing auth event for PDU stored in database")
            | Some pdu =>
                r ← lift (Database.room_id pdu);
                if bool_decide (r ≠ room_id) then fail (BadRequest Forbidden "Evil event in db")
                else subgraph_search fuel room_id conflicted (pdu_auth_events pdu :: stack) path subgraph ({[event_id]} ∪ seen)
            end
      end
  end.

(** Every event is expanded once, so the rounds are bounded by the auth events
    that stored events name. *)
Definition subgraph_fuel (d : Db) (n : nat) : nat :=
  S (n + length (mjoin ((λ e : entry, match (from_slice e.2 : option PduEvent) with
                         | Some pdu => pdu_auth_events pdu
                         | None => []
                         end) <$> (entries (kv d pduid_pdu) ++ entries (kv d eventid_outlierpdu))))).

Definition get_conflicted_state_subgraph (room_id : bytes) (conflicted_state_set : gmap (bytes * bytes) (list bytes)) : M Db (gset bytes) := λ d,
  let conflicted := list_to_set (mjoin (map_to_list conflicted_state_set).*2) in
  subgraph_search (subgraph_fuel d (size conflicted)) room_id conflicted [hash_iter conflicted] [] ∅ ∅ d.

Definition subgraph_callback (room_id : bytes) (css : gmap (bytes * bytes) (list bytes)) : M Handler (option (gset bytes)) :=
  try_ok (hdb (get_conflicted_state_subgraph room_id css)).

(** * From outlier to timeline *)

(** The short keys of a resolved state. *)
Definition shorten (state : gmap (bytes * bytes) bytes) : M Handler (gmap Z bytes) :=
  foldM (λ acc '((event_type, state_key), event_id),
    shortstatekey ← hdb (get_or_create_shortstatekey event_type state_key);
    mret (<[shortstatekey := event_id]> acc)) ∅ (map_iter state).

(** The state before the event, by resolving the states after its previous
    events. *)
Definition state_by_resolution (room_id : bytes) (rules : AuthRules) (prev_events : list bytes) : M Handler (option (gmap Z bytes)) :=
  o ← extremity_states prev_events ∅;
  match o with
  | None => mret None
  | Some extremity_sstatehashes =>
      '(fork_states, auth_chain_sets) ← foldM (λ '(states, chains) '(sstatehash, prev_event),
        '(state, chain) ← fork_of room_id sstatehash prev_event;
        mret (states ++ [state], chains ++ [chain])) ([], []) (map_iter extremity_sstatehashes);
      result ← resolve rules fork_states auth_chain_sets fetch_event (subgraph_callback room_id);
      match result with
      | None => mret None
      | Some new_state => state ← shorten new_state; mret (Some state)
      end
  end.

(** The state before the event, as the origin tells it; the events are fetched
    and checked. *)
Definition state_from_origin (fuel : nat) (now : Z) (origin room_version : bytes) (create_event : PduEvent) (room_id event_id : bytes)
    : M Handler (gmap Z bytes) :=
  pdu_ids ← lift (get_room_state_ids origin room_id event_id);
  state_vec ← fetch_and_handle_outliers fuel now origin room_version create_event room_id pdu_ids;
  state ← foldM (λ (state : gmap Z bytes) '(pdu, _),
    state_key ← lift (ok_or (pdu_state_key pdu) (BadDatabase "Found non-state pdu in state events."));
    shortstatekey ← hdb (get_or_create_shortstatekey (pdu_kind pdu) state_key);
    match state !! shortstatekey with
    | None => mret (<[shortstatekey := pdu_event_id pdu]> state)
    | Some _ => fail (BadDatabase "State event's type and state_key combination exists multiple times.")
    end) ∅ state_vec;
  (* The original create event must still be in the state *)
  o ← hdb (get_shortstatekey (lit "m.room.create") []);
  create_shortstatekey ← lift (expect o);
  if bool_decide (state !! create_shortstatekey = Some (pdu_event_id create_event)) then mret state
  else fail (BadDatabase "Incoming event refers to wrong create event.").

Definition state_before (fuel : nat) (now : Z) (origin room_version : bytes) (rules : AuthRules) (create_event : PduEvent) (room_id : bytes)
    (incoming_pdu : PduEvent) : M Handler (gmap Z bytes) :=
  o ← match pdu_prev_events incoming_pdu with
    | [prev_event] => state_after_prev prev_event
    | prev_events => state_by_resolution room_id rules prev_events
    end;
  match o with
  | Some state => mret state
  | None => state_from_origin fuel now origin room_version create_event room_id (pdu_event_id incoming_pdu)
  end.

(** An event of a state, for the auth check. *)
Definition lookup_in_state (state : gmap Z bytes) (k s : bytes) : M Handler (option PduEvent) :=
  o ← try_ok (hdb (get_shortstatekey k s));
  match default None o ≫= λ shortstatekey, state !! shortstatekey with
  | Some event_id => fetch_event event_id
  | None => mret None
  end.

(** Whether the event fails under the current state. *)
Definition soft_fails (room_version : bytes) (rules : AuthRules) (room_id : bytes) (incoming_pdu : PduEvent) : M Handler bool :=
  auth_events ← hdb (get_auth_events auth_types_for_event room_id (pdu_kind incoming_pdu) (pdu_sender incoming_pdu) (pdu_state_key incoming_pdu)
                       (pdu_content incoming_pdu) rules);
  allowed ← check_state_dependent_auth_rules rules incoming_pdu (λ k s, mret (auth_events !! (k, s)));
  if negb allowed then mret true else
  if bool_decide (pdu_kind incoming_pdu ≠ lit "m.room.redaction") then mret false else
  redaction ← lift (expect (redaction_rules room_version));
  redacts ← (if content_field_redacts redaction then
      content ← lift (ok_or (from_slice (pdu_content incoming_pdu) : option RedactionContent) (BadDatabase "Invalid content in redaction pdu."));
      mret (rc_redacts content)
    else mret (pdu_redacts incoming_pdu));
  match redacts with
  | Some redact_id =>
      room ← lift (Database.room_id incoming_pdu);
      can ← hdb (user_can_redact redact_id (pdu_sender incoming_pdu) room true);
      mret (negb can)
  | None => mret false
  end.

(** The leaves of the room that the event does not replace. *)
Definition remaining_extremities (room_id : bytes) (incoming_pdu : PduEvent) : M Handler (gset bytes) :=
  extremities ← hdb (get_forward_extremities room_id);
  foldM (λ kept id,
    o ← try_ok (hdb (is_event_referenced room_id id));
    mret (match o with Some true => kept | _ => {[id]} ∪ kept end)) ∅
    (hash_iter (extremities ∖ list_to_set (pdu_prev_events incoming_pdu))).

Definition compress_state (state : gmap Z bytes) : M Handler (gset bytes) :=
  foldM (λ acc '(shortstatekey, id), c ← hdb (compress_state_event shortstatekey id); mret ({[c]} ∪ acc)) ∅ (map_iter state).

(** The new room state, from the current one and the incoming one. *)
Definition resolve_state (room_id : bytes) (rules : AuthRules) (incoming_state : gmap Z bytes) : M Handler (gset bytes) :=
  o ← hdb (get_room_shortstatehash room_id);
  current_sstatehash ← lift (expect o);
  current_state_ids ← hdb (state_full_ids current_sstatehash);
  chain1 ← hdb (get_auth_chain room_id (map_iter current_state_ids).*2);
  chain2 ← hdb (get_auth_chain room_id (map_iter incoming_state).*2);
  fork1 ← statekeys current_state_ids;
  fork2 ← statekeys incoming_state;
  o ← resolve rules [fork1; fork2] [chain1; chain2] fetch_event (subgraph_callback room_id);
  state ← lift (ok_or o (BadDatabase "State resolution failed, either an event could not be found or deserialization"));
  foldM (λ acc '((event_type, state_key), event_id),
    shortstatekey ← hdb (get_or_create_shortstatekey event_type state_key);
    c ← hdb (compress_state_event shortstatekey event_id);
    mret ({[c]} ∪ acc)) ∅ (map_iter state).

(** Step 14: a state event changes the state of the room. *)
Definition update_room_state (room_id : bytes) (rules : AuthRules) (incoming_pdu : PduEvent) (state_at_incoming_event : gmap Z bytes) : M Handler unit :=
  match pdu_state_key incoming_pdu with
  | None => mret tt
  | Some _ =>
      state_after ← add_own_entry incoming_pdu (pdu_event_id incoming_pdu) state_at_incoming_event;
      new_room_state ← resolve_state room_id rules state_after;
      '(sstatehash, new, removed) ← hdb (save_state sha256 room_id new_room_state);
      hs (force_room_state room_id sstatehash new)
  end.

Definition upgrade_outlier_to_timeline_pdu (fuel : nat) (now : Z) (incoming_pdu : PduEvent) (val : CanonicalJsonObject) (create_event : PduEvent)
    (origin room_id : bytes) : M Handler (option bytes) :=
  (* Skip the PDU if we already have it as a timeline event *)
  o ← try_ok (hdb (get_pdu_id (pdu_event_id incoming_pdu)));
  match default None o with
  | Some pduid => mret (Some pduid)
  | None =>
      failed ← hdb (is_event_soft_failed (pdu_event_id incoming_pdu));
      if (failed : bool) then fail (BadRequest InvalidParam "Event has been soft failed") else
      room_version ← lift (version_of create_event);
      rules ← lift (rules_of room_version);
      (* 11. the state before the event *)
      state_at_incoming_event ← state_before fuel now origin room_version rules create_event room_id incoming_pdu;
      (* 12. Check the auth of the event passes based on the state of the event *)
      allowed ← check_state_dependent_auth_rules rules incoming_pdu (lookup_in_state state_at_incoming_event);
      if negb allowed then fail (BadDatabase "Event has failed auth check with state at the event.") else
      soft_fail ← soft_fails room_version rules room_id incoming_pdu;
      (* 14. Use state resolution to find new room state *)
      extremities ← remaining_extremities room_id incoming_pdu;
      state_ids_compressed ← compress_state state_at_incoming_event;
      update_room_state room_id rules incoming_pdu state_at_incoming_event;;
      (* 15. Check if the event passes auth based on the current state of the room, if not soft fail it *)
      if (soft_fail : bool) then
        hs (append_incoming incoming_pdu val (hash_iter extremities) state_ids_compressed true);;
        hdb (mark_event_soft_failed (pdu_event_id incoming_pdu));;
        fail (BadRequest InvalidParam "Event has been soft failed")
      else
        hs (append_incoming incoming_pdu val (hash_iter ({[pdu_event_id incoming_pdu]} ∪ extremities)) state_ids_compressed false)
  end.

(** * Incoming events *)

Definition check_enabled (room_id : bytes) : M Handler unit :=
  b ← hdb (is_disabled room_id);
  if (b : bool) then fail (BadRequest Forbidden "Federation of this room is currently disabled on this server.") else mret tt.

(** One fetched previous event; the loop carries what is left of the events and
    the errors so far. *)
Definition handle_prev (fuel : nat) (now : Z) (origin room_id : bytes) (create_event : PduEvent) (first_ts : Z) (acc : Known * Z) (prev_id : bytes)
    : M Handler (Known * Z) :=
  let '(info, errors) := acc in
  check_enabled room_id;;
  wait ← must_wait now prev_id;
  if (wait : bool) then mret acc else
  if 5 <=? errors then back_off_event now prev_id;; mret acc else
  match info !! prev_id with
  | None => mret acc
  | Some (pdu, json) =>
      let info := delete prev_id info in
      if pdu_origin_server_ts pdu <? first_ts then mret (info, errors) else
      set_handling (λ m, <[room_id := (prev_id, now)]> m);;
      r ← try_ok (upgrade_outlier_to_timeline_pdu fuel now pdu json create_event origin room_id);
      errors ← match r with
        | Some _ => mret errors
        | None => back_off_event now prev_id;; mret (errors + 1)
        end;
      set_handling (λ m, delete room_id m);;
      mret (info, errors)
  end.

(** What is known of an incoming event once its previous events are there: the
    create event of the room and its version, the time of the first event, the
    event, the previous events in order, and what was found of them. *)
Record Received := mkReceived {
  rc_create : PduEvent;
  rc_version : bytes;
  rc_first_ts : Z;
  rc_pdu : PduEvent;
  rc_val : CanonicalJsonObject;
  rc_prevs : list bytes;
  rc_info : Known;
}.

(** Steps 0 to 10, up to the loop over the previous events; [inl] is an early
    return. *)
Definition receive_pdu (rounds fuel : nat) (now : Z) (origin event_id room_id : bytes) (value : CanonicalJsonObject) (is_timeline_event : bool)
    : M Handler (option bytes + Received) :=
  (* 0. Check the server is in the room *)
  b ← hdb (room_exists room_id);
  if negb b then fail (BadRequest NotFound "Room is unknown to this server") else
  check_enabled room_id;;
  acl_check origin room_id;;
  (* 1. Skip the PDU if we already have it as a timeline event *)
  o ← hdb (get_pdu_id event_id);
  match o with
  | Some pdu_id => mret (inl (Some pdu_id))
  | None =>
      o ← hdb (room_state_get room_id (lit "m.room.create") []);
      create_event ← lift (ok_or o (BadDatabase "Failed to find create event in db."));
      room_version ← lift (version_of create_event);
      o ← hdb (first_pdu_in_room room_id);
      first_pdu ← lift (ok_or o (BadDatabase "Failed to find first pdu in db."));
      '(incoming_pdu, val) ← handle_outlier_pdu fuel now origin create_event event_id room_id value false;
      check_room_id room_id incoming_pdu;;
      (* 9. if not timeline event: stop *)
      if negb is_timeline_event then mret (inl None) else
      (* Skip old events *)
      if pdu_origin_server_ts incoming_pdu <? pdu_origin_server_ts first_pdu then mret (inl None) else
      (* 10. Fetch any missing prev events *)
      lift (rules_of room_version);;
      '(sorted_prev_events, info) ← fetch_unknown_prev_events rounds fuel now origin room_version create_event room_id (pdu_prev_events incoming_pdu);
      mret (inr (mkReceived create_event room_version (pdu_origin_server_ts first_pdu) incoming_pdu val sorted_prev_events info))
  end.

Definition handle_incoming_pdu (rounds fuel : nat) (now : Z) (origin event_id room_id : bytes) (value : CanonicalJsonObject) (is_timeline_event : bool)
    : M Handler (option bytes) :=
  received ← receive_pdu rounds fuel now origin event_id room_id value is_timeline_event;
  match received with
  | inl answer => mret answer
  | inr i =>
      foldM (handle_prev fuel now origin room_id (rc_create i) (rc_first_ts i)) (rc_info i, 0) (rc_prevs i);;
      set_handling (λ m, <[room_id := (event_id, now)]> m);;
      r ← attempt (upgrade_outlier_to_timeline_pdu fuel now (rc_pdu i) (rc_val i) (rc_create i) origin room_id);
      set_handling (λ m, delete room_id m);;
      lift r
  end.
End handler.
