(* ===== verification/EventHandlerInv.v ===== *)
(** * EventHandlerInv: what the event handler guarantees

    Proofs about [EventHandler]: which events enter the timeline, what a denied
    server can do, and when fetching ends. *)
From S2P Require Import Prelude Bytes JsonValue KvTree Pdu Database Short StateCompressor RoomState StateCache.
From S2P Require Import Timeline PduJson UserKeys AuthChain Edus RoomTables Sending StateAccess Appservice TimelineService ServerKeys EventHandler.

(** * Computations that leave the timeline index alone *)

Abbreviation keeps_index m := (keeps_field (λ d, kv d eventid_pduid) m).

Lemma kv_keeps_index {A} (m : M Db A) : keeps_kv m → keeps_index m.
Proof. intros H d. cbv beta. by rewrite H. Qed.

Lemma fixed_keeps_index {A} (m : M Db A) : keeps_field fixed m → keeps_index m.
Proof. intros H d. specialize (H d). by injection H. Qed.

Section db.
Context {RU : Ruma} {LR : LruCache} {HO : HashOrder} {CT : Contents} {RV : RoomVersions}.
Context {JP : Json PduEvent} {JM : Json Tree} {JF : Json CanonicalJsonObject}.

Lemma index_get_pdu id : keeps_index (get_pdu id).
Proof. apply kv_keeps_index, keeps_get_pdu. Qed.

Lemma index_room_state_get room t k : keeps_index (room_state_get room t k).
Proof. apply kv_keeps_index, keeps_room_state_get. Qed.
#[local] Hint Resolve index_get_pdu index_room_state_get : keeps.

Lemma index_load_info h : keeps_index (load_shortstatehash_info h).
Proof. apply kv_keeps_index, keeps_load_shortstatehash_info. Qed.

Lemma index_eventid n : keeps_index (get_eventid_from_short n).
Proof. apply kv_keeps_index, keeps_get_eventid_from_short. Qed.
#[local] Hint Resolve index_load_info index_eventid : keeps.

Lemma index_parse c : keeps_index (parse_compressed_state_event c).
Proof. unfold parse_compressed_state_event. keeps. Qed.

Lemma index_load_full h : keeps_index (load_full_state h).
Proof. unfold load_full_state. keeps. Qed.
#[local] Hint Resolve index_parse index_load_full : keeps.

Lemma index_state_full_ids h : keeps_index (state_full_ids h).
Proof. unfold state_full_ids. keeps. Qed.

Lemma index_statekey t k : keeps_index (get_or_create_shortstatekey t k).
Proof. unfold get_or_create_shortstatekey, next_count. keeps. Qed.

Lemma index_from_short k : keeps_index (get_statekey_from_short k).
Proof. unfold get_statekey_from_short. keeps. Qed.

Lemma index_shortstatekey t k : keeps_index (get_shortstatekey t k).
Proof. unfold get_shortstatekey. keeps. Qed.

Lemma index_shorteventid id : keeps_index (get_or_create_shorteventid id).
Proof. unfold get_or_create_shorteventid, next_count. keeps. Qed.
#[local] Hint Resolve index_shorteventid : keeps.

Lemma index_search fuel room todo found : keeps_index (search fuel room todo found).
Proof. revert todo found. induction fuel as [|fuel IH]; intros todo found; cbn [search]; unfold visit; keeps. Qed.
#[local] Hint Resolve index_search : keeps.

Lemma index_auth_chain room ids : keeps_index (get_auth_chain room ids).
Proof.
  unfold get_auth_chain, add_start, chain_of_chunk, chain_of_event, event_ids, get_cached_eventid_authchain, cache_auth_chain, get_eventid_from_short.
  keeps. intros d. apply index_search.
Qed.

Lemma index_subgraph room css : keeps_index (get_conflicted_state_subgraph room css).
Proof.
  intros d. unfold get_conflicted_state_subgraph. generalize (subgraph_fuel d (size (list_to_set (C := gset bytes) (mjoin (map_to_list css).*2)))) as fuel. intros fuel.
  generalize [hash_iter (list_to_set (mjoin (map_to_list css).*2))] as stack, (@nil bytes) as path, (∅ : gset bytes) as sg. intros stack path sg.
  generalize (∅ : gset bytes) as seen. intros seen. revert d stack path sg seen.
  assert (∀ stack path sg seen, keeps_index (subgraph_search fuel room (list_to_set (mjoin (map_to_list css).*2)) stack path sg seen)) as H; [|intros; apply H].
  induction fuel as [|fuel IH]; intros stack path sg seen; cbn [subgraph_search]; keeps.
Qed.

Lemma index_compress k id : keeps_index (compress_state_event k id).
Proof. unfold compress_state_event. keeps. Qed.

Lemma index_save_diff h new removed sib layers : keeps_index (save_state_from_diff h new removed sib layers).
Proof.
  unfold save_state_from_diff. generalize (reverse layers). intros l. revert new removed sib. induction l as [|x l IH]; intros new removed sib;
    cbn [save_from_stack]; unfold save_statediff; keeps.
Qed.
#[local] Hint Resolve index_save_diff : keeps.

Lemma index_save_state sha room st : keeps_index (save_state sha room st).
Proof. unfold save_state, get_or_create_shortstatehash, states_parents, next_count, get_room_shortstatehash. keeps. Qed.

Lemma index_set_event_state sha id room st : keeps_index (set_event_state sha id room st).
Proof.
  unfold set_event_state, get_or_create_shortstatehash, states_parents, next_count, get_room_shortstatehash, db_set_event_state. keeps.
Qed.

Lemma index_auth_events types room kind sender key content rules : keeps_index (get_auth_events types room kind sender key content rules).
Proof. unfold get_auth_events, short_auth_types, take_auth_event, get_room_shortstatehash. keeps; apply index_shortstatekey. Qed.

Lemma index_user_can_redact id sender room b : keeps_index (user_can_redact id sender room b).
Proof. apply fixed_keeps_index, keeps_user_can_redact. Qed.

Lemma index_first_pdu room : keeps_index (first_pdu_in_room room).
Proof. unfold first_pdu_in_room, pdus_after, count_to_id. keeps. Qed.
End db.

(** * Only authorised events *)

Lemma hdb_run {A} (m : M Db A) h : hdb m h = ((m (sv_db (h_server h))).1, (hdb m h).2).
Proof. unfold hdb, hs, db_, on_sender, with_db, sv_db. by destruct (m _). Qed.

Section handler.
Context {RU : Ruma} {LR : LruCache} {HO : HashOrder} {MO : MapOrder} {CT : Contents} {RV : RoomVersions} {EC : EventChecks} {FE : Federation}.
Context {KJ : KeyJson} {KS : KeyServers} {TW : TimelineWriter}.
Context {JP : Json PduEvent} {JM : Json Tree} {JF : Json CanonicalJsonObject} {JR : Json RedactionContent}.
Context (sha256 : bytes → bytes) (own_name own_version own_public_key : bytes).
Context (auth_types_for_event : bytes → bytes → option bytes → bytes → AuthRules → option (list (bytes * bytes))).

Notation state_before := (state_before own_name own_version own_public_key).
Notation upgrade := (upgrade_outlier_to_timeline_pdu sha256 own_name own_version own_public_key auth_types_for_event).

Definition index (h : Handler) : Tree := timeline_index (h_server h).

(** A property of the index. *)
Section about_index.
Context (P : Tree → Prop).
Definition Inv (h : Handler) : Prop := P (index h).

Lemma inv_hdb {A} (m : M Db A) : keeps_index m → preserves Inv (hdb m).
Proof.
  intros Hm h. unfold Inv, index, timeline_index, hdb, hs. pose proof (sv_db_db m (h_server h)) as E. destruct (db_ m (h_server h)) as [r s].
  cbn [snd h_server] in *. rewrite E. by rewrite Hm.
Qed.

Lemma inv_hk {A} (m : M Keyring A) : (∀ i, preserves (λ k, kv (k_db k) eventid_pduid = i) m) → preserves Inv (hk m).
Proof.
  intros Hm h. unfold Inv, index, timeline_index, hk. set (k0 := mkKeyring _ _ _ _). specialize (Hm _ k0 eq_refl). cbv beta in Hm.
  destruct (m k0) as [r k]. cbn [snd h_server] in *. rewrite sv_db_db. cbn [snd]. by rewrite Hm.
Qed.

Lemma inv_handling f : preserves Inv (set_handling f).
Proof. by intros h. Qed.

Lemma inv_back_off now id : preserves Inv (back_off_event now id).
Proof. apply inv_hk. by intros i k. Qed.

Lemma inv_force room hash new : preserves Inv (hs (force_room_state room hash new)).
Proof.
  intros h. unfold Inv, index, hs. pose proof (force_index room hash new (h_server h)) as E. destruct (force_room_state _ _ _ _) as [r s]. cbn [snd h_server] in *.
  by rewrite E.
Qed.

(** ** Fetching keys *)

Lemma kdb_index {A} (m : M Db A) i : keeps_index m → preserves (λ k, kv (k_db k) eventid_pduid = i) (kdb m).
Proof. intros Hm k <-. unfold kdb. specialize (Hm (k_db k)). cbv beta in Hm. by destruct (m (k_db k)). Qed.

Lemma index_ask_trusted now origin ids keys servers : keeps_index (ask_trusted now origin ids keys servers).
Proof.
  assert (∀ answer keys, keeps_index (use_trusted_keys now origin ids keys answer)) as H.
  { intros answer. induction answer as [|k answer IH]; intros keys'; cbn [use_trusted_keys]; unfold add_signing_key_from_trusted_server, stored_keys; keeps. }
  revert keys. induction servers as [|s servers IH]; intros keys; cbn [ask_trusted]; keeps.
Qed.

Lemma keys_index now event i :
  preserves (λ k, kv (k_db k) eventid_pduid = i) (fetch_required_signing_keys own_name own_version own_public_key now event).
Proof.
  unfold fetch_required_signing_keys. apply preserves_bind; [apply preserves_lift|]. intros sigs. apply preserves_for_each_in. intros [server sig] _.
  apply preserves_bind; [apply preserves_lift|]. intros o. apply preserves_bind; [apply preserves_lift|]. intros sn.
  apply preserves_bind; [|intros [keys|]; by intros k]. apply preserves_try_ok. unfold fetch_signing_keys. apply preserves_bind; [apply preserves_gets|].
  intros []; [apply preserves_fail|]. apply preserves_bind; [apply kdb_index; unfold signing_keys_for, db_signing_keys_for; keeps|]. intros result. cbv zeta.
  destruct (match result with Some r => if _ && _ then Some r else None | None => None end); [apply preserves_ret|].
  apply preserves_bind; [apply kdb_index; unfold ask_origin, add_signing_key_from_origin, stored_keys; keeps|]. intros [keys asked].
  destruct (_ && _); [apply preserves_ret|]. apply preserves_bind; [apply kdb_index, index_ask_trusted|]. intros [keys2 found].
  destruct found; [apply preserves_ret|]. destruct (match result with Some r => _ | None => false end); [apply preserves_ret|].
  apply preserves_bind; [by intros k|intros; apply preserves_fail].
Qed.

#[local] Hint Resolve preserves_ret preserves_lift preserves_gets preserves_fail inv_back_off inv_handling inv_force : handler.
#[local] Hint Resolve index_get_pdu index_room_state_get index_state_full_ids index_statekey index_from_short index_shortstatekey index_auth_chain
  index_subgraph index_compress index_save_state index_auth_events index_user_can_redact index_first_pdu : keeps.
#[local] Hint Extern 1 (preserves Inv (hdb _)) => (apply inv_hdb; keeps) : handler.

Ltac hinv := repeat first
  [ progress (intros; cbv beta)
  | solve [eauto with handler]
  | apply preserves_bind
  | apply preserves_try_ok
  | apply preserves_attempt
  | apply preserves_foldM
  | apply preserves_for_each_in
  | match goal with |- preserves _ (match ?x with _ => _ end) => destruct x end
  | match goal with |- preserves _ ((match ?x with _ => _ end) _) => destruct x end ].

Lemma inv_acl sn room : preserves Inv (acl_check sn room).
Proof. unfold acl_check. hinv. Qed.

Lemma inv_check_room room pdu : preserves Inv (check_room_id room pdu).
Proof. unfold check_room_id. hinv. Qed.

Lemma check_room_ok room pdu h u h' : check_room_id room pdu h = (Ok u, h') → Database.room_id pdu = Ok room.
Proof.
  unfold check_room_id. intros (r & h1 & H1 & H)%bind_inv. injection H1 as H1 _. destruct (bool_decide_reflect (r ≠ room)) as [|Hr]; [done|].
  by apply dec_stable in Hr as ->.
Qed.

Lemma inv_enabled room : preserves Inv (check_enabled room).
Proof. unfold check_enabled, is_disabled. hinv. Qed.

Lemma inv_verify now v id value : preserves Inv (verify_incoming own_name own_version own_public_key now v id value).
Proof.
  unfold verify_incoming. cbv zeta. apply preserves_bind; [hinv|]. intros _. apply preserves_bind; [hinv|]. intros _.
  apply preserves_bind; [apply inv_hk; intros; apply keys_index|]. intros _.
  apply preserves_bind; [apply inv_hk; unfold filter_required_signing_keys; hinv|]. intros keys. hinv; unfold get_pdu_json, get_non_outlier_pdu_json, get_non_outlier, get_outlier; hinv.
Qed.

Lemma inv_check_auth rules pdu : preserves Inv (check_auth_events rules pdu).
Proof.
  unfold check_auth_events. apply preserves_bind; [unfold collect_auth_events, insert_auth_event; hinv|]. intros [auth by_id].
  apply preserves_bind; [apply independent_calls; hinv|]. intros []; hinv. apply dependent_calls. hinv.
Qed.
#[local] Hint Resolve inv_acl inv_check_room inv_enabled inv_verify inv_check_auth : handler.

Lemma inv_handle_outlier fetch now create id room value : (∀ l, preserves Inv (fetch l)) →
  preserves Inv (handle_outlier own_name own_version own_public_key fetch now create id room value).
Proof. intros Hf. unfold handle_outlier, add_pdu_outlier. hinv. Qed.

Lemma inv_rounds fuel now origin v f : preserves Inv (fetch_rounds fuel now origin v f).
Proof. revert f. induction fuel as [|fuel IH]; intros f; cbn [fetch_rounds]; unfold fetch_round, must_wait; hinv. Qed.
#[local] Hint Resolve inv_rounds : handler.

Lemma inv_outliers fuel now origin v create room events :
  preserves Inv (fetch_and_handle_outliers own_name own_version own_public_key fuel now origin v create room events).
Proof.
  unfold fetch_and_handle_outliers, fetch_and_handle_outlier, handle_fetched, must_wait. hinv.
Qed.
#[local] Hint Resolve inv_outliers : handler.

Lemma inv_outlier_pdu fuel now origin create id room value known :
  preserves Inv (handle_outlier_pdu own_name own_version own_public_key fuel now origin create id room value known).
Proof. unfold handle_outlier_pdu. hinv. Qed.
#[local] Hint Resolve inv_outlier_pdu : handler.

(** ** The state before an event *)

Lemma inv_own_entry pdu id st : preserves Inv (add_own_entry pdu id st).
Proof. unfold add_own_entry. hinv. Qed.
#[local] Hint Resolve inv_own_entry : handler.

Lemma inv_fetch_event id : preserves Inv (fetch_event id).
Proof. unfold fetch_event. hinv. Qed.

Lemma inv_statekeys st : preserves Inv (statekeys st).
Proof. unfold statekeys. hinv. Qed.

Lemma inv_subgraph room css : preserves Inv (subgraph_callback room css).
Proof. unfold subgraph_callback. hinv. Qed.
#[local] Hint Resolve inv_fetch_event inv_statekeys inv_subgraph : handler.

Lemma inv_after_prev id : preserves Inv (state_after_prev id).
Proof. unfold state_after_prev, pdu_shortstatehash. hinv. Qed.

Lemma inv_extremity_states l acc : preserves Inv (extremity_states l acc).
Proof. revert acc. induction l as [|x l IH]; intros acc; cbn [extremity_states]; unfold pdu_shortstatehash; hinv. Qed.
#[local] Hint Resolve inv_after_prev inv_extremity_states : handler.

Lemma inv_resolve rules forks chains room : preserves Inv (resolve rules forks chains fetch_event (subgraph_callback room)).
Proof. apply resolve_calls; hinv. Qed.
#[local] Hint Resolve inv_resolve : handler.

Lemma inv_by_resolution room rules l : preserves Inv (state_by_resolution room rules l).
Proof. unfold state_by_resolution, fork_of, shorten. hinv. Qed.

Lemma inv_from_origin fuel now origin v create room id :
  preserves Inv (state_from_origin own_name own_version own_public_key fuel now origin v create room id).
Proof. unfold state_from_origin. hinv. Qed.
#[local] Hint Resolve inv_by_resolution inv_from_origin : handler.

Lemma inv_state_before fuel now origin v rules create room pdu : preserves Inv (state_before fuel now origin v rules create room pdu).
Proof. unfold EventHandler.state_before. hinv. Qed.

Lemma inv_lookup st k s : preserves Inv (lookup_in_state st k s).
Proof. unfold lookup_in_state. hinv. Qed.

Lemma inv_soft_fails v rules room pdu : preserves Inv (soft_fails auth_types_for_event v rules room pdu).
Proof. unfold soft_fails. hinv. apply dependent_calls. hinv. Qed.

Lemma inv_extremities room pdu : preserves Inv (remaining_extremities room pdu).
Proof. unfold remaining_extremities, get_forward_extremities, is_event_referenced. hinv. Qed.

Lemma inv_compress st : preserves Inv (compress_state st).
Proof. unfold compress_state. hinv. Qed.

Lemma inv_resolve_state room rules st : preserves Inv (resolve_state room rules st).
Proof. unfold resolve_state, get_room_shortstatehash. hinv. Qed.
#[local] Hint Resolve inv_state_before inv_lookup inv_soft_fails inv_extremities inv_compress inv_resolve_state : handler.

Lemma inv_update_state room rules pdu st : preserves Inv (update_room_state sha256 room rules pdu st).
Proof. unfold update_room_state. hinv. Qed.
#[local] Hint Resolve inv_update_state : handler.

(** ** Previous events *)

Definition InRoom (room : bytes) (info : gmap bytes (PduEvent * CanonicalJsonObject)) : Prop := ∀ id x, info !! id = Some x → Database.room_id x.1 = Ok room.

(** What is kept of a previous event belongs to the room. *)
Lemma visit_in_room fuel now origin v create room ts id p h p' h' : InRoom room (eventid_info p) →
  visit_prev own_name own_version own_public_key fuel now origin v create room ts id p h = (Ok p', h') → InRoom room (eventid_info p').
Proof.
  intros Hp. unfold visit_prev. intros (pdus & h1 & H1 & H)%bind_inv. revert H. destruct (last pdus) as [[pdu json_opt]|].
  - intros ([] & h2 & H2%check_room_ok & H)%bind_inv. destruct (_ <? _); [by injection H as <- _|].
    apply bind_inv in H as (o & h4 & _ & H). destruct o as [json|]; [|by injection H as <- _]. injection H as <- _. cbn [eventid_info].
    intros e x. rewrite lookup_insert_Some. intros [[_ <-]|[_ Hx]]; [done|]. apply (Hp e). by destruct (_ <? _) in Hx.
  - by intros [= <- _].
Qed.

Lemma search_in_room rounds fuel now origin v create room ts p h p' h' : InRoom room (eventid_info p) →
  search_prev own_name own_version own_public_key rounds fuel now origin v create room ts p h = (Ok p', h') → InRoom room (eventid_info p').
Proof.
  revert p h. induction rounds as [|rounds IH]; intros p h Hp; cbn [search_prev]; [by intros [= <- _]|].
  destruct (todo_outlier_stack p); [by intros [= <- _]|]. intros (p1 & h1 & H1 & H)%bind_inv. eapply IH, H. eapply visit_in_room, H1. done.
Qed.

Lemma inv_search_prev rounds fuel now origin v create room ts p :
  preserves Inv (search_prev own_name own_version own_public_key rounds fuel now origin v create room ts p).
Proof. revert p. induction rounds as [|rounds IH]; intros p; cbn [search_prev]; unfold visit_prev, get_outlier_pdu_json; hinv. Qed.
#[local] Hint Resolve inv_search_prev : handler.

Lemma inv_unknown_prev rounds fuel now origin v create room l :
  preserves Inv (fetch_unknown_prev_events own_name own_version own_public_key rounds fuel now origin v create room l).
Proof. unfold fetch_unknown_prev_events. hinv. Qed.

Lemma unknown_prev_in_room rounds fuel now origin v create room l h sorted info h' :
  fetch_unknown_prev_events own_name own_version own_public_key rounds fuel now origin v create room l h = (Ok (sorted, info), h') → InRoom room info.
Proof.
  unfold fetch_unknown_prev_events. intros (o & h1 & _ & H)%bind_inv. apply bind_inv in H as (f & h2 & _ & H).
  apply bind_inv in H as (p & h3 & Hp & H). apply bind_inv in H as (srt & h4 & _ & [= _ <- _]). by eapply search_in_room, Hp.
Qed.

#[local] Hint Resolve inv_unknown_prev : handler.

Lemma inv_receive rounds fuel now origin event_id room_id value tl :
  preserves Inv (receive_pdu own_name own_version own_public_key rounds fuel now origin event_id room_id value tl).
Proof. unfold receive_pdu, room_exists. hinv. Qed.
End about_index.

(** ** Entering the timeline *)

(** The rules allow the event twice, starting in the given state of the
    server: the state before the event is found, the event is checked against
    it, the current state of the room is read, and the event is checked
    against that, each in the state of the server the step before left. *)
Definition AllowedAt (fuel : nat) (now : Z) (origin room_id : bytes) (create pdu : PduEvent) (h : Handler) : Prop :=
  ∃ version rules state h1 h2 auth h3 h4,
    version_of create = Ok version ∧ rules_of version = Ok rules ∧
    state_before fuel now origin version rules create room_id pdu h = (Ok state, h1) ∧
    check_state_dependent_auth_rules rules pdu (lookup_in_state state) h1 = (Ok true, h2) ∧
    hdb (get_auth_events auth_types_for_event room_id (pdu_kind pdu) (pdu_sender pdu) (pdu_state_key pdu) (pdu_content pdu) rules) h2 = (Ok auth, h3) ∧
    check_state_dependent_auth_rules rules pdu (λ k s, mret (auth !! (k, s))) h3 = (Ok true, h4).

(** A property of the index along one run. *)
Lemma at_bind {A B : Type} (P : Tree → Prop) (m : M Handler A) (k : A → M Handler B) h :
  preserves (Inv P) m → Inv P h → (∀ a h', m h = (Ok a, h') → Inv P h' → Inv P (k a h').2) → Inv P ((m ≫= k) h).2.
Proof.
  intros Hm Hh Hk. specialize (Hm h Hh). unfold mbind, M_bind. destruct (m h) as [[a| |] h'] eqn:E; cbn [snd] in *; [by apply Hk|done..].
Qed.

(** Reads of the database leave the handler as it is. *)
Lemma hdb_pure {A : Type} (m : M Db A) h : (∀ d, m d = ((m d).1, d)) → hdb m h = ((m (sv_db (h_server h))).1, h).
Proof. intros Hm. unfold hdb, hs, db_, on_sender, with_db, sv_db. rewrite Hm. cbn. by destruct h as [[[]]]. Qed.

(** Appending indexes the event, unless it is soft failed, and no other. *)
Lemma inv_append e i (Q : Prop) pdu json leaves state soft : (soft = false → e = pdu_event_id pdu → Q) →
  preserves (Inv (λ t, t !! e = i ∨ Q)) (hs (append_incoming pdu json leaves state soft)).
Proof.
  intros HQ h Hh. unfold Inv, index, hs in *. pose proof (append_index pdu json leaves state soft (h_server h) e) as E.
  destruct (append_incoming _ _ _ _ _ _) as [r s]. cbn [snd h_server] in *. destruct (decide (e = pdu_event_id pdu ∧ soft = false)) as [[-> ->]|Hn].
  - right. by apply HQ.
  - rewrite E; [done|]. destruct soft; [by right|left]. intros ->. by apply Hn.
Qed.

Section enter.
Context (fuel : nat) (now : Z) (origin room_id : bytes).
Notation AllowedAt := (AllowedAt fuel now origin room_id).

Lemma soft_fails_no version rules pdu h h' : soft_fails auth_types_for_event version rules room_id pdu h = (Ok false, h') → ∃ auth h1 h2,
  hdb (get_auth_events auth_types_for_event room_id (pdu_kind pdu) (pdu_sender pdu) (pdu_state_key pdu) (pdu_content pdu) rules) h = (Ok auth, h1) ∧
  check_state_dependent_auth_rules rules pdu (λ k s, mret (auth !! (k, s))) h1 = (Ok true, h2).
Proof.
  unfold soft_fails. intros (auth & h1 & H1 & H)%bind_inv. apply bind_inv in H as ([] & h2 & H2 & H); [|done]. by exists auth, h1, h2.
Qed.

(** Only the event itself may enter, and only when it is allowed. *)
Lemma upgrade_index pdu val create h e : index (upgrade fuel now pdu val create origin room_id h).2 !! e = index h !! e ∨
  e = pdu_event_id pdu ∧ AllowedAt create pdu h.
Proof.
  set (P := λ t : Tree, t !! e = index h !! e ∨ e = pdu_event_id pdu ∧ AllowedAt create pdu h). change (Inv P (upgrade fuel now pdu val create origin room_id h).2).
  assert (Inv P h) as Hh by by left. unfold upgrade_outlier_to_timeline_pdu.
  rewrite (bind_ok _ _ _ (Some (kv (sv_db (h_server h)) eventid_pduid !! pdu_event_id pdu)) h) by (unfold try_ok; by rewrite hdb_pure).
  cbn [default id]. destruct (kv _ eventid_pduid !! pdu_event_id pdu); [done|].
  rewrite (bind_ok _ _ _ (bool_decide (is_Some (kv (sv_db (h_server h)) softfailedeventids !! pdu_event_id pdu))) h) by by rewrite hdb_pure.
  case_bool_decide; [done|].
  apply at_bind; [apply preserves_lift|done|]. intros version ? [= Hv <-] _. apply at_bind; [apply preserves_lift|done|]. intros rules ? [= Hr <-] _.
  apply at_bind; [apply inv_state_before|done|]. intros st h1 Hst Hh1. apply at_bind; [apply dependent_calls, inv_lookup|done|].
  intros [] h2 Hd Hh2; [|done]. cbn [negb]. apply at_bind; [apply inv_soft_fails|done|]. intros soft h3 Hsoft Hh3.
  apply at_bind; [apply inv_extremities|done|]. intros ext h4 _ Hh4. apply at_bind; [apply inv_compress|done|]. intros comp h5 _ Hh5.
  apply at_bind; [apply inv_update_state|done|]. intros _ h6 _ Hh6.
  assert (soft = true ∨ AllowedAt create pdu h) as Hallow.
  { destruct soft; [by left|right]. destruct (soft_fails_no _ _ _ _ _ Hsoft) as (auth & h7 & h8 & ? & ?).
    exists version, rules, st, h1, h2, auth, h7, h8. by split_and!. }
  assert (∀ leaves, preserves (Inv P) (hs (append_incoming pdu val leaves comp soft))) as Happ.
  { intros leaves. apply inv_append. intros Hs He. by destruct Hallow as [|Ha]; [congruence|]. }
  destruct soft; [|by apply Happ]. apply at_bind; [apply Happ|done|]. intros ? h7 _ Hh7. apply at_bind; [|done|done].
  apply inv_hdb. unfold mark_event_soft_failed. keeps.
Qed.
(** The server while it handles an event of the room. *)
Definition handling (id : bytes) (h : Handler) : Handler := (set_handling (λ m, <[room_id := (id, now)]> m) h).2.

Notation handle_prev := (handle_prev sha256 own_name own_version own_public_key auth_types_for_event fuel now origin room_id).

Lemma room_exists_run room d : room_exists room d = ((room_exists room d).1, d).
Proof. unfold room_exists, get_shortroomid, get. run. by repeat case_match. Qed.

Lemma check_enabled_read h r h' : check_enabled room_id h = (r, h') → h' = h.
Proof.
  unfold check_enabled. rewrite (bind_ok _ _ _ _ _ (hdb_pure (is_disabled room_id) h (λ d, eq_refl))).
  destruct (bool_decide _); by intros [= _ <-].
Qed.

Lemma handle_prev_index create ts info errors id h e :
  index (handle_prev create ts (info, errors) id h).2 !! e = index h !! e ∨
  ∃ pdu json, info !! id = Some (pdu, json) ∧ e = pdu_event_id pdu ∧ AllowedAt create pdu (handling id h).
Proof.
  set (Q := ∃ pdu json, _). set (P := λ t : Tree, t !! e = index h !! e ∨ Q). change (Inv P (handle_prev create ts (info, errors) id h).2).
  assert (Inv P h) as Hh by by left. unfold EventHandler.handle_prev, must_wait. apply at_bind; [apply inv_enabled|done|].
  intros [] ? ->%check_enabled_read _. apply at_bind; [apply preserves_gets|done|]. intros wait ? [= _ <-] _. destruct wait; [done|].
  destruct (_ <=? _). { apply at_bind; [apply inv_back_off|done|]. done. }
  destruct (info !! id) as [[pdu json]|] eqn:E; [|done]. cbv zeta. destruct (_ <? _); [done|].
  apply at_bind; [apply inv_handling|done|]. intros [] h1 [= <-] _. fold (handling id h).
  assert (Inv P (upgrade fuel now pdu json create origin room_id (handling id h)).2) as Hup.
  { destruct (upgrade_index pdu json create (handling id h) e) as [Hi|[-> Ha]]; [left; by rewrite Hi|right]. by exists pdu, json. }
  unfold mbind at 1, M_bind at 1, try_ok. destruct (upgrade _ _ _ _ _ _ _ _) as [[?|?|] h2]; cbn [snd] in Hup; [| |done].
  - by apply at_bind; [apply preserves_ret|done|]; intros ? ? [= _ <-] _.
  - apply at_bind; [|done|]; [apply preserves_bind; [apply inv_back_off|intros; apply preserves_ret]|]. intros x h3 _ Hh3. done.
Qed.

Lemma prevs_index create ts l acc h e :
  index (foldM (handle_prev create ts) acc l h).2 !! e = index h !! e ∨
  ∃ k id info errors pdu json hk, foldM (handle_prev create ts) acc (take k l) h = (Ok (info, errors), hk) ∧ l !! k = Some id ∧
    info !! id = Some (pdu, json) ∧ e = pdu_event_id pdu ∧ AllowedAt create pdu (handling id hk).
Proof.
  revert acc h. induction l as [|x l IH]; intros [info errors] h; cbn [foldM]; [by left|].
  destruct (handle_prev_index create ts info errors x h e) as [Hi|(pdu & json & H1 & H2 & H3)].
  - unfold mbind, M_bind. destruct (handle_prev create ts (info, errors) x h) as [[acc'| |] h'] eqn:E; cbn [snd] in *; [|by left..].
    rewrite <-Hi. destruct (IH acc' h') as [|(k & id & info' & errors' & pdu & json & hk & Hrun & Hrest)]; [by left|right].
    exists (S k), id, info', errors', pdu, json, hk. split; [|done]. cbn [take foldM]. by rewrite (bind_ok _ _ _ _ _ E).
  - right. by exists 0%nat, x, info, errors, pdu, json, h.
Qed.

Lemma handle_prev_in_room create ts acc id h acc' h' : InRoom room_id acc.1 →
  handle_prev create ts acc id h = (Ok acc', h') →
  InRoom room_id acc'.1.
Proof.
  destruct acc as [info errors]. intros Hin. unfold EventHandler.handle_prev. intros (? & h1 & _ & H)%bind_inv. apply bind_inv in H as (wait & h2 & _ & H).
  destruct wait; [by injection H as <- _|]. destruct (_ <=? _); [apply bind_inv in H as (? & ? & _ & H); by injection H as <- _|].
  destruct (info !! id) as [[pdu json]|]; [|by injection H as <- _]. cbv zeta in H.
  assert (InRoom room_id (delete id info)) as Hdel. { intros e y. rewrite lookup_delete_Some. intros [_ Hy]. by apply (Hin e). }
  destruct (_ <? _); [by injection H as <- _|]. apply bind_inv in H as (? & ? & _ & H). apply bind_inv in H as (? & ? & _ & H).
  apply bind_inv in H as (? & ? & _ & H). apply bind_inv in H as (? & ? & _ & H). by injection H as <- _.
Qed.

Lemma prevs_in_room create ts l acc h acc' h' : InRoom room_id acc.1 → foldM (handle_prev create ts) acc l h = (Ok acc', h') → InRoom room_id acc'.1.
Proof.
  revert acc h. induction l as [|x l IH]; intros acc h Hacc; cbn [foldM]; [by intros [= <- _]|].
  intros (acc1 & h1 & H1 & H)%bind_inv. eapply IH, H. by eapply handle_prev_in_room.
Qed.

(** The event whose turn it is, and the state of the server then: a previous
    event once those before it were handled, or the incoming event itself. *)
Inductive Turn (event_id : bytes) (i : Received) (h : Handler) : PduEvent → Handler → Prop :=
  | prev_turn k id info errors pdu json hk :
      foldM (handle_prev (rc_create i) (rc_first_ts i)) (rc_info i, 0) (take k (rc_prevs i)) h = (Ok (info, errors), hk) →
      rc_prevs i !! k = Some id → info !! id = Some (pdu, json) → Turn event_id i h pdu (handling id hk)
  | own_turn acc hk :
      foldM (handle_prev (rc_create i) (rc_first_ts i)) (rc_info i, 0) (rc_prevs i) h = (Ok acc, hk) →
      Turn event_id i h (rc_pdu i) (handling event_id hk).

(** The event was received in the given state, and one of the events handled
    then is [e], an event of the room; the rules allow it, when its turn comes,
    under the version that the create event of the room names. *)
Definition Accepted (rounds : nat) (event_id : bytes) (value : CanonicalJsonObject) (h : Handler) (e : bytes) : Prop := ∃ i h1 pdu hk,
  receive_pdu own_name own_version own_public_key rounds fuel now origin event_id room_id value true h = (Ok (inr i), h1) ∧
  (room_state_get room_id (lit "m.room.create") [] (sv_db (h_server (acl_check origin room_id h).2))).1 = Ok (Some (rc_create i)) ∧
  Turn event_id i h1 pdu hk ∧ pdu_event_id pdu = e ∧ Database.room_id pdu = Ok room_id ∧ AllowedAt (rc_create i) pdu hk.

(** What was received belongs to the room, and the create event is its own. *)
Lemma receive_inv rounds event_id value tl h i h1 :
  receive_pdu own_name own_version own_public_key rounds fuel now origin event_id room_id value tl h = (Ok (inr i), h1) →
  tl = true ∧ Database.room_id (rc_pdu i) = Ok room_id ∧ InRoom room_id (rc_info i) ∧
  (room_state_get room_id (lit "m.room.create") [] (sv_db (h_server (acl_check origin room_id h).2))).1 = Ok (Some (rc_create i)).
Proof.
  unfold receive_pdu. intros (b & h0 & H & E)%bind_inv. rewrite hdb_pure in H by apply room_exists_run. injection H as _ <-.
  destruct b; [|done]. cbn [negb] in E. apply bind_inv in E as ([] & h0 & ->%check_enabled_read & E).
  apply bind_inv in E as (acl & h2 & Hacl & E). rewrite Hacl. cbn [snd].
  apply bind_inv in E as (o & h3 & H & E). rewrite hdb_pure in H by done. injection H as _ <-. destruct o; [done|].
  apply bind_inv in E as (o & h3 & Hc & E). rewrite hdb_run in Hc. injection Hc as Hc _. rewrite Hc.
  apply bind_inv in E as (create & h4 & Ho & E). injection Ho as Ho <-. destruct o as [c|]; [injection Ho as ->|done].
  apply bind_inv in E as (version & h5 & _ & E). apply bind_inv in E as (first & h6 & _ & E). apply bind_inv in E as (first_pdu & h7 & _ & E).
  apply bind_inv in E as ([pdu val] & h8 & _ & E). apply bind_inv in E as ([] & h9 & Hroom%check_room_ok & E). destruct tl; [|done]. cbn [negb] in E.
  destruct (_ <? _); [done|]. apply bind_inv in E as (rules & h10 & _ & E). apply bind_inv in E as ([sorted info] & h11 & Hi%unknown_prev_in_room & E).
  injection E as <- _. by split_and!.
Qed.
End enter.

(** C7: an incoming event, whatever the other servers answer, only lets
    events into the timeline of the room that the authorisation rules allow
    twice: under the state before the event, and under the current state.
    Both checks are those of the run itself: of the incoming event or of a
    previous event that was fetched, in the state of the server when its turn
    comes, under the version of the create event that the room has. *)
Theorem only_authorised_events_enter rounds fuel now origin event_id room_id value tl h e :
  let h' := (handle_incoming_pdu sha256 own_name own_version own_public_key auth_types_for_event rounds fuel now origin event_id room_id value tl h).2 in
  index h' !! e = index h !! e ∨ Accepted fuel now origin room_id rounds event_id value h e.
Proof.
  cbv zeta. unfold handle_incoming_pdu. set (P := λ t : Tree, t !! e = index h !! e ∨ Accepted fuel now origin room_id rounds event_id value h e).
  set (k := λ received : option bytes + Received, _). change (Inv P ((receive_pdu own_name own_version own_public_key rounds fuel now origin event_id room_id value tl ≫= k) h).2).
  apply at_bind; [apply inv_receive|by left|]. intros [answer|i] h1 Hrec Hh1; [done|]. unfold k. clear k.
  pose proof (receive_inv _ _ _ _ _ _ _ _ _ _ _ Hrec) as (-> & Hroom & Hinfo & Hcreate).
  assert (∀ pdu hk, Turn fuel now origin room_id event_id i h1 pdu hk → e = pdu_event_id pdu → Database.room_id pdu = Ok room_id →
    AllowedAt fuel now origin room_id (rc_create i) pdu hk → Accepted fuel now origin room_id rounds event_id value h e) as Hacc.
  { intros pdu hk Ht -> Hr Ha. by exists i, h1, pdu, hk. }
  assert (Inv P (foldM (handle_prev sha256 own_name own_version own_public_key auth_types_for_event fuel now origin room_id (rc_create i) (rc_first_ts i))
    (rc_info i, 0) (rc_prevs i) h1).2) as Hfold.
  { destruct (prevs_index fuel now origin room_id (rc_create i) (rc_first_ts i) (rc_prevs i) (rc_info i, 0) h1 e)
      as [Hi|(n & id & info & errors & pdu & json & hk & Hrun & Hn & Hpdu & He & Ha)]; [unfold Inv, P in *; by rewrite Hi|right].
    apply (Hacc pdu (handling now room_id id hk)); [by eapply prev_turn|done| |done]. by eapply prevs_in_room in Hrun as Hin; [apply (Hin id (pdu, json))|]. }
  unfold mbind at 1, M_bind at 1. destruct (foldM _ _ _ h1) as [[acc| |] hk] eqn:Erun; cbn [snd] in Hfold; [|done..].
  apply at_bind; [apply inv_handling|done|]. intros [] ? [= <-] _. fold (handling now room_id event_id hk).
  assert (Inv P (upgrade fuel now (rc_pdu i) (rc_val i) (rc_create i) origin room_id (handling now room_id event_id hk)).2) as Hup.
  { destruct (upgrade_index fuel now origin room_id (rc_pdu i) (rc_val i) (rc_create i) (handling now room_id event_id hk) e) as [Hi|[He Ha]];
      [unfold Inv, P in *; by rewrite Hi|right]. apply (Hacc (rc_pdu i) (handling now room_id event_id hk)); [by eapply own_turn|done..]. }
  unfold mbind, M_bind, attempt. by destruct (upgrade _ _ _ _ _ _ _ _) as [[] h2].
Qed.
End handler.

(** * The timeline service keeps its promise *)

Section writer.
Context {RU : Ruma} {LR : LruCache} {HO : HashOrder} {CT : Contents} {RV : RoomVersions} {EB : EventBodies} {RX : Regex} {LP : Localpart}.
Context {JP : Json PduEvent} {JV : Json Value} {JL : Json (list Value)} {JR : Json RedactionContent} {JF : Json CanonicalJsonObject}.
Context (sha256 : bytes → bytes) (is_alphanumeric : bytes → bool) (to_lowercase : bytes → bytes).
Context (server_name server_user admin_alias : bytes) (emergency_password : bool) (calculate_password_hash : bytes → option bytes).
Context (direct_of : Value → option (list (bytes * list bytes))) (direct_value : list (bytes * list bytes) → Value) (ignored_of : Value → option (list bytes)).
Context (stripped_types : list bytes) (redact_content_in_place : RedactRules → bytes → Value → option Value).
Context {Ruleset : Type} (rules_of_event : Value → option Ruleset) (server_default : bytes → Ruleset).
Context (ruleset_get_actions : Ruleset → Value → bytes → bytes → bytes → PowerLevels → list Action) (appservices : list RegistrationInfo).

(** The entry of one event in the index. *)
Definition SameEntry (e : bytes) (s s' : Server) : Prop := timeline_index s' !! e = timeline_index s !! e.

#[local] Instance SameEntry_preorder e : PreOrder (SameEntry e).
Proof. split; unfold SameEntry; [by intros s|]. intros ? ? ? -> ->. done. Qed.

Abbreviation keeps_entry e m := (keeps_field (λ d, kv d eventid_pduid !! e) m).

Lemma same_db {A} e (m : M Db A) : keeps_entry e m → along (SameEntry e) (db_ m).
Proof. intros Hm s. unfold SameEntry, timeline_index. rewrite sv_db_db. apply Hm. Qed.

Lemma index_same {A} e (m : M Db A) : keeps_index m → keeps_entry e m.
Proof. intros Hm d. specialize (Hm d). cbv beta in *. by rewrite Hm. Qed.

Lemma index_referenced room l : keeps_index (mark_as_referenced room l).
Proof. unfold mark_as_referenced. keeps. Qed.

Lemma index_set_extremities room l : keeps_index (set_forward_extremities room l).
Proof. unfold set_forward_extremities, remove_prefix. keeps. Qed.

Lemma store_same e pdu json leaves : e ≠ pdu_event_id pdu → keeps_entry e (store_event pdu json leaves).
Proof.
  intros He. pose proof (λ room, index_same e _ (index_referenced room (pdu_prev_events pdu))) as H1.
  pose proof (λ room, index_same e _ (index_set_extremities room leaves)) as H2.
  assert (keeps_entry e (fix_unsigned pdu json)) as H3. { intros d. cbv beta. by rewrite fix_unsigned_kv. }
  assert (∀ pid, keeps_entry e (insert eventid_pduid (pdu_event_id pdu) pid)) as H4.
  { intros pid d. cbn [insert modify snd]. kv_simpl. unfold kv_insert. by rewrite lookup_insert_ne. }
  unfold store_event, append_pdu, next_count, private_read_set, reset_notification_counts, get_shortroomid. keeps.
Qed.

Lemma incoming_same e pdu json leaves state soft : e ≠ pdu_event_id pdu ∨ soft = true → along (SameEntry e)
  (append_incoming_pdu sha256 is_alphanumeric to_lowercase server_name server_user admin_alias emergency_password calculate_password_hash direct_of
     direct_value ignored_of stripped_types redact_content_in_place rules_of_event server_default ruleset_get_actions appservices
     pdu json leaves state soft).
Proof.
  intros Hs. unfold append_incoming_pdu. apply along_bind; [apply _|apply along_lift, _|]. intros room.
  apply along_bind; [apply _|apply same_db, index_same, index_set_event_state|]. intros _. destruct soft.
  - apply along_bind; [apply _|apply same_db, index_same, index_referenced|]. intros _.
    apply along_bind; [apply _|apply same_db, index_same, index_set_extremities|]. intros _. apply along_ret, _.
  - destruct Hs as [He|]; [|done]. unfold service_append_pdu. apply along_bind; [apply _| |intros; apply along_ret, _].
    apply along_bind; [apply _|by apply same_db, store_same|]. intros [[n pid] c]. apply along_bind; [apply _|apply along_lift, _|]. intros room'.
    intros s. unfold SameEntry, timeline_index. by rewrite (kept_index _ _ _ _ (after_store_kept _ _ _ _ _ _ _ _ _ _ _ _ _ _ _ _ _ _ _ _ _ s)).
Qed.

Lemma force_same e room hash new : along (SameEntry e) (force_state server_name calculate_password_hash direct_of direct_value ignored_of room hash new).
Proof.
  unfold force_state. apply along_bind; [apply _|apply along_for_each; [apply _|]; intros x|].
  - unfold force_entry. apply along_bind; [apply _|apply along_try_ok, same_db, index_same, index_parse|]. intros [[? id]|]; [|apply along_ret, _].
    apply along_bind; [apply _|apply same_db, index_same; unfold get_pdu_json, get_non_outlier_pdu_json, get_non_outlier, get_outlier; keeps|].
    intros [j|]; [|apply along_ret, _]. destruct (from_slice _); [|apply along_ret, _]. case_bool_decide; [|case_bool_decide].
    + destruct (extract_membership _) as [ms|]; [|apply along_ret, _]. destruct (pdu_state_key _) as [k|]; [|apply along_ret, _]. destruct (user_id_ok k); [|apply along_ret, _].
      apply same_db, index_same, fixed_keeps_index, keeps_update_membership.
    + apply along_bind; [apply _|apply along_lift, _|]. intros r s. done.
    + apply along_ret, _.
  - intros _. apply along_bind; [apply _|apply same_db, index_same, fixed_keeps_index, keeps_update_joined_count|]. intros _.
    apply same_db, index_same. unfold set_room_state. keeps.
Qed.

(** The timeline service as the handler sees it. *)
Definition timeline_writer : TimelineWriter.
Proof.
  refine {| append_incoming := append_incoming_pdu sha256 is_alphanumeric to_lowercase server_name server_user admin_alias emergency_password
      calculate_password_hash direct_of direct_value ignored_of stripped_types redact_content_in_place rules_of_event server_default
      ruleset_get_actions appservices;
    force_room_state := force_state server_name calculate_password_hash direct_of direct_value ignored_of |}.
  - intros pdu json leaves state soft s e He. by apply incoming_same.
  - intros room hash new s. apply map_eq. intros e. apply force_same.
Defined.
End writer.
