(* ===== verification/EventFetch.v ===== *)
(** * EventFetch: when fetching ends, and what is refused

    More about [EventHandler]: the loop that follows the auth events an origin
    names ends whenever the origin's answers stay in a finite set, and only
    then; a server the room does not allow changes nothing; two previous events
    over the same state count as one.  The samples for the witnesses of these
    theorems are at the end. *)
From S2P Require Import Prelude Bytes JsonValue KvTree Pdu Database Short StateCompressor RoomState StateCache.
From S2P Require Import Timeline PduJson UserKeys AuthChain RoomTables Search Sending StateAccess Appservice TimelineService ServerKeys EventHandler EventHandlerInv.

Section fetch.
Context {LR : LruCache} {RV : RoomVersions} {EC : EventChecks} {FE : Federation} {RU : Ruma}.
Context {JP : Json PduEvent}.

(** The auth events that the origin names for an event. *)
Definition answered (origin room_version id : bytes) : list bytes :=
  match get_event origin id with
  | Some pdu =>
      match gen_event_id_canonical_json room_version pdu with
      | Ok (_, value) => named_auth_events value
      | _ => []
      end
  | None => []
  end.

Lemma get_pdu_no_panic id d : (get_pdu id d).1 ≠ Panic.
Proof.
  unfold get_pdu, get_non_outlier_pdu, get_non_outlier, get_outlier, get. run. unfold ok_or, map_transpose.
  repeat (case_match; simplify_eq/=; try done).
Qed.

(** Few enough failures that the back-off time fits its width; an event that
    failed most often has just failed, so it must wait. *)
Definition Calm (now : Z) (h : Handler) : Prop := ∀ id time tries, h_bad_event h !! id = Some (time, tries) →
  0 ≤ tries ≤ 10 ^ 8 ∧ (tries = 10 ^ 8 → now ≤ time).

Lemma back_off_bad now id h : h_bad_event (back_off_event now id h).2 = back_off now id (h_bad_event h).
Proof. reflexivity. Qed.

Lemma must_wait_calm now id h : Calm now h → ∃ b, must_wait now id h = (Ok b, h) ∧ (b = false → Calm now (back_off_event now id h).2).
Proof.
  intros Hc. unfold must_wait, gets, backing_off. destruct (h_bad_event h !! id) as [[time tries]|] eqn:E.
  - destruct (Hc _ _ _ E) as [Hb Hlast]. rewrite (proj2 (Z.ltb_ge _ _)) by (unfold u64_max; nia). eexists; split; [reflexivity|].
    intros Hw%Z.ltb_ge i t n. rewrite back_off_bad. unfold back_off. rewrite lookup_insert. case_decide as Hi; [|apply Hc]. rewrite E. intros [= <- <-]. split; [|lia].
    destruct (decide (tries = 10 ^ 8)) as [->|]; [|lia]. specialize (Hlast eq_refl). rewrite (Z.max_l 0) in Hw by lia.
    vm_compute in Hw. done.
  - exists false. split; [done|]. intros _ i t n. rewrite back_off_bad. unfold back_off. rewrite lookup_insert. case_decide; [|apply Hc]. rewrite E. intros [= <- <-]. lia.
Qed.

Lemma hdb_bad_event {A} (m : M Db A) h : h_bad_event (hdb m h).2 = h_bad_event h.
Proof. unfold hdb, hs. by destruct (db_ m _). Qed.

(** A round either adds nothing, or it adds an event it has not seen. *)
Lemma fetch_round_spec now origin v id f h : Calm now h → ∃ f' h', fetch_round now origin v id f h = (Ok f', h') ∧ Calm now h' ∧
  (f' = f ∨ id ∉ events_all f ∧ ∃ value, f' = mkFetching (rev (answered origin v id) ++ todo_auth_events f)
     (events_in_reverse_order f ++ [(id, value)]) ({[id]} ∪ events_all f)).
Proof.
  intros Hc. unfold fetch_round. destruct (must_wait_calm now id h Hc) as (b & E & _). rewrite (bind_ok _ _ _ _ _ E). destruct b; [by eauto 6|].
  case_bool_decide as Hseen; [by eauto 6|].
  assert (∃ o h', try_ok (hdb (get_pdu id)) h = (Ok o, h') ∧ h_bad_event h' = h_bad_event h) as (o & h1 & E1 & Eb).
  { unfold try_ok. pose proof (get_pdu_no_panic id (sv_db (h_server h))) as Hn. pose proof (hdb_bad_event (get_pdu id) h) as Hb. rewrite hdb_run.
    destruct (get_pdu id _) as [[]]; [by eauto..|done]. }
  rewrite (bind_ok _ _ _ _ _ E1).
  assert (Calm now h1) as Hc1 by (intros i; rewrite Eb; apply Hc).
  assert (Calm now (back_off_event now id h1).2) as Hc2.
  { destruct (must_wait_calm now id h1 Hc1) as (b & E2 & Hb). apply Hb. unfold must_wait, gets in E, E2. rewrite Eb in E2. congruence. }
  destruct o as [[p|]|]; [by eauto 6| |].
  all: unfold answered; destruct (get_event origin id) as [pdu|];
    [destruct (gen_event_id_canonical_json v pdu) as [[i value]| |]; [eexists _, _; split; [reflexivity|split; [done|right; by eauto]]|..]|];
    (eexists _, _; split; [reflexivity|split; [done|by left]]).
Qed.

(** Rounds that are left, at most. *)
Definition weight (origin v : bytes) (U all : gset bytes) : nat := sum_list ((λ id, length (answered origin v id)) <$> elements (U ∖ all)).

Lemma weight_seen origin v U all id : id ∈ U → id ∉ all → weight origin v U all = (length (answered origin v id) + weight origin v U ({[id]} ∪ all))%nat.
Proof.
  intros HU Hall. unfold weight. assert (U ∖ all ≡ {[id]} ∪ (U ∖ ({[id]} ∪ all))) as E by (rewrite set_equiv; intros x; destruct (decide (x = id)); set_solver).
  assert (elements (U ∖ all) ≡ₚ id :: elements (U ∖ ({[id]} ∪ all))) as Hp by (rewrite E; apply elements_union_singleton; set_solver).
  by rewrite Hp.
Qed.

Lemma rounds_end origin v U : (∀ id a, id ∈ U → a ∈ answered origin v id → a ∈ U) →
  ∀ n now f h, Calm now h → (∀ id, id ∈ todo_auth_events f → id ∈ U) → (∀ id, id ∈ (events_in_reverse_order f).*1 ↔ id ∈ events_all f) → events_all f ⊆ U →
  NoDup (events_in_reverse_order f).*1 → (length (todo_auth_events f) + weight origin v U (events_all f) ≤ n)%nat →
  ∃ f' h', todo_auth_events f' = [] ∧ NoDup (events_in_reverse_order f').*1 ∧ (∀ id, id ∈ (events_in_reverse_order f').*1 → id ∈ U) ∧
    ∀ fuel, (n ≤ fuel)%nat → fetch_rounds fuel now origin v f h = (Ok f', h').
Proof.
  intros Hclosed. induction n as [|n IH]; intros now f h Hc Htodo Hall HU Hnd Hn; destruct f as [todo evs all]; cbn [todo_auth_events events_in_reverse_order events_all] in *.
  - destruct todo; [|cbn in Hn; lia]. exists (mkFetching [] evs all), h. split_and!; [done..|intros id; rewrite Hall; apply HU|]. by intros [|fuel] _.
  - destruct todo as [|id todo].
    + exists (mkFetching [] evs all), h. split_and!; [done..|intros id; rewrite Hall; apply HU|]. by intros [|fuel] _.
    + destruct (fetch_round_spec now origin v id (mkFetching todo evs all) h Hc) as (f1 & h1 & E & Hc1 & Hf1).
      enough (∃ f' h', todo_auth_events f' = [] ∧ NoDup (events_in_reverse_order f').*1 ∧ (∀ id, id ∈ (events_in_reverse_order f').*1 → id ∈ U) ∧
        ∀ fuel, (n ≤ fuel)%nat → fetch_rounds fuel now origin v f1 h1 = (Ok f', h')) as (f' & h' & H1 & H2 & H3 & H4).
      { exists f', h'. split_and!; [done..|]. intros [|fuel] Hfuel; [lia|]. cbn [fetch_rounds todo_auth_events events_in_reverse_order events_all].
        rewrite (bind_ok _ _ _ _ _ E). apply H4. lia. }
      assert (id ∈ U) as Hid by (apply Htodo; left). cbn [length] in Hn.
      destruct Hf1 as [->|(Hnew & value & ->)]; cbn [todo_auth_events events_in_reverse_order events_all] in *.
      * apply IH; cbn [todo_auth_events events_in_reverse_order events_all]; [done| |done|done|done|lia]. intros i Hi. apply Htodo. by right.
      * apply IH; cbn [todo_auth_events events_in_reverse_order events_all].
        -- done.
        -- intros i [Hi|Hi]%elem_of_app; [|apply Htodo; by right]. apply list_elem_of_In, in_rev, list_elem_of_In in Hi. by apply (Hclosed id).
        -- intros i. rewrite fmap_app, elem_of_app, Hall. cbn. set_solver.
        -- set_solver.
        -- rewrite fmap_app. apply NoDup_app. split_and!; [done|intros i; rewrite Hall; intros ? ->%list_elem_of_singleton; done|apply NoDup_singleton].
        -- rewrite (weight_seen origin v U all id) in Hn by done. rewrite length_app, length_rev. lia.
Qed.
End fetch.

(** C12: following the auth events of an event ends whenever the origin's
    answers stay in a finite set of events (and none has failed 10^8 times): every event is fetched at most
    once, and more rounds than the set names change nothing. *)
Theorem fetching_ends (LR : LruCache) (RV : RoomVersions) (EC : EventChecks) (FE : Federation) (RU : Ruma) (JP : Json PduEvent)
    (now : Z) (origin room_version : bytes) (U : gset bytes) (id : bytes) (h : Handler) :
  (∀ i time tries, h_bad_event h !! i = Some (time, tries) → 0 ≤ tries < 10 ^ 8) → id ∈ U → (∀ i a, i ∈ U → a ∈ answered origin room_version i → a ∈ U) →
  ∃ f h', todo_auth_events f = [] ∧ NoDup (events_in_reverse_order f).*1 ∧ (∀ i, i ∈ (events_in_reverse_order f).*1 → i ∈ U) ∧
    ∀ fuel, (1 + weight origin room_version U ∅ ≤ fuel)%nat → fetch_rounds fuel now origin room_version (mkFetching [id] [] ∅) h = (Ok f, h').
Proof.
  intros Hc Hid Hclosed. apply (rounds_end origin room_version U Hclosed); cbn.
  - intros i t n Hn. specialize (Hc i t n Hn). lia.
  - by intros i ->%list_elem_of_singleton.
  - set_solver.
  - set_solver.
  - constructor.
  - done.
Qed.

Section forever.
Context {LR : LruCache} {RV : RoomVersions} {EC : EventChecks} {FE : Federation} {RU : Ruma} {JP : Json PduEvent}.

(** Nothing is known of the events. *)
Definition Unheard (ids : nat → bytes) (h : Handler) : Prop := h_bad_event h = ∅ ∧
  ∀ n, pdu_cache (sv_db (h_server h)) !! ids n = None ∧ kv (sv_db (h_server h)) eventid_pduid !! ids n = None ∧
    kv (sv_db (h_server h)) eventid_outlierpdu !! ids n = None.

Lemma get_pdu_unheard ids n h : Unheard ids h → try_ok (hdb (get_pdu (ids n))) h = (Ok (Some None), h).
Proof.
  intros [_ H]. destruct (H n) as (H1 & H2 & H3). unfold try_ok, hdb, hs, db_, on_sender, with_db. unfold sv_db in *.
  unfold get_pdu, get_non_outlier_pdu, get_non_outlier, get_outlier, get. run. rewrite H1. run. unfold kv_get. rewrite H2. run. rewrite H3. cbn. by destruct h as [[[]]].
Qed.

Lemma rounds_go_on now origin v ids h : Unheard ids h → (∀ n, answered origin v (ids n) = [ids (S n)]) → (∀ m n, ids m = ids n → m = n) →
  ∀ fuel n f, todo_auth_events f = [ids n] → (∀ m, (n ≤ m)%nat → ids m ∉ events_all f) → ∃ f' , fetch_rounds fuel now origin v f h = (Ok f', h) ∧
    todo_auth_events f' = [ids (n + fuel)%nat] ∧ length (events_in_reverse_order f') = (length (events_in_reverse_order f) + fuel)%nat.
Proof.
  intros Hu Hans Hinj. induction fuel as [|fuel IH]; intros n f Htodo Hall; [exists f; rewrite !Nat.add_0_r; done|].
  cbn [fetch_rounds]. rewrite Htodo.
  assert (∃ value, fetch_round now origin v (ids n) (mkFetching [] (events_in_reverse_order f) (events_all f)) h =
    (Ok (mkFetching [ids (S n)] (events_in_reverse_order f ++ [(ids n, value)]) ({[ids n]} ∪ events_all f)), h)) as [value E].
  { pose proof (Hans n) as Hn. unfold answered in Hn. unfold fetch_round, must_wait, backing_off. run. rewrite (proj1 Hu), lookup_empty.
    rewrite (bool_decide_eq_false_2 (ids n ∈ _)) by (apply Hall; lia).
    pose proof (get_pdu_unheard ids n h Hu) as Hg. unfold mbind, M_bind in *. cbn [events_all]. rewrite Hg.
    destruct (get_event origin (ids n)) as [raw|]; [|done]. destruct (gen_event_id_canonical_json v raw) as [[i value]| |]; [|done..].
    exists value. by rewrite Hn. }
  rewrite (bind_ok _ _ _ _ _ E). destruct (IH (S n) (mkFetching [ids (S n)] (events_in_reverse_order f ++ [(ids n, value)]) ({[ids n]} ∪ events_all f)))
    as (f' & E' & Ht & Hl); [done| |].
  - intros m Hm [->%elem_of_singleton%Hinj|Hin]%elem_of_union; [lia|]. by apply (Hall m); [lia|].
  - exists f'. rewrite E', Ht, Hl. cbn. rewrite length_app. cbn. split_and!; [done|do 2 f_equal; lia|lia].
Qed.
End forever.

(** Nothing bounds what an origin can make the server fetch: one that
    names a fresh auth event in every answer is asked for another event in
    every round, however many there were. *)
Theorem origin_leads_forever (LR : LruCache) (RV : RoomVersions) (EC : EventChecks) (FE : Federation) (RU : Ruma) (JP : Json PduEvent)
    (now : Z) (origin room_version : bytes) (ids : nat → bytes) (h : Handler) :
  Unheard ids h → (∀ n, answered origin room_version (ids n) = [ids (S n)]) → (∀ m n, ids m = ids n → m = n) →
  ∀ fuel, ∃ f, fetch_rounds fuel now origin room_version (mkFetching [ids 0%nat] [] ∅) h = (Ok f, h) ∧
    todo_auth_events f = [ids fuel] ∧ length (events_in_reverse_order f) = fuel.
Proof.
  intros Hu Hans Hinj fuel. destruct (rounds_go_on now origin room_version ids h Hu Hans Hinj fuel 0 (mkFetching [ids 0%nat] [] ∅)) as (f & H); [done|set_solver|].
  by exists f.
Qed.

(** * Refused servers *)

(** The room is unknown, its federation is disabled, or its ACL denies the
    server. *)
Definition Refused {RU : Ruma} {LR : LruCache} {HO : HashOrder} {RV : RoomVersions} {EC : EventChecks} {JP : Json PduEvent} (room_id origin : bytes)
    (d : Db) : Prop :=
  (room_exists room_id d).1 = Ok false ∨ (is_disabled room_id d).1 = Ok true ∨
  ∃ acl_event is_allowed, (room_state_get room_id (lit "m.room.server_acl") [] d).1 = Ok (Some acl_event) ∧
    acl_of (pdu_content acl_event) = Some is_allowed ∧ is_allowed origin = false.

Section refused.
Context {RU : Ruma} {LR : LruCache} {HO : HashOrder} {MO : MapOrder} {CT : Contents} {RV : RoomVersions} {EC : EventChecks} {FE : Federation}.
Context {KJ : KeyJson} {KS : KeyServers} {TW : TimelineWriter}.
Context {JP : Json PduEvent} {JM : Json Tree} {JF : Json CanonicalJsonObject} {JR : Json RedactionContent}.

(** The parts of the state other than the database. *)
Definition rest (h : Handler) := (h_bad_event h, h_bad_signature h, h_pub_keys h, roomid_federationhandletime h).

Lemma hdb_rest {A} (m : M Db A) h : rest (hdb m h).2 = rest h.
Proof. unfold hdb, hs. by destruct (db_ m _). Qed.

Lemma acl_check_spec origin room_id h : let '(r, h') := acl_check origin room_id h in
  kv (sv_db (h_server h')) = kv (sv_db (h_server h)) ∧ rest h' = rest h ∧
  (∀ acl_event is_allowed, (room_state_get room_id (lit "m.room.server_acl") [] (sv_db (h_server h))).1 = Ok (Some acl_event) →
    acl_of (pdu_content acl_event) = Some is_allowed → is_allowed origin = false → is_ok r = false).
Proof.
  unfold acl_check. pose proof (hdb_run (room_state_get room_id (lit "m.room.server_acl") []) h) as E.
  set (m := room_state_get room_id (lit "m.room.server_acl") []) in *.
  assert (kv (sv_db (h_server (hdb m h).2)) = kv (sv_db (h_server h))) as Hkv.
  { unfold hdb, hs. pose proof (sv_db_db m (h_server h)) as Hd. destruct (db_ m (h_server h)) as [r s]. cbn [snd h_server] in *. rewrite Hd.
    apply keeps_room_state_get. }
  pose proof (hdb_rest m h) as Hr. set (h1 := (hdb m h).2) in *. unfold mbind, M_bind. rewrite E. destruct (m (sv_db (h_server h))).1 as [[acl|]| |].
  - destruct (acl_of (pdu_content acl)) as [allowed|] eqn:Ea; [destruct (allowed origin) eqn:Eo|]; cbn; split_and!; try done; intros; simplify_eq; congruence.
  - cbn. split_and!; try done; intros; simplify_eq.
  - cbn. by split_and!.
  - cbn. by split_and!.
Qed.
End refused.

(** An event of a room that is unknown or disabled, or from a server that
    the ACL of the room denies, is refused, and nothing is stored. *)
Theorem refused_server_changes_nothing (RU : Ruma) (LR : LruCache) (HO : HashOrder) (MO : MapOrder) (CT : Contents) (RV : RoomVersions) (EC : EventChecks)
    (FE : Federation) (KJ : KeyJson) (KS : KeyServers) (TW : TimelineWriter) (JP : Json PduEvent) (JM : Json Tree) (JF : Json CanonicalJsonObject)
    (JR : Json RedactionContent) sha256 own_name own_version own_public_key auth_types_for_event rounds fuel now origin event_id room_id value tl h :
  Refused room_id origin (sv_db (h_server h)) →
  ∃ r h', handle_incoming_pdu sha256 own_name own_version own_public_key auth_types_for_event rounds fuel now origin event_id room_id value tl h = (r, h') ∧
    is_ok r = false ∧ kv (sv_db (h_server h')) = kv (sv_db (h_server h)) ∧ rest h' = rest h.
Proof.
  intros Href. enough (∃ r h', receive_pdu own_name own_version own_public_key rounds fuel now origin event_id room_id value tl h = (r, h') ∧
    is_ok r = false ∧ kv (sv_db (h_server h')) = kv (sv_db (h_server h)) ∧ rest h' = rest h) as (r & h' & E & Hr & Hrest).
  { unfold handle_incoming_pdu, mbind, M_bind. rewrite E. destruct r; [done|by eexists _, _..]. }
  unfold receive_pdu. pose proof (hdb_pure (room_exists room_id) h (room_exists_run room_id)) as E1.
  destruct Href as [H|Href]; [rewrite H in E1; rewrite (bind_ok _ _ _ _ _ E1); by eexists _, _|].
  destruct (room_exists room_id (sv_db (h_server h))).1 as [b| |]; [rewrite (bind_ok _ _ _ _ _ E1)|rewrite (bind_err _ _ _ _ _ E1); by eexists _, _|
    rewrite (bind_panic _ _ _ _ E1); by eexists _, _].
  destruct b; [|by eexists _, _]. cbn [negb].
  assert (check_enabled room_id h = (if bool_decide (is_Some (kv (sv_db (h_server h)) disabledroomids !! room_id))
    then Err (BadRequest Forbidden "Federation of this room is currently disabled on this server.") else Ok tt, h)) as E2.
  { unfold check_enabled. rewrite (bind_ok _ _ _ _ _ (hdb_pure (is_disabled room_id) h (λ d, eq_refl))). cbn. unfold kv_get. by case_bool_decide. }
  destruct (bool_decide_reflect (is_Some (kv (sv_db (h_server h)) disabledroomids !! room_id))) as [Hd|Hd].
  { rewrite (bind_err _ _ _ _ _ E2). by eexists _, _. }
  rewrite (bind_ok _ _ _ _ _ E2). destruct Href as [Hdis|(acl & allowed & H1 & H2 & H3)].
  { unfold is_disabled, get in Hdis. cbn in Hdis. unfold kv_get in Hdis. injection Hdis as Hdis%bool_decide_eq_true. done. }
  pose proof (acl_check_spec origin room_id h) as Ha. destruct (acl_check origin room_id h) as [r h'] eqn:E3. destruct Ha as (Hkv & Hrest & Hbad).
  specialize (Hbad acl allowed H1 H2 H3). destruct r as [u| |]; [done|rewrite (bind_err _ _ _ _ _ E3)|rewrite (bind_panic _ _ _ _ E3)]; by eexists _, _.
Qed.

(** * Previous events over the same state *)

(** The state before an event is known, and its number. *)
Definition StateBefore (id : bytes) (s : Z) (h : Handler) : Prop := (pdu_shortstatehash id (sv_db (h_server h))).1 = Ok (Some s).

Section collapse.
Context {RU : Ruma} {LR : LruCache} {HO : HashOrder} {MO : MapOrder} {RV : RoomVersions} {EC : EventChecks} {JP : Json PduEvent} {JM : Json Tree}.

Lemma pdu_shortstatehash_run id d : pdu_shortstatehash id d = ((pdu_shortstatehash id d).1, d).
Proof. unfold pdu_shortstatehash, get. run. by repeat case_match. Qed.

Lemma pdu_shortstatehash_kv id d d' : kv d = kv d' → (pdu_shortstatehash id d).1 = (pdu_shortstatehash id d').1.
Proof.
  intros E. unfold pdu_shortstatehash, get. run. rewrite E. destruct (kv_get (kv d' eventid_shorteventid) id) as [x|]; [|done]. run. by rewrite E.
Qed.

Lemma hash_after_get_pdu id id' h : (pdu_shortstatehash id (sv_db (h_server (hdb (get_pdu id') h).2))).1 = (pdu_shortstatehash id (sv_db (h_server h))).1.
Proof.
  unfold hdb, hs. pose proof (sv_db_db (get_pdu id') (h_server h)) as Hd. destruct (db_ _ _) as [r s]. cbn [snd h_server] in *. rewrite Hd.
  apply pdu_shortstatehash_kv, keeps_get_pdu.
Qed.

Lemma extremity_states_same b s pdu h : (pdu_shortstatehash b (sv_db (h_server h))).1 = Ok (Some s) →
  extremity_states [b] {[s := pdu]} h = extremity_states [b] ∅ h.
Proof.
  intros Hs. cbn [extremity_states]. pose proof (hash_after_get_pdu b b h) as Hh.
  assert ((try_ok (hdb (get_pdu b)) h).2 = (hdb (get_pdu b) h).2) as E2 by (unfold try_ok; by destruct (hdb (get_pdu b) h) as [[]]).
  destruct (try_ok (hdb (get_pdu b)) h) as [[o|e|] h1] eqn:E0; [|by rewrite !(bind_err _ _ _ _ _ E0)|by rewrite !(bind_panic _ _ _ _ E0)].
  rewrite !(bind_ok _ _ _ _ _ E0). cbn [snd] in E2. rewrite <- E2 in Hh. destruct (default None o) as [pb|]; [|done].
  assert (try_ok (hdb (pdu_shortstatehash b)) h1 = (Ok (Some (Some s)), h1)) as E.
  { unfold try_ok. rewrite (hdb_pure _ h1 (pdu_shortstatehash_run b)), Hh, Hs. done. }
  rewrite !(bind_ok _ _ _ _ _ E). cbn [default]. do 2 f_equal. apply map_eq. intros k. rewrite !lookup_insert. case_decide; [done|]. by rewrite lookup_singleton_ne, lookup_empty.
Qed.
End collapse.

(** Previous events are told apart by the state before them alone: of two
    with the same state, only the last is resolved; what the other one changed
    is lost. *)
Theorem previous_events_collapse (RU : Ruma) (LR : LruCache) (HO : HashOrder) (MO : MapOrder) (RV : RoomVersions) (EC : EventChecks)
    (JP : Json PduEvent) (JM : Json Tree) room_id rules a b pdu_a s h h1 :
  try_ok (hdb (get_pdu a)) h = (Ok (Some (Some pdu_a)), h1) →
  StateBefore a s h1 → StateBefore b s h1 →
  state_by_resolution room_id rules [a; b] h = state_by_resolution room_id rules [b] h1.
Proof.
  intros Ea Ha Hb. unfold StateBefore in *. unfold state_by_resolution.
  enough (extremity_states [a; b] ∅ h = extremity_states [b] ∅ h1) as E by (unfold mbind, M_bind; by rewrite E).
  cbn [extremity_states]. rewrite (bind_ok _ _ _ _ _ Ea). cbn [default id].
  assert (try_ok (hdb (pdu_shortstatehash a)) h1 = (Ok (Some (Some s)), h1)) as E.
  { unfold try_ok. by rewrite (hdb_pure _ h1 (pdu_shortstatehash_run a)), Ha. }
  rewrite (bind_ok _ _ _ _ _ E). cbn [default id]. exact (extremity_states_same b s pdu_a h1 Hb).
Qed.

(** * Samples *)

#[local] Existing Instance sample_ruma.
#[local] Existing Instance lru_unbounded.
#[local] Existing Instance elements_order.
#[local] Existing Instance sample_versions.
#[local] Existing Instance sample_contents.
#[local] Existing Instance sample_key_json.
#[local] Existing Instance sample_key_servers.
#[local] Instance fetch_pdu_json : Json PduEvent := json_countable PduEvent.
#[local] Instance fetch_tree_json : Json Tree := json_countable Tree.
#[local] Instance fetch_object_json : Json CanonicalJsonObject := json_countable CanonicalJsonObject.
#[local] Instance fetch_redaction_json : Json RedactionContent := json_countable RedactionContent.

(** Checks that allow everything; an ACL that denies everyone. *)
#[local] Instance sample_checks : EventChecks.
Proof.
  refine {| Raw := CanonicalJsonObject; parse_event := Some; reference_hash := λ _ _, Some []; check_pdu_format := λ _ _, true;
    enforce_key_validity := λ _, true; verify_event := λ _ _ _, Some VerifiedAll; redact_object := λ _ o, Some o; pdu_of_object := λ _, None;
    create_event_id_of := λ _, None; check_state_independent_auth_rules := λ S _ _ _, mret true;
    check_state_dependent_auth_rules := λ S _ _ _, mret true; resolve := λ S _ forks _ _ _, mret (head forks);
    reverse_topological_power_sort := λ _ _, Some []; acl_of := λ _, Some (λ _, false) |}; intros; by intros s.
Defined.

#[local] Instance sample_map_order : MapOrder := {| map_iter := λ K V _ _ m, map_to_list m; map_iter_perm := λ K V _ _ m, reflexivity _ |}.

(** The timeline service with no rules, appservices or passwords. *)
Definition sample_writer : TimelineWriter :=
  timeline_writer (JR := fetch_redaction_json) (JL := json_countable (list Value)) (JV := json_countable Value) (LP := {| localpart := λ u, u |})
    (EB := sample_bodies) (RX := sample_regex) (λ b, b) ascii_letter (λ w, w) (lit "b") (lit "@conduit:b") (lit "#admins:b") false (λ _, None) (λ _, None)
    (λ _, VNull) (λ _, None) [] (λ _ _ v, Some v) (Ruleset := unit) (λ _, None) (λ _, tt) (λ _ _ _ _ _ _, []) [].

(** An origin that answers for "$1", "$2" and "$3" only. *)
Definition finite_origin : Federation := {|
  get_event _ id := if bool_decide (id = lit "$1") then Some [(lit "auth_events", VArray [VString (lit "$2"); VString (lit "$3")])]
    else if bool_decide (id = lit "$2") then Some [(lit "auth_events", VArray [VString (lit "$3"); VString (lit "$1")])] else None;
  get_room_state_ids _ _ _ := Ok [];
  max_fetch_prev_events := 100;
  ignored_keys := [];
|}.

(** An origin that makes up another event in every answer. *)
Definition endless_origin : Federation := {|
  get_event _ id := Some [(lit "auth_events", VArray [VString (id ++ lit "a")])];
  get_room_state_ids _ _ _ := Ok [];
  max_fetch_prev_events := 100;
  ignored_keys := [];
|}.

Definition sample_handler (d : Db) : Handler := mkHandler (mkServer (mkSender d ∅ [] [] true) ∅ []) ∅ ∅ ∅ ∅.

Lemma fetching_ends_witness : ∃ f h', todo_auth_events f = [] ∧ ∀ fuel, (5 ≤ fuel)%nat →
  fetch_rounds (FE := finite_origin) fuel 0 (lit "o") (lit "11") (mkFetching [lit "$1"] [] ∅) (sample_handler empty_db) = (Ok f, h').
Proof.
  destruct (fetching_ends lru_unbounded sample_versions sample_checks finite_origin sample_ruma fetch_pdu_json 0 (lit "o") (lit "11")
    {[lit "$1"; lit "$2"; lit "$3"]} (lit "$1") (sample_handler empty_db)) as (f & h' & Ht & _ & _ & Hf).
  - intros i t n E. discriminate E.
  - set_solver.
  - intros i a Hi. apply elem_of_union in Hi as [[->%elem_of_singleton| ->%elem_of_singleton]%elem_of_union| ->%elem_of_singleton];
      vm_compute answered; set_solver.
  - exists f, h'. split; [exact Ht|]. intros fuel Hle. apply Hf. vm_compute in *. lia.
Defined.

Definition fresh (n : nat) : bytes := lit "$" ++ replicate n 97.

Lemma origin_leads_forever_witness : ∃ f,
  fetch_rounds (FE := endless_origin) 1000 0 (lit "o") (lit "11") (mkFetching [lit "$"] [] ∅) (sample_handler empty_db) = (Ok f, sample_handler empty_db) ∧
  length (events_in_reverse_order f) = 1000%nat.
Proof.
  destruct (origin_leads_forever lru_unbounded sample_versions sample_checks endless_origin sample_ruma fetch_pdu_json 0 (lit "o") (lit "11")
    fresh (sample_handler empty_db)) with (fuel := 1000%nat) as (f & E & _ & Hl).
  - split; [reflexivity|]. intros n. split_and!; reflexivity.
  - intros n. unfold answered, get_event. unfold fresh. rewrite (replicate_S_end n 97). reflexivity.
  - intros m n E%(f_equal length). unfold fresh in E. rewrite !length_app, !length_replicate in E. lia.
  - exists f. exact (conj E Hl).
Defined.

(** A disabled room. *)
Lemma refused_server_changes_nothing_witness : ∃ r h', handle_incoming_pdu (FE := finite_origin) (MO := sample_map_order) (TW := sample_writer)
    (λ b, b) (lit "a") (lit "v") (lit "P") (λ _ _ _ _ _, None) 10 10 0 (lit "o") (lit "$e") (lit "!r") [] true
    (sample_handler (upd disabledroomids (λ _, {[lit "!r" := []]}) search_sample)) = (r, h') ∧ is_ok r = false.
Proof.
  destruct (refused_server_changes_nothing sample_ruma lru_unbounded elements_order sample_map_order sample_contents sample_versions sample_checks finite_origin
    sample_key_json sample_key_servers sample_writer fetch_pdu_json fetch_tree_json fetch_object_json fetch_redaction_json (λ b, b) (lit "a") (lit "v") (lit "P")
    (λ _ _ _ _ _, None) 10 10 0 (lit "o") (lit "$e") (lit "!r") [] true (sample_handler (upd disabledroomids (λ _, {[lit "!r" := []]}) search_sample)))
    as (r & h' & E & Hr & _).
  - right. left. vm_compute. reflexivity.
  - exists r, h'. exact (conj E Hr).
Defined.

(** Two state events over the state 7. *)
Definition state_pdu (id key : bytes) : PduEvent :=
  mkPdu id (Some (lit "!r")) (lit "@a:b") 1 (lit "m.room.topic") (lit "{}") (Some key) [] 1 [] None None [] None.

Definition forked_db : Db :=
  set_pdu_cache {[lit "$a" := state_pdu (lit "$a") (lit "1"); lit "$b" := state_pdu (lit "$b") (lit "2")]}
    (upd eventid_shorteventid (λ _, {[lit "$a" := lit "A"; lit "$b" := lit "B"]})
      (upd shorteventid_shortstatehash (λ _, {[lit "A" := to_be_bytes 7; lit "B" := to_be_bytes 7]}) empty_db)).

Lemma previous_events_collapse_witness :
  state_by_resolution (MO := sample_map_order) (lit "!r") tt [lit "$a"; lit "$b"] (sample_handler forked_db) =
  state_by_resolution (MO := sample_map_order) (lit "!r") tt [lit "$b"] (sample_handler forked_db).
Proof.
  apply (previous_events_collapse sample_ruma lru_unbounded elements_order sample_map_order sample_versions sample_checks fetch_pdu_json fetch_tree_json
    (lit "!r") tt (lit "$a") (lit "$b") (state_pdu (lit "$a") (lit "1")) 7 (sample_handler forked_db)); vm_compute; reflexivity.
Defined.
