(* ===== verification/LocalEvents.v ===== *)
(** * LocalEvents: events this server makes, and backfilled ones

    [create_hash_and_sign_event], [send_create_room], [build_and_append_pdu],
    [backfill_if_required] and [backfill_pdu] of
    [server/src/service/rooms/timeline/mod.rs], and [parse_incoming_pdu] of
    [server/src/api/server_server.rs].  Hashing, signing and serialization are
    parameters; appending to the timeline is used through the class
    [Appender], which the timeline service implements. *)
From S2P Require Import Prelude Bytes JsonValue KvTree Pdu Database Short StateCompressor RoomState StateCache.
From S2P Require Import Timeline PduJson UserKeys AuthChain Edus RoomTables Search Sending StateAccess Appservice TimelineService ServerKeys.
From S2P Require Import EventHandler EventHandlerInv EventFetch.

(** ** What is made, and how it is signed *)

Record PduBuilder := mkBuilder {
  b_event_type : bytes;
  b_content : bytes;
  b_unsigned : option (list (bytes * Value));
  b_state_key : option bytes;
  b_redacts : option bytes;
  b_timestamp : option Z;
}.

Inductive SignError := PduSize | SignOther.

Class Signing {RV : RoomVersions} := {
  (** [utils::to_canonical_object] *)
  to_canonical_object : PduEvent → option CanonicalJsonObject;
  (** [ruma::signatures::hash_and_sign_event] with the server's name and key *)
  hash_and_sign_event : CanonicalJsonObject → RedactRules → SignError + CanonicalJsonObject;
  (** [UInt] plus one *)
  uint_succ : Z → Z;
}.

(** Other servers' backfill, and the servers of the users above the default
    level. *)
Class Backfill {RV : RoomVersions} {EC : EventChecks} := {
  get_backfill : bytes → bytes → bytes → option (list Raw);
  above_default : PowerLevels → list bytes;
}.

(** ** What is asked of the timeline service *)
Class Appender {RU : Ruma} := {
  append_event : PduEvent → CanonicalJsonObject → list bytes → M Server bytes;
  append_event_index : ∀ pdu json leaves s e, e ≠ pdu_event_id pdu →
    timeline_index (append_event pdu json leaves s).2 !! e = timeline_index s !! e;
  append_event_leaves : ∀ pdu json leaves s pid s' room, append_event pdu json leaves s = (Ok pid, s') → room_id pdu = Ok room →
    Forall (λ id, utf8_valid id = true ∧ event_id_ok id = true) leaves → get_forward_extremities room (sv_db s') = (Ok (list_to_set leaves), sv_db s');
}.

Definition set_event_id (id : bytes) (p : PduEvent) : PduEvent :=
  mkPdu id (pdu_room_id p) (pdu_sender p) (pdu_origin_server_ts p) (pdu_kind p) (pdu_content p) (pdu_state_key p) (pdu_prev_events p)
    (pdu_depth p) (pdu_auth_events p) (pdu_redacts p) (pdu_unsigned p) (pdu_hashes p) (pdu_signatures p).

Definition unfilled_id : bytes := lit "$thiswillbefilledinlater".

Section local.
Context {RU : Ruma} {LR : LruCache} {HO : HashOrder} {MO : MapOrder} {CT : Contents} {RV : RoomVersions} {EB : EventBodies} {EC : EventChecks}.
Context {SG : Signing} {AP : Appender}.
Context `{JP : !Json PduEvent} `{JV : !Json Value} `{JM : !Json Tree} `{JF : !Json CanonicalJsonObject} `{JR : !Json RedactionContent}.
Context (sha256 : bytes → bytes) (server_name server_user admin_alias : bytes).
Context (auth_types_for_event : bytes → bytes → option bytes → bytes → AuthRules → option (list (bytes * bytes))).

(** * Creating an event *)

(** Previous events, room version and auth events; without a room a new one is
    created. *)
Definition event_context (b : PduBuilder) (sender : bytes) (room : option bytes)
    : M Db (list bytes * bytes * gmap (bytes * bytes) PduEvent) :=
  match room with
  | Some room_id =>
      extremities ← get_forward_extremities room_id;
      r ← attempt (get_room_version room_id);
      room_version ← match r with
        | Ok v => mret v
        | Err _ =>
            (* If there was no create event yet, assume we are creating a room *)
            if bool_decide (b_event_type b = lit "m.room.create") then lift (cc_room_version <$> expect (create_of (b_content b)))
            else fail (InconsistentRoomState "non-create event for room of unknown version" room_id)
        | Panic => lift Panic
        end;
      rules ← lift (rules_of room_version);
      auth_events ← get_auth_events auth_types_for_event room_id (b_event_type b) sender (b_state_key b) (b_content b) rules;
      mret (take 20 (hash_iter extremities), room_version, auth_events)
  | None =>
      content ← lift (ok_or (create_of (b_content b)) (BadRequest InvalidParam "Invalid room create content"));
      lift (rules_of (cc_room_version content));;
      mret ([], cc_room_version content, ∅)
  end.

(** Our depth is the maximum depth of prev_events + 1. *)
Definition depth_after (prev_events : list bytes) : M Db Z :=
  depth ← foldM (λ (acc : option Z) id,
    o ← try_ok (get_pdu id);
    mret (match default None o with
          | Some pdu => Some (match acc with Some m => Z.max m (pdu_depth pdu) | None => pdu_depth pdu end)
          | None => acc
          end)) None prev_events;
  mret (uint_succ (default 0 depth)).

(** The content and sender that a state event replaces. *)
Definition with_previous (b : PduBuilder) (room : option bytes) : M Db (list (bytes * Value)) :=
  let unsigned := default [] (b_unsigned b) in
  match b_state_key b, room with
  | Some state_key, Some room_id =>
      o ← room_state_get room_id (b_event_type b) state_key;
      match o with
      | None => mret unsigned
      | Some prev_pdu =>
          content ← lift (raw_json (pdu_content prev_pdu));
          mret (set_json_field (lit "prev_sender") (VString (pdu_sender prev_pdu)) (set_json_field (lit "prev_content") content unsigned))
      end
  | _, _ => mret unsigned
  end.

(** The event before it has an id. *)
Definition unsigned_event (now : Z) (b : PduBuilder) (sender : bytes) (room : option bytes) (rules : AuthRules) (prev_events : list bytes)
    (depth : Z) (unsigned : list (bytes * Value)) (auth_events : gmap (bytes * bytes) PduEvent) : PduEvent :=
  mkPdu unfilled_id room sender (default now (b_timestamp b)) (b_event_type b) (b_content b) (b_state_key b) prev_events depth
    (pdu_event_id <$> bfilter (λ event, bool_decide (pdu_kind event ≠ lit "m.room.create") || negb (room_create_event_id_as_room_id rules))
                        (map_iter auth_events).*2)
    (b_redacts b) (if bool_decide (unsigned = []) then None else Some (to_vec (VObject unsigned))) (lit "aaa") None.

(** The rules allow it under its auth events. *)
Definition check_authorized (rules : AuthRules) (pdu : PduEvent) (auth_events : gmap (bytes * bytes) PduEvent) : M Db unit :=
  let by_id := list_to_map ((λ e, (pdu_event_id e, e)) <$> rev (map_iter auth_events).*2) : gmap bytes PduEvent in
  independent ← check_state_independent_auth_rules rules pdu (λ id, mret (by_id !! id));
  dependent ← (if (independent : bool) then check_state_dependent_auth_rules rules pdu (λ k s, mret (auth_events !! (k, s))) else mret false);
  if (dependent : bool) then mret tt else fail (BadRequest Forbidden "Event is not authorized.").

(** Hash and sign; the event id is the reference hash. *)
Definition sign (room_version : bytes) (pdu : PduEvent) : res (PduEvent * CanonicalJsonObject) :=
  redaction ← expect (redaction_rules room_version);
  pdu_json ← ok_or (to_canonical_object pdu) (BadRequest InvalidParam "Event content provided is invalid");
  let pdu_json := set_json_field (lit "origin") (VString server_name) (remove_json_field (lit "event_id") pdu_json) in
  match hash_and_sign_event pdu_json redaction with
  | inl PduSize => Err (BadRequest TooLarge "Message is too long")
  | inl SignOther => Err (BadRequest Unknown "Signing event failed")
  | inr pdu_json =>
      if negb (check_pdu_format room_version pdu_json) then Err (BadRequest InvalidParam "Event is invalid") else
      hash ← expect (reference_hash room_version pdu_json);
      let event_id := lit "$" ++ hash in
      if negb (event_id_ok event_id) then Panic else
      Ok (set_event_id event_id pdu, set_json_field (lit "event_id") (VString event_id) pdu_json)
  end.

Definition create_hash_and_sign_event (now : Z) (b : PduBuilder) (sender : bytes) (room : option bytes) : M Db (PduEvent * CanonicalJsonObject) :=
  '(prev_events, room_version, auth_events) ← event_context b sender room;
  rules ← lift (rules_of room_version);
  depth ← depth_after prev_events;
  unsigned ← with_previous b room;
  let pdu := unsigned_event now b sender room rules prev_events depth unsigned auth_events in
  check_authorized rules pdu auth_events;;
  '(pdu, pdu_json) ← lift (sign room_version pdu);
  get_or_create_shorteventid (pdu_event_id pdu);;
  mret (pdu, pdu_json).

(** Sends a room create event, returning the room id; [new_room_id] is a fresh
    one. *)
Definition send_create_room (now : Z) (new_room_id content sender : bytes) (rules : AuthRules) : M Server bytes :=
  let builder := mkBuilder (lit "m.room.create") content None (Some []) None None in
  '(pdu, pdu_json, room_id) ← (if room_create_event_id_as_room_id rules then
      '(pdu, pdu_json) ← db_ (create_hash_and_sign_event now builder sender None);
      room_id ← lift (Database.room_id pdu);
      db_ (get_or_create_shortroomid room_id);;
      mret (pdu, pdu_json, room_id)
    else
      db_ (get_or_create_shortroomid new_room_id);;
      '(pdu, pdu_json) ← db_ (create_hash_and_sign_event now builder sender (Some new_room_id));
      mret (pdu, pdu_json, new_room_id));
  statehashid ← db_ (append_to_state pdu);
  append_event pdu pdu_json [pdu_event_id pdu];;
  db_ (set_room_state room_id statehashid);;
  lift (Database.room_id pdu).

(** * Appending a local event *)

(** The local members of a room other than one user. *)
Definition other_local_members (room_id target : bytes) (d : Db) : nat :=
  length (bfilter (λ m, bool_decide (server_name_of m = server_name) && bool_decide (m ≠ target)) (oks (room_members room_id d))).

Definition admin_target (pdu : PduEvent) (sender : bytes) : bytes :=
  match pdu_state_key pdu with Some v => if starts_with (lit "@") v then v else sender | None => sender end.

(** A membership of the admin room that must not end. *)
Definition keep_admin (room_id target : bytes) (server_user_msg last_admin_msg : string) : M Db unit :=
  if bool_decide (target = server_user) then fail (BadRequest Forbidden server_user_msg) else
  count ← gets (λ d, Ok (other_local_members room_id target d));
  if (count <? 2)%nat then fail (BadRequest Forbidden last_admin_msg) else mret tt.

Definition guard_admin_room (sender room_id : bytes) (pdu : PduEvent) : M Db unit :=
  o ← resolve_local_alias admin_alias;
  if negb (bool_decide (o = Some room_id)) then mret tt else
  if bool_decide (pdu_kind pdu = lit "m.room.encryption") then fail (BadRequest Forbidden "Encryption is not allowed in the admins room.") else
  if bool_decide (pdu_kind pdu ≠ lit "m.room.member") then mret tt else
  let target := admin_target pdu sender in
  membership ← lift (ok_or (extract_membership (pdu_content pdu)) (BadDatabase "Invalid content in pdu."));
  (if bool_decide (membership = Leave)
   then keep_admin room_id target "Conduit user cannot leave from admins room." "Last admin cannot leave from admins room." else mret tt);;
  (if bool_decide (membership = Ban) && bool_decide (is_Some (pdu_state_key pdu))
   then keep_admin room_id target "Conduit user cannot be banned in admins room." "Last admin cannot be banned in admins room." else mret tt).

(** If redaction event is not authorized, do not append it to the timeline. *)
Definition check_redaction (pdu : PduEvent) : M Db unit :=
  if bool_decide (pdu_kind pdu ≠ lit "m.room.redaction") then mret tt else
  room ← lift (Database.room_id pdu);
  room_version ← get_room_version room;
  rules ← lift (expect (redaction_rules room_version));
  redacts ← (if content_field_redacts rules then
      content ← lift (ok_or (from_slice (pdu_content pdu) : option RedactionContent) (BadDatabase "Invalid content in redaction pdu."));
      mret (rc_redacts content)
    else mret (pdu_redacts pdu));
  match redacts with
  | None => mret tt
  | Some redact_id =>
      can ← user_can_redact redact_id (pdu_sender pdu) room false;
      if (can : bool) then mret tt else fail (BadRequest Forbidden "User cannot redact this event.")
  end.

(** The servers to tell: those in the room, and that of a kicked or banned
    user. *)
Definition servers_to_tell (room_id : bytes) (pdu : PduEvent) (d : Db) : gset bytes :=
  (list_to_set (oks (room_servers room_id d)) ∪
   match pdu_state_key pdu with
   | Some state_key =>
       if bool_decide (pdu_kind pdu = lit "m.room.member") && user_id_ok state_key then {[server_name_of state_key]} else ∅
   | None => ∅
   end) ∖ {[server_name]}.

Definition build_and_append_pdu (now : Z) (b : PduBuilder) (sender room_id : bytes) : M Server bytes :=
  '(pdu, pdu_json) ← db_ (create_hash_and_sign_event now b sender (Some room_id));
  db_ (guard_admin_room sender room_id pdu);;
  db_ (check_redaction pdu);;
  statehashid ← db_ (append_to_state pdu);
  (* Since this PDU references all pdu_leaves we can update the leaves of the room *)
  pdu_id ← append_event pdu pdu_json [pdu_event_id pdu];
  db_ (set_room_state room_id statehashid);;
  servers ← db_ (gets (λ d, Ok (servers_to_tell room_id pdu d)));
  on_sender (send_pdu (hash_iter servers) pdu_id);;
  mret (pdu_event_id pdu).

(** * Backfilling *)

Context {FE : Federation} {KJ : KeyJson} {KS : KeyServers} {TW : TimelineWriter} {BF : Backfill}.
Context (own_version own_public_key : bytes) (is_alphanumeric : bytes → bool) (to_lowercase : bytes → bytes).

Definition parse_incoming_pdu (pdu : Raw) : M Db (bytes * CanonicalJsonObject * bytes) :=
  value ← lift (ok_or (parse_event pdu) (BadServerResponse "Invalid PDU in server response"));
  room_id ← lift (ok_or (match field (lit "room_id") value with
                         | Some (VString id) => if room_id_ok id then Some id else None
                         | _ => None
                         end) (BadRequest InvalidParam "Invalid room id in pdu"));
  room_version ← get_room_version room_id;
  lift (rules_of room_version);;
  '(event_id, value) ← lift (gen_event_id_canonical_json room_version pdu);
  mret (event_id, value, room_id).

Definition backfill_pdu (rounds fuel : nat) (now : Z) (origin : bytes) (pdu : Raw) : M Handler unit :=
  '(event_id, value, room_id) ← hdb (parse_incoming_pdu pdu);
  o ← hdb (get_pdu_id event_id);
  match o with
  | Some _ => mret tt
  | None =>
      handle_incoming_pdu sha256 server_name own_version own_public_key auth_types_for_event rounds fuel now origin event_id room_id value false;;
      o ← hdb (get_pdu_json event_id : M Db (option CanonicalJsonObject));
      value ← lift (expect o);
      o ← hdb (get_pdu event_id);
      pdu ← lift (expect o);
      o ← hdb (get_shortroomid room_id);
      shortroomid ← lift (expect o);
      count ← hdb next_count;
      let pdu_id := to_be_bytes shortroomid ++ to_be_bytes 0 ++ to_be_bytes (w64 (u64_max - count)) in
      hdb (prepend_backfill_pdu pdu_id event_id value);;
      if bool_decide (pdu_kind pdu = lit "m.room.message") then
        content ← lift (ok_or (body_of (pdu_content pdu)) (BadDatabase "Invalid content in pdu."));
        match content with
        | Some body => hdb (index_pdu is_alphanumeric to_lowercase shortroomid pdu_id body)
        | None => mret tt
        end
      else mret tt
  end.

(** Ask the servers in turn until one answers. *)
Fixpoint ask_backfill (rounds fuel : nat) (now : Z) (room_id first_id : bytes) (servers : list bytes) : M Handler unit :=
  match servers with
  | [] => mret tt
  | server :: servers =>
      match get_backfill server room_id first_id with
      | Some pdus => for_each pdus (λ pdu, try_ok (backfill_pdu rounds fuel now server pdu);; mret tt)
      | None => ask_backfill rounds fuel now room_id first_id servers
      end
  end.

Definition backfill_if_required (rounds fuel : nat) (now : Z) (room_id : bytes) (from : PduCount) : M Handler unit :=
  it ← hdb (pdus_after (lit "@doesntmatter:conduit.rs") room_id PduCount_min);
  first ← lift (expect (head it));
  '(count, first_pdu) ← lift first;
  match PduCount_cmp count from with
  (* No backfill required, there are still events between them *)
  | Lt => mret tt
  | _ =>
      levels ← hdb (power_levels room_id);
      let admin_servers := list_to_set (server_name_of <$> above_default levels) ∖ {[server_name]} : gset bytes in
      ask_backfill rounds fuel now room_id (pdu_event_id first_pdu) (hash_iter admin_servers)
  end.
End local.

(** * What the checks guarantee *)

Section guarded.
Context {RU : Ruma} {LR : LruCache} {HO : HashOrder} {MO : MapOrder} {CT : Contents} {RV : RoomVersions} {EB : EventBodies} {EC : EventChecks}.
Context {SG : Signing} {AP : Appender}.
Context {JP : Json PduEvent} {JV : Json Value} {JM : Json Tree} {JF : Json CanonicalJsonObject} {JR : Json RedactionContent}.
Context (sha256 : bytes → bytes) (server_name server_user admin_alias : bytes).
Context (auth_types_for_event : bytes → bytes → option bytes → bytes → AuthRules → option (list (bytes * bytes))).
Notation create_event := (create_hash_and_sign_event server_name auth_types_for_event).
Notation build := (build_and_append_pdu server_name server_user admin_alias auth_types_for_event).

(** The trees that creating an event leaves alone. *)
Definition settled (d : Db) := (kv d eventid_pduid, kv d alias_roomid, kv d roomuserid_joined, kv d roomid_pduleaves).

Lemma kv_settled {A} (m : M Db A) : keeps_kv m → keeps_field settled m.
Proof. intros H d. unfold settled. by rewrite H. Qed.

Lemma settled_get_pdu id : keeps_field settled (get_pdu id).
Proof. apply kv_settled, keeps_get_pdu. Qed.

Lemma settled_room_state room t k : keeps_field settled (room_state_get room t k).
Proof. apply kv_settled, keeps_room_state_get. Qed.
#[local] Hint Resolve settled_get_pdu settled_room_state : keeps.

Lemma settled_load h : keeps_field settled (load_full_state h).
Proof. apply kv_settled. unfold load_full_state. keeps. apply keeps_load_shortstatehash_info. Qed.
#[local] Hint Resolve settled_load : keeps.

Lemma settled_attempt {A} (m : M Db A) : keeps_field settled m → keeps_field settled (attempt m).
Proof. intros H d. unfold attempt. specialize (H d). by destruct (m d) as [[]]. Qed.

Lemma settled_auth_events room kind sender key content rules :
  keeps_field settled (get_auth_events auth_types_for_event room kind sender key content rules).
Proof.
  unfold get_auth_events, short_auth_types, take_auth_event, get_room_shortstatehash, get_shortstatekey, parse_compressed_state_event,
    get_eventid_from_short. keeps.
Qed.
#[local] Hint Resolve settled_auth_events : keeps.

Lemma settled_checked rules pdu auth : keeps_field settled (check_authorized rules pdu auth).
Proof.
  assert (∀ {A} (m : M Db A), (∀ x, preserves (λ d, settled d = x) m) → keeps_field settled m) as H.
  { intros A m Hm d. by apply (Hm (settled d) d). }
  apply H. intros x. unfold check_authorized. cbv zeta. apply preserves_bind; [apply independent_calls; intros; apply preserves_ret|]. intros b.
  apply preserves_bind; [destruct b; [apply dependent_calls; intros; apply preserves_ret|apply preserves_ret]|]. intros []; [apply preserves_ret|apply preserves_fail].
Qed.
#[local] Hint Resolve settled_checked : keeps.

Lemma settled_version room : keeps_field settled (attempt (get_room_version room)).
Proof. apply settled_attempt. unfold get_room_version. keeps. Qed.
#[local] Hint Resolve settled_version : keeps.

Lemma settled_create now b sender room : keeps_field settled (create_event now b sender room).
Proof.
  unfold create_hash_and_sign_event, event_context, depth_after, with_previous, get_forward_extremities, get_or_create_shorteventid, next_count.
  keeps.
Qed.

(** ** A created event *)

(** The version of a room: that of its create event, or of the create event
    being made when the room has none. *)
Definition VersionFor (b : PduBuilder) (found : res bytes) (version : bytes) : Prop :=
  found = Ok version ∨
  ∃ err content, found = Err err ∧ b_event_type b = lit "m.room.create" ∧ create_of (b_content b) = Some content ∧ version = cc_room_version content.

(** The event, with the reference hash of its signed form as its id. *)
Definition Signed (version : bytes) (unsigned pdu : PduEvent) : Prop := ∃ rules object signed hash,
  redaction_rules version = Some rules ∧ to_canonical_object unsigned = Some object ∧
  hash_and_sign_event (set_json_field (lit "origin") (VString server_name) (remove_json_field (lit "event_id") object)) rules = inr signed ∧
  check_pdu_format version signed = true ∧ reference_hash version signed = Some hash ∧
  event_id_ok (lit "$" ++ hash) = true ∧ pdu = set_event_id (lit "$" ++ hash) unsigned.

(** The event is the one described, made in database [d]: the version and then
    the auth events are read from there, the event refers to at most twenty
    leaves of the room, and the rules allow it under these auth events. *)
Definition Authorised (now : Z) (b : PduBuilder) (sender room : bytes) (d : Db) (pdu : PduEvent) : Prop :=
  ∃ ext found d1 version rules auth d2 depth d3 unsigned d4 d5 d6,
  get_forward_extremities room d = (Ok ext, d) ∧ attempt (get_room_version room) d = (Ok found, d1) ∧ VersionFor b found version ∧
  rules_of version = Ok rules ∧
  get_auth_events auth_types_for_event room (b_event_type b) sender (b_state_key b) (b_content b) rules d1 = (Ok auth, d2) ∧
  let prev := take 20 (hash_iter ext) in
  let draft := unsigned_event now b sender (Some room) rules prev depth unsigned auth in
  let by_id := list_to_map ((λ e, (pdu_event_id e, e)) <$> rev (map_iter auth).*2) : gmap bytes PduEvent in
  depth_after prev d2 = (Ok depth, d3) ∧ with_previous b (Some room) d3 = (Ok unsigned, d4) ∧
  check_state_independent_auth_rules rules draft (λ id, mret (by_id !! id)) d4 = (Ok true, d5) ∧
  check_state_dependent_auth_rules rules draft (λ k s, mret (auth !! (k, s))) d5 = (Ok true, d6) ∧
  Signed version draft pdu.

Lemma sign_spec version pdu pdu' json : sign server_name version pdu = Ok (pdu', json) → Signed version pdu pdu'.
Proof.
  unfold sign, Signed. destruct (redaction_rules version) as [rules|]; [|done]. cbn. destruct (to_canonical_object pdu) as [o|]; [|done]. cbn.
  destruct (hash_and_sign_event _ _) as [[]|j] eqn:Ej; [done..|]. destruct (check_pdu_format version j) eqn:Ef; [|done]. cbn.
  destruct (reference_hash version j) as [hash|] eqn:Eh; [|done]. cbn. destruct (event_id_ok _) eqn:E; [|done]. intros [= <- <-].
  exists rules, o, j, hash. by split_and!.
Qed.

Lemma check_authorized_ok rules pdu auth d d' : check_authorized rules pdu auth d = (Ok tt, d') →
  let by_id := list_to_map ((λ e, (pdu_event_id e, e)) <$> rev (map_iter auth).*2) : gmap bytes PduEvent in
  ∃ d1, check_state_independent_auth_rules rules pdu (λ id, mret (by_id !! id)) d = (Ok true, d1) ∧
  check_state_dependent_auth_rules rules pdu (λ k s, mret (auth !! (k, s))) d1 = (Ok true, d').
Proof.
  unfold check_authorized. intros ([] & d1 & H1 & H)%bind_inv; apply bind_inv in H as ([] & d2 & H2 & H); try done. injection H as <-. by exists d1.
Qed.

Lemma create_event_ok now b sender room d pdu json d' : create_event now b sender (Some room) d = (Ok (pdu, json), d') →
  Authorised now b sender room d pdu.
Proof.
  unfold create_hash_and_sign_event. intros ([[prev version] auth] & d1 & Hctx & H)%bind_inv. apply bind_inv in H as (rules & d2 & Hrules & H).
  injection Hrules as Hrules ->. apply bind_inv in H as (depth & d3 & Hdepth & H). apply bind_inv in H as (unsigned & d4 & Hprev & H).
  apply bind_inv in H as ([] & d5 & (dm & Hc1 & Hc2)%check_authorized_ok & H). apply bind_inv in H as ([pdu' json'] & d6 & Hsign & H). injection Hsign as Hsign ->.
  apply bind_inv in H as (n & d7 & _ & H). injection H as -> -> _. apply sign_spec in Hsign.
  cbn [event_context] in Hctx. apply bind_inv in Hctx as (ext & e1 & Hext & Hctx).
  assert (e1 = d) as -> by (unfold get_forward_extremities, gets in Hext; congruence).
  apply bind_inv in Hctx as (found & e2 & Hfound & Hctx). apply bind_inv in Hctx as (v & e3 & Hv & Hctx).
  apply bind_inv in Hctx as (rules' & e4 & Hr' & Hctx). injection Hr' as Hr' ->.
  apply bind_inv in Hctx as (auth' & e5 & Hauth & Hctx). injection Hctx as <- <- <- <-. assert (rules' = rules) as -> by congruence.
  assert (e4 = e2 ∧ VersionFor b found v) as [-> HV].
  { unfold VersionFor. destruct found as [v'|err|]; [injection Hv as -> ->; by split; [|left]| |done].
    revert Hv. case_bool_decide; [|done]. destruct (create_of (b_content b)) as [c|]; [|done]. intros [= <- <-]. split; [done|right]. by exists err, c. }
  eexists ext, found, e2, v, rules, auth', _, depth, d3, unsigned, d4, dm, _. by split_and!.
Qed.

(** ** The admin room *)

(** An event of the admin room neither encrypts it nor takes the server user or
    one of the last two other admins out of it. *)
Definition AdminSafe (sender room : bytes) (pdu : PduEvent) (d : Db) : Prop :=
  (resolve_local_alias admin_alias d).1 = Ok (Some room) →
  pdu_kind pdu ≠ lit "m.room.encryption" ∧
  (pdu_kind pdu = lit "m.room.member" → ∃ membership, extract_membership (pdu_content pdu) = Some membership ∧
    (membership = Leave ∨ membership = Ban ∧ is_Some (pdu_state_key pdu) →
      admin_target pdu sender ≠ server_user ∧ (2 ≤ other_local_members server_name room (admin_target pdu sender) d)%nat)).

Lemma keep_admin_ok room target m1 m2 d d' : keep_admin server_name server_user room target m1 m2 d = (Ok tt, d') →
  d' = d ∧ target ≠ server_user ∧ (2 ≤ other_local_members server_name room target d)%nat.
Proof.
  unfold keep_admin. case_bool_decide; [done|]. rewrite bind_gets. destruct (Nat.ltb_spec (other_local_members server_name room target d) 2); [done|].
  by intros [= <-].
Qed.

Lemma guard_ok sender room pdu d d' : guard_admin_room server_name server_user admin_alias sender room pdu d = (Ok tt, d') → AdminSafe sender room pdu d.
Proof.
  unfold guard_admin_room. intros (o & d1 & Ho & H)%bind_inv Halias. assert (d1 = d) as ->.
  { revert Ho. unfold resolve_local_alias, get. run. by intros [= _ ->]. }
  rewrite Ho in Halias. injection Halias as ->. rewrite bool_decide_eq_true_2 in H by done. cbn [negb] in H. revert H.
  case_bool_decide as Henc; [done|]. intros H. split; [done|]. intros Hmem. rewrite bool_decide_eq_false_2 in H by (by intros []).
  cbv zeta in H. apply bind_inv in H as (ms & d2 & Hms & H). injection Hms as Hms ->. exists ms.
  split; [by destruct (extract_membership _); cbn in Hms; congruence|]. apply bind_inv in H as ([] & d3 & H1 & H2). intros [->|[-> Hk]].
  - rewrite bool_decide_eq_true_2 in H1 by done. by apply keep_admin_ok in H1 as (_ & ? & ?).
  - rewrite bool_decide_eq_false_2 in H1 by done. injection H1 as ->. rewrite !bool_decide_eq_true_2 in H2 by done. cbn [andb] in H2.
    by apply keep_admin_ok in H2 as (_ & ? & ?).
Qed.

Lemma AdminSafe_settled sender room pdu d d' : settled d' = settled d → AdminSafe sender room pdu d' → AdminSafe sender room pdu d.
Proof.
  intros [= _ Ha Hm _] H Halias. unfold AdminSafe, other_local_members, room_members, scan_last in *. rewrite Hm in H. apply H.
  revert Halias. unfold resolve_local_alias, get. run. by rewrite Ha.
Qed.

(** ** Appending *)

Lemma db_ok_inv {A} (m : M Db A) s a s' : db_ m s = (Ok a, s') → m (sv_db s) = (Ok a, sv_db s').
Proof.
  intros E. pose proof (sv_db_db m s) as H1. pose proof (db_result m s) as H2. rewrite E in H1, H2. cbn [fst snd] in *. rewrite H1, H2.
  apply surjective_pairing.
Qed.

#[local] Existing Instance SameEntry_preorder.

Lemma same_settled {A} e (m : M Db A) : keeps_field settled m → along (SameEntry e) (db_ m).
Proof. intros H. apply same_db. intros d. specialize (H d). injection H as H _. cbv beta. by rewrite H. Qed.

Lemma append_state_same e pdu : along (SameEntry e) (db_ (append_to_state pdu)).
Proof.
  apply same_db, index_same.
  unfold append_to_state, states_parents, get_or_create_shorteventid, db_set_event_state, get_or_create_shortstatekey, next_count,
    get_room_shortstatehash, compress_state_event.
  keeps; try apply index_load_info; apply index_save_diff.
Qed.

Lemma send_same e servers pid : along (SameEntry e) (on_sender (send_pdu servers pid)).
Proof. intros s. unfold SameEntry, timeline_index, send_pdu. by rewrite (kept_index _ _ _ _ (send_kept [] [] _ s)). Qed.

Lemma settled_guard sender room pdu : keeps_field settled (guard_admin_room server_name server_user admin_alias sender room pdu).
Proof. unfold guard_admin_room, keep_admin, resolve_local_alias. keeps. Qed.

Lemma settled_redaction pdu : keeps_field settled (check_redaction pdu).
Proof. unfold check_redaction, user_can_redact, power_levels, get_room_version. keeps. Qed.

(** After the checks, only the entry of the event itself can change. *)
Lemma append_rest_same now room pdu json e : e ≠ pdu_event_id pdu → along (SameEntry e)
  (db_ (check_redaction pdu);; statehashid ← db_ (append_to_state pdu);
   pdu_id ← append_event pdu json [pdu_event_id pdu];
   db_ (set_room_state room statehashid);;
   servers ← db_ (gets (λ d, Ok (servers_to_tell server_name room pdu d)));
   on_sender (send_pdu (hash_iter servers) pdu_id);; mret (now : bytes)).
Proof.
  intros He. apply along_bind; [apply _|apply same_settled, settled_redaction|]. intros _.
  apply along_bind; [apply _|apply append_state_same|]. intros hash. apply along_bind; [apply _|intros s; by apply append_event_index|]. intros pid.
  apply along_bind; [apply _|apply same_settled; unfold set_room_state; keeps|]. intros _. apply along_bind; [apply _|apply same_settled; keeps|].
  intros servers. apply along_bind; [apply _|apply send_same|]. intros _. apply along_ret, _.
Qed.

(** C8: making a local event changes the timeline index in one entry at most,
    that of the event that was asked for: the authorisation rules allow it
    under the current state of the room and the version the room has in the
    database it was made in, its id is the hash of its signed form, and in the
    admin room it neither encrypts the room nor removes the server user or one
    of the last two other local members. *)
Theorem local_events_guarded now b sender room s :
  let s' := (build now b sender room s).2 in
  timeline_index s' = timeline_index s ∨
  ∃ pdu, Authorised now b sender room (sv_db s) pdu ∧ AdminSafe sender room pdu (sv_db s) ∧
    ∀ e, e ≠ pdu_event_id pdu → timeline_index s' !! e = timeline_index s !! e.
Proof.
  cbv zeta. unfold build_and_append_pdu. pose proof (λ e, same_settled e _ (settled_create now b sender (Some room)) s) as H1.
  destruct (db_ (create_event now b sender (Some room)) s) as [r1 s1] eqn:E1. unfold SameEntry in H1. cbn [snd] in H1. apply map_eq in H1.
  destruct r1 as [[pdu json]|err|]; [rewrite (bind_ok _ _ _ _ _ E1)|rewrite (bind_err _ _ _ _ _ E1); by left|rewrite (bind_panic _ _ _ _ E1); by left].
  pose proof (λ e, same_settled e _ (settled_guard sender room pdu) s1) as H2. unfold SameEntry in H2.
  destruct (db_ (guard_admin_room server_name server_user admin_alias sender room pdu) s1) as [r2 s2] eqn:E2. cbn [snd] in H2. apply map_eq in H2.
  destruct r2 as [[]|err|]; [rewrite (bind_ok _ _ _ _ _ E2)|rewrite (bind_err _ _ _ _ _ E2); left; cbn [snd]; congruence|rewrite (bind_panic _ _ _ _ E2); left; cbn [snd]; congruence].
  right. exists pdu. apply db_ok_inv in E1 as E1'. apply db_ok_inv in E2 as E2'. split_and!.
  - by eapply create_event_ok.
  - apply guard_ok in E2'. eapply AdminSafe_settled, E2'. pose proof (settled_create now b sender (Some room) (sv_db s)) as Hk.
    by rewrite <- (sv_db_db _ s), E1 in Hk.
  - intros e He. rewrite <- H1, <- H2. by apply append_rest_same.
Qed.

(** ** Forward extremities *)

Lemma leaves_after room hash servers pid s r s' :
  (db_ (set_room_state room hash);; servers ← db_ (gets (λ d, Ok (servers d))); on_sender (send_pdu (hash_iter servers) pid);; mret (r : bytes)) s = (Ok r, s') →
  kv (sv_db s') roomid_pduleaves = kv (sv_db s) roomid_pduleaves.
Proof.
  intros ([] & s1 & H1%db_ok_inv & H)%bind_inv. apply bind_inv in H as (srv & s2 & H2%db_ok_inv & H). apply bind_inv in H as ([] & s3 & H3 & H). injection H as <-.
  pose proof (kept_leaves [] [] _ _ (send_kept [] [] ((λ server, (Normal server, SPdu pid)) <$> hash_iter srv) s2)) as Hs. fold (send_pdu (hash_iter srv) pid) in Hs.
  rewrite H3 in Hs. cbn [snd] in Hs. rewrite Hs. injection H2 as _ <-. by injection H1 as <-.
Qed.

(** Of more than twenty-one leaves of a room, an event that is made refers
    to twenty and the others are forgotten: some of them is neither a previous
    event nor a leaf any more. *)
Theorem leaves_beyond_twenty_lost now b sender room s id s' ext :
  get_forward_extremities room (sv_db s) = (Ok ext, sv_db s) → (21 < size ext)%nat → build now b sender room s = (Ok id, s') → utf8_valid id = true →
  ∃ pdu leaf, pdu_event_id pdu = id ∧ Authorised now b sender room (sv_db s) pdu ∧ leaf ∈ ext ∧ leaf ≠ id ∧ leaf ∉ pdu_prev_events pdu ∧
    get_forward_extremities room (sv_db s') = (Ok {[id]}, sv_db s').
Proof.
  intros Hext Hsize H Hutf. unfold build_and_append_pdu in H. apply bind_inv in H as ([pdu json] & s1 & H1%db_ok_inv & H).
  apply bind_inv in H as ([] & s2 & H2 & H). apply bind_inv in H as ([] & s3 & H3 & H). apply bind_inv in H as (hash & s4 & H4 & H).
  apply bind_inv in H as (pid & s5 & H5 & H). assert (pdu_event_id pdu = id) as <-.
  { apply bind_inv in H as (? & ? & _ & H). apply bind_inv in H as (? & ? & _ & H). apply bind_inv in H as (? & ? & _ & H). by injection H as <-. }
  apply leaves_after in H. apply create_event_ok in H1 as HA.
  assert (event_id_ok (pdu_event_id pdu) = true ∧ pdu_prev_events pdu = take 20 (hash_iter ext) ∧ pdu_room_id pdu = Some room) as (Hok & Hprev & Hroom).
  { destruct HA as (ext' & ? & ? & ? & ? & ? & ? & ? & ? & ? & ? & ? & ? & Hext' & _ & _ & _ & _ & _ & _ & _ & _ & (? & ? & ? & ? & _ & _ & _ & _ & _ & Hid & ->)).
    assert (ext' = ext) as -> by congruence. done. }
  assert (∃ leaf, leaf ∈ ext ∧ leaf ≠ pdu_event_id pdu ∧ leaf ∉ pdu_prev_events pdu) as (leaf & Hl & Hne & Hnp).
  { destruct (decide (Exists (λ l, l ≠ pdu_event_id pdu ∧ l ∉ pdu_prev_events pdu) (elements ext))) as [(leaf & Hl & H')%Exists_exists|Hn].
    { exists leaf. by rewrite <- elem_of_elements. }
    exfalso. assert (length (elements ext) ≤ length (pdu_event_id pdu :: pdu_prev_events pdu))%nat as Hle.
    { apply submseteq_length, NoDup_submseteq; [apply NoDup_elements|]. intros l Hl. destruct (decide (l ∈ pdu_event_id pdu :: pdu_prev_events pdu)); [done|].
      exfalso. apply Hn, Exists_exists. exists l. by rewrite <- not_elem_of_cons. }
    rewrite Hprev in Hle. cbn [length] in Hle. rewrite length_take in Hle. unfold size, set_size in Hsize. cbn in Hsize. lia. }
  exists pdu, leaf. split_and!; try done.
  assert (Database.room_id pdu = Ok room) as Hr by (unfold Database.room_id; by rewrite Hroom).
  pose proof (append_event_leaves pdu json _ s4 pid s5 room H5 Hr (proj2 (Forall_singleton _ _) (conj Hutf Hok))) as Hg.
  cbn [list_to_set] in Hg. rewrite (right_id_L ∅ (∪)) in Hg. unfold get_forward_extremities, gets in *. rewrite H. by injection Hg as ->.
Qed.
End guarded.

(** * The timeline service appends *)

Section appender.
Context {RU : Ruma} {LR : LruCache} {HO : HashOrder} {CT : Contents} {RV : RoomVersions} {EB : EventBodies} {RX : Regex} {LP : Localpart}.
Context {JP : Json PduEvent} {JV : Json Value} {JL : Json (list Value)} {JR : Json RedactionContent} {JF : Json CanonicalJsonObject}.
Context (is_alphanumeric : bytes → bool) (to_lowercase : bytes → bytes).
Context (server_name server_user admin_alias : bytes) (emergency_password : bool) (calculate_password_hash : bytes → option bytes).
Context (direct_of : Value → option (list (bytes * list bytes))) (direct_value : list (bytes * list bytes) → Value) (ignored_of : Value → option (list bytes)).
Context (stripped_types : list bytes) (redact_content_in_place : RedactRules → bytes → Value → option Value).
Context {Ruleset : Type} (rules_of_event : Value → option Ruleset) (server_default : bytes → Ruleset).
Context (ruleset_get_actions : Ruleset → Value → bytes → bytes → bytes → PowerLevels → list Action) (appservices : list RegistrationInfo).
Notation append := (service_append_pdu is_alphanumeric to_lowercase server_name server_user admin_alias emergency_password
  calculate_password_hash direct_of direct_value ignored_of stripped_types redact_content_in_place rules_of_event server_default
  ruleset_get_actions appservices).

#[local] Existing Instance SameEntry_preorder.

Lemma append_same pdu json leaves e : e ≠ pdu_event_id pdu → along (SameEntry e) (append pdu json leaves).
Proof.
  intros He. unfold service_append_pdu. apply along_bind; [apply _|by apply same_db, store_same|]. intros [[n pid] c].
  apply along_bind; [apply _|apply along_lift, _|]. intros room s. unfold SameEntry, timeline_index.
  by rewrite (kept_index _ _ _ _ (after_store_kept _ _ _ _ _ _ _ _ _ _ _ _ _ _ _ _ _ _ _ _ _ s)).
Qed.

(** Storing sets the leaves, and nothing afterwards touches them. *)
Lemma store_leaves pdu json leaves d x d' room : store_event pdu json leaves d = (Ok x, d') → room_id pdu = Ok room →
  Forall (λ id, utf8_valid id = true ∧ event_id_ok id = true) leaves → get_forward_extremities room d' = (Ok (list_to_set leaves), d').
Proof.
  unfold store_event. intros (room' & d1 & H1 & H)%bind_inv Hroom Hl. injection H1 as H1 ->. assert (room' = room) as -> by congruence.
  do 4 (apply bind_inv in H as (? & ? & _ & H)). apply bind_inv in H as ([] & d2 & H2 & H).
  match type of H2 with _ ?d = _ => destruct (forward_extremities_roundtrip RU room leaves d Hl) as (d3 & E3 & Hg & _) end.
  rewrite H2 in E3. injection E3 as ->.
  match type of H with ?m d3 = _ => assert (keeps_field (λ d, kv d roomid_pduleaves) m) as Hk end.
  { unfold append_pdu, next_count, private_read_set, reset_notification_counts. keeps. }
  specialize (Hk d3). rewrite H in Hk. cbn [snd] in Hk. unfold get_forward_extremities, gets in *. rewrite Hk. by injection Hg as ->.
Qed.

(** The timeline service as the makers of events see it. *)
Definition appender : Appender.
Proof.
  refine {| append_event := append |}.
  - intros pdu json leaves s e He. by apply append_same.
  - intros pdu json leaves s pid s' room H Hroom Hl. unfold service_append_pdu in H. apply bind_inv in H as ([[n pid'] c] & s1 & H1%db_ok_inv & H).
    apply bind_inv in H as (room' & s2 & Hr & H). injection Hr as _ ->. pose proof (store_leaves pdu json leaves _ _ _ room H1 Hroom Hl) as Hg.
    pose proof (kept_leaves _ _ _ _ (after_store_kept is_alphanumeric to_lowercase server_name server_user admin_alias emergency_password
      calculate_password_hash direct_of direct_value ignored_of stripped_types redact_content_in_place rules_of_event server_default
      ruleset_get_actions appservices pdu room' n pid' c s2)) as Hk. rewrite H in Hk. cbn [snd] in Hk.
    unfold get_forward_extremities, gets in *. rewrite Hk. by injection Hg as ->.
Defined.
End appender.

(** * Samples *)

#[local] Existing Instance sample_ruma.
#[local] Existing Instance lru_unbounded.
#[local] Existing Instance elements_order.
#[local] Existing Instance sample_versions.
#[local] Existing Instance sample_create_contents.
#[local] Existing Instance sample_bodies.
#[local] Existing Instance sample_checks.
#[local] Existing Instance sample_map_order.
#[local] Existing Instance fetch_pdu_json.
#[local] Existing Instance fetch_tree_json.
#[local] Existing Instance fetch_object_json.
#[local] Existing Instance fetch_redaction_json.
#[local] Instance local_value_json : Json Value := json_countable Value.

#[local] Instance sample_signing : Signing := {|
  to_canonical_object _ := Some [];
  hash_and_sign_event o _ := inr o;
  uint_succ n := n + 1;
|}.

Definition sample_appender : Appender :=
  appender (JR := fetch_redaction_json) (JL := json_countable (list Value)) (LP := {| localpart := λ u, u |})
    (EB := sample_bodies) (RX := sample_regex) ascii_letter (λ w, w) (lit "b") (lit "@conduit:b") (lit "#admins:b") false (λ _, None) (λ _, None)
    (λ _, VNull) (λ _, None) [] (λ _ _ v, Some v) (Ruleset := unit) (λ _, None) (λ _, tt) (λ _ _ _ _ _ _, []) [].

(** A room with twenty-two leaves. *)
Definition many_leaves : list bytes := (λ n, lit "$" ++ [97 + Z.of_nat n]) <$> seq 0 22.

Definition leafy_server : Server := mkServer (mkSender (set_forward_extremities (lit "!r") many_leaves search_sample).2 ∅ [] [] true) ∅ [].

Definition sample_build (b : PduBuilder) (s : Server) : res bytes * Server :=
  build_and_append_pdu (AP := sample_appender) (lit "b") (lit "@conduit:b") (lit "#admins:b") (λ _ _ _ _ _, Some []) 5 b (lit "@a:b") (lit "!r") s.

Lemma leaves_beyond_twenty_lost_witness :
  let b := mkBuilder (lit "m.room.create") (lit "{}") None (Some []) None None in
  ∃ pdu leaf, pdu_event_id pdu = lit "$" ∧ leaf ∈ (list_to_set many_leaves : gset bytes) ∧ leaf ∉ pdu_prev_events pdu ∧
    (get_forward_extremities (lit "!r") (sv_db (sample_build b leafy_server).2)).1 = Ok {[lit "$"]}.
Proof.
  cbv zeta. set (b := mkBuilder _ _ _ _ _ _).
  destruct (leaves_beyond_twenty_lost (AP := sample_appender) (lit "b") (lit "@conduit:b") (lit "#admins:b") (λ _ _ _ _ _, Some []) 5 b (lit "@a:b") (lit "!r")
    leafy_server (lit "$") (sample_build b leafy_server).2 (list_to_set many_leaves)) as (pdu & leaf & H1 & _ & H2 & _ & H3 & H4).
  - apply injective_projections; [vm_compute; reflexivity|reflexivity].
  - vm_compute. lia.
  - change (sample_build b leafy_server = (Ok (lit "$"), (sample_build b leafy_server).2)).
    refine (eq_trans (surjective_pairing _) (f_equal (λ r, (r, (sample_build b leafy_server).2)) _)). vm_compute. reflexivity.
  - reflexivity.
  - exists pdu, leaf. split; [exact H1|]. split; [exact H2|]. split; [exact H3|]. exact (f_equal fst H4).
Defined.
