(* ===== verification/Membership.v ===== *)
(** * Membership: joining, knocking, leaving, inviting, kicking and banning

    [server/src/service/rooms/helpers/mod.rs] (joins, locally and over
    federation), [server/src/api/client_server/membership.rs] (the routes),
    [get_room_id_and_via_servers] of [service/rooms/state_cache/mod.rs],
    [get_alias_helper] of [service/rooms/alias/mod.rs], [user_can_invite] of
    [service/rooms/state_accessor/mod.rs], [convert_stripped_state] of
    [utils/mod.rs] and the full states of
    [database/key_value/rooms/state_accessor.rs].  The other servers and the
    JSON of member contents are parameters. *)
From S2P Require Import Prelude Bytes JsonValue KvTree Pdu Database Short StateCompressor RoomState Accounts StateCache.
From S2P Require Import Timeline PduJson UserKeys AuthChain Edus RoomTables Search Sending StateAccess MemberEvents Appservice TimelineService ServerKeys.
From S2P Require Import EventHandler EventHandlerInv EventFetch LocalEvents.

(** ** Member contents *)

(** [RoomMemberEventContent]. *)
Record MemberContent := mkMember {
  mc_membership : MembershipState;
  mc_displayname : option bytes;
  mc_avatar_url : option bytes;
  mc_is_direct : option bool;
  mc_third_party_invite : option Value;
  mc_blurhash : option bytes;
  mc_reason : option bytes;
  mc_join_authorized_via_users_server : option bytes;
}.

Definition new_member (membership : MembershipState) : MemberContent := mkMember membership None None None None None None None.

Class MemberContents := {
  member_content_of : bytes → option MemberContent;
  member_content_json : MemberContent → bytes;
}.

Definition membership_name (m : MembershipState) : bytes :=
  match m with
  | Ban => lit "ban"
  | Invite => lit "invite"
  | Join => lit "join"
  | Knock => lit "knock"
  | Leave => lit "leave"
  | CustomMembership s => s
  end.

(** Stripped state as other servers send it. *)
Inductive RawStrippedState := Stripped (event : Value) | StrippedPdu (pdu : bytes).

(** The answer to [send_join]. *)
Record SendJoin {Raw : Type} := mkSendJoin {
  sj_event : option Raw;
  sj_state : list Raw;
  sj_auth_chain : list Raw;
}.
Arguments SendJoin : clear implicits.

(** The other servers, by the endpoint asked. *)
Class MemberRemote {RV : RoomVersions} {EC : EventChecks} := {
  prepare_join_event : bytes → bytes → bytes → res (option bytes * Raw);
  create_join_event : bytes → bytes → bytes → CanonicalJsonObject → res (SendJoin Raw);
  prepare_knock_event : bytes → bytes → bytes → res (bytes * Raw);
  create_knock_event : bytes → bytes → bytes → CanonicalJsonObject → res (list RawStrippedState);
  prepare_leave_event : bytes → bytes → bytes → res (option bytes * Raw);
  create_leave_event : bytes → bytes → bytes → CanonicalJsonObject → res unit;
  (** room, event id, version, event and stripped state *)
  create_invite : bytes → bytes → bytes → bytes → CanonicalJsonObject → list CanonicalJsonObject → res Raw;
  get_room_information : bytes → bytes → res (bytes * list bytes);
  (** an appservice may change the server before it answers *)
  query_room_alias : bytes → bytes → M Db bool;
  (** [shuffle] *)
  shuffled : list bytes → list bytes;
  supported_room_versions : list bytes;
  (** [serde_json::from_value] of an event, [from_str] of an event in a list *)
  pdu_of_value : Value → option PduEvent;
  object_of_text : bytes → option CanonicalJsonObject;
  (** the sender of a stripped event, if the event can be deserialized *)
  stripped_sender : Value → option bytes;
  (** [RoomId::server_name] *)
  room_server : bytes → option bytes;
}.

(** [RawStrippedState] to the client's format: only four fields of an event
    remain. *)
Definition convert_stripped_state {RV : RoomVersions} {EC : EventChecks} {MR : MemberRemote} (stripped_state : list RawStrippedState) : res (list Value) :=
  collect ((λ s, match s with
    | Stripped state => Ok state
    | StrippedPdu state =>
        event ← ok_or (object_of_text state) (BadServerResponse "Invalid PDU in server response");
        Ok (VObject (bfilter (λ e, bool_decide (e.1 ∈ [lit "content"; lit "sender"; lit "state_key"; lit "type"])) event))
    end) <$> stripped_state).

Section members.
Context {RU : Ruma} {LR : LruCache} {HO : HashOrder} {MO : MapOrder} {CT : Contents} {RV : RoomVersions} {EB : EventBodies} {EC : EventChecks}.
Context {SG : Signing} {AP : Appender} {FE : Federation} {KJ : KeyJson} {KS : KeyServers} {TW : TimelineWriter} {MC : MemberContents} {MR : MemberRemote}.
Context {RX : Regex}.
Context `{JP : !Json PduEvent} `{JV : !Json Value} `{JL : !Json (list Value)} `{JM : !Json Tree} `{JF : !Json CanonicalJsonObject} `{JR : !Json RedactionContent}.
Context (sha256 : bytes → bytes) (server_name server_user admin_alias : bytes) (own_version own_public_key : bytes).
Context (auth_types_for_event : bytes → bytes → option bytes → bytes → AuthRules → option (list (bytes * bytes))).
Context (calculate_password_hash : bytes → option bytes).
Context (direct_of : Value → option (list (bytes * list bytes))) (direct_value : list (bytes * list bytes) → Value) (ignored_of : Value → option (list bytes)).
Context (stripped_types : list bytes) (appservices : list RegistrationInfo).
Notation build := (build_and_append_pdu server_name server_user admin_alias auth_types_for_event).
Notation update_membership := (update_membership server_name calculate_password_hash direct_of direct_value ignored_of).
Notation create_event := (create_hash_and_sign_event server_name auth_types_for_event).
Notation handle_incoming := (handle_incoming_pdu sha256 server_name own_version own_public_key auth_types_for_event).

(** ** Full states *)

Definition state_full (shortstatehash : Z) : M Db (gmap (bytes * bytes) PduEvent) :=
  full_state ← load_full_state shortstatehash;
  foldM (λ result compressed,
    '(_, eventid) ← parse_compressed_state_event compressed;
    o ← get_pdu eventid;
    match o with
    | None => mret result
    | Some pdu =>
        state_key ← lift (ok_or (pdu_state_key pdu) (BadDatabase "State event has no state key."));
        mret (<[(pdu_kind pdu, state_key) := pdu]> result)
    end) ∅ (hash_iter full_state).

Definition room_state_full (room_id : bytes) : M Db (gmap (bytes * bytes) PduEvent) :=
  o ← get_room_shortstatehash room_id;
  match o with Some h => state_full h | None => mret ∅ end.

(** ** Where to ask *)

Definition get_alias_helper (room_alias : bytes) : M Db (bytes * list bytes) :=
  if bool_decide (server_name_of room_alias ≠ server_name) then
    '(room_id, servers) ← lift (get_room_information (server_name_of room_alias) room_alias);
    mret (room_id, shuffled servers)
  else
    o ← resolve_local_alias room_alias;
    room ← match o with
      | Some r => mret (Some r)
      | None =>
          (fix ask (l : list RegistrationInfo) : M Db (option bytes) :=
            match l with
            | [] => mret None
            | appservice :: l =>
                known ← (if is_match (aliases appservice) room_alias then query_room_alias (reg_id (registration appservice)) room_alias else mret false);
                if (known : bool) then
                  o ← resolve_local_alias room_alias;
                  r ← lift (ok_or o (BadConfig "Appservice lied to us. Room does not exist."));
                  mret (Some r)
                else ask l
            end) appservices
      end;
    room_id ← lift (ok_or room (BadRequest NotFound "Room with alias not found."));
    mret (room_id, [server_name]).

(** The servers to ask about a room, and its id. *)
Definition get_room_id_and_via_servers (sender_user room_id_or_alias : bytes) (via : list bytes) : M Db (list bytes * bytes) :=
  if room_id_ok room_id_or_alias then
    let room_id := room_id_or_alias in
    invite ← invite_state sender_user room_id;
    state ← match invite with Some s => mret (Some s) | None => knock_state sender_user room_id end;
    let servers := via ++ (server_name_of <$> omap stripped_sender (default [] state : list Value)) in
    mret (servers ++ match room_server room_id with Some s => [s] | None => [] end, room_id)
  else
    '(room_id, servers) ← get_alias_helper room_id_or_alias;
    mret (servers, room_id).

(** * Membership events *)

(** A member event of a user, as this server makes it. *)
Definition member_builder (user_id : bytes) (content : MemberContent) : PduBuilder :=
  mkBuilder (lit "m.room.member") (member_content_json content) None (Some user_id) None None.

(** A content with the profile of the user. *)
Definition profile_content (user_id : bytes) (membership : MembershipState) (is_direct : option bool) (reason authorized : option bytes) : M Db MemberContent :=
  displayname ← displayname user_id;
  avatar_url ← avatar_url user_id;
  blurhash ← blurhash user_id;
  mret (mkMember membership displayname avatar_url is_direct None blurhash reason authorized).

(** Fill in a template of a [make_*] endpoint: the event id, the event, and
    whether the join is restricted. *)
Definition populate_membership_template (now : Z) (member_template : Raw) (sender_user : bytes) (reason : option bytes) (room_version : bytes)
    (membership : MembershipState) : M Db (bytes * CanonicalJsonObject * bool) :=
  stub ← lift (ok_or (parse_event member_template) (BadServerResponse "Invalid make_knock event json received from server."));
  let content := match field (lit "content") stub with Some (VObject obj) => obj | _ => [] end in
  let stub := remove_json_field (lit "content") stub in
  let restricted_join := bool_decide (is_Some (field (lit "join_authorized_via_users_server") content)) in
  let stub := set_json_field (lit "type") (VString (lit "m.room.member"))
    (set_json_field (lit "origin_server_ts") (VNumber now) (set_json_field (lit "origin") (VString server_name) stub)) in
  let content := set_json_field (lit "membership") (VString (membership_name membership)) content in
  displayname ← displayname sender_user;
  let content := put_string (lit "displayname") displayname content in
  avatar_url ← avatar_url sender_user;
  let content := put_string (lit "avatar_url") avatar_url content in
  blurhash ← blurhash sender_user;
  let content := put_string (lit "blurhash") blurhash content in
  let content := put_string (lit "reason") reason content in
  let stub := set_json_field (lit "content") (VObject content) stub in
  let stub := set_json_field (lit "state_key") (VString sender_user) (set_json_field (lit "sender") (VString sender_user) stub) in
  let stub := remove_json_field (lit "event_id") stub in
  redaction ← lift (expect (redaction_rules room_version));
  signed ← lift (match hash_and_sign_event stub redaction with inr o => Ok o | inl _ => Panic end);
  hash ← lift (expect (reference_hash room_version signed));
  let event_id := lit "$" ++ hash in
  if negb (event_id_ok event_id) then lift Panic else
  mret (event_id, set_json_field (lit "event_id") (VString event_id) signed, restricted_join).

(** The first other server that answers, or the last error. *)
Fixpoint make_join_request (sender_user room_id : bytes) (servers : list bytes) (last : res (option bytes * Raw * bytes)) : res (option bytes * Raw * bytes) :=
  match servers with
  | [] => last
  | remote_server :: servers =>
      if bool_decide (remote_server = server_name) then make_join_request sender_user room_id servers last else
      match prepare_join_event remote_server room_id sender_user with
      | Ok (version, event) => Ok (version, event, remote_server)
      | Err e => make_join_request sender_user room_id servers (Err e)
      | Panic => Panic
      end
  end.

Definition no_join_server : res (option bytes * Raw * bytes) := Err (BadServerResponse "No server available to assist in joining.").

(** The version of the answer, if this server supports it. *)
Definition supported_version (v : option bytes) : res bytes :=
  match v with
  | Some version => if bool_decide (version ∈ supported_room_versions) then Ok version else Err (BadServerResponse "Room version is not supported")
  | None => Err (BadServerResponse "Room version is not supported")
  end.

(** ** The events of a [send_join] answer *)

Definition join_origin_server_ts (value : CanonicalJsonObject) : res Z :=
  v ← ok_or (field (lit "origin_server_ts") value) (BadRequest MissingParam "Invalid PDU, no origin_server_ts field");
  match v with
  | VNumber n => if 0 <=? n then Ok n else Err (BadRequest InvalidParam "Time must be after the unix epoch")
  | _ => Err (BadRequest InvalidParam "origin_server_ts must be an integer")
  end.

Definition validate_and_add_event_id (now : Z) (pdu : Raw) (room_version : bytes) : M Handler (bytes * CanonicalJsonObject) :=
  value ← lift (ok_or (parse_event pdu) (BadServerResponse "Invalid PDU in server response"));
  lift (rules_of room_version);;
  hash ← lift (ok_or (reference_hash room_version value) (BadRequest BadJson "Invalid PDU format"));
  let event_id := lit "$" ++ hash in
  (if event_id_ok event_id then mret tt else lift Panic);;
  wait ← gets (λ h, backing_off 30 now event_id (h_bad_event h));
  if (wait : bool) then fail (BadServerResponse "bad event, still backing off") else
  if negb (check_pdu_format room_version value) then fail (BadServerResponse "Received Invalid PDU") else
  origin_server_ts ← lift (join_origin_server_ts value);
  keys ← gets (λ h, Ok (filter_keys_server_map ignored_keys (h_pub_keys h) origin_server_ts (enforce_key_validity room_version)));
  match verify_event keys value room_version with
  | None => back_off_event now event_id;; fail (BadServerResponse "Event failed verification.")
  | Some _ => mret (event_id, set_json_field (lit "event_id") (VString event_id) value)
  end.

(** One event of the state: stored as an outlier, and part of the state if it
    has a state key. *)
Definition add_join_state (now : Z) (room_version : bytes) (state : gmap Z bytes) (pdu : Raw) : M Handler (gmap Z bytes) :=
  r ← try_ok (validate_and_add_event_id now pdu room_version);
  match r with
  | None => mret state
  | Some (event_id, value) =>
      pdu ← lift (ok_or (from_id_val pdu_of_value event_id value) (BadServerResponse "Invalid PDU in send_join response."));
      hdb (add_pdu_outlier event_id value);;
      match pdu_state_key pdu with
      | Some state_key =>
          shortstatekey ← hdb (get_or_create_shortstatekey (pdu_kind pdu) state_key);
          mret (<[shortstatekey := pdu_event_id pdu]> state)
      | None => mret state
      end
  end.

Definition add_join_auth (now : Z) (room_version : bytes) (pdu : Raw) : M Handler unit :=
  r ← try_ok (validate_and_add_event_id now pdu room_version);
  match r with
  | None => mret tt
  | Some (event_id, value) => hdb (add_pdu_outlier event_id value)
  end.

(** The events of the answer: its state, and then its auth chain. *)
Definition store_join_events (now : Z) (room_version : bytes) (send_join : SendJoin Raw) : M Handler (gmap Z bytes) :=
  state ← foldM (add_join_state now room_version) ∅ (sj_state send_join);
  for_each (sj_auth_chain send_join) (add_join_auth now room_version);;
  mret state.

(** The join event with the signature of the resident server. *)
Definition add_join_signature (remote_server room_version event_id : bytes) (event : option Raw) (join_event : CanonicalJsonObject) : res CanonicalJsonObject :=
  match event with
  | None => Ok join_event
  | Some signed_raw =>
      match gen_event_id_canonical_json room_version signed_raw with
      | Ok (signed_event_id, signed_value) =>
          if bool_decide (signed_event_id ≠ event_id) then Err (BadRequest InvalidParam "Server sent event with wrong event id") else
          match field (lit "signatures") signed_value with
          | Some (VObject signatures) =>
              match field remote_server signatures with
              | Some signature =>
                  match field (lit "signatures") join_event with
                  | Some (VObject ours) => Ok (set_json_field (lit "signatures") (VObject (set_json_field remote_server signature ours)) join_event)
                  | _ => Panic
                  end
              | None => Ok join_event
              end
          | _ => Ok join_event
          end
      | Panic => Panic
      | Err _ => Err (BadRequest InvalidParam "Could not convert event to canonical json.")
      end
  end.

(** Step of the auth check: the state event under a type and key. *)
Definition join_lookup (state : gmap Z bytes) (k s : bytes) : M Handler (option PduEvent) :=
  o ← try_ok (hdb (get_or_create_shortstatekey k s));
  match o ≫= λ shortstatekey, state !! shortstatekey with
  | Some event_id => fetch_event event_id
  | None => mret None
  end.

Definition check_join (rules : AuthRules) (pdu : PduEvent) (state : gmap Z bytes) : M Handler unit :=
  independent ← check_state_independent_auth_rules rules pdu fetch_event;
  dependent ← (if (independent : bool) then check_state_dependent_auth_rules rules pdu (join_lookup state) else mret false);
  if (dependent : bool) then mret tt else fail (BadRequest InvalidParam "Auth check failed").

(** The events whose keys are fetched: what the key functions read of them. *)
Definition reset_keys : M Handler unit := hk (set_pub_keys (λ _, ∅)).

(** ** Joining over federation *)

Definition remote_join (now : Z) (sender_user room_id : bytes) (reason : option bytes) (servers : list bytes) : M Handler unit :=
  '(version, template, remote_server) ← lift (make_join_request sender_user room_id servers no_join_server);
  room_version ← lift (supported_version version);
  rules ← lift (rules_of room_version);
  '(event_id, join_event, _) ← hdb (populate_membership_template now template sender_user reason room_version Join);
  send_join ← lift (create_join_event remote_server room_id event_id (convert_to_outgoing_federation_event join_event));
  join_event ← lift (add_join_signature remote_server room_version event_id (sj_event send_join) join_event);
  if negb (check_pdu_format room_version join_event) then fail (BadServerResponse "Received Invalid PDU") else
  hdb (get_or_create_shortroomid room_id);;
  parsed_join_pdu ← lift (ok_or (from_id_val pdu_of_value event_id join_event) (BadServerResponse "Invalid join event PDU."));
  reset_keys;;
  hk (fetch_join_signing_keys server_name own_version own_public_key parse_event (reference_hash room_version) now (sj_state send_join) (sj_auth_chain send_join));;
  state ← store_join_events now room_version send_join;
  check_join rules parsed_join_pdu state;;
  compressed ← compress_state state;
  '(statehash_before_join, new, removed) ← hdb (save_state sha256 room_id compressed);
  hs (force_room_state room_id statehash_before_join new);;
  hdb (update_joined_count server_name room_id);;
  (* We append to state before appending the pdu, so we don't have a moment in time with the pdu without it's state. *)
  statehash_after_join ← hdb (append_to_state parsed_join_pdu);
  hs (append_event parsed_join_pdu join_event [pdu_event_id parsed_join_pdu]);;
  hdb (set_room_state room_id statehash_after_join).

(** ** Joining locally *)

Definition user_can_invite (now : Z) (room_id sender target_user : bytes) : M Db bool :=
  r ← attempt (create_event now (member_builder target_user (new_member Invite)) sender (Some room_id));
  match r with Panic => lift Panic | _ => mret (is_ok r) end.

(** A local member of the room who may invite the user. *)
Fixpoint find_inviter (now : Z) (room_id sender_user : bytes) (users : list bytes) : M Db (option bytes) :=
  match users with
  | [] => mret None
  | user :: users =>
      can ← (if bool_decide (server_name_of user = server_name) then
          o ← try_ok (user_can_invite now room_id user sender_user); mret (default false o)
        else mret false);
      if (can : bool) then mret (Some user) else find_inviter now room_id sender_user users
  end.

(** Whether the user is in one of the rooms that allow joining. *)
Fixpoint joined_any (sender_user : bytes) (rooms : list bytes) : M Db bool :=
  match rooms with
  | [] => mret false
  | room :: rooms =>
      o ← try_ok (is_joined sender_user room);
      if default false o then mret true else joined_any sender_user rooms
  end.

Definition authorized_user (now : Z) (room_id sender_user : bytes) (restriction_rooms : list bytes) : M Db (option bytes) :=
  b ← joined_any sender_user restriction_rooms;
  if (b : bool) then
    members ← gets (λ d, Ok (oks (room_members room_id d)));
    find_inviter now room_id sender_user members
  else mret None.

(** A restricted join that the server cannot authorise itself, with the help of
    another server. *)
Definition assisted_join (rounds fuel : nat) (now : Z) (sender_user room_id : bytes) (reason : option bytes) (servers : list bytes) : M Handler unit :=
  '(version, template, remote_server) ← lift (make_join_request sender_user room_id servers no_join_server);
  room_version ← lift (supported_version version);
  '(event_id, join_event, restricted_join) ← hdb (populate_membership_template now template sender_user reason room_version Join);
  send_join ← lift (create_join_event remote_server room_id event_id (convert_to_outgoing_federation_event join_event));
  pdu ← lift (match sj_event send_join with
    | Some signed_raw =>
        '(signed_event_id, signed_pdu) ← gen_event_id_canonical_json room_version signed_raw;
        if bool_decide (signed_event_id ≠ event_id) then Err (BadServerResponse "Server sent event with wrong event id") else Ok signed_pdu
    | None =>
        if (restricted_join : bool) then Err (BadServerResponse "No signed event was returned, despite just performing a restricted join") else Ok join_event
    end);
  reset_keys;;
  handle_incoming rounds fuel now remote_server event_id room_id pdu true;;
  mret tt.

Definition local_join (rounds fuel : nat) (now : Z) (sender_user room_id : bytes) (reason : option bytes) (servers : list bytes) : M Handler unit :=
  rule ← hdb (get_join_rules room_id);
  let restriction_rooms := match rule with Some r => allowed_room_ids r | None => [] end in
  authorized ← hdb (authorized_user now room_id sender_user restriction_rooms);
  event ← hdb (profile_content sender_user Join None reason authorized);
  (* Try normal join first *)
  r ← attempt (hs (build now (member_builder sender_user event) sender_user room_id));
  match r with
  | Ok _ => mret tt
  | Panic => lift Panic
  | Err error =>
      if bool_decide (restriction_rooms ≠ []) && existsb (λ s, bool_decide (s ≠ server_name)) servers
      then assisted_join rounds fuel now sender_user room_id reason servers
      else fail error
  end.

Definition join_room_by_id (rounds fuel : nat) (now : Z) (sender_user room_id : bytes) (reason : option bytes) (servers : list bytes) : M Handler bytes :=
  o ← try_ok (hdb (is_joined sender_user room_id));
  if default false o then mret room_id else
  here ← hdb (server_in_room server_name room_id);
  (if (here : bool) then local_join rounds fuel now sender_user room_id reason servers
   else remote_join now sender_user room_id reason servers);;
  mret room_id.

(** * The routes *)

Definition join_room_by_id_route (rounds fuel : nat) (now : Z) (sender_user room_id : bytes) (reason : option bytes) : M Handler bytes :=
  '(servers, room_id) ← hdb (get_room_id_and_via_servers sender_user room_id []);
  join_room_by_id rounds fuel now sender_user room_id reason servers.

Definition join_room_by_id_or_alias_route (rounds fuel : nat) (now : Z) (sender_user room_id_or_alias : bytes) (via : list bytes) (reason : option bytes)
    : M Handler bytes :=
  '(servers, room_id) ← hdb (get_room_id_and_via_servers sender_user room_id_or_alias via);
  join_room_by_id rounds fuel now sender_user room_id reason servers.

(** ** Knocking *)

Fixpoint make_knock_request (sender_user room_id : bytes) (servers : list bytes) : res (bytes * Raw * bytes) :=
  match servers with
  | [] => Err (BadServerResponse "No server available to assist in knocking.")
  | remote_server :: servers =>
      if bool_decide (remote_server = server_name) then make_knock_request sender_user room_id servers else
      match prepare_knock_event remote_server room_id sender_user with
      | Ok (version, event) => Ok (version, event, remote_server)
      | Err _ => make_knock_request sender_user room_id servers
      | Panic => Panic
      end
  end.

Definition remote_knock (now : Z) (sender_user room_id : bytes) (reason : option bytes) (servers : list bytes) : M Handler unit :=
  '(version, template, remote_server) ← lift (make_knock_request sender_user room_id servers);
  room_version ← lift (supported_version (Some version));
  '(event_id, knock_event, _) ← hdb (populate_membership_template now template sender_user reason room_version Knock);
  stripped ← lift (create_knock_event remote_server room_id event_id (convert_to_outgoing_federation_event knock_event));
  pdu ← lift (ok_or (from_id_val pdu_of_value event_id knock_event)
    (BadServerResponse "Invalid JSON in membership event, likely due to bad template from remote server"));
  own ← lift (to_stripped_state_event pdu);
  stripped_state ← lift (convert_stripped_state (stripped ++ [Stripped own]));
  hdb (update_membership room_id sender_user Knock sender_user (Some stripped_state) false).

Definition knock_room_route (now : Z) (sender_user room_id_or_alias : bytes) (via : list bytes) (reason : option bytes) : M Handler bytes :=
  '(servers, room_id) ← hdb (get_room_id_and_via_servers sender_user room_id_or_alias via);
  here ← hdb (server_in_room server_name room_id);
  (if negb here then remote_knock now sender_user room_id reason servers else
    rule ← hdb (get_join_rules room_id);
    match rule with
    | Some JKnock | Some (JKnockRestricted _) =>
        event ← hdb (profile_content sender_user Knock None reason None);
        hs (build now (member_builder sender_user event) sender_user room_id);;
        mret tt
    | _ => fail (BadRequest Forbidden "You are not allowed to knock on this room.")
    end);;
  mret room_id.

(** ** Leaving *)

(** The servers of the senders of an invite's stripped state. *)
Definition inviting_servers (invite_state : list Value) : gset bytes :=
  list_to_set (omap (λ event, match value_get (lit "sender") event with
    | Some (VString sender) => if user_id_ok sender then Some (server_name_of sender) else None
    | _ => None
    end) invite_state).

Fixpoint make_leave_request (user_id room_id : bytes) (servers : list bytes) (last : res (option bytes * Raw * bytes)) : res (option bytes * Raw * bytes) :=
  match servers with
  | [] => last
  | remote_server :: servers =>
      match prepare_leave_event remote_server room_id user_id with
      | Ok (version, event) => Ok (version, event, remote_server)
      | Err e => make_leave_request user_id room_id servers (Err e)
      | Panic => Panic
      end
  end.

Definition remote_leave_room (now : Z) (user_id room_id : bytes) (reason : option bytes) : M Db unit :=
  o ← invite_state user_id room_id;
  state ← lift (ok_or o (BadRequest BadState "User is not invited."));
  '(version, template, remote_server) ← lift (make_leave_request user_id room_id (hash_iter (inviting_servers state))
    (Err (BadServerResponse "No server available to assist in leaving.")));
  room_version ← lift (supported_version version);
  '(event_id, leave_event, _) ← populate_membership_template now template user_id reason room_version Leave;
  lift (create_leave_event remote_server room_id event_id (convert_to_outgoing_federation_event leave_event)).

(** The content of a member event that ends the membership. *)
Definition left_content (event : MemberContent) (reason : option bytes) : MemberContent :=
  mkMember Leave (mc_displayname event) (mc_avatar_url event) None None (mc_blurhash event) reason None.

Definition leave_room (now : Z) (user_id room_id : bytes) (reason : option bytes) : M Server unit :=
  here ← db_ (server_in_room server_name room_id);
  (* Ask a remote server if we don't have this room *)
  if negb here then
    (* Don't tell the client about this error *)
    try_ok (db_ (remote_leave_room now user_id room_id reason));;
    invite ← db_ (invite_state user_id room_id);
    last_state ← match invite with Some s => mret (Some s) | None => db_ (left_state user_id room_id) end;
    (* We always drop the invite, we can't rely on other servers *)
    db_ (update_membership room_id user_id Leave user_id last_state true)
  else
    member_event ← db_ (room_state_get room_id (lit "m.room.member") user_id);
    match member_event with
    (* Fix for broken rooms *)
    | None => db_ (update_membership room_id user_id Leave user_id None true)
    | Some e =>
        event ← lift (ok_or (member_content_of (pdu_content e)) (BadDatabase "Invalid member event in database."));
        build now (member_builder user_id (left_content event reason)) user_id room_id;;
        mret tt
    end.

Definition leave_room_route := leave_room.

(** Make a user leave all their joined rooms. *)
Definition leave_all_rooms (now : Z) (user_id : bytes) : M Server unit :=
  all_rooms ← db_ (gets (λ d, Ok (rooms_joined user_id d ++ ((λ r : res (bytes * list Value), '(room, _) ← r; Ok room) <$> rooms_invited user_id d))));
  for_each (oks all_rooms) (λ room_id, try_ok (leave_room now user_id room_id None);; mret tt).

(** ** Inviting *)

(** An invite for a user of another server: that server signs it. *)
Definition remote_invite (rounds fuel : nat) (now : Z) (sender_user user_id room_id : bytes) (reason : option bytes) (is_direct : bool) : M Handler unit :=
  '(pdu, pdu_json) ← hdb (create_event now (member_builder user_id (mkMember Invite None None (Some is_direct) None None reason None)) sender_user (Some room_id));
  room ← lift (Database.room_id pdu);
  invite_room_state ← hdb (stripped_state_federation stripped_types room);
  o ← hdb (room_state_get_id room (lit "m.room.member") sender_user);
  invite_room_state ← match o with
    | None => mret invite_room_state
    | Some id =>
        o ← hdb (get_pdu_json id : M Db (option CanonicalJsonObject));
        json ← lift (expect o);
        mret (invite_room_state ++ [convert_to_outgoing_federation_event json])
    end;
  room_version ← hdb (get_room_version room_id);
  response ← lift (create_invite (server_name_of user_id) room_id (pdu_event_id pdu) room_version (convert_to_outgoing_federation_event pdu_json) invite_room_state);
  lift (rules_of room_version);;
  '(event_id, value) ← lift (match gen_event_id_canonical_json room_version response with
    | Ok t => Ok t
    | Panic => Panic
    | Err _ => Err (BadRequest InvalidParam "Could not convert event to canonical json.")
    end);
  origin ← lift (ok_or (field (lit "origin") value) (BadRequest InvalidParam "Event needs an origin field."));
  origin ← lift (match origin with
    | VString o => if server_name_ok o then Ok o else Err (BadRequest InvalidParam "Origin field is invalid.")
    | _ => Err (BadRequest InvalidParam "Origin field is invalid.")
    end);
  reset_keys;;
  o ← handle_incoming rounds fuel now origin event_id room_id value true;
  pdu_id ← lift (ok_or o (BadRequest InvalidParam "Could not accept incoming PDU as timeline event."));
  servers ← hdb (gets (λ d, Ok (bfilter (λ s, negb (bool_decide (s = server_name))) (oks (room_servers room_id d)))));
  hs (on_sender (send_pdu servers pdu_id)).

Definition invite_helper (rounds fuel : nat) (now : Z) (sender_user user_id room_id : bytes) (reason : option bytes) (is_direct : bool) : M Handler unit :=
  if bool_decide (server_name_of user_id ≠ server_name) then remote_invite rounds fuel now sender_user user_id room_id reason is_direct else
  joined ← hdb (is_joined sender_user room_id);
  if negb joined then fail (BadRequest Forbidden "You don't have permission to view this room.") else
  event ← hdb (profile_content user_id Invite (Some is_direct) reason None);
  hs (build now (member_builder user_id event) sender_user room_id);;
  mret tt.

(** The recipient is a user id, or a third-party identifier. *)
Definition invite_user_route (rounds fuel : nat) (now : Z) (sender_user : bytes) (recipient : option bytes) (room_id : bytes) (reason : option bytes)
    : M Handler unit :=
  match recipient with
  | Some user_id => invite_helper rounds fuel now sender_user user_id room_id reason false
  | None => fail (BadRequest NotFound "User not found.")
  end.

(** ** Kicking and banning *)

(** End a membership: [missing] is the error for a user without one. *)
Definition end_membership (missing : string) (now : Z) (sender_user user_id room_id : bytes) (reason : option bytes) : M Server unit :=
  o ← db_ (room_state_get room_id (lit "m.room.member") user_id);
  e ← lift (ok_or o (BadRequest BadState missing));
  event ← lift (ok_or (member_content_of (pdu_content e)) (BadDatabase "Invalid member event in database."));
  (* If they are already kicked and the reason is unchanged, there isn't any point in sending a new event. *)
  if bool_decide (mc_membership event = Leave) && bool_decide (mc_reason event = reason) then mret tt else
  build now (member_builder user_id (left_content event reason)) sender_user room_id;;
  mret tt.

Definition kick_user_route := end_membership "Cannot kick a user who is not in the room.".

Definition unban_user_route := end_membership "Cannot unban a user who is not banned.".

Definition ban_user_route (now : Z) (sender_user user_id room_id : bytes) (reason : option bytes) : M Server unit :=
  o ← db_ (room_state_get room_id (lit "m.room.member") user_id);
  let previous := o ≫= λ e, member_content_of (pdu_content e) in
  (* If they are already banned and the reason is unchanged, there isn't any point in sending a new event. *)
  if match previous with Some event => bool_decide (mc_membership event = Ban) && bool_decide (mc_reason event = reason) | None => false end then mret tt else
  let event := match previous with
    | Some event => mkMember Ban (mc_displayname event) (mc_avatar_url event) None None (mc_blurhash event) reason None
    | None => mkMember Ban None None None None None reason None
    end in
  build now (member_builder user_id event) sender_user room_id;;
  mret tt.

(** ** Listing *)

Definition forget_room_route (sender_user room_id : bytes) : M Db unit := forget room_id sender_user.

Definition joined_rooms_route (sender_user : bytes) (d : Db) : list bytes := oks (rooms_joined sender_user d).

Definition get_member_events_route (sender_user room_id : bytes) : M Db (list Value) :=
  can ← user_can_see_state_events sender_user room_id;
  if negb can then fail (BadRequest Forbidden "You don't have permission to view this room.") else
  state ← room_state_full room_id;
  lift (collect ((λ e : (bytes * bytes) * PduEvent, to_member_event e.2) <$> bfilter (λ e, bool_decide (e.1.1 = lit "m.room.member")) (map_iter state))).

Definition joined_members_route (sender_user room_id : bytes) : M Db (gmap bytes (option bytes * option bytes)) :=
  can ← user_can_see_state_events sender_user room_id;
  if negb can then fail (BadRequest Forbidden "You don't have permission to view this room.") else
  members ← gets (λ d, Ok (oks (room_members room_id d)));
  foldM (λ joined user_id,
    display_name ← displayname user_id;
    avatar_url ← avatar_url user_id;
    mret (<[user_id := (display_name, avatar_url)]> joined)) ∅ members.
End members.
