(* ===== verification/LocalAccounts.v ===== *)
(** * LocalAccounts: the accounts of this server's users

    Nothing that happens in a room, and no purge of media, touches the password
    of a user of this server: the timeline ([TimelineService]) creates accounts for the
    users of other servers only.  [KeepsAccounts] is what the makers of events
    rely on; the timeline service has it, and so leaving rooms ([Membership]) and
    purging media ([MediaStore]) keep the accounts. *)
From S2P Require Import Prelude Bytes JsonValue KvTree Pdu Database Short StateCompressor RoomState Accounts StateCache.
From S2P Require Import Timeline PduJson AccountData Devices UserKeys AuthChain Edus RoomTables Search Sending StateAccess MemberEvents Appservice TimelineService ServerKeys.
From S2P Require Import MediaStore MediaService EventHandler EventHandlerInv EventFetch LocalEvents Membership.

(** What appending an event promises about the users of this server. *)
Class KeepsAccounts {RU : Ruma} {AP : Appender} (server_name : bytes) := append_event_accounts : ∀ pdu json leaves s u,
  server_name_of u = server_name → kv (sv_db (append_event pdu json leaves s).2) userid_password !! u = kv (sv_db s) userid_password !! u.

Create HintDb accounts discriminated.

Ltac follows := repeat first
  [ progress (intros; cbv beta)
  | solve [eauto with accounts]
  | apply along_bind; [apply _| |]
  | apply along_try_ok
  | apply along_for_each; [apply _|]
  | match goal with |- along _ (match ?x with _ => _ end) => destruct x end
  | match goal with |- along _ (let '_ := ?x in _) => destruct x end ].

Section accounts.
Context {RU : Ruma} (server_name u : bytes) (local : server_name_of u = server_name).

(** The account of the user. *)
Abbreviation account := (λ d : Db, kv d userid_password !! u).

Lemma kv_account {A} (m : M Db A) : keeps_kv m → keeps_field account m.
Proof. intros H d. cbv beta. by rewrite H. Qed.

Lemma account_attempt {A} (m : M Db A) : keeps_field account m → keeps_field account (attempt m).
Proof. intros H d. unfold attempt. specialize (H d). by destruct (m d) as [[]]. Qed.

Lemma account_unwrap {A} (m : M Db A) : keeps_field account m → keeps_field account (unwrap m).
Proof. intros H d. unfold unwrap. specialize (H d). by destruct (m d) as [[]]. Qed.

#[local] Hint Extern 2 (keeps_field _ (attempt _)) => (apply account_attempt) : keeps.
#[local] Hint Extern 2 (keeps_field _ (unwrap _)) => (apply account_unwrap) : keeps.

Lemma account_count : keeps_field account next_count.
Proof. unfold next_count. keeps. Qed.
#[local] Hint Resolve account_count : keeps.

(** ** Rooms *)

Context {LR : LruCache} {HO : HashOrder} {MO : MapOrder} {CT : Contents} {RV : RoomVersions} {EB : EventBodies} {EC : EventChecks} {RX : Regex} {LP : Localpart}.
Context {JP : Json PduEvent} {JV : Json Value} {JL : Json (list Value)} {JR : Json RedactionContent} {JF : Json CanonicalJsonObject}.
Context (calculate_password_hash : bytes → option bytes).
Context (direct_of : Value → option (list (bytes * list bytes))) (direct_value : list (bytes * list bytes) → Value) (ignored_of : Value → option (list bytes)).

Lemma account_room_state room t k : keeps_field account (room_state_get room t k).
Proof. apply kv_account, keeps_room_state_get. Qed.

Lemma account_get_pdu id : keeps_field account (get_pdu id).
Proof. apply kv_account, keeps_get_pdu. Qed.

Lemma account_load h : keeps_field account (load_shortstatehash_info h).
Proof. apply kv_account, keeps_load_shortstatehash_info. Qed.
#[local] Hint Resolve account_room_state account_get_pdu account_load : keeps.

Lemma account_state_get h t k : keeps_field account (state_get h t k).
Proof. unfold state_get, state_get_id, load_full_state, get_shortstatekey, parse_compressed_state_event, get_eventid_from_short. keeps. Qed.
#[local] Hint Resolve account_state_get : keeps.

Lemma account_version room : keeps_field account (get_room_version room).
Proof. unfold get_room_version. keeps. Qed.

Lemma account_levels room : keeps_field account (power_levels room).
Proof. unfold power_levels. keeps. Qed.
#[local] Hint Resolve account_version account_levels : keeps.

Lemma account_can_redact id sender room b : keeps_field account (user_can_redact id sender room b).
Proof. unfold user_can_redact. keeps. Qed.

Lemma account_joined_count room : keeps_field account (update_joined_count server_name room).
Proof. unfold update_joined_count, drop_old_server, add_server. keeps. Qed.
#[local] Hint Resolve account_can_redact account_joined_count : keeps.

(** Only users of other servers get an account. *)
Lemma account_create user : server_name_of user ≠ server_name → keeps_field account (Devices.create calculate_password_hash user None).
Proof.
  intros Hne d. unfold Devices.create, set_password, insert. run. cbn [snd]. kv_simpl. unfold kv_insert. rewrite lookup_insert_ne; [done|]. intros ->. by apply Hne.
Qed.

Lemma account_membership room user ms sender last b :
  keeps_field account (update_membership server_name calculate_password_hash direct_of direct_value ignored_of room user ms sender last b).
Proof.
  unfold update_membership. apply keeps_bind; [case_bool_decide; [by apply account_create|keeps]|]. intros _. cbv zeta.
  unfold once_joined, has_userroom, first_join, mark_as_once_joined, copy_settings, get_data, update,
    mark_as_joined, mark_as_invited, mark_as_knocked, mark_as_left, is_ignored. keeps.
Qed.
#[local] Hint Resolve account_membership : keeps.

Lemma account_member_event types pdu room :
  keeps_field account (member_event_effect server_name calculate_password_hash direct_of direct_value ignored_of types pdu room).
Proof. unfold member_event_effect, stripped_state_client. keeps. Qed.

Lemma account_redaction alnum lower inplace pdu room s : keeps_field account (redaction_effect alnum lower inplace pdu room s).
Proof.
  unfold redaction_effect, redact_if_allowed, redact_pdu, get_pdu_id, get_pdu_from_id, get_from_id, deindex_pdu, replace_pdu. keeps.
Qed.

Lemma account_relationships pdu c : keeps_field account (update_relationships pdu c).
Proof.
  unfold update_relationships, relate_to, relate, get_pdu_count, add_relation, add_to_thread, get_pdu_id, get_pdu_from_id, get_pdu_json_from_id, get_from_id,
    replace_pdu, get_participants, update_participants. keeps.
Qed.

Lemma account_queue l : keeps_field account (queue_requests l).
Proof. unfold queue_requests, request_key. keeps. Qed.

Lemma account_event_state e : keeps_field account (pdu_shortstatehash e).
Proof. unfold pdu_shortstatehash. keeps. Qed.
#[local] Hint Resolve account_event_state : keeps.

Lemma account_store pdu json leaves : keeps_field account (store_event pdu json leaves).
Proof.
  unfold store_event, get_shortroomid, fix_unsigned, mark_as_referenced, set_forward_extremities, private_read_set, reset_notification_counts,
    Timeline.append_pdu. keeps.
Qed.
#[local] Hint Resolve account_member_event account_redaction account_relationships account_queue account_store : keeps.

(** ** The timeline *)

(** Steps of the services that keep the account. *)
Definition Keeps (s s' : Server) : Prop := kv (sv_db s') userid_password !! u = kv (sv_db s) userid_password !! u.

#[local] Instance Keeps_preorder : PreOrder Keeps.
Proof. split; [by intros s|]. intros s1 s2 s3 H1 H2. unfold Keeps in *. by rewrite H2. Qed.

Lemma db_keeps {A} (m : M Db A) : keeps_field account m → along Keeps (db_ m).
Proof. intros H s. unfold Keeps. rewrite sv_db_db. apply H. Qed.

Lemma send_keeps l : along Keeps (on_sender (send_requests l)).
Proof.
  intros s. pose proof (account_queue l (sv_db s)) as H. unfold Keeps, on_sender, send_requests, with_db, sv_db in *. run.
  destruct (queue_requests l (s_db (sv_sender s))) as [[ks|e|] d]; exact H.
Qed.

#[local] Hint Extern 1 (along _ (mret _)) => (apply along_ret; apply _) : accounts.
#[local] Hint Extern 1 (along _ (lift _)) => (apply along_lift; apply _) : accounts.
#[local] Hint Extern 1 (along _ (gets _)) => (apply along_gets; apply _) : accounts.
#[local] Hint Extern 2 (along Keeps (db_ _)) => (apply db_keeps; solve [eauto with keeps]) : accounts.
#[local] Hint Extern 1 (along Keeps (modify _)) => (intros ?; unfold Keeps; reflexivity) : accounts.
#[local] Hint Resolve send_keeps : accounts.

Lemma account_index alnum lower s p b : keeps_field account (index_pdu alnum lower s p b).
Proof. unfold index_pdu. keeps. Qed.

Lemma account_alias alias : keeps_field account (resolve_local_alias alias).
Proof. unfold resolve_local_alias. keeps. Qed.

Lemma account_is_joined user room : keeps_field account (is_joined user room).
Proof. unfold is_joined, has_userroom. keeps. Qed.

Lemma account_in_room room a : keeps_field account (appservice_in_room server_name room a).
Proof. unfold appservice_in_room, is_joined, has_userroom. keeps. Qed.

Lemma account_aliases room a : keeps_field account (matching_aliases room a).
Proof. unfold matching_aliases. keeps. Qed.

Lemma account_real_users room : keeps_field account (get_our_real_users server_name room).
Proof. unfold get_our_real_users. keeps. Qed.

Lemma account_data room user kind : keeps_field account (get_data (JV := JV) room user kind).
Proof. unfold get_data. keeps. Qed.

Lemma account_notifications room ns hs : keeps_field account (increment_notification_counts room ns hs).
Proof. intros d. reflexivity. Qed.

Lemma account_actions {Ruleset} (actions : Ruleset → Value → bytes → bytes → bytes → PowerLevels → list Action) user rs pl v r :
  keeps_field account (get_actions actions user rs pl v r).
Proof. unfold get_actions, displayname, get_string. keeps. Qed.
#[local] Hint Resolve account_index account_alias account_is_joined account_in_room account_aliases account_real_users account_data account_notifications account_actions : keeps.

Context (alnum : bytes → bool) (lower : bytes → bytes) (server_user admin_alias : bytes) (emergency : bool) (types : list bytes).
Context (inplace : RedactRules → bytes → Value → option Value).
Context {Ruleset : Type} (rules_of : Value → option Ruleset) (default_ : bytes → Ruleset).
Context (actions : Ruleset → Value → bytes → bytes → bytes → PowerLevels → list Action) (appservices : list RegistrationInfo).

Lemma push_user_keeps pdu pid room pl v acc user : along Keeps (push_user rules_of default_ actions pdu pid room pl v acc user).
Proof. unfold push_user, send_push_pdu. follows. Qed.

Lemma push_targets_keeps pdu pid room pl v l acc : along Keeps (foldM (push_user rules_of default_ actions pdu pid room pl v) acc l).
Proof. revert acc. induction l as [|x l IH]; intros acc; cbn [foldM]; [follows|]. apply along_bind; [apply _|apply push_user_keeps|done]. Qed.
#[local] Hint Resolve push_targets_keeps : accounts.

Lemma send_appservice_keeps pdu room pid a : along Keeps (send_to_appservice server_name pdu room pid a).
Proof. unfold send_to_appservice, send_pdu_appservice. follows. Qed.
#[local] Hint Resolve send_appservice_keeps : accounts.

(** The timeline service creates no account of this server and changes none. *)
Lemma service_append_keeps pdu json leaves :
  along Keeps (service_append_pdu alnum lower server_name server_user admin_alias emergency calculate_password_hash direct_of direct_value ignored_of types inplace
    rules_of default_ actions appservices pdu json leaves).
Proof. unfold service_append_pdu, after_store, push_notifications, kind_effect, message_effect. follows. Qed.
End accounts.

(** The timeline service keeps the promise. *)
#[global] Instance appender_keeps_accounts `{RU : Ruma, LR : !LruCache, HO : !HashOrder, CT : !Contents, RV : !RoomVersions, EB : !EventBodies, RX : !Regex, LP : !Localpart,
    JP : !Json PduEvent, JV : !Json Value, JL : !Json (list Value), JR : !Json RedactionContent, JF : !Json CanonicalJsonObject}
    alnum lower server_name server_user admin_alias emergency hash direct_of direct_value ignored_of types inplace {Ruleset} rules_of default_ actions appservices :
  KeepsAccounts (AP := appender alnum lower server_name server_user admin_alias emergency hash direct_of direct_value ignored_of types inplace
    (Ruleset := Ruleset) rules_of default_ actions appservices) server_name.
Proof. intros pdu json leaves s u Hu. by apply (service_append_keeps server_name u Hu). Qed.

(** * Leaving rooms *)

Section leaving.
Context {RU : Ruma} {LR : LruCache} {HO : HashOrder} {MO : MapOrder} {CT : Contents} {RV : RoomVersions} {EB : EventBodies} {EC : EventChecks}.
Context {SG : Signing} {AP : Appender} {MC : MemberContents} {MR : MemberRemote}.
Context {JP : Json PduEvent} {JV : Json Value} {JL : Json (list Value)} {JR : Json RedactionContent}.
Context (server_name server_user admin_alias : bytes) {KA : KeepsAccounts server_name}.
Context (auth_types_for_event : bytes → bytes → option bytes → bytes → AuthRules → option (list (bytes * bytes))).
Context (calculate_password_hash : bytes → option bytes).
Context (direct_of : Value → option (list (bytes * list bytes))) (direct_value : list (bytes * list bytes) → Value) (ignored_of : Value → option (list bytes)).
Context (u : bytes) (local : server_name_of u = server_name).

Abbreviation account := (λ d : Db, kv d userid_password !! u).

#[local] Existing Instance Keeps_preorder.
#[local] Hint Extern 2 (keeps_field _ (attempt _)) => (apply account_attempt) : keeps.
#[local] Hint Resolve account_count account_room_state account_get_pdu account_load account_state_get account_version account_levels account_can_redact : keeps.
#[local] Hint Resolve account_membership account_alias : keeps.

Lemma account_auth_events room kind sender key content rules :
  keeps_field account (get_auth_events auth_types_for_event room kind sender key content rules).
Proof.
  unfold get_auth_events, short_auth_types, take_auth_event, get_room_shortstatehash, load_full_state, get_shortstatekey, parse_compressed_state_event,
    get_eventid_from_short. keeps.
Qed.

Lemma account_checked rules pdu auth : keeps_field account (check_authorized rules pdu auth).
Proof.
  intros d. set (x := kv d userid_password !! u). change (kv (check_authorized rules pdu auth d).2 userid_password !! u = x).
  enough (preserves (λ d, kv d userid_password !! u = x) (check_authorized rules pdu auth)) as H by (by apply H). unfold check_authorized. cbv zeta.
  apply preserves_bind; [apply independent_calls; intros; apply preserves_ret|]. intros b.
  apply preserves_bind; [destruct b; [apply dependent_calls; intros; apply preserves_ret|apply preserves_ret]|]. intros []; [apply preserves_ret|apply preserves_fail].
Qed.
#[local] Hint Resolve account_auth_events account_checked : keeps.

Lemma account_make now b sender room : keeps_field account (create_hash_and_sign_event server_name auth_types_for_event now b sender room).
Proof.
  unfold create_hash_and_sign_event, event_context, depth_after, with_previous, get_forward_extremities, get_or_create_shorteventid. keeps.
Qed.

Lemma account_admin_room sender room pdu : keeps_field account (guard_admin_room server_name server_user admin_alias sender room pdu).
Proof. unfold guard_admin_room, keep_admin. keeps. Qed.

Lemma account_check_redaction pdu : keeps_field account (check_redaction pdu).
Proof. unfold check_redaction. keeps. Qed.

Lemma account_save_diff h new removed sib layers : keeps_field account (save_state_from_diff h new removed sib layers).
Proof.
  unfold save_state_from_diff. generalize (reverse layers). intros l. revert new removed sib. induction l as [|x l IH]; intros new removed sib;
    cbn [save_from_stack]; unfold save_statediff; keeps.
Qed.
#[local] Hint Resolve account_save_diff : keeps.

Lemma account_append_state pdu : keeps_field account (append_to_state pdu).
Proof.
  unfold append_to_state, states_parents, get_or_create_shorteventid, db_set_event_state, get_or_create_shortstatekey, get_room_shortstatehash, compress_state_event.
  keeps.
Qed.
#[local] Hint Resolve account_make account_admin_room account_check_redaction account_append_state : keeps.

Lemma append_event_keeps pdu json leaves : along (Keeps u) (append_event pdu json leaves).
Proof. intros s. by apply append_event_accounts. Qed.

#[local] Hint Extern 1 (along _ (mret _)) => (apply along_ret; apply _) : accounts.
#[local] Hint Extern 1 (along _ (lift _)) => (apply along_lift; apply _) : accounts.
#[local] Hint Extern 2 (along (Keeps _) (db_ _)) => (apply db_keeps; solve [eauto with keeps]) : accounts.
#[local] Hint Resolve append_event_keeps : accounts.

Lemma build_keeps now b sender room : along (Keeps u) (build_and_append_pdu server_name server_user admin_alias auth_types_for_event now b sender room).
Proof. unfold build_and_append_pdu, send_pdu. follows; [apply db_keeps; unfold set_room_state; keeps|apply send_keeps]. Qed.
#[local] Hint Resolve build_keeps : accounts.

Lemma account_in_room_test room : keeps_field account (server_in_room server_name room).
Proof. unfold server_in_room. keeps. Qed.

Lemma account_member_state t msg user room : keeps_field account (member_state (StateEvents := list Value) t msg user room).
Proof. unfold member_state. keeps. Qed.
#[local] Hint Resolve account_in_room_test account_member_state : keeps.

Lemma account_remote_leave now user room reason : keeps_field account (remote_leave_room server_name now user room reason).
Proof.
  unfold remote_leave_room, invite_state, populate_membership_template, displayname, avatar_url, blurhash, get_string. keeps.
Qed.
#[local] Hint Resolve account_remote_leave : keeps.

(** Leaving a room, and all rooms. *)
Lemma leave_room_keeps now user room reason :
  along (Keeps u) (leave_room server_name server_user admin_alias auth_types_for_event calculate_password_hash direct_of direct_value ignored_of now user room reason).
Proof. unfold leave_room, invite_state, left_state. follows. Qed.

Lemma leave_all_rooms_keeps now user :
  along (Keeps u) (leave_all_rooms server_name server_user admin_alias auth_types_for_event calculate_password_hash direct_of direct_value ignored_of now user).
Proof.
  unfold leave_all_rooms. apply along_bind; [apply _|apply db_keeps; keeps|]. intros l. apply along_for_each; [apply _|]. intros room.
  apply along_bind; [apply _|apply along_try_ok, leave_room_keeps|intros; apply along_ret, _].
Qed.
End leaving.

(** * Purging media *)

Section purging.
Context {RU : Ruma} {D : Type} {ST : Storage D} {ME : MediaEnv} (u : bytes).

Abbreviation account := (λ d : Db, kv d userid_password !! u).

Lemma account_blocked_hash digest : keeps_field account (is_blocked_filehash digest).
Proof. unfold is_blocked_filehash. keeps. Qed.

Lemma account_purge_filehash digest b : keeps_field account (purge_filehash digest b).
Proof. unfold purge_filehash, purge_hash_mediaid. keeps. Qed.
#[local] Hint Resolve account_blocked_hash account_purge_filehash : keeps.

Lemma account_purge_one digest : keeps_field account (purge_one hex digest).
Proof. unfold purge_one. keeps. Qed.
#[local] Hint Resolve account_purge_one : keeps.

Lemma account_pushing {A} files (m : M Db A) : keeps_field account m → keeps_field account (pushing files m).
Proof. intros H. unfold pushing. apply keeps_bind; [by apply account_attempt|keeps]. Qed.

Lemma account_blocked server media : keeps_field account (is_blocked server media).
Proof. unfold is_blocked, is_directly_blocked, blocked_via_hash. keeps. Qed.

Lemma account_purge_mediaid server media b : keeps_field account (purge_mediaid hex server media b).
Proof. unfold purge_mediaid, purge_source, purge_thumbnail. keeps. Qed.
#[local] Hint Resolve account_blocked account_purge_mediaid : keeps.

Lemma account_purge_checked server media files : keeps_field account (purge_mediaid_checked hex server media files).
Proof. unfold purge_mediaid_checked. apply keeps_bind; [apply account_attempt; keeps|keeps]. Qed.

Lemma account_created digest after : keeps_field account (created_since digest after).
Proof. unfold created_since. keeps. Qed.
#[local] Hint Resolve account_purge_checked account_created account_pushing : keeps.

Lemma account_purge_upload server force after files k : keeps_field account (purge_upload hex server force after files k).
Proof.
  unfold purge_upload, upload_metadata. apply keeps_bind; [apply account_attempt; keeps|]. intros [[metadata media]| |]; [|keeps..].
  apply keeps_bind; [apply account_attempt; keeps|]. keeps.
Qed.
#[local] Hint Resolve account_purge_upload : keeps.

(** Deleting files leaves the database alone. *)
Abbreviation on d := (λ s : MediaState D, ms_db s = d).

Lemma io_store f d : preserves (on d) (io f).
Proof. intros s Hs. unfold io. by destruct (f (ms_disk s)). Qed.

Lemma remove_dirs_store depth path d : preserves (on d) (remove_dirs depth path).
Proof.
  revert path. induction depth as [|depth IH]; intros path; cbn [remove_dirs]; [apply preserves_ret|].
  apply preserves_bind; [apply io_store|]. intros [[]|]; first [apply preserves_fail|apply preserves_ret|apply IH].
Qed.

Lemma purge_files_store hashes d : preserves (on d) (purge_files hashes).
Proof.
  unfold purge_files. destruct media_backend as [path structure|path structure]; apply preserves_foldM; intros v _ r;
    (apply preserves_bind; [|intros; apply preserves_ret]); apply preserves_attempt.
  - unfold delete_file_fs. apply preserves_bind; [apply preserves_lift|]. intros p. apply preserves_bind; [apply io_store|]. intros x.
    apply preserves_bind; [destruct x as [[]|]; first [apply preserves_ret|apply preserves_fail]|]. intros _. destruct structure; [apply preserves_ret|apply remove_dirs_store].
  - unfold delete_files_s3. apply preserves_bind; [apply preserves_foldM; intros; apply preserves_bind; [apply preserves_lift|intros; apply preserves_ret]|].
    intros keys. apply preserves_bind; [intros s Hs; by destruct (s3_delete_objects keys (ms_disk s))|]. intros o. apply preserves_bind; [apply preserves_lift|].
    intros [status parsed]. destruct (_ && _); [|apply preserves_fail]. apply preserves_bind; [apply preserves_lift|intros; apply preserves_ret].
Qed.

Lemma purge_from_user_keeps user force after (s : MediaState D) :
  kv (ms_db (purge_from_user user force after s).2) userid_password !! u = kv (ms_db s) userid_password !! u.
Proof.
  assert (keeps_field account (purge_and_get_hashes_from_user user_localpart hex user force after)) as Hk by (unfold purge_and_get_hashes_from_user; keeps).
  specialize (Hk (ms_db s)). unfold purge_from_user. set (m := purge_and_get_hashes_from_user _ _ _ _ _) in *. unfold mbind, M_bind, on_store.
  destruct (m (ms_db s)) as [[hashes|e|] d]; cbn [snd] in Hk; [|exact Hk..].
  by rewrite (purge_files_store hashes d (mkMediaState d (ms_disk s)) eq_refl).
Qed.
End purging.
