(* ===== verification/MembershipInv.v ===== *)
(** * MembershipInv: what joining and leaving guarantee

    Proofs about [Membership]: which events of a [send_join] answer are stored,
    and what leaving a room the server is not in does whatever the other
    servers answer. *)
From S2P Require Import Prelude Bytes JsonValue KvTree Pdu Database Short StateCompressor RoomState Accounts StateCache.
From S2P Require Import Timeline PduJson Devices UserKeys AuthChain Edus RoomTables Search Sending StateAccess MemberEvents Appservice TimelineService ServerKeys.
From S2P Require Import EventHandler EventHandlerInv EventFetch LocalEvents Membership.

(** * The events of an answer *)

Definition outliers (h : Handler) : Tree := kv (sv_db (h_server h)) eventid_outlierpdu.

Lemma outliers_hdb {A} (m : M Db A) h : outliers (hdb m h).2 = kv (m (sv_db (h_server h))).2 eventid_outlierpdu.
Proof.
  unfold outliers, hdb, hs. pose proof (sv_db_db m (h_server h)) as E. destruct (db_ m (h_server h)) as [r s]. cbn [snd h_server] in *. by rewrite E.
Qed.

Lemma pub_keys_hdb {A} (m : M Db A) h : h_pub_keys (hdb m h).2 = h_pub_keys h.
Proof. unfold hdb, hs. by destruct (db_ m (h_server h)). Qed.

Section answer.
Context {RU : Ruma} {LR : LruCache} {RV : RoomVersions} {EC : EventChecks} {FE : Federation} {MR : MemberRemote}.
Context {JF : Json CanonicalJsonObject}.
Context (now : Z) (v : bytes) (send_join : SendJoin Raw) (keys : gmap bytes SigningKeys).

(** An event of the answer, under the id its hash gives it, with signatures
    that the keys verify. *)
Definition Vouched (e : bytes) (value : CanonicalJsonObject) : Prop := ∃ raw hash ts,
  raw ∈ sj_state send_join ++ sj_auth_chain send_join ∧ parse_event raw = Some value ∧ reference_hash v value = Some hash ∧ e = lit "$" ++ hash ∧
  check_pdu_format v value = true ∧ join_origin_server_ts value = Ok ts ∧
  verify_event (filter_keys_server_map ignored_keys keys ts (enforce_key_validity v)) value v ≠ None.

Definition Stored (t : Tree) (h : Handler) : Prop := h_pub_keys h = keys ∧ ∀ e,
  outliers h !! e = t !! e ∨ ∃ value, Vouched e value ∧ outliers h !! e = Some (to_vec (set_json_field (lit "event_id") (VString e) value)).

(** What passes the checks is vouched for. *)
Lemma validate_ok raw h id value h' : raw ∈ sj_state send_join ++ sj_auth_chain send_join → h_pub_keys h = keys →
  validate_and_add_event_id now raw v h = (Ok (id, value), h') → ∃ value0, value = set_json_field (lit "event_id") (VString id) value0 ∧ Vouched id value0.
Proof.
  intros Hraw Hk H. unfold validate_and_add_event_id in H.
  apply bind_inv in H as (value0 & h1 & H1 & H). unfold lift, ok_or in H1. destruct (parse_event raw) eqn:Ep; [|done]. injection H1 as -> <-.
  apply bind_inv in H as (rules & h1 & H1 & H). injection H1 as _ <-.
  apply bind_inv in H as (hash & h1 & H1 & H). unfold lift, ok_or in H1. destruct (reference_hash v value0) eqn:Eh; [|done]. injection H1 as -> <-.
  apply bind_inv in H as ([] & h1 & H1 & H). assert (h1 = h) as -> by (destruct (event_id_ok _); [by injection H1|done]). clear H1.
  apply bind_inv in H as (wait & h1 & H1 & H). unfold gets in H1. destruct (backing_off _ _ _ _); [|done..]. injection H1 as -> <-. destruct wait; [done|].
  destruct (check_pdu_format v value0) eqn:Ef; [|done]. cbn [negb] in H.
  apply bind_inv in H as (ts & h1 & H1 & H). injection H1 as Hts <-. apply bind_inv in H as (ks & h1 & H1 & H). injection H1 as <- <-.
  destruct (verify_event _ value0 v) eqn:Ev.
  - injection H as <- <- _. exists value0. split; [done|]. exists raw, hash, ts. rewrite <- Hk. by rewrite Ev.
  - by apply bind_inv in H as (? & ? & _ & ?).
Qed.

Lemma validate_state raw t : preserves (Stored t) (validate_and_add_event_id now raw v).
Proof.
  unfold validate_and_add_event_id. do 3 (apply preserves_bind; [apply preserves_lift|intro]). cbv zeta.
  apply preserves_bind; [case_match; [apply preserves_ret|apply preserves_lift]|]. intros _. apply preserves_bind; [apply preserves_gets|]. intros wait.
  case_match; [apply preserves_fail|]. case_match; [apply preserves_fail|]. apply preserves_bind; [apply preserves_lift|]. intros ts.
  apply preserves_bind; [apply preserves_gets|]. intros ks. case_match; [apply preserves_ret|]. apply preserves_bind; [|intros; apply preserves_fail].
  intros h [Hk Ho]. split; [done|]. intros e. apply Ho.
Qed.

Lemma stored_hdb {A} (m : M Db A) t : keeps_field (λ d, kv d eventid_outlierpdu) m → preserves (Stored t) (hdb m).
Proof.
  intros Hm h [Hk Ho]. split; [by rewrite pub_keys_hdb|]. intros e. rewrite outliers_hdb. specialize (Hm (sv_db (h_server h))). cbv beta in Hm. rewrite Hm. apply Ho.
Qed.

Lemma stored_outlier t id value : Vouched id value → preserves (Stored t) (hdb (add_pdu_outlier id (set_json_field (lit "event_id") (VString id) value))).
Proof.
  intros Hv h [Hk Ho]. split; [by rewrite pub_keys_hdb|]. intros e. rewrite outliers_hdb. unfold add_pdu_outlier, insert, modify. cbn [snd].
  rewrite kv_upd_eq. unfold kv_insert. destruct (decide (e = id)) as [->|Hne].
  - right. exists value. by rewrite lookup_insert_eq.
  - rewrite lookup_insert_ne by done. apply Ho.
Qed.

(** A vouched event, or nothing. *)
Lemma try_validate {B} raw t (f : option (bytes * CanonicalJsonObject) → M Handler B) : raw ∈ sj_state send_join ++ sj_auth_chain send_join →
  preserves (Stored t) (f None) → (∀ id value, Vouched id value → preserves (Stored t) (f (Some (id, set_json_field (lit "event_id") (VString id) value)))) →
  preserves (Stored t) (try_ok (validate_and_add_event_id now raw v) ≫= f).
Proof.
  intros Hraw Hn Hs h Hh. pose proof (validate_state raw t h Hh) as H'. unfold mbind, M_bind, try_ok.
  destruct (validate_and_add_event_id now raw v h) as [[[id value]|err|] h'] eqn:E; cbn [fst snd] in *; [|by apply Hn|done].
  destruct (validate_ok raw h id value h' Hraw (proj1 Hh) E) as (value0 & -> & Hv). by apply Hs.
Qed.

Lemma add_state_stored t state raw : raw ∈ sj_state send_join → preserves (Stored t) (add_join_state now v state raw).
Proof.
  intros Hraw. unfold add_join_state. apply try_validate; [rewrite elem_of_app; by left|apply preserves_ret|]. intros id value Hv.
  apply preserves_bind; [apply preserves_lift|]. intros pdu. apply preserves_bind; [by apply stored_outlier|]. intros _.
  case_match; [|apply preserves_ret]. apply preserves_bind; [|intros; apply preserves_ret]. apply stored_hdb.
  unfold get_or_create_shortstatekey, next_count. keeps.
Qed.

Lemma add_auth_stored t raw : raw ∈ sj_auth_chain send_join → preserves (Stored t) (add_join_auth now v raw).
Proof.
  intros Hraw. unfold add_join_auth. apply try_validate; [rewrite elem_of_app; by right|apply preserves_ret|]. intros id value Hv. by apply stored_outlier.
Qed.
End answer.

(** C9: whatever a server answers to [send_join], storing the events of the
    answer changes an outlier only to an event of the answer whose reference
    hash is its id, whose format is valid and whose signatures the collected
    keys verify at its time; all other outliers and the keys are as before.
    The event is kept as it was sent, with its id added. *)
Theorem join_events_verified {RU : Ruma} {LR : LruCache} {RV : RoomVersions} {EC : EventChecks} {FE : Federation} {MR : MemberRemote}
    {JF : Json CanonicalJsonObject} now v send_join h :
  let h' := (store_join_events now v send_join h).2 in
  h_pub_keys h' = h_pub_keys h ∧ ∀ e, outliers h' !! e = outliers h !! e ∨
    ∃ value, Vouched v send_join (h_pub_keys h) e value ∧ outliers h' !! e = Some (to_vec (set_json_field (lit "event_id") (VString e) value)).
Proof.
  cbv zeta. assert (preserves (Stored v send_join (h_pub_keys h) (outliers h)) (store_join_events now v send_join)) as H.
  { unfold store_join_events. apply preserves_bind; [apply preserves_foldM; intros raw Hraw st; by apply add_state_stored|]. intros st.
    apply preserves_bind; [|intros; apply preserves_ret]. apply preserves_for_each_in. intros raw Hraw. by apply add_auth_stored. }
  apply H. split; [done|]. intros e. by left.
Qed.

(** * Leaving a room the server is not in *)

(** A computation that only reads. *)
Abbreviation reads m := (keeps_field (λ d : Db, d) m).

Lemma reads_run {A} (m : M Db A) d : reads m → m d = ((m d).1, d).
Proof. intros Hm. specialize (Hm d). cbv beta in Hm. apply injective_projections; done. Qed.

Lemma db_reads {A} (m : M Db A) s : reads m → db_ m s = ((m (sv_db s)).1, s).
Proof. intros Hm. unfold db_, on_sender, with_db, sv_db. rewrite (reads_run m) by done. cbn. by destruct s as [[]]. Qed.

(** The server has the memberships [m], except that the user has left. *)
Definition Departed {RU : Ruma} (m : gmap (bytes * bytes) Membership) (u room : bytes) (s : Server) : Prop := MemberRel (sv_db s) (<[(u, room) := Left]> m).

Section leaving.
Context {RU : Ruma} {LR : LruCache} {HO : HashOrder} {MO : MapOrder} {CT : Contents} {RV : RoomVersions} {EB : EventBodies} {EC : EventChecks}.
Context {SG : Signing} {AP : Appender} {MC : MemberContents} {MR : MemberRemote}.
Context {JP : Json PduEvent} {JV : Json Value} {JL : Json (list Value)} {JM : Json Tree} {JF : Json CanonicalJsonObject} {JR : Json RedactionContent}.
Context (server_name server_user admin_alias : bytes).
Context (auth_types_for_event : bytes → bytes → option bytes → bytes → AuthRules → option (list (bytes * bytes))).
Context (calculate_password_hash : bytes → option bytes).
Context (direct_of : Value → option (list (bytes * list bytes))) (direct_value : list (bytes * list bytes) → Value) (ignored_of : Value → option (list bytes)).
Notation leave_room := (leave_room server_name server_user admin_alias auth_types_for_event calculate_password_hash direct_of direct_value ignored_of).
Notation update_membership := (update_membership server_name calculate_password_hash direct_of direct_value ignored_of).

Lemma reads_template now template user reason version membership : reads (populate_membership_template server_name now template user reason version membership).
Proof. unfold populate_membership_template, displayname, avatar_url, blurhash, get_string. keeps. Qed.
#[local] Hint Resolve reads_template : keeps.

Lemma reads_remote_leave now user room reason : reads (remote_leave_room server_name now user room reason).
Proof. unfold remote_leave_room, invite_state, member_state. keeps. Qed.

(** A leave always applies. *)
Lemma leave_applied d n m Q u room sender last :
  (∀ u, valid_user u → utf8_valid (server_name_of u) = true ∧ server_name_ok (server_name_of u) = true) →
  count_is d n → n < u64_max → MemberRel d m → ServerRel d Q → valid_user u → valid_room room →
  ∃ d', update_membership room u Leave sender last true d = (Ok tt, d') ∧ MemberRel d' (<[(u, room) := Left]> m).
Proof.
  intros Hnames [Hn0 Hc] Hn HM HS Hu Hr. unfold MemberEvents.update_membership.
  set (d1 := if bool_decide (server_name_of u ≠ server_name) then (create calculate_password_hash u None d).2 else d).
  assert ((if bool_decide (server_name_of u ≠ server_name) then create calculate_password_hash u None else mret tt) d = (Ok tt, d1)) as E1
    by (unfold d1; by case_bool_decide).
  assert (∀ t, t ≠ userid_password → kv d1 t = kv d t) as Hkv by (intros t Ht; unfold d1; case_bool_decide; [by apply kv_upd_ne|done]).
  rewrite (bind_ok _ _ _ _ _ E1). cbv zeta.
  destruct (apply_op (λ b, b) Hnames d1 n m Q room (MLeave u room) true server_name) as (d2 & d' & E2 & E3 & HM' & _).
  - split; [done|]. by rewrite Hkv.
  - done.
  - apply (MemberRel_kv d); [|done]. intros K. split; apply Hkv; by destruct K.
  - apply (ServerRel_trees d); [|done]. unfold server_trees. by rewrite !Hkv.
  - by split.
  - done.
  - exists d'. rewrite (bind_ok _ _ d1 true d2) by (by rewrite (bind_ok _ _ _ _ _ E2)). by split.
Qed.

(** Leaving a room the server is not in works whatever the other servers
    answer, errors included: the user has left in the end.  Only a template of
    another server that makes the server panic prevents it, and then nothing
    has changed: the invite is still there. *)
Theorem leaving_needs_no_server s n m Q u room now reason invite left :
  (∀ u, valid_user u → utf8_valid (server_name_of u) = true ∧ server_name_ok (server_name_of u) = true) →
  count_is (sv_db s) n → n < u64_max → MemberRel (sv_db s) m → ServerRel (sv_db s) Q → valid_user u → valid_room room →
  server_in_room server_name room (sv_db s) = (Ok false, sv_db s) →
  (invite_state u room (sv_db s)).1 = Ok (invite : option (list Value)) → (left_state u room (sv_db s)).1 = Ok (left : option (list Value)) →
  match (remote_leave_room server_name now u room reason (sv_db s)).1 with
  | Panic => leave_room now u room reason s = (Panic, s)
  | _ => ∃ s', leave_room now u room reason s = (Ok tt, s') ∧ Departed m u room s'
  end.
Proof.
  intros Hnames Hc Hn HM HS Hu Hr Hin Hi Hl. unfold Membership.leave_room.
  rewrite (bind_ok _ _ s false s) by (rewrite db_reads, Hin; [done|unfold server_in_room; keeps]). cbn [negb].
  assert (reads (remote_leave_room server_name now u room reason)) as Hreads by apply reads_remote_leave.
  assert (∀ o, try_ok (db_ (remote_leave_room server_name now u room reason)) s = (Ok o, s) →
    ∃ s', (try_ok (db_ (remote_leave_room server_name now u room reason));;
       inv ← db_ (invite_state u room);
       last_state ← match inv with Some st => mret (Some st) | None => db_ (left_state u room) end;
       db_ (update_membership room u Leave u last_state true)) s = (Ok tt, s') ∧ Departed m u room s') as Hgo.
  { intros o Eo. rewrite (bind_ok _ _ _ _ _ Eo). rewrite (bind_ok _ _ s invite s) by (rewrite db_reads, Hi; [done|unfold invite_state, member_state; keeps]).
    set (last := match invite with Some st => Some st | None => left end).
    rewrite (bind_ok _ _ s last s) by (unfold last; destruct invite; [done|rewrite db_reads, Hl; [done|unfold left_state, member_state; keeps]]).
    destruct (leave_applied (sv_db s) n m Q u room u last) as (d' & E & HM'); try done.
    exists (db_ (update_membership room u Leave u last true) s).2. unfold Departed. rewrite sv_db_db, E. split; [|done].
    rewrite (surjective_pairing (db_ _ s)) at 1. by rewrite db_result, E. }
  unfold try_ok in Hgo |- *. rewrite (db_reads _ s Hreads) in Hgo. cbn [fst snd] in Hgo.
  destruct (remote_leave_room server_name now u room reason (sv_db s)).1 eqn:E; [by eapply Hgo|by eapply Hgo|].
  unfold mbind at 1, M_bind. by rewrite (db_reads _ s Hreads), E.
Qed.
End leaving.

(** * Samples *)

#[local] Existing Instance sample_ruma.
#[local] Existing Instance lru_unbounded.
#[local] Existing Instance elements_order.
#[local] Existing Instance sample_map_order.
#[local] Existing Instance sample_versions.
#[local] Existing Instance sample_create_contents.
#[local] Existing Instance sample_bodies.
#[local] Existing Instance sample_checks.
#[local] Existing Instance fetch_pdu_json.
#[local] Existing Instance fetch_tree_json.
#[local] Existing Instance fetch_object_json.
#[local] Existing Instance fetch_redaction_json.
#[local] Existing Instance local_value_json.
#[local] Existing Instance sample_appender.
#[local] Instance leave_list_json : Json (list Value) := json_countable (list Value).
#[local] Instance sample_member_contents : MemberContents := {| member_content_of _ := Some (new_member Invite); member_content_json _ := lit "{}" |}.

(** Signing fails when there are signatures that are not an object. *)
#[local] Instance strict_signing : Signing := {|
  to_canonical_object _ := Some [];
  hash_and_sign_event o _ := match field (lit "signatures") o with Some (VObject _) | None => inr o | Some _ => inl SignOther end;
  uint_succ n := n + 1;
|}.

(** Other servers that all give the same answer to [make_leave]. *)
Definition leave_answer (answer : res (option bytes * CanonicalJsonObject)) : MemberRemote := {|
  prepare_join_event _ _ _ := Err (BadServerResponse "no");
  create_join_event _ _ _ _ := Err (BadServerResponse "no");
  prepare_knock_event _ _ _ := Err (BadServerResponse "no");
  create_knock_event _ _ _ _ := Err (BadServerResponse "no");
  prepare_leave_event _ _ _ := answer;
  create_leave_event _ _ _ _ := Ok tt;
  create_invite _ _ _ _ _ _ := Err (BadServerResponse "no");
  get_room_information _ _ := Err (BadServerResponse "no");
  query_room_alias _ _ := mret false;
  shuffled l := l;
  supported_room_versions := [lit "11"];
  pdu_of_value _ := None;
  object_of_text _ := None;
  stripped_sender _ := None;
  room_server _ := None;
|}.

(** [@a:b] is invited to a room of the server [c]. *)
Definition invited_db : Db :=
  (mark_as_invited [] (lit "@a:b") (lit "!r") (Some [VObject [(lit "sender", VString (lit "@x:c"))]]) empty_db).2.

Definition invited_server : Server := mkServer (mkSender invited_db ∅ [] [] true) ∅ [].

Definition sample_leave (answer : res (option bytes * CanonicalJsonObject)) (s : Server) : res unit * Server :=
  leave_room (MR := leave_answer answer) (lit "b") (lit "@conduit:b") (lit "#admins:b") (λ _ _ _ _ _, Some []) (λ _, None) (λ _, None)
    (λ _, VNull) (λ _, None) 5 (lit "@a:b") (lit "!r") None s.

Lemma leaving_needs_no_server_witness :
  let bad_template := Ok (Some (lit "11"), [(lit "signatures", VNull)]) in
  (∃ s', sample_leave (Err (BadServerResponse "no")) invited_server = (Ok tt, s') ∧ MemberRel (sv_db s') {[ (lit "@a:b", lit "!r") := Left ]}) ∧
  sample_leave bad_template invited_server = (Panic, invited_server).
Proof.
  cbv zeta. assert (valid_user (lit "@a:b") ∧ valid_room (lit "!r")) as [Hu Hr] by (split; split; vm_compute; reflexivity).
  destruct (mark_as_invited_spec (JS := leave_list_json) [] empty_db 0 ∅ (lit "@a:b") (lit "!r") (Some [VObject [(lit "sender", VString (lit "@x:c"))]])
    empty_db_count eq_refl empty_db_member Hu Hr) as (d & E & Hc & HM).
  assert (d = invited_db) as -> by (unfold invited_db; by rewrite E).
  assert (∀ u, valid_user u → utf8_valid (server_name_of u) = true ∧ server_name_ok (server_name_of u) = true) as Hn.
  { intros u [_ H]. cbn in H |- *. unfold sample_user_id_ok in H. repeat (apply andb_true_iff in H as [H ?]). split; done. }
  assert (ServerRel invited_db (λ _ _, False)) as HS by (apply (ServerRel_trees empty_db); [vm_compute; reflexivity|apply empty_db_servers]).
  pose proof (λ MR, leaving_needs_no_server (MR := MR) (lit "b") (lit "@conduit:b") (lit "#admins:b") (λ _ _ _ _ _, Some []) (λ _, None) (λ _, None)
    (λ _, VNull) (λ _, None) invited_server (0 + 1) _ _ (lit "@a:b") (lit "!r") 5 None (Some [VObject [(lit "sender", VString (lit "@x:c"))]]) None
    Hn Hc eq_refl HM HS Hu Hr) as H.
  split.
  - specialize (H (leave_answer (Err (BadServerResponse "no"))) eq_refl). destruct H as (s' & E1 & H1); [vm_compute; reflexivity..|].
    exists s'. split; [exact E1|]. unfold Departed in H1. rewrite insert_insert_eq in H1. exact H1.
  - refine (H (leave_answer (Ok (Some (lit "11"), [(lit "signatures", VNull)]))) eq_refl _ _); vm_compute; reflexivity.
Defined.
