(* ===== verification/Destinations.v ===== *)
(** * Destinations: where a request to another server goes

    The resolution of server names of [server/src/api/server_server.rs]
    ([send_request], [find_actual_destination] and what they use) with the two
    caches of [service/globals/mod.rs], and the name resolver that uses one of
    them.  The network, the parsing of addresses and the signing of requests
    are parameters; an instant is a number of seconds. *)
From S2P Require Import Prelude Bytes JsonValue.

(** ** Addresses *)

Record SocketAddr := mkAddr { sa_ip : bytes; sa_port : Z }.

(** An address with its port, or a host with the rest of its name, which starts
    with a colon. *)
Inductive FedDest := Literal (addr : SocketAddr) | Named (host port : bytes).

Inductive DestType :=
  | WellKnownSrv (srv_expires well_known_expires : Z) (well_known_host : bytes)
  | WellKnown (expires : Z)
  | Srv (srv_expires well_known_retry well_known_backoff_mins : Z)
  | IsIpOrHasPort
  | LookupFailed (well_known_retry well_known_backoff_mins : Z).

Record DestinationResponse := mkDestination { actual_destination : FedDest; dest_type : DestType }.

(** The two caches: the destination of a server, and the addresses a host name
    is connected to. *)
Record Destinations := mkDestinations {
  actual_destination_cache : gmap bytes DestinationResponse;
  tls_name_override : gmap bytes (list bytes * Z);
}.

Definition set_destination (f : gmap bytes DestinationResponse → gmap bytes DestinationResponse) (s : Destinations) : Destinations :=
  mkDestinations (f (actual_destination_cache s)) (tls_name_override s).
Definition set_override (f : gmap bytes (list bytes * Z) → gmap bytes (list bytes * Z)) (s : Destinations) : Destinations :=
  mkDestinations (actual_destination_cache s) (f (tls_name_override s)).

#[global] Instance SocketAddr_eq_dec : EqDecision SocketAddr.
Proof. solve_decision. Defined.
#[global] Instance FedDest_eq_dec : EqDecision FedDest.
Proof. solve_decision. Defined.

(** Parsing and printing of addresses; an [IpAddr] is its text. *)
Class Addresses := {
  parse_socket_addr : bytes → option SocketAddr;
  parse_ip : bytes → option bytes;
  addr_text : SocketAddr → bytes;
}.

Record CacheControl := mkCacheControl { no_store : bool; no_cache : bool; max_age : option Z }.

(** An answer to a request for a [.well-known] file: its headers and its body. *)
Record WellKnownAnswer := mkWellKnown { wk_headers : list (bytes * bytes); wk_text : option bytes }.

(** What the network answers at an instant. *)
Class Network := {
  (** targets and ports, and how long the answer is valid *)
  srv_lookup : Z → bytes → option (list (bytes * Z) * Z);
  lookup_ip : Z → bytes → option (list bytes);
  http_get : Z → bytes → option WellKnownAnswer;
  decode_cache_control : list bytes → option CacheControl;
  json_of_text : bytes → option Value;
  (** the port of a record is a [u16] *)
  srv_port_u16 : ∀ now record records valid_until, srv_lookup now record = Some (records, valid_until) → Forall (λ r, 0 ≤ r.2 ≤ 65535) records;
}.

(** [str::find(':')] and [split_at]. *)
Fixpoint split_colon (s : bytes) : option (bytes * bytes) :=
  match s with
  | [] => None
  | b :: s' => if b =? 58 then Some ([], s) else '(host, port) ← split_colon s'; Some (b :: host, port)
  end.

(** [trim_end_matches('.')]. *)
Fixpoint trim_dots (s : bytes) : bytes :=
  match s with
  | [] => []
  | b :: s' => match trim_dots s' with [] => if b =? 46 then [] else [b] | t => b :: t end
  end.

(** [str::parse::<u16>]. *)
Definition parse_u16 (s : bytes) : option Z :=
  n ← parse_u64 s; if n <=? 65535 then Some n else None.

(** [&port[1..]]: a text can only be cut between characters. *)
Definition tail_text (s : bytes) : res bytes :=
  match s with
  | [] => Panic
  | _ :: (b :: _) as t => if (128 <=? b) && (b <? 192) then Panic else Ok t
  | [_] => Ok []
  end.

Section resolving.
Context {AD : Addresses} {NW : Network}.

Definition into_https_string (d : FedDest) : bytes :=
  match d with
  | Literal addr => lit "https://" ++ addr_text addr
  | Named host port => lit "https://" ++ host ++ port
  end.

Definition hostname (d : FedDest) : bytes :=
  match d with
  | Literal addr => sa_ip addr
  | Named host _ => host
  end.

Definition port (d : FedDest) : res (option Z) :=
  match d with
  | Literal addr => Ok (Some (sa_port addr))
  | Named _ port => t ← tail_text port; Ok (parse_u16 t)
  end.

Definition get_ip_with_port (destination_str : bytes) : option FedDest :=
  match parse_socket_addr destination_str with
  | Some destination => Some (Literal destination)
  | None => match parse_ip destination_str with Some ip_addr => Some (Literal (mkAddr ip_addr 8448)) | None => None end
  end.

Definition add_port_to_hostname (destination_str : bytes) : FedDest :=
  match split_colon destination_str with
  | None => Named destination_str (lit ":8448")
  | Some (host, port) => Named host port
  end.

(** ** Lookups *)

Definition query_given_srv_record (now : Z) (record : bytes) : option (FedDest * Z) :=
  '(records, valid_until) ← srv_lookup now record;
  '(target, port) ← head records;
  Some (Named (trim_dots target) (lit ":" ++ to_string port), valid_until).

Definition query_srv_record (now : Z) (hostname : bytes) : option (FedDest * Z) :=
  let hostname := trim_dots hostname in
  match query_given_srv_record now (lit "_matrix-fed._tcp." ++ hostname ++ lit ".") with
  | Some host_port => Some host_port
  | None => query_given_srv_record now (lit "_matrix._tcp." ++ hostname ++ lit ".")
  end.

(** Looks up the SRV records for federation usage.  If no timestamp is
    returned, that means no SRV record was found. *)
Definition get_srv_destination (now : Z) (delegated_hostname : bytes) : M Destinations (FedDest * option Z) :=
  match query_srv_record now delegated_hostname with
  | Some (hostname_override, timestamp) =>
      force_port ← lift (port hostname_override);
      modify (match lookup_ip now (hostname hostname_override) with
        | Some override_ip => set_override <[delegated_hostname := (override_ip, default 8448 force_port)]>
        (* Removing in case there was previously a SRV record *)
        | None => set_override (delete delegated_hostname)
        end);;
      mret (match force_port with
        | Some port => Named delegated_hostname (lit ":" ++ to_string port)
        | None => add_port_to_hostname delegated_hostname
        end, Some timestamp)
  | None =>
      (* Removing in case there was previously a SRV record *)
      modify (set_override (delete delegated_hostname));;
      mret (add_port_to_hostname delegated_hostname, None)
  end.

(** How long a [.well-known] file may be cached. *)
Definition cache_for (headers : list (bytes * bytes)) : Z :=
  default (60 * 60 * 24)
    (cc ← decode_cache_control (snd <$> headers);
     if no_store cc || no_cache cc then Some 0 else (λ age, age `min` (60 * 60 * 48)) <$> max_age cc).

Definition request_well_known (now later : Z) (destination : bytes) : option (bytes * Z) :=
  response ← http_get now (lit "https://" ++ destination ++ lit "/.well-known/matrix/server");
  text ← wk_text response;
  body ← json_of_text text;
  match value_get (lit "m.server") body with
  | Some (VString host) => Some (host, later + cache_for (wk_headers response))
  | _ => None
  end.

(** * Resolution *)

(** Products of [u16] wrap around. *)
Definition mul_u16 (a b : Z) : Z := (a * b) mod 65536.

Definition next_backoff (well_known_backoff_mins : option Z) : Z :=
  match well_known_backoff_mins with
  | Some mins => mul_u16 mins 2 `min` 60
  | None => 1
  end.

(** What is known when a name has no [.well-known] file. *)
Definition without_well_known (later backoff : Z) (expires : option Z) : DestType :=
  let well_known_retry := later + mul_u16 60 backoff in
  match expires with
  | Some expires => Srv expires well_known_retry backoff
  | None => LookupFailed well_known_retry backoff
  end.

(** The steps of the specification, by their numbers. *)
Definition resolve_name (now later : Z) (backoff : Z) (destination_str : bytes) : M Destinations (FedDest * DestType) :=
  match get_ip_with_port destination_str with
  (* 1: IP literal with provided or default port *)
  | Some host_port => mret (host_port, IsIpOrHasPort)
  | None =>
      match split_colon destination_str with
      (* 2: Hostname with included port *)
      | Some (host, port) => mret (Named host port, IsIpOrHasPort)
      | None =>
          match request_well_known now later destination_str with
          (* 3: A .well-known file is available *)
          | Some (delegated_hostname, timestamp) =>
              match get_ip_with_port delegated_hostname with
              (* 3.1: IP literal in .well-known file *)
              | Some host_and_port => mret (host_and_port, WellKnown timestamp)
              | None =>
                  match split_colon delegated_hostname with
                  (* 3.2: Hostname with port in .well-known file *)
                  | Some (host, port) => mret (Named host port, WellKnown timestamp)
                  | None =>
                      '(dest, srv_expires) ← get_srv_destination now delegated_hostname;
                      mret (dest, match srv_expires with
                        | Some srv_expires => WellKnownSrv srv_expires timestamp delegated_hostname
                        | None => WellKnown timestamp
                        end)
                  end
              end
          (* 4: No .well-known or an error occurred *)
          | None =>
              '(dest, expires) ← get_srv_destination now destination_str;
              mret (dest, without_well_known later backoff expires)
          end
      end
  end.

(** [well_known_dest] is the host of the SRV lookup if only that is asked for;
    [now] is before the lookups, [later] after them. *)
Definition find_actual_destination (now later : Z) (destination : bytes) (well_known_dest : option bytes) (only_request_srv : bool)
    (well_known_backoff_mins : option Z) : M Destinations FedDest :=
  let next_backoff_mins := next_backoff well_known_backoff_mins in
  '(dest, type) ← (if only_request_srv then
      '(dest, expires) ← get_srv_destination now (default destination well_known_dest);
      mret (dest, without_well_known later next_backoff_mins expires)
    else resolve_name now later next_backoff_mins destination);
  modify (set_destination <[destination := mkDestination dest type]>);;
  mret dest.

(** The destination of a request: the cached one while it is valid. *)
Definition destination_for (now later : Z) (destination : bytes) : M Destinations FedDest :=
  cached ← gets (λ s, Ok (actual_destination_cache s !! destination));
  match cached with
  | None => find_actual_destination now later destination None false None
  | Some response =>
      match dest_type response with
      | IsIpOrHasPort => mret (actual_destination response)
      | LookupFailed well_known_retry well_known_backoff_mins =>
          if well_known_retry <? now then find_actual_destination now later destination None false (Some well_known_backoff_mins)
          else mret (actual_destination response)
      | WellKnown expires =>
          if expires <? now then find_actual_destination now later destination None false None else mret (actual_destination response)
      | WellKnownSrv srv_expires well_known_expires well_known_host =>
          if well_known_expires <? now then find_actual_destination now later destination None false None
          else if srv_expires <? now then find_actual_destination now later destination (Some well_known_host) true None
          else mret (actual_destination response)
      | Srv srv_expires well_known_retry well_known_backoff_mins =>
          if well_known_retry <? now then find_actual_destination now later destination None false (Some well_known_backoff_mins)
          else if srv_expires <? now then find_actual_destination now later destination None true (Some well_known_backoff_mins)
          else mret (actual_destination response)
      end
  end.

(** The resolver of the HTTP client: the first overriding address, or the
    system's answer. *)
Definition resolver_resolve (system : bytes → option (list SocketAddr)) (name : bytes) (s : Destinations) : option (list SocketAddr) :=
  match tls_name_override s !! name with
  | Some (first_name :: _, port) => Some [mkAddr first_name port]
  | _ => system name
  end.
End resolving.

(** * Requests *)

(** A request of some endpoint: its method, its path and body for a base URL,
    and the parsing of its answer. *)
Record Request {Response : Type} := mkRequest {
  rq_method : bytes;
  try_into_http_request : bytes → option (bytes * bytes);
  try_from_http_response : bytes → option Response;
}.
Arguments Request : clear implicits.

Class HttpClient := {
  (** the signatures of a signed request, by server and key *)
  sign_json : list (bytes * Value) → list (bytes * list (bytes * bytes));
  body_json : bytes → option Value;
  (** [reqwest::Request::try_from], and the answer: a status and a body *)
  valid_request : bytes → bool;
  execute : Z → bytes → bytes → option bytes → bytes → option (Z * option bytes);
  (** the error of an answer that is not 200 *)
  error_kind : Z → bytes → option ErrorKind;
}.

Section sending.
Context {AD : Addresses} {NW : Network} {HC : HttpClient}.
Context (server_name : bytes) (allow_federation : bool).

(** What is signed. *)
Definition request_map (method path content destination : bytes) : res (list (bytes * Value)) :=
  fields ← match content with
    | [] => Ok []
    | _ => v ← expect (body_json content); Ok [(lit "content", v)]
    end;
  Ok (set_json_field (lit "destination") (VString destination)
       (set_json_field (lit "origin") (VString server_name)
         (set_json_field (lit "uri") (VString path) (set_json_field (lit "method") (VString method) fields)))).

Definition authorization_header (destination key sig : bytes) : bytes :=
  lit "X-Matrix origin=" ++ [34] ++ server_name ++ [34] ++ lit ",destination=" ++ [34] ++ destination ++ [34]
    ++ lit ",key=" ++ [34] ++ key ++ [34] ++ lit ",sig=" ++ [34] ++ sig ++ [34].

(** Each signature replaces the header of the one before. *)
Definition authorization (destination : bytes) (signatures : list (bytes * list (bytes * bytes))) : option bytes :=
  last ((λ s, authorization_header destination s.1 s.2) <$> concat (snd <$> signatures)).

Definition send_request {Response : Type} (now later : Z) (destination : bytes) (request : Request Response) : M Destinations Response :=
  if negb allow_federation then fail (BadConfig "Federation is disabled.") else
  if bool_decide (destination = server_name) then fail (BadConfig "Won't send federation request to ourselves") else
  actual_destination ← destination_for now later destination;
  let url := into_https_string actual_destination in
  '(path, content) ← lift (ok_or (try_into_http_request request url) (BadServerResponse "Invalid destination"));
  request_json ← lift (request_map (rq_method request) path content destination);
  let header := authorization destination (sign_json request_json) in
  if negb (valid_request (url ++ path)) then fail ReqwestError else
  match execute later (rq_method request) (url ++ path) header content with
  | None => fail ReqwestError
  | Some (status, body) =>
      let body := default [] body in
      if status =? 200 then lift (ok_or (try_from_http_response request body) (BadServerResponse "Server returned bad 200 response."))
      else fail (FederationError destination (error_kind status body))
  end.
End sending.

(** * What the caches hold *)

Section correct.
Context {AD : Addresses} {NW : Network}.

(** A host without a colon and a rest that starts with one. *)
Definition host_port (d : FedDest) : Prop :=
  match d with
  | Literal _ => True
  | Named host port => 58 ∉ host ∧ ∃ rest, port = 58 :: rest
  end.

(** The back-off is between a minute and an hour, and a name whose SRV records
    are looked up has no port. *)
Definition type_ok (destination : bytes) (t : DestType) : Prop :=
  match t with
  | WellKnownSrv _ _ host => 58 ∉ destination ∧ 58 ∉ host
  | Srv _ _ mins => 58 ∉ destination ∧ 1 ≤ mins ≤ 60
  | LookupFailed _ mins => 1 ≤ mins ≤ 60
  | WellKnown _ | IsIpOrHasPort => True
  end.

Definition DestInv (s : Destinations) : Prop :=
  map_Forall (λ destination r, host_port (actual_destination r) ∧ type_ok destination (dest_type r)) (actual_destination_cache s).

Lemma split_colon_Some s host port : split_colon s = Some (host, port) → host_port (Named host port).
Proof.
  revert host port. induction s as [|b s IH]; intros host port; cbn [split_colon]; [done|]. destruct (b =? 58) eqn:E.
  - intros [= <- <-]. apply Z.eqb_eq in E as ->. split; [by apply not_elem_of_nil|]. by eexists.
  - destruct (split_colon s) as [[h p]|]; [|done]. intros [= <- <-]. destruct (IH _ _ eq_refl) as [Hh Hp]. split; [|done].
    apply Z.eqb_neq in E. apply not_elem_of_cons. by split.
Qed.

Lemma split_colon_None s : split_colon s = None ↔ 58 ∉ s.
Proof.
  induction s as [|b s IH]; cbn [split_colon]; [split; [intros _; apply not_elem_of_nil|done]|]. rewrite not_elem_of_cons.
  destruct (Z.eqb_spec b 58) as [->|Hne]; [naive_solver|]. destruct (split_colon s) as [[h p]|]; cbn; naive_solver.
Qed.

Lemma add_port_ok s : host_port (add_port_to_hostname s).
Proof.
  unfold add_port_to_hostname. destruct (split_colon s) as [[h p]|] eqn:E; [by apply split_colon_Some in E|].
  apply split_colon_None in E. split; [done|]. by eexists.
Qed.

Lemma parse_u16_to_string n : 0 ≤ n ≤ 65535 → parse_u16 (to_string n) = Some n.
Proof.
  intros Hn. unfold parse_u16. rewrite parse_to_string by (unfold is_u64, u64_max; lia). cbn. by rewrite (proj2 (Z.leb_le _ _)) by lia.
Qed.

(** A port of a record is read back. *)
Lemma port_of_record host n : 0 ≤ n ≤ 65535 → port (Named host (lit ":" ++ to_string n)) = Ok (Some n).
Proof.
  intros Hn. unfold port, tail_text. cbn [lit app]. assert (Forall (λ b, is_digit b = true) (to_string n)) as Hd by (apply to_string_digits; lia).
  pose proof (parse_u16_to_string n Hn) as Hp. change (lit ":" ++ to_string n) with (58 :: to_string n). cbv iota.
  destruct (to_string n) as [|b t] eqn:E; [done|]. inversion Hd as [|? ? Hb]; subst. unfold is_digit, in_range in Hb.
  rewrite (proj2 (andb_false_iff _ _)) by (left; apply Z.leb_gt; lia). cbn [mbind res_bind]. by rewrite Hp.
Qed.

(** The SRV record that counts. *)
Lemma query_record now host d valid : query_srv_record now host = Some (d, valid) → ∃ target n, d = Named target (lit ":" ++ to_string n) ∧ 0 ≤ n ≤ 65535.
Proof.
  assert (∀ r, query_given_srv_record now r = Some (d, valid) → ∃ target n, d = Named target (lit ":" ++ to_string n) ∧ 0 ≤ n ≤ 65535) as H.
  { intros r. unfold query_given_srv_record. destruct (srv_lookup now r) as [[records v]|] eqn:E; [|done]. cbn [mbind option_bind].
    destruct records as [|[target n] records]; [done|]. intros [= <- <-]. exists (trim_dots target), n. split; [done|].
    apply srv_port_u16 in E. by inversion E. }
  unfold query_srv_record. destruct (query_given_srv_record now _) as [[d' v']|] eqn:E; [|apply H]. intros [= <- <-]. by apply H in E.
Qed.

Lemma srv_destination_ok now host s : 58 ∉ host → ∃ d expires s', get_srv_destination now host s = (Ok (d, expires), s') ∧ host_port d ∧ hostname d = host ∧
  actual_destination_cache s' = actual_destination_cache s.
Proof.
  intros Hh. assert (hostname (add_port_to_hostname host) = host) as Hadd by (unfold add_port_to_hostname; by rewrite (proj2 (split_colon_None _))).
  unfold get_srv_destination. destruct (query_srv_record now host) as [[d v]|] eqn:E.
  - apply query_record in E as (target & n & -> & Hn). rewrite (bind_ok _ _ s (Some n) s) by (unfold lift; by rewrite port_of_record).
    do 3 eexists. split; [by rewrite bind_modify|]. split_and!; [split; [done|by eexists]|done|by case_match].
  - do 3 eexists. split; [by rewrite bind_modify|]. by split_and!; [apply add_port_ok|..].
Qed.

Lemma next_backoff_ok mins : match mins with Some m => 1 ≤ m ≤ 60 | None => True end → 1 ≤ next_backoff mins ≤ 60.
Proof. unfold next_backoff, mul_u16. destruct mins as [m|]; [|lia]. intros Hm. rewrite Z.mod_small by lia. lia. Qed.

Lemma get_ip_ok s d : get_ip_with_port s = Some d → host_port d.
Proof. unfold get_ip_with_port. repeat case_match; by intros [= <-]. Qed.

Lemma without_well_known_ok destination later backoff expires : 58 ∉ destination → 1 ≤ backoff ≤ 60 → type_ok destination (without_well_known later backoff expires).
Proof. unfold without_well_known. by destruct expires. Qed.

Lemma resolve_name_ok now later backoff destination s : 1 ≤ backoff ≤ 60 → ∃ d t s', resolve_name now later backoff destination s = (Ok (d, t), s') ∧
  host_port d ∧ type_ok destination t ∧ actual_destination_cache s' = actual_destination_cache s.
Proof.
  intros Hb. unfold resolve_name. destruct (get_ip_with_port destination) eqn:E1; [do 3 eexists; split_and!; [done|by eapply get_ip_ok|done|done]|].
  destruct (split_colon destination) as [[h p]|] eqn:E2; [do 3 eexists; split_and!; [done|by eapply split_colon_Some|done|done]|].
  apply split_colon_None in E2. destruct (request_well_known now later destination) as [[host ts]|].
  - destruct (get_ip_with_port host) eqn:E3; [do 3 eexists; split_and!; [done|by eapply get_ip_ok|done|done]|].
    destruct (split_colon host) as [[h p]|] eqn:E4; [do 3 eexists; split_and!; [done|by eapply split_colon_Some|done|done]|]. apply split_colon_None in E4.
    destruct (srv_destination_ok now host s E4) as (d & expires & s' & E & Hd & _ & Hc). rewrite (bind_ok _ _ _ _ _ E).
    do 3 eexists. split_and!; [done|done|by destruct expires|done].
  - destruct (srv_destination_ok now destination s E2) as (d & expires & s' & E & Hd & _ & Hc). rewrite (bind_ok _ _ _ _ _ E).
    do 3 eexists. split_and!; [done|done|by apply without_well_known_ok|done].
Qed.

Lemma find_ok now later destination host only mins s :
  DestInv s → match mins with Some m => 1 ≤ m ≤ 60 | None => True end → (only = true → 58 ∉ default destination host ∧ 58 ∉ destination) →
  ∃ d s', find_actual_destination now later destination host only mins s = (Ok d, s') ∧ host_port d ∧ DestInv s'.
Proof.
  intros HI Hm Honly. unfold find_actual_destination. cbv zeta. apply next_backoff_ok in Hm.
  assert (∃ d t s1, (if only then
      '(dest, expires) ← get_srv_destination now (default destination host);
      mret (dest, without_well_known later (next_backoff mins) expires)
    else resolve_name now later (next_backoff mins) destination) s = (Ok (d, t), s1) ∧ host_port d ∧ type_ok destination t ∧
    actual_destination_cache s1 = actual_destination_cache s) as (d & t & s1 & E & Hd & Ht & Hc).
  { destruct only; [|by apply resolve_name_ok]. destruct (Honly eq_refl) as [Hh Hdest].
    destruct (srv_destination_ok now _ s Hh) as (d & expires & s1 & E & Hd & _ & Hc). rewrite (bind_ok _ _ _ _ _ E).
    do 3 eexists. split_and!; [done|done|by apply without_well_known_ok|done]. }
  rewrite (bind_ok _ _ _ _ _ E), bind_modify. do 2 eexists. split_and!; [done|done|]. unfold DestInv, set_destination. cbn. rewrite Hc.
  apply map_Forall_insert_2; [by split|done].
Qed.

Lemma destination_for_ok now later destination s : DestInv s → ∃ d s', destination_for now later destination s = (Ok d, s') ∧ host_port d ∧ DestInv s'.
Proof.
  intros HI. unfold destination_for. rewrite bind_gets. destruct (actual_destination_cache s !! destination) as [[d t]|] eqn:E; [|by apply find_ok].
  pose proof (HI _ _ E) as [Hd Ht]. cbn [actual_destination dest_type] in *.
  destruct t; cbn [type_ok] in Ht; repeat case_match; try (by exists d, s); apply find_ok; cbn [default]; naive_solver.
Qed.

(** C14: in every sequence of requests from empty caches a destination is
    found for each: no lookup panics or overflows.  Every destination kept is
    an address or a host without a colon with a port, names whose SRV records
    are looked up have no port, and every back-off lies between one minute and
    an hour. *)
Theorem destinations_well_formed (requests : list (Z * Z * bytes)) : ∃ ds s,
  foldM (λ ds r, d ← destination_for r.1.1 r.1.2 r.2; mret (ds ++ [d])) [] requests (mkDestinations ∅ ∅) = (Ok ds, s) ∧
  length ds = length requests ∧ Forall host_port ds ∧ DestInv s.
Proof.
  destruct (foldM_inv (λ l ds s, length ds = length l ∧ Forall host_port ds ∧ DestInv s)
    (λ ds (r : Z * Z * bytes), d ← destination_for r.1.1 r.1.2 r.2; mret (ds ++ [d])) [] requests (mkDestinations ∅ ∅)) as (ds & s & E & H).
  - split_and!; [done|done|]. apply map_Forall_empty.
  - intros l1 r l2 ds s _ (Hl & Hds & HI). destruct (destination_for_ok r.1.1 r.1.2 r.2 s HI) as (d & s' & E & Hd & HI').
    exists (ds ++ [d]), s'. rewrite (bind_ok _ _ _ _ _ E). split_and!; [done|rewrite !length_app; cbn; lia| |done].
    apply Forall_app. by rewrite Forall_singleton.
  - by exists ds, s.
Qed.

(** * The specification of resolution *)

(** Step 1: the name is an address, with its port or with 8448. *)
Inductive Address (name : bytes) : FedDest → Prop :=
  | address_port a : parse_socket_addr name = Some a → Address name (Literal a)
  | address_default ip : parse_socket_addr name = None → parse_ip name = Some ip → Address name (Literal (mkAddr ip 8448)).

Definition no_address (name : bytes) : Prop := parse_socket_addr name = None ∧ parse_ip name = None.

(** A host name without the dots it ends with. *)
Definition undotted (name base : bytes) : Prop := (∃ k, name = base ++ replicate k 46) ∧ last base ≠ Some 46.

(** The first record of a service of a host. *)
Definition first_record (now : Z) (service base target : bytes) (n : Z) : Prop :=
  ∃ records valid_until, srv_lookup now (service ++ base ++ lit ".") = Some ((target, n) :: records, valid_until).

(** The SRV record that counts: the one for [matrix-fed], and the one for the
    deprecated [matrix] if there is none. *)
Definition srv_target (now : Z) (name target : bytes) (n : Z) : Prop :=
  ∃ base dotted, undotted name base ∧ undotted dotted target ∧
    (first_record now (lit "_matrix-fed._tcp.") base dotted n ∨
     (∀ t m, ¬ first_record now (lit "_matrix-fed._tcp.") base t m) ∧ first_record now (lit "_matrix._tcp.") base dotted n).

(** Where a name that is not delegated leads: steps 1 and 2, and those by SRV
    records or the default port. *)
Inductive Direct (now : Z) (name : bytes) : FedDest → Prop :=
  | by_address d : Address name d → Direct now name d
  | by_port host rest : no_address name → 58 ∉ host → head name ≠ Some 91 → name = host ++ 58 :: rest → Direct now name (Named host (58 :: rest))
  | by_srv target n : no_address name → 58 ∉ name → srv_target now name target n → Direct now name (Named name (lit ":" ++ to_string n))
  | by_default : no_address name → 58 ∉ name → (∀ target n, ¬ srv_target now name target n) → Direct now name (Named name (lit ":8448")).

(** The [.well-known] file of a name names a host. *)
Definition well_known_names (now : Z) (name host : bytes) : Prop :=
  ∃ answer text fields, http_get now (lit "https://" ++ name ++ lit "/.well-known/matrix/server") = Some answer ∧ wk_text answer = Some text ∧
    json_of_text text = Some (VObject fields) ∧ field (lit "m.server") fields = Some (VString host).

(** Step 3: a name that is neither an address nor has a port is replaced by the
    host of its file, if there is one. *)
Definition delegated (now : Z) (name target : bytes) : Prop :=
  no_address name ∧ 58 ∉ name ∧ well_known_names now name target ∨
  target = name ∧ ¬ (no_address name ∧ 58 ∉ name ∧ ∃ host, well_known_names now name host).

(** A literal in brackets has a port. *)
Definition brackets_with_port (name : bytes) : Prop := head name = Some 91 → is_Some (parse_socket_addr name).

(** Nothing that is kept for the name may be used, nor its delegation. *)
Definition stale (now : Z) (kept : option DestinationResponse) : Prop :=
  match dest_type <$> kept with
  | None => True
  | Some (WellKnownSrv _ well_known_expires _) => well_known_expires < now
  | Some (WellKnown expires) => expires < now
  | Some (Srv _ well_known_retry _) | Some (LookupFailed well_known_retry _) => well_known_retry < now
  | Some IsIpOrHasPort => False
  end.

(** The answer may be used again. *)
Definition valid_at (now : Z) (t : DestType) : Prop :=
  match t with
  | WellKnownSrv srv_expires well_known_expires _ => now ≤ srv_expires ∧ now ≤ well_known_expires
  | WellKnown expires => now ≤ expires
  | Srv srv_expires well_known_retry _ => now ≤ srv_expires ∧ now ≤ well_known_retry
  | IsIpOrHasPort => True
  | LookupFailed well_known_retry _ => now ≤ well_known_retry
  end.

(** A connection to the host of an SRV destination goes to its first address. *)
Definition connects (now : Z) (name : bytes) (s : Destinations) : Prop := ∀ target n ip ips system,
  no_address name → 58 ∉ name → srv_target now name target n → lookup_ip now target = Some (ip :: ips) →
  resolver_resolve system name s = Some [mkAddr ip n].

Lemma get_ip_Some name d : get_ip_with_port name = Some d ↔ Address name d.
Proof.
  unfold get_ip_with_port. split.
  - destruct (parse_socket_addr name) eqn:E1; [intros [= <-]; by constructor|]. destruct (parse_ip name) eqn:E2; [|done]. intros [= <-]. by constructor.
  - by intros [a ->|ip -> ->].
Qed.

Lemma get_ip_None name : get_ip_with_port name = None ↔ no_address name.
Proof. unfold get_ip_with_port, no_address. destruct (parse_socket_addr name), (parse_ip name); naive_solver. Qed.

Lemma trim_dots_spec s : undotted s (trim_dots s).
Proof.
  induction s as [|b s [[k IH1] IH2]]; [by split; [exists 0%nat|]|]. cbn [trim_dots]. destruct (trim_dots s) as [|x t] eqn:E.
  - destruct (Z.eqb_spec b 46) as [->|Hb].
    + split; [|done]. exists (S k). cbn in *. by rewrite IH1.
    + split; [exists k; cbn in *; by rewrite IH1|]. cbn. congruence.
  - split; [exists k; cbn in *; by rewrite IH1|]. by rewrite last_cons_cons.
Qed.

Lemma undotted_unique s t t' : undotted s t → undotted s t' → t = t'.
Proof.
  assert (∀ k k' t t', last t ≠ Some 46 → last t' ≠ Some 46 → t ++ replicate k 46 = t' ++ replicate k' 46 → t = t') as H.
  { clear. induction k as [|k IH]; intros [|k'] t t' Ht Ht' E.
    - by rewrite !app_nil_r in E.
    - exfalso. apply Ht. rewrite app_nil_r in E. rewrite E, last_app, replicate_S_end, last_snoc. done.
    - exfalso. apply Ht'. rewrite app_nil_r in E. rewrite <-E, last_app, replicate_S_end, last_snoc. done.
    - rewrite !replicate_S_end, !app_assoc in E. apply app_inj_tail in E as [E _]. by apply (IH k'). }
  intros [[k ->] Ht] [[k' E] Ht']. by apply (H k k').
Qed.

(** What the two queries find, in terms of the records. *)
Lemma query_given_spec now service base :
  match query_given_srv_record now (service ++ base ++ lit ".") with
  | Some (d, _) => ∃ dotted target n, first_record now service base dotted n ∧ undotted dotted target ∧ 0 ≤ n ≤ 65535 ∧ d = Named target (lit ":" ++ to_string n)
  | None => ∀ t n, ¬ first_record now service base t n
  end.
Proof.
  unfold query_given_srv_record, first_record. destruct (srv_lookup now (service ++ base ++ lit ".")) as [[records v]|] eqn:E; cbn [mbind option_bind].
  - destruct records as [|[target n] records]; cbn [head]; [intros t n (? & ? & [=])|].
    exists target, (trim_dots target), n. apply srv_port_u16 in E as Hp. inversion Hp as [|?? Hn]; subst. split_and!; [by exists records, v|apply trim_dots_spec|apply Hn..|done].
  - intros t n (? & ? & [=]).
Qed.

Lemma query_srv_spec now name :
  match query_srv_record now name with
  | Some (d, _) => ∃ target n, srv_target now name target n ∧ 0 ≤ n ≤ 65535 ∧ d = Named target (lit ":" ++ to_string n)
  | None => ∀ target n, ¬ srv_target now name target n
  end.
Proof.
  unfold query_srv_record. pose proof (query_given_spec now (lit "_matrix-fed._tcp.") (trim_dots name)) as H1.
  pose proof (query_given_spec now (lit "_matrix._tcp.") (trim_dots name)) as H2. pose proof (trim_dots_spec name) as Ht.
  destruct (query_given_srv_record now (lit "_matrix-fed._tcp." ++ _)) as [[d v]|].
  - destruct H1 as (dotted & target & n & Hr & Hu & Hn & ->). exists target, n. split; [|done]. exists (trim_dots name), dotted. split_and!; [done|done|by left].
  - destruct (query_given_srv_record now (lit "_matrix._tcp." ++ _)) as [[d v]|].
    + destruct H2 as (dotted & target & n & Hr & Hu & Hn & ->). exists target, n. split; [|done]. exists (trim_dots name), dotted. split_and!; [done|done|by right].
    + intros target n (base & dotted & Hb & _ & Hr). rewrite (undotted_unique _ _ _ Hb Ht) in Hr. destruct Hr as [Hr|[_ Hr]]; [by eapply H1|by eapply H2].
Qed.

Lemma srv_target_unique now name target n target' n' : srv_target now name target n → srv_target now name target' n' → target = target' ∧ n = n'.
Proof.
  intros (base & dotted & Hb & Hd & Hr) (base' & dotted' & Hb' & Hd' & Hr'). rewrite (undotted_unique _ _ _ Hb' Hb) in Hr'.
  assert (dotted = dotted' ∧ n = n') as [-> ->]; [|by split; [eapply undotted_unique|]]. unfold first_record in *.
  destruct Hr as [(r & v & E)|[Hn (r & v & E)]], Hr' as [(r' & v' & E')|[Hn' (r' & v' & E')]].
  - rewrite E in E'. by injection E' as -> ->.
  - exfalso. apply (Hn' dotted n). by exists r, v.
  - exfalso. apply (Hn dotted' n'). by exists r', v'.
  - rewrite E in E'. by injection E' as -> ->.
Qed.

Lemma request_well_known_spec now later name :
  match request_well_known now later name with
  | Some (host, _) => well_known_names now name host
  | None => ∀ host, ¬ well_known_names now name host
  end.
Proof.
  unfold request_well_known, well_known_names. destruct (http_get now _) as [answer|]; cbn [mbind option_bind].
  2: { intros h (? & ? & ? & ? & _). done. }
  destruct (wk_text answer) as [text|] eqn:E2; cbn [mbind option_bind].
  2: { intros h (answer' & ? & ? & E & ? & _). injection E as <-. congruence. }
  destruct (json_of_text text) as [body|] eqn:E3; cbn [mbind option_bind].
  2: { intros h (answer' & ? & ? & E & ? & ? & _). injection E as <-. congruence. }
  assert (∀ h, (∃ answer' text' fields, Some answer = Some answer' ∧ wk_text answer' = Some text' ∧ json_of_text text' = Some (VObject fields) ∧
    field (lit "m.server") fields = Some (VString h)) ↔ value_get (lit "m.server") body = Some (VString h)) as Hspec.
  { intros h. split.
    - intros (answer' & text' & fields & E & H2 & H3 & H4). injection E as <-. rewrite E2 in H2. injection H2 as <-. rewrite E3 in H3. injection H3 as ->. exact H4.
    - intros H. destruct body as [| | | | |fields]; try discriminate H. by exists answer, text, fields. }
  destruct (value_get (lit "m.server") body) as [[]|]; try (intros h H; by apply Hspec in H). by apply Hspec.
Qed.

Lemma split_colon_app s host port : split_colon s = Some (host, port) → s = host ++ port.
Proof.
  revert host port. induction s as [|b s IH]; intros host port; cbn [split_colon]; [done|]. destruct (b =? 58); [by intros [= <- <-]|].
  destruct (split_colon s) as [[h p]|]; [|done]. intros [= <- <-]. cbn. by rewrite <- (IH h p).
Qed.

Lemma split_direct now name host port : no_address name → brackets_with_port name → split_colon name = Some (host, port) → Direct now name (Named host port).
Proof.
  intros Hip Hb E. pose proof (split_colon_app _ _ _ E) as Ha. apply split_colon_Some in E as [Hh [rest ->]]. apply by_port; [done|done| |done].
  intros [a E]%Hb. destruct Hip as [Hs _]. congruence.
Qed.

(** Asking for the SRV records of a name without a port. *)
Lemma srv_direct now name s : no_address name → 58 ∉ name → ∃ d expires s', get_srv_destination now name s = (Ok (d, expires), s') ∧
  Direct now name d ∧ connects now name s' ∧ actual_destination_cache s' = actual_destination_cache s.
Proof.
  intros Hip Hname. unfold get_srv_destination. pose proof (query_srv_spec now name) as Hq. destruct (query_srv_record now name) as [[d v]|].
  - destruct Hq as (target & n & Ht & Hn & ->). rewrite (bind_ok _ _ s (Some n) s) by (unfold lift; by rewrite port_of_record).
    rewrite bind_modify. do 3 eexists. split_and!; [done|by eapply by_srv| |by case_match].
    intros target' n' ip ips system _ _ Ht' Hl. destruct (srv_target_unique _ _ _ _ _ _ Ht' Ht) as [-> ->]. cbn [hostname]. rewrite Hl.
    unfold resolver_resolve. cbn. by rewrite lookup_insert_eq.
  - rewrite bind_modify. do 3 eexists. split_and!; [done|unfold add_port_to_hostname; rewrite (proj2 (split_colon_None _)) by done; by apply by_default| |done].
    intros target' n' ip ips system _ _ Ht. by apply Hq in Ht.
Qed.

Lemma no_connection now name s : ¬ (no_address name ∧ 58 ∉ name) → connects now name s.
Proof. intros Hn ????? H1 H2. by destruct Hn. Qed.

Lemma resolve_name_spec now later backoff name s :
  brackets_with_port name → (∀ host, well_known_names now name host → brackets_with_port host) →
  ∃ d t s' target, resolve_name now later backoff name s = (Ok (d, t), s') ∧
    delegated now name target ∧ Direct now target d ∧ connects now target s' ∧ actual_destination_cache s' = actual_destination_cache s.
Proof.
  intros Hb Hwb. unfold resolve_name. destruct (get_ip_with_port name) as [d|] eqn:E1.
  { assert (¬ no_address name) as Hno by (rewrite <-get_ip_None; congruence). apply get_ip_Some in E1.
    exists d, IsIpOrHasPort, s, name. split_and!; [done|right; naive_solver|by apply by_address|apply no_connection; naive_solver|done]. }
  apply get_ip_None in E1. destruct (split_colon name) as [[h p]|] eqn:E2.
  { assert (¬ (58 ∉ name)) as Hc by (rewrite <-split_colon_None; congruence).
    do 3 eexists. exists name. split_and!; [done|right; naive_solver|by apply split_direct|apply no_connection; naive_solver|done]. }
  apply split_colon_None in E2. pose proof (request_well_known_spec now later name) as Hw. destruct (request_well_known now later name) as [[host ts]|].
  - assert (delegated now name host) as Hd by (left; done). specialize (Hwb _ Hw). destruct (get_ip_with_port host) as [d|] eqn:E3.
    { assert (¬ no_address host) as Hno by (rewrite <-get_ip_None; congruence). apply get_ip_Some in E3.
      do 3 eexists. exists host. split_and!; [done|done|by apply by_address|apply no_connection; naive_solver|done]. }
    apply get_ip_None in E3. destruct (split_colon host) as [[h p]|] eqn:E4.
    { assert (¬ (58 ∉ host)) as Hc by (rewrite <-split_colon_None; congruence).
      do 3 eexists. exists host. split_and!; [done|done|by apply split_direct|apply no_connection; naive_solver|done]. }
    apply split_colon_None in E4. destruct (srv_direct now host s E3 E4) as (d & expires & s' & E & H). rewrite (bind_ok _ _ _ _ _ E).
    do 3 eexists. exists host. split_and!; [done|done|apply H..].
  - destruct (srv_direct now name s E1 E2) as (d & expires & s' & E & H). rewrite (bind_ok _ _ _ _ _ E).
    do 3 eexists. exists name. split_and!; [done|right; naive_solver|apply H..].
Qed.

(** A stale name is resolved anew. *)
Lemma stale_resolves now later name s : stale now (actual_destination_cache s !! name) →
  ∃ mins, destination_for now later name s = find_actual_destination now later name None false mins s.
Proof.
  unfold stale, destination_for. rewrite bind_gets. destruct (actual_destination_cache s !! name) as [[d t]|]; [|by eexists].
  cbn [fmap option_fmap option_map dest_type]. destruct t; intros H; try done; rewrite (proj2 (Z.ltb_lt _ _)) by done; by eexists.
Qed.

(** C13: a server name for which nothing usable is kept is resolved as the
    specification says: an address or a name with a port stands for itself, any
    other name is replaced by what its .well-known file names, if it has one,
    and goes to the port of its first SRV record (for [matrix-fed], else for
    [matrix]) or to 8448.  A connection to a name with an SRV record goes to the
    first address of the record's target, and until the answer expires the same
    destination is given without asking anyone.  Bracketed literals need a port:
    the specification allows them without one, the code does not read them. *)
Theorem resolution_follows_specification now later name s :
  stale now (actual_destination_cache s !! name) →
  brackets_with_port name → (∀ host, well_known_names now name host → brackets_with_port host) →
  ∃ d t s' target, destination_for now later name s = (Ok d, s') ∧
    delegated now name target ∧ Direct now target d ∧ connects now target s' ∧
    actual_destination_cache s' = <[name := mkDestination d t]> (actual_destination_cache s) ∧
    ∀ now2 later2, valid_at now2 t → destination_for now2 later2 name s' = (Ok d, s').
Proof.
  intros Hst Hb Hwb. destruct (stale_resolves now later name s Hst) as [mins ->]. unfold find_actual_destination. cbv zeta.
  destruct (resolve_name_spec now later (next_backoff mins) name s Hb Hwb) as (d & t & s1 & target & E & Hdel & Hd & Hc & Hs).
  rewrite (bind_ok _ _ _ _ _ E), bind_modify.
  exists d, t. eexists. exists target. split_and!; [done|done|done|done|by cbn; rewrite Hs|].
  intros now2 later2 Hv. unfold destination_for. rewrite bind_gets. cbn [set_destination actual_destination_cache].
  rewrite lookup_insert_eq. destruct t; cbn [valid_at dest_type actual_destination] in *; rewrite ?(proj2 (Z.ltb_ge _ _)) by lia; done.
Qed.

(** A literal in brackets without a port is cut at its first colon. *)
Theorem bracketed_literal_cut now later rest s :
  no_address (91 :: 58 :: rest) → actual_destination_cache s !! (91 :: 58 :: rest) = None →
  (destination_for now later (91 :: 58 :: rest) s).1 = Ok (Named [91] (58 :: rest)).
Proof.
  intros Hn%get_ip_None Hc. unfold destination_for. rewrite bind_gets, Hc. unfold find_actual_destination, resolve_name. cbv zeta. by rewrite Hn.
Qed.

(** * Where refreshing an SRV record goes wrong *)

Lemma find_srv now later name host mins s : 58 ∉ default name host → ∃ d expires s',
  find_actual_destination now later name host true mins s = (Ok d, s') ∧ hostname d = default name host ∧ expires = snd <$> query_srv_record now (default name host) ∧
  actual_destination_cache s' !! name = Some (mkDestination d (without_well_known later (next_backoff mins) expires)).
Proof.
  intros Hh. destruct (srv_destination_ok now _ s Hh) as (d & expires & s1 & E & _ & Hd & _). unfold find_actual_destination. cbv zeta.
  rewrite (bind_ok _ _ s (d, without_well_known later (next_backoff mins) expires) s1) by (by rewrite (bind_ok _ _ _ _ _ E)). rewrite bind_modify.
  do 3 eexists. split_and!; [done|done| |cbn; by rewrite lookup_insert_eq]. unfold get_srv_destination in E.
  destruct (query_srv_record now _) as [[q v]|] eqn:Eq; [|by injection E as _ <- _].
  destruct (query_record _ _ _ _ Eq) as (target & n & -> & Hn). rewrite (bind_ok _ _ s (Some n) s) in E by (unfold lift; by rewrite port_of_record).
  by injection E as _ <- _.
Qed.

(** When the SRV record of a delegated name is refreshed, the delegation is
    forgotten: a request within the next minute, after that record has expired
    too, goes to the server name itself, although the .well-known file that
    names another host is still valid. *)
Theorem delegation_forgotten name host d0 srv_expires well_known_expires now later now2 later2 target expires s :
  actual_destination_cache s !! name = Some (mkDestination d0 (WellKnownSrv srv_expires well_known_expires host)) → 58 ∉ name → 58 ∉ host →
  srv_expires < now → query_srv_record now host = Some (target, expires) → expires < now2 → now2 ≤ later + 60 → now2 ≤ well_known_expires → now ≤ now2 →
  ∃ d1 s1 d2 s2, destination_for now later name s = (Ok d1, s1) ∧ hostname d1 = host ∧ destination_for now2 later2 name s1 = (Ok d2, s2) ∧ hostname d2 = name.
Proof.
  intros Hc Hn Hh Hsrv Hq Hexp Hretry Hwk Hle. unfold destination_for at 1. rewrite bind_gets, Hc. cbn [dest_type].
  rewrite (proj2 (Z.ltb_ge _ _)), (proj2 (Z.ltb_lt _ _)) by lia.
  destruct (find_srv now later name (Some host) None s Hh) as (d1 & e1 & s1 & E1 & Hd1 & He1 & Hc1). cbn [from_option id] in *. rewrite Hq in He1. subst e1.
  cbn [fmap option_fmap option_map snd without_well_known next_backoff] in Hc1. change (mul_u16 60 1) with 60 in Hc1.
  destruct (find_srv now2 later2 name None (Some 1) s1 Hn) as (d2 & e2 & s2 & E2 & Hd2 & _). exists d1, s1, d2, s2. split_and!; [done|done| |done].
  unfold destination_for. rewrite bind_gets, Hc1. cbn [dest_type]. by rewrite (proj2 (Z.ltb_ge _ _)), (proj2 (Z.ltb_lt _ _)) by lia.
Qed.

(** Requests that come at least every half hour. *)
Fixpoint paced (last : Z) (requests : list (Z * Z)) : Prop :=
  match requests with
  | [] => True
  | (now, later) :: requests => now ≤ last + 1800 ∧ now ≤ later ∧ paced now requests
  end.

(** Once the back-off of a name is an hour, its .well-known file is never
    asked for again while requests come at least every half hour and its SRV
    records are valid for at most half an hour: every refresh of the records
    puts the retry off by another hour, and whatever the file says, all
    requests go to the name itself. *)
Theorem well_known_never_retried name d srv_expires retry last requests s :
  58 ∉ name → hostname d = name → actual_destination_cache s !! name = Some (mkDestination d (Srv srv_expires retry 60)) →
  srv_expires + 1800 ≤ retry → last + 1800 ≤ retry → paced last requests →
  (∀ now, ∃ target valid, query_srv_record now name = Some (target, valid) ∧ valid ≤ now + 1800) →
  ∃ ds s', foldM (λ ds r, d ← destination_for r.1 r.2 name; mret (ds ++ [d])) [] requests s = (Ok ds, s') ∧
    length ds = length requests ∧ Forall (λ d, hostname d = name) ds.
Proof.
  intros Hn Hd Hc He Hl Hp Hq. assert (∀ ds0, Forall (λ d, hostname d = name) ds0 → ∃ ds s',
    foldM (λ ds r, d ← destination_for r.1 r.2 name; mret (ds ++ [d])) ds0 requests s = (Ok ds, s') ∧
    length ds = (length ds0 + length requests)%nat ∧ Forall (λ d, hostname d = name) ds) as H; [|by apply (H [])].
  revert d srv_expires retry last s Hd Hc He Hl Hp.
  induction requests as [|[now later] requests IH]; intros d e r last s Hd Hc He Hl Hp ds0 H0; cbn [foldM].
  { exists ds0, s. split_and!; [done|cbn; lia|done]. }
  destruct Hp as (H1 & H2 & Hp). cbn [fst snd].
  assert (∃ d' e' r' s', destination_for now later name s = (Ok d', s') ∧ hostname d' = name ∧
    actual_destination_cache s' !! name = Some (mkDestination d' (Srv e' r' 60)) ∧ e' + 1800 ≤ r' ∧ now + 1800 ≤ r') as (d' & e' & r' & s' & E & Hd' & Hc' & He' & Hl').
  { unfold destination_for. rewrite bind_gets, Hc. cbn [dest_type actual_destination]. rewrite (proj2 (Z.ltb_ge _ _)) by lia.
    destruct (Z.ltb_spec e now) as [Hexp|Hval]; [|by exists d, e, r, s; split_and!; [done..|lia]].
    destruct (find_srv now later name None (Some 60) s Hn) as (d' & e' & s' & E & Hd' & He' & Hc'). cbn [from_option id] in *.
    destruct (Hq now) as (target & valid & Eq & Hv). rewrite Eq in He'. subst e'. cbn [fmap option_fmap option_map snd without_well_known] in Hc'.
    change (next_backoff (Some 60)) with 60 in Hc'. change (mul_u16 60 60) with 3600 in Hc'.
    exists d', valid, (later + 3600), s'. split_and!; [done..|lia|lia]. }
  rewrite (bind_ok _ _ s (ds0 ++ [d']) s') by (by rewrite (bind_ok _ _ _ _ _ E)).
  destruct (IH d' e' r' now s' Hd' Hc' He' Hl' Hp (ds0 ++ [d'])) as (ds & s2 & E2 & Hlen & Hf).
  { apply Forall_app. by rewrite Forall_singleton. }
  exists ds, s2. split_and!; [done| |done]. rewrite Hlen, length_app. cbn. lia.
Qed.
End correct.

(** * Samples *)

Definition sample_addresses : Addresses := {| parse_socket_addr _ := None; parse_ip _ := None; addr_text a := sa_ip a |}.

(** A name [c] with a .well-known file that names [d]; both have SRV records
    that are valid for a while. *)
#[refine] Definition sample_network (validity : Z) : Network := {|
  srv_lookup now record := if bool_decide (record = lit "_matrix-fed._tcp.c.") then Some ([(lit "srv-c.", 1)], now + validity)
    else if bool_decide (record = lit "_matrix._tcp.d.") then Some ([(lit "srv-d.", 2)], now + validity) else None;
  lookup_ip _ host := if bool_decide (host = lit "srv-d") then Some [lit "5.6.7.8"] else None;
  http_get _ url := Some (mkWellKnown [] (Some (lit "d")));
  decode_cache_control _ := None;
  json_of_text text := Some (VObject [(lit "m.server", VString text)]);
|}.
Proof. intros now record records v. repeat case_bool_decide; intros [= <- <-]; repeat constructor; cbn; lia. Defined.

#[local] Existing Instance sample_addresses.

Lemma resolution_follows_specification_witness :
  ∃ s', destination_for (NW := sample_network 30) 100 101 (lit "c") (mkDestinations ∅ ∅) = (Ok (Named (lit "d") (lit ":2")), s') ∧
    resolver_resolve (λ _, None) (lit "d") s' = Some [mkAddr (lit "5.6.7.8") 2] ∧
    destination_for (NW := sample_network 30) 130 131 (lit "c") s' = (Ok (Named (lit "d") (lit ":2")), s').
Proof.
  assert (∀ host, well_known_names (NW := sample_network 30) 100 (lit "c") host → host = lit "d") as Hwk.
  { intros host (answer & text & fields & E1 & E2 & E3 & E4). injection E1 as <-. injection E2 as <-. injection E3 as <-. injection E4 as <-. reflexivity. }
  destruct (resolution_follows_specification (NW := sample_network 30) 100 101 (lit "c") (mkDestinations ∅ ∅))
    as (d & t & s' & target & E & Hdel & _ & Hc & Ht & Hv).
  - vm_compute. exact I.
  - intros H. discriminate H.
  - intros host ->%Hwk H. discriminate H.
  - assert (d = Named (lit "d") (lit ":2")) as ->
      by (pose proof (f_equal fst E) as E1; vm_compute in E1; injection E1 as <-; vm_compute; reflexivity).
    assert (∀ b, b ≠ 58 → 58 ∉ [b]) as Hb by (intros b Hb H; apply list_elem_of_singleton in H; congruence).
    assert (well_known_names (NW := sample_network 30) 100 (lit "c") (lit "d")) as Hd
      by (exists (mkWellKnown [] (Some (lit "d"))), (lit "d"), [(lit "m.server", VString (lit "d"))]; split_and!; vm_compute; reflexivity).
    assert (target = lit "d") as ->.
    { destruct Hdel as [(_ & _ & H)|[_ Hn]]; [exact (Hwk _ H)|]. exfalso. apply Hn. split; [split; reflexivity|].
      split; [apply Hb; vm_compute; discriminate|]. exists (lit "d"). exact Hd. }
    exists s'. split; [exact E|]. split.
    + apply (Hc (lit "srv-d") 2 (lit "5.6.7.8") [] (λ _, None)); [split; reflexivity|apply Hb; vm_compute; discriminate| |vm_compute; reflexivity].
      exists (lit "d"), (lit "srv-d."). split_and!.
      * split; [exists 0%nat; reflexivity|vm_compute; discriminate].
      * split; [exists 1%nat; reflexivity|vm_compute; discriminate].
      * right. split; [intros t' m (r & v & H); vm_compute in H; discriminate H|]. exists [], 130. vm_compute. reflexivity.
    + apply Hv. pose proof (f_equal (λ r, actual_destination_cache r.2 !! lit "c") E) as Et. cbn [snd] in Et. rewrite Ht, lookup_insert_eq in Et.
      vm_compute in Et. injection Et as <-. split; vm_compute; discriminate.
Defined.

Definition delegated_cache : Destinations :=
  mkDestinations {[ lit "c" := mkDestination (Named (lit "d") (lit ":2")) (WellKnownSrv 90 86400 (lit "d")) ]} ∅.

Lemma delegation_forgotten_witness : ∃ d1 s1 d2 s2,
  destination_for (NW := sample_network 10) 100 101 (lit "c") delegated_cache = (Ok d1, s1) ∧ hostname d1 = lit "d" ∧
  destination_for (NW := sample_network 10) 120 121 (lit "c") s1 = (Ok d2, s2) ∧ hostname d2 = lit "c".
Proof.
  assert (∀ b, b ≠ 58 → 58 ∉ [b]) as Hb by (intros b Hb H; apply list_elem_of_singleton in H; congruence).
  apply (delegation_forgotten (NW := sample_network 10) (lit "c") (lit "d") (Named (lit "d") (lit ":2")) 90 86400 100 101 120 121
    (Named (lit "srv-d") (lit ":2")) 110); [vm_compute; reflexivity|apply Hb; vm_compute; discriminate|apply Hb; vm_compute; discriminate|lia|vm_compute; reflexivity|lia..].
Defined.

Lemma well_known_never_retried_witness :
  let requests := [(1000, 1000); (2000, 2001); (3500, 3501); (5000, 5002); (6800, 6800)] in
  ∃ ds s', foldM (λ ds r, d ← destination_for (NW := sample_network 300) r.1 r.2 (lit "c"); mret (ds ++ [d])) [] requests
      (mkDestinations {[ lit "c" := mkDestination (Named (lit "c") (lit ":1")) (Srv 300 3600 60) ]} ∅) = (Ok ds, s') ∧
    length ds = 5%nat ∧ Forall (λ d, hostname d = lit "c") ds.
Proof.
  apply (well_known_never_retried (NW := sample_network 300) (lit "c") (Named (lit "c") (lit ":1")) 300 3600 0).
  - intros H. apply list_elem_of_singleton in H. discriminate H.
  - reflexivity.
  - vm_compute. reflexivity.
  - lia.
  - lia.
  - cbn. lia.
  - intros now. exists (Named (lit "srv-c") (lit ":1")), (now + 300). split; [vm_compute; reflexivity|lia].
Defined.
