(* ===== verification/FederationRoutes.v ===== *)
(** * FederationRoutes: the endpoints for other servers

    The routes of [server/src/api/server_server.rs] and
    [check_stripped_state] of [utils/mod.rs]: transactions with their events
    and EDUs, reading events and states, the handshakes of joins, leaves and
    knocks, invites, and the queries.  The authenticated server is an argument
    of each route.  The listings of public rooms and spaces and the key queries
    that are shared with the client routes are not here. *)
From S2P Require Import Prelude Bytes JsonValue KvTree Pdu Database Short StateCompressor RoomState Accounts StateCache.
From S2P Require Import Timeline PduJson Devices UserKeys AuthChain Edus RoomTables Search Sending StateAccess MemberEvents Appservice TimelineService ServerKeys.
From S2P Require Import EventHandler EventHandlerInv EventFetch LocalEvents Membership Destinations.

(** ** The state *)

(** The event handler with its services, the two visibility caches and the
    typing users. *)
Record Node := mkNode {
  n_handler : Handler;
  n_server_visibility : gmap (bytes * Z) bool;
  n_user_visibility : gmap (bytes * Z) bool;
  n_typing : gmap bytes (gmap bytes Z);
  n_last_typing_update : gmap bytes Z;
  n_typing_sent : list bytes;
}.

Definition node_db (n : Node) : Db := sv_db (h_server (n_handler n)).

Definition set_node_db (d : Db) (h : Handler) : Handler := (hdb (λ _, (Ok tt, d)) h).2.

Definition on_handler {A} (m : M Handler A) : M Node A := λ n,
  let '(r, h) := m (n_handler n) in
  (r, mkNode h (n_server_visibility n) (n_user_visibility n) (n_typing n) (n_last_typing_update n) (n_typing_sent n)).

Definition ndb {A} (m : M Db A) : M Node A := on_handler (hdb m).

Definition on_access {A} (m : M Access A) : M Node A := λ n,
  let '(r, a) := m (mkAccess (node_db n) (n_server_visibility n) (n_user_visibility n)) in
  (r, mkNode (set_node_db (a_db a) (n_handler n)) (server_visibility_cache a) (user_visibility_cache a) (n_typing n) (n_last_typing_update n) (n_typing_sent n)).

Definition on_typing {A} (m : M TypingState A) : M Node A := λ n,
  let '(r, t) := m (mkTyping (n_typing n) (n_last_typing_update n) (n_typing_sent n) (node_db n)) in
  (r, mkNode (set_node_db (typing_db t) (n_handler n)) (n_server_visibility n) (n_user_visibility n) (typing t) (last_update t) (typing_sent t)).

(** ** EDUs *)

(** Maps are lists of their entries, in their order; the target of a to-device
    message is a device, or all of them. *)
Inductive Edu {Raw : Type} :=
  | EPresence
  | EReceipt (receipts : list (bytes * list (bytes * (list bytes * bytes))))
  | ETyping (user_id room_id : bytes) (typing : bool)
  | EDeviceListUpdate (user_id : bytes)
  | EDirectToDevice (sender ev_type message_id : bytes) (messages : list (bytes * list (option bytes * Raw)))
  | ESigningKeyUpdate (user_id : bytes) (master_key self_signing_key : option bytes)
  | ECustom.
Arguments Edu : clear implicits.

(** [ReceiptEvent]: by event, receipt type and user. *)
Record ReceiptEvent := mkReceiptEvent {
  re_content : list (bytes * list (bytes * list (bytes * bytes)));
  re_room_id : bytes;
}.

#[global] Instance ReceiptEvent_eq_dec : EqDecision ReceiptEvent.
Proof. solve_decision. Defined.

#[global] Instance ReceiptEvent_countable : Countable ReceiptEvent :=
  inj_countable' (λ r, (re_content r, re_room_id r)) (λ p, mkReceiptEvent p.1 p.2) ltac:(by intros []).

(** [Error::sanitized_error]: [None] is the text that hides an internal error. *)
Definition sanitized_error (e : Error) : option Error :=
  match e with
  | SqliteError | RocksDbError | IoError | BadConfig _ | BadDatabase _ => None
  | _ => Some e
  end.

(** What the sender of a transaction is told of an event. *)
Inductive PduOutcome := PduOk | PduFailed (error : option Error).

(** [max_by_key]: the last of the largest. *)
Fixpoint max_count (l : list (bytes * PduCount)) : option (bytes * PduCount) :=
  match l with
  | [] => None
  | x :: l' =>
      match max_count l' with
      | Some y => Some (match PduCount_cmp x.2 y.2 with Gt => x | _ => y end)
      | None => Some x
      end
  end.

(** ruma: what the routes parse, and the rule about restricted joins. *)
Class FederationApi {RV : RoomVersions} {EC : EventChecks} := {
  restricted_join_rule : AuthRules → bool;
  member_content_of_value : Value → option MemberContent;
  edu_of : Raw → option (Edu Raw);
  ToDeviceContent : Type;
  to_device_content : Raw → option ToDeviceContent;
  to_device_json : bytes → bytes → ToDeviceContent → bytes;
  (** [Vec<OwnedEventId>] *)
  event_ids_of : Value → option (list bytes);
  cross_signing_key_ids : bytes → option (list bytes);
  raw_key_ok : bytes → bool;
  base64 : bytes → bytes;
  (** an event in a list, as a raw value *)
  raw_of : bytes → Raw;
  sign_object : CanonicalJsonObject → CanonicalJsonObject;
}.

Section federation.
Context {RU : Ruma} {LR : LruCache} {HO : HashOrder} {MO : MapOrder} {CT : Contents} {RV : RoomVersions} {EB : EventBodies} {EC : EventChecks}.
Context {SG : Signing} {AP : Appender} {FE : Federation} {KJ : KeyJson} {KS : KeyServers} {TW : TimelineWriter} {MC : MemberContents} {MR : MemberRemote}.
Context {FA : FederationApi}.
Context `{JP : !Json PduEvent} `{JV : !Json Value} `{JL : !Json (list Value)} `{JM : !Json Tree} `{JF : !Json CanonicalJsonObject} `{JR : !Json RedactionContent}.
Context `{JE : !Json ReceiptEvent} `{JD : !Json Device}.
Context (sha256 : bytes → bytes) (server_name server_user admin_alias : bytes) (own_version own_public_key : bytes).
Context (auth_types_for_event : bytes → bytes → option bytes → bytes → AuthRules → option (list (bytes * bytes))).
Context (calculate_password_hash : bytes → option bytes).
Context (direct_of : Value → option (list (bytes * list bytes))) (direct_value : list (bytes * list bytes) → Value) (ignored_of : Value → option (list bytes)).
Context (stripped_types : list bytes).
Notation handle_incoming := (handle_incoming_pdu sha256 server_name own_version own_public_key auth_types_for_event).
Notation create_event := (create_hash_and_sign_event server_name auth_types_for_event).
Notation update_membership := (update_membership server_name calculate_password_hash direct_of direct_value ignored_of).
Notation join_room_by_id := (join_room_by_id sha256 server_name server_user admin_alias own_version own_public_key auth_types_for_event).

(** * Transactions *)

(** The id of the event, unless it cannot be parsed, and the outcome. *)
Definition handle_pdu_in_transaction (rounds fuel : nat) (now : Z) (origin : bytes) (pdu : Raw) : M Node (option bytes * res unit) :=
  r ← attempt (ndb (parse_incoming_pdu pdu));
  match r with
  | Panic => lift Panic
  | Err _ => mret (None, Err (BadServerResponse "Could not parse PDU"))
  | Ok (event_id, value, room_id) =>
      version ← attempt (ndb (get_room_version room_id));
      if negb (is_ok version) then mret (Some event_id, Err (BadServerResponse "Room is not known to this server")) else
      r ← attempt (on_handler (handle_incoming rounds fuel now origin event_id room_id value true));
      match r with
      | Panic => lift Panic
      | Err e => mret (Some event_id, Err e)
      | Ok _ => mret (Some event_id, Ok tt)
      end
  end.

(** One receipt: the newest event that is known counts. *)
Definition handle_receipt (room_id user_id : bytes) (event_ids : list bytes) (data : bytes) : M Node unit :=
  known ← ndb (foldM (λ acc id, o ← try_ok (get_pdu_count id); mret (match o with Some (Some count) => acc ++ [(id, count)] | _ => acc end)) [] event_ids);
  match max_count known with
  | Some (event_id, _) =>
      ndb (readreceipt_update user_id room_id (mkReceiptEvent [(event_id, [(lit "m.read", [(user_id, data)])])] room_id))
  | None => mret tt
  end.

(** A message for a device, or for all devices of a user. *)
Definition send_to_device (sender ev_type target_user_id : bytes) (target : option bytes) (event : Raw) : M Node unit :=
  let add device :=
    content ← lift (ok_or (to_device_content event) (BadRequest InvalidParam "Event is invalid"));
    ndb (add_to_device_event to_device_json sender target_user_id device ev_type content) in
  match target with
  | Some target_device_id => add target_device_id
  | None =>
      devices ← ndb (gets (λ d, Ok (all_device_ids target_user_id d)));
      for_each devices (λ r, device ← lift r; add device)
  end.

Definition handle_edu (now : Z) (sender_servername : bytes) (edu : Edu Raw) : M Node unit :=
  let from_sender user := bool_decide (server_name_of user = sender_servername) in
  match edu with
  | EPresence | ECustom => mret tt
  | EReceipt receipts =>
      for_each receipts (λ '(room_id, read), for_each read (λ '(user_id, (event_ids, data)),
        if from_sender user_id then handle_receipt room_id user_id event_ids data else mret tt))
  | ETyping user_id room_id typing =>
      joined ← (if from_sender user_id then ndb (is_joined user_id room_id) else mret false);
      if (joined : bool) then on_typing (if typing then typing_add user_id room_id (3000 + now) else typing_remove user_id room_id) else mret tt
  | EDeviceListUpdate user_id => if from_sender user_id then ndb (mark_device_key_update user_id) else mret tt
  | EDirectToDevice sender ev_type message_id messages =>
      fresh ← (if from_sender sender then o ← ndb (existing_txnid sender None message_id); mret (bool_decide (o = None)) else mret false);
      if (fresh : bool) then
        for_each messages (λ '(target_user_id, map), for_each map (λ '(target, event), send_to_device sender ev_type target_user_id target event));;
        ndb (add_txnid sender None message_id [])
      else mret tt
  | ESigningKeyUpdate user_id master_key self_signing_key =>
      match master_key with
      | Some master_key =>
          if from_sender user_id then ndb (add_cross_signing_keys cross_signing_key_ids user_id master_key self_signing_key None true) else mret tt
      | None => mret tt
      end
  end.

(** The outcome of each event that has an id; the EDUs come after all events,
    and those that cannot be parsed are skipped. *)
Definition send_transaction_message_route (rounds fuel : nat) (now : Z) (sender_servername : bytes) (pdus edus : list Raw)
    : M Node (gmap bytes PduOutcome) :=
  on_handler reset_keys;;
  resolved_map ← foldM (λ resolved_map pdu,
    '(event_id, result) ← handle_pdu_in_transaction rounds fuel now sender_servername pdu;
    mret (match event_id with
      | Some event_id => <[event_id := match result with Err e => PduFailed (sanitized_error e) | _ => PduOk end]> resolved_map
      | None => resolved_map
      end)) ∅ pdus;
  for_each (omap edu_of edus) (handle_edu now sender_servername);;
  mret resolved_map.

(** * Reading *)

(** The room an event from the database says it is in. *)
Definition stored_room_id (event : CanonicalJsonObject) : res bytes :=
  match field (lit "room_id") event with
  | Some (VString r) => if room_id_ok r then Ok r else Err (BadDatabase "Invalid room id field in event in database")
  | _ => Err (BadDatabase "Invalid event in database")
  end.

(** The server is in the room, or the error is as given. *)
Definition check_in_room (msg : string) (sender_servername room_id : bytes) : M Node unit :=
  b ← ndb (server_in_room sender_servername room_id);
  if (b : bool) then mret tt else fail (BadRequest Forbidden msg).

Definition get_event_route (sender_servername event_id : bytes) : M Node CanonicalJsonObject :=
  o ← ndb (get_pdu_json event_id : M Db (option CanonicalJsonObject));
  event ← lift (ok_or o (BadRequest NotFound "Event not found."));
  room_id ← lift (stored_room_id event);
  check_in_room "Server is not in room" sender_servername room_id;;
  visible ← on_access (server_can_see_event sender_servername room_id event_id);
  if negb visible then fail (BadRequest Forbidden "Server is not allowed to see event.") else
  mret (convert_to_outgoing_federation_event event).

(** The event of the backfill, if the server may see it and it can be read. *)
Definition backfill_event (sender_servername : bytes) (acc : list CanonicalJsonObject) (pdu : PduEvent) : M Node (list CanonicalJsonObject) :=
  room ← lift (Database.room_id pdu);
  visible ← try_ok (on_access (server_can_see_event sender_servername room (pdu_event_id pdu)));
  if bool_decide (visible = Some true) then
    o ← try_ok (ndb (get_pdu_json (pdu_event_id pdu) : M Db (option CanonicalJsonObject)));
    mret (match o with Some (Some json) => acc ++ [convert_to_outgoing_federation_event json] | _ => acc end)
  else mret acc.

Definition get_backfill_route (sender_servername room_id : bytes) (v : list bytes) (limit : Z) : M Node (list CanonicalJsonObject) :=
  check_in_room "Server is not in room." sender_servername room_id;;
  on_handler (acl_check sender_servername room_id);;
  counts ← ndb (foldM (λ acc id, o ← try_ok (get_pdu_count id); mret (match o with Some (Some count) => acc ++ [(id, count)] | _ => acc end)) [] v);
  until ← lift (ok_or (snd <$> max_count counts) (BadRequest InvalidParam "No known eventid in v"));
  all_events ← ndb (pdus_until (lit "@doesntmatter:conduit.rs") room_id until);
  foldM (λ acc e, backfill_event sender_servername acc e.2) [] (oks (take (Z.to_nat (limit `min` 100)) all_events)).

(** The search for missing events: what is still queued and what was found. *)
Fixpoint missing_events (fuel : nat) (sender_servername room_id : bytes) (earliest : list bytes) (limit : Z) (queued : list bytes)
    (events : list CanonicalJsonObject) : M Node (list CanonicalJsonObject) :=
  match queued with
  | [] => mret events
  | id :: queued =>
      if limit <=? Z.of_nat (length events) then mret events else
      match fuel with
      | O => lift Panic
      | S fuel =>
          let next := missing_events fuel sender_servername room_id earliest limit in
          o ← ndb (get_pdu_json id : M Db (option CanonicalJsonObject));
          match o with
          | None => next queued events
          | Some pdu =>
              event_room_id ← lift (stored_room_id pdu);
              if bool_decide (event_room_id ≠ room_id) then fail (BadRequest InvalidParam "Evil event detected") else
              if bool_decide (id ∈ earliest) then next queued events else
              visible ← on_access (server_can_see_event sender_servername room_id id);
              if negb visible then next queued events else
              prev ← lift (ok_or (field (lit "prev_events") pdu) (BadDatabase "Event in db has no prev_events field."));
              prev_events ← lift (ok_or (event_ids_of prev) (BadDatabase "Invalid prev_events content in pdu in db."));
              next (queued ++ prev_events) (events ++ [convert_to_outgoing_federation_event pdu])
          end
      end
  end.

Definition get_missing_events_route (fuel : nat) (sender_servername room_id : bytes) (latest earliest : list bytes) (limit : Z)
    : M Node (list CanonicalJsonObject) :=
  check_in_room "Server is not in room" sender_servername room_id;;
  on_handler (acl_check sender_servername room_id);;
  missing_events fuel sender_servername room_id earliest limit latest [].

(** The events of a list that can be read. *)
Definition readable_events (ids : list bytes) : M Node (list CanonicalJsonObject) :=
  foldM (λ acc id,
    o ← try_ok (ndb (get_pdu_json id : M Db (option CanonicalJsonObject)));
    mret (match o with Some (Some json) => acc ++ [convert_to_outgoing_federation_event json] | _ => acc end)) [] ids.

Definition get_event_authorization_route (sender_servername room_id event_id : bytes) : M Node (list CanonicalJsonObject) :=
  check_in_room "Server is not in room." sender_servername room_id;;
  on_handler (acl_check sender_servername room_id);;
  o ← ndb (get_pdu_json event_id : M Db (option CanonicalJsonObject));
  event ← lift (ok_or o (BadRequest NotFound "Event not found."));
  event_room_id ← lift (stored_room_id event);
  auth_chain_ids ← ndb (get_auth_chain event_room_id [event_id]);
  readable_events auth_chain_ids.

(** The state before an event: the events, and the auth chain of the event. *)
Definition get_room_state_route (sender_servername room_id event_id : bytes) : M Node (list CanonicalJsonObject * list CanonicalJsonObject) :=
  check_in_room "Server is not in room." sender_servername room_id;;
  on_handler (acl_check sender_servername room_id);;
  o ← ndb (pdu_shortstatehash event_id);
  shortstatehash ← lift (ok_or o (BadRequest NotFound "Pdu state not found."));
  ids ← ndb (state_full_ids shortstatehash);
  pdus ← foldM (λ acc id,
    r ← attempt (ndb (get_pdu_json id : M Db (option CanonicalJsonObject)));
    match r with Ok (Some json) => mret (acc ++ [convert_to_outgoing_federation_event json]) | _ => lift Panic end) [] (snd <$> map_iter ids);
  auth_chain_ids ← ndb (get_auth_chain room_id [event_id]);
  auth_chain ← readable_events auth_chain_ids;
  mret (auth_chain, pdus).

Definition get_room_state_ids_route (sender_servername room_id event_id : bytes) : M Node (list bytes * list bytes) :=
  check_in_room "Server is not in room." sender_servername room_id;;
  on_handler (acl_check sender_servername room_id);;
  o ← ndb (pdu_shortstatehash event_id);
  shortstatehash ← lift (ok_or o (BadRequest NotFound "Pdu state not found."));
  ids ← ndb (state_full_ids shortstatehash);
  auth_chain_ids ← ndb (get_auth_chain room_id [event_id]);
  mret (auth_chain_ids, snd <$> map_iter ids).

(** * Membership handshakes *)

(** Checks whether the given room exists, and whether the server is allowed to
    send events according to the ACL. *)
Definition room_and_acl_check (room_id sender_servername : bytes) : M Handler unit :=
  known ← hdb (room_exists room_id);
  if negb known then fail (BadRequest NotFound "Room is unknown to this server.") else
  acl_check sender_servername room_id.

Definition member_shake_preamble (sender_servername room_id : bytes) : M Handler bytes :=
  room_and_acl_check room_id sender_servername;;
  hdb (get_room_version room_id).

(** A template for the [make_*] endpoints. *)
Definition create_membership_template (now : Z) (user_id room_id : bytes) (authorized : option bytes) (membership : MembershipState) : M Db CanonicalJsonObject :=
  '(_, pdu_json) ← create_event now (member_builder user_id (mkMember membership None None None None None None authorized)) user_id (Some room_id);
  mret (remove_json_field (lit "event_id") pdu_json).

(** Whether the user can join the room via a restricted join, whatever their
    membership. *)
Definition user_can_perform_restricted_join (user_id room_id : bytes) (auth_rules : AuthRules) : M Db bool :=
  join_rules_event ← room_state_get room_id (lit "m.room.join_rules") [];
  content ← lift (map_transpose (λ e, ok_or (join_rule_of (pdu_content e)) (BadDatabase "Invalid join rules event in db.")) join_rules_event);
  match content with
  | Some ((JRestricted _ | JKnockRestricted _) as rule) =>
      if negb (restricted_join_rule auth_rules) then mret false else
      b ← joined_any user_id (allowed_room_ids rule);
      if (b : bool) then mret true else fail (BadRequest UnableToAuthorizeJoin "User is not known to be in any required room.")
  | _ => mret false
  end.

Definition create_knock_event_template_route (now : Z) (sender_servername room_id user_id : bytes) : M Handler (bytes * CanonicalJsonObject) :=
  room_version_id ← member_shake_preamble sender_servername room_id;
  event ← hdb (create_membership_template now user_id room_id None Knock);
  mret (room_version_id, event).

Definition create_leave_event_template_route (now : Z) (sender_servername room_id user_id : bytes) : M Handler (bytes * CanonicalJsonObject) :=
  room_version_id ← member_shake_preamble sender_servername room_id;
  event ← hdb (create_membership_template now user_id room_id None Leave);
  mret (room_version_id, event).

(** A user of this server who authorises a restricted join, if one is needed. *)
Definition join_authoriser (now : Z) (room_version_id room_id user_id : bytes) : M Db (option bytes) :=
  joined ← try_ok (is_joined user_id room_id);
  invited ← (if default false joined then mret true else o ← try_ok (is_invited user_id room_id); mret (default false o));
  restricted ← (if (invited : bool) then mret false else
    rules ← lift (rules_of room_version_id);
    user_can_perform_restricted_join user_id room_id rules);
  if (restricted : bool) then
    members ← gets (λ d, Ok (oks (room_members room_id d)));
    auth_user ← find_inviter server_name auth_types_for_event now room_id user_id members;
    match auth_user with
    | Some user => mret (Some user)
    | None => fail (BadRequest UnableToGrantJoin "No user on this server is able to assist in joining.")
    end
  else mret None.

Definition create_join_event_template_route (now : Z) (sender_servername room_id user_id : bytes) (ver : list bytes) : M Handler (bytes * CanonicalJsonObject) :=
  room_version_id ← member_shake_preamble sender_servername room_id;
  authorized ← hdb (join_authoriser now room_version_id room_id user_id);
  if negb (bool_decide (room_version_id ∈ ver)) then fail (BadRequest IncompatibleRoomVersion "Room version not supported.") else
  event ← hdb (create_membership_template now user_id room_id authorized Join);
  mret (room_version_id, event).

(** ** Member events of other servers *)

(** A field that is a user id. *)
Definition user_id_field (k : bytes) (kind : ErrorKind) (missing invalid : string) (value : CanonicalJsonObject) : res bytes :=
  match field k value with
  | None => Err (BadRequest kind missing)
  | Some (VString u) => if user_id_ok u then Ok u else Err (BadRequest kind invalid)
  | Some _ => Err (BadRequest kind invalid)
  end.

(** The checks on the event of a handshake: its sender and content. *)
Definition check_member_pdu (membership : MembershipState) (sender_servername : bytes) (value : CanonicalJsonObject) : res (bytes * MemberContent) :=
  state_key ← user_id_field (lit "state_key") BadJson "State key is missing" "State key is not a valid user ID" value;
  sender ← user_id_field (lit "sender") BadJson "Sender is missing" "Sender is not a valid user ID" value;
  if bool_decide (state_key ≠ sender) && bool_decide (membership ≠ Invite) then Err (BadRequest BadJson "Sender and state key don't match") else
  if bool_decide (server_name_of sender ≠ sender_servername) then Err (BadRequest Forbidden "User's server and origin don't match") else
  event_type ← match field (lit "type") value with
    | None => Err (BadRequest BadJson "Missing event type")
    | Some (VString t) => Ok t
    | Some _ => Err (BadRequest BadJson "Invalid event type")
    end;
  if bool_decide (event_type ≠ lit "m.room.member") then Err (BadRequest BadJson "Event type is not membership") else
  content ← match field (lit "content") value with
    | None => Err (BadRequest BadJson "Missing event content")
    | Some v => ok_or (member_content_of_value v) (BadRequest BadJson "Invalid event content")
    end;
  if bool_decide (mc_membership content ≠ membership) then Err (BadRequest BadJson "Membership of sent event does not match that of the endpoint") else
  Ok (sender, content).

(** The origin an event names. *)
Definition origin_field (value : CanonicalJsonObject) : res bytes :=
  match field (lit "origin") value with
  | None => Err (BadRequest InvalidParam "Event needs an origin field.")
  | Some (VString o) => if server_name_ok o then Ok o else Err (BadRequest InvalidParam "Origin field is invalid.")
  | Some _ => Err (BadRequest InvalidParam "Origin field is invalid.")
  end.

(** Takes the given membership PDU and attempts to append it to the timeline;
    an invite is only signed.  [version] is the version of the room, if it is
    not looked up. *)
Definition handle_member_pdu (rounds fuel : nat) (now : Z) (membership : MembershipState) (sender_servername room_id : bytes) (pdu : Raw)
    (version : option bytes) : M Handler (option CanonicalJsonObject) :=
  reset_keys;;
  room_version ← match version with Some v => mret v | None => hdb (get_room_version room_id) end;
  rules ← lift (rules_of room_version);
  '(event_id, value) ← lift (match gen_event_id_canonical_json room_version pdu with
    | Err _ => Err (BadRequest InvalidParam "Could not convert event to canonical json.")
    | r => r
    end);
  '(sender, content) ← lift (check_member_pdu membership sender_servername value);
  let ours := match mc_join_authorized_via_users_server content with Some user => bool_decide (server_name_of user = server_name) | None => false end in
  can ← (if bool_decide (membership = Join) && ours then o ← try_ok (hdb (user_can_perform_restricted_join sender room_id rules)); mret (default false o) else mret false);
  let sign_join_event := (can : bool) || bool_decide (membership = Invite) in
  value ← (if sign_join_event then
      redaction ← lift (expect (redaction_rules room_version));
      lift (match hash_and_sign_event value redaction with inr v => Ok v | inl _ => Err (BadRequest InvalidParam "Failed to sign event.") end)
    else mret value);
  (if bool_decide (membership = Invite) then mret tt else
    origin ← lift (origin_field value);
    o ← handle_incoming rounds fuel now origin event_id room_id value true;
    pdu_id ← lift (ok_or o (BadRequest InvalidParam "Could not accept incoming PDU as timeline event."));
    servers ← hdb (gets (λ d, Ok (bfilter (λ s, negb (bool_decide (s = server_name))) (oks (room_servers room_id d)))));
    hs (on_sender (send_pdu servers pdu_id)));;
  mret (if sign_join_event then Some value else None).

(** The state before the join, its auth chain and the signed event. *)
Definition create_join_event (rounds fuel : nat) (now : Z) (sender_servername room_id : bytes) (pdu : Raw)
    : M Node (list CanonicalJsonObject * list CanonicalJsonObject * option CanonicalJsonObject) :=
  on_handler (room_and_acl_check room_id sender_servername);;
  o ← ndb (get_room_shortstatehash room_id);
  shortstatehash ← lift (ok_or o (BadRequest NotFound "Pdu state not found."));
  pdu ← on_handler (handle_member_pdu rounds fuel now Join sender_servername room_id pdu None);
  state_ids ← ndb (state_full_ids shortstatehash);
  auth_chain_ids ← ndb (get_auth_chain room_id (snd <$> map_iter state_ids));
  auth_chain ← readable_events auth_chain_ids;
  state ← readable_events (snd <$> map_iter state_ids);
  mret (auth_chain, state, pdu).

Definition create_join_event_v1_route := create_join_event.

(** The second version adds that no members were omitted. *)
Definition create_join_event_v2_route (rounds fuel : nat) (now : Z) (sender_servername room_id : bytes) (pdu : Raw)
    : M Node (bool * list CanonicalJsonObject * list CanonicalJsonObject * option CanonicalJsonObject) :=
  '(auth_chain, state, event) ← create_join_event rounds fuel now sender_servername room_id pdu;
  mret (false, auth_chain, state, event).

Definition create_leave_event_route (rounds fuel : nat) (now : Z) (sender_servername room_id : bytes) (pdu : Raw) : M Node unit :=
  on_handler (room_and_acl_check room_id sender_servername);;
  on_handler (handle_member_pdu rounds fuel now Leave sender_servername room_id pdu None);;
  mret tt.

Definition create_knock_event_route (rounds fuel : nat) (now : Z) (sender_servername room_id : bytes) (pdu : Raw) : M Node (list CanonicalJsonObject) :=
  on_handler (room_and_acl_check room_id sender_servername);;
  on_handler (handle_member_pdu rounds fuel now Knock sender_servername room_id pdu None);;
  ndb (stripped_state_federation stripped_types room_id).

(** ** Invites *)

(** [EventId::localpart] and [RoomId::strip_sigil]. *)
Definition event_localpart (event_id : bytes) : bytes :=
  match split_colon (drop 1 event_id) with Some (localpart, _) => localpart | None => drop 1 event_id end.
Definition strip_sigil (room_id : bytes) : bytes := drop 1 room_id.

(** One event of the stripped state: its signatures, room and, for the create
    event, the room id it makes.  The result says whether it is a create event. *)
Definition check_stripped_event (room_id room_version : bytes) (rules : AuthRules) (raw_event : bytes * CanonicalJsonObject) : M Handler bool :=
  let '(event_id, pdu) := raw_event in
  filtered_keys ← hk (filter_required_signing_keys ignored_keys pdu (enforce_key_validity room_version));
  match verify_event filtered_keys pdu room_version with
  | Some VerifiedAll =>
      event_type ← lift (match field (lit "type") pdu with Some (VString t) => Ok t | _ => Err (BadRequest InvalidParam "Event with no type returned") end);
      let is_create := bool_decide (event_type = lit "m.room.create") in
      let by_create := room_create_event_id_as_room_id rules in
      (if is_create && by_create then mret tt else
        pdu_room_id ← lift (match field (lit "room_id") pdu with
          | None => Err (BadRequest InvalidParam "Event missing room ID")
          | Some (VString r) => if room_id_ok r then Ok r else Err (BadRequest InvalidParam "Event has invalid room ID")
          | Some _ => Err (BadRequest InvalidParam "Event has non-string room id")
          end);
        if bool_decide (pdu_room_id ≠ room_id) then fail (BadRequest InvalidParam "Stripped state room ID does not match the one of the request") else mret tt);;
      if is_create && bool_decide (event_localpart event_id ≠ strip_sigil room_id) && by_create
      then fail (BadRequest InvalidParam "Room ID generated from create event does not match that from the request")
      else mret is_create
  | _ => fail (BadRequest InvalidParam "Signature check on stripped state failed")
  end.

(** Performs checks on incoming stripped state; [enforce] is the feature that
    demands a create event. *)
Definition check_stripped_state (enforce : bool) (now : Z) (stripped_state : list RawStrippedState) (room_id room_version : bytes) : M Handler unit :=
  rules ← lift (rules_of room_version);
  if bool_decide (is_Some (room_server room_id)) && negb (room_create_event_id_as_room_id rules) then mret tt else
  if enforce && existsb (λ s, match s with Stripped _ => true | StrippedPdu _ => false end) stripped_state
  then fail (BadRequest InvalidParam "Non-pdu found in stripped state") else
  events ← lift (collect (gen_event_id_canonical_json room_version <$> omap (λ s, match s with StrippedPdu pdu => Some (raw_of pdu) | Stripped _ => None end) stripped_state));
  reset_keys;;
  for_each events (λ e, hk (fetch_required_signing_keys server_name own_version own_public_key now e.2));;
  seen ← foldM (λ seen e, b ← check_stripped_event room_id room_version rules e; mret (seen || b)) false events;
  if enforce && negb seen then fail (BadRequest InvalidParam "Stripped state contained no valid create PDUs") else mret tt.

(** The join that is tried in the background when the invited user had knocked;
    if it fails, the user is invited. *)
Record KnockJoin := mkKnockJoin { kj_user : bytes; kj_room : bytes; kj_sender : bytes; kj_state : list Value }.

Definition run_knock_join (rounds fuel : nat) (now : Z) (j : KnockJoin) : M Handler unit :=
  r ← try_ok (join_room_by_id rounds fuel now (kj_user j) (kj_room j) None (server_name_of <$> omap stripped_sender (kj_state j)));
  match r with
  | Some _ => mret tt
  | None =>
      knocked ← try_ok (hdb (is_knocked (kj_user j) (kj_room j)));
      if default false knocked then
        try_ok (hdb (update_membership (kj_room j) (kj_user j) Invite (kj_sender j) (Some (kj_state j)) true));; mret tt
      else mret tt
  end.

(** The signed invite, and the join to try. *)
Definition create_invite_route (enforce : bool) (rounds fuel : nat) (now : Z) (sender_servername room_id room_version : bytes) (event : Raw)
    (invite_room_state : list RawStrippedState) : M Handler (CanonicalJsonObject * option KnockJoin) :=
  acl_check sender_servername room_id;;
  if negb (bool_decide (room_version ∈ supported_room_versions)) then fail (BadRequest IncompatibleRoomVersion "Server does not support this room version.") else
  lift (rules_of room_version);;
  check_stripped_state enforce now invite_room_state room_id room_version;;
  o ← handle_member_pdu rounds fuel now Invite sender_servername room_id event (Some room_version);
  signed_event ← lift (expect o);
  hash ← lift (expect (reference_hash room_version signed_event));
  let event_id := lit "$" ++ hash in
  (if event_id_ok event_id then mret tt else lift Panic);;
  let signed_event := set_json_field (lit "event_id") (VString event_id) signed_event in
  sender ← lift (user_id_field (lit "sender") InvalidParam "Event had no sender field." "sender is not a user id." signed_event);
  invited_user ← lift (user_id_field (lit "state_key") InvalidParam "Event had no state_key field." "state_key is not a user id." signed_event);
  fields ← lift (ok_or (parse_event event) (BadRequest InvalidParam "Invalid invite event bytes."));
  pdu ← lift (ok_or (pdu_of_value (VObject (set_json_field (lit "event_id") (VString (lit "$dummy")) fields))) (BadRequest InvalidParam "Invalid invite event."));
  own ← lift (to_stripped_state_event pdu);
  invite_state ← lift (convert_stripped_state (invite_room_state ++ [Stripped own]));
  here ← hdb (server_in_room server_name room_id);
  task ← (if (here : bool) then mret None else
    knocked ← try_ok (hdb (is_knocked invited_user room_id));
    if default false knocked then mret (Some (mkKnockJoin invited_user room_id sender invite_state))
    else hdb (update_membership room_id invited_user Invite sender (Some invite_state) true);; mret None);
  mret (convert_to_outgoing_federation_event signed_event, task).

(** * Queries *)

Record UserDevice := mkUserDevice { ud_device_id : bytes; ud_keys : bytes; ud_display_name : option bytes }.

(** [UInt::MAX]. *)
Definition uint_max : Z := 9007199254740991.

Definition get_devices_route (sender_servername user_id : bytes) : M Db (Z * list UserDevice * option Value * option Value) :=
  if bool_decide (server_name_of user_id ≠ server_name) then fail (BadRequest InvalidParam "Tried to access user from other server.") else
  version ← get_devicelist_version user_id;
  let stream_id := default 0 version in
  (if stream_id <=? uint_max then mret tt else lift Panic);;
  metadata ← gets (λ d, Ok (oks (all_user_devices_metadata user_id d)));
  devices ← foldM (λ acc m,
    keys ← try_ok (get_device_keys raw_key_ok user_id (device_id m));
    mret (match keys with Some (Some keys) => acc ++ [mkUserDevice (device_id m) keys (display_name m)] | _ => acc end)) [] metadata;
  let allowed u := bool_decide (server_name_of u = sender_servername) in
  master_key ← get_master_key None user_id allowed;
  self_signing_key ← get_self_signing_key None user_id allowed;
  mret (stream_id, devices, master_key, self_signing_key).

Definition get_room_information_route (room_alias : bytes) : M Db (bytes * list bytes) :=
  o ← resolve_local_alias room_alias;
  room_id ← lift (ok_or o (BadRequest NotFound "Room alias not found."));
  mret (room_id, [server_name]).

Inductive ProfileField := PDisplayName | PAvatarUrl | PCustom.

(** The display name, the avatar and its blurhash. *)
Definition get_profile_information_route (user_id : bytes) (field : option ProfileField) : M Db (option bytes * option bytes * option bytes) :=
  if bool_decide (server_name_of user_id ≠ server_name) then fail (BadRequest InvalidParam "Tried to access user from other server.") else
  let name := displayname user_id in
  let avatar := a ← avatar_url user_id; b ← blurhash user_id; mret (a, b) in
  match field with
  | Some PDisplayName => d ← name; mret (d, None, None)
  | Some PAvatarUrl => '(a, b) ← avatar; mret (None, a, b)
  | Some PCustom => mret (None, None, None)
  | None => d ← name; '(a, b) ← avatar; mret (d, a, b)
  end.

Definition get_openid_userinfo_route (now : Z) (access_token : bytes) : M Db bytes :=
  o ← find_from_openid_token now access_token;
  lift (ok_or o (BadRequest Unauthorized "OpenID token has expired or does not exist.")).

(** The keys of this server, valid for a week; [now] in milliseconds. *)
Definition get_server_keys_route (now : Z) : CanonicalJsonObject :=
  sign_object [(lit "server_name", VString server_name);
               (lit "verify_keys", VObject [(lit "ed25519:" ++ own_version, VObject [(lit "key", VString (base64 own_public_key))])]);
               (lit "old_verify_keys", VObject []);
               (lit "signatures", VObject []);
               (lit "valid_until_ts", VNumber (now + 86400 * 7 * 1000))].

Definition get_server_keys_deprecated_route := get_server_keys_route.
End federation.
