(* ===== verification/FederationSafe.v ===== *)
(** * FederationSafe: what other servers can and cannot do

    Proofs about [FederationRoutes]: EDUs only speak for users of their server,
    a repeated to-device message is delivered once, what the server signs for
    others, and what the search for missing events returns. *)
From S2P Require Import Prelude Bytes JsonValue KvTree Pdu Database Short StateCompressor RoomState Accounts StateCache.
From S2P Require Import Timeline PduJson Devices UserKeys AuthChain Edus RoomTables Search Sending StateAccess MemberEvents Appservice TimelineService ServerKeys.
From S2P Require Import EventHandler EventHandlerInv EventFetch LocalEvents Membership MembershipInv Destinations FederationRoutes.

(** ** Runs on a node *)

Lemma for_each_ext {S A B} (l : list A) (g : A → B) (f : A → M S unit) (f' : B → M S unit) s :
  (∀ x s, x ∈ l → f x s = f' (g x) s) → for_each l f s = for_each (g <$> l) f' s.
Proof.
  revert s. induction l as [|x l IH]; intros s H; [done|]. cbn [for_each]. rewrite fmap_cons. cbn [for_each]. unfold mbind, M_bind.
  rewrite <- H by (by left). destruct (f x s) as [[[]| |] s']; [|done..]. apply IH. intros y s2 Hy. apply H. by right.
Qed.

(** Elements that do nothing can be left out. *)
Lemma for_each_bfilter {S A} (p : A → bool) (l : list A) (f : A → M S unit) s :
  (∀ x s, p x = false → f x s = (Ok tt, s)) → for_each l f s = for_each (bfilter p l) f s.
Proof.
  intros H. revert s. induction l as [|x l IH]; intros s; [done|]. cbn [for_each bfilter]. destruct (p x) eqn:E; cbn [for_each].
  - unfold mbind, M_bind. destruct (f x s) as [[[]| |] s']; [apply IH|done..].
  - rewrite (bind_ok _ _ s tt s) by (by apply H). apply IH.
Qed.

Lemma for_each_ext' {S A} (l : list A) (f f' : A → M S unit) s : (∀ x s, f x s = f' x s) → for_each l f s = for_each l f' s.
Proof.
  intros H. revert s. induction l as [|x l IH]; intros s; [done|]. cbn [for_each]. unfold mbind, M_bind. rewrite <- H.
  destruct (f x s) as [[[]| |] s']; [apply IH|done..].
Qed.

Lemma node_db_ndb {A} (m : M Db A) n : node_db (ndb m n).2 = (m (node_db n)).2.
Proof.
  unfold ndb, on_handler, node_db, hdb, hs. pose proof (sv_db_db m (h_server (n_handler n))) as E. destruct (db_ m _) as [r s]. by cbn in *.
Qed.

Lemma ndb_result {A} (m : M Db A) n : (ndb m n).1 = (m (node_db n)).1.
Proof.
  unfold ndb, on_handler, node_db, hdb, hs. pose proof (db_result m (h_server (n_handler n))) as E. destruct (db_ m _) as [r s]. by cbn in *.
Qed.

Lemma ndb_pure {A} (m : M Db A) n : (m (node_db n)).2 = node_db n → ndb m n = ((m (node_db n)).1, n).
Proof.
  intros H. unfold ndb, on_handler, hdb, hs, db_, on_sender, with_db, sv_db, node_db, sv_db in *. destruct n as [[[[] ? ?] ? ? ? ?] ? ? ? ? ?].
  cbn in *. destruct (m _) as [r d]. cbn in *. by subst.
Qed.

Section edus.
Context {RU : Ruma} {LR : LruCache} {HO : HashOrder} {RV : RoomVersions} {EC : EventChecks} {FA : FederationApi}.
Context {JP : Json PduEvent} {JE : Json ReceiptEvent}.

(** * EDUs *)

(** The part of an EDU that is about users of a server. *)
Definition own_part (server : bytes) (edu : Edu Raw) : Edu Raw :=
  let own user := bool_decide (server_name_of user = server) in
  match edu with
  | EReceipt receipts => EReceipt ((λ '(room_id, read), (room_id, bfilter (λ e : bytes * (list bytes * bytes), own e.1) read)) <$> receipts)
  | ETyping user_id _ _ | EDeviceListUpdate user_id | ESigningKeyUpdate user_id _ _ => if own user_id then edu else EPresence
  | EDirectToDevice sender _ _ _ => if own sender then edu else EPresence
  | EPresence | ECustom => edu
  end.

Lemma handle_own_part now server edu n : handle_edu now server edu n = handle_edu now server (own_part server edu) n.
Proof.
  destruct edu as [|receipts|u r t|u|sender ty id ms|u mk sk|]; cbn [own_part handle_edu]; try done.
  - apply for_each_ext. intros [room read] n1 _. rewrite (for_each_bfilter (λ e : bytes * (list bytes * bytes), bool_decide (server_name_of e.1 = server))); [done|].
    intros [u [ids data]] n2 Hu. cbn [fst] in Hu. by rewrite Hu.
  - case_bool_decide as E; cbn [handle_edu]; [by rewrite bool_decide_eq_true_2|done].
  - case_bool_decide as E; cbn [handle_edu]; [by rewrite bool_decide_eq_true_2|done].
  - case_bool_decide as E; cbn [handle_edu]; [by rewrite bool_decide_eq_true_2|done].
  - case_bool_decide as E; cbn [handle_edu]; [by rewrite bool_decide_eq_true_2|by destruct mk].
Qed.

(** C11: the EDUs of a transaction have the effect of their parts about users of
    the sending server: receipts, typing notifications, device lists, to-device
    messages and keys of other users are dropped. *)
Theorem edus_speak_for_own_users now server (edus : list (Edu Raw)) n :
  for_each edus (handle_edu now server) n = for_each (own_part server <$> edus) (handle_edu now server) n.
Proof. apply for_each_ext. intros edu n1 _. apply handle_own_part. Qed.

(** The message id is on record. *)
Definition Handled (sender id : bytes) (n : Node) : Prop := is_Some (kv (node_db n) userdevicetxnid_response !! txn_key sender None id).

(** A to-device message that was handled is not delivered again when its
    transaction is repeated, whatever the repetition says. *)
Theorem to_device_delivered_once now server sender ty id messages now2 server2 ty2 messages2 n n' :
  server_name_of sender = server → handle_edu now server (EDirectToDevice sender ty id messages) n = (Ok tt, n') →
  Handled sender id n' ∧ handle_edu now2 server2 (EDirectToDevice sender ty2 id messages2) n' = (Ok tt, n').
Proof.
  intros Hs H. cbn [handle_edu] in *. assert (Handled sender id n') as Hh; [|split; [done|]; destruct Hh as [data Hd]].
  { rewrite bool_decide_eq_true_2 in H by done. apply bind_inv in H as (fresh & n1 & H1 & H). destruct fresh.
    - apply bind_inv in H as ([] & n2 & _ & H). exists []. pose proof (node_db_ndb (add_txnid sender None id []) n2) as E. rewrite H in E.
      cbn [snd] in E. rewrite E. unfold add_txnid, insert. run. cbn [snd]. rewrite kv_upd_eq. unfold kv_insert. by rewrite lookup_insert_eq.
    - injection H as <-. apply bind_inv in H1 as (o & n2 & H1 & H2). injection H2 as Ho <-. apply bool_decide_eq_false in Ho.
      pose proof (ndb_pure (existing_txnid sender None id) n eq_refl) as Ep. rewrite Ep in H1. injection H1 as H1 ->.
      destruct o as [data|]; [|done]. exists data. exact H1. }
  rewrite (bind_ok _ _ n' false n'); [done|]. destruct (bool_decide (server_name_of sender = server2)); [|done].
  rewrite (bind_ok _ _ n' (Some data) n'); [done|]. rewrite (ndb_pure (existing_txnid sender None id) n' eq_refl).
  apply injective_projections; [|done]. cbn [fst]. unfold existing_txnid, get, kv_get. run. by rewrite Hd.
Qed.
End edus.

(** * What the server signs *)

Section signing.
Context {RU : Ruma} {LR : LruCache} {HO : HashOrder} {MO : MapOrder} {CT : Contents} {RV : RoomVersions} {EB : EventBodies} {EC : EventChecks}.
Context {SG : Signing} {FE : Federation} {KJ : KeyJson} {KS : KeyServers} {TW : TimelineWriter} {FA : FederationApi}.
Context {JP : Json PduEvent} {JV : Json Value} {JM : Json Tree} {JF : Json CanonicalJsonObject} {JR : Json RedactionContent}.
Context (sha256 : bytes → bytes) (server_name own_version own_public_key : bytes).
Context (auth_types_for_event : bytes → bytes → option bytes → bytes → AuthRules → option (list (bytes * bytes))).
Notation handle := (handle_member_pdu sha256 server_name own_version own_public_key auth_types_for_event).

(** A member event of a user of the asking server, about themselves unless it
    is an invite, with the membership of the endpoint. *)
Definition OwnMemberEvent (membership : MembershipState) (server : bytes) (value : CanonicalJsonObject) (content : MemberContent) : Prop := ∃ sender state_key v,
  field (lit "sender") value = Some (VString sender) ∧ field (lit "state_key") value = Some (VString state_key) ∧
  (membership = Invite ∨ state_key = sender) ∧ user_id_ok sender = true ∧ user_id_ok state_key = true ∧ server_name_of sender = server ∧
  field (lit "type") value = Some (VString (lit "m.room.member")) ∧
  field (lit "content") value = Some v ∧ member_content_of_value v = Some content ∧ mc_membership content = membership.

Lemma user_id_field_ok k kind m1 m2 value u : user_id_field k kind m1 m2 value = Ok u → field k value = Some (VString u) ∧ user_id_ok u = true.
Proof. unfold user_id_field. destruct (field k value) as [[]|]; try done. destruct (user_id_ok s) eqn:E; [|done]. by intros [= <-]. Qed.

Lemma check_member_ok membership server value sender content : check_member_pdu membership server value = Ok (sender, content) →
  OwnMemberEvent membership server value content ∧ field (lit "sender") value = Some (VString sender).
Proof.
  unfold check_member_pdu. destruct (user_id_field (lit "state_key") _ _ _ value) as [sk| |] eqn:E1; [|done..]. cbn [mbind res_bind].
  destruct (user_id_field (lit "sender") _ _ _ value) as [sd| |] eqn:E2; [|done..]. cbn [mbind res_bind].
  apply user_id_field_ok in E1 as [E1 V1]. apply user_id_field_ok in E2 as [E2 V2].
  destruct (bool_decide (sk ≠ sd) && bool_decide (membership ≠ Invite)) eqn:E3; [done|].
  destruct (bool_decide (server_name_of sd ≠ server)) eqn:E4; [done|]. apply bool_decide_eq_false, dec_stable in E4.
  destruct (field (lit "type") value) as [[]|] eqn:E5; try done. cbn [mbind res_bind].
  destruct (bool_decide (s ≠ lit "m.room.member")) eqn:E6; [done|]. apply bool_decide_eq_false, dec_stable in E6.
  destruct (field (lit "content") value) as [v|] eqn:E7; [|done]. unfold ok_or. destruct (member_content_of_value v) as [c|] eqn:E8; [|done]. cbn [mbind res_bind].
  destruct (bool_decide (mc_membership c ≠ membership)) eqn:E9; [done|]. apply bool_decide_eq_false, dec_stable in E9. intros [= <- <-]. split; [|done].
  exists sd, sk, v. apply andb_false_iff in E3. rewrite !bool_decide_eq_false in E3.
  split_and!; try done; [|by subst].
  destruct E3 as [E3|E3]; apply dec_stable in E3; [by right|by left].
Qed.

(** A join rule that lets the members of other rooms in. *)
Definition restricting (rule : JoinRule) : Prop := match rule with JRestricted _ | JKnockRestricted _ => True | _ => False end.

(** Why a join event is signed: the user is joined in a room that the join rule
    of the room, as read from [d], lets in. *)
Definition MayAuthorise (d : Db) (room_version room_id : bytes) (value : CanonicalJsonObject) (content : MemberContent) : Prop := ∃ user sender rules ev rule allowed,
  mc_join_authorized_via_users_server content = Some user ∧ server_name_of user = server_name ∧ field (lit "sender") value = Some (VString sender) ∧
  rules_of room_version = Ok rules ∧ restricted_join_rule rules = true ∧
  (room_state_get room_id (lit "m.room.join_rules") [] d).1 = Ok (Some ev) ∧ join_rule_of (pdu_content ev) = Some rule ∧ restricting rule ∧
  allowed ∈ allowed_room_ids rule ∧ is_Some (kv d userroomid_joined !! (sender ++ ff :: allowed)).

Lemma joined_any_ok user rooms d d' : joined_any user rooms d = (Ok true, d') → ∃ room, room ∈ rooms ∧ is_Some (kv d userroomid_joined !! (user ++ ff :: room)).
Proof.
  revert d. induction rooms as [|room rooms IH]; intros d; cbn [joined_any]; [done|]. unfold try_ok, is_joined, has_userroom, get, kv_get. run. cbn [default id].
  case_bool_decide as Hj.
  - intros _. exists room. split; [by left|exact Hj].
  - intros (r & Hr & H)%IH. exists r. split; [by right|exact H].
Qed.

Lemma restricted_join_ok user room rules d d' : user_can_perform_restricted_join user room rules d = (Ok true, d') → ∃ ev rule allowed,
  restricted_join_rule rules = true ∧ (room_state_get room (lit "m.room.join_rules") [] d).1 = Ok (Some ev) ∧
  join_rule_of (pdu_content ev) = Some rule ∧ restricting rule ∧ allowed ∈ allowed_room_ids rule ∧ is_Some (kv d userroomid_joined !! (user ++ ff :: allowed)).
Proof.
  unfold user_can_perform_restricted_join. intros (o & d1 & H1 & H)%bind_inv. rewrite H1. apply bind_inv in H as (content & d2 & H2 & H). injection H2 as H2 <-.
  assert (kv d1 = kv d) as Hkv by (pose proof (keeps_room_state_get room (lit "m.room.join_rules") [] d) as E; rewrite H1 in E; exact E).
  destruct content as [rule|]; [|done]. destruct o as [ev|]; [|done]. cbn in H2. destruct (join_rule_of (pdu_content ev)) as [rule'|] eqn:Er; [|done]. injection H2 as ->.
  assert (restricting rule ∧ (if negb (restricted_join_rule rules) then mret false else
    b ← joined_any user (allowed_room_ids rule);
    if (b : bool) then mret true else fail (BadRequest UnableToAuthorizeJoin "User is not known to be in any required room.")) d1 = (Ok true, d')) as [Hr H']
    by (by destruct rule). clear H.
  destruct (restricted_join_rule rules); [|done]. cbn [negb] in H'. apply bind_inv in H' as (b & d3 & H3 & H'). destruct b; [|done].
  apply joined_any_ok in H3 as (allowed & Ha & Hj). rewrite Hkv in Hj. by exists ev, rule, allowed.
Qed.

(** The version of the room: the one given, or the one of the create event. *)
Definition VersionUsed (version : option bytes) (room_id : bytes) (d : Db) (room_version : bytes) (d' : Db) : Prop :=
  match version with
  | Some v => room_version = v ∧ d' = d
  | None => get_room_version room_id d = (Ok room_version, d')
  end.

Lemma hdb_db {A : Type} (m : M Db A) h a h' : hdb m h = (Ok a, h') → m (sv_db (h_server h)) = (Ok a, sv_db (h_server h')).
Proof.
  unfold hdb, hs. pose proof (sv_db_db m (h_server h)) as H2. pose proof (db_result m (h_server h)) as H1. destruct (db_ m (h_server h)) as [r s].
  intros [= -> <-]. cbn in *. rewrite H1, H2. by destruct (m _).
Qed.

(** C10: the server lends its signature to the event of a handshake only if it
    is a member event of a user of the asking server, and either an invite or a
    join that names a user of this server as its authoriser, of a user who is
    joined in one of the rooms that the join rule of the room lets in; version,
    join rule and membership are those of the server's database when the
    request comes. *)
Theorem signs_only_authorised_events rounds fuel now membership server room_id pdu version h signed h' :
  handle rounds fuel now membership server room_id pdu version h = (Ok (Some signed), h') → ∃ room_version d event_id value content redaction,
    VersionUsed version room_id (sv_db (h_server h)) room_version d ∧
    gen_event_id_canonical_json room_version pdu = Ok (event_id, value) ∧ OwnMemberEvent membership server value content ∧
    redaction_rules room_version = Some redaction ∧ hash_and_sign_event value redaction = inr signed ∧
    (membership = Invite ∨ membership = Join ∧ MayAuthorise d room_version room_id value content).
Proof.
  unfold handle_member_pdu. intros ([] & h1 & H1 & H)%bind_inv. apply bind_inv in H as (room_version & h2 & H2 & H).
  assert (VersionUsed version room_id (sv_db (h_server h)) room_version (sv_db (h_server h2))) as HV.
  { assert (sv_db (h_server h1) = sv_db (h_server h)) as E by (injection H1 as <-; by destruct h as [[[]]]).
    unfold VersionUsed. rewrite <- E. destruct version as [v|]; [by injection H2 as -> ->|by apply hdb_db]. }
  apply bind_inv in H as (rules & h3 & H3 & H). injection H3 as H3 <-. apply bind_inv in H as ([event_id value] & h4 & H4 & H). injection H4 as H4 <-.
  apply bind_inv in H as ([sender content] & h5 & H5 & H). injection H5 as H5 <-. cbv zeta in H. apply check_member_ok in H5 as [H5 Hsender].
  apply bind_inv in H as (can & h6 & H6 & H). apply bind_inv in H as (value' & h7 & H7 & H). apply bind_inv in H as ([] & h8 & _ & H).
  destruct (can || bool_decide (membership = Invite)) eqn:Esign; [|done]. injection H as -> _.
  apply bind_inv in H7 as (redaction & h9 & H9 & H7). injection H9 as H9 <-. injection H7 as H7 _.
  exists room_version, (sv_db (h_server h2)), event_id, value, content, redaction.
  split_and!; [done|by destruct (gen_event_id_canonical_json room_version pdu)|done|by destruct (redaction_rules room_version); [injection H9 as ->|]|by destruct (hash_and_sign_event value redaction); [|injection H7 as ->]|].
  apply orb_true_iff in Esign as [->|Hinv%bool_decide_eq_true]; [right|by left].
  destruct (bool_decide (membership = Join)) eqn:Ej; [|done]. apply bool_decide_eq_true in Ej as ->. split; [done|]. cbn [andb] in H6.
  destruct (mc_join_authorized_via_users_server content) as [user|] eqn:Eu; [|done]. destruct (bool_decide (server_name_of user = server_name)) eqn:Es; [|done].
  apply bool_decide_eq_true in Es. apply bind_inv in H6 as (o & h10 & H10 & H6). injection H6 as Ho _. destruct o as [b|]; [|done]. cbn in Ho. subst b.
  unfold try_ok in H10. destruct (hdb _ _) as [[b| |] h11] eqn:Eh; [|done..]. injection H10 as -> _. apply hdb_db, restricted_join_ok in Eh as (ev & rule & allowed & ? & ? & ? & ? & ? & ?).
  exists user, sender, rules, ev, rule, allowed. by split_and!.
Qed.
End signing.

(** * Missing events *)

Section missing.
Context {RU : Ruma} {LR : LruCache} {HO : HashOrder} {CT : Contents} {RV : RoomVersions} {EC : EventChecks} {FA : FederationApi}.
Context {JP : Json PduEvent} {JM : Json Tree} {JF : Json CanonicalJsonObject}.
Context (server room : bytes) (earliest : list bytes) (limit : Z).

(** An event of the room that the server may see and did not know. *)
Definition Served (json : CanonicalJsonObject) : Prop := ∃ id pdu d n n',
  id ∉ earliest ∧ (get_pdu_json id d : res (option CanonicalJsonObject) * Db).1 = Ok (Some pdu) ∧ stored_room_id pdu = Ok room ∧
  on_access (server_can_see_event server room id) n = (Ok true, n') ∧ json = convert_to_outgoing_federation_event pdu.

Lemma missing_served fuel queued events n found n' :
  missing_events fuel server room earliest limit queued events n = (Ok found, n') → Forall Served events → (length events ≤ Z.to_nat limit)%nat →
  Forall Served found ∧ (length found ≤ Z.to_nat limit)%nat.
Proof.
  revert queued events n. induction fuel as [|fuel IH]; intros queued events n; destruct queued as [|id queued]; cbn [missing_events].
  1, 3: by intros [= <- <-].
  - case_match; [by intros [= <- <-]|done].
  - destruct (Z.leb_spec limit (Z.of_nat (length events))) as [|Hlt]; [by intros [= <- <-]|]. cbv zeta. intros (o & n1 & H1 & H)%bind_inv HS Hl.
    destruct o as [pdu|]; [|by eapply IH]. apply bind_inv in H as (r & n2 & H2 & H). injection H2 as H2 <-.
    destruct (bool_decide (r ≠ room)) eqn:Er; [done|]. apply bool_decide_eq_false, dec_stable in Er as ->.
    destruct (bool_decide (id ∈ earliest)) eqn:Ee; [by eapply IH|]. apply bool_decide_eq_false in Ee.
    apply bind_inv in H as (b & n3 & H3 & H). destruct b; cbn [negb] in H; [|by eapply IH].
    apply bind_inv in H as (prev & n4 & H4 & H). injection H4 as _ <-. apply bind_inv in H as (ids & n5 & H5 & H). injection H5 as _ <-.
    eapply IH; [exact H| |rewrite length_app; cbn; lia]. apply Forall_app. split; [done|]. apply Forall_singleton. exists id, pdu, (node_db n), n1, n3.
    split_and!; try done. by rewrite <- (ndb_result _ n), H1.
Qed.

(** The answer to a request for missing events has at most as many events
    as asked for, each of them of the room, not among those the server has, and
    one the history visibility lets the server see; a server that is not in the
    room gets none. *)
Theorem missing_events_visible fuel latest n :
  match (get_missing_events_route fuel server room latest earliest limit n).1 with
  | Ok found => Forall Served found ∧ (length found ≤ Z.to_nat limit)%nat ∧ (server_in_room server room (node_db n)).1 = Ok true
  | _ => True
  end.
Proof.
  destruct (get_missing_events_route fuel server room latest earliest limit n) as [[found| |] n'] eqn:E; [|done..]. cbn [fst].
  unfold get_missing_events_route in E. apply bind_inv in E as ([] & n1 & H1 & E). apply bind_inv in E as ([] & n2 & H2 & E).
  apply missing_served in E as [HS Hl]; [|done|cbn; lia]. split_and!; [done|done|]. unfold check_in_room in H1. apply bind_inv in H1 as (b & n3 & H1 & H3).
  destruct b; [|done]. by rewrite <- ndb_result, H1.
Qed.

Context (k : nat).

Lemma missing_fuel (ids_bound : ∀ v ids, event_ids_of v = Some ids → (length ids ≤ k)%nat) fuel fuel' queued events n :
  (length queued + (Z.to_nat limit - length events) * k ≤ fuel)%nat → (fuel ≤ fuel')%nat →
  missing_events fuel' server room earliest limit queued events n = missing_events fuel server room earliest limit queued events n.
Proof.
  revert fuel' queued events n. induction fuel as [|fuel IH]; intros fuel' queued events n Hf Hle; destruct queued as [|id queued].
  1, 3: by destruct fuel'.
  - cbn [length] in Hf. exfalso. set (x := ((_ - _) * k)%nat) in Hf. lia.
  - destruct fuel' as [|fuel']; [lia|]. cbn [missing_events]. destruct (Z.leb_spec limit (Z.of_nat (length events))) as [|Hlt]; [done|]. cbn [length] in Hf.
    set (x := ((Z.to_nat limit - length events) * k)%nat) in Hf.
    assert (∀ queued' events' n', (length queued' + (Z.to_nat limit - length events') * k ≤ fuel)%nat →
      missing_events fuel' server room earliest limit queued' events' n' = missing_events fuel server room earliest limit queued' events' n') as IH'
      by (intros; apply IH; lia).
    unfold mbind at 1 6, M_bind. destruct (ndb _ n) as [[[pdu|]| |] n1]; [|apply IH'; lia|done|done].
    unfold mbind at 1 5, M_bind. destruct (lift (stored_room_id pdu) n1) as [[r| |] n2]; [|done..]. case_match; [done|]. case_match; [apply IH'; lia|].
    unfold mbind at 1 4, M_bind. destruct (on_access _ n2) as [[b| |] n3]; [|done..]. destruct b; cbn [negb]; [|apply IH'; lia].
    unfold mbind at 1 3, M_bind. destruct (lift _ n3) as [[prev| |] n4]; [|done..]. unfold mbind at 1 2, M_bind. unfold lift, ok_or.
    destruct (event_ids_of prev) as [ids|] eqn:Ei; [|done]. apply ids_bound in Ei. apply IH'. rewrite !length_app. cbn [length].
    assert (x = k + (Z.to_nat limit - (length events + 1)) * k)%nat by (unfold x; nia). lia.
Qed.

(** Steps that are enough for a request. *)
Definition enough_steps (latest : list bytes) : nat := length latest + Z.to_nat limit * k.

(** The search for missing events ends: each event found adds at most [k]
    events to the queue, and at most as many are found as asked for, so after
    that many steps no further step changes the answer. *)
Theorem missing_events_end (ids_bound : ∀ v ids, event_ids_of v = Some ids → (length ids ≤ k)%nat) latest fuel n :
  (enough_steps latest ≤ fuel)%nat →
  get_missing_events_route fuel server room latest earliest limit n =
  get_missing_events_route (enough_steps latest) server room latest earliest limit n.
Proof.
  unfold enough_steps. intros Hf. unfold get_missing_events_route. unfold mbind, M_bind. destruct (check_in_room _ server room n) as [[[]| |] n1]; [|done..].
  destruct (on_handler _ n1) as [[[]| |] n2]; [|done..]. apply missing_fuel; [done| |done]. cbn [length]. lia.
Qed.
End missing.

(** * States of other rooms *)

Section leak.
Context {RU : Ruma} {LR : LruCache} {HO : HashOrder} {MO : MapOrder} {CT : Contents} {RV : RoomVersions} {EC : EventChecks}.
Context {JP : Json PduEvent} {JM : Json Tree} {JF : Json CanonicalJsonObject}.

Lemma server_in_room_run server room d : server_in_room server room d = ((server_in_room server room d).1, d).
Proof. done. Qed.

Lemma get_pdu_json_run id d : (get_pdu_json id d : res (option CanonicalJsonObject) * Db) = ((get_pdu_json id d).1, d).
Proof.
  apply reads_run. unfold get_pdu_json, get_non_outlier_pdu_json, get_non_outlier, get_outlier. keeps.
Qed.

Lemma in_room_run msg server room n b : (server_in_room server room (node_db n)).1 = Ok b →
  check_in_room msg server room n = if b then (Ok tt, n) else (Err (BadRequest Forbidden msg), n).
Proof.
  intros H. unfold check_in_room. rewrite (bind_ok _ _ n b n); [by destruct b|]. by rewrite ndb_pure, H.
Qed.

(** What the membership of the room says of the server. *)
Definition resident (server room : bytes) (n : Node) (b : bool) : Prop := (server_in_room server room (node_db n)).1 = Ok b.

(** A server that is in one room is given the state before any event of any
    other room, though the event itself is refused to it: the endpoint checks
    the room that is named, never the room of the event. *)
Theorem state_of_any_room_served server named_room room event n json hash ids chain n1 n2 n3 :
  (get_pdu_json event (node_db n)).1 = Ok (Some json) → stored_room_id json = Ok room →
  resident server room n false → resident server named_room n true →
  on_handler (acl_check server named_room) n = (Ok tt, n1) → (pdu_shortstatehash event (node_db n1)).1 = Ok (Some hash) →
  ndb (state_full_ids hash) n1 = (Ok ids, n2) → ndb (get_auth_chain named_room [event]) n2 = (Ok chain, n3) →
  get_event_route server event n = (Err (BadRequest Forbidden "Server is not in room"), n) ∧
  get_room_state_ids_route server named_room event n = (Ok (chain, snd <$> map_iter ids), n3).
Proof.
  intros Hj Hr Hout Hin Hacl Hh Hids Hchain. split.
  - unfold get_event_route. rewrite (bind_ok _ _ n (Some json) n) by (rewrite ndb_pure; [by rewrite Hj|by rewrite get_pdu_json_run]).
    rewrite (bind_ok _ _ n json n) by done. rewrite (bind_ok _ _ n room n) by (unfold lift; by rewrite Hr).
    apply bind_err. by rewrite (in_room_run _ _ _ _ _ Hout).
  - unfold get_room_state_ids_route. rewrite (bind_ok _ _ n tt n) by (by rewrite (in_room_run _ _ _ _ _ Hin)). rewrite (bind_ok _ _ _ _ _ Hacl).
    rewrite (bind_ok _ _ n1 (Some hash) n1) by (rewrite ndb_pure; [by rewrite Hh|by rewrite pdu_shortstatehash_run]). rewrite (bind_ok _ _ n1 hash n1) by done.
    by rewrite (bind_ok _ _ _ _ _ Hids), (bind_ok _ _ _ _ _ Hchain).
Qed.
End leak.

(** * Samples *)

#[local] Existing Instance sample_ruma.
#[local] Existing Instance lru_unbounded.
#[local] Existing Instance elements_order.
#[local] Existing Instance sample_map_order.
#[local] Existing Instance sample_versions.
#[local] Existing Instance sample_contents.
#[local] Existing Instance sample_bodies.
#[local] Existing Instance sample_checks.
#[local] Existing Instance sample_key_json.
#[local] Existing Instance sample_key_servers.
#[local] Existing Instance sample_writer.
#[local] Existing Instance finite_origin.
#[local] Existing Instance sample_signing.
#[local] Existing Instance fetch_pdu_json.
#[local] Existing Instance fetch_tree_json.
#[local] Existing Instance fetch_object_json.
#[local] Existing Instance fetch_redaction_json.
#[local] Existing Instance local_value_json.
#[local] Instance receipt_json : Json ReceiptEvent := json_countable ReceiptEvent.

#[local] Instance sample_api : FederationApi := {|
  restricted_join_rule _ := true;
  member_content_of_value _ := Some (new_member Invite);
  edu_of _ := None;
  ToDeviceContent := bytes;
  to_device_content _ := Some (lit "{}");
  to_device_json ty sender content := content;
  event_ids_of v := match v with VArray [VString a; VString b] => Some [a; b] | VArray [] => Some [] | _ => None end;
  cross_signing_key_ids _ := None;
  raw_key_ok _ := true;
  base64 b := b;
  raw_of _ := [];
  sign_object o := o;
|}.

Definition sample_node (d : Db) : Node := mkNode (mkHandler (mkServer (mkSender d ∅ [] [] true) ∅ []) ∅ ∅ ∅ ∅) ∅ ∅ ∅ ∅ [].

Lemma to_device_delivered_once_witness : ∃ n',
  let edu ms : Edu (@Raw sample_versions sample_checks) := EDirectToDevice (lit "@x:c") (lit "m.test") (lit "1") ms in
  let ms := [(lit "@a:b", [(Some (lit "D"), [])])] in
  handle_edu 5 (lit "c") (edu ms) (sample_node empty_db) = (Ok tt, n') ∧
  kv_scan_prefix (kv (node_db n') todeviceid_events) (lit "@a:b") ≠ [] ∧
  handle_edu 6 (lit "c") (edu (ms ++ ms)) n' = (Ok tt, n').
Proof.
  cbv zeta. set (ms := [(lit "@a:b", [(Some (lit "D"), [])])] : list (bytes * list (option bytes * @Raw sample_versions sample_checks))).
  set (run := handle_edu 5 (lit "c") (EDirectToDevice (lit "@x:c") (lit "m.test") (lit "1") ms) (sample_node empty_db)).
  assert (run = (Ok tt, run.2)) as E by (apply injective_projections; [vm_compute; reflexivity|reflexivity]).
  exists run.2. split; [exact E|]. split; [vm_compute; discriminate|].
  exact (proj2 (to_device_delivered_once 5 (lit "c") (lit "@x:c") (lit "m.test") (lit "1") ms 6 (lit "c") (lit "m.test") (ms ++ ms) _ _ eq_refl E)).
Defined.

(** An invite of [@a:b] by [@x:c]. *)
Definition sample_invite : CanonicalJsonObject :=
  [(lit "type", VString (lit "m.room.member")); (lit "sender", VString (lit "@x:c")); (lit "state_key", VString (lit "@a:b")); (lit "content", VNull)].

(** An event of the room [!b], with a state of one event; the server [c] is in
    the room [!a] only. *)
Definition two_rooms : Db := ((
  (compressed ← compress_state_event 1 (lit "$s"); set_event_state (λ b, b) (lit "$e") (lit "!b") {[compressed]});;
  add_pdu_outlier (lit "$e") [(lit "room_id", VString (lit "!b")); (lit "prev_events", VArray [])];;
  insert serverroomids (lit "c" ++ ff :: lit "!a") []) empty_db).2.

Lemma state_of_any_room_served_witness : ∃ chain n',
  get_event_route (lit "c") (lit "$e") (sample_node two_rooms) = (Err (BadRequest Forbidden "Server is not in room"), sample_node two_rooms) ∧
  get_room_state_ids_route (lit "c") (lit "!a") (lit "$e") (sample_node two_rooms) = (Ok (chain, [lit "$s"]), n').
Proof.
  set (n1 := (on_handler (acl_check (lit "c") (lit "!a")) (sample_node two_rooms)).2).
  set (n2 := (ndb (state_full_ids 3) n1).2). set (n3 := (ndb (get_auth_chain (lit "!a") [lit "$e"]) n2).2).
  exists [], n3. change [lit "$s"] with (snd <$> [(1, lit "$s")]).
  assert (map_iter ({[1 := lit "$s"]} : gmap Z bytes) = [(1, lit "$s")]) as Em by (vm_compute; reflexivity). rewrite <- Em.
  assert (∀ {A} (r : res A * Node) a, r.1 = Ok a → r = (Ok a, r.2)) as Hpair by (intros A [r n] a; cbn; intros ->; reflexivity).
  apply (state_of_any_room_served (lit "c") (lit "!a") (lit "!b") (lit "$e") (sample_node two_rooms)
    [(lit "room_id", VString (lit "!b")); (lit "prev_events", VArray [])] 3 {[1 := lit "$s"]} [] n1 n2 n3).
  - vm_compute. reflexivity.
  - vm_compute. reflexivity.
  - vm_compute. reflexivity.
  - vm_compute. reflexivity.
  - apply Hpair. vm_compute. reflexivity.
  - vm_compute. reflexivity.
  - apply Hpair. vm_compute. reflexivity.
  - apply Hpair. vm_compute. reflexivity.
Defined.

Lemma missing_events_end_witness : ∃ found n', (∀ fuel, (1 + 2 * 2 ≤ fuel)%nat →
    get_missing_events_route fuel (lit "c") (lit "!b") [lit "$e"] [] 2 (sample_node (upd serverroomids (λ t, kv_insert t (lit "c" ++ ff :: lit "!b") []) two_rooms)) = (Ok found, n')) ∧
  length found = 1%nat.
Proof.
  set (n := sample_node (upd serverroomids (λ t, kv_insert t (lit "c" ++ ff :: lit "!b") []) two_rooms)).
  set (run := get_missing_events_route (enough_steps 2 2 [lit "$e"]) (lit "c") (lit "!b") [lit "$e"] [] 2 n).
  assert (∀ {A} (r : res A * Node) a, r.1 = Ok a → r = (Ok a, r.2)) as Hpair by (intros A [r n0] a; cbn; intros ->; reflexivity).
  assert (run = (Ok [[(lit "room_id", VString (lit "!b")); (lit "prev_events", VArray [])]], run.2)) as E by (apply Hpair; vm_compute; reflexivity).
  exists [[(lit "room_id", VString (lit "!b")); (lit "prev_events", VArray [])]], run.2. split; [|reflexivity]. intros fuel Hf. rewrite <- E. unfold run.
  apply (missing_events_end (lit "c") (lit "!b") [] 2 2); [|exact Hf].
  intros v ids H. cbn in H. repeat case_match; try discriminate H; injection H as <-; cbn; lia.
Defined.

(** A join of [@x:c] to the room [!r], which lets in the members of [!x], with
    the help of [@a:b]; the join is on the timeline already. *)
Definition sample_join : CanonicalJsonObject :=
  [(lit "type", VString (lit "m.room.member")); (lit "sender", VString (lit "@x:c")); (lit "state_key", VString (lit "@x:c")); (lit "content", VBool true);
   (lit "origin", VString (lit "c"))].

#[local] Instance restricted_contents : Contents := {|
  membership_of := λ _, None;
  history_visibility_of := λ _, None;
  join_rule_of := λ _, Some (JRestricted [AllowRoomMembership (lit "!x")]);
  guest_can_join_of := λ _, None;
  room_name_of := λ _, None;
  create_of := λ _, Some (mkCreate (lit "11") None);
|}.

(** The content of a member event is an invite, or the join with its helper. *)
#[local] Instance helper_api : FederationApi := {|
  restricted_join_rule _ := true;
  member_content_of_value v := Some (match v with
    | VBool true => mkMember Join None None None None None None (Some (lit "@a:b"))
    | _ => new_member Invite
    end);
  edu_of _ := None;
  ToDeviceContent := bytes;
  to_device_content _ := Some (lit "{}");
  to_device_json ty sender content := content;
  event_ids_of _ := None;
  cross_signing_key_ids _ := None;
  raw_key_ok _ := true;
  base64 b := b;
  raw_of _ := [];
  sign_object o := o;
|}.

Definition state_pdu (id kind : bytes) : PduEvent := mkPdu id (Some (lit "!r")) (lit "@a:b") 1 kind (lit "{}") (Some []) [] 1 [] None None [] None.

Definition restricted_room : Db := ((
  s ← get_or_create_shortroomid (lit "!r");
  h ← append_to_state (state_pdu (lit "$c") (lit "m.room.create"));
  set_room_state (lit "!r") h;;
  h ← append_to_state (state_pdu (lit "$j") (lit "m.room.join_rules"));
  set_room_state (lit "!r") h;;
  insert eventid_outlierpdu (lit "$c") (to_vec (state_pdu (lit "$c") (lit "m.room.create")));;
  insert eventid_outlierpdu (lit "$j") (to_vec (state_pdu (lit "$j") (lit "m.room.join_rules")));;
  insert pduid_pdu (to_be_bytes s ++ to_be_bytes 1) [];;
  insert eventid_pduid (lit "$") (to_be_bytes s ++ to_be_bytes 1);;
  insert userroomid_joined (lit "@x:c" ++ ff :: lit "!x") []) empty_db).2.

Definition sample_handle (membership : MembershipState) (pdu : CanonicalJsonObject) (version : option bytes) (d : Db) : res (option CanonicalJsonObject) * Handler :=
  handle_member_pdu (RV := sample_versions) (EC := sample_checks) (FA := helper_api) (λ b, b) (lit "b") [] [] (λ _ _ _ _ _, Some []) 0 0 5 membership (lit "c")
    (lit "!r") pdu version (n_handler (sample_node d)).

Lemma sample_handle_pair membership pdu version d : (sample_handle membership pdu version d).1 = Ok (Some pdu) →
  sample_handle membership pdu version d = (Ok (Some pdu), (sample_handle membership pdu version d).2).
Proof. destruct (sample_handle membership pdu version d) as [r h]. cbn [fst snd]. intros ->. reflexivity. Qed.

Lemma signs_only_authorised_events_witness :
  (∃ h' content, sample_handle Invite sample_invite (Some (lit "11")) empty_db = (Ok (Some sample_invite), h') ∧
     OwnMemberEvent Invite (lit "c") sample_invite content) ∧
  (∃ h' d content, sample_handle Join sample_join None restricted_room = (Ok (Some sample_join), h') ∧
     get_room_version (lit "!r") restricted_room = (Ok (lit "11"), d) ∧ OwnMemberEvent Join (lit "c") sample_join content ∧
     MayAuthorise (lit "b") d (lit "11") (lit "!r") sample_join content).
Proof.
  split.
  - set (run := sample_handle Invite sample_invite (Some (lit "11")) empty_db).
    assert (run = (Ok (Some sample_invite), run.2)) as E by (apply sample_handle_pair; vm_compute; reflexivity).
    unfold run in E at 1. pose proof E as E'. unfold sample_handle in E.
    apply signs_only_authorised_events in E as (v & d & id & value & content & redaction & _ & Hg & Ho & _). injection Hg as _ <-.
    exists run.2, content. exact (conj E' Ho).
  - set (run := sample_handle Join sample_join None restricted_room).
    assert (run = (Ok (Some sample_join), run.2)) as E by (apply sample_handle_pair; vm_compute; reflexivity).
    unfold run in E at 1. pose proof E as E'. unfold sample_handle in E.
    apply signs_only_authorised_events in E as (v & d & id & value & content & redaction & Hv & Hg & Ho & _ & _ & [Hi|[_ Hm]]); [discriminate Hi|].
    injection Hg as _ <-. assert (v = lit "11") as -> by (apply (f_equal fst) in Hv; vm_compute in Hv; injection Hv as <-; reflexivity).
    exists run.2, d, content. exact (conj E' (conj Hv (conj Ho Hm))).
Defined.
