(* ===== verification/Session.v ===== *)
(** * Session: logging in and out

    [server/src/api/client_server/session.rs]: the login route with its password,
    token, appservice and Solana wallet methods, and the logout routes.  The
    verifiers of passwords and JSON web tokens, Unicode lowercasing, random
    strings and the clocks are parameters. *)
From S2P Require Import Prelude Bytes KvTree Pdu Database Accounts AccountData Devices SolanaAuth Uiaa Appservice.

(** ** Requests *)

(** ruma's [CanonicalJsonValue]. *)
#[warnings="-register-all"]
Inductive CanonicalJsonValue :=
  | JNull
  | JBool (b : bool)
  | JInteger (n : Z)
  | JString (s : bytes)
  | JArray (l : list CanonicalJsonValue)
  | JObject (map : list (bytes * CanonicalJsonValue)).

(** [BTreeMap::get] on an object. *)
Definition json_get (key : bytes) (map : list (bytes * CanonicalJsonValue)) : option CanonicalJsonValue :=
  snd <$> find (λ e, bool_decide (e.1 = key)) map.

Inductive LoginInfo :=
  | LoginPassword (identifier : option UserIdentifier) (password : bytes) (user : option bytes)
  | LoginToken (token : bytes)
  | LoginApplicationService (identifier : option UserIdentifier) (user : option bytes)
  | LoginOther.

Record LoginRequest {RX : Regex} := mkLoginRequest {
  login_info : LoginInfo;
  lr_device_id : option bytes;
  initial_device_display_name : option bytes;
  json_body : option CanonicalJsonValue;
  appservice_info : option RegistrationInfo;
}.
Arguments mkLoginRequest {RX}.

Record LoginResponse := mkLoginResponse {
  resp_user_id : bytes;
  access_token : bytes;
  home_server : bytes;
  resp_device_id : bytes;
}.

(** What the environment supplies to one call: random strings and clocks. *)
Record Env := mkEnv {
  random_device : bytes;
  random_token : bytes;
  now_ms : Z;
  now_instant : Z;
}.

Inductive LoginType := TypePassword | TypeApplicationService | TypeCustom (name : bytes).

(** The login type of wallets. *)
Definition SOLANA_LOGIN : bytes := lit "m.login.solana.signature".

Section session.
Context {RU : Ruma} {RX : Regex} {LP : Localpart} {WC : WalletCrypto}.
Context `{JD : !Json Device} {Value : Type} `{JV : !Json Value}.
Context (has_field : bytes → Value → bool) (default_push_rules : bytes → Value).
Context (calculate_password_hash : bytes → option bytes) (argon2_verify : bytes → bytes → bool).
Context (to_lowercase : bytes → bytes) (jwt_decode : option (bytes → option bytes)).
Context (server_name : bytes) (allow_solana_auth : bool).

Definition get_login_types_route : list LoginType :=
  [TypePassword; TypeApplicationService] ++ (if allow_solana_auth then [TypeCustom SOLANA_LOGIN] else []).

(** The user an identifier names, for password and appservice logins. *)
Definition login_user_id (identifier : option UserIdentifier) (user : option bytes) : M Services bytes :=
  match identifier, user with
  | Some (UserIdOrLocalpart user_id), _ =>
      lift (ok_or (parse_with_server_name (to_lowercase user_id) server_name)
        (BadRequest InvalidUsername "Username is invalid."))
  | _, Some user =>
      lift (if user_id_ok user then Ok user else Err (BadRequest InvalidUsername "Username is invalid."))
  | _, None => fail (BadRequest Forbidden "Bad login type.")
  end.

Definition reserved_by_appservice (user_id : bytes) : M Services unit :=
  b ← gets (λ s, Ok (is_exclusive_user_id user_id s));
  if (b : bool) then fail (BadRequest Exclusive "User id reserved by appservice.") else mret tt.

(** The user the standard login methods authenticate. *)
Definition authenticate (body : LoginRequest) : M Services bytes :=
  match login_info body with
  | LoginPassword identifier password user =>
      user_id ← login_user_id identifier user;
      reserved_by_appservice user_id;;
      o ← on_db (password_hash user_id);
      hash ← lift (ok_or o (BadRequest Forbidden "Wrong username or password."));
      (if bool_decide (hash = []) then fail (BadRequest UserDeactivated "The user has been deactivated")
       else mret tt);;
      (if negb (argon2_verify hash password) then fail (BadRequest Forbidden "Wrong username or password.")
       else mret tt);;
      mret user_id
  | LoginToken token =>
      match jwt_decode with
      | Some decode =>
          sub ← lift (ok_or (decode token) (BadRequest InvalidUsername "Token is invalid."));
          user_id ← lift (ok_or (parse_with_server_name (to_lowercase sub) server_name)
            (BadRequest InvalidUsername "Username is invalid."));
          reserved_by_appservice user_id;;
          mret user_id
      | None =>
          fail (BadRequest Unknown "Token login is not supported (server has no jwt decoding key).")
      end
  | LoginApplicationService identifier user =>
      user_id ← login_user_id identifier user;
      match appservice_info body with
      | Some info =>
          (if negb (is_user_match info user_id) then fail (BadRequest Exclusive "User is not in namespace.")
           else mret tt);;
          mret user_id
      | None => fail (BadRequest MissingToken "Missing appservice token.")
      end
  | LoginOther => fail (BadRequest Unknown "Unsupported login type.")
  end.

(** The device and its token, at the end of both login handlers. *)
Definition device_login (env : Env) (body : LoginRequest) (user_id : bytes) : M Services LoginResponse :=
  let device_id := default (random_device env) (lr_device_id body) in
  let token := random_token env in
  device_exists ← gets (λ s, Ok match lr_device_id body with
    | Some device_id => existsb (λ x, match x with Ok v => bool_decide (v = device_id) | _ => false end)
                          (all_device_ids user_id (db s))
    | None => false
    end);
  (if device_exists : bool then on_db (set_token user_id device_id token)
   else on_db (create_device (now_ms env) user_id device_id token (initial_device_display_name body)));;
  mret (mkLoginResponse user_id token server_name device_id).

(** A required string field of the body. *)
Definition get_string_field (map : list (bytes * CanonicalJsonValue)) (key : bytes) : M Services bytes :=
  match json_get key map with
  | Some (JString s) => mret s
  | _ => fail (BadRequest MissingParam "Missing required Solana auth field.")
  end.

(** The account of a wallet, created at the first login. *)
Definition ensure_solana_account (user_id base58_address : bytes) : M Services unit :=
  ex ← on_db (exists_ user_id);
  if negb ex then
    on_db (create calculate_password_hash user_id None);;
    on_db (set_displayname user_id (Some base58_address));;
    on_db (update has_field None user_id (lit "m.push_rules") (default_push_rules user_id));;
    send_admin_message (lit "New Solana user " ++ base58_address ++ lit " registered (" ++ user_id ++ lit ").")
  else mret tt.

(** Handle the [m.login.solana.signature] login type. *)
Definition handle_solana_login (env : Env) (body : LoginRequest) (map : list (bytes * CanonicalJsonValue)) :
    M Services LoginResponse :=
  (if negb allow_solana_auth
   then fail (BadRequest Unknown "Solana authentication is not enabled on this server.") else mret tt);;
  address ← get_string_field map (lit "address");
  signature ← get_string_field map (lit "signature");
  nonce ← get_string_field map (lit "nonce");
  r ← on_nonces (verify_solana_login server_name (now_instant env) (mkSolanaLoginRequest address signature nonce));
  user_id ← lift (ok_or (parse_with_server_name r.1 server_name)
    (BadRequest InvalidUsername "Generated username is invalid."));
  ensure_solana_account user_id r.2;;
  device_login env body user_id.

(** The wallet login is recognised before the standard methods. *)
Definition solana_body (body : LoginRequest) : option (list (bytes * CanonicalJsonValue)) :=
  match json_body body with
  | Some (JObject map) =>
      match json_get (lit "type") map with
      | Some (JString login_type) => if bool_decide (login_type = SOLANA_LOGIN) then Some map else None
      | _ => None
      end
  | _ => None
  end.

Definition login_route (env : Env) (body : LoginRequest) : M Services LoginResponse :=
  match solana_body body with
  | Some map => handle_solana_login env body map
  | None => user_id ← authenticate body; device_login env body user_id
  end.

(** Log out the current device. *)
Definition logout_route (sender_user sender_device : bytes) (info : option RegistrationInfo) : M Services unit :=
  match info with
  | Some info =>
      if negb (is_user_match info sender_user) then fail (BadRequest Exclusive "User is not in namespace.") else mret tt
  | None => mret tt
  end;;
  on_db (remove_device sender_user sender_device).

(** Log out all devices of this user. *)
Definition logout_all_route (sender_user : bytes) (info : option RegistrationInfo) : M Services unit :=
  match info with
  | Some info =>
      if negb (is_user_match info sender_user) then fail (BadRequest Exclusive "User is not in namespace.") else mret tt
  | None => fail (BadRequest MissingToken "Missing appservice token.")
  end;;
  devices ← gets (λ s, Ok (oks (all_device_ids sender_user (db s))));
  for_each devices (λ device_id, on_db (remove_device sender_user device_id)).

(** * Lemmas *)

Lemma bind_on_db {A B} (m : M Db A) (f : A → M Services B) s a d :
  m (db s) = (Ok a, d) →
  (on_db m ≫= f) s = f a (mkServices d (registration_info s) (nonces s) (admin_queue s)).
Proof. intros E. unfold on_db, mbind, M_bind. by rewrite E. Qed.

(** Device keys have the shape the code gives them. *)
Definition MetaInv (d : Db) : Prop :=
  ∀ k v, kv d userdeviceid_metadata !! k = Some v → ∃ u dv, no_ff u ∧ no_ff dv ∧ k = userdeviceid u dv.

Lemma device_exists_spec d u dv :
  MetaInv d → no_ff u →
  existsb (λ x, match x with Ok v => bool_decide (v = dv) | _ => false end) (all_device_ids u d) = true →
  is_Some (kv d userdeviceid_metadata !! userdeviceid u dv).
Proof.
  intros HM Hu H. apply existsb_exists in H as (x & Hx & Hv). apply list_elem_of_In in Hx.
  unfold all_device_ids in Hx. apply list_elem_of_fmap in Hx as ([k v] & -> & Hin). cbn [fst] in Hv.
  apply elem_of_scan_prefix in Hin as [Hp Hk]. destruct (HM _ _ Hk) as (u' & dv' & Hu' & Hd' & ->).
  unfold userdeviceid in *. apply starts_with_ff in Hp as ->; [|done..].
  rewrite rsplit_first_app in Hv by done. destruct (string_from_bytes dv') as [x|] eqn:Ex; cbn in Hv; [|done].
  apply string_from_bytes_Some in Ex as [-> _]. apply bool_decide_eq_true in Hv as ->. eauto.
Qed.

(** After the device step the new token identifies the user and the device. *)
Lemma device_login_spec env body u s :
  TokenInv (db s) → MetaInv (db s) → is_Some (kv (db s) userid_password !! u) →
  kv (db s) token_userdeviceid !! random_token env = None →
  utf8_valid u = true → user_id_ok u = true → utf8_valid (default (random_device env) (lr_device_id body)) = true →
  ∃ s', device_login env body u s =
      (Ok (mkLoginResponse u (random_token env) server_name (default (random_device env) (lr_device_id body))), s') ∧
    find_from_token (random_token env) (db s') =
      (Ok (Some (u, default (random_device env) (lr_device_id body))), db s') ∧
    TokenInv (db s') ∧ nonces s' = nonces s ∧ registration_info s' = registration_info s ∧
    (∀ t, t ∉ [userdeviceid_token; token_userdeviceid; userdeviceid_metadata; userid_devicelistversion] →
      kv (db s') t = kv (db s) t).
Proof.
  intros HI HM He Hf Hu Hi Hd. unfold device_login. cbv zeta.
  set (dv := default (random_device env) (lr_device_id body)) in *. rewrite bind_gets.
  set (b := match lr_device_id body with Some _ => _ | None => false end).
  destruct b eqn:Eb; unfold b in Eb.
  - destruct (lr_device_id body) as [dv'|] eqn:El; [|done]. unfold dv in *. cbn [default from_option] in *.
    apply device_exists_spec in Eb as Hm; [|done|by apply utf8_no_ff].
    destruct (set_token_spec (db s) u dv' (random_token env) HI Hm Hf) as (d' & Hs & Ha & Hk).
    rewrite (bind_on_db _ _ _ _ _ Hs). eexists. split; [done|]. cbn [db nonces registration_info].
    split_and!; try done.
    + apply find_from_token_spec; try done. destruct Ha as [_ ->]. by rewrite decide_True.
    + eapply assigned_inv; [done|done|done|by rewrite Hk|intros k; by rewrite Hk].
    + intros t Ht. apply Hk; set_solver.
  - destruct (create_device_spec (now_ms env) (db s) u dv (random_token env) (initial_device_display_name body) HI He Hf)
      as (d' & Hc & HI' & Ha & _ & Hk).
    rewrite (bind_on_db _ _ _ _ _ Hc). eexists. split; [done|]. cbn [db nonces registration_info].
    split_and!; try done. apply find_from_token_spec; try done. destruct Ha as [_ ->]. by rewrite decide_True.
Qed.
(** ** Password logins *)

Definition valid_login (s : Services) (u password : bytes) : Prop :=
  is_exclusive_user_id u s = false ∧
  ∃ hash, kv (db s) userid_password !! u = Some hash ∧ utf8_valid hash = true ∧ hash ≠ [] ∧
    argon2_verify hash password = true.

Lemma authenticate_password body name password user u s r s' :
  login_info body = LoginPassword (Some (UserIdOrLocalpart name)) password user →
  parse_with_server_name (to_lowercase name) server_name = Some u →
  authenticate body s = (Ok r, s') ↔ r = u ∧ s' = s ∧ valid_login s u password.
Proof.
  intros Eb Ep. unfold authenticate. rewrite Eb. unfold login_user_id, reserved_by_appservice, valid_login.
  rewrite Ep. cbn [ok_or]. unfold on_db, password_hash, get_string, get, kv_get. run.
  destruct (is_exclusive_user_id u s); [split; [done|naive_solver]|].
  destruct (kv (db s) userid_password !! u) as [h|]; cbn [map_transpose ok_or]; [|split; [done|naive_solver]].
  destruct (string_from_bytes h) as [h'|] eqn:Eh; cbn; last first.
  { split; [done|]. intros (_ & _ & _ & h' & [= ->] & Hu & _). by rewrite string_from_bytes_valid in Eh. }
  apply string_from_bytes_Some in Eh as [-> Hu]. case_bool_decide as Hne; [split; [done|naive_solver]|].
  destruct (argon2_verify h password) eqn:Hv; cbn; [|split; [done|intros (_ & _ & _ & ? & [= <-] & _ & _ & ?); congruence]].
  split.
  - intros [= <- <-]. split; [done|]. split; [by destruct s|]. split; [done|]. eexists. by split_and!.
  - intros (-> & -> & _). by destruct s.
Qed.

(** ** Wallet logins *)

Lemma update_ok d n u t data :
  count_is d n → n < u64_max → has_field (lit "type") data = true → has_field (lit "content") data = true →
  ∃ d', update has_field None u t data d = (Ok tt, d') ∧
    (∀ tb, tb ∉ [global; roomuserdataid_accountdata; roomusertype_roomuserdataid] → kv d' tb = kv d tb).
Proof.
  intros Hc Hn Ht Hcn. unfold update. cbv zeta.
  rewrite (bind_ok _ _ _ _ _ (next_count_spec d n Hc Hn)). rewrite Ht, Hcn. cbn [negb orb].
  unfold insert, remove, get, kv_get. run. destruct (kv _ roomusertype_roomuserdataid !! _);
    (eexists; split; [done|]; intros tb Htb; rewrite !kv_upd_ne by set_solver; apply kv_set_count; set_solver).
Qed.

(** The account step: afterwards the account exists; a new account has no
    password and the address as its display name, an old one is as it was. *)
Lemma ensure_solana_account_spec u addr s n :
  count_is (db s) n → n < u64_max →
  has_field (lit "type") (default_push_rules u) = true → has_field (lit "content") (default_push_rules u) = true →
  ∃ s', ensure_solana_account u addr s = (Ok tt, s') ∧ nonces s' = nonces s ∧
    registration_info s' = registration_info s ∧
    (∀ t, t ∉ [userid_password; userid_displayname; global; roomuserdataid_accountdata; roomusertype_roomuserdataid] →
      kv (db s') t = kv (db s) t) ∧
    match kv (db s) userid_password !! u with
    | Some h => kv (db s') userid_password !! u = Some h ∧ kv (db s') userid_displayname = kv (db s) userid_displayname
    | None => kv (db s') userid_password = <[u := []]> (kv (db s) userid_password) ∧
              kv (db s') userid_displayname = <[u := addr]> (kv (db s) userid_displayname)
    end.
Proof.
  intros Hc Hn Ht Hcn. unfold ensure_solana_account.
  rewrite (bind_on_db _ _ s (bool_decide (is_Some (kv (db s) userid_password !! u))) (db s)) by done.
  destruct (kv (db s) userid_password !! u) as [h|] eqn:Eh.
  { rewrite bool_decide_eq_true_2 by done. cbn [negb]. eexists. split; [done|]. by cbn [db nonces registration_info]. }
  rewrite bool_decide_eq_false_2 by (intros []; done). cbn [negb].
  unfold create, set_password, set_displayname, set_field.
  erewrite bind_on_db by reflexivity. erewrite bind_on_db by reflexivity. cbn [db registration_info nonces admin_queue].
  match goal with |- context [mkServices ?x _ _ _] => set (d1 := x) end.
  assert (count_is d1 n) as Hc1 by (destruct Hc as [Hu Hc]; split; [done|]; unfold d1, insert, modify; cbn [snd]; by kv_simpl).
  destruct (update_ok d1 n u (lit "m.push_rules") (default_push_rules u) Hc1 Hn Ht Hcn) as (d2 & Hupd & Hk).
  erewrite bind_on_db by (cbn [db]; exact Hupd). eexists. split; [done|]. cbn [db nonces registration_info].
  split_and!; [done|done| |..].
  - intros t Hin. rewrite Hk by set_solver. unfold d1. by rewrite !kv_upd_ne by set_solver.
  - rewrite Hk by set_solver. unfold d1. by kv_simpl.
  - rewrite Hk by set_solver. unfold d1. by kv_simpl.
Qed.

(** The three fields of a wallet login. *)
Definition solana_fields (map : list (bytes * CanonicalJsonValue)) (r : SolanaLoginRequest) : Prop :=
  json_get (lit "address") map = Some (JString (slr_address r)) ∧
  json_get (lit "signature") map = Some (JString (slr_signature r)) ∧
  json_get (lit "nonce") map = Some (JString (slr_nonce r)).

Lemma get_string_field_ok map key v s : json_get key map = Some (JString v) → get_string_field map key s = (Ok v, s).
Proof. intros E. unfold get_string_field. by rewrite E. Qed.

Lemma get_string_field_inv map key v s s' :
  get_string_field map key s = (Ok v, s') → json_get key map = Some (JString v) ∧ s' = s.
Proof.
  unfold get_string_field. destruct (json_get key map) as [[]|]; intros H; try discriminate. by injection H as <- <-.
Qed.

(** A login that succeeded went through the wallet verification. *)
Lemma handle_solana_login_inv env body map s resp s' :
  handle_solana_login env body map s = (Ok resp, s') →
  ∃ r lp addr nn u s1, solana_fields map r ∧
    verify_solana_login server_name (now_instant env) r (nonces s) = (Ok (lp, addr), nn) ∧
    parse_with_server_name lp server_name = Some u ∧
    ensure_solana_account u addr (mkServices (db s) (registration_info s) nn (admin_queue s)) = (Ok tt, s1) ∧
    device_login env body u s1 = (Ok resp, s') ∧ allow_solana_auth = true.
Proof.
  unfold handle_solana_login. intros H. apply bind_inv in H as ([] & s0 & H0 & H).
  destruct allow_solana_auth; [|done]. injection H0 as <-.
  apply bind_inv in H as (a & s1 & [Ha ->]%get_string_field_inv & H).
  apply bind_inv in H as (sg & s1 & [Hs ->]%get_string_field_inv & H).
  apply bind_inv in H as (nc & s1 & [Hn ->]%get_string_field_inv & H).
  apply bind_inv in H as ([lp addr] & s1 & Hv & H). unfold on_nonces in Hv.
  destruct (verify_solana_login _ _ _ (nonces s)) as [r nn] eqn:Ev. injection Hv as -> <-.
  apply bind_inv in H as (u & s2 & Hu & H). cbn [fst snd] in *.
  destruct (parse_with_server_name lp server_name) as [u'|] eqn:Ep; [|done]. injection Hu as -> <-.
  apply bind_inv in H as ([] & s3 & He & H). exists (mkSolanaLoginRequest a sg nc), lp, addr, nn, u, s3.
  by split_and!.
Qed.

Lemma handle_solana_login_run env body map s r lp addr nn u s1 :
  allow_solana_auth = true → solana_fields map r →
  verify_solana_login server_name (now_instant env) r (nonces s) = (Ok (lp, addr), nn) →
  parse_with_server_name lp server_name = Some u →
  ensure_solana_account u addr (mkServices (db s) (registration_info s) nn (admin_queue s)) = (Ok tt, s1) →
  handle_solana_login env body map s = device_login env body u s1.
Proof.
  intros Ha (H1 & H2 & H3) Hv Hp He. destruct r as [a sg nc]. cbn in *. unfold handle_solana_login. rewrite Ha. cbn [negb].
  rewrite (bind_ok _ _ s tt s) by done.
  rewrite (bind_ok _ _ _ _ _ (get_string_field_ok _ _ _ _ H1)).
  rewrite (bind_ok _ _ _ _ _ (get_string_field_ok _ _ _ _ H2)).
  rewrite (bind_ok _ _ _ _ _ (get_string_field_ok _ _ _ _ H3)).
  rewrite (bind_ok _ _ s (lp, addr) (mkServices (db s) (registration_info s) nn (admin_queue s)))
    by (unfold on_nonces; by rewrite Hv).
  cbn [fst snd]. rewrite Hp. cbn [ok_or]. erewrite bind_ok by reflexivity. by rewrite (bind_ok _ _ _ _ _ He).
Qed.

(** What a wallet login needs of the rest of the server. *)
Definition login_ready (env : Env) (body : LoginRequest) (s : Services) : Prop :=
  TokenInv (db s) ∧ MetaInv (db s) ∧ kv (db s) token_userdeviceid !! random_token env = None ∧
  utf8_valid (default (random_device env) (lr_device_id body)) = true.

Lemma solana_login_spec env body map s n r lp addr nn u :
  login_ready env body s → solana_body body = Some map → allow_solana_auth = true →
  count_is (db s) n → n < u64_max →
  has_field (lit "type") (default_push_rules u) = true → has_field (lit "content") (default_push_rules u) = true →
  utf8_valid u = true → user_id_ok u = true →
  solana_fields map r → verify_solana_login server_name (now_instant env) r (nonces s) = (Ok (lp, addr), nn) →
  parse_with_server_name lp server_name = Some u →
  ∃ s', login_route env body s =
      (Ok (mkLoginResponse u (random_token env) server_name (default (random_device env) (lr_device_id body))), s') ∧
    nonces s' = nn ∧ TokenInv (db s') ∧
    find_from_token (random_token env) (db s') =
      (Ok (Some (u, default (random_device env) (lr_device_id body))), db s') ∧
    match kv (db s) userid_password !! u with
    | Some h => kv (db s') userid_password !! u = Some h ∧ kv (db s') userid_displayname = kv (db s) userid_displayname
    | None => kv (db s') userid_password = <[u := []]> (kv (db s) userid_password) ∧
              kv (db s') userid_displayname = <[u := addr]> (kv (db s) userid_displayname)
    end.
Proof.
  intros (HI & HM & Hf & Hd) Hb Ha Hc Hn Ht Hcn Hu Hi Hfl Hv Hp.
  destruct (ensure_solana_account_spec u addr (mkServices (db s) (registration_info s) nn (admin_queue s)) n Hc Hn Ht Hcn)
    as (s1 & He & Hnn & _ & Hk & Hacc). cbn [db nonces] in *.
  unfold login_route. rewrite Hb, (handle_solana_login_run env body map s r lp addr nn u s1) by done.
  destruct (device_login_spec env body u s1) as (s' & Hl & Htok & HI' & Hn' & _ & Hk'); try done.
  - split; intros a b; rewrite !Hk by set_solver; apply HI.
  - intros k v. rewrite Hk by set_solver. apply HM.
  - destruct (kv (db s) userid_password !! u) as [h|]; destruct Hacc as [E _]; [by rewrite E|].
    rewrite E, lookup_insert_eq. done.
  - by rewrite Hk by set_solver.
  - exists s'. split_and!; [done|congruence|done|done|]. rewrite !Hk' by set_solver. done.
Qed.
End session.

(** * Claims *)

Section claims.
Context {RU : Ruma} {RX : Regex} {LP : Localpart} {WC : WalletCrypto}.
Context {JD : Json Device} {Value : Type} {JV : Json Value}.
Variables (has_field : bytes → Value → bool) (default_push_rules : bytes → Value).
Variables (calculate_password_hash : bytes → option bytes) (argon2_verify : bytes → bytes → bool).
Variables (to_lowercase : bytes → bytes) (jwt_decode : option (bytes → option bytes)).
Variables (server_name : bytes) (allow_solana_auth : bool).

Abbreviation route := (login_route has_field default_push_rules calculate_password_hash argon2_verify to_lowercase jwt_decode
  server_name allow_solana_auth).

(** Password logins.  With an identifier that parses to user [u], the login
    route succeeds exactly when [u] is not reserved by an appservice and has a
    non-empty stored hash that verifies the password; then the returned access
    token identifies [u] and the returned device. *)
Theorem password_login_correct env body name password user u s :
  login_info body = LoginPassword (Some (UserIdOrLocalpart name)) password user →
  solana_body body = None → parse_with_server_name (to_lowercase name) server_name = Some u →
  login_ready env body s → utf8_valid u = true → user_id_ok u = true →
  ((∃ resp s', route env body s = (Ok resp, s')) ↔ valid_login argon2_verify s u password) ∧
  (∀ resp s', route env body s = (Ok resp, s') →
    resp_user_id resp = u ∧ TokenInv (db s') ∧
    find_from_token (access_token resp) (db s') = (Ok (Some (u, resp_device_id resp)), db s')).
Proof.
  intros Hl Hb Hp (HI & HM & Hf & Hd) Hu Hi.
  assert (valid_login argon2_verify s u password → ∃ s', route env body s =
      (Ok (mkLoginResponse u (random_token env) server_name (default (random_device env) (lr_device_id body))), s') ∧
    TokenInv (db s') ∧ find_from_token (random_token env) (db s') =
      (Ok (Some (u, default (random_device env) (lr_device_id body))), db s')) as Hgo.
  { intros Hv. unfold login_route. rewrite Hb.
    rewrite (bind_ok _ _ s u s) by (eapply authenticate_password; eauto).
    destruct (device_login_spec has_field default_push_rules calculate_password_hash argon2_verify to_lowercase
      server_name env body u s) as (s' & ? & ? & ? & _); try done; [|eauto].
    destruct Hv as (_ & h & -> & _). eauto. }
  assert (∀ resp s', route env body s = (Ok resp, s') → valid_login argon2_verify s u password) as Hback.
  { intros resp s' H. unfold login_route in H. rewrite Hb in H. apply bind_inv in H as (r & s1 & Ha & _).
    by eapply authenticate_password in Ha as (_ & _ & ?). }
  split.
  - split; [intros (resp & s' & H); eauto|]. intros Hv. destruct (Hgo Hv) as (s' & ? & _). eauto.
  - intros resp s' H. destruct (Hgo (Hback _ _ H)) as (s1 & Hr & ? & ?). rewrite Hr in H. injection H as <- <-. done.
Qed.

(** C1: Wallet logins, end to end.  The route succeeds exactly when wallet logins
    are enabled, the three fields are present, the wallet verification of
    [solana_auth.rs] accepts them and the localpart makes a user id.  Then the
    nonce store is the one the verification left, the access token identifies
    the wallet's user, and the account is there: a new one carries the address
    as its display name, an existing one is unchanged. *)
Theorem solana_login_correct env body map s n :
  login_ready env body s → solana_body body = Some map → count_is (db s) n → n < u64_max →
  (∀ u, has_field (lit "type") (default_push_rules u) = true ∧ has_field (lit "content") (default_push_rules u) = true) →
  (∀ lp u, parse_with_server_name lp server_name = Some u → utf8_valid u = true ∧ user_id_ok u = true) →
  ((∃ resp s', route env body s = (Ok resp, s')) ↔
    allow_solana_auth = true ∧ ∃ r lp addr nn u, solana_fields map r ∧
      verify_solana_login server_name (now_instant env) r (nonces s) = (Ok (lp, addr), nn) ∧
      parse_with_server_name lp server_name = Some u) ∧
  (∀ resp s', route env body s = (Ok resp, s') →
    ∃ r lp addr, let u := resp_user_id resp in
      solana_fields map r ∧
      verify_solana_login server_name (now_instant env) r (nonces s) = (Ok (lp, addr), nonces s') ∧
      parse_with_server_name lp server_name = Some u ∧ TokenInv (db s') ∧
      find_from_token (access_token resp) (db s') = (Ok (Some (u, resp_device_id resp)), db s') ∧
      match kv (db s) userid_password !! u with
      | Some h => kv (db s') userid_password !! u = Some h ∧
                  kv (db s') userid_displayname !! u = kv (db s) userid_displayname !! u
      | None => kv (db s') userid_password !! u = Some [] ∧ kv (db s') userid_displayname !! u = Some addr
      end).
Proof.
  intros Hready Hb Hc Hn Hpush Hparse.
  pose proof (λ r lp addr nn u Ha Hf Hv Hp, solana_login_spec has_field default_push_rules calculate_password_hash
    argon2_verify to_lowercase jwt_decode server_name allow_solana_auth env body map s n r lp addr nn u Hready Hb Ha Hc Hn
    (proj1 (Hpush u)) (proj2 (Hpush u)) (proj1 (Hparse lp u Hp)) (proj2 (Hparse lp u Hp)) Hf Hv Hp) as Hgo.
  assert (∀ resp s', route env body s = (Ok resp, s') → allow_solana_auth = true ∧ ∃ r lp addr nn u,
    solana_fields map r ∧ verify_solana_login server_name (now_instant env) r (nonces s) = (Ok (lp, addr), nn) ∧
    parse_with_server_name lp server_name = Some u) as Hback.
  { intros resp s' H. unfold login_route in H. rewrite Hb in H.
    apply handle_solana_login_inv in H as (r & lp & addr & nn & u & s1 & ? & ? & ? & _ & _ & ?). eauto 10. }
  split.
  - split; [intros (resp & s' & H); eauto|]. intros (Ha & r & lp & addr & nn & u & Hf & Hv & Hp).
    destruct (Hgo _ _ _ _ _ Ha Hf Hv Hp) as (s' & ? & _). eauto.
  - intros resp s' H. destruct (Hback _ _ H) as (Ha & r & lp & addr & nn & u & Hf & Hv & Hp).
    destruct (Hgo _ _ _ _ _ Ha Hf Hv Hp) as (s1 & Hr & Hnn & HI & Htok & Hacc).
    rewrite Hr in H. injection H as <- <-. exists r, lp, addr. cbn [resp_user_id access_token resp_device_id].
    rewrite Hnn. split_and!; try done.
    destruct (kv (db s) userid_password !! u); destruct Hacc as [-> ->]; [done|by rewrite !lookup_insert_eq].
Qed.

(** A wallet's new account is indistinguishable from a deactivated one: after
    the first wallet login [is_deactivated] holds of it, it is missing from the
    list of local users, and a password login for it is refused as
    deactivated. *)
Theorem solana_account_looks_deactivated env body map s n resp s' :
  login_ready env body s → solana_body body = Some map → count_is (db s) n → n < u64_max →
  (∀ u, has_field (lit "type") (default_push_rules u) = true ∧ has_field (lit "content") (default_push_rules u) = true) →
  (∀ lp u, parse_with_server_name lp server_name = Some u → utf8_valid u = true ∧ user_id_ok u = true) →
  route env body s = (Ok resp, s') → kv (db s) userid_password !! resp_user_id resp = None →
  is_deactivated (resp_user_id resp) (db s') = (Ok true, db s') ∧
  (resp_user_id resp ∉ list_local_users (db s')) ∧
  (∀ body' name password user,
    login_info body' = LoginPassword (Some (UserIdOrLocalpart name)) password user → solana_body body' = None →
    parse_with_server_name (to_lowercase name) server_name = Some (resp_user_id resp) →
    is_exclusive_user_id (resp_user_id resp) s' = false →
    (route env body' s').1 = Err (BadRequest UserDeactivated "The user has been deactivated")).
Proof.
  intros Hready Hb Hc Hn Hpush Hparse Hr Hnew.
  assert (kv (db s') userid_password !! resp_user_id resp = Some []) as E.
  { pose proof Hr as H. unfold login_route in H. rewrite Hb in H.
    apply handle_solana_login_inv in H as (r & lp & addr & nn & u & s1 & Hf & Hv & Hp & _ & _ & Ha).
    destruct (Hpush u), (Hparse lp u Hp).
    destruct (solana_login_spec has_field default_push_rules calculate_password_hash argon2_verify to_lowercase jwt_decode
      server_name allow_solana_auth env body map s n r lp addr nn u) as (s2 & Hr2 & _ & _ & _ & Hacc); try done.
    rewrite Hr2 in Hr. injection Hr as <- <-. cbn [resp_user_id] in *. rewrite Hnew in Hacc.
    destruct Hacc as [-> _]. apply lookup_insert_eq. }
  split_and!.
  - unfold is_deactivated, get, kv_get. run. by rewrite E.
  - unfold list_local_users, kv_iter. rewrite list_elem_of_omap. intros ([k v] & Hk%elem_of_entries & Hg). cbn in Hg.
    unfold get_username_with_valid_password in Hg. case_bool_decide as Hv; [done|].
    apply string_from_bytes_Some in Hg as [<- _]. congruence.
  - intros body' name password user Hl Hb' Hp Hx. unfold login_route. rewrite Hb'. unfold authenticate. rewrite Hl.
    unfold login_user_id, reserved_by_appservice, on_db, password_hash, get_string, get, kv_get. rewrite Hp. run.
    cbn [ok_or]. by rewrite Hx, E.
Qed.

(** A valid token login for a user without an account does not fail with an
    error: it panics in [create_device]. *)
Theorem token_login_unknown_user_panics env body token decode sub u s :
  login_info body = LoginToken token → solana_body body = None → jwt_decode = Some decode →
  decode token = Some sub → parse_with_server_name (to_lowercase sub) server_name = Some u →
  is_exclusive_user_id u s = false → lr_device_id body = None →
  kv (db s) userid_password !! u = None → (route env body s).1 = Panic.
Proof.
  intros Hl Hb Hj Hd Hp Hx Hdev Hn. unfold login_route. rewrite Hb. unfold authenticate. rewrite Hl, Hj.
  unfold reserved_by_appservice, device_login. rewrite Hdev. cbn [default from_option]. unfold on_db, create_device, exists_, get, kv_get.
  run. rewrite Hd. cbn [ok_or]. rewrite Hp. cbn [ok_or]. rewrite Hx. run. cbv zeta. by rewrite Hn.
Qed.
End claims.

(** ** Witnesses *)

Definition sample_localpart : Localpart := {| localpart := λ u, tail (before_colon u) |}.

(** The login route on concrete parameters: hashes are the passwords, a JSON web
    token is its subject. *)
Definition sample_route (env : Env) (body : LoginRequest (RX := sample_regex)) :
    M (Services (RX := sample_regex)) LoginResponse :=
  login_route (RU := sample_ruma) (LP := sample_localpart) (WC := sample_crypto)
    (JD := json_countable Device) (JV := json_countable bytes) (λ _ _, true) (λ _, lit "{}") Some same_bytes
    (λ s, s) (Some Some) (lit "b") true env body.

Definition sample_env : Env := mkEnv (lit "DEV") (lit "TOK") 1000 7.

Definition sample_services : Services (RX := sample_regex) :=
  mkServices uiaa_db ∅ {[ slr_nonce sample_login := 5 ]} [].

Definition sample_password_body : LoginRequest (RX := sample_regex) :=
  mkLoginRequest (LoginPassword (Some (UserIdOrLocalpart (lit "a"))) (lit "pw") None) None None None None.

Definition sample_solana_map : list (bytes * CanonicalJsonValue) :=
  [(lit "address", JString (slr_address sample_login)); (lit "nonce", JString (slr_nonce sample_login));
   (lit "signature", JString (slr_signature sample_login)); (lit "type", JString SOLANA_LOGIN)].

Definition sample_solana_body : LoginRequest (RX := sample_regex) :=
  mkLoginRequest LoginOther None None (Some (JObject sample_solana_map)) None.

Lemma sample_services_ready body :
  lr_device_id body = None → login_ready (RX := sample_regex) sample_env body sample_services.
Proof.
  assert (∀ t, t ≠ userid_password → kv (db sample_services) t = ∅) as Hk by (intros t Ht; apply kv_upd_ne; congruence).
  intros E. unfold login_ready. rewrite E. split_and!; [split; intros a b|intros k v|done|done];
    rewrite Hk, lookup_empty by done; done.
Qed.

Lemma sample_parse lp server u :
  parse_with_server_name (Ruma := sample_ruma) lp server = Some u →
  utf8_valid u = true ∧ user_id_ok (Ruma := sample_ruma) u = true.
Proof.
  cbn. destruct (sample_user_id_ok _) eqn:E; [|done]. intros [= <-]. split; [|done].
  unfold sample_user_id_ok in E. by apply andb_true_iff in E as [_ ?].
Qed.

Lemma password_login_correct_witness :
  ∃ resp s', sample_route sample_env sample_password_body sample_services = (Ok resp, s').
Proof.
  destruct (password_login_correct (RU := sample_ruma) (RX := sample_regex) (LP := sample_localpart) (WC := sample_crypto)
    (JD := json_countable Device) (JV := json_countable bytes) (λ _ _, true) (λ _, lit "{}") Some same_bytes
    (λ s, s) (Some Some) (lit "b") true sample_env sample_password_body (lit "a") (lit "pw") None (lit "@a:b")
    sample_services) as [[_ H] _]; [done|done|done|by apply sample_services_ready|done|done|].
  apply H. split; [done|]. exists (lit "pw"). by split_and!.
Defined.

Lemma solana_login_correct_witness :
  ∃ resp s', sample_route sample_env sample_solana_body sample_services = (Ok resp, s').
Proof.
  destruct (solana_login_correct (RU := sample_ruma) (RX := sample_regex) (LP := sample_localpart) (WC := sample_crypto)
    (JD := json_countable Device) (JV := json_countable bytes) (λ _ _, true) (λ _, lit "{}") Some same_bytes
    (λ s, s) (Some Some) (lit "b") true sample_env sample_solana_body sample_solana_map sample_services 0)
    as [[_ H] _].
  - by apply sample_services_ready.
  - by vm_compute.
  - split; [by split|]. by right.
  - done.
  - done.
  - intros lp u. apply sample_parse.
  - apply H. split; [done|]. exists sample_login. do 4 eexists. split_and!; by vm_compute.
Defined.

