(* ===== verification/Spaces.v ===== *)
(** * Spaces: the hierarchy of a space

    [server/src/service/rooms/spaces/mod.rs] with the routes of
    [server/src/api/client_server/space.rs] and
    [server/src/api/server_server.rs]: summaries of rooms, who may see them,
    their cache, the depth-first walk and its pagination token.  That a new
    child event drops a room from the cache is part of [TimelineService] and
    [MemberEvents]; here the cache has its contents.  The answers of
    other servers, the decoding of event contents and the order of the children
    (ruma) are parameters. *)
From S2P Require Import Prelude Bytes JsonValue KvTree Pdu Database Short StateCompressor RoomState StateCache Timeline PduJson UserKeys.
From S2P Require Import RoomTables Sending StateAccess TimelineService ServerKeys EventHandler.

(** ** Summaries *)

(** [JoinRuleSummary]. *)
Inductive JoinRuleSummary :=
  | SInvite
  | SKnock
  | SPrivate
  | SPublic
  | SRestricted (allowed_room_ids : list bytes)
  | SKnockRestricted (allowed_room_ids : list bytes)
  | SCustom (s : bytes).

(** [From<JoinRule>]. *)
Definition rule_summary (rule : JoinRule) : JoinRuleSummary :=
  match rule with
  | JInvite => SInvite
  | JKnock => SKnock
  | JPrivate => SPrivate
  | JPublic => SPublic
  | JRestricted _ => SRestricted (allowed_room_ids rule)
  | JKnockRestricted _ => SKnockRestricted (allowed_room_ids rule)
  | JCustom s => SCustom s
  end.

Record RoomSummary := mkRoomSummary {
  rs_room_id : bytes;
  rs_canonical_alias : option bytes;
  rs_name : option bytes;
  rs_num_joined_members : Z;
  rs_topic : option bytes;
  rs_world_readable : bool;
  rs_guest_can_join : bool;
  rs_avatar_url : option bytes;
  rs_join_rule : JoinRuleSummary;
  rs_room_type : option bytes;
  rs_encryption : option bytes;
  rs_room_version : option bytes;
}.

(** [SpaceHierarchyParentSummary]; the children are raw events. *)
Record ParentSummary := mkParentSummary { summary : RoomSummary; children_state : list Value }.

Inductive SummaryAccessibility := Accessible (s : ParentSummary) | Inaccessible.

Inductive Identifier := IdUser (user_id : bytes) | IdServer (server_name : bytes).

(** [HierarchySpaceChildEvent]. *)
Record ChildEvent := mkChild {
  ch_state_key : bytes;
  ch_via : list bytes;
  ch_suggested : bool;
  ch_order : option bytes;
  ch_origin_server_ts : Z;
}.

(** ruma's decoding of contents and its order of the children. *)
Class SpaceContents := {
  canonical_alias_of : bytes → option (option bytes);
  topic_of : bytes → option bytes;
  avatar_of : bytes → option (option bytes);
  room_type_of : bytes → option (option bytes);
  encryption_of : bytes → option bytes;
  space_child_via : bytes → option (list bytes);
  child_of : Value → option ChildEvent;
  child_le : ChildEvent → ChildEvent → bool;
}.

(** The other servers: the summary of the room and of its children. *)
Class SpaceRemote := {
  hierarchy_request : bytes → bytes → bool → option (ParentSummary * list RoomSummary);
}.

(** ** Pagination tokens *)

Record PagnationToken := mkToken {
  short_room_ids : list Z;
  limit : Z;
  max_depth : Z;
  suggested_only : bool;
}.

Definition depth_of (t : PagnationToken) : Z := max_depth t.

Definition UINT_MAX : Z := 2 ^ 53 - 1.

(** [str::split(c)]. *)
Fixpoint split_on (c : Z) (s : bytes) : list bytes :=
  match s with
  | [] => [[]]
  | b :: s' =>
      if b =? c then [] :: split_on c s'
      else match split_on c s' with x :: xs => (b :: x) :: xs | [] => [[b]] end
  end.

(** [join]. *)
Fixpoint join_with (c : Z) (l : list bytes) : bytes :=
  match l with
  | [] => []
  | [x] => x
  | x :: l => x ++ c :: join_with c l
  end.

(** [UInt::from_str]. *)
Definition parse_uint (s : bytes) : option Z := n ← parse_u64 s; if n <=? UINT_MAX then Some n else None.

Definition parse_bool (s : bytes) : option bool :=
  if bool_decide (s = lit "true") then Some true else if bool_decide (s = lit "false") then Some false else None.

Definition comma : Z := 44.

Definition underscore : Z := 95.

Definition token_from_str (value : bytes) : res PagnationToken :=
  let pag_tok :=
    match split_on underscore value with
    | rooms :: rest =>
        rooms ← mapM parse_u64 (split_on comma rooms);
        match rest with
        | limit :: rest =>
            limit ← parse_uint limit;
            match rest with
            | max_depth :: rest =>
                max_depth ← parse_uint max_depth;
                match rest with
                | [slice] => suggested_only ← parse_bool slice; Some (mkToken rooms limit max_depth suggested_only)
                | _ => None
                end
            | [] => None
            end
        | [] => None
        end
    | [] => None
    end in
  ok_or pag_tok (BadRequest InvalidParam "invalid token").

Definition token_to_string (t : PagnationToken) : bytes :=
  join_with comma (to_string <$> short_room_ids t) ++ underscore :: to_string (limit t) ++ underscore :: to_string (max_depth t) ++
    underscore :: (if suggested_only t then lit "true" else lit "false").

(** ** State: the event handler's, and the cache of summaries *)

Record Hierarchy := mkHierarchy {
  hi_handler : Handler;
  roomid_spacehierarchy_cache : gmap bytes (option ParentSummary);
}.

Definition on_handler {A} (m : M Handler A) : M Hierarchy A := λ s,
  let '(r, h) := m (hi_handler s) in (r, mkHierarchy h (roomid_spacehierarchy_cache s)).

(** [next_room_to_traverse]: the stacks have their last element first. *)
Fixpoint next_room_to_traverse (stack : list (list (bytes * list bytes))) (parents : list bytes)
    : option (bytes * list bytes) * list (list (bytes * list bytes)) * list bytes :=
  match stack with
  | [] => (None, [], parents)
  | level :: stack' =>
      match reverse level with
      | [] => next_room_to_traverse stack' (tail parents)
      | room :: rest => (Some room, reverse rest :: stack', parents)
      end
  end.

Section spaces.
Context {RU : Ruma} {LR : LruCache} {HO : HashOrder} {MO : MapOrder} {CT : Contents} {RV : RoomVersions} {EC : EventChecks}.
Context {SC : SpaceContents} {SR : SpaceRemote}.
Context `{JP : !Json PduEvent} `{JV : !Json Value}.
(** [RoomId::server_name]. *)
Context (room_server_name : bytes → option bytes).

Definition on_hdb {A} (m : M Db A) : M Hierarchy A := on_handler (hdb m).

(** [unwrap_or_default] on a test. *)
Definition or_false (m : M Hierarchy bool) : M Hierarchy bool := o ← try_ok m; mret (default false o).

Definition cache_summary (room : bytes) (s : option ParentSummary) : M Hierarchy unit :=
  modify (λ h, mkHierarchy (hi_handler h) (lru_insert room s (roomid_spacehierarchy_cache h))).

(** Whether one of the rooms of a restricted rule lets the identifier in. *)
Fixpoint any_allowed (identifier : Identifier) (rooms : list bytes) : M Hierarchy bool :=
  match rooms with
  | [] => mret false
  | room :: rooms =>
      b ← or_false (on_hdb match identifier with
        | IdUser user => is_joined user room
        | IdServer server => server_in_room server room
        end);
      if (b : bool) then mret true else any_allowed identifier rooms
  end.

(** With the given identifier, checks if a room is accessible. *)
Definition is_accessible_child (current_room : bytes) (join_rule : JoinRuleSummary) (identifier : Identifier) : M Hierarchy bool :=
  decided ← match identifier with
    | IdServer server_name =>
        r ← try_ok (on_handler (acl_check server_name current_room));
        mret (match r with None => Some false | Some _ => None end)
    | IdUser user_id =>
        j ← or_false (on_hdb (is_joined user_id current_room));
        if (j : bool) then mret (Some true) else
        i ← or_false (on_hdb (is_invited user_id current_room));
        mret (if (i : bool) then Some true else None)
    end;
  match decided with
  | Some b => mret b
  | None =>
      match join_rule with
      | SRestricted allowed_room_ids => any_allowed identifier allowed_room_ids
      | SPublic | SKnock | SKnockRestricted _ => mret true
      | SInvite | SPrivate => mret false
      | SCustom _ => mret false
      end
  end.

(** The stripped m.space.child events of a room. *)
Definition get_stripped_space_child_events (room_id : bytes) : M Db (option (list Value)) :=
  o ← get_room_shortstatehash room_id;
  match o with
  | None => mret None
  | Some current_shortstatehash =>
      state ← state_full_ids current_shortstatehash;
      children_pdus ← foldM (λ children_pdus '(key, id),
        '(event_type, state_key) ← get_statekey_from_short key;
        if bool_decide (event_type ≠ lit "m.space.child") then mret children_pdus else
        o ← get_pdu id;
        pdu ← lift (ok_or o (BadDatabase "Event in space state not found"));
        match space_child_via (pdu_content pdu) with
        | None | Some [] => mret children_pdus
        | Some _ =>
            if room_id_ok state_key then
              child ← lift (to_stripped_spacechild_state_event pdu);
              mret (children_pdus ++ [child])
            else mret children_pdus
        end) [] (map_iter state);
      mret (Some children_pdus)
  end.

(** A field of the summary, from the state event of a type. *)
Definition summary_field {A} (room_id kind : bytes) (missing : A) (parse : bytes → option A) (msg : string) : M Hierarchy A :=
  o ← on_hdb (room_state_get room_id kind []);
  lift (content_or missing parse msg o).

Definition get_room_summary (current_room : bytes) (children_state : list Value) (identifier : Identifier) : M Hierarchy ParentSummary :=
  join_rule ← summary_field current_room (lit "m.room.join_rules") JInvite join_rule_of "Invalid room join rule event in database.";
  accessible ← is_accessible_child current_room (rule_summary join_rule) identifier;
  if negb accessible then fail (BadRequest Forbidden "User is not allowed to see the room") else
  canonical_alias ← summary_field current_room (lit "m.room.canonical_alias") None canonical_alias_of "Invalid canonical alias event in database.";
  name ← on_hdb (get_name current_room);
  o ← on_hdb (room_joined_count current_room);
  let num_joined_members := default 0 o in
  assert (num_joined_members <=? UINT_MAX);;
  topic ← summary_field current_room (lit "m.room.topic") None (λ c, Some <$> topic_of c) "Invalid room topic event in database.";
  world ← on_hdb (world_readable current_room);
  guest ← on_hdb (guest_can_join current_room);
  avatar_url ← summary_field current_room (lit "m.room.avatar") None avatar_of "Invalid room avatar event in database.";
  room_type ← summary_field current_room (lit "m.room.create") None room_type_of "Invalid room create event in database.";
  encryption ← on_hdb (room_state_get current_room (lit "m.room.encryption") []);
  room_version ← try_ok (on_hdb (get_room_version current_room));
  mret (mkParentSummary
    (mkRoomSummary current_room canonical_alias name num_joined_members topic world guest avatar_url (rule_summary join_rule) room_type
       (encryption ≫= λ pdu, encryption_of (pdu_content pdu)) room_version) children_state).

(** Gets the summary of a space using solely local information. *)
Definition get_summary_and_children_local (current_room : bytes) (identifier : Identifier) : M Hierarchy (option SummaryAccessibility) :=
  cached ← gets (λ s, Ok (roomid_spacehierarchy_cache s !! current_room));
  match cached with
  | Some (Some cached) =>
      b ← is_accessible_child current_room (rs_join_rule (summary cached)) identifier;
      mret (Some (if (b : bool) then Accessible cached else Inaccessible))
  | Some None => mret None
  | None =>
      o ← on_hdb (get_stripped_space_child_events current_room);
      match o with
      | None => mret None
      | Some children_pdus =>
          r ← try_ok (get_room_summary current_room children_pdus identifier);
          match r with
          | Some summary => cache_summary current_room (Some summary);; mret (Some (Accessible summary))
          | None => mret None
          end
      end
  end.

(** Gets the summary of a space using solely federation.  The loop over the
    children of an answer looks for the room itself, which was just cached. *)
Fixpoint get_summary_and_children_federation (current_room : bytes) (suggested_only : bool) (user_id : bytes) (via : list bytes)
    : M Hierarchy (option SummaryAccessibility) :=
  match via with
  | [] => cache_summary current_room None;; mret None
  | server :: via =>
      match hierarchy_request server current_room suggested_only with
      | None => get_summary_and_children_federation current_room suggested_only user_id via
      | Some (room, children) =>
          cache_summary current_room (Some room);;
          for_each children (λ child,
            present ← gets (λ s, Ok (bool_decide (is_Some (roomid_spacehierarchy_cache s !! current_room))));
            if (present : bool) then mret tt else
            o ← on_hdb (get_stripped_space_child_events (rs_room_id child));
            children_state ← lift (expect o);
            cache_summary current_room (Some (mkParentSummary child children_state)));;
          b ← is_accessible_child current_room (rs_join_rule (summary room)) (IdUser user_id);
          mret (Some (if (b : bool) then Accessible room else Inaccessible))
      end
  end.

(** Gets the summary of a space using either local or remote sources. *)
Definition get_summary_and_children_client (current_room : bytes) (suggested_only : bool) (user_id : bytes) (via : list bytes)
    : M Hierarchy (option SummaryAccessibility) :=
  r ← try_ok (get_summary_and_children_local current_room (IdUser user_id));
  match r with
  | Some (Some response) => mret (Some response)
  | _ => get_summary_and_children_federation current_room suggested_only user_id via
  end.

Definition child_before (a b : ChildEvent) : Prop := child_le a b = true.

#[global] Instance child_before_dec : RelDecision child_before.
Proof. intros a b. unfold child_before. destruct (child_le a b); [by left|by right]. Defined.

(** The children, the one to visit first last. *)
Definition get_parent_children_via (parent : ParentSummary) (suggested_only : bool) : list (bytes * list bytes) :=
  let children := bfilter (λ child, negb suggested_only || ch_suggested child) (omap child_of (children_state parent)) in
  (λ child, (ch_state_key child, ch_via child)) <$> reverse (merge_sort child_before children).

(** ** Over federation *)

Record FederationHierarchy := mkFedHierarchy {
  fh_room : ParentSummary;
  fh_children : list RoomSummary;
  fh_inaccessible_children : list bytes;
}.

Definition get_federation_hierarchy (room_id server_name : bytes) (suggested_only : bool) : M Hierarchy FederationHierarchy :=
  o ← get_summary_and_children_local room_id (IdServer server_name);
  match o with
  | Some (Accessible room) =>
      '(children, inaccessible_children) ← foldM (λ '(children, inaccessible) '(child, _),
        o ← get_summary_and_children_local child (IdServer server_name);
        mret (match o with
          | Some (Accessible s) => (children ++ [summary s], inaccessible)
          | Some Inaccessible => (children, inaccessible ++ [child])
          | None => (children, inaccessible)
          end)) ([], []) (get_parent_children_via room suggested_only);
      mret (mkFedHierarchy room children inaccessible_children)
  | Some Inaccessible => fail (BadRequest NotFound "The requested room is inaccessible")
  | None => fail (BadRequest NotFound "The requested room was not found")
  end.

Definition federation_get_hierarchy_route (sender_servername room_id : bytes) (suggested_only : bool) : M Hierarchy FederationHierarchy :=
  ex ← on_hdb (room_exists room_id);
  if (ex : bool) then get_federation_hierarchy room_id sender_servername suggested_only
  else fail (BadRequest NotFound "Room does not exist.").

(** ** For clients *)

Record ClientHierarchy := mkClientHierarchy { cl_next_batch : option bytes; cl_rooms : list ParentSummary }.

(** The walk: the stacks, with their last element first, whether rooms are
    collected yet, and the rooms. *)
Record HWalk := mkHWalk {
  hw_stack : list (list (bytes * list bytes));
  hw_parents : list bytes;
  hw_populate : bool;
  hw_results : list ParentSummary;
}.

(** The [take_while] that cuts the children off after the one the token names. *)
Fixpoint cut_children (wanted : option Z) (prev_child_in_short_ids : bool) (children : list (bytes * list bytes))
    : M Hierarchy (list (bytes * list bytes)) :=
  match children with
  | [] => mret []
  | (room, via) :: children =>
      r ← try_ok (on_hdb (get_shortroomid room));
      match r with
      | None => mret []
      | Some short =>
          if prev_child_in_short_ids then mret [] else
          rest ← cut_children wanted (bool_decide (short = wanted)) children;
          mret ((room, via) :: rest)
      end
  end.

(** One room of the walk; [rest] is the stack without it. *)
Definition visit_room (sender_user root : bytes) (short_room_ids : list Z) (max_depth : nat) (suggested_only : bool)
    (current_room : bytes) (via : list bytes) (w : HWalk) : M Hierarchy HWalk :=
  o ← get_summary_and_children_client current_room suggested_only sender_user via;
  match o with
  | Some (Accessible summary) =>
      let parents := hw_parents w in
      let children := bfilter (λ c, forallb (λ parent, negb (bool_decide (parent = c.1))) parents) (get_parent_children_via summary suggested_only) in
      '(children, w) ← (if hw_populate w then mret (children, mkHWalk (hw_stack w) parents true (hw_results w ++ [summary])) else
        children ← cut_children (short_room_ids !! length parents) false children;
        if bool_decide (children = []) then fail (BadRequest InvalidParam "Short room ids in token were not found.") else
        (* We have reached the room after where we last left off *)
        mret (children, mkHWalk (hw_stack w) parents (bool_decide (length parents + 1 = length short_room_ids)%nat) (hw_results w)));
      if negb (bool_decide (children = [])) && bool_decide (length parents < max_depth)%nat
      then mret (mkHWalk (children :: hw_stack w) (current_room :: parents) (hw_populate w) (hw_results w))
      else mret w
  | Some Inaccessible =>
      if bool_decide (current_room = root) then fail (BadRequest Forbidden "The requested room is inaccessible") else mret w
  | None =>
      if bool_decide (current_room = root) then fail (BadRequest Forbidden "The requested room was not found") else mret w
  end.

(** The loop; [None] when the fuel does not suffice. *)
Fixpoint hierarchy_loop (fuel : nat) (sender_user root : bytes) (limit : nat) (short_room_ids : list Z) (max_depth : nat) (suggested_only : bool) (w : HWalk)
    : M Hierarchy (option HWalk) :=
  match fuel with
  | O => mret None
  | S fuel =>
      let '(next, stack, parents) := next_room_to_traverse (hw_stack w) (hw_parents w) in
      let w := mkHWalk stack parents (hw_populate w) (hw_results w) in
      match next with
      | None => mret (Some w)
      | Some (current_room, via) =>
          if bool_decide (length (hw_results w) < limit)%nat then
            w ← visit_room sender_user root short_room_ids max_depth suggested_only current_room via w;
            hierarchy_loop fuel sender_user root limit short_room_ids max_depth suggested_only w
          else mret (Some w)
      end
  end.

(** The token of the next page, from the stacks the loop leaves. *)
Definition next_batch_token (limit max_depth : nat) (suggested_only : bool) (w : HWalk) : M Hierarchy (option bytes) :=
  let '(next, _, parents) := next_room_to_traverse (hw_stack w) (hw_parents w) in
  match next with
  | None => mret None
  | Some (room, _) =>
      ids ← foldM (λ ids room, id ← on_hdb (get_or_create_shortroomid room); mret (ids ++ [id])) []
        (tail (reverse (room :: parents)));
      mret (Some (token_to_string (mkToken ids (Z.of_nat limit) (Z.of_nat max_depth) suggested_only)))
  end.

Definition get_client_hierarchy (fuel : nat) (sender_user room_id : bytes) (limit : nat) (short_room_ids : list Z) (max_depth : nat)
    (suggested_only : bool) : M Hierarchy (option ClientHierarchy) :=
  let via := match room_server_name room_id with Some server_name => [server_name] | None => [] end in
  o ← hierarchy_loop fuel sender_user room_id limit short_room_ids max_depth suggested_only
    (mkHWalk [[(room_id, via)]] [] (bool_decide (short_room_ids = [])) []);
  match o with
  | None => mret None
  | Some w =>
      next_batch ← next_batch_token limit max_depth suggested_only w;
      mret (Some (mkClientHierarchy next_batch (hw_results w)))
  end.

(** [get_hierarchy_route]. *)
Definition get_hierarchy_route (fuel : nat) (sender_user room_id : bytes) (limit max_depth : option Z) (from : option bytes) (suggested : bool)
    : M Hierarchy (option ClientHierarchy) :=
  let limit := Z.min (default 10 limit) 100 in
  let max_depth := Z.min (default 3 max_depth) 10 in
  let key := match from with Some s => ok (token_from_str s) | None => None end in
  (* Should prevent unexpected behaviour in (bad) clients *)
  (match key with
   | Some token =>
       if negb (Bool.eqb (suggested_only token) suggested) || negb (depth_of token =? max_depth)
       then fail (BadRequest InvalidParam "suggested_only and max_depth cannot change on paginated requests") else mret tt
   | None => mret tt
   end);;
  get_client_hierarchy fuel sender_user room_id (Z.to_nat limit) (from_option short_room_ids [] key) (Z.to_nat max_depth) suggested.
End spaces.

(** * Tokens *)

Lemma split_on_none c s : c ∉ s → split_on c s = [s].
Proof.
  induction s as [|b s IH]; intros Hc; [done|]. apply not_elem_of_cons in Hc as [Hb Hs]. cbn [split_on].
  rewrite (proj2 (Z.eqb_neq b c)) by congruence. by rewrite IH.
Qed.

Lemma split_on_app c x y : c ∉ x → split_on c (x ++ c :: y) = x :: split_on c y.
Proof.
  induction x as [|b x IH]; intros Hc; cbn [app split_on]; [by rewrite Z.eqb_refl|].
  apply not_elem_of_cons in Hc as [Hb Hx]. rewrite (proj2 (Z.eqb_neq b c)) by congruence. by rewrite IH.
Qed.

Lemma split_on_join c l : l ≠ [] → Forall (λ x, c ∉ x) l → split_on c (join_with c l) = l.
Proof.
  intros Hne Hl. induction l as [|x [|y l] IH]; [done| |].
  - apply Forall_cons in Hl as [Hx _]. by apply (split_on_none c x).
  - apply Forall_cons in Hl as [Hx Hl]. cbn [join_with] in *. rewrite split_on_app by done. by rewrite IH.
Qed.

Lemma join_with_not_elem c c' l : c ≠ c' → Forall (λ x, c ∉ x) l → c ∉ join_with c' l.
Proof.
  intros Hne. induction l as [|x [|y l] IH]; intros Hl; [apply not_elem_of_nil| |]; apply Forall_cons in Hl as [Hx Hl]; cbn [join_with] in *; [done|].
  rewrite elem_of_app, elem_of_cons. naive_solver.
Qed.

Lemma to_string_no c n : is_u64 n → is_digit c = false → c ∉ to_string n.
Proof.
  intros [Hn _] Hc Hin. pose proof (to_string_digits n Hn) as Hd. rewrite Forall_forall in Hd. by rewrite (Hd c Hin) in Hc.
Qed.

Lemma mapM_parse_to_string l : Forall is_u64 l → mapM parse_u64 (to_string <$> l) = Some l.
Proof. induction 1 as [|n l Hn _ IH]; [done|].
  change (mapM parse_u64 (to_string <$> n :: l)) with (y ← parse_u64 (to_string n); k ← mapM parse_u64 (to_string <$> l); Some (y :: k)).
  by rewrite parse_to_string, IH. Qed.

Lemma parse_uint_to_string n : 0 ≤ n ≤ UINT_MAX → parse_uint (to_string n) = Some n.
Proof.
  intros Hn. unfold parse_uint. rewrite parse_to_string by (unfold is_u64, u64_max, UINT_MAX in *; lia). cbn.
  by rewrite (proj2 (Z.leb_le _ _)) by lia.
Qed.

(** A pagination token that was printed is read back, as long as it names a
    room; a token without rooms, whose text is otherwise well-formed, is
    refused. *)
Theorem pagination_token_roundtrip t :
  Forall is_u64 (short_room_ids t) → 0 ≤ limit t ≤ UINT_MAX → 0 ≤ max_depth t ≤ UINT_MAX →
  token_from_str (token_to_string t) =
    if bool_decide (short_room_ids t = []) then Err (BadRequest InvalidParam "invalid token") else Ok t.
Proof.
  intros Hr Hl Hm. unfold token_from_str, token_to_string.
  assert (∀ n, 0 ≤ n ≤ UINT_MAX → underscore ∉ to_string n) as Hu by (intros n Hn; apply to_string_no; [unfold is_u64, u64_max, UINT_MAX in *; lia|done]).
  rewrite split_on_app.
  2:{ apply join_with_not_elem; [done|]. apply Forall_fmap. eapply Forall_impl; [exact Hr|]. intros n Hn. by apply to_string_no. }
  rewrite split_on_app by (by apply Hu). rewrite split_on_app by (by apply Hu).
  rewrite split_on_none by (destruct (suggested_only t); cbn; intros H; repeat (apply elem_of_cons in H as [H|H]; [discriminate H|]); by apply elem_of_nil in H).
  destruct (short_room_ids t) as [|i ids] eqn:E; [done|]. rewrite bool_decide_eq_false_2 by done.
  rewrite split_on_join; [|done|].
  2:{ rewrite <-E in Hr |- *. apply Forall_fmap. eapply Forall_impl; [exact Hr|]. intros n Hn. by apply to_string_no. }
  rewrite mapM_parse_to_string by done. cbn [mbind option_bind]. rewrite !parse_uint_to_string by done. cbn [mbind option_bind].
  destruct t as [ids' l m sg]. cbn in *. subst. by destruct sg.
Qed.

Lemma pagination_token_roundtrip_witness : token_from_str (lit "9,34_3_1_true") = Ok (mkToken [9; 34] 3 1 true).
Proof.
  apply (pagination_token_roundtrip (mkToken [9; 34] 3 1 true)).
  - repeat constructor; unfold u64_max; lia.
  - cbn. unfold UINT_MAX. lia.
  - cbn. unfold UINT_MAX. lia.
Defined.

(** * The walk *)

Section walk.
Context {RU : Ruma} {LR : LruCache} {HO : HashOrder} {MO : MapOrder} {CT : Contents} {RV : RoomVersions} {EC : EventChecks}.
Context {SC : SpaceContents} {SR : SpaceRemote} {JP : Json PduEvent} {JV : Json Value}.

Definition hi_db (h : Hierarchy) : Db := sv_db (h_server (hi_handler h)).

(** Who may see a room with a join rule. *)
Definition member (t : Table) (d : Db) (user room : bytes) : Prop := is_Some (kv d t !! get_userroom_id_bytes user room).

Definition may_see (d : Db) (user room : bytes) (rule : JoinRuleSummary) : Prop :=
  member userroomid_joined d user room ∨ member userroomid_invitestate d user room ∨
  match rule with
  | SPublic | SKnock | SKnockRestricted _ => True
  | SRestricted rooms => ∃ r, r ∈ rooms ∧ member userroomid_joined d user r
  | SInvite | SPrivate | SCustom _ => False
  end.

Lemma on_hdb_pure {A} (m : M Db A) h : (m (hi_db h)).2 = hi_db h → on_hdb m h = ((m (hi_db h)).1, h).
Proof.
  unfold on_hdb, on_handler, hdb, hs, db_, on_sender, with_db, hi_db, sv_db. destruct h as [[[[d ? ? ? ?] ? ?] ? ? ? ?] ?]. cbn.
  destruct (m d) as [r d']. cbn. by intros ->.
Qed.

Lemma has_userroom_test t user room h :
  or_false (on_hdb (has_userroom t user room)) h = (Ok (bool_decide (member t (hi_db h) user room)), h).
Proof. unfold or_false. rewrite (bind_ok _ _ _ (Some (bool_decide (member t (hi_db h) user room))) h); [done|]. unfold try_ok. by rewrite on_hdb_pure. Qed.

Lemma any_allowed_spec user rooms h : any_allowed (IdUser user) rooms h =
  (Ok (bool_decide (Exists (member userroomid_joined (hi_db h) user) rooms)), h).
Proof.
  induction rooms as [|r rooms IH]; cbn [any_allowed]; [by rewrite bool_decide_eq_false_2 by (by intros H%Exists_nil)|].
  unfold is_joined. rewrite (bind_ok _ _ _ _ _ (has_userroom_test _ _ _ _)).
  destruct (decide (member userroomid_joined (hi_db h) user r)) as [Hm|Hm].
  - rewrite (bool_decide_eq_true_2 _ Hm). by rewrite bool_decide_eq_true_2 by (by apply Exists_cons; left).
  - rewrite (bool_decide_eq_false_2 _ Hm), IH. f_equal. f_equal. apply bool_decide_ext. rewrite Exists_cons. naive_solver.
Qed.

(** For a user the test is exact and changes nothing. *)
Lemma is_accessible_child_user room rule user h :
  ∃ b, is_accessible_child room rule (IdUser user) h = (Ok b, h) ∧ (b = true ↔ may_see (hi_db h) user room rule).
Proof.
  unfold is_accessible_child, is_joined, is_invited, may_see. rewrite bind_assoc, (bind_ok _ _ _ _ _ (has_userroom_test _ _ _ _)).
  case_bool_decide as Hj; [exists true; split; [done|]; naive_solver|].
  rewrite bind_assoc, (bind_ok _ _ _ _ _ (has_userroom_test _ _ _ _)). case_bool_decide as Hi; [exists true; split; [done|]; naive_solver|]. run.
  destruct rule as [| | | |rooms|rooms|x]; try (eexists; split; [done|]; naive_solver).
  rewrite any_allowed_spec. eexists. split; [done|]. rewrite bool_decide_eq_true, Exists_exists. naive_solver.
Qed.

(** ** Where a summary comes from *)

(** The states a walk goes through. *)
Definition walked (user : bytes) (sg : bool) : Hierarchy → Hierarchy → Prop :=
  rtc (λ h h', ∃ room via, h' = (get_summary_and_children_client room sg user via h).2).

(** The summary of a room from its state: its own room, its children and its
    join rule, [invite] when it has none. *)
Definition LocalSummary (room : bytes) (h : Hierarchy) (s : ParentSummary) : Prop :=
  ∃ o rule h1 h2,
    on_hdb (get_stripped_space_child_events room) h = (Ok (Some (children_state s)), h1) ∧
    on_hdb (room_state_get room (lit "m.room.join_rules") []) h1 = (Ok o, h2) ∧
    match o with Some ev => join_rule_of (pdu_content ev) | None => Some JInvite end = Some rule ∧
    rs_room_id (summary s) = room ∧ rs_join_rule (summary s) = rule_summary rule.

(** A summary that another server gave when it was asked for the room.  (When
    a cache drops a room at once, the loop over the children of an answer caches
    their summaries under the room.) *)
Definition Answered (sg : bool) (room : bytes) (s : ParentSummary) : Prop :=
  ∃ server parent children, hierarchy_request server room sg = Some (parent, children) ∧ (s = parent ∨ summary s ∈ children).

(** A summary the server has of a room: it was cached when the walk began, is
    read from the room's state, or was answered by another server. *)
Inductive SummaryOf (user : bytes) (sg : bool) (h : Hierarchy) (room : bytes) (s : ParentSummary) : Prop :=
  | of_cache : roomid_spacehierarchy_cache h !! room = Some (Some s) → SummaryOf user sg h room s
  | of_state h1 : walked user sg h h1 → LocalSummary room h1 s → SummaryOf user sg h room s
  | of_server : Answered sg room s → SummaryOf user sg h room s.

(** The trees are [K] and every cached summary has [P]. *)
Definition Holds (K : Table → Tree) (P : bytes → ParentSummary → Prop) (h : Hierarchy) : Prop :=
  kv (hi_db h) = K ∧ ∀ room s, roomid_spacehierarchy_cache h !! room = Some (Some s) → P room s.

Lemma may_see_trees d d' user room rule : kv d = kv d' → may_see d user room rule → may_see d' user room rule.
Proof. unfold may_see, member. by intros ->. Qed.

Lemma holds_on_hdb {A} (m : M Db A) K P : keeps_kv m → preserves (Holds K P) (on_hdb m).
Proof.
  intros Hm [[[[d ? ? ? ?] ? ?] ? ? ? ?] c] [<- HP]. unfold Holds, on_hdb, on_handler, hdb, hs, db_, on_sender, with_db, hi_db, sv_db in *. cbn in *.
  specialize (Hm d). destruct (m d). by split.
Qed.

Lemma holds_cache room o K (P : bytes → ParentSummary → Prop) : (∀ s, o = Some s → P room s) → preserves (Holds K P) (cache_summary room o).
Proof.
  intros Ho h [HK HP]. split; [exact HK|]. cbn [snd cache_summary modify roomid_spacehierarchy_cache]. intros room' s Hs.
  pose proof (lookup_weaken _ _ _ _ Hs (lru_insert_sub _ _ _)) as Hw. apply lookup_insert_Some in Hw as [[<- Hw]|[_ Hw]]; eauto.
Qed.

Lemma holds_accessible room rule user K P : preserves (Holds K P) (is_accessible_child room rule (IdUser user)).
Proof. intros h Hh. destruct (is_accessible_child_user room rule user h) as (b & -> & _). done. Qed.

Lemma keeps_children room : keeps_kv (get_stripped_space_child_events room).
Proof.
  unfold get_stripped_space_child_events, get_room_shortstatehash, get_statekey_from_short, state_full_ids, load_full_state, parse_compressed_state_event. keeps;
    first [apply keeps_load_shortstatehash_info|apply keeps_get_eventid_from_short|apply keeps_get_pdu].
Qed.

#[local] Hint Resolve keeps_room_state_get : keeps.

Lemma holds_field {A} room kind (missing : A) parse msg K P : preserves (Holds K P) (summary_field room kind missing parse msg).
Proof. apply preserves_bind; [apply holds_on_hdb, keeps_room_state_get|intros; apply preserves_lift]. Qed.

Lemma holds_summary room ch user K P : preserves (Holds K P) (get_room_summary room ch (IdUser user)).
Proof.
  unfold get_room_summary.
  repeat first [ progress (intros; cbv zeta) | apply holds_field | apply holds_accessible | apply preserves_bind | apply preserves_ret | apply preserves_fail | apply preserves_assert
    | apply preserves_try_ok | apply holds_on_hdb | match goal with |- preserves _ (if ?x then _ else _) => destruct x end ].
  all: unfold get_name, room_joined_count, world_readable, guest_can_join, get_room_version; keeps.
Qed.

Lemma accessible_sees room rule user h h' : is_accessible_child room rule (IdUser user) h = (Ok true, h') → may_see (hi_db h) user room rule.
Proof. intros H. destruct (is_accessible_child_user room rule user h) as (b & E & Hb). rewrite E in H. injection H as -> _. by apply Hb. Qed.

Lemma room_summary_run room ch user h s h' :
  get_room_summary room ch (IdUser user) h = (Ok s, h') →
  (∃ o rule h2, on_hdb (room_state_get room (lit "m.room.join_rules") []) h = (Ok o, h2) ∧
    match o with Some ev => join_rule_of (pdu_content ev) | None => Some JInvite end = Some rule ∧
    rs_room_id (summary s) = room ∧ rs_join_rule (summary s) = rule_summary rule ∧ children_state s = ch) ∧
  may_see (hi_db h) user room (rs_join_rule (summary s)).
Proof.
  unfold get_room_summary. intros (rule & h1 & Hrule & H)%bind_inv. apply bind_inv in H as (b & h2 & Hb & H). destruct b; [|done].
  do 11 (apply bind_inv in H as (? & ? & _ & H)). injection H as <- <-. cbn [summary rs_join_rule rs_room_id children_state].
  pose proof (holds_field room (lit "m.room.join_rules") JInvite join_rule_of "Invalid room join rule event in database." (kv (hi_db h)) (λ _ _, True) h (conj eq_refl (λ _ _ _, I))) as Hk.
  rewrite Hrule in Hk. apply accessible_sees in Hb. split; [|eapply may_see_trees; [exact (proj1 Hk)|exact Hb]].
  apply bind_inv in Hrule as (o & h3 & Ho & Hr). exists o, rule, h3. split; [done|]. split; [|done].
  injection Hr as Hr _. unfold content_or, ok_or in Hr. destruct o as [ev|]; [|by injection Hr as ->]. destruct (join_rule_of (pdu_content ev)); [by injection Hr as ->|done].
Qed.

Lemma local_run room user h K (P : bytes → ParentSummary → Prop) :
  Holds K P h → (∀ s, LocalSummary room h s → P room s) →
  Holds K P (get_summary_and_children_local room (IdUser user) h).2 ∧
  ∀ s, (get_summary_and_children_local room (IdUser user) h).1 = Ok (Some (Accessible s)) → P room s ∧ may_see (hi_db h) user room (rs_join_rule (summary s)).
Proof.
  intros Hh HP. unfold get_summary_and_children_local. rewrite (bind_ok _ _ _ (roomid_spacehierarchy_cache h !! room) h) by done.
  destruct (roomid_spacehierarchy_cache h !! room) as [[c|]|] eqn:Ec; [|done|].
  - destruct (is_accessible_child_user room (rs_join_rule (summary c)) user h) as (b & E & Hb). rewrite (bind_ok _ _ _ _ _ E). split; [done|].
    destruct b; [|done]. cbn. intros s [= <-]. split; [by apply Hh|by apply Hb].
  - pose proof (holds_on_hdb _ K P (keeps_children room) h Hh) as H1.
    destruct (on_hdb (get_stripped_space_child_events room) h) as [[[ch|]| |] h1] eqn:E1; cbn in H1;
      [rewrite (bind_ok _ _ _ _ _ E1)|rewrite (bind_ok _ _ _ _ _ E1)|rewrite (bind_err _ _ _ _ _ E1)|rewrite (bind_panic _ _ _ _ E1)]; [|done..].
    pose proof (holds_summary room ch user K P h1 H1) as H2.
    destruct (get_room_summary room ch (IdUser user) h1) as [[s| |] h2] eqn:E2; cbn in H2;
      [rewrite (bind_ok _ _ _ (Some s) h2)|rewrite (bind_ok _ _ _ None h2)|rewrite (bind_panic _ _ _ h2)]; try (unfold try_ok; by rewrite E2); [|done..].
    apply room_summary_run in E2 as [(o & rule & h3 & Ho & Hr & Hid & Hj & Hc) Hsee].
    assert (LocalSummary room h s) as Hl by (exists o, rule, h1, h3; by rewrite Hc). split.
    + by apply (holds_cache room (Some s) K P ltac:(intros ? [= <-]; by apply HP) h2 H2).
    + cbn. intros s' [= <-]. split; [by apply HP|]. eapply may_see_trees; [|exact Hsee]. by rewrite (proj1 H1), (proj1 Hh).
Qed.

Lemma federation_run room sg user via K (P : bytes → ParentSummary → Prop) h :
  Holds K P h → (∀ s, Answered sg room s → P room s) →
  Holds K P (get_summary_and_children_federation room sg user via h).2 ∧
  ∀ s, (get_summary_and_children_federation room sg user via h).1 = Ok (Some (Accessible s)) → P room s ∧ may_see (hi_db h) user room (rs_join_rule (summary s)).
Proof.
  intros Hh HP. revert h Hh. induction via as [|server via IH]; intros h Hh; cbn [get_summary_and_children_federation].
  - split; [|done]. by apply (holds_cache room None K P ltac:(done) h).
  - destruct (hierarchy_request server room sg) as [[x children]|] eqn:Eq; [|by apply IH].
    assert (P room x) as Hx by (apply HP; exists server, x, children; by eauto).
    pose proof (holds_cache room (Some x) K P ltac:(by intros ? [= <-]) h Hh) as H1. rewrite (bind_ok _ _ _ tt (cache_summary room (Some x) h).2) by done.
    set (h1 := (cache_summary room (Some x) h).2) in *.
    set (loop := for_each children _).
    assert (preserves (Holds K P) loop) as Hloop.
    { apply preserves_for_each_in. intros child Hin. apply preserves_bind; [apply preserves_gets|]. intros [|]; [apply preserves_ret|].
      apply preserves_bind; [apply holds_on_hdb, keeps_children|]. intros o. apply preserves_lift_bind. intros cs _. apply holds_cache.
      intros s [= <-]. apply HP. exists server, x, children. by eauto. }
    pose proof (Hloop h1 H1) as H2. destruct (loop h1) as [[u| |] h2] eqn:El; cbn in H2;
      [rewrite (bind_ok _ _ _ _ _ El)|rewrite (bind_err _ _ _ _ _ El); done|rewrite (bind_panic _ _ _ _ El); done].
    destruct (is_accessible_child_user room (rs_join_rule (summary x)) user h2) as (b & E & Hb). rewrite (bind_ok _ _ _ _ _ E). split; [done|].
    destruct b; [|done]. cbn. intros s [= <-]. split; [done|]. eapply may_see_trees; [|by apply Hb]. by rewrite (proj1 H2), (proj1 Hh).
Qed.

(** A state of the walk from [h0]. *)
Definition Walking (user : bytes) (sg : bool) (h0 h : Hierarchy) : Prop :=
  walked user sg h0 h ∧ Holds (kv (hi_db h0)) (SummaryOf user sg h0) h.

Lemma client_run room sg user via h0 h r h' :
  Walking user sg h0 h → get_summary_and_children_client room sg user via h = (r, h') →
  Walking user sg h0 h' ∧
  ∀ s, r = Ok (Some (Accessible s)) → SummaryOf user sg h0 room s ∧ may_see (hi_db h0) user room (rs_join_rule (summary s)).
Proof.
  intros [Hw Hh] H. assert (walked user sg h0 h') as Hw'. { eapply rtc_r; [exact Hw|]. exists room, via. by rewrite H. }
  destruct (local_run room user h _ _ Hh (λ s Hs, of_state _ _ _ _ _ h Hw Hs)) as [H1 Hs1].
  assert (∀ d s, kv d = kv (hi_db h0) → may_see d user room (rs_join_rule (summary s)) → may_see (hi_db h0) user room (rs_join_rule (summary s))) as Hsee
    by (intros; by eapply may_see_trees).
  unfold get_summary_and_children_client in H.
  destruct (get_summary_and_children_local room (IdUser user) h) as [[x| |] h1] eqn:E; cbn in H1, Hs1.
  - rewrite (bind_ok _ _ _ (Some x) h1) in H by (unfold try_ok; by rewrite E). destruct x as [x|].
    + injection H as <- <-. split; [by split|]. intros s [= ->]. destruct (Hs1 s eq_refl). split; [done|]. by eapply Hsee, H0; apply Hh.
    + destruct (federation_run room sg user via _ _ h1 H1 (of_server user sg h0 room)) as [H2 Hs2]. rewrite H in H2, Hs2. split; [by split|].
      intros s ->. destruct (Hs2 s eq_refl) as [? Hm]. split; [done|]. by eapply Hsee, Hm; apply H1.
  - rewrite (bind_ok _ _ _ None h1) in H by (unfold try_ok; by rewrite E).
    destruct (federation_run room sg user via _ _ h1 H1 (of_server user sg h0 room)) as [H2 Hs2]. rewrite H in H2, Hs2. split; [by split|].
    intros s ->. destruct (Hs2 s eq_refl) as [? Hm]. split; [done|]. by eapply Hsee, Hm; apply H1.
  - rewrite (bind_panic _ _ _ h1) in H by (unfold try_ok; by rewrite E). injection H as <- <-. by split.
Qed.

(** A summary that is shown: the server has it of a room that the user, by the
    trees the walk began with, may see under the join rule it is shown with. *)
Definition shown (user : bytes) (sg : bool) (h : Hierarchy) (s : ParentSummary) : Prop :=
  ∃ room, SummaryOf user sg h room s ∧ may_see (hi_db h) user room (rs_join_rule (summary s)).

Lemma cut_children_state wanted prev l h : (cut_children wanted prev l h).2 = h.
Proof.
  revert prev. induction l as [|[room via] l IH]; intros prev; cbn [cut_children]; [done|].
  assert (on_hdb (get_shortroomid room) h = ((get_shortroomid room (hi_db h)).1, h)) as E by (by apply on_hdb_pure).
  destruct (get_shortroomid room (hi_db h)).1 as [short|e|].
  - rewrite (bind_ok _ _ _ (Some short) h) by (unfold try_ok; by rewrite E). destruct prev; [done|].
    specialize (IH (bool_decide (short = wanted))). destruct (cut_children wanted _ l h) as [[y| |] h'] eqn:Ec; cbn in IH; subst h';
      [by rewrite (bind_ok _ _ _ _ _ Ec)|by rewrite (bind_err _ _ _ _ _ Ec)|by rewrite (bind_panic _ _ _ _ Ec)].
  - by rewrite (bind_ok _ _ _ None h) by (unfold try_ok; by rewrite E).
  - by rewrite (bind_panic _ _ _ h) by (unfold try_ok; by rewrite E).
Qed.

Lemma visit_room_shown user root ids depth sg room via w h0 h w' h' :
  Walking user sg h0 h → visit_room user root ids depth sg room via w h = (Ok w', h') →
  Walking user sg h0 h' ∧ (hw_results w' = hw_results w ∨ ∃ s, hw_results w' = hw_results w ++ [s] ∧ shown user sg h0 s).
Proof.
  unfold visit_room. intros Hw (o & h1 & Ho & H)%bind_inv. destruct (client_run _ _ _ _ _ _ _ _ Hw Ho) as [Hw1 Hs]. destruct o as [[s|]|].
  - apply bind_inv in H as ([children w1] & h2 & H1 & H).
    assert (hw_results w' = hw_results w1 ∧ h' = h2) as [-> ->] by (destruct (_ && _); by injection H as <- <-). destruct (hw_populate w).
    + injection H1 as _ <- <-. split; [done|]. right. exists s. split; [done|]. exists room. by apply Hs.
    + apply bind_inv in H1 as (c & h3 & Hc & H1). destruct (bool_decide _); [done|]. injection H1 as _ <- <-.
      apply (f_equal snd) in Hc. rewrite cut_children_state in Hc. cbn in Hc. subst h3. split; [done|by left].
  - destruct (bool_decide _); [done|]. injection H as <- <-. split; [done|by left].
  - destruct (bool_decide _); [done|]. injection H as <- <-. split; [done|by left].
Qed.

Lemma hierarchy_loop_shown fuel user root lim ids depth sg w h0 h w' h' :
  Walking user sg h0 h → hierarchy_loop fuel user root lim ids depth sg w h = (Ok (Some w'), h') → Forall (shown user sg h0) (hw_results w) →
  Forall (shown user sg h0) (hw_results w') ∧ (length (hw_results w') ≤ Nat.max lim (length (hw_results w)))%nat.
Proof.
  revert w h. induction fuel as [|fuel IH]; intros w h Hw; cbn [hierarchy_loop]; [done|].
  destruct (next_room_to_traverse (hw_stack w) (hw_parents w)) as [[[[room via]|] stack] parents].
  - cbn [hw_results]. case_bool_decide as Hlim.
    + intros (w1 & h1 & Hv & H)%bind_inv Hall. apply (visit_room_shown _ _ _ _ _ _ _ _ h0) in Hv as [Hw1 [Hv|(s & Hv & Hs)]]; [..|done]; cbn [hw_results] in Hv.
      * destruct (IH _ _ Hw1 H) as [? Hle]; [by rewrite Hv|]. split; [done|]. rewrite Hv in Hle. lia.
      * destruct (IH _ _ Hw1 H) as [? Hle]; [rewrite Hv; apply Forall_app; split; [done|by constructor]|]. split; [done|].
        rewrite Hv, length_app in Hle. cbn in Hle. lia.
    + intros [= <- <-] Hall. cbn. split; [done|lia].
  - intros [= <- <-] Hall. cbn. split; [done|lia].
Qed.
End walk.

(** C33: A page of a space's hierarchy has at most as many rooms as asked for,
    and each is the summary of a room (from its state, the cache or a server
    that was asked for it) that the user may see under the join rule shown, by
    the memberships when the request came: they are in it or invited to it, or
    anyone can find it, or it is open to the members of a room they are in. *)
Theorem hierarchy_rooms_visible {RU : Ruma} {LR : LruCache} {HO : HashOrder} {MO : MapOrder} {CT : Contents} {RV : RoomVersions} {EC : EventChecks}
    {SC : SpaceContents} {SR : SpaceRemote} {JP : Json PduEvent} {JV : Json Value} room_server_name fuel user root lim ids depth sg h page h' :
  get_client_hierarchy room_server_name fuel user root lim ids depth sg h = (Ok (Some page), h') →
  (length (cl_rooms page) ≤ lim)%nat ∧ Forall (shown user sg h) (cl_rooms page).
Proof.
  unfold get_client_hierarchy. intros (o & h1 & Hl & H)%bind_inv. destruct o as [w|]; [|done].
  apply bind_inv in H as (nb & h2 & _ & H). injection H as <- <-. cbn.
  assert (Walking user sg h h) as Hw by (split; [apply rtc_refl|]; split; [done|]; intros; by apply of_cache).
  destruct (hierarchy_loop_shown _ _ _ _ _ _ _ _ _ _ _ _ Hw Hl ltac:(constructor)) as [Hs Hle]. cbn in Hle. split; [lia|done].
Qed.

(** ** Termination *)

(** The rooms below a room with [k] levels left, when every space has at most
    [B] children. *)
Fixpoint tree_size (B k : nat) : nat := match k with O => 1 | S k => 1 + B * tree_size B k end.

Fixpoint stack_weight (B depth : nat) (stack : list (list (bytes * list bytes))) : nat :=
  match stack with
  | [] => 0
  | level :: stack => length level * tree_size B (depth - length stack) + stack_weight B depth stack
  end.

Lemma tree_size_pos B k : (1 ≤ tree_size B k)%nat.
Proof. destruct k; cbn; lia. Qed.

(** Taking a room off the stacks takes its subtree off the weight. *)
Lemma next_room_weight B depth stack parents next stack' parents' :
  length stack = S (length parents) → next_room_to_traverse stack parents = (next, stack', parents') →
  match next with
  | None => True
  | Some _ => length stack' = S (length parents') ∧
      (stack_weight B depth stack' + tree_size B (depth - length parents') = stack_weight B depth stack)%nat
  end.
Proof.
  revert parents. induction stack as [|level stack IH]; intros parents Hlen; [done|]. cbn [next_room_to_traverse].
  destruct (reverse level) as [|room rest] eqn:E.
  - apply (f_equal reverse) in E. rewrite reverse_involutive in E. cbn in E. subst. intros H. destruct stack as [|l2 stack]; [by injection H as <- <- <-|].
    destruct parents as [|p parents]; [cbn in Hlen; lia|]. cbn [tail] in H. apply IH in H; [done|]. cbn in *. lia.
  - intros [= <- <- <-]. apply (f_equal length) in E. rewrite length_reverse in E. cbn in E, Hlen |- *.
    rewrite length_reverse, E. replace (length stack) with (length parents) by lia. split; [lia|lia].
Qed.

Section termination.
Context {RU : Ruma} {LR : LruCache} {HO : HashOrder} {MO : MapOrder} {CT : Contents} {RV : RoomVersions} {EC : EventChecks}.
Context {SC : SpaceContents} {SR : SpaceRemote} {JP : Json PduEvent} {JV : Json Value}.
(** An invariant of the summaries, under which a space has at most [B] children. *)
Context (user : bytes) (sg : bool) (B : nat) (Inv : Hierarchy → Prop).
Context (bounded : ∀ room via h, Inv h → Inv (get_summary_and_children_client room sg user via h).2 ∧
  ∀ s, (get_summary_and_children_client room sg user via h).1 = Ok (Some (Accessible s)) → (length (get_parent_children_via s sg) ≤ B)%nat).

Lemma cut_children_spec wanted prev l h :
  ∃ l', cut_children wanted prev l h = (Ok l', h) ∧ (length l' ≤ length l)%nat ∨ cut_children wanted prev l h = (Panic, h).
Proof.
  revert prev. induction l as [|[room via] l IH]; intros prev; cbn [cut_children]; [exists []; left; split; [done|cbn; lia]|].
  assert (on_hdb (get_shortroomid room) h = ((get_shortroomid room (hi_db h)).1, h)) as E by (by apply on_hdb_pure).
  destruct (get_shortroomid room (hi_db h)).1 as [short|e|] eqn:Eg.
  - rewrite (bind_ok _ _ _ (Some short) h) by (unfold try_ok; by rewrite E). destruct prev; [exists []; left; split; [done|cbn; lia]|].
    destruct (IH (bool_decide (short = wanted))) as (l' & [[E' Hl]|E']).
    + exists ((room, via) :: l'). left. rewrite (bind_ok _ _ _ _ _ E'). split; [done|]. cbn. lia.
    + exists []. right. by rewrite (bind_panic _ _ _ _ E').
  - rewrite (bind_ok _ _ _ None h) by (unfold try_ok; by rewrite E). exists []. left. split; [done|cbn; lia].
  - exists []. right. rewrite (bind_panic _ _ _ h); [done|]. unfold try_ok. by rewrite E.
Qed.

Lemma cut_children_stop wanted x l h : cut_children wanted true (x :: l) h = (Ok [], h).
Proof.
  destruct x as [room via]. cbn [cut_children]. assert (on_hdb (get_shortroomid room) h = ((get_shortroomid room (hi_db h)).1, h)) as E by (by apply on_hdb_pure).
  run. unfold try_ok. rewrite E. unfold get_shortroomid, get, kv_get. run. destruct (kv (hi_db h) roomid_shortroomid !! room) as [x|]; cbn; [|done].
  by destruct (u64_from_bytes x).
Qed.

(** A visit pushes at most [B] rooms, one level down. *)
Lemma visit_room_weight root ids depth room via w h w' h' :
  Inv h → length (hw_stack w) = S (length (hw_parents w)) → visit_room user root ids depth sg room via w h = (Ok w', h') →
  Inv h' ∧ length (hw_stack w') = S (length (hw_parents w')) ∧
  (stack_weight B depth (hw_stack w') < stack_weight B depth (hw_stack w) + tree_size B (depth - length (hw_parents w)))%nat.
Proof.
  intros HI Hlen. destruct (bounded room via h HI) as [HI1 Hb]. unfold visit_room. intros (o & h1 & Ho & H)%bind_inv. rewrite Ho in HI1, Hb. cbn [fst snd] in *.
  pose proof (tree_size_pos B (depth - length (hw_parents w))).
  assert (∀ w1, hw_stack w1 = hw_stack w → hw_parents w1 = hw_parents w → length (hw_stack w1) = S (length (hw_parents w1)) ∧
    (stack_weight B depth (hw_stack w1) < stack_weight B depth (hw_stack w) + tree_size B (depth - length (hw_parents w)))%nat) as Hsame.
  { intros w1 -> ->. split; [done|lia]. }
  destruct o as [[s|]|]; [|destruct (bool_decide _); [done|]; injection H as <- <-; split; [done|by apply Hsame]..].
  specialize (Hb s eq_refl). apply bind_inv in H as ([children w1] & h2 & H1 & H).
  set (all := bfilter _ _) in H1. assert (length all ≤ B)%nat as Hall by (etrans; [|exact Hb]; apply sublist_length, bfilter_sublist).
  assert (h2 = h1 ∧ hw_stack w1 = hw_stack w ∧ hw_parents w1 = hw_parents w ∧ (length children ≤ B)%nat) as (-> & E1 & E2 & Hc).
  { destruct (hw_populate w); [injection H1 as <- <- <-; by split_and!|]. apply bind_inv in H1 as (c & h3 & Hcut & H1).
    destruct (cut_children_spec (ids !! length (hw_parents w)) false all h1) as (l' & [[E Hl]|E]); rewrite E in Hcut; [|done]. injection Hcut as -> <-.
    destruct (bool_decide (c = [])); [done|]. injection H1 as <- <- <-. split_and!; try done. lia. }
  destruct (negb _ && bool_decide (length (hw_parents w) < depth)%nat) eqn:Hd; injection H as <- <-; [|split; [done|by apply Hsame]].
  apply andb_true_iff in Hd as [_ Hd%bool_decide_eq_true]. split; [done|]. cbn [hw_stack hw_parents length stack_weight].
  rewrite E1. split; [lia|]. rewrite Hlen. replace (depth - length (hw_parents w))%nat with (S (depth - S (length (hw_parents w)))) by lia.
  cbn [tree_size]. nia.
Qed.

Lemma hierarchy_loop_terminates fuel root lim ids depth w h :
  Inv h → length (hw_stack w) = S (length (hw_parents w)) → (stack_weight B depth (hw_stack w) < fuel)%nat →
  (hierarchy_loop fuel user root lim ids depth sg w h).1 ≠ Ok None.
Proof.
  revert w h. induction fuel as [|fuel IH]; intros w h HI Hlen Hf; [lia|]. cbn [hierarchy_loop].
  destruct (next_room_to_traverse (hw_stack w) (hw_parents w)) as [[next stack] parents] eqn:E.
  pose proof (next_room_weight B depth _ _ _ _ _ Hlen E) as Hw. destruct next as [[room via]|]; [|done]. destruct Hw as [Hlen' Hw].
  cbn [hw_results]. case_bool_decide; [|done].
  destruct (visit_room user root ids depth sg room via (mkHWalk stack parents (hw_populate w) (hw_results w)) h) as [[w1| |] h1] eqn:Ev.
  - rewrite (bind_ok _ _ _ _ _ Ev). apply visit_room_weight in Ev as (HI1 & Hl1 & Hw1); [|done|done]. cbn [hw_stack hw_parents] in Hw1. apply IH; [done|done|lia].
  - by rewrite (bind_err _ _ _ _ _ Ev).
  - by rewrite (bind_panic _ _ _ _ Ev).
Qed.
End termination.

(** The walk over a hierarchy ends, whatever cycles the spaces form: while
    a space has at most [B] children, it visits no more rooms than a tree of
    that width and the depth asked for (at most ten in the route) has. *)
Theorem hierarchy_walk_terminates {RU : Ruma} {LR : LruCache} {HO : HashOrder} {MO : MapOrder} {CT : Contents} {RV : RoomVersions} {EC : EventChecks}
    {SC : SpaceContents} {SR : SpaceRemote} {JP : Json PduEvent} {JV : Json Value} room_server_name (Inv : Hierarchy → Prop) B fuel user root lim ids depth sg h :
  Inv h →
  (∀ room via h, Inv h → Inv (get_summary_and_children_client room sg user via h).2 ∧
     ∀ s, (get_summary_and_children_client room sg user via h).1 = Ok (Some (Accessible s)) → (length (get_parent_children_via s sg) ≤ B)%nat) →
  (tree_size B depth < fuel)%nat →
  (get_client_hierarchy room_server_name fuel user root lim ids depth sg h).1 ≠ Ok None.
Proof.
  intros HI Hb Hf. unfold get_client_hierarchy. set (w := mkHWalk _ _ _ _).
  pose proof (hierarchy_loop_terminates user sg B Inv Hb fuel root lim ids depth w h HI eq_refl) as Ht.
  destruct (hierarchy_loop fuel user root lim ids depth sg w h) as [[o| |] h1] eqn:E.
  - rewrite (bind_ok _ _ _ _ _ E). destruct o as [w1|].
    + destruct (next_batch_token lim depth sg w1 h1) as [[nb| |] h2] eqn:En; [rewrite (bind_ok _ _ _ _ _ En)|rewrite (bind_err _ _ _ _ _ En)|rewrite (bind_panic _ _ _ _ En)]; done.
    + exfalso. apply Ht; [|done]. subst w. cbn. rewrite Nat.sub_0_r. lia.
  - by rewrite (bind_err _ _ _ _ _ E).
  - by rewrite (bind_panic _ _ _ _ E).
Qed.

(** ** Page boundaries *)

Lemma cached_public_visible {RU : Ruma} {LR : LruCache} {HO : HashOrder} {MO : MapOrder} {CT : Contents} {RV : RoomVersions} {EC : EventChecks}
    {SC : SpaceContents} {SR : SpaceRemote} {JP : Json PduEvent} {JV : Json Value} room sg user via h s :
  roomid_spacehierarchy_cache h !! room = Some (Some s) → rs_join_rule (summary s) = SPublic →
  get_summary_and_children_client room sg user via h = (Ok (Some (Accessible s)), h).
Proof.
  intros Hc Hp. unfold get_summary_and_children_client. rewrite (bind_ok _ _ _ (Some (Some (Accessible s))) h); [done|].
  unfold try_ok, get_summary_and_children_local. rewrite (bind_ok _ _ _ (Some (Some s)) h) by (unfold gets; by rewrite Hc).
  destruct (is_accessible_child_user room (rs_join_rule (summary s)) user h) as (b & E & Hb). rewrite (bind_ok _ _ _ _ _ E).
  assert (b = true) as -> by (apply Hb; rewrite Hp; right; by right). done.
Qed.

(** The room the walk holds when a page is full is in no page.  For a public
    space with two children and pages of one room, the first page is the space
    itself and its token names the second child; the second page goes on with
    the second child, and the first child is never visited. *)
Theorem page_boundary_loses_room {RU : Ruma} {LR : LruCache} {HO : HashOrder} {MO : MapOrder} {CT : Contents} {RV : RoomVersions} {EC : EventChecks}
    {SC : SpaceContents} {SR : SpaceRemote} {JP : Json PduEvent} {JV : Json Value} room_server_name fuel user root depth sg h s a va b vb id :
  roomid_spacehierarchy_cache h !! root = Some (Some s) → rs_join_rule (summary s) = SPublic →
  get_parent_children_via s sg = [(b, vb); (a, va)] → (1 ≤ depth)%nat →
  kv (hi_db h) roomid_shortroomid !! b = Some (to_be_bytes id) → is_u64 id →
  get_client_hierarchy room_server_name (S (S fuel)) user root 1 [] depth sg h =
    (Ok (Some (mkClientHierarchy (Some (token_to_string (mkToken [id] 1 (Z.of_nat depth) sg))) [s])), h) ∧
  ∀ via, hierarchy_loop (S fuel) user root 1 [id] depth sg (mkHWalk [[(root, via)]] [] false []) h =
    hierarchy_loop fuel user root 1 [id] depth sg (mkHWalk [[(b, vb)]; []] [root] true []) h.
Proof.
  intros Hc Hp Hch Hd Hb Hid.
  assert (get_shortroomid b (hi_db h) = (Ok (Some id), hi_db h)) as Eb.
  { unfold get_shortroomid, get, kv_get. run. rewrite Hb. cbn [map_transpose]. by rewrite u64_from_to_be_bytes. }
  assert (on_hdb (get_shortroomid b) h = (Ok (Some id), h)) as Eb' by (rewrite on_hdb_pure by (by rewrite Eb); by rewrite Eb).
  assert (∀ via ids w, hw_parents w = [] → visit_room user root ids depth sg root via w h =
    ('(children, w) ← (if hw_populate w then mret ([(b, vb); (a, va)], mkHWalk (hw_stack w) [] true (hw_results w ++ [s])) else
        children ← cut_children (ids !! 0%nat) false [(b, vb); (a, va)];
        if bool_decide (children = []) then fail (BadRequest InvalidParam "Short room ids in token were not found.") else
        mret (children, mkHWalk (hw_stack w) [] (bool_decide (1 = length ids)%nat) (hw_results w)));
      if negb (bool_decide (children = [])) && true
      then mret (mkHWalk (children :: hw_stack w) [root] (hw_populate w) (hw_results w)) else mret w) h) as Hvisit.
  { intros via ids w Hw. unfold visit_room. rewrite (bind_ok _ _ _ _ _ (cached_public_visible root sg user via h s Hc Hp)). rewrite Hw, Hch.
    cbn [bfilter forallb length]. rewrite (bool_decide_eq_true_2 (0 < depth)%nat) by lia. by destruct (hw_populate w). }
  split.
  - unfold get_client_hierarchy. cbn [hierarchy_loop next_room_to_traverse hw_stack hw_parents reverse rev_append hw_results hw_populate length].
    rewrite (bool_decide_eq_true_2 (0 < 1)%nat) by lia. rewrite (bool_decide_eq_true_2 ([] = [])) by done.
    rewrite bind_assoc, (bind_ok _ _ _ (mkHWalk [[(b, vb); (a, va)]; []] [root] true [s]) h); [|by rewrite Hvisit].
    assert (on_hdb (get_or_create_shortroomid b) h = (Ok id, h)) as Ec.
    { assert (get_or_create_shortroomid b (hi_db h) = (Ok id, hi_db h)) as E.
      { unfold get_or_create_shortroomid, get, kv_get. run. rewrite Hb. by rewrite u64_from_to_be_bytes. }
      rewrite on_hdb_pure by (by rewrite E). by rewrite E. }
    run. unfold next_batch_token. cbn -[on_hdb token_to_string get_or_create_shortroomid Z.of_nat]. rewrite (bool_decide_eq_false_2 (1 < 1)%nat) by lia.
    cbn -[on_hdb token_to_string get_or_create_shortroomid Z.of_nat]. run. by rewrite Ec.
  - intros via. cbn [hierarchy_loop next_room_to_traverse hw_stack hw_parents reverse rev_append hw_results hw_populate length].
    rewrite (bool_decide_eq_true_2 (0 < 1)%nat) by lia.
    rewrite (bind_ok _ _ _ (mkHWalk [[(b, vb)]; []] [root] true []) h); [done|]. rewrite Hvisit by done. cbn [hw_populate].
    assert (cut_children (Some id) false [(b, vb); (a, va)] h = (Ok [(b, vb)], h)) as Hcut.
    { cbn [cut_children]. rewrite (bind_ok _ _ _ (Some (Some id)) h) by (unfold try_ok; by rewrite Eb').
      rewrite (bool_decide_eq_true_2 (Some id = Some id)) by done.
      by rewrite (bind_ok _ _ _ _ _ (cut_children_stop (Some id) (a, va) [] h)). }
    cbn [lookup list_lookup]. run. rewrite Hcut. done.
Qed.

(** ** Samples *)

From S2P Require Import EventFetch.

#[local] Existing Instances sample_ruma lru_unbounded elements_order sample_map_order sample_contents sample_versions sample_checks.

(** A child event is the name of its room. *)
Definition sample_space_contents : SpaceContents := {|
  canonical_alias_of _ := None;
  topic_of _ := None;
  avatar_of _ := None;
  room_type_of _ := None;
  encryption_of _ := None;
  space_child_via _ := None;
  child_of v := match v with VString s => Some (mkChild s [lit "b"] false None 1) | _ => None end;
  child_le a b := bleb (ch_state_key a) (ch_state_key b);
|}.

Definition silent_servers : SpaceRemote := {| hierarchy_request _ _ _ := None |}.
#[local] Existing Instances sample_space_contents silent_servers.

(** A public room with children. *)
Definition public_summary (room : bytes) (children : list bytes) : ParentSummary :=
  mkParentSummary (mkRoomSummary room None None 1 None false false None SPublic None None None) (VString <$> children).

(** A space with two rooms, one of which has the space as a child again. *)
Definition spaces_cache : gmap bytes (option ParentSummary) :=
  <[lit "!s" := Some (public_summary (lit "!s") [lit "!a"; lit "!b"])]> (<[lit "!a" := Some (public_summary (lit "!a") [lit "!s"])]>
    (<[lit "!b" := Some (public_summary (lit "!b") [])]> ∅)).

Definition sample_hierarchy : Hierarchy :=
  mkHierarchy (sample_handler (upd roomid_shortroomid <[lit "!b" := to_be_bytes 7]> empty_db)) spaces_cache.

Definition sample_page (fuel lim : nat) (ids : list Z) :=
  get_client_hierarchy (JP := json_countable PduEvent) (JV := json_countable Value) (λ _, None) fuel (lit "@u:b") (lit "!s") lim ids 3 false sample_hierarchy.

(** A space with a public room, a room for the members of another one that the
    user is in, and a room by invitation. *)
Definition mixed_hierarchy : Hierarchy :=
  mkHierarchy (sample_handler (upd userroomid_joined (λ _, {[lit "@u:b" ++ ff :: lit "!m" := []]}) empty_db))
    (<[lit "!s" := Some (public_summary (lit "!s") [lit "!i"; lit "!r"])]>
    (<[lit "!i" := Some (mkParentSummary (mkRoomSummary (lit "!i") None None 1 None false false None SInvite None None None) [])]>
    (<[lit "!r" := Some (mkParentSummary (mkRoomSummary (lit "!r") None None 1 None false false None (SRestricted [lit "!m"]) None None None) [])]> ∅))).

Definition mixed_page := get_client_hierarchy (JP := json_countable PduEvent) (JV := json_countable Value) (λ _, None) 10 (lit "@u:b") (lit "!s") 5 [] 3 false mixed_hierarchy.

Lemma hierarchy_rooms_visible_witness : ∃ page h', mixed_page = (Ok (Some page), h') ∧
  (rs_room_id ∘ summary) <$> cl_rooms page = [lit "!s"; lit "!r"] ∧
  Forall (shown (JP := json_countable PduEvent) (JV := json_countable Value) (lit "@u:b") false mixed_hierarchy) (cl_rooms page) ∧
  ¬ may_see (hi_db mixed_hierarchy) (lit "@u:b") (lit "!i") SInvite.
Proof.
  destruct mixed_page as [r h'] eqn:E.
  assert (match r with Ok (Some page) => (rs_room_id ∘ summary) <$> cl_rooms page = [lit "!s"; lit "!r"] | _ => False end) as Hr.
  { change r with ((r, h').1). rewrite <-E. vm_compute. reflexivity. }
  destruct r as [[page|]| |]; [|done..]. exists page, h'. split; [done|]. split; [done|]. split.
  - apply (hierarchy_rooms_visible (JP := json_countable PduEvent) (JV := json_countable Value) (λ _, None) 10 (lit "@u:b") (lit "!s") 5 [] 3 false
      mixed_hierarchy _ h' E).
  - unfold may_see, member. vm_compute. intros [[? ?]|[[? ?]|?]]; done.
Defined.

Lemma page_boundary_loses_room_witness :
  sample_page 2 1 [] = (Ok (Some (mkClientHierarchy (Some (lit "7_1_3_false")) [public_summary (lit "!s") [lit "!a"; lit "!b"]])), sample_hierarchy).
Proof.
  destruct (page_boundary_loses_room (JP := json_countable PduEvent) (JV := json_countable Value) (λ _, None) 0 (lit "@u:b") (lit "!s") 3 false sample_hierarchy
    (public_summary (lit "!s") [lit "!a"; lit "!b"]) (lit "!a") [lit "b"] (lit "!b") [lit "b"] 7) as [H _].
  - reflexivity.
  - reflexivity.
  - vm_compute. reflexivity.
  - lia.
  - reflexivity.
  - unfold is_u64, u64_max. lia.
  - exact H.
Defined.

(** Every cached room is public and has at most two children; no other is known. *)
Definition small_cache (h : Hierarchy) : Prop := ∀ room, match roomid_spacehierarchy_cache h !! room with
  | Some (Some s) => rs_join_rule (summary s) = SPublic ∧ (length (get_parent_children_via s false) ≤ 2)%nat
  | Some None => True
  | None => kv (hi_db h) roomid_shortstatehash !! room = None
  end.

Lemma silent_federation room sg u via h :
  get_summary_and_children_federation (JP := json_countable PduEvent) (JV := json_countable Value) room sg u via h = (Ok None, (cache_summary room None h).2).
Proof. induction via as [|x via IH]; [done|exact IH]. Qed.

Lemma small_cache_bounded room via h : small_cache h →
  let r := get_summary_and_children_client (JP := json_countable PduEvent) (JV := json_countable Value) room false (lit "@u:b") via h in
  small_cache r.2 ∧ ∀ s, r.1 = Ok (Some (Accessible s)) → (length (get_parent_children_via s false) ≤ 2)%nat.
Proof.
  intros H r. subst r. destruct (roomid_spacehierarchy_cache h !! room) as [[s|]|] eqn:E.
  - pose proof (H room) as Hr. rewrite E in Hr. destruct Hr as [Hp Hl]. rewrite (cached_public_visible room false _ via h s E Hp). cbn. split; [done|]. by intros ? [= <-].
  - unfold get_summary_and_children_client. rewrite (bind_ok _ _ _ (Some None) h) by (unfold try_ok, get_summary_and_children_local; run; by rewrite E).
    rewrite silent_federation. split; [|done]. cbn [snd cache_summary modify]. intros room'. cbn [roomid_spacehierarchy_cache]. change (lru_insert ?a ?b ?c) with (<[a := b]> c).
    rewrite lookup_insert. case_decide; [done|]. exact (H room').
  - pose proof (H room) as Hr. rewrite E in Hr.
    assert (get_summary_and_children_local (JP := json_countable PduEvent) (JV := json_countable Value) room (IdUser (lit "@u:b")) h = (Ok None, h)) as Hl.
    { unfold get_summary_and_children_local. rewrite (bind_ok _ _ _ None h) by (unfold gets; by rewrite E).
      rewrite (bind_ok _ _ _ None h); [done|]. rewrite on_hdb_pure; unfold get_stripped_space_child_events, get_room_shortstatehash, get, kv_get; run; by rewrite Hr. }
    unfold get_summary_and_children_client. rewrite (bind_ok _ _ _ (Some None) h) by (unfold try_ok; by rewrite Hl). rewrite silent_federation. split; [|done].
    cbn [snd cache_summary modify]. intros room'. cbn [roomid_spacehierarchy_cache]. change (lru_insert ?a ?b ?c) with (<[a := b]> c).
    rewrite lookup_insert. case_decide; [done|]. exact (H room').
Qed.

Lemma hierarchy_walk_terminates_witness : (sample_page 16 5 []).1 ≠ Ok None.
Proof.
  unfold sample_page.
  refine (hierarchy_walk_terminates (JP := json_countable PduEvent) (JV := json_countable Value) (λ _, None) small_cache 2 16 (lit "@u:b") (lit "!s") 5 [] 3 false
    sample_hierarchy _ small_cache_bounded _).
  - intros room. unfold sample_hierarchy, spaces_cache. cbn [roomid_spacehierarchy_cache]. rewrite !lookup_insert, lookup_empty.
    repeat case_decide; try (split; [reflexivity|vm_compute; lia]). reflexivity.
  - cbn. lia.
Defined.
