(* ===== verification/RequestAuth.v ===== *)
(** * RequestAuth: who a request comes from

    The extractor of [server/src/api/ruma_wrapper/axum.rs] that every route goes
    through: the size limit, the access token of a client or an appservice, the
    X-Matrix signature of another server, the body of an interactive
    authentication, and the typed request; with the response an error becomes
    ([server/src/utils/error.rs]).  The HTTP library's header and query parsers,
    the typed decoding of an endpoint and Ed25519 are parameters. *)
From S2P Require Import Prelude Bytes JsonValue KvTree Pdu Database Accounts Devices SolanaAuth Uiaa Appservice ServerKeys.

(** ** The parts of a request *)

(** ruma's [AuthScheme]: what an endpoint asks for. *)
Inductive AuthScheme :=
  | SchemeNone
  | SchemeAccessToken
  | SchemeAccessTokenOptional
  | SchemeAppserviceToken
  | SchemeAppserviceTokenOptional
  | SchemeServerSignatures.

#[global] Instance AuthScheme_eq_dec : EqDecision AuthScheme.
Proof. solve_decision. Defined.

(** The [Authorization] header of another server. *)
Record XMatrix := mkXMatrix {
  xm_origin : bytes;
  xm_destination : option bytes;
  xm_key : bytes;
  xm_sig : bytes;
}.

Record QueryParams := mkQueryParams { qp_access_token : option bytes; qp_user_id : option bytes }.

(** A typed header: absent, unreadable, or read. *)
Inductive Header (A : Type) := Missing | Unreadable | Present (a : A).
Arguments Missing {A}.
Arguments Unreadable {A}.
Arguments Present {A} a.

(** A request; the body is what the stream delivered and whether it broke off. *)
Record HttpRequest := mkHttpRequest {
  rq_method : bytes;
  rq_uri : bytes;
  rq_headers : list (bytes * bytes);
  rq_body : bytes;
  rq_broken : bool;
}.

(** The HTTP library. *)
Class Http := {
  bearer : list (bytes * bytes) → Header bytes;
  x_matrix_header : list (bytes * bytes) → Header XMatrix;
  path_params : bytes → option (list bytes);
  uri_query : bytes → option bytes;
  query_from_str : bytes → option QueryParams;
}.

(** Signed JSON objects: of each entity that signed, a signature is one of a
    given key over the object without its signatures; signatures whose key id
    or algorithm is not known are passed over. *)
Class SignedJson := {
  verify_json : gmap bytes (gmap bytes bytes) → list (bytes * Value) → bool;
  signature_valid : bytes → list (bytes * Value) → bytes → bool;
  verify_json_sound : ∀ keys object entities entity signatures,
    verify_json keys object = true →
    field (lit "signatures") object = Some (VObject entities) → (entity, VObject signatures) ∈ entities →
    ∃ key_id sig public_keys key, (key_id, VString sig) ∈ signatures ∧ keys !! entity = Some public_keys ∧ public_keys !! key_id = Some key ∧
      signature_valid key (remove_json_field (lit "signatures") object) sig = true;
}.

(** An endpoint: its scheme and the decoding of its requests. *)
Record Endpoint (T : Type) := mkEndpoint {
  ep_scheme : AuthScheme;
  try_from_http_request : HttpRequest → list bytes → option T;
}.
Arguments mkEndpoint {T}.
Arguments ep_scheme {T}.
Arguments try_from_http_request {T}.

Section auth.
Context {RU : Ruma} {RX : Regex} {LP : Localpart} {HT : Http} {SJ : SignedJson} {KJ : KeyJson} {KS : KeyServers}.
Context {JV : Json Value}.
Context (server_name own_version own_public_key : bytes) (max_request_size : Z).

(** [enum Token]. *)
Inductive Token :=
  | TokenAppservice (info : RegistrationInfo)
  | TokenUser (user_id device_id : bytes)
  | TokenInvalid
  | TokenNone.

(** [struct Ruma]: the typed request and who sent it. *)
Record Ruma_ (T : Type) := mkRuma {
  body : T;
  sender_user : option bytes;
  sender_device : option bytes;
  sender_servername : option bytes;
  appservice_info : option RegistrationInfo;
  json_body : option Value;
}.
Arguments mkRuma {T}.

(** The identity part of it. *)
Record Identity := mkIdentity {
  id_user : option bytes;
  id_device : option bytes;
  id_server : option bytes;
  id_appservice : option RegistrationInfo;
}.

Definition anonymous : Identity := mkIdentity None None None None.

(** The state: the services, and the back-offs of the key fetching. *)
Record Web := mkWeb {
  services : Services;
  w_bad_event_ratelimiter : gmap bytes (Z * Z);
  w_bad_signature_ratelimiter : gmap (list bytes) (Z * Z);
}.

Definition on_services {A} (m : M Services A) : M Web A := λ w,
  let '(r, s) := m (services w) in (r, mkWeb s (w_bad_event_ratelimiter w) (w_bad_signature_ratelimiter w)).

Definition on_keyring {A} (m : M Keyring A) : M Web A := λ w,
  let s := services w in
  let '(r, k) := m (mkKeyring (db s) (w_bad_event_ratelimiter w) (w_bad_signature_ratelimiter w) ∅) in
  (r, mkWeb (mkServices (k_db k) (registration_info s) (nonces s) (admin_queue s)) (bad_event_ratelimiter k) (bad_signature_ratelimiter k)).

(** [axum::body::to_bytes] with the limit. *)
Definition read_body (req : HttpRequest) : res bytes :=
  if max_request_size <? Z.of_nat (length (rq_body req)) then Err (BadRequest TooLarge "Reached maximum request size")
  else if rq_broken req then Err (BadRequest Unknown "An unknown error has occurred")
  else Ok (rq_body req).

(** The header is not read on the endpoints of servers. *)
Definition auth_header (scheme : AuthScheme) (req : HttpRequest) : res (option bytes) :=
  if bool_decide (scheme = SchemeServerSignatures) then Ok None
  else match bearer (rq_headers req) with
       | Missing => Ok None
       | Unreadable => Err TypedHeaderError
       | Present token => Ok (Some token)
       end.

(** The kind of a token: of an appservice first, then of a device. *)
Definition classify (token : option bytes) : M Services Token :=
  match token with
  | None => mret TokenNone
  | Some token =>
      o ← gets (λ s, Ok (find_from_as_token token s));
      match o with
      | Some info => mret (TokenAppservice info)
      | None =>
          o ← on_db (find_from_token token);
          mret (match o with Some (user_id, device_id) => TokenUser user_id device_id | None => TokenInvalid end)
      end
  end.

(** The user an appservice acts as: the one it names, or its own. *)
Definition appservice_user (info : RegistrationInfo) (user_id : option bytes) : M Services Identity :=
  user_id ← lift (ok_or (match user_id with
      | None => parse_with_server_name (sender_localpart (registration info)) server_name
      | Some u => if user_id_ok u then Some u else None
      end) (BadRequest InvalidUsername "Username is invalid."));
  if negb (is_user_match info user_id) then fail (BadRequest Exclusive "User is not in namespace.") else
  ex ← on_db (exists_ user_id);
  if negb ex then fail (BadRequest Forbidden "User does not exist.") else
  mret (mkIdentity (Some user_id) None None (Some info)).

(** The object a server signs for a request. *)
Definition request_map (req : HttpRequest) (x_matrix : XMatrix) (json_body : option Value) : list (bytes * Value) :=
  [(lit "method", VString (rq_method req)); (lit "uri", VString (rq_uri req));
   (lit "origin", VString (xm_origin x_matrix)); (lit "destination", VString server_name);
   (lit "signatures", VObject [(xm_origin x_matrix, VObject [(xm_key x_matrix, VString (xm_sig x_matrix))])])]
  ++ match json_body with Some json_body => [(lit "content", json_body)] | None => [] end.

(** The X-Matrix signature of another server. *)
Definition server_signature (now : Z) (req : HttpRequest) (json_body : option Value) : M Web Identity :=
  x_matrix ← lift (match x_matrix_header (rq_headers req) with
    | Present x => Ok x
    | Missing => Err (BadRequest Forbidden "Missing Authorization header.")
    | Unreadable => Err (BadRequest Forbidden "Invalid X-Matrix signatures.")
    end);
  (match xm_destination x_matrix with
   | Some dest => if bool_decide (dest = server_name) then mret tt
       else fail (BadRequest Unauthorized "X-Matrix destination field does not match server name.")
   | None => mret tt
   end);;
  keys_result ← attempt (on_keyring (fetch_signing_keys server_name own_version own_public_key now (xm_origin x_matrix) [xm_key x_matrix] false));
  keys ← lift (match keys_result with Ok b => Ok b | _ => Err (BadRequest Forbidden "Failed to fetch signing keys.") end);
  (* Only verify_keys that are currently valid should be used for validating requests as per MSC4029 *)
  let pub_key_map : gmap bytes (gmap bytes bytes) :=
    {[xm_origin x_matrix := if now <? valid_until_ts keys then verify_keys keys else ∅]} in
  if verify_json pub_key_map (request_map req x_matrix json_body)
  then mret (mkIdentity None None (Some (xm_origin x_matrix)) None)
  else fail (BadRequest Forbidden "Failed to verify X-Matrix signatures.").

(** The match over the scheme and the token. *)
Definition identify (now : Z) (scheme : AuthScheme) (token : Token) (query_params : QueryParams) (req : HttpRequest) (json_body : option Value)
    : M Web Identity :=
  match scheme, token with
  | _, TokenInvalid =>
      (* OpenID endpoint uses a query param with the same name, drop this once query params for user auth are removed from the spec *)
      if bool_decide (is_Some (qp_access_token query_params)) then mret anonymous
      else fail (BadRequest UnknownToken "Unknown access token.")
  | SchemeAccessToken, TokenAppservice info => on_services (appservice_user info (qp_user_id query_params))
  | (SchemeNone | SchemeAppserviceToken | SchemeAppserviceTokenOptional | SchemeAccessTokenOptional), TokenAppservice info =>
      mret (mkIdentity None None None (Some info))
  | (SchemeAppserviceToken | SchemeAccessToken), TokenNone => fail (BadRequest MissingToken "Missing access token.")
  | (SchemeAccessToken | SchemeAccessTokenOptional | SchemeNone), TokenUser user_id device_id =>
      mret (mkIdentity (Some user_id) (Some device_id) None None)
  | SchemeServerSignatures, TokenNone => server_signature now req json_body
  | (SchemeNone | SchemeAppserviceTokenOptional | SchemeAccessTokenOptional), TokenNone => mret anonymous
  | SchemeServerSignatures, (TokenAppservice _ | TokenUser _ _) =>
      fail (BadRequest Unauthorized "Only server signatures should be used on this endpoint.")
  | (SchemeAppserviceToken | SchemeAppserviceTokenOptional), TokenUser _ _ =>
      fail (BadRequest Unauthorized "Only appservice access tokens should be used on this endpoint.")
  end.

(** [entry(key).or_insert(value)]. *)
Definition or_insert (fields : list (bytes * Value)) (e : bytes * Value) : list (bytes * Value) :=
  match field e.1 fields with Some _ => fields | None => fields ++ [e] end.

(** The session an interactive authentication continues. *)
Definition body_session (fields : list (bytes * Value)) : option bytes :=
  match field (lit "auth") fields with
  | Some (VObject auth) => match field (lit "session") auth with Some (VString session) => Some session | _ => None end
  | _ => None
  end.

(** The fields of the request an interactive authentication began with are
    added to the body, which keeps its own. *)
Definition merge_uiaa (who : Identity) (fields : list (bytes * Value)) : M Services (list (bytes * Value)) :=
  user_id ← lift (match id_user who with Some u => Ok u | None => expect (parse_with_server_name [] server_name) end);
  uiaa_request ← gets (λ s : Services, Ok (match body_session fields with
    | Some session => get_uiaa_request user_id (default [] (id_device who)) session (db s)
    | None => None
    end));
  mret (match uiaa_request ≫= from_slice with
        | Some (VObject initial_request) => fold_left or_insert initial_request fields
        | _ => fields
        end).

(** [FromRequest::from_request]. *)
Definition from_request {T} (ep : Endpoint T) (now : Z) (req : HttpRequest) : M Web (Ruma_ T) :=
  bs ← lift (read_body req);
  header ← lift (auth_header (ep_scheme ep) req);
  params ← lift (ok_or (path_params (rq_uri req)) PathError);
  query_params ← lift (ok_or (query_from_str (default [] (uri_query (rq_uri req)))) (BadRequest Unknown "Failed to read query parameters"));
  let token := match header with Some token => Some token | None => qp_access_token query_params end in
  token ← on_services (classify token);
  let json_body := from_slice bs in
  who ← identify now (ep_scheme ep) token query_params req json_body;
  '(json_body, bs) ← match json_body with
    | Some (VObject fields) =>
        fields ← on_services (merge_uiaa who fields);
        mret (Some (VObject fields), to_vec (VObject fields))
    | _ => mret (json_body, bs)
    end;
  b ← lift (ok_or (try_from_http_request ep (mkHttpRequest (rq_method req) (rq_uri req) (rq_headers req) bs (rq_broken req)) params)
    (BadRequest BadJson "Failed to deserialize request."));
  mret (mkRuma b (id_user who) (id_device who) (id_server who) (id_appservice who) json_body).
End auth.
Arguments mkRuma {RX T}.
Arguments body {RX T}.
Arguments sender_user {RX T}.
Arguments sender_device {RX T}.
Arguments sender_servername {RX T}.
Arguments appservice_info {RX T}.
Arguments json_body {RX T}.

(** ** Errors as responses *)

(** [Error::to_response]: the status and the kind the client sees. *)
Definition status_of (kind : ErrorKind) : Z :=
  match kind with
  | WrongRoomKeysVersion | Forbidden | GuestAccessForbidden | ThreepidAuthFailed | ThreepidDenied => 403
  | Unauthorized | UnknownToken | MissingToken => 401
  | NotFound | Unrecognized => 404
  | LimitExceeded => 429
  | UserDeactivated => 403
  | TooLarge => 413
  | ConnectionTimeout => 504
  | BadStatus | ConnectionFailed => 502
  | _ => 400
  end.

Inductive ErrorResponse :=
  | AuthResponse (info : UiaaInfo)
  (* kind [Unknown], with the status the other server answered *)
  | RemoteError (origin : bytes)
  | MatrixError (kind : ErrorKind) (status_code : Z).

Definition to_response (e : Error) : ErrorResponse :=
  match e with
  | Uiaa info => AuthResponse info
  | FederationError origin _ => RemoteError origin
  | BadRequest kind _ => MatrixError kind (status_of kind)
  | Conflict _ => MatrixError Unknown 409
  | _ => MatrixError Unknown 500
  end.

(** * What an identity means *)

Section guarantees.
Context {RU : Ruma} {RX : Regex} {LP : Localpart} {HT : Http} {SJ : SignedJson} {KJ : KeyJson} {KS : KeyServers}.
Context {JV : Json Value}.
Context (server_name own_version own_public_key : bytes) (max_request_size : Z).

#[local] Notation from_request := (from_request server_name own_version own_public_key max_request_size).
#[local] Notation fetch := (fetch_signing_keys server_name own_version own_public_key).
#[local] Notation identify := (identify server_name own_version own_public_key).

(** The token a request carries. *)
Definition request_token (scheme : AuthScheme) (req : HttpRequest) : option bytes :=
  match auth_header scheme req with
  | Ok (Some token) => Some token
  | Ok None => query_from_str (default [] (uri_query (rq_uri req))) ≫= qp_access_token
  | _ => None
  end.

(** The content a server signs: the request, from it and to this server. *)
Definition signed_content (req : HttpRequest) (origin : bytes) (content : option Value) : list (bytes * Value) :=
  [(lit "method", VString (rq_method req)); (lit "uri", VString (rq_uri req)); (lit "origin", VString origin); (lit "destination", VString server_name)]
  ++ match content with Some v => [(lit "content", v)] | None => [] end.

Lemma request_map_content req x content :
  remove_json_field (lit "signatures") (request_map server_name req x content) = signed_content req (xm_origin x) content.
Proof. by destruct content. Qed.

Lemma request_map_signatures req x content :
  field (lit "signatures") (request_map server_name req x content) =
    Some (VObject [(xm_origin x, VObject [(xm_key x, VString (xm_sig x))])]).
Proof. by destruct content. Qed.

Lemma on_services_inv {A} (m : M Services A) w (a : A) w' :
  on_services m w = (Ok a, w') → ∃ s', m (services w) = (Ok a, s') ∧ services w' = s' ∧
    w_bad_event_ratelimiter w' = w_bad_event_ratelimiter w ∧ w_bad_signature_ratelimiter w' = w_bad_signature_ratelimiter w.
Proof. unfold on_services. destruct (m (services w)) as [r s']. intros [= -> <-]. by exists s'. Qed.

Lemma find_from_token_pure token d : (find_from_token token d).2 = d.
Proof. unfold find_from_token, get, kv_get. run. by destruct (kv d token_userdeviceid !! token). Qed.

(** Reading the token changes nothing, and finds its owner. *)
Lemma classify_spec token w t w' :
  on_services (classify token) w = (Ok t, w') → w' = w ∧
  match token, t with
  | None, TokenNone => True
  | Some token, TokenAppservice info => find_from_as_token token (services w) = Some info
  | Some token, TokenUser u dv => find_from_as_token token (services w) = None ∧ (find_from_token token (db (services w))).1 = Ok (Some (u, dv))
  | Some token, TokenInvalid => find_from_as_token token (services w) = None ∧ (find_from_token token (db (services w))).1 = Ok None
  | _, _ => False
  end.
Proof.
  intros (s' & E & Es & E1 & E2)%on_services_inv. destruct w as [[d ri n q] we ws], w' as [s'' we' ws']. cbn in *. subst.
  destruct token as [token|]; [|by injection E as <- <-].
  unfold classify in E. run in E. destruct (find_from_as_token token _) as [info|]; [by injection E as <- <-|].
  unfold on_db in E. cbn in E. pose proof (find_from_token_pure token d) as Hp.
  destruct (find_from_token token d) as [[[[u dv]|]| |] d']; cbn in *; subst; try done; by injection E as <- <-.
Qed.

(** The steps of an accepted request. *)
Lemma from_request_inv {T} (ep : Endpoint T) now req w r w' :
  from_request ep now req w = (Ok r, w') →
  ∃ q t who w1, query_from_str (default [] (uri_query (rq_uri req))) = Some q ∧
    on_services (classify (request_token (ep_scheme ep) req)) w = (Ok t, w) ∧
    identify now (ep_scheme ep) t q req (from_slice (rq_body req)) w = (Ok who, w1) ∧
    sender_user r = id_user who ∧ sender_device r = id_device who ∧ sender_servername r = id_server who ∧ appservice_info r = id_appservice who.
Proof.
  unfold RequestAuth.from_request, request_token. intros H.
  apply bind_inv in H as (bs & ? & Hb & H). unfold read_body, lift in Hb. destruct (_ <? _); [done|]. destruct (rq_broken req); [done|].
  injection Hb as <- <-.
  apply bind_inv in H as (h & ? & [= Hh <-] & H). apply bind_inv in H as (ps & ? & [= Hps <-] & H).
  apply bind_inv in H as (q & ? & [= Hq <-] & H).
  destruct (query_from_str _) as [q'|] eqn:Eq; [|done]. injection Hq as ->.
  apply bind_inv in H as (t & w0 & Ht & H). pose proof (proj1 (classify_spec _ _ _ _ Ht)) as ->.
  apply bind_inv in H as (who & w1 & Hw & H). exists q, t, who, w1. rewrite Hh.
  split_and!; try done; apply bind_inv in H as ([jb bs'] & w2 & _ & H);
    apply bind_inv in H as (b & w3 & _ & H); by injection H as <- <-.
Qed.

Lemma server_signature_inv now req content w who w' :
  server_signature server_name own_version own_public_key now req content w = (Ok who, w') →
  ∃ x keys, x_matrix_header (rq_headers req) = Present x ∧ who = mkIdentity None None (Some (xm_origin x)) None ∧
    (∀ dest, xm_destination x = Some dest → dest = server_name) ∧
    on_keyring (fetch now (xm_origin x) [xm_key x] false) w = (Ok keys, w') ∧
    verify_json {[xm_origin x := if now <? valid_until_ts keys then verify_keys keys else ∅]} (request_map server_name req x content) = true.
Proof.
  unfold server_signature. intros H. apply bind_inv in H as (x & ? & [= Hx <-] & H).
  destruct (x_matrix_header _) as [| |x'] eqn:Ex; [done..|]. injection Hx as ->.
  apply bind_inv in H as (? & w1 & Hd & H).
  assert (w1 = w ∧ ∀ dest, xm_destination x = Some dest → dest = server_name) as [-> Hdest].
  { destruct (xm_destination x) as [dest|]; [|by injection Hd as <- <-].
    case_bool_decide; [|done]. injection Hd as <- <-. naive_solver. }
  clear Hd. apply bind_inv in H as (kr & w1 & Hk & H). apply bind_inv in H as (keys & ? & [= Hr <-] & H). unfold attempt in Hk.
  destruct (on_keyring _ w) as [[k| |] w2] eqn:Ek; [|by injection Hk as <- <-|done].
  injection Hk as <- <-. injection Hr as ->. exists x, keys. destruct (verify_json _ _) eqn:Ev; [|done]. injection H as <- <-.
  by split_and!.
Qed.

(** Only the X-Matrix branch names a server. *)
Lemma identify_server now scheme t q req content w who w' origin :
  identify now scheme t q req content w = (Ok who, w') → id_server who = Some origin →
  scheme = SchemeServerSignatures ∧ t = TokenNone ∧ server_signature server_name own_version own_public_key now req content w = (Ok who, w').
Proof.
  intros H Ho.
  assert (∀ info u, on_services (appservice_user server_name info u) w = (Ok who, w') → id_server who = None) as Happ.
  { intros info u (s' & E & _)%on_services_inv. unfold appservice_user in E. apply bind_inv in E as (v & ? & [= _ <-] & E).
    destruct (negb _); [done|]. apply bind_inv in E as (ex & ? & _ & E). destruct (negb ex); [done|]. by injection E as <- <-. }
  unfold RequestAuth.identify in H. destruct scheme, t; try done; try (by injection H as <- <-);
    try (case_bool_decide; [by injection H as <- <-|done]). by rewrite (Happ _ _ H) in Ho.
Qed.

(** A key that the server has on record for another, whatever its validity, or
    one that the other server publishes now, until a time to come. *)
Definition KnownKey (now : Z) (d : Db) (origin id key : bytes) : Prop :=
  (∃ r, (signing_keys_for server_name (own_keys own_version own_public_key now) origin d).1 = Ok (Some r) ∧ verify_keys r !! id = Some key) ∨
  (∃ answer, get_server_keys origin = Some answer ∧ ssk_verify_keys answer !! id = Some key ∧ now < ssk_valid_until_ts answer).

(** Where the keys come from that are used for a request. *)
Lemma fetched_key_known now origin ids k keys k' id key : fetch now origin ids false k = (Ok keys, k') →
  now < valid_until_ts keys → verify_keys keys !! id = Some key → KnownKey now (k_db k) origin id key.
Proof.
  unfold fetch_signing_keys. intros (wait & k1 & H1 & H)%bind_inv Hv Hk. injection H1 as _ <-. destruct wait; [done|].
  apply bind_inv in H as (result & k2 & H2%kdb_inv & H). pose proof (f_equal fst H2) as Hres. cbn [fst] in Hres. cbv zeta in H.
  destruct (match result with Some r => if _ && _ then Some r else None | None => None end) as [r|] eqn:Ef.
  { injection H as -> _. left. exists keys. split; [|done]. rewrite Hres. destruct result as [r|]; [|done]. destruct (_ && _); [by injection Ef as ->|done]. }
  set (keys0 := match result with Some r => mkSigningKeys (verify_keys r) (old_verify_keys r) (now + ms_7_days) | None => mkSigningKeys ∅ ∅ (now + ms_7_days) end) in H.
  apply bind_inv in H as ([keys1 asked] & k3 & H3 & H).
  assert (keys = keys1) as ->.
  { destruct (asked && _); [by injection H|]. apply bind_inv in H as ([keys2 found] & k4 & H4 & H). injection H4 as <- <- <-.
    destruct (match result with Some r => _ | None => false end); [by injection H|]. apply bind_inv in H as (? & ? & _ & H). done. }
  apply kdb_inv in H3. unfold ask_origin in H3.
  assert (verify_keys keys0 !! id = Some key → KnownKey now (k_db k) origin id key) as Hold.
  { intros H0. left. destruct result as [r|]; [by exists r|]. cbn in H0. by rewrite lookup_empty in H0. }
  destruct (get_server_keys origin) as [answer|] eqn:Ea; [|injection H3 as <- _; by apply Hold].
  assert (keys1 = merge_keys keys0 (cap_validity now answer)) as ->.
  { cbv zeta in H3. by apply bind_inv in H3 as (? & ? & _ & [= <- _ _]). }
  cbn in Hv, Hk. apply lookup_union_Some_raw in Hk as [Hk|[_ Hk]]; [right|by apply Hold]. exists answer. split_and!; [done..|lia].
Qed.

(** C24: A request that is attributed to another server is one of a signature
    endpoint whose X-Matrix header names that server, is not meant for anyone
    else, and carries a signature over the method, the URI, the origin, this
    server as the destination, and the body; the key is the one the header
    names, and either it is on record for that server or that server
    publishes it now with a validity that has not ended; the request is
    attributed to no user. *)
Theorem server_identity_verified {T} (ep : Endpoint T) now req w r w' origin :
  from_request ep now req w = (Ok r, w') → sender_servername r = Some origin →
  ep_scheme ep = SchemeServerSignatures ∧ request_token SchemeServerSignatures req = None ∧
  sender_user r = None ∧ sender_device r = None ∧ appservice_info r = None ∧
  ∃ x key, x_matrix_header (rq_headers req) = Present x ∧ xm_origin x = origin ∧
    (∀ dest, xm_destination x = Some dest → dest = server_name) ∧
    KnownKey now (db (services w)) origin (xm_key x) key ∧
    signature_valid key (signed_content req origin (from_slice (rq_body req))) (xm_sig x) = true.
Proof.
  intros H Ho. apply from_request_inv in H as (q & t & who & w1 & Hq & Hc & Hi & -> & -> & E & ->). rewrite E in Ho.
  destruct (identify_server _ _ _ _ _ _ _ _ _ _ Hi Ho) as (Es & -> & Hs). rewrite Es in Hc.
  apply classify_spec in Hc as [_ Ht]. destruct (request_token _ req) eqn:Et; [done|].
  apply server_signature_inv in Hs as (x & keys & Hx & -> & Hd & Hf & Hv). cbn in Ho |- *. injection Ho as <-.
  destruct (verify_json_sound _ _ _ _ _ Hv (request_map_signatures req x _) ltac:(by left)) as (key_id & sig & pks & key & Hin & Hp & Hk & Hsig).
  apply list_elem_of_singleton in Hin as [= -> ->].
  rewrite lookup_singleton_eq in Hp. injection Hp as <-. rewrite request_map_content in Hsig.
  split_and!; try done. exists x, key. destruct (now <? valid_until_ts keys) eqn:El; [|by rewrite lookup_empty in Hk].
  apply Z.ltb_lt in El. split_and!; try done. unfold on_keyring in Hf.
  destruct (fetch _ _ _ _ _) as [rk k1] eqn:Ek. injection Hf as -> _. by eapply fetched_key_known in Ek.
Qed.

(** A key whose validity has ended still authenticates requests when its server
    cannot be reached: the keys on record are returned as valid for another
    seven days, although only currently valid keys should be used. *)
Theorem expired_key_accepted now req content w x r :
  x_matrix_header (rq_headers req) = Present x → xm_destination x = None ∨ xm_destination x = Some server_name →
  backing_off 30 now [xm_key x] (w_bad_signature_ratelimiter w) = Ok false →
  (signing_keys_for server_name (own_keys own_version own_public_key now) (xm_origin x) (db (services w))).1 = Ok (Some r) →
  is_Some (verify_keys r !! xm_key x) → valid_until_ts r < now → get_server_keys (xm_origin x) = None →
  verify_json {[xm_origin x := verify_keys r]} (request_map server_name req x content) = true →
  (server_signature server_name own_version own_public_key now req content w).1 = Ok (mkIdentity None None (Some (xm_origin x)) None).
Proof.
  intros Hx Hd Hb Hr Hk Hv Ho Hver. unfold server_signature. rewrite Hx. rewrite (bind_ok _ _ _ x w) by done.
  rewrite (bind_ok _ _ _ tt w) by (destruct Hd as [->| ->]; [done|by rewrite bool_decide_eq_true_2]).
  assert (∃ k', fetch now (xm_origin x) [xm_key x] false (mkKeyring (db (services w)) (w_bad_event_ratelimiter w) (w_bad_signature_ratelimiter w) ∅) =
    (Ok (mkSigningKeys (verify_keys r) (old_verify_keys r) (now + ms_7_days)), k')) as (k' & Ef).
  { unfold fetch_signing_keys. set (k := mkKeyring _ _ _ _). rewrite (bind_ok _ _ k false k) by (unfold gets; cbn; by rewrite Hb).
    assert (∃ d, signing_keys_for server_name (own_keys own_version own_public_key now) (xm_origin x) (k_db k) = (Ok (Some r), d)) as (d & Es).
    { cbn. destruct (signing_keys_for _ _ _ _) as [rs d]. cbn in Hr. subst rs. by eexists. }
    unfold mbind at 1, M_bind at 1, kdb at 1. rewrite Es. cbv zeta.
    assert (contains_all_ids [xm_key x] r = true) as -> by (cbn; by rewrite bool_decide_eq_true_2).
    assert (now + ms_30_minutes <? valid_until_ts r = false) as -> by (apply Z.ltb_ge; unfold ms_30_minutes; lia). cbn [andb].
    unfold ask_origin. rewrite Ho. by eexists. }
  unfold attempt, on_keyring, mbind at 1, M_bind at 1. rewrite Ef. rewrite (bind_ok _ _ _ (mkSigningKeys (verify_keys r) (old_verify_keys r) (now + ms_7_days)) _) by done.
  cbn [valid_until_ts verify_keys]. assert (now <? now + ms_7_days = true) as -> by (apply Z.ltb_lt; unfold ms_7_days; lia). by rewrite Hver.
Qed.

Lemma identify_user now scheme t q req content w who w' u :
  identify now scheme t q req content w = (Ok who, w') → id_user who = Some u →
  (∃ dv, t = TokenUser u dv ∧ id_device who = Some dv ∧ id_appservice who = None ∧
    (scheme = SchemeAccessToken ∨ scheme = SchemeAccessTokenOptional ∨ scheme = SchemeNone)) ∨
  (∃ info, t = TokenAppservice info ∧ scheme = SchemeAccessToken ∧ id_device who = None ∧ id_appservice who = Some info ∧
    is_user_match info u = true ∧ (exists_ u (db (services w))).1 = Ok true).
Proof.
  intros H Hu.
  assert (∀ info v, on_services (appservice_user server_name info v) w = (Ok who, w') →
    id_device who = None ∧ id_appservice who = Some info ∧ is_user_match info u = true ∧ (exists_ u (db (services w))).1 = Ok true) as Happ.
  { intros info v (s' & E & _)%on_services_inv. unfold appservice_user in E. apply bind_inv in E as (v' & ? & [= _ <-] & E).
    destruct (is_user_match info v') eqn:Em; [|done]. apply bind_inv in E as (ex & s1 & Hex & E). destruct ex; [|done].
    injection E as <- <-. injection Hu as <-. split_and!; try done. unfold on_db in Hex. by destruct (exists_ v' _) as [[]]; simplify_eq/=. }
  unfold RequestAuth.identify in H. destruct scheme, t; try done; try (by injection H as <- <-);
    try (case_bool_decide; [by injection H as <- <-|done]).
  1, 3, 4: injection H as <- <-; injection Hu as <-; left; naive_solver.
  - right. eexists. destruct (Happ _ _ H) as (? & ? & ? & ?). by split_and!.
  - apply server_signature_inv in H as (x & keys & _ & -> & _). done.
Qed.

(** C25: A request that is attributed to a user carries an access token: one of
    a device of that user, which is then the request's device, or the token of
    an appservice in whose namespace the existing user is. *)
Theorem user_identity_verified {T} (ep : Endpoint T) now req w r w' u :
  from_request ep now req w = (Ok r, w') → sender_user r = Some u →
  ep_scheme ep ≠ SchemeServerSignatures ∧ sender_servername r = None ∧
  ∃ token, request_token (ep_scheme ep) req = Some token ∧
    ((∃ dv, sender_device r = Some dv ∧ (find_from_token token (db (services w))).1 = Ok (Some (u, dv)) ∧ appservice_info r = None) ∨
     (∃ info, sender_device r = None ∧ appservice_info r = Some info ∧ find_from_as_token token (services w) = Some info ∧
        is_user_match info u = true ∧ (exists_ u (db (services w))).1 = Ok true)).
Proof.
  intros H Hu. apply from_request_inv in H as (q & t & who & w1 & Hq & Hc & Hi & E & -> & -> & ->). rewrite E in Hu.
  apply classify_spec in Hc as [_ Ht].
  assert (id_server who = None) as ->.
  { destruct (id_server who) as [o|] eqn:Eo; [|done]. destruct (identify_server _ _ _ _ _ _ _ _ _ _ Hi Eo) as (_ & -> & Hs).
    apply server_signature_inv in Hs as (x & keys & _ & -> & _). done. }
  destruct (identify_user _ _ _ _ _ _ _ _ _ _ Hi Hu) as [(dv & -> & Ed & Ea & Hs)|(info & -> & Hs & Ed & Ea & Hm & Hex)].
  - split; [intros E'; rewrite E' in Hs; by destruct Hs as [|[]]|]. split; [done|]. destruct (request_token _ req) as [token|]; [|done]. destruct Ht as [_ Ht].
    exists token. split; [done|]. left. by exists dv.
  - split; [by rewrite Hs|]. split; [done|]. destruct (request_token _ req) as [token|]; [|done].
    exists token. split; [done|]. right. by exists info.
Qed.

(** An unknown token decides nothing by itself: with an [access_token] in
    the query, the request passes with no identity on every endpoint, also where
    an access token is required and where another server must sign, and no
    signature is looked at; with none in the query it is refused. *)
Theorem unknown_token_outcome {T} (ep : Endpoint T) now req w q token params b :
  read_body max_request_size req = Ok (rq_body req) → path_params (rq_uri req) = Some params →
  query_from_str (default [] (uri_query (rq_uri req))) = Some q →
  is_ok (auth_header (ep_scheme ep) req) = true → request_token (ep_scheme ep) req = Some token →
  find_from_as_token token (services w) = None → (find_from_token token (db (services w))).1 = Ok None →
  (∀ fields, from_slice (rq_body req) ≠ Some (VObject fields)) →
  try_from_http_request ep (mkHttpRequest (rq_method req) (rq_uri req) (rq_headers req) (rq_body req) (rq_broken req)) params = Some b →
  from_request ep now req w =
    (match qp_access_token q with
     | Some _ => Ok (mkRuma b None None None None (from_slice (rq_body req)))
     | None => Err (BadRequest UnknownToken "Unknown access token.")
     end, w).
Proof.
  intros Hb Hp Hq Hh Ht Ha Hf Hj Hd. unfold request_token in Ht. unfold RequestAuth.from_request, lift. rewrite Hb, Hp, Hq in *. cbn in Ht.
  destruct (auth_header (ep_scheme ep) req) as [h| |]; [|done..]. run.
  assert (on_services (classify (Some token)) w = (Ok TokenInvalid, w)) as Hc.
  { destruct w as [[d ri n qu] we ws]. unfold on_services, classify, on_db. run. rewrite Ha. cbn.
    pose proof (find_from_token_pure token d) as Hpure. cbn in Hf. destruct (find_from_token token d) as [r d']. cbn in *. by subst. }
  cbn [ok_or]. rewrite Ht, Hc.
  unfold RequestAuth.identify. run. case_bool_decide as Hs.
  - destruct Hs as [a ->]. destruct (from_slice (rq_body req)) as [[]|] eqn:Ej; try (by destruct (Hj fields));
      destruct (ep_scheme ep); cbn; by rewrite Hd.
  - destruct (qp_access_token q); [by destruct Hs|]. by destruct (ep_scheme ep).
Qed.
End guarantees.

(** ** Samples *)

Definition header (k : bytes) (h : list (bytes * bytes)) : option bytes := snd <$> find (λ e, bool_decide (e.1 = k)) h.

(** Headers that carry their fields; the query is the token. *)
Definition sample_http : Http := {|
  bearer h := match header (lit "bearer") h with Some t => Present t | None => Missing end;
  x_matrix_header h := match header (lit "origin") h, header (lit "key") h, header (lit "sig") h with
    | Some o, Some k, Some s => Present (mkXMatrix o (header (lit "destination") h) k s)
    | _, _, _ => Missing
    end;
  path_params uri := Some [];
  uri_query uri := tail <$> (guard (63 ∈ uri);; Some (drop (length (take_while (λ b, negb (b =? 63)) uri)) uri));
  query_from_str q := Some (mkQueryParams (guard (q ≠ []);; Some q) None);
|}.

(** One signature, which is the key. *)
Definition sample_verify (keys : gmap bytes (gmap bytes bytes)) (object : list (bytes * Value)) : bool :=
  match field (lit "signatures") object with
  | Some (VObject [(e, VObject [(k, VString s)])]) =>
      match keys !! e with Some ks => bool_decide (ks !! k = Some s) | None => false end
  | _ => false
  end.

Lemma sample_verify_sound keys object entities entity signatures :
  sample_verify keys object = true → field (lit "signatures") object = Some (VObject entities) → (entity, VObject signatures) ∈ entities →
  ∃ key_id sig public_keys key, (key_id, VString sig) ∈ signatures ∧ keys !! entity = Some public_keys ∧ public_keys !! key_id = Some key ∧ bool_decide (key = sig) = true.
Proof.
  unfold sample_verify. intros Hv Hf. rewrite Hf in Hv. destruct entities as [|[e [| | | | |sigs]] [|]]; try done.
  - destruct sigs as [|[k [| | |s| |]] [|]]; try done.
    destruct (keys !! e) as [ks|] eqn:Ek; [|done]. apply bool_decide_eq_true in Hv.
    intros [= -> ->]%list_elem_of_singleton. exists k, s, ks, s. split_and!; [by apply list_elem_of_singleton|done..|]. by apply bool_decide_eq_true.
  - by destruct sigs as [|[k [| | |s| |]] [|]].
Qed.

Definition sample_signed : SignedJson := {|
  verify_json := sample_verify;
  signature_valid key _ sig := bool_decide (key = sig);
  verify_json_sound := sample_verify_sound;
|}.

Definition answering : KeyServers := {|
  trusted_servers := [];
  get_server_keys _ := Some (published {[lit "ed25519:1" := lit "K1"]} 5000);
  get_remote_server_keys _ _ := None;
  get_remote_server_keys_batch _ _ := None;
|}.

Definition sample_request {T} := from_request (T := T) (RU := sample_ruma) (RX := sample_regex) (LP := {| localpart := λ u, tail (before_colon u) |})
  (HT := sample_http) (SJ := sample_signed) (KJ := sample_key_json) (KS := answering)
  (JV := json_countable Value) (lit "a") (lit "v") (lit "P") 100.

Definition sample_web (d : Db) : Web (RX := sample_regex) := mkWeb (mkServices d ∅ ∅ []) ∅ ∅.

Definition sample_endpoint (scheme : AuthScheme) : Endpoint bytes := mkEndpoint scheme (λ req _, Some (rq_uri req)).

Definition signed_get : HttpRequest := mkHttpRequest (lit "GET") (lit "/v1/state")
  [(lit "origin", lit "b"); (lit "key", lit "ed25519:1"); (lit "sig", lit "K1"); (lit "destination", lit "a")] [] false.

Lemma result_split {S A} (x : res A * S) (a : A) : x.1 = Ok a → x = (Ok a, x.2).
Proof. destruct x. cbn. by intros ->. Qed.

Lemma server_identity_verified_witness : ∃ key,
  KnownKey (KJ := sample_key_json) (KS := answering) (lit "a") (lit "v") (lit "P") 1000 empty_db (lit "b") (lit "ed25519:1") key ∧ key = lit "K1".
Proof.
  destruct (server_identity_verified (RU := sample_ruma) (RX := sample_regex) (LP := {| localpart := λ u, tail (before_colon u) |})
    (HT := sample_http) (SJ := sample_signed) (KJ := sample_key_json) (KS := answering) (JV := json_countable Value)
    (lit "a") (lit "v") (lit "P") 100 (sample_endpoint SchemeServerSignatures) 1000 signed_get (sample_web empty_db)
    (mkRuma (lit "/v1/state") None None (Some (lit "b")) None None)
    (sample_request (sample_endpoint SchemeServerSignatures) 1000 signed_get (sample_web empty_db)).2 (lit "b"))
    as (_ & _ & _ & _ & _ & x & key & Hx & _ & _ & Hk & Hs).
  - apply result_split. vm_compute. reflexivity.
  - reflexivity.
  - injection Hx as <-. exists key. split; [exact Hk|]. apply bool_decide_eq_true in Hs. exact Hs.
Defined.

(** A key on record that was valid until 500, used at 1000. *)
Definition expired_db : Db := upd server_signingkeys <[lit "b" := to_vec (Json := key_json (KeyJson := sample_key_json)) (published {[lit "ed25519:1" := lit "K1"]} 500)]> empty_db.

Lemma expired_key_accepted_witness :
  (server_signature (RX := sample_regex) (HT := sample_http) (SJ := sample_signed) (KJ := sample_key_json) (KS := sample_key_servers)
    (lit "a") (lit "v") (lit "P") 1000 signed_get None (sample_web expired_db)).1 = Ok (mkIdentity (RX := sample_regex) None None (Some (lit "b")) None).
Proof.
  apply (expired_key_accepted (RX := sample_regex) (HT := sample_http) (SJ := sample_signed) (KJ := sample_key_json) (KS := sample_key_servers)
    (lit "a") (lit "v") (lit "P") 1000 signed_get None (sample_web expired_db) (mkXMatrix (lit "b") (Some (lit "a")) (lit "ed25519:1") (lit "K1"))
    (mkSigningKeys {[lit "ed25519:1" := lit "K1"]} ∅ 500)).
  - reflexivity.
  - by right.
  - reflexivity.
  - vm_compute. reflexivity.
  - exists (lit "K1"). reflexivity.
  - reflexivity.
  - reflexivity.
  - vm_compute. reflexivity.
Defined.

Definition token_db : Db := upd userid_password <[lit "@u:a" := lit "x"]> (upd token_userdeviceid <[lit "TOK" := lit "@u:a" ++ ff :: lit "D"]> empty_db).

Definition token_get : HttpRequest := mkHttpRequest (lit "GET") (lit "/sync") [(lit "bearer", lit "TOK")] [] false.

Lemma user_identity_verified_witness : ∃ token, request_token (HT := sample_http) SchemeAccessToken token_get = Some token.
Proof.
  destruct (user_identity_verified (RU := sample_ruma) (RX := sample_regex) (LP := {| localpart := λ u, tail (before_colon u) |})
    (HT := sample_http) (SJ := sample_signed) (KJ := sample_key_json) (KS := sample_key_servers) (JV := json_countable Value)
    (lit "a") (lit "v") (lit "P") 100 (sample_endpoint SchemeAccessToken) 1000 token_get (sample_web token_db)
    (mkRuma (lit "/sync") (Some (lit "@u:a")) (Some (lit "D")) None None None)
    (from_request (RU := sample_ruma) (RX := sample_regex) (LP := {| localpart := λ u, tail (before_colon u) |})
      (HT := sample_http) (SJ := sample_signed) (KJ := sample_key_json) (KS := sample_key_servers) (JV := json_countable Value)
      (lit "a") (lit "v") (lit "P") 100 (sample_endpoint SchemeAccessToken) 1000 token_get (sample_web token_db)).2 (lit "@u:a"))
    as (_ & _ & token & Ht & _).
  - apply result_split. vm_compute. reflexivity.
  - reflexivity.
  - exists token. exact Ht.
Defined.

(** An unsigned request to a federation endpoint, with a made-up token. *)
Definition unsigned_get : HttpRequest := mkHttpRequest (lit "GET") (lit "/v1/state?x") [] [] false.

Lemma unknown_token_outcome_witness :
  sample_request (sample_endpoint SchemeServerSignatures) 1000 unsigned_get (sample_web empty_db) =
    (Ok (mkRuma (lit "/v1/state?x") None None None None None), sample_web empty_db).
Proof.
  apply (unknown_token_outcome (RU := sample_ruma) (RX := sample_regex) (LP := {| localpart := λ u, tail (before_colon u) |})
    (HT := sample_http) (SJ := sample_signed) (KJ := sample_key_json) (JV := json_countable Value)
    (lit "a") (lit "v") (lit "P") 100 (sample_endpoint SchemeServerSignatures) 1000 unsigned_get (sample_web empty_db)
    (mkQueryParams (Some (lit "x")) None) (lit "x") []); try reflexivity.
  intros fields H. vm_compute in H. discriminate H.
Defined.
