(* ===== verification/Migrations.v ===== *)
(** * Migrations: bringing an old database to the current layout

    The part of [KeyValueDatabase::load_or_create] in
    [server/src/database/mod.rs] that runs after the trees are opened: the
    check of the server name, the steps from version to version, the first run,
    and the tasks of the start.  The file system, base64, Argon2, ruma's push
    rules and content dispositions are parameters. *)
From S2P Require Import Prelude Bytes KvTree Pdu Database Short StateCompressor Accounts StateCache Timeline AccountData Devices UserKeys Appservice MediaStore MediaInv MediaService.

(** ** Push rules (ruma) *)

(** A rule: its id and everything else. *)
Record PushRule := mkPushRule { rule_id : bytes; rule_rest : bytes }.

(** The kinds the migrations rename rules of, and everything else. *)
Record Ruleset := mkRuleset { rs_content : list PushRule; rs_underride : list PushRule; rs_rest : bytes }.

(** [PushRulesEvent]. *)
Record PushRulesEvent := mkPushRulesEvent { pr_global : Ruleset }.

(** An entry of a directory: its name, whether it is a file, and its times. *)
Record DirEntry := mkDirEntry { de_name : bytes; de_is_file : bool; de_created : option Z; de_accessed : option Z }.

(** The rest of the file system; a folder that cannot be read has no listing. *)
Class Folders (D : Type) := {
  fs_rename : list bytes → list bytes → D → (IoKind + unit) * D;
  fs_read_dir : list bytes → D → option (list DirEntry);
}.

Class MigrationEnv := {
  database_path : bytes;
  base64_encode : bytes → bytes;
  base64_decode : bytes → option bytes;
  argon2_verify_encoded : bytes → bytes → bool;
  server_default : bytes → Ruleset;
  empty_ruleset : Ruleset;
  update_with_server_default : Ruleset → Ruleset → Ruleset;
  (* the file name of a content disposition; [None] when it does not parse *)
  disposition_filename : bytes → option (option bytes);
  (* the server and the media id of an mxc uri *)
  mxc_parts : bytes → option (bytes * bytes);
}.

(** [IndexSet] of rules, which are equal when their ids are. *)
Definition get_rule (id : bytes) (l : list PushRule) : option PushRule := find (λ r, bool_decide (rule_id r = id)) l.

Definition shift_remove (id : bytes) (l : list PushRule) : list PushRule := bfilter (λ r, negb (bool_decide (rule_id r = id))) l.

Definition insert_rule (rule : PushRule) (l : list PushRule) : list PushRule :=
  match get_rule (rule_id rule) l with Some _ => l | None => l ++ [rule] end.

Definition rename_rule (l : list PushRule) (transformation : bytes * bytes) : list PushRule :=
  match get_rule transformation.1 l with
  | Some rule => insert_rule (mkPushRule transformation.2 (rule_rest rule)) (shift_remove transformation.1 l)
  | None => l
  end.

Definition content_rule_transformation : bytes * bytes := (lit ".m.rules.contains_user_name", lit ".m.rule.contains_user_name").

Definition underride_rule_transformation : list (bytes * bytes) :=
  [(lit ".m.rules.call", lit ".m.rule.call"); (lit ".m.rules.room_one_to_one", lit ".m.rule.room_one_to_one");
   (lit ".m.rules.encrypted_room_one_to_one", lit ".m.rule.encrypted_room_one_to_one");
   (lit ".m.rules.message", lit ".m.rule.message"); (lit ".m.rules.encrypted", lit ".m.rule.encrypted")].

Definition rename_rules (rules : Ruleset) : Ruleset :=
  mkRuleset (rename_rule (rs_content rules) content_rule_transformation)
    (fold_left rename_rule underride_rule_transformation (rs_underride rules)) (rs_rest rules).

(** ** State: the database, the disk, and the trees only old versions use *)

Record Old (D : Type) := mkOld {
  o_media : MediaState D;
  mediaid_file : Tree;
  stateid_shorteventid : Tree;
  uiaarequest_tree : Tree;
}.
Arguments mkOld {D} _ _ _ _.
Arguments o_media {D} _.
Arguments mediaid_file {D} _.
Arguments stateid_shorteventid {D} _.
Arguments uiaarequest_tree {D} _.

Definition o_db {D} (o : Old D) : Db := ms_db (o_media o).

Section migrations.
Context {RU : Ruma} {LR : LruCache} {HO : HashOrder} {D : Type} {ST : Storage D} {FO : Folders D} {ME : MediaEnv} {MG : MigrationEnv}.
Context `{JP : !Json PduEvent, JM : !Json (gmap bytes bytes)} {Obj : Type} `{JO : !Json Obj}.
(** serde_json on [PushRulesEvent], and the generic value it becomes. *)
Context {Value : Type} `{JV : !Json Value} (has_field : bytes → Value → bool).
Context (push_rules_of : Value → option PushRulesEvent) (to_value : PushRulesEvent → Value).
Context (calculate_password_hash : bytes → option bytes).

Definition on_media {A} (m : M (MediaState D) A) : M (Old D) A := λ o,
  let '(r, s) := m (o_media o) in (r, mkOld s (mediaid_file o) (stateid_shorteventid o) (uiaarequest_tree o)).

Definition on_odb {A} (m : M Db A) : M (Old D) A := on_media (on_store m).

Definition set_mediaid_file (f : Tree → Tree) : M (Old D) unit :=
  modify (λ o, mkOld (o_media o) (f (mediaid_file o)) (stateid_shorteventid o) (uiaarequest_tree o)).

Definition clear_uiaarequests : M (Old D) unit :=
  modify (λ o, mkOld (o_media o) (mediaid_file o) (stateid_shorteventid o) (kv_clear (uiaarequest_tree o))).

(** The entries of a tree; the loops iterate over a snapshot. *)
Definition entries_of (t : Table) : M (Old D) (list entry) := gets (λ o, Ok (kv_iter (kv (o_db o) t))).

Definition media_folder : list bytes := [database_path; lit "media"].

Definition media_file_old (key : bytes) : list bytes := media_folder ++ [base64_encode key].

(** *** 0 to 1 *)
Definition migrate_1 : M (Old D) unit :=
  l ← entries_of roomserverids;
  for_each l (λ e,
    match split_ff e.1 with
    | room_id :: servername :: _ => on_odb (insert serverroomids (servername ++ ff :: room_id) [])
    | _ => mret tt
    end).

(** *** 1 to 2: hashed versions of the empty password *)
Definition migrate_2 : M (Old D) unit :=
  l ← entries_of userid_password;
  for_each l (λ e,
    let empty_hashed_password := match string_from_bytes e.2 with Some password => argon2_verify_encoded password [] | None => false end in
    if empty_hashed_password then on_odb (insert userid_password e.1 []) else mret tt).

(** *** 2 to 3: media to the file system *)
Definition migrate_3 : M (Old D) unit :=
  l ← gets (λ o, Ok (kv_iter (mediaid_file o)));
  for_each l (λ e,
    if bool_decide (e.2 = []) then mret tt else
    r ← on_media (io (fs_write (media_file_old e.1) e.2)); io_ok r;;
    set_mediaid_file (λ t, kv_insert t e.1 [])).

(** *** 3 to 4: federated users as deactivated *)
Definition migrate_4 : M (Old D) unit :=
  l ← gets (λ o, Ok (iter (o_db o)));
  for_each l (λ our_user,
    our_user ← lift our_user;
    deactivated ← on_odb (is_deactivated our_user);
    if (deactivated : bool) then mret tt else
    rooms ← gets (λ o, Ok (rooms_joined our_user (o_db o)));
    for_each rooms (λ room,
      room ← lift room;
      users ← gets (λ o, Ok (room_members room (o_db o)));
      for_each users (λ user,
        user ← lift user;
        if bool_decide (server_name_of user = own_server_name) then mret tt
        else on_odb (Devices.create calculate_password_hash user None)))).

(** *** 4 to 5: the index of the account data; [split] gives two parts or
    panics *)
Definition migrate_5 : M (Old D) unit :=
  l ← entries_of roomuserdataid_accountdata;
  for_each l (λ e,
    match split_ff e.1 with
    | room_id :: user_id :: _ =>
        on_odb (insert roomusertype_roomuserdataid (room_id ++ ff :: user_id ++ ff :: rsplit_first e.1) e.1)
    | _ => lift Panic
    end).

(** *** 5 to 6: the member counts *)
Definition migrate_6 : M (Old D) unit :=
  l ← entries_of roomid_shortstatehash;
  for_each l (λ e,
    match string_from_bytes e.1 with
    | Some room_id => if room_id_ok room_id then on_odb (update_joined_count own_server_name room_id) else lift Panic
    | None => lift Panic
    end).

(** *** 6 to 7: the compressed state *)

Record Walk := mkWalk {
  last_roomstates : gmap bytes Z;
  current_sstatehash : option Z;
  current_room : option bytes;
  current_state : gset bytes;
}.

Definition handle_state (sstatehash : Z) (room : bytes) (state : gset bytes) (last_roomstates : gmap bytes Z) : M Db unit :=
  states_parents ← match last_roomstates !! room with
    | None => mret []
    | Some last_roomsstatehash => load_shortstatehash_info last_roomsstatehash
    end;
  let '(statediffnew, statediffremoved) := match last states_parents with
    | Some parent_stateinfo => (state ∖ full_state parent_stateinfo, full_state parent_stateinfo ∖ state)
    | None => (state, ∅)
    end in
  (* every state change is 2 event changes on average *)
  save_state_from_diff sstatehash statediffnew statediffremoved 2 states_parents.

(** The room of an event of the state; everything is unwrapped. *)
Definition room_of_short (seventid : bytes) : M Db bytes :=
  o ← get shorteventid_eventid seventid;
  event_id ← lift (expect (o ≫= string_from_bytes));
  assert (event_id_ok event_id);;
  r ← attempt (get_pdu event_id);
  pdu ← lift (match r with Ok (Some pdu) => Ok pdu | _ => Panic end);
  lift (Database.room_id pdu).

Definition finish_state (w : Walk) : M Db unit :=
  match current_sstatehash w with
  | Some sstatehash =>
      room ← lift (expect (current_room w));
      handle_state sstatehash room (current_state w) (last_roomstates w)
  | None => mret tt
  end.

Definition walk_entry (w : Walk) (e : entry) : M Db Walk :=
  let '(k, seventid) := e in
  assert (bool_decide (8 ≤ length k)%nat);;
  sstatehash ← lift (expect (u64_from_bytes (take 8 k)));
  let sstatekey := drop 8 k in
  w ← (if bool_decide (Some sstatehash = current_sstatehash w) then mret w else
    last_roomstates ← match current_sstatehash w with
      | Some current =>
          room ← lift (expect (current_room w));
          handle_state current room (current_state w) (last_roomstates w);;
          mret (<[room := current]> (last_roomstates w))
      | None => mret (last_roomstates w)
      end;
    room ← room_of_short seventid;
    mret (mkWalk last_roomstates (Some sstatehash) (Some room) ∅));
  let val := sstatekey ++ seventid in
  assert (bool_decide (length val = 16%nat));;
  mret (mkWalk (last_roomstates w) (current_sstatehash w) (current_room w) ({[val]} ∪ current_state w)).

Definition migrate_7 : M (Old D) unit :=
  l ← gets (λ o, Ok (kv_iter (stateid_shorteventid o)));
  on_odb (w ← foldM walk_entry (mkWalk ∅ None None ∅) l; finish_state w).

(** *** 7 to 8: short room ids in the positions of events *)

(** [splitn(2, 0xff)] of a key, and the short id of the room. *)
Definition with_short_room (o : Db) (key : bytes) : res bytes :=
  match splitn2 key with
  | (room_id, Some count) => short_room_id ← expect (kv o roomid_shortroomid !! room_id); Ok (short_room_id ++ count)
  | _ => Panic
  end.

Definition migrate_8 : M (Old D) unit :=
  l ← entries_of roomid_shortstatehash;
  for_each l (λ e,
    shortroomid ← on_odb next_count;
    on_odb (insert roomid_shortroomid e.1 (to_be_bytes shortroomid)));;
  batch ← gets (λ o, collect ((λ e, new_key ← with_short_room (o_db o) e.1; Ok (new_key, e.2))
    <$> bfilter (λ e, starts_with (lit "!") e.1) (kv_iter (kv (o_db o) pduid_pdu))));
  on_odb (insert_batch pduid_pdu batch);;
  batch2 ← gets (λ o, collect ((λ e, new_value ← with_short_room (o_db o) e.2; Ok (e.1, new_value))
    <$> bfilter (λ e, starts_with (lit "!") e.2) (kv_iter (kv (o_db o) eventid_pduid))));
  on_odb (insert_batch eventid_pduid batch2).

(** *** 8 to 9: short room ids in the search index *)

(** [splitn(4, 0xff)]: room, word, the room of the position, its count. *)
Definition new_token (o : Db) (key : bytes) : res entry :=
  match splitn2 key with
  | (room_id, Some rest) =>
      match splitn2 rest with
      | (word, Some rest) =>
          match splitn2 rest with
          | (_, Some pdu_id_count) =>
              short_room_id ← expect (kv o roomid_shortroomid !! room_id);
              Ok (short_room_id ++ word ++ ff :: pdu_id_count, [])
          | _ => Panic
          end
      | _ => Panic
      end
  | _ => Panic
  end.

Definition migrate_9 : M (Old D) unit :=
  l ← gets (λ o, collect ((λ e, new_token (o_db o) e.1) <$> bfilter (λ e, starts_with (lit "!") e.1) (kv_iter (kv (o_db o) tokenids))));
  for_each (chunks 1000 l) (λ batch, on_odb (insert_batch tokenids batch));;
  batch2 ← entries_of tokenids;
  for_each (bfilter (λ e, starts_with (lit "!") e.1) batch2) (λ e, on_odb (remove tokenids e.1)).

(** *** 9 to 10: the other direction of the state keys, and device updates *)
Definition migrate_10 : M (Old D) unit :=
  l ← entries_of statekey_shortstatekey;
  for_each l (λ e, on_odb (insert shortstatekey_statekey e.2 e.1));;
  users ← gets (λ o, Ok (oks (iter (o_db o))));
  for_each users (λ user_id, on_odb (mark_device_key_update user_id)).

(** *** 11 to 13: push rules *)

(** Change the push rules of every local user; users without readable rules
    panic. *)
Definition update_push_rules (f : bytes → Ruleset → Ruleset) : M (Old D) unit :=
  l ← gets (λ o, Ok (list_local_users (o_db o)));
  for_each l (λ username,
    match parse_with_server_name username own_server_name with
    | None => mret tt
    | Some user =>
        r ← attempt (on_odb (get_data None user (lit "m.push_rules")));
        raw_rules_list ← lift (match r with Ok (Some v) => Ok v | _ => Panic end);
        account_data ← lift (expect (push_rules_of raw_rules_list));
        on_odb (update has_field None user (lit "m.push_rules") (to_value (mkPushRulesEvent (f user (pr_global account_data)))))
    end).

Definition migrate_12 : M (Old D) unit := update_push_rules (λ _, rename_rules).

Definition migrate_13 : M (Old D) unit := update_push_rules (λ user rules, update_with_server_default rules (server_default user)).

(** *** 13 to 16: quoted file names in the names of media files *)

(** The text before and after the first occurrence of a pattern. *)
Fixpoint find_sub (pat s : bytes) : option (bytes * bytes) :=
  if starts_with pat s then Some ([], drop (length pat) s)
  else match s with
       | [] => None
       | b :: s' => match find_sub pat s' with Some (before, after) => Some (b :: before, after) | None => None end
       end.

Definition contains_sub (pat s : bytes) : bool := bool_decide (is_Some (find_sub pat s)).

(** [replacen(pat, to, 1)]. *)
Definition replace_first (pat to s : bytes) : bytes :=
  match find_sub pat s with Some (before, after) => before ++ to ++ after | None => s end.

Definition quote : bytes := [34].

Definition migrate_content_disposition_format (mediaid : bytes) : M (Old D) unit :=
  let parts := reverse (split_ff mediaid) in
  content_type_bytes ← lift (expect (parts !! 0%nat));
  content_disposition_bytes ← lift (ok_or (parts !! 1%nat) (BadDatabase "File with invalid name in media directory"));
  let removed_bytes := (length content_type_bytes + 1 + length content_disposition_bytes)%nat in
  content_disposition ← lift (ok_or (string_from_bytes content_disposition_bytes) (BadDatabase "Content Disposition in mediaid_file is invalid."));
  if contains_sub (lit "filename=") content_disposition && negb (contains_sub (lit "filename=" ++ quote) content_disposition) then
    let content_disposition := replace_first (lit "filename=") (lit "filename=" ++ quote) content_disposition ++ quote in
    let new_key := take (length mediaid - removed_bytes) mediaid in
    assert (bool_decide (last new_key = Some ff));;
    let shorter_key := new_key ++ lit "inline" ++ ff :: content_type_bytes in
    let new_key := new_key ++ content_disposition ++ ff :: content_type_bytes in
    (* Some file names are too long. Ignore those. *)
    r ← on_media (io (fs_rename (media_file_old mediaid) (media_file_old new_key)));
    match r with
    | inr _ => set_mediaid_file (λ t, kv_insert t new_key [])
    | inl _ =>
        r ← on_media (io (fs_rename (media_file_old mediaid) (media_file_old shorter_key)));
        match r with inr _ => set_mediaid_file (λ t, kv_insert t shorter_key []) | inl _ => lift Panic end
    end
  else set_mediaid_file (λ t, kv_insert t mediaid []).

(** The entries of a folder that must be readable. *)
Definition read_dir (path : list bytes) : M (Old D) (list DirEntry) :=
  gets (λ o, expect (fs_read_dir path (ms_disk (o_media o)))).

Definition migrate_16 : M (Old D) unit :=
  set_mediaid_file kv_clear;;
  l ← read_dir media_folder;
  for_each l (λ file,
    assert (utf8_valid (de_name file));;
    mediaid ← lift (expect (base64_decode (de_name file)));
    migrate_content_disposition_format mediaid).

(** *** 16 to 17: files by their digest *)

(** What an old file name says of the file. *)
Record OldMedia := mkOldMedia {
  om_server_name : bytes;
  om_media_id : bytes;
  om_width_height : bytes;
  om_filename : option bytes;
  om_content_type : option bytes;
}.

Definition parse_media_info (media_info : bytes) : res OldMedia :=
  let '(mxc, rest) := splitn2 media_info in
  rest ← ok_or rest (BadDatabase "Invalid format of media info from file's name");
  mxc ← ok_or (string_from_bytes mxc) (BadDatabase "MXC from file's name is invalid UTF-8.");
  '(server_name, media_id) ← ok_or (mxc_parts mxc) (BadDatabase "MXC from file's name is invalid.");
  if bool_decide (length rest < 8)%nat then Err (BadDatabase "Invalid format of media info from file's name") else
  if bool_decide (length rest < 9)%nat then Err (BadDatabase "Invalid format of media info from file's name") else
  let parts := split_ff (drop 9 rest) in
  content_disposition_bytes ← ok_or (parts !! 0%nat)
    (BadDatabase "Media ID parsed from file's name is invalid: Missing Content Disposition.");
  content_type ← map_transpose (λ bs, ok_or (string_from_bytes bs) (BadDatabase "Content type from file's name is invalid UTF-8.")) (parts !! 1%nat);
  Ok (mkOldMedia server_name media_id (take 8 rest) (default None (disposition_filename content_disposition_bytes)) content_type).

(** The entries of a file or a thumbnail; the last separator marks it as
    available on unauthenticated endpoints. *)
Definition store_old_media (now : Z) (m : OldMedia) (digest : bytes) (file_size : Z) (creation last_accessed : option Z) : M Db unit :=
  insert filehash_metadata digest (new_with_times file_size (default now creation) (default now last_accessed));;
  let key := media_key (om_server_name m) (om_media_id m) in
  let value := metadata_value digest (om_filename m) (om_content_type m) ++ [ff] in
  if bool_decide (om_width_height m = replicate 8 0) then
    insert filehash_servername_mediaid (digest ++ key) [];;
    insert servernamemediaid_metadata key value
  else
    insert filehash_thumbnailid (digest ++ key ++ ff :: om_width_height m) [];;
    insert thumbnailid_metadata (key ++ ff :: om_width_height m) value.

Definition migrate_to_sha256_media (now : Z) (file_name : bytes) (creation last_accessed : option Z) : M (MediaState D) unit :=
  media_info ← lift (expect (base64_decode file_name));
  m ← lift (parse_media_info media_info);
  let path := media_folder ++ [file_name] in
  r ← disk (fs_read path);
  file ← io_ok r;
  let '(digest, sha256_hex) := generate_digests file in
  file_size ← lift (MediaService.size file);
  on_store (store_old_media now m digest file_size creation last_accessed);;
  create_file sha256_hex file;;
  r ← io (fs_remove_file path); io_ok r.

(** Only files whose name starts like an encoded mxc uri. *)
Definition is_old_media (file : DirEntry) : bool := de_is_file file && starts_with (base64_encode (lit "mxc://")) (de_name file).

Definition migrate_17 (now : Z) : M (Old D) unit :=
  set_mediaid_file kv_clear;;
  l ← read_dir media_folder;
  for_each l (λ file,
    (if de_is_file file then assert (utf8_valid (de_name file)) else mret tt);;
    if is_old_media file then on_media (migrate_to_sha256_media now (de_name file) (de_created file) (de_accessed file)) else mret tt).

(** *** 17 to 18: the directories of the media *)

(** [path.join(name).parent()]: trailing separators are dropped. *)
Definition trim_slashes (path : bytes) : bytes :=
  match reverse (drop (length (take_while (λ b, b =? 47) (reverse path))) (reverse path)) with [] => take 1 path | p => p end.

Definition migrate_18 : M (Old D) unit :=
  match media_backend with
  | FileSystem path (Deep length depth) =>
      l ← read_dir [path];
      for_each l (λ file,
        if bool_decide (Datatypes.length (de_name file) = 64%nat) && bool_decide (trim_slashes path = path) then
          assert (utf8_valid (de_name file));;
          new ← lift (get_media_path path (Deep length depth) (de_name file));
          r ← on_media (io (fs_rename [path; de_name file] new)); io_ok r
        else mret tt)
  | _ => mret tt
  end.

(** ** All steps *)

(** [if database_version()? < to { step; bump_database_version(bump)? }]. *)
Definition step_to (to bump : Z) (step : M (Old D) unit) : M (Old D) unit :=
  version ← on_odb database_version;
  if version <? to then step;; on_odb (bump_database_version bump) else mret tt.

Definition latest_database_version : Z := 18.

Definition migration_steps (now : Z) : M (Old D) unit :=
  step_to 1 1 migrate_1;;
  step_to 2 2 migrate_2;;
  step_to 3 3 migrate_3;;
  step_to 4 4 migrate_4;;
  step_to 5 5 migrate_5;;
  step_to 6 6 migrate_6;;
  step_to 7 7 migrate_7;;
  step_to 8 8 migrate_8;;
  step_to 9 9 migrate_9;;
  step_to 10 10 migrate_10;;
  step_to 11 11 clear_uiaarequests;;
  step_to 12 12 migrate_12;;
  step_to 13 13 migrate_13;;
  step_to 16 16 migrate_16;;
  step_to 17 18 (migrate_17 now);;
  step_to 18 18 migrate_18.

Definition migrate (now : Z) : M (Old D) unit :=
  migration_steps now;;
  version ← attempt (on_odb database_version);
  assert (match version with Ok v => v =? latest_database_version | _ => false end).

(** The password of the server's account. *)
Definition set_emergency_access (server_user : bytes) (emergency_password : option bytes) : M Db bool :=
  set_password calculate_password_hash server_user emergency_password;;
  let '(ruleset, res) := match emergency_password with
    | Some _ => (server_default server_user, true)
    | None => (empty_ruleset, false)
    end in
  update has_field None server_user (lit "m.push_rules") (to_value (mkPushRulesEvent ruleset));;
  mret res.

(** [load_or_create] after the services are built.  The first run makes the
    admin room. *)
Definition prepare (create_admin_room : M (Old D) unit) (now : Z) (server_user : bytes) (emergency_password : option bytes) : M (Old D) (option bool) :=
  count ← on_odb Accounts.count;
  (if 0 <? count then
     ex ← on_odb (exists_ server_user);
     if negb ex then
       fail (BadDatabase "Cannot reuse an existing database after changing the server name, please delete the old one first.")
     else mret tt
   else mret tt);;
  count ← on_odb Accounts.count;
  (if 0 <? count then migrate now
   else on_odb (bump_database_version latest_database_version);; create_admin_room);;
  on_odb (modify (upd presenceid_presence kv_clear));;
  try_ok (on_odb (set_emergency_access server_user emergency_password)).
End migrations.

(** ** The trees *)

(** The name each field of [KeyValueDatabase] is opened under. *)
Definition open_tree_name (t : Table) : bytes :=
  match t with
  | global => lit "global"
  | server_signingkeys => lit "server_signingkeys"
  | userid_password => lit "userid_password"
  | userid_displayname => lit "userid_displayname"
  | userid_avatarurl => lit "userid_avatarurl"
  | userid_blurhash => lit "userid_blurhash"
  | userdeviceid_token => lit "userdeviceid_token"
  | userdeviceid_metadata => lit "userdeviceid_metadata"
  | userid_devicelistversion => lit "userid_devicelistversion"
  | token_userdeviceid => lit "token_userdeviceid"
  | onetimekeyid_onetimekeys => lit "onetimekeyid_onetimekeys"
  | userid_lastonetimekeyupdate => lit "userid_lastonetimekeyupdate"
  | keychangeid_userid => lit "keychangeid_userid"
  | keyid_key => lit "keyid_key"
  | userid_masterkeyid => lit "userid_masterkeyid"
  | userid_selfsigningkeyid => lit "userid_selfsigningkeyid"
  | userid_usersigningkeyid => lit "userid_usersigningkeyid"
  | openidtoken_expiresatuserid => lit "openidtoken_expiresatuserid"
  | userfilterid_filter => lit "userfilterid_filter"
  | todeviceid_events => lit "todeviceid_events"
  | userdevicesessionid_uiaainfo => lit "userdevicesessionid_uiaainfo"
  | readreceiptid_readreceipt => lit "readreceiptid_readreceipt"
  | roomuserid_privateread => lit "roomuserid_privateread"
  | roomuserid_lastprivatereadupdate => lit "roomuserid_lastprivatereadupdate"
  | presenceid_presence => lit "presenceid_presence"
  | userid_lastpresenceupdate => lit "userid_lastpresenceupdate"
  | pduid_pdu => lit "pduid_pdu"
  | eventid_pduid => lit "eventid_pduid"
  | roomid_pduleaves => lit "roomid_pduleaves"
  | alias_roomid => lit "alias_roomid"
  | aliasid_alias => lit "aliasid_alias"
  | publicroomids => lit "publicroomids"
  | threadid_userids => lit "threadid_userids"
  | tokenids => lit "tokenids"
  | roomserverids => lit "roomserverids"
  | serverroomids => lit "serverroomids"
  | userroomid_joined => lit "userroomid_joined"
  | roomuserid_joined => lit "roomuserid_joined"
  | roomid_joinedcount => lit "roomid_joinedcount"
  | roomid_invitedcount => lit "roomid_invitedcount"
  | roomuseroncejoinedids => lit "roomuseroncejoinedids"
  | userroomid_invitestate => lit "userroomid_invitestate"
  | roomuserid_invitecount => lit "roomuserid_invitecount"
  | userroomid_knockstate => lit "userroomid_knockstate"
  | roomuserid_knockcount => lit "roomuserid_knockcount"
  | userroomid_leftstate => lit "userroomid_leftstate"
  | roomuserid_leftcount => lit "roomuserid_leftcount"
  | alias_userid => lit "alias_userid"
  | disabledroomids => lit "disabledroomids"
  | lazyloadedids => lit "lazyloadedids"
  | userroomid_notificationcount => lit "userroomid_notificationcount"
  | userroomid_highlightcount => lit "userroomid_highlightcount"
  | roomid_shortstatehash => lit "roomid_shortstatehash"
  | roomsynctoken_shortstatehash => lit "roomsynctoken_shortstatehash"
  | shorteventid_shortstatehash => lit "shorteventid_shortstatehash"
  | statekey_shortstatekey => lit "statekey_shortstatekey"
  | shortstatekey_statekey => lit "shortstatekey_statekey"
  | roomid_shortroomid => lit "roomid_shortroomid"
  | shorteventid_eventid => lit "shorteventid_eventid"
  | eventid_shorteventid => lit "eventid_shorteventid"
  | statehash_shortstatehash => lit "statehash_shortstatehash"
  | shortstatehash_statediff => lit "shortstatehash_statediff"
  | shorteventid_authchain => lit "shorteventid_authchain"
  | eventid_outlierpdu => lit "eventid_outlierpdu"
  | softfailedeventids => lit "softfailedeventids"
  | tofrom_relation => lit "tofrom_relation"
  | referencedevents => lit "referencedevents"
  | roomuserdataid_accountdata => lit "roomuserdataid_accountdata"
  | roomusertype_roomuserdataid => lit "roomusertype_roomuserdataid"
  | servernamemediaid_metadata => lit "servernamemediaid_metadata"
  | filehash_servername_mediaid => lit "filehash_servername_mediaid"
  | filehash_metadata => lit "filehash_metadata"
  | blocked_servername_mediaid => lit "blocked_servername_mediaid"
  | servername_userlocalpart_mediaid => lit "servername_userlocalpart_mediaid"
  | servernamemediaid_userlocalpart => lit "servernamemediaid_userlocalpart"
  | thumbnailid_metadata => lit "thumbnailid_metadata"
  | filehash_thumbnailid => lit "filehash_thumbnailid"
  | backupid_algorithm => lit "backupid_algorithm"
  | backupid_etag => lit "backupid_etag"
  | backupkeyid_backup => lit "backupkeyid_backup"
  | userdevicetxnid_response => lit "userdevicetxnid_response"
  | servername_educount => lit "servername_educount"
  | servernameevent_data => lit "servernameevent_data"
  | servercurrentevent_data => lit "servercurrentevent_data"
  | id_appserviceregistrations => lit "id_appserviceregistrations"
  | senderkey_pusher => lit "senderkey_pusher"
  end.

Definition all_tables : list Table :=
  [global; server_signingkeys; userid_password; userid_displayname; userid_avatarurl; userid_blurhash; userdeviceid_token;
   userdeviceid_metadata; userid_devicelistversion; token_userdeviceid; onetimekeyid_onetimekeys; userid_lastonetimekeyupdate;
   keychangeid_userid; keyid_key; userid_masterkeyid; userid_selfsigningkeyid; userid_usersigningkeyid; openidtoken_expiresatuserid;
   userfilterid_filter; todeviceid_events; userdevicesessionid_uiaainfo; readreceiptid_readreceipt; roomuserid_privateread;
   roomuserid_lastprivatereadupdate; presenceid_presence; userid_lastpresenceupdate; pduid_pdu; eventid_pduid; roomid_pduleaves;
   alias_roomid; aliasid_alias; publicroomids; threadid_userids; tokenids; roomserverids; serverroomids; userroomid_joined;
   roomuserid_joined; roomid_joinedcount; roomid_invitedcount; roomuseroncejoinedids; userroomid_invitestate; roomuserid_invitecount;
   userroomid_knockstate; roomuserid_knockcount; userroomid_leftstate; roomuserid_leftcount; alias_userid; disabledroomids;
   lazyloadedids; userroomid_notificationcount; userroomid_highlightcount; roomid_shortstatehash; roomsynctoken_shortstatehash;
   shorteventid_shortstatehash; statekey_shortstatekey; shortstatekey_statekey; roomid_shortroomid; shorteventid_eventid;
   eventid_shorteventid; statehash_shortstatehash; shortstatehash_statediff; shorteventid_authchain; eventid_outlierpdu;
   softfailedeventids; tofrom_relation; referencedevents; roomuserdataid_accountdata; roomusertype_roomuserdataid;
   servernamemediaid_metadata; filehash_servername_mediaid; filehash_metadata; blocked_servername_mediaid;
   servername_userlocalpart_mediaid; servernamemediaid_userlocalpart; thumbnailid_metadata; filehash_thumbnailid; backupid_algorithm;
   backupid_etag; backupkeyid_backup; userdevicetxnid_response; servername_educount; servernameevent_data; servercurrentevent_data;
   id_appserviceregistrations; senderkey_pusher].

(** Different fields are different trees, apart from the two that share one. *)
Lemma open_tree_name_inj t t' : open_tree_name t = open_tree_name t' → t = t'.
Proof.
  assert (∀ t, find (λ t', bool_decide (open_tree_name t' = open_tree_name t)) all_tables = Some t) as H by (by intros []; vm_compute).
  intros E. pose proof (H t) as H1. rewrite E, (H t') in H1. congruence.
Qed.

(** ** Before and after *)

(** [check_db_setup]: the database found at the path is the one configured. *)
Definition check_db_setup (sled_exists sqlite_exists rocksdb_exists : bool) (database_backend : bytes) : res unit :=
  let count := Z.b2z sled_exists + Z.b2z sqlite_exists + Z.b2z rocksdb_exists in
  if 1 <? count then Ok tt
  else if sled_exists && negb (bool_decide (database_backend = lit "sled")) then
    Err (BadConfig "Found sled at database_path, but is not specified in config.")
  else if sqlite_exists && negb (bool_decide (database_backend = lit "sqlite")) then
    Err (BadConfig "Found sqlite at database_path, but is not specified in config.")
  else if rocksdb_exists && negb (bool_decide (database_backend = lit "rocksdb")) then
    Err (BadConfig "Found rocksdb at database_path, but is not specified in config.")
  else Ok tt.

Record CheckForUpdatesResponseEntry := mkUpdate { up_id : Z; up_date : bytes; up_message : bytes }.

(** One round of the update check; [response] is the answer, absent when it
    could not be had, and in turn absent when it does not parse. *)
Definition try_handle_updates {RX : Regex} (response : option (option (list CheckForUpdatesResponseEntry))) : M Services unit :=
  response ← lift (ok_or response ReqwestError);
  updates ← lift (ok_or response (BadServerResponse "Bad version check response"));
  last_update_id ← on_db last_check_for_updates_id;
  last_update_id ← foldM (λ last_update_id update,
    checked ← on_db last_check_for_updates_id;
    (if checked <? up_id update then
       send_admin_message (lit "@room: The following is a message from the Conduit developers. It was sent on '" ++ up_date update ++ lit "':" ++ [10; 10] ++ up_message update)
     else mret tt);;
    mret (Z.max last_update_id (up_id update))) last_update_id updates;
  on_db (update_check_for_updates_id last_update_id).
