(* ===== verification/MigrationsInv.v ===== *)
(** * MigrationsInv: what the migrations guarantee

    Every database that can be brought up to date ends at the latest version;
    the old state store becomes layers that hold the same states; and files of
    the old media repository are found under their digest. *)
From S2P Require Import Prelude Bytes KvTree Pdu Database Short StateCompressor Accounts StateCache Timeline AccountData Devices UserKeys MediaStore MediaInv MediaService MediaFiles AuthChain Migrations.

(** ** Versions *)

Section versions.
Context {D : Type}.
Implicit Types o : Old D.

(** The version a step leaves. *)
Definition after_step (to bump v : Z) : Z := if v <? to then bump else v.

Lemma after_step_max to v : after_step to to v = Z.max v to.
Proof. unfold after_step. destruct (Z.ltb_spec v to); lia. Qed.

Definition version_of (o : Old D) : option Z := ok (database_version (o_db o)).1.

Lemma on_odb_eq {A} (m : M Db A) o :
  on_odb m o = ((m (o_db o)).1, mkOld (mkMediaState (m (o_db o)).2 (ms_disk (o_media o))) (mediaid_file o) (stateid_shorteventid o) (uiaarequest_tree o)).
Proof. unfold on_odb, on_media, on_store, o_db. by destruct (m (ms_db (o_media o))). Qed.

Lemma read_version o v : version_of o = Some v → on_odb database_version o = (Ok v, o).
Proof.
  unfold version_of. rewrite on_odb_eq. intros H.
  assert ((database_version (o_db o)).2 = o_db o) as -> by done.
  destruct (database_version (o_db o)).1; [|done..]. cbn in H. injection H as ->. by destruct o as [[] ? ? ?].
Qed.

Lemma bump_version o v : is_u64 v → version_of (on_odb (bump_database_version v) o).2 = Some v.
Proof.
  intros Hv. rewrite on_odb_eq. unfold version_of, o_db, database_version, bump_database_version, get, insert, kv_get, kv_insert. run. cbn [snd ms_db o_media].
  kv_simpl. rewrite lookup_insert_eq. cbn [ok_or]. by rewrite u64_from_to_be_bytes.
Qed.

(** A step runs or does not, and says so. *)
Lemma step_to_version to bump step o v u o' :
  is_u64 bump → version_of o = Some v → step_to to bump step o = (Ok u, o') → version_of o' = Some (after_step to bump v).
Proof.
  intros Hb Hv. unfold step_to, after_step. rewrite (bind_ok _ _ _ _ _ (read_version _ _ Hv)). destruct (v <? to).
  - intros (? & o1 & _ & H)%bind_inv. pose proof (bump_version o1 bump Hb) as Hbv. by rewrite H in Hbv.
  - by intros [= _ <-].
Qed.

Lemma step_to_skip to bump step o v : version_of o = Some v → to ≤ v → step_to to bump step o = (Ok tt, o).
Proof.
  intros Hv Hle. unfold step_to. rewrite (bind_ok _ _ _ _ _ (read_version _ _ Hv)).
  destruct (Z.ltb_spec v to); [lia|done].
Qed.
End versions.

(** On a database of a version up to 18 the steps that apply are run, and
    when none of them fails the database is at version 18 and the assertion at
    the end holds; a database of version 18 is left as it is, and a newer one
    stops the server without being touched. *)
Theorem migrations_reach_latest {RU : Ruma} {LR : LruCache} {HO : HashOrder} {D : Type} {ST : Storage D} {FO : Folders D} {ME : MediaEnv} {MG : MigrationEnv}
    {JP : Json PduEvent} {Value : Type} {JV : Json Value} has_field push_rules_of to_value calculate_password_hash now (o : Old D) v :
  version_of o = Some v →
  let steps := migration_steps (JV := JV) has_field push_rules_of to_value calculate_password_hash now in
  let run := migrate (JV := JV) has_field push_rules_of to_value calculate_password_hash now in
  (v ≤ 18 → ∀ u o', steps o = (Ok u, o') → version_of o' = Some latest_database_version ∧ run o = (Ok tt, o')) ∧
  (v = 18 → run o = (Ok tt, o)) ∧ (18 < v → run o = (Panic, o)).
Proof.
  intros Hv steps run.
  assert (∀ o1 v1 u, steps o = (Ok u, o1) → version_of o1 = Some v1 →
    run o = (if v1 =? latest_database_version then Ok tt else Panic, o1)) as Hrun.
  { intros o1 v1 u Hs Hv1. subst run. unfold migrate. rewrite (bind_ok _ _ _ _ _ Hs). unfold attempt. run. by rewrite (read_version _ _ Hv1). }
  assert (18 ≤ v → steps o = (Ok tt, o)) as Hskip.
  { intros Hle. subst steps. unfold migration_steps.
    do 15 (erewrite (bind_ok (step_to _ _ _)) by (eapply step_to_skip; [eassumption|lia])). eapply step_to_skip; [eassumption|lia]. }
  split_and!.
  - intros Hle u o' H. assert (version_of o' = Some latest_database_version) as E; [|split; [done|]; by rewrite (Hrun _ _ _ H E)].
    clear Hrun Hskip run. unfold migration_steps in steps. subst steps.
    do 15 (let o1 := fresh "o" in let H1 := fresh "H" in apply bind_inv in H as (? & o1 & H1 & H);
      eapply step_to_version in H1; [|unfold is_u64, u64_max; lia|eassumption]).
    eapply step_to_version in H; [|unfold is_u64, u64_max; lia|eassumption]. rewrite H. f_equal.
    rewrite !after_step_max. unfold after_step, latest_database_version. match goal with |- context [?x <? 17] => destruct (Z.ltb_spec x 17) end; lia.
  - intros ->. by rewrite (Hrun _ _ _ (Hskip ltac:(lia)) Hv).
  - intros Hgt. rewrite (Hrun _ _ _ (Hskip ltac:(lia)) Hv). unfold latest_database_version. destruct (Z.eqb_spec v 18); [lia|done].
Qed.

(** ** The state store *)

Section state_store.
Context {RU : Ruma} {LR : LruCache} {HO : HashOrder} {JP : Json PduEvent}.

(** The compressed entry of an entry of the old store, when it is one of the
    state with hash [s]. *)
Definition old_entry (s : Z) (e : entry) : option bytes :=
  if bool_decide (take 8 e.1 = to_be_bytes s) then Some (drop 8 e.1 ++ e.2) else None.

(** The state with hash [s] in a list of entries. *)
Definition old_state (l : list entry) (s : Z) : gset bytes := list_to_set (omap (old_entry s) l).

(** An entry as old versions wrote it: a short state hash, a state key and an
    event, whose room can be looked up. *)
Definition readable_short (d : Db) (short : bytes) : Prop :=
  ∃ e p r, kv d shorteventid_eventid !! short = Some e ∧ utf8_valid e = true ∧ event_id_ok e = true ∧
    stored d e = Ok (Some p) ∧ Database.room_id p = Ok r.

Definition old_entry_ok (d : Db) (e : entry) : Prop :=
  ∃ s, is_short s ∧ take 8 e.1 = to_be_bytes s ∧ compressed (drop 8 e.1 ++ e.2) ∧ readable_short d e.2.

Lemma old_state_snoc l e s : old_state (l ++ [e]) s = old_state l s ∪ default ∅ (singleton <$> old_entry s e).
Proof.
  unfold old_state. rewrite omap_app, list_to_set_app_L. f_equal. simpl. destruct (old_entry s e); [|done]. cbn. set_solver.
Qed.

Lemma old_state_good d l s : Forall (old_entry_ok d) l → good_state (old_state l s).
Proof.
  intros Hl x. unfold old_state. rewrite elem_of_list_to_set, list_elem_of_omap. intros (e & He & Hx). unfold old_entry in Hx.
  rewrite Forall_forall in Hl. destruct (Hl e He) as (s' & _ & _ & Hc & _). by case_bool_decide; simplify_eq.
Qed.

(** What the walk changes: the new store, and the caches. *)
Definition walked (d d' : Db) : Prop := ∀ t, t ≠ shortstatehash_statediff → kv d' t = kv d t.

Lemma walked_events d d' : walked d d' → same_events d d'.
Proof. intros H t Ht. apply H. intros ->. set_solver. Qed.

Lemma handle_state_spec d s room st lasts :
  cache_ok d → is_short s → kv d shortstatehash_statediff !! to_be_bytes s = None → good_state st →
  (∀ p, lasts !! room = Some p → p < s ∧ ∃ P, state_of d p P) →
  ∃ c v, let d' := upd shortstatehash_statediff (<[to_be_bytes s := v]>) (set_stateinfo_cache c d) in
    handle_state s room st lasts d = (Ok tt, d') ∧ cache_ok d' ∧ state_of d' s st.
Proof.
  intros Hc Hs Hf Hg Hl.
  assert (∃ P, prev_state d (lasts !! room) P) as [P HP].
  { destruct (lasts !! room) as [p|]; [|by exists ∅]. destruct (Hl p eq_refl) as [_ [P HP]]. by exists P. }
  destruct (states_parents_spec d (lasts !! room) P Hc HP) as (layers & c & Hsp & Hc' & Hpar & HPs).
  set (d1 := set_stateinfo_cache c d) in *. exists c.
  assert (diff_ok d1 s (reverse layers) (st ∖ P) (P ∖ st)) as Hd.
  { unfold parents_ok in Hpar. destruct (reverse layers) as [|top stack] eqn:E; cbn [stack_state] in HPs; subst P.
    - split_and!; [intros x Hx; apply Hg; set_solver|intros x Hx; set_solver|set_solver].
    - destruct Hpar as [Ho Hst]. destruct (Hl _ Ho) as [Hlt _].
      assert (good_state (full_state top)) as Hgt.
      { eapply Stack_good; [exact Hst|]. apply (f_equal reverse) in E. rewrite reverse_involutive, reverse_cons in E. by rewrite E, last_snoc. }
      split_and!; [intros x Hx; apply Hg; set_solver|intros x Hx; apply Hgt; set_solver| |done|set_solver..].
      by rewrite <-E, reverse_involutive. }
  destruct (save_from_stack_spec d1 s (reverse layers) (st ∖ P) (P ∖ st) 2 Hs Hf Hd) as (v & Hsv & Hst). exists v.
  rewrite HPs in Hst. replace ((P ∪ st ∖ P) ∖ (P ∖ st)) with st in Hst.
  2:{ apply set_eq. intros x. destruct (decide (x ∈ P)), (decide (x ∈ st)); set_solver. }
  split_and!; [|intros s' ls' H'; eapply Stack_mono; [|by apply Hc']; kv_simpl; by apply insert_subseteq|done].
  unfold handle_state. change (match lasts !! room with Some _ => _ | None => _ end) with (states_parents (lasts !! room)).
  rewrite (bind_ok _ _ _ _ _ Hsp). change (match last layers with Some _ => _ | None => _ end) with (diff_to_parents layers st).
  rewrite diff_to_parents_spec, HPs. exact Hsv.
Qed.

Lemma room_of_short_spec d d' short :
  walked d d' → PduCacheInv d' → readable_short d short →
  ∃ r c, room_of_short short d' = (Ok r, set_pdu_cache c d') ∧ PduCacheInv (set_pdu_cache c d').
Proof.
  intros Hw HI (e & p & r & He & Hu & Hok & Hs & Hr). destruct (get_pdu_spec d' e HI) as (c & Hg & HI').
  rewrite (stored_same _ _ _ (walked_events _ _ Hw)), Hs in Hg. exists r, c. split; [|done].
  unfold room_of_short, get, kv_get. run. rewrite (Hw shorteventid_eventid) by done. rewrite He. cbn. rewrite string_from_bytes_valid by done. cbn.
  rewrite Hok. unfold attempt. rewrite Hg. by rewrite Hr.
Qed.

(** Entries come in the order of their state hashes. *)
Lemma key_lt_short e1 e2 s1 s2 :
  key_lt e1 e2 → is_short s1 → is_short s2 → take 8 e1.1 = to_be_bytes s1 → take 8 e2.1 = to_be_bytes s2 → s1 ≤ s2.
Proof.
  unfold key_lt, blt. intros Hlt H1%is_short_u64 H2%is_short_u64 E1 E2.
  rewrite <-(take_drop 8 e1.1), <-(take_drop 8 e2.1), E1, E2, bytes_cmp_to_be_bytes in Hlt by done.
  destruct (Z.compare_spec s1 s2); [lia|lia|done].
Qed.

Lemma old_entry_eq s s' e : is_short s → is_short s' → take 8 e.1 = to_be_bytes s →
  old_entry s' e = if decide (s' = s) then Some (drop 8 e.1 ++ e.2) else None.
Proof.
  intros Hs Hs' E. unfold old_entry. rewrite E. case_decide as He; [subst; by rewrite bool_decide_eq_true_2|].
  rewrite bool_decide_eq_false_2; [done|]. intros H. apply to_be_bytes_inj in H; [done|by apply is_short_u64..].
Qed.

Lemma old_state_empty l s : (∀ e, e ∈ l → take 8 e.1 ≠ to_be_bytes s) → old_state l s = ∅.
Proof.
  intros H. unfold old_state. apply set_eq. intros x. rewrite elem_of_list_to_set, list_elem_of_omap, elem_of_empty. split; [|done].
  intros (e & He & Hx). unfold old_entry in Hx. case_bool_decide; [by eapply H|done].
Qed.

(** After the entries [l1]: the states before the current one are stored. *)
Definition walk_inv (d : Db) (l1 : list entry) (w : Walk) (d' : Db) : Prop :=
  walked d d' ∧ PduCacheInv d' ∧ cache_ok d' ∧
  match current_sstatehash w with
  | None => l1 = [] ∧ last_roomstates w = ∅ ∧ kv d' shortstatehash_statediff = ∅
  | Some s => is_short s ∧ (∃ e, e ∈ l1 ∧ take 8 e.1 = to_be_bytes s) ∧ is_Some (current_room w) ∧ current_state w = old_state l1 s ∧
      (∀ e s', e ∈ l1 → is_short s' → take 8 e.1 = to_be_bytes s' → s' ≤ s ∧ (s' < s → state_of d' s' (old_state l1 s'))) ∧
      (∀ k v, kv d' shortstatehash_statediff !! k = Some v → ∃ s', k = to_be_bytes s' ∧ is_short s' ∧ s' < s) ∧
      (∀ room p, last_roomstates w !! room = Some p → p < s ∧ ∃ P, state_of d' p P)
  end.

(** Storing the current state. *)
Lemma finish_current d l1 w d' s :
  Forall (old_entry_ok d) l1 → walk_inv d l1 w d' → current_sstatehash w = Some s →
  ∃ room d1, current_room w = Some room ∧ handle_state s room (current_state w) (last_roomstates w) d' = (Ok tt, d1) ∧
    walked d d1 ∧ PduCacheInv d1 ∧ cache_ok d1 ∧
    (∀ e s', e ∈ l1 → is_short s' → take 8 e.1 = to_be_bytes s' → s' ≤ s ∧ state_of d1 s' (old_state l1 s')) ∧
    (∀ k v, kv d1 shortstatehash_statediff !! k = Some v → ∃ s', k = to_be_bytes s' ∧ is_short s' ∧ s' ≤ s) ∧
    (∀ room' p, <[room := s]> (last_roomstates w) !! room' = Some p → p ≤ s ∧ ∃ P, state_of d1 p P).
Proof.
  intros Hl (Hw & HP & Hc & H) E. rewrite E in H. destruct H as (Hs & Hin & [room Hroom] & Hst & Hdone & Hkeys & Hlast).
  assert (kv d' shortstatehash_statediff !! to_be_bytes s = None) as Hf.
  { destruct (kv d' shortstatehash_statediff !! to_be_bytes s) as [v|] eqn:Ek; [|done]. destruct (Hkeys _ _ Ek) as (s' & Es & Hs' & Hlt).
    apply to_be_bytes_inj in Es; [lia|by apply is_short_u64..]. }
  destruct (handle_state_spec d' s room (current_state w) (last_roomstates w)) as (c & v & Hh & Hc' & Hst'); try done.
  { rewrite Hst. by eapply old_state_good. } { apply Hlast. }
  set (d1 := upd _ _ _) in *. exists room, d1.
  assert (kv d' shortstatehash_statediff ⊆ kv d1 shortstatehash_statediff) as Hsub.
  { unfold d1. kv_simpl. by apply insert_subseteq. }
  split_and!; try done.
  - intros t Ht. unfold d1. rewrite kv_upd_ne by done. by apply Hw.
  - intros e p He. rewrite (stored_same d'); [by apply HP|]. intros t Ht. unfold d1. rewrite kv_upd_ne; [done|]. intros <-. set_solver.
  - intros e s' He Hs' Ee. destruct (Hdone e s' He Hs' Ee) as [Hle Hd]. split; [done|].
    destruct (decide (s' = s)) as [->|]; [by rewrite <-Hst|]. eapply state_of_mono; [exact Hsub|]. apply Hd. lia.
  - intros k x. unfold d1. kv_simpl. rewrite lookup_insert. case_decide as Ek; [intros _; exists s; split_and!; [done|done|lia]|].
    intros Hk. destruct (Hkeys k x Hk) as (s' & ? & ? & ?). exists s'. split_and!; [done|done|lia].
  - intros room' p. rewrite lookup_insert. case_decide; [intros [= <-]; split; [lia|eauto]|].
    intros Hp. destruct (Hlast _ _ Hp) as (? & P & HPs). split; [lia|]. exists P. by eapply state_of_mono.
Qed.

Lemma walk_entry_spec d l1 e w d' :
  Forall (old_entry_ok d) (l1 ++ [e]) → Forall (λ e0, key_lt e0 e) l1 → walk_inv d l1 w d' →
  ∃ w' d'', walk_entry w e d' = (Ok w', d'') ∧ walk_inv d (l1 ++ [e]) w' d''.
Proof.
  intros Hok Hlt HI. apply Forall_app in Hok as [Hok (s & Hs & Es & Hcomp & Hread)%Forall_singleton].
  rewrite Forall_forall in Hlt.
  assert (∀ s', is_short s' → old_entry s' e = if decide (s' = s) then Some (drop 8 e.1 ++ e.2) else None) as Hentry.
  { intros s' Hs'. by apply old_entry_eq. }
  assert ((8 ≤ length e.1)%nat) as Hlen.
  { apply (f_equal length) in Es. rewrite length_take, length_to_be_bytes in Es. lia. }
  destruct e as [k v]. cbn [fst snd] in *. unfold walk_entry. unfold assert, lift.
  rewrite (bool_decide_eq_true_2 (8 ≤ length k)%nat), Es, u64_from_to_be_bytes by (done || by apply is_short_u64).
  rewrite (bool_decide_eq_true_2 (length (drop 8 k ++ v) = 16%nat)) by apply Hcomp. run. cbn [expect].
  assert (∀ w1 d1, walked d d1 → PduCacheInv d1 → cache_ok d1 → current_sstatehash w1 = Some s → is_Some (current_room w1) →
    current_state w1 = old_state l1 s →
    (∀ e s', e ∈ l1 → is_short s' → take 8 e.1 = to_be_bytes s' → s' ≤ s ∧ (s' < s → state_of d1 s' (old_state l1 s'))) →
    (∀ k v, kv d1 shortstatehash_statediff !! k = Some v → ∃ s', k = to_be_bytes s' ∧ is_short s' ∧ s' < s) →
    (∀ room p, last_roomstates w1 !! room = Some p → p < s ∧ ∃ P, state_of d1 p P) →
    walk_inv d (l1 ++ [(k, v)]) (mkWalk (last_roomstates w1) (current_sstatehash w1) (current_room w1) ({[drop 8 k ++ v]} ∪ current_state w1)) d1) as Hadd.
  { intros w1 d1 Hw HP Hc E Hr Hst Hd Hk Hla. split_and!; [done..|]. cbn [current_sstatehash current_room current_state last_roomstates]. rewrite E.
    split_and!; try done.
    - exists (k, v). split; [set_solver|done].
    - rewrite old_state_snoc, Hentry, decide_True, Hst by done. cbn. set_solver.
    - intros e' s' [He'|He'%list_elem_of_singleton]%elem_of_app Hs' Ee.
      + destruct (Hd e' s' He' Hs' Ee) as [Hle Hso]. split; [done|]. intros Hlt'. rewrite old_state_snoc, Hentry, decide_False by (done || lia).
        cbn. rewrite union_empty_r_L. auto.
      + subst e'. cbn in Ee. rewrite Es in Ee. apply to_be_bytes_inj in Ee; [lia|by apply is_short_u64..]. }
  destruct (current_sstatehash w) as [s0|] eqn:E0.
  - pose proof HI as (Hw & HP & Hc & H). rewrite E0 in H. destruct H as (Hs0 & (e0 & He0 & Ee0) & Hroom & Hst & Hdone & Hkeys & Hlast).
    assert (s0 ≤ s) as Hle by (by eapply (key_lt_short e0 (k, v)); [apply Hlt|..]).
    destruct (decide (s0 = s)) as [->|Hne].
    + rewrite (bool_decide_eq_true_2 (Some s = Some s)) by done. eexists _, _. split; [done|]. by apply Hadd.
    + rewrite (bool_decide_eq_false_2 (Some s = Some s0)) by congruence.
      destruct (finish_current _ _ _ _ _ Hok HI E0) as (room & d1 & Hr & Hh & Hw1 & HP1 & Hc1 & Hd1 & Hk1 & Hl1).
      destruct (room_of_short_spec d d1 v Hw1 HP1 Hread) as (r & c & Hrs & HPc). rewrite Hr. cbn [expect]. rewrite Hh, Hrs.
      eexists _, _. split; [done|].
      apply (Hadd (mkWalk (<[room := s0]> (last_roomstates w)) (Some s) (Some r) ∅)); cbn [current_sstatehash current_room current_state last_roomstates]; try done.
      * by apply (cache_ok_eq d1).
      * symmetry. apply old_state_empty. intros e' He' Ee. destruct (Hd1 e' s He' Hs Ee). lia.
      * intros e' s' He' Hs' Ee. destruct (Hd1 e' s' He' Hs' Ee). split; [lia|]. intros _. by apply (state_of_mono d1).
      * intros k' v' Hk'. destruct (Hk1 k' v' Hk') as (s' & ? & ? & ?). exists s'. split_and!; [done|done|lia].
      * intros room' p Hp. destruct (Hl1 room' p Hp) as (? & P & ?). split; [lia|]. exists P. by apply (state_of_mono d1).
  - pose proof HI as (Hw & HP & Hc & H). rewrite E0 in H. destruct H as (-> & Hla & Hkv).
    rewrite (bool_decide_eq_false_2 (Some s = None)) by done.
    destruct (room_of_short_spec d d' v Hw HP Hread) as (r & c & Hrs & HPc). rewrite Hrs.
    eexists _, _. split; [done|].
    apply (Hadd (mkWalk (last_roomstates w) (Some s) (Some r) ∅)); cbn [current_sstatehash current_room current_state last_roomstates]; try done.
    + by apply (cache_ok_eq d').
    + intros e' s' He'. by apply elem_of_nil in He'.
    + intros k' v' Hk'. change (kv (set_pdu_cache c d')) with (kv d') in Hk'. by rewrite Hkv, lookup_empty in Hk'.
    + intros room' p Hp. by rewrite Hla, lookup_empty in Hp.
Qed.
End state_store.

(** C32: The migration of the state store keeps every state: when the entries
    of the old store are as old versions wrote them and the new store is empty,
    it succeeds, changes no other tree, and loading any old state hash gives, in
    at most four layers, exactly the entries the old store had for it. *)
Theorem state_store_migrated {RU : Ruma} {LR : LruCache} {HO : HashOrder} {JP : Json PduEvent} {D : Type} (o : Old D) :
  Forall (old_entry_ok (o_db o)) (entries (stateid_shorteventid o)) → PduCacheInv (o_db o) →
  kv (o_db o) shortstatehash_statediff = ∅ → stateinfo_cache (o_db o) = ∅ →
  ∃ o', migrate_7 o = (Ok tt, o') ∧ walked (o_db o) (o_db o') ∧
    ∀ s, is_short s → old_state (entries (stateid_shorteventid o)) s ≠ ∅ →
      loads (o_db o') s (old_state (entries (stateid_shorteventid o)) s).
Proof.
  intros Hok HP Hkv Hc. set (l := entries (stateid_shorteventid o)) in *. set (d := o_db o) in *.
  pose proof (entries_sorted (stateid_shorteventid o)) as Hsort. fold l in Hsort.
  destruct (foldM_inv (λ l1 w d', walk_inv d l1 w d') walk_entry (mkWalk ∅ None None ∅) l d) as (w & d1 & Hw & HI).
  { split_and!; [done|done| |done]. intros s ls Hs. by rewrite Hc, lookup_empty in Hs. }
  { intros l1 e l2 w d1 -> HI. apply walk_entry_spec; [| |done].
    - rewrite Forall_app in Hok |- *. destruct Hok as [? Hok]. apply Forall_cons in Hok as [? _]. by rewrite Forall_singleton.
    - apply Forall_forall. intros x Hx.
      apply (StronglySorted_app_1_elem_of key_lt l1 (e :: l2)); [done|done|by left]. }
  assert (∃ d2, finish_state w d1 = (Ok tt, d2) ∧ walked d d2 ∧
    ∀ s, is_short s → old_state l s ≠ ∅ → loads d2 s (old_state l s)) as (d2 & Hf & Hwd & Hl).
  { unfold finish_state. destruct (current_sstatehash w) as [s0|] eqn:E0.
    - destruct (finish_current _ _ _ _ _ Hok HI E0) as (room & d2 & Hr & Hh & Hw2 & HP2 & Hc2 & Hd2 & _). exists d2. rewrite Hr. split; [exact Hh|].
      split; [done|]. intros s Hs Hne. apply state_of_loads; [done|].
      destruct (decide (Exists (λ e, take 8 e.1 = to_be_bytes s) l)) as [(e & He & Ee)%Exists_exists|Hn].
      + by apply (Hd2 e s).
      + destruct Hne. apply old_state_empty. intros e He Ee. apply Hn, Exists_exists. by exists e.
    - destruct HI as (Hwd & _ & _ & H). rewrite E0 in H. destruct H as [-> _]. exists d1. split_and!; [done|done|]. by intros s Hs []. }
  exists (mkOld (mkMediaState d2 (ms_disk (o_media o))) (mediaid_file o) (stateid_shorteventid o) (uiaarequest_tree o)). split; [|done].
  unfold migrate_7. rewrite (bind_gets (λ o : Old D, kv_iter (stateid_shorteventid o))), on_odb_eq. fold d.
  unfold kv_iter. fold l. by rewrite (bind_ok _ _ _ _ _ Hw), Hf.
Qed.

(** ** The media repository *)

(** A value with the mark of unauthenticated access. *)
Lemma parse_marked_value g fn ct : length g = 32%nat → utf8_valid (default [] fn) = true → utf8_valid (default [] ct) = true →
  parse_metadata (metadata_value g fn ct ++ [ff]) = Ok (mkDbFileMeta g (non_empty fn) (non_empty ct) true).
Proof.
  intros Hg Hf Hc. unfold parse_metadata, metadata_value. rewrite bool_decide_eq_false_2 by (rewrite !length_app; lia).
  rewrite <-app_assoc. rewrite drop_app_length', take_app_length' by done. rewrite <-app_assoc. cbn [app].
  rewrite split_ff_app by (by apply utf8_no_ff). rewrite split_ff_app by (by apply utf8_no_ff). cbn [lookup list_lookup split_ff].
  unfold string_part. cbn [map_transpose]. rewrite !string_from_bytes_valid by done. cbn. destruct fn as [[]|], ct as [[]|]; done.
Qed.

Section media.
Context {RU : Ruma} {D : Type} {ST : Storage D} {ME : MediaEnv} {MG : MigrationEnv}.

Lemma io_ok_db (f : D → (IoKind + unit) * D) (s : MediaState D) u s' : (r ← io f; io_ok r) s = (Ok u, s') → ms_db s' = ms_db s.
Proof. unfold io, io_ok. run. destruct (f (ms_disk s)) as [[k|v] x]; intros E; by simplify_eq. Qed.

Lemma create_file_db hash f (s : MediaState D) u s' : create_file hash f s = (Ok u, s') → ms_db s' = ms_db s.
Proof.
  unfold create_file. destruct media_backend as [path structure|path structure].
  - intros (names & s1 & [= _ <-] & H)%bind_inv. apply bind_inv in H as (? & s1 & Hd & H). apply io_ok_db in H as ->.
    destruct structure; [by injection Hd as _ <-|by apply io_ok_db in Hd].
  - intros (key & s1 & [= _ <-] & H)%bind_inv. apply bind_inv in H as (x & s1 & Hp & H).
    destruct (s3_put_object _ _ _) as [y dk]. injection Hp as <- <-. apply bind_inv in H as (st & s2 & [= _ <-] & H).
    destruct (_ && _); [|done]. by injection H as <- <-.
Qed.

(** A file of the old media repository is found after its migration: under
    the server and the media id its old name carried the store has the digest of
    its content with that name's file name and type, marked for unauthenticated
    access; a thumbnail is found in the same way under its size. *)
Theorem old_media_found now file_name creation last_accessed (s : MediaState D) u s' :
  (∀ f, length (sha256 f) = 32%nat) → (∀ bs fn, disposition_filename bs = Some (Some fn) → utf8_valid fn = true) →
  migrate_to_sha256_media now file_name creation last_accessed s = (Ok u, s') →
  ∃ info m f, base64_decode file_name = Some info ∧ parse_media_info info = Ok m ∧ fs_read (media_folder ++ [file_name]) (ms_disk s) = inr f ∧
    let meta := mkDbFileMeta (sha256 f) (non_empty (om_filename m)) (non_empty (om_content_type m)) true in
    (om_width_height m = replicate 8 0 → (search_file_metadata (om_server_name m) (om_media_id m) (ms_db s')).1 = Ok meta) ∧
    (∀ w h, u32_be w ++ u32_be h = om_width_height m → om_width_height m ≠ replicate 8 0 →
       (search_thumbnail_metadata (om_server_name m) (om_media_id m) w h (ms_db s')).1 = Ok meta).
Proof.
  intros Hsha Hdisp H. unfold migrate_to_sha256_media in H.
  apply bind_inv in H as (info & s1 & [= Hinfo <-] & H). destruct (base64_decode file_name) as [info'|] eqn:Ei; [|done]. injection Hinfo as ->.
  apply bind_inv in H as (m & s1 & [= Hm <-] & H). apply bind_inv in H as (r & s1 & [= Hr <-] & H). apply bind_inv in H as (f & s1 & [= Hf <-] & H).
  destruct (fs_read _ _) as [k|f'] eqn:Er; [by subst|]. subst r. injection Hf as ->. unfold generate_digests in H.
  apply bind_inv in H as (sz & s1 & [= _ <-] & H). apply bind_inv in H as (? & s1 & Hst & H). apply bind_inv in H as (? & s2 & Hcf & H).
  apply create_file_db in Hcf. apply io_ok_db in H. exists info, m, f. split_and!; [done|done|done|]. rewrite H, Hcf. clear H Hcf.
  unfold on_store in Hst. destruct (store_old_media _ _ _ _ _ _ _) as [r d'] eqn:Est. injection Hst as -> <-. cbn [ms_db].
  assert (utf8_valid (default [] (om_filename m)) = true ∧ utf8_valid (default [] (om_content_type m)) = true) as [Hfn Hct].
  { clear -Hm Hdisp. unfold parse_media_info in Hm. destruct (splitn2 info) as [mxc rest].
    apply res_bind_Ok in Hm as (rest' & _ & Hm). apply res_bind_Ok in Hm as (mxc' & _ & Hm). apply res_bind_Ok in Hm as ([sn mid] & _ & Hm).
    case_bool_decide; [done|]. case_bool_decide; [done|]. apply res_bind_Ok in Hm as (cd & _ & Hm). apply res_bind_Ok in Hm as (ct & Hct & Hm).
    injection Hm as <-. cbn. split.
    - destruct (disposition_filename cd) as [[fn|]|] eqn:E; [by apply (Hdisp cd)|done..].
    - destruct (split_ff _ !! 1%nat); cbn in Hct; [|by injection Hct as <-]. destruct (string_from_bytes _) as [x|] eqn:Ex; [|done]. injection Hct as <-.
      apply string_from_bytes_Some in Ex as [-> ?]. done. }
  pose proof (parse_marked_value (sha256 f) (om_filename m) (om_content_type m) (Hsha f) Hfn Hct) as Hp.
  unfold store_old_media, insert in Est. run in Est. split.
  - intros E. rewrite bool_decide_eq_true_2 in Est by done. injection Est as _ <-.
    unfold search_file_metadata, available, get, kv_get, kv_insert. run. kv_simpl. rewrite lookup_insert_eq. cbn [ok_or]. rewrite Hp. cbn [sha256_digest].
    kv_simpl. by rewrite lookup_insert_eq.
  - intros w h Ewh Hne. rewrite bool_decide_eq_false_2 in Est by done. injection Est as _ <-.
    unfold search_thumbnail_metadata, thumbnail_id, available, get, kv_get, kv_insert. rewrite Ewh. run. kv_simpl. rewrite lookup_insert_eq. cbn [ok_or]. rewrite Hp.
    cbn [sha256_digest]. kv_simpl. by rewrite lookup_insert_eq.
Qed.
End media.

(** ** Samples *)

#[local] Existing Instances sample_ruma lru_unbounded elements_order mem_storage mem_env.

Definition sample_folders : Folders MemDisk := {|
  fs_rename _ _ d := (inr tt, d);
  fs_read_dir _ _ := Some [];
|}.

(** Names are not encoded; the mxc uri is a server and a media id of one letter. *)
Definition sample_migration : MigrationEnv := {|
  database_path := lit "/db";
  base64_encode bs := bs;
  base64_decode := Some;
  argon2_verify_encoded := λ a b, bool_decide (a = b);
  server_default _ := mkRuleset [] [] [];
  empty_ruleset := mkRuleset [] [] [];
  update_with_server_default r _ := r;
  disposition_filename bs := Some None;
  mxc_parts bs := match bs with [a; b] => Some ([a], [b]) | _ => None end;
|}.
#[local] Existing Instances sample_folders sample_migration.

Definition old_db (d : Db) (disk : MemDisk) : Old MemDisk := mkOld (mkMediaState d disk) ∅ ∅ ∅.

Definition version_17 : Old MemDisk := old_db (upd global <[lit "version" := to_be_bytes 17]> empty_db) (mkMemDisk ∅ ∅).

Definition sample_migrate := migrate (JP := json_countable PduEvent) (JV := json_countable bytes) (λ _ _, true) (λ _, None) (λ _, []) Some 1000.

Lemma migrations_reach_latest_witness : ∃ o', sample_migrate version_17 = (Ok tt, o') ∧ version_of o' = Some 18.
Proof.
  destruct (migrations_reach_latest (JP := json_countable PduEvent) (JV := json_countable bytes) (λ _ _, true) (λ _, None) (λ _, []) Some 1000 version_17 17)
    as (H & _ & _); [reflexivity|].
  destruct (migration_steps (JP := json_countable PduEvent) (JV := json_countable bytes) (λ _ _, true) (λ _, None) (λ _, []) Some 1000 version_17) as [r o'] eqn:E.
  assert (r = Ok tt) as ->.
  { change r with ((r, o').1). rewrite <-E. vm_compute. reflexivity. }
  destruct (H ltac:(lia) tt o' eq_refl) as [Hv Hr]. exists o'. split; [exact Hr|exact Hv].
Defined.

(** Two states of one room: the second has one entry more. *)
Definition old_store : Tree :=
  <[to_be_bytes 1 ++ to_be_bytes 5 := to_be_bytes 7]> (<[to_be_bytes 2 ++ to_be_bytes 5 := to_be_bytes 7]>
    (<[to_be_bytes 2 ++ to_be_bytes 6 := to_be_bytes 7]> ∅)).

Definition store_db : Db :=
  upd shorteventid_eventid <[to_be_bytes 7 := lit "$e"]>
    (upd eventid_outlierpdu <[lit "$e" := @to_vec _ (json_countable PduEvent) (auth_pdu (lit "$e") [])]> empty_db).

Definition store_sample : Old MemDisk := mkOld (mkMediaState store_db (mkMemDisk ∅ ∅)) ∅ old_store ∅.

Lemma state_store_migrated_witness : ∃ o', migrate_7 (JP := json_countable PduEvent) store_sample = (Ok tt, o') ∧
  loads (o_db o') 2 {[to_be_bytes 5 ++ to_be_bytes 7; to_be_bytes 6 ++ to_be_bytes 7]}.
Proof.
  assert (readable_short (JP := json_countable PduEvent) store_db (to_be_bytes 7)) as Hr.
  { exists (lit "$e"), (auth_pdu (lit "$e") []), (lit "!r"). split_and!; [reflexivity..| |reflexivity].
    rewrite stored_eq. unfold store_db. kv_simpl. cbn [kv empty_db]. rewrite lookup_empty, lookup_insert_eq. by rewrite from_slice_to_vec. }
  assert (∀ s k, is_short s → is_short k → old_entry_ok (JP := json_countable PduEvent) store_db (to_be_bytes s ++ to_be_bytes k, to_be_bytes 7)) as Hok.
  { intros s k Hs Hk. exists s. cbn [fst snd]. rewrite take_app_length' by (by rewrite length_to_be_bytes).
    rewrite drop_app_length' by (by rewrite length_to_be_bytes). split_and!; [exact Hs|reflexivity| |exact Hr].
    apply compressed_entry; [by apply is_short_u64|unfold is_short in Hk; lia]. }
  destruct (state_store_migrated (JP := json_countable PduEvent) store_sample) as (o' & H & _ & Hl).
  - apply Forall_forall. intros e He. apply elem_of_entries' in He. unfold store_sample, old_store in He. cbn [stateid_shorteventid] in He.
    destruct e as [k v]. cbn [fst snd] in He. rewrite !lookup_insert, lookup_empty in He.
    repeat case_decide; simplify_eq; apply Hok; unfold is_short, u64_max; lia.
  - intros e p He. discriminate He.
  - reflexivity.
  - reflexivity.
  - exists o'. split; [exact H|].
    assert (old_state (entries (stateid_shorteventid store_sample)) 2 = {[to_be_bytes 5 ++ to_be_bytes 7; to_be_bytes 6 ++ to_be_bytes 7]}) as E.
    { vm_compute. reflexivity. }
    rewrite <-E. apply Hl; [unfold is_short, u64_max; lia|]. intros H0. rewrite H0 in E. vm_compute in E. discriminate E.
Defined.

(** An old file: a picture of one byte. *)
Definition old_name : bytes := lit "ax" ++ ff :: replicate 8 0 ++ ff :: lit "inline" ++ ff :: lit "t".

Definition old_disk : MediaState MemDisk := mkMediaState empty_db (mkMemDisk {[media_folder ++ [old_name] := [9]]} ∅).

Lemma old_media_found_witness : ∃ s', migrate_to_sha256_media 1000 old_name None None old_disk = (Ok tt, s') ∧
  ∃ meta, (search_file_metadata (lit "a") (lit "x") (ms_db s')).1 = Ok meta ∧ sha256_digest meta = sha256 [9].
Proof.
  set (x := migrate_to_sha256_media 1000 old_name None None old_disk).
  assert (x = (Ok tt, x.2)) as E.
  { assert (x.1 = Ok tt) as H by (vm_compute; reflexivity). destruct x as [r s']. cbn in *. by rewrite H. }
  destruct (old_media_found 1000 old_name None None old_disk tt x.2) as (info & m & f & Hi & Hm & Hf & H & _); [| |exact E|].
  - apply mem_env_ok.
  - intros bs fn Hd. discriminate Hd.
  - exists x.2. split; [exact E|]. injection Hi as <-. vm_compute in Hm. injection Hm as <-. vm_compute in Hf. injection Hf as <-.
    eexists. split; [apply H; reflexivity|reflexivity].
Defined.
