(* ===== verification/KeyRoutes.v ===== *)
(** * KeyRoutes: the end-to-end key endpoints

    [server/src/api/client_server/keys.rs] and the key routes of
    [server/src/api/server_server.rs] over [UserKeys], [Devices] and [Uiaa]:
    uploading and querying device and cross-signing keys, claiming one-time
    keys, and key changes.  The answers of other servers and the decoding of
    keys are parameters; requests to several servers run concurrently, each
    touches only its own back-off, and their answers are used in any order. *)
From S2P Require Import Prelude Bytes JsonValue KvTree Pdu Database Short StateCompressor RoomState Accounts StateCache Timeline Devices UserKeys Uiaa ServerKeys EventHandler.

(** ** Data *)

(** What another server answers to a query. *)
Record FedKeys := mkFedKeys {
  fk_master_keys : list (bytes * bytes);
  fk_self_signing_keys : gmap bytes bytes;
  fk_device_keys : gmap bytes (gmap bytes bytes);
}.

(** The response of a query; keys are raw texts. *)
Record KeysResponse := mkKeysResponse {
  master_keys : gmap bytes bytes;
  self_signing_keys : gmap bytes bytes;
  user_signing_keys : gmap bytes bytes;
  device_keys : gmap bytes (gmap bytes bytes);
  failures : gset bytes;
}.

Record ClaimResponse := mkClaimResponse {
  cr_failures : gset bytes;
  one_time_keys : gmap bytes (gmap bytes (gmap bytes bytes));
}.

(** The other servers; no answer is an error or a timeout. *)
Class KeyRemote := {
  fed_get_keys : bytes → list (bytes * list bytes) → option FedKeys;
  fed_claim_keys : bytes → list (bytes * list (bytes * bytes)) → option (gmap bytes (gmap bytes (gmap bytes bytes)));
}.

(** Decoding of keys (ruma): which texts are one-time and device keys, the keys
    of a cross-signing key, and its text with the signatures of another added. *)
Class KeyContents := {
  one_time_key_ok : bytes → bool;
  device_keys_ok : bytes → bool;
  keys_of : bytes → option (gmap bytes bytes);
  with_signatures : bytes → option bytes → bytes;
  with_signatures_keys : ∀ k o, keys_of (with_signatures k o) = keys_of k;
}.

(** State: the database and the back-off of queries. *)
Record KeyWorld := mkKeyWorld { kw_db : Db; bad_query_ratelimiter : gmap bytes (Z * Z) }.

Definition on_kw {A} (m : M Db A) : M KeyWorld A := λ w, let '(r, d) := m (kw_db w) in (r, mkKeyWorld d (bad_query_ratelimiter w)).

Definition back_off_query (now : Z) (server : bytes) : M KeyWorld unit :=
  modify (λ w, mkKeyWorld (kw_db w) (back_off now server (bad_query_ratelimiter w))).

Section routes.
Context {RU : Ruma} {LR : LruCache} {HO : HashOrder} {MO : MapOrder} {KR : KeyRemote} {KC : KeyContents}.
Context `{JP : !Json PduEvent, JV : !Json Value, JD : !Json Device, JU : !Json UiaaInfo}.
Context (key_id_json : bytes → bytes) (key_id_from_json : bytes → option bytes) (algorithm_of : bytes → bytes) (raw_ok : bytes → bool).
Context (server_name : bytes) (registration_token : option bytes) (argon2_verify : bytes → bytes → bool).

(** The values of the [keys] of a text. *)
Definition key_values (raw : bytes) : option (list bytes) := (λ m, (map_to_list m).*2) <$> keys_of raw.

(** *** Uploading *)

Definition upload_keys_route (sender_user sender_device : bytes) (otks : list (bytes * bytes)) (body_device_keys : option bytes) : M Db (gmap bytes Z) :=
  for_each otks (λ '(key_key, key_value),
    if one_time_key_ok key_value then add_one_time_key key_id_json sender_user sender_device key_key key_value
    else fail (BadRequest BadJson "Body contained invalid one-time key"));;
  match body_device_keys with
  | Some keys =>
      (* This check is needed to assure that signatures are kept *)
      o ← get_device_keys raw_ok sender_user sender_device;
      match o with
      | None => if device_keys_ok keys then add_device_keys sender_user sender_device keys
                else fail (BadRequest BadJson "Body contained invalid device keys")
      | Some _ => mret tt
      end
  | None => mret tt
  end;;
  count_one_time_keys key_id_from_json algorithm_of sender_user sender_device.

Definition only_own (sender_user u : bytes) : bool := bool_decide (u = sender_user).

(** The keys stored for comparison. *)
Definition stored_key_map (msg : string) (o : option bytes) : res (option (gmap bytes bytes)) :=
  map_transpose (λ raw, ok_or (keys_of raw) (BadDatabase msg)) o.

(** Whether a key is missing, or has another value. *)
Definition has_new (new_keys current_keys : gmap bytes bytes) : bool :=
  existsb (λ '(key, value), negb (bool_decide (current_keys !! key = Some value))) (map_to_list new_keys).

(** The closure [req_has_new_keys]. *)
Definition req_has_new_keys (sender_user : bytes) (master_key self_signing_key user_signing_key : option bytes) : M Db bool :=
  m ← match master_key with
    | Some master_key =>
        new_keys ← lift (ok_or (keys_of master_key) (BadRequest InvalidParam "Invalid master key"));
        o ← get_self_signing_key None sender_user (only_own sender_user);
        current_keys ← lift (stored_key_map "Invalid master key in database" (to_vec <$> o));
        (* Master key in database must match exactly with the one provided in the request *)
        mret (negb (bool_decide (Some new_keys = current_keys)))
    | None => mret false
    end;
  if (m : bool) then mret true else
  s ← match self_signing_key with
    | Some self_signing_keys =>
        new_keys ← lift (ok_or (keys_of self_signing_keys) (BadRequest InvalidParam "Invalid self-signing keys"));
        o ← get_self_signing_key None sender_user (only_own sender_user);
        current_keys ← lift (stored_key_map "Invalid self-signing keys in database" (to_vec <$> o));
        (* For the other keys, we only need to ensure that there are no new keys *)
        mret (has_new new_keys (default ∅ current_keys))
    | None => mret false
    end;
  if (s : bool) then mret true else
  match user_signing_key with
  | Some user_signing_keys =>
      new_keys ← lift (ok_or (keys_of user_signing_keys) (BadRequest InvalidParam "Invalid user-signing keys"));
      o ← get_user_signing_key raw_ok sender_user;
      current_keys ← lift (stored_key_map "Invalid user-signing keys in database" o);
      mret (has_new new_keys (default ∅ current_keys))
  | None => mret false
  end.

Definition password_flow : UiaaInfo := mkUiaaInfo [[AuthPassword]] [] None None.

Definition upload_signing_keys_route (random_session sender_user sender_device : bytes) (auth : option AuthData) (json_body : option bytes)
    (master_key self_signing_key user_signing_key : option bytes) : M Db unit :=
  match auth with
  | Some auth =>
      r ← try_auth server_name registration_token argon2_verify random_session sender_user sender_device auth password_flow;
      if negb r.1 then fail (Prelude.Uiaa r.2) else mret tt
  | None =>
      match json_body with
      | Some json =>
          o ← get_master_key None sender_user (only_own sender_user);
          new ← match o with Some _ => req_has_new_keys sender_user master_key self_signing_key user_signing_key | None => mret false end;
          if (new : bool) then
            let uiaainfo := with_session random_session password_flow in
            create_uiaa sender_user sender_device uiaainfo json;;
            fail (Prelude.Uiaa uiaainfo)
          else mret tt
      | None => fail (BadRequest NotJson "Not json.")
      end
  end;;
  match master_key with
  | Some master_key => add_cross_signing_keys key_values sender_user master_key self_signing_key user_signing_key true
  | None => mret tt
  end.

(** The signatures of the sender in an uploaded key. *)
Definition own_signatures (sender_user : bytes) (key : Value) : res (list (bytes * Value)) :=
  signatures ← ok_or (value_get (lit "signatures") key) (BadRequest InvalidParam "Missing signatures field.");
  mine ← ok_or (value_get sender_user signatures) (BadRequest InvalidParam "Invalid user in signatures field.");
  ok_or (as_object mine) (BadRequest InvalidParam "Invalid signature.").

Definition upload_signatures_route (sender_user : bytes) (signed_keys : list (bytes * list (bytes * Value))) : M Db unit :=
  for_each signed_keys (λ '(user_id, keys),
    for_each keys (λ '(key_id, key),
      signatures ← lift (own_signatures sender_user key);
      for_each signatures (λ '(id, signature),
        s ← lift (match signature with VString s => Ok s | _ => Err (BadRequest InvalidParam "Invalid signature value.") end);
        sign_key user_id key_id (id, s) sender_user))).

(** *** Changes *)

Definition get_key_changes_route (sender_user from to : bytes) : M Db (gset bytes) :=
  from ← lift (ok_or (parse_u64 from) (BadRequest InvalidParam "Invalid `from`."));
  to ← lift (ok_or (parse_u64 to) (BadRequest InvalidParam "Invalid `to`."));
  gets (λ d, Ok (list_to_set (oks (keys_changed sender_user from (Some to) d)) ∪
    ⋃ ((λ room_id, list_to_set (oks (keys_changed room_id from (Some to) d))) <$> oks (rooms_joined sender_user d)))).

(** *** Querying *)

(** [add_unsigned_device_display_name]. *)
Definition add_unsigned_device_display_name (keys : bytes) (metadata : Device) : res bytes :=
  match display_name metadata with
  | None => Ok keys
  | Some name =>
      match from_slice keys with
      | Some (VObject object) =>
          let unsigned := match default (VObject []) (field (lit "unsigned") object) with
            | VObject u => VObject (set_json_field (lit "device_display_name") (VString name) u)
            | v => v
            end in
          Ok (to_vec (VObject (set_json_field (lit "unsigned") unsigned object)))
      | _ => Err (BadDatabase "invalid device keys in database")
      end
  end.

(** The keys of one device with its name. *)
Definition named_device_keys (missing : Error) (user_id device_id : bytes) : M Db (option bytes) :=
  o ← get_device_keys raw_ok user_id device_id;
  match o with
  | None => mret None
  | Some keys =>
      o ← get_device_metadata user_id device_id;
      metadata ← lift (ok_or o missing);
      keys ← lift (add_unsigned_device_display_name keys metadata);
      mret (Some keys)
  end.

Definition put_opt (k : bytes) (o : option bytes) (m : gmap bytes bytes) : gmap bytes bytes := match o with Some v => <[k := v]> m | None => m end.

(** The device keys of a local user: all devices, or the ones asked for, each of
    which replaces the answer. *)
Definition local_device_keys (user_id : bytes) (device_ids : list bytes) (acc : gmap bytes (gmap bytes bytes)) : M Db (gmap bytes (gmap bytes bytes)) :=
  if bool_decide (device_ids = []) then
    ids ← gets (λ d, Ok (all_device_ids user_id d));
    container ← foldM (λ container device_id,
      device_id ← lift device_id;
      o ← named_device_keys (BadDatabase "all_device_keys contained nonexistent device.") user_id device_id;
      mret (put_opt device_id o container)) ∅ ids;
    mret (<[user_id := container]> acc)
  else
    foldM (λ acc device_id,
      o ← named_device_keys (BadRequest InvalidParam "Tried to get keys for nonexistent device.") user_id device_id;
      mret (<[user_id := put_opt device_id o ∅]> acc)) acc device_ids.

(** The keys of a local user. *)
Definition local_keys (sender_user : option bytes) (allowed_signatures : bytes → bool) (acc : KeysResponse) (user_id : bytes) (device_ids : list bytes)
    : M Db KeysResponse :=
  dk ← local_device_keys user_id device_ids (device_keys acc);
  master ← get_master_key sender_user user_id allowed_signatures;
  self_signing ← get_self_signing_key sender_user user_id allowed_signatures;
  user_signing ← (if bool_decide (Some user_id = sender_user) then get_user_signing_key raw_ok user_id else mret None);
  mret (mkKeysResponse (put_opt user_id (to_vec <$> master) (master_keys acc)) (put_opt user_id (to_vec <$> self_signing) (self_signing_keys acc))
    (put_opt user_id user_signing (user_signing_keys acc)) dk (failures acc)).

(** The request to one server, unless it is backed off. *)
Definition query_server (now : Z) (server : bytes) (vec : list (bytes * list bytes)) : M KeyWorld (option FedKeys) :=
  wait ← gets (λ w, backing_off 30 now server (bad_query_ratelimiter w));
  mret (if (wait : bool) then None else fed_get_keys server vec).

(** A master key of an answer: the known signatures are kept, and it is stored. *)
Definition use_master_key (sender_user : option bytes) (allowed_signatures : bytes → bool) (user masterkey : bytes) : M Db bytes :=
  master_key_id ← parse_master_key key_values user masterkey;
  ours ← get_key master_key_id sender_user user allowed_signatures;
  (match ours with Some our => parse_master_key key_values user (to_vec our);; mret tt | None => mret tt end);;
  let raw := with_signatures masterkey (to_vec <$> ours) in
  (* Dont notify. A notification would trigger another key request resulting in an endless loop *)
  add_cross_signing_keys key_values user raw None None false;;
  mret raw.

Definition use_answer (now : Z) (sender_user : option bytes) (allowed_signatures : bytes → bool) (acc : KeysResponse) (server : bytes)
    (response : option FedKeys) : M KeyWorld KeysResponse :=
  match response with
  | Some response =>
      masters ← foldM (λ masters '(user, masterkey),
        raw ← on_kw (use_master_key sender_user allowed_signatures user masterkey);
        mret (<[user := raw]> masters)) (master_keys acc) (fk_master_keys response);
      mret (mkKeysResponse masters (extend (self_signing_keys acc) (fk_self_signing_keys response)) (user_signing_keys acc)
        (extend (device_keys acc) (fk_device_keys response)) (failures acc))
  | None =>
      back_off_query now server;;
      mret (mkKeysResponse (master_keys acc) (self_signing_keys acc) (user_signing_keys acc) (device_keys acc) ({[server]} ∪ failures acc))
  end.

(** [entry(server).or_insert_with(Vec::new).push(x)]. *)
Definition push_for {A} (server : bytes) (x : A) (m : gmap bytes (list A)) : gmap bytes (list A) := <[server := default [] (m !! server) ++ [x]]> m.

Definition get_keys_helper (now : Z) (sender_user : option bytes) (device_keys_input : list (bytes * list bytes)) (allowed_signatures : bytes → bool)
    : M KeyWorld KeysResponse :=
  '(acc, get_over_federation) ← foldM (λ '(acc, fed) '(user_id, device_ids),
    if bool_decide (server_name_of user_id ≠ server_name) then mret (acc, push_for (server_name_of user_id) (user_id, device_ids) fed) else
    acc ← on_kw (local_keys sender_user allowed_signatures acc user_id device_ids);
    mret (acc, fed)) (mkKeysResponse ∅ ∅ ∅ ∅ ∅, ∅) device_keys_input;
  foldM (λ acc '(server, vec),
    response ← query_server now server vec;
    use_answer now sender_user allowed_signatures acc server response) acc (map_iter get_over_federation).

Definition get_keys_route (now : Z) (sender_user : bytes) (body_device_keys : list (bytes * list bytes)) : M KeyWorld KeysResponse :=
  get_keys_helper now (Some sender_user) body_device_keys (only_own sender_user).

(** *** Claiming *)

Definition claim_local (user_id : bytes) (map : list (bytes * bytes)) : M Db (gmap bytes (gmap bytes bytes)) :=
  foldM (λ container '(device_id, key_algorithm),
    o ← take_one_time_key key_id_from_json raw_ok user_id device_id key_algorithm;
    mret (match o with Some (id, key) => <[device_id := {[id := key]}]> container | None => container end)) ∅ map.

Definition claim_keys_helper (one_time_keys_input : list (bytes * list (bytes * bytes))) : M Db ClaimResponse :=
  '(keys, get_over_federation) ← foldM (λ '(keys, fed) '(user_id, map),
    let fed := if bool_decide (server_name_of user_id ≠ server_name) then push_for (server_name_of user_id) (user_id, map) fed else fed in
    container ← claim_local user_id map;
    mret (<[user_id := container]> keys, fed)) (∅, ∅) one_time_keys_input;
  mret (fold_left (λ acc '(server, vec),
    match fed_claim_keys server vec with
    | Some answer => mkClaimResponse (cr_failures acc) (extend (one_time_keys acc) answer)
    | None => mkClaimResponse ({[server]} ∪ cr_failures acc) (one_time_keys acc)
    end) (map_iter get_over_federation) (mkClaimResponse ∅ keys)).

Definition claim_keys_route (input : list (bytes * list (bytes * bytes))) : M Db ClaimResponse := claim_keys_helper input.

(** *** Over federation *)

Definition from_other_server {A} (input : list (bytes * A)) : bool := existsb (λ '(u, _), bool_decide (server_name_of u ≠ server_name)) input.

Definition federation_get_keys_route (now : Z) (sender_servername : option bytes) (input : list (bytes * list bytes)) : M KeyWorld FedKeys :=
  if from_other_server input then fail (BadRequest InvalidParam "Tried to access user from other server.") else
  result ← get_keys_helper now None input (λ u, bool_decide (Some (server_name_of u) = sender_servername));
  mret (mkFedKeys (map_to_list (master_keys result)) (self_signing_keys result) (device_keys result)).

Definition federation_claim_keys_route (input : list (bytes * list (bytes * bytes))) : M Db (gmap bytes (gmap bytes (gmap bytes bytes))) :=
  if from_other_server input then fail (BadRequest InvalidParam "Tried to access user from other server.") else
  result ← claim_keys_helper input;
  mret (one_time_keys result).
End routes.

(** ** Proofs *)

(** What every successful step of a loop keeps, the loop keeps. *)
Lemma foldM_succ {S A B} (P : B → S → Prop) (f : B → A → M S B) l b s b' s' :
  (∀ x b s b' s', x ∈ l → P b s → f b x s = (Ok b', s') → P b' s') →
  P b s → foldM f b l s = (Ok b', s') → P b' s'.
Proof.
  revert b s. induction l as [|x l IH]; intros b s Hf HP H; cbn [foldM] in H; [by injection H as <- <-|].
  apply bind_inv in H as (b1 & s1 & H1 & H). eapply IH; [|by eapply Hf; [left|..]|exact H].
  intros y * Hy. eapply Hf. by right.
Qed.

Section proofs.
Context {RU : Ruma} {LR : LruCache} {HO : HashOrder} {MO : MapOrder} {KR : KeyRemote} {KC : KeyContents}.
Context {JP : Json PduEvent} {JV : Json Value} {JD : Json Device} {JU : Json UiaaInfo}.

(** A key read for a user does not change the database. *)
Lemma get_key_of_state t s u a d : (get_key_of t s u a d).2 = d.
Proof. unfold get_key_of, get, get_key, get, gets, lift. run. by destruct (kv_get (kv d t) u). Qed.

(** The users whose user-signing key an answer holds. *)
Definition own_user_signing_keys (server_name : bytes) (sender_user : option bytes) (r : KeysResponse) : Prop :=
  ∀ u k, user_signing_keys r !! u = Some k → Some u = sender_user ∧ server_name_of u = server_name.

Lemma local_keys_own raw_ok server_name sender_user a acc u ids d r d' :
  own_user_signing_keys server_name sender_user acc → server_name_of u = server_name →
  local_keys raw_ok sender_user a acc u ids d = (Ok r, d') → own_user_signing_keys server_name sender_user r.
Proof.
  intros Hacc Hs H. unfold local_keys in H. 
  apply bind_inv in H as (dk & d1 & _ & H). apply bind_inv in H as (mk & d2 & _ & H). apply bind_inv in H as (sk & d3 & _ & H).
  apply bind_inv in H as (us & d4 & Hus & H). injection H as <- <-.
  intros v k. cbn [user_signing_keys]. unfold put_opt. case_bool_decide; cbn in *.
  - destruct us as [key|]; [|apply Hacc]. rewrite lookup_insert. case_decide; [by subst|apply Hacc].
  - injection Hus as <- <-. apply Hacc.
Qed.

Lemma use_answer_own now server_name sender_user a acc server resp w r w' :
  own_user_signing_keys server_name sender_user acc →
  use_answer now sender_user a acc server resp w = (Ok r, w') → own_user_signing_keys server_name sender_user r.
Proof.
  intros Hacc H. destruct resp as [resp|]; unfold use_answer in H; apply bind_inv in H as (? & ? & _ & H); by injection H as <- <-.
Qed.

Lemma on_kw_inv {A} (m : M Db A) w a w' :
  on_kw m w = (Ok a, w') → ∃ d', m (kw_db w) = (Ok a, d') ∧ w' = mkKeyWorld d' (bad_query_ratelimiter w).
Proof. unfold on_kw. destruct (m (kw_db w)) as [r d']. injection 1 as -> <-. eauto. Qed.

Lemma parse_master_key_inv u mk mid d d' :
  parse_master_key key_values u mk d = (Ok mid, d') → ∃ id, key_values mk = Some [id] ∧ mid = u ++ ff :: id ∧ d' = d.
Proof.
  unfold parse_master_key, single_key. run. destruct (key_values mk) as [[|id []]|]; cbn; try done.
  injection 1 as <- <-. eauto.
Qed.

(** The key of a master key that was accepted, and what is stored under it. *)
Lemma use_master_key_stored sender_user a u mk raw d d' :
  use_master_key sender_user a u mk d = (Ok raw, d') →
  ∃ id, key_values mk = Some [id] ∧ keys_of raw = keys_of mk ∧
    kv d' = kv (upd userid_masterkeyid (λ tr, kv_insert tr u (u ++ ff :: id)) (upd keyid_key (λ tr, kv_insert tr (u ++ ff :: id) raw) d)).
Proof.
  intros H. unfold use_master_key in H. apply bind_inv in H as (mid & d1 & Hm & H).
  apply bind_inv in H as (ours & d2 & Ho & H). apply bind_inv in H as ([] & d3 & Hx & H).
  apply bind_inv in H as ([] & d4 & Ha & H). injection H as <- <-.
  apply parse_master_key_inv in Hm as (id & Hid & -> & ->).
  assert (d2 = d) as -> by (unfold get_key, get, gets, lift in Ho; revert Ho; run; by injection 1).
  assert (d3 = d) as ->.
  { destruct ours; [|by injection Hx as <-]. apply bind_inv in Hx as (? & ? & Hx & E). injection E as <-.
    by apply parse_master_key_inv in Hx as (? & _ & _ & ->). }
  unfold add_cross_signing_keys in Ha. apply bind_inv in Ha as (mid & d5 & Hm & Ha).
  apply parse_master_key_inv in Hm as (id' & Hid' & -> & ->).
  unfold key_values in *. rewrite with_signatures_keys in *. rewrite Hid in Hid'. injection Hid' as <-.
  exists id. split_and!; [done|done|]. revert Ha. unfold insert, modify. run. by injection 1 as <-.
Qed.

(** The master keys of an answer, stored one after the other. *)
Lemma use_master_keys_stored (sender_user : option bytes) (a : bytes → bool) (l : list (bytes * bytes)) (acc : gmap bytes bytes) (w : KeyWorld) (r : gmap bytes bytes) (w' : KeyWorld) (u mk : bytes) :
  NoDup l.*1 → (u, mk) ∈ l →
  foldM (λ (masters : gmap bytes bytes) '(user, masterkey), raw ← on_kw (use_master_key sender_user a user masterkey); mret (<[user := raw]> masters)) acc l w = (Ok r, w') →
  ∃ id raw, key_values mk = Some [id] ∧ keys_of raw = keys_of mk ∧ r !! u = Some raw ∧
    kv (kw_db w') userid_masterkeyid !! u = Some (u ++ ff :: id).
Proof.
  revert acc w. induction l as [|[u' mk'] l IH]; intros acc w Hnd Hin H; [by apply elem_of_nil in Hin|].
  cbn [foldM] in H. apply NoDup_cons in Hnd as [Hn Hnd]. apply bind_inv in H as (acc1 & w1 & H1 & H).
  apply elem_of_cons in Hin as [[= <- <-]|Hin]; [|by eapply IH].
  apply bind_inv in H1 as (raw & w2 & H1 & E). injection E as <- <-. apply on_kw_inv in H1 as (d2 & Hu & ->).
  apply use_master_key_stored in Hu as (id & Hid & Hk & Hd). exists id, raw. split; [done|]. split; [done|].
  refine (foldM_succ (λ (m : gmap bytes bytes) w, m !! u = Some raw ∧ kv (kw_db w) userid_masterkeyid !! u = Some (u ++ ff :: id)) _ _ _ _ _ _ _ _ H).
  - intros [v k] b s b' s' Hv [Hb Hs] Hf. assert (v ≠ u) as Hne by (intros ->; apply Hn, list_elem_of_fmap; by exists (u, k)).
    apply bind_inv in Hf as (raw' & w2 & Hf & E). injection E as <- <-. apply on_kw_inv in Hf as (d3 & Hf & ->).
    apply use_master_key_stored in Hf as (id' & _ & _ & E). rewrite lookup_insert_ne by done. split; [done|].
    cbn [kw_db]. rewrite E. kv_simpl. unfold kv_insert. by rewrite lookup_insert_ne.
  - rewrite lookup_insert_eq. split; [done|]. cbn [kw_db]. rewrite Hd. kv_simpl. apply lookup_insert_eq.
Qed.

(** C31: a user-signing key is shown to nobody but its owner: whatever users and
    devices are asked for, an answer to a key query holds the user-signing key
    of no user but the asking local user, and an answer to another server holds
    none. *)
Theorem user_signing_keys_private raw_ok server_name now sender_user a input w r w' :
  get_keys_helper raw_ok server_name now sender_user input a w = (Ok r, w') →
  ∀ u k, user_signing_keys r !! u = Some k → Some u = sender_user ∧ server_name_of u = server_name.
Proof.
  intros H. unfold get_keys_helper in H. apply bind_inv in H as ([acc fed] & w1 & H1 & H).
  refine (foldM_succ (λ r _, own_user_signing_keys server_name sender_user r) _ _ _ _ _ _ _ _ H).
  { intros [server vec] b s b' s' _ Hb Hs. apply bind_inv in Hs as (resp & s1 & _ & Hs). by eapply use_answer_own. }
  refine (foldM_succ (λ '(r, _) _, own_user_signing_keys server_name sender_user r) _ _ (_, _) _ (_, _) _ _ _ H1); [|done].
  intros [u ids] [b f] s [b' f'] s' _ Hb Hs. case_bool_decide as Hsn; [by injection Hs as <- <- <-|].
  apply bind_inv in Hs as (b1 & s1 & Hl & E). injection E as <- <- <-. apply on_kw_inv in Hl as (d' & Hl & ->).
  eapply local_keys_own; [done| |done]. by destruct (decide (server_name_of u = server_name)).
Qed.

(** Without re-authentication, new cross-signing keys are accepted only
    when the uploaded master key has the keys of the stored self-signing
    key.  The stored master key is not compared: re-uploading it is refused,
    and the self-signing key of the user takes its place unasked. *)
Theorem upload_compared_with_self_signing_key x raw_ok server_name rt av session u dev json mk ss us stored d d' :
  (get_master_key None u (only_own u) d).1 = Ok (Some stored) →
  upload_signing_keys_route raw_ok server_name rt av session u dev None json (Some mk) ss us d = (Ok x, d') →
  ∃ s ks, (get_self_signing_key None u (only_own u) d).1 = Ok (Some s) ∧ keys_of (to_vec s) = Some ks ∧ keys_of mk = Some ks.
Proof.
  intros Hm H. assert (get_master_key None u (only_own u) d = (Ok (Some stored), d)) as Hm'
    by (apply (injective_projections _ (_, _)); [done|apply get_key_of_state]).
  unfold upload_signing_keys_route in H. apply bind_inv in H as ([] & d1 & H & _).
  destruct json as [json|]; [|done]. rewrite (bind_ok _ _ _ _ _ Hm') in H. apply bind_inv in H as (new & d2 & Hnew & H).
  destruct new; [by apply bind_inv in H as (? & ? & _ & ?)|].
  unfold req_has_new_keys in Hnew. apply bind_inv in Hnew as (m & d3 & Hc & Hnew). destruct m; [done|]. clear Hnew H.
  apply bind_inv in Hc as (new & d4 & Hn & Hc). destruct (keys_of mk) as [ks|]; [|done]. injection Hn as <- <-.
  apply bind_inv in Hc as (o & d5 & Ho & Hc). apply bind_inv in Hc as (cur & d6 & Hcur & Hc).
  injection Hc as Hc _. apply negb_false_iff, bool_decide_eq_true in Hc as <-.
  unfold get_self_signing_key in *. destruct o as [s|]; [|done]. rewrite Ho. exists s, ks. split_and!; try done.
  cbn in Hcur. destruct (keys_of (to_vec s)); [|done]. by injection Hcur as <- _.
Qed.

(** The answer of a server to a key query sets the master key of every
    user it names: the key that is stored and returned for the user is the
    answered one, whether or not the user belongs to the server, and for local
    users too. *)
Theorem answer_sets_master_keys now sender_user a acc server answer w r w' u mk :
  NoDup (fk_master_keys answer).*1 → (u, mk) ∈ fk_master_keys answer →
  use_answer now sender_user a acc server (Some answer) w = (Ok r, w') →
  ∃ id raw, key_values mk = Some [id] ∧ keys_of raw = keys_of mk ∧ master_keys r !! u = Some raw ∧
    kv (kw_db w') userid_masterkeyid !! u = Some (u ++ ff :: id).
Proof.
  intros Hnd Hin H. unfold use_answer in H. apply bind_inv in H as (ms & w1 & Hf & H). injection H as <- <-.
  by eapply use_master_keys_stored.
Qed.
End proofs.

(** ** Witnesses *)

#[local] Existing Instance sample_ruma.
#[local] Existing Instance lru_unbounded.
#[local] Existing Instance elements_order.
#[local] Instance key_map_order : MapOrder := {| map_iter := λ K V _ _ m, map_to_list m; map_iter_perm := λ K V _ _ m, reflexivity _ |}.
#[local] Instance key_value_json : Json Value := json_countable Value.
#[local] Instance key_pdu_json : Json PduEvent := json_countable PduEvent.
#[local] Instance key_device_json : Json Device := json_countable Device.
#[local] Instance key_uiaa_json : Json UiaaInfo := json_countable UiaaInfo.

(** A key is its own text. *)
#[local] Instance plain_keys : KeyContents := {|
  one_time_key_ok := λ _, true; device_keys_ok := λ _, true; keys_of := λ raw, Some {[lit "ed25519:k" := raw]};
  with_signatures := λ k _, k; with_signatures_keys := λ _ _, eq_refl |}.

Definition key_text (s : string) : bytes := to_vec (VString (lit s)).

(** A server that answers for a user of this server. *)
Definition evil_answer : FedKeys := mkFedKeys [(lit "@a:b", key_text "E")] ∅ ∅.

#[local] Instance evil_server : KeyRemote := {| fed_get_keys := λ _ _, Some evil_answer; fed_claim_keys := λ _ _, None |}.

(** The user [@a:b] with the master key [M], the self-signing key [S] and the
    user-signing key [U]. *)
Definition keys_db : Db :=
  ((insert keyid_key (lit "m") (key_text "M");; insert keyid_key (lit "s") (key_text "S");; insert keyid_key (lit "u") (key_text "U");;
    insert userid_masterkeyid (lit "@a:b") (lit "m");; insert userid_selfsigningkeyid (lit "@a:b") (lit "s");;
    insert userid_usersigningkeyid (lit "@a:b") (lit "u")) device_db).2.

Definition queried (sender : option bytes) : res KeysResponse * KeyWorld :=
  get_keys_helper (λ _, true) (lit "b") 0 sender [(lit "@a:b", []); (lit "@x:evil", [])] (λ _, false) (mkKeyWorld keys_db ∅).

(** The owner sees the user-signing key, another user does not. *)
Lemma user_signing_keys_private_witness :
  (user_signing_keys <$> (queried (Some (lit "@a:b"))).1) = Ok {[lit "@a:b" := key_text "U"]} ∧
  match queried (Some (lit "@c:b")) with
  | (Ok r, _) => ∀ u k, user_signing_keys r !! u = Some k → Some u = Some (lit "@c:b") ∧ server_name_of u = lit "b"
  | _ => False
  end.
Proof.
  split; [by vm_compute|]. assert (is_ok (queried (Some (lit "@c:b"))).1 = true) as Hok by (by vm_compute).
  destruct (queried _) as [[r| |] w'] eqn:E; [|done..]. clear Hok.
  exact (user_signing_keys_private _ _ _ _ _ _ _ r w' E).
Defined.

Definition uploaded : res unit * Db :=
  upload_signing_keys_route (λ _, true) (lit "b") None (λ _ _, false) (lit "s") (lit "@a:b") (lit "D") None (Some []) (Some (key_text "S")) None None keys_db.

(** The self-signing key becomes the master key; the master key itself asks for
    the password. *)
Lemma upload_compared_with_self_signing_key_witness :
  (∃ s ks, (get_self_signing_key None (lit "@a:b") (only_own (lit "@a:b")) keys_db).1 = Ok (Some s) ∧
     keys_of (to_vec s) = Some ks ∧ keys_of (key_text "S") = Some ks) ∧
  kv uploaded.2 userid_masterkeyid !! lit "@a:b" = Some (lit "@a:b" ++ ff :: key_text "S").
Proof.
  split; [|by vm_compute].
  apply (upload_compared_with_self_signing_key tt (λ _, true) (lit "b") None (λ _ _, false) (lit "s") (lit "@a:b") (lit "D") (Some []) (key_text "S") None None
    (VString (lit "M")) keys_db uploaded.2).
  - by vm_compute.
  - assert (uploaded.1 = Ok tt) as E by (by vm_compute). change (uploaded = (Ok tt, uploaded.2)). by rewrite <-E, <-surjective_pairing.
Defined.

Definition answered : res KeysResponse * KeyWorld :=
  use_answer 0 (Some (lit "@c:b")) (λ _, false) (mkKeysResponse ∅ ∅ ∅ ∅ ∅) (lit "evil") (Some evil_answer) (mkKeyWorld keys_db ∅).

Lemma answer_sets_master_keys_witness :
  match answered with
  | (Ok r, w') => ∃ id raw, key_values (key_text "E") = Some [id] ∧ keys_of raw = keys_of (key_text "E") ∧
      master_keys r !! lit "@a:b" = Some raw ∧ kv (kw_db w') userid_masterkeyid !! lit "@a:b" = Some (lit "@a:b" ++ ff :: id)
  | _ => False
  end ∧ (kv (kw_db (queried (Some (lit "@c:b"))).2) userid_masterkeyid !! lit "@a:b" = Some (lit "@a:b" ++ ff :: key_text "E")).
Proof.
  split; [|by vm_compute]. assert (is_ok answered.1 = true) as Hok by (by vm_compute).
  destruct answered as [[r| |] w'] eqn:E; [|done..]. clear Hok.
  refine (answer_sets_master_keys 0 (Some (lit "@c:b")) (λ _, false) (mkKeysResponse ∅ ∅ ∅ ∅ ∅) (lit "evil") evil_answer (mkKeyWorld keys_db ∅) r w' _ _ _ _ E).
  - apply NoDup_singleton.
  - by left.
Defined.
