(* ===== verification/Sync.v ===== *)
(** * Sync: the state of a client

    The v3 part of [server/src/api/client_server/sync.rs]: one request of a
    device computes what changed in its rooms since its last one, and the
    responses are cached per device.  The clock is read once per request; the
    waits (for pending insertions, and for news when there is nothing to send)
    do not change what is answered. *)
From S2P Require Import Prelude Bytes JsonValue KvTree Sending Pdu Database Short StateCompressor RoomState Accounts StateCache Timeline PduJson AccountData Devices UserKeys Edus RoomTables StateAccess EventHandler.

(** ** Data *)

(** [Filter] of a request: given, or by its id. *)
Inductive FilterArg (F : Type) := FilterDefinition (f : F) | FilterId (id : bytes).
Arguments FilterDefinition {F} f.
Arguments FilterId {F} id.

Record SyncRequest (F : Type) := mkSyncRequest {
  rq_filter : option (FilterArg F);
  rq_since : option bytes;
  rq_full_state : bool;
  (** in milliseconds *)
  rq_timeout : option Z;
}.
Arguments rq_filter {F} _.
Arguments rq_since {F} _.
Arguments rq_full_state {F} _.
Arguments rq_timeout {F} _.

Inductive Edu := EReceipt (content : bytes) | ETyping (user_ids : list bytes).

Record JoinedRoom := mkJoinedRoom {
  jr_account_data : gmap bytes Value;
  jr_heroes : list bytes;
  jr_joined_member_count : option Z;
  jr_invited_member_count : option Z;
  jr_highlight_count : option Z;
  jr_notification_count : option Z;
  jr_limited : bool;
  jr_prev_batch : option bytes;
  jr_timeline : list Value;
  jr_state : list Value;
  jr_ephemeral : list Edu;
}.

(** Left rooms have an empty timeline that is not limited, and no account data. *)
Record LeftRoom := mkLeftRoom { lr_prev_batch : bytes; lr_state : list Value }.

Record SyncResponse := mkSyncResponse {
  rs_next_batch : bytes;
  rs_leave : gmap bytes LeftRoom;
  rs_join : gmap bytes JoinedRoom;
  rs_invite : gmap bytes (list Value);
  rs_knock : gmap bytes (list Value);
  rs_presence : gmap bytes PresenceEvent;
  rs_account_data : gmap bytes Value;
  rs_changed : gset bytes;
  rs_left : gset bytes;
  rs_one_time_keys_count : gmap bytes Z;
  rs_to_device : list Value;
}.

(** The rest of a presence event, which [Edus] keeps as text. *)
Record PresenceRest := mkPresenceRest {
  pt_status_msg : option bytes;
  pt_displayname : option bytes;
  pt_avatar_url : option bytes;
  pt_currently_active : option bool;
}.

(** ruma: filters, presence and when parts of a response are empty. *)
Class SyncTypes := {
  Filter : Type;
  filter_json :: Json Filter;
  default_filter : Filter;
  (** [Some redundant] when lazy loading is enabled *)
  lazy_load_options : Filter → option bool;
  rest_fields : bytes → PresenceRest;
  rest_text : PresenceRest → bytes;
  joined_room_is_empty : JoinedRoom → bool;
  joined_room_not_empty : ∀ r, jr_timeline r ≠ [] ∨ jr_state r ≠ [] ∨ jr_ephemeral r ≠ [] → joined_room_is_empty r = false;
}.

(** The state a request works on: the database with the typing users, the lazily
    loaded members in flight, and the device lists it collects. *)
Record SyncState := mkSync {
  sy_typing : TypingState;
  sy_lazy : LazyWaiting;
  device_list_updates : gset bytes;
  left_encrypted_users : gset bytes;
}.

Definition sy_db (s : SyncState) : Db := typing_db (sy_typing s).

Definition with_typing_db (t : TypingState) (d : Db) : TypingState := mkTyping (typing t) (last_update t) (typing_sent t) d.

(** Computations on the database, on the lazily loaded members, on typing. *)
Definition sdb {A} (m : M Db A) : M SyncState A := λ s,
  let '(r, d) := m (sy_db s) in
  (r, mkSync (with_typing_db (sy_typing s) d) (sy_lazy s) (device_list_updates s) (left_encrypted_users s)).

Definition slazy {A} (m : M (LazyWaiting * Db) A) : M SyncState A := λ s,
  let '(r, (w, d)) := m (sy_lazy s, sy_db s) in
  (r, mkSync (with_typing_db (sy_typing s) d) w (device_list_updates s) (left_encrypted_users s)).

Definition styping {A} (m : M TypingState A) : M SyncState A := λ s,
  let '(r, t) := m (sy_typing s) in (r, mkSync t (sy_lazy s) (device_list_updates s) (left_encrypted_users s)).

Definition changed_users (us : gset bytes) : M SyncState unit :=
  modify (λ s, mkSync (sy_typing s) (sy_lazy s) (us ∪ device_list_updates s) (left_encrypted_users s)).

Definition left_users (us : gset bytes) : M SyncState unit :=
  modify (λ s, mkSync (sy_typing s) (sy_lazy s) (device_list_updates s) (us ∪ left_encrypted_users s)).

Section sync.
Context {RU : Ruma} {LR : LruCache} {HO : HashOrder} {MO : MapOrder} {CT : Contents} {ST : SyncTypes}.
Context `{JP : !Json PduEvent, JV : !Json Value, JL : !Json (list Value), JM : !Json Tree, JR : !Json RedactionContent, JE : !Json PresenceEvent}.
Context (remove_key : bytes → Value → Value) (uint_sub : Z → Z → res Z).
Context (key_id_from_json : bytes → option bytes) (algorithm_of : bytes → bytes).

(** ** The timeline of a room *)

Definition load_timeline (sender_user room_id : bytes) (roomsincecount : PduCount) (limit : nat) : M Db (list (PduCount * PduEvent) * bool) :=
  last ← last_timeline_count sender_user room_id;
  if after roomsincecount last then
    it ← pdus_until sender_user room_id PduCount_max;
    let non_timeline_pdus := take_while (λ e, after roomsincecount e.1) (oks it) in
    (* Take the last events for the timeline *)
    mret (rev (take limit non_timeline_pdus), bool_decide (drop limit non_timeline_pdus ≠ []))
  else mret ([], false).

Definition all_pdus (user_id room_id : bytes) : M Db (list (res (PduCount * PduEvent))) := pdus_after user_id room_id PduCount_min.

(** *** Encrypted rooms *)

Fixpoint any_encrypted (rooms : list bytes) : M Db bool :=
  match rooms with
  | [] => mret false
  | other_room_id :: rooms =>
      o ← try_ok (room_state_get other_room_id (lit "m.room.encryption") []);
      match o with Some (Some _) => mret true | _ => any_encrypted rooms end
  end.

Definition share_encrypted_room (sender_user user_id ignore_room : bytes) : M Db bool :=
  rooms ← gets (get_shared_rooms [sender_user; user_id]);
  any_encrypted (bfilter (λ r, bool_decide (r ≠ ignore_room)) (oks rooms)).

(** *** The summary of a room *)

Definition js_uint (n : Z) : res Z := if n <=? UINT_MAX then Ok n else Panic.

Definition hero_of (room_id : bytes) (pdu : PduEvent) : M Db (option bytes) :=
  membership ← lift (ok_or (membership_of (pdu_content pdu)) (BadDatabase "Invalid member event in database."));
  match pdu_state_key pdu with
  | Some state_key =>
      if user_id_ok state_key then
        if bool_decide (membership = Join) || bool_decide (membership = Invite) then
          joined ← is_joined state_key room_id;
          here ← (if (joined : bool) then mret true else is_invited state_key room_id);
          mret (if (here : bool) then Some state_key else None)
        else mret None
      else fail (BadDatabase "Invalid UserId in member PDU.")
  | None => mret None
  end.

Definition calculate_counts (sender_user room_id : bytes) : M Db (option Z * option Z * list bytes) :=
  j ← room_joined_count room_id;
  i ← room_invited_count room_id;
  let joined_member_count := default 0 j in
  let invited_member_count := default 0 i in
  (* Recalculate heroes (first 5 members) *)
  heroes ← (if w64 (joined_member_count + invited_member_count) <=? 5 then
      it ← all_pdus sender_user room_id;
      foldM (λ (heroes : list bytes) '((_, pdu) : PduCount * PduEvent),
        o ← try_ok (hero_of room_id pdu);
        mret match o with
             | Some (Some hero) => if bool_decide (hero ∈ heroes) || bool_decide (hero = sender_user) then heroes else heroes ++ [hero]
             | _ => heroes
             end) [] (bfilter (λ e, bool_decide (pdu_kind e.2 = lit "m.room.member")) (oks it))
    else mret []);
  mret (Some joined_member_count, Some invited_member_count, heroes).

(** *** The state to send *)

Definition parsed_user (user : bytes) : gset bytes := if user_id_ok user then {[user]} else ∅.

(** All of the state, members only where they are needed. *)
Definition initial_state (sender_user : bytes) (lazy_load_enabled full_state : bool) (timeline_users : gset bytes) (current_shortstatehash : Z)
    : M Db (list PduEvent * gset bytes) :=
  current_state_ids ← state_full_ids current_shortstatehash;
  foldM (λ '(state_events, lazy_loaded) '(shortstatekey, id),
    '(event_type, state_key) ← get_statekey_from_short shortstatekey;
    if bool_decide (event_type ≠ lit "m.room.member") then
      o ← get_pdu id;
      mret match o with Some pdu => (state_events ++ [pdu], lazy_loaded) | None => (state_events, lazy_loaded) end
    else if negb lazy_load_enabled || full_state || bool_decide (state_key ∈ timeline_users) || bool_decide (sender_user = state_key) then
      o ← get_pdu id;
      mret match o with Some pdu => (state_events ++ [pdu], parsed_user state_key ∪ lazy_loaded) | None => (state_events, lazy_loaded) end
    else mret (state_events, lazy_loaded)) ([], ∅) (map_iter current_state_ids).

(** The events that are in the state now, but were not at [since]. *)
Definition changed_state (full_state : bool) (since_shortstatehash current_shortstatehash : Z) : M Db (list PduEvent * gset bytes) :=
  if bool_decide (since_shortstatehash ≠ current_shortstatehash) then
    current_state_ids ← state_full_ids current_shortstatehash;
    since_state_ids ← state_full_ids since_shortstatehash;
    foldM (λ '(state_events, lazy_loaded) '(key, id),
      if full_state || bool_decide (since_state_ids !! key ≠ Some id) then
        o ← get_pdu id;
        match o with
        | Some pdu =>
            loaded ← (if bool_decide (pdu_kind pdu = lit "m.room.member") then
                state_key ← lift (expect (pdu_state_key pdu)); mret (parsed_user state_key)
              else mret ∅);
            mret (state_events ++ [pdu], loaded ∪ lazy_loaded)
        | None => mret (state_events, lazy_loaded)
        end
      else mret (state_events, lazy_loaded)) ([], ∅) (map_iter current_state_ids)
  else mret ([], ∅).

(** The senders of the timeline whose member event the device does not have. *)
Definition timeline_members (sender_user sender_device room_id : bytes) (lazy_load_send_redundant : bool)
    (timeline_pdus : list (PduCount * PduEvent)) (acc : list PduEvent * gset bytes) : M Db (list PduEvent * gset bytes) :=
  foldM (λ '(state_events, lazy_loaded) '(_, event),
    if bool_decide (pdu_sender event ∈ lazy_loaded) then mret (state_events, lazy_loaded) else
    sent ← lazy_load_was_sent_before sender_user sender_device room_id (pdu_sender event);
    if negb sent || lazy_load_send_redundant then
      o ← room_state_get room_id (lit "m.room.member") (pdu_sender event);
      mret match o with
           | Some member_event => (state_events ++ [member_event], {[pdu_sender event]} ∪ lazy_loaded)
           | None => (state_events, lazy_loaded)
           end
    else mret (state_events, lazy_loaded)) acc timeline_pdus.

(** The device lists the member events of an encrypted room touch. *)
Definition member_device_lists (sender_user room_id : bytes) (state_events : list PduEvent) : M SyncState unit :=
  for_each (bfilter (λ e, bool_decide (pdu_kind e = lit "m.room.member")) state_events) (λ state_event,
    match pdu_state_key state_event with
    | None => mret tt
    | Some user_id =>
        if negb (user_id_ok user_id) then fail (BadDatabase "Invalid UserId in member PDU.") else
        if bool_decide (user_id = sender_user) then mret tt else
        new_membership ← lift (ok_or (membership_of (pdu_content state_event)) (BadDatabase "Invalid PDU in database."));
        match new_membership with
        | Join =>
            (* A new user joined an encrypted room *)
            share ← sdb (share_encrypted_room sender_user user_id room_id);
            if (share : bool) then mret tt else changed_users {[user_id]}
        | Leave => left_users {[user_id]}
        | _ => mret tt
        end
    end).

(** All joined users of a room that is new to the device. *)
Definition new_room_device_lists (sender_user room_id : bytes) : M SyncState unit :=
  members ← sdb (gets (λ d, Ok (oks (room_members room_id d))));
  for_each (bfilter (λ u, bool_decide (sender_user ≠ u)) members) (λ user_id,
    share ← sdb (try_ok (share_encrypted_room sender_user user_id room_id));
    if default false share then mret tt else changed_users {[user_id]}).

Record RoomChanges := mkRoomChanges {
  heroes : list bytes;
  joined_member_count : option Z;
  invited_member_count : option Z;
  joined_since_last_sync : bool;
  state_events : list PduEvent;
}.

Definition lazy_loaded_sent (sender_user sender_device room_id : bytes) (lazy_loaded : gset bytes) (next_batchcount : PduCount) : M SyncState unit :=
  slazy (lazy_load_mark_sent sender_user sender_device room_id lazy_loaded next_batchcount).

Definition initial_changes (sender_user sender_device room_id : bytes) (next_batchcount : PduCount) (lazy_load_enabled full_state : bool)
    (timeline_users : gset bytes) (current_shortstatehash : Z) : M SyncState RoomChanges :=
  '(joined, invited, heroes) ← sdb (calculate_counts sender_user room_id);
  '(state_events, lazy_loaded) ← sdb (initial_state sender_user lazy_load_enabled full_state timeline_users current_shortstatehash);
  (* Reset lazy loading because this is an initial sync *)
  sdb (lazy_load_reset sender_user sender_device room_id);;
  lazy_loaded_sent sender_user sender_device room_id lazy_loaded next_batchcount;;
  mret (mkRoomChanges heroes joined invited true state_events).

Definition incremental_changes (sender_user sender_device room_id : bytes) (next_batchcount : PduCount) (lazy_load_send_redundant full_state : bool)
    (timeline_pdus : list (PduCount * PduEvent)) (since_shortstatehash current_shortstatehash : Z) (joined_since_last_sync : bool) : M SyncState RoomChanges :=
  changed ← sdb (changed_state full_state since_shortstatehash current_shortstatehash);
  '(state_events, lazy_loaded) ← sdb (timeline_members sender_user sender_device room_id lazy_load_send_redundant timeline_pdus changed);
  lazy_loaded_sent sender_user sender_device room_id lazy_loaded next_batchcount;;
  encryption ← sdb (state_get current_shortstatehash (lit "m.room.encryption") []);
  let encrypted_room := bool_decide (is_Some encryption) in
  since_encryption ← sdb (state_get since_shortstatehash (lit "m.room.encryption") []);
  let new_encrypted_room := encrypted_room && bool_decide (since_encryption = None) in
  let send_member_count := existsb (λ e, bool_decide (pdu_kind e = lit "m.room.member")) state_events in
  (if encrypted_room then member_device_lists sender_user room_id state_events else mret tt);;
  (if joined_since_last_sync && encrypted_room || new_encrypted_room then new_room_device_lists sender_user room_id else mret tt);;
  '(joined, invited, heroes) ← (if send_member_count then sdb (calculate_counts sender_user room_id) else mret (None, None, []));
  mret (mkRoomChanges heroes joined invited joined_since_last_sync state_events).

(** The membership of the user at [since]. *)
Definition since_sender_member (since_shortstatehash : option Z) (sender_user : bytes) : M Db (option MembershipState) :=
  o ← match since_shortstatehash with Some s => state_get s (lit "m.room.member") sender_user | None => mret None end;
  mret (o ≫= λ pdu, membership_of (pdu_content pdu)).

Definition room_changes (sender_user sender_device room_id : bytes) (next_batchcount : PduCount) (lazy_load_enabled lazy_load_send_redundant full_state : bool)
    (timeline_pdus : list (PduCount * PduEvent)) (since_shortstatehash : option Z) (current_shortstatehash : Z) : M SyncState RoomChanges :=
  if bool_decide (timeline_pdus = []) && bool_decide (since_shortstatehash = Some current_shortstatehash) then
    (* No state changes *)
    mret (mkRoomChanges [] None None false [])
  else
    member ← sdb (since_sender_member since_shortstatehash sender_user);
    let joined_since_last_sync := bool_decide (member ≠ Some Join) in
    match since_shortstatehash with
    | Some since_shortstatehash =>
        if joined_since_last_sync
        then initial_changes sender_user sender_device room_id next_batchcount lazy_load_enabled full_state
               (list_to_set ((λ e, pdu_sender e.2) <$> timeline_pdus)) current_shortstatehash
        else incremental_changes sender_user sender_device room_id next_batchcount lazy_load_send_redundant full_state timeline_pdus
               since_shortstatehash current_shortstatehash joined_since_last_sync
    | None => initial_changes sender_user sender_device room_id next_batchcount lazy_load_enabled full_state
                (list_to_set ((λ e, pdu_sender e.2) <$> timeline_pdus)) current_shortstatehash
    end.

(** ** A joined room *)

Definition prev_batch_of (timeline_pdus : list (PduCount * PduEvent)) : option bytes :=
  match timeline_pdus with
  | [] => None
  | (Backfilled _, _) :: _ => Some (lit "0")
  | (Normal c, _) :: _ => Some (to_string c)
  end.

(** The ephemeral events of a room. *)
Definition room_edus (now : Z) (room_id : bytes) (since : Z) : M SyncState (list Edu) :=
  receipts ← sdb (gets (λ d, Ok (oks (readreceipts_since remove_key room_id since d))));
  let edus := (λ e, EReceipt e.2) <$> receipts in
  last_typing ← styping (last_typing_update now room_id);
  if since <? last_typing then
    users ← styping (gets (λ t, Ok (typings_all room_id t)));
    mret (edus ++ [ETyping users])
  else mret edus.

(** The unread counts, when they are sent. *)
Definition unread_counts (send_notification_counts : bool) (sender_user room_id : bytes) : M Db (option Z * option Z) :=
  if send_notification_counts then
    n ← notification_count sender_user room_id;
    n ← lift (js_uint n);
    h ← highlight_count sender_user room_id;
    h ← lift (js_uint h);
    mret (Some n, Some h)
  else mret (None, None).

Definition as_u32 (n : Z) : Z := n mod 2 ^ 32.

Definition load_joined_room (now : Z) (sender_user sender_device room_id : bytes) (since next_batch : Z)
    (lazy_load_enabled lazy_load_send_redundant full_state : bool) : M SyncState JoinedRoom :=
  let sincecount := Normal since in
  let next_batchcount := Normal next_batch in
  '(timeline_pdus, limited) ← sdb (load_timeline sender_user room_id sincecount 10);
  send_notification_counts ← (if bool_decide (timeline_pdus ≠ []) then mret true
    else read ← sdb (last_notification_read sender_user room_id); mret (since <? read));
  slazy (lazy_load_confirm_delivery sender_user sender_device room_id sincecount);;
  o ← sdb (get_room_shortstatehash room_id);
  current_shortstatehash ← lift (ok_or o (BadDatabase "Room has no state"));
  since_shortstatehash ← sdb (get_token_shortstatehash room_id since);
  changes ← room_changes sender_user sender_device room_id next_batchcount lazy_load_enabled lazy_load_send_redundant full_state
    timeline_pdus since_shortstatehash current_shortstatehash;
  (* Look for device list updates in this room *)
  updates ← sdb (gets (λ d, Ok (oks (keys_changed room_id since None d))));
  changed_users (list_to_set updates);;
  '(notification_count, highlight_count) ← sdb (unread_counts send_notification_counts sender_user room_id);
  room_events ← lift (collect ((λ e, to_sync_room_event e.2) <$> timeline_pdus));
  edus ← room_edus now room_id since;
  (* Save the state after this sync so we can send the correct state diff next sync *)
  sdb (associate_token_shortstatehash room_id next_batch current_shortstatehash);;
  account_data ← sdb (room_changes_since room_id sender_user since);
  state ← lift (collect (to_sync_state_event <$> state_events changes));
  mret (mkJoinedRoom account_data (heroes changes) (as_u32 <$> joined_member_count changes) (as_u32 <$> invited_member_count changes)
    highlight_count notification_count (limited || joined_since_last_sync changes) (prev_batch_of timeline_pdus) room_events state edus).

(** Update an existing presence event with more info. *)
Definition update_presence_event (p presence : PresenceEvent) : PresenceEvent :=
  let a := rest_fields (pr_rest p) in
  let b := rest_fields (pr_rest presence) in
  let keep {A} (new old : option A) := match new with Some x => Some x | None => old end in
  mkPresence (pr_sender p) (pr_presence presence) (keep (pr_last_active_ago presence) (pr_last_active_ago p))
    (rest_text (mkPresenceRest (keep (pt_status_msg b) (pt_status_msg a)) (keep (pt_displayname b) (pt_displayname a))
      (keep (pt_avatar_url b) (pt_avatar_url a)) (keep (pt_currently_active b) (pt_currently_active a)))).

Definition take_presence (updates : gmap bytes PresenceEvent) (u : bytes) (presence : PresenceEvent) : gmap bytes PresenceEvent :=
  <[u := match updates !! u with Some p => update_presence_event p presence | None => presence end]> updates.

Definition sync_joined (now : Z) (sender_user sender_device : bytes) (since next_batch : Z) (lazy_load_enabled lazy_load_send_redundant full_state : bool)
    : M SyncState (gmap bytes JoinedRoom * gmap bytes PresenceEvent) :=
  all_joined_rooms ← sdb (gets (λ d, Ok (rooms_joined sender_user d)));
  foldM (λ '(joined_rooms, presence_updates) room_id,
    room_id ← lift room_id;
    o ← try_ok (load_joined_room now sender_user sender_device room_id since next_batch lazy_load_enabled lazy_load_send_redundant full_state);
    match o with
    | Some joined_room =>
        let joined_rooms := if joined_room_is_empty joined_room then joined_rooms else <[room_id := joined_room]> joined_rooms in
        presences ← sdb (presence_since uint_sub now room_id since);
        mret (joined_rooms, fold_left (λ updates '(u, p), take_presence updates u p) (map_iter presences) presence_updates)
    | None => mret (joined_rooms, presence_updates)
    end) (∅, ∅) all_joined_rooms.

(** ** Rooms the user left, was invited to or knocked on *)

(** Happened before the last sync: [Some(since) >= count]. *)
Definition seen_before (since : Z) (count : option Z) : bool := match count with Some c => c <=? since | None => true end.

(** The leave event of a rejected invite. *)
Definition rejected_event (event_id sender_user room_id : bytes) (now : Z) : PduEvent :=
  mkPdu event_id (Some room_id) sender_user now (lit "m.room.member") (to_vec (VObject [(lit "membership", VString (lit "leave"))]))
    (Some sender_user) [] 1 [] None None [] None.

(** The state of a left room that changed since [since]. *)
Definition left_state_events (sender_user room_id : bytes) (since : Z) (lazy_load_enabled full_state : bool) : M Db (option (list Value)) :=
  since_shortstatehash ← get_token_shortstatehash room_id since;
  since_state_ids ← match since_shortstatehash with Some s => state_full_ids s | None => mret ∅ end;
  o ← room_state_get_id room_id (lit "m.room.member") sender_user;
  match o with
  | None => mret None
  | Some left_event_id =>
      o ← pdu_shortstatehash left_event_id;
      match o with
      | None => mret None
      | Some left_shortstatehash =>
          left_state_ids ← state_full_ids left_shortstatehash;
          leave_shortstatekey ← get_or_create_shortstatekey (lit "m.room.member") sender_user;
          events ← foldM (λ left_state_events '(key, id),
            if full_state || bool_decide (since_state_ids !! key ≠ Some id) then
              '(event_type, state_key) ← get_statekey_from_short key;
              if negb lazy_load_enabled || bool_decide (event_type ≠ lit "m.room.member") || full_state || bool_decide (sender_user = state_key) then
                o ← get_pdu id;
                match o with
                | Some pdu => event ← lift (to_sync_state_event pdu); mret (left_state_events ++ [event])
                | None => mret left_state_events
                end
              else mret left_state_events
            else mret left_state_events) [] (map_iter (<[leave_shortstatekey := left_event_id]> left_state_ids));
          mret (Some events)
      end
  end.

Definition sync_left (now : Z) (fresh_event_id : bytes → bytes) (sender_user : bytes) (since next_batch : Z) (lazy_load_enabled full_state : bool)
    : M Db (gmap bytes LeftRoom) :=
  all_left_rooms ← gets (λ d, Ok (rooms_left (StateEvents:=list Value) sender_user d));
  foldM (λ left_rooms result,
    '(room_id, _) ← lift result;
    left_count ← get_left_count room_id sender_user;
    if seen_before since left_count then mret left_rooms else
    known ← room_exists room_id;
    if negb known then
      (* This is just a rejected invite, not a room we know *)
      event ← lift (to_sync_state_event (rejected_event (fresh_event_id room_id) sender_user room_id now));
      mret (<[room_id := mkLeftRoom (to_string next_batch) [event]]> left_rooms)
    else
      o ← left_state_events sender_user room_id since lazy_load_enabled full_state;
      mret match o with
           | Some events => <[room_id := mkLeftRoom (to_string next_batch) events]> left_rooms
           | None => left_rooms
           end) ∅ all_left_rooms.

(** The invites, or the knocks, after [since]. *)
Definition sync_pending (rooms : Db → list (res (bytes * list Value))) (get_pending_count : bytes → bytes → M Db (option Z)) (sender_user : bytes) (since : Z)
    : M Db (gmap bytes (list Value)) :=
  all_rooms ← gets (λ d, Ok (rooms d));
  foldM (λ pending result,
    '(room_id, state_events) ← lift result;
    count ← get_pending_count room_id sender_user;
    mret (if seen_before since count then pending else <[room_id := state_events]> pending)) ∅ all_rooms.

Definition sync_invited (sender_user : bytes) : Z → M Db (gmap bytes (list Value)) := sync_pending (rooms_invited sender_user) get_invite_count sender_user.

Definition sync_knocked (sender_user : bytes) : Z → M Db (gmap bytes (list Value)) := sync_pending (rooms_knocked sender_user) get_knock_count sender_user.

(** The users that do not share an encrypted room with the sender any more. *)
Definition device_list_left (sender_user : bytes) (left_encrypted : gset bytes) : M Db (gset bytes) :=
  foldM (λ left user_id,
    rooms ← gets (get_shared_rooms [sender_user; user_id]);
    shares ← any_encrypted (oks rooms);
    mret (if (shares : bool) then left else {[user_id]} ∪ left)) ∅ (hash_iter left_encrypted).

(** ** The request *)

Definition since_of (since : option bytes) : Z := default 0 (since ≫= parse_u64).

Definition nothing_new (r : SyncResponse) : bool :=
  bool_decide (rs_leave r = ∅ ∧ dom (rs_join r) = ∅ ∧ rs_invite r = ∅ ∧ rs_knock r = ∅) && bool_decide (dom (rs_presence r) = ∅) &&
  bool_decide (rs_account_data r = ∅) && bool_decide (rs_changed r = ∅ ∧ rs_left r = ∅) && bool_decide (rs_to_device r = []).

(** How long to hang, in milliseconds: a few seconds so requests are not
    spammed. *)
Definition hang_for (timeout : option Z) : Z := let duration := default 0 timeout in if 30 <? duration / 1000 then 30000 else duration.

(** The response, whether it may be cached, and how long it is held back unless
    something new arrives. *)
Definition sync_helper (now : Z) (fresh_event_id : bytes → bytes) (sender_user sender_device : bytes) (body : SyncRequest Filter)
    : M SyncState (SyncResponse * bool * option Z) :=
  sdb (ping_presence now sender_user);;
  next_batch ← sdb current_count;
  filter ← match rq_filter body with
    | None => mret default_filter
    | Some (FilterDefinition filter) => mret filter
    | Some (FilterId filter_id) => o ← sdb (get_filter sender_user filter_id); mret (default default_filter o)
    end;
  let '(lazy_load_enabled, lazy_load_send_redundant) :=
    match lazy_load_options filter with Some redundant => (true, redundant) | None => (false, false) end in
  let full_state := rq_full_state body in
  let since := since_of (rq_since body) in
  (* Look for device list updates of this account *)
  updates ← sdb (gets (λ d, Ok (oks (keys_changed sender_user since None d))));
  changed_users (list_to_set updates);;
  '(joined_rooms, presence_updates) ← sync_joined now sender_user sender_device since next_batch lazy_load_enabled lazy_load_send_redundant full_state;
  left_rooms ← sdb (sync_left now fresh_event_id sender_user since next_batch lazy_load_enabled full_state);
  invited_rooms ← sdb (sync_invited sender_user since);
  knocked_rooms ← sdb (sync_knocked sender_user since);
  left_encrypted ← gets (λ s, Ok (left_encrypted_users s));
  left ← sdb (device_list_left sender_user left_encrypted);
  (* Remove all to-device events the device received last time *)
  sdb (remove_to_device_events sender_user sender_device since);;
  account_data ← sdb (global_changes_since sender_user since);
  changed ← gets (λ s, Ok (device_list_updates s));
  key_counts ← sdb (count_one_time_keys key_id_from_json algorithm_of sender_user sender_device);
  to_device ← sdb (get_to_device_events sender_user sender_device);
  let response := mkSyncResponse (to_string next_batch) left_rooms joined_rooms invited_rooms knocked_rooms presence_updates account_data changed left
    key_counts to_device in
  if negb full_state && nothing_new response then mret (response, false, Some (hang_for (rq_timeout body)))
  else mret (response, bool_decide (since ≠ next_batch), None).
End sync.

(** ** The responses kept per device *)

(** A running [sync_helper_wrapper]: its arguments, that is the user and the
    device, the [since] of the request and the sending end of a channel. *)
Record Task := mkTask {
  tk_device : bytes * bytes;
  tk_since : option bytes;
  tk_tx : nat;
}.

(** The receivers per device, the watch channels with the value last sent, and
    the tasks; a task that has ended is [None].  A task that panics closes its
    channel without a value, which the waiting request meets as a panic. *)
Record Receivers := mkReceivers {
  sync_receivers : gmap (bytes * bytes) (option bytes * nat);
  channels : list (option (res SyncResponse));
  tasks : list (option Task);
}.

Definition no_receivers : Receivers := mkReceivers ∅ [] [].

(** The first half of [sync_events_route]: the channel to wait on, and whether a
    task was started. *)
Definition begin_sync (device : bytes * bytes) (since : option bytes) (r : Receivers) : nat * bool * Receivers :=
  let rx := length (channels r) in
  let started := (rx, true, mkReceivers (<[device := (since, rx)]> (sync_receivers r)) (channels r ++ [None]) (tasks r ++ [Some (mkTask device since rx)])) in
  match sync_receivers r !! device with
  | None => started
  | Some (since', rx') => if bool_decide (since' ≠ since) then started else (rx', false, r)
  end.

(** A response that may not be cached is forgotten, unless the device started a
    different sync already. *)
Definition forgets (result : res (SyncResponse * bool)) (task : Task) (r : Receivers) : bool :=
  match result, sync_receivers r !! tk_device task with
  | Ok (_, caching_allowed), Some (since', _) => negb caching_allowed && bool_decide (since' = tk_since task)
  | _, _ => false
  end.

(** The end of [sync_helper_wrapper], for the task with the given number. *)
Definition finish_sync (t : nat) (result : res (SyncResponse * bool)) (r : Receivers) : Receivers :=
  match tasks r !! t with
  | Some (Some task) =>
      mkReceivers (if forgets result task r then delete (tk_device task) (sync_receivers r) else sync_receivers r)
        (<[tk_tx task := Some (fst <$> result)]> (channels r)) (<[t := None]> (tasks r))
  | _ => r
  end.

(** The second half of [sync_events_route]: what the request is answered, once
    the channel has a value. *)
Definition answer_sync (rx : nat) (r : Receivers) : option (res SyncResponse) := channels r !! rx ≫= id.
