(* ===== verification/SyncInv.v ===== *)
(** * SyncInv: what a client learns from its syncs

    Theorems about [Sync]: the timeline and the state of a joined room, the
    delivery of to-device messages, and the responses kept per device. *)
From S2P Require Import Prelude Bytes JsonValue KvTree Sending Pdu Database Short StateCompressor RoomState Accounts StateCache Timeline PduJson AccountData Devices UserKeys AuthChain Edus RoomTables StateAccess EventHandler Sync.

(** * The timeline *)

Section timeline.
Context {RU : Ruma} {LR : LruCache} {JP : Json PduEvent} {JM : Json Tree}.

(** Reference: the events of a room after a position, oldest first, as the user
    sees them. *)
Definition events_since (d : Db) (s : Z) (user : bytes) (since : PduCount) : list (PduCount * PduEvent) :=
  oks (timeline_entry user <$> room_entries d s (λ c, before PduCount_max c && after since c)).

(** The newest [limit] of a list, and whether there are more. *)
Definition newest {A} (limit : nat) (l : list A) : list A * bool := (drop (length l - limit) l, bool_decide (limit < length l)%nat).

Lemma oks_reverse {A} (l : list (res A)) : oks (reverse l) = reverse (oks l).
Proof.
  induction l as [|x l IH]; [done|]. rewrite reverse_cons. unfold oks in *. rewrite omap_app, IH. simpl.
  destruct x; simpl; [by rewrite reverse_cons|by rewrite app_nil_r..].
Qed.

Lemma timeline_entry_count user e c p : timeline_entry user e = Ok (c, p) → pdu_count e.1 = Ok c.
Proof.
  unfold timeline_entry. destruct (ok_or _ _) as [x| |]; [|done..]. cbn. destruct (if bool_decide _ then _ else _) as [y| |]; [|done..]. cbn.
  destruct (add_age y) as [z| |]; [|done..]. cbn. destruct (pdu_count e.1); [|done..]. cbn. by injection 1 as <- <-.
Qed.

(** The part of a room's timeline that satisfies a test on the position. *)
Lemma oks_entries_filter user E (p : PduCount → bool) :
  bfilter (λ e, p e.1) (oks (timeline_entry user <$> E)) =
  oks (timeline_entry user <$> bfilter (λ e : entry, match pdu_count e.1 with Ok c => p c | _ => false end) E).
Proof.
  induction E as [|e E IH]; [done|]. cbn [bfilter]. rewrite fmap_cons. unfold oks in *. simpl.
  destruct (timeline_entry user e) as [[c x]| |] eqn:Et; cbn [ok].
  - rewrite (timeline_entry_count _ _ _ _ Et). simpl. destruct (p c); simpl; [|done]. rewrite Et. simpl. f_equal. exact IH.
  - destruct (match pdu_count e.1 with Ok c => p c | _ => false end); simpl; rewrite ?Et; done.
  - destruct (match pdu_count e.1 with Ok c => p c | _ => false end); simpl; rewrite ?Et; done.
Qed.

(** The decoded timeline is in the order of its positions. *)
Lemma oks_entries_sorted user E :
  StronglySorted (λ e1 e2 : entry, ∃ c1 c2, pdu_count e1.1 = Ok c1 ∧ pdu_count e2.1 = Ok c2 ∧ PduCount_cmp c1 c2 = Lt) E →
  StronglySorted (λ a b, PduCount_cmp a.1 b.1 = Lt) (oks (timeline_entry user <$> E)).
Proof.
  induction 1 as [|e E HE IH He]; [constructor|]. rewrite fmap_cons. unfold oks in *. simpl.
  destruct (timeline_entry user e) as [[c x]| |] eqn:Et; cbn [ok]; [|done..]. constructor; [done|].
  apply Forall_forall. intros [c' x'] Hin. apply list_elem_of_omap in Hin as (r & Hr & Er). apply list_elem_of_fmap in Hr as (e' & -> & He').
  destruct (timeline_entry user e') as [[c2 x2]| |] eqn:Et'; [|done..]. injection Er as -> ->.
  rewrite Forall_forall in He. destruct (He e' He') as (a & b & Ha & Hb & Hab).
  rewrite (timeline_entry_count _ _ _ _ Et) in Ha. rewrite (timeline_entry_count _ _ _ _ Et') in Hb. by simplify_eq.
Qed.

Lemma after_trans since a b : PduCount_cmp b a = Lt → after since a = false → after since b = false.
Proof.
  unfold after. intros Hlt Ha. destruct (PduCount_cmp b since) eqn:Eb; [done..|].
  rewrite PduCount_cmp_opp in Eb. destruct (PduCount_cmp since b) eqn:E; try done.
  pose proof (PduCount_cmp_trans _ _ _ E Hlt) as H. rewrite PduCount_cmp_opp in Ha. by rewrite H in Ha.
Qed.

(** Backwards from the end while the position is after [since]: the events
    since. *)
Lemma take_while_since since (L : list (PduCount * PduEvent)) :
  StronglySorted (λ a b, PduCount_cmp a.1 b.1 = Lt) L →
  take_while (λ e, after since e.1) (reverse L) = reverse (bfilter (λ e, after since e.1) L).
Proof.
  intros HL. rewrite <-bfilter_reverse. apply take_while_bfilter. intros l1 x l2 E Hx y Hy.
  apply (f_equal reverse) in E. rewrite reverse_involutive, reverse_app, reverse_cons in E.
  eapply after_trans; [|exact Hx]. rewrite E, <-app_assoc in HL. simpl in HL.
  apply elem_of_reverse, list_elem_of_split in Hy as (a & b & Eb). rewrite Eb, <-app_assoc in HL.
  apply (StronglySorted_app_inv_lt (λ a b : PduCount * PduEvent, PduCount_cmp a.1 b.1 = Lt) a y _ x HL). apply elem_of_app. right. by left.
Qed.

Lemma newest_rev {A} limit (l : list A) : (rev (take limit (reverse l)), bool_decide (drop limit (reverse l) ≠ [])) = newest limit l.
Proof.
  unfold newest. f_equal.
  - rewrite rev_alt. change (rev_append (take limit (reverse l)) []) with (reverse (take limit (reverse l))).
    rewrite take_reverse, reverse_involutive. done.
  - apply bool_decide_ext. rewrite <-length_zero_iff_nil, length_drop, length_reverse. lia.
Qed.

(** The known last position of a room is not behind its timeline. *)
Definition last_count_ok (d : Db) (room : bytes) (s : Z) : Prop :=
  ∀ c k v c', lasttimelinecount_cache d !! room = Some c → kv d pduid_pdu !! k = Some v → starts_with (to_be_bytes s) k = true →
    pdu_count k = Ok c' → PduCount_cmp c' c ≠ Gt.

Lemma events_since_none d s room user since c :
  lasttimelinecount_cache d !! room = Some c → last_count_ok d room s → after since c = false → events_since d s user since = [].
Proof.
  intros Hc Hok Ha. unfold events_since. replace (room_entries d s _) with (@nil entry); [done|]. symmetry. apply bfilter_false.
  intros [k v] Hk%elem_of_entries. cbn [fst]. destruct (starts_with _ k) eqn:Es; [|done]. destruct (pdu_count k) as [c'| |] eqn:Ec; [|done..].
  apply andb_false_iff. right. apply andb_false_iff. right. specialize (Hok c k v c' Hc Hk Es Ec).
  destruct (PduCount_cmp c' c) eqn:E; [apply PduCount_cmp_eq in E; by subst|by eapply after_trans|done].
Qed.

(** The events of the backwards scan that are after [since]. *)
Lemma scan_since d s user since :
  TimelineInv d → is_u64 s → s ≠ 0 →
  take_while (λ e, after since e.1) (oks (timeline_entry user <$> reverse (room_entries d s (before PduCount_max)))) = reverse (events_since d s user since).
Proof.
  intros HI Hs Hne. rewrite fmap_reverse, oks_reverse, take_while_since by (by apply oks_entries_sorted, room_entries_sorted).
  f_equal. rewrite oks_entries_filter. unfold events_since. do 2 f_equal. unfold room_entries. rewrite bfilter_bfilter.
  apply bfilter_ext. intros [k v] _. cbn [fst]. destruct (starts_with _ k); [|done]. by destruct (pdu_count k).
Qed.

Lemma load_timeline_spec d user room s since limit :
  TimelineInv d → get_shortroomid room d = (Ok (Some s), d) → is_u64 s → s ≠ 0 → last_count_ok d room s →
  (load_timeline user room since limit d).1 = Ok (newest limit (events_since d s user since)).
Proof.
  intros HI Hroom Hs Hne Hok.
  assert (∀ d', kv d' = kv d → pdus_until user room PduCount_max d' =
    (Ok (timeline_entry user <$> reverse (room_entries d s (before PduCount_max))), d')) as Hp.
  { intros d' E. unfold room_entries. rewrite <-E. apply pdus_until_spec; [by intros k v; rewrite E; apply HI| |done|done|done].
    unfold get_shortroomid, get in *. revert Hroom. run. rewrite E. by intros [= -> ]. }
  assert (∀ d', kv d' = kv d → (pdus_until user room PduCount_max ≫= λ it, mret (rev (take limit (take_while (λ e, after since e.1) (oks it))),
      bool_decide (drop limit (take_while (λ e, after since e.1) (oks it)) ≠ []))) d' = (Ok (newest limit (events_since d s user since)), d')) as Hrun.
  { intros d' E. rewrite (bind_ok _ _ _ _ _ (Hp d' E)), scan_since, newest_rev by done. done. }
  pose proof (scan_since d s user since HI Hs Hne) as Hscan.
  assert (events_since d s user since = [] → (Ok (newest limit (events_since d s user since)) : res (list (PduCount * PduEvent) * bool)) = Ok ([], false)) as Hnone.
  { intros ->. unfold newest. rewrite drop_nil. by rewrite bool_decide_eq_false_2 by (simpl; lia). }
  unfold load_timeline, last_timeline_count. rewrite bind_assoc, bind_gets.
  destruct (lasttimelinecount_cache d !! room) as [c|] eqn:Ec.
  - rewrite (bind_ok _ _ _ c d) by done. destruct (after since c) eqn:Ea; [by rewrite Hrun|].
    rewrite Hnone; [done|]. by apply (events_since_none d s room user since c).
  - rewrite bind_assoc, (bind_ok _ _ _ _ _ (Hp d eq_refl)).
    destruct (oks (timeline_entry user <$> reverse _)) as [|[c x] l] eqn:El; cbn [head] in *.
    + rewrite (bind_ok _ _ _ (Normal 0) d) by done. destruct (after since (Normal 0)); [by rewrite Hrun|].
      rewrite Hnone; [done|]. apply (f_equal reverse) in Hscan. by rewrite reverse_involutive in Hscan.
    + rewrite bind_assoc, bind_modify, (bind_ok _ _ _ c _) by done. destruct (after since c) eqn:Ea; [by rewrite Hrun|].
      rewrite Hnone; [done|]. cbn [take_while fst] in Hscan. rewrite Ea in Hscan. apply (f_equal reverse) in Hscan. by rewrite reverse_involutive in Hscan.
Qed.

End timeline.

(** * The state *)

(** A step whose outcome the rest may rely on. *)
Lemma preserves_bind_run {S A B} (I : S → Prop) (m : M S A) (f : A → M S B) :
  preserves I m → (∀ a s s', m s = (Ok a, s') → preserves I (f a)) → preserves I (m ≫= f).
Proof.
  intros Hm Hf s Hs. specialize (Hm s Hs). unfold mbind, M_bind. destruct (m s) as [[a| |] s'] eqn:E; cbn [snd] in *; [|done..].
  by apply (Hf a s s' E).
Qed.

Lemma sdb_run {A} (m : M Db A) s a s' : sdb m s = (Ok a, s') → m (sy_db s) = (Ok a, sy_db s').
Proof. unfold sdb. destruct (m (sy_db s)) as [r d]. by injection 1 as -> <-. Qed.

Section state.
Context {RU : Ruma} {LR : LruCache} {HO : HashOrder} {MO : MapOrder} {JP : Json PduEvent} (sha256 : bytes → bytes) (n : Z).

(** The event of a state entry can be read, and a member event is a state event. *)
Definition readable (d : Db) (id : bytes) : Prop :=
  ∃ o, stored d id = Ok o ∧ ∀ p, o = Some p → pdu_kind p = lit "m.room.member" → is_Some (pdu_state_key p).

(** The known events of a state. *)
Definition state_view (d : Db) (ids : gmap Z bytes) : gmap Z PduEvent := omap (λ id, match stored d id with Ok o => o | _ => None end) ids.

Lemma full_ids_kv h : keeps_kv (state_full_ids h).
Proof. unfold state_full_ids, load_full_state, parse_compressed_state_event. keeps; first [apply keeps_load_shortstatehash_info|apply keeps_get_eventid_from_short]. Qed.

Lemma full_ids_cache h : keeps_field pdu_cache (state_full_ids h).
Proof.
  unfold state_full_ids. apply keeps_bind; [apply keeps_load_full_state|]. unfold parse_compressed_state_event, get_eventid_from_short. keeps.
Qed.

Lemma full_ids_run h d ids d' : state_full_ids h d = (Ok ids, d') → PduCacheInv d → kv d' = kv d ∧ PduCacheInv d'.
Proof.
  intros H Hc. pose proof (full_ids_kv h d) as Hk. pose proof (full_ids_cache h d) as Hp. rewrite H in Hk, Hp.
  split; [done|]. by eapply PduCacheInv_kv.
Qed.

(** One entry of the state. *)
Definition sent (d : Db) (S : gmap Z bytes) (l : list (Z * bytes)) (p : PduEvent) : Prop :=
  ∃ k id, (k, id) ∈ l ∧ S !! k ≠ Some id ∧ stored d id = Ok (Some p).

Lemma sent_snoc d S l k id p : sent d S (l ++ [(k, id)]) p ↔ sent d S l p ∨ (S !! k ≠ Some id ∧ stored d id = Ok (Some p)).
Proof. unfold sent. setoid_rewrite elem_of_app. setoid_rewrite list_elem_of_singleton. naive_solver. Qed.

(** The changed entries: exactly the events whose entry differs, with the users
    of the member events among them. *)
Lemma changed_state_spec d since current S C d1 d2 :
  since ≠ current → state_full_ids current d = (Ok C, d1) → state_full_ids since d1 = (Ok S, d2) →
  View sha256 d2 n → kv d2 = kv d → (∀ k id, C !! k = Some id → readable d id) →
  ∃ evs loaded d', changed_state false since current d = (Ok (evs, loaded), d') ∧ View sha256 d' n ∧ kv d' = kv d ∧
    (∀ p, p ∈ evs ↔ ∃ k id, C !! k = Some id ∧ S !! k ≠ Some id ∧ stored d id = Ok (Some p)) ∧
    (∀ u, u ∈ loaded → ∃ p, p ∈ evs ∧ pdu_kind p = lit "m.room.member" ∧ pdu_state_key p = Some u).
Proof.
  intros Hne HC HS HV Hkv Hread. unfold changed_state. rewrite bool_decide_eq_true_2 by done.
  rewrite (bind_ok _ _ _ _ _ HC), (bind_ok _ _ _ _ _ HS).
  match goal with |- context [foldM ?f ?b ?l ?s] => destruct (foldM_inv (λ l' (b' : list PduEvent * gset bytes) s',
    kv s' = kv d ∧ View sha256 s' n ∧ (∀ p, p ∈ b'.1 ↔ sent d S l' p) ∧
    ∀ u, u ∈ b'.2 → ∃ p, p ∈ b'.1 ∧ pdu_kind p = lit "m.room.member" ∧ pdu_state_key p = Some u) f b l s) as ([evs loaded] & d' & Hrun & Hk' & HV' & Hevs & Hld) end.
  - split_and!; [done|done| |set_solver]. intros p. split; [by intros ?%elem_of_nil|intros (k & id & H & _); by apply elem_of_nil in H].
  - intros l1 [k id] l2 [evs loaded] s E (Hks & HVs & Hevs & Hld).
    assert (C !! k = Some id) as HCk.
    { apply elem_of_map_to_list. rewrite <-map_iter_perm, E. apply elem_of_app. right. by left. }
    cbn [orb]. case_bool_decide as Hdiff.
    2: { exists (evs, loaded), s. split_and!; [done..| |done]. intros p. rewrite sent_snoc, Hevs. tauto. }
    destruct (get_pdu_view sha256 s n id HVs) as (s1 & Hg & HV1 & Hk1). rewrite (stored_kv d s id Hks) in Hg.
    destruct (Hread k id HCk) as (o & Ho & Hkey). rewrite Ho in Hg. rewrite (bind_ok _ _ _ _ _ Hg). destruct o as [p|].
    + assert (∃ loaded', (if bool_decide (pdu_kind p = lit "m.room.member") then state_key ← lift (expect (pdu_state_key p)); mret (parsed_user state_key)
        else mret ∅) s1 = (Ok loaded', s1) ∧ ∀ u, u ∈ loaded' → pdu_kind p = lit "m.room.member" ∧ pdu_state_key p = Some u) as (loaded' & Hl & Hu).
      { case_bool_decide as Hm; [|by exists ∅]. destruct (Hkey p eq_refl Hm) as [x Hx]. rewrite Hx. exists (parsed_user x). split; [done|].
        unfold parsed_user. intros u Hu. destruct (user_id_ok x); [|by apply elem_of_empty in Hu]. apply elem_of_singleton in Hu as ->. done. }
      rewrite (bind_ok _ _ _ _ _ Hl). eexists (evs ++ [p], _), _. split_and!; [done|congruence|done| |].
      * intros q. cbn [fst]. rewrite sent_snoc, elem_of_app, list_elem_of_singleton, Hevs, Ho. naive_solver.
      * cbn [fst snd]. intros u [Hu'|Hu']%elem_of_union.
        -- exists p. destruct (Hu u Hu'). split_and!; [|done..]. apply elem_of_app. right. by left.
        -- destruct (Hld u Hu') as (q & Hq & ?). exists q. split_and!; [|naive_solver..]. apply elem_of_app. by left.
    + eexists (evs, loaded), _. split_and!; [done|congruence|done| |done]. intros q. rewrite sent_snoc, Hevs, Ho. naive_solver.
  - exists evs, loaded, d'. split_and!; try done. intros p. rewrite Hevs. unfold sent. setoid_rewrite map_iter_perm. by setoid_rewrite elem_of_map_to_list.
Qed.

(** Reading a state keeps the lookups working. *)
Lemma full_ids_view d h st ids d' :
  View sha256 d n → state_of d h st → state_full_ids h d = (Ok ids, d') → View sha256 d' n ∧ kv d' = kv d.
Proof.
  intros [HI HP] Hst H. destruct (full_ids_run _ _ _ _ H HP) as [Hkv HP']. split; [split; [|done]|done].
  unfold state_full_ids in H. destruct (load_full_state_spec sha256 d n h st HI Hst) as (d1 & E1 & HI1 & _). rewrite (bind_ok _ _ _ _ _ E1) in H.
  assert (Forall compressed (hash_iter st)) as Hall by (destruct Hst as (ls & top & Hs & Ht & <-); by eapply hash_iter_Forall, Stack_good).
  match type of H with foldM ?f ?b ?l _ = _ => assert (preserves (λ s, CompInv sha256 s n) (foldM f b l)) as Hf;
    [|specialize (Hf d1 HI1); rewrite H in Hf; exact Hf] end.
  apply preserves_foldM. intros x Hx b. rewrite Forall_forall in Hall. destruct (Hall x Hx) as (_ & _ & Hb).
  apply preserves_bind; [|intros []; apply preserves_ret]. unfold parse_compressed_state_event. apply preserves_bind; [apply preserves_lift|]. intros sk.
  apply preserves_bind_run; [apply preserves_lift|]. intros se s s' [= Hse _]. apply preserves_bind; [|intros; apply preserves_ret].
  intros d2 HI2. destruct (u64_from_bytes (drop 8 x)) as [se'|] eqn:Eu; [|done]. injection Hse as ->. apply u64_from_bytes_u64 in Eu; [|by apply Forall_drop].
  destruct (get_eventid_from_short_spec d2 n se (ci_short _ _ (proj1 HI2)) Eu) as (r & d3 & E & Hk & Hstep & _). rewrite E. cbn [snd].
  eapply CompInv_step; [done..|by rewrite Hk].
Qed.

Context (user device room : bytes) (redundant : bool) (member : bytes → option PduEvent).

(** The device was sent the member event of a user before. *)
Definition lazily_sent (d : Db) (u : bytes) : Prop := is_Some (kv d lazyloadedids !! (lazy_prefix user device room ++ u)).

(** The senders of the timeline: their member events, where the device does not
    have them. *)
Lemma timeline_members_spec d st current timeline evs loaded :
  View sha256 d n → get_room_shortstatehash room d = (Ok (Some current), d) → state_of d current st → keyed st →
  (∀ e, e ∈ timeline → state_event d st (lit "m.room.member") (pdu_sender e.2) (member (pdu_sender e.2))) →
  ∃ extra loaded' d', timeline_members user device room redundant timeline (evs, loaded) d = (Ok (evs ++ extra, loaded'), d') ∧
    (∀ p, p ∈ extra → ∃ e, e ∈ timeline ∧ member (pdu_sender e.2) = Some p ∧ pdu_sender e.2 ∉ loaded ∧ (redundant = true ∨ ¬ lazily_sent d (pdu_sender e.2))) ∧
    (∀ e p, e ∈ timeline → member (pdu_sender e.2) = Some p →
      p ∈ extra ∨ pdu_sender e.2 ∈ loaded ∨ lazily_sent d (pdu_sender e.2) ∧ redundant = false).
Proof.
  intros HV Hroom Hst Hkey Hm. unfold timeline_members.
  match goal with |- context [foldM ?f ?b ?l ?s] => destruct (foldM_inv (λ l' (b' : list PduEvent * gset bytes) s',
    kv s' = kv d ∧ View sha256 s' n ∧ ∃ extra, b'.1 = evs ++ extra ∧ loaded ⊆ b'.2 ∧
    (∀ u, u ∈ b'.2 → u ∉ loaded → ∃ p, member u = Some p ∧ p ∈ extra) ∧
    (∀ p, p ∈ extra → ∃ e, e ∈ timeline ∧ member (pdu_sender e.2) = Some p ∧ pdu_sender e.2 ∉ loaded ∧ (redundant = true ∨ ¬ lazily_sent d (pdu_sender e.2))) ∧
    (∀ e p, e ∈ l' → member (pdu_sender e.2) = Some p →
      p ∈ extra ∨ pdu_sender e.2 ∈ loaded ∨ lazily_sent d (pdu_sender e.2) ∧ redundant = false)) f b l s)
    as ([evs' loaded'] & d' & Hrun & _ & _ & extra & Eevs & _ & _ & H1 & H2) end.
  - split_and!; [done..|]. exists []. rewrite app_nil_r. split_and!; [done|done| | |].
    + intros u Hu Hn. done.
    + by intros p ?%elem_of_nil.
    + by intros e p ?%elem_of_nil.
  - intros l1 [c ev] l2 [evs' loaded'] s E (Hks & HVs & extra & Eevs & Hsub & Hin & Hex & Hall). cbn [fst snd] in *. subst evs'.
    assert ((c, ev) ∈ timeline) as Hev by (rewrite E; apply elem_of_app; right; by left).
    assert (∀ e p, e ∈ l1 ++ [(c, ev)] → (e = (c, ev) → p ∈ extra ∨ pdu_sender ev ∈ loaded ∨ lazily_sent d (pdu_sender ev) ∧ redundant = false) →
      member (pdu_sender e.2) = Some p → p ∈ extra ∨ pdu_sender e.2 ∈ loaded ∨ lazily_sent d (pdu_sender e.2) ∧ redundant = false) as Hsnoc.
    { intros e p [He|He]%elem_of_app Hlast Hp; [by apply Hall|]. apply list_elem_of_singleton in He as ->. by apply Hlast. }
    case_bool_decide as Hl.
    { exists (evs ++ extra, loaded'), s. split_and!; [done..|]. exists extra. split_and!; try done. intros e p He Hp. apply Hsnoc; [done| |done].
      intros ->. cbn [snd] in Hp. destruct (decide (pdu_sender ev ∈ loaded)) as [|Hn]; [by right; left|]. left. destruct (Hin _ Hl Hn) as (q & Hq & ?). congruence. }
    assert (lazy_load_was_sent_before user device room (pdu_sender ev) s = (Ok (bool_decide (lazily_sent d (pdu_sender ev))), s)) as Hlazy.
    { unfold lazy_load_was_sent_before, lazily_sent, get, kv_get. run. by rewrite Hks. }
    rewrite (bind_ok _ _ _ _ _ Hlazy). destruct (negb (bool_decide (lazily_sent d (pdu_sender ev))) || redundant) eqn:Es.
    2: { apply orb_false_iff in Es as [Es ->]. apply negb_false_iff, bool_decide_eq_true in Es.
         exists (evs ++ extra, loaded'), s. split_and!; [done..|]. exists extra. split_and!; try done. intros e p He Hp. apply Hsnoc; [done| |done]. intros ->. by right; right. }
    assert (state_event s st (lit "m.room.member") (pdu_sender ev) (member (pdu_sender ev))) as Hse by (eapply state_event_kv; [exact Hks|by apply (Hm (c, ev))]).
    assert (state_of s current st) as Hst' by (eapply state_of_mono; [|exact Hst]; by rewrite Hks).
    destruct (state_get_view sha256 s n current st _ _ _ HVs Hst' Hkey Hse) as (s1 & Hg & HV1 & Hk1).
    assert (room_state_get room (lit "m.room.member") (pdu_sender ev) s = (Ok (member (pdu_sender ev)), s1)) as Hr.
    { unfold room_state_get. rewrite (bind_ok _ _ _ (Some current) s); [done|]. revert Hroom. unfold get_room_shortstatehash, get, kv_get. run. rewrite Hks. by intros [= ->]. }
    rewrite (bind_ok _ _ _ _ _ Hr). destruct (member (pdu_sender ev)) as [p|] eqn:Em.
    + eexists (evs ++ (extra ++ [p]), _), s1. rewrite <-app_assoc. split_and!; [done|congruence|done|]. exists (extra ++ [p]). split_and!; [by rewrite app_assoc|set_solver| | |].
      * cbn [snd]. intros u [->%elem_of_singleton|Hu]%elem_of_union Hn; [exists p; split; [done|set_solver]|]. destruct (Hin u Hu Hn) as (q & ? & ?). exists q. set_solver.
      * intros q [Hq|Hq]%elem_of_app; [by apply Hex|]. apply list_elem_of_singleton in Hq as ->. exists (c, ev). split_and!; [done..|set_solver|].
        apply orb_true_iff in Es as [Es%negb_true_iff%bool_decide_eq_false|Es]; [by right|by left].
      * intros e q [He|He]%elem_of_app Hq; [destruct (Hall e q He Hq) as [|]; [left; set_solver|by right]|]. apply list_elem_of_singleton in He as ->.
        cbn [snd] in Hq. rewrite Em in Hq. injection Hq as <-. left. set_solver.
    + exists (evs ++ extra, loaded'), s1. split_and!; [done|congruence|done|]. exists extra. split_and!; try done. intros e q He Hq. apply Hsnoc; [done| |done].
      intros ->. cbn [snd] in Hq. congruence.
  - cbn in Eevs. subst evs'. exists extra, loaded', d'. by split_and!.
Qed.

End state.

(** * To-device messages *)

(** The stored to-device messages. *)
Definition mail (d : Db) : Tree := kv d todeviceid_events.

Lemma kv_mail {A} (m : M Db A) : keeps_kv m → keeps_field mail m.
Proof. intros H d. unfold mail. by rewrite H. Qed.

#[local] Hint Extern 1 (keeps_field mail (remove_prefix _ _)) => (apply keeps_modify; intros; reflexivity) : keeps.

(** [keeps] through the body of a loop over pairs. *)
Ltac keeps_loop := repeat (keeps; match goal with |- keeps_field _ ((match ?x with _ => _ end) _) => destruct x | _ => idtac end; cbv beta iota).

Section mail.
Context {RU : Ruma} {LR : LruCache} {HO : HashOrder} {MO : MapOrder} {CT : Contents} {ST : SyncTypes}.
Context {JP : Json PduEvent} {JV : Json Value} {JL : Json (list Value)} {JM : Json Tree} {JR : Json RedactionContent} {JE : Json PresenceEvent}.

Lemma mail_get_id h t k : keeps_field mail (state_get_id h t k).
Proof.
  apply kv_mail. unfold state_get_id, load_full_state, parse_compressed_state_event. keeps;
    first [apply keeps_get_shortstatekey|apply keeps_load_shortstatehash_info|apply keeps_get_eventid_from_short].
Qed.

Lemma mail_get_pdu id : keeps_field mail (get_pdu id).
Proof. apply kv_mail, keeps_get_pdu. Qed.
#[local] Hint Resolve mail_get_id mail_get_pdu : keeps.

Lemma mail_state_get h t k : keeps_field mail (state_get h t k).
Proof. unfold state_get. keeps. Qed.

Lemma mail_room_state_get room t k : keeps_field mail (room_state_get room t k).
Proof. apply kv_mail, keeps_room_state_get. Qed.

Lemma mail_full_ids h : keeps_field mail (state_full_ids h).
Proof. apply kv_mail, full_ids_kv. Qed.

Lemma mail_next_count : keeps_field mail next_count.
Proof. unfold next_count. keeps. Qed.

Lemma mail_shortroomid room : keeps_field mail (get_shortroomid room).
Proof. unfold get_shortroomid. keeps. Qed.

Lemma mail_from_short k : keeps_field mail (get_statekey_from_short k).
Proof. unfold get_statekey_from_short. keeps. Qed.
#[local] Hint Resolve mail_state_get mail_room_state_get mail_full_ids mail_next_count mail_shortroomid mail_from_short : keeps.

Lemma mail_pdus_until u r c : keeps_field mail (pdus_until u r c).
Proof. unfold pdus_until, count_to_id. keeps. Qed.

Lemma mail_pdus_after u r c : keeps_field mail (pdus_after u r c).
Proof. unfold pdus_after, count_to_id. keeps. Qed.
#[local] Hint Resolve mail_pdus_until mail_pdus_after : keeps.

Lemma mail_load_timeline u r c n : keeps_field mail (load_timeline u r c n).
Proof. unfold load_timeline, last_timeline_count. keeps. Qed.

Lemma mail_any_encrypted rooms : keeps_field mail (any_encrypted rooms).
Proof. induction rooms; cbn [any_encrypted]; keeps. Qed.
#[local] Hint Resolve mail_load_timeline mail_any_encrypted : keeps.

Lemma mail_share u v r : keeps_field mail (share_encrypted_room u v r).
Proof. unfold share_encrypted_room. keeps. Qed.

Lemma mail_counts u r : keeps_field mail (calculate_counts u r).
Proof. unfold calculate_counts, room_joined_count, room_invited_count, get_count, all_pdus, hero_of, is_joined, is_invited, has_userroom. keeps. Qed.

Lemma mail_initial u l f t c : keeps_field mail (initial_state u l f t c).
Proof. unfold initial_state. keeps_loop. Qed.

Lemma mail_changed f a b : keeps_field mail (changed_state f a b).
Proof. unfold changed_state. keeps_loop. Qed.

Lemma mail_members u dv r l t acc : keeps_field mail (timeline_members u dv r l t acc).
Proof. unfold timeline_members, lazy_load_was_sent_before. keeps_loop. Qed.

Lemma mail_left u r s l f : keeps_field mail (left_state_events u r s l f).
Proof. unfold left_state_events, get_token_shortstatehash, room_state_get_id, get_room_shortstatehash, pdu_shortstatehash, get_or_create_shortstatekey. keeps_loop. Qed.
#[local] Hint Resolve mail_share mail_counts mail_initial mail_changed mail_members mail_left : keeps.

(** *** The whole request *)

Definition mail_is (T : Tree) (s : SyncState) : Prop := mail (sy_db s) = T.

Lemma mail_sdb {A} T (m : M Db A) : keeps_field mail m → preserves (mail_is T) (sdb m).
Proof. intros H s Hs. unfold sdb. specialize (H (sy_db s)). destruct (m (sy_db s)). exact (eq_trans H Hs). Qed.

Lemma mail_changed_users T us : preserves (mail_is T) (changed_users us).
Proof. by intros s Hs. Qed.

Lemma mail_left_users T us : preserves (mail_is T) (left_users us).
Proof. by intros s Hs. Qed.

Lemma mail_mark_sent T u dv r l c : preserves (mail_is T) (lazy_loaded_sent u dv r l c).
Proof. by intros s Hs. Qed.

Lemma mail_confirm T u dv r c : preserves (mail_is T) (slazy (lazy_load_confirm_delivery u dv r c)).
Proof.
  intros s Hs. unfold slazy, lazy_load_confirm_delivery. cbv zeta. match goal with |- context [match ?o with Some _ => _ | None => _ end] => destruct o as [us|] end; [|done].
  assert (keeps_field mail (db_lazy_load_confirm_delivery u dv r (hash_iter us))) as H by (unfold db_lazy_load_confirm_delivery; keeps).
  specialize (H (sy_db s)). destruct (db_lazy_load_confirm_delivery _ _ _ _ _). exact (eq_trans H Hs).
Qed.

Lemma mail_typing T now r : preserves (mail_is T) (styping (last_typing_update now r)).
Proof.
  intros s Hs. unfold styping, last_typing_update, typings_maintain. run. destruct (Edus.typing (sy_typing s) !! r) as [room|]; [|done].
  case_bool_decide; [done|]. unfold set_typing. pose proof (mail_next_count (typing_db (sy_typing s))) as Hn.
  destruct (next_count _) as [[]]; exact (eq_trans Hn Hs).
Qed.

Lemma mail_styping_gets {A} T (g : TypingState → res A) : preserves (mail_is T) (styping (gets g)).
Proof. by intros s Hs. Qed.
#[local] Hint Resolve mail_changed_users mail_left_users mail_mark_sent mail_confirm mail_typing mail_styping_gets preserves_ret preserves_lift preserves_gets preserves_fail : mail.

(** Follow the structure of a request. *)
Ltac follow := repeat first
  [ progress (intros; cbv beta zeta iota)
  | solve [auto with mail]
  | apply preserves_bind
  | apply preserves_try_ok
  | apply preserves_foldM; intros
  | apply preserves_for_each
  | apply mail_sdb; solve [keeps_loop]
  | match goal with |- preserves _ (match ?x with _ => _ end) => destruct x end
  | match goal with |- preserves _ ((match ?x with _ => _ end) _) => destruct x end ].

Lemma mail_room_changes T u dv r n l rd f t a b : preserves (mail_is T) (room_changes u dv r n l rd f t a b).
Proof.
  unfold room_changes, initial_changes, incremental_changes, member_device_lists, new_room_device_lists, since_sender_member, lazy_load_reset. follow.
Qed.
#[local] Hint Resolve mail_room_changes : mail.

Lemma mail_load_joined T remove_key now u dv r s n l rd f : preserves (mail_is T) (load_joined_room remove_key now u dv r s n l rd f).
Proof.
  unfold load_joined_room, room_edus, last_notification_read, get_room_shortstatehash, get_token_shortstatehash, unread_counts, notification_count, highlight_count,
    associate_token_shortstatehash, room_changes_since, changes_since. follow.
Qed.
#[local] Hint Resolve mail_load_joined : mail.

Lemma mail_sync_joined T remove_key uint_sub now u dv s n l rd f : preserves (mail_is T) (sync_joined remove_key uint_sub now u dv s n l rd f).
Proof. unfold sync_joined, presence_since. follow. Qed.

Lemma mail_sync_left now fresh u s n l f : keeps_field mail (sync_left now fresh u s n l f).
Proof. unfold sync_left, get_left_count, get_count, room_exists. keeps_loop. Qed.
#[local] Hint Resolve mail_sync_joined : mail.
#[local] Hint Resolve mail_sync_left : keeps.

Lemma preserves_run {S A} (I : S → Prop) (m : M S A) s r s' : preserves I m → I s → m s = (r, s') → I s'.
Proof. intros Hm Hs E. specialize (Hm s Hs). by rewrite E in Hm. Qed.

Lemma collect_elem {A} (l : list (res A)) xs x : collect l = Ok xs → x ∈ l → ∃ a, x = Ok a ∧ a ∈ xs.
Proof.
  revert xs. induction l as [|y l IH]; intros xs H Hx; [by apply elem_of_nil in Hx|]. cbn [collect] in H.
  destruct y as [a| |]; [|done..]. cbn in H. destruct (collect l) as [ys| |] eqn:E; [|done..]. injection H as <-.
  apply elem_of_cons in Hx as [->|Hx]; [exists a; split; [done|by left]|]. destruct (IH ys eq_refl Hx) as (b & -> & ?). exists b. split; [done|by right].
Qed.

Lemma parse_digits_u64 acc bs n : is_u64 acc → parse_digits acc bs = Some n → is_u64 n.
Proof.
  revert acc. induction bs as [|b bs IH]; intros acc Ha; cbn [parse_digits]; [by intros [= <-]|].
  destruct (is_digit b) eqn:Eb; [|done]. destruct (Z.leb_spec (acc * 10 + (b - 48)) u64_max); [|done]. apply IH.
  unfold is_digit in Eb. apply andb_true_iff in Eb as [E1 E2]. apply Z.leb_le in E1, E2. unfold is_u64 in *. lia.
Qed.

Lemma since_of_u64 since : is_u64 (since_of since).
Proof.
  unfold since_of. destruct since as [bs|]; [|by split]. simpl. destruct (parse_u64 bs) as [n|] eqn:E; [|by split]. simpl.
  unfold parse_u64 in E. repeat case_match; try done; by eapply parse_digits_u64; [by split|exact E].
Qed.

(** Pass a step of a request that leaves the mail alone. *)
Ltac skip_step H HT :=
  let x := fresh "x" in let s1 := fresh "s" in let H1 := fresh "Hstep" in let HT' := fresh "HT" in
  apply bind_inv in H as (x & s1 & H1 & H);
  match type of H1 with ?m _ = _ => match type of HT with mail_is ?T _ =>
    cut (preserves (mail_is T) m); [intros HT'; apply (preserves_run _ _ _ _ _ HT' HT) in H1; clear HT HT'; rename H1 into HT|clear H1 HT H]
  end end; cycle 1.

(** What a request does to the mail. *)
Lemma sync_mail remove_key uint_sub kij alg now fresh u dv body s rs cached hang s' :
  ToDeviceInv (sy_db s) → no_ff u → no_ff dv →
  sync_helper remove_key uint_sub kij alg now fresh u dv body s = (Ok (rs, cached, hang), s') →
  ∃ d0 d1, mail d0 = mail (sy_db s) ∧ remove_to_device_events u dv (since_of (rq_since body)) d0 = (Ok tt, d1) ∧
    mail (sy_db s') = mail d1 ∧ ∃ d2, mail d2 = mail d1 ∧ get_to_device_events u dv d2 = (Ok (rs_to_device rs), d2).
Proof.
  intros HI Hu Hdv H. unfold sync_helper in H. set (T := mail (sy_db s)). assert (mail_is T s) as HT by done.
  skip_step H HT; [unfold ping_presence; follow|]. skip_step H HT; [unfold current_count; follow|]. skip_step H HT; [unfold get_filter; follow|].
  destruct (match lazy_load_options _ with Some _ => _ | None => _ end) as [lazy redundant]. cbv zeta in H.
  skip_step H HT; [follow|]. skip_step H HT; [follow|]. skip_step H HT; [follow|]. destruct x4 as [joined_rooms presences].
  skip_step H HT; [follow|]. skip_step H HT; [unfold sync_invited, sync_pending, get_invite_count, get_count; follow|].
  skip_step H HT; [unfold sync_knocked, sync_pending, get_knock_count, get_count; follow|]. skip_step H HT; [follow|].
  skip_step H HT; [unfold device_list_left; follow|].
  apply bind_inv in H as ([] & sr & Hrm & H). apply sdb_run in Hrm. eexists _, _. split; [exact HT|]. split; [exact Hrm|].
  assert (mail_is (mail (sy_db sr)) sr) as HT1 by done. clear HT Hrm. unfold T. clear T.
  skip_step H HT1; [unfold global_changes_since, changes_since; follow|]. skip_step H HT1; [follow|]. skip_step H HT1; [unfold count_one_time_keys; follow|].
  apply bind_inv in H as (mails & sg & Hget & H). apply sdb_run in Hget.
  assert (mails = rs_to_device rs ∧ s' = sg) as [-> ->] by (revert H; destruct (_ && _); by injection 1 as <- _ _ <-).
  unfold get_to_device_events, gets in *. injection Hget as Hget Hsg. split; [by rewrite <-Hsg|].
  eexists. split; [exact HT1|]. by rewrite Hget.
Qed.

(** C28: to-device messages are delivered at least once: a message newer than
    the [since] of the request is in the response and stays stored; the ones up
    to [since], which the device has confirmed, are dropped; and no other
    device's messages are touched. *)
Theorem to_device_at_least_once remove_key uint_sub kij alg now fresh u dv body s rs cached hang s' :
  ToDeviceInv (sy_db s) → no_ff u → no_ff dv →
  sync_helper remove_key uint_sub kij alg now fresh u dv body s = (Ok (rs, cached, hang), s') →
  (∀ c v, is_u64 c → since_of (rq_since body) < c → mail (sy_db s) !! todevice_id u dv c = Some v →
     mail (sy_db s') !! todevice_id u dv c = Some v ∧ ∃ event, from_slice v = Some event ∧ event ∈ rs_to_device rs) ∧
  (∀ c, is_u64 c → c ≤ since_of (rq_since body) → mail (sy_db s') !! todevice_id u dv c = None) ∧
  (∀ u' dv' c, no_ff u' → no_ff dv' → is_u64 c → (u', dv') ≠ (u, dv) → mail (sy_db s') !! todevice_id u' dv' c = mail (sy_db s) !! todevice_id u' dv' c).
Proof.
  intros HI Hu Hdv H. destruct (sync_mail _ _ _ _ _ _ _ _ _ _ _ _ _ _ HI Hu Hdv H) as (d0 & d1 & E0 & Hrm & E1 & d2 & E2 & Hget).
  destruct (remove_to_device_events_spec d0 u dv (since_of (rq_since body))) as (d1' & Hrm' & Hspec & _); [|done|done|apply since_of_u64|].
  { intros k v. fold (mail d0). rewrite E0. apply HI. }
  rewrite Hrm in Hrm'. injection Hrm' as <-. fold (mail d1) (mail d0) in Hspec. rewrite E0 in Hspec. rewrite E1.
  split_and!.
  - intros c v Hc Hlt Hm. assert (mail d1 !! todevice_id u dv c = Some v) as Hm1.
    { rewrite Hspec by done. rewrite decide_False by lia. done. }
    split; [done|]. unfold get_to_device_events, gets in Hget. injection Hget as Hget.
    destruct (collect_elem _ _ (ok_or (from_slice v) (BadDatabase "Event in todeviceid_events is invalid.")) Hget) as (ev & Hev & Hin).
    + apply list_elem_of_fmap. exists (todevice_id u dv c, v). split; [done|]. apply elem_of_scan_prefix. split; [by apply todevice_id_prefix|].
      fold (mail d2). by rewrite E2.
    + exists ev. split; [|done]. by destruct (from_slice v); [injection Hev as ->|].
  - intros c Hc Hle. rewrite Hspec by done. by rewrite decide_True.
  - intros u' dv' c Hu' Hdv' Hc Hne. rewrite Hspec by done. rewrite decide_False; [done|]. intros (-> & -> & _). by apply Hne.
Qed.
End mail.

(** * The responses kept per device *)

(** What happens to the receivers: a request arrives, or a task ends. *)
Inductive SyncEvent := BeginSync (device : bytes * bytes) (since : option bytes) | FinishSync (t : nat) (result : res (SyncResponse * bool)).

Definition sync_step (r : Receivers) (e : SyncEvent) : Receivers :=
  match e with
  | BeginSync device since => (begin_sync device since r).2
  | FinishSync t result => finish_sync t result r
  end.

(** The receivers after some events. *)
Definition sync_after (events : list SyncEvent) : Receivers := fold_left sync_step events no_receivers.

Lemma sync_after_snoc events e : sync_after (events ++ [e]) = sync_step (sync_after events) e.
Proof. unfold sync_after. by rewrite fold_left_app. Qed.

(** Each task has its own channel, which is empty while it runs. *)
Record TasksOk (r : Receivers) : Prop := mk_TasksOk {
  to_length : length (tasks r) = length (channels r);
  to_tx : ∀ t task, tasks r !! t = Some (Some task) → tk_tx task = t ∧ channels r !! t = Some None;
}.

(** The number of a task is that of its channel: a request for [device] and
    [since] that waits for it has a task running for them, or the result of
    one. *)
Definition Owned (events : list SyncEvent) (rx : nat) (device : bytes * bytes) (since : option bytes) : Prop :=
  match channels (sync_after events) !! rx with
  | None => False
  | Some None => tasks (sync_after events) !! rx = Some (Some (mkTask device since rx))
  | Some (Some v) => ∃ p q result, events = p ++ FinishSync rx result :: q ∧
      tasks (sync_after p) !! rx = Some (Some (mkTask device since rx)) ∧ v = fst <$> result
  end.

Lemma TasksOk_step r e : TasksOk r → TasksOk (sync_step r e).
Proof.
  intros [Hl Ht]. destruct e as [device since|t result]; cbn [sync_step].
  - unfold begin_sync. set (r' := mkReceivers _ _ _). assert (TasksOk r') as Hr'.
    { split; cbn; [rewrite !length_app; cbn; lia|]. intros t task [Hr|[Hge Hr]]%lookup_app_Some.
      - destruct (Ht t task Hr) as [H1 H2]. split; [done|by apply lookup_app_l_Some].
      - apply list_lookup_singleton_Some in Hr as [Hz [= <-]]. cbn. assert (t = length (channels r)) as -> by lia. split; [done|].
        by rewrite lookup_app_r, Nat.sub_diag by done. }
    destruct (sync_receivers r !! device) as [[since' rx']|]; [|done]. by case_bool_decide.
  - unfold finish_sync. destruct (tasks r !! t) as [[task|]|] eqn:Et; [|done..]. destruct (Ht t task Et) as [<- _].
    split; cbn; [by rewrite !length_insert|]. intros t' task' H'. destruct (decide (t' = tk_tx task)) as [->|Hne].
    + rewrite list_lookup_insert_eq in H' by (by eapply lookup_lt_Some). done.
    + rewrite list_lookup_insert_ne in H' by done. rewrite list_lookup_insert_ne by done. by apply Ht.
Qed.

Lemma TasksOk_after events : TasksOk (sync_after events).
Proof. induction events as [|e events IH] using rev_ind; [by split|]. rewrite sync_after_snoc. by apply TasksOk_step. Qed.

Lemma Owned_step events e rx device since : Owned events rx device since → Owned (events ++ [e]) rx device since.
Proof.
  unfold Owned. destruct (TasksOk_after events) as [Hl Ht]. rewrite sync_after_snoc. set (r := sync_after events) in *. intros HO.
  destruct (channels r !! rx) as [o|] eqn:Ec; [|done]. destruct e as [device' since'|t result]; cbn [sync_step].
  - unfold begin_sync. set (r' := mkReceivers _ _ _). assert (channels r' !! rx = Some o) as Ec' by (by apply lookup_app_l_Some).
    assert (∀ x, (match o with Some v => ∃ p q result, events = p ++ FinishSync rx result :: q ∧
        tasks (sync_after p) !! rx = Some (Some (mkTask device since rx)) ∧ v = fst <$> result
      | None => tasks r !! rx = Some (Some (mkTask device since rx)) end) →
      match o with Some v => ∃ p q result, events ++ [x] = p ++ FinishSync rx result :: q ∧
        tasks (sync_after p) !! rx = Some (Some (mkTask device since rx)) ∧ v = fst <$> result
      | None => tasks r !! rx = Some (Some (mkTask device since rx)) end) as Hx.
    { intros x. destruct o; [|done]. intros (p & q & result & -> & H1 & H2). exists p, (q ++ [x]), result. by rewrite <-app_assoc. }
    apply (Hx (BeginSync device' since')) in HO. clear Hx.
    assert (match channels r' !! rx with Some (Some v) => ∃ p q result, events ++ [BeginSync device' since'] = p ++ FinishSync rx result :: q ∧
        tasks (sync_after p) !! rx = Some (Some (mkTask device since rx)) ∧ v = fst <$> result
      | Some None => tasks r' !! rx = Some (Some (mkTask device since rx)) | None => False end) as Hnew.
    { rewrite Ec'. destruct o; [done|]. by apply lookup_app_l_Some. }
    destruct (sync_receivers r !! device') as [[s1 rx1]|]; [case_bool_decide|]; cbn [snd]; rewrite ?Ec; done.
  - unfold finish_sync. destruct (tasks r !! t) as [[task|]|] eqn:Et.
    2, 3: rewrite Ec; destruct o as [v|]; [|done]; destruct HO as (p & q & res & -> & H1 & H2);
      exists p, (q ++ [FinishSync t result]), res; by rewrite <-app_assoc.
    destruct (Ht t task Et) as [Htx Hempty]. cbn. rewrite Htx. destruct (decide (t = rx)) as [->|Hne].
    + rewrite list_lookup_insert_eq by (by eapply lookup_lt_Some). rewrite Hempty in Ec. injection Ec as <-.
      exists events, [], result. by split_and!.
    + rewrite !list_lookup_insert_ne by done. rewrite Ec. destruct o as [v|]; [|done]. destruct HO as (p & q & res & -> & H1 & H2).
      exists p, (q ++ [FinishSync t result]), res. by rewrite <-app_assoc.
Qed.

Lemma Owned_app events events' rx device since : Owned events rx device since → Owned (events ++ events') rx device since.
Proof.
  induction events' as [|e events' IH] using rev_ind; [by rewrite app_nil_r|]. intros H. rewrite app_assoc. by apply Owned_step, IH.
Qed.

(** The channel kept for a device, and the one a request waits for. *)
Lemma begin_run events device since : ∃ rx started,
  begin_sync device since (sync_after events) = (rx, started, sync_after (events ++ [BeginSync device since])) ∧
  if started : bool then Owned (events ++ [BeginSync device since]) rx device since ∧
    sync_receivers (sync_after (events ++ [BeginSync device since])) = <[device := (since, rx)]> (sync_receivers (sync_after events))
  else sync_receivers (sync_after events) !! device = Some (since, rx) ∧ sync_after (events ++ [BeginSync device since]) = sync_after events.
Proof.
  unfold Owned. rewrite sync_after_snoc. cbn [sync_step]. destruct (TasksOk_after events) as [Hl _]. set (r := sync_after events) in *. unfold begin_sync.
  set (r' := mkReceivers _ _ _).
  assert (match channels r' !! length (channels r) with Some None => tasks r' !! length (channels r) = Some (Some (mkTask device since (length (channels r)))) | _ => False end) as Hnew.
  { unfold r'. cbn. rewrite lookup_app_r, Nat.sub_diag by done. cbn. rewrite lookup_app_r by lia. by rewrite Hl, Nat.sub_diag. }
  destruct (channels r' !! length (channels r)) as [[]|] eqn:En; [done| |done].
  destruct (sync_receivers r !! device) as [[since' rx']|] eqn:Er; [case_bool_decide as Hs|].
  - exists (length (channels r)), true. cbn [snd]. rewrite En. by split_and!.
  - exists rx', false. by rewrite Hs in *.
  - exists (length (channels r)), true. cbn [snd]. rewrite En. by split_and!.
Qed.

Lemma receivers_owned events device since rx : sync_receivers (sync_after events) !! device = Some (since, rx) → Owned events rx device since.
Proof.
  revert device since rx. induction events as [|e events IH] using rev_ind; intros device since rx; [cbn; by rewrite lookup_empty|].
  destruct e as [device' since'|t result].
  - destruct (begin_run events device' since') as (rx' & started & _ & Hb). destruct started.
    + destruct Hb as [HO ->]. rewrite lookup_insert. case_decide as E; [intros [= <- <-]; by subst|]. intros H. by apply Owned_step, IH.
    + destruct Hb as [_ ->]. intros H. by apply Owned_step, IH.
  - intros H. apply Owned_step, IH. revert H. rewrite sync_after_snoc. cbn [sync_step]. unfold finish_sync.
    destruct (tasks _ !! t) as [[task|]|]; [|done..]. cbn. destruct (forgets _ _ _); [|done]. by intros [_ ?]%lookup_delete_Some.
Qed.

Lemma begin_owned events device since : Owned (events ++ [BeginSync device since]) (begin_sync device since (sync_after events)).1.1 device since.
Proof.
  destruct (begin_run events device since) as (rx & started & -> & Hb). cbn [fst]. destruct started; [by destruct Hb|].
  destruct Hb as [Hr _]. by apply Owned_step, receivers_owned.
Qed.

(** C29: a device gets only responses computed for it.  However requests and
    finished tasks interleave before and after a request, when the request is
    answered, the answer is the result that a task for the same user, device
    and [since] ended with; and as long as it is not, such a task runs, whose
    end answers the request. *)
Theorem sync_response_isolated before after device since :
  let rx := (begin_sync device since (sync_after before)).1.1 in
  let events := before ++ BeginSync device since :: after in
  let running t task r := tasks r !! t = Some (Some task) ∧ tk_device task = device ∧ tk_since task = since in
  match answer_sync rx (sync_after events) with
  | Some v => ∃ p q t task result, events = p ++ FinishSync t result :: q ∧ running t task (sync_after p) ∧ v = fst <$> result
  | None => ∃ t task, running t task (sync_after events) ∧
      ∀ result, answer_sync rx (finish_sync t result (sync_after events)) = Some (fst <$> result)
  end.
Proof.
  cbv zeta. set (rx := (begin_sync _ _ _).1.1). pose proof (Owned_app _ after _ _ _ (begin_owned before device since)) as HO. fold rx in HO.
  rewrite <-app_assoc in HO. cbn [app] in HO. set (events := before ++ _) in *. unfold Owned in HO. unfold answer_sync at 1.
  destruct (channels (sync_after events) !! rx) as [[v|]|] eqn:Ec; [| |done]; cbn.
  - destruct HO as (p & q & result & E & H1 & H2). by exists p, q, rx, (mkTask device since rx), result.
  - exists rx, (mkTask device since rx). split; [by split_and!|]. intros result. unfold answer_sync, finish_sync. rewrite HO. cbn.
    by rewrite list_lookup_insert_eq by (by eapply lookup_lt_Some).
Qed.

(** The channel of a device that has failed; its task has ended. *)
Definition failed (device : bytes * bytes) (since : option bytes) (t : nat) (e : Error) (r : Receivers) : Prop :=
  TasksOk r ∧ sync_receivers r !! device = Some (since, t) ∧ channels r !! t = Some (Some (Err e)).

(** What other devices do, and the device repeating its request. *)
Definition retries (device : bytes * bytes) (since : option bytes) (r : Receivers) (e : SyncEvent) : Prop :=
  match e with
  | BeginSync device' since' => device' = device → since' = since
  | FinishSync t _ => ∀ task, tasks r !! t = Some (Some task) → tk_device task ≠ device
  end.

Lemma failed_step device since t e r ev : failed device since t e r → retries device since r ev → failed device since t e (sync_step r ev).
Proof.
  intros (HT & H1 & H2) Hev. split; [by apply TasksOk_step|]. destruct ev as [device' since'|t' result]; cbn [sync_step].
  - unfold begin_sync. destruct (decide (device' = device)) as [->|Hne].
    + rewrite H1. rewrite bool_decide_eq_false_2; [done|]. rewrite (Hev eq_refl). tauto.
    + assert (∀ x y, sync_receivers (mkReceivers (<[device' := (since', length (channels r))]> (sync_receivers r)) (channels r ++ [x]) y) !! device = Some (since, t) ∧
        channels (mkReceivers (<[device' := (since', length (channels r))]> (sync_receivers r)) (channels r ++ [x]) y) !! t = Some (Some (Err e))) as Hf.
      { intros x y. split; cbn; [by rewrite lookup_insert_ne|by apply lookup_app_l_Some]. }
      destruct (sync_receivers r !! device') as [[]|]; [case_bool_decide|]; first [apply Hf|by split].
  - unfold finish_sync. destruct (tasks r !! t') as [[task|]|] eqn:Et; [|done..]. destruct (to_tx r HT t' task Et) as [Htx Hn]. specialize (Hev task Et). split; cbn.
    + destruct (forgets _ _ _); [by rewrite lookup_delete_ne|done].
    + rewrite list_lookup_insert_ne; [done|]. intros E. rewrite Htx in E. subst t'. congruence.
Qed.

(** A failed sync sticks: when the task of a device fails, every later
    request of the device with the same [since] is answered with the same error
    and no new task is started, whatever other devices do. *)
Theorem failed_sync_sticks device since t e r events r' :
  TasksOk r → sync_receivers r !! device = Some (since, t) → tasks r !! t = Some (Some (mkTask device since t)) →
  r' = fold_left sync_step events (finish_sync t (Err e) r) →
  (∀ l1 ev l2, events = l1 ++ ev :: l2 → retries device since (fold_left sync_step l1 (finish_sync t (Err e) r)) ev) →
  begin_sync device since r' = (t, false, r') ∧ answer_sync t r' = Some (Err e).
Proof.
  intros HT H1 H2 -> Hev. assert (failed device since t e (fold_left sync_step events (finish_sync t (Err e) r))) as (_ & Hf1 & Hf2).
  { induction events as [|ev events IH] using rev_ind.
    - cbn. split; [by apply (TasksOk_step r (FinishSync t (Err e)))|]. destruct (to_tx r HT t _ H2) as [_ Hc]. unfold finish_sync. rewrite H2. cbn. split; [done|].
      apply list_lookup_insert_eq. by eapply lookup_lt_Some.
    - rewrite fold_left_app. apply failed_step; [|by apply (Hev events ev [])]. apply IH. intros l1 x l2 ->. apply (Hev l1 x (l2 ++ [ev])). by rewrite <-app_assoc. }
  unfold begin_sync, answer_sync. rewrite Hf1, Hf2. rewrite bool_decide_eq_false_2 by tauto. done.
Qed.

(** * Witnesses *)

#[local] Existing Instance sample_ruma.
#[local] Existing Instance lru_unbounded.
#[local] Existing Instance elements_order.
#[local] Existing Instance sample_contents.
#[local] Instance sync_map_order : MapOrder := {| map_iter := λ K V _ _ m, map_to_list m; map_iter_perm := λ K V _ _ m, reflexivity _ |}.
#[local] Instance sync_pdu_json : Json PduEvent := json_countable PduEvent.
#[local] Instance sync_tree_json : Json Tree := json_countable Tree.
#[local] Instance sync_value_json : Json Value := json_countable Value.
#[local] Instance sync_values_json : Json (list Value) := json_countable (list Value).

(** A room with two events. *)
Definition two_events : Db :=
  upd pduid_pdu (λ _, <[pdu_id 1 (Normal 3) := to_vec timeline_sample_pdu]> {[pdu_id 1 (Normal 5) := to_vec timeline_sample_pdu]}) one_room.


(** A room whose state is first a member and then also its visibility. *)
Definition member_pdu : PduEvent :=
  mkPdu (lit "$a") (Some (lit "!r")) (lit "@a:b") 1 (lit "m.room.member") (lit "{}") (Some (lit "@a:b")) [] 1 [] None None [] None.

Definition delta_room : M Db (Z * Z) :=
  s ← append_to_state member_pdu;
  set_room_state (lit "!r") s;;
  s' ← append_to_state visibility_pdu;
  set_room_state (lit "!r") s';;
  insert eventid_outlierpdu (lit "$a") (to_vec member_pdu);;
  insert eventid_outlierpdu (lit "$h") (to_vec visibility_pdu);;
  mret (s, s').

Definition delta_db : Db := (delta_room empty_db).2.

Lemma delta_room_view : ∃ n st st',
  View (λ b, b) delta_db n ∧ get_room_shortstatehash (lit "!r") delta_db = (Ok (Some 6), delta_db) ∧ state_of delta_db 6 st ∧ keyed st ∧
  state_of delta_db 3 st' ∧ state_event delta_db st (lit "m.room.member") (lit "@a:b") (Some member_pdu).
Proof.
  destruct (append_to_state_spec (λ b, b) empty_db 0 member_pdu (lit "!r") (lit "@a:b") ∅) as (s & d1 & n1 & E1 & HI1 & Hn1 & Hs & Hx1 & k & e & Hk & He & Hkk & Hke & Hst);
    [apply empty_db_comp|vm_compute; discriminate|done|done|done|intros x y Hx; by apply elem_of_empty in Hx|].
  set (x := to_be_bytes k ++ to_be_bytes e) in *. set (st' := put_entry k x ∅) in *.
  assert (keyed st') as Hkst'.
  { apply put_entry_keyed; [unfold x; by rewrite take_app_length' by (by rewrite length_to_be_bytes)|]. intros y z Hy. by apply elem_of_empty in Hy. }
  destruct (set_room_state_spec (λ b, b) d1 n1 (lit "!r") s st' HI1 Hs Hst) as (d2 & E2 & HI2 & _ & Hst2 & Hf2).
  destruct (append_to_state_spec (λ b, b) d2 n1 visibility_pdu (lit "!r") [] st') as (s' & d3 & n3 & E3 & HI3 & Hn3 & Hs' & Hx3 & k' & e' & Hk' & He' & Hkk' & Hke' & Hst3);
    [done|unfold u64_max; lia|done|done| |done|].
  { unfold room_state. unfold set_room_state, insert, modify in E2. injection E2 as <-. kv_simpl. unfold kv_insert. rewrite lookup_insert_eq. by exists s. }
  set (x' := to_be_bytes k' ++ to_be_bytes e') in *. set (st := put_entry k' x' st') in *.
  destruct (set_room_state_spec (λ b, b) d3 n3 (lit "!r") s' st HI3 Hs' Hst3) as (d4 & E4 & HI4 & Hget & Hst4 & Hf4).
  set (d5 := upd eventid_outlierpdu (λ t, kv_insert t (lit "$h") (to_vec visibility_pdu)) (upd eventid_outlierpdu (λ t, kv_insert t (lit "$a") (to_vec member_pdu)) d4)).
  assert (delta_room empty_db = (Ok (s, s'), d5)) as E.
  { unfold delta_room. rewrite (bind_ok _ _ _ _ _ E1), (bind_ok _ _ _ _ _ E2), (bind_ok _ _ _ _ _ E3), (bind_ok _ _ _ _ _ E4). done. }
  assert ((delta_room empty_db).1 = Ok (3, 6)) as Ec by (vm_compute; reflexivity). rewrite E in Ec. injection Ec as -> ->.
  assert (delta_db = d5) as Ed by (unfold delta_db; by rewrite E).
  assert (∀ t, t ∉ [eventid_outlierpdu; roomid_shortstatehash] → kv d5 t = kv d3 t) as Hf5.
  { intros t Ht. unfold d5. rewrite !kv_upd_ne by (intros <-; apply Ht; in_list). apply Hf4. intros ->. apply Ht. in_list. }
  assert (kv delta_db statekey_shortstatekey !! statekey_bytes (lit "m.room.member") (lit "@a:b") = Some (to_be_bytes k)) as Hkk5.
  { rewrite Ed, Hf5 by (clear; set_solver). eapply lookup_weaken; [|apply (proj1 Hx3); in_list]. by rewrite Hf2. }
  assert (kv delta_db eventid_shorteventid !! lit "$a" = Some (to_be_bytes e)) as Hke5.
  { rewrite Ed, Hf5 by (clear; set_solver). eapply lookup_weaken; [|apply (proj1 Hx3); in_list]. by rewrite Hf2. }
  assert (kv delta_db statekey_shortstatekey !! statekey_bytes (lit "m.room.history_visibility") [] = Some (to_be_bytes k')) as Hkk5'.
  { rewrite Ed, Hf5 by (clear; set_solver). done. }
  assert (stored delta_db (lit "$a") = Ok (Some member_pdu)) as Hstored by (vm_compute; reflexivity).
  assert (to_be_bytes k ≠ to_be_bytes k') as Hkne.
  { intros Ek. rewrite Ek in Hkk5. rewrite <-Hkk5' in Hkk5. clear -Hkk5. vm_compute in Hkk5. discriminate Hkk5. }
  assert (x ∈ st) as Hx.
  { unfold st, put_entry. apply elem_of_union. right. apply elem_of_filter. split; [unfold x; by rewrite take_app_length' by (by rewrite length_to_be_bytes)|].
    unfold st', put_entry. apply elem_of_union. left. by apply elem_of_singleton. }
  exists n3, st, st'. split_and!.
  - split; [rewrite Ed; unfold d5; do 2 (apply CompInv_upd; [clear; set_solver|]); exact HI4|]. intros e0 p Hp.
    assert (pdu_cache delta_db = ∅) as Ec by (vm_compute; reflexivity). rewrite Ec, lookup_empty in Hp. discriminate Hp.
  - apply injective_projections; [vm_compute; reflexivity|done].
  - rewrite Ed. eapply state_of_mono; [|exact Hst3]. by rewrite Hf5 by (clear; set_solver).
  - apply put_entry_keyed; [unfold x'; by rewrite take_app_length' by (by rewrite length_to_be_bytes)|done].
  - rewrite Ed. eapply state_of_mono; [|exact Hst2]. rewrite Hf5 by (clear; set_solver). apply Hx3.
  - exists (lit "$a"). split; [|exact Hstored]. split; [exists k, e; exact (conj Hk (conj He (conj Hkk5 (conj Hke5 Hx)))) |split; reflexivity].
Qed.

Definition ids_at (h : Z) (d : Db) : gmap Z bytes := match (state_full_ids h d).1 with Ok ids => ids | _ => ∅ end.

Lemma ids_at_run h d : is_ok (state_full_ids h d).1 = true → state_full_ids h d = (Ok (ids_at h d), (state_full_ids h d).2).
Proof. unfold ids_at. by destruct (state_full_ids h d) as [[]]. Qed.

(** A message of the member, which the device has not been sent. *)
Definition delta_timeline : list (PduCount * PduEvent) :=
  [(Normal 9, mkPdu (lit "$m") (Some (lit "!r")) (lit "@a:b") 1 (lit "m.room.message") (lit "{}") None [] 1 [] None None [] None)].


#[local] Instance sync_redaction_json : Json RedactionContent := json_countable RedactionContent.
#[local] Instance presence_state_eq_dec : EqDecision PresenceState.
Proof. solve_decision. Defined.
#[local] Instance presence_state_countable : Countable PresenceState.
Proof.
  refine (inj_countable' (λ p, match p with Offline => inl true | Online => inl false | Unavailable => inr None | CustomPresence s => inr (Some s) end)
    (λ x, match x with inl true => Offline | inl false => Online | inr None => Unavailable | inr (Some s) => CustomPresence s end) _).
  by intros [].
Defined.
#[local] Instance presence_event_eq_dec : EqDecision PresenceEvent.
Proof. solve_decision. Defined.
#[local] Program Instance presence_event_countable : Countable PresenceEvent :=
  inj_countable' (λ p, (pr_sender p, pr_presence p, pr_last_active_ago p, pr_rest p)) (λ '(a, b, c, d), mkPresence a b c d) _.
Next Obligation. by intros []. Qed.
#[local] Instance sync_presence_json : Json PresenceEvent := json_countable PresenceEvent.

(** Filters without lazy loading, and rooms that are empty without news. *)
Definition no_news (r : JoinedRoom) : bool := bool_decide (jr_timeline r = [] ∧ jr_state r = [] ∧ length (jr_ephemeral r) = 0%nat).

Lemma no_news_empty r : jr_timeline r ≠ [] ∨ jr_state r ≠ [] ∨ jr_ephemeral r ≠ [] → no_news r = false.
Proof. intros H. apply bool_decide_eq_false. intros (H1 & H2 & H3%length_zero_iff_nil). tauto. Qed.

#[local] Instance plain_sync : SyncTypes := {|
  Filter := bool; filter_json := json_countable bool; default_filter := false; lazy_load_options := λ _, None;
  rest_fields := λ _, mkPresenceRest None None None None; rest_text := λ _, []; joined_room_is_empty := no_news; joined_room_not_empty := no_news_empty |}.

(** A device with a message at 5. *)
Definition mail_db : Db := upd todeviceid_events (λ _, {[todevice_id (lit "@a:b") (lit "D") 5 := to_vec (VString (lit "x"))]}) empty_db.

Definition mail_state : SyncState := mkSync (mkTyping ∅ ∅ [] mail_db) ∅ ∅ ∅.

Definition synced (since : bytes) : res (SyncResponse * bool * option Z) * SyncState :=
  sync_helper (λ _ v, v) (λ a b, Ok (a - b)) (λ _, None) (λ _, []) 0 (λ _, []) (lit "@a:b") (lit "D") (mkSyncRequest bool None (Some since) false None) mail_state.

Lemma mail_db_inv : ToDeviceInv mail_db.
Proof.
  intros k v. unfold mail_db. kv_simpl. intros [<- _]%lookup_singleton_Some. exists (lit "@a:b"), (lit "D"), 5. by repeat split; try apply utf8_no_ff.
Qed.

Lemma mail_db_has : mail (sy_db mail_state) !! todevice_id (lit "@a:b") (lit "D") 5 = Some (to_vec (VString (lit "x"))).
Proof. by vm_compute. Qed.

(** A request that has not seen the message gets it; the message stays. *)
Lemma to_device_at_least_once_witness :
  match synced (lit "4") with
  | (Ok (rs, _, _), s') => mail (sy_db s') !! todevice_id (lit "@a:b") (lit "D") 5 = Some (to_vec (VString (lit "x"))) ∧
      ∃ event, from_slice (to_vec (VString (lit "x"))) = Some event ∧ event ∈ rs_to_device rs
  | _ => False
  end.
Proof.
  assert (is_ok (synced (lit "4")).1 = true) as Hok by (by vm_compute).
  destruct (synced (lit "4")) as [[[[rs cached] hang]| |] s'] eqn:E; [|done..]. clear Hok.
  refine (proj1 (to_device_at_least_once _ _ _ _ 0 _ (lit "@a:b") (lit "D") _ mail_state rs cached hang s' mail_db_inv _ _ E) 5 _ _ _ _).
  - by apply utf8_no_ff.
  - by apply utf8_no_ff.
  - by split.
  - by vm_compute.
  - exact mail_db_has.
Defined.

(** The requests of two devices; the task of the first fails. *)
Definition two_devices : list SyncEvent := [BeginSync (lit "@a:b", lit "D") None; BeginSync (lit "@c:b", lit "E") (Some (lit "7")); FinishSync 0 (Err (BadDatabase "x"))].

Lemma sync_response_isolated_sample :
  let device := (lit "@c:b", lit "E") in
  let events := two_devices ++ [BeginSync device (Some (lit "7")); FinishSync 1 (Err (BadDatabase "y"))] in
  answer_sync (begin_sync device (Some (lit "7")) (sync_after two_devices)).1.1 (sync_after events) = Some (Err (BadDatabase "y")).
Proof. by vm_compute. Qed.

Definition one_request : Receivers := (begin_sync (lit "@a:b", lit "D") None no_receivers).2.

Definition stuck : Receivers :=
  fold_left sync_step [BeginSync (lit "@c:b", lit "E") None; BeginSync (lit "@a:b", lit "D") None] (finish_sync 0 (Err (BadDatabase "x")) one_request).

Lemma failed_sync_sticks_witness :
  begin_sync (lit "@a:b", lit "D") None stuck = (0%nat, false, stuck) ∧ answer_sync 0 stuck = Some (Err (BadDatabase "x")).
Proof.
  apply (failed_sync_sticks (lit "@a:b", lit "D") None 0 (BadDatabase "x") one_request
    [BeginSync (lit "@c:b", lit "E") None; BeginSync (lit "@a:b", lit "D") None] stuck).
  - apply (TasksOk_after [BeginSync (lit "@a:b", lit "D") None]).
  - by vm_compute.
  - by vm_compute.
  - done.
  - intros [|e1 [|e2 [|]]] ev l2 [=]; subst; simpl; done.
Defined.
