(* ===== verification/SlidingSync.v ===== *)
(** * SlidingSync: the v5 sync

    [sync_events_v5_route] of [server/src/api/client_server/sync.rs] with the
    connections that [server/src/service/users/mod.rs] keeps for it: the client
    asks for windows of its room list and for single rooms, and the server
    remembers per connection what it asked for and which rooms it has seen. *)
From S2P Require Import Prelude Bytes JsonValue KvTree Sending Pdu Database Short StateCompressor RoomState Accounts StateCache Timeline PduJson AccountData Devices UserKeys AuthChain Edus RoomTables StateAccess ServerKeys EventHandler Sync SyncInv.

(** ** Data *)

Record ListFilters := mkListFilters { is_invite : option bool; not_room_types : list bytes }.

Record ListRequest := mkListRequest {
  ranges : list (Z * Z);
  required_state : list (bytes * bytes);
  timeline_limit : Z;
  filters : option ListFilters;
}.

Record RoomSubscription := mkRoomSubscription { sub_required_state : list (bytes * bytes); sub_timeline_limit : Z }.

(** The extensions the server reads. *)
Record Extensions := mkExtensions {
  e2ee_enabled : option bool;
  to_device_enabled : option bool;
  account_data_enabled : option bool;
  account_data_lists : option (list bytes);
  account_data_rooms : option (list bytes);
}.

Record V5Request := mkV5Request {
  pos : option bytes;
  conn_id : option bytes;
  txn_id : option bytes;
  timeout : option Z;
  lists : list (bytes * ListRequest);
  room_subscriptions : gmap bytes RoomSubscription;
  extensions : Extensions;
}.

Record SlidingSyncCache := mkSlidingSyncCache {
  cached_lists : gmap bytes ListRequest;
  cached_subscriptions : gmap bytes RoomSubscription;
  (** for every list and room, the roomsince number *)
  known_rooms : gmap bytes (gmap bytes Z);
  cached_extensions : Extensions;
}.

Definition no_extensions : Extensions := mkExtensions None None None None None.

Definition new_cache : SlidingSyncCache := mkSlidingSyncCache ∅ ∅ ∅ no_extensions.

(** A connection: user, device and connection id. *)
Abbreviation Connection := (bytes * bytes * bytes)%type.

Abbreviation Connections := (gmap Connection SlidingSyncCache).

Record Hero := mkHero { hero_user : bytes; hero_name : option bytes; hero_avatar : option bytes }.

(** [JsOption]. *)
Inductive JsOption (A : Type) := JsSome (a : A) | JsNull | JsUndefined.
Arguments JsSome {A} a.
Arguments JsNull {A}.
Arguments JsUndefined {A}.

Record V5Room := mkV5Room {
  v5_name : option bytes;
  v5_avatar : JsOption bytes;
  v5_initial : bool;
  v5_highlight_count : Z;
  v5_notification_count : Z;
  v5_timeline : list Value;
  v5_required_state : list Value;
  v5_prev_batch : option bytes;
  v5_limited : bool;
  v5_joined_count : Z;
  v5_invited_count : Z;
  v5_bump_stamp : option Z;
  v5_heroes : list Hero;
}.

Record V5Response := mkV5Response {
  v5_txn_id : option bytes;
  v5_pos : bytes;
  (** the number of rooms of each list *)
  v5_lists : gmap bytes Z;
  v5_rooms : gmap bytes V5Room;
  v5_to_device : option (list Value);
  v5_changed : gset bytes;
  v5_left : gset bytes;
  v5_one_time_keys_count : gmap bytes Z;
  v5_account_data : gmap bytes Value;
}.

(** The display name and avatar of a member event, the avatar of a room, from
    their contents (ruma). *)
Class ProfileContents := {
  member_profile_of : bytes → option (option bytes * option bytes);
  room_avatar_of : bytes → option (JsOption (option bytes));
}.

(** ** Connections *)

Definition forget_sync_request_connection (c : Connection) (cs : Connections) : Connections := delete c cs.

Definition opt_or {A} (o o' : option A) : option A := match o with Some x => Some x | None => o' end.

(** A list of the request with what it left out filled in. *)
Definition with_cached_list (list cached_list : ListRequest) : ListRequest :=
  mkListRequest (ranges list) (if bool_decide (required_state list = []) then required_state cached_list else required_state list) (timeline_limit list)
    match filters list, filters cached_list with
    | Some list_filters, Some cached_filters =>
        Some (mkListFilters (opt_or (is_invite list_filters) (is_invite cached_filters))
          (if bool_decide (not_room_types list_filters = []) then not_room_types cached_filters else not_room_types list_filters))
    | None, Some cached_filters => Some cached_filters
    | f, None => f
    end.

Definition with_cached_extensions (e cached : Extensions) : Extensions :=
  mkExtensions (opt_or (e2ee_enabled e) (e2ee_enabled cached)) (opt_or (to_device_enabled e) (to_device_enabled cached))
    (opt_or (account_data_enabled e) (account_data_enabled cached)) (opt_or (account_data_lists e) (account_data_lists cached))
    (opt_or (account_data_rooms e) (account_data_rooms cached)).

(** Sticky parameters: what a request leaves out is taken from the earlier ones. *)
Definition update_sync_request_with_cache (user_id device_id : bytes) (request : V5Request) (cs : Connections)
    : gmap bytes (gmap bytes Z) * V5Request * Connections :=
  match conn_id request with
  | None => (∅, request, cs)
  | Some conn =>
      let c := (user_id, device_id, conn) in
      let cached := default new_cache (cs !! c) in
      let '(lists', cached_lists') := fold_left (λ '(ls, cl) '(list_id, list),
        let list := match (cl : gmap _ _) !! list_id with Some cached_list => with_cached_list list cached_list | None => list end in
        (ls ++ [(list_id, list)], <[list_id := list]> cl)) (lists request) ([], cached_lists cached) in
      let subscriptions := extend (cached_subscriptions cached) (room_subscriptions request) in
      let room_subscriptions' := extend (room_subscriptions request) subscriptions in
      let extensions' := with_cached_extensions (extensions request) (cached_extensions cached) in
      (known_rooms cached,
       mkV5Request (pos request) (conn_id request) (txn_id request) (timeout request) lists' room_subscriptions' extensions',
       <[c := mkSlidingSyncCache cached_lists' subscriptions (known_rooms cached) extensions']> cs)
  end.

Definition update_sync_subscriptions (c : Connection) (subscriptions : gmap bytes RoomSubscription) (cs : Connections) : Connections :=
  let cached := default new_cache (cs !! c) in
  <[c := mkSlidingSyncCache (cached_lists cached) subscriptions (known_rooms cached) (cached_extensions cached)]> cs.

(** The rooms of a list: the ones that are not in it any more are unknown (0),
    the others are known up to the position of the request. *)
Definition known_after (new_cached_rooms : gset bytes) (globalsince : Z) (list : gmap bytes Z) : gmap bytes Z :=
  let list := map_imap (λ roomid lastsince, Some (if bool_decide (roomid ∈ new_cached_rooms) then lastsince else 0)) list in
  set_fold (λ roomid list, <[roomid := globalsince]> list) list new_cached_rooms.

Definition update_sync_known_rooms (c : Connection) (list_id : bytes) (new_cached_rooms : gset bytes) (globalsince : Z) (cs : Connections) : Connections :=
  let cached := default new_cache (cs !! c) in
  <[c := mkSlidingSyncCache (cached_lists cached) (cached_subscriptions cached)
      (<[list_id := known_after new_cached_rooms globalsince (default ∅ (known_rooms cached !! list_id))]> (known_rooms cached))
      (cached_extensions cached)]> cs.

(** ** The rooms to answer *)

(** The state asked for, the timeline limit, and the position the client knows. *)
Record TodoRoom := mkTodoRoom { td_required_state : gset (bytes * bytes); td_limit : Z; td_roomsince : Z }.

(** [entry(room).or_insert((∅, 0, u64::MAX))], widened by one request. *)
Definition widen_todo (room_id : bytes) (required : list (bytes * bytes)) (limit since : Z) (todo : gmap bytes TodoRoom) : gmap bytes TodoRoom :=
  let t := default (mkTodoRoom ∅ 0 u64_max) (todo !! room_id) in
  <[room_id := mkTodoRoom (td_required_state t ∪ list_to_set required) (Z.max (td_limit t) (Z.min limit 100)) (Z.min (td_roomsince t) since)]> todo.

(** 0 means unknown because it got out of date. *)
Definition known_since (known : gmap bytes (gmap bytes Z)) (list_id room_id : bytes) : Z := default 0 (known !! list_id ≫= (.!! room_id)).

Definition clamp (x lo hi : Z) : Z := Z.min (Z.max x lo) hi.

(** The rooms of a window. *)
Definition window (all_joined_rooms : list bytes) (start end_ : Z) : list bytes :=
  let len := Z.of_nat (length all_joined_rooms) mod 2 ^ 32 in
  let len' := Z.of_nat (length all_joined_rooms - 1) mod 2 ^ 32 in
  let start := clamp start 0 len' in
  let end_ := clamp end_ start len in
  take (Z.to_nat (end_ - start)) (drop (Z.to_nat start) all_joined_rooms).

Record Plan := mkPlan { pl_lists : gmap bytes Z; pl_todo : gmap bytes TodoRoom; pl_connections : Connections }.

Definition plan_list (c : option Connection) (all_joined_rooms : list bytes) (known : gmap bytes (gmap bytes Z)) (globalsince : Z) (p : Plan)
    (entry : bytes * ListRequest) : Plan :=
  let '(list_id, list) := entry in
  if default false (filters list ≫= is_invite) then p else
  let rooms := concat (map (λ '(start, end_), window all_joined_rooms start end_) (ranges list)) in
  let todo := fold_left (λ todo room_id, widen_todo room_id (required_state list) (timeline_limit list) (known_since known list_id room_id) todo) rooms (pl_todo p) in
  mkPlan (<[list_id := Z.of_nat (length all_joined_rooms) mod 2 ^ 32]> (pl_lists p)) todo
    match c with Some c => update_sync_known_rooms c list_id (list_to_set rooms) globalsince (pl_connections p) | None => pl_connections p end.

Definition SUBSCRIPTIONS : bytes := lit "subscriptions".

Section v5.
Context {RU : Ruma} {LR : LruCache} {HO : HashOrder} {MO : MapOrder} {CT : Contents} {PC : ProfileContents}.
Context `{JP : !Json PduEvent, JV : !Json Value, JM : !Json Tree, JR : !Json RedactionContent}.
Context (key_id_from_json : bytes → option bytes) (algorithm_of : bytes → bytes).

(** The subscribed rooms that exist. *)
Definition plan_subscriptions (known : gmap bytes (gmap bytes Z)) (subscriptions : gmap bytes RoomSubscription) (todo : gmap bytes TodoRoom)
    : M Db (gmap bytes TodoRoom * gset bytes) :=
  foldM (λ '(todo, known_subscription_rooms) '(room_id, room),
    ok ← room_exists room_id;
    if negb ok then mret (todo, known_subscription_rooms) else
    mret (widen_todo room_id (sub_required_state room) (sub_timeline_limit room) (known_since known SUBSCRIPTIONS room_id) todo,
          {[room_id]} ∪ known_subscription_rooms)) (todo, ∅) (map_iter subscriptions).

(** *** The state accessor's member and avatar *)

Definition get_member (room_id user_id : bytes) : M Db (option (option bytes * option bytes)) :=
  o ← room_state_get room_id (lit "m.room.member") user_id;
  lift (map_transpose (λ s, ok_or (member_profile_of (pdu_content s)) (BadDatabase "Invalid room member event in database.")) o).

Definition get_avatar (room_id : bytes) : M Db (JsOption (option bytes)) :=
  o ← room_state_get room_id (lit "m.room.avatar") [];
  lift match o with
       | None => Ok JsUndefined
       | Some s => ok_or (room_avatar_of (pdu_content s)) (BadDatabase "Invalid room avatar event in database.")
       end.

(** *** A room *)

(** The first members with a profile, until there are five. *)
Fixpoint heroes_of (fuel : nat) (room_id : bytes) (members : list bytes) : M Db (list Hero) :=
  match fuel, members with
  | S fuel', member :: members =>
      o ← try_ok (get_member room_id member);
      match o with
      | Some (Some (name, avatar)) => rest ← heroes_of fuel' room_id members; mret (mkHero member name avatar :: rest)
      | _ => heroes_of (S fuel') room_id members
      end
  | _, _ => mret []
  end.

Definition hero_label (h : Hero) : bytes := default (hero_user h) (hero_name h).

Fixpoint join_names (l : list bytes) : bytes :=
  match l with
  | [] => []
  | [x] => x
  | x :: l => x ++ lit ", " ++ join_names l
  end.

Definition heroes_name (heroes : list Hero) : option bytes :=
  match rev heroes with
  | [] => None
  | [only] => Some (hero_label only)
  | last :: firsts => Some (join_names (hero_label <$> rev firsts) ++ lit " and " ++ hero_label last)
  end.

(** [iter.flat_map(room_state_get(..).ok().flatten())]. *)
Definition required_events (room_id : bytes) (required : gset (bytes * bytes)) : M Db (list Value) :=
  foldM (λ events '(event_type, state_key),
    o ← try_ok (room_state_get room_id event_type state_key);
    match o with
    | Some (Some state) => event ← lift (to_sync_state_event state); mret (events ++ [event])
    | _ => mret events
    end) [] (elements required).

Definition max_stamp (timeline_pdus : list (PduCount * PduEvent)) : option Z :=
  fold_left (λ o e, Some match o with Some m => Z.max m (pdu_origin_server_ts e.2) | None => pdu_origin_server_ts e.2 end) timeline_pdus None.

Definition room_avatar (heroes : list Hero) (room_id : bytes) : M Db (JsOption bytes) :=
  match match heroes with [only] => hero_avatar only | _ => None end with
  | Some avatar => mret (JsSome avatar)
  | None =>
      avatar ← get_avatar room_id;
      mret match avatar with
           | JsSome (Some url) => JsSome url
           | JsSome None => JsNull
           | JsNull => JsNull
           | JsUndefined => JsUndefined
           end
  end.

(** A room of the response; none when there is nothing new. *)
Definition v5_room (sender_user room_id : bytes) (todo : TodoRoom) : M Db (option V5Room) :=
  let roomsince := td_roomsince todo in
  '(timeline_pdus, limited) ← load_timeline sender_user room_id (Normal roomsince) (Z.to_nat (td_limit todo));
  if bool_decide (roomsince ≠ 0) && bool_decide (timeline_pdus = []) then mret None else
  let prev_batch := opt_or (prev_batch_of timeline_pdus) (if bool_decide (roomsince ≠ 0) then Some (to_string roomsince) else None) in
  room_events ← lift (collect ((λ e, to_sync_room_event e.2) <$> timeline_pdus));
  required_state ← required_events room_id (td_required_state todo);
  members ← gets (λ d, Ok (bfilter (λ m, bool_decide (m ≠ sender_user)) (oks (room_members room_id d))));
  heroes ← heroes_of 5 room_id members;
  name ← get_name room_id;
  avatar ← room_avatar heroes room_id;
  h ← highlight_count sender_user room_id;
  h ← lift (js_uint h);
  n ← notification_count sender_user room_id;
  n ← lift (js_uint n);
  joined ← room_joined_count room_id;
  invited ← room_invited_count room_id;
  mret (Some (mkV5Room (opt_or name (heroes_name heroes)) avatar (bool_decide (roomsince = 0)) h n room_events required_state prev_batch limited
    (as_u32 (default 0 joined)) (as_u32 (default 0 invited)) (max_stamp timeline_pdus) heroes)).

Definition v5_rooms_of (sender_user : bytes) (todo : gmap bytes TodoRoom) : M Db (gmap bytes V5Room) :=
  foldM (λ rooms '(room_id, t),
    o ← v5_room sender_user room_id t;
    mret match o with Some r => <[room_id := r]> rooms | None => rooms end) ∅ (map_iter todo).

(** ** Device lists *)

(** The member events of an encrypted room that changed. *)
Definition v5_member_changes (sender_user room_id : bytes) (since_shortstatehash current_shortstatehash : Z) : M SyncState unit :=
  current_state_ids ← sdb (state_full_ids current_shortstatehash);
  since_state_ids ← sdb (state_full_ids since_shortstatehash);
  for_each (map_iter current_state_ids) (λ '(key, id),
    if bool_decide (since_state_ids !! key ≠ Some id) then
      o ← sdb (get_pdu id);
      match o with
      | Some pdu => member_device_lists sender_user room_id [pdu]
      | None => mret tt
      end
    else mret tt).

Definition v5_room_device_lists (sender_user : bytes) (globalsince : Z) (room_id : bytes) : M SyncState unit :=
  o ← sdb (get_room_shortstatehash room_id);
  match o with
  | None => mret tt
  | Some current_shortstatehash =>
      since_shortstatehash ← sdb (get_token_shortstatehash room_id globalsince);
      member ← sdb (since_sender_member since_shortstatehash sender_user);
      encryption ← sdb (state_get current_shortstatehash (lit "m.room.encryption") []);
      let encrypted_room := bool_decide (is_Some encryption) in
      let updates := us ← sdb (gets (λ d, Ok (oks (keys_changed room_id globalsince None d)))); changed_users (list_to_set us) in
      match since_shortstatehash with
      | Some since_shortstatehash =>
          (* Skip if there are only timeline changes *)
          if bool_decide (since_shortstatehash = current_shortstatehash) then mret tt else
          since_encryption ← sdb (state_get since_shortstatehash (lit "m.room.encryption") []);
          let joined_since_last_sync := bool_decide (member ≠ Some Join) in
          let new_encrypted_room := encrypted_room && bool_decide (since_encryption = None) in
          (if encrypted_room then
             v5_member_changes sender_user room_id since_shortstatehash current_shortstatehash;;
             (if joined_since_last_sync || new_encrypted_room then new_room_device_lists sender_user room_id else mret tt)
           else mret tt);;
          updates
      | None => updates
      end
  end.

(** The changed and the left users, when the extension is on. *)
Definition v5_device_lists (sender_user : bytes) (globalsince : Z) (all_joined_rooms : list bytes) (enabled : bool) : M SyncState (gset bytes) :=
  if enabled then
    us ← sdb (gets (λ d, Ok (oks (keys_changed sender_user globalsince None d))));
    changed_users (list_to_set us);;
    for_each all_joined_rooms (v5_room_device_lists sender_user globalsince);;
    left_encrypted ← gets (λ s, Ok (left_encrypted_users s));
    sdb (device_list_left sender_user left_encrypted)
  else mret ∅.

(** ** The request *)

(** The connections and the rest of the state. *)
Record V5State := mkV5State { v5_state : SyncState; connections : Connections }.

Definition on_state {A} (m : M SyncState A) : M V5State A := λ s, let '(r, s') := m (v5_state s) in (r, mkV5State s' (connections s)).

Definition on_connections {A} (f : Connections → A * Connections) : M V5State A := λ s, let '(a, cs) := f (connections s) in (Ok a, mkV5State (v5_state s) cs).

Definition v5_hang (request : V5Request) : Z := hang_for (Some (default 30000 (timeout request))).

(** The response, and how long it is held back unless something new arrives. *)
Definition sync_events_v5_route (sender_user sender_device : bytes) (body : V5Request) : M V5State (V5Response * option Z) :=
  next_batch ← on_state (sdb next_count);
  let globalsince := since_of (pos body) in
  (match conn_id body with
   | Some conn => if globalsince =? 0 then on_connections (λ cs, (tt, forget_sync_request_connection (sender_user, sender_device, conn) cs)) else mret tt
   | None => mret tt
   end);;
  (* Get sticky parameters from cache *)
  '(known, body) ← on_connections (λ cs, let '(k, b, cs) := update_sync_request_with_cache sender_user sender_device body cs in ((k, b), cs));
  all_joined_rooms ← on_state (sdb (gets (λ d, Ok (oks (rooms_joined sender_user d)))));
  let to_device := default false (to_device_enabled (extensions body)) in
  on_state (if to_device then sdb (remove_to_device_events sender_user sender_device globalsince) else mret tt);;
  left ← on_state (v5_device_lists sender_user globalsince all_joined_rooms (default false (e2ee_enabled (extensions body))));
  let c := (λ conn, (sender_user, sender_device, conn)) <$> conn_id body in
  p ← on_connections (λ cs, let p := fold_left (plan_list c all_joined_rooms known globalsince) (lists body) (mkPlan ∅ ∅ cs) in (p, pl_connections p));
  '(todo, subscribed) ← on_state (sdb (plan_subscriptions known (room_subscriptions body) (pl_todo p)));
  on_connections (λ cs, (tt, match c with
    | Some c => update_sync_subscriptions c (room_subscriptions body) (update_sync_known_rooms c SUBSCRIPTIONS subscribed globalsince cs)
    | None => cs
    end));;
  rooms ← on_state (sdb (v5_rooms_of sender_user todo));
  let hang := if forallb (λ r : bytes * V5Room, bool_decide (length (v5_timeline r.2) = 0%nat) && bool_decide (length (v5_required_state r.2) = 0%nat)) (map_to_list rooms)
    then Some (v5_hang body) else None in
  mails ← on_state (if to_device then o ← sdb (get_to_device_events sender_user sender_device); mret (Some o) else mret None);
  changed ← on_state (gets (λ s, Ok (device_list_updates s)));
  key_counts ← on_state (sdb (count_one_time_keys key_id_from_json algorithm_of sender_user sender_device));
  account_data ← on_state (if default false (account_data_enabled (extensions body)) then sdb (global_changes_since sender_user globalsince) else mret ∅);
  mret (mkV5Response (txn_id body) (to_string next_batch) (pl_lists p) rooms mails changed left key_counts account_data, hang).
End v5.

(** * The positions of known rooms *)

(** The rooms of the windows of a list. *)
Definition shown (joined : list bytes) (list : ListRequest) (room : bytes) : Prop :=
  Exists (λ '(start, end_), room ∈ window joined start end_) (ranges list).

#[global] Instance shown_dec joined list room : Decision (shown joined list room).
Proof. apply Exists_dec. intros [start end_]. apply _. Defined.

(** A list is passed over when its filter, or the one it had before, asks for
    invites. *)
Definition passed_over (before : SlidingSyncCache) (id : bytes) (list : ListRequest) : bool :=
  default false (filters (match cached_lists before !! id with Some cached_list => with_cached_list list cached_list | None => list end) ≫= is_invite).

(** Where a room of a list is known up to. *)
Definition position (cache : SlidingSyncCache) (id room : bytes) : option Z := known_rooms cache !! id ≫= (.!! room).

Lemma known_after_lookup (new : gset bytes) (g : Z) (list : gmap bytes Z) (room : bytes) :
  known_after new g list !! room = if decide (room ∈ new) then Some g else (λ _, 0) <$> list !! room.
Proof.
  unfold known_after. set (reset := map_imap _ list).
  assert (∀ X : gset bytes, set_fold (λ roomid list, <[roomid := g]> list) reset X !! room = if decide (room ∈ X) then Some g else reset !! room) as ->.
  { apply (set_fold_ind_L (λ (m : gmap bytes Z) (X : gset bytes), m !! room = if decide (room ∈ X) then Some g else reset !! room)).
    - by rewrite decide_False by apply not_elem_of_empty.
    - intros x X m Hx IH. destruct (decide (x = room)) as [->|Hne].
      + rewrite lookup_insert_eq, decide_True; [done|]. by apply elem_of_union_l, elem_of_singleton_2.
      + rewrite lookup_insert_ne, IH by done. apply decide_ext. rewrite elem_of_union, elem_of_singleton. split; [by right|by intros [->|?]]. }
  case_decide; [done|]. unfold reset. rewrite map_lookup_imap. destruct (list !! room); [|done]. cbn. by rewrite bool_decide_eq_false_2.
Qed.

(** The list as it is answered. *)
Definition merged (cl : gmap bytes ListRequest) (entry : bytes * ListRequest) : bytes * ListRequest :=
  (entry.1, match cl !! entry.1 with Some cached_list => with_cached_list entry.2 cached_list | None => entry.2 end).

Lemma merged_lists ls acc cl :
  NoDup ls.*1 →
  (fold_left (λ '(ls, cl) '(list_id, list),
    let list := match (cl : gmap bytes ListRequest) !! list_id with Some cached_list => with_cached_list list cached_list | None => list end in
    (ls ++ [(list_id, list)], <[list_id := list]> cl)) ls (acc, cl)).1 = acc ++ (merged cl <$> ls).
Proof.
  revert acc cl. induction ls as [|[id list] ls IH]; intros acc cl Hd; [by rewrite app_nil_r|].
  cbn in Hd. apply NoDup_cons in Hd as [Hid Hd]. cbn [fold_left]. rewrite IH by done. rewrite <-app_assoc. cbn [app].
  rewrite fmap_cons. f_equal. f_equal. apply list_fmap_ext. intros i [id' list'] Hi. unfold merged. cbn [fst snd]. rewrite lookup_insert_ne; [done|].
  intros ->. apply Hid, list_elem_of_fmap. exists (id', list'). split; [done|]. by eapply list_elem_of_lookup_2.
Qed.

(** The known rooms of a connection. *)
Definition known_of (c : Connection) (cs : Connections) : gmap bytes (gmap bytes Z) := known_rooms (default new_cache (cs !! c)).

Definition window_rooms (joined : list bytes) (list : ListRequest) : gset bytes :=
  list_to_set (concat (map (λ '(start, end_), window joined start end_) (ranges list))).

Lemma window_rooms_shown joined list room : room ∈ window_rooms joined list ↔ shown joined list room.
Proof.
  unfold window_rooms, shown. rewrite elem_of_list_to_set, list_elem_of_In, in_concat, Exists_exists. setoid_rewrite in_map_iff. setoid_rewrite <-list_elem_of_In.
  split.
  - intros (l & ([start end_] & <- & Hin) & Hr). by exists (start, end_).
  - intros ([start end_] & Hin & Hr). eauto.
Qed.

Lemma known_of_update c c' id new g cs :
  known_of c (update_sync_known_rooms c' id new g cs) =
  if decide (c' = c) then <[id := known_after new g (default ∅ (known_of c cs !! id))]> (known_of c cs) else known_of c cs.
Proof. unfold known_of, update_sync_known_rooms. cbv zeta. rewrite lookup_insert. case_decide as E; [by subst|done]. Qed.

(** What planning the lists does to the known rooms, and that it touches no
    other connection. *)
Lemma plan_known c joined known g ls p id :
  NoDup ls.*1 →
  known_of c (pl_connections (fold_left (plan_list (Some c) joined known g) ls p)) !! id =
  match list_find (λ e : bytes * ListRequest, e.1 = id) ls with
  | Some (_, (_, list)) => if default false (filters list ≫= is_invite) then known_of c (pl_connections p) !! id
      else Some (known_after (window_rooms joined list) g (default ∅ (known_of c (pl_connections p) !! id)))
  | None => known_of c (pl_connections p) !! id
  end.
Proof.
  revert p. induction ls as [|[id' list] ls IH]; intros p Hd; [done|]. cbn in Hd. apply NoDup_cons in Hd as [Hid Hd].
  cbn [fold_left]. rewrite IH by done. clear IH. cbn [list_find fst].
  assert (∀ x, known_of c (pl_connections (plan_list (Some c) joined known g p (id', list))) !! x =
    if decide (x = id') then (if default false (filters list ≫= is_invite) then known_of c (pl_connections p) !! x
      else Some (known_after (window_rooms joined list) g (default ∅ (known_of c (pl_connections p) !! x)))) else known_of c (pl_connections p) !! x) as Hstep.
  { intros x. unfold plan_list. destruct (default false _); [by case_decide|]. cbn [pl_connections]. rewrite known_of_update, decide_True by done.
    rewrite lookup_insert. case_decide as E1; case_decide as E2; [by subst|congruence..|done]. }
  rewrite !Hstep. case_decide as E.
  - subst id'. rewrite decide_True by done. destruct (list_find _ ls) as [[i [x l]]|] eqn:Ef; [|done].
    apply list_find_Some in Ef as (Hi & Hx & _). cbn in Hx. subst x. destruct Hid. apply list_elem_of_fmap. exists (id, l). split; [done|]. by eapply list_elem_of_lookup_2.
  - rewrite decide_False by congruence. by destruct (list_find _ ls) as [[i [x l]]|].
Qed.

Lemma plan_others c c' joined known g ls p :
  c' ≠ c → pl_connections (fold_left (plan_list (Some c) joined known g) ls p) !! c' = pl_connections p !! c'.
Proof.
  intros Hc. revert p. induction ls as [|[id list] ls IH]; intros p; [done|]. cbn [fold_left]. rewrite IH. unfold plan_list.
  destruct (default false _); [done|]. cbn [pl_connections]. unfold update_sync_known_rooms. by rewrite lookup_insert_ne.
Qed.

Section connections.
Context {RU : Ruma} {LR : LruCache} {HO : HashOrder} {MO : MapOrder} {CT : Contents} {PC : ProfileContents}.
Context {JP : Json PduEvent} {JV : Json Value} {JM : Json Tree} {JR : Json RedactionContent}.

Lemma on_state_connections {A} (m : M SyncState A) s r s' : on_state m s = (r, s') → connections s' = connections s.
Proof. unfold on_state. destruct (m (v5_state s)). by injection 1 as _ <-. Qed.

Lemma on_state_run {A} (m : M SyncState A) s a s' : on_state m s = (Ok a, s') → m (v5_state s) = (Ok a, v5_state s').
Proof. unfold on_state. destruct (m (v5_state s)) as [r s1]. by injection 1 as -> <-. Qed.

Lemma on_db_run {A} (m : M Db A) s a s' : on_state (sdb m) s = (Ok a, s') → m (sy_db (v5_state s)) = (Ok a, sy_db (v5_state s')).
Proof. intros H. by apply on_state_run, sdb_run in H. Qed.

Lemma on_connections_run {A} (f : Connections → A * Connections) s a s' :
  on_connections f s = (Ok a, s') → f (connections s) = (a, connections s') ∧ v5_state s' = v5_state s.
Proof. unfold on_connections. destruct (f (connections s)) as [x cs]. by injection 1 as <- <-. Qed.

Lemma joined_count u d c d' : next_count d = (Ok c, d') → rooms_joined u d' = rooms_joined u d.
Proof. intros H. assert (keeps_field (rooms_joined u) next_count) as Hk by (unfold next_count; keeps). specialize (Hk d). by rewrite H in Hk. Qed.

(** The connection as the request finds it: a first request forgets it. *)
Definition found (g : Z) (c : Connection) (cs : Connections) : SlidingSyncCache := if g =? 0 then new_cache else default new_cache (cs !! c).

Lemma forgotten g c cs : default new_cache ((if g =? 0 then forget_sync_request_connection c cs else cs) !! c) = found g c cs.
Proof. unfold found, forget_sync_request_connection. destruct (g =? 0); [by rewrite lookup_delete_eq|done]. Qed.

(** The sticky parameters leave the positions. *)
Lemma request_with_cache u dv body conn cs known body' cs' :
  conn_id body = Some conn → NoDup (lists body).*1 → update_sync_request_with_cache u dv body cs = (known, body', cs') →
  let c := (u, dv, conn) in
  conn_id body' = Some conn ∧ lists body' = merged (cached_lists (default new_cache (cs !! c))) <$> lists body ∧
  known_of c cs' = known_of c cs ∧ is_Some (cs' !! c) ∧ ∀ c', c' ≠ c → cs' !! c' = cs !! c'.
Proof.
  intros Hc Hd H c. unfold update_sync_request_with_cache in H. rewrite Hc in H. cbv zeta in H. fold c in H.
  pose proof (merged_lists (lists body) [] (cached_lists (default new_cache (cs !! c))) Hd) as Hm. cbv zeta in Hm.
  destruct (fold_left _ _ _) as [ls cl] eqn:E in H. rewrite E in Hm. cbn [fst app] in Hm. injection H as <- <- <-. cbn [conn_id lists].
  split; [done|]. split; [done|]. split; [unfold known_of; by rewrite lookup_insert_eq|]. split; [rewrite lookup_insert_eq; eauto|].
  intros c' Hc'. by rewrite lookup_insert_ne.
Qed.

Lemma known_of_subscriptions c subs cs : known_of c (update_sync_subscriptions c subs cs) = known_of c cs.
Proof. unfold known_of, update_sync_subscriptions. by rewrite lookup_insert_eq. Qed.

Lemma find_entry ls id (list : ListRequest) :
  NoDup ls.*1 → (id, list) ∈ ls → ∃ i, list_find (λ e : bytes * ListRequest, e.1 = id) ls = Some (i, (id, list)).
Proof.
  intros Hd [i Hi]%list_elem_of_lookup_1. exists i. apply list_find_Some. split; [done|]. split; [done|].
  intros j [x l] Hj Hlt. cbn. intros ->. assert (i = j) as ->; [|lia]. apply (NoDup_lookup ls.*1 i j id Hd); by rewrite list_lookup_fmap, ?Hi, ?Hj.
Qed.

(** What the route does to the connections. *)
Lemma route_connections kij alg u dv body conn s rs hang s' :
  conn_id body = Some conn → NoDup (lists body).*1 →
  sync_events_v5_route kij alg u dv body s = (Ok (rs, hang), s') →
  let c := (u, dv, conn) in
  let g := since_of (pos body) in
  let start := if g =? 0 then forget_sync_request_connection c (connections s) else connections s in
  ∃ known cs ls subs subscribed, ls = merged (cached_lists (found g c (connections s))) <$> lists body ∧
    known_of c cs = known_of c start ∧ is_Some (cs !! c) ∧ (∀ c', c' ≠ c → cs !! c' = connections s !! c') ∧
    connections s' = update_sync_subscriptions c subs (update_sync_known_rooms c SUBSCRIPTIONS subscribed g
      (pl_connections (fold_left (plan_list (Some c) (oks (rooms_joined u (sy_db (v5_state s)))) known g) ls (mkPlan ∅ ∅ cs)))).
Proof.
  intros Hconn Hd H c g start. unfold sync_events_v5_route in H. fold g in H. rewrite Hconn in H. fold c in H. fold c in H.
  apply bind_inv in H as (n & s1 & Hn & H). pose proof (on_state_connections _ _ _ _ Hn) as C1.
  apply on_db_run, (joined_count u) in Hn.
  apply bind_inv in H as ([] & s2 & H2 & H).
  assert (connections s2 = start ∧ v5_state s2 = v5_state s1) as [C2 S2].
  { unfold start. destruct (g =? 0); [|injection H2 as <-; by rewrite C1]. apply on_connections_run in H2 as [H2 ?]. rewrite C1 in H2. by injection H2 as <-. }
  apply bind_inv in H as ([known body'] & s3 & H3 & H). apply on_connections_run in H3 as [H3 S3]. rewrite C2 in H3.
  destruct (update_sync_request_with_cache u dv body start) as [[known' body''] cs] eqn:Eu. injection H3 as -> -> E3.
  destruct (request_with_cache u dv body conn start known body' cs Hconn Hd Eu) as (Hc' & Hls & Hk & Hsome & Ho). fold c in Hls, Hk, Hsome, Ho.
  apply bind_inv in H as (joined & s4 & H4 & H). pose proof (on_state_connections _ _ _ _ H4) as C4. apply on_db_run in H4.
  injection H4 as H4 _. rewrite S3, S2, Hn in H4. subst joined. cbv zeta in H.
  apply bind_inv in H as ([] & s5 & H5 & H). apply on_state_connections in H5.
  apply bind_inv in H as (left & s6 & H6 & H). apply on_state_connections in H6. rewrite Hc' in H. cbn [fmap option_fmap option_map] in H. fold c in H.
  apply bind_inv in H as (p & s7 & H7 & H). apply on_connections_run in H7 as [H7 _]. injection H7 as Hp C7.
  apply bind_inv in H as ([todo subscribed] & s8 & H8 & H). apply on_state_connections in H8.
  apply bind_inv in H as ([] & s9 & H9 & H). apply on_connections_run in H9 as [H9 _]. injection H9 as C9.
  assert (connections s' = connections s9) as Hs'.
  { clear -H. repeat (apply bind_inv in H as (? & ? & ?%on_state_connections & H)). injection H as _ _ <-. congruence. }
  exists known, cs, (lists body'), (room_subscriptions body'), subscribed. split; [by rewrite Hls; unfold start; rewrite forgotten|].
  split; [done|]. split; [done|]. split.
  { intros c' Hc. rewrite Ho by done. unfold start, forget_sync_request_connection. destruct (g =? 0); [by rewrite lookup_delete_ne|done]. }
  rewrite Hs', <-C9, H8, <-C7, H6, H5, C4, <-E3. done.
Qed.

(** C30: sliding sync records exactly what the client was shown: when a request
    on a connection is answered, every room in a window of one of its lists is
    known up to the position of the request, every other room the list knew is
    reset to unknown (it is sent from its start when it comes back), a list that
    only asks for invites, and a list the request does not name, keep their
    positions, and no other connection changes. *)
Theorem known_rooms_exact kij alg u dv body conn s rs hang s' :
  conn_id body = Some conn → NoDup (lists body).*1 →
  sync_events_v5_route kij alg u dv body s = (Ok (rs, hang), s') →
  let c := (u, dv, conn) in
  let g := since_of (pos body) in
  let before := found g c (connections s) in
  let joined := oks (rooms_joined u (sy_db (v5_state s))) in
  (∃ after, connections s' !! c = Some after ∧
    (∀ id list room, (id, list) ∈ lists body → id ≠ SUBSCRIPTIONS →
      position after id room =
        if passed_over before id list then position before id room
        else if decide (shown joined list room) then Some g
        else (λ _, 0) <$> position before id room) ∧
    (∀ id room, id ∉ (lists body).*1 → id ≠ SUBSCRIPTIONS → position after id room = position before id room)) ∧
  (∀ c', c' ≠ c → connections s' !! c' = connections s !! c').
Proof.
  intros Hconn Hd H c g before joined. destruct (route_connections _ _ _ _ _ _ _ _ _ _ Hconn Hd H) as (known & cs & ls & subs & subscribed & Hls & Hk & Hsome & Ho & Hs').
  fold c g in Hls, Hk, Hsome, Ho, Hs'. fold before in Hls. fold joined in Hs'.
  set (planned := pl_connections (fold_left (plan_list (Some c) joined known g) ls (mkPlan ∅ ∅ cs))) in Hs'.
  assert (ls.*1 = (lists body).*1) as Hids by (rewrite Hls, <-list_fmap_compose; by apply list_fmap_ext).
  assert (∀ id, id ≠ SUBSCRIPTIONS → known_of c (connections s') !! id = known_of c planned !! id) as Hp.
  { intros id Hid. rewrite Hs', known_of_subscriptions, known_of_update, decide_True by done. by rewrite lookup_insert_ne. }
  assert (known_of c cs = known_rooms before) as Hb by (rewrite Hk; unfold known_of; by rewrite forgotten).
  split.
  2: { intros c' Hc'. rewrite Hs'. unfold update_sync_subscriptions, update_sync_known_rooms. rewrite !lookup_insert_ne by done.
       unfold planned. rewrite plan_others by done. by apply Ho. }
  assert (is_Some (connections s' !! c)) as [after Hafter] by (rewrite Hs'; unfold update_sync_subscriptions; rewrite lookup_insert_eq; eauto).
  exists after. split; [done|].
  assert (∀ id room, id ≠ SUBSCRIPTIONS → position after id room = known_of c planned !! id ≫= (.!! room)) as Hpos.
  { intros id room Hid. rewrite <-Hp by done. unfold position, known_of. by rewrite Hafter. }
  split.
  - intros id list room Hin Hid. rewrite Hpos by done. unfold planned. rewrite plan_known by (by rewrite Hids). cbn [pl_connections]. rewrite Hb.
    destruct (find_entry ls id (merged (cached_lists before) (id, list)).2) as [i ->].
    + by rewrite Hids.
    + rewrite Hls. apply list_elem_of_fmap. by exists (id, list).
    + unfold passed_over. cbn [merged fst snd]. destruct (default false _); [done|]. cbn [mbind option_bind]. rewrite known_after_lookup.
      assert (default ∅ (known_rooms before !! id) !! room = position before id room) as ->.
      { unfold position. destruct (known_rooms before !! id); [done|apply lookup_empty]. }
      apply decide_ext. rewrite window_rooms_shown. unfold shown. by destruct (cached_lists before !! id).
  - intros id room Hin Hid. rewrite Hpos by done. unfold planned. rewrite plan_known by (by rewrite Hids). cbn [pl_connections]. rewrite Hb.
    destruct (list_find _ ls) as [[i [x l]]|] eqn:Ef; [|done]. apply list_find_Some in Ef as (Hi & Hx & _). cbn in Hx. subst x. destruct Hin. rewrite <-Hids.
    apply list_elem_of_fmap. exists (id, l). split; [done|]. by eapply list_elem_of_lookup_2.
Qed.
End connections.

(** * Subscriptions *)

Section subscriptions.
Context {RU : Ruma} {LR : LruCache} {HO : HashOrder} {MO : MapOrder} {CT : Contents} {PC : ProfileContents}.
Context {JP : Json PduEvent} {JV : Json Value} {JM : Json Tree} {JR : Json RedactionContent}.

(** A request for one room and nothing else. *)
Definition subscribe (room : bytes) (limit : Z) : V5Request := mkV5Request None None None None [] {[room := mkRoomSubscription [] limit]} no_extensions.

Lemma v5_room_timeline u room todo d r d' :
  v5_room u room todo d = (Ok (Some r), d') →
  ∃ pdus limited, (load_timeline u room (Normal (td_roomsince todo)) (Z.to_nat (td_limit todo)) d).1 = Ok (pdus, limited) ∧
    collect ((λ e, to_sync_room_event e.2) <$> pdus) = Ok (v5_timeline r).
Proof.
  unfold v5_room. intros H. apply bind_inv in H as ([pdus limited] & d1 & Hl & H). exists pdus, limited. rewrite Hl. split; [done|].
  destruct (_ && _); [done|]. cbv zeta in H. apply bind_inv in H as (evs & d2 & He & H).
  repeat (apply bind_inv in H as (? & ? & _ & H)). injection H as <- _. by injection He as He _.
Qed.

(** A room that is asked for from the start is always answered. *)
Lemma v5_room_initial u room todo d o d' : td_roomsince todo = 0 → v5_room u room todo d = (Ok o, d') → is_Some o.
Proof.
  unfold v5_room. intros -> H. apply bind_inv in H as ([pdus limited] & d1 & _ & H). cbn [andb bool_decide] in H.
  rewrite bool_decide_eq_false_2 in H by tauto. cbn [andb] in H. cbv zeta in H.
  repeat (apply bind_inv in H as (? & ? & _ & H)). injection H as <- _. eauto.
Qed.

Lemma map_iter_singleton {V} (k : bytes) (v : V) : map_iter {[k := v]} = [(k, v)].
Proof. apply Permutation_singleton_r. rewrite map_iter_perm. by rewrite map_to_list_singleton. Qed.

(** What the timeline of a room is read from. *)
Definition room_parts (d : Db) := (kv d pduid_pdu, kv d roomid_shortroomid, lasttimelinecount_cache d).

Lemma room_parts_count d c d' : next_count d = (Ok c, d') → room_parts d' = room_parts d.
Proof. intros H. assert (keeps_field room_parts next_count) as Hk by (unfold next_count; keeps). specialize (Hk d). by rewrite H in Hk. Qed.

(** A subscription to one room that exists. *)
Lemma plan_one room sub d todo subscribed d' :
  room_exists room d = (Ok true, d) → plan_subscriptions ∅ {[room := sub]} ∅ d = (Ok (todo, subscribed), d') →
  todo = {[room := mkTodoRoom (list_to_set (sub_required_state sub)) (Z.max 0 (Z.min (sub_timeline_limit sub) 100)) 0]} ∧ d' = d.
Proof.
  intros Hex H. unfold plan_subscriptions in H. rewrite map_iter_singleton in H. cbn [foldM] in H.
  rewrite bind_assoc, (bind_ok _ _ _ _ _ Hex) in H. cbn [negb] in H. injection H as <- _ <-. split; [|done].
  unfold widen_todo. rewrite lookup_empty. cbn. unfold known_since. rewrite lookup_empty. cbn. rewrite insert_empty. do 2 f_equal. set_solver.
Qed.

(** A sliding-sync subscription shows any room to any user: whoever asks,
    member or not, the answer holds the newest events of the room, up to the
    limit asked for and at most 100. *)
Theorem subscription_ignores_membership kij alg u dv room limit s rs hang s' sr :
  let d := sy_db (v5_state s) in
  TimelineInv d → get_shortroomid room d = (Ok (Some sr), d) → is_u64 sr → sr ≠ 0 → last_count_ok d room sr →
  room_exists room d = (Ok true, d) →
  sync_events_v5_route kij alg u dv (subscribe room limit) s = (Ok (rs, hang), s') →
  ∃ r, v5_rooms rs !! room = Some r ∧
    collect ((λ e, to_sync_room_event e.2) <$> (newest (Z.to_nat (Z.max 0 (Z.min limit 100))) (events_since d sr u (Normal 0))).1) = Ok (v5_timeline r).
Proof.
  intros d HI Hsr Hs Hne Hlast Hex H. unfold sync_events_v5_route in H. cbn [subscribe conn_id pos] in H.
  apply bind_inv in H as (n & s1 & Hn & H). apply on_db_run in Hn. apply room_parts_count in Hn.
  set (d1 := sy_db (v5_state s1)) in *. injection Hn as Hpdu Hshort Hcache. fold d in Hpdu, Hshort, Hcache.
  rewrite (bind_ok _ _ _ tt s1) in H by done.
  apply bind_inv in H as ([known body] & s2 & Hb & H). cbn in Hb. injection Hb as <- <- <-.
  apply bind_inv in H as (joined & s3 & Hj & H). apply on_db_run in Hj. injection Hj as _ Hj.
  assert (sy_db (v5_state s3) = d1) as E3 by (symmetry; exact Hj). clear Hj.
  cbn [extensions no_extensions to_device_enabled e2ee_enabled default] in H.
  apply bind_inv in H as ([] & s4 & H4 & H). injection H4 as <-. apply bind_inv in H as (left & s5 & H5 & H). injection H5 as <- <-.
  apply bind_inv in H as (p & s6 & H6 & H). cbn in H6. injection H6 as <- <-.
  apply bind_inv in H as ([todo subscribed] & s7 & H7 & H). apply on_db_run in H7. change (plan_subscriptions ∅ {[room := mkRoomSubscription [] limit]} ∅ (sy_db (v5_state s3)) = (Ok (todo, subscribed), sy_db (v5_state s7))) in H7.
  rewrite E3 in H7. apply plan_one in H7 as [-> E7].
  2: { revert Hex. unfold room_exists. unfold get_shortroomid, get in *. unfold kv_get in *. revert Hsr. run. rewrite Hshort.
       destruct (kv d roomid_shortroomid !! room) as [bs|]; [|done]. cbn. destruct (u64_from_bytes bs); [|done]. cbn. rewrite Hpdu.
       intros _ Hx. by injection Hx as ->. }
  apply bind_inv in H as ([] & s8 & H8 & H). injection H8 as <-.
  apply bind_inv in H as (rooms & s9 & H9 & H). apply on_db_run in H9. cbn [v5_state] in H9. rewrite E7 in H9.
  assert (v5_rooms rs = rooms) as ->.
  { clear H9. repeat (apply bind_inv in H as (? & ? & _ & H)). by injection H as <- _ _. }
  clear H. unfold v5_rooms_of in H9. rewrite map_iter_singleton in H9. cbn [foldM] in H9. rewrite bind_assoc in H9.
  apply bind_inv in H9 as (o & d2 & Hr & H9). destruct (v5_room_initial u room _ d1 o d2 (eq_refl : td_roomsince (mkTodoRoom _ _ 0) = 0) Hr) as [r ->]. injection H9 as <- _.
  exists r. split; [apply lookup_insert_eq|]. apply v5_room_timeline in Hr as (pdus & limited & Hl & Hc). cbn [td_roomsince td_limit sub_timeline_limit] in Hl.
  assert (events_since d1 sr u (Normal 0) = events_since d sr u (Normal 0)) as Ee by (unfold events_since, room_entries; by rewrite Hpdu).
  rewrite (load_timeline_spec d1 u room sr) in Hl; [|..|done|done|].
  - rewrite Ee in Hl. apply (f_equal (λ r, match r with Ok x => x.1 | _ => [] end)) in Hl. cbv beta iota in Hl. rewrite Hl. exact Hc.
  - intros k v. rewrite Hpdu. apply HI.
  - revert Hsr. unfold get_shortroomid, get. run. unfold kv_get. rewrite Hshort. intros Hx. by injection Hx as ->.
  - intros c k v c'. rewrite Hpdu, Hcache. apply Hlast.
Qed.
End subscriptions.

(** * Witnesses *)

#[local] Existing Instance sample_ruma.
#[local] Existing Instance lru_unbounded.
#[local] Existing Instance elements_order.
#[local] Existing Instance sample_contents.
#[local] Instance v5_map_order : MapOrder := {| map_iter := λ K V _ _ m, map_to_list m; map_iter_perm := λ K V _ _ m, reflexivity _ |}.
#[local] Instance v5_pdu_json : Json PduEvent := json_countable PduEvent.
#[local] Instance v5_tree_json : Json Tree := json_countable Tree.
(** Every text is a value, so that a text of another codec is one. *)
#[local] Program Instance v5_value_json : Json Value := {|
  to_vec := to_vec (Json := json_countable Value); from_slice := λ bs, Some (default VNull (from_slice (Json := json_countable Value) bs)) |}.
Next Obligation. intros v. cbn. by rewrite decode_encode. Qed.
#[local] Instance v5_redaction_json : Json RedactionContent := json_countable RedactionContent.
#[local] Instance no_profiles : ProfileContents := {| member_profile_of := λ _, None; room_avatar_of := λ _, None |}.

(** A room with a message, and a user of no room. *)
Definition outsider_event : PduEvent :=
  mkPdu (lit "$e1") (Some (lit "!r")) (lit "@a:b") 1 (lit "m.room.message") (to_vec VNull) None [] 1 [] None None [] None.

Definition private_room : Db := upd pduid_pdu (λ _, {[pdu_id 1 (Normal 3) := to_vec outsider_event]}) one_room.

Lemma private_room_timeline : TimelineInv private_room.
Proof. intros k v. unfold private_room. kv_simpl. intros [<- _]%lookup_singleton_Some. exists 1, (Normal 3). by repeat split. Qed.

Definition outsider : V5State := mkV5State (mkSync (mkTyping ∅ ∅ [] private_room) ∅ ∅ ∅) ∅.

Definition peeked : res (V5Response * option Z) * V5State := sync_events_v5_route (λ _, None) (λ _, []) (lit "@x:b") (lit "E") (subscribe (lit "!r") 10) outsider.

Lemma subscription_ignores_membership_witness :
  match peeked with
  | (Ok (rs, _), _) => rooms_joined (lit "@x:b") private_room = [] ∧ ∃ r, v5_rooms rs !! lit "!r" = Some r ∧
      collect ((λ e, to_sync_room_event e.2) <$> (newest 10 (events_since private_room 1 (lit "@x:b") (Normal 0))).1) = Ok (v5_timeline r)
  | _ => False
  end ∧ length (newest 10 (events_since private_room 1 (lit "@x:b") (Normal 0))).1 = 1%nat.
Proof.
  split; [|by vm_compute]. assert (is_ok peeked.1 = true) as Hok by (by vm_compute).
  destruct peeked as [[[rs hang]| |] s'] eqn:E; [|done..]. clear Hok. split; [by vm_compute|].
  refine (subscription_ignores_membership _ _ (lit "@x:b") (lit "E") (lit "!r") 10 outsider rs hang s' 1 _ _ _ _ _ _ E).
  - exact private_room_timeline.
  - apply injective_projections; [vm_compute; reflexivity|reflexivity].
  - by split.
  - done.
  - intros c k v c' Hc. by vm_compute in Hc.
  - apply injective_projections; [vm_compute; reflexivity|reflexivity].
Defined.

(** A member of the room, on a connection whose list knows another room. *)
Definition member_room : Db := upd userroomid_joined (λ _, {[lit "@a:b" ++ ff :: lit "!r" := []]}) private_room.

Definition known_connection : Connections := {[(lit "@a:b", lit "D", lit "c") := mkSlidingSyncCache ∅ ∅ {[lit "l" := {[lit "!s" := 5]}]} no_extensions]}.

Definition member_state : V5State := mkV5State (mkSync (mkTyping ∅ ∅ [] member_room) ∅ ∅ ∅) known_connection.

(** A window that now shows the room. *)
Definition window_request : V5Request := mkV5Request (Some (lit "7")) (Some (lit "c")) None None [(lit "l", mkListRequest [(0, 20)] [] 10 None)] ∅ no_extensions.

Definition windowed (s : V5State) : res (V5Response * option Z) * V5State :=
  sync_events_v5_route (λ _, None) (λ _, []) (lit "@a:b") (lit "D") window_request s.

Lemma known_rooms_exact_witness :
  is_ok (windowed member_state).1 = true ∧
  ∃ after, connections (windowed member_state).2 !! (lit "@a:b", lit "D", lit "c") = Some after ∧
    position after (lit "l") (lit "!r") = Some 7 ∧ position after (lit "l") (lit "!s") = Some 0.
Proof.
  assert (is_ok (windowed member_state).1 = true) as Hok by (by vm_compute). split; [done|].
  destruct (windowed member_state) as [[[rs hang]| |] s'] eqn:E; [|done..]. clear Hok.
  destruct (known_rooms_exact _ _ _ _ window_request (lit "c") member_state rs hang s' eq_refl (NoDup_singleton _) E) as [(after & Ha & Hl & _) _].
  exists after. split; [exact Ha|]. split.
  - rewrite (Hl (lit "l") (mkListRequest [(0, 20)] [] 10 None) (lit "!r")); [by vm_compute|by left|by vm_compute].
  - rewrite (Hl (lit "l") (mkListRequest [(0, 20)] [] 10 None) (lit "!s")); [by vm_compute|by left|by vm_compute].
Defined.

(** What was sent is recorded before it is delivered: a request that is sent
    again from the same position, because its answer was lost, is not sent the
    room it would have been shown. *)
Example resent_request_loses_rooms :
  match windowed member_state with
  | (Ok (rs, _), s) =>
      is_Some (v5_rooms rs !! lit "!r") ∧
      match windowed s with (Ok (rs', _), _) => v5_rooms rs' !! lit "!r" = None | _ => False end
  | _ => False
  end.
Proof. vm_compute. split; [by eexists|done]. Qed.
