(* ===== verification/Rooms.v ===== *)
(** * Rooms: creating and upgrading rooms

    [server/src/api/client_server/room.rs] over the events this server makes
    ([LocalEvents]) and the membership helpers: creating a room with its first
    events, upgrading a room to another version, reading one event and the
    aliases of a room; and [is_admin] and [get_admin_room], which creation asks. *)
From S2P Require Import Prelude Bytes JsonValue KvTree Pdu Database Short StateCompressor RoomState Accounts StateCache.
From S2P Require Import Timeline PduJson UserKeys AuthChain Edus RoomTables Search Sending StateAccess MemberEvents Appservice TimelineService ServerKeys.
From S2P Require Import EventHandler EventHandlerInv EventFetch LocalEvents Membership MembershipInv.

(** ** Data *)

Inductive RoomPreset := PrivateChat | PublicChat | TrustedPrivateChat | PresetOther.

Inductive Visibility := VisPublic | VisPrivate | VisOther.

#[global] Instance RoomPreset_eq_dec : EqDecision RoomPreset.
Proof. solve_decision. Defined.

#[global] Instance Visibility_eq_dec : EqDecision Visibility.
Proof. solve_decision. Defined.

Record CreateRequest := mkCreateRequest {
  cr_room_alias_name : option bytes;
  cr_room_version : option bytes;
  cr_preset : option RoomPreset;
  cr_visibility : Visibility;
  cr_invite : list bytes;
  cr_creation_content : option bytes;
  cr_is_direct : bool;
  cr_power_level_content_override : option bytes;
  cr_initial_state : list bytes;
  cr_name : option bytes;
  cr_topic : option bytes;
}.

Record UpgradeRequest := mkUpgradeRequest {
  ur_room_id : bytes;
  ur_new_version : bytes;
  ur_additional_creators : list bytes;
}.

(** The power levels an upgrade changes in the old room, and the rest. *)
Record LevelsEvent := mkLevelsEvent { le_users_default : Z; le_events_default : Z; le_invite : Z; le_rest : bytes }.

(** Contents of events and the features of room versions (ruma). *)
Class RoomContents {RV : RoomVersions} := {
  explicitly_privilege_room_creators : AuthRules → bool;
  additional_room_creators : AuthRules → bool;
  use_room_create_sender : AuthRules → bool;
  (** [RoomCreateEventContent] with its version and creators, as an object *)
  create_content : AuthRules → bytes → bytes → list bytes → CanonicalJsonObject;
  additional_creators_of : bytes → option (list bytes);
  power_levels_content : AuthRules → gmap bytes Z → list (bytes * Value);
  levels_event_of : bytes → option LevelsEvent;
  levels_event_json : LevelsEvent → bytes;
  canonical_alias_json : bytes → bytes;
  join_rules_json : JoinRule → bytes;
  history_visibility_json : HistoryVisibility → bytes;
  (** whether guests can join *)
  guest_access_json : bool → bytes;
  name_json : bytes → bytes;
  topic_json : bytes → bytes;
  tombstone_json : bytes → bytes → bytes;
  builder_of : bytes → option PduBuilder;
  default_room_version : bytes;
  (** [RoomVersionId::from_str] *)
  room_version_ok : bytes → bool;
}.

Section rooms.
Context {RU : Ruma} {LR : LruCache} {HO : HashOrder} {MO : MapOrder} {CT : Contents} {RV : RoomVersions} {EB : EventBodies} {EC : EventChecks}.
Context {SG : Signing} {AP : Appender} {FE : Federation} {KJ : KeyJson} {KS : KeyServers} {TW : TimelineWriter} {MC : MemberContents} {MR : MemberRemote}.
Context {RX : Regex} {RC : RoomContents}.
Context `{JP : !Json PduEvent} `{JV : !Json Value} `{JL : !Json (list Value)} `{JM : !Json Tree} `{JF : !Json CanonicalJsonObject} `{JR : !Json RedactionContent}.
Context (sha256 : bytes → bytes) (server_name server_user admin_alias : bytes) (own_version own_public_key : bytes).
Context (auth_types_for_event : bytes → bytes → option bytes → bytes → AuthRules → option (list (bytes * bytes))).
Context (stripped_types : list bytes) (appservices : list RegistrationInfo) (allow_room_creation allow_encryption : bool).
Notation build := (build_and_append_pdu server_name server_user admin_alias auth_types_for_event).

(** ** Admins *)

Definition get_admin_room : M Db (option bytes) := resolve_local_alias admin_alias.

Definition is_admin (user_id : bytes) : M Db bool :=
  o ← get_admin_room;
  match o with Some admin_room_id => is_joined user_id admin_room_id | None => mret false end.

(** ** Creating a room *)

(** Room creation may be disabled, except for appservices and admins. *)
Definition may_create (sender_user : bytes) (appservice_info : option RegistrationInfo) : M Db unit :=
  if allow_room_creation then mret tt else
  match appservice_info with
  | Some _ => mret tt
  | None => admin ← is_admin sender_user; if (admin : bool) then mret tt else fail (BadRequest Forbidden "Room creation has been disabled.")
  end.

(** The alias of the new room: free, and in the namespace of the appservice that
    asks, or in no appservice's. *)
Definition new_alias (appservice_info : option RegistrationInfo) (room_alias_name : option bytes) : M Db (option bytes) :=
  match room_alias_name with
  | None => mret None
  | Some localpart =>
      let alias := lit "#" ++ localpart ++ lit ":" ++ server_name in
      if negb (room_alias_id_ok alias) then fail (BadRequest InvalidParam "Invalid alias.") else
      o ← resolve_local_alias alias;
      match o with
      | Some _ => fail (BadRequest RoomInUse "Room alias already exists.")
      | None =>
          match appservice_info with
          | Some info => if is_match (aliases info) alias then mret (Some alias) else fail (BadRequest Exclusive "Room alias is not in namespace.")
          | None =>
              if existsb (λ info, is_exclusive_match (aliases info) alias) appservices
              then fail (BadRequest Exclusive "Room alias reserved by appservice.") else mret (Some alias)
          end
      end
  end.

Definition new_version (room_version : option bytes) : res bytes :=
  match room_version with
  | Some v => if bool_decide (v ∈ supported_room_versions) then Ok v else Err (BadRequest UnsupportedRoomVersion "This server does not support that room version.")
  | None => Ok default_room_version
  end.

Definition preset_of (body : CreateRequest) : RoomPreset :=
  default (match cr_visibility body with VisPublic => PublicChat | _ => PrivateChat end) (cr_preset body).

(** The users with a power level, and the additional creators. *)
Definition first_users (rules : AuthRules) (preset : RoomPreset) (sender_user : bytes) (invite : list bytes) : gmap bytes Z * gset bytes :=
  let users := if explicitly_privilege_room_creators rules then ∅ else {[sender_user := 100]} in
  if bool_decide (preset = TrustedPrivateChat) then
    if additional_room_creators rules then (users, list_to_set invite)
    else (fold_left (λ us u, <[u := 100]> us) invite users, ∅)
  else (users, ∅).

(** The content of the create event; content the client sent that is not
    canonical JSON is a panic. *)
Definition creation_content (rules : AuthRules) (sender_user room_version : bytes) (additional_creators : gset bytes) (raw : option bytes) : res CanonicalJsonObject :=
  match raw with
  | Some raw_content =>
      content ← expect (from_slice raw_content : option CanonicalJsonObject);
      let content := if use_room_create_sender rules then content else set_json_field (lit "creator") (VString sender_user) content in
      let content := if additional_room_creators rules && bool_decide (additional_creators ≠ ∅) then
          let creators := additional_creators ∪ list_to_set (default [] (additional_creators_of raw_content)) in
          set_json_field (lit "additional_creators") (VArray (VString <$> hash_iter creators)) content
        else content in
      Ok (set_json_field (lit "room_version") (VString room_version) content)
  | None => Ok (create_content rules room_version sender_user (hash_iter additional_creators))
  end.

(** A state event with the empty state key. *)
Definition state_builder (event_type content : bytes) : PduBuilder := mkBuilder event_type content None (Some []) None None.

(** The content of the first power levels. *)
Definition first_power_levels (rules : AuthRules) (users : gmap bytes Z) (override : option bytes) : res bytes :=
  match override with
  | None => Ok (to_vec (VObject (power_levels_content rules users)))
  | Some text =>
      match from_slice text with
      | Some (VObject json) => Ok (to_vec (VObject (fold_left (λ c '(key, value), set_json_field key value c) json (power_levels_content rules users))))
      | _ => Err (BadRequest BadJson "Invalid power_level_content_override.")
      end
  end.

(** The events of the new room after its create event. *)
Definition first_events (now : Z) (sender_user room_id : bytes) (rules : AuthRules) (users : gmap bytes Z) (preset : RoomPreset) (alias : option bytes)
    (body : CreateRequest) : M Server unit :=
  (* 2. Let the room creator join *)
  member ← db_ (profile_content sender_user Join (Some (cr_is_direct body)) None None);
  build now (member_builder sender_user member) sender_user room_id;;
  (* 3. Power levels *)
  levels ← lift (first_power_levels rules users (cr_power_level_content_override body));
  build now (state_builder (lit "m.room.power_levels") levels) sender_user room_id;;
  (* 4. Canonical room alias *)
  match alias with
  | Some alias => build now (state_builder (lit "m.room.canonical_alias") (canonical_alias_json alias)) sender_user room_id;; mret tt
  | None => mret tt
  end;;
  (* 5. Events set by preset *)
  build now (state_builder (lit "m.room.join_rules") (join_rules_json (if bool_decide (preset = PublicChat) then JPublic else JInvite))) sender_user room_id;;
  build now (state_builder (lit "m.room.history_visibility") (history_visibility_json HShared)) sender_user room_id;;
  build now (state_builder (lit "m.room.guest_access") (guest_access_json (bool_decide (preset ≠ PublicChat)))) sender_user room_id;;
  (* 6. Events listed in initial_state *)
  for_each (cr_initial_state body) (λ event,
    b ← lift (ok_or (builder_of event) (BadRequest InvalidParam "Invalid initial state event."));
    let b := mkBuilder (b_event_type b) (b_content b) (b_unsigned b) (Some (default [] (b_state_key b))) (b_redacts b) (b_timestamp b) in
    (* Silently skip encryption events if they are not allowed *)
    if bool_decide (b_event_type b = lit "m.room.encryption") && negb allow_encryption then mret tt
    else build now b sender_user room_id;; mret tt);;
  (* 7. Events implied by name and topic *)
  match cr_name body with Some name => build now (state_builder (lit "m.room.name") (name_json name)) sender_user room_id;; mret tt | None => mret tt end;;
  match cr_topic body with Some topic => build now (state_builder (lit "m.room.topic") (topic_json topic)) sender_user room_id;; mret tt | None => mret tt end.

Definition create_room_route (rounds fuel : nat) (now : Z) (fresh_room_id sender_user : bytes) (appservice_info : option RegistrationInfo) (body : CreateRequest)
    : M Handler bytes :=
  hdb (may_create sender_user appservice_info);;
  alias ← hdb (new_alias appservice_info (cr_room_alias_name body));
  room_version ← lift (new_version (cr_room_version body));
  rules ← lift (expect (authorization_rules room_version));
  let preset := preset_of body in
  let '(users, additional_creators) := first_users rules preset sender_user (cr_invite body) in
  content ← lift (creation_content rules sender_user room_version additional_creators (cr_creation_content body));
  (* 1. The room create event *)
  room_id ← hs (send_create_room server_name auth_types_for_event now fresh_room_id (to_vec content) sender_user rules);
  hs (first_events now sender_user room_id rules users preset alias body);;
  (* 8. Events implied by invite *)
  for_each (cr_invite body) (λ user_id,
    try_ok (invite_helper sha256 server_name server_user admin_alias own_version own_public_key auth_types_for_event stripped_types rounds fuel now sender_user user_id room_id None
      (cr_is_direct body));; mret tt);;
  (* Homeserver specific stuff *)
  match alias with Some alias => hdb (set_alias admin_alias server_user alias room_id sender_user) | None => mret tt end;;
  (if bool_decide (cr_visibility body = VisPublic) then hdb (set_public room_id) else mret tt);;
  mret room_id.

(** ** Reading *)

Definition get_room_event_route (sender_user event_id : bytes) : M Access Value :=
  o ← acc (get_pdu event_id);
  event ← lift (ok_or o (BadRequest NotFound "Event not found."));
  room ← lift (Database.room_id event);
  can ← user_can_see_event sender_user room event_id;
  if negb can then fail (BadRequest Forbidden "You don't have permission to view this event.") else
  event ← lift (add_age event);
  lift (to_room_event event).

Definition get_room_aliases_route (sender_user room_id : bytes) : M Db (list bytes) :=
  joined ← is_joined sender_user room_id;
  if negb joined then fail (BadRequest Forbidden "You don't have permission to view this room.") else
  gets (λ d, Ok (oks (local_aliases_for_room room_id d))).

(** ** Upgrading a room *)

(** The rules of the old room's version. *)
Definition old_rules_of (content : CanonicalJsonObject) : res AuthRules :=
  match field (lit "room_version") content with
  | Some (VString old_version) =>
      if room_version_ok old_version then expect (authorization_rules old_version) else Err (BadDatabase "Create event must be a valid room version ID")
  | _ => Err (BadDatabase "Room create event does not have content")
  end.

(** The create event of the replacement: the old one's content with the new
    version, its creator and a predecessor. *)
Definition replacement_content (rules : AuthRules) (sender_user : bytes) (body : UpgradeRequest) (content : CanonicalJsonObject) : CanonicalJsonObject :=
  let content := if use_room_create_sender rules then remove_json_field (lit "creator") content else set_json_field (lit "creator") (VString sender_user) content in
  let content := if additional_room_creators rules && bool_decide (ur_additional_creators body ≠ [])
    then set_json_field (lit "additional_creators") (VArray (VString <$> ur_additional_creators body)) content else content in
  let content := set_json_field (lit "room_version") (VString (ur_new_version body)) content in
  set_json_field (lit "predecessor") (VObject [(lit "room_id", VString (ur_room_id body))]) content.

Definition transferable_state_events : list bytes :=
  lit <$> ["m.room.server_acl"; "m.room.encryption"; "m.room.name"; "m.room.avatar"; "m.room.topic"; "m.room.guest_access"; "m.room.history_visibility";
           "m.room.join_rules"; "m.room.power_levels"]%string.

(** [Int::MAX]. *)
Definition INT_MAX : Z := 9007199254740991.

(** The users of the transferred power levels: creators that the new version
    privileges are left out, creators that only the old one privileged are
    listed. *)
Definition transferred_users (rules old_rules : AuthRules) (sender_user old_creator : bytes) (additional : list bytes) (create_content : CanonicalJsonObject)
    (users : list (bytes * Value)) : list (bytes * Value) :=
  if explicitly_privilege_room_creators rules then
    let users := remove_json_field sender_user users in
    if additional_room_creators rules then fold_left (λ us u, remove_json_field u us) additional users else users
  else if explicitly_privilege_room_creators old_rules then
    let users := set_json_field old_creator (VNumber INT_MAX) users in
    if additional_room_creators old_rules then
      match field (lit "additional_creators") create_content with
      | Some (VArray creators) => fold_left (λ us c, match c with VString c => set_json_field c (VNumber INT_MAX) us | _ => us end) creators users
      | _ => users
      end
    else users
  else users.

Definition transferred_levels (rules old_rules : AuthRules) (sender_user old_creator : bytes) (additional : list bytes) (create_content content : CanonicalJsonObject)
    : CanonicalJsonObject :=
  match default (VObject []) (field (lit "users") content) with
  | VObject users =>
      let users' := transferred_users rules old_rules sender_user old_creator additional create_content users in
      if bool_decide (users' = []) && bool_decide (field (lit "users") content = None) then remove_json_field (lit "users") content
      else set_json_field (lit "users") (VObject users') content
  | _ => content
  end.

(** Replicate transferable state events to the new room. *)
Definition transfer_state (now : Z) (rules old_rules : AuthRules) (sender_user old_creator replacement_room : bytes) (body : UpgradeRequest)
    (create_content : CanonicalJsonObject) : M Server unit :=
  for_each transferable_state_events (λ event_type,
    o ← db_ (room_state_get (ur_room_id body) event_type []);
    match o with
    | None => mret tt
    | Some v =>
        content ← (if bool_decide (event_type = lit "m.room.power_levels") then
            levels ← lift (ok_or (from_slice (pdu_content v) : option CanonicalJsonObject) (BadDatabase "Invalid m.room.power_levels event content in room"));
            mret (to_vec (transferred_levels rules old_rules sender_user old_creator (ur_additional_creators body) create_content levels))
          else mret (pdu_content v));
        build now (state_builder event_type content) sender_user replacement_room;; mret tt
    end).

(** Setting events_default and invite to the greater of 50 and users_default + 1. *)
Definition silenced (e : LevelsEvent) : LevelsEvent :=
  let new_level := Z.max 50 (le_users_default e + 1) in mkLevelsEvent (le_users_default e) new_level new_level (le_rest e).

Definition upgrade_room_route (now : Z) (fresh_room_id sender_user : bytes) (body : UpgradeRequest) : M Server bytes :=
  (if bool_decide (ur_new_version body ∈ supported_room_versions) then mret tt
   else fail (BadRequest UnsupportedRoomVersion "This server does not support that room version."));;
  rules ← lift (expect (authorization_rules (ur_new_version body)));
  (* Get the old room creation event *)
  o ← db_ (room_state_get (ur_room_id body) (lit "m.room.create") []);
  create_event ← lift (ok_or o (BadDatabase "Found room without m.room.create event."));
  old_content ← lift (ok_or (from_slice (pdu_content create_event) : option CanonicalJsonObject) (BadDatabase "Invalid room event in database."));
  old_rules ← lift (old_rules_of old_content);
  let content := replacement_content rules sender_user body old_content in
  (* Create a replacement room *)
  replacement_room ← send_create_room server_name auth_types_for_event now fresh_room_id (to_vec content) sender_user rules;
  (* Fail if the sender does not have the required permissions *)
  build now (state_builder (lit "m.room.tombstone") (tombstone_json (lit "This room has been replaced") replacement_room)) sender_user (ur_room_id body);;
  (* Join the new room *)
  member ← db_ (profile_content sender_user Join None None None);
  build now (member_builder sender_user member) sender_user replacement_room;;
  transfer_state now rules old_rules sender_user (pdu_sender create_event) replacement_room body content;;
  (* Moves any local aliases to the new room *)
  aliases ← db_ (gets (λ d, Ok (oks (local_aliases_for_room (ur_room_id body) d))));
  for_each aliases (λ alias, db_ (set_alias admin_alias server_user alias replacement_room sender_user));;
  (* Get the old room power levels *)
  o ← db_ (room_state_get (ur_room_id body) (lit "m.room.power_levels") []);
  levels ← lift (ok_or o (BadDatabase "Found room without m.room.create event."));
  levels ← lift (ok_or (levels_event_of (pdu_content levels)) (BadDatabase "Invalid room event in database."));
  (* Modify the power levels in the old room to prevent sending of events and inviting new users *)
  build now (state_builder (lit "m.room.power_levels") (levels_event_json (silenced levels))) sender_user (ur_room_id body);;
  mret replacement_room.
End rooms.

(** * Who may create a room *)

Section guarded.
Context {RU : Ruma} {LR : LruCache} {HO : HashOrder} {MO : MapOrder} {CT : Contents} {RV : RoomVersions} {EB : EventBodies} {EC : EventChecks}.
Context {SG : Signing} {AP : Appender} {FE : Federation} {KJ : KeyJson} {KS : KeyServers} {TW : TimelineWriter} {MC : MemberContents} {MR : MemberRemote}.
Context {RX : Regex} {RC : RoomContents}.
Context {JP : Json PduEvent} {JV : Json Value} {JL : Json (list Value)} {JM : Json Tree} {JF : Json CanonicalJsonObject} {JR : Json RedactionContent}.

Lemma hdb_parts {A} (m : M Db A) h a h' : hdb m h = (Ok a, h') → (m (sv_db (h_server h))).1 = Ok a ∧ sv_db (h_server h') = (m (sv_db (h_server h))).2.
Proof.
  unfold hdb, hs, db_, on_sender, with_db. unfold sv_db in *. destruct h as [[[]]]. cbn. destruct (m _) as [r d]. cbn. by injection 1 as -> <-.
Qed.

(** The room, user and namespaces of an alias that may be taken. *)
Definition alias_free (server_name : bytes) (appservices : list RegistrationInfo) (info : option RegistrationInfo) (localpart : bytes) (d : Db) : Prop :=
  let alias := lit "#" ++ localpart ++ lit ":" ++ server_name in
  room_alias_id_ok alias = true ∧ (resolve_local_alias alias d).1 = Ok None ∧
  match info with Some info => is_match (aliases info) alias = true | None => Forall (λ info, is_exclusive_match (aliases info) alias = false) appservices end.

Lemma new_alias_free server_name appservices info localpart d o d' :
  new_alias server_name appservices info (Some localpart) d = (Ok o, d') → alias_free server_name appservices info localpart d.
Proof.
  unfold new_alias, alias_free. cbv zeta. destruct (room_alias_id_ok _); [|done]. cbn [negb]. intros H. split; [done|].
  apply bind_inv in H as (r & d1 & Hr & H). rewrite Hr. destruct r; [done|]. split; [done|]. destruct info as [info|].
  - by destruct (is_match _ _).
  - destruct (existsb _ _) eqn:E; [done|]. apply Forall_forall. intros x Hx. apply not_true_iff_false. intros Hm.
    assert (existsb (λ info, is_exclusive_match (aliases info) (lit "#" ++ localpart ++ lit ":" ++ server_name)) appservices = true) as E'; [|congruence].
    apply existsb_exists. exists x. split; [by apply list_elem_of_In|done].
Qed.

(** Rooms are created only as configured: when room creation is disabled,
    only appservices and members of the admin room create rooms; the version is
    a supported one or the default; and an alias for the new room was valid and
    free, in the namespace of the appservice that asked and in no other
    appservice's exclusive one otherwise. *)
Theorem room_creation_guarded sha256 server_name server_user admin_alias own_version own_public_key types stripped appservices allow_room_creation allow_encryption
    rounds fuel now fresh sender info body h room h' :
  create_room_route sha256 server_name server_user admin_alias own_version own_public_key types stripped appservices allow_room_creation allow_encryption
    rounds fuel now fresh sender info body h = (Ok room, h') →
  let d := sv_db (h_server h) in
  (allow_room_creation = true ∨ is_Some info ∨ (is_admin admin_alias sender d).1 = Ok true) ∧
  (∀ v, cr_room_version body = Some v → v ∈ supported_room_versions) ∧
  (∀ localpart, cr_room_alias_name body = Some localpart →
     alias_free server_name appservices info localpart (may_create admin_alias allow_room_creation sender info d).2).
Proof.
  intros H d. unfold create_room_route in H. apply bind_inv in H as ([] & h1 & Hm & H). apply hdb_parts in Hm as [Hm Hd1].
  apply bind_inv in H as (alias & h2 & Ha & H). apply hdb_parts in Ha as [Ha _]. apply bind_inv in H as (v & h3 & Hv & _).
  split_and!.
  - unfold may_create in Hm. destruct allow_room_creation; [by left|]. destruct info; [by right; left|]. right. right. fold d in Hm.
    unfold mbind, M_bind in Hm. destruct (is_admin admin_alias sender d) as [[[]| |] ?]; done.
  - intros w Hw. unfold new_version in Hv. rewrite Hw in Hv. destruct (bool_decide (w ∈ supported_room_versions)) eqn:E; [by apply bool_decide_eq_true in E|done].
  - intros localpart Hl. rewrite Hl, Hd1 in Ha. fold d in Ha. destruct (new_alias _ _ _ _ _) as [r d2] eqn:En in Ha. cbn in Ha. subst r. by eapply new_alias_free.
Qed.
End guarded.

(** * Witness *)

#[local] Existing Instance sample_ruma.
#[local] Existing Instance lru_unbounded.
#[local] Existing Instance elements_order.
#[local] Existing Instance sample_map_order.
#[local] Existing Instance sample_versions.
#[local] Existing Instance sample_create_contents.
#[local] Instance room_bodies : EventBodies := {|
  extract_membership := λ _, Some Join; body_of := λ _, None; related_event_of := λ _, None; relation_of := λ _, None; canonical_alias_of := λ _, None;
  thread_of := λ _, None; thread_value := λ _ _ _, VNull; pdu_value := λ _, VNull; pdu_object := sample_pdu_object |}.
#[local] Existing Instance sample_checks.
#[local] Existing Instance fetch_tree_json.
#[local] Existing Instance fetch_object_json.
#[local] Existing Instance fetch_redaction_json.
(** Every text is a value. *)
#[local] Program Instance room_value_json : Json Value := {|
  to_vec := to_vec (Json := json_countable Value); from_slice := λ bs, Some (default VNull (from_slice (Json := json_countable Value) bs)) |}.
Next Obligation. intros v. cbn. by rewrite decode_encode. Qed.
#[local] Existing Instance leave_list_json.

#[local] Existing Instance fetch_pdu_json.
#[local] Existing Instance sample_signing.

(** A timeline that only keeps the events and the leaves. *)
Definition keep_event (pdu : PduEvent) (_ : CanonicalJsonObject) (leaves : list bytes) : M Server bytes :=
  db_ (insert eventid_outlierpdu (pdu_event_id pdu) (to_vec pdu);; room ← lift (room_id pdu); set_forward_extremities room leaves;; mret []).

#[local] Instance keeper : Appender.
Proof.
  refine {| append_event := keep_event |}.
  - intros pdu json leaves s e _. unfold timeline_index, keep_event. rewrite sv_db_db.
    assert (keeps_field (λ d, kv d eventid_pduid) (insert eventid_outlierpdu (pdu_event_id pdu) (to_vec pdu);; room ← lift (room_id pdu);
      set_forward_extremities room leaves;; mret (@nil Z))) as Hk; [unfold set_forward_extremities, remove_prefix; keeps|]. by rewrite (Hk (sv_db s)).
  - intros pdu json leaves s pid s' room H Hroom Hl. apply db_ok_inv in H. apply bind_inv in H as ([] & d1 & _ & H). rewrite Hroom in H.
    rewrite (bind_ok _ _ _ room d1) in H by done. destruct (forward_extremities_roundtrip _ room leaves d1 Hl) as (d2 & E2 & Hg & _).
    rewrite (bind_ok _ _ _ _ _ E2) in H. by injection H as _ <-.
Defined.
#[local] Existing Instance sample_member_contents.
#[local] Existing Instance sample_key_json.
#[local] Existing Instance sample_key_servers.
#[local] Existing Instance sample_regex.
#[local] Existing Instance finite_origin.
#[local] Instance room_writer : TimelineWriter :=
  timeline_writer (JR := fetch_redaction_json) (JL := leave_list_json) (JV := room_value_json) (LP := {| localpart := λ u, u |})
    (EB := room_bodies) (RX := sample_regex) (λ b, b) ascii_letter (λ w, w) (lit "b") (lit "@conduit:b") (lit "#admins:b") false (λ _, None) (λ _, None)
    (λ _, VNull) (λ _, None) [] (λ _ _ v, Some v) (Ruleset := unit) (λ _, None) (λ _, tt) (λ _ _ _ _ _ _, []) [].
#[local] Instance silent_servers : MemberRemote := leave_answer (Err (BadServerResponse "no")).

#[local] Instance plain_room_contents : RoomContents := {|
  explicitly_privilege_room_creators := λ _, false; additional_room_creators := λ _, false; use_room_create_sender := λ _, true;
  create_content := λ _ _ _ _, []; additional_creators_of := λ _, None; power_levels_content := λ _ _, []; levels_event_of := λ _, None;
  levels_event_json := λ _, lit "{}"; canonical_alias_json := λ _, lit "{}"; join_rules_json := λ _, lit "{}"; history_visibility_json := λ _, lit "{}";
  guest_access_json := λ _, lit "{}"; name_json := λ _, lit "{}"; topic_json := λ _, lit "{}"; tombstone_json := λ _ _, lit "{}";
  builder_of := λ _, None; default_room_version := lit "11"; room_version_ok := λ _, true |}.

Definition plain_request : CreateRequest := mkCreateRequest (Some (lit "x")) (Some (lit "11")) None VisPrivate [] None false None [] None None.

Definition created : res bytes * Handler :=
  create_room_route (λ b, b) (lit "b") (lit "@conduit:b") (lit "#admins:b") [] [] (λ _ _ _ _ _, Some []) [] [] true true 0 0 5 (lit "!n:b") (lit "@a:b") None
    plain_request (sample_handler empty_db).

Lemma room_creation_guarded_witness :
  match created with
  | (Ok room, _) => room = lit "!" ∧ (∀ v, Some (lit "11") = Some v → v ∈ [lit "11"]) ∧ alias_free (lit "b") [] None (lit "x") empty_db
  | _ => False
  end.
Proof.
  assert (created.1 = Ok (lit "!")) as Hok by (vm_compute; reflexivity).
  destruct created as [[room| |] h'] eqn:E; [|discriminate Hok..]. cbn [fst] in Hok. injection Hok as ->. split; [reflexivity|].
  destruct (room_creation_guarded _ _ _ _ _ _ _ _ _ _ _ _ _ _ _ _ _ _ _ _ _ E) as (_ & H2 & H3). split; [exact H2|]. exact (H3 (lit "x") eq_refl).
Defined.
