(* ===== verification/History.v ===== *)
(** * History: reading the timeline, the relations and the state of a room

    The client routes that read a room: [message.rs] (the pages of its history),
    [context.rs], [threads.rs], [relations.rs] with the walk over relations of
    [service/rooms/pdu_metadata/mod.rs], [search.rs] and the reading half of
    [state.rs], all of [server/src/api/client_server].  Every route shows events
    through the history visibility of [StateAccess]; the iterators are those of
    [Timeline], [RoomTables] and [Search]. *)
From S2P Require Import Prelude Bytes JsonValue KvTree Pdu Database Short StateCompressor RoomState Accounts StateCache.
From S2P Require Import Timeline PduJson UserKeys AuthChain Edus RoomTables Search Sending StateAccess MemberEvents Appservice TimelineService ServerKeys.
From S2P Require Import EventHandler EventHandlerInv EventFetch LocalEvents Membership FederationRoutes.

(** ** Data *)

Inductive Direction := Forward | Backward.

Record MessagesRequest := mkMessagesRequest {
  mq_room_id : bytes;
  mq_from : option bytes;
  mq_to : option bytes;
  mq_dir : Direction;
  mq_limit : Z;
}.

Record MessagesResponse := mkMessagesResponse {
  mr_start : bytes;
  mr_end : option bytes;
  mr_chunk : list Value;
  mr_state : list Value;
}.

Record ContextResponse := mkContextResponse {
  cx_start : bytes;
  cx_end : bytes;
  cx_events_before : list Value;
  cx_event : Value;
  cx_events_after : list Value;
  cx_state : list Value;
}.

Record RelationsResponse := mkRelationsResponse {
  rl_chunk : list Value;
  rl_next_batch : option bytes;
  rl_prev_batch : bytes;
  rl_recursion_depth : option Z;
}.

Record SearchRequest := mkSearchRequest {
  sq_term : bytes;
  sq_rooms : option (list bytes);
  sq_limit : option Z;
  sq_next_batch : option bytes;
}.

Record SearchResponse := mkSearchResponse {
  sr_count : Z;
  sr_next_batch : option bytes;
  sr_results : list Value;
  sr_highlights : list bytes;
}.

(** The server with the members that were sent to clients and not confirmed. *)
Record Reader := mkReader { rd_node : Node; rd_lazy : LazyWaiting }.

Definition on_node {A} (m : M Node A) : M Reader A := λ r, let '(x, n) := m (rd_node r) in (x, mkReader n (rd_lazy r)).

Definition on_lazy {A} (m : M (LazyWaiting * Db) A) : M Reader A := λ r,
  let '(x, (w, d)) := m (rd_lazy r, node_db (rd_node r)) in (x, mkReader (ndb (λ _, (Ok tt, d)) (rd_node r)).2 w).

(** The [rel_type] of the [m.relates_to] of a content ([ExtractRelatesToEventId], serde). *)
Class RelTypes := { rel_type_of : bytes → option bytes }.

Section history.
Context {RU : Ruma} {LR : LruCache} {HO : HashOrder} {MO : MapOrder} {CT : Contents} {RV : RoomVersions} {EB : EventBodies} {EC : EventChecks}.
Context `{JP : !Json PduEvent} `{JV : !Json Value} `{JM : !Json Tree} `{JF : !Json CanonicalJsonObject} `{JR : !Json RedactionContent}.

(** ** What of a list of events is shown *)

(** [.filter(user_can_see_event(..).unwrap_or(false)).take_while(k != to)]: the
    events are asked about one after the other, until [to] comes up. *)
Fixpoint visible_until {K} `{EqDecision K} (sender_user room_id : bytes) (to : option K) (events : list (K * PduEvent)) : M Access (list (K * PduEvent)) :=
  match events with
  | [] => mret []
  | (k, pdu) :: events =>
      can ← try_ok (user_can_see_event sender_user room_id (pdu_event_id pdu));
      if negb (default false can) then visible_until sender_user room_id to events else
      if bool_decide (Some k = to) then mret [] else
      rest ← visible_until sender_user room_id to events;
      mret ((k, pdu) :: rest)
  end.

(** The default of [from], and the limit, at most 100. *)
Definition start_of (from : option bytes) (dir : Direction) : res PduCount :=
  match from with
  | Some from => try_from_string from
  | None => Ok (match dir with Forward => PduCount_min | Backward => PduCount_max end)
  end.

Definition end_of (to : option bytes) : option PduCount :=
  match try_from_string <$> to with Some (Ok c) => Some c | _ => None end.

Definition at_most_100 (limit : Z) : nat := Z.to_nat (Z.min limit 100).

(** One page of a room, after [from] or before it. *)
Definition page_of (sender_user room_id : bytes) (dir : Direction) (from : PduCount) (to : option PduCount) (limit : nat) :
    M Access (list (PduCount * PduEvent)) :=
  it ← acc (match dir with
    | Forward => pdus_after sender_user room_id from
    | Backward => pdus_until sender_user room_id from
    end);
  visible_until sender_user room_id to (oks (take limit it)).

(** The member events of the senders. *)
Definition members_of (room_id : bytes) (lazy_loaded : gset bytes) : M Db (list Value) :=
  foldM (λ state ll_id,
    o ← room_state_get room_id (lit "m.room.member") ll_id;
    match o with
    | Some member_event => v ← lift (to_state_event member_event); mret (state ++ [v])
    | None => mret state
    end) [] (hash_iter lazy_loaded).

Section messages.
Context (sha256 : bytes → bytes) (server_name : bytes).
Context (auth_types_for_event : bytes → bytes → option bytes → bytes → AuthRules → option (list (bytes * bytes))).
Context {FE : Federation} {KJ : KeyJson} {KS : KeyServers} {TW : TimelineWriter} {BF : Backfill}.
Context (own_version own_public_key : bytes) (is_alphanumeric : bytes → bool) (to_lowercase : bytes → bytes).

(** What happens before a page is read: the members of the previous page count as
    delivered, and reading backwards fills the timeline. *)
Definition prepare_page (rounds fuel : nat) (now : Z) (sender_user sender_device : bytes) (body : MessagesRequest) (from : PduCount) : M Reader unit :=
  on_lazy (lazy_load_confirm_delivery sender_user sender_device (mq_room_id body) from);;
  match mq_dir body with
  | Forward => mret tt
  | Backward => on_node (on_handler (backfill_if_required sha256 server_name auth_types_for_event own_version own_public_key is_alphanumeric to_lowercase
      rounds fuel now (mq_room_id body) from))
  end.

Definition get_message_events_route (rounds fuel : nat) (now : Z) (sender_user sender_device : bytes) (body : MessagesRequest) : M Reader MessagesResponse :=
  from ← lift (start_of (mq_from body) (mq_dir body));
  let to := end_of (mq_to body) in
  prepare_page rounds fuel now sender_user sender_device body from;;
  let limit := at_most_100 (mq_limit body) in
  events ← on_node (on_access (page_of sender_user (mq_room_id body) (mq_dir body) from to limit));
  let next_token := fst <$> last events in
  chunk ← lift (collect ((λ e, to_room_event e.2) <$> events));
  state ← on_node (ndb (members_of (mq_room_id body) (list_to_set ((λ e, pdu_sender e.2) <$> events))));
  mret (mkMessagesResponse (stringify from) (stringify <$> next_token) chunk state).
End messages.

(** ** The surroundings of an event *)

(** The senders whose member event the device does not have. *)
Definition unsent_members (sender_user sender_device room_id : bytes) (redundant : bool) (lazy_loaded : gset bytes) (senders : list bytes) : M Db (gset bytes) :=
  foldM (λ lazy_loaded sender,
    sent ← lazy_load_was_sent_before sender_user sender_device room_id sender;
    mret (if negb sent || redundant then {[sender]} ∪ lazy_loaded else lazy_loaded)) lazy_loaded senders.

(** The state around the event: all of it but the members that are lazily loaded. *)
Definition context_state (lazy_load_enabled : bool) (lazy_loaded : gset bytes) (shortstatehash : Z) : M Db (list Value) :=
  state_ids ← state_full_ids shortstatehash;
  foldM (λ state '(shortstatekey, id),
    '(event_type, state_key) ← get_statekey_from_short shortstatekey;
    if negb (bool_decide (event_type = lit "m.room.member")) || negb lazy_load_enabled || bool_decide (state_key ∈ lazy_loaded) then
      o ← get_pdu id;
      match o with
      | Some pdu => v ← lift (to_state_event pdu); mret (state ++ [v])
      | None => mret state
      end
    else mret state) [] (map_iter state_ids).

(** [lazy_load] is the option of the filter: whether redundant members are sent. *)
Definition get_context_route (sender_user sender_device event_id : bytes) (limit : Z) (lazy_load : option bool) : M Access ContextResponse :=
  let lazy_load_enabled := bool_decide (is_Some lazy_load) in
  let redundant := default false lazy_load in
  o ← acc (get_pdu_count event_id);
  base_token ← lift (ok_or o (BadRequest NotFound "Base event id not found."));
  o ← acc (get_pdu event_id);
  base_event ← lift (ok_or o (BadRequest NotFound "Base event not found."));
  room_id ← lift (Database.room_id base_event);
  can ← user_can_see_event sender_user room_id event_id;
  if negb can then fail (BadRequest Forbidden "You don't have permission to view this event.") else
  lazy_loaded ← acc (unsent_members sender_user sender_device room_id redundant ∅ [pdu_sender base_event]);
  let half := Nat.div (at_most_100 limit) 2 in
  event ← lift (to_room_event base_event);
  events_before ← page_of sender_user room_id Backward base_token None half;
  lazy_loaded ← acc (unsent_members sender_user sender_device room_id redundant lazy_loaded ((λ e, pdu_sender e.2) <$> events_before));
  let start_token := default base_token (fst <$> last events_before) in
  before ← lift (collect ((λ e, to_room_event e.2) <$> events_before));
  events_after ← page_of sender_user room_id Forward base_token None half;
  lazy_loaded ← acc (unsent_members sender_user sender_device room_id redundant lazy_loaded ((λ e, pdu_sender e.2) <$> events_after));
  o ← acc (pdu_shortstatehash (default event_id ((λ e, pdu_event_id e.2) <$> last events_after)));
  shortstatehash ← (match o with
    | Some s => mret s
    | None => o ← acc (get_room_shortstatehash room_id); lift (expect o)
    end);
  let end_token := default base_token (fst <$> last events_after) in
  after ← lift (collect ((λ e, to_room_event e.2) <$> events_after));
  state ← acc (context_state lazy_load_enabled lazy_loaded shortstatehash);
  mret (mkContextResponse (stringify start_token) (stringify end_token) before event after state).

(** ** Threads *)

Definition get_threads_route (sender_user room_id : bytes) (limit : option Z) (from : option bytes) : M Access (list Value * option bytes) :=
  let limit := at_most_100 (default 10 limit) in
  from ← lift (match from with
    | Some from => ok_or (parse_u64 from) (BadRequest InvalidParam "")
    | None => Ok u64_max
    end);
  it ← acc (threads_until sender_user room_id from);
  threads ← visible_until sender_user room_id None (oks (take limit it));
  chunk ← lift (collect ((λ e, to_room_event e.2) <$> threads));
  mret (chunk, (λ e, to_string e.1) <$> last threads).

(** ** Relations *)

(** The position of an event that others may relate to; backfilled events have none. *)
Definition relation_target (c : option PduCount) : Z := match c with Some (Pdu.Normal c) => c | _ => 0 end.

(** The loop over the stack.  An event on it stands [max_depth - n] relations
    away from the target; the last one is popped first, what relates to it is
    collected, and is pushed while the depth allows. *)
Fixpoint expand_relations (n : nat) (user_id : bytes) (room_id : Z) (until : PduCount) (stack : list (PduCount * PduEvent)) :
    M Db (list (PduCount * PduEvent)) :=
  match n with
  | O => mret []
  | S n =>
      foldM (λ pdus stack_pdu,
        r ← try_ok (relations_until user_id room_id (relation_target (Some stack_pdu.1)) until);
        let relations := oks (default [] r) in
        deeper ← expand_relations n user_id room_id until relations;
        mret (pdus ++ relations ++ deeper)) [] (rev stack)
  end.

Definition count_le (a b : PduCount * PduEvent) : Prop := PduCount_cmp a.1 b.1 ≠ Gt.

#[global] Instance count_le_dec a b : Decision (count_le a b).
Proof. unfold count_le. solve_decision. Defined.

Definition all_relations_until (user_id room_id target : bytes) (until : PduCount) (max_depth : nat) : M Db (list (PduCount * PduEvent)) :=
  room_id ← get_or_create_shortroomid room_id;
  target ← get_pdu_count target;
  relations ← relations_until user_id room_id (relation_target target) until;
  let pdus := oks relations in
  more ← expand_relations max_depth user_id room_id until pdus;
  mret (merge_sort count_le (pdus ++ more)).

Definition relations_limit (limit : option Z) : nat :=
  Z.to_nat (Z.min 100 (match limit with Some u => if u <? 2 ^ 32 then u else 10 | None => 10 end)).

(** The filter on the type of the event and of its relation. *)
Definition relation_matches {RT : RelTypes} (event_type rel_type : option bytes) (pdu : PduEvent) : bool :=
  match event_type with Some t => bool_decide (pdu_kind pdu = t) | None => true end &&
  match rel_type_of (pdu_content pdu) with
  | Some r => match rel_type with Some r' => bool_decide (r = r') | None => true end
  | None => false
  end.

Definition paginate_relations_with_filter {RT : RelTypes} (sender_user room_id target : bytes) (filter_event_type filter_rel_type from to : option bytes)
    (limit : option Z) (recurse : bool) (dir : Direction) : M Access RelationsResponse :=
  from ← lift (start_of from dir);
  let to := end_of to in
  let limit := relations_limit limit in
  (* Spec (v1.10) recommends depth of at least 3 *)
  let depth := if recurse then 3%nat else 1%nat in
  relations ← acc (all_relations_until sender_user room_id target from depth);
  events ← visible_until sender_user room_id to (take limit (bfilter (λ e, relation_matches filter_event_type filter_rel_type e.2) relations));
  let next_token := fst <$> last events in
  (* relations are always most recent first *)
  let events := match dir with Forward => rev events | Backward => events end in
  chunk ← lift (collect ((λ e, to_message_like_event e.2) <$> events));
  mret (mkRelationsResponse chunk (stringify <$> next_token) (stringify from) (if recurse then Some (Z.of_nat depth) else None)).

Definition get_relating_events_with_rel_type_and_event_type_route {RT : RelTypes} (sender_user room_id event_id rel_type event_type : bytes) :=
  paginate_relations_with_filter sender_user room_id event_id (Some event_type) (Some rel_type).

Definition get_relating_events_with_rel_type_route {RT : RelTypes} (sender_user room_id event_id rel_type : bytes) :=
  paginate_relations_with_filter sender_user room_id event_id None (Some rel_type).

Definition get_relating_events_route {RT : RelTypes} (sender_user room_id event_id : bytes) :=
  paginate_relations_with_filter sender_user room_id event_id None None.

(** ** Search *)

(** [max_by_key] over the next hit of each search, the last of equal ones, and
    its removal. *)
Fixpoint pop_newest (searches : list (list bytes)) : option (bytes * list (list bytes)) :=
  match searches with
  | [] => None
  | s :: rest =>
      match s, pop_newest rest with
      | [], None => None
      | x :: s', None => Some (x, s' :: rest)
      | [], Some (y, rest') => Some (y, s :: rest')
      | x :: s', Some (y, rest') => if bleb x y then Some (y, s :: rest') else Some (x, s' :: rest)
      end
  end.

Fixpoint merge_searches (n : nat) (searches : list (list bytes)) : list bytes :=
  match n with
  | O => []
  | S n => match pop_newest searches with Some (x, searches) => x :: merge_searches n searches | None => [] end
  end.

Section search_route.
Context (is_alphanumeric : bytes → bool) (to_lowercase : bytes → bytes).

Definition search_rooms (sender_user search_term : bytes) (room_ids : list bytes) : M Db (list (list bytes)) :=
  foldM (λ searches room_id,
    joined ← is_joined sender_user room_id;
    if negb joined then fail (BadRequest Forbidden "You don't have permission to view this room.") else
    o ← search_pdus is_alphanumeric to_lowercase room_id search_term;
    mret (match o with Some search => searches ++ [search.1] | None => searches end)) [] room_ids.

(** A hit that can be read, is not redacted and visible. *)
Definition shown_hit (sender_user result : bytes) : M Access (option Value) :=
  o ← try_ok (acc (get_pdu_from_id result));
  match mjoin o with
  | None => mret None
  | Some pdu =>
      if is_redacted pdu then mret None else
      room_id ← lift (Database.room_id pdu);
      can ← try_ok (user_can_see_event sender_user room_id (pdu_event_id pdu));
      if negb (default false can) then mret None else
      v ← lift (to_room_event pdu);
      mret (Some v)
  end.

Definition shown_hits (sender_user : bytes) (results : list bytes) : M Access (list Value) :=
  foldM (λ shown result, o ← shown_hit sender_user result; mret (match o with Some v => shown ++ [v] | None => shown end)) [] results.

(** [split_terminator] keeps no empty last word. *)
Definition highlights_of (search_term : bytes) : list bytes :=
  let words := split_words is_alphanumeric (utf8_chars search_term) [] in
  to_lowercase <$> (if bool_decide (last words = Some []) then removelast words else words).

(** The criteria for room events are unwrapped. *)
Definition search_events_route (sender_user : bytes) (criteria : option SearchRequest) : M Access SearchResponse :=
  body ← lift (expect criteria);
  room_ids ← (match sq_rooms body with Some rooms => mret rooms | None => acc (gets (λ d, Ok (oks (rooms_joined sender_user d)))) end);
  let limit := Z.min (default 10 (sq_limit body)) 100 in
  searches ← acc (search_rooms sender_user (sq_term body) room_ids);
  skip ← lift (match sq_next_batch body with
    | Some s => ok_or (parse_u64 s) (BadRequest InvalidParam "Invalid next_batch token.")
    | None => Ok 0
    end);
  let hits := merge_searches (Z.to_nat (w64 (skip + limit))) searches in
  results ← (if limit =? 0 then mret [] else shown_hits sender_user hits);
  let results := take (Z.to_nat limit) (drop (Z.to_nat skip) results) in
  mret (mkSearchResponse (Z.of_nat (length results))
    (if Z.of_nat (length results) <? limit then None else Some (to_string (w64 (skip + limit)))) results (highlights_of (sq_term body))).
End search_route.

(** ** The state of a room *)

Inductive EventOrContent := ContentOnly (json : bytes) | WholeEvent (event : Value).

Definition check_state_visible (sender_user room_id : bytes) : M Db unit :=
  can ← user_can_see_state_events sender_user room_id;
  if negb can then fail (BadRequest Forbidden "You don't have permission to view the room state.") else mret tt.

Definition get_state_events_route (sender_user room_id : bytes) : M Db (list Value) :=
  check_state_visible sender_user room_id;;
  state ← Membership.room_state_full room_id;
  lift (collect ((λ e, to_state_event e.2) <$> map_iter state)).

Definition get_state_event_for_key_route (sender_user room_id event_type state_key : bytes) (whole_event : bool) : M Db EventOrContent :=
  check_state_visible sender_user room_id;;
  o ← room_state_get room_id event_type state_key;
  event ← lift (ok_or o (BadRequest NotFound "State event not found."));
  if whole_event then v ← lift (to_state_event event); mret (WholeEvent v) else mret (ContentOnly (pdu_content event)).

Definition get_state_event_for_empty_key_route (sender_user room_id event_type : bytes) (whole_event : bool) : M Db EventOrContent :=
  check_state_visible sender_user room_id;;
  o ← room_state_get room_id event_type [];
  event ← lift (ok_or o (BadRequest NotFound "State event not found."));
  if whole_event then v ← lift (to_state_event event); mret (WholeEvent v) else mret (ContentOnly (pdu_content event)).

(** The older pair of routes: the content only, which must be JSON. *)
Definition get_state_events_for_key_route (sender_user room_id event_type state_key : bytes) : M Db EventOrContent :=
  check_state_visible sender_user room_id;;
  o ← room_state_get room_id event_type state_key;
  event ← lift (ok_or o (BadRequest NotFound "State event not found."));
  lift (ok_or (from_slice (pdu_content event) : option Value) (BadDatabase "Invalid event content in database"));;
  mret (ContentOnly (pdu_content event)).

Definition get_state_events_for_empty_key_route (sender_user room_id event_type : bytes) : M Db EventOrContent :=
  get_state_events_for_key_route sender_user room_id event_type [].
End history.

(** * What is shown *)

Section shown.
Context {RU : Ruma} {LR : LruCache} {HO : HashOrder} {MO : MapOrder} {CT : Contents} {RV : RoomVersions} {EB : EventBodies} {EC : EventChecks}.
Context {JP : Json PduEvent} {JV : Json Value} {JM : Json Tree} {JF : Json CanonicalJsonObject} {JR : Json RedactionContent}.

(** ** The policy *)

(** What the policy says of a state: the history visibility in it, the user's
    membership in it and whether the user is in the room now. *)
Definition state_policy (d : Db) (user room : bytes) (s : Z) (answer : bool) : Prop :=
  ∃ st oh om h m, state_of d s st ∧ keyed st ∧
    state_event d st (lit "m.room.history_visibility") [] oh ∧
    content_or HShared history_visibility_of "Invalid history visibility event in database." oh = Ok h ∧
    state_event d st (lit "m.room.member") user om ∧
    content_or Leave membership_of "Invalid room membership event in database." om = Ok m ∧
    answer = visible h m (bool_decide (is_Some (kv d userroomid_joined !! get_userroom_id_bytes user room))).

(** The state an event was sent in. *)
Definition state_at (d : Db) (e : bytes) : res (option Z) := (pdu_shortstatehash e d).1.

(** Events without a state are shown to anyone, the others by the policy of
    their state. *)
Definition allowed (d : Db) (policy : Z → bool) (pdu : PduEvent) : bool :=
  match state_at d (pdu_event_id pdu) with
  | Ok None => true
  | Ok (Some s) => policy s
  | _ => false
  end.

(** The entries before [to]. *)
Fixpoint up_to {K : Type} `{EqDecision K} (to : option K) (l : list (K * PduEvent)) : list (K * PduEvent) :=
  match l with
  | [] => []
  | e :: l => if bool_decide (Some e.1 = to) then [] else e :: up_to to l
  end.

(** The policy of every state the events were sent in, and that cached answers
    agree with it. *)
Definition governs {K : Type} (d : Db) (cached : gmap (bytes * Z) bool) (user room : bytes) (policy : Z → bool) (events : list (K * PduEvent)) : Prop :=
  ∀ e s, e ∈ events → state_at d (pdu_event_id e.2) = Ok (Some s) →
    state_policy d user room s (policy s) ∧ ∀ b, cached !! (user, s) = Some b → b = policy s.

Lemma state_at_run d e : pdu_shortstatehash e d = (state_at d e, d).
Proof.
  unfold state_at, pdu_shortstatehash, get, mbind, M_bind, gets, lift, mret, M_ret. destruct (kv_get (kv d eventid_shorteventid) e); reflexivity.
Qed.

Lemma state_at_trees d d' e : kv d = kv d' → state_at d e = state_at d' e.
Proof. intros E. unfold state_at, pdu_shortstatehash, get, mbind, M_bind, gets, lift, mret, M_ret. rewrite E. destruct (kv_get _ e); [by rewrite E|done]. Qed.

Lemma allowed_trees d d' policy pdu : kv d = kv d' → allowed d policy pdu = allowed d' policy pdu.
Proof. intros E. unfold allowed. by rewrite (state_at_trees d d' _ E). Qed.

Lemma state_policy_trees d d' user room s b : kv d = kv d' → state_policy d user room s b → state_policy d' user room s b.
Proof.
  intros E (st & oh & om & h & m & Hst & Hk & Hh & Eh & Hm & Em & ->). exists st, oh, om, h, m.
  split; [eapply state_of_mono; [|exact Hst]; by rewrite E|]. split; [done|]. split; [by eapply state_event_kv|]. split; [done|].
  split; [by eapply state_event_kv|]. split; [done|]. by rewrite E.
Qed.

(** One answer: the policy's, which may then be cached. *)
Lemma can_see_policy sha256 user room e a n policy :
  View sha256 (a_db a) n →
  (∀ s, state_at (a_db a) e = Ok (Some s) → state_policy (a_db a) user room s (policy s) ∧ ∀ b, user_visibility_cache a !! (user, s) = Some b → b = policy s) →
  let '(r, a') := user_can_see_event user room e a in
  r = match state_at (a_db a) e with Ok None => Ok true | Ok (Some s) => Ok (policy s) | Err x => Err x | Panic => Panic end ∧
  View sha256 (a_db a') n ∧ kv (a_db a') = kv (a_db a) ∧
  ∀ u s b, user_visibility_cache a' !! (u, s) = Some b → user_visibility_cache a !! (u, s) = Some b ∨ u = user ∧ b = policy s.
Proof.
  intros HV Hs. pose proof (state_at_run (a_db a) e) as E.
  destruct (state_at (a_db a) e) as [[s|]| |].
  - destruct (Hs s eq_refl) as [(st & oh & om & h & m & Hst & Hk & Hh & Eh & Hm & Em & Hp) Hc].
    destruct (user_visibility_cache a !! (user, s)) as [b|] eqn:Ec.
    + unfold user_can_see_event. rewrite (acc_ok _ _ _ _ _ E). rewrite bind_gets. cbn [user_visibility_cache]. rewrite Ec.
      cbn. rewrite (Hc b eq_refl). by eauto.
    + destruct (can_see_fresh sha256 a n user room e s st oh om h m) as (joined & a' & Hj & -> & HV' & Hkv & Hcache); try done.
      assert (joined = bool_decide (is_Some (kv (a_db a) userroomid_joined !! get_userroom_id_bytes user room))) as -> by (by injection Hj).
      rewrite <-Hp in *. split_and!; [done..|]. intros u s' b. rewrite Hcache. intros Hl. pose proof (lookup_weaken _ _ _ _ Hl (lru_insert_sub _ _ _)) as Hw.
      apply lookup_insert_Some in Hw as [[[= <- <-] <-]|[_ Hw]]; eauto.
  - unfold user_can_see_event. rewrite (acc_ok _ _ _ _ _ E). cbn. by eauto.
  - unfold user_can_see_event. rewrite (bind_err _ _ _ e0 a); [by eauto|]. unfold acc. rewrite E. by destruct a.
  - unfold user_can_see_event. rewrite (bind_panic _ _ _ a); [by eauto|]. unfold acc. rewrite E. by destruct a.
Qed.

Lemma visible_until_policy {K : Type} `{EqDecision K} sha256 user room (to : option K) asked a n policy shown a' :
  View sha256 (a_db a) n → governs (a_db a) (user_visibility_cache a) user room policy asked →
  visible_until user room to asked a = (Ok shown, a') → shown = up_to to (bfilter (λ e, allowed (a_db a) policy e.2) asked).
Proof.
  revert a shown. induction asked as [|[k p] asked IH]; intros a shown HV Hg H; cbn [visible_until] in H; [by injection H as <- _|].
  pose proof (can_see_policy sha256 user room (pdu_event_id p) a n policy HV (λ s Hs, Hg (k, p) s (list_elem_of_here _ _) Hs)) as Hc.
  apply bind_inv in H as (can & a1 & H1 & H). unfold try_ok in H1. destruct (user_can_see_event user room (pdu_event_id p) a) as [r a2].
  destruct Hc as (Hr & HV2 & Hkv & Hcache).
  assert (a1 = a2 ∧ default false can = allowed (a_db a) policy p) as [-> Hcan].
  { unfold allowed. destruct (state_at (a_db a) (pdu_event_id p)) as [[s|]| |]; subst r; by simplify_eq/=. }
  assert (governs (a_db a2) (user_visibility_cache a2) user room policy asked) as Hg2.
  { intros e s Hin Hs. rewrite (state_at_trees _ (a_db a)) in Hs by done. destruct (Hg e s (list_elem_of_further _ _ _ Hin) Hs) as [Hp Hb].
    split; [by eapply state_policy_trees|]. intros b [Hl|[_ ->]]%Hcache; [by apply Hb|done]. }
  assert (bfilter (λ e, allowed (a_db a2) policy e.2) asked = bfilter (λ e, allowed (a_db a) policy e.2) asked) as Hf.
  { apply bfilter_ext. intros e _. by apply allowed_trees. }
  rewrite Hcan in H. cbn [bfilter]. cbn [snd]. destruct (allowed (a_db a) policy p); cbn [negb] in H.
  - cbn [up_to fst]. case_bool_decide; [by injection H as <- _|]. apply bind_inv in H as (rest & a3 & H2 & H). injection H as <- <-.
    by rewrite (IH _ _ HV2 Hg2 H2), Hf.
  - by rewrite (IH _ _ HV2 Hg2 H), Hf.
Qed.

(** The events a page asks for: the ones after or before [from], nearest first. *)
Definition asked_page (d : Db) (s : Z) (user : bytes) (dir : Direction) (from : PduCount) (limit : nat) : list (PduCount * PduEvent) :=
  oks (take limit (timeline_entry user <$> match dir with
    | Forward => room_entries d s (after from)
    | Backward => reverse (room_entries d s (before from))
    end)).

Definition from_position (dir : Direction) (from : PduCount) : Prop := match dir with Forward => from_ok from | Backward => until_ok from end.

Lemma length_oks {A} (l : list (res A)) : (length (oks l) ≤ length l)%nat.
Proof. unfold oks. induction l as [|[]]; cbn; lia. Qed.

Lemma visible_until_length {K : Type} `{EqDecision K} user room (to : option K) asked a shown a' :
  visible_until user room to asked a = (Ok shown, a') → (length shown ≤ length asked)%nat.
Proof.
  revert a shown. induction asked as [|[k p] asked IH]; intros a shown H; cbn [visible_until] in H; [by injection H as <- _|].
  apply bind_inv in H as (can & a1 & _ & H). destruct (negb _); [apply IH in H; cbn; lia|]. case_bool_decide; [injection H as <- _; cbn; lia|].
  apply bind_inv in H as (rest & a2 & H2 & H). injection H as <- <-. apply IH in H2. cbn. lia.
Qed.

Lemma page_of_shown user room dir from to limit a shown a' :
  page_of user room dir from to limit a = (Ok shown, a') →
  (length shown ≤ limit)%nat ∧
  ∀ sha256 s n policy, TimelineInv (a_db a) → get_shortroomid room (a_db a) = (Ok (Some s), a_db a) → is_u64 s → s ≠ 0 → from_position dir from →
    View sha256 (a_db a) n →
    let asked := asked_page (a_db a) s user dir from limit in
    governs (a_db a) (user_visibility_cache a) user room policy asked →
    shown = up_to to (bfilter (λ e, allowed (a_db a) policy e.2) asked).
Proof.
  intros H. unfold page_of in H. apply bind_inv in H as (it & a1 & H1 & H).
  set (m := match dir with Forward => pdus_after user room from | Backward => pdus_until user room from end) in H1.
  split.
  - apply visible_until_length in H. etrans; [exact H|]. etrans; [apply length_oks|]. rewrite length_take. lia.
  - intros sha256 s n policy HI Hr Hu Hne Hp HV asked Hg. assert (m (a_db a) = (Ok (timeline_entry user <$> match dir with
        | Forward => room_entries (a_db a) s (after from) | Backward => reverse (room_entries (a_db a) s (before from)) end), a_db a)) as Em.
    { subst m. destruct dir; [by apply pdus_after_spec|by apply pdus_until_spec]. }
    unfold acc in H1. rewrite Em in H1. injection H1 as <- <-. destruct a as [d sc uc]. by eapply visible_until_policy in H.
Qed.

Lemma on_node_inv {A} (m : M Node A) r x r' : on_node m r = (Ok x, r') → m (rd_node r) = (Ok x, rd_node r') ∧ rd_lazy r' = rd_lazy r.
Proof. unfold on_node. destruct (m (rd_node r)). by intros [= -> <-]. Qed.

Lemma on_access_inv {A} (m : M Access A) n x n' :
  on_access m n = (Ok x, n') → ∃ a', m (mkAccess (node_db n) (n_server_visibility n) (n_user_visibility n)) = (Ok x, a').
Proof. unfold on_access. destruct (m _) as [y a']. intros [= -> _]. by exists a'. Qed.

Lemma on_lazy_db {A} (m : M (LazyWaiting * Db) A) r x r' :
  on_lazy m r = (Ok x, r') → (m (rd_lazy r, node_db (rd_node r))).1 = Ok x ∧ node_db (rd_node r') = (m (rd_lazy r, node_db (rd_node r))).2.2.
Proof. unfold on_lazy. destruct (m _) as [y [w d]]. intros [= -> <-]. done. Qed.

Lemma on_lazy_caches {A} (m : M (LazyWaiting * Db) A) r x r' :
  on_lazy m r = (Ok x, r') → n_user_visibility (rd_node r') = n_user_visibility (rd_node r).
Proof. unfold on_lazy. destruct (m _) as [y [w d]]. by intros [= -> <-]. Qed.

Lemma confirm_timeline u dv room from w d :
  kv (lazy_load_confirm_delivery u dv room from (w, d)).2.2 pduid_pdu = kv d pduid_pdu.
Proof.
  unfold lazy_load_confirm_delivery. cbv zeta. match goal with |- context [match ?o with Some _ => _ | None => _ end] => destruct o as [g|]; [|done] end.
  assert (keeps_field (λ d, kv d pduid_pdu) (db_lazy_load_confirm_delivery u dv room (hash_iter g))) as H by (unfold db_lazy_load_confirm_delivery; keeps).
  specialize (H d). by destruct (db_lazy_load_confirm_delivery _ _ _ _ d).
Qed.

Section messages_shown.
Context (sha256 : bytes → bytes) (server_name : bytes).
Context (auth_types_for_event : bytes → bytes → option bytes → bytes → AuthRules → option (list (bytes * bytes))).
Context {FE : Federation} {KJ : KeyJson} {KS : KeyServers} {TW : TimelineWriter} {BF : Backfill}.
Context (own_version own_public_key : bytes) (is_alphanumeric : bytes → bool) (to_lowercase : bytes → bytes).
Abbreviation messages := (get_message_events_route sha256 server_name auth_types_for_event own_version own_public_key is_alphanumeric to_lowercase).
Abbreviation prepared := (prepare_page sha256 server_name auth_types_for_event own_version own_public_key is_alphanumeric to_lowercase).

End messages_shown.

(** ** Relations *)

Section relations.
Context (d : Db) (user : bytes) (room : Z) (until : PduCount).

(** What relates to a position, before [until]. *)
Definition related_to (target : Z) : list (PduCount * PduEvent) :=
  match (relations_until user room target until d).1 with Ok l => oks l | _ => [] end.

(** [related k target e]: [k] relations lead from [e] to the target. *)
Inductive related : nat → Z → PduCount * PduEvent → Prop :=
  | related_one target e : e ∈ related_to target → related 1 target e
  | related_more k target x e : x ∈ related_to target → related k (relation_target (Some x.1)) e → related (S k) target e.

Lemma relations_until_run target : relations_until user room target until d = (Ok (match (relations_until user room target until d).1 with Ok l => l | _ => [] end), d).
Proof. done. Qed.

Lemma related_pos k t e : related k t e → (1 ≤ k)%nat.
Proof. destruct 1; lia. Qed.

Lemma expand_relations_spec n stack : ∃ l, expand_relations n user room until stack d = (Ok l, d) ∧
  ∀ e, e ∈ l ↔ ∃ k x, (k ≤ n)%nat ∧ x ∈ stack ∧ related k (relation_target (Some x.1)) e.
Proof.
  revert stack. induction n as [|n IH]; intros stack; cbn [expand_relations].
  { exists []. split; [done|]. intros e. split; [by intros ?%elem_of_nil|]. intros (k & x & Hk & _ & Hr%related_pos). lia. }
  set (f := λ pdus stack_pdu, _).
  assert (∀ l acc, ∃ r, foldM f acc l d = (Ok r, d) ∧
    ∀ e, e ∈ r ↔ e ∈ acc ∨ ∃ k x, (k ≤ S n)%nat ∧ x ∈ l ∧ related k (relation_target (Some x.1)) e) as Hloop.
  { induction l as [|x l IHl]; intros acc; cbn [foldM].
    { exists acc. split; [done|]. intros e. set_solver. }
    destruct (IH (related_to (relation_target (Some x.1)))) as (deeper & Hd & Hde).
    destruct (IHl (acc ++ related_to (relation_target (Some x.1)) ++ deeper)) as (r & Hr & Hre). exists r. split.
    { assert (f acc x d = (Ok (acc ++ related_to (relation_target (Some x.1)) ++ deeper), d)) as Hf; [|by rewrite (bind_ok _ _ _ _ _ Hf)].
      unfold f. rewrite (bind_ok _ _ d (Some (match (relations_until user room (relation_target (Some x.1)) until d).1 with Ok l => l | _ => [] end)) d) by done.
      by rewrite (bind_ok _ _ _ _ _ Hd). }
    intros e. rewrite Hre, !elem_of_app, Hde. split.
    - intros [[Hin|[Hin|(k & y & Hk & Hy & Hr')]]|(k & y & Hk & Hy & Hr')]; [by left|right..].
      + exists 1%nat, x. split_and!; [lia|set_solver|by constructor].
      + exists (S k), x. split_and!; [lia|set_solver|by econstructor].
      + exists k, y. split_and!; [done|set_solver|done].
    - intros [Hin|(k & y & Hk & [->|Hy]%elem_of_cons & Hr')]; [by left; left| |].
      + left. right. inversion Hr' as [|k' ? z ? Hz Hr'']; subst; [by left|right]. exists k', z. split_and!; [lia|done|done].
      + right. by exists k, y. }
  destruct (Hloop (rev stack) []) as (r & Hr & Hre). exists r. split; [exact Hr|].
  intros e. rewrite Hre. split; [intros [?%elem_of_nil|(k & x & ? & Hx%list_elem_of_In%in_rev%list_elem_of_In & ?)]; [done|by exists k, x]|].
  intros (k & x & ? & Hx & ?). right. exists k, x. split_and!; [done| |done]. apply list_elem_of_In, in_rev. rewrite rev_involutive. by apply list_elem_of_In.
Qed.

(** The relations of an event are found to one level more than the depth
    that is asked for: with depth [n] the answer holds, in timeline order, every
    event from which up to [n + 1] relations lead to the target, so that a
    request without recursion (depth 1) also lists what relates to the
    relations. *)
Theorem relations_found_to_depth room_id target c n :
  get_or_create_shortroomid room_id d = (Ok room, d) → get_pdu_count target d = (Ok c, d) →
  ∃ l, all_relations_until user room_id target until n d = (Ok l, d) ∧ Sorted count_le l ∧
    ∀ e, e ∈ l ↔ ∃ k, (k ≤ S n)%nat ∧ related k (relation_target c) e.
Proof.
  intros Hr Hc. destruct (expand_relations_spec n (related_to (relation_target c))) as (more & Hm & Hme).
  exists (merge_sort count_le (related_to (relation_target c) ++ more)). split_and!.
  - unfold all_relations_until. rewrite (bind_ok _ _ _ _ _ Hr), (bind_ok _ _ _ _ _ Hc), (bind_ok _ _ _ _ _ (relations_until_run _)). cbv zeta.
    fold (related_to (relation_target c)). by rewrite (bind_ok _ _ _ _ _ Hm).
  - apply Sorted_merge_sort. intros x y. unfold count_le. rewrite (PduCount_cmp_opp x.1 y.1). destruct (PduCount_cmp x.1 y.1); cbn; [left|left|right]; done.
  - intros e. rewrite merge_sort_Permutation, elem_of_app, Hme. split.
    + intros [Hin|(k & x & Hk & Hx & Hr')]; [exists 1%nat; split; [lia|by constructor]|]. exists (S k). split; [lia|by econstructor].
    + intros (k & Hk & Hr'). inversion Hr' as [|k' ? x ? Hx Hr'']; subst; [by left|right]. exists k', x. split_and!; [lia|done|done].
Qed.
End relations.
End shown.

(** ** Search *)

(** Newest first, by event position. *)
Definition newer (a b : bytes) : Prop := bleb b a = true.

#[global] Instance newer_dec a b : Decision (newer a b).
Proof. unfold newer. apply _. Defined.

#[global] Instance newer_trans : Transitive newer.
Proof. intros a b c Hab Hbc. unfold newer in *. by eapply bleb_trans. Qed.

#[global] Instance newer_antisymm : AntiSymm (=) newer.
Proof. intros a b Hab Hba. by apply bleb_antisym. Qed.

Lemma pop_newest_None searches : pop_newest searches = None → concat searches = [].
Proof.
  induction searches as [|s rest IH]; [done|]. cbn. destruct s as [|x s]; destruct (pop_newest rest) as [[y rest']|]; cbn; [done| |case_match; done|done].
  intros _. by apply IH.
Qed.

Lemma pop_newest_Some searches x rest : Forall (Sorted newer) searches → pop_newest searches = Some (x, rest) →
  concat searches ≡ₚ x :: concat rest ∧ Forall (Sorted newer) rest ∧ Forall (newer x) (concat searches).
Proof.
  revert x rest. induction searches as [|s searches IH]; intros x rest Hs H; [done|]. apply Forall_cons in Hs as [Hs1 Hs2]. cbn in H.
  assert (∀ z l, Sorted newer (z :: l) → Sorted newer l ∧ Forall (newer z) (z :: l)) as Hz.
  { intros z l Hl. apply Sorted_StronglySorted in Hl; [|apply _]. apply StronglySorted_inv in Hl as [Hl1 Hl2]. split; [by apply StronglySorted_Sorted|].
    constructor; [apply bleb_refl|done]. }
  destruct (pop_newest searches) as [[y rest']|] eqn:E.
  - destruct (IH _ _ Hs2 eq_refl) as (Hp & Hf & Hall). destruct s as [|z s].
    + injection H as <- <-. cbn. split_and!; [done|by constructor|done].
    + destruct (Hz _ _ Hs1) as [Hs' Hzs]. destruct (bleb z y) eqn:Ez; injection H as <- <-; cbn.
      * split_and!; [rewrite Hp; solve_Permutation|by constructor|]. apply (Forall_app _ (z :: s)). split; [|done].
        eapply Forall_impl; [exact Hzs|]. intros w Hw. unfold newer in *. by eapply bleb_trans.
      * split_and!; [done|by constructor|]. apply (Forall_app _ (z :: s)). split; [done|]. apply bleb_false in Ez.
        eapply Forall_impl; [exact Hall|]. intros w Hw. unfold newer in *. eapply bleb_trans; [exact Hw|]. apply bleb_spec. by left.
  - apply pop_newest_None in E. destruct s as [|z s]; [done|]. injection H as <- <-. destruct (Hz _ _ Hs1) as [Hs' Hzs]. cbn. rewrite E, !app_nil_r.
    split_and!; [done|by constructor|done].
Qed.

(** The hits of a search are merged from the rooms' hits as if all of them
    were sorted: the first [n] that are drawn are the [n] largest positions of
    all rooms, in descending order, with the position of an event led by its
    room's short id. *)
Theorem search_merge_sorted n searches :
  Forall (Sorted newer) searches → merge_searches n searches = take n (merge_sort newer (concat searches)).
Proof.
  revert searches. induction n as [|n IH]; intros searches Hs; [done|]. cbn [merge_searches].
  destruct (pop_newest searches) as [[x rest]|] eqn:E.
  - destruct (pop_newest_Some _ _ _ Hs E) as (Hp & Hr & Hall).
    assert (merge_sort newer (concat searches) = x :: merge_sort newer (concat rest)) as ->; [|by rewrite IH].
    assert (∀ a b, newer a b ∨ newer b a) as Htot by (intros a b; apply bleb_total).
    apply (Sorted_unique newer).
    + by apply Sorted_merge_sort.
    + apply StronglySorted_Sorted. constructor; [apply Sorted_StronglySorted; [apply _|by apply Sorted_merge_sort]|]. rewrite merge_sort_Permutation.
      rewrite Hp in Hall. by apply Forall_cons in Hall as [_ ?].
    + by rewrite !merge_sort_Permutation.
  - apply pop_newest_None in E. by rewrite E.
Qed.

(** * Witnesses *)

#[local] Existing Instances sample_ruma lru_unbounded elements_order sample_map_order sample_contents sample_versions sample_bodies sample_checks.
#[local] Existing Instances sample_key_json sample_key_servers sample_writer finite_origin.
#[local] Instance history_pdu_json : Json PduEvent := json_countable PduEvent.
#[local] Instance history_tree_json : Json Tree := json_countable Tree.
(** Every text is a value, so that a text of another codec is one. *)
#[local] Program Instance history_value_json : Json Value := {|
  to_vec := to_vec (Json := json_countable Value); from_slice := λ bs, Some (default VNull (from_slice (Json := json_countable Value) bs)) |}.
Next Obligation. intros v. cbn. by rewrite decode_encode. Qed.
#[local] Instance history_object_json : Json CanonicalJsonObject := json_countable CanonicalJsonObject.
#[local] Instance history_redaction_json : Json RedactionContent := json_countable RedactionContent.
#[local] Instance no_backfill : Backfill := {| get_backfill _ _ _ := None; above_default _ := [] |}.

(** A room with two messages. *)
Definition history_event (id : bytes) : PduEvent :=
  mkPdu id (Some (lit "!r")) (lit "@a:b") 1 (lit "m.room.message") (to_vec VNull) None [] 1 [] None None [] None.

Definition history_room : Db :=
  upd pduid_pdu (λ _, {[pdu_id 1 (Pdu.Normal 3) := to_vec (history_event (lit "$e1")); pdu_id 1 (Pdu.Normal 4) := to_vec (history_event (lit "$e2"))]}) one_room.

(** A room with shared history that the user is not in: one message was sent in
    its state, another one has no state. *)
Definition shared_room : Db :=
  upd pduid_pdu (λ _, {[pdu_id 7 (Pdu.Normal 3) := to_vec (history_event (lit "$e1")); pdu_id 7 (Pdu.Normal 4) := to_vec (history_event (lit "$e2"))]})
    (get_or_create_shortroomid (lit "!r") sample_room_db).2.

Lemma shared_room_timeline : TimelineInv shared_room.
Proof.
  intros k v. unfold shared_room. kv_simpl. intros [[<- _]|[_ [<- _]%lookup_singleton_Some]]%lookup_insert_Some.
  - exists 7, (Pdu.Normal 3). by repeat split.
  - exists 7, (Pdu.Normal 4). by repeat split.
Qed.

Lemma shared_room_policy : ∃ n, View (λ b, b) shared_room n ∧ state_policy shared_room (lit "@a:b") (lit "!r") 3 false.
Proof.
  destruct sample_room_view as (n & st & Hn & [HI Hc] & Hst & Hkey & Hh & Hm & _).
  destruct (get_or_create_shortroomid_spec sample_room_db n (lit "!r")) as (s & d' & n' & E & _ & _ & Hstep); [apply HI|unfold u64_max; lia|].
  assert (shared_room = upd pduid_pdu (λ _, {[pdu_id 7 (Pdu.Normal 3) := to_vec (history_event (lit "$e1")); pdu_id 7 (Pdu.Normal 4) := to_vec (history_event (lit "$e2"))]}) d') as Ed
    by (unfold shared_room; by rewrite E).
  assert (∀ t, t ∈ [statekey_shortstatekey; eventid_shorteventid; shortstatehash_statediff; statehash_shortstatehash; userroomid_joined; eventid_pduid; eventid_outlierpdu] → kv shared_room t = kv sample_room_db t) as Hkv.
  { intros t Ht. assert (keeps_field (λ d, kv d t) (get_or_create_shortroomid (lit "!r"))) as Hk.
    { clear -Ht. unfold get_or_create_shortroomid, next_count. repeat (apply elem_of_cons in Ht as [->|Ht]; [keeps|]). by apply elem_of_nil in Ht. }
    specialize (Hk sample_room_db). rewrite E in Hk. rewrite Ed, kv_upd_ne; [exact Hk|]. clear -Ht. intros <-. repeat (apply elem_of_cons in Ht as [?|Ht]; [done|]). by apply elem_of_nil in Ht. }
  assert (state_of shared_room 3 st) as Hst'.
  { eapply state_of_mono; [|exact Hst]. by rewrite Hkv by in_list. }
  exists n'. split; [split|].
  - rewrite Ed. apply CompInv_upd; [clear; set_solver|]. eapply CompInv_step; [exact HI|exact Hstep|]. rewrite <-(Hkv statehash_shortstatehash) by in_list. by rewrite Ed.
  - intros e p Hp. assert (pdu_cache shared_room = ∅) as Ec by (vm_compute; reflexivity). rewrite Ec, lookup_empty in Hp. discriminate Hp.
  - exists st, (Some visibility_pdu), None, HShared, Leave. split; [exact Hst'|]. split; [exact Hkey|].
    split; [|split; [reflexivity|split; [|split; [reflexivity|vm_compute; reflexivity]]]].
    + destruct Hh as (id & Hid & Hs). exists id. split; [|].
      * unfold state_id, has_entry in *. rewrite (Hkv statekey_shortstatekey), (Hkv eventid_shorteventid) by in_list. exact Hid.
      * revert Hs. rewrite !stored_eq, (Hkv eventid_pduid), (Hkv eventid_outlierpdu) by in_list.
        assert (kv sample_room_db eventid_pduid = ∅) as -> by (vm_compute; reflexivity). by rewrite !lookup_empty.
    + unfold state_event, no_entry in *. rewrite (Hkv statekey_shortstatekey) by in_list. exact Hm.
Qed.

Definition history_reader : Reader := mkReader (mkNode (mkHandler (mkServer (mkSender shared_room ∅ [] [] true) ∅ []) ∅ ∅ ∅ ∅) ∅ ∅ ∅ ∅ []) ∅.

Definition first_page : res MessagesResponse * Reader :=
  get_message_events_route (λ b, b) (lit "b") (λ _ _ _ _ _, Some []) [] [] (λ _, true) (λ b, b) 0 0 5 (lit "@a:b") (lit "D")
    (mkMessagesRequest (lit "!r") None None Forward 10) history_reader.


(** A message, a reply to it and a reply to the reply. *)
Definition related_room : Db :=
  upd eventid_pduid (λ _, {[lit "$e1" := pdu_id 1 (Pdu.Normal 3)]}) (upd tofrom_relation (λ _, {[to_be_bytes 3 ++ to_be_bytes 4 := []; to_be_bytes 4 ++ to_be_bytes 5 := []]})
    (upd pduid_pdu (λ t, <[pdu_id 1 (Pdu.Normal 5) := to_vec (history_event (lit "$e3"))]> t) history_room)).

Lemma relations_found_to_depth_witness : ∃ l,
  all_relations_until (lit "@a:b") (lit "!r") (lit "$e1") PduCount_max 1 related_room = (Ok l, related_room) ∧ Sorted count_le l ∧ length l = 2%nat.
Proof.
  destruct (relations_found_to_depth related_room (lit "@a:b") 1 PduCount_max (lit "!r") (lit "$e1") (Some (Pdu.Normal 3)) 1) as (l & Hl & Hs & _).
  - apply injective_projections; [vm_compute; reflexivity|reflexivity].
  - apply injective_projections; [vm_compute; reflexivity|reflexivity].
  - exists l. split_and!; [exact Hl|exact Hs|].
    assert (match (all_relations_until (lit "@a:b") (lit "!r") (lit "$e1") PduCount_max 1 related_room).1 with Ok l => length l = 2%nat | _ => False end) as H by (vm_compute; reflexivity).
    rewrite Hl in H. exact H.
Defined.

Lemma search_merge_sorted_witness :
  merge_searches 3 [[[9]; [4]]; []; [[7]; [7]; [1]]] = [[9]; [7]; [7]] ∧
  merge_searches 3 [[[9]; [4]]; []; [[7]; [7]; [1]]] = take 3 (merge_sort newer (concat [[[9]; [4]]; []; [[7]; [7]; [1]]])).
Proof. split; [reflexivity|]. apply search_merge_sorted. repeat constructor. Defined.
