(* ===== verification/AccountRoutes.v ===== *)
(** * AccountRoutes: accounts, devices, profiles and settings of a client

    The client routes [account.rs], [device.rs], [profile.rs], [tag.rs],
    [config.rs], [filter.rs], [openid.rs], [alias.rs] and [presence.rs] of
    [server/src/api/client_server], with what they ask of [service/users] (the
    cached times devices were last seen), of [service/admin] (the admin room
    and its first member) and of [service/rooms/edus/presence].  The sensitive
    routes go through the guard of [Uiaa]. *)
From S2P Require Import Prelude Bytes JsonValue KvTree Pdu Database Short StateCompressor RoomState Accounts StateCache.
From S2P Require Import Timeline PduJson AccountData Devices UserKeys AuthChain Edus RoomTables Search Sending StateAccess MemberEvents Uiaa Appservice.
From S2P Require Import TimelineService ServerKeys EventHandler EventFetch LocalEvents Membership MembershipInv FederationRoutes Rooms.

(** ** State and data *)

(** The services, the messages for the admin room, and the times devices were
    seen that are not written yet. *)
Record Front := mkFront {
  fr_server : Server;
  fr_notices : list bytes;
  device_last_seen : gmap (bytes * bytes) Z;
}.

Definition on_server {A} (m : M Server A) : M Front A := λ f,
  let '(r, s) := m (fr_server f) in (r, mkFront s (fr_notices f) (device_last_seen f)).

Definition fdb {A} (m : M Db A) : M Front A := on_server (db_ m).

(** [services().admin.send_message(notice_plain(..))]. *)
Definition send_notice (text : bytes) : M Front unit := modify (λ f, mkFront (fr_server f) (fr_notices f ++ [text]) (device_last_seen f)).

Definition front_db (f : Front) : Db := sv_db (fr_server f).

Inductive RegisterLogin := RegisterAppservice | RegisterOther.

Record RegisterRequest := mkRegisterRequest {
  rg_username : option bytes;
  rg_guest : bool;
  rg_login_type : option RegisterLogin;
  rg_password : option bytes;
  rg_auth : option AuthData;
  rg_inhibit_login : bool;
  rg_device_id : option bytes;
  rg_device_name : option bytes;
}.

Record RegisterResponse := mkRegisterResponse {
  rr_access_token : option bytes;
  rr_user_id : bytes;
  rr_device_id : option bytes;
}.

(** What is drawn at random or read from the clock. *)
Record RegisterEnv := mkRegisterEnv {
  re_names : list bytes;
  re_session : bytes;
  re_device : bytes;
  re_token : bytes;
  re_now : Z;
}.

(** ruma: the strict grammar of user names, messages, tags and receipts; the
    answers of other servers about profiles. *)
Class AccountApi := {
  validate_strict : bytes → bool;
  text_html : bytes → bytes → bytes;
  welcome_text : bytes → bytes;
  welcome_html : bytes → bytes;
  (** the tags of a [TagEvent], and the event *)
  tags_of_event : Value → option (list (bytes * Value));
  tags_event : list (bytes * Value) → Value;
  (** the [content] of an account data event *)
  event_content : Value → option Value;
  (** display name, avatar and blurhash *)
  fed_profile : bytes → bytes → option ProfileField → res (option bytes * option bytes * option bytes);
}.

Section routes.
Context {RU : Ruma} {LR : LruCache} {HO : HashOrder} {MO : MapOrder} {CT : Contents} {RV : RoomVersions} {EB : EventBodies} {EC : EventChecks}.
Context {SG : Signing} {AP : Appender} {MC : MemberContents} {MR : MemberRemote} {RX : Regex} {LP : Localpart} {RC : RoomContents} {AA : AccountApi}.
Context `{JP : !Json PduEvent} `{JV : !Json Value} `{JL : !Json (list Value)} `{JR : !Json RedactionContent} `{JF : !Json CanonicalJsonObject}.
Context `{JD : !Json Device} `{JU : !Json UiaaInfo}.
Context (server_name server_user admin_alias : bytes) (registration_token : option bytes) (argon2_verify : bytes → bytes → bool).
Context (auth_types_for_event : bytes → bytes → option bytes → bytes → AuthRules → option (list (bytes * bytes))).
Context (calculate_password_hash : bytes → option bytes) (to_lowercase : bytes → bytes) (has_field : bytes → Value → bool).
Context (direct_of : Value → option (list (bytes * list bytes))) (direct_value : list (bytes * list bytes) → Value) (ignored_of : Value → option (list bytes)).
Context (default_push_rules : bytes → Value) (appservices : list RegistrationInfo) (enable_lightning_bolt : bool).
Abbreviation build := (build_and_append_pdu server_name server_user admin_alias auth_types_for_event).
Abbreviation guard := (uiaa_guard server_name registration_token argon2_verify).

(** ** When devices were seen *)

Definition update_device_last_seen (now : Z) (user_id device_id : bytes) : M Front unit :=
  modify (λ f, mkFront (fr_server f) (fr_notices f) (<[(user_id, device_id) := now]> (device_last_seen f))).

(** The map is taken before the database is written. *)
Definition write_cached_last_seen : M Front unit :=
  map ← gets (λ f, Ok (device_last_seen f));
  if bool_decide (map = ∅) then mret tt else
  modify (λ f, mkFront (fr_server f) (fr_notices f) ∅);;
  fdb (set_devices_last_seen ((λ e, (e.1.1, e.1.2, e.2)) <$> map_to_list map)).

Definition try_update_device_last_seen : M Front unit := write_cached_last_seen.

(** The devices of a user, with the cached times. *)
Definition all_user_devices_metadata_fresh (user_id : bytes) : M Front (list Device) :=
  all_devices ← fdb (gets (λ d, Ok (oks (all_user_devices_metadata user_id d))));
  seen ← gets (λ f, Ok (device_last_seen f));
  mret ((λ d, match seen !! (user_id, Devices.device_id d) with
    | Some ts => mkDevice (Devices.device_id d) (display_name d) (last_seen_ip d) (Some ts)
    | None => d
    end) <$> all_devices).

(** ** Devices *)

Definition get_devices_route (sender_user : bytes) : M Front (list Device) := all_user_devices_metadata_fresh sender_user.

Definition get_device_route (sender_user device_id : bytes) : M Db Device :=
  o ← get_device_metadata sender_user device_id;
  lift (ok_or o (BadRequest NotFound "Device not found.")).

Definition update_device_route (sender_user device_id : bytes) (name : option bytes) : M Db unit :=
  o ← get_device_metadata sender_user device_id;
  device ← lift (ok_or o (BadRequest NotFound "Device not found."));
  update_device_metadata sender_user device_id (mkDevice (Devices.device_id device) name (last_seen_ip device) (last_seen_ts device)).

Definition delete_device_route (session sender_user sender_device : bytes) (auth : option AuthData) (json_body : option bytes) (device_id : bytes) : M Db unit :=
  guard session sender_user sender_device [[AuthPassword]] auth json_body;;
  remove_device sender_user device_id.

Definition delete_devices_route (session sender_user sender_device : bytes) (auth : option AuthData) (json_body : option bytes) (devices : list bytes) : M Db unit :=
  guard session sender_user sender_device [[AuthPassword]] auth json_body;;
  for_each devices (λ device_id, remove_device sender_user device_id).

(** ** The admin room *)

Definition member_event (user : bytes) (content : MemberContent) : PduBuilder :=
  mkBuilder (lit "m.room.member") (member_content_json content) None (Some user) None None.

Definition create_admin_room (now : Z) (fresh_room_id : bytes) : M Server unit :=
  (* Create a user for the server *)
  db_ (create calculate_password_hash server_user None);;
  rules ← lift (expect (authorization_rules default_room_version));
  (* 1. The room create event *)
  room_id ← send_create_room server_name auth_types_for_event now fresh_room_id (to_vec (create_content rules default_room_version server_user [])) server_user rules;
  (* 2. Make conduit bot join *)
  build now (member_event server_user (new_member Join)) server_user room_id;;
  (* 3. Power levels *)
  let users := if explicitly_privilege_room_creators rules then ∅ else {[server_user := 100]} in
  build now (state_builder (lit "m.room.power_levels") (to_vec (VObject (power_levels_content rules users)))) server_user room_id;;
  (* 4. Join rules, history visibility, guest access *)
  build now (state_builder (lit "m.room.join_rules") (join_rules_json JInvite)) server_user room_id;;
  build now (state_builder (lit "m.room.history_visibility") (history_visibility_json HShared)) server_user room_id;;
  build now (state_builder (lit "m.room.guest_access") (guest_access_json false)) server_user room_id;;
  (* 5. Events implied by name and topic *)
  build now (state_builder (lit "m.room.name") (name_json (server_name ++ lit " Admin Room"))) server_user room_id;;
  build now (state_builder (lit "m.room.topic") (topic_json (lit "Manage " ++ server_name))) server_user room_id;;
  (* 6. Room alias *)
  build now (state_builder (lit "m.room.canonical_alias") (canonical_alias_json admin_alias)) server_user room_id;;
  db_ (set_alias admin_alias server_user admin_alias room_id server_user).

(** Invite the user to the admin room, and grant them its power level. *)
Definition make_user_admin (now : Z) (user_id displayname : bytes) : M Server unit :=
  o ← db_ (get_admin_room admin_alias);
  match o with
  | None => mret tt
  | Some room_id =>
      build now (member_event user_id (new_member Invite)) server_user room_id;;
      build now (member_event user_id (mkMember Join (Some displayname) None None None None None None)) user_id room_id;;
      (* Set power level *)
      room_version ← db_ (get_room_version room_id);
      rules ← lift (expect (authorization_rules room_version));
      let users := <[user_id := 100]> (if explicitly_privilege_room_creators rules then ∅ else {[server_user := 100]}) in
      build now (state_builder (lit "m.room.power_levels") (to_vec (VObject (power_levels_content rules users)))) server_user room_id;;
      (* Send welcome message *)
      build now (mkBuilder (lit "m.room.message") (text_html (welcome_text server_name) (welcome_html server_name)) None None None None) server_user room_id;;
      mret tt
  end.

(** ** Accounts *)

(** [UserId::parse_with_server_name(name.to_lowercase(), ..)], strict and of this server. *)
Definition strict_user_id (username : bytes) : option bytes :=
  match parse_with_server_name (to_lowercase username) server_name with
  | Some user_id => if validate_strict user_id && bool_decide (server_name_of user_id = server_name) then Some user_id else None
  | None => None
  end.

Definition free_user_id (username : bytes) : M Db bytes :=
  user_id ← lift (ok_or (strict_user_id username) (BadRequest InvalidUsername "Username is invalid."));
  ex ← exists_ user_id;
  if (ex : bool) then fail (BadRequest UserInUse "Desired user ID is already taken.") else mret user_id.

Definition get_register_available_route (username : bytes) : M Db unit := free_user_id username;; mret tt.

(** Random names, until one is free; [None] when none of the drawn ones is. *)
Fixpoint random_user_id (names : list bytes) : M Db (option bytes) :=
  match names with
  | [] => mret None
  | name :: names =>
      proposed_user_id ← lift (expect (parse_with_server_name (to_lowercase name) server_name));
      ex ← exists_ proposed_user_id;
      if (ex : bool) then random_user_id names else mret (Some proposed_user_id)
  end.

(** The namespaces of appservices. *)
Definition check_namespace (login_type : option RegisterLogin) (appservice_info : option RegistrationInfo) (user_id : bytes) : res unit :=
  match login_type, appservice_info with
  | Some RegisterAppservice, Some info => if is_user_match info user_id then Ok tt else Err (BadRequest Exclusive "User is not in namespace.")
  | Some RegisterAppservice, None => Err (BadRequest MissingToken "Missing appservice token.")
  | _, _ => if existsb (λ info, is_exclusive_user_match info user_id) appservices then Err (BadRequest Exclusive "User id reserved by appservice.") else Ok tt
  end.

(** A token is asked for when one is configured; otherwise the stage is a dummy,
    which guests skip.  Appservices skip both. *)
Definition register_auth (session : bytes) (guest : bool) (appservice_info : option RegistrationInfo) (auth : option AuthData) (json_body : option bytes) : M Db unit :=
  let token_required := bool_decide (is_Some registration_token) in
  let flows := if token_required then [[AuthRegistrationToken]] else [[AuthDummy]] in
  if bool_decide (is_Some appservice_info) || (negb token_required && guest) then mret tt else
  nobody ← lift (expect (parse_with_server_name [] server_name));
  guard session nobody [] flows auth json_body.

Definition register_route (allow_registration : bool) (env : RegisterEnv) (appservice_info : option RegistrationInfo) (json_body : option bytes) (body : RegisterRequest)
    : M Front (option RegisterResponse) :=
  if negb allow_registration && negb (bool_decide (is_Some appservice_info)) then fail (BadRequest Forbidden "Registration has been disabled.") else
  let is_guest := rg_guest body in
  o ← fdb (match rg_username body, is_guest with
    | Some username, false => user_id ← free_user_id username; mret (Some user_id)
    | _, _ => random_user_id (re_names env)
    end);
  match o with
  | None => mret None
  | Some user_id =>
      lift (check_namespace (rg_login_type body) appservice_info user_id);;
      fdb (register_auth (re_session env) is_guest appservice_info (rg_auth body) json_body);;
      let password := if is_guest then None else rg_password body in
      (* Create user *)
      fdb (create calculate_password_hash user_id password);;
      let displayname := localpart user_id ++ (if enable_lightning_bolt then lit " " ++ [226; 154; 161; 239; 184; 143] else []) in
      fdb (set_displayname user_id (Some displayname));;
      (* Initial account data *)
      fdb (update has_field None user_id (lit "m.push_rules") (default_push_rules user_id));;
      (* Inhibit login does not work for guests *)
      if negb is_guest && rg_inhibit_login body then mret (Some (mkRegisterResponse None user_id None)) else
      let device_id := default (re_device env) (if is_guest then None else rg_device_id body) in
      fdb (create_device (re_now env) user_id device_id (re_token env) (rg_device_name body));;
      (if negb (bool_decide (is_Some appservice_info)) && negb is_guest
       then send_notice (lit "New user " ++ user_id ++ lit " registered on this server.") else mret tt);;
      (* If this is the first real user, grant them admin privileges *)
      (if is_guest then mret tt else
       o ← fdb (get_admin_room admin_alias);
       match o with
       | None => mret tt
       | Some admin_room =>
           count ← fdb (room_joined_count admin_room);
           if bool_decide (count = Some 1) then on_server (make_user_admin (re_now env) user_id displayname) else mret tt
       end);;
      mret (Some (mkRegisterResponse (Some (re_token env)) user_id (Some device_id)))
  end.

Definition change_password_route (session : bytes) (sender_user : option bytes) (sender_device new_password : bytes) (logout_devices : bool)
    (auth : option AuthData) (json_body : option bytes) : M Front unit :=
  sender_user ← lift (ok_or sender_user (BadRequest MissingToken "Missing access token."));
  fdb (guard session sender_user sender_device [[AuthPassword]] auth json_body);;
  fdb (set_password calculate_password_hash sender_user (Some new_password));;
  (* Logout all devices except the current one *)
  (if logout_devices then
     ids ← fdb (gets (λ d, Ok (oks (all_device_ids sender_user d))));
     for_each (bfilter (λ id, negb (bool_decide (id = sender_device))) ids) (λ id, fdb (remove_device sender_user id))
   else mret tt);;
  send_notice (lit "User " ++ sender_user ++ lit " changed their password.").

Definition whoami_route (sender_user : bytes) (sender_device : option bytes) (appservice_info : option RegistrationInfo) : M Db (bytes * option bytes * bool) :=
  deactivated ← is_deactivated sender_user;
  mret (sender_user, sender_device, deactivated && negb (bool_decide (is_Some appservice_info))).

Definition deactivate_route (session : bytes) (now : Z) (sender_user : option bytes) (sender_device : bytes) (auth : option AuthData) (json_body : option bytes)
    : M Front unit :=
  sender_user ← lift (ok_or sender_user (BadRequest MissingToken "Missing access token."));
  fdb (guard session sender_user sender_device [[AuthPassword]] auth json_body);;
  (* Make the user leave all rooms before deactivation *)
  on_server (leave_all_rooms server_name server_user admin_alias auth_types_for_event calculate_password_hash direct_of direct_value ignored_of now sender_user);;
  (* Remove devices and mark account as deactivated *)
  fdb (deactivate_account calculate_password_hash sender_user);;
  send_notice (lit "User " ++ sender_user ++ lit " deactivated their account.").

Definition third_party_route : res (list bytes) := Ok [].

Definition request_3pid_management_token_via_email_route : res unit :=
  Err (BadRequest ThreepidDenied "Third party identifiers are currently unsupported by this server implementation").

Definition request_3pid_management_token_via_msisdn_route : res unit :=
  Err (BadRequest ThreepidDenied "Third party identifiers are currently unsupported by this server implementation").

(** ** Profiles *)

(** The user's member event in every joined room, with a changed profile; rooms
    where it cannot be read are left out. *)
Definition profile_events (sender_user : bytes) (change : MemberContent → MemberContent) : M Db (list (PduBuilder * bytes)) :=
  rooms ← gets (λ d, Ok (oks (rooms_joined sender_user d)));
  foldM (λ events room_id,
    r ← try_ok (
      o ← room_state_get room_id (lit "m.room.member") sender_user;
      event ← lift (ok_or o (BadDatabase "Tried to send displayname update for user not in the room."));
      content ← lift (ok_or (member_content_of (pdu_content event)) (BadDatabase "Database contains invalid PDU."));
      mret (member_event sender_user (change content)));
    mret (match r with Some b => events ++ [(b, room_id)] | None => events end)) [] rooms.

(** [edus.presence.update_presence]: presence is switched off, only the profile
    of the event is read. *)
Definition update_presence_off (sender_user : bytes) : M Db unit := avatar_url sender_user;; displayname sender_user;; mret tt.

(** Send the events, whether or not they are accepted, and presence updates. *)
Definition announce_profile (now : Z) (sender_user : bytes) (events : list (PduBuilder * bytes)) : M Server unit :=
  for_each events (λ '(pdu_builder, room_id),
    try_ok (build now pdu_builder sender_user room_id);;
    db_ (update_presence_off sender_user)).

Definition set_displayname_route (now : Z) (sender_user : bytes) (name : option bytes) : M Server unit :=
  db_ (set_displayname sender_user name);;
  events ← db_ (profile_events sender_user (λ c, mkMember (mc_membership c) name (mc_avatar_url c) (mc_is_direct c) (mc_third_party_invite c) (mc_blurhash c)
    (mc_reason c) None));
  announce_profile now sender_user events.

Definition set_avatar_url_route (now : Z) (sender_user : bytes) (url hash : option bytes) : M Server unit :=
  db_ (set_avatar_url sender_user url);;
  db_ (set_blurhash sender_user hash);;
  events ← db_ (profile_events sender_user (λ c, mkMember (mc_membership c) (mc_displayname c) url (mc_is_direct c) (mc_third_party_invite c) (mc_blurhash c)
    (mc_reason c) None));
  announce_profile now sender_user events.

Definition get_displayname_route (user_id : bytes) : M Db (option bytes) :=
  if bool_decide (server_name_of user_id ≠ server_name) then
    r ← lift (fed_profile (server_name_of user_id) user_id (Some PDisplayName)); mret r.1.1
  else displayname user_id.

Definition get_avatar_url_route (user_id : bytes) : M Db (option bytes * option bytes) :=
  if bool_decide (server_name_of user_id ≠ server_name) then
    r ← lift (fed_profile (server_name_of user_id) user_id (Some PAvatarUrl)); mret (r.1.2, r.2)
  else url ← avatar_url user_id; hash ← blurhash user_id; mret (url, hash).

Definition get_profile_route (user_id : bytes) : M Db (option bytes * option bytes * option bytes) :=
  if bool_decide (server_name_of user_id ≠ server_name) then lift (fed_profile (server_name_of user_id) user_id None) else
  ex ← exists_ user_id;
  if negb ex then fail (BadRequest NotFound "Profile was not found.") else
  url ← avatar_url user_id;
  hash ← blurhash user_id;
  name ← displayname user_id;
  mret (name, url, hash).

(** ** Presence *)

Definition set_presence_route (sender_user : bytes) : M Db unit :=
  rooms ← gets (λ d, Ok (rooms_joined sender_user d));
  for_each rooms (λ r, lift r;; update_presence_off sender_user).

(** [get_last_presence_event]: always nothing. *)
Definition get_last_presence_event (user_id room_id : bytes) : res (option PresenceEvent) := Ok None.

Fixpoint first_presence (sender_user : bytes) (rooms : list (res bytes)) : res (option PresenceEvent) :=
  match rooms with
  | [] => Ok None
  | r :: rooms =>
      room_id ← r;
      o ← get_last_presence_event sender_user room_id;
      match o with Some presence => Ok (Some presence) | None => first_presence sender_user rooms end
  end.

Definition get_presence_route (sender_user user_id : bytes) : M Db PresenceEvent :=
  rooms ← gets (get_shared_rooms [sender_user; user_id]);
  o ← lift (first_presence sender_user rooms);
  lift (ok_or o (BadRequest NotFound "Presence state for this user was not found")).

(** ** Tags and account data *)

(** The tags of a room; none when nothing is stored. *)
Definition stored_tags (sender_user room_id : bytes) : M Db (list (bytes * Value)) :=
  event ← get_data (Some room_id) sender_user (lit "m.tag");
  lift (match event with
    | Some e => ok_or (tags_of_event e) (BadDatabase "Invalid account data event in db.")
    | None => Ok []
    end).

Definition update_tag_route (sender_user room_id tag : bytes) (tag_info : Value) : M Db unit :=
  tags ← stored_tags sender_user room_id;
  update has_field (Some room_id) sender_user (lit "m.tag") (tags_event (set_json_field tag tag_info tags)).

Definition delete_tag_route (sender_user room_id tag : bytes) : M Db unit :=
  tags ← stored_tags sender_user room_id;
  update has_field (Some room_id) sender_user (lit "m.tag") (tags_event (bfilter (λ e, negb (bool_decide (e.1 = tag))) tags)).

Definition get_tags_route (sender_user room_id : bytes) : M Db (list (bytes * Value)) := stored_tags sender_user room_id.

Definition account_data_event (event_type : bytes) (data : Value) : Value := VObject [(lit "type", VString event_type); (lit "content", data)].

Definition set_account_data (room_id : option bytes) (sender_user event_type text : bytes) : M Db unit :=
  data ← lift (ok_or (from_slice text) (BadRequest BadJson "Data is invalid."));
  update has_field room_id sender_user event_type (account_data_event event_type data).

Definition set_global_account_data_route (sender_user event_type data : bytes) : M Db unit := set_account_data None sender_user event_type data.

Definition set_room_account_data_route (sender_user room_id event_type data : bytes) : M Db unit := set_account_data (Some room_id) sender_user event_type data.

Definition read_account_data (room_id : option bytes) (sender_user event_type : bytes) : M Db Value :=
  o ← get_data room_id sender_user event_type;
  event ← lift (ok_or o (BadRequest NotFound "Data not found."));
  lift (ok_or (event_content event) (BadDatabase "Invalid account data event in db.")).

Definition get_global_account_data_route (sender_user event_type : bytes) : M Db Value := read_account_data None sender_user event_type.

Definition get_room_account_data_route (sender_user room_id event_type : bytes) : M Db Value := read_account_data (Some room_id) sender_user event_type.

(** ** Filters, OpenID and aliases *)

Section filters.
Context {Filter : Type} `{JFi : !Json Filter}.

Definition get_filter_route (sender_user filter_id : bytes) : M Db Filter :=
  o ← get_filter sender_user filter_id;
  lift (ok_or o (BadRequest NotFound "Filter not found.")).

Definition create_filter_route (random_id sender_user : bytes) (filter : Filter) : M Db bytes := create_filter random_id sender_user filter.
End filters.

(** The user is the one of the path. *)
Definition create_openid_token_route (openid_token_ttl : Z) (token : bytes) (now : Z) (user_id : bytes) : M Db (bytes * Z) :=
  create_openid_token openid_token_ttl token now user_id.

(** An alias of this server, in the namespace of the appservice that asks or in
    no appservice's. *)
Definition check_alias (appservice_info : option RegistrationInfo) (room_alias : bytes) : res unit :=
  if bool_decide (server_name_of room_alias ≠ server_name) then Err (BadRequest InvalidParam "Alias is from another server.") else
  match appservice_info with
  | Some info => if is_match (aliases info) room_alias then Ok tt else Err (BadRequest Exclusive "Room alias is not in namespace.")
  | None => if existsb (λ info, is_exclusive_match (aliases info) room_alias) appservices
            then Err (BadRequest Exclusive "Room alias reserved by appservice.") else Ok tt
  end.

Definition create_alias_route (sender_user : bytes) (appservice_info : option RegistrationInfo) (room_alias room_id : bytes) : M Db unit :=
  lift (check_alias appservice_info room_alias);;
  o ← resolve_local_alias room_alias;
  match o with
  | Some _ => fail (Conflict "Alias already exists.")
  | None => set_alias admin_alias server_user room_alias room_id sender_user
  end.

Definition delete_alias_route (can_send_canonical_alias : bytes → bytes → Db → res bool) (sender_user : bytes)
    (appservice_info : option RegistrationInfo) (room_alias : bytes) : M Db unit :=
  lift (check_alias appservice_info room_alias);;
  remove_alias server_user (λ user d, (is_admin admin_alias user d).1) can_send_canonical_alias room_alias sender_user.

Definition get_alias_route (room_alias : bytes) : M Db (bytes * list bytes) := get_alias_helper server_name appservices room_alias.
End routes.

(** * What the routes guarantee *)

Lemma fdb_inv {A} (m : M Db A) f a f' : fdb m f = (Ok a, f') → m (front_db f) = (Ok a, front_db f').
Proof.
  unfold fdb, on_server, db_, on_sender, with_db, front_db, sv_db. destruct f as [[[d q w t s] sp ad] nt ls]. cbn.
  destruct (m d) as [r d']. by intros [= -> <-].
Qed.

(** The tree of the access tokens, and what it is computed from. *)
Definition token_trees (d : Db) := (kv d token_userdeviceid, kv d userdeviceid_token, kv d userdeviceid_metadata).

Section guard.
Context {RU : Ruma} {JU : Json UiaaInfo} (server_name : bytes) (registration_token : option bytes) (argon2_verify : bytes → bytes → bool).
Context (calculate_password_hash : bytes → option bytes).
Abbreviation guard := (uiaa_guard server_name registration_token argon2_verify).

(** Logging out a list of devices revokes exactly their tokens. *)
Lemma logout_devices_spec u ids f f' :
  TokenInv (front_db f) → for_each ids (λ id, fdb (remove_device u id)) f = (Ok tt, f') →
  (∀ tok ud, kv (front_db f') token_userdeviceid !! tok = Some ud ↔ kv (front_db f) token_userdeviceid !! tok = Some ud ∧ ud ∉ userdeviceid u <$> ids) ∧
  kv (front_db f') userid_password = kv (front_db f) userid_password.
Proof.
  revert f. induction ids as [|id ids IH]; intros f HI H; cbn [for_each] in H.
  { injection H as <-. split; [|done]. intros tok ud. set_solver. }
  apply bind_inv in H as ([] & f1 & H1 & H). apply fdb_inv in H1.
  destruct (remove_device_spec (front_db f) u id HI) as (d1 & Hd1 & HI1 & _ & _ & Htok & _).
  assert (kv (front_db f1) userid_password = kv (front_db f) userid_password) as Hpw.
  { assert (keeps_field (λ d, kv d userid_password) (remove_device u id)) as Hk by (unfold remove_device; keeps). specialize (Hk (front_db f)). by rewrite H1 in Hk. }
  rewrite H1 in Hd1. injection Hd1 as <-. destruct (IH f1 HI1 H) as [IHt IHp]. split; [|by rewrite IHp].
  intros tok ud. rewrite IHt, Htok. cbn [fmap list_fmap]. rewrite not_elem_of_cons. case_decide as Et.
  - apply (ti_fwd _ HI) in Et. split; [by intros []|]. intros [Hud [Hne _]]. congruence.
  - split; [|naive_solver]. intros [Hud Hnin]. split_and!; [done| |done]. intros ->. by apply Et, (ti_bwd _ HI).
Qed.

(** The devices that are logged out. *)
Lemma logout_loop u dv (logout : bool) f f' :
  (if logout then
     ids ← fdb (gets (λ d, Ok (oks (all_device_ids u d))));
     for_each (bfilter (λ id, negb (bool_decide (id = dv))) ids) (λ id, fdb (remove_device u id))
   else mret tt) f = (Ok tt, f') →
  ∃ ids, for_each ids (λ id, fdb (remove_device u id)) f = (Ok tt, f') ∧
    ids = if logout then bfilter (λ id, negb (bool_decide (id = dv))) (oks (all_device_ids u (front_db f))) else [].
Proof.
  destruct logout; intros H; [|by exists []]. apply bind_inv in H as (ids & f1 & H1 & H). eexists. split; [|done].
  unfold fdb, on_server, db_, on_sender, with_db, front_db, sv_db, gets in *. destruct f as [[[d q w t s] sp ad] nt ls]. cbn in *. by injection H1 as <- <-.
Qed.

Lemma find_from_token_lookup tok d d' : kv d' token_userdeviceid !! tok = kv d token_userdeviceid !! tok → (find_from_token tok d').1 = (find_from_token tok d).1.
Proof. intros E. unfold find_from_token, get, kv_get. run. rewrite E. by destruct (kv d token_userdeviceid !! tok). Qed.

Lemma guard_tokens session u dv flows auth json : keeps_field token_trees (guard session u dv flows auth json).
Proof.
  unfold uiaa_guard, try_auth, check_stage, get_uiaa_session, update_uiaa_session, create_uiaa, set_uiaa_request, password_hash. keeps.
Qed.

Lemma sessions_kept u dv d d' :
  kv d' userdevicesessionid_uiaainfo = kv d userdevicesessionid_uiaainfo → PasswordSessions u dv d → PasswordSessions u dv d'.
Proof. intros E HP session info. unfold StoredSession. rewrite E. apply HP. Qed.

Lemma logout_sessions u ids f f' :
  for_each ids (λ id, fdb (remove_device u id)) f = (Ok tt, f') →
  kv (front_db f') userdevicesessionid_uiaainfo = kv (front_db f) userdevicesessionid_uiaainfo.
Proof.
  revert f. induction ids as [|id ids IH]; intros f H; cbn [for_each] in H; [by injection H as <-|].
  apply bind_inv in H as ([] & f1 & H1%fdb_inv & H). rewrite (IH _ H).
  assert (keeps_field (λ d, kv d userdevicesessionid_uiaainfo) (remove_device u id)) as Hk by (unfold remove_device; keeps).
  specialize (Hk (front_db f)). by rewrite H1 in Hk.
Qed.

(** C37: Changing the password takes authentication and, when the client asks
    for it, logs the other devices out.  When the route succeeds: what the client
    sent completes a flow, the password flow or that of the session it
    continues; where the device's sessions are the ones the server starts
    (the password, not proved yet), that took the password of the account named
    in the request, and they stay so; the hash of the new password is stored;
    with [logout_devices], the token of every other device of the user is unknown;
    and the tokens of this device and of other users, without [logout_devices]
    all tokens, stay valid. *)
Theorem password_change_revokes session u dv pw logout auth json f f' :
  TokenInv (front_db f) → utf8_valid u = true →
  change_password_route server_name registration_token argon2_verify calculate_password_hash session (Some u) dv pw logout auth json f = (Ok tt, f') →
  (∃ a, auth = Some a ∧ Authenticated server_name registration_token argon2_verify (front_db f) u dv [[AuthPassword]] a ∧
    (PasswordSessions u dv (front_db f) → PasswordSessions u dv (front_db f') ∧
      ∃ username password s, a = DataPassword (UserIdOrLocalpart username) password s ∧ password_accepted server_name argon2_verify (front_db f) username password)) ∧
  (∃ hash, calculate_password_hash pw = Some hash ∧ kv (front_db f') userid_password !! u = Some hash) ∧
  (logout = true → ∀ tok dv', dv' ≠ dv → utf8_valid dv' = true → kv (front_db f) token_userdeviceid !! tok = Some (userdeviceid u dv') →
     (find_from_token tok (front_db f')).1 = Ok None) ∧
  (∀ tok u' dv', no_ff u' → logout = false ∨ u' ≠ u ∨ dv' = dv → kv (front_db f) token_userdeviceid !! tok = Some (userdeviceid u' dv') →
     (find_from_token tok (front_db f')).1 = (find_from_token tok (front_db f)).1).
Proof.
  intros HI Hu H. unfold change_password_route in H. apply bind_inv in H as (x & f0 & H0 & H). injection H0 as <- <-.
  apply bind_inv in H as ([] & f1 & H1 & H). apply fdb_inv in H1. apply bind_inv in H as ([] & f2 & H2 & H). apply fdb_inv in H2.
  apply bind_inv in H as ([] & f3 & H3 & H). injection H as <-.
  apply logout_loop in H3 as (ids & H3 & Hids).
  pose proof (guard_tokens session u dv [[AuthPassword]] auth json (front_db f)) as Hg. rewrite H1 in Hg. cbn [snd] in Hg.
  unfold set_password in H2. destruct (calculate_password_hash pw) as [hash|] eqn:Ehash; [|done]. unfold insert, modify in H2. injection H2 as H2.
  assert (token_trees (front_db f2) = token_trees (front_db f)) as Ht by (rewrite <- H2, <- Hg; unfold token_trees; by kv_simpl).
  injection Ht as Ht1 Ht2 Ht3.
  assert (TokenInv (front_db f2)) as HI2.
  { split; rewrite ?Ht1, ?Ht2, ?Ht3; apply HI. }
  destruct (logout_devices_spec _ _ _ _ HI2 H3) as [Htok Hpw]. change (front_db (mkFront (fr_server f3) _ _)) with (front_db f3).
  split_and!.
  - pose proof (uiaa_guard_authenticates _ _ _ _ _ _ _ _ _ _ _ H1) as (a & -> & Ha). exists a. split; [done|]. split; [done|]. intros HP.
    split; [|by eapply authenticated_password]. eapply sessions_kept; [exact (logout_sessions _ _ _ _ H3)|].
    pose proof (uiaa_guard_sessions server_name registration_token argon2_verify session u dv (Some a) json _ HP) as HP1. rewrite H1 in HP1.
    eapply sessions_kept; [|exact HP1]. rewrite <-H2. by kv_simpl.
  - exists hash. split; [done|]. rewrite Hpw, <- H2. kv_simpl. unfold kv_insert. by rewrite lookup_insert_eq.
  - intros -> tok dv' Hne Hv Hk. unfold find_from_token, get, kv_get. run. destruct (kv (front_db f3) token_userdeviceid !! tok) as [ud|] eqn:E; [|done].
    exfalso. apply Htok in E as [E Hnin]. rewrite Ht1, Hk in E. injection E as <-. apply Hnin, list_elem_of_fmap. exists dv'. split; [done|].
    rewrite Hids. apply elem_of_bfilter. split; [by apply negb_true_iff, bool_decide_eq_false|]. unfold oks. apply list_elem_of_omap.
    exists (Ok dv'). split; [|done]. unfold all_device_ids. apply list_elem_of_fmap.
    destruct (ti_meta _ HI (userdeviceid u dv') tok) as [v Hv']; [by apply (ti_bwd _ HI)|]. exists (userdeviceid u dv', v). split.
    + cbn. unfold userdeviceid. rewrite rsplit_first_app by (by apply utf8_no_ff). by rewrite string_from_bytes_valid.
    + apply elem_of_scan_prefix. split.
      * unfold userdeviceid. change (u ++ ff :: dv') with (u ++ [ff] ++ dv'). rewrite app_assoc. apply starts_with_app.
      * rewrite Ht3. exact Hv'.
  - intros tok u' dv' Hff Hor Hk. apply find_from_token_lookup. rewrite Hk. apply Htok. rewrite Ht1. split; [done|].
    rewrite Hids. destruct logout; [|apply not_elem_of_nil].
    intros (id & E & [Hid _]%elem_of_bfilter)%list_elem_of_fmap. apply app_ff_inj in E as [-> ->]; [|done|by apply utf8_no_ff].
    apply negb_true_iff, bool_decide_eq_false in Hid. naive_solver.
Qed.
End guard.

Section guarantees.
Context {RU : Ruma} {LR : LruCache} {HO : HashOrder} {MO : MapOrder} {CT : Contents} {RV : RoomVersions} {EB : EventBodies} {EC : EventChecks}.
Context {SG : Signing} {AP : Appender} {MC : MemberContents} {RX : Regex} {LP : Localpart} {RC : RoomContents} {AA : AccountApi}.
Context {JP : Json PduEvent} {JV : Json Value} {JR : Json RedactionContent} {JD : Json Device} {JU : Json UiaaInfo}.
Context (server_name server_user admin_alias : bytes) (registration_token : option bytes) (argon2_verify : bytes → bytes → bool).
Context (auth_types_for_event : bytes → bytes → option bytes → bytes → AuthRules → option (list (bytes * bytes))).
Context (calculate_password_hash : bytes → option bytes) (to_lowercase : bytes → bytes) (has_field : bytes → Value → bool).
Context (default_push_rules : bytes → Value) (appservices : list RegistrationInfo) (enable_lightning_bolt : bool).
Lemma exists_inv u d b d' : exists_ u d = (Ok b, d') → d' = d ∧ (b = false → kv d userid_password !! u = None).
Proof. intros H. injection H as <- <-. split; [done|]. intros E%bool_decide_eq_false. by apply eq_None_not_Some. Qed.

Lemma random_user_id_free names d u d' : random_user_id server_name to_lowercase names d = (Ok (Some u), d') →
  d' = d ∧ kv d userid_password !! u = None ∧ ∃ name, name ∈ names ∧ parse_with_server_name (to_lowercase name) server_name = Some u.
Proof.
  revert d. induction names as [|name names IH]; intros d H; [done|]. cbn [random_user_id] in H. apply bind_inv in H as (p & d1 & H1 & H). injection H1 as H1 <-.
  apply bind_inv in H as (ex & d2 & [-> Hex]%exists_inv & H).
  destruct ex; [destruct (IH d H) as (? & ? & name' & ? & ?); split_and!; [done..|]; exists name'; split; [by apply list_elem_of_further|done]|].
  injection H as <- <-. split_and!; [done|by apply Hex|]. exists name. split; [by apply list_elem_of_here|].
  destruct (parse_with_server_name _ _); [by injection H1 as ->|done].
Qed.

Lemma free_user_id_free name d u d' :
  free_user_id server_name to_lowercase name d = (Ok u, d') → d' = d ∧ kv d userid_password !! u = None ∧
    parse_with_server_name (to_lowercase name) server_name = Some u ∧ validate_strict u = true ∧ server_name_of u = server_name.
Proof.
  intros H. unfold free_user_id in H. apply bind_inv in H as (p & d1 & H1 & H). unfold lift, ok_or, strict_user_id in H1.
  destruct (parse_with_server_name _ _) as [v|]; [|done]. destruct (validate_strict v && _) eqn:Ev; [|done]. injection H1 as -> <-.
  apply bind_inv in H as (ex & d2 & [-> Hex]%exists_inv & H). destruct ex; [done|]. injection H as <- <-.
  apply andb_true_iff in Ev as [? ?%bool_decide_eq_true]. split_and!; [done|by apply Hex|done..].
Qed.

(** The stage that registration asks for. *)
Definition register_flow : list (list AuthType) := match registration_token with Some _ => [[AuthRegistrationToken]] | None => [[AuthDummy]] end.

(** The user a registration is for: the name asked for, lower-cased, when it is
    strictly valid and of this server; a random one for guests and when no name
    is asked for. *)
Definition user_of (names : list bytes) (body : RegisterRequest) (user : bytes) : Prop :=
  match rg_username body, rg_guest body with
  | Some name, false => parse_with_server_name (to_lowercase name) server_name = Some user ∧ validate_strict user = true ∧ server_name_of user = server_name
  | _, _ => ∃ name, name ∈ names ∧ parse_with_server_name (to_lowercase name) server_name = Some user
  end.

(** An appservice login takes a name of its own namespace, any other a name that
    no appservice has for itself. *)
Definition name_granted (login : option RegisterLogin) (info : option RegistrationInfo) (user : bytes) : Prop :=
  match login with
  | Some RegisterAppservice => ∃ i, info = Some i ∧ (is_match (users i) user = true ∨ sender_localpart (registration i) = localpart user)
  | _ => ∀ i, i ∈ appservices → is_exclusive_match (users i) user = false ∧ sender_localpart (registration i) ≠ localpart user
  end.

Lemma check_namespace_granted login info u : check_namespace appservices login info u = Ok tt → name_granted login info u.
Proof.
  assert ((if existsb (λ info, is_exclusive_user_match info u) appservices then Err (BadRequest Exclusive "User id reserved by appservice.") else Ok tt) = Ok tt →
    ∀ i, i ∈ appservices → is_exclusive_match (users i) u = false ∧ sender_localpart (registration i) ≠ localpart u) as Hno.
  { destruct (existsb _ _) eqn:E; [done|]. intros _ i Hi. destruct (is_exclusive_user_match i u) eqn:Ei.
    - rewrite <-not_true_iff_false in E. destruct E. apply existsb_exists. exists i. split; [by apply list_elem_of_In|done].
    - unfold is_exclusive_user_match in Ei. apply orb_false_iff in Ei as [? ?%bool_decide_eq_false]. done. }
  unfold check_namespace, name_granted. destruct login as [[|]|]; [|done..]. destruct info as [i|]; [|done]. unfold is_user_match.
  destruct (is_match (users i) u) eqn:Em; [by eauto|]. cbn [orb]. case_bool_decide; [by eauto|done].
Qed.

(** C36: An account is registered only as the server allows.  Registration is
    enabled or an appservice asks; the user is the one asked for, of this server
    and strictly valid, or a random one, and did not exist; its name is in the
    namespace of the appservice that logs in, or in no appservice's exclusive
    one; and unless an appservice asks, or a guest where no token is configured,
    what the client sent completes the configured stage, the registration token
    or else the dummy (or the flow of the session it continues). *)
Theorem registration_guarded allow env info json body f resp f' :
  register_route server_name server_user admin_alias registration_token argon2_verify auth_types_for_event calculate_password_hash to_lowercase has_field
    default_push_rules appservices enable_lightning_bolt allow env info json body f = (Ok (Some resp), f') →
  (allow = true ∨ is_Some info) ∧
  user_of (re_names env) body (rr_user_id resp) ∧ kv (front_db f) userid_password !! rr_user_id resp = None ∧
  name_granted (rg_login_type body) info (rr_user_id resp) ∧
  (info = None → rg_guest body = true ∧ registration_token = None ∨
    ∃ a nobody, rg_auth body = Some a ∧ parse_with_server_name [] server_name = Some nobody ∧
      Authenticated server_name registration_token argon2_verify (front_db f) nobody [] register_flow a).
Proof.
  intros H. unfold register_route in H. destruct (negb allow && _) eqn:Eallow; [done|]. cbv zeta in H.
  apply bind_inv in H as (o & f1 & H1 & H). apply fdb_inv in H1. destruct o as [u|]; [|done].
  assert (front_db f1 = front_db f ∧ kv (front_db f) userid_password !! u = None ∧ user_of (re_names env) body u) as (Ed & Hex & Hname).
  { unfold user_of. destruct (rg_username body) as [name|]; [destruct (rg_guest body)|].
    - by apply random_user_id_free in H1.
    - apply bind_inv in H1 as (v & d1 & H1 & H2). injection H2 as -> <-. by apply free_user_id_free in H1.
    - by apply random_user_id_free in H1. }
  apply bind_inv in H as ([] & f2 & H2 & H). injection H2 as Hns <-.
  apply bind_inv in H as ([] & f3 & H3 & H). apply fdb_inv in H3. rewrite Ed in H3.
  assert (rr_user_id resp = u) as ->.
  { do 3 (apply bind_inv in H as (? & ? & _ & H)). destruct (negb (rg_guest body) && _); [by injection H as <- _|].
    do 3 (apply bind_inv in H as (? & ? & _ & H)). by injection H as <- _. }
  split_and!; [|done|done|by apply check_namespace_granted|].
  - destruct allow; [by left|right]. cbn in Eallow. by apply negb_false_iff, bool_decide_eq_true in Eallow.
  - intros ->. unfold register_auth in H3. rewrite (bool_decide_false (is_Some None)) in H3 by (by intros []). cbn [orb] in H3.
    assert ((if bool_decide (is_Some registration_token) then [[AuthRegistrationToken]] else [[AuthDummy]]) = register_flow) as Eflow
      by (unfold register_flow; by destruct registration_token).
    rewrite Eflow in H3. destruct (negb (bool_decide (is_Some registration_token)) && rg_guest body) eqn:Eg.
    + left. apply andb_true_iff in Eg as [Et ?]. split; [done|]. apply negb_true_iff, bool_decide_eq_false in Et. by destruct registration_token; [destruct Et|].
    + right. apply bind_inv in H3 as (nobody & d1 & Hn & H3). injection Hn as Hn <-. apply uiaa_guard_authenticates in H3 as (a & -> & Ht).
      exists a, nobody. split_and!; [done| |done]. by destruct (parse_with_server_name [] server_name); [injection Hn as ->|].
Qed.
End guarantees.

(** Nobody's presence is ever found: the service keeps none. *)
Theorem presence_never_found {RU : Ruma} u v d : (∃ p, (get_presence_route u v d).1 = Ok p) → False.
Proof.
  intros [p H]. unfold get_presence_route, gets in H. unfold mbind at 1, M_bind at 1 in H. destruct (get_shared_rooms [u; v] d) as [rooms| |]; [|done..].
  unfold mbind, M_bind, lift in H. assert (∀ rooms, first_presence u rooms ≠ Ok None → ∀ o, first_presence u rooms ≠ Ok (Some o)) as Hn.
  { clear. induction rooms as [|[r| |] rooms IH]; cbn; [done|exact IH|done..]. }
  destruct (first_presence u rooms) as [[o|]| |] eqn:E; [|done..]. by eapply (Hn rooms); rewrite E.
Qed.

(** * Witnesses *)

#[local] Existing Instances sample_ruma lru_unbounded elements_order sample_map_order sample_versions sample_create_contents room_bodies sample_checks.
#[local] Existing Instances fetch_object_json fetch_redaction_json room_value_json leave_list_json fetch_pdu_json sample_signing keeper sample_member_contents.
#[local] Existing Instances sample_regex plain_room_contents.
#[local] Instance account_device_json : Json Device := json_countable Device.
#[local] Instance account_uiaa_json : Json UiaaInfo := json_countable UiaaInfo.
#[local] Instance account_localpart : Localpart := {| localpart := λ u, u |}.
#[local] Instance account_api : AccountApi := {|
  validate_strict _ := true; text_html a _ := a; welcome_text s := s; welcome_html s := s; tags_of_event _ := None; tags_event _ := VNull;
  event_content _ := None; fed_profile _ _ _ := Err (BadServerResponse "no") |}.

Definition empty_front (d : Db) : Front := mkFront (mkServer (mkSender d ∅ [] [] true) ∅ []) [] ∅.

(** A server with a registration token and an appservice that has its own user. *)
Definition bridge : RegistrationInfo :=
  mkRegistrationInfo (mkRegistration (lit "bridge") None (lit "T1") (lit "T2") (lit "@bot:b") [] [] [])
    (mkNamespaceRegex None None) (mkNamespaceRegex None None) (mkNamespaceRegex None None).

Definition registered : res (option RegisterResponse) * Front :=
  register_route (lit "b") (lit "@conduit:b") (lit "#admins:b") (Some (lit "secret")) (λ h p, bool_decide (h = p)) (λ _ _ _ _ _, Some []) (λ p, Some p) (λ u, u) (λ _ _, true)
    (λ _, VNull) [bridge] true true (mkRegisterEnv [] (lit "S") (lit "D") (lit "T") 5) None None
    (mkRegisterRequest (Some (lit "a")) false None (Some (lit "pw")) (Some (DataRegistrationToken (lit " secret ") None)) false None None) (empty_front empty_db).

Lemma registration_guarded_witness :
  match registered with
  | (Ok (Some resp), _) => resp = mkRegisterResponse (Some (lit "T")) (lit "@a:b") (Some (lit "D")) ∧
      name_granted [bridge] None None (lit "@a:b") ∧
      Authenticated (lit "b") (Some (lit "secret")) (λ h p, bool_decide (h = p)) empty_db (lit "@:b") [] [[AuthRegistrationToken]] (DataRegistrationToken (lit " secret ") None)
  | _ => False
  end.
Proof.
  assert (registered.1 = Ok (Some (mkRegisterResponse (Some (lit "T")) (lit "@a:b") (Some (lit "D"))))) as Hok by (vm_compute; reflexivity).
  destruct registered as [r f'] eqn:E. cbn [fst] in Hok. subst r. split; [reflexivity|]. unfold registered in E.
  destruct (registration_guarded _ _ _ _ _ _ _ _ _ _ _ _ _ _ _ _ _ _ _ _ E) as (_ & _ & _ & Hn & H). split; [exact Hn|].
  destruct (H eq_refl) as [[H1 _]|(a & nobody & Ha & Hnb & H1)]; [discriminate H1|]. injection Ha as <-. vm_compute in Hnb. injection Hnb as <-. exact H1.
Defined.

Definition two_devices_db : Db := upd userid_password (λ _, {[lit "@a:b" := lit "old"]}) device_db.

Lemma two_devices_tokens : TokenInv two_devices_db.
Proof. pose proof device_db_tokens as [H1 H2 H3]. split; unfold two_devices_db; kv_simpl; assumption. Qed.

Definition changed : res unit * Front :=
  change_password_route (lit "b") None (λ h p, bool_decide (h = p)) (λ p, Some p) (lit "S") (Some (lit "@a:b")) (lit "E") (lit "new") true
    (Some (DataPassword (UserIdOrLocalpart (lit "a")) (lit "old") None)) None (empty_front two_devices_db).

Lemma password_change_revokes_witness :
  (find_from_token (lit "tok") two_devices_db).1 = Ok (Some (lit "@a:b", lit "D")) ∧
  (find_from_token (lit "tok") (front_db changed.2)).1 = Ok None ∧ kv (front_db changed.2) userid_password !! lit "@a:b" = Some (lit "new") ∧
  password_accepted (lit "b") (λ h p, bool_decide (h = p)) two_devices_db (lit "a") (lit "old").
Proof.
  split; [vm_compute; reflexivity|]. assert (changed.1 = Ok tt) as Hok by (vm_compute; reflexivity).
  destruct changed as [r f'] eqn:E. cbn [fst snd] in *. subst r. unfold changed in E.
  destruct (password_change_revokes _ _ _ _ _ (lit "@a:b") _ _ _ _ _ (empty_front two_devices_db) _ two_devices_tokens eq_refl E) as ((a & Ha & _ & Hpw) & (hash & Hh & H2) & H3 & _).
  injection Hh as <-. injection Ha as <-. split; [|split; [exact H2|]].
  - apply (H3 eq_refl (lit "tok") (lit "D")); [discriminate|reflexivity|vm_compute; reflexivity].
  - destruct Hpw as [_ (name & old & s & Ha & Hp)]; [|by injection Ha as <- <- _]. intros session info (bs & Hbs & _). vm_compute in Hbs. discriminate Hbs.
Defined.
