(* ===== verification/SendRoutes.v ===== *)
(** * SendRoutes: what clients send into rooms and to devices

    The client routes that make events: sending messages ([message.rs]) and
    state ([state.rs]), redacting ([redact.rs]) and reporting ([report.rs])
    events, typing ([typing.rs]), read markers and receipts ([read_marker.rs])
    and messages to devices ([to_device.rs]), all of
    [server/src/api/client_server], and the escaping of HTML of
    [server/src/utils/mod.rs] that reports use. *)
From S2P Require Import Prelude Bytes JsonValue KvTree Pdu Database Short StateCompressor RoomState Accounts StateCache.
From S2P Require Import Timeline PduJson AccountData Devices UserKeys AuthChain Edus RoomTables Search Sending StateAccess MemberEvents Appservice.
From S2P Require Import TimelineService ServerKeys EventHandler EventFetch LocalEvents Membership MembershipInv FederationRoutes Rooms.

(** ** Escaping HTML *)

(** The entity of a byte; all of them are of one-byte characters. *)
Definition entity (b : Z) : option bytes :=
  if b =? 62 then Some (lit "&gt;") else if b =? 60 then Some (lit "&lt;") else if b =? 38 then Some (lit "&amp;")
  else if b =? 39 then Some (lit "&#39;") else if b =? 34 then Some (lit "&quot;") else None.

(** The loop over the positions: what was passed since [last] is written before
    an entity, and the rest at the end. *)
Fixpoint html_escape_loop (s : bytes) (i last : nat) (chars : bytes) : bytes :=
  match chars with
  | [] => if Nat.ltb last (length s) then drop last s else []
  | ch :: chars =>
      match entity ch with
      | Some e => take (i - last) (drop last s) ++ e ++ html_escape_loop s (S i) (S i) chars
      | None => html_escape_loop s (S i) last chars
      end
  end.

Definition html_escape (s : bytes) : bytes := html_escape_loop s 0 0 s.

(** ** Data *)

Record SendRequest := mkSendRequest {
  sd_room_id : bytes;
  sd_event_type : bytes;
  sd_txn_id : bytes;
  sd_body : bytes;
  sd_timestamp : option Z;
}.

Record StateRequest := mkStateRequest {
  st_room_id : bytes;
  st_event_type : bytes;
  st_state_key : bytes;
  st_body : bytes;
  st_timestamp : option Z;
}.

Record ReportRequest := mkReportRequest {
  rp_event_id : bytes;
  rp_score : option Z;
  rp_reason : option bytes;
}.

Inductive ReceiptKind := FullyRead | Read | ReadPrivate | OtherReceipt.

Record MarkerRequest := mkMarkerRequest {
  mk_room_id : bytes;
  mk_fully_read : option bytes;
  mk_private_read_receipt : option bytes;
  mk_read_receipt : option bytes;
}.

(** ruma and [Debug]: contents and their texts. *)
Class SendContents := {
  redaction_content : bytes → option bytes → bytes;
  fully_read_event : bytes → Value;
  (** a receipt, unthreaded, with its time *)
  receipt_data : Z → bytes;
  debug_string : bytes → bytes;
  debug_option : option bytes → bytes;
  debug_score : option Z → bytes;
  (** [Edu::DirectToDevice] for one target *)
  direct_edu : bytes → bytes → bytes → bytes → option bytes → bytes → bytes;
  (** [Raw::deserialize_as] *)
  raw_event : bytes → option bytes;
}.

Section send.
Context {RU : Ruma} {LR : LruCache} {HO : HashOrder} {MO : MapOrder} {CT : Contents} {RV : RoomVersions} {EB : EventBodies} {EC : EventChecks}.
Context {SG : Signing} {AP : Appender} {SCo : SendContents}.
Context `{JP : !Json PduEvent} `{JV : !Json Value} `{JR : !Json RedactionContent} `{JE : !Json ReceiptEvent}.
Context (server_name server_user admin_alias : bytes) (allow_encryption : bool).
Context (auth_types_for_event : bytes → bytes → option bytes → bytes → AuthRules → option (list (bytes * bytes))).
Context (has_field : bytes → Value → bool) (event_json : bytes → bytes → bytes → bytes).
Abbreviation build := (build_and_append_pdu server_name server_user admin_alias auth_types_for_event).

(** ** Messages *)

(** What an earlier request with the same transaction id was answered. *)
Definition earlier_answer (response : bytes) : res bytes :=
  (* This txnid has no response associated with it *)
  if bool_decide (response = []) then Err (BadRequest InvalidParam "Tried to use txn id already used for an incompatible endpoint.") else
  event_id ← ok_or (string_from_bytes response) (BadDatabase "Invalid txnid bytes in database.");
  if event_id_ok event_id then Ok event_id else Err (BadDatabase "Invalid event id in txnid data.").

Definition send_message_event_route (now : Z) (sender_user : bytes) (sender_device : option bytes) (is_appservice : bool) (body : SendRequest) : M Server bytes :=
  (* Forbid m.room.encrypted if encryption is disabled *)
  if bool_decide (sd_event_type body = lit "m.room.encrypted") && negb allow_encryption then fail (BadRequest Forbidden "Encryption has been disabled") else
  (* Check if this is a new transaction id *)
  o ← db_ (existing_txnid sender_user sender_device (sd_txn_id body));
  match o with
  | Some response => lift (earlier_answer response)
  | None =>
      lift (ok_or (from_slice (sd_body body) : option Value) (BadRequest BadJson "Invalid JSON body."));;
      event_id ← build now (mkBuilder (sd_event_type body) (sd_body body) (Some [(lit "transaction_id", VString (sd_txn_id body))]) None None
        (if is_appservice then sd_timestamp body else None)) sender_user (sd_room_id body);
      db_ (add_txnid sender_user sender_device (sd_txn_id body) event_id);;
      mret event_id
  end.

(** ** State *)

(** An alias of a canonical alias event is one of this server and resolves to
    the room. *)
Fixpoint check_aliases (room_id : bytes) (names : list bytes) : M Db unit :=
  match names with
  | [] => mret tt
  | alias :: names =>
      ours ← (if bool_decide (server_name_of alias ≠ server_name) then mret false else
        o ← resolve_local_alias alias; mret (bool_decide (o = Some room_id)));
      if negb ours then fail (BadRequest Forbidden "You are only allowed to send canonical_alias events when it's aliases already exists")
      else check_aliases room_id names
  end.

Definition send_state_event_for_key_helper (now : Z) (sender room_id event_type json state_key : bytes) (timestamp : option Z) : M Server bytes :=
  match canonical_alias_of json with
  | Some (alias, alt_aliases) => db_ (check_aliases room_id (alt_aliases ++ match alias with Some a => [a] | None => [] end))
  | None => mret tt
  end;;
  lift (expect (from_slice json : option Value));;
  build now (mkBuilder event_type json None (Some state_key) None timestamp) sender room_id.

Definition send_state_event_for_key_route (now : Z) (sender_user : bytes) (is_appservice : bool) (body : StateRequest) : M Server bytes :=
  send_state_event_for_key_helper now sender_user (st_room_id body) (st_event_type body) (st_body body) (st_state_key body)
    (if is_appservice then st_timestamp body else None).

Definition send_state_event_for_empty_key_route (now : Z) (sender_user : bytes) (is_appservice : bool) (body : StateRequest) : M Server bytes :=
  (* Forbid m.room.encryption if encryption is disabled *)
  if bool_decide (st_event_type body = lit "m.room.encryption") && negb allow_encryption then fail (BadRequest Forbidden "Encryption has been disabled") else
  send_state_event_for_key_helper now sender_user (st_room_id body) (st_event_type body) (st_body body) (st_state_key body)
    (if is_appservice then st_timestamp body else None).

(** ** Redactions and reports *)

Definition redact_event_route (now : Z) (sender_user room_id event_id : bytes) (reason : option bytes) : M Server bytes :=
  build now (mkBuilder (lit "m.room.redaction") (redaction_content event_id reason) None None (Some event_id) None) sender_user room_id.

Definition newline : bytes := [10].

Definition report_text (sender_user : bytes) (pdu : PduEvent) (body : ReportRequest) : bytes :=
  lit "Report received from: " ++ sender_user ++ newline ++ newline ++ lit "Event ID: " ++ debug_string (pdu_event_id pdu) ++ newline ++
  lit "Room ID: " ++ debug_option (pdu_room_id pdu) ++ newline ++ lit "Sent By: " ++ debug_string (pdu_sender pdu) ++ newline ++ newline ++
  lit "Report Score: " ++ debug_score (rp_score body) ++ newline ++ lit "Report Reason: " ++ debug_option (rp_reason body).

Definition quote : bytes := [34].

(** A link to a user or a room, or to an event in it. *)
Definition matrix_to (target : bytes) : bytes := lit "<a href=" ++ quote ++ lit "https://matrix.to/#/" ++ target ++ quote ++ lit ">".

Definition report_html (sender_user : bytes) (pdu : PduEvent) (body : ReportRequest) : bytes :=
  let sender := debug_string sender_user in
  let event_id := debug_string (pdu_event_id pdu) in
  let room_id := debug_option (pdu_room_id pdu) in
  let author := debug_string (pdu_sender pdu) in
  lit "<details><summary>Report received from: " ++ matrix_to sender ++ sender ++ lit "</a></summary><ul><li>Event Info<ul><li>Event ID: <code>" ++
  event_id ++ lit "</code>" ++ matrix_to (room_id ++ lit "/" ++ event_id) ++ [240; 159; 148; 151] ++ lit "</a></li><li>Room ID: <code>" ++ room_id ++
  lit "</code></li><li>Sent By: " ++ matrix_to author ++ author ++ lit "</a></li></ul></li><li>Report Info<ul><li>Report Score: " ++
  debug_score (rp_score body) ++ lit "</li><li>Report Reason: " ++ html_escape (default [] (rp_reason body)) ++ lit "</li></ul></li></ul></details>".

(** The texts of the message for the admin room. *)
Definition report_event_route (sender_user : bytes) (body : ReportRequest) : M Db (bytes * bytes) :=
  o ← get_pdu (rp_event_id body);
  pdu ← lift (ok_or o (BadRequest InvalidParam "Invalid Event ID"));
  if match rp_score body with Some s => (0 <? s) || (s <? -100) | None => false end
  then fail (BadRequest InvalidParam "Invalid score, must be within 0 to -100") else
  if match rp_reason body with Some s => Nat.ltb 250 (length (utf8_chars s)) | None => false end
  then fail (BadRequest InvalidParam "Reason too long, should be 250 characters or fewer") else
  mret (report_text sender_user pdu body, report_html sender_user pdu body).

(** ** Typing and receipts *)

(** The timeout of [Typing::Yes] in milliseconds, or [Typing::No]. *)
Definition create_typing_event_route (now : Z) (sender_user room_id : bytes) (typing : option Z) : M Node unit :=
  joined ← ndb (is_joined sender_user room_id);
  if negb joined then fail (BadRequest Forbidden "You are not in this room.") else
  on_typing (match typing with
    | Some duration => typing_add sender_user room_id (w64 (duration + now))
    | None => typing_remove sender_user room_id
    end).

Definition set_fully_read (sender_user room_id event_id : bytes) : M Db unit :=
  update has_field (Some room_id) sender_user (lit "m.fully_read") (fully_read_event event_id).

Definition set_private_read (sender_user room_id event_id : bytes) : M Db unit :=
  o ← get_pdu_count event_id;
  count ← lift (ok_or o (BadRequest InvalidParam "Event does not exist."));
  match count with
  | Backfilled _ => fail (BadRequest InvalidParam "Read receipt is in backfilled timeline")
  | Pdu.Normal c => private_read_set room_id sender_user c
  end.

Definition set_public_read (now : Z) (sender_user room_id event_id : bytes) : M Db unit :=
  readreceipt_update sender_user room_id (mkReceiptEvent [(event_id, [(lit "m.read", [(sender_user, receipt_data now)])])] room_id).

Definition set_read_marker_route (now : Z) (sender_user : bytes) (body : MarkerRequest) : M Db unit :=
  let room_id := mk_room_id body in
  match mk_fully_read body with Some event => set_fully_read sender_user room_id event | None => mret tt end;;
  (if bool_decide (is_Some (mk_private_read_receipt body)) || bool_decide (is_Some (mk_read_receipt body))
   then reset_notification_counts sender_user room_id else mret tt);;
  match mk_private_read_receipt body with Some event => set_private_read sender_user room_id event | None => mret tt end;;
  match mk_read_receipt body with Some event => set_public_read now sender_user room_id event | None => mret tt end.

Definition create_receipt_route (now : Z) (sender_user room_id : bytes) (receipt_type : ReceiptKind) (event_id : bytes) : M Db unit :=
  match receipt_type with Read | ReadPrivate => reset_notification_counts sender_user room_id | _ => mret tt end;;
  match receipt_type with
  | FullyRead => set_fully_read sender_user room_id event_id
  | Read => set_public_read now sender_user room_id event_id
  | ReadPrivate => set_private_read sender_user room_id event_id
  | OtherReceipt => fail (BadDatabase "Unsupported receipt type")
  end.

(** ** Messages to devices *)

Definition deserialize_event (event : bytes) : res bytes := ok_or (raw_event event) (BadRequest InvalidParam "Event is invalid").

(** One message for a user: its device, or all of them ([None]). *)
Definition send_to_target (sender_user event_type target_user_id : bytes) (target : option bytes) (event : bytes) : M Sender unit :=
  if bool_decide (server_name_of target_user_id ≠ server_name) then
    count ← with_db next_count;
    send_reliable_edu (server_name_of target_user_id) (direct_edu sender_user event_type (to_string count) target_user_id target event)
  else match target with
  | Some target_device_id =>
      content ← lift (deserialize_event event);
      with_db (add_to_device_event event_json sender_user target_user_id target_device_id event_type content)
  | None =>
      devices ← with_db (gets (λ d, Ok (all_device_ids target_user_id d)));
      for_each devices (λ r,
        target_device_id ← lift r;
        content ← lift (deserialize_event event);
        with_db (add_to_device_event event_json sender_user target_user_id target_device_id event_type content))
  end.

Definition send_event_to_device_route (sender_user : bytes) (sender_device : option bytes) (event_type txn_id : bytes)
    (messages : list (bytes * list (option bytes * bytes))) : M Sender unit :=
  (* Check if this is a new transaction id *)
  o ← with_db (existing_txnid sender_user sender_device txn_id);
  if bool_decide (is_Some o) then mret tt else
  for_each messages (λ '(target_user_id, map), for_each map (λ '(target, event), send_to_target sender_user event_type target_user_id target event));;
  (* Save transaction id with empty data *)
  with_db (add_txnid sender_user sender_device txn_id []).
End send.

(** * What the routes guarantee *)

(** ** Escaping *)

(** The reference: byte by byte. *)
Definition escape_bytes (s : bytes) : bytes := concat ((λ b, default [b] (entity b)) <$> s).

Lemma html_escape_loop_spec pre seen rest :
  Forall (λ b, entity b = None) seen →
  html_escape_loop (pre ++ seen ++ rest) (length pre + length seen) (length pre) rest = seen ++ escape_bytes rest.
Proof.
  revert pre seen. induction rest as [|ch rest IH]; intros pre seen Hs; cbn [html_escape_loop].
  - rewrite !app_nil_r, drop_app_length. destruct (Nat.ltb_spec (length pre) (length (pre ++ seen))) as [|Hl]; [done|].
    rewrite length_app in Hl. destruct seen; [done|cbn in Hl; lia].
  - destruct (entity ch) as [e|] eqn:E.
    + replace (take (length pre + length seen - length pre) (drop (length pre) (pre ++ seen ++ ch :: rest))) with seen.
      2: { rewrite drop_app_length. replace (length pre + length seen - length pre)%nat with (length seen) by lia. by rewrite take_app_length. }
      specialize (IH (pre ++ seen ++ [ch]) [] (Forall_nil_2 _)). rewrite <- !app_assoc in IH. cbn [app] in IH.
      replace (length (pre ++ seen ++ [ch]) + length [])%nat with (S (length pre + length seen)) in IH by (rewrite !length_app; cbn; lia).
      replace (length (pre ++ seen ++ [ch])) with (S (length pre + length seen)) in IH by (rewrite !length_app; cbn; lia).
      rewrite IH. unfold escape_bytes. cbn. by rewrite E.
    + specialize (IH pre (seen ++ [ch])). rewrite <- !app_assoc in IH. cbn [app] in IH.
      replace (length pre + length (seen ++ [ch]))%nat with (S (length pre + length seen)) in IH by (rewrite length_app; cbn; lia).
      rewrite IH by (apply Forall_app; split; [done|by constructor]). unfold escape_bytes. cbn. by rewrite E.
Qed.

(** Escaping writes every byte in turn, the five that HTML gives a meaning
    as their entities; so the text of a report contains no tag and ends no
    attribute. *)
Theorem html_escape_exact s :
  html_escape s = escape_bytes s ∧ Forall (λ b, b ≠ 60 ∧ b ≠ 62 ∧ b ≠ 34 ∧ b ≠ 39) (html_escape s).
Proof.
  assert (html_escape s = escape_bytes s) as E by (apply (html_escape_loop_spec [] []); constructor). split; [done|]. rewrite E. clear E.
  unfold escape_bytes. apply Forall_concat, Forall_fmap, Forall_forall. intros b _. unfold compose, entity.
  repeat (case_match; [cbn; repeat constructor; done|]). cbn. rewrite !Z.eqb_neq in *. by repeat constructor.
Qed.

(** Reading leaves the state alone. *)
Lemma with_db_pure {A} (m : M Db A) s r : m (s_db s) = (r, s_db s) → with_db m s = (r, s).
Proof. unfold with_db. intros ->. by destruct s. Qed.

Lemma db_pure {A} (m : M Db A) s r : m (sv_db s) = (r, sv_db s) → db_ m s = (r, s).
Proof. intros H. unfold db_, on_sender. rewrite (with_db_pure _ _ _ H). by destruct s. Qed.

Lemma with_db_inv {A} (m : M Db A) s a s' : with_db m s = (Ok a, s') → m (s_db s) = (Ok a, s_db s').
Proof. unfold with_db. destruct (m (s_db s)) as [r d]. by intros [= -> <-]. Qed.

Section once.
Context {RU : Ruma} {LR : LruCache} {HO : HashOrder} {MO : MapOrder} {CT : Contents} {RV : RoomVersions} {EB : EventBodies} {EC : EventChecks}.
Context {SG : Signing} {AP : Appender} {SCo : SendContents}.
Context {JP : Json PduEvent} {JV : Json Value} {JR : Json RedactionContent}.
Context (server_name server_user admin_alias : bytes) (allow_encryption : bool).
Context (auth_types_for_event : bytes → bytes → option bytes → bytes → AuthRules → option (list (bytes * bytes))).
Context (event_json : bytes → bytes → bytes → bytes).
Abbreviation send_message := (send_message_event_route server_name server_user admin_alias allow_encryption auth_types_for_event).

(** The answers that are kept for transaction ids. *)
Definition answers (d : Db) : Tree := kv d userdevicetxnid_response.

Lemma earlier_answer_bytes response e : earlier_answer response = Ok e → response = e.
Proof.
  unfold earlier_answer. case_bool_decide; [done|]. cbn. destruct (string_from_bytes response) as [x|] eqn:E; [|done]. cbn.
  apply string_from_bytes_Some in E as [-> _]. destruct (event_id_ok response); [by intros [= ->]|done].
Qed.

(** C38: A message is sent once per transaction id.  When a request was answered
    with an event, every later request of the same device with the transaction
    id is answered with that event and changes nothing, whatever it asks to
    send and to which room, as long as the answer is kept. *)
Theorem message_sent_once now u dv app body s e s' :
  send_message now u dv app body s = (Ok e, s') → utf8_valid e = true → event_id_ok e = true → e ≠ [] →
  answers (sv_db s') !! txn_key u dv (sd_txn_id body) = Some e ∧
  ∀ now' app' body' s2, sd_txn_id body' = sd_txn_id body → (sd_event_type body' ≠ lit "m.room.encrypted" ∨ allow_encryption = true) →
    answers (sv_db s2) !! txn_key u dv (sd_txn_id body) = Some e → send_message now' u dv app' body' s2 = (Ok e, s2).
Proof.
  intros H Hv Hid Hne. split.
  - unfold send_message_event_route in H. destruct (_ && _); [done|]. apply bind_inv in H as (o & s1 & H1 & H). apply db_ok_inv in H1. injection H1 as H1 E1.
    destruct o as [response|].
    + injection H as H <-. apply earlier_answer_bytes in H as <-. rewrite <- E1. exact H1.
    + apply bind_inv in H as (v & s2 & H2 & H). apply bind_inv in H as (e' & s3 & H3 & H). apply bind_inv in H as ([] & s4 & H4 & H). injection H as -> <-.
      apply db_ok_inv in H4. unfold add_txnid, insert, modify in H4. injection H4 as H4. unfold answers. rewrite <- H4. kv_simpl. apply lookup_insert_eq.
  - intros now' app' body' s2 Et Henc Hk. unfold send_message_event_route.
    assert (bool_decide (sd_event_type body' = lit "m.room.encrypted") && negb allow_encryption = false) as ->.
    { destruct Henc as [Hn| ->]; [by rewrite bool_decide_false|apply andb_false_r]. }
    rewrite (bind_ok _ _ s2 (Some e) s2).
    + unfold lift, earlier_answer. rewrite bool_decide_false by done. by rewrite string_from_bytes_valid; cbn; [rewrite Hid|].
    + rewrite Et. apply db_pure. unfold existing_txnid, get, gets, kv_get. by rewrite <- Hk.
Qed.

(** A message to devices is sent once per transaction id. *)
Theorem to_device_sent_once u dv event_type txn messages s s' :
  send_event_to_device_route server_name event_json u dv event_type txn messages s = (Ok tt, s') →
  is_Some (answers (s_db s') !! txn_key u dv txn) ∧
  ∀ event_type' messages' s2, is_Some (answers (s_db s2) !! txn_key u dv txn) →
    send_event_to_device_route server_name event_json u dv event_type' txn messages' s2 = (Ok tt, s2).
Proof.
  intros H. split.
  - unfold send_event_to_device_route in H. apply bind_inv in H as (o & s1 & H1 & H). apply with_db_inv in H1. injection H1 as H1 E1.
    case_bool_decide as Ho; [injection H as <-; rewrite <- E1; unfold answers; unfold kv_get in H1; by rewrite H1|].
    apply bind_inv in H as ([] & s2 & _ & H). apply with_db_inv in H. unfold add_txnid, insert, modify in H. injection H as H.
    exists []. unfold answers. rewrite <- H. kv_simpl. apply lookup_insert_eq.
  - intros event_type' messages' s2 [v Hv]. unfold send_event_to_device_route. rewrite (bind_ok _ _ s2 (Some v) s2); [by rewrite bool_decide_true|].
    apply with_db_pure. unfold existing_txnid, get, gets, kv_get. by rewrite <- Hv.
Qed.
End once.

(** ** Canonical aliases *)

Section aliases_sent.
Context {RU : Ruma} (server_name : bytes).

Lemma check_aliases_ours room names d d' : check_aliases server_name room names d = (Ok tt, d') →
  d' = d ∧ ∀ alias, alias ∈ names → server_name_of alias = server_name ∧ (resolve_local_alias alias d).1 = Ok (Some room).
Proof.
  revert d. induction names as [|a names IH]; intros d H; cbn [check_aliases] in H; [injection H as <-; split; [done|by intros ? ?%elem_of_nil]|].
  apply bind_inv in H as (ours & d1 & H1 & H). destruct ours; [|done]. case_bool_decide as Es; [done|].
  apply bind_inv in H1 as (o & d2 & H2 & H1). injection H1 as Ho <-. apply bool_decide_eq_true in Ho as ->.
  assert (d2 = d) as ->.
  { assert (∀ a, (resolve_local_alias a d).2 = d) as Hp; [|by rewrite <- (Hp a), H2]. intros b. unfold resolve_local_alias, get, gets. cbn.
    unfold mbind, M_bind. by destruct (map_transpose _ _). }
  destruct (IH _ H) as [-> Hn]. split; [done|]. intros alias [->|Hin]%elem_of_cons; [|by apply Hn]. split; [done|by rewrite H2].
Qed.
End aliases_sent.

(** * Witnesses *)

#[local] Existing Instances sample_ruma lru_unbounded elements_order sample_map_order sample_versions sample_create_contents room_bodies sample_checks.
#[local] Existing Instances fetch_object_json fetch_redaction_json room_value_json fetch_pdu_json sample_signing keeper.
#[local] Instance send_contents : SendContents := {|
  redaction_content _ _ := lit "{}"; fully_read_event _ := VNull; receipt_data _ := lit "{}"; debug_string s := s; debug_option _ := []; debug_score _ := [];
  direct_edu _ _ _ _ _ _ := lit "{}"; raw_event b := Some b |}.

Definition hello (text : bytes) : SendRequest := mkSendRequest (lit "!") (lit "m.room.message") (lit "t1") text None.

Abbreviation send_hello := (send_message_event_route (lit "b") (lit "@conduit:b") (lit "#admins:b") true (λ _ _ _ _ _, Some []) 6 (lit "@a:b") (Some (lit "D")) false).

Definition sent : res bytes * Server := send_hello (hello (lit "one")) (h_server created.2).

Lemma message_sent_once_witness :
  match sent with
  | (Ok e, s') => send_hello (hello (lit "two")) s' = (Ok e, s')
  | _ => False
  end.
Proof.
  assert (match sent.1 with Ok e => utf8_valid e && event_id_ok e && negb (bool_decide (e = [])) | _ => false end = true) as Hok by (vm_compute; reflexivity).
  destruct sent as [[e| |] s'] eqn:E; [|discriminate Hok..]. cbn [fst] in Hok. apply andb_prop in Hok as [Hok Hne]. apply andb_prop in Hok as [Hv Hid].
  apply negb_true_iff, bool_decide_eq_false in Hne. unfold sent in E.
  destruct (message_sent_once _ _ _ _ _ _ _ _ _ _ _ _ _ E Hv Hid Hne) as [Hk H]. apply H; [reflexivity|left; discriminate|exact Hk].
Defined.

Lemma to_device_sent_once_witness :
  let s := mkSender empty_db ∅ [] [] true in
  let run := send_event_to_device_route (lit "b") (λ _ _ c, c) (lit "@a:b") None (lit "m.test") (lit "t") [(lit "@c:b", [(Some (lit "D"), lit "{}")])] in
  run (run s).2 = (Ok tt, (run s).2).
Proof.
  cbv zeta. set (run := send_event_to_device_route _ _ _ _ _ _ _).
  assert (run (mkSender empty_db ∅ [] [] true) = (Ok tt, (run (mkSender empty_db ∅ [] [] true)).2)) as E by (apply injective_projections; [vm_compute; reflexivity|reflexivity]).
  destruct (to_device_sent_once _ _ _ _ _ _ _ _ _ E) as [Hk H]. exact (H _ _ _ Hk).
Defined.
