(* ===== verification/Directory.v ===== *)
(** * Directory: the public rooms and the user directory

    [server/src/api/client_server/directory.rs] (with the federation routes of
    [server/src/api/server_server.rs] that use it) and [user_directory.rs]: the
    list of public rooms with its pages, the visibility of a room in it, and the
    search for users. *)
From S2P Require Import Prelude Bytes JsonValue KvTree Pdu Database Short StateCompressor RoomState Accounts StateCache Timeline UserKeys RoomTables StateAccess.
From S2P Require Import Migrations Spaces Rooms History.

(** ** Data *)

Record PublicRoomsChunk := mkPublicRoom {
  pr_canonical_alias : option bytes;
  pr_name : option bytes;
  pr_num_joined_members : Z;
  pr_topic : option bytes;
  pr_world_readable : bool;
  pr_guest_can_join : bool;
  pr_avatar_url : option bytes;
  pr_join_rule : JoinRule;
  pr_room_type : option bytes;
  pr_room_id : bytes;
}.

Record PublicRooms := mkPublicRooms {
  pb_chunk : list PublicRoomsChunk;
  pb_prev_batch : option bytes;
  pb_next_batch : option bytes;
  pb_total : Z;
}.

Record FoundUser := mkFoundUser { fu_user_id : bytes; fu_display_name : option bytes; fu_avatar_url : option bytes }.

(** The lists of other servers: server, limit, [since] and search term. *)
Class DirectoryRemote := { fed_public_rooms : bytes → option Z → option bytes → option bytes → res PublicRooms }.

(** ** Pages *)

(** The position a [since] token names. *)
Definition since_position (limit : Z) (since : option bytes) : res Z :=
  match since with
  | None => Ok 0
  | Some s =>
      backwards ← match s with
        | 110 :: _ => Ok false
        | 112 :: _ => Ok true
        | _ => Err (BadRequest InvalidParam "Invalid `since` token")
        end;
      num_since ← ok_or (parse_u64 (tail s)) (BadRequest InvalidParam "Invalid `since` token.");
      Ok (if (backwards : bool) then Z.max 0 (num_since - limit) else num_since)
  end.

(** The sort is stable, and descending. *)
Fixpoint insert_room (r : PublicRoomsChunk) (l : list PublicRoomsChunk) : list PublicRoomsChunk :=
  match l with
  | [] => [r]
  | x :: l => if pr_num_joined_members x <=? pr_num_joined_members r then r :: x :: l else x :: insert_room r l
  end.

Definition sort_rooms (l : list PublicRoomsChunk) : list PublicRoomsChunk := foldr insert_room [] l.

Definition page_of_rooms (all_rooms : list PublicRoomsChunk) (limit num_since : Z) : PublicRooms :=
  let chunk := take (Z.to_nat limit) (drop (Z.to_nat num_since) all_rooms) in
  mkPublicRooms chunk (if num_since =? 0 then None else Some (lit "p" ++ to_string num_since))
    (if Z.of_nat (length chunk) <? limit then None else Some (lit "n" ++ to_string (w64 (num_since + limit)))) (Z.of_nat (length all_rooms)).

Section directory.
Context {RU : Ruma} {LR : LruCache} {HO : HashOrder} {CT : Contents} {SC : SpaceContents} {DR : DirectoryRemote} `{JP : !Json PduEvent}.
Context (server_name : bytes) (to_lowercase : bytes → bytes).

(** ** The list *)

Definition state_field {A} (room_id kind : bytes) (missing : A) (parse : bytes → option A) (msg : string) : M Db A :=
  o ← room_state_get room_id kind [];
  lift (content_or missing parse msg o).

Definition public_room (room_id : bytes) : M Db PublicRoomsChunk :=
  alias ← state_field room_id (lit "m.room.canonical_alias") None canonical_alias_of "Invalid canonical alias event in database.";
  name ← get_name room_id;
  count ← room_joined_count room_id;
  topic ← state_field room_id (lit "m.room.topic") None (λ c, Some <$> topic_of c) "Invalid room topic event in database.";
  readable ← state_field room_id (lit "m.room.history_visibility") false (λ c, (λ h, bool_decide (h = HWorldReadable)) <$> history_visibility_of c)
    "Invalid room history visibility event in database.";
  guests ← state_field room_id (lit "m.room.guest_access") false guest_can_join_of "Invalid room guest access event in database.";
  avatar ← state_field room_id (lit "m.room.avatar") None avatar_of "Invalid room avatar event in database.";
  o ← room_state_get room_id (lit "m.room.join_rules") [];
  rule ← lift (match o with
    | Some s => ok_or (join_rule_of (pdu_content s)) (BadDatabase "Invalid room join rule event in database.")
    | None => Err (BadDatabase "Missing room join rule event for room.")
    end);
  room_type ← state_field room_id (lit "m.room.create") None room_type_of "Invalid room create event in database.";
  mret (mkPublicRoom alias name (default 0 count) topic readable guests avatar rule room_type room_id).

(** The search term is in the name, the topic or the alias. *)
Definition room_matches (search_term : option bytes) (chunk : PublicRoomsChunk) : bool :=
  match search_term with
  | Some q =>
      let has := λ o : option bytes, match o with Some s => contains_sub (to_lowercase q) (to_lowercase s) | None => false end in
      has (pr_name chunk) || has (pr_topic chunk) || has (pr_canonical_alias chunk)
  | None => true
  end.

(** The rooms that can be read; buggy ones are left out. *)
Definition listed_rooms (search_term : option bytes) : M Db (list PublicRoomsChunk) :=
  rooms ← gets (λ d, Ok (public_rooms d));
  all ← foldM (λ all room_id,
    r ← try_ok (room_id ← lift room_id; public_room room_id);
    mret (match r with Some chunk => all ++ [chunk] | None => all end)) [] rooms;
  mret (bfilter (room_matches search_term) all).

Definition get_public_rooms_filtered_helper (server : option bytes) (limit : option Z) (since search_term : option bytes) : M Db PublicRooms :=
  let other := match server with Some s => if bool_decide (s ≠ server_name) then Some s else None | None => None end in
  match other with
  | Some other_server => lift (fed_public_rooms other_server limit since search_term)
  | None =>
      let limit := default 10 limit in
      num_since ← lift (since_position limit since);
      rooms ← listed_rooms search_term;
      mret (page_of_rooms (sort_rooms rooms) limit num_since)
  end.
Definition get_public_rooms_filtered_route (server : option bytes) (limit : option Z) (since search_term : option bytes) : M Db PublicRooms :=
  get_public_rooms_filtered_helper server limit since search_term.

Definition get_public_rooms_route (server : option bytes) (limit : option Z) (since : option bytes) : M Db PublicRooms :=
  get_public_rooms_filtered_helper server limit since None.

(** The routes for other servers list the rooms of this server. *)
Definition federation_public_rooms_filtered_route (limit : option Z) (since search_term : option bytes) : M Db PublicRooms :=
  get_public_rooms_filtered_helper None limit since search_term.

Definition federation_public_rooms_route (limit : option Z) (since : option bytes) : M Db PublicRooms :=
  get_public_rooms_filtered_helper None limit since None.

(** ** Visibility *)

Definition set_room_visibility_route (room_id : bytes) (visibility : Rooms.Visibility) : M Db unit :=
  ex ← room_exists room_id;
  if negb ex then fail (BadRequest NotFound "Room not found") else
  match visibility with
  | VisPublic => set_public room_id
  | VisPrivate => set_not_public room_id
  | VisOther => fail (BadRequest InvalidParam "Room visibility type is not supported.")
  end.

Definition get_room_visibility_route (room_id : bytes) : M Db Rooms.Visibility :=
  ex ← room_exists room_id;
  if negb ex then fail (BadRequest NotFound "Room not found") else
  public ← is_public_room room_id;
  mret (if (public : bool) then VisPublic else VisPrivate).

(** ** Users *)

Definition joins_freely (room : bytes) : M Db bool :=
  o ← try_ok (room_state_get room (lit "m.room.join_rules") []);
  mret (match mjoin o with Some event => match join_rule_of (pdu_content event) with Some JPublic => true | _ => false end | None => false end).

(** [any]: the first room decides. *)
Fixpoint any_public (rooms : list bytes) : M Db bool :=
  match rooms with
  | [] => mret false
  | room :: rooms => b ← joins_freely room; if (b : bool) then mret true else any_public rooms
  end.

Definition name_matches (search_term : bytes) (user : FoundUser) : bool :=
  contains_sub (to_lowercase search_term) (to_lowercase (fu_user_id user)) ||
  match fu_display_name user with Some name => contains_sub (to_lowercase search_term) (to_lowercase name) | None => false end.

(** The sender may see a user who is in a public room, or shares a room. *)
Definition user_visible (sender_user user_id : bytes) : M Db bool :=
  rooms ← gets (λ d, Ok (oks (rooms_joined user_id d)));
  public ← any_public rooms;
  if (public : bool) then mret true else
  shared ← try_ok (gets (get_shared_rooms [sender_user; user_id]));
  mret (match shared with Some (_ :: _) => true | _ => false end).

(** One user of the iterator. *)
Definition found_user (sender_user search_term : bytes) (user_id : res bytes) : M Db (option FoundUser) :=
  match user_id with
  | Ok user_id =>
      name ← try_ok (displayname user_id);
      match name with
      | None => mret None
      | Some name =>
          url ← try_ok (avatar_url user_id);
          match url with
          | None => mret None
          | Some url =>
              let user := mkFoundUser user_id name url in
              if negb (name_matches search_term user) then mret None else
              visible ← user_visible sender_user user_id;
              mret (if (visible : bool) then Some user else None)
          end
      end
  | Err _ => mret None
  | Panic => lift Panic
  end.

(** [by_ref().take(n)], and whether one more is found. *)
Fixpoint take_users (sender_user search_term : bytes) (n : nat) (users : list (res bytes)) : M Db (list FoundUser * bool) :=
  match users with
  | [] => mret ([], false)
  | u :: users =>
      o ← found_user sender_user search_term u;
      match o with
      | None => take_users sender_user search_term n users
      | Some user =>
          match n with
          | O => mret ([], true)
          | S n => '(results, limited) ← take_users sender_user search_term n users; mret (user :: results, limited)
          end
      end
  end.

Definition search_users_route (sender_user search_term : bytes) (limit : Z) : M Db (list FoundUser * bool) :=
  users ← gets (λ d, Ok (iter d));
  take_users sender_user search_term (Z.to_nat limit) users.
End directory.

(** * What is listed *)

(** ** The pages *)

(** A client that follows [next_batch]. *)
Fixpoint walk_pages (fuel : nat) (all : list PublicRoomsChunk) (limit : Z) (since : option bytes) : list PublicRoomsChunk :=
  match fuel with
  | O => []
  | S fuel =>
      match since_position limit since with
      | Ok n =>
          let page := page_of_rooms all limit n in
          pb_chunk page ++ match pb_next_batch page with Some t => walk_pages fuel all limit (Some t) | None => [] end
      | _ => []
      end
  end.

(** More members first. *)
Definition more_members (a b : PublicRoomsChunk) : Prop := pr_num_joined_members b ≤ pr_num_joined_members a.

Lemma insert_room_perm r l : insert_room r l ≡ₚ r :: l.
Proof. induction l as [|x l IH]; cbn; [done|]. case_match; [done|]. rewrite IH. apply Permutation_swap. Qed.

Lemma sort_rooms_perm l : sort_rooms l ≡ₚ l.
Proof. induction l as [|x l IH]; cbn; [done|]. by rewrite insert_room_perm, IH. Qed.

Lemma insert_room_sorted r l : StronglySorted more_members l → StronglySorted more_members (insert_room r l).
Proof.
  induction 1 as [|x l Hs IH Hall]; cbn; [repeat constructor|]. destruct (Z.leb_spec (pr_num_joined_members x) (pr_num_joined_members r)) as [Hle|Hlt].
  - constructor; [by constructor|]. constructor; [done|]. eapply Forall_impl; [exact Hall|]. intros y Hy. unfold more_members in *. lia.
  - constructor; [done|]. rewrite insert_room_perm. constructor; [unfold more_members; lia|done].
Qed.

Lemma sort_rooms_sorted l : StronglySorted more_members (sort_rooms l).
Proof. induction l as [|x l IH]; cbn; [constructor|by apply insert_room_sorted]. Qed.

Lemma next_token_position limit n : is_u64 n → since_position limit (Some (lit "n" ++ to_string n)) = Ok n.
Proof. intros Hn. unfold since_position. change (lit "n" ++ to_string n) with (110 :: to_string n). cbn [tail]. by rewrite parse_to_string. Qed.

Lemma prev_token_position limit n : is_u64 n → since_position limit (Some (lit "p" ++ to_string n)) = Ok (Z.max 0 (n - limit)).
Proof. intros Hn. unfold since_position. change (lit "p" ++ to_string n) with (112 :: to_string n). cbn [tail]. by rewrite parse_to_string. Qed.

Lemma walk_pages_from all limit fuel since n :
  0 < limit → Z.of_nat (length all) + limit ≤ u64_max → 0 ≤ n ≤ Z.of_nat (length all) →
  since_position limit since = Ok n → Z.of_nat (length all) - n < Z.of_nat fuel → walk_pages fuel all limit since = drop (Z.to_nat n) all.
Proof.
  intros Hl Hu. revert since n. induction fuel as [|fuel IH]; intros since n Hn Hs Hf; [lia|]. cbn [walk_pages]. rewrite Hs. unfold page_of_rooms.
  cbn [pb_chunk pb_next_batch]. set (chunk := take (Z.to_nat limit) (drop (Z.to_nat n) all)).
  assert (Z.of_nat (length chunk) = Z.min limit (Z.of_nat (length all) - n)) as Hc by (unfold chunk; rewrite length_take, length_drop; lia).
  destruct (Z.ltb_spec (Z.of_nat (length chunk)) limit) as [Hlt|Hge].
  - rewrite app_nil_r. unfold chunk. apply take_ge. rewrite length_drop. lia.
  - assert (w64 (n + limit) = n + limit) as Hw by (apply w64_small; split; lia). rewrite Hw.
    rewrite (IH _ (n + limit)); [|lia|apply next_token_position; split; lia|lia].
    unfold chunk. replace (Z.to_nat (n + limit)) with (Z.to_nat n + Z.to_nat limit)%nat by lia. rewrite <- drop_drop. apply take_drop.
Qed.

(** The pages of the public rooms list every room once.  The rooms are
    ordered by their members, most first; a client that follows [next_batch]
    from the start gets all of them, in order, in at most one page more than
    there are rooms; and [prev_batch] leads to the page before. *)
Theorem directory_pages_cover rooms limit :
  0 < limit → Z.of_nat (length rooms) + limit ≤ u64_max →
  let all := sort_rooms rooms in
  all ≡ₚ rooms ∧ StronglySorted more_members all ∧ walk_pages (S (length rooms)) all limit None = all ∧
  (∀ n t, 0 ≤ n ≤ u64_max → pb_prev_batch (page_of_rooms all limit n) = Some t → since_position limit (Some t) = Ok (Z.max 0 (n - limit))).
Proof.
  intros Hl Hu all. assert (length all = length rooms) as El by (unfold all; by rewrite (Permutation_length (sort_rooms_perm rooms))). split_and!.
  - apply sort_rooms_perm.
  - apply sort_rooms_sorted.
  - rewrite (walk_pages_from all limit _ None 0); [done|done|lia|lia|done|lia].
  - intros n t Hn. unfold page_of_rooms. cbn [pb_prev_batch]. case_match; [done|]. intros [= <-]. apply prev_token_position. split; lia.
Qed.

(** ** The users *)

Section users_found.
Context {RU : Ruma} {LR : LruCache} {HO : HashOrder} {CT : Contents} {JP : Json PduEvent} (to_lowercase : bytes → bytes).

(** A joined room of the user has the join rule [public], in some state with
    these trees (the caches may differ). *)
Definition in_public_room (trees : Table → Tree) (user : bytes) : Prop :=
  ∃ room d, kv d = trees ∧ room ∈ oks (rooms_joined user d) ∧ (joins_freely room d).1 = Ok true.

(** The users have a room in common. *)
Definition share_room (a b : bytes) (d : Db) : Prop := ∃ l, get_shared_rooms [a; b] d = Ok l ∧ l ≠ [].

Lemma share_room_trees a b d d' : kv d' = kv d → share_room a b d' → share_room a b d.
Proof. intros E. unfold share_room, get_shared_rooms, joined_room_bytes. cbn [map]. by rewrite E. Qed.

Lemma keeps_joins_freely room : keeps_kv (joins_freely room).
Proof. unfold joins_freely. pose proof keeps_room_state_get. keeps. Qed.

Lemma any_public_spec rooms d b d' :
  any_public rooms d = (Ok b, d') → kv d' = kv d ∧ (b = true → ∃ room d1, room ∈ rooms ∧ kv d1 = kv d ∧ (joins_freely room d1).1 = Ok true).
Proof.
  revert d. induction rooms as [|room rooms IH]; intros d H; cbn [any_public] in H; [by injection H as <- <-|].
  apply bind_inv in H as (x & d1 & H1 & H). pose proof (keeps_joins_freely room d) as Hk. rewrite H1 in Hk. cbn [snd] in Hk. destruct x.
  - injection H as <- <-. split; [done|]. intros _. exists room, d. split_and!; [set_solver|done|by rewrite H1].
  - destruct (IH _ H) as [E Hb]. rewrite E, Hk. split; [done|]. intros Ht. destruct (Hb Ht) as (r & d2 & ? & E2 & ?). exists r, d2.
    split_and!; [set_solver|by rewrite E2|done].
Qed.

Lemma user_visible_spec s u d b d' :
  user_visible s u d = (Ok b, d') → kv d' = kv d ∧ (b = true → in_public_room (kv d) u ∨ share_room s u d).
Proof.
  intros H. unfold user_visible in H. apply bind_inv in H as (rooms & d1 & H1 & H). injection H1 as <- <-.
  apply bind_inv in H as (p & d2 & H2 & H). apply any_public_spec in H2 as [E Hp]. destruct p.
  - injection H as <- <-. split; [done|]. intros _. left. destruct (Hp eq_refl) as (room & d1 & Hr & E1 & Hj). exists room, d1. split_and!; [done| |done].
    unfold rooms_joined, scan_last in *. by rewrite E1.
  - apply bind_inv in H as (o & d3 & H3 & H). injection H as <- <-. unfold try_ok, gets in H3. split.
    + rewrite <- E. destruct (get_shared_rooms [s; u] d2); [by injection H3 as _ <-..|done].
    + intros Ho. right. apply (share_room_trees _ _ _ _ E).
      destruct (get_shared_rooms [s; u] d2) as [l| |] eqn:Es; [injection H3 as <- _|by injection H3 as <- _|done]. exists l. split; [exact Es|]. by destruct l.
Qed.

Lemma found_user_spec s term u d o d' : found_user to_lowercase s term u d = (Ok o, d') →
  kv d' = kv d ∧ ∀ user, o = Some user → u = Ok (fu_user_id user) ∧ name_matches to_lowercase term user = true ∧
    (in_public_room (kv d) (fu_user_id user) ∨ share_room s (fu_user_id user) d).
Proof.
  intros H. unfold found_user in H. destruct u as [u| |]; [|by injection H as <- <-|done].
  apply bind_inv in H as (name & d1 & H1 & H).
  assert (kv d1 = kv d) as E1 by (assert (keeps_kv (try_ok (displayname u))) as Hk by (unfold displayname, get_string; keeps); specialize (Hk d); by rewrite H1 in Hk).
  destruct name as [name|]; [|by injection H as <- <-]. apply bind_inv in H as (url & d2 & H2 & H).
  assert (kv d2 = kv d) as E2.
  { rewrite <- E1. assert (keeps_kv (try_ok (avatar_url u))) as Hk by (unfold avatar_url, get_string; keeps). specialize (Hk d1). by rewrite H2 in Hk. }
  destruct url as [url|]; [|by injection H as <- <-]. cbv zeta in H. destruct (name_matches _ _ _) eqn:En; cbn [negb] in H; [|by injection H as <- <-].
  apply bind_inv in H as (v & d3 & H3 & H). apply user_visible_spec in H3 as [E3 Hv]. injection H as <- <-. rewrite E3, E2. split; [done|].
  intros user Hu. destruct v; [|done]. injection Hu as <-. split_and!; [done|done|]. cbn [fu_user_id]. rewrite E2 in Hv.
  destruct (Hv eq_refl) as [?|?]; [by left|right]. by eapply share_room_trees.
Qed.

(** The user directory shows only users the sender may know of.  A search
    finds at most as many users as asked for, each with an account, matching
    the term, and in a public room or in a room with the sender; it is marked
    as limited only when the list is full. *)
Theorem user_search_private s term limit d results limited d' :
  search_users_route to_lowercase s term limit d = (Ok (results, limited), d') →
  (length results ≤ Z.to_nat limit)%nat ∧ (limited = true → length results = Z.to_nat limit) ∧
  ∀ user, user ∈ results → Ok (fu_user_id user) ∈ iter d ∧ name_matches to_lowercase term user = true ∧
    (in_public_room (kv d) (fu_user_id user) ∨ share_room s (fu_user_id user) d).
Proof.
  intros H. unfold search_users_route in H. apply bind_inv in H as (users & d0 & H0 & H). injection H0 as <- <-.
  assert (∀ users n d0 results limited d', kv d0 = kv d → take_users to_lowercase s term n users d0 = (Ok (results, limited), d') →
    (length results ≤ n)%nat ∧ (limited = true → length results = n) ∧ ∀ user, user ∈ results → Ok (fu_user_id user) ∈ users ∧
      name_matches to_lowercase term user = true ∧ (in_public_room (kv d) (fu_user_id user) ∨ share_room s (fu_user_id user) d)) as Hloop; [|by eapply Hloop].
  clear. induction users as [|u users IH]; intros n d0 results limited d' E H; cbn [take_users] in H.
  { injection H as <- <- _. split_and!; [cbn; lia|done|by intros ? ?%elem_of_nil]. }
  apply bind_inv in H as (o & d1 & H1 & H). apply found_user_spec in H1 as [E1 Hf]. rewrite E in E1. destruct o as [user|].
  - destruct n as [|n].
    + injection H as <- <- _. split_and!; [done|done|by intros ? ?%elem_of_nil].
    + apply bind_inv in H as ([r l] & d2 & H2 & H). injection H as <- <- _. destruct (IH _ _ _ _ _ E1 H2) as (Hl & Hlim & Hall). split_and!.
      * cbn. lia.
      * intros Ht. cbn. by rewrite Hlim.
      * intros x [->|Hx]%elem_of_cons.
        -- destruct (Hf user eq_refl) as (-> & ? & Hv). split_and!; [set_solver|done|]. rewrite E in Hv. destruct Hv as [?|?]; [by left|right]. by apply (share_room_trees _ _ d d0 E).
        -- destruct (Hall x Hx) as (? & ? & ?). split_and!; [set_solver|done|done].
  - destruct (IH _ _ _ _ _ E1 H) as (Hl & Hlim & Hall). split_and!; [done|done|]. intros x Hx. destruct (Hall x Hx) as (? & ? & ?). split_and!; [set_solver|done|done].
Qed.
End users_found.

(** * Witnesses *)

Definition a_room (id : bytes) (n : Z) : PublicRoomsChunk := mkPublicRoom None None n None false false None JPublic None id.

Lemma directory_pages_cover_witness :
  let rooms := [a_room (lit "!a") 1; a_room (lit "!b") 7; a_room (lit "!c") 7] in
  walk_pages 4 (sort_rooms rooms) 2 None = [a_room (lit "!b") 7; a_room (lit "!c") 7; a_room (lit "!a") 1] ∧ walk_pages 4 (sort_rooms rooms) 2 None = sort_rooms rooms.
Proof.
  cbv zeta. split; [vm_compute; reflexivity|].
  destruct (directory_pages_cover [a_room (lit "!a") 1; a_room (lit "!b") 7; a_room (lit "!c") 7] 2) as (_ & _ & H & _); [done|vm_compute; discriminate|exact H].
Defined.

#[local] Existing Instances sample_ruma lru_unbounded elements_order sample_contents.
#[local] Instance directory_pdu_json : Json PduEvent := json_countable PduEvent.

(** Two users in one room. *)
Definition two_users_db : Db :=
  (( mark_as_joined (lit "@a:b") (lit "!r");; mark_as_joined (lit "@c:b") (lit "!r")) (upd userid_password (λ _, {[lit "@a:b" := lit "h"; lit "@c:b" := lit "h"]}) empty_db)).2.

Definition found : res (list FoundUser * bool) * Db := search_users_route (λ u, u) (lit "@a:b") (lit "c") 5 two_users_db.

Lemma user_search_private_witness :
  match found with
  | (Ok (results, limited), _) => fu_user_id <$> results = [lit "@c:b"] ∧ limited = false ∧
      ∀ user, user ∈ results → in_public_room (kv two_users_db) (fu_user_id user) ∨ share_room (lit "@a:b") (fu_user_id user) two_users_db
  | _ => False
  end.
Proof.
  assert (match found.1 with Ok (results, limited) => fu_user_id <$> results = [lit "@c:b"] ∧ limited = false | _ => False end) as Hok by (vm_compute; split; reflexivity).
  destruct found as [[[results limited]| |] d'] eqn:E; [|destruct Hok..]. cbn [fst] in Hok. split; [apply Hok|]. split; [apply Hok|]. unfold found in E.
  destruct (user_search_private _ _ _ _ _ _ _ _ E) as (_ & _ & H). intros user Hu. exact (proj2 (proj2 (H user Hu))).
Defined.
