(* ===== verification/BackupRoutes.v ===== *)
(** * BackupRoutes: the client routes of the key backups

    [server/src/api/client_server/backup.rs], over the store of [KeyBackups].
    Keys can only be added to the version the server takes for the latest; the
    routes that change keys answer with the number of keys and the etag, and
    the count is cut to 32 bits. *)
From S2P Require Import Prelude Bytes KvTree Pdu Database KeyBackups.

Section routes.
Context {RU : Ruma}.
Context {Algorithm KeyData : Type} `{JA : !Json Algorithm} `{JK : !Json KeyData}.

(** The answers that carry the count and the etag. *)
Record BackupState := mkBackupState { bs_count : Z; bs_etag : bytes }.

Record BackupInfo := mkBackupInfo { bi_algorithm : Algorithm; bi_state : BackupState; bi_version : bytes }.

(** [count as u32]. *)
Definition as_u32 (n : Z) : Z := n `mod` 2 ^ 32.

Definition backup_state (sender_user version : bytes) : M Db BackupState :=
  count ← count_keys sender_user version;
  etag ← get_etag sender_user version;
  mret (mkBackupState (as_u32 count) etag).

Definition create_backup_version_route (sender_user : bytes) (algorithm : Algorithm) : M Db bytes :=
  create_backup sender_user algorithm.

Definition update_backup_version_route (sender_user version : bytes) (algorithm : Algorithm) : M Db unit :=
  update_backup sender_user version algorithm;; mret tt.

Definition get_latest_backup_info_route (sender_user : bytes) : M Db BackupInfo :=
  o ← get_latest_backup sender_user;
  '(version, algorithm) ← lift (ok_or o (BadRequest NotFound "Key backup does not exist."));
  st ← backup_state sender_user version;
  mret (mkBackupInfo algorithm st version).

Definition get_backup_info_route (sender_user version : bytes) : M Db BackupInfo :=
  o ← get_backup sender_user version;
  algorithm ← lift (ok_or o (BadRequest NotFound "Key backup does not exist."));
  st ← backup_state sender_user version;
  mret (mkBackupInfo algorithm st version).

Definition delete_backup_version_route (sender_user version : bytes) : M Db unit := delete_backup sender_user version.

(** The check the three routes that add keys open with. *)
Definition not_latest : Error :=
  BadRequest InvalidParam "You may only manipulate the most recently created version of the backup.".

Definition only_latest (sender_user version : bytes) : M Db unit :=
  latest ← get_latest_backup_version sender_user;
  if bool_decide (Some version = latest) then mret tt else fail not_latest.

(** The rooms and their sessions, in the order of the maps of the request. *)
Definition add_backup_keys_route (sender_user version : bytes) (rooms : list (bytes * list (bytes * KeyData))) : M Db BackupState :=
  only_latest sender_user version;;
  for_each rooms (λ '(room_id, sessions),
    for_each sessions (λ '(session_id, key_data), add_key sender_user version room_id session_id key_data));;
  backup_state sender_user version.

Definition add_backup_keys_for_room_route (sender_user version room_id : bytes) (sessions : list (bytes * KeyData)) : M Db BackupState :=
  only_latest sender_user version;;
  for_each sessions (λ '(session_id, key_data), add_key sender_user version room_id session_id key_data);;
  backup_state sender_user version.

Definition add_backup_keys_for_session_route (sender_user version room_id session_id : bytes) (session_data : KeyData) : M Db BackupState :=
  only_latest sender_user version;;
  add_key sender_user version room_id session_id session_data;;
  backup_state sender_user version.

Definition get_backup_keys_route (sender_user version : bytes) : M Db (gmap bytes (gmap bytes KeyData)) :=
  get_all sender_user version.

Definition get_backup_keys_for_room_route (sender_user version room_id : bytes) : M Db (gmap bytes KeyData) :=
  get_room sender_user version room_id.

Definition get_backup_keys_for_session_route (sender_user version room_id session_id : bytes) : M Db KeyData :=
  o ← get_session sender_user version room_id session_id;
  lift (ok_or o (BadRequest NotFound "Backup key not found for this user's session.")).

Definition delete_backup_keys_route (sender_user version : bytes) : M Db BackupState :=
  delete_all_keys sender_user version;; backup_state sender_user version.

Definition delete_backup_keys_for_room_route (sender_user version room_id : bytes) : M Db BackupState :=
  delete_room_keys sender_user version room_id;; backup_state sender_user version.

Definition delete_backup_keys_for_session_route (sender_user version room_id session_id : bytes) : M Db BackupState :=
  delete_room_key sender_user version room_id session_id;; backup_state sender_user version.
End routes.

(** ** Lemmas *)

Section lemmas.
Context {RU : Ruma} {Algorithm KeyData : Type} {JA : Json Algorithm} {JK : Json KeyData}.
Implicit Types (d : Db) (u v r s : bytes) (x : KeyData) (l : list (bytes * bytes * KeyData)).

(** The keys of the table of versions name a user and a version. *)
Definition VersionInv d : Prop :=
  ∀ k, is_Some (kv d backupid_algorithm !! k) → ∃ u v, no_ff u ∧ no_ff v ∧ k = backup_id u v.

Lemma latest_version_exists d u v d' :
  VersionInv d → no_ff u → get_latest_backup_version u d = (Ok (Some v), d') →
  is_Some (kv d backupid_algorithm !! backup_id u v) ∧ no_ff v.
Proof.
  intros HV Hu. unfold get_latest_backup_version, gets. intros [= E _].
  destruct (latest_entry u d) as [[k w]|] eqn:El; [|done]. cbn in E.
  assert (kv d backupid_algorithm !! k = Some w ∧ starts_with (u ++ [ff]) k = true) as [Hk Hp].
  { unfold latest_entry in El. rewrite iter_from_prefix_rev in El by apply starts_with_app.
    apply head_Some_elem_of in El as Hin. rewrite elem_of_reverse in Hin.
    apply elem_of_bfilter in Hin as [Hb Hin]. apply elem_of_entries in Hin. cbn in Hb. by apply andb_true_iff in Hb as [? _]. }
  destruct (HV k) as (u' & v' & Hu' & Hv' & ->); [by eexists|].
  unfold backup_id in Hp. apply starts_with_ff in Hp as <-; [|done..].
  unfold backup_id in E. rewrite rsplit_first_app in E by done. destruct (string_from_bytes v') eqn:Ev; [|done].
  apply string_from_bytes_Some in Ev as [-> _]. injection E as ->. by split; [eexists|].
Qed.

(** What adding one key writes. *)
Lemma add_key_writes d n u v r s x :
  count_is d n → n < u64_max → is_Some (kv d backupid_algorithm !! backup_id u v) →
  ∃ d', add_key u v r s x d = (Ok tt, d') ∧ count_is d' (n + 1) ∧
    kv d' backupid_algorithm = kv d backupid_algorithm ∧
    kv d' backupid_etag !! backup_id u v = Some (to_be_bytes (n + 1)) ∧
    kv d' backupkeyid_backup = <[session_key u v r s := to_vec x]> (kv d backupkeyid_backup).
Proof.
  intros Hc Hn [a Ha]. unfold add_key, get, kv_get. cbv zeta.
  rewrite (bind_gets (λ d, kv d backupid_algorithm !! backup_id u v)), Ha. rewrite bool_decide_eq_false_2 by done.
  rewrite (bind_ok _ _ _ _ _ (next_count_spec d n Hc Hn)). unfold insert. run. eexists. split; [done|].
  assert (is_u64 (n + 1)) as Hu by (destruct Hc as [[] _]; unfold is_u64; lia). split_and!.
  - split; [done|]. left. kv_simpl. unfold set_count. kv_simpl. apply lookup_insert_eq.
  - by kv_simpl.
  - kv_simpl. apply lookup_insert_eq.
  - by kv_simpl.
Qed.

(** The keys of a request, in the order they are added. *)
Definition uploaded (rooms : list (bytes * list (bytes * KeyData))) : list (bytes * bytes * KeyData) :=
  rooms ≫= λ '(r, ss), (λ '(s, x), (r, s, x)) <$> ss.

Definition put_key u v (t : Tree) (e : bytes * bytes * KeyData) : Tree :=
  <[session_key u v e.1.1 e.1.2 := to_vec e.2]> t.

Lemma bind_same {A B} (m1 m2 : M Db A) (f1 f2 : A → M Db B) d :
  m1 d = m2 d → (∀ a d', f1 a d' = f2 a d') → (m1 ≫= f1) d = (m2 ≫= f2) d.
Proof. intros E Hf. unfold mbind, M_bind. rewrite E. destruct (m2 d) as [[] ?]; [apply Hf|done..]. Qed.

Lemma add_rooms_flat u v rooms d :
  for_each rooms (λ '(r, ss), for_each ss (λ '(s, x), add_key u v r s x)) d =
  for_each (uploaded rooms) (λ '(r, s, x), add_key u v r s x) d.
Proof.
  revert d. induction rooms as [|[r ss] rooms IH]; intros d; [done|]. unfold uploaded in *. rewrite bind_cons. cbn [for_each].
  rewrite for_each_app. apply bind_same; [|done].
  clear IH. revert d. induction ss as [|[s x] ss IH]; intros d; [done|]. rewrite fmap_cons. cbn [for_each]. by apply bind_same.
Qed.

Lemma add_all_writes l d n u v :
  count_is d n → n + Z.of_nat (length l) ≤ u64_max → is_Some (kv d backupid_algorithm !! backup_id u v) →
  ∃ d', for_each l (λ '(r, s, x), add_key u v r s x) d = (Ok tt, d') ∧
    (l ≠ [] → kv d' backupid_etag !! backup_id u v = Some (to_be_bytes (n + Z.of_nat (length l)))) ∧
    kv d' backupkeyid_backup = fold_left (put_key u v) l (kv d backupkeyid_backup).
Proof.
  revert d n. induction l as [|[[r s] x] l IH]; intros d n Hc Hn Ha; [by exists d|]. cbn [length] in Hn.
  destruct (add_key_writes d n u v r s x Hc ltac:(lia) Ha) as (d1 & E1 & Hc1 & T1 & He1 & Hk1).
  destruct (IH d1 (n + 1) Hc1 ltac:(lia)) as (d2 & E2 & He2 & Hk2); [by rewrite T1|].
  exists d2. cbn [for_each]. rewrite (bind_ok _ _ _ _ _ E1). split_and!; [done| |by rewrite Hk2, Hk1].
  intros _. destruct l as [|e l].
  - injection E2 as <-. by rewrite He1.
  - rewrite He2 by done. do 2 f_equal. cbn [length]. lia.
Qed.

(** Reading the keys after an upload. *)
Lemma lookup_put_keys l u v (t : Tree) :
  no_ff u → no_ff v → Forall (λ e, no_ff e.1.1) l → NoDup l.*1 →
  (∀ r s x, (r, s, x) ∈ l → fold_left (put_key u v) l t !! session_key u v r s = Some (to_vec x)) ∧
  (∀ k, (∀ r s x, (r, s, x) ∈ l → k ≠ session_key u v r s) → fold_left (put_key u v) l t !! k = t !! k).
Proof.
  intros Hu Hv. revert t. induction l as [|[[r0 s0] x0] l IH]; intros t Hf Hnd; [set_solver|].
  apply Forall_cons in Hf as [Hr0 Hf]. rewrite fmap_cons in Hnd. apply NoDup_cons in Hnd as [Hn Hnd].
  destruct (IH (put_key u v t (r0, s0, x0)) Hf Hnd) as [IH1 IH2]. cbn [fold_left]. split.
  - intros r s x [[= -> -> ->]|Hin]%elem_of_cons; [|by apply IH1]. rewrite IH2; [by unfold put_key; rewrite lookup_insert_eq|].
    intros r s x Hin E. apply session_key_inj in E as (_ & _ & -> & ->); [|done..|]; [|by eapply Forall_forall in Hf; [|exact Hin]].
    apply Hn, list_elem_of_fmap. by exists (r, s, x).
  - intros k Hk. rewrite IH2 by (intros r s x Hin; apply (Hk r s x); by constructor).
    unfold put_key. cbn [fst snd]. apply lookup_insert_ne. intros E. by apply (Hk r0 s0 x0); [constructor|].
Qed.
End lemmas.

(** ** Claims *)

(** What the store holds after an upload. *)
Section upload.
Context {RU : Ruma} {Algorithm KeyData : Type} {JA : Json Algorithm} {JK : Json KeyData}.

Lemma upload_stored (d d' : Db) u v (l : list (bytes * bytes * KeyData)) :
  BackupInv (KeyData := KeyData) d → no_ff u → no_ff v → NoDup l.*1 → (∀ r s x, (r, s, x) ∈ l → id_parts u v r s) →
  kv d' backupkeyid_backup = fold_left (put_key u v) l (kv d backupkeyid_backup) →
  BackupInv (KeyData := KeyData) d' ∧
  (∀ r s x, (r, s, x) ∈ l → stored_key d' u v r s = Some x) ∧
  (∀ u' v' r s, id_parts u' v' r s → ((u', v') = (u, v) → (r, s) ∉ l.*1) → stored_key (KeyData := KeyData) d' u' v' r s = stored_key d u' v' r s).
Proof.
  intros HI Hu Hv Hnd Hl E.
  assert (Forall (λ e : bytes * bytes * KeyData, no_ff e.1.1) l) as Hf.
  { apply Forall_forall. intros [[r s] x] Hin. destruct (Hl _ _ _ Hin) as (_ & _ & [Hr _] & _). by apply utf8_no_ff. }
  destruct (lookup_put_keys l u v (kv d backupkeyid_backup) Hu Hv Hf Hnd) as [H1 H2]. rewrite <-E in H1, H2. split_and!.
  - intros k w Hk. destruct (decide (Exists (λ e, k = session_key u v e.1.1 e.1.2) l)) as [He|He].
    + apply Exists_exists in He as ([[r s] x] & Hin & ->). cbn [fst snd] in *. rewrite (H1 _ _ _ Hin) in Hk. injection Hk as <-.
      exists u, v, r, s. rewrite from_slice_to_vec. split_and!; [by eapply Hl|done|by eexists].
    + rewrite H2 in Hk; [by apply HI|]. intros r s x Hin ->. apply He, Exists_exists. by exists (r, s, x).
  - intros r s x Hin. unfold stored_key. rewrite (H1 _ _ _ Hin). cbn. apply from_slice_to_vec.
  - intros u' v' r s (Hu' & Hv' & [Hr _] & _) Hne. unfold stored_key. rewrite H2; [done|]. intros r' s' x' Hin Ek.
    apply session_key_inj in Ek as (-> & -> & -> & ->); [|done..|by apply utf8_no_ff| | |]; [|done..|].
    + apply (Hne eq_refl), list_elem_of_fmap. by exists (r', s', x').
    + destruct (Hl _ _ _ Hin) as (_ & _ & [? _] & _). by apply utf8_no_ff.
Qed.
End upload.

(** Uploading keys.  Only uploads to the version the server takes for the
    latest are accepted; any other is refused and changes nothing.  An accepted
    upload of some keys stores every one of them: each is then what reading its
    session answers, every other key of every backup is as before, and the etag
    of the answer is the value of the global counter after the upload, so it is
    new. *)
Theorem backup_upload_readable (RU : Ruma) (KeyData : Type) (JK : Json KeyData) d n u v
    (rooms : list (bytes * list (bytes * KeyData))) latest :
  BackupInv (KeyData := KeyData) d → VersionInv d → count_is d n → no_ff u →
  n + Z.of_nat (length (uploaded rooms)) ≤ u64_max → uploaded rooms ≠ [] → NoDup (uploaded rooms).*1 →
  (∀ r s x, (r, s, x) ∈ uploaded rooms → id_parts u v r s) →
  get_latest_backup_version u d = (Ok latest, d) →
  if decide (latest = Some v) then
    ∃ d' st, add_backup_keys_route u v rooms d = (Ok st, d') ∧ BackupInv (KeyData := KeyData) d' ∧
      bs_etag st = to_string (n + Z.of_nat (length (uploaded rooms))) ∧
      (∀ r s x, (r, s, x) ∈ uploaded rooms → get_backup_keys_for_session_route u v r s d' = (Ok x, d')) ∧
      (∀ u' v' r s, id_parts u' v' r s → ((u', v') = (u, v) → (r, s) ∉ (uploaded rooms).*1) →
         get_backup_keys_for_session_route (KeyData := KeyData) u' v' r s d' =
         ((get_backup_keys_for_session_route u' v' r s d).1, d'))
  else add_backup_keys_route u v rooms d = (Err not_latest, d).
Proof.
  intros HI HV Hc Hu Hn Hne Hnd Hl Hlatest. unfold add_backup_keys_route, only_latest. rewrite bind_assoc, (bind_ok _ _ _ _ _ Hlatest).
  case_decide as E; [subst latest|by rewrite bool_decide_eq_false_2 by congruence].
  rewrite bool_decide_eq_true_2 by done. rewrite (bind_ok (mret tt : M Db unit) _ d tt d eq_refl).
  destruct (latest_version_exists d u v d HV Hu Hlatest) as [Hex Hv].
  destruct (add_all_writes (uploaded rooms) d n u v Hc Hn Hex) as (d' & Ed & He & Hk). specialize (He Hne).
  destruct (upload_stored d d' u v (uploaded rooms) HI Hu Hv Hnd Hl Hk) as (HI' & Hin & Hout).
  rewrite <-add_rooms_flat in Ed. rewrite (bind_ok _ _ _ _ _ Ed).
  assert (is_u64 (n + Z.of_nat (length (uploaded rooms)))) as Hu64 by (destruct Hc as [[] _]; unfold is_u64; lia).
  eexists d', _. split_and!.
  - unfold backup_state, count_keys, get_etag, get, kv_get. run. rewrite He. cbn [ok_or]. run. rewrite u64_from_to_be_bytes by done. run. done.
  - done.
  - done.
  - intros r s x Hx. unfold get_backup_keys_for_session_route. rewrite (bind_ok _ _ _ _ _ (get_session_spec _ _ _ _ _ HI')).
    by rewrite (Hin _ _ _ Hx).
  - intros u' v' r s Hid Hr. unfold get_backup_keys_for_session_route.
    rewrite (bind_ok _ _ _ _ _ (get_session_spec _ _ _ _ _ HI')), (bind_ok _ _ _ _ _ (get_session_spec _ _ _ _ _ HI)).
    rewrite Hout by done. by destruct (stored_key d u' v' r s).
Qed.

(** The version a client has just created is refused when an older one is later
    in byte order: with backups 9 and 11 the newest backup takes no keys. *)
Theorem newest_backup_refused (RU : Ruma) (Algorithm KeyData : Type) (JA : Json Algorithm) (JK : Json KeyData) d u (a1 a2 : Algorithm)
    (rooms : list (bytes * list (bytes * KeyData))) :
  count_is d 8 → no_ff u → (∀ k, is_Some (kv d backupid_algorithm !! k) → starts_with (u ++ [ff]) k = false) →
  ∃ d1 d2, create_backup_version_route u a1 d = (Ok (lit "9"), d1) ∧ create_backup_version_route u a2 d1 = (Ok (lit "11"), d2) ∧
    add_backup_keys_route u (lit "11") rooms d2 = (Err not_latest, d2).
Proof.
  intros Hc Hu Hk. destruct (latest_backup_is_lexicographic Algorithm JA d u a1 a2 Hc Hu Hk) as (d1 & d2 & E1 & E2 & E3).
  exists d1, d2. split_and!; [done..|]. unfold add_backup_keys_route, only_latest. by rewrite bind_assoc, (bind_ok _ _ _ _ _ E3).
Qed.

(** ** Witness *)

#[local] Existing Instance sample_ruma.
#[local] Instance upload_json : Json bytes := json_countable bytes.

Definition upload_rooms : list (bytes * list (bytes * bytes)) := [(lit "!r:b", [(lit "s1", lit "k1"); (lit "s2", lit "k2")])].

Lemma backup_upload_readable_witness :
  ∃ d' st, add_backup_keys_route (lit "@a:b") (lit "1") upload_rooms backup_sample = (Ok st, d') ∧
    bs_etag st = to_string 2 ∧ get_backup_keys_for_session_route (lit "@a:b") (lit "1") (lit "!r:b") (lit "s2") d' = (Ok (lit "k2"), d').
Proof.
  assert (∀ r s x, (r, s, x) ∈ uploaded upload_rooms → id_parts (lit "@a:b") (lit "1") r s) as Hl.
  { intros r s x. unfold uploaded, upload_rooms. cbn. rewrite !elem_of_cons, elem_of_nil.
    intros [[= -> -> ->]|[[= -> -> ->]|[]]]; split_and!; (done || by apply utf8_no_ff). }
  pose proof (backup_upload_readable _ bytes _ backup_sample 0 (lit "@a:b") (lit "1") upload_rooms (Some (lit "1"))) as H.
  destruct H as (d' & st & E & _ & Het & Hin & _).
  - intros k w H. by vm_compute in H.
  - intros k [w Hk]. unfold backup_sample in Hk. revert Hk. kv_simpl. intros [<- _]%lookup_singleton_Some.
    exists (lit "@a:b"), (lit "1"). split_and!; [by apply utf8_no_ff..|done].
  - split; [done|]. right. done.
  - by apply utf8_no_ff.
  - done.
  - done.
  - vm_compute. repeat constructor; set_solver.
  - exact Hl.
  - by vm_compute.
  - exists d', st. split_and!; [done|done|]. apply Hin. unfold uploaded, upload_rooms. cbn. by right; left.
Defined.
