(* ===== verification/Push.v ===== *)
(** * Push: notifications to push gateways and the routes of push rules

    [server/src/service/pusher/mod.rs] and
    [server/src/api/client_server/push.rs].  The push rules themselves (what
    actions an event triggers, how a rule is inserted) are ruma's; the server
    decides from the actions whether to notify, chooses what to tell the gateway
    and stores the rules in the account data. *)
From S2P Require Import Prelude Bytes JsonValue KvTree Pdu Database RoomState Accounts Timeline PduJson AccountData RoomTables StateAccess Appservice.

(** ** Data *)

Inductive Tweak := TweakHighlight (b : bool) | TweakSound (name : bytes) | TweakCustom (name : bytes).

Inductive PushAction := PushNotify | PushTweak (t : Tweak) | PushOther.

Inductive PushFormat := EventIdOnly | FormatCustom (name : bytes).

Record HttpPusher := mkHttpPusher { hp_url : bytes; hp_format : option PushFormat; hp_data : bytes }.

Inductive PusherKind := KindHttp (http : HttpPusher) | KindEmail | KindOther.

Record PusherData := mkPusherData { pd_app_id : bytes; pd_pushkey : bytes; pd_kind : PusherKind }.

Inductive Priority := PrioLow | PrioHigh.

(** The device of a notification. *)
Record PushDevice := mkPushDevice {
  dv_app_id : bytes;
  dv_pushkey : bytes;
  dv_data : bytes;
  dv_format : option PushFormat;
  dv_tweaks : list Tweak;
}.

Record Notification := mkNotification {
  nt_device : PushDevice;
  nt_prio : Priority;
  nt_event_id : option bytes;
  nt_room_id : option bytes;
  nt_counts : Z * Z;
  nt_sender : option bytes;
  nt_type : option bytes;
  nt_content : option bytes;
  nt_user_is_target : bool;
  nt_sender_name : option bytes;
  nt_room_name : option bytes;
}.

#[global] Instance PushFormat_eq_dec : EqDecision PushFormat.
Proof. solve_decision. Defined.

(** The database and the requests that left for gateways. *)
Record Pushing := mkPushing { px_db : Db; px_sent : list (bytes * Notification) }.

Definition pdb {A} (m : M Db A) : M Pushing A := λ p, let '(r, d) := m (px_db p) in (r, mkPushing d (px_sent p)).

(** What comes back for a request: no connection, or a status and a body. *)
Inductive GatewayAnswer := NoAnswer | Answered (status : Z) (body : bytes).

(** The push gateways, how ruma writes requests to and reads answers from them,
    and what reqwest takes as the address of a request. *)
Class Gateways := {
  valid_destination : bytes → bool;
  (** [reqwest::Request::try_from]: the url is absolute *)
  sendable : bytes → bool;
  gateway : bytes → Notification → GatewayAnswer;
  read_answer : Z → bytes → bool;
}.

(** [str::replace(pat, "")]: [skip] characters belong to a match. *)
Fixpoint remove_all (skip : nat) (pat s : bytes) : bytes :=
  match s with
  | [] => []
  | c :: s' =>
      match skip with
      | S k => remove_all k pat s'
      | O => if starts_with pat s then remove_all (length pat - 1) pat s' else c :: remove_all 0 pat s'
      end
  end.

Section pusher.
Context {RU : Ruma} {LR : LruCache} {HO : HashOrder} {CT : Contents} {RV : RoomVersions} {LP : Localpart} {GW : Gateways}.
Context `{JP : !Json PduEvent} `{JV : !Json Value} `{JR : !Json RedactionContent}.
Context {Ruleset : Type}.
(** [Ruleset::get_actions] on an event, in a room, for a user with a display
    name, under the power levels. *)
Context (ruleset_actions : Ruleset → Value → bytes → bytes → bytes → PowerLevels → list PushAction).

Definition send_request (destination : bytes) (request : Notification) : M Pushing unit :=
  let destination := remove_all 0 (lit "/_matrix/push/v1/notify") destination in
  if negb (valid_destination destination) then fail (BadServerResponse "Invalid destination") else
  if negb (sendable destination) then fail ReqwestError else
  modify (λ p, mkPushing (px_db p) (px_sent p ++ [(destination, request)]));;
  match gateway destination request with
  | NoAnswer => fail ReqwestError
  | Answered status body =>
      if read_answer status body then mret tt else fail (BadServerResponse "Push gateway returned bad response.")
  end.

(** The actions a user's rules give an event. *)
Definition push_actions (user : bytes) (ruleset : Ruleset) (levels : PowerLevels) (pdu : Value) (room : bytes) : M Db (list PushAction) :=
  name ← displayname user;
  mret (ruleset_actions ruleset pdu room user (default (localpart user) name) levels).

Definition is_loud (t : Tweak) : bool :=
  match t with TweakHighlight b => b | TweakSound _ => true | TweakCustom _ => false end.

Definition push_send_notice (unread : Z) (pusher : PusherData) (tweaks : list Tweak) (event : PduEvent) : M Pushing unit :=
  match pd_kind pusher with
  | KindHttp http =>
      let event_id_only := bool_decide (hp_format http = Some EventIdOnly) in
      (* Tweaks are only added if the format is NOT event_id_only *)
      let device := mkPushDevice (pd_app_id pusher) (pd_pushkey pusher) (hp_data http) (hp_format http)
        (if event_id_only then [] else tweaks) in
      room ← lift (room_id event);
      let prio := if bool_decide (pdu_kind event = lit "m.room.encrypted") || existsb is_loud tweaks then PrioHigh else PrioLow in
      if event_id_only then
        send_request (hp_url http)
          (mkNotification device prio (Some (pdu_event_id event)) (Some room) (unread, 0) None None None false None None)
      else
        let user_is_target :=
          bool_decide (pdu_kind event = lit "m.room.member") && bool_decide (pdu_state_key event = Some (pdu_sender event)) in
        sender_name ← pdb (displayname (pdu_sender event));
        room_name ← pdb (get_name room);
        send_request (hp_url http)
          (mkNotification device prio (Some (pdu_event_id event)) (Some room) (unread, 0) (Some (pdu_sender event))
            (Some (pdu_kind event)) (Some (pdu_content event)) user_is_target sender_name room_name)
  | KindEmail | KindOther => mret tt
  end.

(** The message quotes the three names with double quotes. *)
Definition several_actions : Error :=
  BadDatabase "Malformed pushrule contains more than one of these actions: ['dont_notify', 'notify', 'coalesce']".

(** One action of the loop: the decision so far and the tweaks. *)
Definition take_action (acc : option bool * list Tweak) (action : PushAction) : M Pushing (option bool * list Tweak) :=
  let '(notify, tweaks) := acc in
  match action with
  | PushTweak tweak => mret (notify, tweaks ++ [tweak])
  | PushNotify => if bool_decide (is_Some notify) then fail several_actions else mret (Some true, tweaks)
  | PushOther => if bool_decide (is_Some notify) then fail several_actions else mret (Some false, tweaks)
  end.

Definition send_push_notice (user : bytes) (unread : Z) (pusher : PusherData) (ruleset : Ruleset) (pdu : PduEvent) : M Pushing unit :=
  room ← lift (room_id pdu);
  levels ← pdb (power_levels room);
  sync_pdu ← lift (to_sync_room_event pdu);
  actions ← pdb (push_actions user ruleset levels sync_pdu room);
  '(notify, tweaks) ← foldM take_action (None, []) actions;
  (* Else the event triggered no actions *)
  if bool_decide (notify = Some true) then push_send_notice unread pusher tweaks pdu else mret tt.
End pusher.

(** ** The routes *)

Section routes.
Context `{JV : !Json Value} (has_field : bytes → Value → bool).
(** ruma's rules: what they are made of, and the operations on them. *)
Context {Ruleset RuleKind PushRule NewPushRule : Type}.
Context (rules_of_event : Value → option Ruleset) (rules_event : Ruleset → Value).

Inductive InsertPushRuleError :=
  ServerDefaultRuleId | InvalidRuleId | RelativeToServerDefaultRule | UnknownRuleId | BeforeHigherThanAfter | InsertOther.

Inductive RemovePushRuleError := ServerDefault | RuleNotFound | RemoveOther.

Context (rules_get : Ruleset → RuleKind → bytes → option PushRule) (rule_actions : PushRule → list PushAction) (rule_enabled : PushRule → bool).
Context (rules_insert : Ruleset → NewPushRule → option bytes → option bytes → InsertPushRuleError + Ruleset).
Context (rules_set_actions : Ruleset → RuleKind → bytes → list PushAction → option Ruleset).
Context (rules_set_enabled : Ruleset → RuleKind → bytes → bool → option Ruleset).
Context (rules_remove : Ruleset → RuleKind → bytes → RemovePushRuleError + Ruleset).

Definition push_rules_type : bytes := lit "m.push_rules".

(** Every route starts by reading the stored event. *)
Definition read_push_rules (sender_user : bytes) : M Db Ruleset :=
  o ← get_data None sender_user push_rules_type;
  event ← lift (ok_or o (BadRequest NotFound "PushRules event not found."));
  lift (ok_or (rules_of_event event) (BadDatabase "Invalid account data event in db.")).

Definition no_rule : Error := BadRequest NotFound "Push rule not found.".

Definition get_pushrules_all_route (sender_user : bytes) : M Db Ruleset := read_push_rules sender_user.

Definition get_pushrule_route (sender_user : bytes) (kind : RuleKind) (rule_id : bytes) : M Db PushRule :=
  rules ← read_push_rules sender_user;
  lift (ok_or (rules_get rules kind rule_id) no_rule).

Definition get_pushrule_actions_route (sender_user : bytes) (kind : RuleKind) (rule_id : bytes) : M Db (list PushAction) :=
  rules ← read_push_rules sender_user;
  lift (ok_or (rule_actions <$> rules_get rules kind rule_id) no_rule).

Definition get_pushrule_enabled_route (sender_user : bytes) (kind : RuleKind) (rule_id : bytes) : M Db bool :=
  rules ← read_push_rules sender_user;
  lift (ok_or (rule_enabled <$> rules_get rules kind rule_id) no_rule).

(** The routes that change the rules write the event back. *)
Definition change_push_rules (sender_user : bytes) (change : Ruleset → res Ruleset) : M Db unit :=
  rules ← read_push_rules sender_user;
  rules' ← lift (change rules);
  update has_field None sender_user push_rules_type (rules_event rules').

Definition insert_error (error : InsertPushRuleError) : Error :=
  match error with
  | ServerDefaultRuleId => BadRequest InvalidParam "Rule IDs starting with a dot are reserved for server-default rules."
  | InvalidRuleId => BadRequest InvalidParam "Rule ID containing invalid characters."
  | RelativeToServerDefaultRule => BadRequest InvalidParam "Can't place a push rule relatively to a server-default rule."
  | UnknownRuleId => BadRequest NotFound "The before or after rule could not be found."
  | BeforeHigherThanAfter => BadRequest InvalidParam "The before rule has a higher priority than the after rule."
  | InsertOther => BadRequest InvalidParam "Invalid data."
  end.

Definition remove_error (error : RemovePushRuleError) : Error :=
  match error with
  | ServerDefault => BadRequest InvalidParam "Cannot delete a server-default pushrule."
  | RuleNotFound => no_rule
  | RemoveOther => BadRequest InvalidParam "Invalid data."
  end.

Definition set_pushrule_route (sender_user : bytes) (rule : NewPushRule) (after before : option bytes) : M Db unit :=
  change_push_rules sender_user (λ rules,
    match rules_insert rules rule after before with inl e => Err (insert_error e) | inr rules' => Ok rules' end).

Definition set_pushrule_actions_route (sender_user : bytes) (kind : RuleKind) (rule_id : bytes) (actions : list PushAction) : M Db unit :=
  change_push_rules sender_user (λ rules, ok_or (rules_set_actions rules kind rule_id actions) no_rule).

Definition set_pushrule_enabled_route (sender_user : bytes) (kind : RuleKind) (rule_id : bytes) (enabled : bool) : M Db unit :=
  change_push_rules sender_user (λ rules, ok_or (rules_set_enabled rules kind rule_id enabled) no_rule).

Definition delete_pushrule_route (sender_user : bytes) (kind : RuleKind) (rule_id : bytes) : M Db unit :=
  change_push_rules sender_user (λ rules,
    match rules_remove rules kind rule_id with inl e => Err (remove_error e) | inr rules' => Ok rules' end).
End routes.

Section pusher_routes.
Context `{JPu : !Json PusherData} (post_json : PusherData → bool → bytes).

Definition get_pushers_route (sender_user : bytes) : M Db (list PusherData) := get_pushers sender_user.

(** The flag [append] is stored and not used. *)
Definition set_pushers_route (sender_user : bytes) (action : PusherAction (Pusher := PusherData)) : M Db unit :=
  set_pusher pd_pushkey post_json sender_user action.
End pusher_routes.

(** ** Lemmas *)

(** The actions that decide, and the tweaks. *)
Definition deciding (actions : list PushAction) : list PushAction :=
  bfilter (λ a, match a with PushTweak _ => false | _ => true end) actions.

Definition tweaks_of (actions : list PushAction) : list Tweak :=
  omap (λ a, match a with PushTweak t => Some t | _ => None end) actions.

Lemma take_actions_decided b ts actions p :
  foldM take_action (Some b, ts) actions p =
  (match deciding actions with [] => Ok (Some b, ts ++ tweaks_of actions) | _ => Err several_actions end, p).
Proof.
  revert ts. induction actions as [|[|t|] actions IH]; intros ts; [by rewrite app_nil_r|done| |done].
  cbn [foldM]. rewrite (bind_ok (take_action (Some b, ts) (PushTweak t)) _ p (Some b, ts ++ [t]) p eq_refl), IH.
  change (deciding (PushTweak t :: actions)) with (deciding actions). change (tweaks_of (PushTweak t :: actions)) with (t :: tweaks_of actions).
  by rewrite <-app_assoc.
Qed.

(** The loop: no decision, one, or an error. *)
Lemma take_actions_spec ts actions p :
  foldM take_action (None, ts) actions p =
  (match deciding actions with
   | [] => Ok (None, ts ++ tweaks_of actions)
   | [a] => Ok (Some (match a with PushNotify => true | _ => false end), ts ++ tweaks_of actions)
   | _ => Err several_actions
   end, p).
Proof.
  revert ts. induction actions as [|[|t|] actions IH]; intros ts; [by rewrite app_nil_r| | |]; cbn [foldM].
  - rewrite (bind_ok (take_action (None, ts) PushNotify) _ p (Some true, ts) p eq_refl), take_actions_decided.
    change (deciding (PushNotify :: actions)) with (PushNotify :: deciding actions). by destruct (deciding actions).
  - rewrite (bind_ok (take_action (None, ts) (PushTweak t)) _ p (None, ts ++ [t]) p eq_refl), IH.
    change (deciding (PushTweak t :: actions)) with (deciding actions). change (tweaks_of (PushTweak t :: actions)) with (t :: tweaks_of actions).
    by rewrite <-app_assoc.
  - rewrite (bind_ok (take_action (None, ts) PushOther) _ p (Some false, ts) p eq_refl), take_actions_decided.
    change (deciding (PushOther :: actions)) with (PushOther :: deciding actions). by destruct (deciding actions).
Qed.

(** What a notification says of an event: an [event_id_only] pusher is told
    neither the sender nor the content, the names or the tweaks. *)
Definition told (event : PduEvent) (room : bytes) (unread : Z) (format : option PushFormat) (tweaks : list Tweak)
    (sender_name room_name : option bytes) (n : Notification) : Prop :=
  nt_event_id n = Some (pdu_event_id event) ∧ nt_room_id n = Some room ∧ nt_counts n = (unread, 0) ∧
  (nt_prio n = PrioHigh ↔ pdu_kind event = lit "m.room.encrypted" ∨ ∃ t, t ∈ tweaks ∧ is_loud t = true) ∧
  if decide (format = Some EventIdOnly) then
    nt_sender n = None ∧ nt_type n = None ∧ nt_content n = None ∧ nt_sender_name n = None ∧ nt_room_name n = None ∧ dv_tweaks (nt_device n) = []
  else
    nt_sender n = Some (pdu_sender event) ∧ nt_type n = Some (pdu_kind event) ∧ nt_content n = Some (pdu_content event) ∧
    nt_sender_name n = sender_name ∧ nt_room_name n = room_name ∧ dv_tweaks (nt_device n) = tweaks.

(** What a gateway's answer means to the sender. *)
Definition accepted `{GW : Gateways} (dest : bytes) (n : Notification) : bool :=
  match gateway dest n with NoAnswer => false | Answered status body => read_answer status body end.

Section notices.
Context {RU : Ruma} {LR : LruCache} {HO : HashOrder} {CT : Contents} {RV : RoomVersions} {GW : Gateways} {JP : Json PduEvent}.

Lemma send_request_spec url n p :
  let dest := remove_all 0 (lit "/_matrix/push/v1/notify") url in
  if valid_destination dest then
    if sendable dest then ∃ r, send_request url n p = (r, mkPushing (px_db p) (px_sent p ++ [(dest, n)])) ∧ (r = Ok tt ↔ accepted dest n = true)
    else send_request url n p = (Err ReqwestError, p)
  else send_request url n p = (Err (BadServerResponse "Invalid destination"), p).
Proof.
  cbv zeta. unfold send_request, accepted. cbv zeta. set (dest := remove_all _ _ _). destruct (valid_destination dest); [|done].
  cbn [negb]. destruct (sendable dest); [|done]. cbn [negb]. rewrite bind_modify. destruct (gateway dest n) as [|status body]; [|destruct (read_answer status body)];
    (eexists; split; [done|]; by split).
Qed.

Lemma prio_high (b : bool) P : (b = true ↔ P) → (if b then PrioHigh else PrioLow) = PrioHigh ↔ P.
Proof. intros <-. by destruct b. Qed.

Lemma push_send_notice_spec unread pusher http tweaks event room sname rname d' p :
  pd_kind pusher = KindHttp http → room_id event = Ok room →
  displayname (pdu_sender event) (px_db p) = (Ok sname, px_db p) → get_name room (px_db p) = (Ok rname, d') →
  let dest := remove_all 0 (lit "/_matrix/push/v1/notify") (hp_url http) in
  ∃ r p', push_send_notice unread pusher tweaks event p = (r, p') ∧
    if valid_destination dest then
      if sendable dest then
        ∃ n, px_sent p' = px_sent p ++ [(dest, n)] ∧ told event room unread (hp_format http) tweaks sname rname n ∧
          (r = Ok tt ↔ accepted dest n = true)
      else r = Err ReqwestError ∧ px_sent p' = px_sent p
    else r = Err (BadServerResponse "Invalid destination") ∧ px_sent p' = px_sent p.
Proof.
  intros Hk Hr Hs Hn dest. unfold push_send_notice. rewrite Hk. cbv zeta.
  rewrite (bind_ok (lift (room_id event)) _ p room p) by (unfold lift; by rewrite Hr).
  set (prio := if _ || _ then PrioHigh else PrioLow).
  assert (prio = PrioHigh ↔ pdu_kind event = lit "m.room.encrypted" ∨ ∃ t, t ∈ tweaks ∧ is_loud t = true) as Hprio.
  { apply prio_high. rewrite orb_true_iff, bool_decide_eq_true, existsb_exists. by setoid_rewrite list_elem_of_In. }
  destruct (decide (hp_format http = Some EventIdOnly)) as [Ef|Ef].
  - rewrite bool_decide_eq_true_2 by done. set (n := mkNotification _ _ _ _ _ _ _ _ _ _ _).
    pose proof (send_request_spec (hp_url http) n p) as H. fold dest in H. cbv zeta in H. destruct (valid_destination dest); [destruct (sendable dest)|].
    + destruct H as (r & -> & Hacc). eexists _, _. split; [done|]. exists n. split_and!; [done| |done].
      unfold told. rewrite Ef, decide_True by done. by split_and!.
    + rewrite H. by eexists _, _.
    + rewrite H. by eexists _, _.
  - rewrite bool_decide_eq_false_2 by done.
    rewrite (bind_ok (pdb (displayname (pdu_sender event))) _ p sname p) by (unfold pdb; rewrite Hs; by destruct p).
    rewrite (bind_ok (pdb (get_name room)) _ p rname (mkPushing d' (px_sent p))) by (unfold pdb; by rewrite Hn).
    set (n := mkNotification _ _ _ _ _ _ _ _ _ _ _).
    pose proof (send_request_spec (hp_url http) n (mkPushing d' (px_sent p))) as H. fold dest in H. cbv zeta in H. destruct (valid_destination dest); [destruct (sendable dest)|].
    + destruct H as (r & -> & Hacc). eexists _, _. split; [done|]. exists n. split_and!; [done| |done].
      unfold told. rewrite decide_False by done. by split_and!.
    + rewrite H. by eexists _, _.
    + rewrite H. by eexists _, _.
Qed.
End notices.

(** ** Claims *)

(** C39: One event, one pusher.  The rules of the user give the event its
    actions; the tweaks aside, no action or one that is not [notify] sends
    nothing, [notify] alone sends exactly one request, to the pusher's gateway
    (or none when no request can be made for its address),
    and more than one is an error that sends nothing.  The request carries the
    event's id, the room and the unread count, is urgent exactly for encrypted
    events and loud tweaks, and tells an [event_id_only] pusher nothing else. *)
Theorem push_notice_exact (RU : Ruma) (LR : LruCache) (HO : HashOrder) (CT : Contents) (RV : RoomVersions) (LP : Localpart) (GW : Gateways)
    (JP : Json PduEvent) (JV : Json Value) (JR : Json RedactionContent) (Ruleset : Type)
    (ruleset_actions : Ruleset → Value → bytes → bytes → bytes → PowerLevels → list PushAction)
    user unread pusher http (rules : Ruleset) pdu room levels v name sname rname d1 d2 p :
  pd_kind pusher = KindHttp http → room_id pdu = Ok room → power_levels room (px_db p) = (Ok levels, d1) →
  to_sync_room_event pdu = Ok v → displayname user d1 = (Ok name, d1) →
  displayname (pdu_sender pdu) d1 = (Ok sname, d1) → get_name room d1 = (Ok rname, d2) →
  let actions := ruleset_actions rules v room user (default (localpart user) name) levels in
  let dest := remove_all 0 (lit "/_matrix/push/v1/notify") (hp_url http) in
  ∃ r p', send_push_notice ruleset_actions user unread pusher rules pdu p = (r, p') ∧
    match deciding actions with
    | [] | [PushOther] => r = Ok tt ∧ px_sent p' = px_sent p
    | [PushNotify] =>
        if valid_destination dest then
          if sendable dest then
            ∃ n, px_sent p' = px_sent p ++ [(dest, n)] ∧ told pdu room unread (hp_format http) (tweaks_of actions) sname rname n ∧
              (r = Ok tt ↔ accepted dest n = true)
          else r = Err ReqwestError ∧ px_sent p' = px_sent p
        else r = Err (BadServerResponse "Invalid destination") ∧ px_sent p' = px_sent p
    | _ => r = Err several_actions ∧ px_sent p' = px_sent p
    end.
Proof.
  intros Hk Hr Hl Hv Hu Hs Hn actions dest. unfold send_push_notice.
  rewrite (bind_ok (lift (room_id pdu)) _ p room p) by (unfold lift; by rewrite Hr).
  set (p1 := mkPushing d1 (px_sent p)).
  rewrite (bind_ok (pdb (power_levels room)) _ p levels p1) by (unfold pdb; by rewrite Hl).
  rewrite (bind_ok (lift (to_sync_room_event pdu)) _ p1 v p1) by (unfold lift; by rewrite Hv).
  assert (push_actions ruleset_actions user rules levels v room d1 = (Ok actions, d1)) as Ha
    by (unfold push_actions; by rewrite (bind_ok _ _ _ _ _ Hu)).
  rewrite (bind_ok (pdb _) _ p1 actions p1) by (unfold pdb, p1; cbn [px_db]; by rewrite Ha).
  clearbody actions. pose proof (take_actions_spec [] actions p1) as Ht. cbn [app] in Ht.
  assert (∃ r p', push_send_notice unread pusher (tweaks_of actions) pdu p1 = (r, p') ∧ _) as (r & p' & E & HE)
    by exact (push_send_notice_spec unread pusher http (tweaks_of actions) pdu room sname rname d2 p1 Hk Hr Hs Hn).
  destruct (deciding actions) as [|[|t|] [|a l]] eqn:Ed.
  all: try (rewrite (bind_err _ _ _ _ _ Ht); by eexists _, _).
  all: rewrite (bind_ok _ _ _ _ _ Ht).
  all: cbv beta iota; try (rewrite bool_decide_eq_false_2 by done; by eexists _, _).
  - rewrite bool_decide_eq_true_2, E by done. by eexists _, _.
  - assert (PushTweak t ∈ deciding actions) as Hin by (rewrite Ed; constructor). by apply elem_of_bfilter in Hin as [[=] _].
Qed.

(** Changing the rules.  What ruma answers is what is stored: when it accepts a
    change the user's rules are then the ones it returned and every other
    user's are as before, and when it refuses the route answers with its error
    and nothing changes. *)
Theorem push_rule_change_stored (JV : Json Value) has_field (Ruleset : Type) (rules_of_event : Value → option Ruleset) rules_event
    change d n u ev (rules : Ruleset) :
  (∀ rs, rules_of_event (rules_event rs) = Some rs ∧ has_field (lit "type") (rules_event rs) = true ∧ has_field (lit "content") (rules_event rs) = true) →
  count_is d n → n < u64_max → DataInv d n → no_ff u →
  get_data None u push_rules_type d = (Ok (Some ev), d) → rules_of_event ev = Some rules →
  match change rules with
  | Ok rules' =>
      ∃ d', change_push_rules has_field rules_of_event rules_event u change d = (Ok tt, d') ∧
        get_pushrules_all_route rules_of_event u d' = (Ok rules', d') ∧
        ∀ u', no_ff u' → u' ≠ u → (get_pushrules_all_route rules_of_event u' d').1 = (get_pushrules_all_route rules_of_event u' d).1
  | Err e => change_push_rules has_field rules_of_event rules_event u change d = (Err e, d)
  | Panic => change_push_rules has_field rules_of_event rules_event u change d = (Panic, d)
  end.
Proof.
  intros Hev Hc Hn HI Hu Hget Hrules. unfold change_push_rules, get_pushrules_all_route.
  assert (read_push_rules rules_of_event u d = (Ok rules, d)) as Hread
    by (unfold read_push_rules; rewrite (bind_ok _ _ _ _ _ Hget); run; cbn [ok_or]; by rewrite Hrules).
  rewrite (bind_ok _ _ _ _ _ Hread). destruct (change rules) as [rules'|e|]; [|done..].
  destruct (Hev rules') as (Hback & Ht & Hct).
  pose proof (account_data_update_correct Value JV has_field d n None u push_rules_type (rules_event rules') Hc Hn HI ltac:(constructor) Hu eq_refl) as H.
  rewrite Ht, Hct in H. destruct H as (d' & E & _ & _ & Hd' & Hother). exists d'. split_and!.
  - exact E.
  - unfold read_push_rules. rewrite (bind_ok _ _ _ _ _ Hd'). run. cbn [ok_or]. by rewrite Hback.
  - intros u' Hu' Hne. specialize (Hother None u' push_rules_type ltac:(constructor) Hu' ltac:(congruence)).
    unfold read_push_rules. unfold mbind, M_bind.
    destruct (get_data None u' push_rules_type d') as [r1 s1], (get_data None u' push_rules_type d) as [r2 s2]. cbn [fst] in Hother. subst r2.
    destruct r1 as [[ev'|]| |]; [|done..]. cbn. by destruct (rules_of_event ev').
Qed.

(** ** Witness *)

#[local] Existing Instances sample_ruma lru_unbounded elements_order sample_pdu_json sample_versions.
#[local] Instance push_value_json : Json Value := json_countable Value.
#[local] Instance push_redaction_json : Json RedactionContent := json_countable RedactionContent.
#[local] Instance push_localpart : Localpart := {| localpart := λ u, u |}.
#[local] Instance push_gateways : Gateways := {| valid_destination := λ _, true; sendable := λ _, true; gateway := λ _ _, Answered 200 []; read_answer := λ _ _, true |}.

Definition push_create : PduEvent :=
  mkPdu (lit "$c") (Some (lit "!r")) (lit "@a:b") 0 (lit "m.room.create") (lit "{}") (Some []) [] 1 [] None None [] None.

(** A room with a create event. *)
Definition push_setup : M Db unit :=
  s ← append_to_state push_create;
  set_room_state (lit "!r") s;;
  insert eventid_outlierpdu (lit "$c") (to_vec push_create).

Definition push_room : Db := (push_setup empty_db).2.

Definition push_message : PduEvent :=
  mkPdu (lit "$m") (Some (lit "!r")) (lit "@a:b") 0 (lit "m.room.encrypted") (to_vec (VString (lit "secret"))) None [] 2 [] None None [] None.

Definition push_phone : PusherData :=
  mkPusherData (lit "app") (lit "key") (KindHttp (mkHttpPusher (lit "https://p/_matrix/push/v1/notify") (Some EventIdOnly) [])).

(** Rules that notify with a sound. *)
Definition push_rules (_ : unit) (_ : Value) (_ _ _ : bytes) (_ : PowerLevels) : list PushAction := [PushTweak (TweakSound (lit "ring")); PushNotify].

(** The room after the power levels were read. *)
Definition push_room_read : Db := (power_levels (lit "!r") push_room).2.

Lemma with_result {A} (m : M Db A) d a : (m d).1 = Ok a → m d = (Ok a, (m d).2).
Proof. destruct (m d). cbn. congruence. Qed.

Lemma push_room_levels : power_levels (lit "!r") push_room = (Ok tt, push_room_read).
Proof.
  assert ((power_levels (lit "!r") push_room).1 = Ok tt) as H by (vm_compute; reflexivity).
  unfold push_room_read. exact (with_result (power_levels (lit "!r")) push_room tt H).
Qed.

Lemma push_room_names u : kv push_room_read userid_displayname !! u = None → displayname u push_room_read = (Ok None, push_room_read).
Proof. intros E. unfold displayname, get_string, get, kv_get. run. by rewrite E. Qed.

Lemma push_room_name : get_name (CT := sample_contents) (lit "!r") push_room_read = (Ok None, (get_name (CT := sample_contents) (lit "!r") push_room_read).2).
Proof.
  assert ((get_name (CT := sample_contents) (lit "!r") push_room_read).1 = Ok None) as H by (vm_compute; reflexivity).
  exact (with_result (get_name (CT := sample_contents) (lit "!r")) push_room_read None H).
Qed.

Lemma push_notice_exact_witness :
  ∃ r p' n, send_push_notice (CT := sample_contents) push_rules (lit "@u:b") 3 push_phone tt push_message (mkPushing push_room []) = (r, p') ∧
    px_sent p' = [(lit "https://p", n)] ∧ nt_prio n = PrioHigh ∧ nt_sender n = None ∧ nt_content n = None ∧ r = Ok tt.
Proof.
  destruct (to_sync_room_event push_message) as [v| |] eqn:Ev; [|by vm_compute in Ev..].
  destruct (push_notice_exact sample_ruma lru_unbounded elements_order sample_contents sample_versions push_localpart push_gateways
    sample_pdu_json push_value_json push_redaction_json unit push_rules (lit "@u:b") 3 push_phone
    (mkHttpPusher (lit "https://p/_matrix/push/v1/notify") (Some EventIdOnly) []) tt push_message (lit "!r") tt v None None None push_room_read
    (get_name (CT := sample_contents) (lit "!r") push_room_read).2 (mkPushing push_room [])) as (r & p' & E & H).
  - reflexivity.
  - reflexivity.
  - exact push_room_levels.
  - exact Ev.
  - apply push_room_names. vm_compute. reflexivity.
  - apply push_room_names. vm_compute. reflexivity.
  - exact push_room_name.
  - change (∃ n, px_sent p' = [] ++ [(remove_all 0 (lit "/_matrix/push/v1/notify") (lit "https://p/_matrix/push/v1/notify"), n)] ∧
      told push_message (lit "!r") 3 (Some EventIdOnly) [TweakSound (lit "ring")] None None n ∧ (r = Ok tt ↔ true = true)) in H.
    destruct H as (n & Hs & (_ & _ & _ & Hp & Ht) & Hr). exists r, p', n. cbn [decide] in Ht. rewrite decide_True in Ht by reflexivity.
    destruct Ht as (H1 & _ & H2 & _). split_and!; [exact E|exact Hs|apply Hp; left; reflexivity|exact H1|exact H2|by apply Hr].
Defined.
