(* ===== verification/Admin.v ===== *)
(** * Admin: the commands of the admin room

    [server/src/service/admin/mod.rs].  Messages that address the server user in
    the admin room are queued ([TimelineService]); here they are taken from the
    queue, split into a command line and a body, and executed.  The grammar of
    the command line (clap, shell-words) is a parameter, as are the commands
    that only print what a library computes; replies are values, not the texts
    they are printed as. *)
From S2P Require Import Prelude Bytes JsonValue KvTree Pdu Database Short RoomState Accounts StateCache Timeline PduJson AccountData Devices AuthChain RoomTables.
From S2P Require Import Sending StateAccess MemberEvents Uiaa Appservice MediaStore MediaService MediaFiles TimelineService ServerKeys EventHandler EventFetch LocalEvents.
From S2P Require Import Membership LocalAccounts MembershipInv FederationRoutes Rooms AccountRoutes.

(** ** Texts *)

(** [str::lines]: split at line feeds, a carriage return before one is dropped,
    and so is an empty last line. *)
Fixpoint split_lines (acc : bytes) (s : bytes) : list bytes :=
  match s with
  | [] => if bool_decide (acc = []) then [] else [acc]
  | c :: s' => if c =? 10 then (match last acc with Some 13 => removelast acc | _ => acc end) :: split_lines [] s' else split_lines (acc ++ [c]) s'
  end.

Definition lines (s : bytes) : list bytes := split_lines [] s.

(** [lines.join("\n")]. *)
Fixpoint join_lines (l : list bytes) : bytes :=
  match l with
  | [] => []
  | [x] => x
  | x :: l => x ++ 10 :: join_lines l
  end.

Definition blank (l : bytes) : bool := bool_decide (str_trim l = []).

Definition fence : bytes := lit "```".

(** The lines between the fences of a body. *)
Definition code_block (body : list bytes) : option (list bytes) :=
  match body with
  | [] => None
  | first :: rest =>
      if (2 <? Z.of_nat (length body)) && bool_decide (str_trim first = fence) && bool_decide (str_trim <$> last rest = Some fence)
      then Some (removelast rest) else None
  end.

(** ** Commands and replies *)

Record PurgeMediaArgs := mkPurgeMediaArgs {
  purge_media : bool;
  media_from_last : option Z;
  force_filehash : bool;
}.

Inductive AdminCommand :=
  | RegisterAppserviceCmd
  | UnregisterAppservice (appservice_identifier : bytes)
  | ListAppservices
  | ListRooms
  | ListLocalUsers
  | RemoveAlias (alias : bytes)
  | DeactivateUser (leave_rooms : bool) (user_id : bytes) (args : PurgeMediaArgs)
  | DeactivateAll (leave_rooms force : bool) (args : PurgeMediaArgs)
  | QueryMedia (mxc : bytes)
  | ListMedia (user server : option bytes) (include_thumbnails : bool) (content_type : option bytes) (uploaded_before uploaded_after : option Z)
  | PurgeMedia
  | PurgeMediaFromUsers (from_last : option Z) (force_filehash : bool)
  | PurgeMediaFromServer (server_id : bytes) (from_last : option Z) (force_filehash : bool)
  | BlockMedia (and_purge : bool) (reason : option bytes)
  | BlockMediaFromUsers (from_last : option Z) (reason : option bytes)
  | ListBlockedMedia
  | UnblockMedia
  | GetAuthChain (event_id : bytes)
  | GetPdu (event_id : bytes)
  | ClearDatabaseCaches (amount : Z)
  | ResetPassword (username : bytes)
  | CreateUser (username : bytes) (password : option bytes)
  | AllowRegistration (status : option bool)
  | DisableRoom (room_id : bytes)
  | EnableRoom (room_id : bytes)
  (** commands that show what a library, the configuration or the process says *)
  | ToolCommand (name : bytes).

(** What the replies say. *)
Inductive Reply :=
  | Said (text : bytes)
  | SaidOf (text : bytes) (what : bytes)
  | FailedWith (text : bytes) (e : Error)
  | Listing (text : bytes) (items : list bytes)
  | Counted (text : bytes) (n : Z)
  | BadUsers (invalid remote non_existent : list bytes)
  | MediaInfo (info : MediaQuery)
  | MediaListing (items : list MediaListItem)
  | BlockOutcome (failed failed_purge : Z)
  | BlockedListing (items : list BlockedMediaInfo)
  | PduReply (outlier : bool) (json : CanonicalJsonObject)
  | Deactivated (count : Z) (skipped_admins : list bytes) (failed_media : Z)
  | Usage (error : bytes).

Definition no_code_block : Reply := Said (lit "Expected code block in command body. Add --help for details.").

Inductive AdminRoomEvent := ProcessMessage (room_message : bytes) | SendMessage (content : bytes).

(** ** State *)

(** The services, the files of the media, the loaded appservices and whether
    anyone may register. *)
Record AdminState `{RX : Regex} (D : Type) := mkAdminState {
  ad_server : Server;
  ad_disk : D;
  ad_appservices : gmap bytes RegistrationInfo;
  ad_allow_registration : bool;
}.
Arguments mkAdminState {RX D} _ _ _ _.
Arguments ad_server {RX D} _.
Arguments ad_disk {RX D} _.
Arguments ad_appservices {RX D} _.
Arguments ad_allow_registration {RX D} _.

Definition ad_db `{RX : Regex} {D} (a : AdminState D) : Db := sv_db (ad_server a).

Definition set_server_db (d : Db) (s : Server) : Server :=
  let x := sv_sender s in mkServer (mkSender d (s_status x) (s_futures x) (s_channel x) (s_alive x)) (sv_spaces s) (sv_admin s).

Section admin.
Context {RU : Ruma} {LR : LruCache} {HO : HashOrder} {MO : MapOrder} {CT : Contents} {RV : RoomVersions} {EB : EventBodies} {EC : EventChecks}.
Context {SG : Signing} {AP : Appender} {MC : MemberContents} {MR : MemberRemote} {RX : Regex} {LP : Localpart}.
Context {D : Type} {ST : Storage D} {ME : MediaEnv}.
Context `{JP : !Json PduEvent} `{JV : !Json Value} `{JL : !Json (list Value)} `{JR : !Json RedactionContent} `{JF : !Json CanonicalJsonObject} `{JG : !Json Registration}.
Context (server_name server_user admin_alias : bytes).
Context (auth_types_for_event : bytes → bytes → option bytes → bytes → AuthRules → option (list (bytes * bytes))).
Context (calculate_password_hash : bytes → option bytes) (to_lowercase : bytes → bytes) (has_field : bytes → Value → bool).
Context (direct_of : Value → option (list (bytes * list bytes))) (direct_value : list (bytes * list bytes) → Value) (ignored_of : Value → option (list bytes)).
Context (default_push_rules : bytes → Value) (enable_lightning_bolt : bool).
Context (can_send_canonical_alias : bytes → bytes → Db → res bool).
(** [UserId::is_historical], [RoomAliasId::server_name], [MxcUri::parts],
    serde_yaml, and the room id field of a stored event. *)
Context (alias_server : bytes → bytes) (is_historical : bytes → bool) (mxc_parts : bytes → option (bytes * bytes)) (yaml_registration : bytes → option Registration).
Context (room_id_field : CanonicalJsonObject → option bytes).
(** The words of a shell line, clap's parser (an error is a text) and the
    commands that are not modelled. *)
Context (shell_split : bytes → option (list bytes)) (try_parse_from : list bytes → bytes + AdminCommand).
Context (tool_command : bytes → list bytes → M (AdminState D) Reply).
(** The content of the message that carries a reply. *)
Context (reply_content : Reply → bytes).

Notation MA := (M (AdminState D)).

Definition on_srv {A} (m : M Server A) : MA A := λ a,
  let '(r, s) := m (ad_server a) in (r, mkAdminState s (ad_disk a) (ad_appservices a) (ad_allow_registration a)).

Definition adb {A} (m : M Db A) : MA A := on_srv (db_ m).

(** The media service shares the database. *)
Definition on_media {A} (m : M (MediaState D) A) : MA A := λ a,
  let '(r, s) := m (mkMediaState (ad_db a) (ad_disk a)) in
  (r, mkAdminState (set_server_db (ms_db s) (ad_server a)) (ms_disk s) (ad_appservices a) (ad_allow_registration a)).

(** The appservice registrations, with the database; the operations used touch
    neither nonces nor the admin queue. *)
Definition on_appservices {A} (m : M Services A) : MA A := λ a,
  let '(r, s) := m (mkServices (ad_db a) (ad_appservices a) ∅ []) in
  (r, mkAdminState (set_server_db (db s) (ad_server a)) (ad_disk a) (registration_info s) (ad_allow_registration a)).

(** ** Parsing *)

(** [help command] becomes [command --help], and underscores of the command
    become dashes. *)
Definition fix_argv (argv : list bytes) : list bytes :=
  let argv := match argv with
    | prog :: command :: args => if bool_decide (command = lit "help") then prog :: args ++ [lit "--help"] else argv
    | _ => argv
    end in
  match argv with
  | prog :: command :: args => prog :: ((λ c, if c =? 95 then 45 else c) <$> command) :: args
  | _ => argv
  end.

Definition parse_admin_command (command_line : bytes) : bytes + AdminCommand :=
  match shell_split command_line with
  | None => inl (lit "Failed to parse admin command")
  | Some argv => try_parse_from (fix_argv argv)
  end.

(** The users a body names: all of this server and existing, or a reply. *)
Definition sort_user (acc : list bytes * list bytes * list bytes * list bytes) (user : bytes) : M Db (list bytes * list bytes * list bytes * list bytes) :=
  let '(user_ids, remote_ids, non_existent_ids, invalid_users) := acc in
  if negb (user_id_ok user) then mret (user_ids, remote_ids, non_existent_ids, invalid_users ++ [user]) else
  if bool_decide (server_name_of user ≠ server_name) then mret (user_ids, remote_ids ++ [user], non_existent_ids, invalid_users) else
  ex ← exists_ user;
  if (ex : bool) then mret (user_ids ++ [user], remote_ids, non_existent_ids, invalid_users)
  else mret (user_ids, remote_ids, non_existent_ids ++ [user], invalid_users).

Definition userids_from_body (users : list bytes) : M Db (Reply + list bytes) :=
  '(user_ids, remote_ids, non_existent_ids, invalid_users) ← foldM sort_user ([], [], [], []) users;
  if bool_decide (invalid_users = [] ∧ remote_ids = [] ∧ non_existent_ids = []) then mret (inr user_ids)
  else mret (inl (BadUsers invalid_users remote_ids non_existent_ids)).

(** The media a body names; what is no MXC URI is left out. *)
Definition media_from_body (body : list bytes) : Reply + list (bytes * bytes) :=
  match code_block body with
  | Some block => inr (omap mxc_parts block)
  | None => inl no_code_block
  end.

(** [SystemTime] counts seconds in 64 signed bits; a time before 1970 fails an
    assertion. *)
Definition unix_secs_from_duration (now duration : Z) : res Z :=
  if now - duration <? - 2 ^ 63 then
    Err (Prelude.AdminCommand "Given timeframe cannot be represented as system time, please try again with a shorter time-frame")
  else if now - duration <? 0 then Panic else Ok (now - duration).

(** ** Accounts *)

Definition outcome (good bad : bytes) (failed : Z) : Reply := if failed =? 0 then Said good else Counted bad failed.

(** The name a command gives, as a user of this server. *)
Definition local_user (username : bytes) : Reply + bytes :=
  match parse_with_server_name (to_lowercase username) server_name with
  | None => inl (Said (lit "The supplied username is not a valid username"))
  | Some user_id =>
      if bool_decide (server_name_of user_id ≠ server_name) then inl (Said (lit "The specified user is not from this server!")) else inr user_id
  end.

Definition reset_password (new_password username : bytes) : MA Reply :=
  match local_user username with
  | inl reply => mret reply
  | inr user_id =>
      ex ← adb (exists_ user_id);
      conduit ← (if (ex : bool) then lift (expect (parse_with_server_name (lit "conduit") server_name)) else mret []);
      if negb ex || bool_decide (user_id = conduit) then mret (Said (lit "The specified user does not exist!")) else
      r ← attempt (adb (set_password calculate_password_hash user_id (Some new_password)));
      mret (match r with
        | Err e => FailedWith (lit "Couldn't reset the password for user " ++ user_id) e
        | _ => SaidOf (lit "Successfully reset the password for user " ++ user_id) new_password
        end)
  end.

Definition create_user (random_password username : bytes) (password : option bytes) : MA Reply :=
  let password := default random_password password in
  match local_user username with
  | inl reply => mret reply
  | inr user_id =>
      if is_historical user_id then mret (SaidOf user_id (lit " is not allowed due to historical")) else
      ex ← adb (exists_ user_id);
      if (ex : bool) then mret (SaidOf user_id (lit " already exists")) else
      adb (Devices.create calculate_password_hash user_id (Some password));;
      let displayname := localpart user_id ++ (if enable_lightning_bolt then lit " " ++ [226; 154; 161; 239; 184; 143] else []) in
      adb (set_displayname user_id (Some displayname));;
      (* Initial account data *)
      adb (update has_field None user_id (lit "m.push_rules") (default_push_rules user_id));;
      (* we dont add a device since we're not the user, just the creator *)
      mret (SaidOf (lit "Created user with user_id: " ++ user_id) password)
  end.

Definition leave_everything (now : Z) (user_id : bytes) : MA unit :=
  on_srv (leave_all_rooms server_name server_user admin_alias auth_types_for_event calculate_password_hash direct_of direct_value ignored_of now user_id).

(** The start of the period of a purge. *)
Definition purge_after (now : Z) (from_last : option Z) : MA (option Z) := lift (map_transpose (unix_secs_from_duration now) from_last).

Definition purge_users_media (user_ids : list bytes) (force : bool) (after : option Z) : MA Z :=
  foldM (λ failed user_id, errors ← on_media (purge_from_user user_id force after); mret (failed + Z.of_nat (length errors))) 0 user_ids.

Definition deactivate_user (now : Z) (leave_rooms : bool) (user_id : bytes) (args : PurgeMediaArgs) : MA Reply :=
  ex ← adb (exists_ user_id);
  if negb ex then mret (SaidOf user_id (lit " doesn't exist on this server")) else
  if bool_decide (server_name_of user_id ≠ server_name) then mret (SaidOf user_id (lit " is not from this server")) else
  adb (deactivate_account calculate_password_hash user_id);;
  (if leave_rooms then leave_everything now user_id else mret tt);;
  failed ← (if purge_media args then
      after ← purge_after now (media_from_last args);
      purge_users_media [user_id] (force_filehash args) after
    else mret 0);
  mret (outcome (user_id ++ lit " has been deactivated") (user_id ++ lit " has been deactivated, but media failed to be purged") failed).

(** Without [--force], admins are kept and named in the reply, and so are users
    of whom it cannot be told. *)
Definition keep_admins (acc : list bytes * list bytes) (user_id : bytes) : MA (list bytes * list bytes) :=
  let '(kept, admins) := acc in
  r ← attempt (adb (is_admin admin_alias user_id));
  mret (match r with
    | Ok true => (kept, admins ++ [localpart user_id])
    | Ok false => (kept ++ [user_id], admins)
    | _ => (kept, admins)
    end).

Definition deactivate_all (now : Z) (leave_rooms force : bool) (args : PurgeMediaArgs) (body : list bytes) : MA Reply :=
  match code_block body with
  | None => mret no_code_block
  | Some block =>
      users ← adb (userids_from_body block);
      match users with
      | inl message => mret message
      | inr user_ids =>
          '(user_ids, admins) ← (if force then mret (user_ids, []) else foldM keep_admins ([], []) user_ids);
          count ← foldM (λ count user_id,
            r ← attempt (adb (deactivate_account calculate_password_hash user_id));
            mret (match r with Ok _ => count + 1 | _ => count end)) 0 user_ids;
          (if leave_rooms then for_each user_ids (λ user_id, attempt (leave_everything now user_id);; mret tt) else mret tt);;
          failed ← (if purge_media args then
              after ← purge_after now (media_from_last args);
              purge_users_media user_ids (force_filehash args) after
            else mret 0);
          mret (Deactivated count admins failed)
      end
  end.

(** ** Media *)

Definition purge_listed (body : list bytes) : MA Reply :=
  match media_from_body body with
  | inl message => mret message
  | inr media =>
      errors ← on_media (service_purge media true);
      mret (outcome (lit "Successfully purged media") (lit "Failed to delete media") (Z.of_nat (length errors)))
  end.

Definition purge_from_users (now : Z) (from_last : option Z) (force : bool) (body : list bytes) : MA Reply :=
  after ← purge_after now from_last;
  match code_block body with
  | None => mret no_code_block
  | Some block =>
      users ← adb (userids_from_body block);
      match users with
      | inl message => mret message
      | inr user_ids =>
          failed ← purge_users_media user_ids force after;
          mret (outcome (lit "Successfully purged media") (lit "Failed to purge media") failed)
      end
  end.

Definition purge_server_media (now : Z) (server_id : bytes) (from_last : option Z) (force : bool) : MA Reply :=
  if bool_decide (server_id = server_name) then fail (Prelude.AdminCommand "Cannot purge all media from your own homeserver") else
  after ← purge_after now from_last;
  errors ← on_media (purge_from_server server_id force after);
  mret (outcome (lit "Media has successfully been purged") (lit "Failed to purge media") (Z.of_nat (length errors))).

Definition block_listed (now : Z) (and_purge : bool) (reason : option bytes) (body : list bytes) : MA Reply :=
  match media_from_body body with
  | inl message => mret message
  | inr media =>
      failed ← adb (block media now reason);
      failed_purge ← (if and_purge then on_media (service_purge media true) else mret []);
      mret (BlockOutcome (Z.of_nat (length failed)) (Z.of_nat (length failed_purge)))
  end.

Definition block_from_users (now : Z) (from_last : option Z) (reason : option bytes) (body : list bytes) : MA Reply :=
  after ← purge_after now from_last;
  match code_block body with
  | None => mret no_code_block
  | Some block =>
      users ← adb (userids_from_body block);
      match users with
      | inl message => mret message
      | inr user_ids =>
          failed ← foldM (λ failed user_id,
            errors ← adb (block_from_user user_localpart user_id now (default (lit "uploaded by " ++ user_id) reason) after);
            mret (failed + Z.of_nat (length errors))) 0 user_ids;
          mret (outcome (lit "Successfully blocked media") (lit "Failed to block media") failed)
      end
  end.

Definition unblock_listed (body : list bytes) : MA Reply :=
  match media_from_body body with
  | inl message => mret message
  | inr media =>
      errors ← adb (unblock media);
      mret (outcome (lit "Successfully unblocked media") (lit "Failed to unblock media") (Z.of_nat (length errors)))
  end.

(** Times before 1970 are refused. *)
Definition after_epoch (ts : option Z) : res (option Z) :=
  map_transpose (λ ts, if ts <? 0 then Err (Prelude.AdminCommand "Timestamp must be after unix epoch") else Ok ts) ts.

(** ** Executing a command *)

(** The random password is drawn for the commands that need one. *)
Definition process_admin_command (now : Z) (random_password : bytes) (command : AdminCommand) (body : list bytes) : MA Reply :=
  match command with
  | RegisterAppserviceCmd =>
      match code_block body with
      | None => mret no_code_block
      | Some block =>
          match yaml_registration (join_lines block) with
          | None => mret (Said (lit "Could not parse appservice config"))
          | Some yaml =>
              r ← attempt (on_appservices (Appservice.register_appservice yaml));
              mret (match r with
                | Ok id => SaidOf (lit "Appservice registered with ID: ") id
                | Err e => FailedWith (lit "Failed to register appservice") e
                | Panic => no_code_block
                end)
          end
      end
  | UnregisterAppservice appservice_identifier =>
      r ← attempt (on_appservices (unregister_appservice appservice_identifier));
      mret (match r with Err e => FailedWith (lit "Failed to unregister appservice") e | _ => Said (lit "Appservice unregistered.") end)
  | ListAppservices =>
      ids ← gets (λ a, Ok (btree_keys (ad_appservices a)));
      mret (Listing (lit "Appservices") ids)
  | ListRooms =>
      ids ← adb (gets (λ d, Ok (oks (room_ids d))));
      rooms ← foldM (λ rooms id,
        count ← try_ok (adb (room_joined_count id));
        mret (rooms ++ [id ++ lit " Members: " ++ to_string (default 0 (mjoin count))])) [] ids;
      mret (Listing (lit "Rooms") rooms)
  | ListLocalUsers =>
      users ← adb (gets (λ d, Ok (list_local_users d)));
      mret (Listing (lit "Found local user account(s)") users)
  | RemoveAlias alias =>
      if bool_decide (alias_server alias ≠ server_name) then mret (Said (lit "Cannot remove alias which is not from this server")) else
      o ← adb (resolve_local_alias alias);
      match o with
      | None => mret (Said (lit "No such alias exists"))
      | Some _ =>
          adb (remove_alias server_user (λ user d, (is_admin admin_alias user d).1) can_send_canonical_alias alias server_user);;
          mret (Said (lit "Alias removed successfully"))
      end
  | DeactivateUser leave_rooms user_id args => deactivate_user now leave_rooms user_id args
  | DeactivateAll leave_rooms force args => deactivate_all now leave_rooms force args body
  | QueryMedia mxc =>
      match mxc_parts mxc with
      | None => mret (Said (lit "Invalid media MXC"))
      | Some (server, media_id) => info ← adb (query hex server media_id); mret (MediaInfo info)
      end
  | ListMedia user server include_thumbnails content_type uploaded_before uploaded_after =>
      before ← lift (after_epoch uploaded_before);
      after ← lift (after_epoch uploaded_after);
      items ← adb (list_media user_localpart
        (match user with Some u => Some (ByUser u) | None => ByServer <$> server end) include_thumbnails content_type before after);
      mret (MediaListing items)
  | PurgeMedia => purge_listed body
  | PurgeMediaFromUsers from_last force => purge_from_users now from_last force body
  | PurgeMediaFromServer server_id from_last force => purge_server_media now server_id from_last force
  | BlockMedia and_purge reason => block_listed now and_purge reason body
  | BlockMediaFromUsers from_last reason => block_from_users now from_last reason body
  | ListBlockedMedia =>
      items ← adb (gets (λ d, Ok (oks (list_blocked hex d))));
      mret (BlockedListing items)
  | UnblockMedia => unblock_listed body
  | GetAuthChain event_id =>
      o ← adb (get_pdu_json (Obj := CanonicalJsonObject) event_id);
      match o with
      | None => mret (Said (lit "Event not found."))
      | Some event =>
          room ← lift (ok_or (room_id_field event) (BadDatabase "Invalid event in database"));
          if negb (room_id_ok room) then fail (BadDatabase "Invalid room id field in event in database") else
          chain ← adb (get_auth_chain room [event_id]);
          mret (Counted (lit "Loaded auth chain with length") (Z.of_nat (length chain)))
      end
  | GetPdu event_id =>
      accepted ← adb (get_non_outlier_pdu_json (Obj := CanonicalJsonObject) event_id);
      match accepted with
      | Some json => mret (PduReply false json)
      | None =>
          o ← adb (get_pdu_json event_id);
          mret (match o with Some json => PduReply true json | None => Said (lit "PDU not found.") end)
      end
  | ClearDatabaseCaches amount => adb (clear_caches amount);; mret (Said (lit "Done."))
  | ResetPassword username => reset_password random_password username
  | CreateUser username password => create_user random_password username password
  | AllowRegistration (Some status) =>
      modify (λ a, mkAdminState (ad_server a) (ad_disk a) (ad_appservices a) status);;
      mret (Said (if status then lit "Registration is now enabled" else lit "Registration is now disabled"))
  | AllowRegistration None =>
      allowed ← gets (λ a, Ok (ad_allow_registration a));
      mret (Said (if (allowed : bool) then lit "Registration is currently enabled" else lit "Registration is currently disabled"))
  | DisableRoom room_id => adb (disable_room room_id true);; mret (Said (lit "Room disabled."))
  | EnableRoom room_id => adb (disable_room room_id false);; mret (Said (lit "Room enabled."))
  | ToolCommand name => tool_command name body
  end.

(** A message: the first line that is not blank is the command, the others that
    are not are the body. *)
Definition process_admin_message (now : Z) (random_password : bytes) (room_message : bytes) : MA Reply :=
  match bfilter (λ l, negb (blank l)) (lines room_message) with
  | [] => lift Panic
  | command_line :: body =>
      match parse_admin_command command_line with
      | inl error => mret (Usage error)
      | inr command =>
          r ← attempt (process_admin_command now random_password command body);
          mret (match r with Ok reply => reply | Err e => FailedWith (lit "Encountered an error while handling the command") e | Panic => no_code_block end)
      end
  end.

(** One event of the queue: its reply, or the message itself, is sent to the
    admin room by the server user. *)
Definition handle_event (now : Z) (random_password conduit_room : bytes) (event : AdminRoomEvent) : MA unit :=
  content ← match event with
    | SendMessage content => mret content
    | ProcessMessage room_message => reply ← process_admin_message now random_password room_message; mret (reply_content reply)
    end;
  unwrap (on_srv (build_and_append_pdu server_name server_user admin_alias auth_types_for_event now
    (mkBuilder (lit "m.room.message") content None None None None) server_user conduit_room));;
  mret tt.
End admin.

(** ** Lemmas *)

Section lemmas.
Context {RU : Ruma} {RX : Regex} {LP : Localpart} {D : Type} (server_name : bytes).
Implicit Types (a : AdminState D) (d : Db) (u : bytes).

Lemma adb_result {A} (m : M Db A) a : (adb m a).1 = (m (ad_db a)).1.
Proof. unfold adb, on_srv, db_, on_sender, with_db, ad_db, sv_db. by destruct (m _). Qed.

Lemma adb_db {A} (m : M Db A) a : ad_db (adb m a).2 = (m (ad_db a)).2.
Proof. unfold adb, on_srv, db_, on_sender, with_db, ad_db, sv_db. by destruct (m _). Qed.

(** What may be deactivated: a user the body names, of this server, with an
    account. *)
Definition nameable (block : list bytes) d u : Prop :=
  u ∈ block ∧ server_name_of u = server_name ∧ is_Some (kv d userid_password !! u).

Lemma sort_user_db acc u d : (sort_user server_name acc u d).2 = d.
Proof.
  destruct acc as [[[ids remote] missing] invalid]. unfold sort_user, exists_, get. run.
  repeat (case_match; try done).
Qed.

Lemma sort_users_sound block users acc d acc' d' :
  foldM (sort_user server_name) acc users d = (Ok acc', d') → (∀ u, u ∈ users → u ∈ block) →
  (∀ u, u ∈ acc.1.1.1 → nameable block d u) → d' = d ∧ ∀ u, u ∈ acc'.1.1.1 → nameable block d u.
Proof.
  revert acc. induction users as [|u users IH]; intros acc H Hsub Hacc; cbn [foldM] in H; [injection H as <- <-; done|].
  apply bind_inv in H as (acc1 & d1 & E & H). assert (d1 = d) as -> by (pose proof (sort_user_db acc u d) as Hd; by rewrite E in Hd).
  apply (IH acc1) in H; [done|set_solver|]. clear IH H. intros u' Hu'.
  destruct acc as [[[ids remote] missing] invalid]. cbn [fst] in Hacc. unfold sort_user, exists_, get, kv_get in E. run in E.
  destruct (negb (user_id_ok u)); [injection E as <-; by apply Hacc|].
  case_bool_decide as Hs; [injection E as <-; by apply Hacc|].
  case_bool_decide as Hx; injection E as <-; [|by apply Hacc].
  apply elem_of_app in Hu' as [Hu'|E1%list_elem_of_singleton]; [by apply Hacc|]. subst u'. split_and!; [apply Hsub; by left| |done].
  destruct (decide (server_name_of u = server_name)); [done|]. by destruct Hs.
Qed.

Lemma userids_from_body_sound block d ids d' :
  userids_from_body server_name block d = (Ok (inr ids), d') → d' = d ∧ ∀ u, u ∈ ids → nameable block d u.
Proof.
  unfold userids_from_body. intros ([[[l remote] missing] invalid] & d1 & E & H)%bind_inv.
  apply (sort_users_sound block) in E as [-> E]; [|done|set_solver].
  case_bool_decide; [|done]. injection H as <- <-. by split.
Qed.

Lemma userids_from_body_db block d : (userids_from_body server_name block d).2 = d.
Proof.
  unfold userids_from_body. assert (∀ acc l, (foldM (sort_user server_name) acc l d).2 = d) as Hf.
  { intros acc l. revert acc. induction l as [|x l IH]; intros acc; cbn [foldM]; [done|]. pose proof (sort_user_db acc x d) as Hx.
    destruct (sort_user server_name acc x d) as [[acc'|e|] d1] eqn:E; cbn [snd] in Hx; subst d1;
      [by rewrite (bind_ok _ _ _ _ _ E)|by rewrite (bind_err _ _ _ _ _ E)|by rewrite (bind_panic _ _ _ _ E)]. }
  match goal with |- ((?m ≫= ?k) d).2 = d => assert ((m d).2 = d) as Hm by apply Hf; unfold mbind, M_bind; destruct (m d) as [[acc|e|] d1]; cbn [snd] in Hm; subst d1 end; [|done..].
  destruct acc as [[[l remote] missing] invalid]. by case_bool_decide.
Qed.

Context (admin_alias : bytes).

Lemma is_admin_db u d : (is_admin admin_alias u d).2 = d.
Proof.
  unfold is_admin, get_admin_room, resolve_local_alias, is_joined, has_userroom, get. run. by repeat (case_match; try done).
Qed.

(** Asking who is an admin changes nothing. *)
Lemma keep_admin_db acc u a : ad_db (keep_admins admin_alias acc u a).2 = ad_db a.
Proof.
  destruct acc as [kept admins]. unfold keep_admins, mbind, M_bind, attempt. pose proof (adb_db (is_admin admin_alias u) a) as Hd.
  rewrite is_admin_db in Hd. by destruct (adb (is_admin admin_alias u) a) as [[]].
Qed.

Lemma keep_all_db users acc a : ad_db (foldM (keep_admins admin_alias) acc users a).2 = ad_db a.
Proof.
  revert acc a. induction users as [|u users IH]; intros acc a; cbn [foldM]; [done|]. pose proof (keep_admin_db acc u a) as Hd.
  destruct (keep_admins admin_alias acc u a) as [[acc'|e|] a1] eqn:E;
    [rewrite (bind_ok _ _ _ _ _ E), IH|rewrite (bind_err _ _ _ _ _ E)|rewrite (bind_panic _ _ _ _ E)]; exact Hd.
Qed.

Lemma keep_admins_sound users acc a acc' a' :
  foldM (keep_admins admin_alias) acc users a = (Ok acc', a') →
  (∀ u, u ∈ acc.1 → (is_admin admin_alias u (ad_db a)).1 = Ok false) →
  ad_db a' = ad_db a ∧ ∀ u, u ∈ acc'.1 → (u ∈ acc.1 ∨ u ∈ users) ∧ (is_admin admin_alias u (ad_db a)).1 = Ok false.
Proof.
  revert acc a. induction users as [|u users IH]; intros acc a H Hacc; cbn [foldM] in H; [injection H as <- <-; naive_solver|].
  apply bind_inv in H as (acc1 & a1 & E & H). destruct acc as [kept admins]. unfold keep_admins in E.
  apply bind_inv in E as (r & a2 & E & E1). injection E1 as E1 ->.
  assert (ad_db a1 = ad_db a ∧ r = (is_admin admin_alias u (ad_db a)).1) as [Ed Er].
  { unfold attempt in E. pose proof (adb_result (is_admin admin_alias u) a) as Hr. pose proof (adb_db (is_admin admin_alias u) a) as Hd.
    rewrite is_admin_db in Hd. destruct (adb (is_admin admin_alias u) a) as [r' a2]. cbn [fst snd] in Hr, Hd. subst r'.
    destruct ((is_admin admin_alias u (ad_db a)).1); by simplify_eq. }
  apply (IH acc1) in H.
  - rewrite Ed in H. destruct H as [H1 H2]. split; [done|]. intros u' Hu'. apply H2 in Hu' as [Hin Hadm]. split; [|done].
    rewrite elem_of_cons. destruct Hin as [Hin|Hin]; [|by right; right].
    destruct r as [[]| |]; subst acc1; cbn [fst] in *; [by left| |by left..]. apply elem_of_app in Hin as [|E1%list_elem_of_singleton]; [by left|right; left; exact E1].
  - rewrite Ed. intros u' Hu'. destruct r as [[]| |] eqn:Hr; subst acc1; cbn [fst] in *; [by apply Hacc| |by apply Hacc..].
    apply elem_of_app in Hu' as [|E1%list_elem_of_singleton]; [by apply Hacc|by subst u'].
Qed.

Lemma remove_device_passwords u dv : keeps_field (λ d, kv d userid_password) (remove_device u dv).
Proof. unfold remove_device. keeps. Qed.

Context (calculate_password_hash : bytes → option bytes).

Lemma deactivate_account_other u d u' :
  u' ≠ u → kv (deactivate_account calculate_password_hash u d).2 userid_password !! u' = kv d userid_password !! u'.
Proof.
  intros Hne. unfold deactivate_account. run. set (devices := for_each _ _).
  assert (keeps_field (λ d, kv d userid_password) devices) as Hk.
  { unfold devices. apply keeps_for_each. intros [dv| |] s; [apply remove_device_passwords|done..]. }
  specialize (Hk d). cbn beta in Hk. destruct (devices d) as [[x| |] d1]; cbn [snd] in *; [|by rewrite Hk..].
  unfold set_password, insert. run. cbn [snd]. kv_simpl. unfold kv_insert. rewrite lookup_insert_ne by done. by rewrite Hk.
Qed.

(** ** What keeps an account *)

Definition Unchanged u (a a' : AdminState D) : Prop := kv (ad_db a') userid_password !! u = kv (ad_db a) userid_password !! u.

#[local] Instance Unchanged_preorder u : PreOrder (Unchanged u).
Proof. split; [by intros a|]. intros a1 a2 a3 H1 H2. unfold Unchanged in *. by rewrite H2. Qed.

Lemma along_attempt u {A} (m : M (AdminState D) A) : along (Unchanged u) m → along (Unchanged u) (attempt m).
Proof. intros Hm a. unfold attempt. specialize (Hm a). by destruct (m a) as [[]]. Qed.

Lemma along_foldM u {A B} (f : B → A → M (AdminState D) B) l : (∀ b x, x ∈ l → along (Unchanged u) (f b x)) → ∀ b, along (Unchanged u) (foldM f b l).
Proof.
  induction l as [|x l IH]; intros Hf b; cbn [foldM]; [apply along_ret, _|]. apply along_bind; [apply _|by apply Hf, list_elem_of_here|].
  intros b'. apply IH. intros b'' y Hy. by apply Hf, list_elem_of_further.
Qed.

(** Deactivating other users. *)
Lemma deactivations_other ids n u : u ∉ ids → along (Unchanged u)
  (foldM (λ count user_id,
    r ← attempt (adb (deactivate_account calculate_password_hash user_id));
    mret (match r with Ok _ => count + 1 | _ => count end)) n ids).
Proof.
  intros Hu. apply along_foldM. intros b x Hx. apply along_bind; [apply _| |intros; apply along_ret, _]. apply along_attempt.
  intros a. unfold Unchanged. rewrite adb_db. apply deactivate_account_other. by intros ->.
Qed.
End lemmas.

(** ** A queued message has a command line *)

Lemma strip_first fuel ws c s : (∀ w, w ∈ ws → w ≠ [] ∧ head w ≠ Some c) → strip fuel ws (c :: s) = c :: s.
Proof.
  intros H. destruct fuel as [|fuel]; [done|]. cbn [strip]. destruct (find _ ws) as [w|] eqn:E; [|done]. exfalso.
  apply find_Some in E as [Hw Hin]. destruct (H w Hin) as [Hne Hh]. destruct w as [|x w]; [done|].
  cbn in Hw, Hh. apply andb_true_iff in Hw as [Hx _]. apply Hh. f_equal. apply Z.eqb_eq in Hx. lia.
Qed.

(** No blank begins or ends like an at sign. *)
Lemma white_space_not_at : Forall (λ w, w ≠ [] ∧ head w ≠ Some 64) white_space.
Proof. repeat (apply Forall_cons; split; [by split|]). apply Forall_nil_2. Qed.

Lemma strip_keeps_last fuel ws (s : bytes) c :
  last s = Some c → (∀ w, w ∈ ws → w ≠ [] ∧ last w ≠ Some c) → strip fuel ws s ≠ [].
Proof.
  revert s. induction fuel as [|fuel IH]; intros s Hs Hws; cbn [strip]; [by intros ->|].
  destruct (find _ ws) as [w|] eqn:Ef; [|by intros ->]. apply find_Some in Ef as [Hw Hin]. destruct (Hws w Hin) as [Hne Hl].
  apply IH; [|done]. apply starts_with_spec in Hw as [r ->]. rewrite drop_app_length. rewrite last_app in Hs. by destruct (last r).
Qed.

(** A line that opens with an at sign is not blank. *)
Lemma at_not_blank s : blank (64 :: s) = false.
Proof.
  pose proof white_space_not_at as Hws. rewrite Forall_forall in Hws.
  unfold blank. apply bool_decide_eq_false_2. unfold str_trim. rewrite strip_first by done.
  intros E. apply (f_equal reverse) in E. rewrite reverse_involutive in E. revert E. apply (strip_keeps_last _ _ _ 64).
  - by rewrite last_reverse.
  - intros w Hw. apply list_elem_of_fmap in Hw as (x & -> & Hx). rewrite last_reverse. destruct (Hws x Hx) as [Hne Hh]. split; [|done].
    intros Ex. apply (f_equal reverse) in Ex. by rewrite reverse_involutive in Ex.
Qed.

Lemma split_lines_head c acc s : c ≠ 13 → ∃ rest l, split_lines (c :: acc) s = (c :: rest) :: l.
Proof.
  intros Hc. revert acc. induction s as [|x s IH]; intros acc; cbn [split_lines].
  - rewrite bool_decide_eq_false_2 by done. eauto.
  - destruct (x =? 10); [|apply (IH (acc ++ [x]))]. destruct (last (c :: acc)) as [y|] eqn:El; [|eauto].
    destruct (decide (y = 13)) as [->|Hy].
    + destruct acc as [|z acc]; [by injection El as ->|]. exists (removelast (z :: acc)). eauto.
    + exists acc, (split_lines [] s). f_equal. by repeat (case_match; try done).
Qed.

(** The messages the timeline queues start with the name of the server user, so
    the handler always finds a command line in them. *)
Theorem queued_message_has_command (server_name : bytes) body :
  to_conduit (lit "@conduit:" ++ server_name) body = true →
  ∃ command_line rest, bfilter (λ l, negb (blank l)) (lines body) = command_line :: rest ∧ head command_line = Some 64.
Proof.
  intros H. assert (∃ s, body = 64 :: s) as [s ->].
  { unfold to_conduit in H. rewrite !orb_true_iff in H. destruct H as [[[H|H]|H]|H].
    1,2: apply starts_with_spec in H as [r ->]; eexists; reflexivity.
    all: apply bool_decide_eq_true in H as ->; eexists; reflexivity. }
  unfold lines. change (split_lines [] (64 :: s)) with (split_lines [64] s).
  destruct (split_lines_head 64 [] s ltac:(done)) as (rest & l & ->). cbn [bfilter]. rewrite at_not_blank. cbn [negb].
  eexists _, _. split; [done|]. done.
Qed.

(** ** Claims *)

Section deactivation.
Context {RU : Ruma} {LR : LruCache} {HO : HashOrder} {MO : MapOrder} {CT : Contents} {RV : RoomVersions} {EB : EventBodies}.
Context {EC : EventChecks} {SG : Signing} {AP : Appender} {MC : MemberContents} {MR : MemberRemote} {RX : Regex} {LP : Localpart}.
Context {D : Type} {ST : Storage D} {ME : MediaEnv} {JP : Json PduEvent} {JV : Json Value} {JL : Json (list Value)} {JR : Json RedactionContent}.
Context (server_name server_user admin_alias : bytes) {KA : KeepsAccounts server_name}.
Context (auth_types_for_event : bytes → bytes → option bytes → bytes → AuthRules → option (list (bytes * bytes))).
Context (calculate_password_hash : bytes → option bytes).
Context (direct_of : Value → option (list (bytes * list bytes))) (direct_value : list (bytes * list bytes) → Value) (ignored_of : Value → option (list bytes)).
Context (now : Z) (u : bytes) (local : server_name_of u = server_name).
#[local] Existing Instance Unchanged_preorder.

(** Leaving rooms and purging media keep the accounts of this server. *)
Lemma leave_everything_unchanged user : along (Unchanged (D := D) u)
  (leave_everything server_name server_user admin_alias auth_types_for_event calculate_password_hash direct_of direct_value ignored_of now user).
Proof.
  intros a. unfold leave_everything, on_srv, Unchanged, ad_db.
  pose proof (leave_all_rooms_keeps server_name server_user admin_alias auth_types_for_event calculate_password_hash direct_of direct_value ignored_of u local now user (ad_server a)) as H.
  by destruct (leave_all_rooms _ _ _ _ _ _ _ _ now user (ad_server a)).
Qed.

Lemma purge_unchanged ids force after : along (Unchanged (D := D) u) (purge_users_media ids force after).
Proof.
  unfold purge_users_media. apply along_foldM. intros n user _. apply along_bind; [apply _| |intros; apply along_ret, _].
  intros a. unfold on_media, Unchanged. pose proof (purge_from_user_keeps u user force after (mkMediaState (ad_db a) (ad_disk a))) as H.
  by destruct (purge_from_user user force after (mkMediaState (ad_db a) (ad_disk a))).
Qed.

(** What follows for the users that are kept in the list. *)
Lemma aftermath_unchanged kept (leave_rooms : bool) args admins : u ∉ kept → along (Unchanged (D := D) u)
  (count ← foldM (λ count user_id,
      r ← attempt (adb (deactivate_account calculate_password_hash user_id));
      mret (match r with Ok _ => count + 1 | _ => count end)) 0 kept;
   (if leave_rooms then for_each kept (λ user_id, attempt (leave_everything server_name server_user admin_alias auth_types_for_event calculate_password_hash
       direct_of direct_value ignored_of now user_id);; mret tt) else mret tt);;
   failed ← (if purge_media args then
       after ← purge_after now (media_from_last args);
       purge_users_media kept (force_filehash args) after
     else mret 0);
   mret (Deactivated count admins failed)).
Proof.
  intros Hu. apply along_bind; [apply _|by apply deactivations_other|]. intros count. apply along_bind; [apply _| |].
  - destruct leave_rooms; [|apply along_ret, _]. apply along_for_each; [apply _|]. intros x.
    apply along_bind; [apply _|apply along_attempt, leave_everything_unchanged|intros; apply along_ret, _].
  - intros _. apply along_bind; [apply _| |intros; apply along_ret, _]. destruct (purge_media args); [|apply along_ret, _].
    apply along_bind; [apply _|apply along_lift, _|]. intros after. apply purge_unchanged.
Qed.

(** C40: Deactivating a list of users.  Whatever list an admin sends, whichever
    options it is sent with (forcing, leaving all rooms, purging media) and
    however the command ends, the only accounts of this server that change are
    accounts the list names and, unless the command is forced, whose user is not
    an admin. *)
Theorem deactivation_limited leave_rooms force args body (a : AdminState D) :
  let a' := (deactivate_all server_name server_user admin_alias auth_types_for_event calculate_password_hash direct_of direct_value ignored_of
    now leave_rooms force args body a).2 in
  kv (ad_db a') userid_password !! u ≠ kv (ad_db a) userid_password !! u →
  ∃ block, code_block body = Some block ∧ nameable server_name block (ad_db a) u ∧
    (force = false → (is_admin admin_alias u (ad_db a)).1 = Ok false).
Proof.
  unfold deactivate_all. destruct (code_block body) as [block|]; [|done]. cbv zeta. intros Hu. exists block. split; [done|].
  pose proof (adb_result (userids_from_body server_name block) a) as Hr. pose proof (adb_db (userids_from_body server_name block) a) as Hd.
  rewrite userids_from_body_db in Hd. destruct (adb (userids_from_body server_name block) a) as [r a1] eqn:E. cbn [fst snd] in Hr, Hd.
  destruct r as [users|e|]; [rewrite (bind_ok _ _ _ _ _ E) in Hu|rewrite (bind_err _ _ _ _ _ E) in Hu; by rewrite <-Hd in Hu|rewrite (bind_panic _ _ _ _ E) in Hu; by rewrite <-Hd in Hu].
  destruct users as [message|ids]; [by rewrite <-Hd in Hu|].
  assert (∀ u, u ∈ ids → nameable server_name block (ad_db a) u) as Hids.
  { destruct (userids_from_body server_name block (ad_db a)) as [r d'] eqn:Eu. cbn [fst] in Hr. subst r. by apply userids_from_body_sound in Eu as [_ Hn]. }
  set (select := if force then _ else _) in Hu.
  assert (ad_db (select a1).2 = ad_db a ∧ ∀ kept admins, (select a1).1 = Ok (kept, admins) →
    ∀ u, u ∈ kept → u ∈ ids ∧ (force = false → (is_admin admin_alias u (ad_db a)).1 = Ok false)) as [Hd2 Hkept].
  { unfold select. destruct force; [split; [done|]; by intros kept admins [= <- _] u' Hu'|]. rewrite <-Hd. split; [apply keep_all_db|].
    intros kept admins Hk u' Hu'. destruct (foldM _ _ ids a1) as [r2 a2] eqn:E2. cbn [fst] in Hk. subst r2.
    apply keep_admins_sound in E2 as [_ Hk]; [|intros x Hx; by apply elem_of_nil in Hx]. apply Hk in Hu' as [[Hin|Hin] Hadm]; [by apply elem_of_nil in Hin|]. by split. }
  destruct (select a1) as [r2 a2] eqn:E2. cbn [fst snd] in Hd2, Hkept.
  destruct r2 as [[kept admins]|e|]; [rewrite (bind_ok _ _ _ _ _ E2) in Hu|rewrite (bind_err _ _ _ _ _ E2) in Hu; by rewrite <-Hd2 in Hu|rewrite (bind_panic _ _ _ _ E2) in Hu; by rewrite <-Hd2 in Hu].
  destruct (decide (u ∈ kept)) as [Hin|Hout].
  - destruct (Hkept kept admins eq_refl u Hin). split; [by apply Hids|done].
  - exfalso. apply Hu. rewrite <-Hd2. clear Hu. revert a2 E2 Hd2 Hkept. intros a2 _ _ _. apply (aftermath_unchanged kept leave_rooms args admins Hout a2).
Qed.
End deactivation.

(** ** Witness *)

#[local] Existing Instances sample_ruma lru_unbounded elements_order sample_map_order sample_versions sample_create_contents room_bodies sample_checks.
#[local] Existing Instances fetch_object_json fetch_redaction_json room_value_json leave_list_json fetch_pdu_json sample_signing keeper sample_member_contents.
#[local] Existing Instances sample_regex silent_servers account_localpart mem_storage mem_env.

(** Two accounts, one of them in the admin room. *)
Definition admins_db : Db :=
  upd userid_password (λ _, {[lit "@a:b" := lit "pa"; lit "@u:b" := lit "pu"]})
    (upd alias_roomid (λ _, {[alias_of (lit "#admins:b") := lit "!adm:b"]})
      (upd userroomid_joined (λ _, {[lit "@a:b" ++ ff :: lit "!adm:b" := []]}) empty_db)).

Definition admins_state : AdminState MemDisk := mkAdminState (mkServer (mkSender admins_db ∅ [] [] true) ∅ []) (mkMemDisk ∅ ∅) ∅ true.

#[local] Instance keeper_accounts : KeepsAccounts (AP := keeper) (lit "b").
Proof.
  intros pdu json leaves s u _. cbn [append_event keeper]. unfold keep_event. rewrite sv_db_db.
  assert (keeps_field (λ d, kv d userid_password !! u) (insert eventid_outlierpdu (pdu_event_id pdu) (to_vec pdu);; room ← lift (room_id pdu);
    set_forward_extremities room leaves;; mret (@nil Z))) as Hk; [unfold set_forward_extremities, remove_prefix; keeps|]. by rewrite (Hk (sv_db s)).
Qed.

(** With all options but force. *)
Definition deactivated : res Reply * AdminState MemDisk :=
  deactivate_all (lit "b") (lit "@conduit:b") (lit "#admins:b") (λ _ _ _ _ _, Some []) (λ p, Some p) (λ _, None) (λ _, VNull) (λ _, None)
    5 true false (mkPurgeMediaArgs true None true) [fence; lit "@a:b"; lit "@u:b"; fence] admins_state.

Lemma deactivation_limited_witness :
  deactivated.1 = Ok (Deactivated 1 [lit "@a:b"] 0) ∧ kv (ad_db deactivated.2) userid_password !! lit "@u:b" = Some [] ∧
  (is_admin (lit "#admins:b") (lit "@u:b") admins_db).1 = Ok false.
Proof.
  split; [vm_compute; reflexivity|]. assert (kv (ad_db deactivated.2) userid_password !! lit "@u:b" = Some []) as Hu by (vm_compute; reflexivity).
  split; [exact Hu|]. unfold deactivated in Hu.
  destruct (deactivation_limited (RU := sample_ruma) (lit "b") (lit "@conduit:b") (lit "#admins:b") (λ _ _ _ _ _, Some []) (λ p, Some p) (λ _, None) (λ _, VNull) (λ _, None) 5 (lit "@u:b") eq_refl
    true false (mkPurgeMediaArgs true None true) [fence; lit "@a:b"; lit "@u:b"; fence] admins_state) as (block & _ & _ & H).
  - rewrite Hu. vm_compute. discriminate.
  - exact (H eq_refl).
Defined.
